(* ===== verification/_CoqProject ===== *)
-Q . S2P
Prelude.v
Wire.v
Controller.v
ControllerFacts.v
CtlSpec.v
Wiring.v
Sched.v
SchedFacts.v
PoolFacts.v
GenFacts.v
Scenario.v
Hash.v
Base64.v
MiniPb.v
Http.v
HttpFacts.v
WsSlot.v
WsFacts.v
HttpServer.v
Double.v
Config.v
ConfigFacts.v
DurationFacts.v
Json.v
JsonFacts.v
EnvFile.v
EnvFileFacts.v
Callbacks.v
CallbacksFacts.v
Spec.v
SpecFacts.v
StageOps.v
StageOpsFacts.v
Oci.v
OciFacts.v
OciText.v
OciSpec.v
Cdi.v
CdiFacts.v
CdiResolve.v
CdiScenario.v
Huffman.v
Hpack.v
HpackFacts.v
HpackBlocks.v
HpackSafe.v
H2cState.v
H2c.v
H2cFrames.v
H2cFacts.v
H2cReassembly.v
H2cWf.v
H2cPublic.v
H2cSend.v
H2cTime.v
H2cScenario.v
Snapshots.v
Client.v
ClientChain.v
ClientOps.v
ClientFacts.v
ClientSpecs.v
ClientTasks.v
ClientSession.v
Listener.v
ClientScenario.v
Run.v
Main.v
CLib.v
Notify.v
Entrypoint.v
DnsWire.v
Ddns.v
DdnsCheck.v
CcSpec.v
CcJson.v
CcCtr.v
CcHttp.v
CcGrpc.v
CcGrpcFacts.v
