(* ===== verification/Prelude.v ===== *)
(** * Verification of the strimserver controller

    The program is the C controller of a streaming server
    (src/core/controller/c/).  It decides which media containers should run,
    asks containerd to start and stop them, and reports its status over HTTP
    and WebSocket.

    ** How the program is put together

    - The controller core (core/controller.c) owns the state: the status of
      the paths, the current and desired state of the stages, the listeners.
      Every change is an action on one queue, consumed by one thread.  A
      reconcile action launches at most one op per stage on a pool of workers;
      an op carries the generation of its stage and a deadline, and a later
      fire supersedes it.
    - The stage ops (main.c, stage_stop_op and stage_start_op) talk to
      containerd, through the layout, mounts and argv of core/spec.c.
    - The HTTP lane (http/http_server.c) receives events, control commands and
      status queries, upgrades /subscribe to WebSocket and keeps four client
      slots; the callbacks of main.c translate its JSON to actions and the
      controller's notifications to frames.
    - main.c reads the configuration from the environment, possibly extended
      by an env file, prints its documentation, and wires the rest together;
      envfile.c also renders templates.
    - containerd is reached over a Unix socket by the gRPC client of
      containerd/h2c.c, with its own HTTP/2 framing, flow control and HPACK.
      containerd/containerd_client.c makes its calls: images, containers,
      tasks and events, with the snapshots of containerd/snapshots.c.
    - A new container's spec is the OCI document of containerd/oci_spec.c,
      with the device edits that containerd/cdi.c resolved from the CDI spec
      files of the host.
    - A listener thread of main.c turns task events into stage events.
    - run() of main.c starts everything, waits for a signal, and stops it in
      order; main() reads the flags.
    - Around the controller: the hook that posts path events (core/notify.c),
      the entrypoint of the mediamtx container (core/entrypoint.c), and the
      dynamic DNS client (tools/ddns).
    - A second controller, for an assembly port (alternate/c), has its own
      containerd operations in cc_ctr.c: a spec writer, a JSON extractor, an
      incremental SHA-256 and one function per call, over unary gRPC.  Its
      transport is cc_grpc.c, whose subscriptions call back from a poll loop;
      its HTTP lane is cc_http.c, over libwebsockets.
    - Supporting routines: SHA-1 and base64 (http/ws_crypto.c), SHA-256
      (containerd/sha256.c), a protobuf reader and writer
      (containerd/minipb.h) and the content-store read (containerd/content.c).

    ** Files

    - [Prelude] (this file): machine integers, C strings and buffers, list and
      option lemmas, tactics, hint databases.
    - [Wire]: the enum tables of controller.c and their string conversions.
    - [Controller], [ControllerFacts], [CtlSpec]: the controller's data and
      handlers (controller.c), their functional properties and the
      well-formedness invariant, the abstract specification of the nine
      actions and the refinement theorem.
    - [Sched], [SchedFacts], [PoolFacts], [GenFacts], [Scenario]: queue, worker
      pool and wait group as a labelled step relation [step]; liveness of
      submitters, accounting of ops, generations, shutdown; concrete runs.
    - [Wiring]: the routes, stages and tables run() builds.
    - [Hash], [Base64], [MiniPb]: the supporting routines and their standards.
    - [Http], [HttpFacts]: the request side of http_server.c.
    - [WsSlot], [WsFacts]: the WebSocket slots of http_server.c;
      [HttpServer]: the server around them, from start to
      destruction, and the listeners it registers.
    - [Double], [Config], [ConfigFacts], [DurationFacts]: doubles, the
      configuration of main.c, Go durations both ways.
    - [EnvFile], [EnvFileFacts]: envfile.c.
    - [Callbacks], [CallbacksFacts]: the functions of
      main.c between the HTTP lane and the controller.
    - [Json], [JsonFacts]: JSON documents as the yyjson calls see them, their
      text and a reader of it.
    - [Spec], [SpecFacts]: core/spec.c.
    - [StageOps], [StageOpsFacts]: the stop and start ops.
    - [Oci], [OciFacts], [OciText], [OciSpec]: oci_spec.c, the
      document it is to write, the text of every part, and the devices a
      written spec opens.
    - [Cdi], [CdiFacts], [CdiResolve], [CdiScenario]: cdi.c, its bounds, the
      reading of spec files, and the way from the files to a container's
      devices.
    - [Huffman], [Hpack], [HpackFacts], [HpackBlocks], [HpackSafe]: the HPACK
      part of h2c.c, RFC 7541 as its specification, and the bounds of its
      tables.
    - [H2cState], [H2c]: connection, streams and every operation of h2c.c;
      [H2cFacts] what one operation leaves alone, [H2cFrames] frames through
      the socket, [H2cReassembly] messages through DATA frames, [H2cSend]
      requests on the wire, [H2cWf] and [H2cPublic] the connection's
      invariant, [H2cTime] that calls return, [H2cScenario] concrete calls.
    - [Snapshots]: the codecs of snapshots.c.
    - [Client], [ClientOps]: containerd_client.c as programs over the calls
      it makes; [ClientFacts] their logic [wp], [ClientSpecs] and
      [ClientTasks] the operations one by one, [ClientSession] sequences of
      them and the client's properties, [ClientChain] the chain id,
      [ClientScenario] runs against a concrete daemon.
    - [Listener]: the listener thread of main.c.
    - [Run]: run(); [Main]: the ticker, the flags and main().
    - [CLib]: what the tools use of strtol, strstr, inet_pton and inet_ntop.
    - [Notify]: core/notify.c, with a reader of HTTP requests.
    - [Entrypoint]: core/entrypoint.c.
    - [DnsWire]: tools/ddns/dns_wire.c, with a reader of DNS
      messages; [Ddns] and [DdnsCheck]: the two commands of
      tools/ddns/main.c.
    - [CcSpec], [CcJson], [CcCtr]: alternate/c/cc_ctr.c, that is its spec
      writer, its JSON extractor with a grammar of JSON texts, and its digest
      and operations as programs over unary calls.  [CcHttp]: cc_http.c.
      [CcGrpc], [CcGrpcFacts]: cc_grpc.c, on the definitions of [Hpack] and
      [H2c] for the part of its text that repeats h2c.c.

    Definitions carry the C names.  A loop or a block of a longer function
    that needs a name of its own has one in the same file.

    ** How code is modelled

    - A w-bit integer is a [Z] with its wrap-around written out ([wrap]);
      enums are ints, so that out-of-range values reach the range checks.  A C
      string is the list of the bytes before its NUL; a pointer that may be
      NULL is an [option].  Undefined behaviour is a value of its own
      ([Undefined], [OverRead], or [None] where the comment says so).
    - Handlers are functions from the state to the reply, the new state and
      the effects (listener calls, launched jobs, socket events).
    - Threads are a step relation: one step per critical section, that is per
      region under the queue or pool mutex.  The clock, failing allocations
      and the results of ops are arguments of the step's label, so a theorem
      over all runs is a theorem over all their behaviours.
    - The stage ops are programs over the calls they make ([prog]), run by an
      interpreter.  The protocol theorem quantifies over every answer of
      every call; the convergence theorem runs them against a daemon model
      whose answers state what containerd documents.
    - The containerd client is a set of programs over the calls of h2c.c
      ([Client.prog]).  [wp] states what holds for every answer of the daemon
      and every failure; it also tracks whether the shared connection is up
      and what became of a connection of the operation's own, and is false
      when a call is made on a connection that is not up.  The generated
      protobuf codecs are the class [Codecs].
    - yyjson, wslay, libmicrohttpd, libcurl, c-ares, stdio, malloc, setenv,
      sockets and the gRPC stream are parameters: their results are arguments
      of the definitions.
    - run() is the list of what it does to its threads and objects, judged by
      the rules [permits] of their life cycles.
    - The HTTP/2 connection carries its socket and clock in its state: scripts
      of what read, send and poll report.  Undefined behaviour there (signed
      overflow, a copy past a buffer, a NULL pointer) sets [c_undefined]
      ([k_undefined] in the alternate transport, which also records the calls
      of its callbacks).  A run goes on after that, with wrapped values, so an
      invariant of all runs says something of the code only as long as nothing
      undefined was recorded.  Allocation is a predicate of the size for a
      whole run there: a size that can be had once can be had again.
    - Doubles (parse_go_duration) are binary64 numbers of the Standard
      Library's SpecFloat.

    ** What the theorems show

    - Core: every one of the nine actions implements the abstract
      specification (the call of listeners on a change of paths alone, on which
      header and code differ, is left open); every reachable state is well
      formed; a reconcile pass launches exactly
      the due ops and a second one launches nothing; teardown stops exactly
      the running stages; construction accepts only sound configurations.
    - Threads: no submitter waits for ever or is left asleep; the queue is first-in first-out
      with at most one reconcile; the wait group counts the ops; every fire
      is justified, at most one op per stage is current, a clear that takes
      effect belongs to a finished op, and nothing runs after wait_for_ops.
    - Stage ops: the protocol with containerd on every path, and convergence
      of a current op within its deadline from every state of the container.
    - HTTP and WebSocket: the POST contract, the handshake, the exact requests
      whose refusal reads past its buffer, the slot contract, exclusivity of
      slots, and closing at shutdown; requests and status pushes end to end.
    - Configuration: load_config is determined variable by variable; whole
      durations are exact; printed durations and printed examples read back;
      templates are rendered completely or not at all.
    - HTTP/2: frames and messages that fit the windows arrive as they were sent
      however the socket and the peer cut them; requests whose frames fit the
      frame buffer go out whole, within the peer's limits;
      header blocks mean what RFC 7541 says, both ways; every reachable
      connection satisfies its invariant, frames other than SETTINGS and
      WINDOW_UPDATE cause no undefined behaviour, and calls return once their
      deadline passes.
    - Containers: the spec's text reads back as the document its inputs mean;
      its rules open exactly the devices of the CDI edits; the CDI files,
      however they spell their specs, determine every edit (variables, mounts,
      nodes, hooks, groups) a container gets; a scan stays in its arrays.
    - Client: any sequence of operations keeps connections and handles in
      order and answers public codes; a container is created only with the
      configuration and on a snapshot of its own image, a task only on its container's mounts;
      snapshots are removed before containers, tasks killed before a forced
      deletion; the chain id is that of the OCI image specification; mounts
      are decoded exactly; the listener reports the task events it heard.
    - Start and stop: run() uses and releases its objects and threads in
      order whatever fails (two exceptions are stated exactly); no listener
      outlives the server; the ticker asks once per interval and returns after
      the signal; the flags mean what their spellings say.
    - Tools: the notifier's event reaches the controller and its exit code
      tells whether it was accepted; mediamtx is only started on a complete
      configuration; DNS packets are parsed exactly and read back; an update
      sends its fields and nothing else, and a check prints only what a name
      server of the domain answered.
    - Alternate controller: a spec is returned complete or refused, at every
      size of the buffer; the extractor finds what a document has at the path,
      and refuses truncated texts, for documents without fractions, exponents,
      empty objects and escapes of surrogates (which it misreads); the
      chain id is that of the OCI image specification; a task is only created
      on the mounts of its container's snapshot; a deletion removes the
      snapshot before the record.  Every request without upgrade headers is
      answered once, as its route and handler demand, and the answer reads
      back; slots, WebSockets and registered listeners stay paired.  The transport hands every message of a subscription to its
      callback once and in order, keeps its connections well formed and their
      receive windows full through any calls, and its calls return.
    - Routines: digests are those of FIPS 180-4; base64, protobuf and the enum
      tables round-trip; blobs are concatenated within their bound.

    ** Bounds and fuel

    - A varint has at most 10 bytes, which [mpb_rd_varint] also enforces; 20
      decimal digits suffice for 64 bits; the shutdown loop of the slots makes
      256 passes, as the code does.
    - Loops over text use the text's length plus one as fuel; every iteration
      consumes at least one character, and the theorems state the result, not
      only that a result would be right.
    - The Huffman trie has 1024 nodes as in the code, of which 513 are used;
      HPACK integers have at most five continuation bytes.  The frame reader
      is given one unit of fuel per event and byte, one more than it can use;
      the loops that wait for the peer take one unit per poll, and
      [calls_return] shows that enough fuel exists whenever time passes.
      The JSON extractor of cc_ctr.c has three units per byte: one for a
      value, one for its object or array, one for the loop over its members.
    - Generations wrap at 2^64; theorems that compare generations assume fewer
      than 2^64 steps.

    ** Not modelled

    The self tests of h2c.c and cc_grpc.c and the test programs and doubles
    (they are not part of the program), the logging to the standard error of
    the controller, generated code, nanopb and third-party libraries (the
    program only calls them), and the assembly of the alternate controller,
    whose handlers answer arbitrarily in the models of its C files. *)

From Stdlib Require Export ZArith Lia.
From stdpp Require Export base tactics numbers gmap strings list.

#[global] Open Scope Z_scope.

(** ** Machine integers

    A w-bit unsigned C integer is a [Z] kept in range by an explicit wrap. *)

Definition wrap (w z : Z) : Z := z mod 2 ^ w.
Abbreviation u8 := (wrap 8).
Abbreviation u16 := (wrap 16).
Abbreviation u32 := (wrap 32).
Abbreviation u64 := (wrap 64).

Definition UINT64_MAX : Z := 2 ^ 64 - 1.
Definition INT64_MAX : Z := 2 ^ 63 - 1.

(** ** C strings and byte buffers

    A byte buffer is a list of byte values; a C string is the list of the
    bytes that precede the terminating NUL, so reading [*p] at the end of the
    list is reading the NUL.  A possibly-NULL [char *] is an [option]. *)

Abbreviation bytes := (list Z) (only parsing).
Abbreviation cstring := (list Z) (only parsing).

Definition byte_ok (b : Z) : Prop := 0 <= b < 256.
Definition bytes_ok (bs : bytes) : Prop := Forall byte_ok bs.

(** The bytes of a string literal. *)
Fixpoint lit (s : string) : cstring :=
  match s with
  | EmptyString => []
  | String a s' => Z.of_N (Ascii.N_of_ascii a) :: lit s'
  end.

(** The code of a character literal. *)
Definition chr (s : string) : Z := default 0 (head (lit s)).

Definition strlen (s : cstring) : Z := Z.of_nat (length s).

(** [strcmp(a, b) == 0] *)
Definition streq (a b : cstring) : bool := bool_decide (a = b).

(** [strncmp(s, p, strlen(p)) == 0]: [p] is a prefix of [s]. *)
Fixpoint starts_with (p s : cstring) : bool :=
  match p, s with
  | [], _ => true
  | _, [] => false
  | x :: p', y :: s' => (x =? y) && starts_with p' s'
  end.

(** ** Pointers

    Function pointers and opaque context pointers are addresses; only their
    identity and whether they are NULL matters to the modelled code. *)

Abbreviation ptr := Z (only parsing).
Definition NULL : ptr := 0.
Definition is_null (p : ptr) : bool := p =? NULL.

(** ** Generic lemmas *)
Lemma wrap_range (w z : Z) : 0 <= w -> 0 <= wrap w z < 2 ^ w.
Proof. intros. apply Z.mod_pos_bound. lia. Qed.

Lemma wrap_small (w z : Z) : 0 <= z < 2 ^ w -> wrap w z = z.
Proof. apply Z.mod_small. Qed.

Lemma wrap_wrap (w z : Z) : wrap w (wrap w z) = wrap w z.
Proof. unfold wrap. apply Zmod_mod. Qed.

(** An [int] value passes the [(unsigned)v < n] test iff it lies in [0..n). *)
Lemma u32_lt_iff (v n : Z) :
  - 2 ^ 31 <= v < 2 ^ 31 -> 0 <= n <= 2 ^ 31 ->
  (u32 v <? n) = (0 <=? v) && (v <? n).
Proof.
  intros Hv Hn. unfold wrap. destruct (Z.leb_spec 0 v).
  - rewrite Z.mod_small by lia. done.
  - replace (v mod 2 ^ 32) with (v + 2 ^ 32)
      by (apply (Z.mod_unique_pos _ _ (-1)); lia).
    apply Z.ltb_ge. lia.
Qed.

Lemma streq_true (a b : cstring) : streq a b = true <-> a = b.
Proof. unfold streq. by rewrite bool_decide_eq_true. Qed.

Lemma streq_refl (a : cstring) : streq a a = true.
Proof. by apply streq_true. Qed.

Lemma starts_with_spec (p s : cstring) :
  starts_with p s = true <-> exists r, s = p ++ r.
Proof.
  revert s. induction p as [|x p IH]; intros s; simpl.
  - split; eauto.
  - destruct s as [|y s]; [split; [done | intros [r Hr]; done] |].
    rewrite andb_true_iff, Z.eqb_eq, IH. split.
    + intros [-> [r ->]]. eauto.
    + intros [r Hr]. simplify_eq. eauto.
Qed.

(** A disjoint bitwise-or is an addition. *)
Lemma lor_shiftl_add (a b n : Z) :
  0 <= n -> 0 <= b < 2 ^ n -> Z.lor (Z.shiftl a n) b = a * 2 ^ n + b.
Proof.
  intros Hn Hb. rewrite <- Z.shiftl_mul_pow2 by done.
  rewrite <- Z.lxor_lor, <- Z.add_nocarry_lxor; [done | |].
  all: apply Z.bits_inj'; intros i Hi; rewrite Z.land_spec, Z.bits_0;
    destruct (Z.ltb_spec i n);
    [ rewrite Z.shiftl_spec_low by done; done
    | rewrite <- (Z.mod_small b (2 ^ n)) by done;
      rewrite Z.mod_pow2_bits_high by lia; apply andb_false_r ].
Qed.

Lemma land_ones_mod (a n : Z) : 0 <= n -> Z.land a (2 ^ n - 1) = a mod 2 ^ n.
Proof. intros. rewrite <- Z.land_ones by done. by rewrite Z.ones_equiv, <- Z.sub_1_r. Qed.

Lemma bytes_ok_app (a b : bytes) : bytes_ok (a ++ b) <-> bytes_ok a /\ bytes_ok b.
Proof. apply Forall_app. Qed.

Lemma strlen_nonneg (s : bytes) : 0 <= strlen s.
Proof. unfold strlen. lia. Qed.

Lemma strlen_app (a b : bytes) : strlen (a ++ b) = strlen a + strlen b.
Proof. unfold strlen. rewrite length_app. lia. Qed.

Lemma lit_bytes_ok (s : string) : bytes_ok (lit s).
Proof.
  induction s as [|a s IH]; simpl; constructor; [|done].
  unfold byte_ok. pose proof (Ascii.N_ascii_bounded a). lia.
Qed.

(** The first element satisfying a boolean test, as a C search loop that
    returns at the first match finds it. *)
Fixpoint find_first {A} (f : A -> bool) (l : list A) : option A :=
  match l with
  | [] => None
  | x :: l' => if f x then Some x else find_first f l'
  end.

Lemma find_first_Some {A} (f : A -> bool) (l : list A) (x : A) :
  find_first f l = Some x -> x ∈ l /\ f x = true.
Proof.
  induction l as [|y l IH]; simpl; [done|].
  destruct (f y) eqn:E; intros; simplify_eq.
  - split; [left | done].
  - destruct IH; [done|]. split; [by right | done].
Qed.

Lemma find_first_None {A} (f : A -> bool) (l : list A) :
  find_first f l = None <-> Forall (fun x => f x = false) l.
Proof.
  induction l as [|y l IH]; simpl; [split; [constructor | done]|].
  rewrite Forall_cons. destruct (f y); [|rewrite IH]; split; (done || by intros []).
Qed.

(** A boolean fact about every byte, checked by evaluation. *)
Lemma all_bytes (f : Z -> bool) :
  forallb (fun n => f (Z.of_nat n)) (seq 0 256) = true -> forall b, byte_ok b -> f b = true.
Proof.
  intros H b [H0 H1]. rewrite forallb_forall in H.
  rewrite <- (Z2Nat.id b) by done. apply H, in_seq. lia.
Qed.

Lemma map_lookup_seq {A} (g : Z -> A) (l : list Z) :
  map (fun i => g (default 0 (l !! i))) (seq 0 (length l)) = map g l.
Proof.
  induction l as [|x l IH]; simpl; [done|]. f_equal.
  rewrite <- seq_shift, map_map. exact IH.
Qed.

(** ** Automation

    [strim] closes the goals left by unfolding a guard-and-update handler:
    destruct the conditionals, simplify, and finish by arithmetic. *)

Create HintDb strim.
#[export] Hint Resolve lit_bytes_ok streq_refl : strim.

Ltac bool_props :=
  repeat match goal with
  | H : (_ && _) = true |- _ => apply andb_true_iff in H; destruct H
  | H : (_ || _) = false |- _ => apply orb_false_iff in H; destruct H
  | H : negb _ = true |- _ => apply negb_true_iff in H
  | H : negb _ = false |- _ => apply negb_false_iff in H
  | H : (_ <? _) = true |- _ => apply Z.ltb_lt in H
  | H : (_ <? _) = false |- _ => apply Z.ltb_ge in H
  | H : (_ <=? _) = true |- _ => apply Z.leb_le in H
  | H : (_ <=? _) = false |- _ => apply Z.leb_gt in H
  | H : (_ =? _) = true |- _ => apply Z.eqb_eq in H
  | H : (_ =? _) = false |- _ => apply Z.eqb_neq in H
  | H : streq _ _ = true |- _ => apply streq_true in H
  end.

Ltac case_ifs :=
  repeat match goal with
  | |- context [if ?b then _ else _] => let E := fresh "E" in destruct b eqn:E
  | H : context [if ?b then _ else _] |- _ => let E := fresh "E" in destruct b eqn:E
  end.

Ltac strim := case_ifs; bool_props; simplify_eq/=; eauto with strim; try lia.

(** Decide a closed decidable proposition by evaluation. *)
Ltac by_decide := apply (bool_decide_unpack _); vm_compute; exact I.
