(* ===== verification/Wire.v ===== *)
(** * Wire enums and their JSON spellings

    The enums of [controller.h] and the string tables and lookup helpers of
    [controller.c].  An enum-typed C object is an [int]: callers can and do
    store out-of-range values in it (the HTTP handlers use -1 for "absent"),
    so enum values are [Z] and every range check of the source is kept.

    The class [WireTable] is what the other components rely on: a table
    without duplicate spellings, from which the two lookup helpers are
    inverse to each other. *)

From S2P Require Import Prelude.

(** ** Enum constants (controller.h) *)

Definition STRIM_PATH_UNKNOWN : Z := 0.
Definition STRIM_PATH_READY : Z := 1.
Definition STRIM_PATH_NOT_READY : Z := 2.
Definition STRIM_PATH_STATUS_COUNT : Z := 3.

Definition STRIM_STAGE_STOPPED : Z := 0.
Definition STRIM_STAGE_RUNNING : Z := 1.
Definition STRIM_STAGE_NO_TARGET : Z := 2.
Definition STRIM_STAGE_STATE_COUNT : Z := 3.

Definition STRIM_PATH_INGRESS0 : Z := 0.
Definition STRIM_PATH_NORMALIZED : Z := 1.
Definition STRIM_PATH_NAME_COUNT : Z := 2.

Definition STRIM_STAGE_MEDIA_MTX : Z := 0.
Definition STRIM_STAGE_NORMALIZE : Z := 1.
Definition STRIM_STAGE_SCALE_AND_EGRESS : Z := 2.
Definition STRIM_STAGE_SINGLE_STAGE_EGRESS : Z := 3.
Definition STRIM_STAGE_NAME_COUNT : Z := 4.

Definition STRIM_COMPONENT_EGRESS : Z := 0.
Definition STRIM_COMPONENT_COUNT : Z := 1.

Definition STRIM_ACTION_START : Z := 0.
Definition STRIM_ACTION_STOP : Z := 1.
Definition STRIM_ACTION_COUNT : Z := 2.

(** ** Wire-string tables (controller.c) *)

Definition k_path_status_strs : list cstring :=
  [lit "unknown"; lit "ready"; lit "not-ready"].
Definition k_stage_state_strs : list cstring :=
  [lit "stopped"; lit "running"; lit ""].
Definition k_path_name_strs : list cstring :=
  [lit "ingress0"; lit "normalized"].
Definition k_stage_name_strs : list cstring :=
  [lit "mediamtx"; lit "normalize"; lit "scale_and_egress"; lit "single_stage_egress"].
Definition k_control_component_strs : list cstring := [lit "egress"].
Definition k_control_action_strs : list cstring := [lit "start"; lit "stop"].

(** ** Lookup helpers *)

(** The search loop of [enum_from_string], from index [i] on. *)
Fixpoint enum_scan (s : cstring) (strs : list cstring) (i : Z) : Z :=
  match strs with
  | [] => -1
  | t :: strs' => if streq s t then i else enum_scan s strs' (i + 1)
  end.

Definition enum_from_string (s : option cstring) (strs : list cstring) : Z :=
  match s with
  | None => -1
  | Some s => enum_scan s strs 0
  end.

Definition enum_to_string (v count : Z) (strs : list cstring) : option cstring :=
  if count <=? u32 v then None else strs !! Z.to_nat (u32 v).

(** [strim_X_from_string(s, out)]: [None] is the -1 return (nothing stored),
    [Some v] the 0 return with [*out = v]; [out] says whether the out-pointer
    is non-NULL. *)
Definition from_string (strs : list cstring) (s : option cstring) (out : bool)
  : option Z :=
  let v := enum_from_string s strs in
  if (v <? 0) || negb out then None else Some v.

Definition strim_path_status_from_string := from_string k_path_status_strs.
Definition strim_path_status_to_string (v : Z) :=
  enum_to_string v STRIM_PATH_STATUS_COUNT k_path_status_strs.
Definition strim_stage_state_from_string := from_string k_stage_state_strs.
Definition strim_stage_state_to_string (v : Z) :=
  enum_to_string v STRIM_STAGE_STATE_COUNT k_stage_state_strs.
Definition strim_path_name_from_string := from_string k_path_name_strs.
Definition strim_path_name_to_string (v : Z) :=
  enum_to_string v STRIM_PATH_NAME_COUNT k_path_name_strs.
Definition strim_stage_name_from_string := from_string k_stage_name_strs.
Definition strim_stage_name_to_string (v : Z) :=
  enum_to_string v STRIM_STAGE_NAME_COUNT k_stage_name_strs.
Definition strim_control_component_from_string :=
  from_string k_control_component_strs.
Definition strim_control_component_to_string (v : Z) :=
  enum_to_string v STRIM_COMPONENT_COUNT k_control_component_strs.
Definition strim_control_action_from_string := from_string k_control_action_strs.
Definition strim_control_action_to_string (v : Z) :=
  enum_to_string v STRIM_ACTION_COUNT k_control_action_strs.

(** ** The interface the table users rely on *)

Class WireTable (strs : list cstring) : Prop := {
  wire_nodup : NoDup strs;
  wire_small : Z.of_nat (length strs) < 2 ^ 31;
}.

#[export] Instance path_status_table : WireTable k_path_status_strs.
Proof. split; [by_decide | done]. Qed.
#[export] Instance stage_state_table : WireTable k_stage_state_strs.
Proof. split; [by_decide | done]. Qed.
#[export] Instance path_name_table : WireTable k_path_name_strs.
Proof. split; [by_decide | done]. Qed.
#[export] Instance stage_name_table : WireTable k_stage_name_strs.
Proof. split; [by_decide | done]. Qed.
#[export] Instance control_component_table : WireTable k_control_component_strs.
Proof. split; [by_decide | done]. Qed.
#[export] Instance control_action_table : WireTable k_control_action_strs.
Proof. split; [by_decide | done]. Qed.

Section WireTableLemmas.
Context (strs : list cstring) `{WT : !WireTable strs}.

Lemma enum_scan_spec (s : cstring) (l : list cstring) (i v : Z) :
  NoDup l -> 0 <= i ->
  (enum_scan s l i = v /\ 0 <= v) <->
  (i <= v /\ l !! Z.to_nat (v - i) = Some s).
Proof.
  revert i. induction l as [|t l IH]; intros i Hnd Hi; simpl.
  { split; [lia | by intros [_ ?]]. }
  apply NoDup_cons in Hnd as [Hnin Hnd]. destruct (streq s t) eqn:E; bool_props.
  - subst t. split.
    + intros [<- _]. by rewrite Z.sub_diag.
    + intros [Hle Hl]. destruct (decide (v = i)) as [->|]; [done|].
      exfalso. replace (Z.to_nat (v - i)) with (S (Z.to_nat (v - i - 1))) in Hl by lia.
      apply Hnin. eapply list_elem_of_lookup_2, Hl.
  - rewrite IH by (done || lia). split.
    + intros [Hle Hl]. split; [lia|].
      by replace (Z.to_nat (v - i)) with (S (Z.to_nat (v - (i + 1)))) by lia.
    + intros [Hle Hl]. destruct (decide (v = i)) as [->|].
      { rewrite Z.sub_diag in Hl. simpl in Hl. simplify_eq. by rewrite streq_refl in E. }
      split; [lia|].
      by replace (Z.to_nat (v - i)) with (S (Z.to_nat (v - (i + 1)))) in Hl by lia.
Qed.

(** [from_string] accepts exactly the spellings of the table. *)
Lemma from_string_Some (s : cstring) (v : Z) :
  from_string strs (Some s) true = Some v <->
  0 <= v /\ strs !! Z.to_nat v = Some s.
Proof using WT.
  pose proof (enum_scan_spec s strs 0 v (wire_nodup) ltac:(lia)) as Hs.
  rewrite Z.sub_0_r in Hs. rewrite <- Hs.
  unfold from_string, enum_from_string. rewrite orb_false_r.
  destruct (Z.ltb_spec (enum_scan s strs 0) 0); naive_solver lia.
Qed.

(** [to_string] is total on the valid values and NULL elsewhere. *)
Lemma to_string_Some (v : Z) (s : cstring) :
  - 2 ^ 31 <= v < 2 ^ 31 ->
  enum_to_string v (Z.of_nat (length strs)) strs = Some s <->
  0 <= v /\ strs !! Z.to_nat v = Some s.
Proof using WT.
  intros Hv. unfold enum_to_string. pose proof wire_small.
  rewrite Z.leb_antisym, u32_lt_iff by lia.
  destruct (Z.leb_spec 0 v); simpl; [|naive_solver lia].
  rewrite wrap_small by lia.
  destruct (Z.ltb_spec v (Z.of_nat (length strs))); simpl; [naive_solver|].
  split; [done|]. intros [_ Hl%lookup_lt_Some]. lia.
Qed.
End WireTableLemmas.

(** ** Theorems *)

(** The value is representable in a C [int]. *)
Definition int32 (v : Z) : Prop := - 2 ^ 31 <= v < 2 ^ 31.

(** What a pair of conversion functions owes the JSON contract: they are
    mutually inverse on C [int] values, and printing is total on the enum. *)
Definition wire_inverse (count : Z) (to : Z -> option cstring)
    (from : option cstring -> bool -> option Z) : Prop :=
  (forall v s, int32 v -> to v = Some s <-> from (Some s) true = Some v) /\
  (forall v, 0 <= v < count -> is_Some (to v)) /\
  (forall v, int32 v -> ~ (0 <= v < count) -> to v = None) /\
  (forall out, from None out = None) /\
  (forall s, from s false = None).

Lemma wire_table_inverse (strs : list cstring) `{!WireTable strs} :
  wire_inverse (Z.of_nat (length strs))
    (fun v => enum_to_string v (Z.of_nat (length strs)) strs) (from_string strs).
Proof.
  split_and!.
  - intros v s Hv. by rewrite to_string_Some, from_string_Some.
  - intros v Hv. destruct (lookup_lt_is_Some_2 strs (Z.to_nat v)) as [s Hs]; [lia|].
    exists s. pose proof (wire_small (strs := strs)).
    apply to_string_Some; [apply _ | lia | split; [lia | done]].
  - intros v Hi Hv. apply eq_None_not_Some. intros [s Hs].
    apply to_string_Some in Hs as [? ?%lookup_lt_Some]; [lia | apply _ | done].
  - done.
  - intros s. unfold from_string. by rewrite orb_true_r.
Qed.

(** for each of the six wire enums, [strim_*_to_string] and
    [strim_*_from_string] are inverse to each other on every C [int] value:
    a string is accepted exactly when it is the spelling of the value it is
    mapped to, every valid value has a non-NULL spelling, every other value
    prints as NULL, and a NULL string or a NULL out-pointer is rejected. *)
Theorem wire_enums_roundtrip :
  wire_inverse STRIM_PATH_STATUS_COUNT
    strim_path_status_to_string strim_path_status_from_string /\
  wire_inverse STRIM_STAGE_STATE_COUNT
    strim_stage_state_to_string strim_stage_state_from_string /\
  wire_inverse STRIM_PATH_NAME_COUNT
    strim_path_name_to_string strim_path_name_from_string /\
  wire_inverse STRIM_STAGE_NAME_COUNT
    strim_stage_name_to_string strim_stage_name_from_string /\
  wire_inverse STRIM_COMPONENT_COUNT
    strim_control_component_to_string strim_control_component_from_string /\
  wire_inverse STRIM_ACTION_COUNT
    strim_control_action_to_string strim_control_action_from_string.
Proof.
  split_and!.
  - exact (wire_table_inverse k_path_status_strs).
  - exact (wire_table_inverse k_stage_state_strs).
  - exact (wire_table_inverse k_path_name_strs).
  - exact (wire_table_inverse k_stage_name_strs).
  - exact (wire_table_inverse k_control_component_strs).
  - exact (wire_table_inverse k_control_action_strs).
Qed.
