(* ===== verification/Controller.v ===== *)
(** * The controller state machine (core/controller.c): data and handlers

    The state of [struct strim_controller] that the handlers own (paths,
    stages, routes, listeners), the queue-independent helpers, construction
    and validation, every handler that runs on the action-queue thread, the
    per-stage body of the reconcile pass and of teardown, and the action
    dispatcher.  The queue, the worker pool and the threads themselves are
    modelled in [Sched], on top of these definitions.

    Effects a handler has on the outside world (listener callbacks, fired
    operations, synchronous stop operations) are returned as a list of
    events, in order.  Function pointers are addresses; what a prerequisite
    callback answers is a parameter of the section. *)

From S2P Require Import Prelude Wire.

(** ** Error codes (controller.h) *)

Definition STRIM_CTRL_ERR_BADARG : Z := -1.
Definition STRIM_CTRL_ERR_UNKNOWN : Z := -2.
Definition STRIM_CTRL_ERR_PREREQ : Z := -3.
Definition STRIM_CTRL_ERR_CLOSED : Z := -4.
Definition STRIM_CTRL_ERR_NOMEM : Z := -5.

Definition STRIM_CTRL_MAX_LISTENERS : Z := 16.
Definition STRIM_CTRL_WORKERS : nat := Z.to_nat STRIM_STAGE_NAME_COUNT.

Definition STRIM_ROUTE_PATH_EVENT : Z := 0.
Definition STRIM_ROUTE_CONTROL : Z := 1.

(** ** Data types (controller.h) *)

Record strim_stage_status := StageStatus { desired : Z; actual : Z }.

Record strim_controller_status := ControllerStatus {
  st_paths : list Z;
  st_stages : list strim_stage_status;
}.

Record strim_path_event := PathEvent { pe_path : Z; pe_status : Z }.
Record strim_stage_event := StageEvent { se_stage : Z; se_state : Z }.
Record strim_control_command := ControlCommand { cmd_component : Z; cmd_action : Z }.

Record strim_route := Route {
  r_path : Z;
  r_path_status : Z;
  r_component : Z;
  r_action : Z;
  r_kind : Z;
  r_target_stage : Z;
  r_target_state : Z;
  r_prerequisite : ptr;
  r_prerequisite_userdata : ptr;
}.

Record strim_stage_config := StageConfig {
  sc_name : Z;
  sc_status : strim_stage_status;
  sc_start_op : ptr;
  sc_stop_op : ptr;
  sc_op_ctx : ptr;
}.

(** [path_routes]/[control_routes] are [None] for a NULL array pointer. *)
Record strim_controller_config := ControllerConfig {
  cc_initial_paths : list Z;
  cc_stages : list strim_stage_config;
  cc_path_routes : option (list strim_route);
  cc_n_path_routes : nat;
  cc_control_routes : option (list strim_route);
  cc_n_control_routes : nat;
  cc_now_ms : ptr;
  cc_inflight_timeout_ms : Z;
  cc_actions_buffer_size : Z;
}.

(** ** Internal state (controller.c) *)

Record strim_stage := Stage {
  s_name : Z;
  s_status : strim_stage_status;
  s_start_op : ptr;
  s_stop_op : ptr;
  s_op_ctx : ptr;
  s_in_flight_since : Z;
  s_op_generation : Z;
}.

Record strim_listener_entry := ListenerEntry { l_fn : ptr; l_userdata : ptr }.

(** The handler-visible part of [struct strim_controller]; [n_listeners] is
    the length of [c_listeners], and the route counters the lengths of the
    route lists. *)
Record strim_controller := Controller {
  c_paths : list Z;
  c_stages : list strim_stage;
  c_path_routes : list strim_route;
  c_control_routes : list strim_route;
  c_listeners : list strim_listener_entry;
  c_now_ms : ptr;
  c_inflight_timeout_ms : Z;
  c_actions_buffer_size : Z;
}.

(** One fired operation ([strim_op_job] with its embedded
    [strim_stage_op_cancel]; the handle's pointer to the live generation is
    the stage index). *)
Record strim_op_job := OpJob {
  j_stage : Z;
  j_op : ptr;
  j_op_ctx : ptr;
  j_timeout_ms : Z;
  j_generation : Z;
  j_deadline_ms : Z;
}.

(** What a handler does besides updating the controller. *)
Inductive effect :=
  | Notify (fn userdata : ptr) (st : strim_controller_status)
  | Launch (job : strim_op_job)
  | SyncStop (op op_ctx : ptr) (timeout_ms : Z).

(** Field updates. *)
Definition set_desired (v : Z) (s : strim_stage) : strim_stage :=
  Stage (s_name s) (StageStatus v (actual (s_status s))) (s_start_op s) (s_stop_op s)
    (s_op_ctx s) (s_in_flight_since s) (s_op_generation s).
Definition set_actual (v : Z) (s : strim_stage) : strim_stage :=
  Stage (s_name s) (StageStatus (desired (s_status s)) v) (s_start_op s) (s_stop_op s)
    (s_op_ctx s) (s_in_flight_since s) (s_op_generation s).
Definition set_in_flight (v : Z) (s : strim_stage) : strim_stage :=
  Stage (s_name s) (s_status s) (s_start_op s) (s_stop_op s) (s_op_ctx s) v
    (s_op_generation s).
Definition set_generation (v : Z) (s : strim_stage) : strim_stage :=
  Stage (s_name s) (s_status s) (s_start_op s) (s_stop_op s) (s_op_ctx s)
    (s_in_flight_since s) v.

Definition with_paths (p : list Z) (c : strim_controller) : strim_controller :=
  Controller p (c_stages c) (c_path_routes c) (c_control_routes c) (c_listeners c)
    (c_now_ms c) (c_inflight_timeout_ms c) (c_actions_buffer_size c).
Definition with_stages (s : list strim_stage) (c : strim_controller) : strim_controller :=
  Controller (c_paths c) s (c_path_routes c) (c_control_routes c) (c_listeners c)
    (c_now_ms c) (c_inflight_timeout_ms c) (c_actions_buffer_size c).
Definition with_listeners (l : list strim_listener_entry) (c : strim_controller)
  : strim_controller :=
  Controller (c_paths c) (c_stages c) (c_path_routes c) (c_control_routes c) l
    (c_now_ms c) (c_inflight_timeout_ms c) (c_actions_buffer_size c).

(** [c->stages[i]] and its in-place update. *)
Definition stage_at (c : strim_controller) (i : Z) : option strim_stage :=
  c_stages c !! Z.to_nat i.
Definition update_stage (i : Z) (f : strim_stage -> strim_stage) (c : strim_controller)
  : strim_controller :=
  with_stages (alter f (Z.to_nat i) (c_stages c)) c.

(** ** Small helpers *)

Definition valid_path_status (s : Z) : bool := u32 s <? STRIM_PATH_STATUS_COUNT.
Definition valid_stage_state (s : Z) : bool := u32 s <=? STRIM_STAGE_RUNNING.

Definition stage_op_for (stage : strim_stage) (target : Z) : ptr :=
  if target =? STRIM_STAGE_RUNNING then s_start_op stage else s_stop_op stage.

Definition route_keys_equal (a b : strim_route) (kind_expected : Z) : bool :=
  if kind_expected =? STRIM_ROUTE_PATH_EVENT
  then (r_path a =? r_path b) && (r_path_status a =? r_path_status b)
  else (r_component a =? r_component b) && (r_action a =? r_action b).

Definition find_path_event_route (c : strim_controller) (path status : Z)
  : option strim_route :=
  find_first (fun r => (r_path r =? path) && (r_path_status r =? status))
    (c_path_routes c).

Definition find_control_route (c : strim_controller) (component action : Z)
  : option strim_route :=
  find_first (fun r => (r_component r =? component) && (r_action r =? action))
    (c_control_routes c).

(** *** The op cancellation handle; a NULL handle is [None].  [live] is the
    atomic load of the stage's generation, [now] the clock reading. *)

Definition strim_stage_op_superseded (cancel : option strim_op_job) (live : Z) : bool :=
  match cancel with
  | None => false
  | Some h => negb (live =? j_generation h)
  end.

Definition strim_stage_op_remaining_ms (cancel : option strim_op_job) (now : option Z) : Z :=
  match cancel, now with
  | Some h, Some t => j_deadline_ms h - t
  | _, _ => -1
  end.

(** ** Construction *)

(** The checks [validate_and_copy_routes] makes on one route, in order;
    [prev] are the routes copied before it. *)
Definition route_ok (stages : list strim_stage) (kind_expected : Z)
    (prev : list strim_route) (r : strim_route) : bool :=
  (r_kind r =? kind_expected) &&
  (if kind_expected =? STRIM_ROUTE_PATH_EVENT
   then (u32 (r_path r) <? STRIM_PATH_NAME_COUNT) && valid_path_status (r_path_status r)
   else (u32 (r_component r) <? STRIM_COMPONENT_COUNT) &&
        (u32 (r_action r) <? STRIM_ACTION_COUNT)) &&
  (u32 (r_target_stage r) <? STRIM_STAGE_NAME_COUNT) &&
  valid_stage_state (r_target_state r) &&
  (match stages !! Z.to_nat (u32 (r_target_stage r)) with
   | Some st => negb (is_null (stage_op_for st (r_target_state r)))
   | None => false
   end) &&
  negb (existsb (fun p => route_keys_equal p r kind_expected) prev).

Fixpoint validate_routes (stages : list strim_stage) (kind_expected : Z)
    (prev todo : list strim_route) : bool :=
  match todo with
  | [] => true
  | r :: todo' =>
      route_ok stages kind_expected prev r &&
      validate_routes stages kind_expected (prev ++ [r]) todo'
  end.

(** [alloc] is whether the [malloc] of the copy succeeds. *)
Definition validate_and_copy_routes (stages : list strim_stage)
    (src : option (list strim_route)) (n : nat) (kind_expected : Z) (alloc : bool)
  : Z + list strim_route :=
  match src with
  | None => if (0 <? n)%nat then inl STRIM_CTRL_ERR_BADARG else inr []
  | Some l =>
      if (0 <? n)%nat && negb alloc then inl STRIM_CTRL_ERR_NOMEM
      else let copy := take n l in
           if validate_routes stages kind_expected [] copy
           then inr copy else inl STRIM_CTRL_ERR_BADARG
  end.

Definition stage_of_config (sc : strim_stage_config) : strim_stage :=
  Stage (sc_name sc) (sc_status sc) (sc_start_op sc) (sc_stop_op sc) (sc_op_ctx sc) 0 0.

(** The stage-seeding loop of [strim_controller_new], from index [i]. *)
Fixpoint seed_stages (i : Z) (scs : list strim_stage_config) : option (list strim_stage) :=
  match scs with
  | [] => Some []
  | sc :: scs' =>
      if negb (sc_name sc =? i) then None
      else if negb (valid_stage_state (desired (sc_status sc))) ||
              negb (valid_stage_state (actual (sc_status sc))) then None
      else match seed_stages (i + 1) scs' with
           | None => None
           | Some l => Some (stage_of_config sc :: l)
           end
  end.

(** The allocation outcomes of one construction: [calloc] of the controller,
    the two route copies, and the start of the worker pool. *)
Record new_oracle := NewOracle {
  no_calloc : bool;
  no_path_copy : bool;
  no_control_copy : bool;
  no_workerpool : bool;
}.

(** The address of [default_now_ms]. *)
Definition default_now_ms : ptr := 1.

Definition strim_controller_new (o : new_oracle) (cfg : option strim_controller_config)
    (out : bool) : Z + strim_controller :=
  match cfg with
  | None => inl STRIM_CTRL_ERR_BADARG
  | Some cfg =>
    if negb out then inl STRIM_CTRL_ERR_BADARG
    else if cc_inflight_timeout_ms cfg <=? 0 then inl STRIM_CTRL_ERR_BADARG
    else if cc_actions_buffer_size cfg =? 0 then inl STRIM_CTRL_ERR_BADARG
    else if negb (forallb valid_path_status (cc_initial_paths cfg))
    then inl STRIM_CTRL_ERR_BADARG
    else if negb (no_calloc o) then inl STRIM_CTRL_ERR_NOMEM
    else match seed_stages 0 (cc_stages cfg) with
    | None => inl STRIM_CTRL_ERR_BADARG
    | Some stages =>
      match validate_and_copy_routes stages (cc_path_routes cfg) (cc_n_path_routes cfg)
              STRIM_ROUTE_PATH_EVENT (no_path_copy o) with
      | inl e => inl e
      | inr proutes =>
        match validate_and_copy_routes stages (cc_control_routes cfg)
                (cc_n_control_routes cfg) STRIM_ROUTE_CONTROL (no_control_copy o) with
        | inl e => inl e
        | inr croutes =>
          if negb (no_workerpool o) then inl STRIM_CTRL_ERR_NOMEM
          else inr (Controller (cc_initial_paths cfg) stages proutes croutes []
                 (if is_null (cc_now_ms cfg) then default_now_ms else cc_now_ms cfg)
                 (cc_inflight_timeout_ms cfg) (cc_actions_buffer_size cfg))
        end
      end
    end
  end.

(** ** Status snapshot and listener dispatch *)

Definition snapshot (c : strim_controller) : strim_controller_status :=
  ControllerStatus (c_paths c) (map s_status (c_stages c)).

Definition strim_controller_handle_status (c : option strim_controller) (out : bool)
  : Z + strim_controller_status :=
  match c with
  | None => inl STRIM_CTRL_ERR_BADARG
  | Some c => if out then inr (snapshot c) else inl STRIM_CTRL_ERR_BADARG
  end.

Definition notify_listeners (c : strim_controller) : list effect :=
  match c_listeners c with
  | [] => []
  | ls => let st := snapshot c in map (fun l => Notify (l_fn l) (l_userdata l) st) ls
  end.

(** ** Handlers: the result code, the controller afterwards, the effects *)

Abbreviation outcome := (Z * strim_controller * list effect)%type.

Section Handlers.

(** What the prerequisite callback at an address answers, given its
    userdata and the controller (it runs on the queue thread and only reads
    the controller). *)
Variable call_prerequisite : ptr -> ptr -> strim_controller -> Z.

Definition apply_desired_stage_target (c : strim_controller) (target : strim_route)
  : outcome :=
  match stage_at c (r_target_stage target) with
  | None => (0, c, [])
  | Some stage =>
    if desired (s_status stage) =? r_target_state target then (0, c, [])
    else if negb (is_null (r_prerequisite target)) &&
            negb (call_prerequisite (r_prerequisite target)
                    (r_prerequisite_userdata target) c =? 0)
    then (STRIM_CTRL_ERR_PREREQ, c, [])
    else let c' := update_stage (r_target_stage target)
                     (set_desired (r_target_state target)) c in
         (0, c', notify_listeners c')
  end.

Definition strim_controller_handle_path_event (c : strim_controller)
    (e : option strim_path_event) : outcome :=
  match e with
  | None => (STRIM_CTRL_ERR_BADARG, c, [])
  | Some e =>
    if STRIM_PATH_NAME_COUNT <=? u32 (pe_path e) then (STRIM_CTRL_ERR_UNKNOWN, c, [])
    else if negb (valid_path_status (pe_status e)) then (STRIM_CTRL_ERR_BADARG, c, [])
    else
      let c1 := with_paths (<[Z.to_nat (pe_path e) := pe_status e]> (c_paths c)) c in
      match find_path_event_route c1 (pe_path e) (pe_status e) with
      | None => (0, c1, [])
      | Some route => apply_desired_stage_target c1 route
      end
  end.

Definition strim_controller_handle_control (c : strim_controller)
    (cmd : option strim_control_command) : outcome :=
  match cmd with
  | None => (STRIM_CTRL_ERR_BADARG, c, [])
  | Some cmd =>
    if STRIM_COMPONENT_COUNT <=? u32 (cmd_component cmd)
    then (STRIM_CTRL_ERR_UNKNOWN, c, [])
    else if STRIM_ACTION_COUNT <=? u32 (cmd_action cmd)
    then (STRIM_CTRL_ERR_UNKNOWN, c, [])
    else match find_control_route c (cmd_component cmd) (cmd_action cmd) with
         | None => (STRIM_CTRL_ERR_UNKNOWN, c, [])
         | Some route => apply_desired_stage_target c route
         end
  end.

Definition strim_controller_handle_stage_event (c : strim_controller)
    (e : option strim_stage_event) : outcome :=
  match e with
  | None => (STRIM_CTRL_ERR_BADARG, c, [])
  | Some e =>
    if STRIM_STAGE_NAME_COUNT <=? u32 (se_stage e) then (STRIM_CTRL_ERR_UNKNOWN, c, [])
    else if negb (valid_stage_state (se_state e)) then (STRIM_CTRL_ERR_BADARG, c, [])
    else match stage_at c (se_stage e) with
         | None => (0, c, [])
         | Some stage =>
           let changed := negb (actual (s_status stage) =? se_state e) in
           let c' := update_stage (se_stage e)
                       (fun s => set_in_flight 0 (set_actual (se_state e) s)) c in
           (0, c', if changed then notify_listeners c' else [])
         end
  end.

Definition handle_add_listener (c : strim_controller) (listener userdata : ptr)
  : outcome :=
  if is_null listener then (STRIM_CTRL_ERR_BADARG, c, [])
  else if STRIM_CTRL_MAX_LISTENERS <=? Z.of_nat (length (c_listeners c))
  then (STRIM_CTRL_ERR_NOMEM, c, [])
  else let c' := with_listeners (c_listeners c ++ [ListenerEntry listener userdata]) c in
       (0, c', [Notify listener userdata (snapshot c')]).

(** The [memmove] that closes the gap left by the first matching entry. *)
Fixpoint remove_first_listener (listener userdata : ptr)
    (ls : list strim_listener_entry) : option (list strim_listener_entry) :=
  match ls with
  | [] => None
  | l :: ls' =>
      if (l_fn l =? listener) && (l_userdata l =? userdata) then Some ls'
      else match remove_first_listener listener userdata ls' with
           | None => None
           | Some ls'' => Some (l :: ls'')
           end
  end.

Definition handle_remove_listener (c : strim_controller) (listener userdata : ptr)
  : outcome :=
  match remove_first_listener listener userdata (c_listeners c) with
  | Some ls => (0, with_listeners ls c, [])
  | None => (STRIM_CTRL_ERR_UNKNOWN, c, [])
  end.

(** ** Reconcile *)

(** What one stage's iteration observes from outside: the shutting-down
    flag re-read under the lock, the clock at the plan and at the fire, the
    [malloc] of the job and the result of [workerpool_submit]. *)
Record fire_oracle := FireOracle {
  fo_shutting_down : bool;
  fo_now_plan : Z;
  fo_now_fire : Z;
  fo_job_alloc : bool;
  fo_submit : Z;
}.

(** planReconcile: fire when not in flight or when the in-flight op is
    overdue. *)
Definition plan_fire (c : strim_controller) (stage : strim_stage) (now : Z) : bool :=
  (s_in_flight_since stage =? 0) ||
  (c_inflight_timeout_ms c <=? now - s_in_flight_since stage).

Definition make_job (c : strim_controller) (i : Z) (stage : strim_stage) (op : ptr)
    (now gen : Z) : strim_op_job :=
  OpJob i op (s_op_ctx stage) (c_inflight_timeout_ms c) gen
    (now + c_inflight_timeout_ms c).

Definition reconcile_stage (o : fire_oracle) (i : Z) (c : strim_controller)
  : strim_controller * list effect :=
  match stage_at c i with
  | None => (c, [])
  | Some stage =>
    if desired (s_status stage) =? actual (s_status stage)
    then (update_stage i (set_in_flight 0) c, [])
    else if negb (plan_fire c stage (fo_now_plan o)) then (c, [])
    else
      let op := stage_op_for stage (desired (s_status stage)) in
      if is_null op then (c, [])
      else if fo_shutting_down o then (c, [])
      else if negb (fo_job_alloc o) then (c, [])
      else
        let now := fo_now_fire o in
        let gen := u64 (s_op_generation stage + 1) in
        let c1 := update_stage i (fun s => set_generation gen (set_in_flight now s)) c in
        if negb (fo_submit o =? 0)
        then (update_stage i (fun s => set_generation (u64 (s_op_generation s - 1))
                                         (set_in_flight 0 s)) c1, [])
        else (c1, [Launch (make_job c i stage op now gen)])
  end.

Fixpoint reconcile_from (o : Z -> fire_oracle) (idx : list Z) (c : strim_controller)
  : strim_controller * list effect :=
  match idx with
  | [] => (c, [])
  | i :: idx' =>
      let '(c1, e1) := reconcile_stage (o i) i c in
      let '(c2, e2) := reconcile_from o idx' c1 in
      (c2, e1 ++ e2)
  end.

Definition stage_indices : list Z := [0; 1; 2; 3].

(** [shutting_down] is the unlocked read at the top of the pass. *)
Definition strim_controller_handle_reconcile (shutting_down : bool)
    (o : Z -> fire_oracle) (c : strim_controller) : strim_controller * list effect :=
  if shutting_down then (c, []) else reconcile_from o stage_indices c.

(** ** Teardown *)

Definition teardown_stage (i : Z) (c : strim_controller)
  : strim_controller * list effect :=
  match stage_at c i with
  | None => (c, [])
  | Some stage =>
    if negb (actual (s_status stage) =? STRIM_STAGE_RUNNING) || is_null (s_stop_op stage)
    then (c, [])
    else (update_stage i (fun s =>
            set_in_flight 0 (set_actual STRIM_STAGE_STOPPED
              (set_desired STRIM_STAGE_STOPPED
                (set_generation (u64 (s_op_generation s + 1)) s)))) c,
          [SyncStop (s_stop_op stage) (s_op_ctx stage) (c_inflight_timeout_ms c)])
  end.

Fixpoint teardown_from (idx : list Z) (c : strim_controller)
  : strim_controller * list effect :=
  match idx with
  | [] => (c, [])
  | i :: idx' =>
      let '(c1, e1) := teardown_stage i c in
      let '(c2, e2) := teardown_from idx' c1 in
      (c2, e1 ++ e2)
  end.

Definition teardown_inner (c : strim_controller) : strim_controller * list effect :=
  let '(c', e) := teardown_from stage_indices c in (c', e ++ notify_listeners c').

(** ** Action dispatch *)

Inductive strim_action :=
  | ACTION_PATH_EVENT (e : strim_path_event)
  | ACTION_CONTROL (cmd : strim_control_command)
  | ACTION_STAGE_EVENT (e : strim_stage_event)
  | ACTION_STATUS (out : bool)
  | ACTION_ADD_LISTENER (listener userdata : ptr)
  | ACTION_REMOVE_LISTENER (listener userdata : ptr)
  | ACTION_RECONCILE
  | ACTION_CLEAR_INFLIGHT (stage generation : Z)
  | ACTION_TEARDOWN.

(** ** The submit surface: the action a call builds and hands to
    [queue_submit], or the error it returns at once.  [c] is whether the
    controller pointer is not NULL. *)

Definition strim_controller_submit_path_event (c : bool) (e : option strim_path_event)
  : Z + strim_action :=
  match c, e with
  | true, Some e => inr (ACTION_PATH_EVENT e)
  | _, _ => inl STRIM_CTRL_ERR_BADARG
  end.

Definition strim_controller_submit_control (c : bool) (cmd : option strim_control_command)
  : Z + strim_action :=
  match c, cmd with
  | true, Some cmd => inr (ACTION_CONTROL cmd)
  | _, _ => inl STRIM_CTRL_ERR_BADARG
  end.

Definition strim_controller_submit_stage_event (c : bool) (e : option strim_stage_event)
  : Z + strim_action :=
  match c, e with
  | true, Some e => inr (ACTION_STAGE_EVENT e)
  | _, _ => inl STRIM_CTRL_ERR_BADARG
  end.

Definition strim_controller_submit_status (c out : bool) : Z + strim_action :=
  if negb c || negb out then inl STRIM_CTRL_ERR_BADARG else inr (ACTION_STATUS out).

Definition strim_controller_submit_add_listener (c : bool) (listener userdata : ptr)
  : Z + strim_action :=
  if negb c || is_null listener then inl STRIM_CTRL_ERR_BADARG
  else inr (ACTION_ADD_LISTENER listener userdata).

Definition strim_controller_submit_remove_listener (c : bool) (listener userdata : ptr)
  : Z + strim_action :=
  if negb c || is_null listener then inl STRIM_CTRL_ERR_BADARG
  else inr (ACTION_REMOVE_LISTENER listener userdata).

Definition strim_controller_teardown (c : bool) : Z + strim_action :=
  if negb c then inl STRIM_CTRL_ERR_BADARG else inr ACTION_TEARDOWN.

(** The generation-stamped clear. *)
Definition clear_inflight (i gen : Z) (c : strim_controller) : strim_controller :=
  match stage_at c i with
  | None => c
  | Some stage =>
      if s_op_generation stage =? gen then update_stage i (set_in_flight 0) c else c
  end.

(** What the queue thread writes into the submitter's action: the result
    and, for a status request, the snapshot. *)
Record reply := Reply { rp_result : Z; rp_status : option strim_controller_status }.

Definition run_action (shutting_down : bool) (o : Z -> fire_oracle)
    (c : strim_controller) (act : strim_action)
  : reply * strim_controller * list effect :=
  match act with
  | ACTION_PATH_EVENT e =>
      let '(r, c', ef) := strim_controller_handle_path_event c (Some e) in
      (Reply r None, c', ef)
  | ACTION_CONTROL cmd =>
      let '(r, c', ef) := strim_controller_handle_control c (Some cmd) in
      (Reply r None, c', ef)
  | ACTION_STAGE_EVENT e =>
      let '(r, c', ef) := strim_controller_handle_stage_event c (Some e) in
      (Reply r None, c', ef)
  | ACTION_STATUS out =>
      match strim_controller_handle_status (Some c) out with
      | inl r => (Reply r None, c, [])
      | inr st => (Reply 0 (Some st), c, [])
      end
  | ACTION_ADD_LISTENER l u =>
      let '(r, c', ef) := handle_add_listener c l u in (Reply r None, c', ef)
  | ACTION_REMOVE_LISTENER l u =>
      let '(r, c', ef) := handle_remove_listener c l u in (Reply r None, c', ef)
  | ACTION_RECONCILE =>
      let '(c', ef) := strim_controller_handle_reconcile shutting_down o c in
      (Reply 0 None, c', ef)
  | ACTION_CLEAR_INFLIGHT i gen => (Reply 0 None, clear_inflight i gen c, [])
  | ACTION_TEARDOWN =>
      let '(c', ef) := teardown_inner c in (Reply 0 None, c', ef)
  end.

End Handlers.
