(* ===== verification/ControllerFacts.v ===== *)
(** * The controller handlers: invariant and functional behaviour

    The well-formedness invariant of the controller state, that construction
    establishes it and that every queued action preserves it; the behaviour
    of each handler on its success and error branches; and the reconcile and
    teardown contracts of controller.h. *)

From S2P Require Import Prelude Wire Controller.

(** ** Well-formedness *)

Definition path_status_ok (v : Z) : Prop := 0 <= v < STRIM_PATH_STATUS_COUNT.
Definition stage_state_ok (v : Z) : Prop := 0 <= v <= STRIM_STAGE_RUNNING.

Record stage_wf (i : nat) (s : strim_stage) : Prop := {
  sw_name : s_name s = Z.of_nat i;
  sw_desired : stage_state_ok (desired (s_status s));
  sw_actual : stage_state_ok (actual (s_status s));
  sw_generation : 0 <= s_op_generation s < 2 ^ 64;
}.

(** A validated route targets a stage that has an op for the target state. *)
Record route_wf (stages : list strim_stage) (r : strim_route) : Prop := {
  rw_stage : 0 <= r_target_stage r < STRIM_STAGE_NAME_COUNT;
  rw_state : stage_state_ok (r_target_state r);
  rw_op : forall s, stages !! Z.to_nat (r_target_stage r) = Some s ->
            stage_op_for s (r_target_state r) <> NULL;
}.

Definition path_key (r : strim_route) : Z * Z := (r_path r, r_path_status r).
Definition control_key (r : strim_route) : Z * Z := (r_component r, r_action r).

Record wf_controller (c : strim_controller) : Prop := {
  wf_n_paths : length (c_paths c) = 2%nat;
  wf_paths : Forall path_status_ok (c_paths c);
  wf_n_stages : length (c_stages c) = 4%nat;
  wf_stages : forall i s, c_stages c !! i = Some s -> stage_wf i s;
  wf_path_routes : Forall (route_wf (c_stages c)) (c_path_routes c);
  wf_control_routes : Forall (route_wf (c_stages c)) (c_control_routes c);
  wf_path_keys : NoDup (path_key <$> c_path_routes c);
  wf_control_keys : NoDup (control_key <$> c_control_routes c);
  wf_listeners : Z.of_nat (length (c_listeners c)) <= STRIM_CTRL_MAX_LISTENERS;
  wf_timeout : 0 < c_inflight_timeout_ms c;
}.

(** Enum-typed members hold C [int] values. *)
Record route_typed (r : strim_route) : Prop := {
  rt_target_stage : int32 (r_target_stage r);
  rt_target_state : int32 (r_target_state r);
}.

Definition stage_config_typed (sc : strim_stage_config) : Prop :=
  int32 (desired (sc_status sc)) /\ int32 (actual (sc_status sc)).

(** The config struct: fixed-size arrays, enum members in [int] range. *)
Record config_typed (cfg : strim_controller_config) : Prop := {
  ct_paths : length (cc_initial_paths cfg) = 2%nat /\ Forall int32 (cc_initial_paths cfg);
  ct_stages : length (cc_stages cfg) = 4%nat /\ Forall stage_config_typed (cc_stages cfg);
  ct_path_routes : Forall route_typed (default [] (cc_path_routes cfg));
  ct_control_routes : Forall route_typed (default [] (cc_control_routes cfg));
}.

Definition action_typed (a : strim_action) : Prop :=
  match a with
  | ACTION_PATH_EVENT e => int32 (pe_path e) /\ int32 (pe_status e)
  | ACTION_CONTROL cmd => int32 (cmd_component cmd) /\ int32 (cmd_action cmd)
  | ACTION_STAGE_EVENT e => int32 (se_stage e) /\ int32 (se_state e)
  | ACTION_CLEAR_INFLIGHT i _ => int32 i
  | _ => True
  end.

(** ** Basic lemmas *)
Lemma valid_path_status_iff (v : Z) :
  int32 v -> valid_path_status v = true <-> path_status_ok v.
Proof.
  intros Hv. unfold valid_path_status, path_status_ok.
  rewrite u32_lt_iff by (done || by_decide).
  rewrite andb_true_iff, Z.leb_le, Z.ltb_lt. done.
Qed.


Lemma leb_ltb_succ (a b : Z) : (a <=? b) = (a <? b + 1).
Proof. destruct (Z.leb_spec a b), (Z.ltb_spec a (b + 1)); done || lia. Qed.

Lemma valid_stage_state_iff (v : Z) :
  int32 v -> valid_stage_state v = true <-> stage_state_ok v.
Proof.
  intros Hv. unfold valid_stage_state, stage_state_ok.
  rewrite leb_ltb_succ, u32_lt_iff by (done || by_decide).
  rewrite andb_true_iff, Z.leb_le, Z.ltb_lt. lia.
Qed.

Lemma stage_at_update_eq (c : strim_controller) (i : Z) (f : strim_stage -> strim_stage) :
  stage_at (update_stage i f c) i = f <$> stage_at c i.
Proof. apply list_lookup_alter_eq. Qed.

Lemma stage_at_update_ne (c : strim_controller) (i j : Z) (f : strim_stage -> strim_stage) :
  0 <= i -> 0 <= j -> i <> j -> stage_at (update_stage i f c) j = stage_at c j.
Proof. intros. apply list_lookup_alter_ne. lia. Qed.

Lemma update_stage_update (c : strim_controller) (i : Z) (f g : strim_stage -> strim_stage) :
  update_stage i f (update_stage i g c) = update_stage i (fun s => f (g s)) c.
Proof.
  unfold update_stage, with_stages; simpl. f_equal.
  apply list_eq. intros k. destruct (decide (k = Z.to_nat i)) as [->|];
    rewrite ?list_lookup_alter_eq, ?list_lookup_alter_ne by done; [|done].
  by destruct (c_stages c !! Z.to_nat i).
Qed.

Lemma update_stage_id (c : strim_controller) (i : Z) (f : strim_stage -> strim_stage) :
  (forall s, stage_at c i = Some s -> f s = s) -> update_stage i f c = c.
Proof.
  intros Hf. unfold update_stage, with_stages. destruct c; simpl in *. f_equal.
  apply list_eq. intros k. destruct (decide (k = Z.to_nat i)) as [->|];
    rewrite ?list_lookup_alter_eq, ?list_lookup_alter_ne by done; [|done].
  unfold stage_at in Hf; simpl in Hf. destruct (_ !! Z.to_nat i) eqn:E; [|done].
  simpl. by rewrite Hf.
Qed.

(** ** Preservation *)

(** An in-place stage update that keeps the identity and the ops of the
    stage and yields storable states. *)
Definition good_update (f : strim_stage -> strim_stage) : Prop :=
  forall i s, stage_wf i s ->
    stage_wf i (f s) /\ s_start_op (f s) = s_start_op s /\ s_stop_op (f s) = s_stop_op s.

Lemma good_set_desired (v : Z) : stage_state_ok v -> good_update (set_desired v).
Proof. intros Hv i s []. split_and!; [by split | done..]. Qed.

Lemma good_set_actual (v : Z) : stage_state_ok v -> good_update (set_actual v).
Proof. intros Hv i s []. split_and!; [by split | done..]. Qed.

Lemma good_set_in_flight (v : Z) : good_update (set_in_flight v).
Proof. intros i s []. split_and!; [by split | done..]. Qed.

Lemma good_set_generation (g : strim_stage -> Z) :
  (forall s, 0 <= g s < 2 ^ 64) -> good_update (fun s => set_generation (g s) s).
Proof. intros Hg i s []. split_and!; [|done..]. split; [done..|apply Hg]. Qed.

Lemma good_compose (f g : strim_stage -> strim_stage) :
  good_update f -> good_update g -> good_update (fun s => f (g s)).
Proof.
  intros Hf Hg i s Hs. destruct (Hg i s Hs) as (Hgs & Hstart & Hstop).
  destruct (Hf i (g s) Hgs) as (? & -> & ->). by split_and!.
Qed.

Lemma u64_range (z : Z) : 0 <= u64 z < 2 ^ 64.
Proof. by apply wrap_range. Qed.

Lemma stopped_ok : stage_state_ok STRIM_STAGE_STOPPED.
Proof. by split. Qed.

#[export] Hint Resolve good_set_desired good_set_actual good_set_in_flight
  good_compose u64_range stopped_ok : strim.

Lemma route_wf_update (stages : list strim_stage) (i : nat) (f : strim_stage -> strim_stage)
    (r : strim_route) :
  good_update f -> (forall i s, stages !! i = Some s -> stage_wf i s) ->
  route_wf stages r -> route_wf (alter f i stages) r.
Proof.
  intros Hf Hst [Hs Hv Hop]. split; [done..|]. intros s. set (k := Z.to_nat _).
  destruct (decide (k = i)) as [<-|].
  - rewrite list_lookup_alter_eq. destruct (stages !! k) as [s0|] eqn:E; [|done].
    intros [= <-]. destruct (Hf k s0 (Hst _ _ E)) as (_ & Hstart & Hstop).
    unfold stage_op_for. rewrite Hstart, Hstop. by apply Hop.
  - rewrite list_lookup_alter_ne by done. apply Hop.
Qed.

Lemma update_stage_wf (c : strim_controller) (i : Z) (f : strim_stage -> strim_stage) :
  good_update f -> wf_controller c -> wf_controller (update_stage i f c).
Proof.
  intros Hf Hwf. pose proof (wf_stages c Hwf) as Hst.
  destruct Hwf. split; simpl; try done.
  - by rewrite length_alter.
  - intros k s. destruct (decide (k = Z.to_nat i)) as [->|].
    + rewrite list_lookup_alter_eq. destruct (_ !! Z.to_nat i) eqn:E; [|done].
      intros [= <-]. by apply Hf, Hst.
    + rewrite list_lookup_alter_ne by done. apply Hst.
  - eapply Forall_impl; [done|]. intros r. by apply route_wf_update.
  - eapply Forall_impl; [done|]. intros r. by apply route_wf_update.
Qed.

Lemma with_paths_wf (c : strim_controller) (i : nat) (v : Z) :
  path_status_ok v -> wf_controller c ->
  wf_controller (with_paths (<[i := v]> (c_paths c)) c).
Proof.
  intros Hv []. split; simpl; try done.
  - by rewrite length_insert.
  - by apply Forall_insert.
Qed.

Lemma with_listeners_wf (c : strim_controller) (l : list strim_listener_entry) :
  Z.of_nat (length l) <= STRIM_CTRL_MAX_LISTENERS ->
  wf_controller c -> wf_controller (with_listeners l c).
Proof. intros Hl []. by split. Qed.

Lemma remove_first_listener_length (l u : ptr) (ls ls' : list strim_listener_entry) :
  remove_first_listener l u ls = Some ls' -> length ls = S (length ls').
Proof.
  revert ls'. induction ls as [|x ls IH]; intros ls' H; simpl in *; [done|].
  case_ifs; simplify_eq; [done|]. destruct (remove_first_listener l u ls); simplify_eq/=.
  by rewrite (IH _ eq_refl).
Qed.

#[export] Hint Resolve update_stage_wf with_paths_wf with_listeners_wf : strim.

Lemma good_fire (g : strim_stage -> Z) (v : Z) :
  (forall s, 0 <= g s < 2 ^ 64) ->
  good_update (fun s => set_generation (g s) (set_in_flight v s)).
Proof. intros Hg i s []. split_and!; [|done..]. split; [done..|apply Hg]. Qed.

Lemma good_teardown :
  good_update (fun s => set_in_flight 0 (set_actual STRIM_STAGE_STOPPED
    (set_desired STRIM_STAGE_STOPPED (set_generation (u64 (s_op_generation s + 1)) s)))).
Proof.
  intros i s []. split_and!; [|done..].
  split; [done | exact stopped_ok | exact stopped_ok | apply u64_range].
Qed.

Lemma reconcile_stage_wf (o : fire_oracle) (i : Z) (c : strim_controller) :
  wf_controller c -> wf_controller (reconcile_stage o i c).1.
Proof.
  intros Hwf. unfold reconcile_stage. destruct (stage_at c i); [|done].
  case_ifs; simpl; repeat apply update_stage_wf; auto with strim;
    apply (good_fire (fun s => _)); intros; apply u64_range.
Qed.

Lemma teardown_stage_wf (i : Z) (c : strim_controller) :
  wf_controller c -> wf_controller (teardown_stage i c).1.
Proof.
  intros Hwf. unfold teardown_stage. destruct (stage_at c i); [|done].
  case_ifs; simpl; [done|]. apply update_stage_wf; [apply good_teardown | done].
Qed.

Lemma reconcile_from_wf (o : Z -> fire_oracle) (idx : list Z) (c : strim_controller) :
  wf_controller c -> wf_controller (reconcile_from o idx c).1.
Proof.
  revert c. induction idx as [|i idx IH]; intros c Hwf; simpl; [done|].
  pose proof (reconcile_stage_wf (o i) i c Hwf) as H1.
  destruct (reconcile_stage (o i) i c) as [c1 e1]. specialize (IH c1 H1).
  by destruct (reconcile_from o idx c1).
Qed.

Lemma teardown_from_wf (idx : list Z) (c : strim_controller) :
  wf_controller c -> wf_controller (teardown_from idx c).1.
Proof.
  revert c. induction idx as [|i idx IH]; intros c Hwf; simpl; [done|].
  pose proof (teardown_stage_wf i c Hwf) as H1.
  destruct (teardown_stage i c) as [c1 e1]. specialize (IH c1 H1).
  by destruct (teardown_from idx c1).
Qed.

Section HandlerFacts.
Variable call_prerequisite : ptr -> ptr -> strim_controller -> Z.

Lemma apply_desired_wf (c : strim_controller) (r : strim_route) :
  route_wf (c_stages c) r -> wf_controller c ->
  wf_controller (apply_desired_stage_target call_prerequisite c r).1.2.
Proof.
  intros [? Hst _] Hwf. unfold apply_desired_stage_target.
  destruct (stage_at c _); [|done]. case_ifs; simpl; auto with strim.
Qed.

Lemma find_path_event_route_wf (c : strim_controller) (p s : Z) (r : strim_route) :
  wf_controller c -> find_path_event_route c p s = Some r -> route_wf (c_stages c) r.
Proof.
  intros Hwf [Hin _]%find_first_Some.
  pose proof (wf_path_routes c Hwf) as H. rewrite Forall_forall in H. by apply H.
Qed.

Lemma find_control_route_wf (c : strim_controller) (p s : Z) (r : strim_route) :
  wf_controller c -> find_control_route c p s = Some r -> route_wf (c_stages c) r.
Proof.
  intros Hwf [Hin _]%find_first_Some.
  pose proof (wf_control_routes c Hwf) as H. rewrite Forall_forall in H. by apply H.
Qed.

Lemma handle_path_event_wf (c : strim_controller) (e : strim_path_event) :
  int32 (pe_status e) -> wf_controller c ->
  wf_controller (strim_controller_handle_path_event call_prerequisite c (Some e)).1.2.
Proof.
  intros He Hwf. unfold strim_controller_handle_path_event. case_ifs; [done..|].
  set (c1 := with_paths _ c).
  assert (Hwf1 : wf_controller c1).
  { apply with_paths_wf; [|done]. apply valid_path_status_iff; [done|].
    by apply negb_false_iff. }
  destruct (find_path_event_route c1 _ _) as [r|] eqn:Hr; [|done].
  apply apply_desired_wf; [|done]. by eapply find_path_event_route_wf.
Qed.

Lemma handle_control_wf (c : strim_controller) (cmd : strim_control_command) :
  wf_controller c ->
  wf_controller (strim_controller_handle_control call_prerequisite c (Some cmd)).1.2.
Proof.
  intros Hwf. unfold strim_controller_handle_control. case_ifs; [done..|].
  destruct (find_control_route c _ _) as [r|] eqn:Hr; [|done].
  apply apply_desired_wf; [|done]. by eapply find_control_route_wf.
Qed.

Lemma handle_stage_event_wf (c : strim_controller) (e : strim_stage_event) :
  int32 (se_state e) -> wf_controller c ->
  wf_controller (strim_controller_handle_stage_event c (Some e)).1.2.
Proof.
  intros He Hwf. unfold strim_controller_handle_stage_event. case_ifs; [done..|].
  destruct (stage_at c _); [|done]. simpl. apply update_stage_wf; [|done].
  apply good_compose; [apply good_set_in_flight | apply good_set_actual].
  apply valid_stage_state_iff; [done|]. by apply negb_false_iff.
Qed.

(** Every queued action keeps the controller well formed. *)
Lemma run_action_preserves (sd : bool) (o : Z -> fire_oracle) (c : strim_controller)
    (a : strim_action) :
  wf_controller c -> action_typed a ->
  wf_controller (run_action call_prerequisite sd o c a).1.2.
Proof.
  intros Hwf Ht. destruct a; cbn [run_action action_typed] in *.
  - pose proof (handle_path_event_wf c e (proj2 Ht) Hwf).
    by destruct (strim_controller_handle_path_event _ _ _) as [[? ?] ?].
  - pose proof (handle_control_wf c cmd Hwf).
    by destruct (strim_controller_handle_control _ _ _) as [[? ?] ?].
  - pose proof (handle_stage_event_wf c e (proj2 Ht) Hwf).
    by destruct (strim_controller_handle_stage_event _ _) as [[? ?] ?].
  - by destruct out.
  - unfold handle_add_listener. case_ifs; simpl; [done..|]. bool_props.
    apply with_listeners_wf; [|done]. rewrite length_app. simpl. lia.
  - unfold handle_remove_listener. destruct (remove_first_listener _ _ _) eqn:E; [|done].
    apply remove_first_listener_length in E. simpl. apply with_listeners_wf; [|done].
    pose proof (wf_listeners c Hwf). lia.
  - unfold strim_controller_handle_reconcile. destruct sd; [done|].
    pose proof (reconcile_from_wf o stage_indices c Hwf). by destruct (reconcile_from _ _ _).
  - cbn. unfold clear_inflight. destruct (stage_at c stage); [|done]. case_ifs; auto with strim.
  - unfold teardown_inner. pose proof (teardown_from_wf stage_indices c Hwf).
    by destruct (teardown_from _ _).
Qed.
End HandlerFacts.

(** ** Construction *)

Definition route_key (kind : Z) (r : strim_route) : Z * Z :=
  if kind =? STRIM_ROUTE_PATH_EVENT then path_key r else control_key r.

Lemma route_keys_equal_iff (a b : strim_route) (kind : Z) :
  route_keys_equal a b kind = true <-> route_key kind a = route_key kind b.
Proof.
  unfold route_keys_equal, route_key, path_key, control_key.
  destruct (kind =? _); rewrite andb_true_iff, !Z.eqb_eq; split;
    (intros [-> ->]; done) || (intros H; injection H; done).
Qed.

Lemma existsb_key (kind : Z) (r : strim_route) (prev : list strim_route) :
  existsb (fun p => route_keys_equal p r kind) prev = true <->
  route_key kind r ∈ (route_key kind <$> prev).
Proof.
  rewrite existsb_exists, list_elem_of_fmap. split.
  - intros (x & Hx & Hk%route_keys_equal_iff). exists x. by rewrite list_elem_of_In.
  - intros (x & Hk & Hx%list_elem_of_In). exists x. split; [done|].
    by apply route_keys_equal_iff.
Qed.

Lemma route_ok_wf (stages : list strim_stage) (kind : Z) (prev : list strim_route)
    (r : strim_route) :
  route_typed r -> route_ok stages kind prev r = true ->
  route_wf stages r /\ route_key kind r ∉ (route_key kind <$> prev).
Proof.
  intros [Ht1 Ht2] Hok. unfold route_ok in Hok.
  repeat rewrite andb_true_iff in Hok. destruct Hok as (((((_ & _) & Hs) & Hv) & Hop) & Hk).
  rewrite (u32_lt_iff (r_target_stage r)) in Hs by (done || by_decide).
  apply andb_true_iff in Hs as [Hs0%Z.leb_le Hs1%Z.ltb_lt].
  rewrite negb_true_iff in Hk. split.
  - split; [done | by apply valid_stage_state_iff |]. intros s Hs.
    rewrite wrap_small in Hop by (unfold STRIM_STAGE_NAME_COUNT in *; lia).
    rewrite Hs in Hop. unfold is_null in Hop. by bool_props.
  - intros Hin%existsb_key. congruence.
Qed.

Lemma validate_routes_wf (stages : list strim_stage) (kind : Z)
    (todo prev : list strim_route) :
  Forall route_typed todo -> NoDup (route_key kind <$> prev) ->
  validate_routes stages kind prev todo = true ->
  Forall (route_wf stages) todo /\ NoDup (route_key kind <$> (prev ++ todo)).
Proof.
  revert prev. induction todo as [|r todo IH]; intros prev Ht Hnd Hv; simpl in *.
  { by rewrite app_nil_r. }
  apply Forall_cons in Ht as [Hr Ht]. apply andb_true_iff in Hv as [Hok Hv].
  destruct (route_ok_wf _ _ _ _ Hr Hok) as [Hwf Hnin].
  destruct (IH (prev ++ [r]) Ht) as [Hall Hnd']; [|done|].
  - rewrite fmap_app. apply NoDup_app. split_and!; [done | | apply NoDup_singleton].
    simpl. intros x Hx Hx'%list_elem_of_singleton. by subst.
  - rewrite <- app_assoc in Hnd'. by split; [constructor|].
Qed.

Lemma copy_routes_wf (stages : list strim_stage) (src : option (list strim_route))
    (n : nat) (kind : Z) (alloc : bool) (l : list strim_route) :
  Forall route_typed (default [] src) ->
  validate_and_copy_routes stages src n kind alloc = inr l ->
  Forall (route_wf stages) l /\ NoDup (route_key kind <$> l).
Proof.
  intros Ht Hc. unfold validate_and_copy_routes in Hc. destruct src as [src|]; simpl in Ht.
  - destruct (_ && negb alloc); [done|]. destruct (validate_routes _ _ _ _) eqn:E; [|done].
    simplify_eq. apply (validate_routes_wf _ _ _ [] (Forall_take _ n _ Ht)) in E; [done|].
    apply NoDup_nil_2.
  - destruct (0 <? n)%nat; simplify_eq. split; [done | apply NoDup_nil_2].
Qed.

Lemma seed_stages_wf (scs : list strim_stage_config) (k : nat) (l : list strim_stage) :
  Forall stage_config_typed scs -> seed_stages (Z.of_nat k) scs = Some l ->
  length l = length scs /\ forall i s, l !! i = Some s -> stage_wf (k + i) s.
Proof.
  revert k l. induction scs as [|sc scs IH]; intros k l Ht Hs; simpl in *; [by simplify_eq|].
  apply Forall_cons in Ht as [[Hd Ha] Ht].
  destruct (sc_name sc =? Z.of_nat k) eqn:En; simpl in Hs; [|done].
  destruct (_ || _) eqn:Ev; [done|]. bool_props.
  replace (Z.of_nat k + 1) with (Z.of_nat (S k)) in Hs by lia.
  destruct (seed_stages _ scs) as [l'|] eqn:E; simplify_eq.
  destruct (IH _ _ Ht E) as [Hlen Hwf]. split; [simpl; congruence|].
  intros [|i] s Hi; simplify_eq/=.
  - rewrite Nat.add_0_r. split; [done | by apply valid_stage_state_iff.. | done].
  - replace (k + S i)%nat with (S k + i)%nat by lia. by apply Hwf.
Qed.

Lemma controller_new_facts (o : new_oracle) (cfg : strim_controller_config)
    (c : strim_controller) :
  config_typed cfg -> strim_controller_new o (Some cfg) true = inr c ->
  wf_controller c /\ c_listeners c = [] /\
  forall i s, c_stages c !! i = Some s -> s_in_flight_since s = 0 /\ s_op_generation s = 0.
Proof.
  intros [[Hlp Htp] [Hls Hts] Hpr Hcr] Hnew. unfold strim_controller_new in Hnew. simpl in Hnew.
  destruct (cc_inflight_timeout_ms cfg <=? 0) eqn:Et; [done|].
  destruct (cc_actions_buffer_size cfg =? 0) eqn:Eb; [done|].
  destruct (forallb _ _) eqn:Ep; [|done]. destruct (no_calloc o); [|done]. simpl in Hnew.
  destruct (seed_stages 0 _) as [stages|] eqn:Es; [|done].
  destruct (validate_and_copy_routes stages (cc_path_routes cfg) _ _ _) as [|pr] eqn:E1; [done|].
  destruct (validate_and_copy_routes stages (cc_control_routes cfg) _ _ _) as [|cr] eqn:E2; [done|].
  destruct (no_workerpool o); [|done]. simplify_eq/=. bool_props.
  destruct (copy_routes_wf _ _ _ _ _ _ Hpr E1) as [Hp Hpk].
  destruct (copy_routes_wf _ _ _ _ _ _ Hcr E2) as [Hc Hck].
  destruct (seed_stages_wf _ 0 _ Hts Es) as [Hlen Hwf].
  split; [split; simpl; try done; try congruence|].
  - apply Forall_forall. intros v Hv. apply valid_path_status_iff.
    { rewrite Forall_forall in Htp. by apply Htp. }
    rewrite forallb_forall in Ep. apply Ep. by apply list_elem_of_In.
  - split; [done|]. clear -Es. intros i s Hi. revert stages i Es Hi. generalize 0 at 1.
    induction (cc_stages cfg) as [|sc scs IH]; intros k l i Es Hi; simpl in *; [by simplify_eq|].
    destruct (negb _); [done|]. destruct (_ || _); [done|].
    destruct (seed_stages _ scs) eqn:E; simplify_eq. destruct i; simplify_eq/=; eauto.
Qed.

Lemma controller_new_wf (o : new_oracle) (cfg : strim_controller_config)
    (c : strim_controller) :
  config_typed cfg -> strim_controller_new o (Some cfg) true = inr c -> wf_controller c.
Proof. intros Ht Hn. by apply (controller_new_facts o cfg). Qed.

(** a controller returned by [strim_controller_new] is well formed, for
    every typed configuration and every allocation outcome: two stored path
    statuses and four stages indexed by name, all in range, every route
    aimed at a stage that has an op for its target state, no two routes with
    the same key, no listeners yet, a positive timeout, nothing in flight. *)
Theorem controller_new_establishes_wf (o : new_oracle) (cfg : strim_controller_config)
    (c : strim_controller) :
  config_typed cfg -> strim_controller_new o (Some cfg) true = inr c ->
  wf_controller c /\ c_listeners c = [] /\
  forall i s, c_stages c !! i = Some s -> s_in_flight_since s = 0 /\ s_op_generation s = 0.
Proof. apply controller_new_facts. Qed.

(** ** Reconcile *)

(** A reconcile iteration reads and writes only its own stage. *)
Lemma reconcile_stage_other (o : fire_oracle) (i j : Z) (c : strim_controller) :
  0 <= i -> 0 <= j -> i <> j -> stage_at (reconcile_stage o i c).1 j = stage_at c j.
Proof.
  intros. unfold reconcile_stage. destruct (stage_at c i); [|done].
  case_ifs; simpl; rewrite ?stage_at_update_ne by done; done.
Qed.

Lemma reconcile_stage_timeout (o : fire_oracle) (i : Z) (c : strim_controller) :
  c_inflight_timeout_ms (reconcile_stage o i c).1 = c_inflight_timeout_ms c.
Proof. unfold reconcile_stage. destruct (stage_at c i); [|done]. by case_ifs. Qed.

Lemma reconcile_stage_local (o : fire_oracle) (i : Z) (c c' : strim_controller) :
  stage_at c i = stage_at c' i -> c_inflight_timeout_ms c = c_inflight_timeout_ms c' ->
  (reconcile_stage o i c).2 = (reconcile_stage o i c').2 /\
  stage_at (reconcile_stage o i c).1 i = stage_at (reconcile_stage o i c').1 i.
Proof.
  intros Hs Ht. unfold reconcile_stage, plan_fire, make_job. rewrite <- Hs, <- Ht.
  destruct (stage_at c i) eqn:E; [|split; [done|]; simpl; congruence].
  case_ifs; simpl; rewrite ?stage_at_update_eq, ?E, <- ?Hs, ?E; done.
Qed.

(** The pass over distinct stages does to each stage, and launches for it,
    exactly what its own iteration does to the initial state. *)
Lemma reconcile_from_pointwise (o : Z -> fire_oracle) (idx : list Z) (c : strim_controller) :
  NoDup idx -> Forall (fun i => 0 <= i) idx ->
  (reconcile_from o idx c).2 = concat (map (fun i => (reconcile_stage (o i) i c).2) idx) /\
  (forall i, i ∈ idx ->
     stage_at (reconcile_from o idx c).1 i = stage_at (reconcile_stage (o i) i c).1 i) /\
  (forall i, 0 <= i -> i ∉ idx -> stage_at (reconcile_from o idx c).1 i = stage_at c i) /\
  c_inflight_timeout_ms (reconcile_from o idx c).1 = c_inflight_timeout_ms c.
Proof.
  revert c. induction idx as [|k idx IH]; intros c Hnd Hpos; simpl.
  { split_and!; [done | | done..]. by intros i Hi%not_elem_of_nil. }
  apply NoDup_cons in Hnd as [Hk Hnd]. apply Forall_cons in Hpos as [Hk0 Hpos].
  pose proof (reconcile_stage_timeout (o k) k c) as Ht.
  pose proof (fun j => reconcile_stage_other (o k) k j c Hk0) as Hother.
  destruct (reconcile_stage (o k) k c) as [c1 e1] eqn:Ek; simpl in *.
  destruct (IH c1 Hnd Hpos) as (He & Hin & Hout & Hto). clear IH.
  assert (Hloc : forall i, i ∈ idx -> stage_at c1 i = stage_at c i).
  { intros i Hi. rewrite Forall_forall in Hpos. apply Hother; [by apply Hpos|]. by intros ->. }
  destruct (reconcile_from o idx c1) as [c2 e2]; simpl in *. split_and!.
  - rewrite He. f_equal. f_equal. apply map_ext_in. intros i Hi%list_elem_of_In.
    apply reconcile_stage_local; auto.
  - intros i [->|Hi]%elem_of_cons; [rewrite Ek; by apply Hout|].
    rewrite (Hin i Hi). apply reconcile_stage_local; auto.
  - intros i Hi0 [Hik Hi]%not_elem_of_cons. rewrite Hout by done. by apply Hother.
  - by rewrite Hto.
Qed.

Lemma stage_indices_nodup : NoDup stage_indices.
Proof. by_decide. Qed.

Lemma stage_indices_pos : Forall (fun i => 0 <= i) stage_indices.
Proof. by_decide. Qed.

Lemma stage_indices_range (i : Z) : i ∈ stage_indices <-> 0 <= i < STRIM_STAGE_NAME_COUNT.
Proof.
  unfold stage_indices, STRIM_STAGE_NAME_COUNT. rewrite !elem_of_cons, elem_of_nil. lia.
Qed.

(** An uneventful iteration: nothing suppresses the fire and it succeeds. *)
Definition fire_succeeds (o : fire_oracle) : Prop :=
  fo_shutting_down o = false /\ fo_job_alloc o = true /\ fo_submit o = 0.

(** The op a stage needs, and when it is due: the stage is not converged, the
    op exists, and none is in flight or the one in flight is overdue. *)
Definition desired_op (s : strim_stage) : ptr :=
  if bool_decide (desired (s_status s) = STRIM_STAGE_RUNNING) then s_start_op s else s_stop_op s.

Definition fire_due (c : strim_controller) (s : strim_stage) (now : Z) : bool :=
  bool_decide (desired (s_status s) <> actual (s_status s) /\ desired_op s <> NULL /\
    (s_in_flight_since s = 0 \/ c_inflight_timeout_ms c <= now - s_in_flight_since s)).

Definition due_job (c : strim_controller) (o : Z -> fire_oracle) (i : Z) (s : strim_stage)
  : strim_op_job :=
  {| j_stage := i; j_op := desired_op s; j_op_ctx := s_op_ctx s;
     j_timeout_ms := c_inflight_timeout_ms c; j_generation := (s_op_generation s + 1) mod 2 ^ 64;
     j_deadline_ms := fo_now_fire (o i) + c_inflight_timeout_ms c |}.

Lemma desired_op_code (s : strim_stage) : stage_op_for s (desired (s_status s)) = desired_op s.
Proof. unfold stage_op_for, desired_op. case_bool_decide; case_ifs; bool_props; done. Qed.

Lemma plan_fire_spec (c : strim_controller) (s : strim_stage) (now : Z) :
  plan_fire c s now = true <->
  s_in_flight_since s = 0 \/ c_inflight_timeout_ms c <= now - s_in_flight_since s.
Proof. unfold plan_fire. by rewrite orb_true_iff, Z.eqb_eq, Z.leb_le. Qed.

Lemma fire_due_code (c : strim_controller) (s : strim_stage) (now : Z) :
  fire_due c s now =
  negb (desired (s_status s) =? actual (s_status s)) &&
  negb (is_null (stage_op_for s (desired (s_status s)))) && plan_fire c s now.
Proof.
  apply eq_bool_prop_intro. unfold fire_due.
  rewrite bool_decide_spec, !Is_true_true, !andb_true_iff, !negb_true_iff, plan_fire_spec,
    desired_op_code, Z.eqb_neq. unfold is_null. rewrite Z.eqb_neq. tauto.
Qed.

(** The effect and the state of one stage after an uneventful pass. *)
Definition reconciled_stage (c : strim_controller) (o : Z -> fire_oracle) (i : Z)
    (s : strim_stage) : strim_stage :=
  if desired (s_status s) =? actual (s_status s) then set_in_flight 0 s
  else if fire_due c s (fo_now_plan (o i))
  then set_generation (u64 (s_op_generation s + 1)) (set_in_flight (fo_now_fire (o i)) s)
  else s.

Definition due_launch (c : strim_controller) (o : Z -> fire_oracle) (i : Z) : list effect :=
  match stage_at c i with
  | Some s => if fire_due c s (fo_now_plan (o i)) then [Launch (due_job c o i s)] else []
  | None => []
  end.

Lemma reconcile_stage_spec (c : strim_controller) (o : Z -> fire_oracle) (i : Z) :
  fire_succeeds (o i) ->
  (reconcile_stage (o i) i c).2 = due_launch c o i /\
  stage_at (reconcile_stage (o i) i c).1 i = reconciled_stage c o i <$> stage_at c i.
Proof.
  intros (Hsd & Ha & Hsub). unfold reconcile_stage, due_launch, reconciled_stage.
  destruct (stage_at c i) as [s|] eqn:Es; [|done].
  simpl. rewrite Hsd, Ha, Hsub, fire_due_code. unfold due_job. rewrite <- desired_op_code. simpl.
  destruct (desired _ =? actual _) eqn:Ed; simpl; [by rewrite stage_at_update_eq, Es|].
  destruct (plan_fire c s _) eqn:Ep, (is_null _) eqn:En; simpl;
    rewrite ?stage_at_update_eq, ?Es; done.
Qed.

(** C11: the reconcile contract.  In a pass that is not suppressed and whose
    allocations succeed, exactly one op is launched for each stage that is
    due (not converged, with an op for its desired state, and either not in
    flight or in flight for at least the inflight timeout), none for any
    other stage, in stage order; the launched op carries the desired state's
    op, the bumped generation and the deadline one timeout after the fire;
    a due stage is marked in flight at the fire's clock reading, a converged
    stage is cleared, and every other stage is untouched. *)
Theorem reconcile_launches_exactly_the_due_ops (c : strim_controller)
    (o : Z -> fire_oracle) :
  (forall i, 0 <= i < STRIM_STAGE_NAME_COUNT -> fire_succeeds (o i)) ->
  let '(c', launched) := strim_controller_handle_reconcile false o c in
  launched = concat (map (due_launch c o) stage_indices) /\
  forall i, 0 <= i < STRIM_STAGE_NAME_COUNT ->
    stage_at c' i = reconciled_stage c o i <$> stage_at c i.
Proof.
  intros Ho. unfold strim_controller_handle_reconcile.
  destruct (reconcile_from_pointwise o stage_indices c stage_indices_nodup
              stage_indices_pos) as (He & Hin & _).
  destruct (reconcile_from o stage_indices c) as [c' launched]. cbn [fst snd] in *. split.
  - rewrite He. f_equal. apply map_ext_in. intros i Hi%list_elem_of_In%stage_indices_range.
    by apply reconcile_stage_spec, Ho.
  - intros i Hi. rewrite Hin by (by apply stage_indices_range).
    by apply reconcile_stage_spec, Ho.
Qed.

Lemma reconcile_from_noop (o : Z -> fire_oracle) (idx : list Z) (c : strim_controller) :
  Forall (fun i => reconcile_stage (o i) i c = (c, [])) idx ->
  reconcile_from o idx c = (c, []).
Proof. induction 1 as [|i idx Hi _ IH]; simpl; [done|]. by rewrite Hi, IH. Qed.

(** A stage with nothing to do: converged and cleared, without an op for its
    desired state, or with an op in flight that is not overdue. *)
Lemma reconcile_stage_quiet (o : fire_oracle) (i : Z) (c : strim_controller)
    (s : strim_stage) :
  stage_at c i = Some s ->
  (desired (s_status s) = actual (s_status s) /\ s_in_flight_since s = 0) \/
  (desired (s_status s) <> actual (s_status s) /\
   (stage_op_for s (desired (s_status s)) = NULL \/ plan_fire c s (fo_now_plan o) = false)) ->
  reconcile_stage o i c = (c, []).
Proof.
  intros Hs Hq. unfold reconcile_stage. rewrite Hs. destruct Hq as [[Hd Hf]|[Hd Hq]].
  - rewrite (proj2 (Z.eqb_eq _ _) Hd). f_equal. apply update_stage_id.
    intros s' Hs'. assert (s' = s) as -> by congruence. destruct s; simpl in *. by subst.
  - rewrite (proj2 (Z.eqb_neq _ _) Hd). destruct Hq as [-> | ->]; [|done].
    by destruct (negb _).
Qed.

(** reconcile passes are idempotent.  After a pass whose launches all
    succeeded (at clock readings other than 0, the not-in-flight sentinel),
    a second pass made before any in-flight op is overdue launches nothing
    and changes nothing, whatever its own allocations would do. *)
Theorem reconcile_idempotent (c : strim_controller) (o1 o2 : Z -> fire_oracle) :
  (forall i, 0 <= i < STRIM_STAGE_NAME_COUNT ->
     fire_succeeds (o1 i) /\ fo_now_fire (o1 i) <> 0) ->
  length (c_stages c) = 4%nat ->
  let c1 := (strim_controller_handle_reconcile false o1 c).1 in
  (forall i s, 0 <= i < STRIM_STAGE_NAME_COUNT -> stage_at c1 i = Some s ->
     s_in_flight_since s <> 0 ->
     fo_now_plan (o2 i) - s_in_flight_since s < c_inflight_timeout_ms c) ->
  strim_controller_handle_reconcile false o2 c1 = (c1, []).
Proof.
  intros Ho Hlen c1 Hclock. apply reconcile_from_noop, Forall_forall.
  intros i Hi%stage_indices_range.
  destruct (reconcile_from_pointwise o1 stage_indices c stage_indices_nodup
              stage_indices_pos) as (_ & Hin & _ & Hto).
  change (reconcile_from o1 stage_indices c).1 with c1 in Hin, Hto.
  destruct (lookup_lt_is_Some_2 (c_stages c) (Z.to_nat i)) as [s Hs];
    [unfold STRIM_STAGE_NAME_COUNT in Hi; lia|].
  assert (Hs1 : stage_at c1 i = Some (reconciled_stage c o1 i s)).
  { rewrite Hin by (by apply stage_indices_range).
    destruct (reconcile_stage_spec c o1 i (proj1 (Ho i Hi))) as [_ ->].
    unfold stage_at. by rewrite Hs. }
  apply (reconcile_stage_quiet _ _ _ _ Hs1). specialize (Hclock i _ Hi Hs1).
  revert Hclock. unfold reconciled_stage. destruct (desired _ =? actual _) eqn:Ed; bool_props.
  { by left. }
  intros Hclock. right. rewrite fire_due_code in *. destruct (_ && plan_fire c s _) eqn:Edue; simpl in *.
  - split; [done|]. right. unfold plan_fire; simpl. rewrite Hto.
    apply orb_false_iff. rewrite Z.eqb_neq, Z.leb_gt. destruct (Ho i Hi) as [_ Hnz]. auto.
  - split; [done|]. rewrite (proj2 (Z.eqb_neq _ _) Ed) in Edue.
    simpl in Edue. destruct (is_null _) eqn:En; unfold is_null in En; bool_props; [by left|].
    simpl in Edue. right. unfold plan_fire in *. rewrite Hto. bool_props.
    apply orb_false_iff. rewrite Z.eqb_neq, Z.leb_gt. auto.
Qed.

(** ** Teardown *)

Definition torn_down (s : strim_stage) : bool :=
  (actual (s_status s) =? STRIM_STAGE_RUNNING) && negb (is_null (s_stop_op s)).

Definition stopped_stage (s : strim_stage) : strim_stage :=
  if torn_down s
  then set_in_flight 0 (set_actual STRIM_STAGE_STOPPED (set_desired STRIM_STAGE_STOPPED
         (set_generation (u64 (s_op_generation s + 1)) s)))
  else s.

Definition stop_call (c : strim_controller) (i : Z) : list effect :=
  match stage_at c i with
  | Some s => if torn_down s
              then [SyncStop (s_stop_op s) (s_op_ctx s) (c_inflight_timeout_ms c)] else []
  | None => []
  end.

Lemma teardown_stage_spec (i : Z) (c : strim_controller) :
  0 <= i ->
  (teardown_stage i c).2 = stop_call c i /\
  stage_at (teardown_stage i c).1 i = stopped_stage <$> stage_at c i /\
  (forall j, 0 <= j -> i <> j -> stage_at (teardown_stage i c).1 j = stage_at c j) /\
  c_inflight_timeout_ms (teardown_stage i c).1 = c_inflight_timeout_ms c.
Proof.
  intros Hi. unfold teardown_stage, stop_call, stopped_stage, torn_down.
  destruct (stage_at c i) as [s|] eqn:Es; simpl; [|by rewrite Es].
  destruct (actual _ =? _) eqn:Ea, (is_null _) eqn:En; simpl;
    rewrite ?stage_at_update_eq, ?Es; simpl; split_and!; try done;
    intros; by rewrite stage_at_update_ne.
Qed.

Lemma teardown_from_pointwise (idx : list Z) (c : strim_controller) :
  NoDup idx -> Forall (fun i => 0 <= i) idx ->
  (teardown_from idx c).2 = concat (map (stop_call c) idx) /\
  (forall i, i ∈ idx -> stage_at (teardown_from idx c).1 i = stopped_stage <$> stage_at c i).
Proof.
  enough (H : NoDup idx -> Forall (fun i => 0 <= i) idx ->
    (teardown_from idx c).2 = concat (map (stop_call c) idx) /\
    (forall i, i ∈ idx -> stage_at (teardown_from idx c).1 i = stopped_stage <$> stage_at c i) /\
    (forall i, 0 <= i -> i ∉ idx -> stage_at (teardown_from idx c).1 i = stage_at c i))
    by (intros; split; by apply H).
  revert c. induction idx as [|k idx IH]; intros c Hnd Hpos; simpl.
  { split_and!; [done | | done]. by intros i Hi%not_elem_of_nil. }
  apply NoDup_cons in Hnd as [Hk Hnd]. apply Forall_cons in Hpos as [Hk0 Hpos].
  destruct (teardown_stage_spec k c Hk0) as (He1 & Hs1 & Hother & Hto).
  destruct (teardown_stage k c) as [c1 e1]; cbn [fst snd] in *.
  destruct (IH c1 Hnd Hpos) as (He & Hin & Hout). clear IH.
  assert (Hloc : forall i, i ∈ idx -> stage_at c1 i = stage_at c i).
  { intros i Hi. rewrite Forall_forall in Hpos. apply Hother; [by apply Hpos|]. by intros ->. }
  destruct (teardown_from idx c1) as [c2 e2]; cbn [fst snd] in *. split_and!.
  - rewrite He, He1. f_equal. f_equal. apply map_ext_in. intros i Hi%list_elem_of_In.
    unfold stop_call. by rewrite Hloc, Hto.
  - intros i [->|Hi]%elem_of_cons; [by rewrite Hout|]. by rewrite Hin, Hloc.
  - intros i Hi0 [Hik Hi]%not_elem_of_cons. by rewrite Hout, Hother.
Qed.

Lemma u64_succ_ne (g : Z) : 0 <= g < 2 ^ 64 -> u64 (g + 1) <> g.
Proof.
  intros Hg. unfold wrap. destruct (decide (g = 2 ^ 64 - 1)) as [->|]; [done|].
  rewrite Z.mod_small; lia.
Qed.

(** teardown.  It calls the stop op of exactly the stages that are
    running (and have one), synchronously, in stage order and each with the
    inflight timeout; every such stage ends desired and actual Stopped and
    not in flight; the other stages are untouched; a running op fired for
    such a stage is reported superseded from then on; and when every stage
    has a stop op no stage is left running. *)
Theorem teardown_stops_every_running_stage (c : strim_controller) :
  wf_controller c ->
  let '(c', effects) := teardown_inner c in
  effects = concat (map (stop_call c) stage_indices) ++ notify_listeners c' /\
  (forall i, 0 <= i < STRIM_STAGE_NAME_COUNT ->
     stage_at c' i = stopped_stage <$> stage_at c i) /\
  (forall i s s' job, stage_at c i = Some s -> torn_down s = true ->
     0 <= i < STRIM_STAGE_NAME_COUNT -> stage_at c' i = Some s' ->
     j_generation job = s_op_generation s ->
     strim_stage_op_superseded (Some job) (s_op_generation s') = true) /\
  ((forall i s, stage_at c i = Some s -> s_stop_op s <> NULL) ->
   forall i s', 0 <= i < STRIM_STAGE_NAME_COUNT -> stage_at c' i = Some s' ->
     actual (s_status s') = STRIM_STAGE_STOPPED).
Proof.
  intros Hwf. unfold teardown_inner.
  destruct (teardown_from_pointwise stage_indices c stage_indices_nodup stage_indices_pos)
    as (He & Hin).
  destruct (teardown_from stage_indices c) as [c' e]. cbn [fst snd] in *.
  assert (Hat : forall i, 0 <= i < STRIM_STAGE_NAME_COUNT ->
                  stage_at c' i = stopped_stage <$> stage_at c i)
    by (intros; apply Hin; by apply stage_indices_range).
  split_and!; [by rewrite He | done | |].
  - intros i s s' job Hs Ht Hi Hs' Hj. rewrite Hat, Hs in Hs' by done.
    simpl in Hs'. unfold stopped_stage in Hs'. rewrite Ht in Hs'. simplify_eq/=.
    rewrite Hj. apply negb_true_iff, Z.eqb_neq, u64_succ_ne.
    by apply (wf_stages c Hwf _ _ Hs).
  - intros Hstop i s' Hi Hs'. rewrite Hat in Hs' by done.
    destruct (stage_at c i) as [s|] eqn:Hs; simplify_eq/=.
    pose proof (Hstop i s Hs). pose proof (sw_actual _ _ (wf_stages c Hwf _ _ Hs)) as Ha.
    unfold stopped_stage, torn_down, is_null. rewrite (proj2 (Z.eqb_neq (s_stop_op s) NULL)) by done.
    rewrite andb_true_r. destruct (actual _ =? _) eqn:E; bool_props; [done|].
    unfold stage_state_ok, STRIM_STAGE_RUNNING, STRIM_STAGE_STOPPED in *. lia.
Qed.
