(* ===== verification/CtlSpec.v ===== *)
(** * Abstract specification of the controller and its refinement

    What controller.h promises, over inductive types instead of C enums and
    arrays: a map of path statuses, a map of desired and actual stage states,
    a table of listeners, and the nine kinds of requests, the events among
    them routed by a table of gated targets.  The action handlers of
    [Controller] are shown to implement it step by step: the same answers,
    the same state, and the listener calls the specification asks for. *)

From S2P Require Import Prelude Wire Controller ControllerFacts.

(** ** The abstract machine *)

Inductive path_name := Ingress0 | Normalized.
Inductive path_status := Unknown | Ready | NotReady.
Inductive stage_name := MediaMtx | Normalize | ScaleAndEgress | SingleStageEgress.
Inductive run_state := Stopped | Running.
Inductive component := Egress.
Inductive command := Start | Stop.

#[export] Instance path_name_eq_dec : EqDecision path_name.
Proof. solve_decision. Defined.
#[export] Instance path_status_eq_dec : EqDecision path_status.
Proof. solve_decision. Defined.
#[export] Instance stage_name_eq_dec : EqDecision stage_name.
Proof. solve_decision. Defined.
#[export] Instance run_state_eq_dec : EqDecision run_state.
Proof. solve_decision. Defined.

Record astate := AState {
  a_path : path_name -> path_status;
  a_desired : stage_name -> run_state;
  a_actual : stage_name -> run_state;
}.

Record atarget := ATarget {
  t_stage : stage_name;
  t_state : run_state;
  t_gate : astate -> bool;
}.

Record arouter := ARouter {
  on_path : path_name -> path_status -> option atarget;
  on_control : component -> command -> option atarget;
}.

Inductive aevent :=
  | EvPath (p : path_name) (s : path_status)
  | EvControl (c : component) (a : command)
  | EvStage (st : stage_name) (rs : run_state).

Inductive averdict := Accepted | GateRejected | NotRouted.

Definition fn_update {A B} `{EqDecision A} (f : A -> B) (k : A) (v : B) : A -> B :=
  fun x => if decide (x = k) then v else f x.

Definition aset_path (p : path_name) (s : path_status) (a : astate) : astate :=
  AState (fn_update (a_path a) p s) (a_desired a) (a_actual a).
Definition aset_desired (st : stage_name) (rs : run_state) (a : astate) : astate :=
  AState (a_path a) (fn_update (a_desired a) st rs) (a_actual a).
Definition aset_actual (st : stage_name) (rs : run_state) (a : astate) : astate :=
  AState (a_path a) (a_desired a) (fn_update (a_actual a) st rs).

Definition aapply (t : atarget) (a : astate) : averdict * astate :=
  if decide (a_desired a (t_stage t) = t_state t) then (Accepted, a)
  else if t_gate t a then (Accepted, aset_desired (t_stage t) (t_state t) a)
  else (GateRejected, a).

Definition astep (R : arouter) (a : astate) (e : aevent) : averdict * astate :=
  match e with
  | EvPath p s =>
      let a1 := aset_path p s a in
      match on_path R p s with Some t => aapply t a1 | None => (Accepted, a1) end
  | EvControl c x =>
      match on_control R c x with Some t => aapply t a | None => (NotRouted, a) end
  | EvStage st rs => (Accepted, aset_actual st rs a)
  end.

(** A stage's desired or actual state differs. *)
Definition stages_changed (a a' : astate) : bool :=
  negb (forallb (fun st => bool_decide (a_desired a st = a_desired a' st) &&
                           bool_decide (a_actual a st = a_actual a' st))
          [MediaMtx; Normalize; ScaleAndEgress; SingleStageEgress]).

(** ** Representation *)

Definition path_code (p : path_name) : Z :=
  match p with Ingress0 => STRIM_PATH_INGRESS0 | Normalized => STRIM_PATH_NORMALIZED end.
Definition status_code (s : path_status) : Z :=
  match s with
  | Unknown => STRIM_PATH_UNKNOWN | Ready => STRIM_PATH_READY
  | NotReady => STRIM_PATH_NOT_READY
  end.
Definition stage_code (s : stage_name) : Z :=
  match s with
  | MediaMtx => STRIM_STAGE_MEDIA_MTX | Normalize => STRIM_STAGE_NORMALIZE
  | ScaleAndEgress => STRIM_STAGE_SCALE_AND_EGRESS
  | SingleStageEgress => STRIM_STAGE_SINGLE_STAGE_EGRESS
  end.
Definition run_code (s : run_state) : Z :=
  match s with Stopped => STRIM_STAGE_STOPPED | Running => STRIM_STAGE_RUNNING end.
Definition component_code (c : component) : Z :=
  match c with Egress => STRIM_COMPONENT_EGRESS end.
Definition command_code (c : command) : Z :=
  match c with Start => STRIM_ACTION_START | Stop => STRIM_ACTION_STOP end.
Definition verdict_code (v : averdict) : Z :=
  match v with
  | Accepted => 0 | GateRejected => STRIM_CTRL_ERR_PREREQ | NotRouted => STRIM_CTRL_ERR_UNKNOWN
  end.

Definition action_of (e : aevent) : strim_action :=
  match e with
  | EvPath p s => ACTION_PATH_EVENT (PathEvent (path_code p) (status_code s))
  | EvControl c x => ACTION_CONTROL (ControlCommand (component_code c) (command_code x))
  | EvStage st rs => ACTION_STAGE_EVENT (StageEvent (stage_code st) (run_code rs))
  end.

(** The concrete paths and stages are those of the abstract state. *)
Record shows (c : strim_controller) (a : astate) : Prop := {
  sh_path : forall p, c_paths c !! Z.to_nat (path_code p) = Some (status_code (a_path a p));
  sh_stage : forall st, exists s, stage_at c (stage_code st) = Some s /\
    desired (s_status s) = run_code (a_desired a st) /\
    actual (s_status s) = run_code (a_actual a st);
}.

(** Rewrite away the trivially true equality tests. *)
Ltac decide_refl :=
  repeat match goal with
  | |- context [bool_decide (?x = ?x)] => rewrite (bool_decide_true (x = x)) by done
  end.

Section Refinement.
Variable call_prerequisite : ptr -> ptr -> strim_controller -> Z.

(** A concrete route implements an abstract target: same stage and state,
    and its prerequisite (none = always open) decides the target's gate. *)
Record implements (r : strim_route) (t : atarget) : Prop := {
  im_stage : r_target_stage r = stage_code (t_stage t);
  im_state : r_target_state r = run_code (t_state t);
  im_gate : forall c a, shows c a ->
    is_null (r_prerequisite r) ||
    (call_prerequisite (r_prerequisite r) (r_prerequisite_userdata r) c =? 0) = t_gate t a;
}.

Definition route_matches (r : option strim_route) (t : option atarget) : Prop :=
  match r, t with
  | None, None => True
  | Some r, Some t => implements r t
  | _, _ => False
  end.

Record routes_shown (proutes croutes : list strim_route) (R : arouter) : Prop := {
  rs_path : forall p s, route_matches
    (find_first (fun r => (r_path r =? path_code p) && (r_path_status r =? status_code s))
       proutes) (on_path R p s);
  rs_control : forall k x, route_matches
    (find_first (fun r => (r_component r =? component_code k) && (r_action r =? command_code x))
       croutes) (on_control R k x);
}.

Record refines (R : arouter) (c : strim_controller) (a : astate) : Prop := {
  rf_shows : shows c a;
  rf_routes : routes_shown (c_path_routes c) (c_control_routes c) R;
}.

Lemma stage_code_inj (a b : stage_name) : stage_code a = stage_code b -> a = b.
Proof using. by destruct a, b. Qed.

Lemma stage_code_pos (a : stage_name) : 0 <= stage_code a.
Proof using. by destruct a. Qed.

Lemma run_code_eqb (a b : run_state) : (run_code a =? run_code b) = bool_decide (a = b).
Proof using. by destruct a, b. Qed.

Lemma shows_update (c : strim_controller) (a a' : astate) (st : stage_name)
    (f : strim_stage -> strim_stage) :
  shows c a ->
  (forall p, a_path a' p = a_path a p) ->
  (forall st', st' <> st -> a_desired a' st' = a_desired a st' /\ a_actual a' st' = a_actual a st') ->
  (forall s, stage_at c (stage_code st) = Some s ->
     desired (s_status (f s)) = run_code (a_desired a' st) /\
     actual (s_status (f s)) = run_code (a_actual a' st)) ->
  shows (update_stage (stage_code st) f c) a'.
Proof using.
  intros [Hp Hs] Hpath Hother Hst. split.
  - intros p. rewrite Hpath. apply Hp.
  - intros st'. destruct (Hs st') as (s & Hat & Hd & Ha). destruct (decide (st' = st)) as [->|Hne].
    + exists (f s). rewrite stage_at_update_eq, Hat. split; [done|]. by apply Hst.
    + exists s. destruct (Hother st' Hne) as [-> ->].
      rewrite stage_at_update_ne; [done | apply stage_code_pos.. |].
      intros Heq. by apply Hne, stage_code_inj.
Qed.

Lemma shows_set_desired (c : strim_controller) (a : astate) (st : stage_name) (rs : run_state) :
  shows c a ->
  shows (update_stage (stage_code st) (set_desired (run_code rs)) c) (aset_desired st rs a).
Proof using.
  intros Hsh. apply (shows_update _ a); [done | done | |]; simpl; unfold fn_update.
  - intros st' Hne. by rewrite decide_False.
  - intros s Hs. rewrite decide_True by done. split; [done|].
    destruct (sh_stage _ _ Hsh st) as (s' & Hs' & _ & Ha). congruence.
Qed.

Lemma shows_set_actual (c : strim_controller) (a : astate) (st : stage_name) (rs : run_state) :
  shows c a ->
  shows (update_stage (stage_code st)
           (fun s => set_in_flight 0 (set_actual (run_code rs) s)) c) (aset_actual st rs a).
Proof using.
  intros Hsh. apply (shows_update _ a); [done | done | |]; simpl; unfold fn_update.
  - intros st' Hne. by rewrite decide_False.
  - intros s Hs. rewrite decide_True by done. split; [|done].
    destruct (sh_stage _ _ Hsh st) as (s' & Hs' & Hd & _). congruence.
Qed.

Lemma shows_set_path (c : strim_controller) (a : astate) (p : path_name) (s : path_status) :
  length (c_paths c) = 2%nat -> shows c a ->
  shows (with_paths (<[Z.to_nat (path_code p) := status_code s]> (c_paths c)) c)
        (aset_path p s a).
Proof using.
  intros Hlen [Hp Hs]. split; [|done]. intros p'. simpl. unfold fn_update.
  destruct (decide (p' = p)) as [->|Hne].
  - apply list_lookup_insert_eq. rewrite Hlen. by destruct p; compute; lia.
  - rewrite list_lookup_insert_ne; [apply Hp|]. by destruct p, p'.
Qed.

Lemma shows_lengths (c : strim_controller) (a : astate) : shows c a -> (2 <= length (c_paths c))%nat.
Proof using. intros [Hp _]. by pose proof (lookup_lt_Some _ _ _ (Hp Normalized)). Qed.

Lemma stages_changed_refl (a : astate) (ps : path_name -> path_status) :
  stages_changed a (AState ps (a_desired a) (a_actual a)) = false.
Proof using. unfold stages_changed. simpl. by decide_refl.
Qed.

Lemma stages_unchanged (a : astate) : stages_changed a a = false.
Proof using. unfold stages_changed. simpl. by decide_refl. Qed.

Lemma stages_changed_desired (a : astate) (ps : path_name -> path_status)
    (st : stage_name) (rs : run_state) :
  stages_changed a (AState ps (fn_update (a_desired a) st rs) (a_actual a)) =
  negb (bool_decide (a_desired a st = rs)).
Proof using.
  unfold stages_changed, fn_update. simpl. f_equal.
  destruct st; simpl; decide_refl; by rewrite ?andb_true_r.
Qed.

Lemma stages_changed_actual (a : astate) (st : stage_name) (rs : run_state) :
  stages_changed a (aset_actual st rs a) = negb (bool_decide (a_actual a st = rs)).
Proof using.
  unfold stages_changed, aset_actual, fn_update. simpl. f_equal.
  destruct st; simpl; decide_refl; by rewrite ?andb_true_r.
Qed.

(** Applying a routed target. *)
Lemma apply_refines (c : strim_controller) (a : astate) (r : strim_route) (t : atarget) :
  shows c a -> implements r t ->
  let '(v, a') := aapply t a in
  let '(rc, c', ef) := apply_desired_stage_target call_prerequisite c r in
  rc = verdict_code v /\ shows c' a' /\
  ef = (if stages_changed a a' then notify_listeners c' else []) /\
  c_path_routes c' = c_path_routes c /\ c_control_routes c' = c_control_routes c /\
  length (c_paths c') = length (c_paths c).
Proof using.
  intros Hsh [Hst Hrs Hg]. unfold aapply, apply_desired_stage_target.
  rewrite Hst, Hrs. destruct (sh_stage _ _ Hsh (t_stage t)) as (s & -> & -> & _).
  rewrite run_code_eqb. specialize (Hg c a Hsh).
  pose proof (stages_unchanged a) as Hrefl. destruct a as [ap ad aa]; simpl in *.
  destruct (decide (ad (t_stage t) = t_state t)) as [Heq|Hne].
  { rewrite bool_decide_true by done. simpl. by rewrite Hrefl. }
  rewrite bool_decide_false by done. rewrite <- Hg.
  pose proof (stages_changed_desired (AState ap ad aa) ap (t_stage t) (t_state t)) as Hch.
  simpl in Hch. rewrite bool_decide_false in Hch by done.
  pose proof (shows_set_desired _ _ (t_stage t) (t_state t) Hsh).
  unfold aset_desired in *. simpl in *.
  destruct (is_null _), (call_prerequisite _ _ _ =? 0); simpl; rewrite ?Hrefl, ?Hch; done.
Qed.

(** What one handled event owes the specification. *)
Definition step_refines (R : arouter) (a : astate) (e : aevent)
    (out : reply * strim_controller * list effect) : Prop :=
  let '(v, a') := astep R a e in
  let '(rp, c', ef) := out in
  rp_result rp = verdict_code v /\ refines R c' a' /\ length (c_paths c') = 2%nat /\
  ef = (if stages_changed a a' then notify_listeners c' else []).

Lemma run_action_refines (R : arouter) (c : strim_controller) (a : astate)
    (sd : bool) (o : Z -> fire_oracle) (e : aevent) :
  length (c_paths c) = 2%nat -> refines R c a ->
  step_refines R a e (run_action call_prerequisite sd o c (action_of e)).
Proof using.
  intros Hlen [Hsh Hro]. unfold step_refines. destruct e as [p s|k x|st rs]; cbn [action_of run_action].
  - unfold strim_controller_handle_path_event; cbn [pe_path pe_status].
    replace (STRIM_PATH_NAME_COUNT <=? u32 (path_code p)) with false by (by destruct p).
    replace (valid_path_status (status_code s)) with true by (by destruct s). cbn [negb].
    set (c1 := with_paths _ c). pose proof (shows_set_path c a p s Hlen Hsh) as Hsh1. fold c1 in Hsh1.
    assert (length (c_paths c1) = 2%nat) as Hlen1 by (simpl; by rewrite length_insert).
    pose proof (rs_path _ _ _ Hro p s) as Hm. unfold find_path_event_route.
    change (c_path_routes c1) with (c_path_routes c). simpl.
    destruct (find_first _ _) as [r|], (on_path R p s) as [t|]; try done.
    + pose proof (apply_refines c1 (aset_path p s a) r t Hsh1 Hm) as H.
      destruct (aapply t _) as [v a'], (apply_desired_stage_target _ c1 r) as [[rc c'] ef].
      destruct H as (-> & Hsh' & -> & Hp & Hc & Hl). split_and!; try done; [|by rewrite Hl].
      split; [done|]. by rewrite Hp, Hc.
    + split_and!; try done. unfold aset_path. by rewrite stages_changed_refl.
  - unfold strim_controller_handle_control; cbn [cmd_component cmd_action].
    replace (STRIM_COMPONENT_COUNT <=? u32 (component_code k)) with false by (by destruct k).
    replace (STRIM_ACTION_COUNT <=? u32 (command_code x)) with false by (by destruct x).
    pose proof (rs_control _ _ _ Hro k x) as Hm. unfold find_control_route. simpl.
    destruct (find_first _ _) as [r|], (on_control R k x) as [t|]; try done.
    + pose proof (apply_refines c a r t Hsh Hm) as H.
      destruct (aapply t _) as [v a'], (apply_desired_stage_target _ c r) as [[rc c'] ef].
      destruct H as (-> & Hsh' & -> & Hp & Hc & Hl). split_and!; try done; [|by rewrite Hl].
      split; [done|]. by rewrite Hp, Hc.
    + split_and!; try done. by rewrite stages_unchanged.
  - unfold strim_controller_handle_stage_event; cbn [se_stage se_state].
    replace (STRIM_STAGE_NAME_COUNT <=? u32 (stage_code st)) with false by (by destruct st).
    replace (valid_stage_state (run_code rs)) with true by (by destruct rs). cbn [negb].
    destruct (sh_stage _ _ Hsh st) as (s & Hs & _ & Ha). rewrite Hs, Ha, run_code_eqb. simpl.
    split_and!; try done; [split; [by apply shows_set_actual | done]|].
    by rewrite stages_changed_actual.
Qed.

(** Handling a list of events: the reply codes and notification rounds. *)
Fixpoint run_events (c : strim_controller) (es : list aevent)
  : list (Z * list effect) * strim_controller :=
  match es with
  | [] => ([], c)
  | e :: es' =>
      let '(rp, c1, ef) :=
        run_action call_prerequisite false (fun _ => FireOracle false 0 0 false 0) c (action_of e) in
      let '(out, c2) := run_events c1 es' in ((rp_result rp, ef) :: out, c2)
  end.

Fixpoint arun (R : arouter) (a : astate) (es : list aevent) : list averdict * astate :=
  match es with
  | [] => ([], a)
  | e :: es' =>
      let '(v, a1) := astep R a e in
      let '(vs, a2) := arun R a1 es' in (v :: vs, a2)
  end.

Lemma run_events_refines (R : arouter) (es : list aevent) (c : strim_controller) (a : astate) :
  length (c_paths c) = 2%nat -> refines R c a ->
  let '(out, c') := run_events c es in
  let '(vs, a') := arun R a es in
  map fst out = map verdict_code vs /\ refines R c' a'.
Proof using.
  revert c a. induction es as [|e es IH]; intros c a Hlen Href; simpl; [done|].
  pose proof (run_action_refines R c a false (fun _ => FireOracle false 0 0 false 0) e Hlen Href) as H.
  unfold step_refines in H. destruct (astep R a e) as [v a1].
  destruct (run_action _ _ _ c _) as [[rp c1] ef]. destruct H as (Hr & Href1 & Hlen1 & _).
  specialize (IH c1 a1 Hlen1 Href1). destruct (run_events c1 es) as [out c2].
  destruct (arun R a1 es) as [vs a2]. destruct IH as [Hm Hf]. split; [|done]. simpl. congruence.
Qed.
End Refinement.

(** ** All nine actions

    The events above with the queries, the listener table, the reconcile
    pass, the completion of an op and the teardown. *)

Record aworld := AWorld {
  w_state : astate;
  w_listeners : list (ptr * ptr);      (* in the order they were added *)
  w_stoppable : stage_name -> bool;    (* the stage has a stop op *)
}.

Inductive arequest :=
  | Handle (e : aevent)
  | Query
  | AddListener (fn userdata : ptr)
  | RemoveListener (fn userdata : ptr)
  | Reconcile
  | OpDone
  | TearDown.

Inductive aanswer := Verdict (v : averdict) | TableFull | NoSuchListener | UnknownName | BadArgument.

Definition answer_code (x : aanswer) : Z :=
  match x with
  | Verdict v => verdict_code v
  | TableFull => STRIM_CTRL_ERR_NOMEM
  | NoSuchListener | UnknownName => STRIM_CTRL_ERR_UNKNOWN
  | BadArgument => STRIM_CTRL_ERR_BADARG
  end.

(** The names the wire codes stand for. *)
Definition read_path (z : Z) : option path_name :=
  if z =? 0 then Some Ingress0 else if z =? 1 then Some Normalized else None.
Definition read_status (z : Z) : option path_status :=
  if z =? 0 then Some Unknown else if z =? 1 then Some Ready
  else if z =? 2 then Some NotReady else None.
Definition read_stage (z : Z) : option stage_name :=
  if z =? 0 then Some MediaMtx else if z =? 1 then Some Normalize
  else if z =? 2 then Some ScaleAndEgress else if z =? 3 then Some SingleStageEgress else None.
Definition read_run (z : Z) : option run_state :=
  if z =? 0 then Some Stopped else if z =? 1 then Some Running else None.
Definition read_component (z : Z) : option component := if z =? 0 then Some Egress else None.
Definition read_command (z : Z) : option command :=
  if z =? 0 then Some Start else if z =? 1 then Some Stop else None.

(** What an action asks for, or the answer to one that asks for nothing: a
    name that does not exist, or a value that is not one. *)
Definition asked_for (act : strim_action) : aanswer + arequest :=
  match act with
  | ACTION_PATH_EVENT e =>
      match read_path (pe_path e), read_status (pe_status e) with
      | None, _ => inl UnknownName
      | _, None => inl BadArgument
      | Some p, Some s => inr (Handle (EvPath p s))
      end
  | ACTION_CONTROL cmd =>
      match read_component (cmd_component cmd), read_command (cmd_action cmd) with
      | Some k, Some x => inr (Handle (EvControl k x))
      | _, _ => inl UnknownName
      end
  | ACTION_STAGE_EVENT e =>
      match read_stage (se_stage e), read_run (se_state e) with
      | None, _ => inl UnknownName
      | _, None => inl BadArgument
      | Some st, Some rs => inr (Handle (EvStage st rs))
      end
  | ACTION_STATUS out => if out then inr Query else inl BadArgument
  | ACTION_ADD_LISTENER l u => if is_null l then inl BadArgument else inr (AddListener l u)
  | ACTION_REMOVE_LISTENER l u => inr (RemoveListener l u)
  | ACTION_RECONCILE => inr Reconcile
  | ACTION_CLEAR_INFLIGHT _ _ => inr OpDone
  | ACTION_TEARDOWN => inr TearDown
  end.

Definition with_state (a : astate) (w : aworld) : aworld :=
  AWorld a (w_listeners w) (w_stoppable w).
Definition with_clients (ls : list (ptr * ptr)) (w : aworld) : aworld :=
  AWorld (w_state w) ls (w_stoppable w).

(** The first entry of the listener, taken out. *)
Fixpoint drop_listener (k : ptr * ptr) (ls : list (ptr * ptr)) : option (list (ptr * ptr)) :=
  match ls with
  | [] => None
  | l :: ls' => if decide (l = k) then Some ls' else (l ::.) <$> drop_listener k ls'
  end.

(** Every running stage that can be stopped is stopped and stays so. *)
Definition atear_down (w : aworld) : astate :=
  let a := w_state w in
  let down st := bool_decide (a_actual a st = Running) && w_stoppable w st in
  AState (a_path a) (fun st => if down st then Stopped else a_desired a st)
    (fun st => if down st then Stopped else a_actual a st).

(** One request served: the answer, the status it hands out, the world
    afterwards and the listeners told of it. *)
Record aserved := AServed {
  sv_answer : aanswer;
  sv_status : option astate;
  sv_world : aworld;
  sv_told : list (ptr * ptr);
}.

Definition aserve (R : arouter) (w : aworld) (req : arequest) : aserved :=
  match req with
  | Handle e =>
      let '(v, a') := astep R (w_state w) e in
      AServed (Verdict v) None (with_state a' w)
        (if stages_changed (w_state w) a' then w_listeners w else [])
  | Query => AServed (Verdict Accepted) (Some (w_state w)) w []
  | AddListener l u =>
      if decide (16 <= length (w_listeners w))%nat then AServed TableFull None w []
      else AServed (Verdict Accepted) None (with_clients (w_listeners w ++ [(l, u)]) w) [(l, u)]
  | RemoveListener l u =>
      match drop_listener (l, u) (w_listeners w) with
      | None => AServed NoSuchListener None w []
      | Some ls => AServed (Verdict Accepted) None (with_clients ls w) []
      end
  | Reconcile | OpDone => AServed (Verdict Accepted) None w []
  | TearDown => AServed (Verdict Accepted) None (with_state (atear_down w) w) (w_listeners w)
  end.

Definition serve_action (R : arouter) (w : aworld) (act : strim_action) : aserved :=
  match asked_for act with
  | inl x => AServed x None w []
  | inr req => aserve R w req
  end.

(** The status record of an abstract state. *)
Definition status_of (a : astate) : strim_controller_status :=
  ControllerStatus (map (fun p => status_code (a_path a p)) [Ingress0; Normalized])
    (map (fun st => StageStatus (run_code (a_desired a st)) (run_code (a_actual a st)))
       [MediaMtx; Normalize; ScaleAndEgress; SingleStageEgress]).

(** Paths changed and no stage did. *)
Definition only_paths_changed (a a' : astate) : bool :=
  negb (stages_changed a a') &&
  negb (forallb (fun p => bool_decide (a_path a p = a_path a' p)) [Ingress0; Normalized]).

(** The calls of listeners among the effects of an action. *)
Definition notices (ef : list effect) : list effect :=
  List.filter (fun e => match e with Notify _ _ _ => true | _ => false end) ef.

Definition tell (a : astate) (ls : list (ptr * ptr)) : list effect :=
  map (fun l => Notify l.1 l.2 (status_of a)) ls.

Section Served.
Variable call_prerequisite : ptr -> ptr -> strim_controller -> Z.
Abbreviation refines := (refines call_prerequisite).

Record represents (R : arouter) (c : strim_controller) (w : aworld) : Prop := {
  re_refines : refines R c (w_state w);
  re_listeners : map (fun l => (l_fn l, l_userdata l)) (c_listeners c) = w_listeners w;
  re_stop : forall st s, stage_at c (stage_code st) = Some s ->
    is_null (s_stop_op s) = negb (w_stoppable w st);
}.

Lemma snapshot_shown (c : strim_controller) (a : astate) :
  length (c_paths c) = 2%nat -> length (c_stages c) = 4%nat -> shows c a ->
  snapshot c = status_of a.
Proof using.
  intros Hp Hs [Hsp Hss]. unfold snapshot, status_of. f_equal.
  - apply (list_eq_same_length _ _ 2); [done..|]. intros i x y Hi Hx Hy.
    destruct i as [|[|]]; [pose proof (Hsp Ingress0) as E | pose proof (Hsp Normalized) as E | lia];
      [change (Z.to_nat (path_code Ingress0)) with 0%nat in E
      |change (Z.to_nat (path_code Normalized)) with 1%nat in E]; simpl in *; congruence.
  - apply (list_eq_same_length _ _ 4); [done | by rewrite length_map |]. intros i x y Hi Hx Hy.
    apply list_lookup_fmap_Some in Hx as (s & -> & Es).
    destruct i as [|[|[|[|]]]]; [destruct (Hss MediaMtx) as (s' & E & Ed & Ea)
      | destruct (Hss Normalize) as (s' & E & Ed & Ea)
      | destruct (Hss ScaleAndEgress) as (s' & E & Ed & Ea)
      | destruct (Hss SingleStageEgress) as (s' & E & Ed & Ea) | lia];
      unfold stage_at in E;
      [change (Z.to_nat (stage_code MediaMtx)) with 0%nat in E
      |change (Z.to_nat (stage_code Normalize)) with 1%nat in E
      |change (Z.to_nat (stage_code ScaleAndEgress)) with 2%nat in E
      |change (Z.to_nat (stage_code SingleStageEgress)) with 3%nat in E];
      simpl in *; simplify_eq; destruct (s_status s); simpl in *; congruence.
Qed.

Lemma notify_tells (c : strim_controller) (a : astate) :
  snapshot c = status_of a ->
  notify_listeners c = tell a (map (fun l => (l_fn l, l_userdata l)) (c_listeners c)).
Proof using.
  intros Hs. unfold notify_listeners, tell. rewrite map_map, Hs. by destruct (c_listeners c).
Qed.

Lemma notices_tell (a : astate) (ls : list (ptr * ptr)) : notices (tell a ls) = tell a ls.
Proof using. unfold notices, tell. by induction ls; simpl; [|f_equal]. Qed.

(** What the status of a controller and its fixed parts depend on. *)
Definition same_view (c c' : strim_controller) : Prop :=
  c_paths c' = c_paths c /\ c_listeners c' = c_listeners c /\
  c_path_routes c' = c_path_routes c /\ c_control_routes c' = c_control_routes c /\
  map (fun s => (s_status s, s_stop_op s)) (c_stages c') =
  map (fun s => (s_status s, s_stop_op s)) (c_stages c).

Lemma same_view_trans (c1 c2 c3 : strim_controller) :
  same_view c1 c2 -> same_view c2 c3 -> same_view c1 c3.
Proof using. unfold same_view. intuition congruence. Qed.

Lemma same_view_update (i : Z) (f : strim_stage -> strim_stage) (c : strim_controller) :
  (forall s, s_status (f s) = s_status s /\ s_stop_op (f s) = s_stop_op s) ->
  same_view c (update_stage i f c).
Proof using.
  intros Hf. unfold same_view. split_and!; try done. simpl. apply list_eq. intros k.
  etransitivity; [apply list_lookup_fmap|]. symmetry. etransitivity; [apply list_lookup_fmap|].
  destruct (decide (k = Z.to_nat i)) as [->|Hne].
  - rewrite list_lookup_alter_eq. destruct (c_stages c !! _); [|done]. simpl.
    by destruct (Hf s) as [-> ->].
  - by rewrite list_lookup_alter_ne.
Qed.

Lemma same_view_stage (c c' : strim_controller) (i : Z) :
  same_view c c' ->
  (fun s => (s_status s, s_stop_op s)) <$> stage_at c' i =
  (fun s => (s_status s, s_stop_op s)) <$> stage_at c i.
Proof using.
  intros (_ & _ & _ & _ & H). unfold stage_at.
  rewrite <- !list_lookup_fmap. by f_equal.
Qed.

Lemma represents_view (R : arouter) (c c' : strim_controller) (w : aworld) :
  same_view c c' -> represents R c w -> represents R c' w.
Proof using.
  intros Hv [[[Hp Hs] Hro] Hl Hst]. pose proof (fun i => same_view_stage c c' i Hv) as Hat.
  destruct Hv as (E1 & E2 & E3 & E4 & _). split; [split; [split|]| |].
  - intros p. rewrite E1. apply Hp.
  - intros st. destruct (Hs st) as (s & Es & Hd & Ha). specialize (Hat (stage_code st)).
    rewrite Es in Hat. destruct (stage_at c' _) as [s'|]; simplify_eq/=.
    exists s'. split; [done|]. split; congruence.
  - by rewrite E3, E4.
  - by rewrite E2.
  - intros st s' Es'. specialize (Hat (stage_code st)). rewrite Es' in Hat.
    destruct (stage_at c _) as [s|] eqn:Es; simplify_eq/=. replace (s_stop_op s') with (s_stop_op s) by congruence.
    by apply Hst.
Qed.

Lemma reconcile_stage_view (o : fire_oracle) (i : Z) (c : strim_controller) :
  same_view c (reconcile_stage o i c).1 /\ notices (reconcile_stage o i c).2 = [].
Proof using.
  unfold reconcile_stage. destruct (stage_at c i) as [s|]; [|done].
  case_ifs; simpl; split; try done; try (by apply same_view_update);
    eapply same_view_trans; by apply same_view_update.
Qed.

Lemma notices_app (a b : list effect) : notices (a ++ b) = notices a ++ notices b.
Proof using. apply List.filter_app. Qed.

Lemma reconcile_view (o : Z -> fire_oracle) (idx : list Z) (c : strim_controller) :
  same_view c (reconcile_from o idx c).1 /\ notices (reconcile_from o idx c).2 = [].
Proof using.
  revert c. induction idx as [|i idx IH]; intros c; [done|]. simpl.
  destruct (reconcile_stage_view (o i) i c) as [H1 H2].
  destruct (reconcile_stage (o i) i c) as [c1 e1]. destruct (IH c1) as [H3 H4].
  destruct (reconcile_from o idx c1) as [c2 e2]. simpl in *.
  split; [by eapply same_view_trans|]. by rewrite notices_app, H2, H4.
Qed.

Lemma read_handle (act : strim_action) (e : aevent) :
  asked_for act = inr (Handle e) -> act = action_of e.
Proof using.
  destruct act as [[p s]|[k x]|[st rs]| | | | | |]; simpl;
    unfold read_path, read_status, read_component, read_command, read_stage, read_run;
    intros H; repeat case_match; simplify_eq; bool_props; by subst.
Qed.

(** A name or a value that does not exist is refused and nothing happens. *)
Lemma refused_action (sd : bool) (o : Z -> fire_oracle) (c : strim_controller)
    (act : strim_action) (x : aanswer) :
  action_typed act -> asked_for act = inl x ->
  run_action call_prerequisite sd o c act = (Reply (answer_code x) None, c, []).
Proof using.
  intros Ht. destruct act as [[p s]|[k y]|[st rs]|out|l u| | | |];
    cbn [action_typed asked_for pe_path pe_status cmd_component cmd_action se_stage se_state] in *;
    cbn [run_action]; intros H; try done.
  - destruct Ht as [Hp Hs]. unfold strim_controller_handle_path_event. cbn [pe_path pe_status].
    rewrite Z.leb_antisym, u32_lt_iff by (done || by_decide).
    unfold valid_path_status. rewrite u32_lt_iff by (done || by_decide).
    unfold STRIM_PATH_NAME_COUNT, STRIM_PATH_STATUS_COUNT, read_path, read_status in *.
    repeat case_match; simplify_eq; bool_props; subst; try done; try lia.
  - destruct Ht as [Hk Hy]. unfold strim_controller_handle_control. cbn [cmd_component cmd_action].
    rewrite !Z.leb_antisym, !u32_lt_iff by (done || by_decide).
    unfold STRIM_COMPONENT_COUNT, STRIM_ACTION_COUNT, read_component, read_command in *.
    repeat case_match; simplify_eq; bool_props; subst; try done; try lia.
  - destruct Ht as [Hst Hrs]. unfold strim_controller_handle_stage_event. cbn [se_stage se_state].
    rewrite Z.leb_antisym, u32_lt_iff by (done || by_decide).
    unfold valid_stage_state. rewrite (leb_ltb_succ (u32 rs)), u32_lt_iff by (done || by_decide).
    unfold STRIM_STAGE_NAME_COUNT, STRIM_STAGE_RUNNING, read_stage, read_run in *.
    repeat case_match; simplify_eq; bool_props; subst; try done; try lia.
  - by destruct out; simplify_eq.
  - unfold handle_add_listener. destruct (is_null l); by simplify_eq.
Qed.

(** What no action changes, and what only the listener actions change. *)
Definition same_frame (c c' : strim_controller) : Prop :=
  c_listeners c' = c_listeners c /\
  c_path_routes c' = c_path_routes c /\ c_control_routes c' = c_control_routes c /\
  forall i, s_stop_op <$> stage_at c' i = s_stop_op <$> stage_at c i.

Lemma same_frame_trans (c1 c2 c3 : strim_controller) :
  same_frame c1 c2 -> same_frame c2 c3 -> same_frame c1 c3.
Proof using.
  intros (A1 & A2 & A3 & A4) (B1 & B2 & B3 & B4). unfold same_frame.
  split_and!; [congruence..|]. intros i. by rewrite B4.
Qed.

Lemma same_frame_update (i : Z) (f : strim_stage -> strim_stage) (c : strim_controller) :
  (forall s, s_stop_op (f s) = s_stop_op s) -> same_frame c (update_stage i f c).
Proof using.
  intros Hf. unfold same_frame. split_and!; try done. intros j. unfold stage_at. simpl.
  destruct (decide (Z.to_nat i = Z.to_nat j)) as [<-|Hne].
  - rewrite list_lookup_alter_eq. destruct (c_stages c !! _); [|done]. simpl. by rewrite Hf.
  - by rewrite list_lookup_alter_ne.
Qed.

Lemma apply_frame (c : strim_controller) (r : strim_route) :
  same_frame c (apply_desired_stage_target call_prerequisite c r).1.2.
Proof using.
  unfold apply_desired_stage_target. destruct (stage_at c _); [|done].
  case_ifs; simpl; try done. by apply same_frame_update.
Qed.

Lemma event_frame (sd : bool) (o : Z -> fire_oracle) (c : strim_controller) (e : aevent) :
  same_frame c (run_action call_prerequisite sd o c (action_of e)).1.2.
Proof using.
  destruct e as [p s|k x|st rs]; cbn [action_of run_action].
  - unfold strim_controller_handle_path_event. case_ifs; [done..|]. cbn [pe_path pe_status].
    set (c1 := with_paths _ c). destruct (find_path_event_route c1 _ _) as [r|]; [|done].
    pose proof (apply_frame c1 r). by destruct (apply_desired_stage_target _ _ _) as [[? ?] ?].
  - unfold strim_controller_handle_control. case_ifs; [done..|].
    destruct (find_control_route c _ _) as [r|]; [|done].
    pose proof (apply_frame c r). by destruct (apply_desired_stage_target _ _ _) as [[? ?] ?].
  - unfold strim_controller_handle_stage_event. case_ifs; [done..|].
    destruct (stage_at c _); [|done]. by apply same_frame_update.
Qed.

Lemma teardown_frame (idx : list Z) (c : strim_controller) :
  same_frame c (teardown_from idx c).1 /\ c_paths (teardown_from idx c).1 = c_paths c /\
  notices (teardown_from idx c).2 = [].
Proof using.
  revert c. induction idx as [|i idx IH]; intros c; [done|]. simpl.
  assert (same_frame c (teardown_stage i c).1 /\ c_paths (teardown_stage i c).1 = c_paths c /\
          notices (teardown_stage i c).2 = []) as (F1 & P1 & N1).
  { unfold teardown_stage. destruct (stage_at c i); [|done]. case_ifs; [done|].
    split_and!; try done. by apply same_frame_update. }
  destruct (teardown_stage i c) as [c1 e1]. destruct (IH c1) as (F2 & P2 & N2).
  destruct (teardown_from idx c1) as [c2 e2]. simpl in *.
  split_and!; [by eapply same_frame_trans | congruence | by rewrite notices_app, N1, N2].
Qed.

Lemma represents_frame (R : arouter) (c c' : strim_controller) (w : aworld) (a : astate) :
  same_frame c c' -> represents R c w -> shows c' a -> represents R c' (with_state a w).
Proof using.
  intros (E1 & E2 & E3 & E4) [[_ Hro] Hl Hst] Hsh. split; [split|..]; simpl.
  - done.
  - by rewrite E2, E3.
  - by rewrite E1.
  - intros st s Hs. specialize (E4 (stage_code st)). rewrite Hs in E4.
    destruct (stage_at c _) as [s0|] eqn:Es; simplify_eq/=.
    replace (s_stop_op s) with (s_stop_op s0) by congruence. by apply Hst.
Qed.

Lemma teardown_shows (R : arouter) (c : strim_controller) (w : aworld) :
  represents R c w -> shows (teardown_from stage_indices c).1 (atear_down w).
Proof using.
  intros [[[Hp Hs] _] _ Hst]. destruct (teardown_frame stage_indices c) as (_ & HP & _).
  destruct (teardown_from_pointwise stage_indices c stage_indices_nodup stage_indices_pos)
    as (_ & Hin). split.
  - intros p. rewrite HP. apply Hp.
  - intros st. destruct (Hs st) as (s & Es & Hd & Ha). specialize (Hst st s Es).
    exists (stopped_stage s). rewrite Hin, Es; [|apply stage_indices_range; by destruct st].
    split; [done|]. simpl. unfold stopped_stage, torn_down. rewrite Ha, Hst, negb_involutive.
    change STRIM_STAGE_RUNNING with (run_code Running). rewrite run_code_eqb.
    by destruct (bool_decide _ && _).
Qed.

Lemma listener_dropped (l u : ptr) (ls : list strim_listener_entry) :
  (fun ls' => map (fun x => (l_fn x, l_userdata x)) ls') <$> remove_first_listener l u ls =
  drop_listener (l, u) (map (fun x => (l_fn x, l_userdata x)) ls).
Proof using.
  induction ls as [|[f d] ls IH]; [done|]. simpl. rewrite <- IH.
  destruct (f =? l) eqn:E1, (d =? u) eqn:E2; bool_props; subst; simpl.
  - by rewrite decide_True.
  - rewrite decide_False by congruence. by destruct (remove_first_listener l u ls).
  - rewrite decide_False by congruence. by destruct (remove_first_listener l u ls).
  - rewrite decide_False by congruence. by destruct (remove_first_listener l u ls).
Qed.

(** What a served action owes the specification. *)
Definition serves (R : arouter) (w : aworld) (act : strim_action)
    (out : reply * strim_controller * list effect) : Prop :=
  let '(rp, c', ef) := out in
  let sv := serve_action R w act in
  rp = Reply (answer_code (sv_answer sv)) (status_of <$> sv_status sv) /\
  represents R c' (sv_world sv) /\
  (only_paths_changed (w_state w) (w_state (sv_world sv)) = false ->
   notices ef = tell (w_state (sv_world sv)) (sv_told sv)) /\
  (act <> ACTION_RECONCILE -> act <> ACTION_TEARDOWN -> notices ef = ef).

Lemma event_served (R : arouter) (c : strim_controller) (w : aworld) (sd : bool)
    (o : Z -> fire_oracle) (e : aevent) :
  wf_controller c -> wf_controller (run_action call_prerequisite sd o c (action_of e)).1.2 ->
  represents R c w -> asked_for (action_of e) = inr (Handle e) ->
  serves R w (action_of e) (run_action call_prerequisite sd o c (action_of e)).
Proof using.
  intros Hwf Hwf' Hre Hrd.
  pose proof (run_action_refines call_prerequisite R c (w_state w) sd o e (wf_n_paths c Hwf)
                (re_refines _ _ _ Hre)) as H.
  pose proof (event_frame sd o c e) as Hf.
  assert (rp_status (run_action call_prerequisite sd o c (action_of e)).1.1 = None) as Hn.
  { destruct e; cbn [action_of run_action]; by repeat case_match. }
  unfold step_refines in H. unfold serves, serve_action. rewrite Hrd. simpl.
  destruct (astep R (w_state w) e) as [v a'], (run_action _ _ _ c _) as [[rp c'] ef]. simpl in *.
  destruct H as (Hr & [Hsh' _] & _ & ->). destruct rp as [r st]. simpl in *. subst.
  assert (notify_listeners c' = tell a' (w_listeners w)) as Ht.
  { rewrite (notify_tells c' a'); [|apply snapshot_shown; [apply Hwf'..|done]].
    destruct Hf as (-> & _). by rewrite (re_listeners _ _ _ Hre). }
  split_and!; [done | by eapply represents_frame | intros _ | intros _ _];
    destruct (stages_changed _ _); rewrite ?Ht; by rewrite ?notices_tell.
Qed.

Lemma add_served (R : arouter) (c : strim_controller) (w : aworld) (l u : ptr) :
  wf_controller c -> represents R c w -> is_null l = false ->
  serves R w (ACTION_ADD_LISTENER l u)
    (let '(r, c', ef) := handle_add_listener c l u in (Reply r None, c', ef)).
Proof using.
  intros Hwf Hre Hl. unfold handle_add_listener, serves, serve_action. simpl. rewrite Hl. simpl.
  pose proof Hre as [[Hsh Hro] Hls Hst].
  assert (length (w_listeners w) = length (c_listeners c)) as Hlen by (by rewrite <- Hls, length_map).
  rewrite Hlen. destruct (STRIM_CTRL_MAX_LISTENERS <=? Z.of_nat (length (c_listeners c))) eqn:E;
    bool_props; unfold STRIM_CTRL_MAX_LISTENERS in *.
  - rewrite decide_True by lia. done.
  - rewrite decide_False by lia. simpl. split_and!; [done | | intros _ | done].
    + split; [split; [by destruct Hsh | done] | simpl; by rewrite map_app, Hls | done].
    + unfold tell. simpl. do 2 f_equal. apply snapshot_shown; [apply Hwf..|].
      by destruct Hsh.
Qed.

Lemma remove_served (R : arouter) (c : strim_controller) (w : aworld) (l u : ptr) :
  represents R c w ->
  serves R w (ACTION_REMOVE_LISTENER l u)
    (let '(r, c', ef) := handle_remove_listener c l u in (Reply r None, c', ef)).
Proof using.
  intros Hre. pose proof Hre as [[Hsh Hro] Hls Hst]. unfold handle_remove_listener, serves, serve_action. simpl.
  rewrite <- Hls, <- listener_dropped.
  destruct (remove_first_listener l u (c_listeners c)) as [ls|]; simpl; split_and!; try done.
  split; [split; [by destruct Hsh | done] | done | done].
Qed.

Lemma teardown_served (R : arouter) (c : strim_controller) (w : aworld) :
  wf_controller c -> represents R c w ->
  serves R w ACTION_TEARDOWN (let '(c', ef) := teardown_inner c in (Reply 0 None, c', ef)).
Proof using.
  intros Hwf Hre. pose proof (teardown_shows R c w Hre) as Hsh.
  destruct (teardown_frame stage_indices c) as (Hf & _ & Hn).
  pose proof (teardown_from_wf stage_indices c Hwf) as Hwf'.
  unfold teardown_inner. destruct (teardown_from stage_indices c) as [c' ef]. simpl in *.
  unfold serves. simpl. split_and!; [done | by eapply represents_frame | intros _ | done].
  rewrite notices_app, Hn, (notify_tells c' (atear_down w)); [|apply snapshot_shown; [apply Hwf'..|done]].
  destruct Hf as (-> & _). by rewrite (re_listeners _ _ _ Hre), notices_tell.
Qed.

Lemma run_action_serves (R : arouter) (c : strim_controller) (w : aworld) (sd : bool)
    (o : Z -> fire_oracle) (act : strim_action) :
  wf_controller c -> action_typed act -> represents R c w ->
  serves R w act (run_action call_prerequisite sd o c act).
Proof using.
  intros Hwf Ht Hre. pose proof (run_action_preserves call_prerequisite sd o c act Hwf Ht) as Hwf'.
  destruct (asked_for act) as [x|req] eqn:Hrd.
  { rewrite (refused_action sd o c act x) by done. unfold serves, serve_action. by rewrite Hrd. }
  destruct req as [e| |l u|l u| | |].
  { pose proof (read_handle _ _ Hrd) as ->. by apply event_served. }
  all: destruct act as [[p s]|[k y]|[st rs]|out|l' u'|l' u'| |i g|]; simpl in Hrd;
    repeat case_match; simplify_eq; cbn [run_action].
  - unfold serves. simpl. split_and!; try done. f_equal. f_equal.
    apply snapshot_shown; [apply Hwf..|]. apply Hre.
  - by apply add_served.
  - by apply remove_served.
  - unfold strim_controller_handle_reconcile. destruct sd; [done|].
    destruct (reconcile_view o stage_indices c) as [Hv Hn].
    destruct (reconcile_from o stage_indices c) as [c' ef]. unfold serves. simpl in *.
    split_and!; try done. by eapply represents_view.
  - unfold serves. simpl. split_and!; try done. eapply represents_view; [|done].
    unfold clear_inflight. destruct (stage_at c i); [|done]. case_ifs; [|done].
    by apply same_view_update.
  - by apply teardown_served.
Qed.
End Served.

(** A path event that changes no stage's state calls no listener, although
    the status changed (controller.h has listeners called whenever it does). *)
Lemma path_change_notifies_nobody (call_prerequisite : ptr -> ptr -> strim_controller -> Z)
    (R : arouter) (c : strim_controller) (a : astate) (sd : bool) (o : Z -> fire_oracle)
    (p : path_name) (s : path_status) :
  wf_controller c -> refines call_prerequisite R c a ->
  stages_changed a (astep R a (EvPath p s)).2 = false ->
  (run_action call_prerequisite sd o c (action_of (EvPath p s))).2 = [].
Proof.
  intros Hwf Href Hch.
  pose proof (run_action_refines call_prerequisite R c a sd o (EvPath p s) (wf_n_paths c Hwf) Href) as H.
  unfold step_refines in H. destruct (astep R a _) as [v a'].
  destruct (run_action _ _ _ c _) as [[rp c'] ef]. simpl in Hch. rewrite Hch in H. apply H.
Qed.

(** C1: refinement.  A well-formed controller that represents an abstract
    state serves every one of the nine actions, with whatever codes it
    carries and whatever the clock, the allocator and the worker pool answer
    to a reconcile, as the specification does.  The reply carries the
    abstract answer's code (unknown names and invalid values are refused and
    change nothing) and, for a query, the abstract status; paths, stages,
    listener table and routing table are the abstract successor's; when a
    stage's desired or actual state changed each listener is called once, in
    order, with the new status, a listener just added is called with it, a
    teardown calls each, and nobody is called when nothing changed (a change
    of paths alone is left open); only reconcile and teardown do anything
    besides. *)
Theorem controller_refines_spec
    (call_prerequisite : ptr -> ptr -> strim_controller -> Z) (R : arouter)
    (c : strim_controller) (w : aworld) (sd : bool) (o : Z -> fire_oracle)
    (act : strim_action) :
  wf_controller c -> action_typed act -> represents call_prerequisite R c w ->
  let '(rp, c', ef) := run_action call_prerequisite sd o c act in
  let sv := serve_action R w act in
  rp = Reply (answer_code (sv_answer sv)) (status_of <$> sv_status sv) /\
  represents call_prerequisite R c' (sv_world sv) /\
  (only_paths_changed (w_state w) (w_state (sv_world sv)) = false ->
   notices ef = tell (w_state (sv_world sv)) (sv_told sv)) /\
  (act <> ACTION_RECONCILE -> act <> ACTION_TEARDOWN -> notices ef = ef).
Proof. apply run_action_serves. Qed.
