(* ===== verification/Wiring.v ===== *)
(** * The routing table and controller configuration of main.c

    The routes, seeded paths and stages that [run()] hands to
    [strim_controller_new], for the two-stage and the single-stage pipeline,
    the [ingress0]-ready prerequisite, and the mapping of containerd task
    events to stage events.  Struct members the source leaves unset on its
    stack ([component] and [action] of a path route, [path] and [path_status]
    of a control route, the userdata of a route without prerequisite) are an
    arbitrary [junk] value. *)

From S2P Require Import Prelude Wire Controller ControllerFacts CtlSpec.

(** Addresses of the functions and op contexts. *)
Definition stage_start_op_addr : ptr := 101.
Definition stage_stop_op_addr : ptr := 102.
Definition prereq_ingress0_ready_addr : ptr := 103.
Definition mediamtx_ops_addr : ptr := 201.
Definition normalize_ops_addr : ptr := 202.
Definition egress_ops_addr : ptr := 203.
Definition single_ops_addr : ptr := 204.

(** createPathReadyPrerequisite(PathIngress0) *)
Definition prereq_ingress0_ready (c : option strim_controller) : Z :=
  match strim_controller_handle_status c true with
  | inl _ => -1
  | inr st =>
      match st_paths st !! Z.to_nat STRIM_PATH_INGRESS0 with
      | Some v => if v =? STRIM_PATH_READY then 0 else -1
      | None => -1
      end
  end.

(** Calling the function at a prerequisite address. *)
Definition call_main_prerequisite (fn userdata : ptr) (c : strim_controller) : Z :=
  if fn =? prereq_ingress0_ready_addr then prereq_ingress0_ready (Some c) else -1.

Section Config.
(** The uninitialised stack contents and the loaded configuration values. *)
Context (junk : Z) (enable_single_stage_pipeline : bool).
Context (inflight_timeout_ms actions_buffer_size : Z).

Definition main_path_routes : list strim_route :=
  if negb enable_single_stage_pipeline then
    [ Route STRIM_PATH_INGRESS0 STRIM_PATH_READY junk junk STRIM_ROUTE_PATH_EVENT
        STRIM_STAGE_NORMALIZE STRIM_STAGE_RUNNING NULL junk;
      Route STRIM_PATH_INGRESS0 STRIM_PATH_NOT_READY junk junk STRIM_ROUTE_PATH_EVENT
        STRIM_STAGE_NORMALIZE STRIM_STAGE_STOPPED NULL junk ]
  else [].

Definition egress_stage : Z :=
  if enable_single_stage_pipeline then STRIM_STAGE_SINGLE_STAGE_EGRESS
  else STRIM_STAGE_SCALE_AND_EGRESS.

Definition main_control_routes : list strim_route :=
  [ Route junk junk STRIM_COMPONENT_EGRESS STRIM_ACTION_START STRIM_ROUTE_CONTROL
      egress_stage STRIM_STAGE_RUNNING prereq_ingress0_ready_addr NULL;
    Route junk junk STRIM_COMPONENT_EGRESS STRIM_ACTION_STOP STRIM_ROUTE_CONTROL
      egress_stage STRIM_STAGE_STOPPED NULL junk ].

Definition main_stage (name desired op_ctx : Z) : strim_stage_config :=
  StageConfig name (StageStatus desired STRIM_STAGE_STOPPED)
    stage_start_op_addr stage_stop_op_addr op_ctx.

Definition main_stages : list strim_stage_config :=
  [ main_stage STRIM_STAGE_MEDIA_MTX STRIM_STAGE_RUNNING mediamtx_ops_addr;
    main_stage STRIM_STAGE_NORMALIZE STRIM_STAGE_STOPPED normalize_ops_addr;
    main_stage STRIM_STAGE_SCALE_AND_EGRESS STRIM_STAGE_STOPPED egress_ops_addr;
    main_stage STRIM_STAGE_SINGLE_STAGE_EGRESS STRIM_STAGE_STOPPED single_ops_addr ].

Definition main_controller_config : strim_controller_config :=
  ControllerConfig [STRIM_PATH_UNKNOWN; STRIM_PATH_UNKNOWN] main_stages
    (Some main_path_routes) (length main_path_routes)
    (Some main_control_routes) (length main_control_routes)
    NULL inflight_timeout_ms actions_buffer_size.

(** The controller [run()] starts with. *)
Definition main_controller : strim_controller :=
  Controller [STRIM_PATH_UNKNOWN; STRIM_PATH_UNKNOWN] (map stage_of_config main_stages)
    main_path_routes main_control_routes [] default_now_ms
    inflight_timeout_ms actions_buffer_size.

(** The routing table of the pipeline, abstractly: the normalize stage
    follows the ingress0 path, the egress stage is started and stopped by
    command, the start being gated on ingress0 ready. *)
Definition main_router : arouter :=
  let egress := if enable_single_stage_pipeline then SingleStageEgress else ScaleAndEgress in
  ARouter
    (fun p s =>
       match enable_single_stage_pipeline, p, s with
       | false, Ingress0, Ready => Some (ATarget Normalize Running (fun _ => true))
       | false, Ingress0, NotReady => Some (ATarget Normalize Stopped (fun _ => true))
       | _, _, _ => None
       end)
    (fun _ x =>
       match x with
       | Start => Some (ATarget egress Running (fun a => bool_decide (a_path a Ingress0 = Ready)))
       | Stop => Some (ATarget egress Stopped (fun _ => true))
       end).

Definition main_astate : astate :=
  AState (fun _ => Unknown)
    (fun st => match st with MediaMtx => Running | _ => Stopped end) (fun _ => Stopped).
End Config.

(** ** containerd task events (containerd_listener_thread_fn) *)

Inductive strim_event_kind := STRIM_EVENT_TASK_START | STRIM_EVENT_TASK_EXIT | STRIM_EVENT_OTHER.

(** One entry of the container-id to stage table. *)
Record strim_stage_table_entry := StageTableEntry { te_container_id : cstring; te_stage : Z }.

(** The listener's translation of one delivered envelope; [cid] is [None]
    when the envelope carries no container id.  [None]: the event is
    skipped. *)
Definition stage_event_of_envelope (table : list strim_stage_table_entry)
    (kind : strim_event_kind) (cid : option cstring) : option strim_stage_event :=
  match kind with
  | STRIM_EVENT_OTHER => None
  | _ =>
    match cid with
    | None => None
    | Some cid =>
      match find_first (fun e => streq (te_container_id e) cid) table with
      | None => None
      | Some e =>
          Some (StageEvent (te_stage e)
                  (match kind with STRIM_EVENT_TASK_START => STRIM_STAGE_RUNNING
                                 | _ => STRIM_STAGE_STOPPED end))
      end
    end
  end.

(** The table [run()] builds from the configured container ids. *)
Definition main_stage_table (mediamtx normalize scale_and_egress single : cstring)
    (enable_single_stage_pipeline : bool) : list strim_stage_table_entry :=
  [ StageTableEntry mediamtx STRIM_STAGE_MEDIA_MTX;
    StageTableEntry normalize STRIM_STAGE_NORMALIZE;
    StageTableEntry scale_and_egress STRIM_STAGE_SCALE_AND_EGRESS ] ++
  (if enable_single_stage_pipeline
   then [StageTableEntry single STRIM_STAGE_SINGLE_STAGE_EGRESS] else []).

(** ** Theorems *)

Definition all_allocs : new_oracle := NewOracle true true true true.

Lemma main_config_typed (junk : Z) (single : bool) (t b : Z) :
  config_typed (main_controller_config junk single t b).
Proof.
  destruct single; split; simpl; try (split; [done|]);
    repeat first [apply Forall_nil; done | apply Forall_cons; split | done | split].
Qed.

Lemma main_controller_new (junk : Z) (single : bool) (t b : Z) :
  0 < t -> b <> 0 ->
  strim_controller_new all_allocs (Some (main_controller_config junk single t b)) true =
  inr (main_controller junk single t b).
Proof.
  intros Ht Hb. unfold strim_controller_new. simpl.
  rewrite (proj2 (Z.leb_gt t 0)) by lia. rewrite (proj2 (Z.eqb_neq b 0)) by done.
  by destruct single.
Qed.

(** the configuration [run()] builds is accepted by the controller
    exactly when the loaded inflight timeout is positive and the actions
    buffer size is not 0, in both pipeline modes and whatever the
    uninitialised members contain; the result is [main_controller]. *)
Theorem main_config_accepted_iff (junk : Z) (single : bool) (t b : Z) :
  strim_controller_new all_allocs (Some (main_controller_config junk single t b)) true =
    (if (0 <? t) && negb (b =? 0) then inr (main_controller junk single t b)
     else inl STRIM_CTRL_ERR_BADARG).
Proof.
  destruct (Z.ltb_spec 0 t) as [Ht|Ht]; cbn [andb].
  - destruct (Z.eqb_spec b 0) as [->|Hb]; cbn [negb]; [|by apply main_controller_new].
    unfold strim_controller_new. simpl. by rewrite (proj2 (Z.leb_gt t 0)) by lia.
  - unfold strim_controller_new. simpl. by rewrite (proj2 (Z.leb_le t 0)) by lia.
Qed.

Lemma main_prereq_gate (c : strim_controller) (a : astate) :
  shows c a ->
  (call_main_prerequisite prereq_ingress0_ready_addr NULL c =? 0) =
  bool_decide (a_path a Ingress0 = Ready).
Proof.
  intros [Hp _]. specialize (Hp Ingress0).
  unfold call_main_prerequisite, prereq_ingress0_ready. simpl in *.
  rewrite Hp. by destruct (a_path a Ingress0).
Qed.

Lemma main_routes_shown (junk : Z) (single : bool) :
  routes_shown call_main_prerequisite (main_path_routes junk single)
    (main_control_routes junk single) (main_router single).
Proof.
  split.
  - intros p s. destruct single; [done|]. destruct p, s; try done; simpl; by split.
  - intros [] x. destruct x; simpl; split; try (by destruct single); try done.
    intros c a Hsh. simpl. by apply main_prereq_gate.
Qed.

Lemma main_controller_refines (junk : Z) (single : bool) (t b : Z) :
  refines call_main_prerequisite (main_router single)
    (main_controller junk single t b) main_astate.
Proof.
  split; [|apply main_routes_shown]. split.
  - by intros [].
  - intros []; eexists; (split; [reflexivity | by split]).
Qed.

Lemma main_controller_wf (junk : Z) (single : bool) (t b : Z) :
  0 < t -> b <> 0 -> wf_controller (main_controller junk single t b).
Proof.
  intros Ht Hb.
  apply (controller_new_wf all_allocs (main_controller_config junk single t b)).
  - apply main_config_typed.
  - by apply main_controller_new.
Qed.

(** The normalize stage follows the ingress0 path. *)
Definition normalize_tracks (a : astate) : Prop :=
  (a_path a Ingress0 = Ready -> a_desired a Normalize = Running) /\
  (a_path a Ingress0 = NotReady -> a_desired a Normalize = Stopped).

Lemma normalize_tracks_step (a : astate) (e : aevent) :
  normalize_tracks a -> normalize_tracks (astep (main_router false) a e).2.
Proof.
  intros [Hr Hn]. destruct e as [p s|[] x|st rs]; simpl.
  - destruct p, s; simpl; unfold aapply; simpl; try (by split);
      destruct (decide _); by split.
  - destruct x; simpl; unfold aapply; simpl; case_decide; try (by split).
    case_bool_decide; by split.
  - by split.
Qed.

Lemma arun_invariant (R : arouter) (P : astate -> Prop) (es : list aevent) (a : astate) :
  (forall a e, P a -> P (astep R a e).2) -> P a -> P (arun R a es).2.
Proof.
  intros Hstep. revert a. induction es as [|e es IH]; intros a HP; simpl; [done|].
  specialize (Hstep a e HP). destruct (astep R a e) as [v a1]. specialize (IH a1 Hstep).
  by destruct (arun R a1 es).
Qed.

(** in the two-stage pipeline, after any sequence of path events, control
    commands and stage events handled from the start-up state, the normalize
    stage is desired Running whenever ingress0 is recorded ready and desired
    Stopped whenever it is recorded not-ready, whatever commands and
    containerd events were interleaved. *)
Theorem normalize_follows_ingress0 (junk t b : Z) (es : list aevent) :
  let c := (run_events call_main_prerequisite (main_controller junk false t b) es).2 in
  exists s, stage_at c STRIM_STAGE_NORMALIZE = Some s /\
    (c_paths c !! 0%nat = Some STRIM_PATH_READY ->
       desired (s_status s) = STRIM_STAGE_RUNNING) /\
    (c_paths c !! 0%nat = Some STRIM_PATH_NOT_READY ->
       desired (s_status s) = STRIM_STAGE_STOPPED).
Proof.
  pose proof (run_events_refines call_main_prerequisite (main_router false) es
    (main_controller junk false t b) main_astate eq_refl
    (main_controller_refines junk false t b)) as H.
  pose proof (arun_invariant (main_router false) normalize_tracks es main_astate
    normalize_tracks_step ltac:(by split)) as Ht.
  destruct (run_events _ _ es) as [out c], (arun _ _ es) as [vs a]. simpl in *.
  destruct H as [_ [[Hp Hs] _]]. destruct (Hs Normalize) as (s & Hat & Hd & _).
  exists s. split; [done|]. pose proof (Hp Ingress0) as Hp0.
  change (Z.to_nat (path_code Ingress0)) with 0%nat in Hp0. rewrite Hp0, Hd.
  destruct Ht as [Hr Hn]. split; intros [= Heq].
  - rewrite Hr; [done|]. by destruct (a_path a Ingress0).
  - rewrite Hn; [done|]. by destruct (a_path a Ingress0).
Qed.

(** the egress gate.  With the routing table of main.c, an egress start
    command that would change the egress stage's desired state is accepted
    exactly when ingress0 is recorded ready; otherwise it fails with
    STRIM_CTRL_ERR_PREREQ, the controller is left exactly as it was and no
    listener is called. *)
Theorem egress_start_gated_on_ingress0 (single : bool) (c : strim_controller) (s : strim_stage)
    (v : Z) (junk : Z) :
  c_control_routes c = main_control_routes junk single ->
  c_paths c !! 0%nat = Some v ->
  stage_at c (egress_stage single) = Some s ->
  desired (s_status s) <> STRIM_STAGE_RUNNING ->
  strim_controller_handle_control call_main_prerequisite c
    (Some (ControlCommand STRIM_COMPONENT_EGRESS STRIM_ACTION_START)) =
  if v =? STRIM_PATH_READY
  then let c' := update_stage (egress_stage single) (set_desired STRIM_STAGE_RUNNING) c in
       (0, c', notify_listeners c')
  else (STRIM_CTRL_ERR_PREREQ, c, []).
Proof.
  intros Hr Hv Hs Hd. unfold strim_controller_handle_control, find_control_route. rewrite Hr. simpl.
  unfold apply_desired_stage_target. simpl. rewrite Hs, (proj2 (Z.eqb_neq _ _) Hd). simpl.
  unfold call_main_prerequisite, prereq_ingress0_ready. simpl.
  change (Z.to_nat STRIM_PATH_INGRESS0) with 0%nat. rewrite Hv.
  by destruct (v =? STRIM_PATH_READY).
Qed.

Lemma egress_start_gated_on_ingress0_witness :
  strim_controller_handle_control call_main_prerequisite (main_controller 0 false 30000 16)
    (Some (ControlCommand STRIM_COMPONENT_EGRESS STRIM_ACTION_START)) =
  (STRIM_CTRL_ERR_PREREQ, main_controller 0 false 30000 16, []).
Proof.
  apply (egress_start_gated_on_ingress0 false (main_controller 0 false 30000 16)
           (stage_of_config (main_stage STRIM_STAGE_SCALE_AND_EGRESS STRIM_STAGE_STOPPED
              egress_ops_addr)) STRIM_PATH_UNKNOWN 0); done.
Defined.

(** start-up refines the specification: for both pipelines the controller
    built by [run()] is well formed and implements the abstract routing table
    of that pipeline, so (with the step refinement) any sequence of handled
    events yields the abstract verdicts and the abstract state. *)
Theorem main_controller_runs_spec (junk : Z) (single : bool) (t b : Z) (es : list aevent) :
  0 < t -> b <> 0 ->
  wf_controller (main_controller junk single t b) /\
  let '(out, c) := run_events call_main_prerequisite (main_controller junk single t b) es in
  let '(vs, a) := arun (main_router single) main_astate es in
  map fst out = map verdict_code vs /\
  refines call_main_prerequisite (main_router single) c a.
Proof.
  intros Ht Hb. split; [by apply main_controller_wf|].
  apply run_events_refines; [done | apply main_controller_refines].
Qed.
