(* ===== verification/Sched.v ===== *)
(** * The action queue, the worker pool and the threads (core/controller.c)

    A small-step model of the running controller: submitter threads blocked
    in [queue_submit], the queue thread in [strim_controller_run], the worker
    threads in [worker_main] running fired ops, and the shutdown calls.  One
    step is one critical section of [q_lock] or [pool->lock], or one
    iteration of a handler loop; condition variables are modelled with their
    wait sets, [pthread_cond_signal] waking an arbitrary waiter, and spurious
    wake-ups at any time.

    Each critical section is an executable definition; [step] composes them
    and adds the scheduler's choices (which thread moves, which waiter a
    signal wakes, clock readings, allocation outcomes, op results). *)

From S2P Require Import Prelude Wire Controller ControllerFacts.

(** ** State *)

(** A queued action with the submitter that blocks on it; [None] is a
    self-allocated action (reconcile, clear-inflight). *)
Record qentry := QEntry { qe_act : strim_action; qe_owner : option nat }.

(** Where the queue thread is. *)
Inductive qpc :=
  | QTop
  | QAsleep
  | QStart (e : qentry)
  | QReconcile (e : qentry) (idx : list Z)
  | QTeardown (e : qentry) (idx : list Z)
  | QReply (e : qentry) (r : reply)
  | QDone.

(** A submitter inside [queue_submit]: asleep in the condition wait or about
    to re-check [reply_done], which is not set yet or set with the reply. *)
Inductive sub_state :=
  | Waiting (asleep : bool)
  | Replied (asleep : bool) (r : reply).

Definition sub_asleep (st : sub_state) : bool :=
  match st with Waiting b | Replied b _ => b end.

Definition with_asleep (b : bool) (st : sub_state) : sub_state :=
  match st with Waiting _ => Waiting b | Replied _ r => Replied b r end.

Record qstate := QState {
  q_actions : list qentry;
  q_closed : bool;
  reconcile_queued : bool;
  q_pc : qpc;
  q_subs : gmap nat sub_state;
}.

(** A busy worker: running the op, posting the clear of a failed op, or about
    to count itself done. *)
Inductive wphase :=
  | WRunning (j : strim_op_job)
  | WPosting (j : strim_op_job)
  | WFinishing (j : strim_op_job).

Definition phase_job (w : wphase) : strim_op_job :=
  match w with WRunning j | WPosting j | WFinishing j => j end.

Record pool := Pool {
  p_jobs : list strim_op_job;
  p_shutting_down : bool;
  p_asleep : nat;
  p_awake : nat;
  p_busy : list wphase;
  ops_wg : Z;
}.

Record sys := Sys {
  ctl : strim_controller;
  shutting_down : bool;
  sq : qstate;
  sp : pool;
}.

(** ** WaitGroup *)

Definition wg_add (n : Z) (p : pool) : pool :=
  Pool (p_jobs p) (p_shutting_down p) (p_asleep p) (p_awake p) (p_busy p) (ops_wg p + n).

Definition wg_done (p : pool) : pool :=
  if 0 <? ops_wg p
  then Pool (p_jobs p) (p_shutting_down p) (p_asleep p) (p_awake p) (p_busy p) (ops_wg p - 1)
  else p.

(** [wg_wait] returns only in this state. *)
Definition wg_idle (p : pool) : bool := negb (0 <? ops_wg p).

(** ** Queue sections *)

Definition set_pc (pc : qpc) (q : qstate) : qstate :=
  QState (q_actions q) (q_closed q) (reconcile_queued q) pc (q_subs q).
Definition set_subs (m : gmap nat sub_state) (q : qstate) : qstate :=
  QState (q_actions q) (q_closed q) (reconcile_queued q) (q_pc q) m.

(** Append an action; the signal it sends is [signal_q]. *)
Definition enqueue_locked (e : qentry) (q : qstate) : qstate :=
  QState (q_actions q ++ [e]) (q_closed q) (reconcile_queued q) (q_pc q) (q_subs q).

(** [pthread_cond_signal(&c->q_cond)]: one waiter of the condition, if any. *)
Inductive signal_q : qstate -> qstate -> Prop :=
  | signal_queue_thread q :
      q_pc q = QAsleep -> signal_q q (set_pc QTop q)
  | signal_submitter q t st :
      q_subs q !! t = Some st -> sub_asleep st = true ->
      signal_q q (set_subs (<[t := with_asleep false st]> (q_subs q)) q)
  | signal_nobody q :
      q_pc q <> QAsleep -> (forall t st, q_subs q !! t = Some st -> sub_asleep st = false) ->
      signal_q q q.

(** [pthread_cond_broadcast(&c->q_cond)] *)
Definition broadcast_q (q : qstate) : qstate :=
  set_subs (with_asleep false <$> q_subs q)
    (match q_pc q with QAsleep => set_pc QTop q | _ => q end).

(** [queue_submit] up to its wait loop: refused when closed, otherwise the
    action is appended (and the condition signalled) and the submitter
    sleeps. *)
Definition queue_submit (t : nat) (a : strim_action) (q : qstate) : Z + qstate :=
  if q_closed q then inl STRIM_CTRL_ERR_CLOSED
  else inr (enqueue_locked (QEntry a (Some t)) q).

Definition is_reconcile (a : strim_action) : bool :=
  match a with ACTION_RECONCILE => true | _ => false end.

(** The actions of the blocking submit surface. *)
Definition blocking_action (a : strim_action) : bool :=
  match a with ACTION_RECONCILE | ACTION_CLEAR_INFLIGHT _ _ => false | _ => true end.

(** [None]: the request is dropped (allocation failure, closed queue, or a
    pass already queued); nothing is signalled. *)
Definition strim_controller_request_reconcile (alloc : bool) (q : qstate) : option qstate :=
  if negb alloc then None
  else if q_closed q || reconcile_queued q then None
  else Some (enqueue_locked (QEntry ACTION_RECONCILE None)
         (QState (q_actions q) (q_closed q) true (q_pc q) (q_subs q))).

(** The locked section of [strim_controller_run]'s loop. *)
Definition run_section (q : qstate) : qstate :=
  match q_actions q with
  | e :: rest =>
      QState rest (q_closed q)
        (if is_reconcile (qe_act e) then false else reconcile_queued q)
        (QStart e) (q_subs q)
  | [] => set_pc (if q_closed q then QDone else QAsleep) q
  end.

(** [act->reply_result] and [act->reply_done]: a submitter asleep stays so. *)
Definition store_reply (r : reply) (st : sub_state) : sub_state := Replied (sub_asleep st) r.

(** The tail of [run_action]: store the reply and wake the submitter. *)
Definition finish_action (e : qentry) (r : reply) (q : qstate) : qstate :=
  match qe_owner e with
  | None => set_pc QTop q
  | Some t => broadcast_q (set_subs (alter (store_reply r) t (q_subs q)) (set_pc QTop q))
  end.

Definition close_queue (q : qstate) : qstate :=
  broadcast_q (QState (q_actions q) true (reconcile_queued q) (q_pc q) (q_subs q)).

Definition strim_controller_begin_shutdown (s : sys) : sys := Sys (ctl s) true (sq s) (sp s).

(** The unlocked store of the flag (its own step) and then the locked close. *)
Definition strim_controller_close (s : sys) : sys :=
  Sys (ctl s) (shutting_down s) (close_queue (sq s)) (sp s).

(** ** Worker-pool sections *)

Definition with_jobs (js : list strim_op_job) (p : pool) : pool :=
  Pool js (p_shutting_down p) (p_asleep p) (p_awake p) (p_busy p) (ops_wg p).
Definition with_workers (asleep awake : nat) (busy : list wphase) (p : pool) : pool :=
  Pool (p_jobs p) (p_shutting_down p) asleep awake busy (ops_wg p).

(** [pthread_cond_signal(&pool->cond)]: only workers wait there. *)
Definition signal_pool (p : pool) : pool :=
  match p_asleep p with
  | O => p
  | S n => with_workers n (S (p_awake p)) (p_busy p) p
  end.

Definition workerpool_submit (alloc : bool) (job : strim_op_job) (p : pool) : Z * pool :=
  if negb alloc then (STRIM_CTRL_ERR_NOMEM, p)
  else if p_shutting_down p then (STRIM_CTRL_ERR_CLOSED, p)
  else (0, signal_pool (with_jobs (p_jobs p ++ [job]) p)).

(** The locked section of [worker_main] for one awake idle worker: take a
    job, exit, or sleep. *)
Definition worker_section (p : pool) : pool :=
  match p_jobs p with
  | j :: rest =>
      with_workers (p_asleep p) (pred (p_awake p)) (p_busy p ++ [WRunning j]) (with_jobs rest p)
  | [] =>
      if p_shutting_down p then with_workers (p_asleep p) (pred (p_awake p)) (p_busy p) p
      else with_workers (S (p_asleep p)) (pred (p_awake p)) (p_busy p) p
  end.

Definition workerpool_shutdown (p : pool) : pool :=
  Pool (p_jobs p) true 0 (p_awake p + p_asleep p) (p_busy p) (ops_wg p).

Definition live_generation (c : strim_controller) (i : Z) : Z :=
  match stage_at c i with Some s => s_op_generation s | None => 0 end.

(** [run_stage_op] after the op returned [err]: post a clear, or finish. *)
Definition op_returned (c : strim_controller) (err : Z) (j : strim_op_job) : wphase :=
  if negb (err =? 0) &&
     negb (strim_stage_op_superseded (Some j) (live_generation c (j_stage j)))
  then WPosting j else WFinishing j.

Definition clear_entry (j : strim_op_job) : qentry :=
  QEntry (ACTION_CLEAR_INFLIGHT (j_stage j) (j_generation j)) None.

(** The clear of a failed op; [None]: dropped (allocation failure or closed
    queue). *)
Definition post_clear (alloc : bool) (j : strim_op_job) (q : qstate) : option qstate :=
  if negb alloc then None
  else if q_closed q then None
  else Some (enqueue_locked (clear_entry j) q).

(** ** Steps *)

(** What a step does, for the theorems that talk about executions. *)
Inductive label :=
  | LEnqueue (e : qentry)
  | LDequeue (e : qentry)
  | LReturn (t : nat) (r : reply)
  | LRun (a : strim_action)
  | LReconcile (i : Z) (o : fire_oracle)
  | LTeardown (i : Z)
  | LQueue
  | LOther.

(** The queue thread moves. *)
Definition queue_label (l : label) : bool :=
  match l with
  | LDequeue _ | LRun _ | LReconcile _ _ | LTeardown _ | LQueue => true
  | _ => false
  end.

Section Steps.
Variable call_prerequisite : ptr -> ptr -> strim_controller -> Z.

Definition no_oracle : Z -> fire_oracle := fun _ => FireOracle true 0 0 false 0.

(** Hand the launched job of a reconcile iteration to the pool. *)
Definition launch (ef : list effect) (p : pool) : pool :=
  match ef with
  | Launch j :: _ => (workerpool_submit true j (wg_add 1 p)).2
  | _ => p
  end.

Definition run_label (q : qstate) : label :=
  match q_actions q with e :: _ => LDequeue e | [] => LQueue end.

Inductive step : sys -> label -> sys -> Prop :=
  (* -- submitters *)
  | step_submit c sd q q1 q2 p t a :
      q_subs q !! t = None -> blocking_action a = true -> action_typed a ->
      queue_submit t a q = inr q1 -> signal_q q1 q2 ->
      step (Sys c sd q p) (LEnqueue (QEntry a (Some t)))
           (Sys c sd (set_subs (<[t := Waiting true]> (q_subs q2)) q2) p)
  | step_submit_refused c sd q p t a :
      queue_submit t a q = inl STRIM_CTRL_ERR_CLOSED ->
      step (Sys c sd q p) LOther (Sys c sd q p)
  | step_sub_wake c sd q p t st :
      q_subs q !! t = Some st -> sub_asleep st = true ->
      step (Sys c sd q p) LOther
        (Sys c sd (set_subs (<[t := with_asleep false st]> (q_subs q)) q) p)
  | step_sub_sleep c sd q p t :
      q_subs q !! t = Some (Waiting false) ->
      step (Sys c sd q p) LOther (Sys c sd (set_subs (<[t := Waiting true]> (q_subs q)) q) p)
  | step_sub_return c sd q p t r :
      q_subs q !! t = Some (Replied false r) ->
      step (Sys c sd q p) (LReturn t r) (Sys c sd (set_subs (delete t (q_subs q)) q) p)
  | step_request_reconcile c sd q q1 q2 p :
      strim_controller_request_reconcile true q = Some q1 -> signal_q q1 q2 ->
      step (Sys c sd q p) (LEnqueue (QEntry ACTION_RECONCILE None)) (Sys c sd q2 p)
  | step_request_dropped c sd q p alloc :
      strim_controller_request_reconcile alloc q = None ->
      step (Sys c sd q p) LOther (Sys c sd q p)
  (* -- shutdown calls *)
  | step_begin_shutdown c sd q p :
      step (Sys c sd q p) LOther (strim_controller_begin_shutdown (Sys c sd q p))
  | step_close c q p :
      step (Sys c true q p) LOther (strim_controller_close (Sys c true q p))
  | step_pool_shutdown c sd q p :
      step (Sys c sd q p) LOther (Sys c sd q (workerpool_shutdown p))
  (* -- the queue thread *)
  | step_run_section c sd q p :
      q_pc q = QTop ->
      step (Sys c sd q p) (run_label q) (Sys c sd (run_section q) p)
  | step_queue_wake c sd q p :
      q_pc q = QAsleep ->
      step (Sys c sd q p) LOther (Sys c sd (set_pc QTop q) p)
  | step_handler c c' sd q p e rp ef :
      q_pc q = QStart e ->
      qe_act e <> ACTION_RECONCILE -> qe_act e <> ACTION_TEARDOWN ->
      run_action call_prerequisite sd no_oracle c (qe_act e) = (rp, c', ef) ->
      step (Sys c sd q p) (LRun (qe_act e)) (Sys c' sd (set_pc (QReply e rp) q) p)
  | step_reconcile_start c sd q p e :
      q_pc q = QStart e -> qe_act e = ACTION_RECONCILE ->
      step (Sys c sd q p) LQueue
        (Sys c sd (set_pc (if sd then QReply e (Reply 0 None)
                           else QReconcile e stage_indices) q) p)
  | step_reconcile_stage c c' sd q p e i idx o ef :
      q_pc q = QReconcile e (i :: idx) ->
      fo_shutting_down o = sd ->
      (fo_submit o = 0 -> p_shutting_down p = false) ->
      reconcile_stage o i c = (c', ef) ->
      step (Sys c sd q p) (LReconcile i o)
        (Sys c' sd (set_pc (QReconcile e idx) q) (launch ef p))
  | step_reconcile_end c sd q p e :
      q_pc q = QReconcile e [] ->
      step (Sys c sd q p) LQueue (Sys c sd (set_pc (QReply e (Reply 0 None)) q) p)
  | step_teardown_start c sd q p e :
      q_pc q = QStart e -> qe_act e = ACTION_TEARDOWN ->
      step (Sys c sd q p) LQueue (Sys c sd (set_pc (QTeardown e stage_indices) q) p)
  | step_teardown_stage c c' sd q p e i idx ef :
      q_pc q = QTeardown e (i :: idx) ->
      teardown_stage i c = (c', ef) ->
      step (Sys c sd q p) (LTeardown i) (Sys c' sd (set_pc (QTeardown e idx) q) p)
  | step_teardown_end c sd q p e :
      q_pc q = QTeardown e [] ->
      step (Sys c sd q p) LQueue (Sys c sd (set_pc (QReply e (Reply 0 None)) q) p)
  | step_finish c sd q p e r :
      q_pc q = QReply e r ->
      step (Sys c sd q p) LQueue (Sys c sd (finish_action e r q) p)
  (* -- the workers *)
  | step_worker_section c sd q p :
      (0 < p_awake p)%nat ->
      step (Sys c sd q p) LOther (Sys c sd q (worker_section p))
  | step_worker_wake c sd q p n :
      p_asleep p = S n ->
      step (Sys c sd q p) LOther (Sys c sd q (with_workers n (S (p_awake p)) (p_busy p) p))
  | step_op_return c sd q p b1 b2 j err :
      p_busy p = b1 ++ WRunning j :: b2 ->
      step (Sys c sd q p) LOther
        (Sys c sd q (with_workers (p_asleep p) (p_awake p) (b1 ++ op_returned c err j :: b2) p))
  (* a failed submission raises the generation for a moment: an op that
     returns in that window sees itself superseded and posts no clear *)
  | step_op_return_window c sd q p b1 b2 j e idx :
      p_busy p = b1 ++ WRunning j :: b2 -> q_pc q = QReconcile e idx ->
      step (Sys c sd q p) LOther
        (Sys c sd q (with_workers (p_asleep p) (p_awake p) (b1 ++ WFinishing j :: b2) p))
  | step_post_clear c sd q q1 q2 p b1 b2 j :
      p_busy p = b1 ++ WPosting j :: b2 ->
      post_clear true j q = Some q1 -> signal_q q1 q2 ->
      step (Sys c sd q p) (LEnqueue (clear_entry j))
        (Sys c sd q2 (with_workers (p_asleep p) (p_awake p) (b1 ++ WFinishing j :: b2) p))
  | step_post_dropped c sd q p b1 b2 j alloc :
      p_busy p = b1 ++ WPosting j :: b2 -> post_clear alloc j q = None ->
      step (Sys c sd q p) LOther
        (Sys c sd q (with_workers (p_asleep p) (p_awake p) (b1 ++ WFinishing j :: b2) p))
  | step_worker_done c sd q p b1 b2 j :
      p_busy p = b1 ++ WFinishing j :: b2 ->
      step (Sys c sd q p) LOther
        (Sys c sd q (wg_done (with_workers (p_asleep p) (S (p_awake p)) (b1 ++ b2) p))).

(** Executions, with the trace of their labels. *)
Inductive exec (s0 : sys) : list label -> sys -> Prop :=
  | exec_nil : exec s0 [] s0
  | exec_snoc tr s1 l s2 : exec s0 tr s1 -> step s1 l s2 -> exec s0 (tr ++ [l]) s2.

(** A freshly constructed controller: empty queue, all workers awake. *)
Definition init_sys (c : strim_controller) : sys :=
  Sys c false (QState [] false false QTop ∅) (Pool [] false 0 STRIM_CTRL_WORKERS [] 0).

Definition reachable (c0 : strim_controller) (tr : list label) (s : sys) : Prop :=
  exec (init_sys c0) tr s.

End Steps.
