(* ===== verification/SchedFacts.v ===== *)
(** * Invariants of the running controller

    What every execution of [Sched.step] keeps: the bookkeeping of the action
    queue (every blocked submitter owns exactly one pending action, the queue
    thread never sleeps on a non-empty queue, at most one reconcile pass is
    queued), the worker pool and its wait group, the generations of the fired
    ops, and the liveness and shutdown facts that follow. *)

From S2P Require Import Prelude Wire Controller ControllerFacts Sched.

(** ** The queue invariant *)

(** The action the queue thread holds. *)
Definition pc_entry (pc : qpc) : option qentry :=
  match pc with
  | QStart e | QReconcile e _ | QTeardown e _ | QReply e _ => Some e
  | QTop | QAsleep | QDone => None
  end.

Definition pending (q : qstate) : list qentry :=
  option_list (pc_entry (q_pc q)) ++ q_actions q.

Definition owners (es : list qentry) : list nat := omap qe_owner es.

Definition waiting (t : nat) (q : qstate) : Prop := exists b, q_subs q !! t = Some (Waiting b).

Definition reconciles (es : list qentry) : list qentry :=
  filter (fun e => is_reconcile (qe_act e) = true) es.

Record queue_inv (q : qstate) : Prop := {
  qi_owners : NoDup (owners (pending q));
  qi_waiting : forall t, t ∈ owners (pending q) <-> waiting t q;
  qi_asleep : q_pc q = QAsleep -> q_actions q = [] /\ q_closed q = false;
  qi_done : q_pc q = QDone -> q_actions q = [] /\ q_closed q = true;
  qi_reconcile : length (reconciles (q_actions q)) = if reconcile_queued q then 1%nat else 0%nat;
  qi_heard : forall t r, q_subs q !! t <> Some (Replied true r);
}.

(** Two queue states that only differ in which waiting submitters are asleep
    (and possibly in the queue thread having been woken). *)
Record q_similar (q q' : qstate) : Prop := {
  qs_actions : q_actions q' = q_actions q;
  qs_closed : q_closed q' = q_closed q;
  qs_reconcile : reconcile_queued q' = reconcile_queued q;
  qs_pc : q_pc q' = q_pc q \/ (q_pc q = QAsleep /\ q_pc q' = QTop);
  qs_waiting : forall t, waiting t q' <-> waiting t q;
  qs_heard : forall t r, q_subs q' !! t = Some (Replied true r) -> q_subs q !! t = Some (Replied true r);
}.

#[global] Instance q_similar_refl : Reflexive q_similar.
Proof. intros q. split; auto; done. Qed.

#[global] Instance q_similar_trans : Transitive q_similar.
Proof.
  intros q1 q2 q3 [A1 B1 C1 D1 E1 F1] [A2 B2 C2 D2 E2 F2].
  split; [congruence.. | | |].
  - destruct D1 as [D1|[D1 D1']], D2 as [D2|[D2 D2']]; rewrite ?D1, ?D2 in *; naive_solver.
  - intros. by rewrite E2, E1.
  - eauto.
Qed.

Lemma similar_pc_entry (q q' : qstate) : q_similar q q' -> pc_entry (q_pc q') = pc_entry (q_pc q).
Proof. intros [_ _ _ [->|[-> ->]] _ _]; done. Qed.

Lemma similar_pending (q q' : qstate) : q_similar q q' -> pending q' = pending q.
Proof.
  intros H. unfold pending. by rewrite (similar_pc_entry _ _ H), (qs_actions _ _ H).
Qed.

Lemma queue_inv_similar (q q' : qstate) : q_similar q q' -> queue_inv q -> queue_inv q'.
Proof.
  intros Hs []. pose proof (similar_pending _ _ Hs) as Hp.
  destruct Hs as [Ha Hc Hr Hpc Hw Hh]. split; rewrite ?Hp, ?Ha, ?Hc, ?Hr; auto.
  - intros t. by rewrite Hw.
  - destruct Hpc as [->|[_ ->]]; [done|discriminate].
  - destruct Hpc as [->|[_ ->]]; [done|discriminate].
  - intros t r Ht. by eapply qi_heard0, Hh.
Qed.

Lemma waiting_insert (t t' : nat) (st : sub_state) (q : qstate) :
  waiting t (set_subs (<[t' := st]> (q_subs q)) q) <->
  (t = t' /\ (exists b, st = Waiting b)) \/ (t <> t' /\ waiting t q).
Proof.
  unfold waiting; simpl. destruct (decide (t = t')) as [->|Hne].
  - rewrite lookup_insert_eq. naive_solver.
  - rewrite lookup_insert_ne by done. naive_solver.
Qed.

(** Waking a submitter, or putting a waiting one to sleep. *)
Lemma similar_toggle (q : qstate) (t : nat) (st : sub_state) (b : bool) :
  q_subs q !! t = Some st -> (b = false \/ exists b', st = Waiting b') ->
  q_similar q (set_subs (<[t := with_asleep b st]> (q_subs q)) q).
Proof.
  intros Ht Hb. split; auto.
  - intros t'. rewrite waiting_insert. destruct (decide (t' = t)) as [->|]; [|naive_solver].
    unfold waiting. rewrite Ht. destruct st; naive_solver.
  - intros t' r. simpl. destruct (decide (t' = t)) as [->|].
    + rewrite lookup_insert_eq, Ht. destruct st; naive_solver.
    + by rewrite lookup_insert_ne.
Qed.

Lemma similar_wake_queue (q : qstate) : q_pc q = QAsleep -> q_similar q (set_pc QTop q).
Proof. intros H. split; simpl; auto; done. Qed.

Lemma similar_signal (q q' : qstate) : signal_q q q' -> q_similar q q'.
Proof.
  destruct 1; [by apply similar_wake_queue | eapply similar_toggle; auto | reflexivity].
Qed.

Lemma similar_broadcast (q : qstate) : q_similar q (broadcast_q q).
Proof.
  unfold broadcast_q. split; try by destruct (q_pc q).
  - simpl. destruct (q_pc q) eqn:E; simpl; rewrite ?E; auto.
  - intros t. unfold waiting; simpl. rewrite lookup_fmap.
    destruct (q_subs q !! t) as [[]|]; naive_solver.
  - intros t r. simpl. rewrite lookup_fmap. destruct (q_subs q !! t) as [[]|]; naive_solver.
Qed.

Lemma owners_app (a b : list qentry) : owners (a ++ b) = owners a ++ owners b.
Proof. apply omap_app. Qed.

Lemma reconciles_app (a b : list qentry) : reconciles (a ++ b) = reconciles a ++ reconciles b.
Proof. apply filter_app. Qed.

Lemma elem_of_owners (t : nat) (es : list qentry) :
  t ∈ owners es <-> exists e, e ∈ es /\ qe_owner e = Some t.
Proof. apply list_elem_of_omap. Qed.

(** *** Appending an action *)

(** A signal sent after an append leaves the queue thread awake: it can only
    have been asleep with no submitter blocked. *)
Lemma signal_wakes (q q' : qstate) :
  (q_pc q = QAsleep -> forall t, ~ waiting t q) ->
  (forall t r, q_subs q !! t <> Some (Replied true r)) -> signal_q q q' -> q_pc q' <> QAsleep.
Proof.
  intros Hw Hh Hs. destruct Hs as [q Hpc | q t st Ht Ha | q Hpc Hn]; simpl; [done | | done].
  intros Hpc. destruct st as [b|b r]; simpl in Ha; subst; [|by apply (Hh t r)].
  apply (Hw Hpc t). by eexists.
Qed.

Lemma asleep_nobody_waits (q : qstate) :
  queue_inv q -> q_pc q = QAsleep \/ q_pc q = QDone -> forall t, ~ waiting t q.
Proof.
  intros Hq Hpc t Ht. apply (qi_waiting q Hq) in Ht. unfold pending in Ht.
  destruct Hpc as [Hpc|Hpc]; rewrite Hpc in Ht; simpl in Ht;
    [destruct (qi_asleep q Hq Hpc) as [E _] | destruct (qi_done q Hq Hpc) as [E _]];
    rewrite E in Ht; inversion Ht.
Qed.

Lemma queue_inv_push (q q' : qstate) (e : qentry) (t : option nat) :
  queue_inv q -> q_closed q = false -> qe_owner e = t ->
  (forall x, t = Some x -> ~ waiting x q) ->
  q_actions q' = q_actions q ++ [e] -> q_closed q' = false -> q_pc q' <> QAsleep ->
  pc_entry (q_pc q') = pc_entry (q_pc q) -> (q_pc q' = QDone -> q_pc q = QDone) ->
  (forall x, waiting x q' <-> waiting x q \/ t = Some x) ->
  (length (reconciles (q_actions q')) = if reconcile_queued q' then 1%nat else 0%nat) ->
  (forall x r, q_subs q' !! x <> Some (Replied true r)) ->
  queue_inv q'.
Proof.
  intros Hq Hcl <- Hfresh Ha Hcl' Hpc Hent Hd Hw Hr Hh.
  assert (Hown : owners (pending q') = owners (pending q) ++ option_list (qe_owner e)).
  { unfold pending. rewrite Ha, Hent, app_assoc, !owners_app. f_equal. }
  split; [ | | done | | done | done].
  - rewrite Hown. apply NoDup_app. split_and!; [apply Hq | | destruct (qe_owner e); simpl; auto using NoDup_singleton, NoDup_nil_2].
    intros x Hx. apply (qi_waiting q Hq) in Hx. destruct (qe_owner e) as [y|]; simpl.
    + rewrite list_elem_of_singleton. intros ->. by apply (Hfresh y).
    + apply not_elem_of_nil.
  - intros x. rewrite Hown, Hw, elem_of_app, (qi_waiting q Hq). destruct (qe_owner e); simpl.
    + rewrite list_elem_of_singleton. naive_solver.
    + rewrite elem_of_nil. naive_solver.
  - intros Hd'. destruct (qi_done q Hq (Hd Hd')) as [_ ?]. congruence.
Qed.

Lemma queue_inv_submit (q q1 q2 : qstate) (t : nat) (a : strim_action) :
  queue_inv q -> q_subs q !! t = None -> blocking_action a = true ->
  queue_submit t a q = inr q1 -> signal_q q1 q2 ->
  queue_inv (set_subs (<[t := Waiting true]> (q_subs q2)) q2).
Proof.
  intros Hq Ht Hb Hs Hsig. unfold queue_submit in Hs. destruct (q_closed q) eqn:Hcl; [done|].
  simplify_eq. pose proof (similar_signal _ _ Hsig) as Hsim.
  assert (q_pc q2 <> QAsleep).
  { eapply signal_wakes, Hsig; [|apply Hq]. intros Hpc. simpl in Hpc.
    apply (asleep_nobody_waits q); auto. }
  pose proof (similar_pc_entry _ _ Hsim). destruct Hsim as [Ha Hc Hr Hpc Hw Hh].
  assert (Hnw : ~ waiting t q) by (intros [b Hb']; congruence).
  eapply (queue_inv_push q _ (QEntry a (Some t))); simpl; try done.
  - intros x [= <-]. done.
  - by rewrite Hc.
  - simpl in Hpc. by destruct Hpc as [->|[_ ->]].
  - intros x. rewrite waiting_insert, Hw. destruct (decide (x = t)) as [->|];
      [|naive_solver]. naive_solver.
  - rewrite Ha, Hr. simpl. rewrite reconciles_app, length_app, (qi_reconcile q Hq).
    destruct a; try discriminate Hb; simpl; lia.
  - intros x r. destruct (decide (x = t)) as [->|]; [by rewrite lookup_insert_eq|].
    rewrite lookup_insert_ne by done. intros Hx%Hh. by apply (qi_heard q Hq) in Hx.
Qed.

(** A self-allocated action: the clear of a failed op or a reconcile pass. *)
Lemma queue_inv_self (q q0 q2 : qstate) (a : strim_action) (b : bool) :
  queue_inv q -> q_closed q = false ->
  q0 = QState (q_actions q) (q_closed q) b (q_pc q) (q_subs q) ->
  length (reconciles (q_actions q ++ [QEntry a None])) = (if b then 1%nat else 0%nat) ->
  signal_q (enqueue_locked (QEntry a None) q0) q2 -> queue_inv q2.
Proof.
  intros Hq Hcl -> Hr Hsig. pose proof (similar_signal _ _ Hsig) as Hsim.
  assert (q_pc q2 <> QAsleep).
  { eapply signal_wakes, Hsig; [|apply Hq]. intros Hpc. simpl in Hpc.
    apply (asleep_nobody_waits q); auto. }
  pose proof (similar_pc_entry _ _ Hsim). destruct Hsim as [Ha Hc Hrq Hpc Hw Hh].
  eapply (queue_inv_push q q2 (QEntry a None)); simpl; try done.
  - by rewrite Hc.
  - simpl in Hpc. by destruct Hpc as [->|[_ ->]].
  - intros x. rewrite Hw. unfold waiting. simpl. naive_solver.
  - by rewrite Ha, Hrq.
  - intros x r Hx%Hh. by apply (qi_heard q Hq) in Hx.
Qed.

(** *** The queue thread *)

(** Moving inside a handler keeps the held action. *)
Lemma queue_inv_pc (q : qstate) (pc : qpc) :
  pc_entry pc = pc_entry (q_pc q) -> pc <> QAsleep -> pc <> QDone ->
  queue_inv q -> queue_inv (set_pc pc q).
Proof. intros He H1 H2 []. split; unfold pending in *; simpl; rewrite ?He; auto; done. Qed.

Lemma queue_inv_run_section (q : qstate) :
  q_pc q = QTop -> queue_inv q -> queue_inv (run_section q).
Proof.
  intros Hpc Hq. unfold run_section. destruct (q_actions q) as [|e rest] eqn:Ea.
  - destruct Hq as [H1 H2 H3 H4 H5 H6]. unfold pending in *. rewrite Hpc, Ea in *. simpl in *.
    destruct (q_closed q) eqn:Ec; split; unfold pending; simpl; rewrite ?Ea; done.
  - destruct Hq as [H1 H2 H3 H4 H5 H6]. unfold pending in *. rewrite Hpc, Ea in *. simpl in *.
    split; unfold pending; simpl; try done.
    unfold reconciles in *. rewrite filter_cons in H5.
    destruct (is_reconcile (qe_act e)) eqn:Er.
    + rewrite decide_True in H5 by done. simpl in H5. destruct (reconcile_queued q); lia.
    + rewrite decide_False in H5 by done. done.
Qed.

(** Storing the reply of [t]: it waits no more, the others as before. *)
Lemma waiting_stored (t x : nat) (r : reply) (q : qstate) :
  waiting x (set_subs (alter (store_reply r) t (q_subs q)) q) <-> x <> t /\ waiting x q.
Proof.
  unfold waiting; simpl. destruct (decide (x = t)) as [->|Hne].
  - rewrite lookup_alter_eq. destruct (q_subs q !! t); naive_solver.
  - rewrite lookup_alter_ne by done. naive_solver.
Qed.

(** After a broadcast nobody is asleep. *)
Lemma broadcast_heard (q : qstate) (t : nat) (r : reply) :
  q_subs (broadcast_q q) !! t <> Some (Replied true r).
Proof. simpl. rewrite lookup_fmap. by destruct (q_subs q !! t) as [[]|]. Qed.

Lemma queue_inv_finish (q : qstate) (e : qentry) (r : reply) :
  q_pc q = QReply e r -> queue_inv q -> queue_inv (finish_action e r q).
Proof.
  intros Hpc Hq. unfold finish_action. destruct Hq as [H1 H2 H3 H4 H5 H6].
  unfold pending in *. rewrite Hpc in *. simpl in *. unfold owners in H1, H2. simpl in *.
  destruct (qe_owner e) as [t|] eqn:Eo; [|split; unfold pending; simpl; done].
  apply NoDup_cons in H1 as [Hni Hnd]. pose proof (broadcast_heard
    (set_subs (alter (store_reply r) t (q_subs q)) (set_pc QTop q))) as Hh.
  set (q1 := set_subs _ (set_pc QTop q)) in *.
  pose proof (qs_waiting _ _ (similar_broadcast q1)) as Hw.
  split; unfold pending; simpl; try done.
  intros x. specialize (Hw x). simpl in Hw. rewrite Hw. unfold q1.
  rewrite (waiting_stored t x r (set_pc QTop q)). specialize (H2 x). rewrite elem_of_cons in H2. split.
  - intros Hx. split; [by intros -> | apply H2; by right].
  - intros [Hne Hx]. apply H2 in Hx as [->|]; done.
Qed.

#[global] Instance pc_asleep_dec (pc : qpc) : Decision (pc = QAsleep).
Proof. destruct pc; (by left) || (by right). Defined.

Lemma queue_inv_close (q : qstate) : queue_inv q -> queue_inv (close_queue q).
Proof.
  intros Hq. unfold close_queue. destruct (decide (q_pc q = QAsleep)) as [Hpc|Hpc].
  - pose proof (queue_inv_similar _ _ (similar_broadcast q) Hq) as [H1 H2 H3 H4 H5 H6].
    unfold broadcast_q, pending, waiting in *. simpl in *. rewrite Hpc in *. simpl in *.
    split; unfold pending; simpl; try done.
  - eapply queue_inv_similar; [apply similar_broadcast|].
    destruct Hq as [H1 H2 H3 H4 H5 H6]. split; unfold pending in *; simpl; try done.
    intros Hd. by destruct (H4 Hd).
Qed.

Lemma queue_inv_return (q : qstate) (t : nat) (b : bool) (r : reply) :
  q_subs q !! t = Some (Replied b r) -> queue_inv q ->
  queue_inv (set_subs (delete t (q_subs q)) q).
Proof.
  intros Ht [H1 H2 H3 H4 H5 H6]. split; unfold pending in *; simpl; try done.
  - intros x. rewrite H2. unfold waiting. simpl. destruct (decide (x = t)) as [->|].
    + rewrite lookup_delete_eq, Ht. naive_solver.
    + by rewrite lookup_delete_ne.
  - intros x r'. destruct (decide (x = t)) as [->|]; [by rewrite lookup_delete_eq|].
    by rewrite lookup_delete_ne.
Qed.

Lemma count_no_reconcile (q : qstate) (a : strim_action) :
  queue_inv q -> is_reconcile a = false ->
  length (reconciles (q_actions q ++ [QEntry a None])) =
  if reconcile_queued q then 1%nat else 0%nat.
Proof.
  intros Hq Ha. rewrite reconciles_app, length_app, (qi_reconcile q Hq).
  unfold reconciles. rewrite filter_cons. simpl. rewrite decide_False by (by rewrite Ha).
  rewrite filter_nil. simpl. lia.
Qed.

Lemma qstate_eta (q : qstate) :
  q = QState (q_actions q) (q_closed q) (reconcile_queued q) (q_pc q) (q_subs q).
Proof. by destruct q. Qed.

Lemma queue_inv_step (pre : ptr -> ptr -> strim_controller -> Z) (s s' : sys) (l : label) :
  step pre s l s' -> queue_inv (sq s) -> queue_inv (sq s').
Proof.
  intros Hstep Hq. destruct Hstep; simpl in *; try done;
    try (eapply queue_inv_pc; [| | | exact Hq]; rewrite ?H; try case_match; done).
  - by eapply queue_inv_submit.
  - eapply queue_inv_similar, Hq; eapply similar_toggle; eauto.
  - eapply queue_inv_similar, Hq. eapply (similar_toggle q t (Waiting false) true); eauto.
  - by eapply queue_inv_return.
  - unfold strim_controller_request_reconcile in H. simpl in H.
    destruct (q_closed q) eqn:Hc; [done|]. destruct (reconcile_queued q) eqn:Hr; [done|].
    simplify_eq/=.
    eapply (queue_inv_self q _ _ ACTION_RECONCILE true);
      [done | done | by rewrite Hc | | done].
    rewrite reconciles_app, length_app, (qi_reconcile q Hq), Hr. done.
  - by apply queue_inv_close.
  - by apply queue_inv_run_section.
  - by apply queue_inv_finish.
  - unfold post_clear in H0. simpl in H0. destruct (q_closed q) eqn:Hc; [done|].
    simplify_eq/=. eapply queue_inv_self; [done | done | apply qstate_eta | | done].
    by apply count_no_reconcile.
Qed.

Lemma queue_inv_reachable (pre : ptr -> ptr -> strim_controller -> Z) (c0 : strim_controller)
    (tr : list label) (s : sys) :
  reachable pre c0 tr s -> queue_inv (sq s).
Proof.
  induction 1 as [|tr s1 l s2 _ IH Hstep]; [|by eapply queue_inv_step].
  split; unfold pending, waiting; simpl; try done; [apply NoDup_nil_2|].
  intros t. rewrite lookup_empty. split; [inversion 1 | naive_solver].
Qed.

(** ** The queue serves every submitter *)

(** How many moves of the queue thread its current position still takes. *)
Definition pc_cost (pc : qpc) : nat :=
  match pc with
  | QTop | QAsleep | QDone => 0
  | QStart _ => 7
  | QReconcile _ idx | QTeardown _ idx => 2 + length idx
  | QReply _ _ => 1
  end.

Fixpoint position (t : nat) (es : list qentry) : nat :=
  match es with
  | [] => 0
  | e :: es' => if bool_decide (qe_owner e = Some t) then 0 else S (position t es')
  end.

(** Moves of the queue thread before the action of [t] is answered. *)
Definition work (t : nat) (q : qstate) : nat :=
  pc_cost (q_pc q) +
  match pc_entry (q_pc q) with
  | Some e => if bool_decide (qe_owner e = Some t) then 0
              else 8 * S (position t (q_actions q))
  | None => 8 * S (position t (q_actions q))
  end.

Lemma position_app (t : nat) (es es' : list qentry) :
  t ∈ owners es -> position t (es ++ es') = position t es.
Proof.
  unfold owners. induction es as [|e es IH]; simpl; [inversion 1|].
  case_bool_decide as E; [done|]. destruct (qe_owner e) as [x|].
  - rewrite elem_of_cons. intros [->|Hin]; [done | by rewrite IH].
  - intros Hin. by rewrite IH.
Qed.

Lemma position_bound (t : nat) (es : list qentry) : (position t es <= length es)%nat.
Proof. induction es; simpl; [done|]. case_bool_decide; lia. Qed.

(** The wait of [t] is over: it has its reply and is awake to see it. *)
Definition answered (t : nat) (q : qstate) : Prop :=
  exists r, q_subs q !! t = Some (Replied false r).

Definition cost (l : label) : nat := if queue_label l then 1 else 0.

Lemma work_similar (t : nat) (q q' : qstate) : q_similar q q' -> work t q' = work t q.
Proof.
  intros Hs. unfold work. rewrite (similar_pc_entry _ _ Hs), (qs_actions _ _ Hs).
  destruct (qs_pc _ _ Hs) as [->|[-> ->]]; done.
Qed.

Lemma waiting_similar (t : nat) (q q' : qstate) : q_similar q q' -> waiting t q -> waiting t q'.
Proof. intros Hs. by apply (qs_waiting _ _ Hs). Qed.

Lemma work_push (t : nat) (q q' : qstate) (e : qentry) :
  queue_inv q -> waiting t q -> q_actions q' = q_actions q ++ [e] ->
  pc_entry (q_pc q') = pc_entry (q_pc q) -> pc_cost (q_pc q') = pc_cost (q_pc q) ->
  work t q' = work t q.
Proof.
  intros Hq Ht Ha He Hc. unfold work. rewrite Ha, He, Hc. f_equal.
  apply (qi_waiting q Hq) in Ht. unfold pending, owners in Ht.
  destruct (pc_entry (q_pc q)) as [e'|]; simpl in Ht.
  - case_bool_decide as E; [done|]. rewrite position_app; [done|].
    destruct (qe_owner e'); [|done]. apply elem_of_cons in Ht as [->|]; done.
  - by rewrite position_app.
Qed.

Lemma similar_pc_cost (q q' : qstate) :
  q_similar q q' -> pc_cost (q_pc q') = pc_cost (q_pc q).
Proof. intros [_ _ _ [->|[-> ->]] _ _]; done. Qed.

Lemma work_pc (t : nat) (q : qstate) (pc : qpc) :
  pc_entry pc = pc_entry (q_pc q) -> (pc_cost pc < pc_cost (q_pc q))%nat ->
  (work t (set_pc pc q) + 1 <= work t q)%nat.
Proof. intros He Hc. unfold work. cbn [set_pc q_pc q_actions]. rewrite He. lia. Qed.

Lemma work_run_section (t : nat) (q : qstate) :
  queue_inv q -> waiting t q -> q_pc q = QTop ->
  (work t (run_section q) + cost (run_label q) <= work t q)%nat.
Proof.
  intros Hq Ht Hpc. apply (qi_waiting q Hq) in Ht. unfold pending in Ht. rewrite Hpc in Ht.
  simpl in Ht. unfold run_section, run_label, work, cost. rewrite Hpc.
  destruct (q_actions q) as [|e rest]; [inversion Ht|]. simpl.
  case_bool_decide; simpl; lia.
Qed.

Lemma finish_serves (t : nat) (q : qstate) (e : qentry) (r : reply) :
  waiting t q -> q_pc q = QReply e r ->
  (waiting t (finish_action e r q) /\ (work t (finish_action e r q) + 1 <= work t q)%nat) \/
  answered t (finish_action e r q).
Proof.
  intros Ht Hpc. unfold finish_action.
  destruct (decide (qe_owner e = Some t)) as [Ho|Ho].
  - rewrite Ho. right. exists r. destruct Ht as [b Hb]. simpl.
    by rewrite lookup_fmap, lookup_alter_eq, Hb.
  - left. assert (Hw : (work t (set_pc QTop q) + 1 <= work t q)%nat).
    { unfold work. rewrite Hpc. simpl. rewrite bool_decide_false by done. lia. }
    destruct (qe_owner e) as [x|]; [|done]. split.
    + eapply waiting_similar; [apply similar_broadcast|].
      apply (waiting_stored x t r (set_pc QTop q)). split; [congruence|done].
    + by rewrite (work_similar _ _ _ (similar_broadcast _)).
Qed.

Lemma work_step (pre : ptr -> ptr -> strim_controller -> Z) (s s' : sys) (l : label) (t : nat) :
  step pre s l s' -> queue_inv (sq s) -> waiting t (sq s) ->
  (waiting t (sq s') /\ (work t (sq s') + cost l <= work t (sq s))%nat) \/ answered t (sq s').
Proof.
  intros Hstep Hq Ht. unfold cost.
  assert (Hsim : forall q', q_similar (sq s) q' ->
    waiting t q' /\ (work t q' + 0 <= work t (sq s))%nat).
  { intros q' Hs. split; [by eapply waiting_similar|]. rewrite (work_similar _ _ _ Hs). lia. }
  assert (Hpush : forall q0 e q', q_actions q0 = q_actions (sq s) -> q_pc q0 = q_pc (sq s) ->
    q_subs q0 = q_subs (sq s) -> q_similar (enqueue_locked e q0) q' ->
    waiting t q' /\ (work t q' + 0 <= work t (sq s))%nat).
  { intros q0 e q' E1 E2 E3 Hs. split.
    - eapply waiting_similar; [exact Hs|]. unfold waiting. simpl. by rewrite E3.
    - rewrite (work_similar _ _ _ Hs), Nat.add_0_r.
      rewrite (work_push t (sq s) _ e); simpl; rewrite ?E1, ?E2; done. }
  destruct Hstep; cbn [sq queue_label strim_controller_begin_shutdown strim_controller_close] in *;
    try (left; split; [done | lia]);
    try (left; split; [done | apply work_pc; rewrite H; simpl; try case_match; simpl; (done || lia)]);
    try (left; apply Hsim; first
      [ eapply similar_toggle; by eauto
      | eapply (similar_toggle q _ (Waiting false) true); by eauto
      | by apply similar_wake_queue ]).
  - left. apply similar_signal in H3. unfold queue_submit in H2.
    destruct (q_closed q); simplify_eq. destruct (Hpush _ _ _ eq_refl eq_refl eq_refl H3).
    split; [|done]. apply waiting_insert. right. split; [|done].
    intros ->. destruct Ht. congruence.
  - left. split; [|unfold work; simpl; lia].
    unfold waiting in *; simpl. rewrite lookup_delete_ne; [done|].
    intros ->. destruct Ht. congruence.
  - left. unfold strim_controller_request_reconcile in H. simpl in H.
    destruct (q_closed q || reconcile_queued q); simplify_eq.
    apply similar_signal in H0. by eapply Hpush, H0.
  - left. pose proof (similar_broadcast (QState (q_actions q) true (reconcile_queued q) (q_pc q) (q_subs q))) as Hs.
    split; [by eapply waiting_similar|].
    unfold close_queue. rewrite (work_similar _ _ _ Hs). unfold work; simpl; lia.
  - left. split; [|by apply work_run_section].
    unfold run_section. by destruct (q_actions q).
  - by apply finish_serves.
  - left. unfold post_clear in H0. simpl in H0. destruct (q_closed q); simplify_eq.
    apply similar_signal in H1. by eapply Hpush, H1.
Qed.

(** A waiting submitter finds the queue thread able to move. *)
Lemma queue_thread_enabled (pre : ptr -> ptr -> strim_controller -> Z) (s : sys) (t : nat) :
  queue_inv (sq s) -> waiting t (sq s) ->
  exists l s', queue_label l = true /\ step pre s l s'.
Proof.
  intros Hq Ht. destruct s as [c sd q p]; simpl in *.
  destruct (q_pc q) as [| |e|e [|i idx]|e [|i idx]|e r|] eqn:Hpc.
  - exists (run_label q). eexists. split; [by unfold run_label; destruct (q_actions q)|].
    by constructor.
  - by destruct (asleep_nobody_waits q Hq (or_introl Hpc) t).
  - destruct (qe_act e) eqn:Ea.
    7: { eexists _, _. split; [|by eapply step_reconcile_start]. done. }
    8: { eexists _, _. split; [|by eapply step_teardown_start]. done. }
    all: destruct (run_action pre sd no_oracle c (qe_act e)) as [[rp c'] ef] eqn:Er;
      eexists _, _; (split; [|eapply (step_handler _ c c'); [done | by rewrite Ea..| done]]);
      done.
  - eexists _, _. split; [|by eapply step_reconcile_end]. done.
  - destruct (reconcile_stage (FireOracle sd 0 0 true 1) i c) as [c' ef] eqn:Er.
    exists (LReconcile i (FireOracle sd 0 0 true 1)). eexists. split; [done|].
    by eapply step_reconcile_stage; try done.
  - eexists _, _. split; [|by eapply step_teardown_end]. done.
  - destruct (teardown_stage i c) as [c' ef] eqn:Er.
    eexists _, _. split; [|by eapply step_teardown_stage]. done.
  - eexists _, _. split; [|by eapply step_finish]. done.
  - by destruct (asleep_nobody_waits q Hq (or_intror Hpc) t).
Qed.

Definition queue_moves (tr : list label) : nat := list_sum (map cost tr).

Lemma exec_trans (pre : ptr -> ptr -> strim_controller -> Z) (s1 s2 s3 : sys)
    (tr1 tr2 : list label) :
  exec pre s1 tr1 s2 -> exec pre s2 tr2 s3 -> exec pre s1 (tr1 ++ tr2) s3.
Proof.
  intros H1. induction 1 as [|tr s l s' _ IH Hs]; [by rewrite app_nil_r|].
  rewrite app_assoc. by econstructor.
Qed.

Lemma queue_inv_exec (pre : ptr -> ptr -> strim_controller -> Z) (s s' : sys) (tr : list label) :
  exec pre s tr s' -> queue_inv (sq s) -> queue_inv (sq s').
Proof. induction 1; [done|]. intros. eapply queue_inv_step; eauto. Qed.

Lemma wait_is_bounded (pre : ptr -> ptr -> strim_controller -> Z) (s s' : sys)
    (tr : list label) (t : nat) :
  queue_inv (sq s) -> waiting t (sq s) -> exec pre s tr s' ->
  (waiting t (sq s') /\ (work t (sq s') + queue_moves tr <= work t (sq s))%nat) \/
  exists tr1 tr2 s1, tr = tr1 ++ tr2 /\ exec pre s tr1 s1 /\ answered t (sq s1).
Proof.
  intros Hq Ht. induction 1 as [|tr s1 l s2 Hex IH Hs]; [left; split; [done | change (queue_moves []) with 0%nat; lia]|].
  destruct IH as [[Hw Hle]|(tr1 & tr2 & s3 & -> & Hex1 & Ha)].
  - destruct (work_step _ _ _ _ t Hs (queue_inv_exec _ _ _ _ Hex Hq) Hw) as [[Hw' Hle']|Ha].
    + left. split; [done|]. unfold queue_moves in *. rewrite map_app, list_sum_app.
      change (list_sum (map cost [l])) with (cost l + 0)%nat. lia.
    + right. exists (tr ++ [l]), [], s2. rewrite app_nil_r. split_and!; [done| |done].
      by econstructor.
  - right. exists tr1, (tr2 ++ [l]), s3. by rewrite app_assoc.
Qed.

(** The queue thread is at most seven moves from the end of its action. *)
Lemma pc_cost_step (pre : ptr -> ptr -> strim_controller -> Z) (s s' : sys) (l : label) :
  step pre s l s' -> (pc_cost (q_pc (sq s)) <= 7)%nat -> (pc_cost (q_pc (sq s')) <= 7)%nat.
Proof.
  intros Hstep Hc. destruct Hstep; simpl in *;
    repeat match goal with
    | H : signal_q _ _ |- _ => apply similar_signal, similar_pc_cost in H
    | H : q_pc _ = _ |- _ => rewrite H in Hc; simpl in Hc
    end; try (done || lia).
  - unfold queue_submit in H2. destruct (q_closed q); simplify_eq/=. lia.
  - unfold strim_controller_request_reconcile in H. simpl in H.
    destruct (q_closed q || reconcile_queued q); simplify_eq/=. lia.
  - unfold broadcast_q; simpl. destruct (q_pc q) eqn:E; simpl in *; rewrite ?E; simpl; lia.
  - unfold run_section. destruct (q_actions q); simpl; [destruct (q_closed q); simpl|]; lia.
  - destruct sd; simpl; lia.
  - unfold finish_action. destruct (qe_owner e); simpl; lia.
  - by rewrite H0.
  - unfold post_clear in H0. simpl in H0. destruct (q_closed q); simplify_eq/=. lia.
Qed.

Lemma pc_cost_reachable (pre : ptr -> ptr -> strim_controller -> Z) (c0 : strim_controller)
    (tr : list label) (s : sys) :
  reachable pre c0 tr s -> (pc_cost (q_pc (sq s)) <= 7)%nat.
Proof. induction 1; [simpl; lia | by eapply pc_cost_step]. Qed.

Lemma work_bound (t : nat) (q : qstate) :
  (work t q <= pc_cost (q_pc q) + 8 * S (length (q_actions q)))%nat.
Proof.
  unfold work. pose proof (position_bound t (q_actions q)).
  destruct (pc_entry (q_pc q)); [case_bool_decide|]; lia.
Qed.

(** C3: no submitter is ever lost.  In every reachable state a thread blocked
    in [queue_submit] finds the queue thread able to move (it is never asleep
    or gone while an action is pending, whatever wake-ups the scheduler
    chose), and the thread is answered within [work] moves of the queue
    thread, at most eight per action queued before its own; so any execution
    with more queue-thread moves than that passes through a state in which
    the thread's reply is stored and the thread is awake (no wake-up is
    lost): its next step returns that reply. *)
Theorem submitters_are_served (pre : ptr -> ptr -> strim_controller -> Z)
    (c0 : strim_controller) (tr0 tr : list label) (s s' : sys) (t : nat) :
  reachable pre c0 tr0 s -> waiting t (sq s) ->
  (exists l s1, queue_label l = true /\ step pre s l s1) /\
  (work t (sq s) <= 7 + 8 * S (length (q_actions (sq s))))%nat /\
  (exec pre s tr s' -> (work t (sq s) < queue_moves tr)%nat ->
   exists tr1 tr2 s1 r s2, tr = tr1 ++ tr2 /\ exec pre s tr1 s1 /\
     step pre s1 (LReturn t r) s2).
Proof.
  intros Hr Ht. pose proof (queue_inv_reachable _ _ _ _ Hr) as Hq. split_and!.
  - by eapply queue_thread_enabled.
  - pose proof (work_bound t (sq s)). pose proof (pc_cost_reachable _ _ _ _ Hr). lia.
  - intros Hex Hlt. destruct (wait_is_bounded _ _ _ _ _ Hq Ht Hex)
      as [[_ ?]|(tr1 & tr2 & [c sd q p] & -> & Hex1 & r & Ha)]; [lia|].
    exists tr1, tr2, (Sys c sd q p), r. eexists. split_and!; [done.. |]. by apply step_sub_return.
Qed.
