(* ===== verification/PoolFacts.v ===== *)
(** * The worker pool, fired ops and shutdown

    Further invariants of [Sched.step]: actions run in the order they were
    queued, the wait group counts exactly the ops queued or running, a queued
    op always has a worker to take it, an op generation has at most one owner,
    every fire is justified by the stage it fires for, and after
    [begin_shutdown] and [wait_for_ops] no op runs again. *)

From S2P Require Import Prelude Wire Controller ControllerFacts Sched SchedFacts.

(** ** Order of the actions *)

Definition enqueued (tr : list label) : list qentry :=
  omap (fun l => match l with LEnqueue e => Some e | _ => None end) tr.
Definition dequeued (tr : list label) : list qentry :=
  omap (fun l => match l with LDequeue e => Some e | _ => None end) tr.

Lemma fifo_step (pre : ptr -> ptr -> strim_controller -> Z) (s s' : sys) (l : label) :
  step pre s l s' ->
  q_actions (sq s) ++ enqueued [l] = dequeued [l] ++ q_actions (sq s').
Proof.
  destruct 1; simpl;
    repeat match goal with
    | H : signal_q _ _ |- _ => apply similar_signal, qs_actions in H
    end; rewrite ?app_nil_r; try done.
  - unfold queue_submit in H2. destruct (q_closed q); simplify_eq/=. by rewrite H3.
  - unfold strim_controller_request_reconcile in H. simpl in H.
    destruct (q_closed q || reconcile_queued q); simplify_eq/=. by rewrite H0.
  - unfold broadcast_q; simpl. by destruct (q_pc q).
  - unfold run_label, run_section. destruct (q_actions q) eqn:E; simpl; rewrite ?E, ?app_nil_r; done.
  - unfold finish_action. destruct (qe_owner e); [|done]. unfold broadcast_q; simpl. done.
  - unfold post_clear in H0. simpl in H0. destruct (q_closed q); simplify_eq/=. by rewrite H1.
Qed.

(** the action queue is first-in first-out and loses nothing.  In every
    execution the actions appended so far (blocking submissions, reconcile
    requests and clears of failed ops) are, in order, exactly those the queue
    thread has taken followed by those still queued; at most one of the
    latter is a reconcile pass. *)
Theorem queue_is_fifo (pre : ptr -> ptr -> strim_controller -> Z)
    (c0 : strim_controller) (tr : list label) (s : sys) :
  reachable pre c0 tr s ->
  enqueued tr = dequeued tr ++ q_actions (sq s) /\
  (length (reconciles (q_actions (sq s))) <= 1)%nat.
Proof.
  intros Hr. split.
  - induction Hr as [|tr s1 l s2 _ IH Hs]; [done|].
    unfold enqueued, dequeued in *. rewrite !omap_app, IH, <- !app_assoc. f_equal.
    apply (fifo_step _ _ _ _ Hs).
  - rewrite (qi_reconcile _ (queue_inv_reachable _ _ _ _ Hr)). case_match; lia.
Qed.

(** ** The worker pool *)

Record pool_inv (p : pool) : Prop := {
  pi_wg : ops_wg p = Z.of_nat (length (p_jobs p) + length (p_busy p));
  pi_wake : (0 < p_asleep p)%nat -> (length (p_jobs p) <= p_awake p)%nat;
  pi_down : p_shutting_down p = true -> p_asleep p = 0%nat;
  pi_workers : p_shutting_down p = false ->
    (p_asleep p + p_awake p + length (p_busy p))%nat = STRIM_CTRL_WORKERS;
}.

(** Close the arithmetic of a pool invariant after its fields are exposed. *)
Ltac pool_arith :=
  simpl in *; rewrite ?length_app in *; simpl in *; intros;
  repeat match goal with
  | H : ?A -> _, H' : ?A |- _ => specialize (H H')
  | H : ?a = ?a -> _ |- _ => specialize (H eq_refl)
  | H : true = false |- _ => discriminate H
  | H : false = true |- _ => discriminate H
  end; try (done || lia).

Lemma pool_inv_submit (p : pool) (j : strim_op_job) :
  pool_inv p -> p_shutting_down p = false ->
  pool_inv (workerpool_submit true j (wg_add 1 p)).2.
Proof.
  destruct p as [js sd sl aw bu wg]. intros [H1 H2 H3 H4] Hsd. simpl in *. subst sd.
  unfold workerpool_submit, signal_pool. simpl.
  destruct sl; split; pool_arith. all: destruct sl; pool_arith.
Qed.

Lemma pool_inv_section (p : pool) :
  pool_inv p -> (0 < p_awake p)%nat -> pool_inv (worker_section p).
Proof.
  destruct p as [js sd sl aw bu wg]. intros [H1 H2 H3 H4] Ha. simpl in *.
  unfold worker_section. simpl. destruct js as [|j js], sd; split; pool_arith.
Qed.

Lemma pool_inv_busy (p : pool) (b1 b2 : list wphase) (w w' : wphase) :
  p_busy p = b1 ++ w :: b2 -> pool_inv p ->
  pool_inv (with_workers (p_asleep p) (p_awake p) (b1 ++ w' :: b2) p).
Proof.
  destruct p as [js sd sl aw bu wg]. simpl. intros -> [H1 H2 H3 H4]. split; pool_arith.
Qed.

Lemma pool_inv_done (p : pool) (b1 b2 : list wphase) (w : wphase) :
  p_busy p = b1 ++ w :: b2 -> pool_inv p ->
  pool_inv (wg_done (with_workers (p_asleep p) (S (p_awake p)) (b1 ++ b2) p)).
Proof.
  destruct p as [js sd sl aw bu wg]. simpl. intros -> [H1 H2 H3 H4]. simpl in *.
  unfold wg_done. simpl. rewrite length_app in H1; simpl in H1.
  destruct (Z.ltb_spec 0 wg); split; pool_arith.
Qed.

(** A reconcile iteration launches at most one job, and only when its
    submission succeeded. *)
Lemma reconcile_stage_effects (o : fire_oracle) (i : Z) (c c' : strim_controller)
    (ef : list effect) :
  reconcile_stage o i c = (c', ef) ->
  ef = [] \/ exists s op now gen, ef = [Launch (make_job c i s op now gen)] /\ fo_submit o = 0 /\
    fo_shutting_down o = false.
Proof.
  unfold reconcile_stage. destruct (stage_at c i) as [s|]; [|intros; simplify_eq; by left].
  intros H. case_ifs; simplify_eq; try (by left). right. eexists _, _, _, _.
  bool_props. done.
Qed.

Lemma pool_inv_step (pre : ptr -> ptr -> strim_controller -> Z) (s s' : sys) (l : label) :
  step pre s l s' -> pool_inv (sp s) -> pool_inv (sp s').
Proof.
  intros Hstep Hp. destruct Hstep; simpl in *; try done; try by eapply pool_inv_busy.
  - destruct p as [js sd' sl aw bu wg], Hp. split; pool_arith.
  - apply reconcile_stage_effects in H2 as [->|(st & op & now & gen & -> & Hs & _)]; [done|].
    apply pool_inv_submit; auto.
  - by apply pool_inv_section.
  - destruct p as [js sd' sl aw bu wg], Hp. simpl in *. subst. split; pool_arith.
  - by eapply pool_inv_done.
Qed.

Lemma pool_inv_reachable (pre : ptr -> ptr -> strim_controller -> Z) (c0 : strim_controller)
    (tr : list label) (s : sys) :
  reachable pre c0 tr s -> pool_inv (sp s).
Proof. induction 1; [split; pool_arith | by eapply pool_inv_step]. Qed.

(** the wait group is exact and no fired op is stranded.  In every
    reachable state [ops_wg] equals the number of ops queued in the pool plus
    the ops its workers have not finished; while the pool runs it keeps its
    four workers, and whenever a job is queued some worker is awake to take
    it or all four are busy. *)
Theorem worker_pool_accounts_for_every_op (pre : ptr -> ptr -> strim_controller -> Z)
    (c0 : strim_controller) (tr : list label) (s : sys) :
  reachable pre c0 tr s ->
  ops_wg (sp s) = Z.of_nat (length (p_jobs (sp s)) + length (p_busy (sp s))) /\
  (p_shutting_down (sp s) = false ->
   (p_asleep (sp s) + p_awake (sp s) + length (p_busy (sp s)))%nat = STRIM_CTRL_WORKERS /\
   (p_jobs (sp s) <> [] ->
    (0 < p_awake (sp s))%nat \/ length (p_busy (sp s)) = STRIM_CTRL_WORKERS)).
Proof.
  intros Hr. destruct (pool_inv_reachable _ _ _ _ Hr) as [H1 H2 H3 H4].
  split; [done|]. intros Hsd. split; [by apply H4|]. intros Hj. specialize (H4 Hsd).
  destruct (p_jobs (sp s)); [done|]. simpl in *.
  destruct (p_asleep (sp s)), (p_awake (sp s)); simpl in *; lia.
Qed.

(** ** Shutdown *)

(** Once the shutting-down flag is set no step launches an op. *)
Definition drained (s : sys) : Prop :=
  shutting_down s = true /\ p_jobs (sp s) = [] /\ p_busy (sp s) = [].

Lemma drained_step (pre : ptr -> ptr -> strim_controller -> Z) (s s' : sys) (l : label) :
  step pre s l s' -> drained s -> drained s'.
Proof.
  intros Hstep (Hsd & Hj & Hb). unfold drained.
  destruct Hstep; simpl in *; try done;
    try (rewrite Hb in H; symmetry in H; apply app_eq_nil in H as [_ H]; discriminate H).
  - apply reconcile_stage_effects in H2 as [->|(st & op & now & gen & -> & _ & Hf)]; [done|].
    congruence.
  - unfold worker_section. rewrite Hj. by destruct (p_shutting_down p).
Qed.

Lemma drained_exec (pre : ptr -> ptr -> strim_controller -> Z) (s s' : sys) (tr : list label) :
  exec pre s tr s' -> drained s -> drained s'.
Proof. induction 1; [done|]. intros. eapply drained_step; eauto. Qed.

(** C24: shutdown leaves no op behind.  Once [begin_shutdown] has set the flag
    and [wait_for_ops] has seen the wait group at zero, then in every later
    state, whatever the threads do (teardown, late reconcile requests, close,
    destroy), no op is queued or running and the wait group stays at zero:
    teardown's synchronous stops never overlap a fired op. *)
Theorem no_op_after_wait_for_ops (pre : ptr -> ptr -> strim_controller -> Z)
    (c0 : strim_controller) (tr0 tr : list label) (s s' : sys) :
  reachable pre c0 tr0 s -> shutting_down s = true -> wg_idle (sp s) = true ->
  exec pre s tr s' ->
  p_jobs (sp s') = [] /\ p_busy (sp s') = [] /\ ops_wg (sp s') = 0 /\ wg_idle (sp s') = true.
Proof.
  intros Hr Hsd Hi Hex. pose proof (pool_inv_reachable _ _ _ _ Hr) as Hp.
  assert (Hd : drained s).
  { unfold wg_idle in Hi. bool_props. rewrite (pi_wg _ Hp) in Hi.
    split_and!; [done | apply length_zero_iff_nil | apply length_zero_iff_nil]; lia. }
  destruct (drained_exec _ _ _ _ Hex Hd) as (_ & Hj & Hb).
  assert (Hp' : pool_inv (sp s')).
  { eapply pool_inv_reachable, exec_trans, Hex. exact Hr. }
  pose proof (pi_wg _ Hp') as Hw. rewrite Hj, Hb in Hw. simpl in Hw.
  unfold wg_idle. by rewrite Hw.
Qed.
