(* ===== verification/GenFacts.v ===== *)
(** * Generations of fired ops

    Every fire of a stage takes a fresh generation number, so among the ops
    queued or running for a stage at most one is not superseded, a
    generation-stamped clear is only queued once its op has returned, and
    each fire is justified by the state of its stage. *)

From S2P Require Import Prelude Wire Controller ControllerFacts Sched SchedFacts PoolFacts.

(** ** How handlers change generations *)
Lemma live_generation_update (c : strim_controller) (i j : Z) (f : strim_stage -> strim_stage) :
  (forall s, s_op_generation (f s) = s_op_generation s) ->
  live_generation (update_stage i f c) j = live_generation c j.
Proof.
  intros Hf. unfold live_generation, stage_at, update_stage, with_stages; simpl.
  destruct (decide (Z.to_nat j = Z.to_nat i)) as [E|].
  - rewrite E, list_lookup_alter_eq. destruct (c_stages c !! _); simpl; [apply Hf | done].
  - by rewrite list_lookup_alter_ne.
Qed.

Lemma apply_desired_generation (pre : ptr -> ptr -> strim_controller -> Z)
    (c : strim_controller) (r : strim_route) (i : Z) :
  live_generation (apply_desired_stage_target pre c r).1.2 i = live_generation c i.
Proof.
  unfold apply_desired_stage_target. destruct (stage_at c _); [|done].
  case_ifs; simpl; try done. by apply live_generation_update.
Qed.

Lemma run_action_generation (pre : ptr -> ptr -> strim_controller -> Z) (sd : bool)
    (o : Z -> fire_oracle) (c : strim_controller) (a : strim_action) (i : Z) :
  a <> ACTION_RECONCILE -> a <> ACTION_TEARDOWN ->
  live_generation (run_action pre sd o c a).1.2 i = live_generation c i.
Proof.
  intros Hr Ht. destruct a; cbn [run_action]; try done.
  - unfold strim_controller_handle_path_event. case_ifs; try done.
    set (c1 := with_paths _ c).
    change (live_generation c i) with (live_generation c1 i).
    destruct (find_path_event_route _ _ _) as [r|]; [|done].
    rewrite <- (apply_desired_generation pre c1 r i).
    by destruct (apply_desired_stage_target pre c1 r) as [[]].
  - unfold strim_controller_handle_control. case_ifs; try done.
    destruct (find_control_route _ _ _) as [r|]; [|done].
    rewrite <- (apply_desired_generation pre c r i).
    by destruct (apply_desired_stage_target pre c r) as [[]].
  - unfold strim_controller_handle_stage_event. case_ifs; try done.
    destruct (stage_at c _); [|done]. by apply live_generation_update.
  - by destruct out.
  - unfold handle_add_listener. by case_ifs.
  - unfold handle_remove_listener. by destruct (remove_first_listener _ _ _).
  - unfold clear_inflight. destruct (stage_at c _); [|done].
    case_ifs; [|done]. by apply live_generation_update.
Qed.

Definition gen_bounded (n : Z) (c : strim_controller) : Prop :=
  forall i, 0 <= live_generation c i <= n.

Lemma live_generation_at (c : strim_controller) (i j : Z) (s : strim_stage)
    (f : strim_stage -> strim_stage) :
  0 <= i -> 0 <= j -> stage_at c i = Some s ->
  live_generation (update_stage i f c) j =
  if j =? i then s_op_generation (f s) else live_generation c j.
Proof.
  intros Hi Hj Hs. unfold live_generation. destruct (Z.eqb_spec j i) as [->|].
  - by rewrite stage_at_update_eq, Hs.
  - by rewrite stage_at_update_ne by done.
Qed.

(** One iteration of the reconcile loop, as far as generations go: nothing
    moves unless a job is launched, and the job carries the new generation. *)
Lemma reconcile_stage_generation (o : fire_oracle) (i : Z) (c c' : strim_controller)
    (ef : list effect) (n : Z) :
  0 <= i -> gen_bounded n c -> n + 1 < 2 ^ 64 -> reconcile_stage o i c = (c', ef) ->
  (ef = [] /\ forall j, 0 <= j -> live_generation c' j = live_generation c j) \/
  (exists job, ef = [Launch job] /\ j_stage job = i /\
     j_generation job = live_generation c i + 1 /\
     forall j, 0 <= j -> live_generation c' j =
       if j =? i then live_generation c i + 1 else live_generation c j).
Proof.
  intros Hi Hb Hn. unfold reconcile_stage. destruct (stage_at c i) as [s|] eqn:Es;
    [|intros; simplify_eq; by left].
  assert (Hg : live_generation c i = s_op_generation s) by (unfold live_generation; by rewrite Es).
  pose proof (Hb i) as Hbi. rewrite Hg in Hbi.
  intros H. case_ifs; simplify_eq; try (left; split; [done|]; intros j Hj; done).
  - left. split; [done|]. intros j Hj. by apply live_generation_update.
  - left. split; [done|]. intros j Hj. rewrite update_stage_update.
    rewrite (live_generation_at c i j s) by done.
    destruct (Z.eqb_spec j i) as [->|]; [|done]. simpl. rewrite Hg.
    rewrite (wrap_small 64 (s_op_generation s + 1)) by lia. rewrite wrap_small; lia.
  - right. eexists. split_and!; [done | done | |].
    + simpl. rewrite wrap_small by lia. by rewrite Hg.
    + intros j Hj. rewrite (live_generation_at c i j s) by done.
      destruct (j =? i); [|done]. simpl. rewrite wrap_small by lia. by rewrite Hg.
Qed.

Lemma teardown_stage_generation (i : Z) (c c' : strim_controller) (ef : list effect) (n : Z) :
  0 <= i -> gen_bounded n c -> n + 1 < 2 ^ 64 -> teardown_stage i c = (c', ef) ->
  forall j, 0 <= j ->
  live_generation c j <= live_generation c' j <= live_generation c j + 1.
Proof.
  intros Hi Hb Hn. unfold teardown_stage. destruct (stage_at c i) as [s|] eqn:Es;
    [|intros; simplify_eq; lia].
  assert (Hg : live_generation c i = s_op_generation s) by (unfold live_generation; by rewrite Es).
  pose proof (Hb i) as Hbi. rewrite Hg in Hbi.
  intros H j Hj. case_ifs; simplify_eq; [lia|].
  rewrite (live_generation_at c i j s) by done. destruct (Z.eqb_spec j i) as [->|]; [|lia].
  simpl. rewrite wrap_small by lia. lia.
Qed.

(** ** The generation invariant *)

Definition active_job (w : wphase) : option strim_op_job :=
  match w with WRunning j | WPosting j => Some j | WFinishing _ => None end.

(** The ops queued, running, or about to post their clear. *)
Definition active (p : pool) : list strim_op_job := p_jobs p ++ omap active_job (p_busy p).

Definition job_key (j : strim_op_job) : Z * Z := (j_stage j, j_generation j).

Definition clear_key (e : qentry) : option (Z * Z) :=
  match qe_act e with ACTION_CLEAR_INFLIGHT i g => Some (i, g) | _ => None end.

(** The (stage, generation) pairs in use: active ops and pending clears. *)
Definition keys (q : qstate) (p : pool) : list (Z * Z) :=
  map job_key (active p) ++ omap clear_key (pending q).

Definition pc_indices (pc : qpc) : list Z :=
  match pc with QReconcile _ idx | QTeardown _ idx => idx | _ => [] end.

Record gen_inv (n : Z) (s : sys) : Prop := {
  gi_bounded : gen_bounded n (ctl s);
  gi_nodup : NoDup (keys (sq s) (sp s));
  gi_live : forall k, k ∈ keys (sq s) (sp s) ->
    0 <= k.1 /\ k.2 <= live_generation (ctl s) k.1;
  gi_pc : Forall (fun i => 0 <= i) (pc_indices (q_pc (sq s)));
}.

Lemma gen_bounded_mono (n m : Z) (c : strim_controller) :
  n <= m -> gen_bounded n c -> gen_bounded m c.
Proof. intros Hle H i. specialize (H i). lia. Qed.

Lemma submseteq_nodup {A} (l k : list A) : l ⊆+ k -> NoDup k -> NoDup l.
Proof. intros [k' Hk]%submseteq_Permutation. rewrite Hk, NoDup_app. by intros []. Qed.

(** A step that launches nothing keeps the keys among the old ones. *)
Lemma gen_inv_shrink (n : Z) (s s' : sys) :
  gen_inv n s -> keys (sq s') (sp s') ⊆+ keys (sq s) (sp s) ->
  (forall j, 0 <= j -> live_generation (ctl s) j <= live_generation (ctl s') j <= live_generation (ctl s) j + 1) ->
  Forall (fun i => 0 <= i) (pc_indices (q_pc (sq s'))) ->
  gen_inv (n + 1) s'.
Proof.
  intros [Hb Hnd Hl Hpc] Hsub Hg Hpc'. split; [ | | |done].
  - intros i. destruct (decide (0 <= i)).
    + specialize (Hb i). specialize (Hg i). lia.
    + specialize (Hb 0). specialize (Hg 0).
      replace (live_generation (ctl s') i) with (live_generation (ctl s') 0); [lia|].
      unfold live_generation, stage_at. by replace (Z.to_nat i) with 0%nat by lia.
  - by eapply submseteq_nodup.
  - intros k Hk. destruct (Hl k) as [H1 H2]; [by eapply elem_of_submseteq|].
    split; [done|]. specialize (Hg k.1 H1). lia.
Qed.

Lemma keys_similar (q q' : qstate) (p : pool) : q_similar q q' -> keys q' p = keys q p.
Proof. intros Hs. unfold keys. by rewrite (similar_pending _ _ Hs). Qed.

Lemma keys_enqueue (q : qstate) (e : qentry) (p : pool) :
  keys (enqueue_locked e q) p = keys q p ++ option_list (clear_key e).
Proof.
  unfold keys, pending. simpl. rewrite app_assoc, omap_app, <- app_assoc. f_equal.
Qed.

Lemma keys_run_section (q : qstate) (p : pool) :
  q_pc q = QTop -> keys (run_section q) p = keys q p.
Proof.
  intros Hpc. unfold keys, pending, run_section. rewrite Hpc.
  destruct (q_actions q) eqn:E; simpl; [|done]. rewrite E. by destruct (q_closed q).
Qed.

Lemma keys_pc (q : qstate) (pc : qpc) (p : pool) :
  pc_entry pc = pc_entry (q_pc q) -> keys (set_pc pc q) p = keys q p.
Proof. intros He. unfold keys, pending. simpl. by rewrite He. Qed.

Lemma keys_finish (q : qstate) (e : qentry) (r : reply) (p : pool) :
  q_pc q = QReply e r -> keys (finish_action e r q) p ⊆+ keys q p.
Proof.
  intros Hpc.
  assert (H : keys (set_pc QTop q) p ⊆+ keys q p).
  { unfold keys, pending. rewrite Hpc. simpl. apply submseteq_skips_l.
    destruct (clear_key e); [by apply submseteq_cons | done]. }
  unfold finish_action. destruct (qe_owner e); [|done].
  by rewrite (keys_similar _ _ p (similar_broadcast _)).
Qed.

Lemma keys_busy (q : qstate) (p : pool) (b1 b2 : list wphase) (w w' : wphase) (n m : nat) :
  p_busy p = b1 ++ w :: b2 -> active_job w' = active_job w \/ active_job w' = None ->
  keys q (with_workers n m (b1 ++ w' :: b2) p) ⊆+ keys q p.
Proof.
  intros Hb Hw. unfold keys, active. simpl. rewrite Hb, !omap_app. simpl.
  apply submseteq_skips_r. rewrite !map_app. apply submseteq_skips_l, submseteq_skips_l.
  destruct Hw as [-> | ->]; [done|]. destruct (active_job w); [by apply submseteq_cons | done].
Qed.

Lemma keys_worker_section (q : qstate) (p : pool) :
  keys q (worker_section p) ≡ₚ keys q p.
Proof.
  unfold keys, active, worker_section. destruct (p_jobs p) as [|j js] eqn:Ej; simpl.
  - destruct (p_shutting_down p); simpl; by rewrite Ej.
  - rewrite omap_app. simpl. rewrite !map_app. simpl.
    rewrite (Permutation_app_comm (map job_key (omap active_job (p_busy p))) [_]). simpl.
    by rewrite <- Permutation_middle.
Qed.

Lemma keys_done (q : qstate) (p : pool) (b1 b2 : list wphase) (j : strim_op_job) (n m : nat) :
  p_busy p = b1 ++ WFinishing j :: b2 ->
  keys q (wg_done (with_workers n m (b1 ++ b2) p)) = keys q p.
Proof.
  intros Hb. unfold keys, active, wg_done. destruct (0 <? _); simpl; by rewrite Hb, !omap_app.
Qed.

Lemma keys_post_clear (q q2 : qstate) (p : pool) (b1 b2 : list wphase) (j : strim_op_job)
    (n m : nat) :
  p_busy p = b1 ++ WPosting j :: b2 -> q_similar (enqueue_locked (clear_entry j) q) q2 ->
  keys q2 (with_workers n m (b1 ++ WFinishing j :: b2) p) ≡ₚ keys q p.
Proof.
  intros Hb Hs. rewrite (keys_similar _ _ _ Hs), keys_enqueue.
  unfold keys, active. simpl. rewrite Hb, !omap_app. simpl. rewrite !map_app. simpl.
  change (j_stage j, j_generation j) with (job_key j). solve_Permutation.
Qed.

Lemma keys_launch (q : qstate) (p : pool) (j : strim_op_job) :
  p_shutting_down p = false -> keys q (launch [Launch j] p) ≡ₚ job_key j :: keys q p.
Proof.
  intros Hsd. unfold launch, workerpool_submit, signal_pool. simpl. rewrite Hsd. simpl.
  destruct (p_asleep p); unfold keys, active; simpl; rewrite !map_app; simpl; solve_Permutation.
Qed.

Lemma keys_init (c : strim_controller) : keys (sq (init_sys c)) (sp (init_sys c)) = [].
Proof. done. Qed.

Lemma signal_push_keys (q q1 q2 : qstate) (e : qentry) (p : pool) :
  keys q1 p = keys q p -> clear_key e = None -> signal_q (enqueue_locked e q1) q2 ->
  keys q2 p = keys q p.
Proof.
  intros Hk He Hs. rewrite (keys_similar _ _ _ (similar_signal _ _ Hs)), keys_enqueue, He, Hk.
  apply app_nil_r.
Qed.

Lemma signal_pc_indices (q q2 : qstate) :
  signal_q q q2 -> Forall (fun i => 0 <= i) (pc_indices (q_pc q)) ->
  Forall (fun i => 0 <= i) (pc_indices (q_pc q2)).
Proof. intros Hs%similar_signal. destruct (qs_pc _ _ Hs) as [->|[_ ->]]; [done | constructor]. Qed.

(** The launch: the new key is fresh because it is above every live key. *)
Lemma gen_inv_launch (n : Z) (s s' : sys) (job : strim_op_job) :
  gen_inv n s -> 0 <= j_stage job ->
  keys (sq s') (sp s') ≡ₚ job_key job :: keys (sq s) (sp s) ->
  j_generation job = live_generation (ctl s) (j_stage job) + 1 ->
  (forall j, 0 <= j -> live_generation (ctl s') j =
     if j =? j_stage job then live_generation (ctl s) (j_stage job) + 1
     else live_generation (ctl s) j) ->
  Forall (fun i => 0 <= i) (pc_indices (q_pc (sq s'))) ->
  gen_inv (n + 1) s'.
Proof.
  intros Hg Hi Hk Hgen Hl Hpc.
  destruct (gen_inv_shrink n s (Sys (ctl s') (shutting_down s') (sq s) (sp s)) Hg) as [Hb' Hnd' Hl' _];
    simpl in *; [done | | apply Hg |].
  { intros j Hj. rewrite (Hl j Hj). destruct (Z.eqb_spec j (j_stage job)) as [->|]; lia. }
  split; [done | | | done].
  - rewrite Hk. constructor; [|apply Hg]. intros Hin. destruct (gi_live _ _ Hg _ Hin) as [_ Hle].
    simpl in Hle. lia.
  - intros k. rewrite Hk, elem_of_cons. intros [->|Hin]; [|by apply Hl'].
    simpl. split; [done|]. rewrite (Hl _ Hi), Z.eqb_refl. lia.
Qed.

Lemma gen_inv_submit (n : Z) (c : strim_controller) (sd : bool) (q q1 q2 : qstate) (p : pool)
    (t : nat) (a : strim_action) :
  gen_inv n (Sys c sd q p) -> blocking_action a = true ->
  queue_submit t a q = inr q1 -> signal_q q1 q2 ->
  gen_inv (n + 1) (Sys c sd (set_subs (<[t := Waiting true]> (q_subs q2)) q2) p).
Proof.
  intros Hg Ha Hq Hs. unfold queue_submit in Hq. destruct (q_closed q); simplify_eq.
  apply (gen_inv_shrink n _ _ Hg); simpl; [| intros; lia | eapply signal_pc_indices; [done | apply (gi_pc _ _ Hg)]].
  change (keys (set_subs _ q2) p) with (keys q2 p).
  erewrite (signal_push_keys q q q2); try done. by destruct a.
Qed.

Lemma gen_inv_request (n : Z) (c : strim_controller) (sd : bool) (q q1 q2 : qstate) (p : pool) :
  gen_inv n (Sys c sd q p) -> strim_controller_request_reconcile true q = Some q1 ->
  signal_q q1 q2 -> gen_inv (n + 1) (Sys c sd q2 p).
Proof.
  intros Hg Hq Hs. unfold strim_controller_request_reconcile in Hq. simpl in Hq.
  destruct (q_closed q || reconcile_queued q); simplify_eq.
  apply (gen_inv_shrink n _ _ Hg); simpl; [| intros; lia | eapply signal_pc_indices; [done | apply (gi_pc _ _ Hg)]].
  eapply signal_push_keys in Hs; [|reflexivity|reflexivity]. by rewrite Hs.
Qed.

Lemma gen_inv_reconcile_stage (n : Z) (c c' : strim_controller) (q : qstate) (p : pool)
    (e : qentry) (i : Z) (idx : list Z) (o : fire_oracle) (ef : list effect) (sd : bool) :
  gen_inv n (Sys c sd q p) -> n + 1 < 2 ^ 64 -> q_pc q = QReconcile e (i :: idx) ->
  (fo_submit o = 0 -> p_shutting_down p = false) -> reconcile_stage o i c = (c', ef) ->
  gen_inv (n + 1) (Sys c' sd (set_pc (QReconcile e idx) q) (launch ef p)).
Proof.
  intros Hg Hn H Hsub Hr. pose proof (gi_pc _ _ Hg) as Hpc. simpl in Hpc. rewrite H in Hpc.
  apply Forall_cons in Hpc as [Hi Hidx].
  destruct (reconcile_stage_generation o i c c' ef n) as [[-> Hl]|(job & -> & <- & Hgen & Hl)];
    [done | apply Hg | done | done | |].
  - apply (gen_inv_shrink n _ _ Hg); simpl; [by rewrite keys_pc by (by rewrite H) | | done].
    intros j Hj. rewrite (Hl j Hj). lia.
  - apply (gen_inv_launch n _ _ job Hg); cbn [sq sp ctl]; try done.
    rewrite keys_launch, keys_pc; [done | by rewrite H |].
    apply reconcile_stage_effects in Hr as [?|(? & ? & ? & ? & _ & ? & _)]; auto; done.
Qed.

Lemma gen_inv_step (pre : ptr -> ptr -> strim_controller -> Z) (n : Z) (s s' : sys) (l : label) :
  step pre s l s' -> n + 1 < 2 ^ 64 -> gen_inv n s -> gen_inv (n + 1) s'.
Proof.
  intros Hstep Hn Hg. pose proof (gi_pc _ _ Hg) as Hpc.
  assert (Hsame : forall j, 0 <= j -> live_generation (ctl s) j <= live_generation (ctl s) j
    <= live_generation (ctl s) j + 1) by (intros; lia).
  destruct Hstep; simpl in Hpc, Hsame;
    try (eapply gen_inv_shrink; [exact Hg | | done |
           simpl; (exact Hpc || constructor || (rewrite H in Hpc; exact Hpc))];
         simpl; first [ done
                      | by (rewrite keys_pc by (by rewrite H))
                      | by rewrite (keys_similar _ _ p (similar_toggle _ _ _ _ H))
                      | by rewrite (keys_similar _ _ p (similar_wake_queue _ H))
                      | by apply keys_finish
                      | by eapply keys_busy; eauto
                      | by rewrite keys_worker_section
                      | by erewrite keys_done ]).
  - by eapply gen_inv_submit.
  - by eapply gen_inv_request.
  - apply (gen_inv_shrink n _ _ Hg); simpl; [|done|].
    + unfold close_queue. by rewrite (keys_similar _ _ p (similar_broadcast _)).
    + unfold broadcast_q; simpl. destruct (q_pc q) eqn:E; simpl in *; rewrite ?E; done.
  - apply (gen_inv_shrink n _ _ Hg); simpl; [|done|].
    + by rewrite keys_run_section.
    + unfold run_section. destruct (q_actions q); simpl; [destruct (q_closed q)|]; constructor.
  - apply (gen_inv_shrink n _ _ Hg); simpl; [| |constructor].
    + by rewrite keys_pc by (by rewrite H).
    + intros j Hj. pose proof (run_action_generation pre sd no_oracle c (qe_act e) j H0 H1) as Hr.
      rewrite H2 in Hr. simpl in Hr. lia.
  - apply (gen_inv_shrink n _ _ Hg); simpl; [|done|].
    + by rewrite keys_pc by (rewrite H; by destruct sd).
    + destruct sd; [constructor | apply stage_indices_pos].
  - by eapply gen_inv_reconcile_stage.
  - apply (gen_inv_shrink n _ _ Hg); simpl; [|done|apply stage_indices_pos].
    by rewrite keys_pc by (by rewrite H).
  - rewrite H in Hpc. apply Forall_cons in Hpc as [Hi Hidx].
    apply (gen_inv_shrink n _ _ Hg); simpl; [by rewrite keys_pc by (by rewrite H) | | done].
    apply (teardown_stage_generation i c c' ef n); [done | apply Hg | done | done].
  - apply (gen_inv_shrink n _ _ Hg); simpl; [by apply keys_finish | done |].
    unfold finish_action. destruct (qe_owner e); [|constructor]. unfold broadcast_q; constructor.
  - apply (gen_inv_shrink n _ _ Hg); simpl; [|done|done].
    eapply keys_busy; [done|]. unfold op_returned. destruct (_ && _); auto.
  - unfold post_clear in H0. simpl in H0. destruct (q_closed q); simplify_eq.
    apply (gen_inv_shrink n _ _ Hg); simpl; [|done|by eapply signal_pc_indices].
    by rewrite (keys_post_clear q q2 p b1 b2 j) by (done || by apply similar_signal).
Qed.

Lemma gen_inv_reachable (pre : ptr -> ptr -> strim_controller -> Z) (c0 : strim_controller)
    (tr : list label) (s : sys) :
  (forall i, live_generation c0 i = 0) -> Z.of_nat (length tr) < 2 ^ 64 ->
  reachable pre c0 tr s -> gen_inv (Z.of_nat (length tr)) s.
Proof.
  intros H0 Hlen Hr. induction Hr as [|tr s1 l s2 Hex IH Hs].
  - split; simpl; [intros i; simpl; rewrite H0; lia | constructor | inversion 1 | constructor].
  - rewrite length_app in *. simpl in *.
    replace (Z.of_nat (length tr + 1)) with (Z.of_nat (length tr) + 1) by lia.
    eapply gen_inv_step; [done | lia | apply IH; lia].
Qed.

(** An op whose cancel handle does not report it superseded. *)
Definition current (c : strim_controller) (j : strim_op_job) : bool :=
  negb (strim_stage_op_superseded (Some j) (live_generation c (j_stage j))).

Lemma current_generation (c : strim_controller) (j : strim_op_job) :
  current c j = true -> j_generation j = live_generation c (j_stage j).
Proof. unfold current, strim_stage_op_superseded. intros. bool_props. congruence. Qed.

(** C23: at most one op per stage is current.  In every state reached within
    2^64 steps from a controller whose generations start at zero, two ops
    that are queued, running or failing for the same stage and that are both
    not superseded are the same op (they occupy one position of the list). *)
Theorem one_current_op_per_stage (pre : ptr -> ptr -> strim_controller -> Z)
    (c0 : strim_controller) (tr : list label) (s : sys) (a b : nat) (j j' : strim_op_job) :
  (forall i, live_generation c0 i = 0) -> Z.of_nat (length tr) < 2 ^ 64 ->
  reachable pre c0 tr s ->
  active (sp s) !! a = Some j -> active (sp s) !! b = Some j' ->
  j_stage j = j_stage j' -> current (ctl s) j = true -> current (ctl s) j' = true -> a = b.
Proof.
  intros H0 Hlen Hr Ha Hb Hst Hj%current_generation Hj'%current_generation.
  pose proof (gi_nodup _ _ (gen_inv_reachable _ _ _ _ H0 Hlen Hr)) as Hnd.
  apply NoDup_app in Hnd as [Hnd _]. rewrite <- Hst in Hj'.
  assert (Hk : job_key j' = job_key j) by (unfold job_key; congruence).
  eapply NoDup_lookup; [exact Hnd | |].
  - change (map job_key ?l) with (job_key <$> l). rewrite list_lookup_fmap, Ha. done.
  - change (map job_key ?l) with (job_key <$> l). rewrite list_lookup_fmap, Hb. simpl. by rewrite Hk.
Qed.

(** a clear that takes effect belongs to an op that is over.  Whenever
    the queue thread holds a clear whose generation is the stage's live one
    (the only clear that wipes the in-flight marker), no queued, running or
    failing op of that stage is current: the marker of a newer fire is never
    wiped, so a retry cannot overlap the op it replaces. *)
Theorem live_clear_means_no_current_op (pre : ptr -> ptr -> strim_controller -> Z)
    (c0 : strim_controller) (tr : list label) (s : sys) (e : qentry) (i g : Z)
    (j : strim_op_job) :
  (forall i, live_generation c0 i = 0) -> Z.of_nat (length tr) < 2 ^ 64 ->
  reachable pre c0 tr s ->
  q_pc (sq s) = QStart e -> qe_act e = ACTION_CLEAR_INFLIGHT i g ->
  g = live_generation (ctl s) i -> j ∈ active (sp s) -> j_stage j = i ->
  current (ctl s) j = false.
Proof.
  intros H0 Hlen Hr Hpc He Hg Hj <-.
  destruct (current (ctl s) j) eqn:Hc; [|done]. apply current_generation in Hc.
  pose proof (gi_nodup _ _ (gen_inv_reachable _ _ _ _ H0 Hlen Hr)) as Hnd.
  apply NoDup_app in Hnd as (_ & Hdis & _). exfalso. apply (Hdis (job_key j)).
  - apply list_elem_of_fmap. eauto.
  - unfold pending. rewrite Hpc. simpl. unfold clear_key at 1. rewrite He.
    apply elem_of_cons. left. unfold job_key. congruence.
Qed.

(** ** Fires *)
Lemma reconcile_stage_fire (o : fire_oracle) (i : Z) (c c' : strim_controller)
    (job : strim_op_job) (ef : list effect) :
  reconcile_stage o i c = (c', Launch job :: ef) ->
  exists st, stage_at c i = Some st /\ fire_due c st (fo_now_plan o) = true /\
    fo_shutting_down o = false /\ ef = [] /\
    job = make_job c i st (stage_op_for st (desired (s_status st))) (fo_now_fire o)
            (u64 (s_op_generation st + 1)) /\
    stage_at c' i = Some (set_generation (u64 (s_op_generation st + 1))
                            (set_in_flight (fo_now_fire o) st)).
Proof.
  unfold reconcile_stage. setoid_rewrite fire_due_code. destruct (stage_at c i) as [s|] eqn:Es; [|done].
  destruct (desired _ =? actual _) eqn:Ed; [done|].
  destruct (plan_fire c s _) eqn:Ep; [|done]. destruct (is_null _) eqn:Eo; [done|].
  intros H. case_ifs; simplify_eq. exists s. split_and!; try done.
  - by rewrite Ed, Eo, Ep.
  - by rewrite stage_at_update_eq, Es.
Qed.

Lemma busy_jobs_app (b1 b2 : list wphase) (w : wphase) :
  map phase_job (b1 ++ w :: b2) = map phase_job b1 ++ phase_job w :: map phase_job b2.
Proof. by rewrite map_app. Qed.

(** All the ops the pool knows about. *)
Definition pool_ops (p : pool) : list strim_op_job := p_jobs p ++ map phase_job (p_busy p).

Lemma worker_section_ops (p : pool) (j : strim_op_job) :
  j ∈ pool_ops (worker_section p) -> j ∈ pool_ops p.
Proof.
  unfold pool_ops, worker_section. destruct (p_jobs p) as [|x js] eqn:E.
  - by destruct (p_shutting_down p); simpl; rewrite E.
  - simpl. rewrite map_app. simpl. rewrite elem_of_cons, !elem_of_app, list_elem_of_singleton.
    naive_solver.
Qed.

(** C22: every fire is justified.  A step that brings a new op into the pool
    is an iteration of a reconcile pass for the op's stage, taken while the
    controller is not shutting down; the stage was not converged, had no op
    in flight or one older than the in-flight timeout, and the op fired is
    the start or stop op of its desired state, stamped with the generation
    the stage now holds and a deadline one timeout after the moment recorded
    as in flight. *)
Theorem every_fire_is_justified (pre : ptr -> ptr -> strim_controller -> Z) (s s' : sys)
    (l : label) (j : strim_op_job) :
  step pre s l s' -> j ∈ pool_ops (sp s') -> j ∉ pool_ops (sp s) ->
  exists o st, l = LReconcile (j_stage j) o /\ shutting_down s = false /\
    stage_at (ctl s) (j_stage j) = Some st /\
    desired (s_status st) <> actual (s_status st) /\
    (s_in_flight_since st = 0 \/
     c_inflight_timeout_ms (ctl s) <= fo_now_plan o - s_in_flight_since st) /\
    j_op j = desired_op st /\ j_op j <> NULL /\
    j_generation j = live_generation (ctl s') (j_stage j) /\
    j_deadline_ms j = fo_now_fire o + c_inflight_timeout_ms (ctl s).
Proof.
  intros Hstep Hin Hni. destruct Hstep; simpl in Hin, Hni; try done;
    try (exfalso; apply Hni; revert Hin; unfold pool_ops; simpl; rewrite ?H, ?busy_jobs_app;
         simpl; try (unfold op_returned; destruct (_ && _)); done).
  - (* the reconcile iteration *)
    destruct ef as [|[| job |] ef]; try done.
    pose proof (reconcile_stage_effects _ _ _ _ _ H2) as [?|(? & ? & ? & ? & Heq & Hs & _)]; [done|].
    destruct (reconcile_stage_fire _ _ _ _ _ _ H2) as (st & Hst & Hdue & Hsd & -> & -> & Hst').
    assert (j = make_job c i st (stage_op_for st (desired (s_status st))) (fo_now_fire o)
                  (u64 (s_op_generation st + 1))) as ->.
    { revert Hin Hni. unfold pool_ops, launch, workerpool_submit, signal_pool. simpl.
      rewrite (H1 Hs). simpl. destruct (p_asleep p); simpl;
        rewrite !elem_of_app, list_elem_of_singleton; naive_solver. }
    exists o, st. rewrite fire_due_code in Hdue. bool_props. simpl. split_and!; try done; try congruence.
    + by apply plan_fire_spec.
    + by rewrite desired_op_code.
    + unfold is_null in *. bool_props. done.
    + unfold live_generation. by rewrite Hst'.
  - exfalso. by apply Hni, worker_section_ops.
  - exfalso. apply Hni. revert Hin. unfold pool_ops, wg_done. destruct (0 <? _); simpl;
      rewrite H, busy_jobs_app, map_app, !elem_of_app, elem_of_cons; naive_solver.
Qed.

(** ** The controller stays well formed *)

Definition entries_typed (q : qstate) : Prop := Forall (fun e => action_typed (qe_act e)) (pending q).
Definition ops_typed (p : pool) : Prop := Forall (fun j => int32 (j_stage j)) (pool_ops p).

Record sys_wf (s : sys) : Prop := {
  sw_ctl : wf_controller (ctl s);
  sw_entries : entries_typed (sq s);
  sw_ops : ops_typed (sp s);
  sw_idx : Forall int32 (pc_indices (q_pc (sq s)));
}.

Lemma entries_typed_similar (q q' : qstate) : q_similar q q' -> entries_typed q -> entries_typed q'.
Proof. intros Hs. unfold entries_typed. by rewrite (similar_pending _ _ Hs). Qed.

Lemma entries_typed_push (q : qstate) (e : qentry) (q2 : qstate) :
  action_typed (qe_act e) -> signal_q (enqueue_locked e q) q2 -> entries_typed q ->
  entries_typed q2.
Proof.
  intros He Hs Hq. eapply entries_typed_similar; [by apply similar_signal|].
  unfold entries_typed, pending in *. simpl. rewrite app_assoc. apply Forall_app. auto.
Qed.

Lemma signal_idx (q q2 : qstate) :
  signal_q q q2 -> Forall int32 (pc_indices (q_pc q)) -> Forall int32 (pc_indices (q_pc q2)).
Proof. intros Hs%similar_signal. destruct (qs_pc _ _ Hs) as [->|[_ ->]]; [done | constructor]. Qed.

Lemma ops_typed_busy (p : pool) (b1 b2 : list wphase) (w w' : wphase) (n m : nat) :
  p_busy p = b1 ++ w :: b2 -> phase_job w' = phase_job w -> ops_typed p ->
  ops_typed (with_workers n m (b1 ++ w' :: b2) p).
Proof. intros Hb Hw. unfold ops_typed, pool_ops. simpl. by rewrite Hb, !busy_jobs_app, Hw. Qed.

Lemma ops_typed_in (p p' : pool) :
  (forall j, j ∈ pool_ops p' -> j ∈ pool_ops p) -> ops_typed p -> ops_typed p'.
Proof. unfold ops_typed. rewrite !Forall_forall. auto. Qed.

Lemma stage_indices_int32 : Forall int32 stage_indices.
Proof. repeat constructor; by vm_compute. Qed.

Lemma ops_typed_launch (o : fire_oracle) (i : Z) (c c' : strim_controller) (ef : list effect)
    (p : pool) :
  int32 i -> reconcile_stage o i c = (c', ef) -> ops_typed p -> ops_typed (launch ef p).
Proof.
  intros Hi [->|(st & op & now & gen & -> & _)]%reconcile_stage_effects Hp; [done|].
  unfold launch, workerpool_submit, signal_pool. simpl. destruct (p_shutting_down p); [done|].
  unfold ops_typed, pool_ops in *. simpl. apply Forall_app in Hp as [H1 H2].
  destruct (p_asleep p); simpl; rewrite !Forall_app; auto.
Qed.

Lemma entries_typed_pc (q : qstate) (pc : qpc) :
  pc_entry pc = pc_entry (q_pc q) -> entries_typed q -> entries_typed (set_pc pc q).
Proof. intros He. unfold entries_typed, pending. simpl. by rewrite He. Qed.

Lemma entries_typed_head (q : qstate) (e : qentry) :
  pc_entry (q_pc q) = Some e -> entries_typed q -> action_typed (qe_act e).
Proof. unfold entries_typed, pending. intros ->. simpl. by intros [H _]%Forall_cons. Qed.

Lemma sys_wf_submit (c : strim_controller) (sd : bool) (q q1 q2 : qstate) (p : pool) (t : nat)
    (a : strim_action) :
  sys_wf (Sys c sd q p) -> action_typed a -> queue_submit t a q = inr q1 -> signal_q q1 q2 ->
  sys_wf (Sys c sd (set_subs (<[t := Waiting true]> (q_subs q2)) q2) p).
Proof.
  intros [Hc He Ho Hi] Ha Hq Hs. unfold queue_submit in Hq. destruct (q_closed q); simplify_eq.
  split; simpl; try done.
  - by apply (entries_typed_push q (QEntry a (Some t)) q2).
  - by eapply signal_idx.
Qed.

Lemma sys_wf_request (c : strim_controller) (sd : bool) (q q1 q2 : qstate) (p : pool) :
  sys_wf (Sys c sd q p) -> strim_controller_request_reconcile true q = Some q1 ->
  signal_q q1 q2 -> sys_wf (Sys c sd q2 p).
Proof.
  intros [Hc He Ho Hi] Hq Hs. unfold strim_controller_request_reconcile in Hq. simpl in Hq.
  destruct (q_closed q || reconcile_queued q); simplify_eq. split; simpl; try done.
  - by eapply entries_typed_push; [| exact Hs |].
  - by eapply signal_idx.
Qed.

Lemma sys_wf_post_clear (c : strim_controller) (sd : bool) (q q1 q2 : qstate) (p : pool)
    (b1 b2 : list wphase) (j : strim_op_job) :
  sys_wf (Sys c sd q p) -> p_busy p = b1 ++ WPosting j :: b2 ->
  post_clear true j q = Some q1 -> signal_q q1 q2 ->
  sys_wf (Sys c sd q2 (with_workers (p_asleep p) (p_awake p) (b1 ++ WFinishing j :: b2) p)).
Proof.
  intros [Hc He Ho Hi] H Hq Hs. unfold post_clear in Hq. simpl in Hq, Hc, He, Ho, Hi.
  destruct (q_closed q); simplify_eq.
  split; simpl; try done; [| by eapply ops_typed_busy | by eapply signal_idx].
  eapply (entries_typed_push q (clear_entry j) q2); [|done|done]. simpl.
  unfold ops_typed, pool_ops in Ho. rewrite H, busy_jobs_app, !Forall_app, Forall_cons in Ho.
  apply Ho.
Qed.

Lemma sys_wf_step (pre : ptr -> ptr -> strim_controller -> Z) (s s' : sys) (l : label) :
  step pre s l s' -> sys_wf s -> sys_wf s'.
Proof.
  intros Hstep [Hc He Ho Hi]. destruct Hstep; simpl in *;
    try (split; simpl; try done; first
      [ eapply entries_typed_pc; [by rewrite H | done] | constructor ]; done).
  - by eapply sys_wf_submit.
  - by eapply sys_wf_request.
  - split; simpl; try done.
    + by eapply entries_typed_similar; [apply similar_broadcast|].
    + unfold broadcast_q; simpl. destruct (q_pc q) eqn:E; simpl in *; rewrite ?E; done.
  - split; simpl; try done; unfold entries_typed, pending, run_section in *; rewrite H in *;
      destruct (q_actions q) eqn:E; simpl in *; rewrite ?E; try destruct (q_closed q); try done;
      constructor.
  - split; simpl; try done; [|by eapply entries_typed_pc; [rewrite H|]].
    pose proof (run_action_preserves pre sd no_oracle c (qe_act e) Hc) as Hr.
    rewrite H2 in Hr. apply Hr. eapply entries_typed_head, He. by rewrite H.
  - split; simpl; try done; [by eapply entries_typed_pc; [rewrite H; destruct sd|]|].
    destruct sd; [done | apply stage_indices_int32].
  - rewrite H in Hi. apply Forall_cons in Hi as [Hi Hidx]. split; cbn [ctl sq sp]; try done.
    + pose proof (reconcile_stage_wf o i c Hc) as Hr. by rewrite H2 in Hr.
    + eapply entries_typed_pc; [by rewrite H | done].
    + by eapply ops_typed_launch.
  - split; simpl; try done; [by eapply entries_typed_pc; [rewrite H|]|apply stage_indices_int32].
  - rewrite H in Hi. apply Forall_cons in Hi as [Hi Hidx]. split; simpl; try done.
    + pose proof (teardown_stage_wf i c Hc) as Hr. by rewrite H0 in Hr.
    + eapply entries_typed_pc; [by rewrite H | done].
  - assert (Ht : entries_typed (set_pc QTop q)).
    { unfold entries_typed, pending in *. rewrite H in He. simpl in *. by apply Forall_cons in He as []. }
    unfold finish_action. destruct (qe_owner e); split; simpl; try done.
  - split; simpl; try done. eapply ops_typed_in, Ho. apply worker_section_ops.
  - split; simpl; try done. eapply ops_typed_busy; [done| |done].
    unfold op_returned. by destruct (_ && _).
  - split; simpl; try done. by eapply ops_typed_busy.
  - by eapply sys_wf_post_clear.
  - split; simpl; try done. by eapply ops_typed_busy.
  - split; simpl; try done. eapply ops_typed_in, Ho. intros x. unfold pool_ops, wg_done.
    destruct (0 <? _); simpl; rewrite H, busy_jobs_app, map_app, !elem_of_app, elem_of_cons;
      naive_solver.
Qed.

(** C10: the controller is well formed in every reachable state, whatever the
    interleaving of submitters, queue thread, workers and shutdown calls: two
    path statuses and four stages in range, stages indexed by their names,
    routes that target existing stages with a non-NULL op and distinct keys,
    at most sixteen listeners and 64-bit generations. *)
Theorem controller_always_wf (pre : ptr -> ptr -> strim_controller -> Z)
    (c0 : strim_controller) (tr : list label) (s : sys) :
  wf_controller c0 -> reachable pre c0 tr s -> wf_controller (ctl s).
Proof.
  intros Hc Hr. enough (sys_wf s) by apply H.
  induction Hr; [|by eapply sys_wf_step]. split; [done | constructor..].
Qed.
