(* ===== verification/Scenario.v ===== *)
(** * A concrete run of the controller

    One controller with a stage to start, driven through two reconcile
    passes, a stuck op superseded by its retry and the retry's failure; the
    hypotheses of the execution theorems hold along it. *)

From S2P Require Import Prelude Wire Controller ControllerFacts CtlSpec Wiring Sched SchedFacts PoolFacts GenFacts.

Definition demo_stage (i desired actual : Z) : strim_stage :=
  Stage i (StageStatus desired actual) 10 20 30 0 0.

Definition demo_controller : strim_controller :=
  Controller [0; 0]
    [demo_stage 0 STRIM_STAGE_RUNNING STRIM_STAGE_STOPPED;
     demo_stage 1 STRIM_STAGE_STOPPED STRIM_STAGE_STOPPED;
     demo_stage 2 STRIM_STAGE_STOPPED STRIM_STAGE_STOPPED;
     demo_stage 3 STRIM_STAGE_STOPPED STRIM_STAGE_STOPPED] [] [] [] 1 1000 16.

Definition no_prereq : ptr -> ptr -> strim_controller -> Z := fun _ _ _ => 0.

Definition at_time (t : Z) : fire_oracle := FireOracle false t t true 0.

(** Extend the execution [H] by the step [tac] proves, evaluating the state
    it reaches. *)
Tactic Notation "run" hyp(H) "by" tactic3(tac) :=
  match type of H with
  | exec ?pre ?s0 ?tr ?s1 =>
      let Hs := fresh "Hs" in
      eassert (Hs : step pre s1 _ _) by tac;
      apply (exec_snoc pre s0 tr s1 _ _ H) in Hs; clear H;
      vm_compute in Hs; rename Hs into H
  end.

Ltac begin H :=
  pose proof (exec_nil no_prereq (init_sys demo_controller)) as H; vm_compute in H.

Ltac nobody := apply signal_nobody; [vm_compute; done | intros ?; vm_compute; done].

(** One reconcile pass at time [t], from an idle queue thread back to it. *)
Ltac reconcile_pass H t :=
  run H by (eapply step_request_reconcile; [reflexivity | nobody]);
  run H by (eapply step_run_section; reflexivity);
  run H by (eapply step_reconcile_start; reflexivity);
  do 4 (run H by (eapply (step_reconcile_stage _ _ _ _ _ _ _ _ _ (at_time t));
                  [reflexivity | reflexivity | reflexivity | reflexivity]));
  run H by (eapply step_reconcile_end; reflexivity);
  run H by (eapply step_finish; reflexivity).

Ltac worker_takes H := run H by (eapply step_worker_section; vm_compute; lia).


(** The queue thread, a reconcile request queued. *)
Lemma queue_is_fifo_witness :
  exists tr s, reachable no_prereq demo_controller tr s /\ length (q_actions (sq s)) = 1%nat /\
    enqueued tr = dequeued tr ++ q_actions (sq s).
Proof.
  begin H. run H by (eapply step_request_reconcile; [reflexivity | nobody]).
  eexists _, _. split_and!; [exact H | reflexivity |].
  apply (queue_is_fifo no_prereq demo_controller _ _ H).
Defined.

(** A submitter blocked on a status request. *)
Lemma submitters_are_served_witness :
  exists tr s, reachable no_prereq demo_controller tr s /\ waiting 7 (sq s) /\
    exists l s1, queue_label l = true /\ step no_prereq s l s1.
Proof.
  begin H.
  run H by (eapply (step_submit _ _ _ _ _ _ _ 7 (ACTION_STATUS true));
    [reflexivity | reflexivity | exact I | reflexivity | nobody]).
  eexists _, _. split_and!; [exact H | by exists true |].
  refine (proj1 (submitters_are_served no_prereq demo_controller _ [] _ _ 7 H _));
    [exact (init_sys demo_controller) | by exists true].
Defined.

Lemma worker_pool_accounts_for_every_op_witness :
  exists tr s, reachable no_prereq demo_controller tr s /\
    length (p_jobs (sp s)) = 1%nat /\ ops_wg (sp s) = 1.
Proof.
  begin H. reconcile_pass H 5. eexists _, _. split_and!; [exact H | reflexivity |].
  apply (worker_pool_accounts_for_every_op no_prereq demo_controller _ _ H).
Defined.

Lemma no_op_after_wait_for_ops_witness :
  exists tr s, reachable no_prereq demo_controller tr s /\ shutting_down s = true /\
    wg_idle (sp s) = true /\ p_busy (sp s) = [].
Proof.
  begin H. reconcile_pass H 5. worker_takes H.
  run H by (eapply step_begin_shutdown).
  run H by (eapply (step_op_return _ _ _ _ _ [] [] _ 0); reflexivity).
  run H by (eapply (step_worker_done _ _ _ _ _ [] []); reflexivity).
  eexists _, _. split_and!; [exact H | reflexivity | reflexivity |].
  apply (no_op_after_wait_for_ops no_prereq demo_controller _ [] _ _ H eq_refl eq_refl
           (exec_nil _ _)).
Defined.

(** A fired op waits in the pool. *)
Lemma one_current_op_per_stage_witness :
  exists tr s a b j, reachable no_prereq demo_controller tr s /\
    active (sp s) !! a = Some j /\ active (sp s) !! b = Some j /\
    current (ctl s) j = true /\ a = b.
Proof.
  begin H. reconcile_pass H 5. eexists _, _, 0%nat, 0%nat, _.
  split_and!; [exact H | reflexivity | reflexivity | reflexivity |].
  eapply (one_current_op_per_stage no_prereq demo_controller _ _ _ _ _ _);
    [ intros i; unfold live_generation, stage_at; by destruct (Z.to_nat i) as [|[|[|[|]]]]
    | | exact H | reflexivity | reflexivity | reflexivity | reflexivity | reflexivity ].
  vm_compute. done.
Defined.

(** The first op is stuck and superseded; its retry failed and its clear is
    about to run. *)
Lemma live_clear_means_no_current_op_witness :
  exists tr s e j, reachable no_prereq demo_controller tr s /\ q_pc (sq s) = QStart e /\
    qe_act e = ACTION_CLEAR_INFLIGHT 0 2 /\ live_generation (ctl s) 0 = 2 /\
    j ∈ active (sp s) /\ j_stage j = 0 /\ current (ctl s) j = false.
Proof.
  begin H. reconcile_pass H 5. worker_takes H. reconcile_pass H 2000. worker_takes H.
  run H by (eapply (step_op_return _ _ _ _ _ [_] [] _ (-1)); reflexivity).
  run H by (eapply (step_post_clear _ _ _ _ _ _ _ [_] []); [reflexivity | reflexivity | nobody]).
  run H by (eapply step_run_section; reflexivity).
  eexists _, _, _, (OpJob 0 10 30 1000 1 1005).
  split_and!; [exact H | reflexivity | reflexivity | reflexivity | by left | reflexivity |].
  eapply (live_clear_means_no_current_op no_prereq demo_controller _ _ _ 0 2);
    [ intros i | | exact H | reflexivity | reflexivity | reflexivity | by left | reflexivity ].
  - unfold live_generation, stage_at. by destruct (Z.to_nat i) as [|[|[|[|]]]].
  - vm_compute. done.
Defined.

Lemma every_fire_is_justified_witness :
  exists s s' l j, step no_prereq s l s' /\ j ∈ pool_ops (sp s') /\ j ∉ pool_ops (sp s) /\
    j_op j = 10 /\ j_op j <> NULL.
Proof.
  begin H. run H by (eapply step_request_reconcile; [reflexivity | nobody]).
  run H by (eapply step_run_section; reflexivity).
  run H by (eapply step_reconcile_start; reflexivity).
  match type of H with exec _ _ _ ?s => eassert (Hs : step no_prereq s _ _) by
    (eapply (step_reconcile_stage _ _ _ _ _ _ _ _ _ (at_time 5));
       [reflexivity | reflexivity | reflexivity | reflexivity]) end.
  eexists _, _, _, (OpJob 0 10 30 1000 1 1005).
  split_and!; [exact Hs | by left | by inversion 1 | reflexivity |].
  destruct (every_fire_is_justified _ _ _ _ (OpJob 0 10 30 1000 1 1005) Hs)
    as (? & ? & _ & _ & _ & _ & _ & _ & Hn & _); [by left | by inversion 1 | exact Hn].
Defined.

(** ** The start-up controller of main.c *)
Lemma controller_new_establishes_wf_witness :
  exists c, strim_controller_new all_allocs (Some (main_controller_config 7 false 30000 16)) true
              = inr c /\ wf_controller c /\ c_listeners c = [].
Proof.
  exists (main_controller 7 false 30000 16). split; [reflexivity|].
  destruct (controller_new_establishes_wf all_allocs (main_controller_config 7 false 30000 16)
              (main_controller 7 false 30000 16)) as (H & Hl & _);
    [apply main_config_typed | reflexivity | exact (conj H Hl)].
Defined.

Lemma controller_always_wf_witness :
  exists tr s, reachable no_prereq (main_controller 7 false 30000 16) tr s /\
    wf_controller (ctl s).
Proof.
  exists [], (init_sys (main_controller 7 false 30000 16)).
  split; [apply exec_nil|].
  apply (controller_always_wf no_prereq (main_controller 7 false 30000 16) []);
    [apply main_controller_wf; done | apply exec_nil].
Defined.

Lemma at_time_succeeds (t : Z) : fire_succeeds (at_time t).
Proof. by vm_compute. Qed.

Lemma reconcile_launches_exactly_the_due_ops_witness :
  let '(c', launched) := strim_controller_handle_reconcile false (fun _ => at_time 5) demo_controller in
  launched = [Launch (OpJob 0 10 30 1000 1 1005)] /\
  launched = concat (map (due_launch demo_controller (fun _ => at_time 5)) stage_indices).
Proof.
  split; [reflexivity|].
  apply (reconcile_launches_exactly_the_due_ops demo_controller (fun _ => at_time 5)).
  intros i _. apply at_time_succeeds.
Defined.

Lemma reconcile_idempotent_witness :
  let c1 := (strim_controller_handle_reconcile false (fun _ => at_time 5) demo_controller).1 in
  strim_controller_handle_reconcile false (fun _ => at_time 900) c1 = (c1, []).
Proof.
  apply (reconcile_idempotent demo_controller (fun _ => at_time 5) (fun _ => at_time 900)).
  - intros i _. split; [apply at_time_succeeds | done].
  - reflexivity.
  - intros i s Hi Hs Hne. unfold stage_at in Hs.
    destruct (Z.to_nat i) as [|[|[|[|]]]]; vm_compute in Hs; simplify_eq;
      vm_compute in Hne |- *; done.
Defined.

Lemma teardown_stops_every_running_stage_witness :
  let c := main_controller 7 false 30000 16 in
  wf_controller c /\
  (let '(c', effects) := teardown_inner c in
   effects = concat (map (stop_call c) stage_indices) ++ notify_listeners c').
Proof.
  split; [apply main_controller_wf; done|].
  apply (teardown_stops_every_running_stage (main_controller 7 false 30000 16)).
  apply main_controller_wf; done.
Defined.

Lemma main_controller_represents (junk : Z) (single : bool) (t b : Z) :
  represents call_main_prerequisite (main_router single) (main_controller junk single t b)
    (AWorld main_astate [] (fun _ => true)).
Proof.
  split; [apply main_controller_refines | done |].
  intros st s Hs. unfold stage_at in Hs. destruct st; vm_compute in Hs; by simplify_eq.
Qed.

Lemma controller_refines_spec_witness :
  let act := ACTION_PATH_EVENT (PathEvent STRIM_PATH_INGRESS0 STRIM_PATH_READY) in
  let w := AWorld main_astate [] (fun _ => true) in
  let '(rp, c', ef) := run_action call_main_prerequisite false no_oracle
    (main_controller 7 false 30000 16) act in
  rp = Reply 0 None /\
  represents call_main_prerequisite (main_router false) c'
    (sv_world (serve_action (main_router false) w act)) /\
  a_desired (w_state (sv_world (serve_action (main_router false) w act))) Normalize = Running.
Proof.
  destruct (controller_refines_spec call_main_prerequisite (main_router false)
    (main_controller 7 false 30000 16) (AWorld main_astate [] (fun _ => true)) false no_oracle
    (ACTION_PATH_EVENT (PathEvent STRIM_PATH_INGRESS0 STRIM_PATH_READY)))
    as (H1 & H2 & _); [apply main_controller_wf; done | by vm_compute | apply main_controller_represents |].
  exact (conj H1 (conj H2 eq_refl)).
Defined.

Lemma main_controller_runs_spec_witness :
  wf_controller (main_controller 7 true 30000 16).
Proof. apply (main_controller_runs_spec 7 true 30000 16 []); done. Defined.
