(* ===== verification/Hash.v ===== *)
(** * Message digests (http/ws_crypto.c, containerd/sha256.c)

    SHA-1 and SHA-256 as the code computes them (buffers, loops, padding in
    place), the FIPS 180-4 definitions they are meant to compute (padded
    message parsed into 512-bit blocks), and their equality. *)

From S2P Require Import Prelude.

(** ** 32-bit words and buffers *)

Definition shl32 (v n : Z) : Z := u32 (Z.shiftl v n).
Definition not32 (v : Z) : Z := u32 (Z.lnot v).

(** [memcpy(dst + off, src, strlen)] *)
Definition memcpy (dst : bytes) (off : nat) (src : bytes) : bytes :=
  take off dst ++ src ++ drop (off + length src) dst.

(** The word at byte offset [4 * t]. *)
Definition be32_load (block : bytes) (t : nat) : Z :=
  let p k := default 0 (block !! (t * 4 + k)%nat) in
  Z.lor (Z.lor (Z.lor (shl32 (p 0%nat) 24) (shl32 (p 1%nat) 16)) (shl32 (p 2%nat) 8)) (p 3%nat).

(** The four digest bytes of one state word. *)
Definition be32_store (h : Z) : bytes :=
  [u8 (Z.shiftr h 24); u8 (Z.shiftr h 16); u8 (Z.shiftr h 8); u8 h].

(** The 64-bit big-endian length field. *)
Definition be64 (v : Z) : bytes :=
  map (fun i => u8 (Z.shiftr v (8 * i))) [7; 6; 5; 4; 3; 2; 1; 0].

(** ** SHA-1 (ws_crypto.c) *)

Definition rol32 (v n : Z) : Z := Z.lor (shl32 v n) (Z.shiftr v (32 - n)).

Definition sha1_f (t : nat) (b c d : Z) : Z :=
  if (t <? 20)%nat then Z.lor (Z.land b c) (Z.land (not32 b) d)
  else if (t <? 40)%nat then Z.lxor (Z.lxor b c) d
  else if (t <? 60)%nat then Z.lor (Z.lor (Z.land b c) (Z.land b d)) (Z.land c d)
  else Z.lxor (Z.lxor b c) d.

Definition sha1_k (t : nat) : Z :=
  if (t <? 20)%nat then 0x5a827999
  else if (t <? 40)%nat then 0x6ed9eba1
  else if (t <? 60)%nat then 0x8f1bbcdc
  else 0xca62c1d6.

(** The word a schedule holds at index [t]. *)
Definition at_ (w : list Z) (t : nat) : Z := default 0 (w !! t).

Definition sha1_schedule (block : bytes) : list Z :=
  fold_left (fun w t =>
      w ++ [rol32 (Z.lxor (Z.lxor (Z.lxor (at_ w (t - 3)) (at_ w (t - 8)))
                                  (at_ w (t - 14))) (at_ w (t - 16))) 1])
    (seq 16 64) (map (be32_load block) (seq 0 16)).

Abbreviation state5 := (Z * Z * Z * Z * Z)%type.

Definition sha1_round (w : list Z) (s : state5) (t : nat) : state5 :=
  let '(a, b, c, d, e) := s in
  let tmp := u32 (rol32 a 5 + sha1_f t b c d + e + at_ w t + sha1_k t) in
  (tmp, a, rol32 b 30, c, d).

Definition sha1_block (h : state5) (block : bytes) : state5 :=
  let w := sha1_schedule block in
  let '(h0, h1, h2, h3, h4) := h in
  let '(a, b, c, d, e) := fold_left (sha1_round w) (seq 0 80) h in
  (u32 (h0 + a), u32 (h1 + b), u32 (h2 + c), u32 (h3 + d), u32 (h4 + e)).

Definition sha1_init : state5 :=
  (0x67452301, 0xefcdab89, 0x98badcfe, 0x10325476, 0xc3d2e1f0).

(** The [while (len - off >= 64)] loop: the state and the bytes left. *)
Fixpoint sha1_blocks (fuel : nat) (h : state5) (rest : bytes) : state5 * bytes :=
  match fuel with
  | O => (h, rest)
  | S fuel' =>
      if (64 <=? length rest)%nat
      then sha1_blocks fuel' (sha1_block h (take 64 rest)) (drop 64 rest)
      else (h, rest)
  end.

(** [for (i = 0; i < 8; i++) block[63 - i] = (uint8_t)(bits >> (8 * i))] *)
Definition put_length (bits : Z) (block : bytes) : bytes :=
  fold_left (fun b (i : nat) => <[(63 - i)%nat := u8 (Z.shiftr bits (8 * Z.of_nat i))]> b)
    (seq 0 8) block.

Definition strim_sha1 (data : bytes) : bytes :=
  let '(h, rest) := sha1_blocks (length data) sha1_init data in
  let rem := length rest in
  let block := <[rem := 0x80]> (memcpy (replicate 64 0) 0 rest) in
  let bits := u64 (Z.of_nat (length data) * 8) in
  let '(h, block) :=
    if (56 <=? rem)%nat then (sha1_block h block, replicate 64 0) else (h, block) in
  let '(h0, h1, h2, h3, h4) := sha1_block h (put_length bits block) in
  be32_store h0 ++ be32_store h1 ++ be32_store h2 ++ be32_store h3 ++ be32_store h4.

(** ** SHA-256 (sha256.c) *)

Definition ROTR (x n : Z) : Z := Z.lor (Z.shiftr x n) (shl32 x (32 - n)).
Definition CH (x y z : Z) : Z := Z.lxor (Z.land x y) (Z.land (not32 x) z).
Definition MAJ (x y z : Z) : Z := Z.lxor (Z.lxor (Z.land x y) (Z.land x z)) (Z.land y z).
Definition SIG0 (x : Z) : Z := Z.lxor (Z.lxor (ROTR x 2) (ROTR x 13)) (ROTR x 22).
Definition SIG1 (x : Z) : Z := Z.lxor (Z.lxor (ROTR x 6) (ROTR x 11)) (ROTR x 25).
Definition SIG2 (x : Z) : Z := Z.lxor (Z.lxor (ROTR x 7) (ROTR x 18)) (Z.shiftr x 3).
Definition SIG3 (x : Z) : Z := Z.lxor (Z.lxor (ROTR x 17) (ROTR x 19)) (Z.shiftr x 10).

(** The round constants, one literal per row of four words of the table. *)
Definition row_words (row : Z) : list Z :=
  map (fun k => u32 (Z.shiftr row (32 * k))) [3; 2; 1; 0].

Definition sha256_k : list Z := Eval vm_compute in
  concat (map row_words
    [0x428a2f9871374491b5c0fbcfe9b5dba5;
     0x3956c25b59f111f1923f82a4ab1c5ed5;
     0xd807aa9812835b01243185be550c7dc3;
     0x72be5d7480deb1fe9bdc06a7c19bf174;
     0xe49b69c1efbe47860fc19dc6240ca1cc;
     0x2de92c6f4a7484aa5cb0a9dc76f988da;
     0x983e5152a831c66db00327c8bf597fc7;
     0xc6e00bf3d5a7914706ca635114292967;
     0x27b70a852e1b21384d2c6dfc53380d13;
     0x650a7354766a0abb81c2c92e92722c85;
     0xa2bfe8a1a81a664bc24b8b70c76c51a3;
     0xd192e819d6990624f40e3585106aa070;
     0x19a4c1161e376c082748774c34b0bcb5;
     0x391c0cb34ed8aa4a5b9cca4f682e6ff3;
     0x748f82ee78a5636f84c878148cc70208;
     0x90befffaa4506cebbef9a3f7c67178f2]).

Definition sha256_schedule (block : bytes) : list Z :=
  fold_left (fun w t =>
      w ++ [u32 (SIG3 (at_ w (t - 2)) + at_ w (t - 7) + SIG2 (at_ w (t - 15)) + at_ w (t - 16))])
    (seq 16 48) (map (be32_load block) (seq 0 16)).

Abbreviation state8 := (Z * Z * Z * Z * Z * Z * Z * Z)%type.

Definition sha256_round (w : list Z) (s : state8) (i : nat) : state8 :=
  let '(a, b, c, d, e, f, g, hh) := s in
  let t1 := u32 (hh + SIG1 e + CH e f g + at_ sha256_k i + at_ w i) in
  let t2 := u32 (SIG0 a + MAJ a b c) in
  (u32 (t1 + t2), a, b, c, u32 (d + t1), e, f, g).

Definition sha256_block (h : state8) (block : bytes) : state8 :=
  let w := sha256_schedule block in
  let '(h0, h1, h2, h3, h4, h5, h6, h7) := h in
  let '(a, b, c, d, e, f, g, hh) := fold_left (sha256_round w) (seq 0 64) h in
  (u32 (h0 + a), u32 (h1 + b), u32 (h2 + c), u32 (h3 + d),
   u32 (h4 + e), u32 (h5 + f), u32 (h6 + g), u32 (h7 + hh)).

Definition sha256_init : state8 :=
  (0x6a09e667, 0xbb67ae85, 0x3c6ef372, 0xa54ff53a,
   0x510e527f, 0x9b05688c, 0x1f83d9ab, 0x5be0cd19).

(** [for (i = 0; i < 8; i++) pad[base + i] = (uint8_t)(bitlen >> (56 - 8 * i))] *)
Definition put_bitlen (base : nat) (bitlen : Z) (pad : bytes) : bytes :=
  fold_left (fun b (i : nat) => <[(base + i)%nat := u8 (Z.shiftr bitlen (56 - 8 * Z.of_nat i))]> b)
    (seq 0 8) pad.

Definition strim_sha256 (data : bytes) : bytes :=
  let len := length data in
  let bitlen := u64 (Z.of_nat len * 8) in
  let full := (len / 64)%nat in
  let rem := (len mod 64)%nat in
  let h := fold_left (fun h i => sha256_block h (take 64 (drop (64 * i) data)))
             (seq 0 full) sha256_init in
  let pad := replicate 128 0 in
  let pad := if (0 <? rem)%nat then memcpy pad 0 (drop (64 * full) data) else pad in
  let pad := <[rem := 0x80]> pad in
  let '(h0, h1, h2, h3, h4, h5, h6, h7) :=
    if (rem <? 56)%nat
    then sha256_block h (take 64 (put_bitlen 56 bitlen pad))
    else let pad := put_bitlen 120 bitlen pad in
         sha256_block (sha256_block h (take 64 pad)) (take 64 (drop 64 pad)) in
  be32_store h0 ++ be32_store h1 ++ be32_store h2 ++ be32_store h3 ++
  be32_store h4 ++ be32_store h5 ++ be32_store h6 ++ be32_store h7.

Definition hex_digits : cstring := lit "0123456789abcdef".

(** The text of [buf], without its terminating NUL. *)
Definition strim_sha256_format (digest : bytes) : cstring :=
  lit "sha256:" ++
  concat (map (fun i => let d := default 0 (digest !! i) in
                        [at_ hex_digits (Z.to_nat (Z.shiftr d 4));
                         at_ hex_digits (Z.to_nat (Z.land d 0xf))]) (seq 0 32)).

(** ** FIPS 180-4

    The message is padded with a one bit, zeros and its 64-bit bit length to
    a whole number of 512-bit blocks, which are absorbed in order; the round
    functions are Ch, Parity and Maj. *)

Definition Ch (x y z : Z) : Z := Z.lxor (Z.land x y) (Z.land (not32 x) z).
Definition Parity (x y z : Z) : Z := Z.lxor (Z.lxor x y) z.
Definition Maj (x y z : Z) : Z := Z.lxor (Z.lxor (Z.land x y) (Z.land x z)) (Z.land y z).

Definition fips_f (t : nat) : Z -> Z -> Z -> Z :=
  if (t <? 20)%nat then Ch else if (t <? 40)%nat then Parity
  else if (t <? 60)%nat then Maj else Parity.

Definition pad_zeros (len : nat) : nat := Z.to_nat ((55 - Z.of_nat len) mod 64).

Definition pad_message (data : bytes) : bytes :=
  data ++ 0x80 :: replicate (pad_zeros (length data)) 0 ++ be64 (u64 (Z.of_nat (length data) * 8)).

Fixpoint blocks (n : nat) (l : bytes) : list bytes :=
  match n with
  | O => []
  | S n' => take 64 l :: blocks n' (drop 64 l)
  end.

(** The 64-byte blocks of a padded message. *)
Definition parse (m : bytes) : list bytes := blocks (length m / 64) m.

Definition fips_sha1_block (h : state5) (block : bytes) : state5 :=
  let w := sha1_schedule block in
  let '(h0, h1, h2, h3, h4) := h in
  let '(a, b, c, d, e) :=
    fold_left (fun s t => let '(a, b, c, d, e) := s in
        (u32 (rol32 a 5 + fips_f t b c d + e + at_ w t + sha1_k t), a, rol32 b 30, c, d))
      (seq 0 80) h in
  (u32 (h0 + a), u32 (h1 + b), u32 (h2 + c), u32 (h3 + d), u32 (h4 + e)).

Definition fips_sha1 (data : bytes) : bytes :=
  let '(h0, h1, h2, h3, h4) := fold_left fips_sha1_block (parse (pad_message data)) sha1_init in
  concat (map be32_store [h0; h1; h2; h3; h4]).

Definition fips_sha256 (data : bytes) : bytes :=
  let '(h0, h1, h2, h3, h4, h5, h6, h7) :=
    fold_left sha256_block (parse (pad_message data)) sha256_init in
  concat (map be32_store [h0; h1; h2; h3; h4; h5; h6; h7]).

(** ** Blocks and padding *)
Lemma blocks_app (n m : nat) (a b : bytes) :
  length a = (64 * n)%nat -> blocks (n + m) (a ++ b) = blocks n a ++ blocks m b.
Proof.
  revert a. induction n as [|n IH]; intros a Ha.
  - destruct a; [done | simpl in Ha; lia].
  - cbn [blocks Nat.add app]. rewrite take_app_le, drop_app_le by lia.
    rewrite IH; [done | rewrite length_drop; lia].
Qed.

Lemma pad_zeros_small (n r : nat) :
  (r < 64)%nat ->
  pad_zeros (64 * n + r) = if (r <? 56)%nat then (55 - r)%nat else (119 - r)%nat.
Proof.
  intros Hr. unfold pad_zeros. rewrite Nat2Z.inj_add, Nat2Z.inj_mul.
  replace (55 - (Z.of_nat 64 * Z.of_nat n + Z.of_nat r))
    with (55 - Z.of_nat r + (- Z.of_nat n) * 64) by lia.
  rewrite Z_mod_plus_full. destruct (Nat.ltb_spec r 56).
  - rewrite Z.mod_small by lia. lia.
  - replace ((55 - Z.of_nat r) mod 64) with (119 - Z.of_nat r)
      by (apply (Z.mod_unique_pos _ _ (-1)); lia). lia.
Qed.

Lemma length_be64 (v : Z) : length (be64 v) = 8%nat.
Proof. done. Qed.

(** The message split into its whole blocks and the final one or two. *)
Lemma parse_pad (data : bytes) :
  let n := (length data / 64)%nat in
  let r := (length data mod 64)%nat in
  let tail := drop (64 * n) data in
  let len := be64 (u64 (Z.of_nat (length data) * 8)) in
  parse (pad_message data) =
  blocks n (take (64 * n) data) ++
  (if (r <? 56)%nat
   then [tail ++ 0x80 :: replicate (55 - r) 0 ++ len]
   else [tail ++ 0x80 :: replicate (63 - r) 0; replicate 56 0 ++ len]).
Proof.
  intros n r tail len.
  assert (Hlen : length data = (64 * n + r)%nat) by apply Nat.div_mod_eq.
  assert (Hr : (r < 64)%nat) by (apply Nat.mod_upper_bound; lia).
  assert (Htail : length tail = r) by (unfold tail; rewrite length_drop; lia).
  assert (Htake : length (take (64 * n) data) = (64 * n)%nat) by (rewrite length_take; lia).
  unfold parse, pad_message. fold len.
  assert (Hm : forall X, data ++ X = take (64 * n) data ++ (tail ++ X))
    by (intros; unfold tail; by rewrite app_assoc, take_drop).
  rewrite Hm. clear Hm.
  assert (Hz : pad_zeros (length data) = if (r <? 56)%nat then (55 - r)%nat else (119 - r)%nat)
    by (rewrite Hlen; by apply pad_zeros_small).
  rewrite Hz. clear Hz.
  destruct (Nat.ltb_spec r 56) as [H56|H56].
  - replace (_ / 64)%nat with (n + 1)%nat.
    2: { rewrite !length_app, Htake. cbn [length]. rewrite length_app, length_replicate, Htail.
         cbn [length len be64 map]. apply (Nat.div_unique _ _ _ 0); lia. }
    rewrite blocks_app by done. f_equal. cbn [blocks].
    rewrite take_ge; [done|]. rewrite length_app; simpl.
    rewrite length_app, length_replicate, Htail. simpl. lia.
  - replace (_ / 64)%nat with (n + 2)%nat.
    2: { rewrite !length_app, Htake. cbn [length]. rewrite length_app, length_replicate, Htail.
         cbn [length len be64 map]. apply (Nat.div_unique _ _ _ 0); lia. }
    rewrite blocks_app by done. f_equal. cbn [blocks].
    replace (119 - r)%nat with ((63 - r) + 56)%nat by lia.
    rewrite replicate_add, <- app_assoc, app_comm_cons, app_assoc.
    assert (Hb : length (tail ++ 128 :: replicate (63 - r) 0) = 64%nat)
      by (rewrite length_app; simpl; rewrite length_replicate, Htail; lia).
    rewrite take_app_le, drop_app_le by lia.
    rewrite take_ge, drop_ge by lia. reflexivity.
Qed.

(** ** The code computes the standard *)
Lemma testbit_not32 (v i : Z) : 0 <= i < 32 -> Z.testbit (not32 v) i = negb (Z.testbit v i).
Proof.
  intros Hi. unfold not32, wrap. rewrite Z.mod_pow2_bits_low by lia. apply Z.lnot_spec. lia.
Qed.

Lemma not32_high (v i : Z) : 32 <= i -> Z.testbit (not32 v) i = false.
Proof. intros Hi. unfold not32, wrap. rewrite Z.mod_pow2_bits_high by lia. done. Qed.

Lemma sha1_f_fips (t : nat) (x y z : Z) : sha1_f t x y z = fips_f t x y z.
Proof.
  unfold sha1_f, fips_f. destruct (t <? 20)%nat; [|destruct (t <? 40)%nat; [done|]].
  - apply Z.bits_inj'. intros i Hi. unfold Ch.
    rewrite Z.lor_spec, Z.lxor_spec, !Z.land_spec. destruct (Z.ltb_spec i 32).
    + rewrite testbit_not32 by lia. by destruct (Z.testbit x i), (Z.testbit y i), (Z.testbit z i).
    + rewrite not32_high by lia. simpl. by rewrite orb_false_r, xorb_false_r.
  - destruct (t <? 60)%nat; [|done]. apply Z.bits_inj'. intros i Hi. unfold Maj.
    rewrite !Z.lor_spec, !Z.lxor_spec, !Z.land_spec.
    by destruct (Z.testbit x i), (Z.testbit y i), (Z.testbit z i).
Qed.

Lemma fold_left_ext {A B} (f g : A -> B -> A) (l : list B) (a : A) :
  (forall a b, f a b = g a b) -> fold_left f l a = fold_left g l a.
Proof. intros H. revert a. induction l; intros; simpl; [done|]. by rewrite H. Qed.

Lemma sha1_block_fips (h : state5) (block : bytes) : sha1_block h block = fips_sha1_block h block.
Proof.
  unfold sha1_block, fips_sha1_block. destruct h as [[[[h0 h1] h2] h3] h4].
  rewrite (fold_left_ext (sha1_round (sha1_schedule block))
    (fun s t => let '(a, b, c, d, e) := s in
        (u32 (rol32 a 5 + fips_f t b c d + e + at_ (sha1_schedule block) t + sha1_k t), a, rol32 b 30, c, d)));
    [done|].
  intros [[[[a b] c] d] e] t. unfold sha1_round. by rewrite sha1_f_fips.
Qed.

Lemma sha1_blocks_spec (fuel : nat) (h : state5) (rest : bytes) :
  (length rest < 64 * S fuel)%nat ->
  let n := (length rest / 64)%nat in
  sha1_blocks fuel h rest =
  (fold_left sha1_block (blocks n (take (64 * n) rest)) h, drop (64 * n) rest).
Proof.
  revert h rest. induction fuel as [|fuel IH]; intros h rest Hf; cbn [sha1_blocks].
  - rewrite Nat.div_small by lia. simpl. done.
  - destruct (Nat.leb_spec 64 (length rest)) as [Hle|Hlt].
    + rewrite IH by (rewrite length_drop; lia). rewrite length_drop.
      set (n := ((length rest - 64) / 64)%nat).
      assert (Hn : (length rest / 64)%nat = S n).
      { replace (length rest) with (1 * 64 + (length rest - 64))%nat by lia.
        rewrite Nat.div_add_l by lia. done. }
      rewrite Hn. cbn [blocks fold_left].
      rewrite take_take, skipn_firstn_comm, drop_drop.
      replace (64 `min` (64 * S n))%nat with 64%nat by lia.
      replace (64 * S n - 64)%nat with (64 * n)%nat by lia.
      by replace (64 + 64 * n)%nat with (64 * S n)%nat by lia.
    + rewrite Nat.div_small by lia. done.
Qed.

(** *** Writing the length field *)
Lemma put_length_spec (bits : Z) (pre old : bytes) :
  length pre = 56%nat -> length old = 8%nat -> put_length bits (pre ++ old) = pre ++ be64 bits.
Proof.
  intros Hp Ho. do 9 (destruct old as [|? old]; [discriminate Ho || idtac|]; simpl in Ho); try lia.
  unfold put_length. cbn [seq fold_left].
  repeat (rewrite insert_app_r_alt by lia; rewrite Hp; cbn [Nat.sub]).
  reflexivity.
Qed.

Lemma put_bitlen_spec (base : nat) (bitlen : Z) (pre old post : bytes) :
  length pre = base -> length old = 8%nat ->
  put_bitlen base bitlen (pre ++ old ++ post) = pre ++ be64 bitlen ++ post.
Proof.
  intros Hp Ho. do 9 (destruct old as [|? old]; [discriminate Ho || idtac|]; simpl in Ho); try lia.
  unfold put_bitlen. cbn [seq fold_left].
  repeat (rewrite insert_app_r_alt by lia; rewrite Hp;
          match goal with |- context [(base + ?k - base)%nat] =>
            replace (base + k - base)%nat with k by lia end).
  reflexivity.
Qed.

(** The remainder of the message copied into a zeroed buffer, with the pad
    byte after it. *)
Lemma final_buffer (size : nat) (rest : bytes) :
  (length rest < size)%nat ->
  <[length rest := 0x80]> (memcpy (replicate size 0) 0 rest) =
  rest ++ 0x80 :: replicate (size - 1 - length rest) 0.
Proof.
  intros Hr. unfold memcpy. rewrite take_0, app_nil_l, Nat.add_0_l.
  rewrite insert_app_r_alt, Nat.sub_diag by lia. f_equal.
  rewrite drop_replicate. replace (size - length rest)%nat with (S (size - 1 - length rest)) by lia.
  done.
Qed.

Lemma drop_div_length (data : bytes) :
  length (drop (64 * (length data / 64)) data) = (length data mod 64)%nat.
Proof. rewrite length_drop. pose proof (Nat.div_mod_eq (length data) 64). lia. Qed.

Lemma replicate_split (a b n : nat) (x : Z) :
  (a + b)%nat = n -> replicate n x = replicate a x ++ replicate b x.
Proof. intros <-. apply replicate_add. Qed.

#[local] Opaque sha1_block fips_sha1_block sha256_block be32_store.

Definition sha1_digest (h : state5) : bytes :=
  let '(h0, h1, h2, h3, h4) := h in concat (map be32_store [h0; h1; h2; h3; h4]).

Lemma fips_sha1_fold (data : bytes) :
  sha1_digest (fold_left sha1_block (parse (pad_message data)) sha1_init) = fips_sha1 data.
Proof.
  refine (f_equal sha1_digest (fold_left_ext _ _ _ _ _)). intros h b. apply sha1_block_fips.
Qed.

Lemma sha1_correct (data : bytes) : strim_sha1 data = fips_sha1 data.
Proof.
  rewrite <- fips_sha1_fold.
  unfold strim_sha1, sha1_digest. rewrite sha1_blocks_spec by lia.
  rewrite parse_pad, fold_left_app. rewrite drop_div_length.
  set (n := (length data / 64)%nat). set (tail := drop (64 * n) data).
  set (h := fold_left _ _ sha1_init).
  assert (Htail : length tail = (length data mod 64)%nat) by apply drop_div_length.
  assert (Hr : (length data mod 64 < 64)%nat) by (apply Nat.mod_upper_bound; lia).
  rewrite <- Htail in *. rewrite final_buffer by done.
  set (bits := u64 _). clearbody h bits tail.
  rewrite Nat.leb_antisym. destruct (Nat.ltb_spec (length tail) 56) as [Hlt|Hge]; cbn [negb].
  - rewrite (replicate_split (55 - length tail) 8 (64 - 1 - length tail)) by lia.
    rewrite app_comm_cons, app_assoc, put_length_spec; [| |done].
    2: { rewrite length_app; simpl. rewrite length_replicate. lia. }
    cbn [fold_left]. rewrite <- app_assoc.
    destruct (sha1_block h _) as [[[[? ?] ?] ?] ?]. simpl. done.
  - rewrite (replicate_split 56 8 64), put_length_spec by done.
    replace (64 - 1 - length tail)%nat with (63 - length tail)%nat by lia.
    cbn [fold_left].
    destruct (sha1_block _ (replicate 56 0 ++ _)) as [[[[? ?] ?] ?] ?]. simpl. done.
Qed.

Lemma fold_blocks_index {A} (f : A -> bytes -> A) (n : nat) (data : bytes) (h : A) :
  fold_left (fun h i => f h (take 64 (drop (64 * i) data))) (seq 0 n) h =
  fold_left f (blocks n data) h.
Proof.
  assert (H : forall k h, fold_left (fun h i => f h (take 64 (drop (64 * i) data))) (seq k n) h =
    fold_left f (blocks n (drop (64 * k) data)) h).
  { clear h. induction n as [|n IH]; intros k h; [done|]. cbn [seq fold_left blocks].
    rewrite IH, drop_drop. by replace (64 * k + 64)%nat with (64 * S k)%nat by lia. }
  rewrite H. by rewrite Nat.mul_0_r, drop_0.
Qed.

Lemma blocks_take (n : nat) (data : bytes) : blocks n (take (64 * n) data) = blocks n data.
Proof.
  revert data. induction n as [|n IH]; intros data; [done|]. cbn [blocks].
  rewrite take_take, skipn_firstn_comm.
  replace (64 `min` (64 * S n))%nat with 64%nat by lia.
  replace (64 * S n - 64)%nat with (64 * n)%nat by lia. by rewrite IH.
Qed.

Lemma sha256_correct (data : bytes) : strim_sha256 data = fips_sha256 data.
Proof.
  unfold strim_sha256, fips_sha256. rewrite fold_blocks_index, parse_pad, fold_left_app, blocks_take.
  set (n := (length data / 64)%nat). set (tail := drop (64 * n) data).
  set (h := fold_left _ _ sha256_init).
  assert (Htail : length tail = (length data mod 64)%nat) by apply drop_div_length.
  assert (Hr : (length data mod 64 < 64)%nat) by (apply Nat.mod_upper_bound; lia).
  rewrite <- Htail in *.
  replace (if (0 <? length tail)%nat then memcpy (replicate 128 0) 0 tail else replicate 128 0)
    with (memcpy (replicate 128 0) 0 tail) by (by destruct tail).
  rewrite final_buffer by lia. set (bits := u64 _). clearbody h bits tail.
  destruct (Nat.ltb_spec (length tail) 56) as [Hlt|Hge].
  - rewrite (replicate_split (55 - length tail) (8 + 64) (128 - 1 - length tail)) by lia.
    rewrite replicate_add, app_comm_cons, app_assoc, put_bitlen_spec; [| |done].
    2: { rewrite length_app; simpl. rewrite length_replicate. lia. }
    rewrite app_assoc, take_app_le.
    2: { rewrite !length_app; simpl. rewrite length_replicate, ?length_be64. lia. }
    rewrite take_ge by (rewrite !length_app; simpl; rewrite length_replicate, ?length_be64; lia).
    rewrite <- app_assoc. cbn [fold_left].
    destruct (sha256_block h _) as [[[[[[[? ?] ?] ?] ?] ?] ?] ?]. simpl. done.
  - rewrite (replicate_split (63 - length tail) (56 + 8) (128 - 1 - length tail)) by lia.
    rewrite replicate_add, app_comm_cons, app_assoc.
    assert (Hb : length (tail ++ 128 :: replicate (63 - length tail) 0) = 64%nat)
      by (rewrite length_app; simpl; rewrite length_replicate; lia).
    rewrite app_assoc, <- (app_nil_r (replicate 8 0)).
    rewrite put_bitlen_spec; [| |done].
    2: { by rewrite length_app, Hb. }
    rewrite app_nil_r, <- (app_assoc (tail ++ _) (replicate 56 0)).
    rewrite take_app_le, drop_app_le by lia.
    rewrite (take_ge (tail ++ _)), (drop_ge (tail ++ _)) by lia. cbn [app fold_left].
    rewrite (take_ge (replicate 56 0 ++ _)) by done.
    destruct (sha256_block _ (replicate 56 0 ++ _)) as [[[[[[[? ?] ?] ?] ?] ?] ?] ?]. simpl. done.
Qed.

#[local] Transparent be32_store.

(** both digests are the standard's.  For every message, of any length,
    the SHA-1 and SHA-256 routines, which pad inside fixed buffers and absorb
    block by block, return the digest FIPS 180-4 defines on the padded message
    (a message of 56 or more trailing bytes takes the extra block); the RFC
    test message hashes as published. *)
Theorem digests_are_fips :
  (forall data, strim_sha1 data = fips_sha1 data) /\
  (forall data, strim_sha256 data = fips_sha256 data) /\
  strim_sha1 (lit "abc") =
    [0xa9; 0x99; 0x3e; 0x36; 0x47; 0x06; 0x81; 0x6a; 0xba; 0x3e;
     0x25; 0x71; 0x78; 0x50; 0xc2; 0x6c; 0x9c; 0xd0; 0xd8; 0x9d] /\
  strim_sha256_format (strim_sha256 (lit "abc")) =
    lit "sha256:ba7816bf8f01cfea414140de5dae2223b00361a396177a9cb410ff61f20015ad".
Proof.
  split_and!; [apply sha1_correct | apply sha256_correct | |]; vm_compute; reflexivity.
Qed.

(** ** The digest text *)

(** The value of a lower-case hexadecimal digit. *)
Definition hex_value (c : Z) : Z :=
  if (chr "0" <=? c) && (c <=? chr "9") then c - chr "0"
  else if (chr "a" <=? c) && (c <=? chr "f") then c - chr "a" + 10 else -1.

Fixpoint unhex (s : cstring) : bytes :=
  match s with
  | a :: b :: s' => (hex_value a * 16 + hex_value b) :: unhex s'
  | _ => []
  end.

Definition hex_pair (d : Z) : cstring :=
  [at_ hex_digits (Z.to_nat (Z.shiftr d 4)); at_ hex_digits (Z.to_nat (Z.land d 0xf))].

Lemma unhex_pairs (l : bytes) : bytes_ok l -> unhex (concat (map hex_pair l)) = l.
Proof.
  induction 1 as [|d l Hd Hl IH]; [done|]. cbn [map concat]. unfold hex_pair at 1. cbn [app unhex].
  rewrite IH. f_equal.
  apply Z.eqb_eq.
  refine (all_bytes (fun d => hex_value (at_ hex_digits (Z.to_nat (Z.shiftr d 4))) * 16 +
    hex_value (at_ hex_digits (Z.to_nat (Z.land d 0xf))) =? d) _ d Hd). by vm_compute.
Qed.

Lemma format_is_pairs (d : bytes) :
  length d = 32%nat -> strim_sha256_format d = lit "sha256:" ++ concat (map hex_pair d).
Proof.
  intros Hd. unfold strim_sha256_format. f_equal. f_equal.
  rewrite <- Hd. exact (map_lookup_seq hex_pair d).
Qed.

Lemma length_be32_store (h : Z) : length (be32_store h) = 4%nat.
Proof. done. Qed.

Lemma be32_store_ok (h : Z) : bytes_ok (be32_store h).
Proof. repeat constructor; by apply wrap_range. Qed.

Lemma sha1_digest_length (data : bytes) : length (strim_sha1 data) = 20%nat.
Proof.
  unfold strim_sha1. destruct (sha1_blocks _ _ _) as [h rest]. cbv zeta.
  destruct (if (56 <=? length rest)%nat then _ else _) as [h' block].
  destruct (sha1_block h' _) as [[[[? ?] ?] ?] ?].
  by rewrite !length_app, !length_be32_store.
Qed.

Lemma sha256_digest_ok (data : bytes) :
  length (strim_sha256 data) = 32%nat /\ bytes_ok (strim_sha256 data).
Proof.
  unfold strim_sha256.
  match goal with |- context [let '(_, _) := ?o in _] =>
    destruct o as [[[[[[[? ?] ?] ?] ?] ?] ?] ?] end.
  split; [rewrite !length_app, !length_be32_store; done|].
  rewrite !bytes_ok_app. split_and!; apply be32_store_ok.
Qed.

(** the digest text determines the digest.  [strim_sha256_format] writes
    "sha256:" and 64 lower-case hexadecimal digits (71 characters, so the
    72-byte buffer holds it with its NUL) from which the 32 bytes are read
    back; so two blobs have the same digest text exactly when they have the
    same SHA-256. *)
Theorem sha256_text_roundtrip (data data' : bytes) :
  let text := strim_sha256_format (strim_sha256 data) in
  length text = 71%nat /\ starts_with (lit "sha256:") text = true /\
  unhex (drop 7 text) = strim_sha256 data /\
  (text = strim_sha256_format (strim_sha256 data') <-> strim_sha256 data = strim_sha256 data').
Proof.
  cbv zeta. destruct (sha256_digest_ok data) as [Hl Hb], (sha256_digest_ok data') as [Hl' Hb'].
  rewrite !format_is_pairs by done.
  assert (Hlen : forall l, length (concat (map hex_pair l)) = (2 * length l)%nat).
  { intros l. induction l as [|x l IH]; cbn [map concat]; [done|].
    rewrite length_app, IH. simpl. lia. }
  assert (Hd : forall l, drop 7 (lit "sha256:" ++ l) = l) by done.
  split_and!.
  - rewrite length_app, Hlen, Hl. done.
  - apply starts_with_spec. eauto.
  - rewrite Hd. by apply unhex_pairs.
  - split; [|congruence]. intros He%(f_equal (drop 7)). rewrite !Hd in He.
    apply (f_equal unhex) in He. by rewrite !unhex_pairs in He.
Qed.
