(* ===== verification/Base64.v ===== *)
(** * Base64 (http/ws_crypto.c)

    The encoder and the decoder of the WebSocket handshake, with their buffer
    capacities, and their round trip. *)

From S2P Require Import Prelude.

Definition b64_alphabet : cstring :=
  lit "ABCDEFGHIJKLMNOPQRSTUVWXYZabcdefghijklmnopqrstuvwxyz0123456789+/".

(** [b64_alphabet[v & 0x3f]] *)
Definition b64_char (v : Z) : Z := default 0 (b64_alphabet !! Z.to_nat (Z.land v 0x3f)).

(** The encoding loop, three source bytes at a time, and its tail. *)
Fixpoint encode_groups (src : bytes) : cstring :=
  match src with
  | a :: b :: c :: src' =>
      let v := Z.lor (Z.lor (Z.shiftl a 16) (Z.shiftl b 8)) c in
      b64_char (Z.shiftr v 18) :: b64_char (Z.shiftr v 12) :: b64_char (Z.shiftr v 6) ::
      b64_char v :: encode_groups src'
  | [a; b] =>
      let v := Z.lor (Z.shiftl a 16) (Z.shiftl b 8) in
      [b64_char (Z.shiftr v 18); b64_char (Z.shiftr v 12); b64_char (Z.shiftr v 6); chr "="]
  | [a] =>
      let v := Z.shiftl a 16 in
      [b64_char (Z.shiftr v 18); b64_char (Z.shiftr v 12); chr "="; chr "="]
  | [] => []
  end.

(** [4 * ((src_len + 2) / 3) + 1] *)
Definition encoded_need (src_len : Z) : Z := 4 * ((src_len + 2) / 3) + 1.

(** The returned length and the text left in [out] ([None]: untouched). *)
Definition strim_base64_encode (src : option bytes) (out : bool) (out_cap : Z)
  : Z * option cstring :=
  match src with
  | None => (0, None)
  | Some src =>
      if negb out then (0, None)
      else if out_cap <? encoded_need (Z.of_nat (length src)) then (0, None)
      else let text := encode_groups src in (strlen text, Some text)
  end.

Definition b64_value (c : Z) : Z :=
  if (chr "A" <=? c) && (c <=? chr "Z") then c - chr "A"
  else if (chr "a" <=? c) && (c <=? chr "z") then c - chr "a" + 26
  else if (chr "0" <=? c) && (c <=? chr "9") then c - chr "0" + 52
  else if c =? chr "+" then 62
  else if c =? chr "/" then 63
  else -1.

(** The bytes one group of four characters decodes to. *)
Definition decode_quad (c0 c1 c2 c3 : Z) : option bytes :=
  let v0 := b64_value c0 in
  let v1 := b64_value c1 in
  let v2 := if c2 =? chr "=" then 0 else b64_value c2 in
  let v3 := if c3 =? chr "=" then 0 else b64_value c3 in
  if (v0 <? 0) || (v1 <? 0) || (v2 <? 0) || (v3 <? 0) then None
  else if (c2 =? chr "=") && negb (c3 =? chr "=") then None
  else Some (u8 (Z.lor (Z.shiftl v0 2) (Z.shiftr v1 4)) ::
             (if c2 =? chr "=" then [] else [u8 (Z.lor (Z.shiftl v1 4) (Z.shiftr v2 2))]) ++
             (if c3 =? chr "=" then [] else [u8 (Z.lor (Z.shiftl v2 6) v3)])).

(** The decoding loop; [o] bytes are already in [out]. *)
Fixpoint decode_groups (inp : cstring) (o out_cap : Z) : option bytes :=
  match inp with
  | c0 :: c1 :: c2 :: c3 :: inp' =>
      match decode_quad c0 c1 c2 c3 with
      | None => None
      | Some bs =>
          if out_cap <? o + Z.of_nat (length bs) then None
          else match decode_groups inp' (o + Z.of_nat (length bs)) out_cap with
               | None => None
               | Some rest => Some (bs ++ rest)
               end
      end
  | _ => Some []
  end.

(** [Some bs]: 0 is returned, [bs] is in [out] and its length in [*out_len]. *)
Definition strim_base64_decode (inp : option cstring) (out : bool) (out_cap : Z)
  : option bytes :=
  match inp with
  | None => None
  | Some inp =>
      if negb out then None
      else if (strlen inp =? 0) || negb (strlen inp mod 4 =? 0) then None
      else decode_groups inp 0 out_cap
  end.

(** ** Groups *)
Lemma b64_char_value (v : Z) : 0 <= v < 64 ->
  b64_value (b64_char v) = v /\ (b64_char v =? chr "=") = false.
Proof.
  intros Hv.
  assert (H : (b64_value (b64_char v) =? v) && negb (b64_char v =? chr "=") || (64 <=? v) = true).
  { refine (all_bytes (fun v => (b64_value (b64_char v) =? v) && negb (b64_char v =? chr "=") || (64 <=? v)) _ v _);
      [by vm_compute | split; lia]. }
  destruct (Z.leb_spec 64 v); [lia|]. rewrite orb_false_r in H.
  by apply andb_true_iff in H as [H1%Z.eqb_eq H2%negb_true_iff].
Qed.

Lemma b64_char_land (v : Z) : b64_char v = b64_char (Z.land v 63).
Proof. unfold b64_char. by rewrite <- Z.land_assoc. Qed.

Lemma land63 (v : Z) : 0 <= Z.land v 63 < 64.
Proof. change 63 with (2 ^ 6 - 1). rewrite land_ones_mod by lia. by apply Z.mod_pos_bound. Qed.

(** A quad of encoded values. *)
Definition sextet (v k : Z) : Z := Z.land (Z.shiftr v k) 63.

Lemma decode_chars (v : Z) :
  decode_quad (b64_char (Z.shiftr v 18)) (b64_char (Z.shiftr v 12)) (b64_char (Z.shiftr v 6)) (b64_char v) =
  Some [u8 (Z.lor (Z.shiftl (sextet v 18) 2) (Z.shiftr (sextet v 12) 4));
        u8 (Z.lor (Z.shiftl (sextet v 12) 4) (Z.shiftr (sextet v 6) 2));
        u8 (Z.lor (Z.shiftl (sextet v 6) 6) (sextet v 0))].
Proof.
  unfold decode_quad. rewrite !(b64_char_land (Z.shiftr v _)), (b64_char_land v).
  change (Z.land (Z.shiftr v 18) 63) with (sextet v 18).
  change (Z.land (Z.shiftr v 12) 63) with (sextet v 12).
  change (Z.land (Z.shiftr v 6) 63) with (sextet v 6).
  replace (Z.land v 63) with (sextet v 0) by (unfold sextet; by rewrite Z.shiftr_0_r).
  destruct (b64_char_value (sextet v 18)) as [-> _]; [apply land63|].
  destruct (b64_char_value (sextet v 12)) as [-> _]; [apply land63|].
  destruct (b64_char_value (sextet v 6)) as [-> ->]; [apply land63|].
  destruct (b64_char_value (sextet v 0)) as [-> ->]; [apply land63|].
  assert (Hn : forall k, (sextet v k <? 0) = false)
    by (intros; apply Z.ltb_ge, land63).
  by rewrite !Hn.
Qed.

Lemma sextet_arith (v k : Z) : 0 <= k -> sextet v k = (v / 2 ^ k) mod 64.
Proof.
  intros. unfold sextet. change 63 with (2 ^ 6 - 1). rewrite land_ones_mod by lia.
  by rewrite Z.shiftr_div_pow2.
Qed.

(** The three bytes packed in a 24-bit value. *)
Lemma sextets_repack (v : Z) :
  0 <= v < 2 ^ 24 ->
  u8 (Z.lor (Z.shiftl (sextet v 18) 2) (Z.shiftr (sextet v 12) 4)) = v / 2 ^ 16 /\
  u8 (Z.lor (Z.shiftl (sextet v 12) 4) (Z.shiftr (sextet v 6) 2)) = (v / 2 ^ 8) mod 2 ^ 8 /\
  u8 (Z.lor (Z.shiftl (sextet v 6) 6) (sextet v 0)) = v mod 2 ^ 8.
Proof.
  intros Hv. rewrite !sextet_arith, !Z.shiftr_div_pow2 by lia. unfold wrap.
  rewrite !lor_shiftl_add by (try done; Z.div_mod_to_equations; lia).
  split_and!; Z.div_mod_to_equations; lia.
Qed.

Lemma pack3 (a b c : Z) :
  byte_ok a -> byte_ok b -> byte_ok c ->
  Z.lor (Z.lor (Z.shiftl a 16) (Z.shiftl b 8)) c = a * 2 ^ 16 + b * 2 ^ 8 + c.
Proof.
  unfold byte_ok. intros Ha Hb Hc.
  replace (Z.shiftl a 16) with (Z.shiftl (Z.shiftl a 8) 8) by (by rewrite Z.shiftl_shiftl).
  rewrite <- Z.shiftl_lor, lor_shiftl_add by lia.
  rewrite lor_shiftl_add by lia. lia.
Qed.

Lemma decode_quad_pad1 (c0 c1 c2 : Z) (x y z : Z) :
  (c2 =? chr "=") = false -> decode_quad c0 c1 c2 (b64_char 0) = Some [x; y; z] ->
  decode_quad c0 c1 c2 (chr "=") = Some [x; y].
Proof.
  unfold decode_quad. intros ->. change (b64_char 0 =? chr "=") with false.
  change (chr "=" =? chr "=") with true. cbv zeta. cbn [andb negb].
  change (b64_value (b64_char 0)) with 0. destruct (_ || _); [done|].
  intros H. simpl in *. congruence.
Qed.

Lemma decode_quad_pad2 (c0 c1 : Z) (x y z : Z) :
  decode_quad c0 c1 (b64_char 0) (b64_char 0) = Some [x; y; z] ->
  decode_quad c0 c1 (chr "=") (chr "=") = Some [x].
Proof.
  unfold decode_quad. change (b64_char 0 =? chr "=") with false.
  change (chr "=" =? chr "=") with true. cbv zeta. cbn [andb negb].
  change (b64_value (b64_char 0)) with 0. destruct (_ || _); [done|].
  intros H. simpl in *. congruence.
Qed.

Lemma decode_triple (a b c : Z) :
  byte_ok a -> byte_ok b -> byte_ok c ->
  let v := Z.lor (Z.lor (Z.shiftl a 16) (Z.shiftl b 8)) c in
  decode_quad (b64_char (Z.shiftr v 18)) (b64_char (Z.shiftr v 12)) (b64_char (Z.shiftr v 6))
    (b64_char v) = Some [a; b; c].
Proof.
  intros Ha Hb Hc v. subst v. rewrite decode_chars, pack3 by done. unfold byte_ok in *.
  destruct (sextets_repack (a * 2 ^ 16 + b * 2 ^ 8 + c)) as (-> & -> & ->); [lia|].
  repeat f_equal; Z.div_mod_to_equations; lia.
Qed.

Lemma b64_zero (v : Z) : Z.land v 63 = 0 -> b64_char v = b64_char 0.
Proof. intros H. rewrite b64_char_land, H. done. Qed.

Lemma decode_pair (a b : Z) :
  byte_ok a -> byte_ok b ->
  let v := Z.lor (Z.shiftl a 16) (Z.shiftl b 8) in
  decode_quad (b64_char (Z.shiftr v 18)) (b64_char (Z.shiftr v 12)) (b64_char (Z.shiftr v 6))
    (chr "=") = Some [a; b].
Proof.
  intros Ha Hb v. pose proof (decode_triple a b 0 Ha Hb ltac:(by split)) as H. cbv zeta in H.
  rewrite Z.lor_0_r in H. fold v in H. eapply decode_quad_pad1.
  - rewrite b64_char_land. apply b64_char_value, land63.
  - rewrite <- H. f_equal. symmetry. apply b64_zero. unfold v.
    rewrite <- (Z.lor_0_r (Z.lor _ _)), pack3 by (try done; by split).
    change 63 with (2 ^ 6 - 1). rewrite land_ones_mod by lia. Z.div_mod_to_equations; lia.
Qed.

Lemma decode_single (a : Z) :
  byte_ok a ->
  let v := Z.shiftl a 16 in
  decode_quad (b64_char (Z.shiftr v 18)) (b64_char (Z.shiftr v 12)) (chr "=") (chr "=") = Some [a].
Proof.
  intros Ha v. pose proof (decode_triple a 0 0 Ha ltac:(by split) ltac:(by split)) as H.
  cbv zeta in H. rewrite Z.shiftl_0_l, !Z.lor_0_r in H. fold v in H. eapply decode_quad_pad2.
  assert (Hz : forall k, k = 0 \/ k = 6 -> Z.land (Z.shiftr v k) 63 = 0).
  { intros k Hk. change 63 with (2 ^ 6 - 1). rewrite land_ones_mod by lia.
    rewrite Z.shiftr_div_pow2 by lia. unfold v. rewrite Z.shiftl_mul_pow2 by lia.
    destruct Hk as [-> | ->]; Z.div_mod_to_equations; lia. }
  rewrite <- H. f_equal; symmetry; apply b64_zero; [auto|].
  rewrite <- (Z.shiftr_0_r v). auto.
Qed.

(** ** Round trip *)
Lemma triples_ind (P : bytes -> Prop) :
  P [] -> (forall a, P [a]) -> (forall a b, P [a; b]) ->
  (forall a b c l, P l -> P (a :: b :: c :: l)) -> forall l, P l.
Proof.
  intros H0 H1 H2 H3. fix IH 1. intros [|a [|b [|c l]]];
    [exact H0 | apply H1 | apply H2 | apply H3, IH].
Qed.

Lemma encode_length (src : bytes) :
  strlen (encode_groups src) = 4 * ((Z.of_nat (length src) + 2) / 3).
Proof.
  unfold strlen. induction src as [| a | a b | a b c l IH] using triples_ind; try done.
  cbn [encode_groups length]. rewrite !Nat2Z.inj_succ. Z.div_mod_to_equations. lia.
Qed.

Lemma decode_cons (c0 c1 c2 c3 : Z) (inp : cstring) (bs rest : bytes) (o cap : Z) :
  decode_quad c0 c1 c2 c3 = Some bs -> o + Z.of_nat (length bs) <= cap ->
  decode_groups inp (o + Z.of_nat (length bs)) cap = Some rest ->
  decode_groups (c0 :: c1 :: c2 :: c3 :: inp) o cap = Some (bs ++ rest).
Proof.
  intros Hq Hc Hd. cbn [decode_groups]. rewrite Hq.
  rewrite (proj2 (Z.ltb_ge _ _)) by lia. by rewrite Hd.
Qed.

Lemma decode_encode (src : bytes) (o cap : Z) :
  bytes_ok src -> o + Z.of_nat (length src) <= cap ->
  decode_groups (encode_groups src) o cap = Some src.
Proof.
  revert o. induction src as [| a | a b | a b c l IH] using triples_ind; intros o Hok Hcap;
    cbn [encode_groups]; repeat (apply Forall_cons in Hok as [? Hok]).
  - done.
  - by apply (decode_cons _ _ _ _ [] [a] []); [apply decode_single|..].
  - by apply (decode_cons _ _ _ _ [] [a; b] []); [apply decode_pair|..].
  - apply (decode_cons _ _ _ _ _ [a; b; c] l); [by apply decode_triple | simpl in *; lia |].
    apply IH; [done | simpl in *; lia].
Qed.

(** base64 round trip.  Every non-empty byte string is encoded whenever
    the buffer has room for its text and the NUL, the text is exactly
    [4 * ceil(n / 3)] characters long, and decoding it into a buffer of at
    least [n] bytes gives the bytes back; a buffer one byte too small is
    refused and left alone. *)
Theorem base64_roundtrip (src : bytes) (out_cap dec_cap : Z) :
  bytes_ok src -> src <> [] -> Z.of_nat (length src) <= dec_cap ->
  if encoded_need (Z.of_nat (length src)) <=? out_cap
  then exists text, strim_base64_encode (Some src) true out_cap = (strlen text, Some text) /\
         strlen text + 1 = encoded_need (Z.of_nat (length src)) /\
         strim_base64_decode (Some text) true dec_cap = Some src
  else strim_base64_encode (Some src) true out_cap = (0, None).
Proof.
  intros Hok Hne Hcap. unfold strim_base64_encode. cbn [negb].
  rewrite Z.ltb_antisym. destruct (Z.leb_spec (encoded_need (Z.of_nat (length src))) out_cap); [|done].
  exists (encode_groups src). split; [done|].
  pose proof (encode_length src) as Hl. unfold encoded_need. split; [lia|].
  unfold strim_base64_decode. rewrite Hl. cbn [negb].
  assert (Hpos : 0 < (Z.of_nat (length src) + 2) / 3).
  { destruct src; [done|]. simpl length. rewrite Nat2Z.inj_succ. Z.div_mod_to_equations. lia. }
  rewrite (proj2 (Z.eqb_neq _ 0)) by lia.
  rewrite (Z.mul_comm 4), Z_mod_mult. cbn [orb negb Z.eqb]. by apply decode_encode.
Qed.

Lemma base64_roundtrip_witness :
  exists text, strim_base64_encode (Some (lit "any carnal")) true 17 = (strlen text, Some text) /\
    strim_base64_decode (Some text) true 10 = Some (lit "any carnal").
Proof.
  destruct (base64_roundtrip (lit "any carnal") 17 10) as (text & H1 & _ & H2);
    [apply lit_bytes_ok | done | by vm_compute |].
  exists text. split; [exact H1 | exact H2].
Defined.

(** ** What the decoder accepts *)
Lemma decode_quad_length (c0 c1 c2 c3 : Z) (bs : bytes) :
  decode_quad c0 c1 c2 c3 = Some bs -> (1 <= length bs <= 3)%nat /\ bytes_ok bs.
Proof.
  unfold decode_quad. intros H. repeat case_match; simplify_eq; simpl;
    (split; [lia | repeat constructor; apply wrap_range; lia]).
Qed.

Lemma quads_ind (P : cstring -> Prop) :
  P [] -> (forall a, P [a]) -> (forall a b, P [a; b]) -> (forall a b c, P [a; b; c]) ->
  (forall a b c d l, P l -> P (a :: b :: c :: d :: l)) -> forall l, P l.
Proof.
  intros H0 H1 H2 H3 H4. fix IH 1. intros [|a [|b [|c [|d l]]]];
    [exact H0 | apply H1 | apply H2 | apply H3 | apply H4, IH].
Qed.

Lemma decode_groups_bounds (inp : cstring) (o cap : Z) (bs : bytes) :
  decode_groups inp o cap = Some bs -> o <= cap ->
  bytes_ok bs /\ o + Z.of_nat (length bs) <= cap /\
  4 * Z.of_nat (length bs) <= 3 * strlen inp /\
  strlen inp - 3 <= 4 * Z.of_nat (length bs).
Proof.
  unfold strlen. revert o bs.
  induction inp as [| a | a b | a b c | a b c d l IH] using quads_ind; intros o bs H Ho;
    try (simpl in H; simplify_eq; simpl; split_and!; [constructor | lia..]).
  cbn [decode_groups] in H. destruct (decode_quad a b c d) as [q|] eqn:Hq; [|done].
  apply decode_quad_length in Hq as [Hq Hok]. destruct (Z.ltb_spec cap (o + Z.of_nat (length q))); [done|].
  destruct (decode_groups l _ cap) as [rest|] eqn:Hr; simplify_eq.
  apply IH in Hr as (? & ? & ? & ?); [|lia]. rewrite length_app. cbn [length].
  split_and!; [by apply Forall_app | lia..].
Qed.

(** the decoder is bounded.  Whatever the input, decoding never stores
    more than [out_cap] bytes nor more than three per four characters; an
    accepted input is non-empty, a multiple of four long, and decodes to at
    least one byte per four characters.  In particular a handshake key that
    decodes into exactly 16 bytes is at most 64 characters long, so key and
    GUID fit the 128-byte handshake buffer. *)
Theorem base64_decode_bounds (inp : cstring) (out_cap : Z) (bs : bytes) :
  0 <= out_cap -> strim_base64_decode (Some inp) true out_cap = Some bs ->
  bytes_ok bs /\ Z.of_nat (length bs) <= out_cap /\
  inp <> [] /\ strlen inp mod 4 = 0 /\
  strlen inp / 4 <= Z.of_nat (length bs) <= 3 * (strlen inp / 4) /\
  (length bs = 16%nat -> strlen inp <= 64 /\ strlen inp + 36 <= 128).
Proof.
  intros Hcap H. unfold strim_base64_decode in H. cbn [negb] in H.
  destruct (strlen inp =? 0) eqn:E0; [done|].
  destruct (strlen inp mod 4 =? 0) eqn:E4; [|done]. bool_props. cbn [orb negb] in H.
  destruct (decode_groups_bounds _ _ _ _ H Hcap) as (Hok & Hc & Hu & Hl).
  split_and!; try done; try (intros ->; done); try (Z.div_mod_to_equations; lia).
Qed.

Lemma base64_decode_bounds_witness :
  exists bs, strim_base64_decode (Some (lit "dGhlIHNhbXBsZSBub25jZQ==")) true 16 = Some bs /\
    Z.of_nat (length bs) <= 16 /\ strlen (lit "dGhlIHNhbXBsZSBub25jZQ==") <= 64.
Proof.
  eexists. split; [vm_compute; reflexivity|].
  edestruct (base64_decode_bounds (lit "dGhlIHNhbXBsZSBub25jZQ==") 16)
    as (_ & H1 & _ & _ & _ & H2); [lia | vm_compute; reflexivity |].
  split; [exact H1 | apply H2; reflexivity].
Defined.

(** Padding is accepted in any group of the input, not only in the last. *)
Lemma base64_decode_accepts_inner_padding :
  strim_base64_decode (Some (lit "AA==AA==")) true 16 = Some [0; 0].
Proof. by vm_compute. Qed.
