(* ===== verification/MiniPb.v ===== *)
(** * Protobuf wire helpers and content reads (containerd/minipb.h, content.c)

    The growable encoding buffer, the field encoders and the fixed-buffer
    walker, and the decoding of ReadContentResponse messages; round trips of
    the encoders with the walker, and what the decoder does on any message
    built from well-formed fields.

    The reader's state is the list of the bytes it has not consumed
    ([data + off .. data + len)).  Whether [realloc] can provide a buffer of
    a given capacity is the parameter [alloc]. *)

From S2P Require Import Prelude.

Definition MPB_WT_VARINT : Z := 0.
Definition MPB_WT_64BIT : Z := 1.
Definition MPB_WT_LEN : Z := 2.
Definition MPB_WT_32BIT : Z := 5.

(** ** Encoding *)

Record mpb_buf := MpbBuf { data : bytes; cap : Z }.

Definition buf_len (b : mpb_buf) : Z := Z.of_nat (length (data b)).

(** [while (ncap < need) ncap *= 2]; 64 doublings take any start past
    2^63. *)
Fixpoint grow (fuel : nat) (ncap need : Z) : Z :=
  match fuel with
  | O => ncap
  | S fuel' => if ncap <? need then grow fuel' (ncap * 2) need else ncap
  end.

Section Encoders.
Variable alloc : Z -> bool.

Definition mpb_reserve (b : mpb_buf) (extra : Z) : option mpb_buf :=
  let need := buf_len b + extra in
  if need <=? cap b then Some b
  else let ncap := grow 64 (if cap b =? 0 then 64 else cap b) need in
       if alloc ncap then Some (MpbBuf (data b) ncap) else None.

(** Append [bs] if room can be made; otherwise the buffer is unchanged. *)
Definition append (b : mpb_buf) (bs : bytes) : mpb_buf :=
  match mpb_reserve b (Z.of_nat (length bs)) with
  | None => b
  | Some b' => MpbBuf (data b' ++ bs) (cap b')
  end.

Definition mpb_put_u8 (b : mpb_buf) (v : Z) : mpb_buf := append b [v].

(** The bytes [tmp[0..n)] of a varint; 10 iterations cover 64 bits. *)
Fixpoint varint_bytes (fuel : nat) (v : Z) : bytes :=
  match fuel with
  | O => []
  | S fuel' =>
      if 0x80 <=? v then u8 (Z.lor v 0x80) :: varint_bytes fuel' (Z.shiftr v 7) else [u8 v]
  end.

Definition mpb_put_varint (b : mpb_buf) (v : Z) : mpb_buf := append b (varint_bytes 10 v).

Definition mpb_tag (field wiretype : Z) : Z := Z.lor (u64 (Z.shiftl field 3)) wiretype.

Definition mpb_put_tag (b : mpb_buf) (field wiretype : Z) : mpb_buf :=
  mpb_put_varint b (mpb_tag field wiretype).

Definition mpb_put_len (b : mpb_buf) (payload : bytes) : mpb_buf :=
  append (mpb_put_varint b (Z.of_nat (length payload))) payload.

Definition mpb_put_string (b : mpb_buf) (field : Z) (s : option cstring) : mpb_buf :=
  match s with
  | None | Some [] => b
  | Some s => mpb_put_len (mpb_put_tag b field MPB_WT_LEN) s
  end.

Definition mpb_put_bytes (b : mpb_buf) (field : Z) (payload : bytes) : mpb_buf :=
  match payload with
  | [] => b
  | _ => mpb_put_len (mpb_put_tag b field MPB_WT_LEN) payload
  end.

Definition mpb_put_int64 (b : mpb_buf) (field v : Z) : mpb_buf :=
  if v =? 0 then b else mpb_put_varint (mpb_put_tag b field MPB_WT_VARINT) (u64 v).

Definition mpb_put_bool (b : mpb_buf) (field : Z) (v : bool) : mpb_buf :=
  if negb v then b else mpb_put_u8 (mpb_put_tag b field MPB_WT_VARINT) 1.

Definition mpb_put_message (b : mpb_buf) (field : Z) (sub : mpb_buf) : mpb_buf :=
  match data sub with
  | [] => b
  | _ => mpb_put_len (mpb_put_tag b field MPB_WT_LEN) (data sub)
  end.

End Encoders.

Definition mpb_empty : mpb_buf := MpbBuf [] 0.

(** ** Decoding *)

Fixpoint rd_varint (rest : bytes) (v shift : Z) : option (Z * bytes) :=
  match rest with
  | [] => None
  | b :: rest' =>
      let v := Z.lor v (u64 (Z.shiftl (Z.land b 0x7f) shift)) in
      if Z.land b 0x80 =? 0 then Some (v, rest')
      else if 63 <? shift + 7 then None
      else rd_varint rest' v (shift + 7)
  end.

Definition mpb_rd_varint (rest : bytes) : option (Z * bytes) := rd_varint rest 0 0.

(** A conversion to [int]. *)
Definition to_int (v : Z) : Z := (v + 2 ^ 31) mod 2 ^ 32 - 2 ^ 31.

Definition mpb_rd_tag (rest : bytes) : option (Z * Z * bytes) :=
  match rest with
  | [] => None
  | _ =>
      match mpb_rd_varint rest with
      | None => None
      | Some (tag, rest') => Some (to_int (Z.shiftr tag 3), Z.land tag 7, rest')
      end
  end.

Definition mpb_rd_len (rest : bytes) : option (bytes * bytes) :=
  match mpb_rd_varint rest with
  | None => None
  | Some (len, rest') =>
      if Z.of_nat (length rest') <? len then None
      else Some (take (Z.to_nat len) rest', drop (Z.to_nat len) rest')
  end.

Definition mpb_rd_skip (rest : bytes) (wiretype : Z) : option bytes :=
  if wiretype =? MPB_WT_VARINT then snd <$> mpb_rd_varint rest
  else if wiretype =? MPB_WT_64BIT then
    (if Z.of_nat (length rest) <? 8 then None else Some (drop 8 rest))
  else if wiretype =? MPB_WT_LEN then snd <$> mpb_rd_len rest
  else if wiretype =? MPB_WT_32BIT then
    (if Z.of_nat (length rest) <? 4 then None else Some (drop 4 rest))
  else None.

(** ** ReadContentResponse (content.c) *)

(** One iteration per field; every field consumes at least its tag byte, so
    the length of the body is enough fuel.  [None]: -1 is returned.  [alloc]
    is whether the accumulator can grow to a capacity; the capacity itself
    only matters to it. *)
Fixpoint decode_fields (alloc : Z -> bool) (fuel : nat) (rest acc : bytes) (acc_cap max_len : Z)
  : option (bytes * Z) :=
  match fuel with
  | O => None
  | S fuel' =>
    match rest with
    | [] => Some (acc, acc_cap)
    | _ =>
      match mpb_rd_tag rest with
      | None => None
      | Some (field, wiretype, rest1) =>
        if (field =? 2) && (wiretype =? MPB_WT_LEN) then
          match mpb_rd_len rest1 with
          | None => None
          | Some (p, rest2) =>
            let need := Z.of_nat (length acc) + Z.of_nat (length p) in
            if max_len <? need then None
            else if acc_cap <? need then
              let ncap := grow 64 (if acc_cap =? 0 then 4096 else acc_cap) need in
              if alloc ncap then decode_fields alloc fuel' rest2 (acc ++ p) ncap max_len else None
            else decode_fields alloc fuel' rest2 (acc ++ p) acc_cap max_len
          end
        else match mpb_rd_skip rest1 wiretype with
             | None => None
             | Some rest2 => decode_fields alloc fuel' rest2 acc acc_cap max_len
             end
      end
    end
  end.

Definition decode_read_response (alloc : Z -> bool) (body acc : bytes) (acc_cap max_len : Z)
  : option (bytes * Z) :=
  decode_fields alloc (S (length body)) body acc acc_cap max_len.

Definition H2C_ERR_TIMEOUT : Z := -1.
Definition H2C_ERR_PROTO : Z := -3.
Definition H2C_ERR_BADARG : Z := -7.
Definition H2C_ERR_STREAM_END : Z := -11.

(** What an opened stream delivers: its messages in order, then the code of
    the [h2c_stream_next] call that ends the loop. *)
Record stream_outcome := StreamOutcome { so_messages : list bytes; so_last : Z }.

Fixpoint read_messages (alloc : Z -> bool) (msgs : list bytes) (last : Z) (acc : bytes)
    (acc_cap max_len : Z) : Z + bytes :=
  match msgs with
  | [] => if last =? H2C_ERR_STREAM_END then inr acc else inl last
  | m :: msgs' =>
      match decode_read_response alloc m acc acc_cap max_len with
      | None => inl H2C_ERR_PROTO
      | Some (acc', cap') => read_messages alloc msgs' last acc' cap' max_len
      end
  end.

(** [open] is [h2c_stream_open] on the request body: an error code, or what
    the stream delivers; [args] is whether no pointer argument is NULL. *)
Definition content_read_blob (alloc : Z -> bool) (open : bytes -> Z + stream_outcome)
    (args : bool) (digest : cstring) (max_len : Z) : Z + bytes :=
  if negb args then inl H2C_ERR_BADARG
  else match open (data (mpb_put_string alloc mpb_empty 1 (Some digest))) with
       | inl rc => inl rc
       | inr st => read_messages alloc (so_messages st) (so_last st) [] 0 max_len
       end.

(** ** Varints *)
Lemma to_int_small (v : Z) : - 2 ^ 31 <= v < 2 ^ 31 -> to_int v = v.
Proof. intros H. unfold to_int. rewrite Z.mod_small; lia. Qed.

Lemma low7 (v : Z) : 0 <= v -> Z.land (u8 (Z.lor v 0x80)) 0x7f = Z.land v 0x7f.
Proof.
  intros Hv. unfold wrap. rewrite <- land_ones_mod by lia. rewrite <- Z.land_assoc.
  change (Z.land (2 ^ 8 - 1) 127) with 127. rewrite Z.land_lor_distr_l.
  change (Z.land 128 127) with 0. apply Z.lor_0_r.
Qed.

Lemma high_bit (v : Z) : Z.land (u8 (Z.lor v 0x80)) 0x80 = 0x80.
Proof.
  unfold wrap. rewrite <- land_ones_mod by lia. rewrite <- Z.land_assoc.
  change (Z.land (2 ^ 8 - 1) 128) with 128. rewrite Z.land_lor_distr_l.
  apply Z.bits_inj'. intros i Hi. rewrite Z.lor_spec, !Z.land_spec.
  by destruct (Z.testbit v i), (Z.testbit 128 i).
Qed.

Lemma split7 (v : Z) : 0 <= v -> Z.lor (Z.land v 127) (Z.shiftl (Z.shiftr v 7) 7) = v.
Proof.
  intros Hv. change 127 with (2 ^ 7 - 1). rewrite land_ones_mod by lia.
  rewrite Z.lor_comm, lor_shiftl_add by (try lia; apply Z.mod_pos_bound; lia).
  rewrite Z.shiftr_div_pow2 by lia. rewrite Z.mul_comm. symmetry. apply Z.div_mod. lia.
Qed.

Lemma small_byte (v : Z) : 0 <= v < 128 -> u8 v = v /\ Z.land v 0x7f = v /\ Z.land v 0x80 = 0.
Proof.
  intros Hv. split_and!; [by apply wrap_small; lia | |].
  - change 127 with (2 ^ 7 - 1). rewrite land_ones_mod, Z.mod_small by lia. done.
  - apply Z.bits_inj'. intros i Hi. rewrite Z.land_spec, Z.bits_0.
    change 128 with (2 ^ 7). rewrite Z.pow2_bits_eqb by lia.
    destruct (Z.eqb_spec 7 i) as [<-|]; [|apply andb_false_r].
    rewrite andb_true_r, <- (Z.mod_small v (2 ^ 7)) by lia. by apply Z.mod_pow2_bits_high; lia.
Qed.

Lemma rd_varint_bytes (fuel : nat) (v shift acc : Z) (rest : bytes) :
  0 <= v -> 0 <= shift <= 63 -> v * 2 ^ shift < 2 ^ 64 -> v < 2 ^ (7 * Z.of_nat fuel) ->
  (0 < fuel)%nat ->
  rd_varint (varint_bytes fuel v ++ rest) acc shift = Some (Z.lor acc (Z.shiftl v shift), rest).
Proof.
  revert v shift acc. induction fuel as [|fuel IH]; intros v shift acc Hv Hs Hm Hf H0; [lia|].
  assert (Hp : 0 < 2 ^ shift) by lia.
  cbn [varint_bytes]. destruct (Z.leb_spec 128 v) as [Hge|Hlt].
  - assert (Hsh : shift + 7 < 64).
    { apply (Z.pow_lt_mono_r_iff 2); [lia..|]. rewrite Z.pow_add_r by lia. nia. }
    cbn [app rd_varint]. rewrite low7, high_bit by done. cbn [Z.eqb].
    rewrite (proj2 (Z.ltb_ge 63 (shift + 7))) by lia.
    assert (Hd : v / 128 * 128 <= v) by (Z.div_mod_to_equations; lia).
    rewrite IH; [ | rewrite Z.shiftr_div_pow2 by lia; apply Z.div_pos; lia | lia | | |].
    + f_equal. f_equal. rewrite <- Z.lor_assoc. f_equal.
      assert (Hl : 0 <= Z.land v 127 <= v).
      { change 127 with (2 ^ 7 - 1). rewrite land_ones_mod by lia. split;
          [apply Z.mod_pos_bound; lia | apply Z.mod_le; lia]. }
      rewrite wrap_small by (rewrite Z.shiftl_mul_pow2 by lia; nia).
      rewrite <- (split7 v) at 3 by done. rewrite Z.shiftl_lor, Z.shiftl_shiftl by lia.
      by rewrite Z.add_comm.
    + rewrite Z.shiftr_div_pow2, Z.pow_add_r by lia. change (2 ^ 7) with 128. nia.
    + rewrite Z.shiftr_div_pow2 by lia. apply Z.div_lt_upper_bound; [lia|].
      rewrite <- Z.pow_add_r by lia. rewrite Nat2Z.inj_succ in Hf.
      by replace (7 + 7 * Z.of_nat fuel) with (7 * Z.succ (Z.of_nat fuel)) by lia.
    + destruct fuel; [|lia]. simpl in Hf. lia.
  - destruct (small_byte v) as (Hu & Hl & Hh); [lia|].
    cbn [app rd_varint]. rewrite Hu, Hl, Hh. cbn [Z.eqb].
    rewrite wrap_small; [done|]. rewrite Z.shiftl_mul_pow2 by lia. nia.
Qed.

Lemma varint_roundtrip (v : Z) (rest : bytes) :
  0 <= v < 2 ^ 64 -> mpb_rd_varint (varint_bytes 10 v ++ rest) = Some (v, rest).
Proof.
  intros Hv. unfold mpb_rd_varint. rewrite rd_varint_bytes; [|lia..].
  by rewrite Z.shiftl_0_r.
Qed.

Lemma varint_length (v : Z) (fuel : nat) : (length (varint_bytes fuel v) <= fuel)%nat.
Proof. revert v. induction fuel; intros v; simpl; [lia|]. case_match; simpl; [|lia]. specialize (IHfuel (Z.shiftr v 7)). lia. Qed.

(** ** Messages as lists of fields *)

Inductive pfield :=
  | PVarint (n v : Z)
  | P64 (n : Z) (bs : bytes)
  | PLen (n : Z) (bs : bytes)
  | P32 (n : Z) (bs : bytes).

Definition field_bytes (f : pfield) : bytes :=
  match f with
  | PVarint n v => varint_bytes 10 (mpb_tag n MPB_WT_VARINT) ++ varint_bytes 10 v
  | P64 n bs => varint_bytes 10 (mpb_tag n MPB_WT_64BIT) ++ bs
  | PLen n bs => varint_bytes 10 (mpb_tag n MPB_WT_LEN) ++
                 varint_bytes 10 (Z.of_nat (length bs)) ++ bs
  | P32 n bs => varint_bytes 10 (mpb_tag n MPB_WT_32BIT) ++ bs
  end.

Definition field_no_ok (n : Z) : Prop := 0 <= n < 2 ^ 31.

Definition pfield_ok (f : pfield) : Prop :=
  match f with
  | PVarint n v => field_no_ok n /\ 0 <= v < 2 ^ 64
  | P64 n bs => field_no_ok n /\ length bs = 8%nat
  | PLen n bs => field_no_ok n /\ Z.of_nat (length bs) < 2 ^ 64
  | P32 n bs => field_no_ok n /\ length bs = 4%nat
  end.

Definition message_bytes (fs : list pfield) : bytes := concat (map field_bytes fs).

(** The payload of the data field (number 2). *)
Definition field_payload (f : pfield) : bytes :=
  match f with PLen n bs => if n =? 2 then bs else [] | _ => [] end.

Definition payload (fs : list pfield) : bytes := concat (map field_payload fs).

Lemma mpb_tag_arith (n wt : Z) :
  field_no_ok n -> 0 <= wt < 8 -> mpb_tag n wt = n * 8 + wt.
Proof.
  unfold field_no_ok. intros Hn Hw. unfold mpb_tag.
  rewrite wrap_small by (rewrite Z.shiftl_mul_pow2 by lia; lia).
  rewrite lor_shiftl_add by lia. done.
Qed.

Lemma varint_nonempty (v : Z) (rest : bytes) : varint_bytes 10 v ++ rest <> [].
Proof. cbn [varint_bytes]. by destruct (128 <=? v). Qed.

#[local] Opaque varint_bytes mpb_tag rd_varint.

Lemma rd_tag_roundtrip (n wt : Z) (rest : bytes) :
  field_no_ok n -> 0 <= wt < 8 ->
  mpb_rd_tag (varint_bytes 10 (mpb_tag n wt) ++ rest) = Some (n, wt, rest).
Proof.
  intros Hn Hw. pose proof (mpb_tag_arith n wt Hn Hw) as Ht. unfold field_no_ok in Hn.
  unfold mpb_rd_tag. destruct (_ ++ rest) eqn:E; [by apply varint_nonempty in E|]. rewrite <- E.
  rewrite varint_roundtrip by lia. rewrite Ht, Z.shiftr_div_pow2 by lia.
  replace ((n * 8 + wt) / 2 ^ 3) with n by (Z.div_mod_to_equations; lia).
  change 7 with (2 ^ 3 - 1). rewrite land_ones_mod by lia.
  replace ((n * 8 + wt) mod 2 ^ 3) with wt by (Z.div_mod_to_equations; lia).
  unfold to_int. rewrite Z.mod_small by lia. by replace (n + 2 ^ 31 - 2 ^ 31) with n by lia.
Qed.

Lemma rd_len_roundtrip (bs rest : bytes) :
  Z.of_nat (length bs) < 2 ^ 64 ->
  mpb_rd_len (varint_bytes 10 (Z.of_nat (length bs)) ++ bs ++ rest) = Some (bs, rest).
Proof.
  intros Hl. unfold mpb_rd_len. rewrite varint_roundtrip by lia.
  rewrite (proj2 (Z.ltb_ge _ _)) by (rewrite length_app; lia).
  rewrite Nat2Z.id. by rewrite take_app_length, drop_app_length.
Qed.

(** One field that is not the data field is skipped whole. *)
Lemma rd_skip_roundtrip (f : pfield) (rest : bytes) :
  pfield_ok f ->
  exists n wt body, field_bytes f ++ rest = varint_bytes 10 (mpb_tag n wt) ++ body /\
    field_no_ok n /\ 0 <= wt < 8 /\ mpb_rd_skip body wt = Some rest /\
    (match f with
     | PLen n' bs => n = n' /\ wt = MPB_WT_LEN /\ mpb_rd_len body = Some (bs, rest)
     | PVarint n' _ | P64 n' _ | P32 n' _ => n = n' /\ wt <> MPB_WT_LEN
     end).
Proof.
  destruct f as [n v | n bs | n bs | n bs]; intros [Hn Hb]; cbn [field_bytes];
    eexists n, _, _; rewrite <- ?app_assoc; (split; [reflexivity|]); (split; [done|]);
    (split; [by vm_compute|]).
  - unfold mpb_rd_skip. cbn [Z.eqb MPB_WT_VARINT]. by rewrite varint_roundtrip.
  - unfold mpb_rd_skip. simpl. rewrite length_app, Hb.
    rewrite (proj2 (Z.ltb_ge _ _)) by lia. split; [|done]. f_equal. by apply drop_app_length'.
  - assert (Hr := rd_len_roundtrip bs rest Hb). unfold mpb_rd_skip. simpl. rewrite Hr. done.
  - unfold mpb_rd_skip. simpl. rewrite length_app, Hb.
    rewrite (proj2 (Z.ltb_ge _ _)) by lia. split; [|done]. f_equal. by apply drop_app_length'.
Qed.

Lemma decode_fields_step (alloc : Z -> bool) (fuel : nat) (n wt : Z) (body acc : bytes)
    (acc_cap max_len : Z) :
  field_no_ok n -> 0 <= wt < 8 ->
  decode_fields alloc (S fuel) (varint_bytes 10 (mpb_tag n wt) ++ body) acc acc_cap max_len =
  if (n =? 2) && (wt =? MPB_WT_LEN) then
    match mpb_rd_len body with
    | None => None
    | Some (p, rest2) =>
      let need := Z.of_nat (length acc) + Z.of_nat (length p) in
      if max_len <? need then None
      else if acc_cap <? need then
        let ncap := grow 64 (if acc_cap =? 0 then 4096 else acc_cap) need in
        if alloc ncap then decode_fields alloc fuel rest2 (acc ++ p) ncap max_len else None
      else decode_fields alloc fuel rest2 (acc ++ p) acc_cap max_len
    end
  else match mpb_rd_skip body wt with
       | None => None
       | Some rest2 => decode_fields alloc fuel rest2 acc acc_cap max_len
       end.
Proof.
  intros Hn Hw. cbn [decode_fields].
  destruct (_ ++ body) eqn:E; [by apply varint_nonempty in E|]. rewrite <- E.
  by rewrite rd_tag_roundtrip.
Qed.

Lemma payload_cons (f : pfield) (fs : list pfield) :
  payload (f :: fs) = field_payload f ++ payload fs.
Proof. done. Qed.

Lemma decode_fields_spec (fs : list pfield) (fuel : nat) (acc : bytes) (acc_cap max_len : Z) :
  Forall pfield_ok fs -> (length fs < fuel)%nat ->
  Z.of_nat (length acc) <= max_len ->
  fst <$> decode_fields (fun _ => true) fuel (message_bytes fs) acc acc_cap max_len =
  if Z.of_nat (length acc + length (payload fs)) <=? max_len
  then Some (acc ++ payload fs) else None.
Proof.
  revert fuel acc acc_cap. induction fs as [|f fs IH]; intros fuel acc acc_cap Hok Hf Ha;
    (destruct fuel as [|fuel]; [simpl in Hf; lia|]).
  - cbn. rewrite Nat.add_0_r, app_nil_r. by rewrite (proj2 (Z.leb_le _ _)).
  - apply Forall_cons in Hok as [Hf1 Hok]. unfold message_bytes. cbn [map concat].
    fold (message_bytes fs).
    destruct (rd_skip_roundtrip f (message_bytes fs) Hf1) as (n & wt & body & -> & Hn & Hw & Hskip & Hlen).
    rewrite decode_fields_step by done. rewrite payload_cons, length_app.
    cbn [length] in Hf.
    assert (Hother : field_payload f = [] -> (n =? 2) && (wt =? MPB_WT_LEN) = false ->
      fst <$> (if (n =? 2) && (wt =? MPB_WT_LEN) then None else
        match mpb_rd_skip body wt with
        | None => None
        | Some rest2 => decode_fields (fun _ => true) fuel rest2 acc acc_cap max_len
        end) = (if Z.of_nat (length acc + (length (field_payload f) + length (payload fs))) <=? max_len
               then Some (acc ++ field_payload f ++ payload fs) else None)).
    { intros -> ->. rewrite Hskip. cbn [length app Nat.add]. apply IH; [done | lia | done]. }
    destruct f as [n' v | n' bs | n' bs | n' bs];
      try (assert (E : (wt =? MPB_WT_LEN) = false) by (by apply Z.eqb_neq, Hlen);
           rewrite E, andb_false_r in *; by apply Hother).
    destruct Hlen as (-> & -> & Hlen). cbn [field_payload] in *.
    change (MPB_WT_LEN =? MPB_WT_LEN) with true in *. rewrite andb_true_r in *.
    destruct (n' =? 2) eqn:E; [|by apply Hother].
    rewrite Hlen. cbv zeta.
    rewrite Nat2Z.inj_add, Nat2Z.inj_add, Z.add_assoc, app_assoc.
    destruct (Z.ltb_spec max_len (Z.of_nat (length acc) + Z.of_nat (length bs))) as [Hgt|Hle].
    { rewrite (proj2 (Z.leb_gt _ _)) by lia. done. }
    assert (Hl : Z.of_nat (length (acc ++ bs)) <= max_len) by (rewrite length_app; lia).
    destruct (acc_cap <? _); rewrite IH by (done || lia); rewrite length_app;
      rewrite !Nat2Z.inj_add; done.
Qed.

Lemma field_bytes_nonempty (f : pfield) : (1 <= length (field_bytes f))%nat.
Proof.
  destruct (field_bytes f) eqn:E; [|simpl; lia].
  destruct f; cbn [field_bytes] in E; by apply varint_nonempty in E.
Qed.

Lemma message_length (fs : list pfield) : (length fs <= length (message_bytes fs))%nat.
Proof.
  induction fs as [|f fs IH]; [done|]. unfold message_bytes in *. cbn [map concat length].
  rewrite length_app. pose proof (field_bytes_nonempty f). lia.
Qed.

(** content messages decode to their data.  For every message made of
    well-formed fields, in any order and with any unknown fields of the four
    wire types mixed in, decoding appends exactly the payloads of field 2 to
    the accumulator when the total stays within the caller's bound and fails
    otherwise; the fuel (the body length) is always enough. *)
Theorem read_response_decodes (fs : list pfield) (acc : bytes) (acc_cap max_len : Z) :
  Forall pfield_ok fs -> Z.of_nat (length acc) <= max_len ->
  fst <$> decode_read_response (fun _ => true) (message_bytes fs) acc acc_cap max_len =
  if Z.of_nat (length acc + length (payload fs)) <=? max_len
  then Some (acc ++ payload fs) else None.
Proof.
  intros Hok Ha. unfold decode_read_response. apply decode_fields_spec; [done | | done].
  pose proof (message_length fs). lia.
Qed.

Lemma read_response_decodes_witness :
  fst <$> decode_read_response (fun _ => true)
    (message_bytes [PVarint 1 300; PLen 2 [7; 8]; P32 9 [0; 0; 0; 0]; PLen 2 [9]]) [1] 0 100 =
  Some [1; 7; 8; 9].
Proof.
  refine (eq_trans (read_response_decodes [PVarint 1 300; PLen 2 [7; 8]; P32 9 [0; 0; 0; 0]; PLen 2 [9]]
                      [1] 0 100 _ _) _).
  - repeat constructor; by vm_compute.
  - by vm_compute.
  - reflexivity.
Defined.

(** Whatever the bytes, decoding only extends the accumulator and never past
    the bound, with a capacity that covers it. *)
Lemma decode_fields_bounds (alloc : Z -> bool) (fuel : nat) (rest acc acc' : bytes)
    (acc_cap acc_cap' max_len : Z) :
  decode_fields alloc fuel rest acc acc_cap max_len = Some (acc', acc_cap') ->
  Z.of_nat (length acc) <= max_len ->
  Z.of_nat (length acc') <= max_len /\ exists p, acc' = acc ++ p.
Proof.
  revert rest acc acc_cap. induction fuel as [|fuel IH]; intros rest acc acc_cap H Ha; [done|].
  cbn [decode_fields] in H. destruct rest as [|b rest]; [simplify_eq; split; [done | exists []; by rewrite app_nil_r]|].
  destruct (mpb_rd_tag _) as [[[field wt] rest1]|]; [|done].
  destruct (_ && _).
  - destruct (mpb_rd_len rest1) as [[p rest2]|]; [|done]. cbv zeta in H.
    destruct (Z.ltb_spec max_len (Z.of_nat (length acc) + Z.of_nat (length p))); [done|].
    assert (Hl : Z.of_nat (length (acc ++ p)) <= max_len) by (rewrite length_app; lia).
    repeat case_match; try done; destruct (IH _ _ _ H Hl) as [? [p' ->]]; split; try done;
      exists (p ++ p'); by rewrite app_assoc.
  - destruct (mpb_rd_skip _ _); [|done]. by eapply IH.
Qed.

(** ** The encoders *)
Lemma append_data (b : mpb_buf) (bs : bytes) :
  data (append (fun _ => true) b bs) = data b ++ bs.
Proof. unfold append, mpb_reserve. by destruct (_ <=? _). Qed.

Lemma put_len_data (b : mpb_buf) (bs : bytes) :
  data (mpb_put_len (fun _ => true) b bs) = data b ++ varint_bytes 10 (Z.of_nat (length bs)) ++ bs.
Proof. unfold mpb_put_len, mpb_put_varint. by rewrite !append_data, <- app_assoc. Qed.

Lemma put_tag_data (b : mpb_buf) (n wt : Z) :
  data (mpb_put_tag (fun _ => true) b n wt) = data b ++ varint_bytes 10 (mpb_tag n wt).
Proof. apply append_data. Qed.

(** The fields an encoder call appends: none for a default value. *)
Definition string_field (n : Z) (s : bytes) : list pfield :=
  match s with [] => [] | _ => [PLen n s] end.
Definition int64_field (n v : Z) : list pfield := if v =? 0 then [] else [PVarint n (u64 v)].

Lemma message_bytes_one (f : pfield) : message_bytes [f] = field_bytes f.
Proof. unfold message_bytes. cbn [map concat]. apply app_nil_r. Qed.

Lemma put_string_data (b : mpb_buf) (n : Z) (s : cstring) :
  data (mpb_put_string (fun _ => true) b n (Some s)) = data b ++ message_bytes (string_field n s).
Proof.
  unfold mpb_put_string, string_field. destruct s as [|c s]; [by rewrite app_nil_r|].
  by rewrite put_len_data, put_tag_data, message_bytes_one, <- app_assoc.
Qed.

Lemma put_bytes_data (b : mpb_buf) (n : Z) (s : bytes) :
  data (mpb_put_bytes (fun _ => true) b n s) = data b ++ message_bytes (string_field n s).
Proof.
  unfold mpb_put_bytes, string_field. destruct s as [|c s]; [by rewrite app_nil_r|].
  by rewrite put_len_data, put_tag_data, message_bytes_one, <- app_assoc.
Qed.

Lemma put_message_data (b sub : mpb_buf) (n : Z) :
  data (mpb_put_message (fun _ => true) b n sub) = data b ++ message_bytes (string_field n (data sub)).
Proof.
  unfold mpb_put_message, string_field. destruct (data sub) as [|c s]; [by rewrite app_nil_r|].
  by rewrite put_len_data, put_tag_data, message_bytes_one, <- app_assoc.
Qed.

Lemma put_int64_data (b : mpb_buf) (n v : Z) :
  data (mpb_put_int64 (fun _ => true) b n v) = data b ++ message_bytes (int64_field n v).
Proof.
  unfold mpb_put_int64, int64_field. destruct (v =? 0); [by rewrite app_nil_r|].
  unfold mpb_put_varint. by rewrite append_data, put_tag_data, message_bytes_one, <- app_assoc.
Qed.

Lemma put_bool_data (b : mpb_buf) (n : Z) (v : bool) :
  data (mpb_put_bool (fun _ => true) b n v) = data b ++ message_bytes (int64_field n (Z.b2z v)).
Proof.
  unfold mpb_put_bool, int64_field. destruct v; cbn [negb Z.b2z Z.eqb]; [|by rewrite app_nil_r].
  unfold mpb_put_u8. rewrite append_data, put_tag_data, message_bytes_one, <- app_assoc.
  reflexivity.
Qed.

(** The walker's reading of one field: number, wire type, body consumed. *)
Definition walk (rest : bytes) : option (Z * Z * bytes) :=
  match mpb_rd_tag rest with
  | None => None
  | Some (n, wt, rest1) =>
      match mpb_rd_skip rest1 wt with None => None | Some rest2 => Some (n, wt, rest2) end
  end.

(** encoder round trip.  With memory available every encoder appends
    either nothing (a proto3 default value) or exactly one field, and the
    walker reads that field's number and wire type back and stops exactly at
    the bytes that follow it, for field numbers below 2^31 and payloads below
    2^64 bytes; length-delimited payloads and 64-bit varints are read back
    unchanged. *)
Theorem minipb_roundtrip (b : mpb_buf) (n v : Z) (s rest : bytes) :
  field_no_ok n -> Z.of_nat (length s) < 2 ^ 64 -> s <> [] -> v <> 0 ->
  exists e1 e2,
    data (mpb_put_string (fun _ => true) b n (Some s)) = data b ++ e1 /\
    data (mpb_put_bytes (fun _ => true) b n s) = data b ++ e1 /\
    data (mpb_put_int64 (fun _ => true) b n v) = data b ++ e2 /\
    walk (e1 ++ rest) = Some (n, MPB_WT_LEN, rest) /\
    walk (e2 ++ rest) = Some (n, MPB_WT_VARINT, rest) /\
    (exists r1, mpb_rd_tag (e1 ++ rest) = Some (n, MPB_WT_LEN, r1) /\ mpb_rd_len r1 = Some (s, rest)) /\
    (exists r2, mpb_rd_tag (e2 ++ rest) = Some (n, MPB_WT_VARINT, r2) /\
                mpb_rd_varint r2 = Some (u64 v, rest)).
Proof.
  intros Hn Hs Hne Hv. exists (field_bytes (PLen n s)), (field_bytes (PVarint n (u64 v))).
  assert (Hr1 : forall r, mpb_rd_tag (field_bytes (PLen n s) ++ r) =
    Some (n, MPB_WT_LEN, varint_bytes 10 (Z.of_nat (length s)) ++ s ++ r)).
  { intros r. cbn [field_bytes]. rewrite <- !app_assoc. by apply rd_tag_roundtrip. }
  assert (Hr2 : forall r, mpb_rd_tag (field_bytes (PVarint n (u64 v)) ++ r) =
    Some (n, MPB_WT_VARINT, varint_bytes 10 (u64 v) ++ r)).
  { intros r. cbn [field_bytes]. rewrite <- !app_assoc. by apply rd_tag_roundtrip. }
  assert (Hl := rd_len_roundtrip s rest Hs).
  assert (Hvr : mpb_rd_varint (varint_bytes 10 (u64 v) ++ rest) = Some (u64 v, rest))
    by (apply varint_roundtrip, wrap_range; lia).
  rewrite put_string_data, put_bytes_data, put_int64_data. unfold string_field, int64_field.
  rewrite (proj2 (Z.eqb_neq v 0)) by done.
  destruct s as [|c s]; [done|]. rewrite !message_bytes_one.
  unfold walk. rewrite !Hr1, !Hr2. unfold mpb_rd_skip. cbn [Z.eqb MPB_WT_LEN MPB_WT_VARINT MPB_WT_64BIT].
  rewrite Hl, Hvr. split_and!; try done; eexists; split; done.
Qed.

Lemma minipb_roundtrip_witness :
  exists e1, data (mpb_put_string (fun _ => true) mpb_empty 1 (Some (lit "sha256:00"))) = e1 /\
    walk (e1 ++ [5]) = Some (1, MPB_WT_LEN, [5]).
Proof.
  destruct (minipb_roundtrip mpb_empty 1 7 (lit "sha256:00") [5])
    as (e1 & e2 & H1 & _ & _ & H2 & _); [by split | done | done | done |].
  exists e1. split; [exact H1 | exact H2].
Defined.

(** Without memory for the payload an encoder stops in the middle of a field:
    the tag and the length are in the buffer and the payload is not. *)
Lemma put_string_truncates_without_memory :
  data (mpb_put_string (fun c => c <=? 64) mpb_empty 1 (Some (replicate 100 (chr "a")))) = [0x0a; 100].
Proof. by vm_compute. Qed.

(** ** Reading a blob *)
Lemma read_messages_spec (fss : list (list pfield)) (acc : bytes) (acc_cap max_len : Z) :
  Forall (Forall pfield_ok) fss -> Z.of_nat (length acc) <= max_len ->
  read_messages (fun _ => true) (map message_bytes fss) H2C_ERR_STREAM_END acc acc_cap max_len =
  if Z.of_nat (length acc + length (concat (map payload fss))) <=? max_len
  then inr (acc ++ concat (map payload fss)) else inl H2C_ERR_PROTO.
Proof.
  revert acc acc_cap. induction fss as [|fs fss IH]; intros acc acc_cap Hok Ha.
  - cbn. rewrite Nat.add_0_r, app_nil_r. by rewrite (proj2 (Z.leb_le _ _)).
  - apply Forall_cons in Hok as [Hf Hok]. cbn [map read_messages concat].
    pose proof (decode_fields_spec fs (S (length (message_bytes fs))) acc acc_cap max_len Hf
      ltac:(pose proof (message_length fs); lia) Ha) as Hd.
    unfold decode_read_response. rewrite length_app, app_assoc.
    destruct (decode_fields _ _ _ _ _ _) as [[acc' cap']|]; simpl in Hd;
      destruct (Z.leb_spec (Z.of_nat (length acc + length (payload fs))) max_len); try done.
    + simplify_eq. rewrite IH by (done || rewrite length_app; lia).
      rewrite length_app, Nat.add_assoc. done.
    + rewrite (proj2 (Z.leb_gt _ _)) by lia. done.
Qed.

Lemma read_messages_bounded (alloc : Z -> bool) (msgs : list bytes) (last : Z) (acc blob : bytes)
    (acc_cap max_len : Z) :
  read_messages alloc msgs last acc acc_cap max_len = inr blob ->
  Z.of_nat (length acc) <= max_len -> Z.of_nat (length blob) <= max_len /\ last = H2C_ERR_STREAM_END.
Proof.
  revert acc acc_cap. induction msgs as [|m msgs IH]; intros acc acc_cap H Ha; simpl in H.
  - destruct (Z.eqb_spec last H2C_ERR_STREAM_END); by simplify_eq.
  - destruct (decode_read_response _ _ _ _ _) as [[acc' cap']|] eqn:E; [|done].
    destruct (decode_fields_bounds _ _ _ _ _ _ _ _ E Ha). by eapply IH.
Qed.

(** reading a blob.  The request asks for exactly the given digest; when
    the server's stream delivers well-formed responses and ends cleanly, the
    blob returned is the concatenation of their data fields, or
    H2C_ERR_PROTO when it would exceed the caller's bound; and whatever the
    server sends, a blob that is returned fits the bound and came from a
    stream that ended cleanly. *)
Theorem content_read_blob_correct (digest : cstring) (max_len : Z) (fss : list (list pfield))
    (open : bytes -> Z + stream_outcome) :
  0 <= max_len -> Forall (Forall pfield_ok) fss ->
  open (message_bytes (string_field 1 digest)) =
    inr (StreamOutcome (map message_bytes fss) H2C_ERR_STREAM_END) ->
  content_read_blob (fun _ => true) open true digest max_len =
    (if Z.of_nat (length (concat (map payload fss))) <=? max_len
     then inr (concat (map payload fss)) else inl H2C_ERR_PROTO) /\
  (forall alloc open' args blob, content_read_blob alloc open' args digest max_len = inr blob ->
     Z.of_nat (length blob) <= max_len).
Proof.
  intros Hm Hok Hopen. split.
  - unfold content_read_blob. cbn [negb]. rewrite put_string_data. cbn [data mpb_empty app].
    rewrite Hopen. cbn [so_messages so_last]. by rewrite read_messages_spec.
  - intros alloc open' args blob H. unfold content_read_blob in H. destruct args; [|done].
    cbn [negb] in H. destruct (open' _) as [|st]; [done|].
    eapply read_messages_bounded; [exact H | done].
Qed.

Lemma content_read_blob_correct_witness :
  content_read_blob (fun _ => true)
    (fun req => if bool_decide (req = message_bytes (string_field 1 (lit "sha256:00")))
                then inr (StreamOutcome [message_bytes [PLen 2 [1; 2]]; message_bytes [PVarint 1 2; PLen 2 [3]]] H2C_ERR_STREAM_END)
                else inl H2C_ERR_PROTO) true (lit "sha256:00") 10 = inr [1; 2; 3].
Proof.
  refine (eq_trans (proj1 (content_read_blob_correct (lit "sha256:00") 10
    [[PLen 2 [1; 2]]; [PVarint 1 2; PLen 2 [3]]] _ _ _ _)) _).
  - done.
  - repeat constructor; by vm_compute.
  - by vm_compute.
  - reflexivity.
Defined.
