(* ===== verification/Http.v ===== *)
(** * The HTTP lane (http/http_server.c): requests

    Address and header parsing, the Go-style duration parser of
    WEBSOCKET_WRITE_TIMEOUT, the per-request session, request dispatch and
    the WebSocket handshake.

    A response records what the code hands to libmicrohttpd: the bytes
    [0..body_len) of a buffer.  A call whose length exceeds the buffer is the
    outcome [OverRead].  The callbacks into the controller are parameters;
    each returns its result, and dispatch records which of them ran. *)

From S2P Require Import Prelude Hash Base64.

Definition STRIM_HTTP_STATUS_MAX : Z := 4096.
Definition STRIM_HTTP_ERRBUF_MAX : Z := 256.
Definition STRIM_HTTP_BODY_MAX : Z := 16384.
Definition STRIM_HTTP_ERR_BADJSON : Z := -100.
Definition WS_WRITE_TIMEOUT_DEFAULT_MS : Z := 5000.
Definition WS_GUID : cstring := lit "258EAFA5-E914-47DA-95CA-C5AB0DC85B11".

Inductive http_method := HTTP_M_GET | HTTP_M_POST | HTTP_M_OTHER.

Inductive http_route :=
  | ROUTE_EVENT | ROUTE_CONTROL | ROUTE_STATUS | ROUTE_SUBSCRIBE | ROUTE_HEALTHZ
  | ROUTE_UNKNOWN.

#[global] Instance http_method_eq_dec : EqDecision http_method.
Proof. solve_decision. Defined.
#[global] Instance http_route_eq_dec : EqDecision http_route.
Proof. solve_decision. Defined.

(** ** Parsers *)

Definition is_digit (c : Z) : bool := (chr "0" <=? c) && (c <=? chr "9").
Definition digit (c : Z) : Z := c - chr "0".

(** The digit loop of [parse_port]. *)
Fixpoint port_digits (p : cstring) (v : Z) : Z :=
  match p with
  | [] => v
  | c :: p' =>
      if negb (is_digit c) then -1
      else let v := v * 10 + digit c in
           if 65535 <? v then -1 else port_digits p' v
  end.

Definition parse_port (addr : option cstring) : Z :=
  match addr with
  | Some (c :: p) =>
      if negb (c =? chr ":") then -1
      else match p with
           | [] => -1
           | [z] => if z =? chr "0" then 0 else port_digits p 0
           | _ => port_digits p 0
           end
  | _ => -1
  end.

Definition is_blank (c : Z) : bool := (c =? chr " ") || (c =? 9).

Definition tolower (c : Z) : Z := if (chr "A" <=? c) && (c <=? chr "Z") then c + 32 else c.

(** [strncasecmp(p, token, strlen(token)) == 0] *)
Fixpoint casecmp_prefix (token p : cstring) : bool :=
  match token, p with
  | [], _ => true
  | _, [] => false
  | t :: token', c :: p' => (tolower t =? tolower c) && casecmp_prefix token' p'
  end.

Fixpoint skip_while (f : Z -> bool) (p : cstring) : cstring :=
  match p with
  | [] => []
  | c :: p' => if f c then skip_while f p' else p
  end.

(** [p[token_len]] ends the element: NUL, blank or comma. *)
Definition token_ends (p : cstring) : bool :=
  match p with [] => true | c :: _ => is_blank c || (c =? chr ",") end.

(** The element loop; every iteration consumes at least one character. *)
Fixpoint token_loop (fuel : nat) (p token : cstring) : bool :=
  match fuel with
  | O => false
  | S fuel' =>
      match skip_while (fun c => is_blank c || (c =? chr ",")) p with
      | [] => false
      | p => if casecmp_prefix token p && token_ends (drop (length token) p) then true
             else token_loop fuel' (skip_while (fun c => negb (c =? chr ",")) p) token
      end
  end.

Definition header_contains_token (value : option cstring) (token : cstring) : bool :=
  match value with
  | None => false
  | Some v => token_loop (S (length v)) v token
  end.

Definition method_kind (method : option cstring) : http_method :=
  match method with
  | None => HTTP_M_OTHER
  | Some m => if streq m (lit "GET") then HTTP_M_GET
              else if streq m (lit "POST") then HTTP_M_POST else HTTP_M_OTHER
  end.

Definition method_name (m : http_method) : cstring :=
  match m with HTTP_M_GET => lit "GET" | HTTP_M_POST => lit "POST" | HTTP_M_OTHER => lit "?" end.

Definition route_for (url : option cstring) : http_route :=
  match url with
  | None => ROUTE_UNKNOWN
  | Some u =>
      if streq u (lit "/event") then ROUTE_EVENT
      else if streq u (lit "/control") then ROUTE_CONTROL
      else if streq u (lit "/status") then ROUTE_STATUS
      else if streq u (lit "/subscribe") then ROUTE_SUBSCRIBE
      else if streq u (lit "/healthz") then ROUTE_HEALTHZ
      else ROUTE_UNKNOWN
  end.

(** ** Buffers written by snprintf *)

(** The buffer after [snprintf(buf, cap, ...)] of [text], as far as it is
    determined (the text cut to fit and its NUL), then unspecified bytes up
    to [cap]; the returned value is [strlen text]. *)
Definition snprintf_buf (cap : Z) (junk : bytes) (text : cstring) : bytes :=
  let kept := take (Z.to_nat (cap - 1)) text ++ [0] in
  kept ++ take (Z.to_nat cap - length kept) (junk ++ replicate (Z.to_nat cap) 0).

(** The C string a buffer holds: up to its first NUL. *)
Fixpoint c_string (buf : bytes) : cstring :=
  match buf with
  | [] => []
  | c :: buf' => if c =? 0 then [] else c :: c_string buf'
  end.

Definition quoted_value (v : option cstring) (junk : bytes) (cap : Z) : bytes :=
  match v with
  | None => snprintf_buf cap junk (lit "(nil)")
  | Some v => snprintf_buf cap junk ([34] ++ v ++ [34])
  end.

(** ** Durations (parse_duration_ms) *)

(** The whole part: the digits consumed, its value, the rest; [None]: the
    overflow guard refused. *)
Fixpoint whole_digits (p : cstring) (whole : Z) (has : bool) : option (Z * bool * cstring) :=
  match p with
  | c :: p' =>
      if is_digit c then
        if (UINT64_MAX - 9) / 10 <? whole then None
        else whole_digits p' (u64 (whole * 10 + digit c)) true
      else Some (whole, has, p)
  | [] => Some (whole, has, [])
  end.

(** The fraction: at most nine digits count. *)
Fixpoint frac_digits (p : cstring) (frac : Z) (n : nat) (has : bool)
  : Z * nat * bool * cstring :=
  match p with
  | c :: p' =>
      if is_digit c then
        if (n <? 9)%nat then frac_digits p' (frac * 10 + digit c) (S n) true
        else frac_digits p' frac n true
      else (frac, n, has, p)
  | [] => (frac, n, has, [])
  end.

Definition NS_US : Z := 1000.
Definition NS_MS : Z := 1000000.
Definition NS_S : Z := 1000000000.
Definition NS_M : Z := 60000000000.
Definition NS_H : Z := 3600000000000.

Definition duration_unit (p : cstring) : option (Z * cstring) :=
  if starts_with (lit "ns") p then Some (1, drop 2 p)
  else if starts_with (lit "us") p then Some (NS_US, drop 2 p)
  else if starts_with [0xc2; 0xb5; chr "s"] p then Some (NS_US, drop 3 p)
  else if starts_with (lit "ms") p then Some (NS_MS, drop 2 p)
  else if starts_with (lit "s") p then Some (NS_S, drop 1 p)
  else if starts_with (lit "m") p then Some (NS_M, drop 1 p)
  else if starts_with (lit "h") p then Some (NS_H, drop 1 p)
  else None.

(** The nanoseconds the fraction adds, in 64-bit arithmetic. *)
Definition frac_ns (frac unit_ns : Z) (n : nat) : Z :=
  let scale := 10 ^ Z.of_nat n in
  if frac <=? UINT64_MAX / unit_ns then (frac * unit_ns) / scale
  else u64 ((frac / scale) * unit_ns).

(** The component loop; every iteration consumes its unit. *)
Fixpoint duration_loop (fuel : nat) (p : cstring) (total_ns : Z) : option Z :=
  match p with
  | [] => Some total_ns
  | _ =>
    match fuel with
    | O => None
    | S fuel' =>
      match whole_digits p 0 false with
      | None => None
      | Some (whole, has1, p1) =>
        let '(frac, n, has, p2) :=
          match p1 with
          | c :: p1' => if c =? chr "." then frac_digits p1' 0 0 has1 else (0, 0%nat, has1, p1)
          | [] => (0, 0%nat, has1, [])
          end in
        if negb has then None
        else match duration_unit p2 with
             | None => None
             | Some (unit_ns, p3) =>
               if (UINT64_MAX - total_ns) / unit_ns <? whole then None
               else let total := total_ns + whole * unit_ns in
                    duration_loop fuel' p3
                      (if (0 <? n)%nat then u64 (total + frac_ns frac unit_ns n) else total)
             end
      end
    end
  end.

Definition parse_duration_ms (s : option cstring) : option Z :=
  match s with
  | None | Some [] => None
  | Some ((c :: p) as s) =>
      let '(neg, p) := if c =? chr "-" then (true, p)
                       else if c =? chr "+" then (false, p) else (false, s) in
      match duration_loop (S (length p)) p 0 with
      | None => None
      | Some total_ns => Some (if neg then 0 else total_ns / 1000000)
      end
  end.

(** [raw] is the value of WEBSOCKET_WRITE_TIMEOUT, if set. *)
Definition ws_write_timeout_from_env (raw : option cstring) : Z :=
  match raw with
  | None => WS_WRITE_TIMEOUT_DEFAULT_MS
  | Some _ => default WS_WRITE_TIMEOUT_DEFAULT_MS (parse_duration_ms raw)
  end.

(** ** Responses *)

Record response := Response {
  rs_status : Z;
  rs_content_type : option cstring;
  rs_nosniff : bool;
  rs_body : bytes;
  rs_close : bool;
  rs_version : cstring;
  rs_commit : cstring;
}.

Inductive answer :=
  | Answer (r : response)
  | SwitchProtocols (accept version commit : cstring)
  | OverRead
  | MhdNo.

(** The request headers dispatch looks at ([None]: absent). *)
Record headers := Headers {
  h_connection : option cstring;
  h_upgrade : option cstring;
  h_version : option cstring;
  h_key : option cstring;
}.

Definition MHD_HTTP_OK : Z := 200.
Definition MHD_HTTP_NO_CONTENT : Z := 204.
Definition MHD_HTTP_BAD_REQUEST : Z := 400.
Definition MHD_HTTP_NOT_FOUND : Z := 404.
Definition MHD_HTTP_METHOD_NOT_ALLOWED : Z := 405.
Definition MHD_HTTP_CONTENT_TOO_LARGE : Z := 413.
Definition MHD_HTTP_UPGRADE_REQUIRED : Z := 426.
Definition MHD_HTTP_INTERNAL_SERVER_ERROR : Z := 500.

Definition text_plain : option cstring := Some (lit "text/plain; charset=utf-8").

Definition conn_wants_close (h : headers) : bool :=
  header_contains_token (h_connection h) (lit "close").

Definition normalize_build_value (value : option cstring) : cstring :=
  match value with None | Some [] => lit "unknown" | Some v => v end.

(** ** The per-request session *)

Record http_session := Session {
  s_method : http_method;
  s_route : http_route;
  s_body_overflow : bool;
  s_body : bytes;
}.

(** The first call of the access handler for a request. *)
Definition new_session (method url : option cstring) : http_session :=
  Session (method_kind method) (route_for url) false [].

(** A call that delivers a chunk of the body. *)
Definition upload_chunk (s : http_session) (chunk : bytes) : http_session :=
  if Z.of_nat (length (s_body s)) + Z.of_nat (length chunk) <=? STRIM_HTTP_BODY_MAX
  then Session (s_method s) (s_route s) (s_body_overflow s) (s_body s ++ chunk)
  else Session (s_method s) (s_route s) true (s_body s).

(** ** Dispatch *)

(** Callbacks that ran, in order. *)
Inductive http_call :=
  | CallEvent (body : bytes)
  | CallControl (body : bytes)
  | CallStatus
  | CallReconcile.

Section Dispatch.

(** The callbacks the server was started with: result code and error text
    of the two POST handlers, result code and JSON of the status handler. *)
Variable handle_event handle_control : bytes -> Z * cstring.
Variable handle_status : Z * bytes.
(** The server's build provenance and the unspecified contents of stack
    buffers. *)
Variable build_version build_commit : cstring.
Variable junk : bytes.

Definition respond (status : Z) (content_type : option cstring) (nosniff : bool)
    (buf : bytes) (body_len : Z) (close : bool) : answer :=
  if Z.of_nat (length buf) <? body_len then OverRead
  else Answer (Response status content_type nosniff (take (Z.to_nat body_len) buf) close
                 build_version build_commit).

(** A response whose body was formatted into a buffer of [cap] bytes. *)
Definition respond_formatted (status cap : Z) (text : cstring) (close : bool) : answer :=
  respond status text_plain true (snprintf_buf cap junk text) (strlen text) close.

Definition dispatch_post (s : http_session) (close : bool) : list http_call * answer :=
  if negb (bool_decide (s_method s = HTTP_M_POST)) then
    ([], respond MHD_HTTP_METHOD_NOT_ALLOWED text_plain true
           (lit "method not allowed" ++ [10; 0]) 19 close)
  else if s_body_overflow s then
    ([], respond MHD_HTTP_CONTENT_TOO_LARGE text_plain true [] 0 close)
  else
    let '(call, (rc, err)) :=
      if bool_decide (s_route s = ROUTE_EVENT)
      then (CallEvent (s_body s), handle_event (s_body s))
      else (CallControl (s_body s), handle_control (s_body s)) in
    if negb (rc =? 0) then
      if rc =? STRIM_HTTP_ERR_BADJSON then
        ([call], respond_formatted MHD_HTTP_BAD_REQUEST (STRIM_HTTP_ERRBUF_MAX + 16)
                   (lit "bad json: " ++ err ++ [10]) close)
      else
        let bl := strlen err in
        if bl + 1 <? STRIM_HTTP_ERRBUF_MAX
        then ([call], respond MHD_HTTP_INTERNAL_SERVER_ERROR text_plain true
                        (err ++ [10; 0]) (bl + 1) close)
        else ([call], respond MHD_HTTP_INTERNAL_SERVER_ERROR text_plain true
                        (err ++ [0]) bl close)
    else ([call; CallReconcile], respond MHD_HTTP_NO_CONTENT None false [] 0 close).

Definition violation : cstring := lit "WebSocket protocol violation: ".

(** The accept value: base64 of the SHA-1 of the key and the GUID. *)
Definition accept_value (key : cstring) : Z * option cstring :=
  strim_base64_encode (Some (strim_sha1 (key ++ WS_GUID))) true 32.

Definition dispatch_subscribe (h : headers) (s : http_session) (close : bool) : answer :=
  let quoted v := c_string (quoted_value v junk STRIM_HTTP_ERRBUF_MAX) in
  let cap := STRIM_HTTP_ERRBUF_MAX + 32 in
  if negb (header_contains_token (h_connection h) (lit "upgrade")) then
    respond_formatted MHD_HTTP_UPGRADE_REQUIRED cap
      (violation ++ lit "Connection header " ++ quoted (h_connection h) ++
       lit " does not contain Upgrade" ++ [10]) close
  else if negb (header_contains_token (h_upgrade h) (lit "websocket")) then
    respond_formatted MHD_HTTP_UPGRADE_REQUIRED cap
      (violation ++ lit "Upgrade header " ++ quoted (h_upgrade h) ++
       lit " does not contain websocket" ++ [10]) close
  else if negb (bool_decide (s_method s = HTTP_M_GET)) then
    respond_formatted MHD_HTTP_METHOD_NOT_ALLOWED cap
      (violation ++ lit "handshake request method is not GET but " ++ [34] ++
       method_name (s_method s) ++ [34; 10]) close
  else if negb (bool_decide (h_version h = Some (lit "13"))) then
    respond_formatted MHD_HTTP_UPGRADE_REQUIRED cap
      (violation ++ lit "unsupported WebSocket version requested (only 13 is supported)" ++ [10])
      close
  else match h_key h with
  | None | Some [] =>
      respond MHD_HTTP_BAD_REQUEST text_plain true
        (violation ++ lit "missing Sec-WebSocket-Key" ++ [10; 0]) 58 close
  | Some key =>
      match strim_base64_decode (Some key) true 16 with
      | Some bs =>
          if negb (Z.of_nat (length bs) =? 16) then
            respond MHD_HTTP_BAD_REQUEST text_plain true
              (violation ++ lit "invalid Sec-WebSocket-Key" ++ [10; 0]) 59 close
          else match accept_value key with
               | (n, Some accept) =>
                   if n =? 0 then MhdNo
                   else SwitchProtocols accept build_version build_commit
               | (_, None) => MhdNo
               end
      | None =>
          respond MHD_HTTP_BAD_REQUEST text_plain true
            (violation ++ lit "invalid Sec-WebSocket-Key" ++ [10; 0]) 59 close
      end
  end.

Definition dispatch (h : headers) (s : http_session) : list http_call * answer :=
  let close := conn_wants_close h in
  match s_route s with
  | ROUTE_UNKNOWN =>
      ([], respond MHD_HTTP_NOT_FOUND text_plain true
             (lit "404 page not found" ++ [10; 0]) 19 close)
  | ROUTE_HEALTHZ =>
      ([], respond MHD_HTTP_OK text_plain false (lit "ok" ++ [10; 0]) 3 close)
  | ROUTE_STATUS =>
      if negb (bool_decide (s_method s = HTTP_M_GET)) then
        ([], respond MHD_HTTP_METHOD_NOT_ALLOWED text_plain true
               (lit "method not allowed" ++ [10; 0]) 19 close)
      else
        let '(rc, json) := handle_status in
        if negb (rc =? 0) || (Z.of_nat (length json) =? 0)
        then ([CallStatus], respond MHD_HTTP_INTERNAL_SERVER_ERROR text_plain true [] 0 close)
        else ([CallStatus], respond MHD_HTTP_OK (Some (lit "application/json")) false
                              json (Z.of_nat (length json)) close)
  | ROUTE_EVENT | ROUTE_CONTROL => dispatch_post s close
  | ROUTE_SUBSCRIBE => ([], dispatch_subscribe h s close)
  end.

(** One request as the access handler sees it: headers, the body chunks in
    order, then the final call. *)
Definition answer_cb (h : headers) (method url : option cstring) (chunks : list bytes)
  : list http_call * answer :=
  dispatch h (fold_left upload_chunk chunks (new_session method url)).

End Dispatch.
