(* ===== verification/HttpFacts.v ===== *)
(** * What the HTTP lane answers

    Reference definitions for the parsers, the contract of each route, the
    exact set of requests whose answer reads past its buffer, and the
    WebSocket handshake. *)

From S2P Require Import Prelude Hash Base64 Http.

(** ** parse_port *)

Definition decimal (ds : cstring) : Z := fold_left (fun v c => v * 10 + digit c) ds 0.

Lemma fold_decimal_ge (ds : cstring) (v : Z) :
  forallb is_digit ds = true -> 0 <= v -> v <= fold_left (fun v c => v * 10 + digit c) ds v.
Proof.
  revert v. induction ds as [|c ds IH]; intros v Hd Hv; simpl in *; [lia|].
  apply andb_true_iff in Hd as [Hc Hd]. unfold is_digit, digit in *. bool_props.
  specialize (IH (v * 10 + (c - chr "0")) Hd). lia.
Qed.

Lemma port_digits_spec (p : cstring) (v : Z) :
  0 <= v <= 65535 ->
  port_digits p v =
  if forallb is_digit p && (fold_left (fun v c => v * 10 + digit c) p v <=? 65535)
  then fold_left (fun v c => v * 10 + digit c) p v else -1.
Proof.
  revert v. induction p as [|c p IH]; intros v Hv; cbn [port_digits forallb fold_left].
  - cbn [andb]. by rewrite (proj2 (Z.leb_le _ _)) by lia.
  - destruct (is_digit c) eqn:Hc; [|done]. cbn [negb andb]. cbv zeta.
    assert (Hd : 0 <= digit c <= 9) by (unfold is_digit, digit in *; bool_props; change (chr "0") with 48 in *; change (chr "9") with 57 in *; lia).
    destruct (Z.ltb_spec 65535 (v * 10 + digit c)) as [Hgt|Hle].
    + destruct (forallb is_digit p) eqn:Hp; [|done]. cbn [andb].
      pose proof (fold_decimal_ge p (v * 10 + digit c) Hp ltac:(lia)).
      by rewrite (proj2 (Z.leb_gt _ _)) by lia.
    + apply IH. lia.
Qed.

(** addresses.  [parse_port] accepts exactly the strings ":" followed by
    one or more decimal digits whose value is at most 65535 (leading zeros
    included) and returns that value; everything else, a NULL pointer
    included, gives -1. *)
Theorem parse_port_spec (addr : option cstring) :
  parse_port addr =
  match addr with
  | Some (c :: d :: ds) =>
      if (c =? chr ":") && forallb is_digit (d :: ds) && (decimal (d :: ds) <=? 65535)
      then decimal (d :: ds) else -1
  | _ => -1
  end.
Proof.
  unfold parse_port. destruct addr as [[|c [|d ds]]|]; try done; [by destruct (c =? _)|].
  destruct (c =? chr ":"); [|done]. cbn [negb andb].
  transitivity (port_digits (d :: ds) 0); [|rewrite port_digits_spec by lia; done].
  destruct ds; [|done]. destruct (Z.eqb_spec d (chr "0")) as [->|]; done.
Qed.

(** ** Header tokens *)

Definition is_sep (c : Z) : bool := is_blank c || (c =? chr ",").

(** The elements between commas. *)
Fixpoint split_commas (s : cstring) : list cstring :=
  match s with
  | [] => [[]]
  | c :: s' =>
      if c =? chr "," then [] :: split_commas s'
      else match split_commas s' with
           | e :: es => (c :: e) :: es
           | [] => [[c]]
           end
  end.

(** An element that, after its leading blanks, is the token (in any case),
    possibly followed by a blank and anything else. *)
Definition element_is (token e : cstring) : bool :=
  let e := skip_while is_blank e in
  casecmp_prefix token e &&
  match drop (length token) e with [] => true | c :: _ => is_blank c end.

(** A token proper: not empty, no blanks or commas. *)
Definition token_ok (token : cstring) : bool :=
  negb (bool_decide (token = [])) && forallb (fun c => negb (is_sep c)) token.

Definition has_element (token s : cstring) : bool := existsb (element_is token) (split_commas s).

Lemma tolower_comma (c : Z) : tolower c = chr "," -> c = chr ",".
Proof.
  unfold tolower. change (chr "A") with 65. change (chr "Z") with 90. change (chr ",") with 44.
  destruct ((65 <=? c) && (c <=? 90)) eqn:E; [|done]. intros. bool_props. lia.
Qed.

Lemma element_is_nil (token : cstring) : token_ok token = true -> element_is token [] = false.
Proof. unfold token_ok, element_is. by destruct token. Qed.

Lemma split_commas_cons (c : Z) (s : cstring) :
  (c =? chr ",") = false ->
  exists e es, split_commas s = e :: es /\ split_commas (c :: s) = (c :: e) :: es.
Proof.
  intros Hc. cbn [split_commas]. rewrite Hc.
  destruct (split_commas s) as [|e es] eqn:E; [|eauto].
  exfalso. destruct s as [|x s]; [done|]. cbn [split_commas] in E.
  destruct (x =? _); [done|]. by destruct (split_commas s).
Qed.

Lemma has_element_skip (token s : cstring) :
  token_ok token = true -> has_element token (skip_while is_sep s) = has_element token s.
Proof.
  intros Ht. unfold has_element. induction s as [|c s IH]; [done|].
  cbn [skip_while]. destruct (is_sep c) eqn:Hc; [|done]. rewrite IH.
  unfold is_sep in Hc. destruct (c =? chr ",") eqn:Ec.
  - cbn [split_commas]. rewrite Ec. cbn [existsb]. by rewrite element_is_nil.
  - rewrite orb_false_r in Hc. destruct (split_commas_cons c s Ec) as (e & es & -> & ->).
    cbn [existsb]. f_equal. unfold element_is. cbn [skip_while]. by rewrite Hc.
Qed.

(** The part of [s] before its first comma. *)
Fixpoint before_comma (s : cstring) : cstring :=
  match s with
  | [] => []
  | c :: s' => if c =? chr "," then [] else c :: before_comma s'
  end.

Definition to_comma (s : cstring) : cstring := skip_while (fun c => negb (c =? chr ",")) s.

Lemma has_element_split (token s : cstring) :
  token_ok token = true ->
  has_element token s = element_is token (before_comma s) || has_element token (to_comma s).
Proof.
  intros Ht. unfold has_element, to_comma.
  assert (H : exists es, split_commas s = before_comma s :: es /\
    existsb (element_is token) es =
    existsb (element_is token) (split_commas (skip_while (fun c => negb (c =? chr ",")) s))).
  { induction s as [|c s (es & IH1 & IH2)].
    - exists []. cbn. by rewrite element_is_nil.
    - cbn [before_comma skip_while]. destruct (c =? chr ",") eqn:Ec; cbn [negb].
      + exists (split_commas s). cbn [split_commas]. rewrite Ec. split; [done|].
        cbn [existsb]. by rewrite element_is_nil.
      + destruct (split_commas_cons c s Ec) as (e & es' & He & ->).
        rewrite IH1 in He. simplify_eq. eauto. }
  destruct H as (es & -> & <-). done.
Qed.

Lemma casecmp_before_comma (token s : cstring) :
  forallb (fun c => negb (is_sep c)) token = true ->
  casecmp_prefix token s && token_ends (drop (length token) s) =
  casecmp_prefix token (before_comma s) &&
  match drop (length token) (before_comma s) with [] => true | c :: _ => is_blank c end.
Proof.
  revert s. induction token as [|t token IH]; intros s Ht.
  - cbn [length]. rewrite !drop_0. destruct s as [|c s]; [done|].
    cbn [casecmp_prefix token_ends before_comma]. destruct (c =? chr ","); [by rewrite orb_true_r|].
    by rewrite orb_false_r.
  - cbn [forallb] in Ht. apply andb_true_iff in Ht as [Hs Ht]. destruct s as [|c s]; [done|].
    cbn [before_comma length]. destruct (c =? chr ",") eqn:Ec.
    + cbn [casecmp_prefix]. apply Z.eqb_eq in Ec as ->.
      destruct (Z.eqb_spec (tolower t) (tolower (chr ","))) as [E|]; [|done].
      apply tolower_comma in E as ->. done.
    + cbn [casecmp_prefix drop]. rewrite <- !andb_assoc. f_equal. by apply IH.
Qed.

Lemma skip_while_head (f : Z -> bool) (s : cstring) (c : Z) (r : cstring) :
  skip_while f s = c :: r -> f c = false.
Proof. induction s as [|x s IH]; simpl; [done|]. destruct (f x) eqn:E; [done|]. intros. by simplify_eq. Qed.

Lemma skip_while_length (f : Z -> bool) (s : cstring) : (length (skip_while f s) <= length s)%nat.
Proof. induction s as [|x s IH]; simpl; [lia|]. destruct (f x); simpl; lia. Qed.

Lemma skip_blank_before_comma (s : cstring) (c : Z) (r : cstring) :
  s = c :: r -> is_sep c = false -> skip_while is_blank (before_comma s) = before_comma s.
Proof.
  intros -> Hc. unfold is_sep in Hc. apply orb_false_iff in Hc as [Hb Hc].
  cbn [before_comma]. rewrite Hc. cbn [skip_while]. by rewrite Hb.
Qed.

Lemma token_loop_spec (fuel : nat) (p token : cstring) :
  token_ok token = true -> (length p < fuel)%nat ->
  token_loop fuel p token = has_element token p.
Proof.
  intros Ht. revert p. induction fuel as [|fuel IH]; intros p Hf; [lia|].
  cbn [token_loop]. rewrite <- (has_element_skip token p Ht).
  change (fun c => is_blank c || (c =? chr ",")) with is_sep.
  destruct (skip_while is_sep p) as [|c r] eqn:Es.
  - cbn. by rewrite element_is_nil.
  - pose proof (skip_while_head _ _ _ _ Es) as Hc.
    pose proof (skip_while_length is_sep p) as Hl. rewrite Es in Hl. simpl in Hl.
    rewrite has_element_split by done.
    unfold element_is. rewrite (skip_blank_before_comma (c :: r) c r eq_refl Hc).
    rewrite <- casecmp_before_comma by (apply andb_true_iff in Ht; apply Ht).
    destruct (_ && _); [done|]. cbn [orb]. apply IH. unfold to_comma. cbn [skip_while].
    unfold is_sep in Hc. apply orb_false_iff in Hc as [_ ->]. cbn [negb].
    pose proof (skip_while_length (fun c => negb (c =? chr ",")) r). lia.
Qed.

(** header tokens.  [header_contains_token] finds a token exactly when
    one of the comma-separated elements of the header value is, after its
    leading blanks and in any letter case, the token itself or the token
    followed by a blank; an absent header has no tokens. *)
Theorem header_token_membership (value : option cstring) (token : cstring) :
  token_ok token = true ->
  header_contains_token value token =
  match value with None => false | Some v => has_element token v end.
Proof.
  intros Ht. destruct value as [v|]; [|done]. apply token_loop_spec; [done|]. lia.
Qed.

Lemma header_token_membership_witness :
  header_contains_token (Some (lit "keep-alive, Upgrade")) (lit "upgrade") = true.
Proof.
  rewrite (header_token_membership (Some (lit "keep-alive, Upgrade")) (lit "upgrade"));
    [vm_compute; reflexivity | reflexivity].
Defined.

(** A token that follows another one after a space only is not found. *)
Lemma space_separated_token_missed :
  header_contains_token (Some (lit "keep-alive upgrade")) (lit "upgrade") = false.
Proof. by vm_compute. Qed.

(** ** Formatted buffers *)
Lemma snprintf_length (cap : Z) (junk text : bytes) :
  0 < cap -> Z.of_nat (length (snprintf_buf cap junk text)) = cap.
Proof.
  intros Hc. unfold snprintf_buf. cbv zeta. rewrite !length_app, !length_take, !length_app, length_replicate.
  simpl. lia.
Qed.

Lemma snprintf_fits (cap : Z) (junk text : bytes) :
  strlen text < cap -> take (length text) (snprintf_buf cap junk text) = text.
Proof.
  unfold strlen. intros Hc. unfold snprintf_buf. cbv zeta. rewrite (take_ge text) by lia.
  rewrite <- app_assoc. by rewrite take_app_length.
Qed.

Section Answers.
Variable handle_event handle_control : bytes -> Z * cstring.
Variable handle_status : Z * bytes.
Variable build_version build_commit : cstring.
Variable junk : bytes.

Let respond := respond build_version build_commit.
Let respond_formatted := respond_formatted build_version build_commit junk.
Let answer_cb := answer_cb handle_event handle_control handle_status build_version build_commit junk.
Let dispatch := dispatch handle_event handle_control handle_status build_version build_commit junk.
Let dispatch_subscribe := dispatch_subscribe build_version build_commit junk.

Lemma respond_within (st : Z) (ct : option cstring) (ns cl : bool) (body pad : bytes) :
  respond st ct ns (body ++ pad) (strlen body) cl =
  Answer (Response st ct ns body cl build_version build_commit).
Proof.
  unfold respond, Http.respond, strlen. rewrite (proj2 (Z.ltb_ge _ _)) by (rewrite length_app; lia).
  by rewrite Nat2Z.id, take_app_length.
Qed.

Lemma respond_formatted_spec (st cap : Z) (text : cstring) (cl : bool) :
  0 < cap ->
  respond_formatted st cap text cl =
  if strlen text <? cap
  then Answer (Response st text_plain true text cl build_version build_commit)
  else if strlen text =? cap
  then Answer (Response st text_plain true (snprintf_buf cap junk text) cl build_version build_commit)
  else OverRead.
Proof.
  intros Hc. unfold respond_formatted, Http.respond_formatted, Http.respond.
  rewrite snprintf_length by done.
  destruct (Z.ltb_spec (strlen text) cap), (Z.eqb_spec (strlen text) cap),
    (Z.ltb_spec cap (strlen text)); try lia; try done.
  - f_equal. f_equal. unfold strlen. rewrite Nat2Z.id. by apply snprintf_fits.
  - f_equal. f_equal. apply take_ge. pose proof (snprintf_length cap junk text Hc). lia.
Qed.

(** *** Request bodies *)
Lemma upload_spec (chunks : list bytes) (s : http_session) :
  Z.of_nat (length (s_body s)) <= STRIM_HTTP_BODY_MAX ->
  let s' := fold_left upload_chunk chunks s in
  s_method s' = s_method s /\ s_route s' = s_route s /\
  (s_body_overflow s = true -> s_body_overflow s' = true) /\
  (s_body_overflow s = false ->
   if Z.of_nat (length (s_body s) + length (concat chunks)) <=? STRIM_HTTP_BODY_MAX
   then s_body_overflow s' = false /\ s_body s' = s_body s ++ concat chunks
   else s_body_overflow s' = true) /\
  Z.of_nat (length (s_body s')) <= STRIM_HTTP_BODY_MAX.
Proof.
  revert s. induction chunks as [|c chunks IH]; intros s Hs; cbn [fold_left concat].
  - split_and!; try done. intros Ho. rewrite app_nil_r, Nat.add_0_r.
    by rewrite (proj2 (Z.leb_le _ _)).
  - remember (upload_chunk s c) as s1 eqn:E1. unfold upload_chunk in E1. rewrite length_app.
    destruct (Z.leb_spec (Z.of_nat (length (s_body s)) + Z.of_nat (length c)) STRIM_HTTP_BODY_MAX) as [Hle|Hgt].
    + destruct (IH s1) as (H1 & H2 & H3 & H4 & H5); subst s1; simpl in *.
      { rewrite length_app. lia. }
      split_and!; try done. intros Ho. specialize (H4 Ho).
      rewrite length_app, <- Nat.add_assoc, <- app_assoc in H4. done.
    + destruct (IH s1) as (H1 & H2 & H3 & H4 & H5); subst s1; simpl in *; [done|].
      split_and!; try done; [by intros; apply H3|].
      intros _. rewrite (proj2 (Z.leb_gt _ _)) by lia. by apply H3.
Qed.

(** The two POST routes and their handlers. *)
Definition post_url (event : bool) : cstring := if event then lit "/event" else lit "/control".
Definition post_handler (event : bool) : bytes -> Z * cstring :=
  if event then handle_event else handle_control.
Definition post_call (event : bool) (body : bytes) : http_call :=
  if event then CallEvent body else CallControl body.

(** The status and body a POST handler's outcome is answered with. *)
Definition post_answer (rc : Z) (err : cstring) : Z * bytes :=
  if rc =? 0 then (MHD_HTTP_NO_CONTENT, [])
  else if rc =? STRIM_HTTP_ERR_BADJSON
  then (MHD_HTTP_BAD_REQUEST, lit "bad json: " ++ err ++ [10])
  else (MHD_HTTP_INTERNAL_SERVER_ERROR,
        if strlen err + 1 <? STRIM_HTTP_ERRBUF_MAX then err ++ [10] else err).

Lemma post_route (event : bool) :
  route_for (Some (post_url event)) = if event then ROUTE_EVENT else ROUTE_CONTROL.
Proof. by destruct event. Qed.

Lemma post_answer_spec (event : bool) (s : http_session) (cl : bool) :
  s_method s = HTTP_M_POST -> s_body_overflow s = false ->
  s_route s = (if event then ROUTE_EVENT else ROUTE_CONTROL) ->
  strlen (post_handler event (s_body s)).2 < STRIM_HTTP_ERRBUF_MAX ->
  exists r,
    dispatch_post handle_event handle_control build_version build_commit junk s cl =
      (post_call event (s_body s) ::
         (if (post_handler event (s_body s)).1 =? 0 then [CallReconcile] else []), Answer r) /\
    (rs_status r, rs_body r) =
      post_answer (post_handler event (s_body s)).1 (post_handler event (s_body s)).2 /\
    rs_close r = cl /\ rs_version r = build_version /\ rs_commit r = build_commit.
Proof.
  intros Hm Ho Hr Herr. unfold dispatch_post. rewrite Hm, Ho, Hr.
  rewrite bool_decide_true by done. cbn [negb].
  replace (if bool_decide ((if event then ROUTE_EVENT else ROUTE_CONTROL) = ROUTE_EVENT)
    then (CallEvent (s_body s), handle_event (s_body s))
    else (CallControl (s_body s), handle_control (s_body s)))
    with (post_call event (s_body s), post_handler event (s_body s)) by (by destruct event).
  destruct (post_handler event (s_body s)) as [rc err]. cbn [fst snd] in *. unfold post_answer.
  destruct (rc =? 0); cbn [negb].
  { eexists. split; [reflexivity|]. done. }
  destruct (rc =? STRIM_HTTP_ERR_BADJSON).
  - pose proof (respond_formatted_spec MHD_HTTP_BAD_REQUEST (STRIM_HTTP_ERRBUF_MAX + 16)
      (lit "bad json: " ++ err ++ [10]) cl ltac:(done)) as Hf.
    unfold respond_formatted in Hf. rewrite Hf. unfold strlen in *.
    rewrite (proj2 (Z.ltb_lt _ _)) by (rewrite !length_app; simpl; unfold STRIM_HTTP_ERRBUF_MAX in *; lia).
    eexists. split; [reflexivity|]. done.
  - destruct (strlen err + 1 <? STRIM_HTTP_ERRBUF_MAX).
    + pose proof (respond_within MHD_HTTP_INTERNAL_SERVER_ERROR text_plain true cl (err ++ [10]) [0]) as Hw.
      unfold respond, strlen in Hw. rewrite length_app, <- app_assoc in Hw. cbn [app length] in Hw.
      unfold strlen. rewrite Nat2Z.inj_add in Hw. change (Z.of_nat 1) with 1 in Hw. rewrite Hw. eexists. split; [reflexivity|]. done.
    + pose proof (respond_within MHD_HTTP_INTERNAL_SERVER_ERROR text_plain true cl err [0]) as Hw.
      unfold respond in Hw. rewrite Hw. eexists. split; [reflexivity|]. done.
Qed.

Lemma post_contract (event : bool) (h : headers) (chunks : list bytes) :
  (forall b, strlen (post_handler event b).2 < STRIM_HTTP_ERRBUF_MAX) ->
  let body := concat chunks in
  exists r,
    (if Z.of_nat (length body) <=? STRIM_HTTP_BODY_MAX
     then answer_cb h (Some (lit "POST")) (Some (post_url event)) chunks =
            (post_call event body :: (if (post_handler event body).1 =? 0 then [CallReconcile] else []),
             Answer r) /\
          (rs_status r, rs_body r) = post_answer (post_handler event body).1 (post_handler event body).2
     else answer_cb h (Some (lit "POST")) (Some (post_url event)) chunks = ([], Answer r) /\
          rs_status r = MHD_HTTP_CONTENT_TOO_LARGE /\ rs_body r = []) /\
    rs_close r = conn_wants_close h /\ rs_version r = build_version /\ rs_commit r = build_commit.
Proof.
  intros Herr body.
  destruct (upload_spec chunks (new_session (Some (lit "POST")) (Some (post_url event))))
    as (Hm & Hr & _ & Hb & _); [done|]. specialize (Hb eq_refl). cbn [s_body new_session length Nat.add] in Hb.
  set (s := fold_left _ _ _) in *. cbn [new_session s_route s_method] in Hr, Hm. rewrite post_route in Hr.
  assert (Hd : answer_cb h (Some (lit "POST")) (Some (post_url event)) chunks =
    dispatch_post handle_event handle_control build_version build_commit junk s (conn_wants_close h)).
  { unfold answer_cb, Http.answer_cb, Http.dispatch. fold s. rewrite Hr. by destruct event. }
  rewrite Hd. fold body in Hb.
  destruct (Z.leb_spec (Z.of_nat (length body)) STRIM_HTTP_BODY_MAX).
  - destruct Hb as [Ho Hbody]. cbn [app] in Hbody.
    destruct (post_answer_spec event s (conn_wants_close h)) as (r & H1 & H2 & H3); try done.
    rewrite Hbody in H1, H2. exists r. split_and!; [exact H1 | exact H2 | apply H3..].
  - unfold dispatch_post. rewrite Hm, Hb. eexists. split; [split; [reflexivity|done]|done].
Qed.

(** *** Where an answer reads past its buffer *)

Definition no_nul (v : option cstring) : Prop := Forall (fun c => c <> 0) (default [] v).

Lemma c_string_app (text rest : bytes) :
  Forall (fun c => c <> 0) text -> c_string (text ++ 0 :: rest) = text.
Proof.
  induction 1 as [|c text Hc Ht IH]; [done|]. cbn [app c_string].
  rewrite (proj2 (Z.eqb_neq c 0)) by done. by rewrite IH.
Qed.

(** The length of the quoted header text, cut to the 256-byte buffer. *)
Definition quoted_length (v : option cstring) : Z :=
  match v with None => 5 | Some v => Z.min (strlen v + 2) 255 end.

Lemma quoted_value_length (v : option cstring) :
  no_nul v -> strlen (c_string (quoted_value v junk STRIM_HTTP_ERRBUF_MAX)) = quoted_length v.
Proof.
  unfold no_nul, quoted_value, quoted_length, strlen. destruct v as [v|]; [|done]. cbn [default]. intros Hv.
  assert (Ht : Forall (fun c => c <> 0) ([34] ++ v ++ [34])).
  { apply Forall_app; split; [by repeat constructor|]. apply Forall_app; split; [done|by repeat constructor]. }
  unfold snprintf_buf. cbv zeta. rewrite <- app_assoc. cbn [app].
  change (34 :: v ++ [34]) with ([34] ++ v ++ [34]).
  rewrite c_string_app by (by apply Forall_take).
  rewrite length_take, !length_app. cbn [length].
  change (Z.to_nat (STRIM_HTTP_ERRBUF_MAX - 1)) with 255%nat. lia.
Qed.

Definition key_ok (key : option cstring) : bool :=
  match key with
  | None | Some [] => false
  | Some k => match strim_base64_decode (Some k) true 16 with
              | Some bs => Z.of_nat (length bs) =? 16
              | None => false
              end
  end.

(** The handshake requests whose refusal is longer than its buffer. *)
Definition over_reads (h : headers) (m : http_method) : bool :=
  if negb (header_contains_token (h_connection h) (lit "upgrade"))
  then 214 <? quoted_length (h_connection h)
  else if negb (header_contains_token (h_upgrade h) (lit "websocket"))
  then 215 <? quoted_length (h_upgrade h)
  else bool_decide (m = HTTP_M_GET) && bool_decide (h_version h = Some (lit "13")) &&
       negb (key_ok (h_key h)).

Lemma formatted_over_read (st cap : Z) (text : cstring) (cl : bool) :
  0 < cap -> respond_formatted st cap text cl = OverRead <-> (cap <? strlen text) = true.
Proof.
  intros Hc. rewrite respond_formatted_spec by done. rewrite Z.ltb_lt.
  destruct (Z.ltb_spec (strlen text) cap); [split; [done | lia]|].
  destruct (Z.eqb_spec (strlen text) cap); split; try done; lia.
Qed.

Lemma accept_value_spec (key : cstring) :
  exists accept, accept_value key = (28, Some accept) /\ strlen accept = 28 /\
    accept = encode_groups (strim_sha1 (key ++ WS_GUID)).
Proof.
  pose proof (sha1_digest_length (key ++ WS_GUID)) as Hl.
  unfold accept_value, strim_base64_encode. cbn [negb]. unfold encoded_need. rewrite Hl.
  change (32 <? 4 * ((Z.of_nat 20 + 2) / 3) + 1) with false. cbv iota zeta.
  pose proof (encode_length (strim_sha1 (key ++ WS_GUID))) as He. rewrite Hl in He.
  change (4 * ((Z.of_nat 20 + 2) / 3)) with 28 in He. rewrite He. eauto.
Qed.

Lemma subscribe_over_reads (h : headers) (s : http_session) (cl : bool) :
  no_nul (h_connection h) -> no_nul (h_upgrade h) ->
  dispatch_subscribe h s cl = OverRead <-> over_reads h (s_method s) = true.
Proof.
  intros Hc Hu. unfold dispatch_subscribe, Http.dispatch_subscribe, over_reads. cbv zeta.
  fold respond_formatted.
  destruct (header_contains_token (h_connection h) (lit "upgrade")); cbn [negb].
  2: { rewrite (formatted_over_read MHD_HTTP_UPGRADE_REQUIRED) by done.
       rewrite <- (quoted_value_length (h_connection h)) by done.
       rewrite !Z.ltb_lt. unfold strlen. rewrite !length_app. simpl.
       change (STRIM_HTTP_ERRBUF_MAX + 32) with 288. lia. }
  destruct (header_contains_token (h_upgrade h) (lit "websocket")); cbn [negb].
  2: { rewrite (formatted_over_read MHD_HTTP_UPGRADE_REQUIRED) by done.
       rewrite <- (quoted_value_length (h_upgrade h)) by done.
       rewrite !Z.ltb_lt. unfold strlen. rewrite !length_app. simpl.
       change (STRIM_HTTP_ERRBUF_MAX + 32) with 288. lia. }
  destruct (bool_decide (s_method s = HTTP_M_GET)) eqn:Hm; cbn [negb andb].
  2: { rewrite (formatted_over_read MHD_HTTP_METHOD_NOT_ALLOWED) by done.
       by destruct (s_method s). }
  destruct (bool_decide (h_version h = Some (lit "13"))); cbn [negb andb].
  2: { by rewrite (formatted_over_read MHD_HTTP_UPGRADE_REQUIRED). }
  unfold key_ok. destruct (h_key h) as [[|k ks]|]; [done | | done].
  destruct (strim_base64_decode _ _ _) as [bs|]; [|done].
  destruct (Z.of_nat (length bs) =? 16); cbn [negb]; [|done].
  destruct (accept_value_spec (k :: ks)) as (acc & -> & _). done.
Qed.

End Answers.

(** the POST contract.  For /event and /control alike: the chunks of a
    request body of at most 16384 bytes are concatenated and handed to the
    handler exactly once; on success a reconcile is requested and the answer
    is an empty 204, on a JSON error it is 400 with the error text, on any
    other failure 500 with the error text and no reconcile; a longer body is
    answered 413 without calling the handler.  Every answer carries the build
    provenance and honours "Connection: close". *)
Theorem http_post_contract (handle_event handle_control : bytes -> Z * cstring)
    (handle_status : Z * bytes) (version commit : cstring) (junk : bytes) (event : bool)
    (h : headers) (chunks : list bytes) :
  (forall b, strlen (post_handler handle_event handle_control event b).2 < STRIM_HTTP_ERRBUF_MAX) ->
  let body := concat chunks in
  let '(rc, err) := post_handler handle_event handle_control event body in
  let out := answer_cb handle_event handle_control handle_status version commit junk h
               (Some (lit "POST")) (Some (post_url event)) chunks in
  exists r,
    (if Z.of_nat (length body) <=? STRIM_HTTP_BODY_MAX
     then out = (post_call event body :: (if rc =? 0 then [CallReconcile] else []), Answer r) /\
          (rs_status r, rs_body r) = post_answer rc err
     else out = ([], Answer r) /\ rs_status r = MHD_HTTP_CONTENT_TOO_LARGE /\ rs_body r = []) /\
    rs_close r = conn_wants_close h /\ rs_version r = version /\ rs_commit r = commit.
Proof.
  intros Herr body. destruct (post_handler _ _ _ body) as [rc err] eqn:E. cbv zeta.
  pose proof (post_contract handle_event handle_control handle_status version commit junk event h
                chunks Herr) as H.
  cbv zeta in H. fold body in H. rewrite E in H. exact H.
Qed.

Lemma http_post_contract_witness :
  exists r, answer_cb (fun _ => (0, [])) (fun _ => (-1, lit "no")) (0, []) [] [] []
      (Headers None None None None) (Some (lit "POST")) (Some (post_url true)) [[1]; [2]] =
    ([CallEvent [1; 2]; CallReconcile], Answer r) /\ rs_status r = 204.
Proof.
  destruct (http_post_contract (fun _ => (0, [])) (fun _ => (-1, lit "no")) (0, []) [] [] [] true
              (Headers None None None None) [[1]; [2]]) as (r & [H1 H2] & _); [done|].
  exists r. split; [exact H1 | exact (f_equal fst H2)].
Defined.

Lemma post_no_over_read (handle_event handle_control : bytes -> Z * cstring)
    (version commit : cstring) (junk : bytes) (event : bool) (s : http_session) (cl : bool) :
  (forall b, strlen (handle_event b).2 < STRIM_HTTP_ERRBUF_MAX) ->
  (forall b, strlen (handle_control b).2 < STRIM_HTTP_ERRBUF_MAX) ->
  s_route s = (if event then ROUTE_EVENT else ROUTE_CONTROL) ->
  (dispatch_post handle_event handle_control version commit junk s cl).2 <> OverRead.
Proof.
  intros He Hc Hr. destruct (decide (s_method s = HTTP_M_POST)) as [Hm|Hm].
  - destruct (s_body_overflow s) eqn:Ho.
    + unfold dispatch_post. rewrite bool_decide_true, Ho by done. done.
    + destruct (post_answer_spec handle_event handle_control version commit junk event s cl)
        as (r & -> & _); try done. destruct event; simpl; [apply He | apply Hc].
  - unfold dispatch_post. by rewrite bool_decide_false by done.
Qed.

(** which answers read past their buffer.  For every method, URL, header
    set (of proper C strings) and body, the answer is built within its buffer
    except for the /subscribe requests [over_reads] describes: those whose
    Connection (or Upgrade) header lacks the token and is so long that the
    formatted refusal exceeds its 288-byte buffer, and those refused for a
    missing or malformed Sec-WebSocket-Key, whose literal is shorter than the
    length passed with it. *)
Theorem answer_over_reads_iff (handle_event handle_control : bytes -> Z * cstring)
    (handle_status : Z * bytes) (version commit : cstring) (junk : bytes)
    (h : headers) (method url : option cstring) (chunks : list bytes) :
  (forall b, strlen (handle_event b).2 < STRIM_HTTP_ERRBUF_MAX) ->
  (forall b, strlen (handle_control b).2 < STRIM_HTTP_ERRBUF_MAX) ->
  no_nul (h_connection h) -> no_nul (h_upgrade h) ->
  (answer_cb handle_event handle_control handle_status version commit junk h method url chunks).2
    = OverRead <->
  route_for url = ROUTE_SUBSCRIBE /\ over_reads h (method_kind method) = true.
Proof.
  intros He Hc Hn1 Hn2. unfold answer_cb, dispatch.
  destruct (upload_spec chunks (new_session method url)) as (Hm & Hr & _); [done|].
  set (s := fold_left _ _ _) in *. cbn [new_session s_method s_route] in Hm, Hr.
  rewrite <- Hm, <- Hr. destruct (s_route s) eqn:E.
  1: rewrite <- (subscribe_over_reads version commit junk h s true) by done;
     split; [|by intros []]; intros H;
     by destruct (post_no_over_read handle_event handle_control version commit junk true s
                    (conn_wants_close h) He Hc E).
  1: split; [|by intros []]; intros H;
     by destruct (post_no_over_read handle_event handle_control version commit junk false s
                    (conn_wants_close h) He Hc E).
  - split; [|by intros []]. destruct (bool_decide (s_method s = HTTP_M_GET)); [|done].
    cbn [negb]. destruct handle_status as [rc json].
    destruct (_ || _); [done|]. simpl. unfold respond. by rewrite Z.ltb_irrefl.
  - cbn [snd]. rewrite (subscribe_over_reads version commit junk h s) by done.
    split; [done | by intros []].
  - split; [done | by intros []].
  - split; [done | by intros []].
Qed.

Lemma answer_over_reads_iff_witness :
  (answer_cb (fun _ => (0, [])) (fun _ => (0, [])) (0, []) [] [] []
     (Headers (Some (lit "Upgrade")) (Some (lit "websocket")) (Some (lit "13")) None)
     (Some (lit "GET")) (Some (lit "/subscribe")) []).2 = OverRead.
Proof.
  apply (answer_over_reads_iff (fun _ => (0, [])) (fun _ => (0, [])) (0, []) [] [] []
     (Headers (Some (lit "Upgrade")) (Some (lit "websocket")) (Some (lit "13")) None)
     (Some (lit "GET")) (Some (lit "/subscribe")) []);
    [done | done | by repeat constructor | by repeat constructor |].
  split; [reflexivity | vm_compute; reflexivity].
Defined.

(** the WebSocket handshake.  A /subscribe request is switched to the
    WebSocket protocol exactly when its Connection header names "upgrade",
    its Upgrade header names "websocket", the method is GET, the version is
    13 and the key is base64 of 16 bytes; the accept value is then the 28
    character base64 of SHA-1 (key followed by the GUID), computed from a
    buffer the key always fits, and the RFC 6455 sample key gives the sample
    accept value. *)
Theorem websocket_handshake (version commit : cstring) (junk : bytes) (h : headers)
    (s : http_session) (cl : bool) (accept v c : cstring) :
  (dispatch_subscribe version commit junk h s cl = SwitchProtocols accept v c <->
   exists key,
     h_key h = Some key /\ key_ok (Some key) = true /\
     header_contains_token (h_connection h) (lit "upgrade") = true /\
     header_contains_token (h_upgrade h) (lit "websocket") = true /\
     s_method s = HTTP_M_GET /\ h_version h = Some (lit "13") /\
     accept = encode_groups (fips_sha1 (key ++ WS_GUID)) /\ v = version /\ c = commit /\
     strlen accept = 28 /\ strlen (key ++ WS_GUID) <= 128) /\
  (accept_value (lit "dGhlIHNhbXBsZSBub25jZQ==")).2 = Some (lit "s3pPLMBiTxaQ9kYGzzhZRbK+xOo=").
Proof.
  split; [|by vm_compute]. unfold dispatch_subscribe. cbv zeta.
  assert (Hf : forall st cap text cl', 0 < cap ->
    respond_formatted version commit junk st cap text cl' <> SwitchProtocols accept v c).
  { intros. rewrite respond_formatted_spec by done. by repeat case_match. }
  destruct (header_contains_token (h_connection h) (lit "upgrade")); cbn [negb];
    [|split; [by intros ?%Hf | by intros (? & ? & ? & ? & _)]].
  destruct (header_contains_token (h_upgrade h) (lit "websocket")); cbn [negb];
    [|split; [by intros ?%Hf | by intros (? & ? & ? & ? & ? & _)]].
  case_bool_decide as Hm; cbn [negb];
    [|split; [by intros ?%Hf | by intros (? & ? & ? & ? & ? & ? & _)]].
  case_bool_decide as Hv; cbn [negb];
    [|split; [by intros ?%Hf | by intros (? & ? & ? & ? & ? & ? & ? & _)]].
  destruct (h_key h) as [[|k ks]|] eqn:Ek;
    [ split; [done | intros (? & [= <-] & ? & _); done] |
    | split; [done | by intros (? & ? & _)]].
  assert (Hk : key_ok (Some (k :: ks)) = match strim_base64_decode (Some (k :: ks)) true 16 with
    | Some bs => Z.of_nat (length bs) =? 16 | None => false end) by done.
  destruct (strim_base64_decode _ _ _) as [bs|] eqn:Ed;
    [|split; [done | intros (? & [= <-] & ? & _); congruence]].
  destruct (Z.of_nat (length bs) =? 16) eqn:El; cbn [negb];
    [|split; [done | intros (? & [= <-] & ? & _); congruence]].
  destruct (accept_value_spec (k :: ks)) as (acc & -> & Hal & Hacc). cbn [Z.eqb].
  assert (Hb : strlen ((k :: ks) ++ WS_GUID) <= 128).
  { pose proof (decode_groups_bounds (k :: ks) 0 16 bs) as Hg. unfold strim_base64_decode in Ed.
    cbn [negb] in Ed. destruct (_ || _); [done|]. specialize (Hg Ed ltac:(done)).
    apply Z.eqb_eq in El. unfold strlen in *. rewrite length_app.
    change (length WS_GUID) with 36%nat. lia. }
  rewrite sha1_correct in Hacc. split.
  - intros [= -> -> ->]. exists (k :: ks). by split_and!.
  - intros (key & [= <-] & _ & _ & _ & _ & _ & -> & -> & -> & _). by rewrite Hacc.
Qed.

(** ** Durations *)

Inductive dunit := UNs | UUs | UMicro | UMs | US | UM | UH.

Definition unit_text (u : dunit) : cstring :=
  match u with
  | UNs => lit "ns" | UUs => lit "us" | UMicro => [0xc2; 0xb5; chr "s"] | UMs => lit "ms"
  | US => lit "s" | UM => lit "m" | UH => lit "h"
  end.

Definition unit_ns (u : dunit) : Z :=
  match u with
  | UNs => 1 | UUs | UMicro => NS_US | UMs => NS_MS | US => NS_S | UM => NS_M | UH => NS_H
  end.

(** Components "<digits><unit>". *)
Definition component_ok (c : cstring * dunit) : Prop :=
  c.1 <> [] /\ forallb is_digit c.1 = true.

Definition duration_text (cs : list (cstring * dunit)) : cstring :=
  concat (map (fun c => c.1 ++ unit_text c.2) cs).

Fixpoint duration_ns (cs : list (cstring * dunit)) : Z :=
  match cs with [] => 0 | c :: cs' => decimal c.1 * unit_ns c.2 + duration_ns cs' end.

(** The largest digit string the overflow guard lets through. *)
Definition WHOLE_MAX : Z := 10 * ((UINT64_MAX - 9) / 10) + 9.

Definition starts_nondigit (p : cstring) : Prop :=
  match p with [] => True | c :: _ => is_digit c = false end.

Definition starts_digit (p : cstring) : Prop :=
  match p with [] => True | c :: _ => is_digit c = true end.

Lemma is_digit_range (c : Z) : is_digit c = true -> 0 <= digit c <= 9.
Proof.
  unfold is_digit, digit. change (chr "0") with 48. change (chr "9") with 57.
  intros. bool_props. lia.
Qed.

Lemma whole_digits_spec (ds rest : cstring) (w : Z) (has : bool) :
  forallb is_digit ds = true -> starts_nondigit rest -> 0 <= w <= WHOLE_MAX ->
  let v := fold_left (fun v c => v * 10 + digit c) ds w in
  whole_digits (ds ++ rest) w has =
  if v <=? WHOLE_MAX then Some (v, match ds with [] => has | _ => true end, rest) else None.
Proof.
  revert w has. induction ds as [|c ds IH]; intros w has Hd Hr Hw; cbn [app fold_left].
  - cbv zeta. rewrite (proj2 (Z.leb_le _ _)) by lia.
    destruct rest as [|c rest]; [done|]. cbn in Hr |- *. by rewrite Hr.
  - cbn [forallb] in Hd. apply andb_true_iff in Hd as [Hc Hd].
    pose proof (is_digit_range c Hc) as Hcr. cbn [whole_digits]. rewrite Hc. cbv zeta.
    destruct (Z.ltb_spec ((UINT64_MAX - 9) / 10) w) as [Hgt|Hle].
    + pose proof (fold_decimal_ge ds (w * 10 + digit c) Hd ltac:(lia)).
      rewrite (proj2 (Z.leb_gt _ _)); [done|]. unfold WHOLE_MAX. lia.
    + assert (Hm : WHOLE_MAX < 2 ^ 64) by (by vm_compute).
      assert (Hnew : 0 <= w * 10 + digit c <= WHOLE_MAX) by (unfold WHOLE_MAX; lia).
      rewrite wrap_small by lia. rewrite IH by done. cbv zeta. by destruct ds.
Qed.

Lemma duration_unit_spec (u : dunit) (rest : cstring) :
  starts_digit rest -> duration_unit (unit_text u ++ rest) = Some (unit_ns u, rest).
Proof.
  intros Hr. destruct u; try done; destruct rest as [|c rest]; try done; simpl in Hr.
  assert (Hs : (chr "s" =? c) = false).
  { apply Z.eqb_neq. intros <-. by vm_compute in Hr. }
  assert (E : starts_with (lit "ms") (unit_text UM ++ c :: rest) = false).
  { change ((chr "s" =? c) && true = false). by rewrite Hs. }
  unfold duration_unit. rewrite E. reflexivity.
Qed.

Lemma duration_text_starts (cs : list (cstring * dunit)) :
  Forall component_ok cs -> starts_digit (duration_text cs).
Proof.
  destruct 1 as [|[ds u] cs [Hne Hd] _]; [done|]. cbn [duration_text map concat fst] in *.
  destruct ds as [|c ds]; [done|]. cbn [forallb] in Hd. apply andb_true_iff in Hd. apply Hd.
Qed.

Lemma unit_text_nondigit (u : dunit) (rest : cstring) : starts_nondigit (unit_text u ++ rest).
Proof. by destruct u. Qed.

Lemma unit_ns_pos (u : dunit) : 0 < unit_ns u.
Proof. by destruct u. Qed.

Lemma duration_ns_nonneg (cs : list (cstring * dunit)) :
  Forall component_ok cs -> 0 <= duration_ns cs.
Proof.
  induction 1 as [|[ds u] cs [_ Hd] _ IH]; cbn [duration_ns fst snd] in *; [lia|].
  pose proof (fold_decimal_ge ds 0 Hd ltac:(lia)). pose proof (unit_ns_pos u).
  unfold decimal. nia.
Qed.

Lemma duration_loop_spec (cs : list (cstring * dunit)) (fuel : nat) (total : Z) :
  Forall component_ok cs -> Forall (fun c => decimal c.1 <= WHOLE_MAX) cs ->
  (length cs <= fuel)%nat -> 0 <= total <= UINT64_MAX ->
  duration_loop fuel (duration_text cs) total =
  if total + duration_ns cs <=? UINT64_MAX then Some (total + duration_ns cs) else None.
Proof.
  revert fuel total. induction cs as [|[ds u] cs IH]; intros fuel total Hok Hmax Hf Ht.
  - cbn. rewrite Z.add_0_r, (proj2 (Z.leb_le _ _)) by lia. by destruct fuel.
  - apply Forall_cons in Hok as [[Hne Hd] Hok], Hmax as [Hv Hmax]. cbn [fst snd] in *.
    destruct fuel as [|fuel]; [simpl in Hf; lia|].
    cbn [duration_text map concat fst snd]. fold (duration_text cs). rewrite <- app_assoc.
    pose proof (whole_digits_spec ds (unit_text u ++ duration_text cs) 0 false Hd
                  (unit_text_nondigit u _) ltac:(by vm_compute)) as Hw.
    cbv zeta in Hw. fold (decimal ds) in Hw. rewrite (proj2 (Z.leb_le _ _)) in Hw by done.
    destruct ds as [|d ds]; [done|]. cbn [app] in *. cbn [duration_loop]. rewrite Hw.
    destruct (unit_text u ++ duration_text cs) as [|x xs] eqn:Ex; [by destruct u|].
    assert (Hx : (x =? chr ".") = false) by (destruct u; simplify_eq/=; done).
    rewrite Hx, <- Ex. cbn [negb]. rewrite duration_unit_spec by (by apply duration_text_starts).
    pose proof (unit_ns_pos u) as Hu. pose proof (duration_ns_nonneg cs Hok) as Hn.
    pose proof (fold_decimal_ge (d :: ds) 0 Hd ltac:(lia)) as Hdec. fold (decimal (d :: ds)) in Hdec.
    cbn [duration_ns fst snd Nat.ltb Nat.leb].
    destruct (Z.ltb_spec ((UINT64_MAX - total) / unit_ns u) (decimal (d :: ds))) as [Hgt|Hle].
    + rewrite (proj2 (Z.leb_gt _ _)); [done|].
      assert (UINT64_MAX - total < decimal (d :: ds) * unit_ns u); [|lia].
      apply Z.nle_gt. intros Hc.
      rewrite Z.mul_comm in Hc. apply Z.div_le_lower_bound in Hc; lia.
    + assert (Hle' : decimal (d :: ds) * unit_ns u <= UINT64_MAX - total).
      { transitivity ((UINT64_MAX - total) / unit_ns u * unit_ns u); [nia|].
        rewrite Z.mul_comm. apply Z.mul_div_le. lia. }
      rewrite IH; [|done|done|simpl in Hf; lia|nia].
      by rewrite Z.add_assoc.
Qed.

(** durations.  A non-empty sequence of "<digits><unit>" components (any
    of the seven unit spellings, in any order) parses to the sum of its
    components in milliseconds, truncated, exactly when the sum of
    nanoseconds fits 64 bits, and is refused otherwise: no integer overflow
    goes unnoticed. *)
Theorem parse_duration_sums (cs : list (cstring * dunit)) :
  cs <> [] -> Forall component_ok cs -> Forall (fun c => decimal c.1 <= WHOLE_MAX) cs ->
  parse_duration_ms (Some (duration_text cs)) =
  if duration_ns cs <=? UINT64_MAX then Some (duration_ns cs / 1000000) else None.
Proof.
  intros Hne Hok Hmax. pose proof (duration_text_starts cs Hok) as Hs.
  assert (Hlen : (length cs <= length (duration_text cs))%nat).
  { clear Hne Hmax Hs. induction Hok as [|[ds u] cs [H _] _ IH]; [done|].
    cbn [duration_text map concat length fst snd] in *. rewrite !length_app.
    fold (duration_text cs). destruct ds; [done|]. simpl. lia. }
  pose proof (duration_loop_spec cs (S (length (duration_text cs))) 0 Hok Hmax ltac:(lia) ltac:(done)) as Hl.
  rewrite Z.add_0_l in Hl.
  destruct (duration_text cs) as [|c p] eqn:Et; [destruct cs; [done|simpl in Hlen; lia]|].
  cbn in Hs. unfold parse_duration_ms.
  assert (Hm : (c =? chr "-") = false) by (apply Z.eqb_neq; intros ->; by vm_compute in Hs).
  assert (Hp : (c =? chr "+") = false) by (apply Z.eqb_neq; intros ->; by vm_compute in Hs).
  rewrite Hm, Hp, Hl. by destruct (_ <=? _).
Qed.

Lemma parse_duration_sums_witness :
  parse_duration_ms (Some (lit "1m30s250ms")) = Some 90250.
Proof.
  refine (eq_trans (parse_duration_sums [(lit "1", UM); (lit "30", US); (lit "250", UMs)] _ _ _) _).
  - done.
  - repeat constructor; done.
  - repeat constructor; done.
  - vm_compute. reflexivity.
Defined.

(** Inputs Go's time.ParseDuration treats differently: a lone sign is
    accepted as zero, a plain "0" is refused, a long fraction of a minute is
    dropped, and the addition of a fraction can wrap around. *)
Lemma parse_duration_anomalies :
  parse_duration_ms (Some (lit "+")) = Some 0 /\
  parse_duration_ms (Some (lit "0")) = None /\
  parse_duration_ms (Some (lit "0.999999999m")) = Some 0 /\
  parse_duration_ms (Some (lit "18446744073.9s")) = Some 190.
Proof. by vm_compute. Qed.
