(* ===== verification/WsSlot.v ===== *)
(** * WebSocket clients (http/http_server.c)

    The four client slots: the one-deep outbound slot filled by
    [strim_http_ws_send], the service pass that moves it into wslay, the
    close handshake, shutdown, upgrade and cleanup.

    wslay and libmicrohttpd are libraries: what their calls return during one
    pass over a client is the record [wslay], and what the code asks of them
    is recorded as events, in order. *)

From S2P Require Import Prelude Http.

Definition STRIM_HTTP_MAX_WS_CLIENTS : nat := 4.

Definition WSLAY_CODE_NORMAL_CLOSURE : Z := 1000.
Definition WSLAY_CODE_ABNORMAL_CLOSURE : Z := 1006.
Definition WSLAY_CODE_INTERNAL_SERVER_ERROR : Z := 1011.

(** The fields of [struct ws_client] the code reads; the wslay context is
    present or NULL, a session is an identity. *)
Record ws_client := WsClient {
  in_use : bool;
  closed : bool;
  closing : bool;
  has_pending : bool;
  pending : bytes;
  frame_inflight : bool;
  frame_deadline_ms : Z;
  close_deadline_ms : Z;
  wctx : bool;
  session : option nat;
  extra_in : bytes;
}.

Definition free_client : ws_client :=
  WsClient false false false false [] false 0 0 false None [].

(** What the library calls made during one pass return. *)
Record wslay := Wslay {
  w_recv : Z;
  w_close_received : bool;
  w_queue_msg : Z;
  w_queue_close : Z;
  w_write_enabled : bool;
  w_close_sent_before : bool;
  w_send : Z;
  w_want_write : bool;
  w_close_sent : bool;
  w_now : Z;
}.

(** What is asked of the libraries and of the controller. *)
Inductive ws_event :=
  | EvQueueMsg (frame : bytes) (accepted : bool)
  | EvQueueClose (code : Z)
  | EvSend
  | EvClose
  | EvFree
  | EvSubscribe (idx : nat)
  | EvUnsubscribe (idx : nat).

(** ** Field updates *)

Definition set_closed (c : ws_client) : ws_client :=
  WsClient (in_use c) true (closing c) (has_pending c) (pending c) (frame_inflight c)
    (frame_deadline_ms c) (close_deadline_ms c) (wctx c) (session c) (extra_in c).
Definition set_closing (deadline : Z) (c : ws_client) : ws_client :=
  WsClient (in_use c) (closed c) true (has_pending c) (pending c) (frame_inflight c)
    (frame_deadline_ms c) deadline (wctx c) (session c) (extra_in c).
Definition set_pending (p : option bytes) (c : ws_client) : ws_client :=
  match p with
  | Some b => WsClient (in_use c) (closed c) (closing c) true b (frame_inflight c)
      (frame_deadline_ms c) (close_deadline_ms c) (wctx c) (session c) (extra_in c)
  | None => WsClient (in_use c) (closed c) (closing c) false (pending c) (frame_inflight c)
      (frame_deadline_ms c) (close_deadline_ms c) (wctx c) (session c) (extra_in c)
  end.
Definition set_inflight (b : bool) (deadline : Z) (c : ws_client) : ws_client :=
  WsClient (in_use c) (closed c) (closing c) (has_pending c) (pending c) b
    deadline (close_deadline_ms c) (wctx c) (session c) (extra_in c).

(** ** Socket callbacks *)

(** [ws_recv_cb] while leftover bytes remain: the bytes served and the slot
    afterwards; [None]: the socket is read. *)
Definition ws_recv_cb (len : nat) (c : ws_client) : option (bytes * ws_client) :=
  match extra_in c with
  | [] => None
  | rest =>
      Some (take len rest,
            WsClient (in_use c) (closed c) (closing c) (has_pending c) (pending c)
              (frame_inflight c) (frame_deadline_ms c) (close_deadline_ms c) (wctx c)
              (session c) (drop len rest))
  end.

(** What a [recv] or [send] on the non-blocking socket is reported as. *)
Inductive io_report := IoBytes (n : Z) | IoWouldBlock | IoFailure.

Definition ws_socket_report (r : Z) (again : bool) : io_report :=
  if (r =? -1) && again then IoWouldBlock
  else if r <=? 0 then IoFailure
  else IoBytes r.

(** ** Closing *)

Definition ws_close_socket (w : wslay) (close_code : Z) (c : ws_client)
  : ws_client * list ws_event :=
  if closed c then (c, [])
  else (set_closed c,
        (if negb (close_code =? 0) && wctx c && w_write_enabled w && negb (w_close_sent_before w)
         then [EvQueueClose close_code; EvSend] else []) ++ [EvClose]).

Section Server.

(** [srv->ws_write_timeout_ms] *)
Variable ws_write_timeout_ms : Z.

Definition ws_begin_close (w : wslay) (code : Z) (c : ws_client) : ws_client * list ws_event :=
  if closing c then (c, [])
  else if negb (w_queue_close w =? 0)
  then let '(c', ev) := ws_close_socket w 0 c in (c', EvQueueClose code :: ev)
  else (set_closing (w_now w + ws_write_timeout_ms) c, [EvQueueClose code]).

Definition ws_drain_slot (shutdown_requested : bool) (w : wslay) (c : ws_client)
  : ws_client * list ws_event :=
  let frame := if has_pending c then pending c else [] in
  let c := if has_pending c then set_pending None c else c in
  match frame with
  | [] =>
      if shutdown_requested && negb (closing c)
      then ws_begin_close w WSLAY_CODE_NORMAL_CLOSURE c else (c, [])
  | _ =>
      if negb (w_queue_msg w =? 0) then (c, [EvQueueMsg frame false])
      else (set_inflight true (w_now w + ws_write_timeout_ms) c, [EvQueueMsg frame true])
  end.

(** The tail of a pass, after the send. *)
Definition pump_after_send (w : wslay) (c : ws_client) : ws_client * list ws_event :=
  if negb (w_send w =? 0) then ws_close_socket w 0 c
  else
    let c := if frame_inflight c && negb (w_want_write w)
             then set_inflight false (frame_deadline_ms c) c else c in
    if closing c && w_close_sent w then ws_close_socket w 0 c
    else if closing c && negb (w_close_sent w) && (close_deadline_ms c <=? w_now w)
    then ws_close_socket w 0 c
    else (c, []).

Definition ws_pump_client (shutdown_requested : bool) (w : wslay) (c : ws_client)
  : ws_client * list ws_event :=
  if negb (in_use c) || closed c then (c, [])
  else if negb (w_recv w =? 0) then ws_close_socket w WSLAY_CODE_ABNORMAL_CLOSURE c
  else
    let c1 := if w_close_received w && negb (closing c)
              then set_closing (w_now w + ws_write_timeout_ms) c else c in
    let '(c2, e2) := if negb (closing c1) && negb (frame_inflight c1)
                     then ws_drain_slot shutdown_requested w c1 else (c1, []) in
    let '(c3, e3) := if frame_inflight c2 && negb (closing c2) && (frame_deadline_ms c2 <=? w_now w)
                     then ws_begin_close w WSLAY_CODE_INTERNAL_SERVER_ERROR c2 else (c2, []) in
    let '(c4, e4) := pump_after_send w c3 in
    (c4, e2 ++ e3 ++ [EvSend] ++ e4).

(** One client's turn in a pass of [ws_shutdown_all]; the flag is whether it
    was live. *)
Definition shutdown_client (shutdown_requested : bool) (w : wslay) (c : ws_client)
  : bool * ws_client * list ws_event :=
  if negb (in_use c) || closed c then (false, c, [])
  else
    let '(c1, e1) := if negb (closing c) && negb (frame_inflight c)
                     then ws_drain_slot shutdown_requested w c else (c, []) in
    let flushing := frame_inflight c1 && negb (closing c1) in
    if flushing && w_want_write w then (true, c1, e1 ++ [EvSend])
    else
      let e2 := if flushing then [EvSend] else [] in
      let c2 := if flushing then set_inflight false (frame_deadline_ms c1) c1 else c1 in
      let '(c3, e3) := if negb (closing c2)
                       then ws_begin_close w WSLAY_CODE_NORMAL_CLOSURE c2 else (c2, []) in
      if negb (w_close_sent w) then (true, c3, e1 ++ e2 ++ e3 ++ [EvSend])
      else let '(c4, e4) := ws_close_socket w 0 c3 in
           (true, c4, e1 ++ e2 ++ e3 ++ [EvSend] ++ e4).

(** One pass over all clients. *)
Fixpoint shutdown_pass (sd : bool) (w : nat -> wslay) (i : nat) (cs : list ws_client)
  : bool * list ws_client * list ws_event :=
  match cs with
  | [] => (false, [], [])
  | c :: cs' =>
      let '(live, c', e) := shutdown_client sd (w i) c in
      let '(lives, cs'', es) := shutdown_pass sd w (S i) cs' in
      (live || lives, c' :: cs'', e ++ es)
  end.

Fixpoint shutdown_passes (sd : bool) (w : nat -> nat -> wslay) (fuel pass : nat)
    (cs : list ws_client) : list ws_client * list ws_event :=
  match fuel with
  | O => (cs, [])
  | S fuel' =>
      let '(live, cs1, e1) := shutdown_pass sd (w pass) 0 cs in
      if negb live then (cs1, e1)
      else let '(cs2, e2) := shutdown_passes sd w fuel' (S pass) cs1 in (cs2, e1 ++ e2)
  end.

(** The final loop: stragglers are closed hard. *)
Fixpoint close_stragglers (w : nat -> wslay) (i : nat) (cs : list ws_client)
  : list ws_client * list ws_event :=
  match cs with
  | [] => ([], [])
  | c :: cs' =>
      let '(c', e) := if in_use c && negb (closed c)
                      then ws_close_socket (w i) WSLAY_CODE_NORMAL_CLOSURE c else (c, []) in
      let '(cs'', es) := close_stragglers w (S i) cs' in
      (c' :: cs'', e ++ es)
  end.

Definition ws_shutdown_all (sd : bool) (w : nat -> nat -> wslay) (cs : list ws_client)
  : list ws_client * list ws_event :=
  let '(cs1, e1) := shutdown_passes sd w 256 0 cs in
  let '(cs2, e2) := close_stragglers (w 256%nat) 0 cs1 in
  (cs2, e1 ++ e2).

(** ** Upgrade, cleanup and send *)

(** The first slot that is not in use. *)
Fixpoint first_free (i : nat) (cs : list ws_client) : option nat :=
  match cs with
  | [] => None
  | c :: cs' => if negb (in_use c) then Some i else first_free (S i) cs'
  end.

(** What the upgrade meets: the malloc of the leftover bytes, the creation of
    the wslay context, the result of the controller's subscribe callback. *)
Record upgrade_env := UpgradeEnv {
  ue_alloc : bool;
  ue_context : Z;
  ue_subscribe : Z;
}.

(** The slot after the upgrade of [s] took slot [idx]. *)
Definition upgraded (w : wslay) (env : upgrade_env) (idx s : nat) (extra : bytes)
  : ws_client * list ws_event :=
  let c := WsClient true false false false [] false 0 0 false (Some s) [] in
  if (0 <? length extra)%nat && negb (ue_alloc env) then ws_close_socket w 0 c
  else
    let c := WsClient true false false false [] false 0 0 false (Some s) extra in
    if negb (ue_context env =? 0) then ws_close_socket w 0 c
    else
      let c := WsClient true false false false [] false 0 0 true (Some s) extra in
      if negb (ue_subscribe env =? 0)
      then let '(c1, e1) := ws_begin_close w WSLAY_CODE_INTERNAL_SERVER_ERROR c in
           let '(c2, e2) := ws_close_socket w 0 c1 in
           (c2, [EvSubscribe idx] ++ e1 ++ [EvSend] ++ e2)
      else (c, [EvSubscribe idx]).

(** [None]: no free slot, the connection is closed at once. *)
Definition ws_upgrade_handler (w : wslay) (env : upgrade_env) (s : nat) (extra : bytes)
    (cs : list ws_client) : option nat * list ws_client * list ws_event :=
  match first_free 0 cs with
  | None => (None, cs, [EvClose])
  | Some idx =>
      let '(c, e) := upgraded w env idx s extra in
      (Some idx, <[idx := c]> cs, e)
  end.

Definition ws_cleanup_slot (idx : nat) (s : option nat) (c : ws_client)
  : ws_client * list ws_event :=
  if negb (in_use c) || negb (bool_decide (session c = s)) then (c, [])
  else (WsClient false true (closing c) false [] false 0 0 false None [],
        (if wctx c then [EvFree] else []) ++ [EvUnsubscribe idx]).

(** [bytes] is [None] for a NULL pointer; [active] is whether a server runs. *)
Definition strim_http_ws_send (active : bool) (client_idx : Z) (bs : option bytes)
    (cs : list ws_client) : Z * list ws_client :=
  match bs with
  | None => (-1, cs)
  | Some b =>
      if negb active || (Z.of_nat (length b) =? 0) ||
         (STRIM_HTTP_STATUS_MAX <? Z.of_nat (length b)) then (-1, cs)
      else if (client_idx <? 0) || (Z.of_nat STRIM_HTTP_MAX_WS_CLIENTS <=? client_idx)
      then (-1, cs)
      else match cs !! Z.to_nat client_idx with
           | None => (-1, cs)
           | Some c =>
               if in_use c && negb (closed c) && negb (closing c)
               then (0, <[Z.to_nat client_idx := set_pending (Some b) c]> cs)
               else (-1, cs)
           end
  end.

End Server.
