(* ===== verification/WsFacts.v ===== *)
(** * What a WebSocket slot guarantees

    Over any interleaving of sends from the controller thread with service
    passes, shutdown passes and the final hard close, one upgraded connection
    is closed at most once, an accepted frame waits until it is handed over or
    replaced by a newer one, and no frame follows the close frame. *)

From S2P Require Import Prelude Http WsSlot.

(** ** Histories of one slot *)

Inductive slot_op :=
  | OSend (b : bytes)
  | OPump (sd : bool) (w : wslay)
  | OShutdown (sd : bool) (w : wslay)
  | OStraggler (w : wslay).

Definition frames (es : list ws_event) : list bytes :=
  omap (fun e => match e with EvQueueMsg f _ => Some f | _ => None end) es.

(** A frame that [strim_http_ws_send] accepted, or that was handed to wslay. *)
Inductive frame_log := Took (b : bytes) | Handed (b : bytes).

(** What has happened to a slot since its upgrade: the slot, the events, and
    the frames taken and handed over in order. *)
Record history := History { hc : ws_client; hev : list ws_event; hlog : list frame_log }.

Definition taken (log : list frame_log) : list bytes :=
  omap (fun e => match e with Took b => Some b | Handed _ => None end) log.
Definition handed (log : list frame_log) : list bytes :=
  omap (fun e => match e with Handed b => Some b | Took _ => None end) log.

(** A mailbox for one frame: a frame taken replaces the one that waits, and
    only the one that waits can be handed over, once. *)
Fixpoint mailbox (log : list frame_log) (m : option bytes) : option (option bytes) :=
  match log with
  | [] => Some m
  | Took b :: log' => mailbox log' (Some b)
  | Handed b :: log' => if decide (m = Some b) then mailbox log' None else None
  end.

Section Slot.
Variable timeout : Z.

Definition slot_step (h : history) (o : slot_op) : history :=
  match o with
  | OSend b =>
      let '(rc, cs) := strim_http_ws_send true 0 (Some b) [hc h] in
      History (default (hc h) (head cs)) (hev h) (if rc =? 0 then hlog h ++ [Took b] else hlog h)
  | OPump sd w =>
      let '(c, e) := ws_pump_client timeout sd w (hc h) in History c (hev h ++ e) (hlog h ++ map Handed (frames e))
  | OShutdown sd w =>
      let '(_, c, e) := shutdown_client timeout sd w (hc h) in History c (hev h ++ e) (hlog h ++ map Handed (frames e))
  | OStraggler w =>
      let '(cs, e) := close_stragglers (fun _ => w) 0 [hc h] in
      History (default (hc h) (head cs)) (hev h ++ e) (hlog h ++ map Handed (frames e))
  end.

Definition slot_run (h : history) (os : list slot_op) : history := fold_left slot_step os h.

(** The slot an upgrade publishes. *)
Definition fresh (w : wslay) (env : upgrade_env) (idx s : nat) (extra : bytes) : history :=
  let '(c, e) := upgraded timeout w env idx s extra in History c e (map Handed (frames e)).

(** ** The invariant *)

Definition is_close (e : ws_event) : bool := match e with EvClose => true | _ => false end.
Definition close_count (es : list ws_event) : nat := length (List.filter is_close es).

Definition has_close_frame (es : list ws_event) : bool :=
  existsb (fun e => match e with EvQueueClose _ => true | _ => false end) es.

(** No frame after a close frame. *)
Fixpoint quiet_after_close (es : list ws_event) : bool :=
  match es with
  | [] => true
  | EvQueueClose _ :: es' => bool_decide (frames es' = [])
  | _ :: es' => quiet_after_close es'
  end.

Definition pending_frames (c : ws_client) : list bytes := if has_pending c then [pending c] else [].

(** The frame that waits in the slot. *)
Definition waits (c : ws_client) : option bytes := if has_pending c then Some (pending c) else None.

Definition frame_ok (b : bytes) : Prop := 0 < Z.of_nat (length b) <= STRIM_HTTP_STATUS_MAX.

Record slot_inv (h : history) : Prop := {
  si_close : close_count (hev h) = if closed (hc h) then 1%nat else 0%nat;
  si_frames : frames (hev h) = handed (hlog h);
  si_mailbox : mailbox (hlog h) None = Some (waits (hc h));
  si_pending : has_pending (hc h) = true -> pending (hc h) <> [];
  si_sizes : Forall frame_ok (taken (hlog h));
  si_quiet : quiet_after_close (hev h) = true;
  si_closing : has_close_frame (hev h) = true -> closing (hc h) || closed (hc h) = true;
}.

(** What one operation's own events may be, given the slot before and after:
    the facts the invariant needs. *)
Record op_ok (c c' : ws_client) (es : list ws_event) : Prop := {
  oo_close : (close_count es + (if closed c then 1 else 0))%nat = if closed c' then 1%nat else 0%nat;
  oo_frames : frames es ++ pending_frames c' = pending_frames c;
  oo_pending : has_pending c' = true -> pending c' = pending c;
  oo_silent : closing c || closed c = true -> frames es = [];
  oo_quiet : quiet_after_close es = true;
  oo_closing : closing c || closed c || has_close_frame es = true -> closing c' || closed c' = true;
}.

Lemma close_count_app (a b : list ws_event) : close_count (a ++ b) = (close_count a + close_count b)%nat.
Proof. unfold close_count. by rewrite List.filter_app, length_app. Qed.

Lemma frames_app (a b : list ws_event) : frames (a ++ b) = frames a ++ frames b.
Proof. apply omap_app. Qed.

Lemma has_close_frame_app (a b : list ws_event) :
  has_close_frame (a ++ b) = has_close_frame a || has_close_frame b.
Proof. apply existsb_app. Qed.

Lemma quiet_app (a b : list ws_event) :
  quiet_after_close a = true -> quiet_after_close b = true ->
  (has_close_frame a = true -> frames b = []) -> quiet_after_close (a ++ b) = true.
Proof.
  induction a as [|e a IH]; intros Ha Hb Hc; [done|]. destruct e; cbn [app quiet_after_close] in *; auto.
  apply bool_decide_eq_true. apply bool_decide_eq_true in Ha. rewrite frames_app, Ha. by apply Hc.
Qed.

(** Sequential composition of operations. *)
Lemma op_ok_app (c1 c2 c3 : ws_client) (e1 e2 : list ws_event) :
  op_ok c1 c2 e1 -> op_ok c2 c3 e2 -> op_ok c1 c3 (e1 ++ e2).
Proof.
  intros [A1 B1 P1 S1 Q1 C1] [A2 B2 P2 S2 Q2 C2]. split.
  - rewrite close_count_app. lia.
  - by rewrite frames_app, <- app_assoc, B2.
  - intros H. rewrite (P2 H). unfold pending_frames in *. rewrite H in B2.
    destruct (has_pending c2); [by apply P1|].
    destruct (frames e2); [done|]. discriminate B2.
  - intros H. rewrite frames_app, S1, S2; [done| |done]. apply C1. by rewrite H.
  - apply quiet_app; [done..|]. intros H. apply S2, C1. rewrite H. by rewrite orb_true_r.
  - rewrite has_close_frame_app. intros H. apply C2.
    destruct (closing c1 || closed c1 || has_close_frame e1) eqn:E.
    + by rewrite C1.
    + rewrite orb_assoc, E in H. cbn in H. by rewrite H, !orb_true_r.
Qed.

Lemma op_ok_nil (c : ws_client) : op_ok c c [].
Proof. split; try done. intros H. by rewrite orb_false_r in H. Qed.

(** An update that leaves the flags and the pending frame alone. *)
Lemma op_ok_silent (c c' : ws_client) (es : list ws_event) :
  closed c' = closed c -> has_pending c' = has_pending c -> pending c' = pending c ->
  (closing c = true -> closing c' = true) -> close_count es = 0%nat -> frames es = [] ->
  quiet_after_close es = true -> has_close_frame es = false -> op_ok c c' es.
Proof.
  intros H1 H2 H3 H4 H5 H6 H7 H8. split; try done.
  - rewrite H5, H1. done.
  - unfold pending_frames. by rewrite H6, H2, H3.
  - rewrite H8, orb_false_r, H1. intros H.
    apply orb_true_iff in H as [H | ->]; [by rewrite H4 | by rewrite orb_true_r].
Qed.

Lemma op_ok_close_socket (w : wslay) (code : Z) (c : ws_client) :
  op_ok c (ws_close_socket w code c).1 (ws_close_socket w code c).2.
Proof.
  unfold ws_close_socket. destruct (closed c) eqn:E; [apply op_ok_nil|]. simpl.
  destruct (_ && _); split; simpl; rewrite ?E; try done; intros _; apply orb_true_r.
Qed.

Lemma op_ok_begin_close (w : wslay) (code : Z) (c : ws_client) :
  op_ok c (ws_begin_close timeout w code c).1 (ws_begin_close timeout w code c).2.
Proof.
  unfold ws_begin_close. destruct (closing c) eqn:E; [apply op_ok_nil|].
  destruct (w_queue_close w =? 0); cbn [negb].
  - split; simpl; try done.
  - pose proof (op_ok_close_socket w 0 c) as Hc. unfold ws_close_socket in *.
    destruct (closed c) eqn:Ecl; simpl in *; split; simpl; rewrite ?Ecl, ?orb_true_r; done.
Qed.

Lemma op_ok_drain (sd : bool) (w : wslay) (c : ws_client) :
  closing c = false -> closed c = false -> (has_pending c = true -> pending c <> []) ->
  op_ok c (ws_drain_slot timeout sd w c).1 (ws_drain_slot timeout sd w c).2.
Proof.
  intros Hcl Hcd Hne. unfold ws_drain_slot. destruct (has_pending c) eqn:Hp.
  - destruct (pending c) as [|x xs] eqn:E; [by destruct (Hne eq_refl)|].
    destruct (w_queue_msg w =? 0); cbn [negb]; split; simpl; rewrite ?Hcd, ?Hcl; try done;
      unfold pending_frames; simpl; by rewrite Hp, E.
  - destruct (sd && negb (closing c)); [apply op_ok_begin_close | apply op_ok_nil].
Qed.

(** The pending frame, when there is one, is not empty. *)
Definition pending_ok (c : ws_client) : Prop := has_pending c = true -> pending c <> [].

Lemma op_ok_pending (c c' : ws_client) (es : list ws_event) :
  op_ok c c' es -> pending_ok c -> pending_ok c'.
Proof.
  intros [_ Hf Hp _ _ _] Hc H. rewrite (Hp H). apply Hc.
  unfold pending_frames in Hf. rewrite H in Hf. destruct (has_pending c); [done|].
  by destruct (frames es).
Qed.

Lemma op_ok_set_closing (d : Z) (c : ws_client) : op_ok c (set_closing d c) [].
Proof. by apply op_ok_silent. Qed.

Lemma op_ok_set_inflight (b : bool) (d : Z) (c : ws_client) : op_ok c (set_inflight b d c) [].
Proof. by apply op_ok_silent. Qed.

Lemma op_ok_send_event (c : ws_client) : op_ok c c [EvSend].
Proof. by apply op_ok_silent. Qed.

Lemma op_ok_if (b : bool) (c : ws_client) (r : ws_client * list ws_event) :
  (b = true -> op_ok c r.1 r.2) ->
  op_ok c (if b then r else (c, [])).1 (if b then r else (c, [])).2.
Proof. intros H. destruct b; [by apply H | apply op_ok_nil]. Qed.

Lemma op_ok_after_send (w : wslay) (c : ws_client) :
  op_ok c (pump_after_send w c).1 (pump_after_send w c).2.
Proof.
  unfold pump_after_send. destruct (w_send w =? 0); cbn [negb]; [|apply op_ok_close_socket].
  set (c1 := if _ && _ then _ else c).
  assert (H1 : op_ok c c1 []) by (unfold c1; destruct (_ && _); [apply op_ok_set_inflight | apply op_ok_nil]).
  clearbody c1. destruct (closing c1 && w_close_sent w);
    [|destruct (closing c1 && negb (w_close_sent w) && (close_deadline_ms c1 <=? w_now w))].
  - apply (op_ok_app c c1 _ [] _ H1), op_ok_close_socket.
  - apply (op_ok_app c c1 _ [] _ H1), op_ok_close_socket.
  - apply H1.
Qed.

Lemma op_ok_pump (sd : bool) (w : wslay) (c : ws_client) :
  pending_ok c ->
  op_ok c (ws_pump_client timeout sd w c).1 (ws_pump_client timeout sd w c).2.
Proof.
  intros Hp. unfold ws_pump_client. destruct (negb (in_use c)); [apply op_ok_nil|].
  destruct (closed c) eqn:Hcd; [apply op_ok_nil|]. cbn [orb].
  destruct (w_recv w =? 0); cbn [negb]; [|apply op_ok_close_socket].
  set (c1 := if _ && _ then _ else c).
  assert (H1 : op_ok c c1 []) by (unfold c1; destruct (_ && _); [apply op_ok_set_closing | apply op_ok_nil]).
  assert (Hcd1 : closed c1 = false) by (unfold c1; by destruct (_ && _)).
  match goal with |- context [let '(_, _) := ?r in _] => destruct r as [c2 e2] eqn:E2 end.
  assert (H2 : op_ok c1 c2 e2).
  { pose proof (op_ok_if (negb (closing c1) && negb (frame_inflight c1)) c1
      (ws_drain_slot timeout sd w c1)) as Hd. rewrite E2 in Hd. apply Hd. intros Hb. bool_props.
    apply op_ok_drain; [done | done | by eapply op_ok_pending]. }
  match goal with |- context [let '(_, _) := ?r in _] => destruct r as [c3 e3] eqn:E3 end.
  assert (H3 : op_ok c2 c3 e3).
  { pose proof (op_ok_if (frame_inflight c2 && negb (closing c2) && (frame_deadline_ms c2 <=? w_now w))
      c2 (ws_begin_close timeout w WSLAY_CODE_INTERNAL_SERVER_ERROR c2)) as Hd.
    rewrite E3 in Hd. apply Hd. intros _. apply op_ok_begin_close. }
  pose proof (op_ok_after_send w c3) as H4. destruct (pump_after_send w c3) as [c4 e4]. simpl in *.
  apply (op_ok_app c c1 c4 [] _ H1), (op_ok_app c1 c2 c4 _ _ H2), (op_ok_app c2 c3 c4 _ _ H3).
  apply (op_ok_app c3 c3 c4 [EvSend] _ (op_ok_send_event c3) H4).
Qed.

Lemma op_ok_shutdown (sd : bool) (w : wslay) (c : ws_client) :
  pending_ok c ->
  op_ok c (shutdown_client timeout sd w c).1.2 (shutdown_client timeout sd w c).2.
Proof.
  intros Hp. unfold shutdown_client. destruct (negb (in_use c)); [apply op_ok_nil|].
  destruct (closed c) eqn:Hcd; [apply op_ok_nil|]. cbn [orb].
  match goal with |- context [let '(_, _) := ?r in _] => destruct r as [c1 e1] eqn:E1 end.
  assert (H1 : op_ok c c1 e1).
  { pose proof (op_ok_if (negb (closing c) && negb (frame_inflight c)) c
      (ws_drain_slot timeout sd w c)) as Hd. rewrite E1 in Hd. apply Hd. intros Hb. bool_props.
    by apply op_ok_drain. }
  set (flushing := frame_inflight c1 && negb (closing c1)). cbv zeta.
  destruct (flushing && w_want_write w).
  { apply (op_ok_app c c1 c1 _ [EvSend] H1), op_ok_send_event. }
  set (c2 := if flushing then _ else c1). set (e2 := if flushing then _ else []).
  assert (H2 : op_ok c1 c2 e2).
  { unfold c2, e2. destruct flushing; [|apply op_ok_nil].
    apply (op_ok_app c1 c1 _ [EvSend] [] (op_ok_send_event c1)), op_ok_set_inflight. }
  match goal with |- context [let '(_, _) := ?r in _] => destruct r as [c3 e3] eqn:E3 end.
  assert (H3 : op_ok c2 c3 e3).
  { pose proof (op_ok_if (negb (closing c2)) c2
      (ws_begin_close timeout w WSLAY_CODE_NORMAL_CLOSURE c2)) as Hd.
    rewrite E3 in Hd. apply Hd. intros _. apply op_ok_begin_close. }
  assert (H123 : op_ok c c3 (e1 ++ e2 ++ e3))
    by (apply (op_ok_app c c1 c3 _ _ H1), (op_ok_app c1 c2 c3 _ _ H2), H3).
  destruct (w_close_sent w); cbn [negb].
  - pose proof (op_ok_close_socket w 0 c3) as H4. destruct (ws_close_socket w 0 c3) as [c4 e4].
    cbn [fst snd] in *.
    replace (e1 ++ e2 ++ e3 ++ [EvSend] ++ e4) with ((e1 ++ e2 ++ e3) ++ [EvSend] ++ e4)
      by (by rewrite <- !app_assoc).
    apply (op_ok_app c c3 c4 _ _ H123), (op_ok_app c3 c3 c4 [EvSend] _ (op_ok_send_event c3) H4).
  - cbn [fst snd].
    replace (e1 ++ e2 ++ e3 ++ [EvSend]) with ((e1 ++ e2 ++ e3) ++ [EvSend])
      by (by rewrite <- !app_assoc).
    apply (op_ok_app c c3 c3 _ [EvSend] H123), op_ok_send_event.
Qed.

Lemma mailbox_app (a b : list frame_log) (m : option bytes) :
  mailbox (a ++ b) m = match mailbox a m with Some m' => mailbox b m' | None => None end.
Proof. revert m. induction a as [|[x|x] a IH]; intros m; cbn; [done|apply IH|]. case_decide; [apply IH|done]. Qed.

Lemma handed_map (fs : list bytes) : handed (map Handed fs) = fs /\ taken (map Handed fs) = [].
Proof. induction fs as [|f fs [IH1 IH2]]; [done|]. cbn. by split; [f_equal|]. Qed.

Lemma slot_inv_op (h : history) (c' : ws_client) (es : list ws_event) :
  slot_inv h -> op_ok (hc h) c' es ->
  slot_inv (History c' (hev h ++ es) (hlog h ++ map Handed (frames es))).
Proof.
  intros [A B M L F Q C] Ho. pose proof (op_ok_pending _ _ _ Ho L) as L'.
  destruct Ho as [A' B' P' S' Q' C']. destruct (handed_map (frames es)) as [Hh Ht]. split; simpl.
  - rewrite close_count_app. lia.
  - unfold handed in *. by rewrite frames_app, B, omap_app, Hh.
  - rewrite mailbox_app, M. unfold waits, pending_frames in *.
    destruct (frames es) as [|f fs]; cbn [map mailbox app] in *.
    + destruct (has_pending c') eqn:E, (has_pending (hc h)); congruence.
    + destruct (has_pending (hc h)); [|done]. injection B' as -> B'. apply app_eq_nil in B' as [-> B'].
      rewrite decide_True by done. cbn. by destruct (has_pending c').
  - exact L'.
  - unfold taken. rewrite omap_app. apply Forall_app. split; [done|]. unfold taken in Ht. by rewrite Ht.
  - apply quiet_app; [done..|]. intros H. by apply S', C.
  - rewrite has_close_frame_app. intros H. apply C'. apply orb_true_iff in H as [H | ->].
    + by rewrite (C H).
    + apply orb_true_r.
Qed.

Lemma slot_inv_send (h : history) (b : bytes) : slot_inv h -> slot_inv (slot_step h (OSend b)).
Proof.
  intros Hi. destruct h as [c ev acc]. unfold slot_step, strim_http_ws_send.
  cbn [negb orb hc hev hlog].
  destruct (Z.eqb_spec (Z.of_nat (length b)) 0) as [|H0]; [done|].
  destruct (Z.ltb_spec STRIM_HTTP_STATUS_MAX (Z.of_nat (length b))) as [|Hm]; [done|]. cbn [orb].
  change (([c] : list ws_client) !! Z.to_nat 0) with (Some c).
  cbn [Z.ltb Z.leb Z.compare orb Z.of_nat STRIM_HTTP_MAX_WS_CLIENTS Pos.of_succ_nat Pos.succ].
  destruct (in_use c && negb (closed c) && negb (closing c)) eqn:E; [|by destruct Hi].
  cbn [Z.eqb]. destruct Hi as [A B M L F Q C]. simpl in *. split; simpl; try done.
  - rewrite B. unfold handed. by rewrite omap_app, app_nil_r.
  - by rewrite mailbox_app, M.
  - intros _ ->. simpl in H0. lia.
  - unfold taken. rewrite omap_app. apply Forall_app. split; [done|]. constructor; [|done]. unfold frame_ok. lia.
Qed.

Lemma slot_inv_step (h : history) (o : slot_op) : slot_inv h -> slot_inv (slot_step h o).
Proof.
  intros Hi. pose proof (si_pending h Hi) as Hp.
  destruct o as [b|sd w|sd w|w]; [by apply slot_inv_send | | |]; unfold slot_step.
  - pose proof (op_ok_pump sd w (hc h) Hp) as Ho. destruct (ws_pump_client _ _ _ _).
    by apply slot_inv_op.
  - pose proof (op_ok_shutdown sd w (hc h) Hp) as Ho.
    destruct (shutdown_client _ _ _ _) as [[? ?] ?]. by apply slot_inv_op.
  - cbn [close_stragglers].
    pose proof (op_ok_close_socket w WSLAY_CODE_NORMAL_CLOSURE (hc h)) as Ho.
    destruct (in_use (hc h) && negb (closed (hc h))).
    + destruct (ws_close_socket _ _ _) as [c' e]. cbn [head default]. rewrite app_nil_r.
      by apply slot_inv_op.
    + cbn [head default app]. by apply (slot_inv_op h (hc h) []); [|apply op_ok_nil].
Qed.

(** A slot just published by an upgrade. *)
Definition blank (c : ws_client) : Prop :=
  closed c = false /\ closing c = false /\ has_pending c = false.

Lemma slot_inv_blank (c : ws_client) : blank c -> slot_inv (History c [] []).
Proof.
  intros (H1 & H2 & H3). split; simpl; unfold waits; rewrite ?H1, ?H3; try done; constructor.
Qed.

Lemma op_ok_upgraded (w : wslay) (env : upgrade_env) (idx s : nat) (extra : bytes) :
  exists c0, blank c0 /\
    op_ok c0 (upgraded timeout w env idx s extra).1 (upgraded timeout w env idx s extra).2.
Proof.
  unfold upgraded. destruct (_ && _); [eexists; split; [|apply op_ok_close_socket]; done|].
  destruct (ue_context env =? 0); cbn [negb]; [|eexists; split; [|apply op_ok_close_socket]; done].
  set (c := WsClient true false false false [] false 0 0 true (Some s) extra).
  exists c. split; [done|].
  assert (Hs : op_ok c c [EvSubscribe idx]) by (by apply op_ok_silent).
  destruct (ue_subscribe env =? 0); cbn [negb]; [exact Hs|].
  pose proof (op_ok_begin_close w WSLAY_CODE_INTERNAL_SERVER_ERROR c) as H1.
  destruct (ws_begin_close _ _ _ c) as [c1 e1].
  pose proof (op_ok_close_socket w 0 c1) as H2. destruct (ws_close_socket w 0 c1) as [c2 e2].
  cbn [fst snd] in *.
  apply (op_ok_app c c c2 _ _ Hs), (op_ok_app c c1 c2 _ _ H1).
  apply (op_ok_app c1 c1 c2 [EvSend] _ (op_ok_send_event c1) H2).
Qed.

Lemma slot_inv_fresh (w : wslay) (env : upgrade_env) (idx s : nat) (extra : bytes) :
  slot_inv (fresh w env idx s extra).
Proof.
  unfold fresh. destruct (op_ok_upgraded w env idx s extra) as (c0 & Hb & Ho).
  destruct (upgraded _ _ _ _ _ _) as [c e].
  exact (slot_inv_op (History c0 [] []) c e (slot_inv_blank c0 Hb) Ho).
Qed.

Lemma slot_inv_run (h : history) (os : list slot_op) : slot_inv h -> slot_inv (slot_run h os).
Proof. revert h. induction os; intros h Hi; simpl; [done|]. by apply IHos, slot_inv_step. Qed.

End Slot.

(** A service pass hands the waiting frame over, and clears the way for the
    next one when wslay has written it. *)
Lemma pump_delivers (timeout : Z) (sd : bool) (w : wslay) (c : ws_client) :
  in_use c = true -> closed c = false -> closing c = false -> frame_inflight c = false ->
  has_pending c = true -> pending c <> [] -> w_recv w = 0 -> w_close_received w = false ->
  frames (ws_pump_client timeout sd w c).2 = [pending c] /\
  has_pending (ws_pump_client timeout sd w c).1 = false /\
  (w_send w = 0 -> w_want_write w = false -> frame_inflight (ws_pump_client timeout sd w c).1 = false).
Proof.
  intros H1 H2 H3 H4 H5 H6 H7 H8. unfold ws_pump_client. rewrite H1, H2, H7, H8. cbn [negb orb andb Z.eqb].
  rewrite H3, H4. cbn [negb andb]. unfold ws_drain_slot. rewrite H5.
  destruct (pending c) as [|x xs] eqn:Ep; [done|].
  unfold ws_begin_close, pump_after_send, ws_close_socket.
  destruct (w_queue_msg w =? 0); simpl; rewrite ?H2, ?H3, ?H4; simpl;
    repeat (case_match; simplify_eq/=; rewrite ?H2, ?H3, ?H4 in *; simplify_eq/=); split_and!; try done.
  all: try (intros Hs Hw; bool_props; congruence).
Qed.


(** ** Shutdown *)
Lemma stragglers_closed (w : nat -> wslay) (i : nat) (cs : list ws_client) :
  Forall (fun c => in_use c = true -> closed c = true) (close_stragglers w i cs).1 /\
  length (close_stragglers w i cs).1 = length cs.
Proof.
  revert i. induction cs as [|c cs IH]; intros i; [split; [constructor | done]|].
  cbn [close_stragglers]. specialize (IH (S i)).
  destruct (in_use c) eqn:Hu, (closed c) eqn:Hc; cbn [andb negb];
    unfold ws_close_socket; rewrite ?Hc;
    destruct (close_stragglers w (S i) cs) as [cs' es]; cbn [fst length] in *;
    (split; [constructor; [|apply IH] | by destruct IH as [_ ->]]); simpl; congruence.
Qed.

(** shutdown closes every client.  Whatever wslay reports during the 256
    flushing passes, after [ws_shutdown_all] every slot in use has been
    closed, and the number of slots is unchanged. *)
Theorem shutdown_closes_every_client (timeout : Z) (sd : bool) (w : nat -> nat -> wslay)
    (cs : list ws_client) :
  let cs' := (ws_shutdown_all timeout sd w cs).1 in
  length cs' = length cs /\ Forall (fun c => in_use c = true -> closed c = true) cs'.
Proof.
  cbv zeta. unfold ws_shutdown_all.
  assert (Hp : forall i ws l, length (shutdown_pass timeout sd ws i l).1.2 = length l).
  { intros i ws l. revert i. induction l as [|c l IH]; intros i; [done|]. cbn [shutdown_pass].
    specialize (IH (S i)). destruct (shutdown_client _ _ _ _) as [[? ?] ?].
    destruct (shutdown_pass timeout sd ws (S i) l) as [[? ?] ?]. simpl in *. by rewrite IH. }
  assert (Hps : forall fuel pass l, length (shutdown_passes timeout sd w fuel pass l).1 = length l).
  { induction fuel as [|fuel IH]; intros pass l; [done|]. cbn [shutdown_passes].
    specialize (Hp 0%nat (w pass) l). destruct (shutdown_pass _ _ _ _ _) as [[live l1] e1].
    simpl in Hp. destruct live; cbn [negb]; [|by simpl].
    specialize (IH (S pass) l1). destruct (shutdown_passes _ _ _ _ _ _) as [l2 e2]. simpl in *. lia. }
  specialize (Hps 256%nat 0%nat cs). destruct (shutdown_passes _ _ _ _ _ _) as [cs1 e1].
  pose proof (stragglers_closed (w 256%nat) 0 cs1) as [H1 H2].
  destruct (close_stragglers _ _ _) as [cs2 e2]. simpl in *. split; [lia | done].
Qed.

(** ** Slots *)
Lemma first_free_spec (i : nat) (cs : list ws_client) :
  match first_free i cs with
  | Some k => (i <= k)%nat /\ exists c, cs !! (k - i)%nat = Some c /\ in_use c = false
  | None => Forall (fun c => in_use c = true) cs
  end.
Proof.
  revert i. induction cs as [|c cs IH]; intros i; [constructor|]. cbn [first_free].
  destruct (in_use c) eqn:E; cbn [negb].
  - specialize (IH (S i)). destruct (first_free (S i) cs) as [k|]; [|by constructor].
    destruct IH as [Hle (c' & Hc' & Hu)]. split; [lia|]. exists c'.
    by replace (k - i)%nat with (S (k - S i)) by lia.
  - split; [lia|]. exists c. by rewrite Nat.sub_diag.
Qed.

(** slots are never shared.  An upgrade takes a slot that no connection
    was using, marks it in use for its own session and leaves the other slots
    alone; when all slots are in use it only closes the new connection.  A
    completed request cleans its slot only while the slot still belongs to
    its session, once: the slot then accepts no frame and a second cleanup
    does nothing. *)
Theorem slots_are_exclusive (timeout : Z) (w : wslay) (env : upgrade_env) (s s' : nat)
    (extra b : bytes) (cs : list ws_client) (c : ws_client) (idx : nat) :
  (match ws_upgrade_handler timeout w env s extra cs with
   | (Some k, cs', _) =>
       (exists old new, cs !! k = Some old /\ in_use old = false /\
          cs' !! k = Some new /\ in_use new = true /\ session new = Some s) /\
       forall j, j <> k -> cs' !! j = cs !! j
   | (None, cs', ev) => cs' = cs /\ ev = [EvClose] /\ Forall (fun c => in_use c = true) cs
   end) /\
  (session c <> Some s' -> ws_cleanup_slot idx (Some s') c = (c, [])) /\
  (in_use c = true -> session c = Some s' ->
   let c' := (ws_cleanup_slot idx (Some s') c).1 in
   in_use c' = false /\ (ws_cleanup_slot idx (Some s') c').2 = [] /\
   strim_http_ws_send true 0 (Some b) [c'] = (-1, [c'])).
Proof.
  split_and!.
  - unfold ws_upgrade_handler. pose proof (first_free_spec 0 cs) as Hf.
    destruct (first_free 0 cs) as [k|]; [|done]. rewrite Nat.sub_0_r in Hf.
    destruct Hf as [_ (old & Hold & Hu)].
    destruct (upgraded timeout w env k s extra) as [new e] eqn:Eu. split.
    + exists old, new. pose proof (lookup_lt_Some _ _ _ Hold) as Hlt.
      rewrite list_lookup_insert_eq by done.
      assert (in_use new = true /\ session new = Some s) as [-> ->]; [|done].
      unfold upgraded, ws_begin_close, ws_close_socket in Eu.
      repeat (case_match; simplify_eq/=; try done).
    + intros j Hj. by rewrite list_lookup_insert_ne.
  - intros Hs. unfold ws_cleanup_slot. rewrite bool_decide_false by done.
    by rewrite orb_true_r.
  - intros Hu Hs. unfold ws_cleanup_slot. rewrite Hu, bool_decide_true by done. cbn [negb orb fst].
    split_and!; [done | done |]. unfold strim_http_ws_send. cbn [in_use andb].
    destruct (_ || _ || _); [done|]. destruct (_ || _); done.
Qed.
