(* ===== verification/HttpServer.v ===== *)
(** * The HTTP server around libmicrohttpd (http/http_server.c)

    Start, the service loop, shutdown and destruction.  libmicrohttpd runs
    inside [MHD_run_wait] and [MHD_stop_daemon] and calls back: an upgraded
    connection takes a client slot, a completed request gives its slot back.
    The calls it makes there are arguments, as are its results.  The global
    [g_active_server] is the flag [active]. *)

From S2P Require Import Prelude Http WsSlot WsFacts.

Record strim_http_server := HttpServer {
  daemon_running : bool;
  port : Z;
  ws_write_timeout_ms : Z;
  build_version : cstring;
  build_commit : cstring;
  shutdown_requested : bool;
  clients : list ws_client;
  sessions : gmap nat nat;         (* client_idx of the sessions that have one *)
}.

Definition with_clients (cs : list ws_client) (s : strim_http_server) : strim_http_server :=
  HttpServer (daemon_running s) (port s) (ws_write_timeout_ms s) (build_version s) (build_commit s)
    (shutdown_requested s) cs (sessions s).
Definition with_sessions (m : gmap nat nat) (s : strim_http_server) : strim_http_server :=
  HttpServer (daemon_running s) (port s) (ws_write_timeout_ms s) (build_version s) (build_commit s)
    (shutdown_requested s) (clients s) m.
Definition with_running (b : bool) (s : strim_http_server) : strim_http_server :=
  HttpServer b (port s) (ws_write_timeout_ms s) (build_version s) (build_commit s) (shutdown_requested s)
    (clients s) (sessions s).

(** ** Start *)

(** Which of the callbacks are not NULL. *)
Record strim_http_callbacks := HttpCallbacks {
  cb_handle_event : bool;
  cb_handle_control : bool;
  cb_handle_status : bool;
  cb_request_reconcile : bool;
  cb_ws_subscribe : bool;
  cb_ws_unsubscribe : bool;
  cb_ws_send : bool;
}.

Definition fill_http_callbacks : strim_http_callbacks := HttpCallbacks true true true true true true true.

Definition callbacks_complete (cbs : strim_http_callbacks) : bool :=
  cb_handle_event cbs && cb_handle_control cbs && cb_handle_status cbs && cb_request_reconcile cbs &&
  cb_ws_subscribe cbs && cb_ws_unsubscribe cbs && cb_ws_send cbs.

(** What the start meets: memory, the write timeout's variable, the daemon
    and the port it bound, if known. *)
Record start_env := StartEnv {
  se_calloc : bool;
  se_write_timeout : option cstring;
  se_daemon : option (option Z);
}.

(** The code, the server and [g_active_server] afterwards. *)
Definition strim_http_server_start (env : start_env) (active out : bool) (addr : option cstring)
    (cbs : option strim_http_callbacks) (build_version build_commit : option cstring)
  : Z * option strim_http_server * bool :=
  match out, addr, cbs with
  | true, Some _, Some cbs =>
      if negb (callbacks_complete cbs) then (-1, None, active)
      else if active then (-1, None, active)
      else if parse_port addr <? 0 then (-1, None, active)
      else if negb (se_calloc env) then (-1, None, active)
      else
        match se_daemon env with
        | None => (-1, None, active)
        | Some bound =>
            (0, Some (HttpServer true (default (parse_port addr) bound) (ws_write_timeout_from_env (se_write_timeout env))
                        (normalize_build_value build_version) (normalize_build_value build_commit) false
                        (replicate STRIM_HTTP_MAX_WS_CLIENTS free_client) ∅), true)
        end
  | _, _, _ => (-1, None, active)
  end.

Definition strim_http_server_bound_port (server : option strim_http_server) : Z :=
  match server with None => -1 | Some s => port s end.

Definition strim_http_server_shutdown_request (s : strim_http_server) : strim_http_server :=
  HttpServer (daemon_running s) (port s) (ws_write_timeout_ms s) (build_version s) (build_commit s) true
    (clients s) (sessions s).

(** ** Callbacks of the daemon *)

(** A session that [NULL] stands for has no entry. *)
Inductive mhd_call :=
  | UpgradeCall (w : wslay) (env : upgrade_env) (s : nat) (extra : bytes)
  | CompletedCall (s : option nat).

Definition request_completed_cb (s : option nat) (srv : strim_http_server) : strim_http_server * list ws_event :=
  match s with
  | None => (srv, [])
  | Some s =>
      match sessions srv !! s with
      | None => (srv, [])
      | Some idx =>
          match clients srv !! idx with
          | None => (srv, [])
          | Some c =>
              let '(c', es) := ws_cleanup_slot idx (Some s) c in
              (with_sessions (delete s (sessions srv)) (with_clients (<[idx := c']> (clients srv)) srv), es)
          end
      end
  end.

Definition mhd_call_effect (call : mhd_call) (srv : strim_http_server) : strim_http_server * list ws_event :=
  match call with
  | UpgradeCall w env s extra =>
      match ws_upgrade_handler (ws_write_timeout_ms srv) w env s extra (clients srv) with
      | (Some idx, cs, es) => (with_sessions (<[s := idx]> (sessions srv)) (with_clients cs srv), es)
      | (None, cs, es) => (with_clients cs srv, es)
      end
  | CompletedCall s => request_completed_cb s srv
  end.

Fixpoint mhd_calls (calls : list mhd_call) (srv : strim_http_server) : strim_http_server * list ws_event :=
  match calls with
  | [] => (srv, [])
  | call :: calls =>
      let '(srv1, e1) := mhd_call_effect call srv in
      let '(srv2, e2) := mhd_calls calls srv1 in
      (srv2, e1 ++ e2)
  end.

(** ** The service loop *)

Fixpoint pump_clients (timeout : Z) (sd : bool) (w : nat -> wslay) (i : nat) (cs : list ws_client)
  : list ws_client * list ws_event :=
  match cs with
  | [] => ([], [])
  | c :: cs =>
      let '(c', e) := ws_pump_client timeout sd (w i) c in
      let '(cs', es) := pump_clients timeout sd w (S i) cs in
      (c' :: cs', e ++ es)
  end.

Definition ws_pump_all (w : nat -> wslay) (srv : strim_http_server) : strim_http_server * list ws_event :=
  let '(cs, es) := pump_clients (ws_write_timeout_ms srv) (shutdown_requested srv) w 0 (clients srv) in
  (with_clients cs srv, es).

Definition shutdown_all (w : nat -> nat -> wslay) (srv : strim_http_server) : strim_http_server * list ws_event :=
  let '(cs, es) := ws_shutdown_all (ws_write_timeout_ms srv) (shutdown_requested srv) w (clients srv) in
  (with_clients cs srv, es).

(** [done] are the sessions whose completion stopping the daemon fires. *)
Definition stop_daemon (done : list (option nat)) (srv : strim_http_server) : strim_http_server * list ws_event :=
  if daemon_running srv
  then let '(srv1, es) := mhd_calls (map CompletedCall done) srv in (with_running false srv1, es)
  else (srv, []).

(** One iteration: whether the shutdown request is seen, the result of
    [MHD_run_wait] with the calls made in it, and wslay during the pump. *)
Record service_pass := ServicePass {
  sp_requested : bool;
  sp_run : bool;
  sp_calls : list mhd_call;
  sp_wslay : nat -> wslay;
}.

(** The end of the loop. *)
Record service_end := ServiceEnd {
  sn_shutdown : nat -> nat -> wslay;
  sn_wslay : nat -> wslay;
  sn_done : list (option nat);
}.

(** With a negative timeout; [None]: the passes ran out, it is still
    serving. *)
Fixpoint service_loop (passes : list service_pass) (last : service_end) (srv : strim_http_server)
  : option (Z * strim_http_server * list ws_event) :=
  match passes with
  | [] => None
  | p :: passes =>
      if sp_requested p then
        let srv := strim_http_server_shutdown_request srv in
        let '(srv1, e1) := shutdown_all (sn_shutdown last) srv in
        let '(srv2, e2) := ws_pump_all (sn_wslay last) srv1 in
        let '(srv3, e3) := stop_daemon (sn_done last) srv2 in
        Some (0, srv3, e1 ++ e2 ++ e3)
      else
        let '(srv1, e1) := mhd_calls (sp_calls p) srv in
        if negb (sp_run p) then Some (-1, srv1, e1)
        else
          let '(srv2, e2) := ws_pump_all (sp_wslay p) srv1 in
          match service_loop passes last srv2 with
          | None => None
          | Some (rc, srv3, e3) => Some (rc, srv3, e1 ++ e2 ++ e3)
          end
  end.

(** With another timeout it is one pass. *)
Definition strim_http_server_service (timeout_ms : Z) (passes : list service_pass) (last : service_end)
    (srv : strim_http_server) : option (Z * strim_http_server * list ws_event) :=
  if timeout_ms <? 0 then service_loop passes last srv
  else
    match passes with
    | [] => None
    | p :: _ =>
        let '(srv1, e1) := mhd_calls (sp_calls p) srv in
        if negb (sp_run p) then Some (-1, srv1, e1)
        else let '(srv2, e2) := ws_pump_all (sp_wslay p) srv1 in Some (0, srv2, e1 ++ e2)
    end.

(** ** Destruction *)

Fixpoint cleanup_all (i : nat) (cs : list ws_client) : list ws_client * list ws_event :=
  match cs with
  | [] => ([], [])
  | c :: cs =>
      let '(c', e) := if in_use c then ws_cleanup_slot i (session c) c else (c, []) in
      let '(cs', es) := cleanup_all (S i) cs in
      (c' :: cs', e ++ es)
  end.

(** What the server was when it was freed; it was the active one. *)
Definition strim_http_server_destroy (w : nat -> nat -> wslay) (done : list (option nat)) (srv : strim_http_server)
  : strim_http_server * list ws_event :=
  let '(srv1, e1) :=
    if daemon_running srv
    then let '(srv1, e1) := shutdown_all w srv in
         let '(srv2, e2) := stop_daemon done srv1 in (srv2, e1 ++ e2)
    else (srv, []) in
  let '(cs, e2) := cleanup_all 0 (clients srv1) in
  (with_clients cs srv1, e1 ++ e2).

(** * No listener outlives the HTTP server

    The controller calls a WebSocket client's listener between its
    subscription and its unsubscription.  Over the server's whole life a slot
    that is subscribed is in use, and destroying the server leaves none.  A
    controller that has been closed refuses both calls (the server looks at
    the answer to the first only), so a removal asked for after that leaves
    the listener in its table. *)


(** ** Subscriptions *)

(** Whether the last call for slot [i]'s listener was its registration, given
    whether it was before. *)
Fixpoint listening (i : nat) (before : bool) (es : list ws_event) : bool :=
  match es with
  | [] => before
  | EvSubscribe j :: es => listening i (if (i =? j)%nat then true else before) es
  | EvUnsubscribe j :: es => listening i (if (i =? j)%nat then false else before) es
  | _ :: es => listening i before es
  end.

Lemma listening_app (i : nat) (b : bool) (e1 e2 : list ws_event) :
  listening i b (e1 ++ e2) = listening i (listening i b e1) e2.
Proof. revert b. induction e1 as [|e e1 IH]; intros b; [done|]. destruct e; cbn; apply IH. Qed.

(** The calls for listeners. *)
Definition sub_calls (es : list ws_event) : list ws_event :=
  List.filter (fun e => match e with EvSubscribe _ | EvUnsubscribe _ => true | _ => false end) es.

(** Whether slot [i]'s listener is in the controller's table, when the
    controller carries out [n] such calls and is closed then.  (A
    registration that fails for want of room counts as carried out.) *)
Fixpoint registered (i n : nat) (before : bool) (es : list ws_event) : bool :=
  match es with
  | [] => before
  | EvSubscribe j :: es =>
      match n with
      | O => registered i O before es
      | S n => registered i n (if (i =? j)%nat then true else before) es
      end
  | EvUnsubscribe j :: es =>
      match n with
      | O => registered i O before es
      | S n => registered i n (if (i =? j)%nat then false else before) es
      end
  | _ :: es => registered i n before es
  end.

(** While the controller is open its table is what the calls say. *)
Lemma registered_open (i n : nat) (b : bool) (es : list ws_event) :
  (length (sub_calls es) <= n)%nat -> registered i n b es = listening i b es.
Proof.
  revert n b. induction es as [|e es IH]; intros n b Hn; [done|].
  unfold sub_calls in Hn. destruct e; cbn in Hn |- *; try (by apply IH);
    (destruct n as [|n]; [exfalso; lia|]; apply IH; unfold sub_calls; lia).
Qed.

(** No slot is subscribed or unsubscribed. *)
Definition plain (e : ws_event) : Prop :=
  match e with EvSubscribe _ | EvUnsubscribe _ => False | _ => True end.

Lemma listening_plain (i : nat) (b : bool) (es : list ws_event) : Forall plain es -> listening i b es = b.
Proof. induction 1 as [|e es He _ IH]; [done|]. by destruct e. Qed.

(** Operations that keep the slot and its subscription. *)
Definition keeps (c : ws_client) (r : ws_client * list ws_event) : Prop := in_use r.1 = in_use c /\ Forall plain r.2.

Lemma keeps_close (w : wslay) (code : Z) (c : ws_client) : keeps c (ws_close_socket w code c).
Proof. unfold ws_close_socket, keeps. destruct (closed c); [by repeat constructor|]. case_match; by repeat constructor. Qed.

Lemma keeps_app (c c1 c2 : ws_client) (e1 e2 : list ws_event) :
  keeps c (c1, e1) -> keeps c1 (c2, e2) -> keeps c (c2, e1 ++ e2).
Proof. intros [H1 H2] [H3 H4]. split; cbn in *; [congruence|by apply Forall_app]. Qed.

Lemma keeps_if (b : bool) (c : ws_client) (r : ws_client * list ws_event) :
  keeps c r -> keeps c (if b then r else (c, [])).
Proof. intros Hr. destruct b; [done|by split]. Qed.

Lemma keeps_begin (t : Z) (w : wslay) (code : Z) (c : ws_client) : keeps c (ws_begin_close t w code c).
Proof.
  unfold ws_begin_close. destruct (closing c); [by split|]. destruct (negb _).
  - pose proof (keeps_close w 0 c) as [H1 H2]. destruct (ws_close_socket w 0 c). split; [done|]. by constructor.
  - split; [done|]. by repeat constructor.
Qed.

Lemma keeps_drain (t : Z) (sd : bool) (w : wslay) (c : ws_client) : keeps c (ws_drain_slot t sd w c).
Proof.
  unfold ws_drain_slot. set (c0 := if has_pending c then set_pending None c else c).
  assert (H0 : in_use c0 = in_use c) by (subst c0; by destruct (has_pending c)).
  destruct (if has_pending c then pending c else []).
  - destruct (sd && _); [|by split]. pose proof (keeps_begin t w WSLAY_CODE_NORMAL_CLOSURE c0) as [H1 H2].
    split; [by rewrite H1|done].
  - destruct (negb _); (split; [done|by repeat constructor]).
Qed.

Lemma keeps_after_send (w : wslay) (c : ws_client) : keeps c (pump_after_send w c).
Proof.
  unfold pump_after_send. destruct (negb (w_send w =? 0)); [apply keeps_close|]. cbv zeta.
  set (c0 := if frame_inflight c && negb (w_want_write w) then set_inflight _ _ c else c).
  assert (H0 : forall r, keeps c0 r -> keeps c r).
  { intros r [Ha Hb]. split; [|done]. rewrite Ha. subst c0. by case_match. }
  clearbody c0. apply H0. destruct (_ && w_close_sent w); [apply keeps_close|apply keeps_if, keeps_close].
Qed.

Lemma keeps_pump (t : Z) (sd : bool) (w : wslay) (c : ws_client) : keeps c (ws_pump_client t sd w c).
Proof.
  unfold ws_pump_client. destruct (negb (in_use c) || closed c); [by split|].
  destruct (negb _); [apply keeps_close|]. cbv zeta.
  set (c1 := if _ && _ then set_closing _ c else c).
  assert (H1 : keeps c (c1, [])) by (split; [subst c1; by case_match|constructor]).
  match goal with |- context [let '(_, _) := ?x in _] => assert (Hx : keeps c1 x); [|destruct x as [c2 e2]] end.
  { apply keeps_if, keeps_drain. }
  match goal with |- context [let '(_, _) := ?x in _] => assert (Hy : keeps c2 x); [|destruct x as [c3 e3]] end.
  { apply keeps_if, keeps_begin. }
  pose proof (keeps_after_send w c3) as Hz.
  destruct (pump_after_send w c3) as [c4 e4].
  change (e2 ++ e3 ++ [EvSend] ++ e4) with ([] ++ e2 ++ e3 ++ [EvSend] ++ e4).
  eapply keeps_app; [exact H1|]. eapply keeps_app; [exact Hx|]. eapply keeps_app; [exact Hy|].
  eapply (keeps_app c3 c3); [|exact Hz]. split; [done|by repeat constructor].
Qed.

Lemma keeps_shutdown (t : Z) (sd : bool) (w : wslay) (c : ws_client) :
  keeps c ((shutdown_client t sd w c).1.2, (shutdown_client t sd w c).2).
Proof.
  unfold shutdown_client. destruct (negb (in_use c) || closed c); [by split|].
  match goal with |- context [let '(_, _) := ?x in _] => assert (Hx : keeps c x); [|destruct x as [c1 e1]] end.
  { apply keeps_if, keeps_drain. }
  cbv zeta. set (fl := frame_inflight c1 && negb (closing c1)). destruct (fl && w_want_write w).
  { cbn. apply (keeps_app c c1); [done|]. split; [done|by repeat constructor]. }
  set (c2 := if fl then _ else c1). set (e2 := if fl then [EvSend] else []).
  assert (H2 : keeps c1 (c2, e2)) by (subst c2 e2; destruct fl; split; try done; by repeat constructor).
  match goal with |- context [let '(_, _) := ?x in _] => assert (Hy : keeps c2 x); [|destruct x as [c3 e3]] end.
  { apply keeps_if, keeps_begin. }
  pose proof (keeps_close w 0 c3) as Hz. destruct (ws_close_socket w 0 c3) as [c4 e4].
  assert (Hs : keeps c3 (c3, [EvSend])) by (split; [done|by repeat constructor]).
  clearbody c2 e2. destruct (negb (w_close_sent w)); cbn [fst snd].
  - eapply keeps_app; [exact Hx|]. eapply keeps_app; [exact H2|]. eapply keeps_app; [exact Hy|exact Hs].
  - eapply keeps_app; [exact Hx|]. eapply keeps_app; [exact H2|]. eapply keeps_app; [exact Hy|].
    eapply keeps_app; [exact Hs|exact Hz].
Qed.

(** ** Operations on all slots *)

Definition keeps_all (cs : list ws_client) (r : list ws_client * list ws_event) : Prop :=
  map in_use r.1 = map in_use cs /\ Forall plain r.2.

Lemma keeps_all_cons (c c' : ws_client) (cs cs' : list ws_client) (e es : list ws_event) :
  keeps c (c', e) -> keeps_all cs (cs', es) -> keeps_all (c :: cs) (c' :: cs', e ++ es).
Proof. intros [H1 H2] [H3 H4]. split; cbn in *; [congruence|by apply Forall_app]. Qed.

Lemma keeps_all_app (cs c1 c2 : list ws_client) (e1 e2 : list ws_event) :
  keeps_all cs (c1, e1) -> keeps_all c1 (c2, e2) -> keeps_all cs (c2, e1 ++ e2).
Proof. intros [H1 H2] [H3 H4]. split; cbn in *; [congruence|by apply Forall_app]. Qed.

Lemma keeps_all_refl (cs : list ws_client) : keeps_all cs (cs, []).
Proof. by split. Qed.

Lemma pump_keeps (t : Z) (sd : bool) (w : nat -> wslay) (i : nat) (cs : list ws_client) :
  keeps_all cs (pump_clients t sd w i cs).
Proof.
  revert i. induction cs as [|c cs IH]; intros i; [apply keeps_all_refl|]. cbn [pump_clients].
  pose proof (keeps_pump t sd (w i) c) as H1. specialize (IH (S i)).
  destruct (ws_pump_client _ _ _ _), (pump_clients _ _ _ _ _). by apply keeps_all_cons.
Qed.

Lemma shutdown_pass_keeps (t : Z) (sd : bool) (w : nat -> wslay) (i : nat) (cs : list ws_client) :
  keeps_all cs ((shutdown_pass t sd w i cs).1.2, (shutdown_pass t sd w i cs).2).
Proof.
  revert i. induction cs as [|c cs IH]; intros i; [apply keeps_all_refl|]. cbn [shutdown_pass].
  pose proof (keeps_shutdown t sd (w i) c) as H1. specialize (IH (S i)).
  destruct (shutdown_client _ _ _ _) as [[] ], (shutdown_pass _ _ _ _ _) as [[] ]. by apply keeps_all_cons.
Qed.

Lemma shutdown_passes_keep (t : Z) (sd : bool) (w : nat -> nat -> wslay) (fuel pass : nat) (cs : list ws_client) :
  keeps_all cs (shutdown_passes t sd w fuel pass cs).
Proof.
  revert pass cs. induction fuel as [|fuel IH]; intros pass cs; [apply keeps_all_refl|]. cbn [shutdown_passes].
  pose proof (shutdown_pass_keeps t sd (w pass) 0 cs) as H1.
  destruct (shutdown_pass _ _ _ _ _) as [[live cs1] e1]. destruct (negb live); [done|].
  specialize (IH (S pass) cs1). destruct (shutdown_passes _ _ _ _ _ _) as [cs2 e2]. by eapply keeps_all_app.
Qed.

Lemma stragglers_keep (w : nat -> wslay) (i : nat) (cs : list ws_client) : keeps_all cs (close_stragglers w i cs).
Proof.
  revert i. induction cs as [|c cs IH]; intros i; [apply keeps_all_refl|]. cbn [close_stragglers].
  specialize (IH (S i)). destruct (close_stragglers w (S i) cs) as [cs' es].
  match goal with |- context [let '(_, _) := ?x in _] => assert (Hx : keeps c x); [|destruct x as [c' e]] end.
  { apply keeps_if, keeps_close. }
  by apply keeps_all_cons.
Qed.

Lemma shutdown_all_keeps (t : Z) (sd : bool) (w : nat -> nat -> wslay) (cs : list ws_client) :
  keeps_all cs (ws_shutdown_all t sd w cs).
Proof.
  unfold ws_shutdown_all. pose proof (shutdown_passes_keep t sd w 256 0 cs) as H1.
  destruct (shutdown_passes _ _ _ _ _ _) as [cs1 e1].
  pose proof (stragglers_keep (w 256%nat) 0 cs1) as H2. destruct (close_stragglers _ _ _) as [cs2 e2].
  by eapply keeps_all_app.
Qed.

(** ** The server's life *)

(** A slot that is subscribed is in use. *)
Definition subscribed_in_use (cs : list ws_client) (es : list ws_event) : Prop :=
  length cs = STRIM_HTTP_MAX_WS_CLIENTS /\
  forall i, listening i false es = true -> map in_use cs !! i = Some true.

Lemma kept_in_use (cs cs' : list ws_client) (es es' : list ws_event) :
  subscribed_in_use cs es -> keeps_all cs (cs', es') -> subscribed_in_use cs' (es ++ es').
Proof.
  intros [Hl Hs] [Hk Hp]. cbn in *. split.
  - rewrite <- Hl, <- (length_map in_use cs'), Hk. apply length_map.
  - intros i. rewrite listening_app, listening_plain by done. rewrite Hk. apply Hs.
Qed.

(** Only slot [i] may be changed; it is subscribed at most while in use. *)
Lemma slot_in_use (cs : list ws_client) (es es' : list ws_event) (i : nat) (old c : ws_client) :
  subscribed_in_use cs es -> cs !! i = Some old ->
  (forall j b, j <> i -> listening j b es' = b) -> (listening i (listening i false es) es' = true -> in_use c = true) ->
  subscribed_in_use (<[i := c]> cs) (es ++ es').
Proof.
  intros [Hl Hs] Hi Hother Hthis. apply lookup_lt_Some in Hi. split; [by rewrite length_insert|]. intros j.
  rewrite listening_app, list_fmap_insert. destruct (decide (j = i)) as [->|Hj].
  - intros Hx. rewrite list_lookup_insert_eq by (by rewrite length_map). by rewrite Hthis.
  - rewrite Hother by done. intros Hx. rewrite list_lookup_insert_ne by done. by apply Hs.
Qed.

Lemma upgraded_subscribes (t : Z) (w : wslay) (env : upgrade_env) (idx s : nat) (extra : bytes) :
  in_use (upgraded t w env idx s extra).1 = true /\
  (forall j b, j <> idx -> listening j b (upgraded t w env idx s extra).2 = b).
Proof.
  unfold upgraded. set (c0 := WsClient true false false false [] false 0 0 false (Some s) []).
  set (c1 := WsClient true false false false [] false 0 0 false (Some s) extra).
  set (c2 := WsClient true false false false [] false 0 0 true (Some s) extra).
  assert (Hk : forall c r, in_use c = true -> keeps c r -> in_use r.1 = true /\ (forall j b, j <> idx -> listening j b r.2 = b)).
  { intros c r Hu [H1 H2]. split; [by rewrite H1|]. intros j b _. by apply listening_plain. }
  destruct (_ && _); [apply (Hk c0); [done|apply keeps_close]|].
  destruct (negb _); [apply (Hk c1); [done|apply keeps_close]|].
  assert (Hsub : forall j b es, j <> idx -> Forall plain es -> listening j b ([EvSubscribe idx] ++ es) = b).
  { intros j b es Hj Hp. cbn. apply Nat.eqb_neq in Hj as ->. by apply listening_plain. }
  destruct (negb _); [|split; [done|]; intros j b Hj; by apply (Hsub j b [])].
  pose proof (keeps_begin t w WSLAY_CODE_INTERNAL_SERVER_ERROR c2) as [Ha Hb].
  destruct (ws_begin_close _ _ _ _) as [c3 e3]. pose proof (keeps_close w 0 c3) as [Hc Hd].
  destruct (ws_close_socket _ _ _) as [c4 e4]. cbn [fst snd] in *. split; [by rewrite Hc, Ha|].
  intros j b Hj. apply Hsub; [done|]. apply Forall_app. split; [done|]. constructor; done.
Qed.

Lemma cleanup_unsubscribes (idx : nat) (s : option nat) (c : ws_client) :
  (forall j b, j <> idx -> listening j b (ws_cleanup_slot idx s c).2 = b) /\
  (forall b, listening idx b (ws_cleanup_slot idx s c).2 = true -> (b = true -> in_use c = true) ->
     in_use (ws_cleanup_slot idx s c).1 = true).
Proof.
  unfold ws_cleanup_slot. destruct (_ || _); cbn [fst snd].
  - split; [done|]. intros b Hb Hu. by apply Hu.
  - split.
    + intros j b Hj. apply Nat.eqb_neq in Hj. destruct (wctx c); cbn; by rewrite Hj.
    + intros b. destruct (wctx c); cbn; by rewrite Nat.eqb_refl.
Qed.

Lemma call_in_use (call : mhd_call) (srv : strim_http_server) (es : list ws_event) :
  subscribed_in_use (clients srv) es ->
  let r := mhd_call_effect call srv in subscribed_in_use (clients r.1) (es ++ r.2).
Proof.
  intros Hs. cbv zeta. destruct call as [w env s extra|s]; cbn [mhd_call_effect].
  - unfold ws_upgrade_handler. pose proof (first_free_spec 0 (clients srv)) as Hf.
    destruct (first_free 0 (clients srv)) as [idx|].
    + destruct Hf as [_ (old & Hold & _)]. rewrite Nat.sub_0_r in Hold.
      pose proof (upgraded_subscribes (ws_write_timeout_ms srv) w env idx s extra) as [H1 H2].
      destruct (upgraded _ _ _ _ _ _) as [c e]. cbn in *. by eapply slot_in_use.
    + cbn. apply (kept_in_use (clients srv)); [done|]. split; [done|by repeat constructor].
  - assert (Hnil : subscribed_in_use (clients srv) (es ++ [])) by (by rewrite app_nil_r).
    unfold request_completed_cb. destruct s as [s|]; [|done]. destruct (sessions srv !! s) as [idx|]; [|done].
    destruct (clients srv !! idx) as [c|] eqn:Hc; [|done].
    pose proof (cleanup_unsubscribes idx (Some s) c) as [H1 H2].
    destruct (ws_cleanup_slot idx (Some s) c) as [c' e]. cbn in *. eapply slot_in_use; [done..|].
    intros Hx. apply (H2 _ Hx). intros Hl. destruct Hs as [_ Hs]. apply Hs in Hl.
    rewrite list_lookup_fmap, Hc in Hl. by injection Hl.
Qed.

Lemma calls_in_use (calls : list mhd_call) (srv : strim_http_server) (es : list ws_event) :
  subscribed_in_use (clients srv) es ->
  let r := mhd_calls calls srv in subscribed_in_use (clients r.1) (es ++ r.2).
Proof.
  revert srv es. induction calls as [|call calls IH]; intros srv es Hs; cbn [mhd_calls]; [by rewrite app_nil_r|].
  pose proof (call_in_use call srv es Hs) as H1. destruct (mhd_call_effect call srv) as [srv1 e1].
  specialize (IH srv1 (es ++ e1) H1). destruct (mhd_calls calls srv1) as [srv2 e2]. cbn in *. by rewrite app_assoc.
Qed.

Lemma pump_in_use (w : nat -> wslay) (srv : strim_http_server) (es : list ws_event) :
  subscribed_in_use (clients srv) es ->
  let r := ws_pump_all w srv in subscribed_in_use (clients r.1) (es ++ r.2).
Proof.
  intros Hs. unfold ws_pump_all.
  pose proof (pump_keeps (ws_write_timeout_ms srv) (shutdown_requested srv) w 0 (clients srv)) as Hk.
  destruct (pump_clients _ _ _ _ _) as [cs e]. cbn. by eapply kept_in_use.
Qed.

Lemma shutdown_in_use (w : nat -> nat -> wslay) (srv : strim_http_server) (es : list ws_event) :
  subscribed_in_use (clients srv) es ->
  let r := shutdown_all w srv in subscribed_in_use (clients r.1) (es ++ r.2).
Proof.
  intros Hs. unfold shutdown_all.
  pose proof (shutdown_all_keeps (ws_write_timeout_ms srv) (shutdown_requested srv) w (clients srv)) as Hk.
  destruct (ws_shutdown_all _ _ _ _) as [cs e]. cbn. by eapply kept_in_use.
Qed.

Lemma stop_in_use (done : list (option nat)) (srv : strim_http_server) (es : list ws_event) :
  subscribed_in_use (clients srv) es ->
  let r := stop_daemon done srv in subscribed_in_use (clients r.1) (es ++ r.2).
Proof.
  intros Hs. unfold stop_daemon. destruct (daemon_running srv); [|by rewrite app_nil_r].
  pose proof (calls_in_use (map CompletedCall done) srv es Hs) as H1.
  by destruct (mhd_calls _ srv).
Qed.

Lemma service_in_use (passes : list service_pass) (last : service_end) (srv srv' : strim_http_server)
    (es es' : list ws_event) (rc : Z) :
  subscribed_in_use (clients srv) es -> service_loop passes last srv = Some (rc, srv', es') ->
  subscribed_in_use (clients srv') (es ++ es').
Proof.
  revert srv es es'. induction passes as [|p passes IH]; intros srv es es' Hs; cbn [service_loop]; [done|].
  destruct (sp_requested p).
  - set (srv0 := strim_http_server_shutdown_request srv).
    pose proof (shutdown_in_use (sn_shutdown last) srv0 es Hs) as H1.
    destruct (shutdown_all _ srv0) as [srv1 e1]. pose proof (pump_in_use (sn_wslay last) srv1 _ H1) as H2.
    destruct (ws_pump_all _ srv1) as [srv2 e2]. pose proof (stop_in_use (sn_done last) srv2 _ H2) as H3.
    destruct (stop_daemon _ srv2) as [srv3 e3]. intros [= <- <- <-]. cbn in *. by rewrite !app_assoc.
  - pose proof (calls_in_use (sp_calls p) srv es Hs) as H1. destruct (mhd_calls _ srv) as [srv1 e1].
    destruct (negb (sp_run p)); [by intros [= _ <- <-]|].
    pose proof (pump_in_use (sp_wslay p) srv1 _ H1) as H2. destruct (ws_pump_all _ srv1) as [srv2 e2].
    destruct (service_loop passes last srv2) as [[[rc' srv3] e3]|] eqn:E; [|done]. intros [= -> <- <-].
    specialize (IH srv2 _ e3 H2 E). by rewrite !app_assoc in *.
Qed.

(** ** After the server *)
Lemma cleanup_all_spec (i : nat) (cs : list ws_client) :
  let r := cleanup_all i cs in
  length r.1 = length cs /\ Forall (fun c => in_use c = false) r.1 /\
  (forall j b, (j < i)%nat -> listening j b r.2 = b) /\
  (forall j b, (i + length cs <= j)%nat -> listening j b r.2 = b) /\
  (forall j b c, cs !! j = Some c -> (b = true -> in_use c = true) -> listening (i + j) b r.2 = false).
Proof.
  revert i. induction cs as [|c cs IH]; intros i; cbn [cleanup_all]; [by split_and!|].
  specialize (IH (S i)). destruct (cleanup_all (S i) cs) as [cs' es]. cbn in IH.
  destruct IH as (Hl & Hf & Hlt & Hge & Hin).
  assert (Hc : exists c' e, (if in_use c then ws_cleanup_slot i (session c) c else (c, [])) = (c', e) /\
    in_use c' = false /\ (forall j b, j <> i -> listening j b e = b) /\
    (forall b, (b = true -> in_use c = true) -> listening i b e = false)).
  { destruct (in_use c) eqn:Hu.
    - unfold ws_cleanup_slot. rewrite Hu, bool_decide_true by done. cbn [negb orb]. eexists _, _. split; [done|].
      split_and!; [done| |].
      + intros j b Hj. apply Nat.eqb_neq in Hj. destruct (wctx c); cbn; by rewrite Hj.
      + intros b _. destruct (wctx c); cbn; by rewrite Nat.eqb_refl.
    - exists c, []. split_and!; [done|done|done|]. intros b Hb. cbn. destruct b; [by rewrite Hb in *|done]. }
  destruct Hc as (c' & e & -> & Hu & Hother & Hthis). cbn [fst snd length].
  split_and!; [by rewrite Hl|by constructor| | |].
  - intros j b Hj. rewrite listening_app, Hother by lia. apply Hlt. lia.
  - intros j b Hj. rewrite listening_app, Hother by lia. apply Hge. lia.
  - intros [|j] b c0 Hc0 Hb.
    + injection Hc0 as <-. rewrite Nat.add_0_r, listening_app, Hthis by done. apply Hlt. lia.
    + rewrite listening_app, Hother by lia. replace (i + S j)%nat with (S i + j)%nat by lia. by apply (Hin j b c0).
Qed.

(** Every slot in use has been closed. *)
Definition all_closed (cs : list ws_client) : Prop := Forall (fun c => in_use c = true -> closed c = true) cs.

Lemma pump_closed (t : Z) (sd : bool) (w : nat -> wslay) (i : nat) (cs : list ws_client) :
  all_closed cs -> (pump_clients t sd w i cs).1 = cs.
Proof.
  revert i. induction cs as [|c cs IH]; intros i Hc; [done|]. apply Forall_cons in Hc as [Hc Hcs].
  cbn [pump_clients]. specialize (IH (S i) Hcs). destruct (pump_clients t sd w (S i) cs) as [cs' es].
  unfold ws_pump_client. destruct (in_use c); cbn [negb orb]; [rewrite Hc by done|]; cbn in *; by rewrite IH.
Qed.

Lemma completed_closed (done : list (option nat)) (srv : strim_http_server) :
  all_closed (clients srv) -> all_closed (clients (mhd_calls (map CompletedCall done) srv).1).
Proof.
  revert srv. induction done as [|s done IH]; intros srv Hc; [by cbn|]. cbn [map mhd_calls mhd_call_effect].
  assert (H1 : all_closed (clients (request_completed_cb s srv).1)).
  { unfold request_completed_cb. destruct s as [s|]; [|by cbn]. destruct (sessions srv !! s) as [idx|]; [|by cbn].
    destruct (clients srv !! idx) as [c|] eqn:Ei; [|by cbn].
    unfold ws_cleanup_slot. destruct (_ || _); cbn; apply Forall_insert; try done.
    by eapply Forall_lookup_1 in Hc. }
  destruct (request_completed_cb s srv) as [srv1 e1]. specialize (IH srv1 H1).
  by destruct (mhd_calls _ srv1) as [srv2 e2].
Qed.

Lemma service_closes (passes : list service_pass) (last : service_end) (srv srv' : strim_http_server)
    (es' : list ws_event) :
  service_loop passes last srv = Some (0, srv', es') -> all_closed (clients srv') /\ daemon_running srv' = false.
Proof.
  revert srv es'. induction passes as [|p passes IH]; intros srv es'; cbn [service_loop]; [done|].
  destruct (sp_requested p).
  - set (srv0 := strim_http_server_shutdown_request srv). intros E.
    assert (H1 : all_closed (clients (shutdown_all (sn_shutdown last) srv0).1)).
    { unfold shutdown_all, ws_shutdown_all. destruct (shutdown_passes _ _ _ _ _ _) as [cs1 e1].
      pose proof (stragglers_closed (sn_shutdown last 256%nat) 0 cs1) as [H1 _].
      by destruct (close_stragglers _ _ _). }
    destruct (shutdown_all _ srv0) as [srv1 e1]. cbn in H1.
    assert (H2 : all_closed (clients (ws_pump_all (sn_wslay last) srv1).1)).
    { unfold ws_pump_all. pose proof (pump_closed (ws_write_timeout_ms srv1) (shutdown_requested srv1) (sn_wslay last) 0 _ H1) as Hp.
      destruct (pump_clients _ _ _ _ _). cbn in *. by rewrite Hp. }
    destruct (ws_pump_all _ srv1) as [srv2 e2]. cbn in H2.
    unfold stop_daemon in E. pose proof (completed_closed (sn_done last) srv2 H2) as H3.
    destruct (daemon_running srv2) eqn:Er; [destruct (mhd_calls _ srv2)|]; by injection E as <- <-.
  - destruct (mhd_calls _ srv) as [srv1 e1]. destruct (negb (sp_run p)); [by intros ?|].
    destruct (ws_pump_all _ srv1) as [srv2 e2].
    destruct (service_loop passes last srv2) as [[[rc' srv3] e3]|] eqn:E; [|done]. intros [= -> <- <-].
    by apply (IH srv2 e3).
Qed.

(** C19: the server's life.  A server that was started and served, whatever
    libmicrohttpd and wslay did: while it serves, a listener is in the table
    of a controller that is open only while its slot is in use; when the
    service loop ends on a shutdown request every client has been closed and
    the daemon has stopped; and once the server is destroyed, after any end of
    the loop, every registration has been followed by the call that removes
    it, no slot is in use and the daemon has stopped.  A listener is then left
    in the table only if the controller was closed before its removal was
    asked for. *)
Theorem no_listener_outlives_the_server (env : start_env) (addr version commit : option cstring)
    (srv srv1 : strim_http_server) (passes : list service_pass) (last : service_end) (rc : Z) (es1 : list ws_event)
    (w : nat -> nat -> wslay) (done : list (option nat)) :
  strim_http_server_start env false true addr (Some fill_http_callbacks) version commit = (0, Some srv, true) ->
  strim_http_server_service (-1) passes last srv = Some (rc, srv1, es1) ->
  let '(srv2, es2) := strim_http_server_destroy w done srv1 in
  (forall i n, (length (sub_calls es1) <= n)%nat -> registered i n false es1 = true ->
     exists c, clients srv1 !! i = Some c /\ in_use c = true) /\
  (rc = 0 -> all_closed (clients srv1) /\ daemon_running srv1 = false) /\
  (forall i, listening i false (es1 ++ es2) = false) /\
  (forall i n, registered i n false (es1 ++ es2) = true -> (n < length (sub_calls (es1 ++ es2)))%nat) /\
  Forall (fun c => in_use c = false) (clients srv2) /\ daemon_running srv2 = false.
Proof.
  intros Hstart Hserve. unfold strim_http_server_service in Hserve. cbn [Z.ltb Z.compare] in Hserve.
  assert (Hinit : subscribed_in_use (clients srv) []).
  { unfold strim_http_server_start in Hstart. repeat case_match; simplify_eq. by split. }
  pose proof (service_in_use _ _ _ _ [] _ _ Hinit Hserve) as H1. cbn [app] in H1.
  unfold strim_http_server_destroy.
  match goal with |- context [if daemon_running srv1 then ?a else ?b] =>
    set (x := if daemon_running srv1 then a else b);
    assert (H2 : subscribed_in_use (clients x.1) (es1 ++ x.2) /\ daemon_running x.1 = false); [|destruct x as [srv2 e2]] end.
  { subst x. destruct (daemon_running srv1) eqn:Er; [|cbn; by rewrite app_nil_r].
    pose proof (shutdown_in_use w srv1 _ H1) as Ha.
    assert (Hrun : daemon_running (shutdown_all w srv1).1 = true)
      by (unfold shutdown_all; by destruct (ws_shutdown_all _ _ _ _)).
    destruct (shutdown_all w srv1) as [srva ea].
    pose proof (stop_in_use done srva _ Ha) as Hb. cbn in Hrun.
    assert (Hstop : daemon_running (stop_daemon done srva).1 = false)
      by (unfold stop_daemon; rewrite Hrun; by destruct (mhd_calls _ srva)).
    destruct (stop_daemon done srva) as [srvb eb]. cbn in *. by rewrite app_assoc. }
  destruct H2 as [[Hl Hs] Hrun]. cbn [fst snd] in *.
  pose proof (cleanup_all_spec 0 (clients srv2)) as (_ & Hfree & _ & Hge & Hin).
  destruct (cleanup_all 0 (clients srv2)) as [cs e3]. cbn [fst snd] in *.
  assert (Hnone : forall i, listening i false (es1 ++ e2 ++ e3) = false).
  2:{ split_and!; [| |done| |done|done].
      - intros i n Hn Hr. rewrite registered_open in Hr by done. apply H1 in Hr.
        rewrite list_lookup_fmap in Hr. destruct (clients srv1 !! i) as [c|]; [|done].
        injection Hr as Hr. by exists c.
      - intros ->. by apply service_closes in Hserve.
      - intros i n Hr. apply Nat.nle_gt. intros Hn. by rewrite registered_open, Hnone in Hr. }
  - intros i. rewrite app_assoc, listening_app. destruct (clients srv2 !! i) as [c|] eqn:Hc.
    + apply (Hin i _ c Hc). intros Hx. apply Hs in Hx. rewrite list_lookup_fmap, Hc in Hx. by injection Hx.
    + rewrite Hge by (apply lookup_ge_None in Hc; lia). destruct (listening i false (es1 ++ e2)) eqn:Hx; [|done].
      apply Hs in Hx. by rewrite list_lookup_fmap, Hc in Hx.
Qed.

(** ** One client *)

Definition quiet_wslay : wslay := Wslay 0 false 0 0 true false 0 false true 0.

Definition one_server : strim_http_server :=
  HttpServer true 9000 (ws_write_timeout_from_env None) (lit "v1") (normalize_build_value None) false
    (replicate STRIM_HTTP_MAX_WS_CLIENTS free_client) ∅.

(** A client subscribes and the next pass sees the shutdown request; its
    session completes when the daemon stops. *)
Definition one_client : list service_pass :=
  [ ServicePass false true [UpgradeCall quiet_wslay (UpgradeEnv true 0 0) 7 []] (fun _ => quiet_wslay);
    ServicePass true true [] (fun _ => quiet_wslay) ].

Definition one_end : service_end := ServiceEnd (fun _ _ => quiet_wslay) (fun _ => quiet_wslay) [Some 7%nat].

Definition one_served : strim_http_server * list ws_event :=
  match strim_http_server_service (-1) one_client one_end one_server with
  | Some (_, srv, es) => (srv, es)
  | None => (one_server, [])
  end.

Lemma no_listener_outlives_the_server_witness :
  strim_http_server_start (StartEnv true None (Some None)) false true (Some (lit ":9000")) (Some fill_http_callbacks)
    (Some (lit "v1")) None = (0, Some one_server, true) /\
  strim_http_server_service (-1) one_client one_end one_server = Some (0, one_served.1, one_served.2) /\
  listening 0 false (take 1 one_served.2) = true /\
  let '(srv2, es2) := strim_http_server_destroy (fun _ _ => quiet_wslay) [] one_served.1 in
  (forall i n, (length (sub_calls one_served.2) <= n)%nat -> registered i n false one_served.2 = true ->
     exists c, clients one_served.1 !! i = Some c /\ in_use c = true) /\
  (0 = 0 -> all_closed (clients one_served.1) /\ daemon_running one_served.1 = false) /\
  (forall i, listening i false (one_served.2 ++ es2) = false) /\
  (forall i n, registered i n false (one_served.2 ++ es2) = true ->
     (n < length (sub_calls (one_served.2 ++ es2)))%nat) /\
  Forall (fun c => in_use c = false) (clients srv2) /\ daemon_running srv2 = false.
Proof.
  assert (Hs : strim_http_server_service (-1) one_client one_end one_server = Some (0, one_served.1, one_served.2))
    by (vm_compute; reflexivity).
  split; [reflexivity|]. split; [exact Hs|]. split; [vm_compute; reflexivity|].
  exact (no_listener_outlives_the_server (StartEnv true None (Some None)) (Some (lit ":9000")) (Some (lit "v1")) None
           one_server one_served.1 one_client one_end 0 one_served.2 (fun _ _ => quiet_wslay) [] eq_refl Hs).
Defined.
