(* ===== verification/Double.v ===== *)
(** * C doubles

    [parse_go_duration] in main.c computes in [double].  A double is the
    standard library's executable specification of IEEE 754 binary64
    ([SpecFloat] at precision 53 and exponent bound 1024, round to nearest
    even), so the model rounds where the program rounds.

    The lemmas say when no rounding happens: [exact x n] states that the
    double [x] is the non-negative integer [n < 2^53]; sums and products of
    exact doubles are exact as long as they stay below 2^53. *)

From Stdlib Require Export SpecFloat.
From S2P Require Import Prelude.

Abbreviation double := spec_float (only parsing).

Definition dbl_add : double -> double -> double := SFadd 53 1024.
Definition dbl_mul : double -> double -> double := SFmul 53 1024.
Definition dbl_lt : double -> double -> bool := SFltb.

(** [(double)n] for an integer [n]. *)
Definition dbl_of_int (n : Z) : double := binary_normalize 53 1024 n 0 false.

(** The literal [0.1]: the nearest double. *)
Definition dbl_tenth : double := S754_finite false 7205759403792794 (-56).

(** The integer part, towards zero, of a finite double. *)
Definition dbl_trunc (x : double) : option Z :=
  match x with
  | S754_zero _ => Some 0
  | S754_finite s m e =>
      let a := if 0 <=? e then Z.pos m * 2 ^ e else Z.pos m / 2 ^ (- e) in
      Some (if s then - a else a)
  | _ => None
  end.

(** [(int64_t)x]: undefined ([None]) when the integer part does not fit. *)
Definition dbl_to_int64 (x : double) : option Z :=
  match dbl_trunc x with
  | Some z => if (- 2 ^ 63 <=? z) && (z <=? INT64_MAX) then Some z else None
  | None => None
  end.

(** ** Exact doubles *)

Definition exact (x : double) (n : Z) : Prop :=
  match x with
  | S754_zero false => n = 0
  | S754_finite false m e =>
      0 < n < 2 ^ 53 /\ e <= 0 /\ Z.pos m = n * 2 ^ (- e) /\ 2 ^ 52 <= Z.pos m < 2 ^ 53
  | _ => False
  end.

Lemma digits2_log2 (p : positive) : Z.pos (digits2_pos p) = Z.log2 (Z.pos p) + 1.
Proof.
  induction p as [p IH|p IH|]; cbn [digits2_pos]; [| |done].
  - rewrite Pos2Z.inj_succ, IH, Pos2Z.inj_xI, Z.log2_succ_double by lia. lia.
  - rewrite Pos2Z.inj_succ, IH, Pos2Z.inj_xO, Z.log2_double by lia. lia.
Qed.

Lemma iter_shr_exact (p : positive) (q : Z) :
  0 < q ->
  SpecFloat.iter_pos shr_1 p (Build_shr_record (q * 2 ^ Z.pos p) false false) =
  Build_shr_record q false false.
Proof.
  revert q. induction p as [p IH|p IH|]; intros q Hq; cbn [SpecFloat.iter_pos].
  - assert (Hs : shr_1 (Build_shr_record (q * 2 ^ Z.pos p~1) false false) =
                 Build_shr_record (q * 2 ^ Z.pos p * 2 ^ Z.pos p) false false).
    { rewrite Pos2Z.inj_xI, <- Z.add_diag, !Z.pow_add_r, Z.pow_1_r by lia.
      replace (q * (2 ^ Z.pos p * 2 ^ Z.pos p * 2))
        with (2 * (q * 2 ^ Z.pos p * 2 ^ Z.pos p)) by ring.
      assert (0 < q * 2 ^ Z.pos p * 2 ^ Z.pos p) by lia.
      by destruct (q * 2 ^ Z.pos p * 2 ^ Z.pos p). }
    rewrite Hs, !IH by lia. done.
  - rewrite (Pos2Z.inj_xO p), <- Z.add_diag, Z.pow_add_r by lia.
    rewrite Z.mul_assoc, !IH by lia. done.
  - rewrite Z.pow_1_r, Z.mul_comm. by destruct q.
Qed.

Lemma log2_mul_pow2' (n k : Z) : 0 < n -> 0 <= k -> Z.log2 (n * 2 ^ k) = Z.log2 n + k.
Proof. intros. rewrite Z.log2_mul_pow2 by lia. lia. Qed.

Lemma log2_lt_53 (n : Z) : 0 < n < 2 ^ 53 -> 0 <= Z.log2 n <= 52.
Proof.
  intros Hn. split; [apply Z.log2_nonneg|]. pose proof (Z.log2_lt_pow2 n 53). lia.
Qed.

Lemma pow2_bounds (q : Z) : 0 < q -> Z.log2 q = 52 -> 2 ^ 52 <= q < 2 ^ 53.
Proof. intros Hq Hl. pose proof (Z.log2_spec q Hq). rewrite Hl in *. lia. Qed.

(** Rounding [n * 2^k * 2^(-k)] for a mantissa of at least 53 bits. *)
Lemma round_aux_exact (n k : Z) (m : positive) :
  0 < n < 2 ^ 53 -> 0 <= k -> 52 <= Z.log2 n + k -> Z.pos m = n * 2 ^ k ->
  exact (binary_round_aux 53 1024 false (Z.pos m) (- k) loc_Exact) n.
Proof.
  intros Hn Hk Hl Hm. pose proof (log2_lt_53 n Hn) as Hl53.
  set (s := Z.log2 n + k - 52). set (q := n * 2 ^ (k - s)).
  assert (Hks : 0 <= k - s) by lia.
  assert (Hq : 0 < q) by (unfold q; lia).
  assert (Hmq : Z.pos m = q * 2 ^ s).
  { unfold q. rewrite Hm, <- Z.mul_assoc, <- Z.pow_add_r by lia. do 2 f_equal. lia. }
  assert (Hlq : Z.log2 q = 52) by (unfold q; rewrite log2_mul_pow2' by lia; lia).
  assert (H1 : shr_fexp 53 1024 (Z.pos m) (- k) loc_Exact =
               (Build_shr_record q false false, s - k)).
  { unfold shr_fexp, fexp, emin. cbn [Zdigits2 shr_record_of_loc].
    rewrite digits2_log2, Hm, log2_mul_pow2' by lia.
    replace (Z.max (Z.log2 n + k + 1 + - k - 53) (3 - 1024 - 53) - - k) with s by lia.
    rewrite <- Hm, Hmq. unfold shr. destruct s as [|p|p] eqn:Es; [| |lia].
    - rewrite Z.mul_1_r. f_equal. 
    - rewrite iter_shr_exact by done. f_equal. lia. }
  unfold binary_round_aux. rewrite H1. cbn [shr_m loc_of_shr_record round_nearest_even].
  destruct q as [|qp|] eqn:Eq; [lia| |lia].
  assert (H2 : shr_fexp 53 1024 (Z.pos qp) (s - k) loc_Exact =
               (Build_shr_record (Z.pos qp) false false, s - k)).
  { unfold shr_fexp, fexp, emin. cbn [Zdigits2 shr_record_of_loc].
    rewrite digits2_log2, Hlq.
    by replace (Z.max (52 + 1 + (s - k) - 53) (3 - 1024 - 53) - (s - k)) with 0 by lia. }
  rewrite H2. cbn [shr_m]. rewrite (proj2 (Z.leb_le _ _)) by lia. cbn [exact].
  split_and!; [lia | lia | lia | | | ].
  - replace (- (s - k)) with (k - s) by lia. done.
  - apply (pow2_bounds (Z.pos qp)); done.
  - apply (pow2_bounds (Z.pos qp)); done.
Qed.

Lemma shl_align_val (m : positive) (e e' : Z) :
  e' <= e -> Z.pos (fst (shl_align m e e')) = Z.pos m * 2 ^ (e - e') /\
             snd (shl_align m e e') = e'.
Proof.
  intros He. unfold shl_align. destruct (e' - e) as [|p|p] eqn:E; [|lia|].
  - replace (e - e') with 0 by lia. rewrite Z.mul_1_r. simpl. lia.
  - split; [|done]. replace (e - e') with (Z.pos p) by lia. cbn [fst].
    clear. induction p as [|p IH] using Pos.peano_ind; [by rewrite Z.mul_comm|].
    rewrite Pos.iter_succ, (Pos2Z.inj_xO (Pos.iter _ _ _)), IH, Pos2Z.inj_succ, Z.pow_succ_r by lia. ring.
Qed.

Lemma normalize_exact (n k : Z) :
  0 < n < 2 ^ 53 -> 0 <= k ->
  exact (binary_normalize 53 1024 (n * 2 ^ k) (- k) false) n.
Proof.
  intros Hn Hk. pose proof (log2_lt_53 n Hn) as Hl53.
  assert (0 < n * 2 ^ k) by lia. destruct (n * 2 ^ k) as [|m|] eqn:Em; [lia| |lia].
  cbn [binary_normalize]. unfold binary_round.
  set (e' := fexp 53 1024 (Z.pos (digits2_pos m) + - k)).
  assert (He' : e' = Z.log2 n - 52).
  { unfold e', fexp, emin. rewrite digits2_log2, <- Em, log2_mul_pow2' by lia. lia. }
  destruct (Z.le_gt_cases e' (- k)) as [Hle|Hgt].
  - destruct (shl_align_val m (- k) e' Hle) as [Hf Hs].
    destruct (shl_align m (- k) e') as [mz ez]. simpl in Hf, Hs. subst ez.
    replace e' with (- - e') by lia. apply round_aux_exact; [done | lia | lia |].
    rewrite Hf, <- Em, <- Z.mul_assoc, <- Z.pow_add_r by lia. do 2 f_equal. lia.
  - assert (Hsh : shl_align m (- k) e' = (m, - k)).
    { unfold shl_align. by destruct (e' - - k) eqn:E; [..|lia]. }
    rewrite Hsh. apply round_aux_exact; [done..|lia|]. by rewrite Em.
Qed.

Lemma exact_range (x : double) (n : Z) : exact x n -> 0 <= n < 2 ^ 53.
Proof. destruct x as [[]| | |[] m e]; simpl; try done; intros; simplify_eq; lia. Qed.

Lemma dbl_of_int_exact (n : Z) : 0 <= n < 2 ^ 53 -> exact (dbl_of_int n) n.
Proof.
  intros Hn. destruct (decide (n = 0)) as [->|]; [done|]. unfold dbl_of_int.
  pose proof (normalize_exact n 0) as H. rewrite Z.mul_1_r in H. apply H; lia.
Qed.

Lemma exact_add (x y : double) (a b : Z) :
  exact x a -> exact y b -> a + b < 2 ^ 53 -> exact (dbl_add x y) (a + b).
Proof.
  intros Hx Hy Hab. unfold dbl_add.
  destruct x as [[]| | |[] mx ex]; try done; destruct y as [[]| | |[] my ey]; try done.
  - simpl in *. simplify_eq. done.
  - simpl in *. destruct Hy as ([? ?] & ? & ? & ? & ?). simplify_eq.
    rewrite Z.add_0_l. split_and!; lia.
  - simpl in *. destruct Hx as ([? ?] & ? & ? & ? & ?). simplify_eq.
    rewrite Z.add_0_r. split_and!; lia.
  - destruct Hx as ([Ha ?] & Hex & Hmx & _), Hy as ([Hb ?] & Hey & Hmy & _).
    cbn [SFadd cond_Zopp]. set (ez := Z.min ex ey).
    destruct (shl_align_val mx ex ez) as [-> _]; [lia|].
    destruct (shl_align_val my ey ez) as [-> _]; [lia|].
    rewrite Hmx, Hmy, <- !Z.mul_assoc, <- !Z.pow_add_r by lia.
    replace (- ex + (ex - ez)) with (- ez) by lia.
    replace (- ey + (ey - ez)) with (- ez) by lia.
    rewrite <- Z.mul_add_distr_r. replace ez with (- - ez) at 2 by lia.
    apply normalize_exact; lia.
Qed.

Lemma exact_mul (x y : double) (a b : Z) :
  exact x a -> exact y b -> a * b < 2 ^ 53 -> exact (dbl_mul x y) (a * b).
Proof.
  intros Hx Hy Hab. unfold dbl_mul.
  destruct x as [[]| | |[] mx ex]; try done; destruct y as [[]| | |[] my ey]; try done.
  - simpl in *. simplify_eq. done.
  - simpl in *. simplify_eq. lia.
  - simpl in *. simplify_eq. lia.
  - destruct Hx as ([Ha ?] & Hex & Hmx & Hx52 & _), Hy as ([Hb ?] & Hey & Hmy & Hy52 & _).
    cbn [SFmul xorb]. replace (ex + ey) with (- (- ex + - ey)) by lia.
    assert (Hm : Z.pos (mx * my) = a * b * 2 ^ (- ex + - ey)).
    { rewrite Pos2Z.inj_mul, Hmx, Hmy, Z.pow_add_r by lia. ring. }
    apply round_aux_exact; [nia | lia | | done].
    rewrite <- log2_mul_pow2', <- Hm, Pos2Z.inj_mul by nia.
    etrans; [|apply Z.log2_mul_below; lia].
    pose proof (Z.log2_le_mono _ _ Hx52). pose proof (Z.log2_nonneg (Z.pos my)).
    change (Z.log2 (2 ^ 52)) with 52 in *. lia.
Qed.

Lemma exact_trunc (x : double) (n : Z) : exact x n -> dbl_trunc x = Some n.
Proof.
  destruct x as [[]| | |[] m e]; simpl; try done; [by intros ->|].
  intros (Hn & He & Hm & _). destruct (Z.leb_spec 0 e).
  - replace e with 0 in * by lia. rewrite Hm. f_equal. simpl. lia.
  - rewrite Hm, Z.div_mul by lia. done.
Qed.

(** Exact doubles are below 2^63. *)
Lemma exact_not_huge (x : double) (n : Z) :
  exact x n ->
  dbl_lt (dbl_of_int (2 ^ 63)) x = false /\ dbl_lt x (dbl_of_int (- 2 ^ 63)) = false /\
  dbl_lt (dbl_of_int (2 ^ 63)) (SFopp x) = false /\
  dbl_lt (SFopp x) (dbl_of_int (- 2 ^ 63)) = false.
Proof.
  replace (dbl_of_int (2 ^ 63)) with (S754_finite false 4503599627370496 11)
    by reflexivity.
  replace (dbl_of_int (- 2 ^ 63)) with (S754_finite true 4503599627370496 11)
    by reflexivity.
  destruct x as [[]| | |[] m e]; try done. intros (_ & He & _).
  unfold dbl_lt, SFltb. cbn [SFcompare SFopp negb]. destruct (Z.compare_spec e 11); try lia.
  destruct (Z.compare_spec 11 e); [lia|lia|done].
Qed.

Lemma exact_opp_trunc (x : double) (n : Z) : exact x n -> dbl_trunc (SFopp x) = Some (- n).
Proof.
  intros Hx. pose proof (exact_trunc x n Hx) as Ht.
  destruct x as [[]| | |[] m e]; try done; simpl in *; by simplify_eq.
Qed.
