(* ===== verification/Config.v ===== *)
(** * Configuration (main.c)

    The environment specification [g_env_spec], the value binders, the
    [-check-env] test, [load_config], and the Go-compatible printers
    ([go_duration_ms], [go_quote], the env example).

    The process environment is a function from names to values.  Two binder
    paths reach C arithmetic without a result (a double outside [int64_t],
    signed overflow); they give [Undefined]. *)

From S2P Require Import Prelude Double Http.

(** ** Text helpers *)

Definition dq : cstring := [34].
Definition nl : cstring := [10].

(** [snprintf(buf, cap, ...)] as the string [buf] then holds. *)
Definition snprintf_str (cap : Z) (text : cstring) : cstring := take (Z.to_nat (cap - 1)) text.

(** [snprintf(buf + strlen(buf), cap - strlen(buf), ...)] *)
Definition append_str (cap : Z) (buf text : cstring) : cstring :=
  buf ++ snprintf_str (cap - strlen buf) text.

(** The digits of a non-zero number, written from the right by a loop that
    divides by ten; zero takes no digit. *)
Fixpoint dec_digits (fuel : nat) (v : Z) (tail : cstring) : cstring :=
  match fuel with
  | O => tail
  | S f => if 0 <? v then dec_digits f (v / 10) ((chr "0" + v mod 10) :: tail) else tail
  end.

(** Twenty digits hold every 64-bit number. *)
Definition fmt_u64 (v : Z) : cstring := if v =? 0 then [chr "0"] else dec_digits 20 v [].

(** ** Results of binding a value *)

Inductive bound (A : Type) :=
  | Bound (a : A)
  | Refused (err : cstring)
  | Undefined.
Arguments Bound {A} a.
Arguments Refused {A} err.
Arguments Undefined {A}.

(** ** Value binders *)

Definition bind_str (cap : Z) (raw : option cstring) (err_cap : Z) : bound cstring :=
  match raw with
  | None => Refused (snprintf_str err_cap (lit "empty value"))
  | Some raw =>
      if cap =? 0 then Refused (snprintf_str err_cap (lit "empty value"))
      else if cap <=? strlen raw
      then Refused (snprintf_str err_cap
             (lit "value too long (" ++ fmt_u64 (strlen raw) ++ lit " bytes, cap " ++
              fmt_u64 (cap - 1) ++ lit ")"))
      else Bound raw
  end.

(** The digits before the point; [has] is [digits != 0]. *)
Fixpoint go_whole (p : cstring) (value : double) (has : bool) : double * bool * cstring :=
  match p with
  | c :: p' =>
      if is_digit c
      then go_whole p' (dbl_add (dbl_mul value (dbl_of_int 10)) (dbl_of_int (digit c))) true
      else (value, has, p)
  | [] => (value, has, [])
  end.

(** The digits after the point. *)
Fixpoint go_frac (p : cstring) (value frac : double) (has : bool) : double * bool * cstring :=
  match p with
  | c :: p' =>
      if is_digit c
      then go_frac p' (dbl_add value (dbl_mul (dbl_of_int (digit c)) frac))
             (dbl_mul frac dbl_tenth) true
      else (value, has, p)
  | [] => (value, has, [])
  end.

(** The component loop of [parse_go_duration]: [None] is the -1 return; the
    units are those of [duration_unit], in the same order. *)
Fixpoint go_components (fuel : nat) (p : cstring) (total_ns : double) : option double :=
  match fuel with
  | O => None
  | S fuel' =>
      let '(value1, has1, p1) := go_whole p (dbl_of_int 0) false in
      let '(value, has, p2) :=
        match p1 with
        | c :: p1' => if c =? chr "." then go_frac p1' value1 dbl_tenth has1
                      else (value1, has1, p1)
        | [] => (value1, has1, [])
        end in
      if negb has then None
      else match duration_unit p2 with
           | None => None
           | Some (unit_ns, p3) =>
               let total := dbl_add total_ns (dbl_mul value (dbl_of_int unit_ns)) in
               match p3 with
               | [] => Some total
               | _ => go_components fuel' p3 total
               end
           end
  end.

Definition parse_go_duration (s : option cstring) : bound Z :=
  match s with
  | None => Refused []
  | Some s =>
      let '(neg, p) :=
        match s with
        | c :: p => if (c =? chr "+") || (c =? chr "-") then (c =? chr "-", p) else (false, s)
        | [] => (false, s)
        end in
      match p with
      | [] => Refused []
      | _ =>
          match go_components (length p) p (dbl_of_int 0) with
          | None => Refused []
          | Some total =>
              let total := if neg then SFopp total else total in
              if dbl_lt (dbl_of_int INT64_MAX) total || dbl_lt total (dbl_of_int (- 2 ^ 63))
              then Refused []
              else match dbl_to_int64 total with Some ns => Bound ns | None => Undefined end
          end
      end
  end.

(** A signed 64-bit result: overflow is undefined. *)
Definition int64 (z : Z) : option Z :=
  if (- 2 ^ 63 <=? z) && (z <=? INT64_MAX) then Some z else None.

Definition bind_duration_ms (raw : option cstring) (err_cap : Z) : bound Z :=
  match parse_go_duration raw with
  | Undefined => Undefined
  | Refused _ => Refused (snprintf_str err_cap (lit "invalid Go duration " ++ default [] raw))
  | Bound ns =>
      if ns <? 0
      then match int64 (- ns) with
           | None => Undefined
           | Some m => match int64 (m + 500000) with
                       | None => Undefined
                       | Some k => Bound (- (k / 1000000))
                       end
           end
      else match int64 (ns + 500000) with
           | None => Undefined
           | Some k => Bound (k / 1000000)
           end
  end.

(** [strtoul(raw, &end, 10)]: value, [errno != 0], the rest at [end]; the rest
    is [raw] itself when there is no digit. *)
Definition is_space (c : Z) : bool := (c =? 32) || ((9 <=? c) && (c <=? 13)).

Fixpoint ul_digits (p : cstring) (v : Z) (has : bool) : Z * bool * cstring :=
  match p with
  | c :: p' => if is_digit c then ul_digits p' (v * 10 + digit c) true else (v, has, p)
  | [] => (v, has, [])
  end.

Definition strtoul (raw : cstring) : Z * bool * cstring :=
  let p := skip_while is_space raw in
  let '(neg, p) :=
    match p with
    | c :: p' => if c =? chr "-" then (true, p') else if c =? chr "+" then (false, p') else (false, p)
    | [] => (false, p)
    end in
  let '(v, has, rest) := ul_digits p 0 false in
  if negb has then (0, false, raw)
  else if UINT64_MAX <? v then (UINT64_MAX, true, rest)
  else (if neg then u64 (- v) else v, false, rest).

Definition bind_uint8 (raw : option cstring) (err_cap : Z) : bound Z :=
  match raw with
  | None | Some [] => Refused (snprintf_str err_cap (lit "empty value"))
  | Some raw =>
      let '(v, errno, rest) := strtoul raw in
      if errno || streq rest raw || negb (streq rest []) || (255 <? v)
      then Refused (snprintf_str err_cap (lit "invalid uint8 " ++ raw))
      else Bound (u8 v)
  end.

Definition bool_true : list cstring :=
  [lit "1"; lit "t"; lit "T"; lit "true"; lit "TRUE"; lit "True"].
Definition bool_false : list cstring :=
  [lit "0"; lit "f"; lit "F"; lit "false"; lit "FALSE"; lit "False"].

Definition bind_bool (raw : option cstring) (err_cap : Z) : bound bool :=
  match raw with
  | None => Refused (snprintf_str err_cap (lit "empty value"))
  | Some raw =>
      if existsb (streq raw) bool_true then Bound true
      else if existsb (streq raw) bool_false then Bound false
      else Refused (snprintf_str err_cap (lit "invalid bool " ++ raw))
  end.

(** ** The configuration *)

Definition STRIM_CFG_ID_MAX : Z := 128.
Definition STRIM_CFG_SNAP_MAX : Z := 256.
Definition STRIM_CFG_IMAGE_MAX : Z := 512.
Definition STRIM_CFG_PATH_MAX : Z := 1024.

Record strim_container_config := ContainerConfig {
  container_id : cstring;
  snapshot_id : cstring;
  image_name : cstring;
  logfile : cstring;
}.

Record strim_config := Config {
  containerd_socket : cstring;
  containerd_namespace : cstring;
  controller_http_port : cstring;
  host_root : cstring;
  reconcile_interval_ms : Z;
  inflight_timeout_ms : Z;
  shutdown_timeout_ms : Z;
  stage_stop_timeout_ms : Z;
  websocket_write_timeout_ms : Z;
  actions_buffer_size : Z;
  enable_single_stage_pipeline : bool;
  mediamtx : strim_container_config;
  normalize : strim_container_config;
  scale_and_egress : strim_container_config;
  single_stage_egress : strim_container_config;
}.

(** The configuration [load_config] starts from ([memset]). *)
Definition no_container : strim_container_config := ContainerConfig [] [] [] [].
Definition no_config : strim_config :=
  Config [] [] [] [] 0 0 0 0 0 0 false no_container no_container no_container no_container.

(** Assignments to one field. *)
Definition set_container_id (v : cstring) (k : strim_container_config) :=
  ContainerConfig v (snapshot_id k) (image_name k) (logfile k).
Definition set_snapshot_id (v : cstring) (k : strim_container_config) :=
  ContainerConfig (container_id k) v (image_name k) (logfile k).
Definition set_image_name (v : cstring) (k : strim_container_config) :=
  ContainerConfig (container_id k) (snapshot_id k) v (logfile k).
Definition set_logfile (v : cstring) (k : strim_container_config) :=
  ContainerConfig (container_id k) (snapshot_id k) (image_name k) v.

Definition set_containerd_socket (v : cstring) (c : strim_config) : strim_config :=
  Config v (containerd_namespace c) (controller_http_port c) (host_root c)
    (reconcile_interval_ms c) (inflight_timeout_ms c) (shutdown_timeout_ms c)
    (stage_stop_timeout_ms c) (websocket_write_timeout_ms c) (actions_buffer_size c)
    (enable_single_stage_pipeline c) (mediamtx c) (normalize c) (scale_and_egress c)
    (single_stage_egress c).
Definition set_containerd_namespace (v : cstring) (c : strim_config) : strim_config :=
  Config (containerd_socket c) v (controller_http_port c) (host_root c) (reconcile_interval_ms c)
    (inflight_timeout_ms c) (shutdown_timeout_ms c) (stage_stop_timeout_ms c)
    (websocket_write_timeout_ms c) (actions_buffer_size c) (enable_single_stage_pipeline c)
    (mediamtx c) (normalize c) (scale_and_egress c) (single_stage_egress c).
Definition set_controller_http_port (v : cstring) (c : strim_config) : strim_config :=
  Config (containerd_socket c) (containerd_namespace c) v (host_root c) (reconcile_interval_ms c)
    (inflight_timeout_ms c) (shutdown_timeout_ms c) (stage_stop_timeout_ms c)
    (websocket_write_timeout_ms c) (actions_buffer_size c) (enable_single_stage_pipeline c)
    (mediamtx c) (normalize c) (scale_and_egress c) (single_stage_egress c).
Definition set_host_root (v : cstring) (c : strim_config) : strim_config :=
  Config (containerd_socket c) (containerd_namespace c) (controller_http_port c) v
    (reconcile_interval_ms c) (inflight_timeout_ms c) (shutdown_timeout_ms c)
    (stage_stop_timeout_ms c) (websocket_write_timeout_ms c) (actions_buffer_size c)
    (enable_single_stage_pipeline c) (mediamtx c) (normalize c) (scale_and_egress c)
    (single_stage_egress c).
Definition set_reconcile_interval_ms (v : Z) (c : strim_config) : strim_config :=
  Config (containerd_socket c) (containerd_namespace c) (controller_http_port c) (host_root c) v
    (inflight_timeout_ms c) (shutdown_timeout_ms c) (stage_stop_timeout_ms c)
    (websocket_write_timeout_ms c) (actions_buffer_size c) (enable_single_stage_pipeline c)
    (mediamtx c) (normalize c) (scale_and_egress c) (single_stage_egress c).
Definition set_inflight_timeout_ms (v : Z) (c : strim_config) : strim_config :=
  Config (containerd_socket c) (containerd_namespace c) (controller_http_port c) (host_root c)
    (reconcile_interval_ms c) v (shutdown_timeout_ms c) (stage_stop_timeout_ms c)
    (websocket_write_timeout_ms c) (actions_buffer_size c) (enable_single_stage_pipeline c)
    (mediamtx c) (normalize c) (scale_and_egress c) (single_stage_egress c).
Definition set_shutdown_timeout_ms (v : Z) (c : strim_config) : strim_config :=
  Config (containerd_socket c) (containerd_namespace c) (controller_http_port c) (host_root c)
    (reconcile_interval_ms c) (inflight_timeout_ms c) v (stage_stop_timeout_ms c)
    (websocket_write_timeout_ms c) (actions_buffer_size c) (enable_single_stage_pipeline c)
    (mediamtx c) (normalize c) (scale_and_egress c) (single_stage_egress c).
Definition set_stage_stop_timeout_ms (v : Z) (c : strim_config) : strim_config :=
  Config (containerd_socket c) (containerd_namespace c) (controller_http_port c) (host_root c)
    (reconcile_interval_ms c) (inflight_timeout_ms c) (shutdown_timeout_ms c) v
    (websocket_write_timeout_ms c) (actions_buffer_size c) (enable_single_stage_pipeline c)
    (mediamtx c) (normalize c) (scale_and_egress c) (single_stage_egress c).
Definition set_websocket_write_timeout_ms (v : Z) (c : strim_config) : strim_config :=
  Config (containerd_socket c) (containerd_namespace c) (controller_http_port c) (host_root c)
    (reconcile_interval_ms c) (inflight_timeout_ms c) (shutdown_timeout_ms c)
    (stage_stop_timeout_ms c) v (actions_buffer_size c) (enable_single_stage_pipeline c)
    (mediamtx c) (normalize c) (scale_and_egress c) (single_stage_egress c).
Definition set_actions_buffer_size (v : Z) (c : strim_config) : strim_config :=
  Config (containerd_socket c) (containerd_namespace c) (controller_http_port c) (host_root c)
    (reconcile_interval_ms c) (inflight_timeout_ms c) (shutdown_timeout_ms c)
    (stage_stop_timeout_ms c) (websocket_write_timeout_ms c) v (enable_single_stage_pipeline c)
    (mediamtx c) (normalize c) (scale_and_egress c) (single_stage_egress c).
Definition set_enable_single_stage_pipeline (v : bool) (c : strim_config) : strim_config :=
  Config (containerd_socket c) (containerd_namespace c) (controller_http_port c) (host_root c)
    (reconcile_interval_ms c) (inflight_timeout_ms c) (shutdown_timeout_ms c)
    (stage_stop_timeout_ms c) (websocket_write_timeout_ms c) (actions_buffer_size c) v
    (mediamtx c) (normalize c) (scale_and_egress c) (single_stage_egress c).
Definition in_mediamtx (f : strim_container_config -> strim_container_config)
    (c : strim_config) : strim_config :=
  Config (containerd_socket c) (containerd_namespace c) (controller_http_port c) (host_root c)
    (reconcile_interval_ms c) (inflight_timeout_ms c) (shutdown_timeout_ms c)
    (stage_stop_timeout_ms c) (websocket_write_timeout_ms c) (actions_buffer_size c)
    (enable_single_stage_pipeline c) (f (mediamtx c)) (normalize c) (scale_and_egress c)
    (single_stage_egress c).
Definition in_normalize (f : strim_container_config -> strim_container_config)
    (c : strim_config) : strim_config :=
  Config (containerd_socket c) (containerd_namespace c) (controller_http_port c) (host_root c)
    (reconcile_interval_ms c) (inflight_timeout_ms c) (shutdown_timeout_ms c)
    (stage_stop_timeout_ms c) (websocket_write_timeout_ms c) (actions_buffer_size c)
    (enable_single_stage_pipeline c) (mediamtx c) (f (normalize c)) (scale_and_egress c)
    (single_stage_egress c).
Definition in_scale_and_egress (f : strim_container_config -> strim_container_config)
    (c : strim_config) : strim_config :=
  Config (containerd_socket c) (containerd_namespace c) (controller_http_port c) (host_root c)
    (reconcile_interval_ms c) (inflight_timeout_ms c) (shutdown_timeout_ms c)
    (stage_stop_timeout_ms c) (websocket_write_timeout_ms c) (actions_buffer_size c)
    (enable_single_stage_pipeline c) (mediamtx c) (normalize c) (f (scale_and_egress c))
    (single_stage_egress c).
Definition in_single_stage_egress (f : strim_container_config -> strim_container_config)
    (c : strim_config) : strim_config :=
  Config (containerd_socket c) (containerd_namespace c) (controller_http_port c) (host_root c)
    (reconcile_interval_ms c) (inflight_timeout_ms c) (shutdown_timeout_ms c)
    (stage_stop_timeout_ms c) (websocket_write_timeout_ms c) (actions_buffer_size c)
    (enable_single_stage_pipeline c) (mediamtx c) (normalize c) (scale_and_egress c)
    (f (single_stage_egress c)).

(** ** The binders of the specification table

    A binder returns the configuration it leaves and the refusal it reports
    (if any); [None] is undefined behaviour. *)

Definition binder : Type :=
  strim_config -> option cstring -> Z -> option (strim_config * option cstring).

(** Store a bound value with [set], or report the refusal. *)
Definition store {A} (set : A -> strim_config -> strim_config) (c : strim_config)
    (r : bound A) : option (strim_config * option cstring) :=
  match r with
  | Bound a => Some (set a c, None)
  | Refused e => Some (c, Some e)
  | Undefined => None
  end.

(** [rc = first; if (rc != 0) return rc; return second;] *)
Definition then_bind (r : option (strim_config * option cstring))
    (k : strim_config -> option (strim_config * option cstring)) :=
  match r with
  | Some (c, None) => k c
  | _ => r
  end.

Definition env_containerd_socket : binder := fun c raw err_cap =>
  store set_containerd_socket c (bind_str 256 raw err_cap).
Definition env_containerd_namespace : binder := fun c raw err_cap =>
  store set_containerd_namespace c (bind_str 128 raw err_cap).
Definition env_http_port : binder := fun c raw err_cap =>
  store set_controller_http_port c (bind_str 32 raw err_cap).
Definition env_host_root : binder := fun c raw err_cap =>
  store set_host_root c (bind_str STRIM_CFG_PATH_MAX raw err_cap).
Definition env_reconcile_interval : binder := fun c raw err_cap =>
  store set_reconcile_interval_ms c (bind_duration_ms raw err_cap).
Definition env_inflight_timeout : binder := fun c raw err_cap =>
  store set_inflight_timeout_ms c (bind_duration_ms raw err_cap).
Definition env_shutdown_timeout : binder := fun c raw err_cap =>
  store set_shutdown_timeout_ms c (bind_duration_ms raw err_cap).
Definition env_stage_stop_timeout : binder := fun c raw err_cap =>
  store set_stage_stop_timeout_ms c (bind_duration_ms raw err_cap).
Definition env_ws_write_timeout : binder := fun c raw err_cap =>
  store set_websocket_write_timeout_ms c (bind_duration_ms raw err_cap).
Definition env_actions_buffer : binder := fun c raw err_cap =>
  store set_actions_buffer_size c (bind_uint8 raw err_cap).
Definition env_single_stage : binder := fun c raw err_cap =>
  store set_enable_single_stage_pipeline c (bind_bool raw err_cap).
Definition env_mediamtx_id : binder := fun c raw err_cap =>
  store (fun v => in_mediamtx (set_container_id v)) c (bind_str STRIM_CFG_ID_MAX raw err_cap).
Definition env_mediamtx_snapshot : binder := fun c raw err_cap =>
  store (fun v => in_mediamtx (set_snapshot_id v)) c (bind_str STRIM_CFG_SNAP_MAX raw err_cap).
Definition env_mediamtx_image : binder := fun c raw err_cap =>
  store (fun v => in_mediamtx (set_image_name v)) c (bind_str STRIM_CFG_IMAGE_MAX raw err_cap).
Definition env_mediamtx_log : binder := fun c raw err_cap =>
  store (fun v => in_mediamtx (set_logfile v)) c (bind_str STRIM_CFG_PATH_MAX raw err_cap).
Definition env_normalize_id : binder := fun c raw err_cap =>
  store (fun v => in_normalize (set_container_id v)) c (bind_str STRIM_CFG_ID_MAX raw err_cap).
Definition env_normalize_snapshot : binder := fun c raw err_cap =>
  store (fun v => in_normalize (set_snapshot_id v)) c (bind_str STRIM_CFG_SNAP_MAX raw err_cap).
Definition env_normalize_log : binder := fun c raw err_cap =>
  store (fun v => in_normalize (set_logfile v)) c (bind_str STRIM_CFG_PATH_MAX raw err_cap).
Definition env_egress_id : binder := fun c raw err_cap =>
  store (fun v => in_scale_and_egress (set_container_id v)) c (bind_str STRIM_CFG_ID_MAX raw err_cap).
Definition env_single_egress_id : binder := fun c raw err_cap =>
  store (fun v => in_single_stage_egress (set_container_id v)) c (bind_str STRIM_CFG_ID_MAX raw err_cap).
Definition env_egress_snapshot : binder := fun c raw err_cap =>
  then_bind (store (fun v => in_scale_and_egress (set_snapshot_id v)) c (bind_str STRIM_CFG_SNAP_MAX raw err_cap)) (fun c =>
  store (fun v => in_single_stage_egress (set_snapshot_id v)) c (bind_str STRIM_CFG_SNAP_MAX raw err_cap)).
Definition env_egress_log : binder := fun c raw err_cap =>
  then_bind (store (fun v => in_scale_and_egress (set_logfile v)) c (bind_str STRIM_CFG_PATH_MAX raw err_cap)) (fun c =>
  store (fun v => in_single_stage_egress (set_logfile v)) c (bind_str STRIM_CFG_PATH_MAX raw err_cap)).
Definition env_ffmpeg_image : binder := fun c raw err_cap =>
  then_bind (store (fun v => in_normalize (set_image_name v)) c (bind_str STRIM_CFG_IMAGE_MAX raw err_cap)) (fun c =>
  then_bind (store (fun v => in_scale_and_egress (set_image_name v)) c (bind_str STRIM_CFG_IMAGE_MAX raw err_cap)) (fun c =>
  store (fun v => in_single_stage_egress (set_image_name v)) c (bind_str STRIM_CFG_IMAGE_MAX raw err_cap))).

Record strim_env_var := EnvVar {
  name : cstring;
  group : cstring;
  required : bool;
  example : cstring;
  comment : option cstring;
  bind : option binder;
}.

Definition group_controller : cstring := lit "Controller".
Definition group_stage_containers : cstring := lit "Stage containers".
Definition group_media_ffmpeg : cstring := lit "Media / ffmpeg".
Definition group_twitch_egress : cstring := lit "Twitch / egress".
Definition group_dynamic_dns : cstring := lit "Dynamic DNS (Namecheap)".
Definition group_secrets : cstring := lit "Secrets".

Definition g_env_spec : list strim_env_var := [
  EnvVar (lit "CONTAINERD_SOCKET") group_controller true (lit "/containerd.sock")
    (Some (lit "containerd gRPC socket the controller drives")) (Some env_containerd_socket);
  EnvVar (lit "CONTAINERD_NAMESPACE") group_controller true (lit "strimserver")
    None (Some env_containerd_namespace);
  EnvVar (lit "CONTROLLER_HTTP_PORT") group_controller true (lit "4000")
    (Some (lit "must match the Stream Deck plugin's base URL port")) (Some env_http_port);
  EnvVar (lit "STRIMSERVER_HOST_ROOT") group_controller true (lit "/mnt/nvme")
    (Some (lit "host dir where deploy.sh stages config/bin/video-files")) (Some env_host_root);
  EnvVar (lit "CONTROLLER_RECONCILE_INTERVAL") group_controller true (lit "5s")
    (Some (lit "how often the reconcile ticker fires (Go duration)")) (Some env_reconcile_interval);
  EnvVar (lit "CONTROLLER_INFLIGHT_TIMEOUT") group_controller true (lit "30s")
    (Some (lit "per-op timeout; after this an in-flight stage op is re-issued")) (Some env_inflight_timeout);
  EnvVar (lit "CONTROLLER_SHUTDOWN_TIMEOUT") group_controller true (lit "30s")
    (Some (lit "graceful HTTP shutdown budget")) (Some env_shutdown_timeout);
  EnvVar (lit "STAGE_STOP_TIMEOUT") group_controller true (lit "10s")
    (Some (lit "grace period after SIGTERM before a task is force-killed")) (Some env_stage_stop_timeout);
  EnvVar (lit "WEBSOCKET_WRITE_TIMEOUT") group_controller true (lit "5s")
    (Some (lit "per-message write deadline on /subscribe")) (Some env_ws_write_timeout);
  EnvVar (lit "CONTROLLER_ACTIONS_BUFFER_SIZE") group_controller true (lit "16")
    (Some (lit "buffered capacity of the actions channel (0-255)")) (Some env_actions_buffer);
  EnvVar (lit "ENABLE_SINGLE_STAGE_PIPELINE") group_controller false (lit "false")
    (Some (lit "feature toggle to enable single_stage_egress")) (Some env_single_stage);
  EnvVar (lit "MEDIAMTX_CONTAINER_ID") group_stage_containers true (lit "mediamtx")
    None (Some env_mediamtx_id);
  EnvVar (lit "MEDIAMTX_SNAPSHOT_ID") group_stage_containers true (lit "mediamtx-snapshot")
    None (Some env_mediamtx_snapshot);
  EnvVar (lit "MEDIAMTX_IMAGE_NAME") group_stage_containers true (lit "docker.io/library/mediamtx:latest")
    None (Some env_mediamtx_image);
  EnvVar (lit "MEDIAMTX_LOG_FILE") group_stage_containers true (lit "/mnt/nvme/logs/mediamtx.log")
    None (Some env_mediamtx_log);
  EnvVar (lit "NORMALIZE_CONTAINER_ID") group_stage_containers true (lit "normalize")
    None (Some env_normalize_id);
  EnvVar (lit "NORMALIZE_SNAPSHOT_ID") group_stage_containers true (lit "normalize-snapshot")
    None (Some env_normalize_snapshot);
  EnvVar (lit "NORMALIZE_LOG_FILE") group_stage_containers true (lit "/mnt/nvme/logs/normalize.log")
    None (Some env_normalize_log);
  EnvVar (lit "EGRESS_CONTAINER_ID") group_stage_containers true (lit "scale-and-egress")
    None (Some env_egress_id);
  EnvVar (lit "SINGLE_STAGE_EGRESS_CONTAINER_ID") group_stage_containers false (lit "single-stage-egress")
    None (Some env_single_egress_id);
  EnvVar (lit "EGRESS_SNAPSHOT_ID") group_stage_containers true (lit "egress-snapshot")
    None (Some env_egress_snapshot);
  EnvVar (lit "EGRESS_LOG_FILE") group_stage_containers true (lit "/mnt/nvme/logs/egress.log")
    None (Some env_egress_log);
  EnvVar (lit "FFMPEG_IMAGE_NAME") group_stage_containers true (lit "docker.io/library/ffmpeg:latest")
    (Some (lit "shared by the normalize and scale_and_egress stages")) (Some env_ffmpeg_image);
  EnvVar (lit "FFMPEG_NICE") group_media_ffmpeg true (lit "-5")
    (Some (lit "nice(1) level for the ffmpeg stages")) None;
  EnvVar (lit "FFMPEG_LOG_LEVEL") group_media_ffmpeg true (lit "info")
    None None;
  EnvVar (lit "MEDIAMTX_NICE") group_media_ffmpeg true (lit "-10")
    None None;
  EnvVar (lit "MEDIAMTX_CONFIG_TEMPLATE") group_media_ffmpeg true (lit "/mediamtx.yaml.template")
    (Some (lit "in-container path of the bind-mounted template (envsubst input)")) None;
  EnvVar (lit "STRIMSERVER_SRT_PORT") group_media_ffmpeg true (lit "9000")
    (Some (lit "SRT ingest port; must match the local encoder")) None;
  EnvVar (lit "STRIMSERVER_RTSP_PORT") group_media_ffmpeg true (lit "8554")
    (Some (lit "internal RTSP port the stages read from")) None;
  EnvVar (lit "NORMALIZED_MPEGTS_SOCKET") group_media_ffmpeg true (lit "/tmp/strimserver-normalized.sock")
    (Some (lit "unix socket: mediamtx listens, normalize ffmpeg connects")) None;
  EnvVar (lit "MEDIAMTX_READ_TIMEOUT_DURATION") group_media_ffmpeg true (lit "12s")
    (Some (lit ">= SRT latency + jitter + read gap")) None;
  EnvVar (lit "NORMALIZED_VIDEO_BITRATE") group_media_ffmpeg true (lit "9000k")
    None None;
  EnvVar (lit "NORMALIZED_VIDEO_MAXRATE") group_media_ffmpeg true (lit "9000k")
    None None;
  EnvVar (lit "NORMALIZED_VIDEO_MINRATE") group_media_ffmpeg true (lit "9000k")
    None None;
  EnvVar (lit "NORMALIZED_VIDEO_BUFSIZE") group_media_ffmpeg true (lit "9000k")
    None None;
  EnvVar (lit "NORMALIZED_AUDIO_BITRATE") group_media_ffmpeg true (lit "320k")
    None None;
  EnvVar (lit "SCALED_VIDEO_HEIGHT_PIXELS") group_media_ffmpeg true (lit "936")
    (Some (lit "egress output height; width is derived (-2)")) None;
  EnvVar (lit "EGRESS_VIDEO_BITRATE") group_media_ffmpeg true (lit "2500k")
    None None;
  EnvVar (lit "EGRESS_VIDEO_MAXRATE") group_media_ffmpeg true (lit "2500k")
    None None;
  EnvVar (lit "EGRESS_VIDEO_MINRATE") group_media_ffmpeg true (lit "2500k")
    None None;
  EnvVar (lit "EGRESS_VIDEO_BUFSIZE") group_media_ffmpeg true (lit "2500k")
    None None;
  EnvVar (lit "EGRESS_AUDIO_BITRATE") group_media_ffmpeg true (lit "160k")
    None None;
  EnvVar (lit "TWITCH_INGEST_SERVER") group_twitch_egress true (lit "ingest.global-contribute.live-video.net")
    None None;
  EnvVar (lit "TWITCH_STREAM_KEY") group_twitch_egress true (lit "")
    (Some (lit "secret; leave EMPTY in bundled builds - injected at deploy time by deploy.sh")) None;
  EnvVar (lit "BANDWIDTH_TEST") group_twitch_egress true (lit "false")
    (Some (lit "true appends ?bandwidthtest=true to the RTMP URL")) None;
  EnvVar (lit "ENABLE_DDNS") group_dynamic_dns false (lit "false")
    (Some (lit "Feature toggle: when false, deploy.sh skips DDNS entirely (box reachable by IP only).")) None;
  EnvVar (lit "DDNS_HOST") group_dynamic_dns false (lit "strim")
    (Some (lit "Namecheap Dynamic DNS host label (matches the DDNS host created in Namecheap).")) None;
  EnvVar (lit "DDNS_DOMAIN") group_dynamic_dns false (lit "")
    (Some (lit "Namecheap Dynamic DNS domain (OPERATOR MUST FILL IN; leave empty for published builds)." ++ nl ++
           lit "# Example: DDNS_DOMAIN=" ++ dq ++ lit "example.com" ++ dq ++
           lit "  ->  box is referenceable as strim.example.com")) None;
  EnvVar (lit "SRT_PUBLISH_PASSPHRASE") group_secrets false (lit "")
    (Some (lit "optional; falls back to /run/secrets/srt-passphrase if unset")) None].

(** ** -check-env and load_config *)

Section Env.

(** The process environment. *)
Variable getenv : cstring -> option cstring.

Definition check_step (err_cap : Z) (acc : Z * cstring) (v : strim_env_var) : Z * cstring :=
  let '(n_missing, err) := acc in
  if negb (required v) then acc
  else match getenv (name v) with
       | None | Some [] =>
           (n_missing + 1, append_str err_cap err (lit "missing or empty: " ++ name v ++ nl))
       | Some _ => acc
       end.

Definition check_env (err_cap : Z) : Z * cstring :=
  let '(n_missing, err) := fold_left (check_step err_cap) g_env_spec (0, []) in
  (if n_missing =? 0 then 0 else -1, err).

Definition BIND_ERR_CAP : Z := 256.

Fixpoint load_loop (err_cap : Z) (spec : list strim_env_var) (cfg : strim_config)
    (n_errors : Z) (err : cstring) : option (Z * strim_config * cstring) :=
  match spec with
  | [] => Some (n_errors, cfg, err)
  | v :: spec' =>
      match getenv (name v) with
      | None | Some [] =>
          if required v
          then load_loop err_cap spec' cfg (n_errors + 1)
                 (append_str err_cap err
                    (lit "missing required env var " ++ dq ++ name v ++ dq ++ nl))
          else load_loop err_cap spec' cfg n_errors err
      | Some raw =>
          match bind v with
          | None => load_loop err_cap spec' cfg n_errors err
          | Some b =>
              match b cfg (Some raw) BIND_ERR_CAP with
              | None => None
              | Some (cfg', None) => load_loop err_cap spec' cfg' n_errors err
              | Some (cfg', Some bind_err) =>
                  load_loop err_cap spec' cfg' (n_errors + 1)
                    (append_str err_cap err
                       (lit "could not parse " ++ dq ++ name v ++ dq ++ lit " = " ++ dq ++ raw ++
                        dq ++ lit ": " ++ bind_err ++ nl))
              end
          end
      end
  end.

(** The return code, the configuration and the error text. *)
Definition load_config (err_cap : Z) : option (Z * strim_config * cstring) :=
  match load_loop err_cap g_env_spec no_config 0 [] with
  | None => None
  | Some (n_errors, cfg, err) => Some (if n_errors =? 0 then 0 else -1, cfg, err)
  end.

End Env.

(** ** Printing durations (Go's time.Duration.String)

    The text grows to the left inside a 48-byte buffer: [tail] is what has
    been written so far, from the write index to the end. *)

Fixpoint frac_loop (prec : nat) (v : Z) (print : bool) (tail : cstring) : Z * bool * cstring :=
  match prec with
  | O => (v, print, tail)
  | S prec' =>
      let d := v mod 10 in
      let print := print || negb (d =? 0) in
      frac_loop prec' (v / 10) print (if print then (d + chr "0") :: tail else tail)
  end.

Definition go_duration_frac (tail : cstring) (v : Z) (prec : nat) : Z * cstring :=
  let '(v', print, tail') := frac_loop prec v false tail in
  (v', if print then chr "." :: tail' else tail').

Definition go_duration_int (tail : cstring) (v : Z) : cstring :=
  if v =? 0 then chr "0" :: tail else dec_digits 20 v tail.

(** The text of [u] nanoseconds. *)
Definition go_duration_text (u : Z) : cstring :=
  if u <? 1000000000 then
    let '(prec, tail) :=
      if u <? 1000 then (0%nat, lit "ns")
      else if u <? 1000000 then (3%nat, [0xc2; 0xb5; chr "s"])
      else (6%nat, lit "ms") in
    let '(u', tail) := go_duration_frac tail u prec in
    go_duration_int tail u'
  else
    let '(secs, tail) := go_duration_frac (lit "s") u 9 in
    let tail := go_duration_int tail (secs mod 60) in
    let mins := secs / 60 in
    if 0 <? mins then
      let tail := go_duration_int (chr "m" :: tail) (mins mod 60) in
      let hours := mins / 60 in
      if 0 <? hours then go_duration_int (chr "h" :: tail) hours else tail
    else tail.

Definition go_duration_ms (ms : Z) (cap : Z) : cstring :=
  if ms =? 0 then snprintf_str cap (lit "0s")
  else
    let neg := ms <? 0 in
    let u := u64 (Z.abs ms * 1000000) in
    let tail := go_duration_text u in
    let text := if neg then chr "-" :: tail else tail in
    if strlen text <? cap then text else snprintf_str cap (lit "0s").

(** ** Quoting (strconv.Quote for the env example) *)

Definition hexd (v : Z) : Z := default 0 (lit "0123456789abcdef" !! Z.to_nat (Z.land v 15)).

Definition quote_char (c : Z) : cstring :=
  if c =? 34 then [92; 34]
  else if c =? 92 then [92; 92]
  else if c =? 10 then [92; chr "n"]
  else if c =? 13 then [92; chr "r"]
  else if c =? 9 then [92; chr "t"]
  else if (c <? 0x20) || (0x7f <=? c) then [92; chr "x"; hexd (Z.shiftr c 4); hexd c]
  else [c].

(** The loop, [o] characters having been written. *)
Fixpoint quote_loop (s : cstring) (o cap : Z) : cstring :=
  match s with
  | [] => []
  | c :: s' =>
      if o + 8 <? cap
      then let q := quote_char c in q ++ quote_loop s' (o + strlen q) cap
      else []
  end.

(** The text written by [go_quote] into a buffer of [cap] bytes. *)
Definition go_quote (s : cstring) (cap : Z) : cstring :=
  if cap =? 0 then [] else dq ++ quote_loop s 1 cap ++ dq.

Definition print_env_var (last_group : option cstring) (v : strim_env_var)
  : cstring * option cstring :=
  let fresh := match last_group with None => true | Some g => negb (streq (group v) g) end in
  ((if fresh then nl ++ lit "# --- " ++ group v ++ lit " ---" ++ nl else []) ++
   match comment v with None | Some [] => [] | Some k => lit "# " ++ k ++ nl end ++
   name v ++ lit "=" ++ go_quote (example v) 256 ++ nl,
   if fresh then Some (group v) else last_group).

Fixpoint print_env_vars (last_group : option cstring) (spec : list strim_env_var) : cstring :=
  match spec with
  | [] => []
  | v :: spec' => let '(text, g) := print_env_var last_group v in text ++ print_env_vars g spec'
  end.

Definition print_env_example : cstring := print_env_vars None g_env_spec.
