(* ===== verification/ConfigFacts.v ===== *)
(** * What the configuration code computes

    [load_config] against a field-by-field specification, exactness of the
    double-based duration parser on whole components and its agreement with
    the HTTP lane's integer parser, and the round trip of printed durations. *)

From S2P Require Import Prelude Double Http HttpFacts Config.

(** ** load_config *)

Section Load.

Variable getenv : cstring -> option cstring.

(** What [load_config] requires of one variable: a required one is present
    and not empty, and a value that is bound is accepted by its binder. *)
Definition accepts (b : binder) (raw : cstring) : bool :=
  match b no_config (Some raw) BIND_ERR_CAP with Some (_, None) => true | _ => false end.

Definition entry_ok (v : strim_env_var) : bool :=
  match getenv (name v) with
  | None | Some [] => negb (required v)
  | Some raw => match bind v with None => true | Some b => accepts b raw end
  end.

(** The values the fields take: the text of the variable, or what its binder
    makes of it; an absent optional variable leaves the zero value. *)
Definition text_of (n : cstring) : cstring := default [] (getenv n).
Definition ms_of (n : cstring) : Z :=
  match bind_duration_ms (getenv n) BIND_ERR_CAP with Bound ms => ms | _ => 0 end.
Definition byte_of (n : cstring) : Z :=
  match bind_uint8 (getenv n) BIND_ERR_CAP with Bound v => v | _ => 0 end.
Definition bool_of (n : cstring) : bool :=
  match bind_bool (getenv n) BIND_ERR_CAP with Bound b => b | _ => false end.

Definition config_of : strim_config := {|
  containerd_socket := text_of (lit "CONTAINERD_SOCKET");
  containerd_namespace := text_of (lit "CONTAINERD_NAMESPACE");
  controller_http_port := text_of (lit "CONTROLLER_HTTP_PORT");
  host_root := text_of (lit "STRIMSERVER_HOST_ROOT");
  reconcile_interval_ms := ms_of (lit "CONTROLLER_RECONCILE_INTERVAL");
  inflight_timeout_ms := ms_of (lit "CONTROLLER_INFLIGHT_TIMEOUT");
  shutdown_timeout_ms := ms_of (lit "CONTROLLER_SHUTDOWN_TIMEOUT");
  stage_stop_timeout_ms := ms_of (lit "STAGE_STOP_TIMEOUT");
  websocket_write_timeout_ms := ms_of (lit "WEBSOCKET_WRITE_TIMEOUT");
  actions_buffer_size := byte_of (lit "CONTROLLER_ACTIONS_BUFFER_SIZE");
  enable_single_stage_pipeline := bool_of (lit "ENABLE_SINGLE_STAGE_PIPELINE");
  mediamtx := ContainerConfig (text_of (lit "MEDIAMTX_CONTAINER_ID"))
    (text_of (lit "MEDIAMTX_SNAPSHOT_ID")) (text_of (lit "MEDIAMTX_IMAGE_NAME"))
    (text_of (lit "MEDIAMTX_LOG_FILE"));
  normalize := ContainerConfig (text_of (lit "NORMALIZE_CONTAINER_ID"))
    (text_of (lit "NORMALIZE_SNAPSHOT_ID")) (text_of (lit "FFMPEG_IMAGE_NAME"))
    (text_of (lit "NORMALIZE_LOG_FILE"));
  scale_and_egress := ContainerConfig (text_of (lit "EGRESS_CONTAINER_ID"))
    (text_of (lit "EGRESS_SNAPSHOT_ID")) (text_of (lit "FFMPEG_IMAGE_NAME"))
    (text_of (lit "EGRESS_LOG_FILE"));
  single_stage_egress := ContainerConfig (text_of (lit "SINGLE_STAGE_EGRESS_CONTAINER_ID"))
    (text_of (lit "EGRESS_SNAPSHOT_ID")) (text_of (lit "FFMPEG_IMAGE_NAME"))
    (text_of (lit "EGRESS_LOG_FILE"));
|}.

(** One iteration of the loop, as far as the configuration goes. *)
Definition apply_entry (c : strim_config) (v : strim_env_var) : strim_config :=
  match getenv (name v), bind v with
  | None, _ | Some [], _ | _, None => c
  | Some raw, Some b => match b c (Some raw) BIND_ERR_CAP with Some (c', _) => c' | None => c end
  end.

(** A binder's verdict does not depend on the configuration so far. *)
Definition uniform (b : binder) : Prop :=
  forall c raw, match b c raw BIND_ERR_CAP, b no_config raw BIND_ERR_CAP with
                | None, None => True
                | Some (_, e), Some (_, e') => e = e'
                | _, _ => False
                end.

Lemma spec_uniform : Forall (fun v => match bind v with Some b => uniform b | None => True end) g_env_spec.
Proof.
  assert (Hst : forall A (set : A -> strim_config -> strim_config) (f : option cstring -> Z -> bound A),
            uniform (fun c raw cap => store set c (f raw cap))).
  { intros A set f c raw. by destruct (f raw BIND_ERR_CAP). }
  unfold g_env_spec. repeat (apply Forall_cons; split); try apply Forall_nil; cbn [bind];
    first [exact I | apply Hst | intros c raw].
  all: unfold env_egress_snapshot, env_egress_log, env_ffmpeg_image, then_bind.
  all: by destruct (bind_str _ raw _).
Qed.

Lemma load_loop_spec (err_cap : Z) (spec : list strim_env_var) (c : strim_config) (n : Z)
    (err : cstring) :
  Forall (fun v => match bind v with Some b => uniform b | None => True end) spec ->
  if forallb entry_ok spec
  then load_loop getenv err_cap spec c n err = Some (n, fold_left apply_entry spec c, err)
  else match load_loop getenv err_cap spec c n err with
       | Some (n', _, _) => n < n'
       | None => True
       end.
Proof.
  intros Hu. revert c n err. induction Hu as [|v spec Hv _ IH]; intros c n err; [done|].
  assert (Hmono : forall c n' err', n <= n' ->
    match load_loop getenv err_cap spec c n' err' with
    | Some (n'', _, _) => n <= n'' | None => True end).
  { intros c1 n' err' Hn. specialize (IH c1 n' err'). destruct (forallb entry_ok spec).
    - rewrite IH. lia.
    - destruct (load_loop _ _ _ _ _ _) as [[[? ?] ?]|]; [lia | done]. }
  assert (Hstep : forall c err',
    match load_loop getenv err_cap spec c (n + 1) err' with
    | Some (n', _, _) => n < n' | None => True end).
  { intros c1 err'. specialize (IH c1 (n + 1) err'). destruct (forallb entry_ok spec).
    - rewrite IH. lia.
    - destruct (load_loop _ _ _ _ _ _) as [[[? ?] ?]|]; [lia | done]. }
  cbn [forallb load_loop fold_left]. unfold entry_ok at 1. unfold apply_entry at 2.
  destruct (getenv (name v)) as [[|x raw]|] eqn:Eg;
    [destruct (required v); [apply Hstep | apply IH] | |
     destruct (required v); [apply Hstep | apply IH]].
  destruct (bind v) as [b|]; [|apply IH].
  unfold accepts. specialize (Hv c (Some (x :: raw))).
  destruct (b c _ _) as [[c' [e|]]|], (b no_config _ _) as [[c0 [e0|]]|];
    simplify_eq; try done; [apply Hstep | apply IH].
Qed.

(** What each kind of entry does to the configuration. *)
Lemma apply_guard (c : strim_config) (n g ex : cstring) (r : bool) (k : option cstring) :
  apply_entry c (EnvVar n g r ex k None) = c.
Proof. unfold apply_entry. cbn [name bind]. by destruct (getenv n) as [[]|]. Qed.

(** The value a binder function [f] gives for the variable [n]. *)
Definition value_of {A} (zero : A) (f : option cstring -> Z -> bound A) (n : cstring) : A :=
  match f (getenv n) BIND_ERR_CAP with Bound a => a | _ => zero end.

Lemma apply_bound {A} (zero : A) (f : option cstring -> Z -> bound A)
    (set : A -> strim_config -> strim_config) (b : binder)
    (n g ex : cstring) (r : bool) (k : option cstring) (c : strim_config) :
  b = (fun c raw cap => store set c (f raw cap)) ->
  entry_ok (EnvVar n g r ex k (Some b)) = true -> r = true ->
  apply_entry c (EnvVar n g r ex k (Some b)) = set (value_of zero f n) c.
Proof.
  intros -> Hok ->. unfold apply_entry, entry_ok, accepts, value_of in *.
  cbn [name bind required] in *. destruct (getenv n) as [[|x raw]|]; try done.
  by destruct (f _ _).
Qed.

(** A text entry, whatever its binder does with the accepted text. *)
Lemma apply_text (cap : Z) (upd : cstring -> strim_config -> strim_config) (b : binder)
    (n g ex : cstring) (r : bool) (k : option cstring) (c : strim_config) :
  (forall c raw, b c raw BIND_ERR_CAP = store upd c (bind_str cap raw BIND_ERR_CAP)) ->
  entry_ok (EnvVar n g r ex k (Some b)) = true -> r = true ->
  apply_entry c (EnvVar n g r ex k (Some b)) = upd (text_of n) c.
Proof.
  intros Hb Hok ->. unfold apply_entry, entry_ok, accepts, text_of in *.
  cbn [name bind required] in *. destruct (getenv n) as [[|x raw]|]; try done.
  rewrite Hb in *. unfold bind_str in *. by destruct (cap =? 0), (cap <=? strlen (x :: raw)).
Qed.

(** An optional entry whose field still has its zero value. *)
Lemma apply_optional {A} (val : cstring -> A) (f : option cstring -> Z -> bound A)
    (set : A -> strim_config -> strim_config) (b : binder)
    (n g ex : cstring) (k : option cstring) (c : strim_config) :
  b = (fun c raw cap => store set c (f raw cap)) ->
  entry_ok (EnvVar n g false ex k (Some b)) = true ->
  (forall a, f (getenv n) BIND_ERR_CAP = Bound a -> val n = a) ->
  (getenv n = None \/ getenv n = Some [] -> set (val n) c = c) ->
  apply_entry c (EnvVar n g false ex k (Some b)) = set (val n) c.
Proof.
  intros -> Hok Hv Habs. unfold apply_entry, entry_ok, accepts in *.
  cbn [name bind required] in *. destruct (getenv n) as [[|x raw]|] eqn:Eg;
    [by rewrite Habs by auto | | by rewrite Habs by auto].
  destruct (f _ _) as [a| |]; try done. cbn [store]. by rewrite (Hv a).
Qed.

Lemma bind_str_text (cap : Z) (n a : cstring) :
  bind_str cap (getenv n) BIND_ERR_CAP = Bound a -> text_of n = a.
Proof.
  unfold bind_str, text_of. destruct (getenv n) as [raw|]; [|done].
  destruct (cap =? 0), (cap <=? strlen raw); naive_solver.
Qed.

Lemma text_absent (n : cstring) : getenv n = None \/ getenv n = Some [] -> text_of n = [].
Proof. unfold text_of. by intros [-> | ->]. Qed.

Lemma bool_value (n : cstring) (a : bool) :
  bind_bool (getenv n) BIND_ERR_CAP = Bound a -> bool_of n = a.
Proof. unfold bool_of. by intros ->. Qed.

Lemma egress_snapshot_upd (c : strim_config) (raw : option cstring) :
  env_egress_snapshot c raw BIND_ERR_CAP =
  store (fun v c => in_single_stage_egress (set_snapshot_id v) (in_scale_and_egress (set_snapshot_id v) c))
    c (bind_str STRIM_CFG_SNAP_MAX raw BIND_ERR_CAP).
Proof. unfold env_egress_snapshot, then_bind. by destruct (bind_str _ raw _). Qed.

Lemma egress_log_upd (c : strim_config) (raw : option cstring) :
  env_egress_log c raw BIND_ERR_CAP =
  store (fun v c => in_single_stage_egress (set_logfile v) (in_scale_and_egress (set_logfile v) c))
    c (bind_str STRIM_CFG_PATH_MAX raw BIND_ERR_CAP).
Proof. unfold env_egress_log, then_bind. by destruct (bind_str _ raw _). Qed.

Lemma ffmpeg_image_upd (c : strim_config) (raw : option cstring) :
  env_ffmpeg_image c raw BIND_ERR_CAP =
  store (fun v c => in_single_stage_egress (set_image_name v)
           (in_scale_and_egress (set_image_name v) (in_normalize (set_image_name v) c)))
    c (bind_str STRIM_CFG_IMAGE_MAX raw BIND_ERR_CAP).
Proof. unfold env_ffmpeg_image, then_bind. by destruct (bind_str _ raw _). Qed.

(** Run the entries of the table one by one. *)
Ltac run_entry :=
  match goal with
  | E : entry_ok (EnvVar ?n ?g true ?x ?k (Some ?b)) = true
    |- context [apply_entry ?c (EnvVar ?n ?g true ?x ?k (Some ?b))] =>
      first
        [ rewrite (apply_text _ _ b n g x true k c egress_snapshot_upd E eq_refl)
        | rewrite (apply_text _ _ b n g x true k c egress_log_upd E eq_refl)
        | rewrite (apply_text _ _ b n g x true k c ffmpeg_image_upd E eq_refl)
        | rewrite (apply_bound 0 bind_uint8 _ b n g x true k c eq_refl E eq_refl)
        | rewrite (apply_bound 0 bind_duration_ms _ b n g x true k c eq_refl E eq_refl)
        | rewrite (apply_text _ _ b n g x true k c (fun _ _ => eq_refl) E eq_refl) ];
      clear E
  end.

(** Evaluate the assignments to fields, innermost first. *)
Ltac run_sets :=
  cbv [containerd_socket containerd_namespace controller_http_port host_root
       reconcile_interval_ms inflight_timeout_ms shutdown_timeout_ms stage_stop_timeout_ms
       websocket_write_timeout_ms actions_buffer_size enable_single_stage_pipeline mediamtx
       normalize scale_and_egress single_stage_egress set_containerd_socket
       set_containerd_namespace set_controller_http_port set_host_root
       set_reconcile_interval_ms set_inflight_timeout_ms set_shutdown_timeout_ms
       set_stage_stop_timeout_ms set_websocket_write_timeout_ms set_actions_buffer_size
       set_enable_single_stage_pipeline in_mediamtx in_normalize in_scale_and_egress
       in_single_stage_egress container_id snapshot_id image_name logfile set_container_id
       set_snapshot_id set_image_name set_logfile no_config no_container].

Lemma spec_applied :
  forallb entry_ok g_env_spec = true -> fold_left apply_entry g_env_spec no_config = config_of.
Proof.
  unfold g_env_spec. intros H. cbn [fold_left].
  cbn [forallb] in H. repeat (apply andb_true_iff in H; destruct H as [? H]).
  rewrite !apply_guard. repeat run_entry.
  match goal with
  | E : entry_ok (EnvVar ?n ?g false ?x ?k (Some env_single_stage)) = true
    |- context [apply_entry ?c (EnvVar ?n ?g false ?x ?k (Some env_single_stage))] =>
      rewrite (apply_optional bool_of bind_bool _ env_single_stage n g x k c eq_refl E (bool_value n))
        by (run_sets; unfold bool_of; intros [-> | ->]; reflexivity)
  end.
  match goal with
  | E : entry_ok (EnvVar ?n ?g false ?x ?k (Some env_single_egress_id)) = true
    |- context [apply_entry ?c (EnvVar ?n ?g false ?x ?k (Some env_single_egress_id))] =>
      rewrite (apply_optional text_of (bind_str STRIM_CFG_ID_MAX) _ env_single_egress_id
                 n g x k c eq_refl E (bind_str_text _ n))
        by (intros Hn; rewrite (text_absent n Hn); run_sets; reflexivity)
  end.
  run_sets. reflexivity.
Qed.

Lemma load_config_cases (err_cap : Z) :
  if forallb entry_ok g_env_spec then load_config getenv err_cap = Some (0, config_of, [])
  else match load_config getenv err_cap with Some (rc, _, _) => rc = -1 | None => True end.
Proof.
  unfold load_config.
  pose proof (load_loop_spec err_cap g_env_spec no_config 0 [] spec_uniform) as H.
  pose proof spec_applied as Ha. destruct (forallb entry_ok g_env_spec).
  - rewrite H, Ha by done. done.
  - destruct (load_loop _ _ _ _ _ _) as [[[n c] e]|]; [|done].
    by rewrite (proj2 (Z.eqb_neq _ _)) by lia.
Qed.

(** C28: loading the configuration.  [load_config] succeeds exactly when every
    required variable of the specification is present and not empty and every
    present bound value is accepted by its binder, and then each field of the
    configuration is determined by its own variable alone: texts verbatim,
    durations, the buffer size and the feature toggle as their binders read
    them, an absent optional variable leaving the zero value, the shared
    image, snapshot and log variables reaching every stage they serve; the
    error text stays empty.  In every failing case it reports -1. *)
Theorem load_config_spec (err_cap : Z) :
  match load_config getenv err_cap with
  | Some (rc, cfg, err) =>
      if forallb entry_ok g_env_spec then rc = 0 /\ cfg = config_of /\ err = [] else rc = -1
  | None => forallb entry_ok g_env_spec = false
  end.
Proof.
  pose proof (load_config_cases err_cap) as H. destruct (forallb entry_ok g_env_spec).
  - by rewrite H.
  - by destruct (load_config getenv err_cap) as [[[? ?] ?]|].
Qed.

End Load.

(** ** -check-env *)
Lemma append_str_take (cap : Z) (a b : cstring) :
  1 <= cap ->
  append_str cap (take (Z.to_nat (cap - 1)) a) b = take (Z.to_nat (cap - 1)) (a ++ b).
Proof.
  intros Hc. unfold append_str, snprintf_str, strlen. rewrite take_app, length_take.
  f_equal. destruct (Nat.le_gt_cases (Z.to_nat (cap - 1)) (length a)).
  - rewrite Nat.min_l by lia. replace (Z.to_nat (cap - 1) - length a)%nat with 0%nat by lia.
    rewrite take_0. rewrite Z2Nat.id by lia. by replace (cap - (cap - 1) - 1) with 0 by lia.
  - rewrite Nat.min_r by lia. f_equal. lia.
Qed.

Definition missing (getenv : cstring -> option cstring) (v : strim_env_var) : bool :=
  required v && match getenv (name v) with None | Some [] => true | Some _ => false end.

Lemma check_fold (getenv : cstring -> option cstring) (err_cap : Z) (spec : list strim_env_var)
    (n : Z) (msg : cstring) :
  1 <= err_cap ->
  fold_left (check_step getenv err_cap) spec (n, take (Z.to_nat (err_cap - 1)) msg) =
  (n + Z.of_nat (length (List.filter (missing getenv) spec)),
   take (Z.to_nat (err_cap - 1))
     (msg ++ concat (map (fun v => lit "missing or empty: " ++ name v ++ nl)
                       (List.filter (missing getenv) spec)))).
Proof.
  intros Hc. revert n msg. induction spec as [|v spec IH]; intros n msg.
  { simpl. by rewrite Z.add_0_r, app_nil_r. }
  cbn [fold_left List.filter]. unfold check_step at 2.
  assert (Hm : missing getenv v =
    required v && match getenv (name v) with None | Some [] => true | Some _ => false end) by done.
  rewrite Hm. destruct (required v); cbn [negb andb]; [|apply IH].
  destruct (getenv (name v)) as [[|x raw]|]; [|apply IH|].
  all: rewrite append_str_take, IH by done; cbn [length map concat]; rewrite <- app_assoc; f_equal; lia.
Qed.

(** the environment check.  [check_env] returns 0 exactly when no
    required variable is missing or empty; its report is one line per such
    variable, in the order of the specification, cut to the buffer; and a
    configuration that loads always passes the check. *)
Theorem check_env_spec (getenv : cstring -> option cstring) (err_cap : Z) :
  1 <= err_cap ->
  let bad := List.filter (missing getenv) g_env_spec in
  check_env getenv err_cap =
    (if (length bad =? 0)%nat then 0 else -1,
     take (Z.to_nat (err_cap - 1))
       (concat (map (fun v => lit "missing or empty: " ++ name v ++ nl) bad))) /\
  (forall cap cfg err, load_config getenv cap = Some (0, cfg, err) ->
     (check_env getenv err_cap).1 = 0).
Proof.
  intros Hc. cbv zeta.
  assert (Hk : check_env getenv err_cap =
    (if (length (List.filter (missing getenv) g_env_spec) =? 0)%nat then 0 else -1,
     take (Z.to_nat (err_cap - 1))
       (concat (map (fun v => lit "missing or empty: " ++ name v ++ nl)
                  (List.filter (missing getenv) g_env_spec))))).
  { unfold check_env. pose proof (check_fold getenv err_cap g_env_spec 0 [] Hc) as Hf.
    rewrite take_nil in Hf. rewrite Hf. cbn [app]. f_equal.
    destruct (length _); [done|]. by rewrite (proj2 (Z.eqb_neq _ _)) by lia. }
  split; [done|]. intros cap cfg err Hl. rewrite Hk. cbn [fst].
  pose proof (load_config_cases getenv cap) as Hs. rewrite Hl in Hs.
  destruct (forallb (entry_ok getenv) g_env_spec) eqn:E; [|done].
  rewrite forallb_forall in E. clear -E. induction g_env_spec as [|v spec IH]; [done|].
  cbn [List.filter]. pose proof (E v ltac:(by left)) as Hv.
  assert (Hm : missing getenv v = false).
  { unfold missing, entry_ok in *. destruct (getenv (name v)) as [[|]|], (required v); done. }
  rewrite Hm. apply IH. intros x Hx. apply E. by right.
Qed.

(** The example file's environment, with a stream key. *)
Definition example_env (key : cstring) (n : cstring) : option cstring :=
  if streq n (lit "TWITCH_STREAM_KEY") then Some key
  else example <$> find_first (fun v => streq n (name v)) g_env_spec.

Lemma check_env_spec_witness :
  check_env (example_env []) 1024 = (-1, lit "missing or empty: TWITCH_STREAM_KEY" ++ nl).
Proof.
  destruct (check_env_spec (example_env []) 1024 ltac:(lia)) as [-> _]. vm_compute. reflexivity.
Defined.

(** The published example loads once a stream key is supplied. *)
Lemma example_config_loads :
  exists cfg, load_config (example_env (lit "k")) 1024 = Some (0, cfg, []) /\
    reconcile_interval_ms cfg = 5000 /\ inflight_timeout_ms cfg = 30000 /\
    shutdown_timeout_ms cfg = 30000 /\ stage_stop_timeout_ms cfg = 10000 /\
    websocket_write_timeout_ms cfg = 5000 /\ actions_buffer_size cfg = 16 /\
    enable_single_stage_pipeline cfg = false /\
    image_name (normalize cfg) = image_name (single_stage_egress cfg).
Proof. eexists. vm_compute. by split_and!. Qed.

(** ** Durations in doubles *)
Lemma decimal_app_le (ds : cstring) (v w : Z) :
  forallb is_digit ds = true -> 0 <= v ->
  fold_left (fun v c => v * 10 + digit c) ds v <= w -> v <= w.
Proof. intros Hd Hv Hw. pose proof (fold_decimal_ge ds v Hd Hv). lia. Qed.

Lemma go_whole_exact (ds rest : cstring) (x : double) (v : Z) (has : bool) :
  forallb is_digit ds = true -> starts_nondigit rest -> exact x v ->
  fold_left (fun v c => v * 10 + digit c) ds v < 2 ^ 53 ->
  exists y, go_whole (ds ++ rest) x has = (y, match ds with [] => has | _ => true end, rest) /\
            exact y (fold_left (fun v c => v * 10 + digit c) ds v).
Proof.
  revert x v has. induction ds as [|c ds IH]; intros x v has Hd Hr Hx Hv.
  - exists x. split; [|done]. destruct rest as [|c rest]; [done|]. cbn in Hr |- *. by rewrite Hr.
  - cbn [forallb] in Hd. apply andb_true_iff in Hd as [Hc Hd].
    pose proof (is_digit_range c Hc) as Hcr. pose proof (exact_range x v Hx) as Hxr.
    cbn [fold_left app go_whole] in *. rewrite Hc.
    pose proof (fold_decimal_ge ds (v * 10 + digit c) Hd ltac:(lia)) as Hge.
    destruct (IH (dbl_add (dbl_mul x (dbl_of_int 10)) (dbl_of_int (digit c)))
                (v * 10 + digit c) true Hd Hr) as (y & Hy & Hey); [|done|].
    { apply exact_add; [|apply dbl_of_int_exact; lia | lia].
      apply exact_mul; [done | by apply dbl_of_int_exact | lia]. }
    exists y. split; [|done]. rewrite Hy. by destruct ds.
Qed.

Lemma go_components_exact (cs : list (cstring * dunit)) (fuel : nat) (x : double) (v : Z) :
  cs <> [] -> Forall component_ok cs -> (length cs <= fuel)%nat -> exact x v ->
  v + duration_ns cs < 2 ^ 53 ->
  exists y, go_components fuel (duration_text cs) x = Some y /\ exact y (v + duration_ns cs).
Proof.
  revert fuel x v. induction cs as [|[ds u] cs IH]; intros fuel x v Hne Hok Hf Hx Hlt; [done|].
  apply Forall_cons in Hok as [[Hds Hd] Hok]. cbn [fst snd] in *.
  destruct fuel as [|fuel]; [simpl in Hf; lia|].
  cbn [duration_ns fst snd] in *. pose proof (unit_ns_pos u) as Hu.
  pose proof (duration_ns_nonneg cs Hok) as Hn. pose proof (exact_range x v Hx) as Hv.
  pose proof (fold_decimal_ge ds 0 Hd ltac:(lia)) as Hdec. fold (decimal ds) in Hdec.
  cbn [duration_text map concat fst snd]. fold (duration_text cs). rewrite <- app_assoc.
  destruct (go_whole_exact ds (unit_text u ++ duration_text cs) (dbl_of_int 0) 0 false Hd
              (unit_text_nondigit u _) ltac:(done)) as (w & Hw & Hew).
  { fold (decimal ds). nia. }
  fold (decimal ds) in Hew. cbn [go_components]. rewrite Hw.
  destruct (unit_text u ++ duration_text cs) as [|z zs] eqn:Ez; [by destruct u|].
  assert (Hz : (z =? chr ".") = false) by (destruct u; simplify_eq/=; done).
  rewrite Hz, <- Ez. destruct ds as [|d ds]; [done|]. cbn [negb].
  rewrite duration_unit_spec by (by apply duration_text_starts).
  assert (Hunit : exact (dbl_of_int (unit_ns u)) (unit_ns u)) by (apply dbl_of_int_exact; by destruct u).
  assert (Hsum : exact (dbl_add x (dbl_mul w (dbl_of_int (unit_ns u))))
                   (v + decimal (d :: ds) * unit_ns u)).
  { apply exact_add; [done | | nia]. apply exact_mul; [done..|nia]. }
  destruct cs as [|c cs].
  - cbn [duration_text map concat duration_ns] in *. eexists. split; [done|]. by rewrite Z.add_0_r.
  - destruct (duration_text (c :: cs)) as [|q qs] eqn:Eq.
    { exfalso. destruct c as [[|? ?] ?]; apply Forall_cons in Hok as [[? ?] ?]; done. }
    destruct (IH fuel _ _ ltac:(done) Hok ltac:(simpl in *; lia) Hsum ltac:(nia)) as (y & Hy & Hey).
    exists y. split; [done|]. by rewrite Z.add_assoc.
Qed.

Lemma duration_text_length (cs : list (cstring * dunit)) :
  Forall component_ok cs -> (length cs <= length (duration_text cs))%nat.
Proof.
  induction 1 as [|[ds u] cs [H _] _ IH]; [done|].
  cbn [duration_text map concat length fst snd] in *. rewrite !length_app.
  fold (duration_text cs). destruct ds; [done|]. simpl. lia.
Qed.

Lemma duration_text_head (cs : list (cstring * dunit)) :
  cs <> [] -> Forall component_ok cs ->
  exists c p, duration_text cs = c :: p /\ is_digit c = true /\ c <> chr "-" /\ c <> chr "+".
Proof.
  intros Hne Hok. pose proof (duration_text_starts cs Hok) as Hs.
  pose proof (duration_text_length cs Hok) as Hl.
  destruct (duration_text cs) as [|c p]; [destruct cs; [done|simpl in Hl; lia]|].
  exists c, p. split_and!; [done..| |]; intros ->; by vm_compute in Hs.
Qed.

(** The range test and the cast, on an exact total. *)
Lemma go_finish (y : double) (n : Z) (neg : bool) :
  exact y n ->
  let total := if neg then SFopp y else y in
  (if dbl_lt (dbl_of_int INT64_MAX) total || dbl_lt total (dbl_of_int (- 2 ^ 63))
   then Refused []
   else match dbl_to_int64 total with Some ns => Bound ns | None => Undefined end) =
  Bound (if neg then - n else n).
Proof.
  intros Hey. pose proof (exact_range y n Hey) as Hr.
  pose proof (exact_not_huge y n Hey) as (H1 & H2 & H3 & H4).
  change (dbl_of_int (2 ^ 63)) with (dbl_of_int INT64_MAX) in *. cbv zeta.
  destruct neg; [rewrite H3, H4 | rewrite H1, H2]; cbn [orb]; unfold dbl_to_int64;
    [rewrite (exact_opp_trunc y n Hey) | rewrite (exact_trunc y n Hey)];
    unfold INT64_MAX; by rewrite !(proj2 (Z.leb_le _ _)) by lia.
Qed.

Lemma parse_go_text (cs : list (cstring * dunit)) (sign : cstring) :
  cs <> [] -> Forall component_ok cs -> duration_ns cs < 2 ^ 53 ->
  sign = [] \/ sign = [chr "+"] \/ sign = [chr "-"] ->
  parse_go_duration (Some (sign ++ duration_text cs)) =
  Bound (if streq sign [chr "-"] then - duration_ns cs else duration_ns cs).
Proof.
  intros Hne Hok Hlt Hs.
  destruct (go_components_exact cs (length (duration_text cs)) (dbl_of_int 0) 0 Hne Hok
              (duration_text_length cs Hok) ltac:(done) ltac:(lia)) as (y & Hy & Hey).
  rewrite Z.add_0_l in Hey. destruct (duration_text_head cs Hne Hok) as (c & p & Ec & Hd & Hm & Hp).
  destruct Hs as [-> | [-> | ->]]; cbn [app]; unfold parse_go_duration; rewrite Ec in *.
  - rewrite (proj2 (Z.eqb_neq c _) Hm), (proj2 (Z.eqb_neq c _) Hp). cbn [orb]. rewrite Hy.
    exact (go_finish y _ false Hey).
  - change (chr "+" =? chr "-") with false. change (chr "+" =? chr "+") with true. cbn [orb].
    rewrite Hy.
    exact (go_finish y _ false Hey).
  - change (chr "-" =? chr "-") with true. rewrite orb_true_r, Hy. exact (go_finish y _ true Hey).
Qed.

Lemma bind_ms_rounds (raw : option cstring) (ns : Z) :
  parse_go_duration raw = Bound ns -> - 2 ^ 53 < ns < 2 ^ 53 ->
  bind_duration_ms raw BIND_ERR_CAP =
  Bound (if ns <? 0 then - ((- ns + 500000) / 1000000) else (ns + 500000) / 1000000).
Proof.
  intros Hp Hr. unfold bind_duration_ms, int64, INT64_MAX. rewrite Hp.
  destruct (Z.ltb_spec ns 0);
    repeat (rewrite (proj2 (Z.leb_le _ _)) by lia; cbn [andb]); done.
Qed.

Lemma whole_max_fits (cs : list (cstring * dunit)) :
  Forall component_ok cs -> duration_ns cs < 2 ^ 53 ->
  Forall (fun c => decimal c.1 <= WHOLE_MAX) cs.
Proof.
  intros Hok. induction Hok as [|[ds u] cs [Hds Hd] Hok IH]; intros Hlt; [done|].
  cbn [duration_ns fst snd] in *. pose proof (duration_ns_nonneg cs Hok).
  pose proof (unit_ns_pos u). pose proof (fold_decimal_ge ds 0 Hd ltac:(lia)) as Hdec.
  fold (decimal ds) in Hdec. assert (2 ^ 53 < WHOLE_MAX) by (by vm_compute).
  constructor; [cbn [fst]; nia | apply IH; nia].
Qed.

(** whole durations are exact.  For every sequence of "<digits><unit>"
    components below 2^53 nanoseconds (104 days), unsigned or signed, the
    double arithmetic of [parse_go_duration] never rounds: the result is the
    exact signed sum, and [bind_duration_ms] rounds it to the nearest
    millisecond, half away from zero.  The HTTP lane parses the same text
    (WEBSOCKET_WRITE_TIMEOUT goes through both) in integers and truncates, so
    the two agree exactly when the remainder is below half a millisecond. *)
Theorem go_duration_exact (cs : list (cstring * dunit)) :
  cs <> [] -> Forall component_ok cs -> duration_ns cs < 2 ^ 53 ->
  let text := duration_text cs in
  let ns := duration_ns cs in
  parse_go_duration (Some text) = Bound ns /\
  parse_go_duration (Some (chr "+" :: text)) = Bound ns /\
  parse_go_duration (Some (chr "-" :: text)) = Bound (- ns) /\
  bind_duration_ms (Some text) BIND_ERR_CAP = Bound ((ns + 500000) / 1000000) /\
  bind_duration_ms (Some (chr "-" :: text)) BIND_ERR_CAP = Bound (- ((ns + 500000) / 1000000)) /\
  (bind_duration_ms (Some text) BIND_ERR_CAP =
   match parse_duration_ms (Some text) with Some ms => Bound ms | None => Undefined end
   <-> ns mod 1000000 < 500000).
Proof.
  intros Hne Hok Hlt. cbv zeta. pose proof (duration_ns_nonneg cs Hok) as Hn.
  pose proof (parse_go_text cs [] Hne Hok Hlt ltac:(auto)) as H0.
  pose proof (parse_go_text cs [chr "+"] Hne Hok Hlt ltac:(auto)) as H1.
  pose proof (parse_go_text cs [chr "-"] Hne Hok Hlt ltac:(auto)) as H2. cbn [app] in *.
  change (streq [] [chr "-"]) with false in H0. change (streq [chr "+"] [chr "-"]) with false in H1.
  change (streq [chr "-"] [chr "-"]) with true in H2.
  pose proof (bind_ms_rounds _ _ H0 ltac:(lia)) as B0.
  pose proof (bind_ms_rounds _ _ H2 ltac:(lia)) as B2.
  rewrite (proj2 (Z.ltb_ge _ _)) in B0 by lia. rewrite Z.opp_involutive in B2.
  split_and!; [done..| |].
  - rewrite B2. destruct (Z.ltb_spec (- duration_ns cs) 0); [done|].
    by replace (duration_ns cs) with 0 by lia.
  - rewrite B0, parse_duration_sums by (done || by apply whole_max_fits).
    rewrite (proj2 (Z.leb_le _ _)) by (unfold UINT64_MAX; lia).
    pose proof (Z.div_mod (duration_ns cs) 1000000 ltac:(done)) as Hdm.
    pose proof (Z.mod_pos_bound (duration_ns cs) 1000000 ltac:(done)).
    pose proof (Z.div_mod (duration_ns cs + 500000) 1000000 ltac:(done)).
    pose proof (Z.mod_pos_bound (duration_ns cs + 500000) 1000000 ltac:(done)).
    split; [intros [= He]; lia | intros Hr; f_equal; lia].
Qed.

Lemma go_duration_exact_witness :
  bind_duration_ms (Some (lit "1m30s250ms700us")) BIND_ERR_CAP = Bound 90251.
Proof.
  refine (proj1 (proj2 (proj2 (proj2
    (go_duration_exact [(lit "1", UM); (lit "30", US); (lit "250", UMs); (lit "700", UUs)] _ _ _))))).
  - done.
  - repeat constructor; done.
  - done.
Defined.

(** Outside the exact range: the addition that rounds to milliseconds
    overflows [int64_t] near its limit, and [strtoul] lets a negated 64-bit
    number through as a buffer size. *)
Lemma bind_anomalies :
  bind_duration_ms (Some (lit "9223372036854775295ns")) BIND_ERR_CAP = Undefined /\
  bind_uint8 (Some (lit "-18446744073709551600")) BIND_ERR_CAP = Bound 16.
Proof. by vm_compute. Qed.
