(* ===== verification/DurationFacts.v ===== *)
(** * Printed durations read back

    [go_duration_ms] prints the way Go's time.Duration does; the HTTP lane's
    integer duration parser reads the printed text back to the same number of
    milliseconds, for every duration whose nanoseconds fit 64 bits. *)

From S2P Require Import Prelude Http HttpFacts Double Config.

(** ** Decimal digits *)
Lemma dec_digits_app (fuel : nat) (v : Z) (tail : cstring) :
  dec_digits fuel v tail = dec_digits fuel v [] ++ tail.
Proof.
  revert v tail. induction fuel as [|f IH]; intros v tail; cbn [dec_digits]; [done|].
  destruct (0 <? v); [|done]. rewrite IH, (IH _ [_]), <- app_assoc. done.
Qed.

Lemma fold_decimal_snoc (ds : cstring) (c v : Z) :
  fold_left (fun v c => v * 10 + digit c) (ds ++ [c]) v =
  fold_left (fun v c => v * 10 + digit c) ds v * 10 + digit c.
Proof. by rewrite fold_left_app. Qed.

Lemma digit_char (d : Z) : 0 <= d <= 9 -> is_digit (chr "0" + d) = true /\ digit (chr "0" + d) = d.
Proof.
  intros Hd. unfold is_digit, digit. change (chr "0") with 48. change (chr "9") with 57.
  split; [|lia]. apply andb_true_iff. rewrite !Z.leb_le. lia.
Qed.

Lemma dec_digits_spec (k fuel : nat) (v : Z) :
  0 <= v < 10 ^ Z.of_nat k -> (k <= fuel)%nat ->
  let ds := dec_digits fuel v [] in
  forallb is_digit ds = true /\ decimal ds = v /\ (length ds <= k)%nat /\ (0 < v -> ds <> []).
Proof.
  revert fuel v. induction k as [|k IH]; intros fuel v Hv Hf; cbv zeta.
  { replace v with 0 by (simpl in Hv; lia). destruct fuel; split_and!; done || lia. }
  destruct fuel as [|fuel]; [lia|]. cbn [dec_digits].
  destruct (Z.ltb_spec 0 v); [|replace v with 0 by lia; split_and!; done || (simpl; lia)].
  pose proof (Z.mod_pos_bound v 10 ltac:(lia)) as Hm.
  pose proof (Z.div_mod v 10 ltac:(lia)) as Hdm.
  rewrite Nat2Z.inj_succ, Z.pow_succ_r in Hv by lia.
  destruct (IH fuel (v / 10)) as (H1 & H2 & H3 & _); [|lia|].
  { split; [apply Z.div_pos; lia | apply Z.div_lt_upper_bound; lia]. }
  destruct (digit_char (v mod 10) ltac:(lia)) as [Hc1 Hc2].
  rewrite dec_digits_app. split_and!.
  - rewrite forallb_app, H1. cbn [forallb]. by rewrite Hc1.
  - unfold decimal in *. rewrite fold_decimal_snoc, Hc2, H2. lia.
  - rewrite length_app. simpl. lia.
  - intros _ Hn. by destruct (dec_digits fuel (v / 10) []).
Qed.

(** The text of an integer, as a component of a duration. *)
Definition int_text (v : Z) : cstring := go_duration_int [] v.

Lemma go_duration_int_app (tail : cstring) (v : Z) :
  go_duration_int tail v = int_text v ++ tail.
Proof. unfold int_text, go_duration_int. destruct (v =? 0); [done | apply dec_digits_app]. Qed.

Lemma int_text_spec (k : nat) (v : Z) :
  0 <= v < 10 ^ Z.of_nat k -> (1 <= k <= 20)%nat ->
  forallb is_digit (int_text v) = true /\ decimal (int_text v) = v /\
  (length (int_text v) <= k)%nat /\ int_text v <> [].
Proof.
  intros Hv Hk. unfold int_text, go_duration_int. destruct (Z.eqb_spec v 0) as [->|Hn].
  - split_and!; [done | done | simpl; lia | done].
  - destruct (dec_digits_spec k 20 v Hv ltac:(lia)) as (H1 & H2 & H3 & H4).
    split_and!; [done..|]. apply H4. lia.
Qed.

(** ** Fractions *)
Lemma frac_loop_mod (prec : nat) (v : Z) (print : bool) (tail : cstring) :
  0 <= v ->
  frac_loop prec v print tail =
  let '(_, p, t) := frac_loop prec (v mod 10 ^ Z.of_nat prec) print tail in
  (v / 10 ^ Z.of_nat prec, p, t).
Proof.
  revert v print tail. induction prec as [|prec IH]; intros v print tail Hv; cbn [frac_loop].
  { by rewrite Z.div_1_r. }
  rewrite Nat2Z.inj_succ, Z.pow_succ_r by lia. set (q := 10 ^ Z.of_nat prec).
  assert (Hq : 0 < q) by (unfold q; lia).
  assert (Hm : (v mod (10 * q)) mod 10 = v mod 10).
  { rewrite Z.rem_mul_r, (Z.mul_comm 10 (_ mod q)), Z_mod_plus_full, Zmod_mod by lia. done. }
  assert (Hd : (v mod (10 * q)) / 10 = v / 10 mod q).
  { rewrite Z.rem_mul_r, (Z.mul_comm 10 (_ mod q)), Z.div_add by lia.
    rewrite (Z.div_small (v mod 10)) by (apply Z.mod_pos_bound; lia). lia. }
  rewrite Hm, Hd, IH by (apply Z.div_pos; lia). fold q.
  assert (Hmm : (v / 10 mod q) mod q = v / 10 mod q) by apply Zmod_mod.
  rewrite (IH (v / 10 mod q)) by (apply Z.mod_pos_bound; done). fold q. rewrite Hmm.
  destruct (frac_loop _ _ _ _) as [[? ?] ?]. by rewrite Z.div_div by lia.
Qed.

(** What the parser needs of the fraction text of [k] milliseconds: read back
    it is [k] milliseconds, in at most four characters. *)
Definition frac_text (k : Z) : cstring := (go_duration_frac (lit "s") (k * 1000000) 9).2.

Definition frac_reads (k : Z) : bool :=
  match frac_text k with
  | c :: p =>
      negb (is_digit c) && (length (frac_text k) <=? 5)%nat &&
      if c =? chr "."
      then let '(frac, n, has, p2) := frac_digits p 0 0 true in
           has && streq p2 (lit "s") && (0 <? n)%nat && (frac_ns frac NS_S n =? k * 1000000)
      else streq (c :: p) (lit "s") && (k =? 0)
  | [] => false
  end.

Lemma frac_reads_all (k : Z) : 0 <= k < 1000 -> frac_reads k = true.
Proof.
  intros Hk. assert (H : forallb (fun n => frac_reads (Z.of_nat n)) (seq 0 1000) = true)
    by (vm_compute; reflexivity).
  rewrite forallb_forall in H. rewrite <- (Z2Nat.id k) by lia. apply H, in_seq. lia.
Qed.

(** ** One component of the parser's loop *)
Lemma loop_step (ds : cstring) (u : dunit) (rest : cstring) (fuel : nat) (total : Z) :
  ds <> [] -> forallb is_digit ds = true -> starts_digit rest -> 0 <= total ->
  total + decimal ds * unit_ns u <= UINT64_MAX - 9 ->
  duration_loop (S fuel) (ds ++ unit_text u ++ rest) total =
  duration_loop fuel rest (total + decimal ds * unit_ns u).
Proof.
  intros Hne Hd Hr Ht Hle. pose proof (unit_ns_pos u) as Hu.
  pose proof (fold_decimal_ge ds 0 Hd ltac:(lia)) as Hdec. fold (decimal ds) in Hdec.
  pose proof (whole_digits_spec ds (unit_text u ++ rest) 0 false Hd
                (unit_text_nondigit u _) ltac:(by vm_compute)) as Hw.
  cbv zeta in Hw. fold (decimal ds) in Hw.
  rewrite (proj2 (Z.leb_le _ _)) in Hw
    by (transitivity (UINT64_MAX - 9); [nia | by vm_compute]).
  destruct ds as [|d ds]; [done|]. cbn [app] in *. cbn [duration_loop]. rewrite Hw.
  destruct (unit_text u ++ rest) as [|x xs] eqn:Ex; [by destruct u|].
  assert (Hx : (x =? chr ".") = false) by (destruct u; simplify_eq/=; done).
  rewrite Hx, <- Ex. cbn [negb]. rewrite duration_unit_spec by done.
  rewrite (proj2 (Z.ltb_ge _ _)); [done|]. apply Z.div_le_lower_bound; nia.
Qed.

(** The seconds component, with the fraction that ends the text. *)
Lemma loop_seconds (s k : Z) (fuel : nat) (total : Z) :
  0 <= s < 60 -> 0 <= k < 1000 -> 0 <= total -> total + s * NS_S + k * 1000000 <= UINT64_MAX - 9 ->
  duration_loop (S fuel) (int_text s ++ frac_text k) total =
  Some (total + s * NS_S + k * 1000000).
Proof.
  intros Hs Hk Ht Hle. pose proof (frac_reads_all k Hk) as Hr. unfold frac_reads in Hr.
  destruct (int_text_spec 2 s ltac:(simpl; lia) ltac:(lia)) as (Hd & Hv & _ & Hne).
  destruct (frac_text k) as [|c p] eqn:Ef; [done|].
  apply andb_true_iff in Hr as [[Hc _]%andb_true_iff Hr]. apply negb_true_iff in Hc.
  pose proof (whole_digits_spec (int_text s) (c :: p) 0 false Hd Hc ltac:(by vm_compute)) as Hw.
  cbv zeta in Hw. fold (decimal (int_text s)) in Hw. rewrite Hv in Hw.
  rewrite (proj2 (Z.leb_le _ _)) in Hw by (transitivity 60; [lia | by vm_compute]).
  destruct (int_text s) as [|d ds]; [done|]. cbn [app] in *. cbn [duration_loop]. rewrite Hw.
  assert (Hdiv : ((UINT64_MAX - total) / NS_S <? s) = false).
  { apply Z.ltb_ge, Z.div_le_lower_bound; [done|]. unfold UINT64_MAX in *. lia. }
  assert (Hu : duration_unit (lit "s") = Some (NS_S, [])) by done.
  destruct (c =? chr ".") eqn:Edot.
  - destruct (frac_digits p 0 0 true) as [[[f n] h] p2].
    apply andb_true_iff in Hr as [[[-> ->%streq_true]%andb_true_iff Hn]%andb_true_iff Hf%Z.eqb_eq].
    rewrite Hu, Hdiv, Hn, Hf. cbn [negb].
    rewrite wrap_small by (unfold UINT64_MAX, NS_S in *; lia). by destruct fuel.
  - apply andb_true_iff in Hr as [Hp%streq_true ->%Z.eqb_eq].
    rewrite Hp, Hu, Hdiv. cbn [negb Nat.ltb Nat.leb].
    rewrite Z.mul_0_l, Z.add_0_r. by destruct fuel.
Qed.

(** ** The printed text *)

(** The text of [ms] milliseconds from a second on, in its components. *)
Definition long_text (ms : Z) : cstring :=
  let secs := ms / 1000 in
  let mins := secs / 60 in
  let hours := mins / 60 in
  (if 0 <? hours then int_text hours ++ lit "h" else []) ++
  (if 0 <? mins then int_text (mins mod 60) ++ lit "m" else []) ++
  int_text (secs mod 60) ++ frac_text (ms mod 1000).

Lemma go_duration_long (ms : Z) :
  1000 <= ms -> go_duration_text (ms * 1000000) = long_text ms.
Proof.
  intros Hms. unfold go_duration_text. rewrite (proj2 (Z.ltb_ge _ _)) by lia.
  assert (Hf : go_duration_frac (lit "s") (ms * 1000000) 9 = (ms / 1000, frac_text (ms mod 1000))).
  { unfold frac_text, go_duration_frac. rewrite frac_loop_mod by lia.
    change (10 ^ Z.of_nat 9) with (1000 * 1000000).
    rewrite Z.mul_mod_distr_r, Z.div_mul_cancel_r by lia.
    destruct (frac_loop 9 (ms mod 1000 * 1000000) false (lit "s")) as [[? ?] ?]. done. }
  rewrite Hf. unfold long_text. rewrite !go_duration_int_app. cbv zeta.
  destruct (Z.ltb_spec 0 (ms / 1000 / 60)) as [Hm|Hm].
  - destruct (0 <? ms / 1000 / 60 / 60); cbn [app]; rewrite <- ?app_assoc; done.
  - rewrite (proj2 (Z.ltb_ge _ _)); [done|].
    apply Z.div_le_upper_bound; lia.
Qed.

Lemma go_duration_short (ms : Z) :
  0 < ms < 1000 -> go_duration_text (ms * 1000000) = int_text ms ++ lit "ms".
Proof.
  intros Hms. unfold go_duration_text. rewrite (proj2 (Z.ltb_lt _ _)) by lia.
  rewrite !(proj2 (Z.ltb_ge _ _)) by lia. unfold go_duration_frac. rewrite frac_loop_mod by lia.
  change (10 ^ Z.of_nat 6) with 1000000. rewrite Z.mod_mul, Z.div_mul by done.
  cbn [frac_loop Z.modulo]. apply go_duration_int_app.
Qed.

Lemma int_text_starts (v : Z) (rest : cstring) :
  0 <= v < 10 ^ 20 -> starts_digit (int_text v ++ rest) /\ int_text v <> [].
Proof.
  intros Hv. destruct (int_text_spec 20 v Hv ltac:(lia)) as (Hd & _ & _ & Hne).
  split; [|done]. destruct (int_text v) as [|c ds]; [done|]. cbn in *.
  apply andb_true_iff in Hd. apply Hd.
Qed.

(** Splitting milliseconds into the printed parts. *)
Lemma ms_parts (ms : Z) :
  0 <= ms ->
  let secs := ms / 1000 in let mins := secs / 60 in let hours := mins / 60 in
  0 <= hours /\ 0 <= mins /\ 0 <= mins mod 60 < 60 /\ 0 <= secs mod 60 < 60 /\
  0 <= ms mod 1000 < 1000 /\ mins = hours * 60 + mins mod 60 /\
  ms * 1000000 = mins * NS_M + secs mod 60 * NS_S + ms mod 1000 * 1000000.
Proof.
  intros Hms. cbv zeta. unfold NS_M, NS_S.
  pose proof (Z.div_mod ms 1000 ltac:(done)). pose proof (Z.mod_pos_bound ms 1000 ltac:(done)).
  pose proof (Z.div_mod (ms / 1000) 60 ltac:(done)).
  pose proof (Z.mod_pos_bound (ms / 1000) 60 ltac:(done)).
  pose proof (Z.div_mod (ms / 1000 / 60) 60 ltac:(done)).
  pose proof (Z.mod_pos_bound (ms / 1000 / 60) 60 ltac:(done)). lia.
Qed.

Lemma long_text_reads (ms : Z) (fuel : nat) :
  1000 <= ms -> ms * 1000000 <= UINT64_MAX - 9 ->
  duration_loop (S (S (S fuel))) (long_text ms) 0 = Some (ms * 1000000).
Proof.
  intros Hlo Hhi. unfold long_text. destruct (ms_parts ms ltac:(lia)) as (Hh0 & Hm0 & Hm & Hs & Hk & Hmm & Hsum).
  set (secs := ms / 1000) in *. set (mins := secs / 60) in *. set (hours := mins / 60) in *.
  cbv zeta. unfold UINT64_MAX in Hhi.
  assert (Hbig : hours < 10 ^ 20) by (unfold NS_M, NS_S in Hsum; lia).
  destruct (int_text_spec 20 hours ltac:(simpl; lia) ltac:(lia)) as (Hhd & Hhv & _ & Hhn).
  destruct (int_text_spec 2 (mins mod 60) ltac:(simpl; lia) ltac:(lia)) as (Hmd & Hmv & _ & Hmn).
  pose proof (fun r => proj1 (int_text_starts (mins mod 60) r ltac:(lia))) as Hms.
  pose proof (fun r => proj1 (int_text_starts (secs mod 60) r ltac:(lia))) as Hss.
  destruct (Z.ltb_spec 0 hours).
  - rewrite (proj2 (Z.ltb_lt 0 mins)) by lia. rewrite <- !app_assoc.
    change (lit "h") with (unit_text UH). change (lit "m") with (unit_text UM).
    rewrite (loop_step _ UH), (loop_step _ UM) by
      (done || lia || (rewrite ?Hhv, ?Hmv; cbn [unit_ns]; unfold NS_M, NS_H, NS_S, UINT64_MAX in *; lia)).
    rewrite Hhv, Hmv. cbn [unit_ns].
    rewrite loop_seconds by (done || (unfold NS_M, NS_H, NS_S, UINT64_MAX in *; lia)).
    f_equal. unfold NS_M, NS_H, NS_S in *. lia.
  - replace hours with 0 in * by lia. cbn [app]. destruct (Z.ltb_spec 0 mins).
    + rewrite <- !app_assoc. change (lit "m") with (unit_text UM).
      rewrite (loop_step _ UM) by
        (done || lia || (rewrite ?Hmv; cbn [unit_ns]; unfold NS_M, NS_S, UINT64_MAX in *; lia)).
      rewrite Hmv. cbn [unit_ns].
      rewrite loop_seconds by (done || (unfold NS_M, NS_S, UINT64_MAX in *; lia)).
      f_equal. unfold NS_M, NS_S in *. lia.
    + cbn [app]. rewrite loop_seconds by (done || (unfold NS_M, NS_S, UINT64_MAX in *; lia)).
      f_equal. unfold NS_M, NS_S in *. lia.
Qed.

Lemma frac_text_length (k : Z) : 0 <= k < 1000 -> (1 <= length (frac_text k) <= 5)%nat.
Proof.
  intros Hk. pose proof (frac_reads_all k Hk) as H. unfold frac_reads in H.
  destruct (frac_text k) as [|c p] eqn:E; [done|]. rewrite <- E in *.
  apply andb_true_iff in H as [[_ H%Nat.leb_le]%andb_true_iff _]. rewrite E in *. simpl in *. lia.
Qed.

Lemma long_text_length (ms : Z) :
  1000 <= ms -> ms * 1000000 <= UINT64_MAX - 9 -> (2 <= length (long_text ms) <= 20)%nat.
Proof.
  intros Hlo Hhi. unfold long_text. destruct (ms_parts ms ltac:(lia)) as (Hh0 & Hm0 & Hm & Hs & Hk & Hmm & Hsum).
  set (secs := ms / 1000) in *. set (mins := secs / 60) in *. set (hours := mins / 60) in *.
  cbv zeta. unfold UINT64_MAX, NS_M, NS_S in *.
  destruct (int_text_spec 7 hours ltac:(simpl; lia) ltac:(lia)) as (_ & _ & H1 & _).
  destruct (int_text_spec 2 (mins mod 60) ltac:(simpl; lia) ltac:(lia)) as (_ & _ & H2 & _).
  destruct (int_text_spec 2 (secs mod 60) ltac:(simpl; lia) ltac:(lia)) as (_ & _ & H3 & Hn).
  pose proof (frac_text_length (ms mod 1000) ltac:(lia)).
  assert (1 <= length (int_text (secs mod 60)))%nat by (destruct (int_text (secs mod 60)); [done|simpl; lia]).
  destruct (0 <? hours), (0 <? mins); rewrite !length_app; cbn [length]; rewrite ?length_app; simpl; lia.
Qed.

(** The text of every positive duration and what the parser makes of it. *)
Lemma go_duration_text_reads (ms : Z) :
  0 < ms -> ms * 1000000 <= UINT64_MAX - 9 ->
  exists c p, go_duration_text (ms * 1000000) = c :: p /\ is_digit c = true /\
    (length (c :: p) <= 20)%nat /\
    duration_loop (S (length (c :: p))) (c :: p) 0 = Some (ms * 1000000).
Proof.
  intros H0 Hhi. destruct (Z.lt_ge_cases ms 1000) as [Hs|Hl].
  - rewrite go_duration_short by lia.
    destruct (int_text_spec 3 ms ltac:(simpl; lia) ltac:(lia)) as (Hd & Hv & Hlen & Hne).
    pose proof (loop_step (int_text ms) UMs [] (length (int_text ms ++ lit "ms")) 0 Hne Hd I
                  ltac:(lia)) as Hl. rewrite Hv, app_nil_r in Hl. cbn [unit_ns] in Hl.
    specialize (Hl ltac:(unfold NS_MS, UINT64_MAX; lia)).
    destruct (int_text ms) as [|c ds]; [done|]. exists c, (ds ++ lit "ms"). cbn [app] in *.
    cbn in Hd. apply andb_true_iff in Hd as [Hd _]. split_and!; [done..| |].
    + simpl in *. rewrite length_app. simpl. lia.
    + change (unit_text UMs) with (lit "ms") in Hl. rewrite Hl. done.
  - rewrite go_duration_long by lia. pose proof (long_text_length ms Hl Hhi) as Hlen.
    assert (Hd : starts_digit (long_text ms)).
    { unfold long_text. destruct (ms_parts ms ltac:(lia)) as (? & ? & ? & ? & ? & ? & Hsum).
      cbv zeta. unfold UINT64_MAX, NS_M, NS_S in *.
      destruct (0 <? _); [rewrite <- app_assoc; apply int_text_starts; lia|].
      destruct (0 <? _); cbn [app]; rewrite <- ?app_assoc; apply int_text_starts; lia. }
    pose proof (long_text_reads ms (length (long_text ms) - 2) Hl Hhi) as Hr.
    replace (S (S (S (length (long_text ms) - 2)))) with (S (length (long_text ms))) in Hr by lia.
    destruct (long_text ms) as [|c p]; [simpl in Hlen; lia|]. exists c, p.
    split_and!; [done..| lia | done].
Qed.

(** printed durations read back.  For every non-negative duration whose
    nanoseconds fit 64 bits, [go_duration_ms] with the stop path's 32-byte
    buffer prints at most 20 characters (so it never falls back to "0s") and
    the HTTP lane's parser reads the text back to the same milliseconds; a
    negative duration prints as a minus sign and the text of its magnitude. *)
Theorem go_duration_roundtrip (ms : Z) :
  0 <= ms -> ms * 1000000 <= UINT64_MAX - 9 ->
  parse_duration_ms (Some (go_duration_ms ms 32)) = Some ms /\
  strlen (go_duration_ms ms 32) <= 20 /\
  (0 < ms -> go_duration_ms (- ms) 32 = chr "-" :: go_duration_ms ms 32).
Proof.
  intros H0 Hhi. destruct (decide (ms = 0)) as [->|Hn].
  { split_and!; [by vm_compute | by vm_compute | lia]. }
  destruct (go_duration_text_reads ms ltac:(lia) Hhi) as (c & p & Ht & Hd & Hlen & Hl).
  assert (Hp : go_duration_ms ms 32 = c :: p).
  { unfold go_duration_ms. rewrite (proj2 (Z.eqb_neq ms 0)), (proj2 (Z.ltb_ge ms 0)) by lia.
    rewrite Z.abs_eq, wrap_small, Ht by (unfold UINT64_MAX in *; lia).
    rewrite (proj2 (Z.ltb_lt _ _)) by (unfold strlen; lia). done. }
  rewrite Hp. split_and!; [|unfold strlen; lia|].
  - unfold parse_duration_ms.
    assert (Hm : (c =? chr "-") = false) by (apply Z.eqb_neq; intros ->; by vm_compute in Hd).
    assert (Hq : (c =? chr "+") = false) by (apply Z.eqb_neq; intros ->; by vm_compute in Hd).
    rewrite Hm, Hq, Hl. f_equal. by rewrite Z.div_mul.
  - intros _. unfold go_duration_ms. rewrite (proj2 (Z.eqb_neq (- ms) 0)), (proj2 (Z.ltb_lt (- ms) 0)) by lia.
    rewrite Z.abs_opp, Z.abs_eq, wrap_small, Ht by (unfold UINT64_MAX in *; lia).
    rewrite (proj2 (Z.ltb_lt _ _)) by (unfold strlen; simpl in *; lia). done.
Qed.

Lemma go_duration_roundtrip_witness :
  go_duration_ms 5430250 32 = lit "1h30m30.25s" /\
  parse_duration_ms (Some (go_duration_ms 5430250 32)) = Some 5430250.
Proof.
  split; [by vm_compute|]. apply (go_duration_roundtrip 5430250); unfold UINT64_MAX; lia.
Defined.
