(* ===== verification/Json.v ===== *)
(** * JSON values and text

    The values yyjson hands to the program (the parser itself is third-party
    and stays a parameter), the accessors the program uses on them, and a
    reference printer and reader for compact JSON text: what the spec builder
    writes is compared with the printer, and the reader shows that the text
    determines the document. *)

From S2P Require Import Prelude Http Double Config.

(** ** Values *)

(** Integers are those yyjson keeps as 64-bit integers, unsigned or signed;
    any other number is real. *)
Inductive jval :=
  | JNull
  | JBool (b : bool)
  | JInt (z : Z)
  | JReal
  | JStr (s : bytes)
  | JArr (items : list jval)
  | JObj (members : list (bytes * jval)).

(** The first member with the key. *)
Definition yyjson_obj_get (root : jval) (key : cstring) : option jval :=
  match root with
  | JObj ms => snd <$> find_first (fun m => streq m.1 key) ms
  | _ => None
  end.

(** Induction with the hypothesis for the items and the members. *)
Definition jval_nested_ind (P : jval -> Prop)
    (fnull : P JNull) (fbool : forall b, P (JBool b)) (fint : forall z, P (JInt z)) (freal : P JReal)
    (fstr : forall s, P (JStr s)) (farr : forall l, Forall P l -> P (JArr l))
    (fobj : forall ms, Forall (fun m => P m.2) ms -> P (JObj ms)) : forall j, P j :=
  fix go (j : jval) : P j :=
    match j with
    | JNull => fnull
    | JBool b => fbool b
    | JInt z => fint z
    | JReal => freal
    | JStr s => fstr s
    | JArr l =>
        farr l ((fix items (l : list jval) : Forall P l :=
          match l with [] => Forall_nil_2 P | x :: l' => Forall_cons_2 P x l' (go x) (items l') end) l)
    | JObj ms =>
        fobj ms ((fix members (ms : list (bytes * jval)) : Forall (fun m => P m.2) ms :=
          match ms with
          | [] => Forall_nil_2 _
          | m :: ms' => Forall_cons_2 (fun m => P m.2) m ms' (go m.2) (members ms')
          end) ms)
    end.

(** ** Printing *)

Definition hex_char (d : Z) : Z := if d <? 10 then chr "0" + d else chr "a" + (d - 10).

(** A byte inside a JSON string. *)
Definition quoted_byte (c : Z) : bytes :=
  if c =? 34 then lit "\" ++ [34]
  else if c =? 92 then lit "\\"
  else if c =? 8 then lit "\b"
  else if c =? 12 then lit "\f"
  else if c =? 10 then lit "\n"
  else if c =? 13 then lit "\r"
  else if c =? 9 then lit "\t"
  else if c <? 0x20 then lit "\u00" ++ [hex_char (c / 16); hex_char (c mod 16)]
  else [c].

Definition quoted (s : bytes) : bytes := [34] ++ concat (map quoted_byte s) ++ [34].

Definition fmt_i64 (z : Z) : cstring := if z <? 0 then chr "-" :: fmt_u64 (- z) else fmt_u64 z.

Definition comma : Z := 44.

(** The pieces with a comma between neighbours. *)
Fixpoint commas (ps : list bytes) : bytes :=
  match ps with
  | [] => []
  | [p] => p
  | p :: ps' => p ++ comma :: commas ps'
  end.

Fixpoint render (j : jval) : bytes :=
  match j with
  | JNull => lit "null"
  | JBool b => if b then lit "true" else lit "false"
  | JInt z => fmt_i64 z
  | JReal => lit "0.0"
  | JStr s => quoted s
  | JArr l => [91] ++ commas (map render l) ++ [93]
  | JObj ms => [123] ++ commas (map (fun m => quoted m.1 ++ [58] ++ render m.2) ms) ++ [125]
  end.

(** The same with another spelling of the bytes of strings. *)
Section Printing.
Variable spell : Z -> bytes.

Definition quote_with (s : bytes) : bytes := [34] ++ concat (map spell s) ++ [34].

Fixpoint render_with (j : jval) : bytes :=
  match j with
  | JNull => lit "null"
  | JBool b => if b then lit "true" else lit "false"
  | JInt z => fmt_i64 z
  | JReal => lit "0.0"
  | JStr s => quote_with s
  | JArr l => [91] ++ commas (map render_with l) ++ [93]
  | JObj ms => [123] ++ commas (map (fun m => quote_with m.1 ++ [58] ++ render_with m.2) ms) ++ [125]
  end.

End Printing.

(** ** Reading *)

Definition unescape (e : Z) : option Z :=
  if e =? 34 then Some 34
  else if e =? 92 then Some 92
  else if e =? 47 then Some 47
  else if e =? chr "b" then Some 8
  else if e =? chr "f" then Some 12
  else if e =? chr "n" then Some 10
  else if e =? chr "r" then Some 13
  else if e =? chr "t" then Some 9
  else None.

Definition hex_value (c : Z) : option Z :=
  if is_digit c then Some (digit c)
  else if (chr "a" <=? c) && (c <=? chr "f") then Some (c - chr "a" + 10)
  else None.

Definition hex4 (a b c d : Z) : option Z :=
  match hex_value a, hex_value b, hex_value c, hex_value d with
  | Some a, Some b, Some c, Some d => Some (((a * 16 + b) * 16 + c) * 16 + d)
  | _, _, _, _ => None
  end.

(** The string after its opening quote; a unicode escape must be ASCII. *)
Fixpoint read_string (t : bytes) : option (bytes * bytes) :=
  match t with
  | [] => None
  | c :: t1 =>
      if c =? 34 then Some ([], t1)
      else if c =? 92 then
        match t1 with
        | [] => None
        | e :: t2 =>
            if e =? chr "u" then
              match t2 with
              | a :: b :: x :: d :: t3 =>
                  match hex4 a b x d, read_string t3 with
                  | Some v, Some (s, r) => if v <? 128 then Some (v :: s, r) else None
                  | _, _ => None
                  end
              | _ => None
              end
            else match unescape e, read_string t2 with
                 | Some v, Some (s, r) => Some (v :: s, r)
                 | _, _ => None
                 end
        end
      else if c <? 0x20 then None
      else match read_string t1 with Some (s, r) => Some (c :: s, r) | None => None end
  end.

Definition read_digits (t : bytes) : option (Z * bytes) :=
  let '(v, has, r) := ul_digits t 0 false in if has then Some (v, r) else None.

Definition read_number (t : bytes) : option (jval * bytes) :=
  match t with
  | c :: t' =>
      if c =? chr "-" then match read_digits t' with Some (v, r) => Some (JInt (- v), r) | None => None end
      else match read_digits t with Some (v, r) => Some (JInt v, r) | None => None end
  | [] => None
  end.

(** A value and the text after it; the fuel bounds the nesting and the
    number of items. *)
Fixpoint read_value (fuel : nat) (t : bytes) : option (jval * bytes) :=
  match fuel with
  | O => None
  | S f =>
      if starts_with (lit "null") t then Some (JNull, drop 4 t)
      else if starts_with (lit "true") t then Some (JBool true, drop 4 t)
      else if starts_with (lit "false") t then Some (JBool false, drop 5 t)
      else match t with
      | c :: t1 =>
          if c =? 34 then match read_string t1 with Some (s, r) => Some (JStr s, r) | None => None end
          else if c =? 91 then
            if starts_with [93] t1 then Some (JArr [], drop 1 t1)
            else match read_items f t1 with Some (l, r) => Some (JArr l, r) | None => None end
          else if c =? 123 then
            if starts_with [125] t1 then Some (JObj [], drop 1 t1)
            else match read_members f t1 with Some (ms, r) => Some (JObj ms, r) | None => None end
          else read_number t
      | [] => None
      end
  end
with read_items (fuel : nat) (t : bytes) : option (list jval * bytes) :=
  match fuel with
  | O => None
  | S f =>
      match read_value f t with
      | Some (j, c :: r) =>
          if c =? comma then match read_items f r with Some (l, r') => Some (j :: l, r') | None => None end
          else if c =? 93 then Some ([j], r) else None
      | _ => None
      end
  end
with read_members (fuel : nat) (t : bytes) : option (list (bytes * jval) * bytes) :=
  match fuel with
  | O => None
  | S f =>
      match t with
      | q :: t1 =>
          if q =? 34 then
            match read_string t1 with
            | Some (k, d :: t2) =>
                if d =? 58 then
                  match read_value f t2 with
                  | Some (j, c :: r) =>
                      if c =? comma
                      then match read_members f r with Some (ms, r') => Some ((k, j) :: ms, r') | None => None end
                      else if c =? 125 then Some ([(k, j)], r) else None
                  | _ => None
                  end
                else None
            | _ => None
            end
          else None
      | [] => None
      end
  end.

(** A whole text. *)
Definition read_json (t : bytes) : option jval :=
  match read_value (S (length t)) t with Some (j, []) => Some j | _ => None end.

