(* ===== verification/JsonFacts.v ===== *)
(** * Compact JSON text reads back

    The reference reader inverts the reference printer on every document
    whose integers fit 64 bits. *)

From S2P Require Import Prelude Http HttpFacts Double Config DurationFacts Json.

(** ** Integers *)

(** What follows a number does not continue it. *)
Definition ends_number (rest : bytes) : Prop := is_digit (default 0 (head rest)) = false.

Lemma ul_digits_app (ds rest : cstring) (v : Z) (has : bool) :
  forallb is_digit ds = true -> ends_number rest ->
  ul_digits (ds ++ rest) v has =
    (fold_left (fun v c => v * 10 + digit c) ds v, has || negb (bool_decide (ds = [])), rest).
Proof.
  intros Hd Hr. revert v has Hd. induction ds as [|c ds IH]; intros v has Hd.
  - cbn. rewrite orb_false_r. unfold ends_number in Hr. destruct rest as [|c rest]; [done|].
    cbn in Hr |- *. by rewrite Hr.
  - cbn in Hd. apply andb_true_iff in Hd as [Hc Hd]. cbn. rewrite Hc, IH by done.
    by rewrite orb_true_l, orb_true_r.
Qed.

Lemma fmt_u64_digits (v : Z) : 0 <= v < 2 ^ 64 ->
  forallb is_digit (fmt_u64 v) = true /\ decimal (fmt_u64 v) = v /\ fmt_u64 v <> [].
Proof.
  intros Hv. unfold fmt_u64. destruct (Z.eqb_spec v 0); [by subst|].
  destruct (dec_digits_spec 20 20 v) as (H1 & H2 & _ & H3); [lia|lia|]. split_and!; [done..|apply H3; lia].
Qed.

Lemma read_digits_fmt (v : Z) (rest : bytes) : 0 <= v < 2 ^ 64 -> ends_number rest ->
  read_digits (fmt_u64 v ++ rest) = Some (v, rest).
Proof.
  intros Hv Hr. destruct (fmt_u64_digits v Hv) as (H1 & H2 & H3). unfold read_digits.
  rewrite ul_digits_app by done. rewrite bool_decide_false by done. cbn. unfold decimal in H2. by rewrite H2.
Qed.

Lemma fmt_u64_head (v : Z) : 0 <= v < 2 ^ 64 -> exists c ds, fmt_u64 v = c :: ds /\ 48 <= c <= 57.
Proof.
  intros Hv. destruct (fmt_u64_digits v Hv) as (H1 & _ & H3). destruct (fmt_u64 v) as [|c ds]; [done|].
  exists c, ds. split; [done|]. cbn in H1. apply andb_true_iff in H1 as [Hc _].
  unfold is_digit in Hc. change (chr "0") with 48 in Hc. change (chr "9") with 57 in Hc. bool_props. lia.
Qed.

Lemma read_number_fmt (z : Z) (rest : bytes) : - 2 ^ 63 <= z < 2 ^ 64 -> ends_number rest ->
  read_number (fmt_i64 z ++ rest) = Some (JInt z, rest).
Proof.
  intros Hz Hr. unfold fmt_i64. destruct (Z.ltb_spec z 0).
  - unfold read_number. cbn [app]. rewrite Z.eqb_refl, read_digits_fmt by (done || lia).
    by rewrite Z.opp_involutive.
  - unfold read_number. destruct (fmt_u64_head z ltac:(lia)) as (c & ds & E & Hc). rewrite E. cbn [app].
    rewrite (proj2 (Z.eqb_neq c _)) by (change (chr "-") with 45; lia).
    change (c :: ds ++ rest) with ((c :: ds) ++ rest). rewrite <- E, read_digits_fmt by (done || lia). done.
Qed.

(** ** Strings *)
Lemma hex_value_char (d : Z) : 0 <= d < 16 -> hex_value (hex_char d) = Some d.
Proof.
  intros Hd. assert (E : bool_decide (Forall (fun d => hex_value (hex_char d) = Some d) (seqZ 0 16)) = true)
    by (vm_compute; done).
  apply bool_decide_eq_true in E. rewrite Forall_forall in E. apply E. apply elem_of_seqZ. lia.
Qed.

Lemma read_quoted_byte (c : Z) (t s r : bytes) : 0 <= c ->
  read_string t = Some (s, r) -> read_string (quoted_byte c ++ t) = Some (c :: s, r).
Proof.
  intros Hc Ht. unfold quoted_byte.
  repeat match goal with
  | |- context [if ?x =? ?k then _ else _] =>
      destruct (Z.eqb_spec x k); [subst; cbn -[unescape]; rewrite Ht; reflexivity|]
  end.
  destruct (Z.ltb_spec c 0x20) as [Hl|Hl].
  - change (lit "\u00") with [92; 117; 48; 48]. cbn [app read_string].
    change (92 =? 34) with false. change (92 =? 92) with true. change (117 =? chr "u") with true. cbn [andb].
    unfold hex4. change (hex_value 48) with (Some 0).
    assert (0 <= c / 16 < 16) by (split; [apply Z.div_pos; lia|apply Z.div_lt_upper_bound; lia]).
    rewrite !hex_value_char by (done || apply Z.mod_pos_bound; lia). rewrite Ht.
    replace (((0 * 16 + 0) * 16 + c / 16) * 16 + c mod 16) with c by (rewrite (Z.div_mod c 16) at 1; lia).
    by rewrite (proj2 (Z.ltb_lt c 128)) by lia.
  - cbn [app read_string]. rewrite (proj2 (Z.eqb_neq c 34)), (proj2 (Z.eqb_neq c 92)) by done.
    rewrite (proj2 (Z.ltb_ge c 0x20)) by done. by rewrite Ht.
Qed.

(** The texts that the reference reader reads back; it takes their codes as
    they are, where a parser such as yyjson asks for UTF-8 as well. *)
Definition text_ok (s : bytes) : Prop := Forall (fun c => 0 <= c) s.

(** ** Documents *)

Fixpoint doc_ok (j : jval) : Prop :=
  match j with
  | JInt z => - 2 ^ 63 <= z < 2 ^ 64
  | JReal => False
  | JStr s => text_ok s
  | JArr l => (fix all l := match l with [] => True | x :: l' => doc_ok x /\ all l' end) l
  | JObj ms => (fix all ms := match ms with [] => True | m :: ms' => (text_ok m.1 /\ doc_ok m.2) /\ all ms' end) ms
  | _ => True
  end.

Lemma doc_ok_arr (l : list jval) : doc_ok (JArr l) <-> Forall doc_ok l.
Proof. cbn. induction l as [|x l IH]; [done|]. by rewrite Forall_cons, IH. Qed.

Lemma doc_ok_obj (ms : list (bytes * jval)) :
  doc_ok (JObj ms) <-> Forall (fun m => text_ok m.1 /\ doc_ok m.2) ms.
Proof. cbn. induction ms as [|x l IH]; [done|]. by rewrite Forall_cons, IH. Qed.

Lemma commas_cons (p : bytes) (ps : list bytes) :
  ps <> [] -> commas (p :: ps) = p ++ comma :: commas ps.
Proof. by destruct ps. Qed.

(** A text that starts with a given byte is read by the branch of that byte. *)
Lemma read_value_at (f : nat) (c : Z) (t : bytes) : c <> 110 -> c <> 116 -> c <> 102 ->
  read_value (S f) (c :: t) =
    if c =? 34 then match read_string t with Some (s, r) => Some (JStr s, r) | None => None end
    else if c =? 91 then
      if starts_with [93] t then Some (JArr [], drop 1 t)
      else match read_items f t with Some (l, r) => Some (JArr l, r) | None => None end
    else if c =? 123 then
      if starts_with [125] t then Some (JObj [], drop 1 t)
      else match read_members f t with Some (ms, r) => Some (JObj ms, r) | None => None end
    else read_number (c :: t).
Proof.
  intros H1 H2 H3. cbn [read_value].
  change (lit "null") with [110; 117; 108; 108]. change (lit "true") with [116; 114; 117; 101].
  change (lit "false") with [102; 97; 108; 115; 101]. cbn [starts_with].
  rewrite (proj2 (Z.eqb_neq 110 c)), (proj2 (Z.eqb_neq 116 c)), (proj2 (Z.eqb_neq 102 c)) by done. done.
Qed.

(** ** Texts read back

    Whatever spelling of its characters a printer chose, as long as the
    reader knows it. *)
Section Spelling.
Context (spell : Z -> bytes).
Hypothesis spell_reads : forall (c : Z) (t s r : bytes), 0 <= c ->
  read_string t = Some (s, r) -> read_string (spell c ++ t) = Some (c :: s, r).

Lemma read_quoted (s rest : bytes) : text_ok s ->
  read_string (concat (map spell s) ++ 34 :: rest) = Some (s, rest).
Proof.
  induction 1 as [|c s Hc _ IH]; [done|]. cbn [map concat]. rewrite <- app_assoc. by apply spell_reads.
Qed.

Abbreviation text_of := (render_with spell).

Definition reads (j : jval) : Prop :=
  forall fuel rest, (length (text_of j) < fuel)%nat -> ends_number rest ->
    read_value fuel (text_of j ++ rest) = Some (j, rest).

(** The first byte of a printed value. *)
Lemma render_head (j : jval) : doc_ok j -> exists c t, text_of j = c :: t /\ c <> 93 /\ c <> 125.
Proof.
  destruct j as [|[]|z| |s|l|ms]; cbn [render_with doc_ok]; intros H; try (eexists _, _; split; [reflexivity|split; vm_compute; done]).
  unfold fmt_i64. destruct (z <? 0) eqn:E; [eexists _, _; split; [reflexivity|change (chr "-") with 45; lia]|].
  apply Z.ltb_ge in E. destruct (fmt_u64_head z ltac:(lia)) as (c & ds & -> & ?). exists c, ds. split; [done|lia].
Qed.

Lemma read_items_render (l : list jval) (fuel : nat) (rest : bytes) :
  Forall reads l -> l <> [] -> (length (commas (map text_of l)) + 1 < fuel)%nat ->
  read_items fuel (commas (map text_of l) ++ 93 :: rest) = Some (l, rest).
Proof.
  revert fuel. induction l as [|x l IH]; [done|]. intros fuel [Hx Hl]%Forall_cons _ Hf.
  destruct fuel as [|f]; [lia|]. cbn [read_items]. destruct l as [|y l].
  - cbn [map commas] in Hf |- *. rewrite Hx by (done || lia). done.
  - cbn [map] in Hf, IH |- *. rewrite commas_cons in Hf |- * by done. rewrite length_app in Hf. cbn [length] in Hf.
    rewrite <- app_assoc. cbn [app]. rewrite Hx by (done || lia). cbn [Z.eqb comma Pos.eqb].
    rewrite IH by (done || lia). done.
Qed.

Abbreviation member_text := (fun m : bytes * jval => quote_with spell m.1 ++ [58] ++ text_of m.2).

Lemma read_members_render (ms : list (bytes * jval)) (fuel : nat) (rest : bytes) :
  Forall (fun m => text_ok m.1 /\ reads m.2) ms -> ms <> [] ->
  (length (commas (map member_text ms)) + 1 < fuel)%nat ->
  read_members fuel (commas (map member_text ms) ++ 125 :: rest) = Some (ms, rest).
Proof.
  revert fuel. induction ms as [|[k x] ms IH]; [done|].
  intros fuel [[Hk Hx] Hl]%Forall_cons _ Hf. cbn [fst snd] in *. destruct fuel as [|f]; [lia|]. cbn [read_members].
  assert (Hq : forall t, quote_with spell k ++ t = 34 :: (concat (map spell k) ++ 34 :: t)).
  { intros t. unfold quote_with. rewrite <- !app_assoc. done. }
  destruct ms as [|y ms].
  - cbn [map commas fst snd] in Hf |- *. rewrite <- app_assoc, Hq. cbn [Z.eqb Pos.eqb].
    rewrite read_quoted by done. cbn [app Z.eqb Pos.eqb]. rewrite !length_app in Hf.
    rewrite Hx by (done || lia). done.
  - cbn [map] in Hf, IH |- *. rewrite commas_cons in Hf |- * by done. cbn [fst snd] in Hf |- *.
    rewrite !length_app in Hf. cbn [length] in Hf. rewrite <- !app_assoc, Hq. cbn [Z.eqb Pos.eqb].
    rewrite read_quoted by done. cbn [app Z.eqb Pos.eqb]. rewrite Hx by (done || lia).
    cbn [Z.eqb comma Pos.eqb]. rewrite IH by (done || lia). done.
Qed.

Lemma read_render (j : jval) : doc_ok j -> reads j.
Proof.
  induction j as [|b|z| |s|l IH|ms IH] using jval_nested_ind; intros Hj fuel rest Hf Hr;
    (destruct fuel as [|f]; [lia|]).
  - done.
  - by destruct b.
  - cbn [render_with] in *. pose proof (read_number_fmt z rest Hj Hr) as E. cbn [doc_ok] in Hj.
    assert (exists c t, fmt_i64 z = c :: t /\ 45 <= c <= 57) as (c & t & Et & Hc).
    { unfold fmt_i64. destruct (Z.ltb_spec z 0); [eexists _, _; split; [reflexivity|change (chr "-") with 45; lia]|].
      destruct (fmt_u64_head z ltac:(lia)) as (c & t & -> & ?). eexists _, _. split; [done|lia]. }
    rewrite Et in E |- *. cbn [app] in *. rewrite read_value_at by lia.
    rewrite !(proj2 (Z.eqb_neq c _)) by lia. done.
  - done.
  - cbn [render_with]. unfold quote_with. rewrite <- !app_assoc. cbn [app]. rewrite read_value_at by lia.
    rewrite read_quoted by done. done.
  - cbn [render_with] in *. rewrite <- !app_assoc. cbn [app]. rewrite read_value_at by lia. cbn [Z.eqb Pos.eqb].
    apply doc_ok_arr in Hj. destruct l as [|x l]; [done|].
    rewrite !length_app in Hf. cbn [length] in Hf.
    assert (starts_with [93] (commas (map text_of (x :: l)) ++ 93 :: rest) = false) as ->.
    { destruct (render_head x) as (c & t & E & Hc & _); [by apply Forall_cons in Hj as [? _]|].
      destruct l; cbn [map commas]; rewrite E; cbn [app starts_with];
        by rewrite (proj2 (Z.eqb_neq 93 c)) by done. }
    rewrite read_items_render; [done| |done|lia].
    revert IH. rewrite !Forall_forall in *. eauto.
  - cbn [render_with] in *. rewrite <- !app_assoc.
    change ([125] ++ rest) with (125 :: rest).
    match goal with |- context [[123] ++ ?a] => change ([123] ++ a) with (123 :: a) end.
    rewrite read_value_at by lia. cbn [Z.eqb Pos.eqb].
    apply doc_ok_obj in Hj. destruct ms as [|x l]; [done|].
    rewrite !length_app in Hf. cbn [length] in Hf.
    assert (starts_with [125] (commas (map member_text (x :: l)) ++ 125 :: rest) = false) as ->.
    { destruct l; reflexivity. }
    rewrite read_members_render; [done| |done|lia].
    revert IH. rewrite !Forall_forall in *. naive_solver.
Qed.

(** A printed document reads back as itself. *)
Lemma read_json_spelled (j : jval) : doc_ok j -> read_json (text_of j) = Some j.
Proof.
  intros Hj. unfold read_json. pose proof (read_render j Hj (S (length (text_of j))) [] ltac:(lia) eq_refl) as E.
  rewrite app_nil_r in E. by rewrite E.
Qed.

End Spelling.

Lemma read_json_render (j : jval) : doc_ok j -> read_json (render j) = Some j.
Proof. exact (read_json_spelled quoted_byte read_quoted_byte j). Qed.
