(* ===== verification/EnvFile.v ===== *)
(** * Env files and templates (envfile.c)

    [source_env_file] sets the variables of a KEY="value" listing in the
    process environment; [expand_template_file] substitutes environment
    references in a template.

    The environment is a finite map.  A file is its bytes; what the C library
    can refuse (opening, memory, writes, setenv) is a parameter. *)

From S2P Require Import Prelude Http Double Config.

Abbreviation environ := (gmap (list Z) (list Z)).

(** ** source_env_file *)

Definition STRIM_ENV_LINE_MAX : nat := 4096.

(** [fgets] into a buffer with room for [n] characters: the characters up to
    and including the first newline, and the unread rest. *)
Fixpoint fgets (n : nat) (f : bytes) : bytes * bytes :=
  match n, f with
  | S n', c :: f' =>
      if c =? 10 then ([c], f') else let '(l, r) := fgets n' f' in (c :: l, r)
  | _, _ => ([], f)
  end.

(** [strchr(p, c)]: what precedes the first [c] and what follows it. *)
Fixpoint cut_at (c : Z) (p : cstring) : option (cstring * cstring) :=
  match p with
  | [] => None
  | x :: p' => if x =? c then Some ([], p')
               else match cut_at c p' with Some (a, b) => Some (x :: a, b) | None => None end
  end.

(** Remove the trailing characters that satisfy [f]. *)
Definition trim_end (f : Z -> bool) (s : cstring) : cstring := reverse (skip_while f (reverse s)).

Definition strip_quotes (value : cstring) : cstring :=
  if (2 <=? length value)%nat && (default 0 (head value) =? 34) && (default 0 (last value) =? 34)
  then take (length value - 2) (tail value) else value.

Inductive env_line :=
  | LineSkip
  | LineMalformed (shown : cstring)
  | LineSet (nm value : cstring).

(** One line, as a C string. *)
Definition parse_line (line : cstring) : env_line :=
  let p := skip_while is_blank line in
  match p with
  | [] => LineSkip
  | c :: _ =>
      if (c =? 10) || (c =? 13) || (c =? chr "#") then LineSkip
      else
        let p := if starts_with (lit "export ") p then skip_while is_blank (drop 7 p) else p in
        match cut_at (chr "=") p with
        | None => LineMalformed line
        | Some (nm, value) =>
            let shown := take (length line - length value - 1) line in
            let nm := trim_end is_blank nm in
            let value := strip_quotes (trim_end (fun c => (c =? 10) || (c =? 13)) value) in
            match nm with
            | [] => LineMalformed shown
            | _ => LineSet nm value
            end
        end
  end.

Section Source.

(** Whether [setenv] finds memory for a binding. *)
Variable setenv_ok : cstring -> cstring -> bool.
Variable path : cstring.
Variable err_cap : Z.

Definition malformed (shown : cstring) : cstring :=
  snprintf_str err_cap (lit "malformed line in " ++ path ++ lit ": " ++ shown).

Fixpoint source_lines (fuel : nat) (f : bytes) (env : environ) : Z * environ * cstring :=
  match fuel with
  | O => (0, env, [])
  | S fuel' =>
      match f with
      | [] => (0, env, [])
      | _ =>
          let '(buf, rest) := fgets (STRIM_ENV_LINE_MAX - 1) f in
          match parse_line (c_string buf) with
          | LineSkip => source_lines fuel' rest env
          | LineMalformed shown => (-1, env, malformed shown)
          | LineSet nm value =>
              if setenv_ok nm value then source_lines fuel' rest (<[nm := value]> env)
              else (-1, env, snprintf_str err_cap (lit "setenv(" ++ nm ++ lit ") failed in " ++ path))
          end
      end
  end.

(** An absent file leaves the environment alone. *)
Definition source_env_file (file : option bytes) (env : environ) : Z * environ * cstring :=
  match file with
  | None => (0, env, [])
  | Some f => source_lines (length f) f env
  end.

End Source.

(** ** Template expansion *)

Definition is_env_name_start (c : Z) : bool :=
  ((chr "a" <=? c) && (c <=? chr "z")) || ((chr "A" <=? c) && (c <=? chr "Z")) || (c =? chr "_").

Definition is_env_name_char (c : Z) : bool :=
  is_env_name_start c || ((chr "0" <=? c) && (c <=? chr "9")).

Definition is_env_name_valid (nm : cstring) : bool :=
  match nm with
  | [] => false
  | c :: nm' => is_env_name_start c && forallb is_env_name_char nm'
  end.

(** The longest prefix that satisfies [f], and the rest. *)
Fixpoint span (f : Z -> bool) (p : bytes) : bytes * bytes :=
  match p with
  | c :: p' => if f c then let '(a, b) := span f p' in (c :: a, b) else ([], p)
  | [] => ([], [])
  end.

Section Expand.

Variable getenv : cstring -> option cstring.

(** The writes of [write_env_value]: none for an undefined variable. *)
Definition write_env_value (nm : cstring) : list bytes :=
  match getenv nm with Some v => [v] | None => [] end.

(** The writes of the expansion loop, in order: one per [fputc] or [fputs]. *)
Fixpoint expand (fuel : nat) (buf : bytes) : list bytes :=
  match fuel with
  | O => []
  | S fuel' =>
      match buf with
      | [] => []
      | c :: rest =>
          if negb (c =? chr "$") then [c] :: expand fuel' rest
          else match rest with
               | [] => [[c]]
               | d :: rest' =>
                   if d =? chr "$" then [chr "$"] :: expand fuel' rest'
                   else if d =? chr "{" then
                     match span (fun x => negb (x =? chr "}")) rest' with
                     | (nm, _ :: after) =>
                         if (length nm <? 256)%nat && is_env_name_valid nm
                         then write_env_value nm ++ expand fuel' after
                         else [chr "$"] :: expand fuel' rest
                     | (_, []) => [chr "$"] :: expand fuel' rest
                     end
                   else if is_env_name_start d then
                     let '(nm, after) := span is_env_name_char rest in
                     if (length nm <? 256)%nat then write_env_value nm ++ expand fuel' after
                     else [chr "$"] :: expand fuel' rest
                   else [chr "$"] :: expand fuel' rest
               end
      end
  end.

End Expand.

(** What the C library does during one expansion: the template's contents
    ([None]: it does not open), memory for a buffer of a given size, a read
    error, the output opening, the success of the n-th write and of the
    close. *)
Record expand_io := ExpandIo {
  io_template : option bytes;
  io_alloc : Z -> bool;
  io_read_error : bool;
  io_out_opens : bool;
  io_write_ok : nat -> bool;
  io_close_ok : bool;
}.

(** What the output path holds afterwards. *)
Inductive output := OutUntouched | OutRemoved | OutFile (contents : bytes).

(** The read loop: [None] when a buffer cannot be grown or the read fails. *)
Fixpoint read_all (io : expand_io) (fuel : nat) (buf rest : bytes) (cap : Z) : option bytes :=
  match fuel with
  | O => None
  | S fuel' =>
      let grown := if Z.of_nat (length buf) =? cap then cap * 2 else cap in
      if (Z.of_nat (length buf) =? cap) && negb (io_alloc io grown) then None
      else
        let n := Z.to_nat (grown - Z.of_nat (length buf)) in
        match take n rest with
        | [] => if io_read_error io then None else Some buf
        | got => read_all io fuel' (buf ++ got) (drop n rest) grown
        end
  end.

(** The index of the first failing write, if any. *)
Fixpoint first_failure (ok : nat -> bool) (i : nat) (writes : list bytes) : option nat :=
  match writes with
  | [] => None
  | _ :: writes' => if ok i then first_failure ok (S i) writes' else Some i
  end.

Definition expand_template_file (getenv : cstring -> option cstring) (io : expand_io)
  : Z * output :=
  match io_template io with
  | None => (-1, OutUntouched)
  | Some file =>
      if negb (io_alloc io 8192) then (-1, OutUntouched)
      else match read_all io (S (length file)) [] file 8192 with
           | None => (-1, OutUntouched)
           | Some buf =>
               if negb (io_out_opens io) then (-1, OutUntouched)
               else
                 let writes := expand getenv (length buf) buf in
                 match first_failure (io_write_ok io) 0 writes with
                 | Some _ => (-1, OutRemoved)
                 | None => if io_close_ok io then (0, OutFile (concat writes)) else (-1, OutRemoved)
                 end
           end
  end.
