(* ===== verification/EnvFileFacts.v ===== *)
(** * What env files and templates mean

    A grammar of templates and of listings, the meaning of each, and the
    proof that [expand] and [source_env_file] compute it; a template is
    rendered completely or not at all; the printed env example sources back
    to its examples. *)

From S2P Require Import Prelude Http Double Config EnvFile.

(** ** Templates *)

(** A template as a sequence of pieces: a plain character, "$$", "${name}",
    "$name", a "$" that stands for itself, and "${...}" around something that
    is not a name. *)
Inductive piece :=
  | PChar (c : Z)
  | PDollar
  | PBraced (nm : cstring)
  | PBare (nm : cstring)
  | PLone
  | PBadBrace (body : bytes).

Definition render (p : piece) : bytes :=
  match p with
  | PChar c => [c]
  | PDollar => lit "$$"
  | PBraced nm => lit "${" ++ nm ++ lit "}"
  | PBare nm => lit "$" ++ nm
  | PLone => lit "$"
  | PBadBrace body => lit "${" ++ body ++ lit "}"
  end.

Definition render_all (ps : list piece) : bytes := concat (map render ps).

Definition meaning (getenv : cstring -> option cstring) (p : piece) : bytes :=
  match p with
  | PChar c => [c]
  | PDollar | PLone => lit "$"
  | PBraced nm | PBare nm => default [] (getenv nm)
  | PBadBrace body => lit "${" ++ body ++ lit "}"
  end.

(** What a piece requires of itself and of the text that follows it. *)
Definition piece_ok (p : piece) (rest : bytes) : Prop :=
  match p with
  | PChar c => c <> chr "$"
  | PDollar => True
  | PBraced nm => is_env_name_valid nm = true /\ (length nm < 256)%nat
  | PBare nm => is_env_name_valid nm = true /\ (length nm < 256)%nat /\
                match rest with [] => True | c :: _ => is_env_name_char c = false end
  | PLone => match rest with
             | [] => True
             | c :: _ => c <> chr "$" /\ c <> chr "{" /\ is_env_name_start c = false
             end
  | PBadBrace body => (is_env_name_valid body && (length body <? 256)%nat) = false /\
                      Forall (fun c => c <> chr "$" /\ c <> chr "}") body
  end.

Fixpoint pieces_ok (ps : list piece) : Prop :=
  match ps with
  | [] => True
  | p :: ps' => piece_ok p (render_all ps') /\ pieces_ok ps'
  end.

Lemma span_all (f : Z -> bool) (a b : bytes) :
  forallb f a = true -> match b with [] => True | c :: _ => f c = false end ->
  span f (a ++ b) = (a, b).
Proof.
  intros Ha Hb. induction a as [|c a IH]; cbn [app].
  - destruct b as [|c b]; [done|]. cbn. by rewrite Hb.
  - cbn [forallb] in Ha. apply andb_true_iff in Ha as [Hc Ha]. cbn [span].
    by rewrite Hc, IH.
Qed.

Lemma name_start_char (c : Z) : is_env_name_start c = true -> is_env_name_char c = true.
Proof. unfold is_env_name_char. by intros ->. Qed.

Lemma name_start_plain (c : Z) :
  is_env_name_start c = true -> (c =? chr "$") = false /\ (c =? chr "{") = false.
Proof.
  intros H. split; apply Z.eqb_neq; intros ->; by vm_compute in H.
Qed.

Lemma name_char_not_brace (c : Z) : is_env_name_char c = true -> negb (c =? chr "}") = true.
Proof. intros H. apply negb_true_iff, Z.eqb_neq. intros ->. by vm_compute in H. Qed.

Lemma valid_name (nm : cstring) :
  is_env_name_valid nm = true ->
  exists c nm', nm = c :: nm' /\ is_env_name_start c = true /\ forallb is_env_name_char nm = true.
Proof.
  destruct nm as [|c nm']; [done|]. cbn. intros [H1 H2]%andb_true_iff.
  exists c, nm'. by rewrite (name_start_char c H1).
Qed.

Section Expansion.

Variable getenv : cstring -> option cstring.

Lemma concat_write_env (nm : cstring) :
  concat (write_env_value getenv nm) = default [] (getenv nm).
Proof. unfold write_env_value. destruct (getenv nm); [apply app_nil_r | done]. Qed.

(** Characters other than "$" are copied. *)
Lemma expand_plain (a b : bytes) (fuel : nat) :
  Forall (fun c => c <> chr "$") a -> (length (a ++ b) <= fuel)%nat ->
  exists fuel', (length b <= fuel')%nat /\
    concat (expand getenv fuel (a ++ b)) = a ++ concat (expand getenv fuel' b).
Proof.
  revert fuel. induction a as [|c a IH]; intros fuel Ha Hf; [by exists fuel|].
  apply Forall_cons in Ha as [Hc Ha]. cbn [app length] in *. destruct fuel as [|fuel]; [lia|].
  destruct (IH fuel Ha ltac:(lia)) as (f' & Hf' & He). exists f'. split; [done|].
  cbn [expand]. rewrite (proj2 (Z.eqb_neq c _) Hc). cbn [negb concat]. by rewrite He.
Qed.

(** "$" followed by a text that is neither "$" nor a reference. *)
Lemma expand_bad_brace (body rest : bytes) (fuel : nat) :
  (is_env_name_valid body && (length body <? 256)%nat) = false ->
  Forall (fun c => c <> chr "$" /\ c <> chr "}") body ->
  expand getenv (S fuel) (lit "${" ++ body ++ lit "}" ++ rest) =
  [chr "$"] :: expand getenv fuel (lit "{" ++ body ++ lit "}" ++ rest).
Proof.
  intros Hb Hn.
  assert (Hs : span (fun x => negb (x =? chr "}")) (body ++ lit "}" ++ rest) = (body, lit "}" ++ rest)).
  { apply span_all; [|done]. apply forallb_forall. intros x Hx.
    apply negb_true_iff, Z.eqb_neq. rewrite Forall_forall in Hn. apply Hn. by apply list_elem_of_In. }
  change (lit "${" ++ body ++ lit "}" ++ rest) with (chr "$" :: chr "{" :: body ++ lit "}" ++ rest).
  change (lit "{" ++ body ++ lit "}" ++ rest) with (chr "{" :: body ++ lit "}" ++ rest).
  cbn [expand]. change (chr "$" =? chr "$") with true. change (chr "{" =? chr "$") with false.
  change (chr "{" =? chr "{") with true. cbn [negb]. rewrite Hs. cbn [lit app].
  rewrite andb_comm, Hb. done.
Qed.

Lemma expand_piece (p : piece) (rest : bytes) (fuel : nat) :
  piece_ok p rest -> (length (render p ++ rest) <= fuel)%nat ->
  exists fuel', (length rest <= fuel')%nat /\
    concat (expand getenv fuel (render p ++ rest)) =
    meaning getenv p ++ concat (expand getenv fuel' rest).
Proof.
  intros Hok Hf. destruct p as [c| |nm|nm| |body]; cbn [render meaning piece_ok] in *.
  - apply (expand_plain [c] rest fuel); [by constructor | done].
  - destruct fuel as [|[|fuel]]; [simpl in Hf; lia..|]. exists (S fuel).
    split; [simpl in Hf; lia | done].
  - destruct Hok as [Hv Hl]. destruct (valid_name nm Hv) as (c & nm' & -> & Hc & Hcs).
    destruct fuel as [|fuel]; [simpl in Hf; lia|]. exists fuel.
    split; [simpl in Hf; rewrite !length_app in Hf; simpl in Hf; lia|].
    rewrite <- !app_assoc.
    change (lit "${" ++ (c :: nm') ++ lit "}" ++ rest)
      with (chr "$" :: chr "{" :: (c :: nm') ++ lit "}" ++ rest).
    cbn [expand]. change (chr "$" =? chr "$") with true. change (chr "{" =? chr "$") with false.
    change (chr "{" =? chr "{") with true. cbn [negb]. rewrite span_all; [|..].
    + cbn [lit app]. rewrite (proj2 (Nat.ltb_lt _ _)) by done. cbn [andb]. rewrite Hv.
      by rewrite concat_app, concat_write_env.
    + apply forallb_forall. intros x Hx. apply name_char_not_brace.
      rewrite forallb_forall in Hcs. by apply Hcs.
    + done.
  - destruct Hok as (Hv & Hl & Hr). destruct (valid_name nm Hv) as (c & nm' & -> & Hc & Hcs).
    destruct (name_start_plain c Hc) as [Hd Hb].
    destruct fuel as [|fuel]; [simpl in Hf; lia|]. exists fuel.
    split; [simpl in Hf; rewrite !length_app in Hf; simpl in Hf; lia|].
    change ((lit "$" ++ c :: nm') ++ rest) with (chr "$" :: c :: nm' ++ rest).
    cbn [expand]. change (chr "$" =? chr "$") with true. cbn [negb]. rewrite Hd, Hb, Hc.
    change (c :: nm' ++ rest) with ((c :: nm') ++ rest). rewrite span_all by done.
    rewrite (proj2 (Nat.ltb_lt _ _)) by done. by rewrite concat_app, concat_write_env.
  - destruct fuel as [|fuel]; [simpl in Hf; lia|]. exists fuel.
    split; [simpl in Hf; lia|]. change (lit "$" ++ rest) with (chr "$" :: rest).
    cbn [expand]. change (chr "$" =? chr "$") with true. cbn [negb].
    destruct rest as [|d rest]; [by destruct fuel|]. destruct Hok as (H1 & H2 & H3).
    by rewrite (proj2 (Z.eqb_neq d _) H1), (proj2 (Z.eqb_neq d _) H2), H3.
  - destruct Hok as [Hb Hn]. destruct fuel as [|fuel]; [simpl in Hf; lia|].
    rewrite <- !app_assoc in *. rewrite expand_bad_brace by done.
    destruct (expand_plain (lit "{" ++ body ++ lit "}") rest fuel) as (f' & Hf' & He).
    { apply Forall_app. split; [by repeat constructor|]. apply Forall_app.
      split; [|by repeat constructor]. eapply Forall_impl; [exact Hn|]. by intros ? []. }
    { rewrite <- !app_assoc. simpl in Hf |- *. lia. }
    exists f'. split; [done|]. cbn [concat]. rewrite <- !app_assoc in He. rewrite He.
    by rewrite <- !app_assoc.
Qed.

Lemma expand_render (ps : list piece) (fuel : nat) :
  pieces_ok ps -> (length (render_all ps) <= fuel)%nat ->
  concat (expand getenv fuel (render_all ps)) = concat (map (meaning getenv) ps).
Proof.
  revert fuel. induction ps as [|p ps IH]; intros fuel Hok Hf; [by destruct fuel|].
  destruct Hok as [Hp Hok]. unfold render_all in Hf |- *. cbn [map concat] in *.
  destruct (expand_piece p (render_all ps) fuel Hp Hf) as (f' & Hf' & He).
  unfold render_all in *. by rewrite He, (IH f' Hok Hf').
Qed.

End Expansion.

(** The read loop returns the whole file or fails. *)
Lemma read_all_spec (io : expand_io) (fuel : nat) (buf rest : bytes) (cap : Z) :
  0 < cap -> Z.of_nat (length buf) <= cap -> (length rest < fuel)%nat ->
  match read_all io fuel buf rest cap with
  | Some b => b = buf ++ rest
  | None => io_read_error io = true \/ exists n, cap < n /\ io_alloc io n = false
  end.
Proof.
  revert buf rest cap. induction fuel as [|fuel IH]; intros buf rest cap Hc Hb Hf; [lia|].
  cbn [read_all]. set (g := if Z.of_nat (length buf) =? cap then cap * 2 else cap).
  assert (Hg : Z.of_nat (length buf) < g /\ cap <= g) by (unfold g; destruct (Z.eqb_spec (Z.of_nat (length buf)) cap); lia).
  destruct (_ && negb (io_alloc io g)) eqn:Ea.
  { apply andb_true_iff in Ea as [E1%Z.eqb_eq E2%negb_true_iff]. right. exists g.
    split; [|done]. unfold g. rewrite E1, Z.eqb_refl. lia. }
  destruct rest as [|x rest].
  { rewrite take_nil. destruct (io_read_error io); [by left|]. by rewrite app_nil_r. }
  set (n := Z.to_nat (g - Z.of_nat (length buf))). destruct n as [|n'] eqn:En; [lia|].
  cbn [take drop]. specialize (IH (buf ++ x :: take n' rest) (drop n' rest) g).
  rewrite length_app in IH. cbn [length] in IH. rewrite length_take, length_drop in IH.
  specialize (IH ltac:(lia) ltac:(lia) ltac:(simpl in Hf; lia)).
  destruct (read_all _ _ _ _ _).
  - rewrite IH, <- app_assoc. cbn [app]. by rewrite take_drop.
  - destruct IH as [?|(m & ? & ?)]; [by left|]. right. exists m. split; [lia | done].
Qed.

Lemma first_failure_none (ok : nat -> bool) (i : nat) (ws : list bytes) :
  (forall n, ok n = true) -> first_failure ok i ws = None.
Proof. intros H. revert i. induction ws as [|w ws IH]; intros i; [done|]. cbn. by rewrite H. Qed.

(** The rendering, and what is left when it fails. *)
Lemma template_rendered (getenv : cstring -> option cstring) (io : expand_io)
    (ps : list piece) :
  pieces_ok ps -> io_template io = Some (render_all ps) ->
  match expand_template_file getenv io with
  | (rc, OutFile contents) => rc = 0 /\ contents = concat (map (meaning getenv) ps)
  | (rc, _) => rc = -1
  end /\
  ((forall n, io_alloc io n = true) -> io_read_error io = false -> io_out_opens io = true ->
   (forall n, io_write_ok io n = true) -> io_close_ok io = true ->
   expand_template_file getenv io = (0, OutFile (concat (map (meaning getenv) ps)))).
Proof.
  intros Hok Ht. unfold expand_template_file. rewrite Ht.
  pose proof (read_all_spec io (S (length (render_all ps))) [] (render_all ps) 8192
                ltac:(lia) ltac:(simpl; lia) ltac:(lia)) as Hr.
  pose proof (expand_render getenv ps (length (render_all ps)) Hok ltac:(lia)) as He.
  destruct (read_all _ _ _ _ _) as [b|]; cbn [app] in Hr; [subst b|]; split.
  - destruct (io_alloc io 8192); cbn [negb]; [|done]. destruct (io_out_opens io); cbn [negb]; [|done].
    destruct (first_failure _ _ _); [done|]. destruct (io_close_ok io); [|done]. by rewrite He.
  - intros Ha _ -> Hw ->. rewrite Ha. cbn [negb]. by rewrite first_failure_none, He.
  - by destruct (io_alloc io 8192).
  - intros Ha Hre. destruct Hr as [?|(n & _ & Hn)]; [congruence|]. by rewrite Ha in Hn.
Qed.

(** template expansion.  For every template built from the pieces of the
    grammar (plain text, "$$", "${NAME}" and "$NAME" with names below 256
    characters, "$" standing for itself, "${...}" around anything that is not
    a name), the rendered output is the concatenation of the pieces'
    meanings: references become their values, undefined ones nothing, "$$"
    a dollar, everything else itself.  Whatever fails on the way (open,
    memory, read, a write, the close), the output path either holds the
    complete rendering with return code 0, or -1 is returned and no
    half-rendered file is left; and with nothing failing it succeeds. *)
Theorem template_rendered_or_absent (getenv : cstring -> option cstring) (io : expand_io)
    (ps : list piece) :
  pieces_ok ps -> io_template io = Some (render_all ps) ->
  match expand_template_file getenv io with
  | (rc, OutFile contents) => rc = 0 /\ contents = concat (map (meaning getenv) ps)
  | (rc, _) => rc = -1
  end /\
  ((forall n, io_alloc io n = true) -> io_read_error io = false -> io_out_opens io = true ->
   (forall n, io_write_ok io n = true) -> io_close_ok io = true ->
   expand_template_file getenv io = (0, OutFile (concat (map (meaning getenv) ps)))).
Proof. apply template_rendered. Qed.

Definition sample_template : list piece :=
  [PChar (chr "p"); PChar (chr "="); PBraced (lit "PORT"); PDollar; PBare (lit "X"); PChar (chr "/");
   PBadBrace (lit "A:-b"); PLone].

Definition sample_io : expand_io :=
  ExpandIo (Some (render_all sample_template)) (fun _ => true) false true (fun _ => true) true.

Lemma template_rendered_or_absent_witness :
  let getenv n := if streq n (lit "PORT") then Some (lit "9000") else None in
  expand_template_file getenv sample_io = (0, OutFile (lit "p=9000$/${A:-b}$")).
Proof.
  cbv zeta.
  refine (eq_trans (proj2 (template_rendered_or_absent _ sample_io sample_template _ _) _ _ _ _ _) _).
  - cbn [pieces_ok piece_ok sample_template].
    split_and!; try (by vm_compute); try (simpl; lia). repeat constructor; by vm_compute.
  - done.
  - done.
  - done.
  - done.
  - done.
  - done.
  - vm_compute. reflexivity.
Defined.

(** ** Listings *)

Inductive item :=
  | IBlank (indent : cstring)
  | IComment (indent text : cstring)
  | IAssign (indent : cstring) (exported : bool) (nm : cstring) (quoted : bool) (value : cstring).

(** The line of an item, without its newline. *)
Definition item_line (i : item) : cstring :=
  match i with
  | IBlank indent => indent
  | IComment indent text => indent ++ lit "#" ++ text
  | IAssign indent exported nm quoted value =>
      indent ++ (if exported then lit "export " else []) ++ nm ++ lit "=" ++
      (if quoted then dq ++ value ++ dq else value)
  end.

(** No NUL and no line break inside a line. *)
Definition line_text (s : cstring) : Prop := Forall (fun c => c <> 0 /\ c <> 10) s.

Definition quote_wrapped (v : cstring) : bool :=
  (2 <=? length v)%nat && (default 0 (head v) =? 34) && (default 0 (last v) =? 34).

Definition item_ok (i : item) : Prop :=
  line_text (item_line i) /\ (length (item_line i) <= STRIM_ENV_LINE_MAX - 2)%nat /\
  match i with
  | IBlank indent | IComment indent _ => forallb is_blank indent = true
  | IAssign indent exported nm quoted value =>
      forallb is_blank indent = true /\ nm <> [] /\ Forall (fun c => c <> chr "=") nm /\
      is_blank (default 32 (head nm)) = false /\ is_blank (default 32 (last nm)) = false /\
      default 0 (head nm) <> chr "#" /\ default 0 (head nm) <> 13 /\
      (exported = false -> starts_with (lit "export ") (nm ++ lit "=") = false) /\
      (quoted = false -> quote_wrapped value = false /\ default 0 (last value) <> 13)
  end.

Definition item_effect (env : environ) (i : item) : environ :=
  match i with IAssign _ _ nm _ value => <[nm := value]> env | _ => env end.

Lemma skip_while_app (f : Z -> bool) (a b : cstring) :
  forallb f a = true -> skip_while f (a ++ b) = skip_while f b.
Proof.
  induction a as [|c a IH]; [done|]. cbn. intros [-> Ha]%andb_true_iff. by apply IH.
Qed.

Lemma skip_while_stop (f : Z -> bool) (d : Z) (s : cstring) :
  f (default d (head s)) = false -> skip_while f s = s.
Proof. destruct s as [|c s]; [done|]. cbn. by intros ->. Qed.

Lemma trim_end_app (f : Z -> bool) (d : Z) (a b : cstring) :
  forallb f b = true -> f (default d (last a)) = false -> trim_end f (a ++ b) = a.
Proof.
  intros Hb Ha. unfold trim_end. rewrite reverse_app, skip_while_app.
  - rewrite (skip_while_stop f d); [apply reverse_involutive|].
    by rewrite head_reverse.
  - apply forallb_forall. intros x Hx. rewrite forallb_forall in Hb. apply Hb.
    apply list_elem_of_In. apply list_elem_of_In in Hx. by rewrite elem_of_reverse in Hx.
Qed.

Lemma cut_at_app (c : Z) (a b : cstring) :
  Forall (fun x => x <> c) a -> cut_at c (a ++ c :: b) = Some (a, b).
Proof.
  induction 1 as [|x a Hx _ IH]; cbn; [by rewrite Z.eqb_refl|].
  by rewrite (proj2 (Z.eqb_neq x c) Hx), IH.
Qed.

Lemma strip_quotes_wrapped (v : cstring) : strip_quotes (dq ++ v ++ dq) = v.
Proof.
  unfold strip_quotes. change (dq ++ v ++ dq) with (34 :: (v ++ [34])).
  rewrite last_cons, last_snoc. cbn [head tail default]. cbn [length]. rewrite length_app.
  rewrite (proj2 (Nat.leb_le 2 _)) by (simpl; lia). change (id 34 =? 34) with true. cbn [andb].
  transitivity (take (length v) (v ++ [34])); [f_equal; simpl; lia | apply take_app_length].
Qed.

Lemma fgets_line (n : nat) (l rest : bytes) :
  line_text l -> (length l < n)%nat -> fgets n (l ++ 10 :: rest) = (l ++ [10], rest).
Proof.
  intros Hl. revert n. induction Hl as [|c l [_ Hc] _ IH]; intros n Hn.
  - destruct n; [simpl in Hn; lia|]. done.
  - destruct n; [simpl in Hn; lia|]. cbn [app fgets]. rewrite (proj2 (Z.eqb_neq c _) Hc).
    rewrite IH by (simpl in Hn; lia). done.
Qed.

Lemma c_string_line (l : bytes) : line_text l -> c_string (l ++ [10]) = l ++ [10].
Proof.
  induction 1 as [|c l [Hc _] _ IH]; [done|]. cbn. by rewrite (proj2 (Z.eqb_neq c _) Hc), IH.
Qed.

(** The value of an assignment line. *)
Lemma assign_value (q : bool) (v : cstring) :
  Forall (fun c => c <> 10) v ->
  (q = false -> quote_wrapped v = false /\ default 0 (last v) <> 13) ->
  strip_quotes (trim_end (fun c => (c =? 10) || (c =? 13)) ((if q then dq ++ v ++ dq else v) ++ [10])) = v.
Proof.
  intros Hv Hq. destruct q.
  - rewrite (trim_end_app _ 0); [apply strip_quotes_wrapped | done |].
    assert (Hl : last (dq ++ v ++ dq) = Some 34) by (rewrite app_assoc; apply last_snoc).
    by rewrite Hl.
  - destruct (Hq eq_refl) as [Hw Hcr]. rewrite (trim_end_app _ 0); [|done|].
    + unfold strip_quotes, quote_wrapped in *. by rewrite Hw.
    + apply orb_false_iff. split; [|by apply Z.eqb_neq]. apply Z.eqb_neq. intros He.
      destruct (last v) as [z|] eqn:El; [|done]. simpl in He. subst z.
      apply last_Some in El as (v' & ->). apply Forall_app in Hv as [_ Hv].
      by apply Forall_cons in Hv as [? _].
Qed.

Lemma starts_with_app (p a b : cstring) :
  (length p <= length a)%nat \/ Forall (fun c => c <> chr "=") p ->
  starts_with p (a ++ chr "=" :: b) = starts_with p (a ++ [chr "="]).
Proof.
  revert a. induction p as [|x p IH]; intros a H; [done|].
  destruct a as [|y a]; cbn [app starts_with].
  - destruct H as [H|H]; [simpl in H; lia|]. apply Forall_cons in H as [Hx _].
    by rewrite (proj2 (Z.eqb_neq x _) Hx).
  - f_equal. apply IH. destruct H as [H|H]; [left; simpl in H; lia | right].
    by apply Forall_cons in H as [_ ?].
Qed.

Lemma export_prefix (x : cstring) : starts_with (lit "export ") (lit "export " ++ x) = true.
Proof. done. Qed.

Lemma parse_item (i : item) :
  item_ok i ->
  parse_line (item_line i ++ [10]) =
  match i with IAssign _ _ nm _ value => LineSet nm value | _ => LineSkip end.
Proof.
  intros (Ht & _ & Hi). unfold parse_line. destruct i as [indent|indent text|indent ex nm q v];
    cbn [item_line] in *.
  - by rewrite skip_while_app.
  - rewrite <- !app_assoc, skip_while_app by done. done.
  - destruct Hi as (Hin & Hne & Heq & Hh & Hl & Hc & Hr & Hex & Hq).
    unfold line_text in Ht. rewrite !Forall_app in Ht. destruct Ht as (_ & _ & Htn & _ & Htv).
    assert (Hv : Forall (fun c => c <> 10) v).
    { destruct q; [rewrite !Forall_app in Htv; destruct Htv as (_ & Htv & _)|];
        (eapply Forall_impl; [exact Htv|]; by intros ? []). }
    rewrite <- !app_assoc, skip_while_app by done.
    set (line := indent ++ _). clearbody line.
    set (tail := (if q then dq ++ v ++ dq else v) ++ [10]).
    pose proof (assign_value q v Hv Hq) as Hval. fold tail in Hval. clearbody tail.
    assert (Hskip : skip_while is_blank (nm ++ lit "=" ++ tail) = nm ++ lit "=" ++ tail).
    { destruct nm; [done|]. by apply (skip_while_stop _ 32). }
    assert (Hcut : cut_at (chr "=") (nm ++ lit "=" ++ tail) = Some (nm, tail)) by (by apply cut_at_app).
    assert (Htrim : trim_end is_blank nm = nm).
    { rewrite <- (app_nil_r nm) at 1. by apply (trim_end_app _ 32). }
    destruct ex.
    + rewrite (skip_while_stop _ 32) by done.
      change (lit "export " ++ nm ++ lit "=" ++ tail)
        with (chr "e" :: lit "xport " ++ nm ++ lit "=" ++ tail).
      cbv iota beta. change ((_ || _) || _) with false. cbv iota.
      change (chr "e" :: lit "xport " ++ nm ++ lit "=" ++ tail)
        with (lit "export " ++ nm ++ lit "=" ++ tail).
      rewrite export_prefix. change (drop 7 (lit "export " ++ ?x)) with x.
      rewrite Hskip, Hcut, Htrim, Hval. by destruct nm.
    + cbn [app]. rewrite Hskip. specialize (Hex eq_refl). change (lit "=") with [chr "="] in Hex.
      rewrite <- (starts_with_app (lit "export ") nm tail) in Hex
        by (right; by repeat constructor).
      change (chr "=" :: tail) with (lit "=" ++ tail) in Hex. rewrite Hex, Hcut, Htrim, Hval.
      destruct nm as [|n nm]; [done|]. cbn [app head default] in *.
      apply Forall_cons in Htn as [[_ Hn] _].
      by rewrite (proj2 (Z.eqb_neq n _) Hn), (proj2 (Z.eqb_neq n 13) Hr), (proj2 (Z.eqb_neq n _) Hc).
Qed.

Definition listing (items : list item) : bytes := concat (map (fun i => item_line i ++ [10]) items).

Lemma source_items (ok : cstring -> cstring -> bool) (path : cstring) (cap : Z) (items : list item)
    (fuel : nat) (env : environ) :
  (forall n v, ok n v = true) -> Forall item_ok items -> (length (listing items) <= fuel)%nat ->
  source_lines ok path cap fuel (listing items) env = (0, fold_left item_effect items env, []).
Proof.
  intros Hset Hok. revert fuel env. induction Hok as [|i items Hi Hok IH]; intros fuel env Hf.
  { by destruct fuel. }
  assert (El : listing (i :: items) = item_line i ++ 10 :: listing items).
  { unfold listing. cbn [map concat]. by rewrite <- app_assoc. }
  rewrite El in *. rewrite length_app in Hf. cbn [length] in Hf.
  destruct fuel as [|fuel]; [lia|]. specialize (IH fuel).
  pose proof (parse_item i Hi) as Hp. destruct Hi as (Ht & Hlen & _).
  assert (Hg : fgets (STRIM_ENV_LINE_MAX - 1) (item_line i ++ 10 :: listing items) =
               (item_line i ++ [10], listing items)).
  { apply fgets_line; [done|]. unfold STRIM_ENV_LINE_MAX in *. lia. }
  assert (Hs : forall f, source_lines ok path cap (S fuel) f env =
    match f with
    | [] => (0, env, [])
    | _ => let '(buf, rest) := fgets (STRIM_ENV_LINE_MAX - 1) f in
           match parse_line (c_string buf) with
           | LineSkip => source_lines ok path cap fuel rest env
           | LineMalformed shown => (-1, env, malformed path cap shown)
           | LineSet nm value =>
               if ok nm value then source_lines ok path cap fuel rest (<[nm := value]> env)
               else (-1, env, snprintf_str cap (lit "setenv(" ++ nm ++ lit ") failed in " ++ path))
           end
    end) by done.
  rewrite Hs, Hg, c_string_line, Hp by done.
  destruct (item_line i ++ 10 :: listing items) eqn:E; [by destruct (item_line i)|].
  destruct i; cbn [fold_left item_effect]; rewrite ?Hset; apply IH; lia.
Qed.

(** env files.  A listing of blank lines, comments and assignments
    ("NAME=value" with or without indentation, an export prefix and double
    quotes; lines of at most 4094 characters) sets exactly the assigned
    variables, in order, a later assignment winning, and reports success.  A
    missing file changes nothing. *)
Theorem env_file_sets_its_assignments (ok : cstring -> cstring -> bool) (path : cstring) (cap : Z)
    (items : list item) (env : environ) :
  (forall n v, ok n v = true) -> Forall item_ok items ->
  source_env_file ok path cap (Some (listing items)) env =
    (0, fold_left item_effect items env, []) /\
  source_env_file ok path cap None env = (0, env, []).
Proof. intros Hset Hok. split; [|done]. by apply source_items. Qed.

Definition sample_listing : list item :=
  [IComment [] (lit " settings"); IBlank (lit "  ");
   IAssign (lit " ") true (lit "A_KEY") true (lit "x y=z"); IAssign [] false (lit "B") false (lit "7")].

Lemma env_file_sets_its_assignments_witness :
  (source_env_file (fun _ _ => true) (lit "/f") 64 (Some (listing sample_listing)) ∅).1.2
    !! lit "A_KEY" = Some (lit "x y=z").
Proof.
  refine (eq_trans (f_equal (fun r => r.1.2 !! lit "A_KEY")
    (proj1 (env_file_sets_its_assignments (fun _ _ => true) (lit "/f") 64 sample_listing ∅ _ _))) _).
  - done.
  - unfold sample_listing.
    constructor; [|constructor; [|constructor; [|constructor; [|constructor]]]].
    all: split_and!; try (by vm_compute); try (vm_compute; lia); try (intros; by vm_compute).
    all: repeat constructor; by vm_compute.
  - vm_compute. reflexivity.
Defined.

(** ** The printed example and quoted values *)

(** Characters [go_quote] leaves alone. *)
Definition plain_char (c : Z) : bool := (0x20 <=? c) && (c <? 0x7f) && negb (c =? 34) && negb (c =? 92).

Lemma quote_plain (v : cstring) (o cap : Z) :
  forallb plain_char v = true -> o + strlen v + 7 < cap -> quote_loop v o cap = v.
Proof.
  revert o. induction v as [|c v IH]; intros o Hv Ho; [done|]. cbn [forallb] in Hv.
  apply andb_true_iff in Hv as [Hc Hv]. unfold strlen in *. cbn [length] in Ho. cbn [quote_loop].
  rewrite (proj2 (Z.ltb_lt _ _)) by lia.
  assert (Hq : quote_char c = [c]).
  { unfold plain_char, quote_char in *. bool_props.
    rewrite !(proj2 (Z.eqb_neq c _)) by lia. rewrite (proj2 (Z.ltb_ge c _)) by lia.
    by rewrite (proj2 (Z.leb_gt _ c)) by lia. }
  rewrite Hq. cbn [app]. change (strlen [c]) with 1. by rewrite IH by (done || lia).
Qed.

(** Sourcing the printed example: the path and buffer size only matter for
    error texts. *)
Lemma source_example (path : cstring) (cap : Z) :
  let '(rc, env', _) := source_env_file (fun _ _ => true) path cap (Some print_env_example) ∅ in
  rc = 0 /\ Forall (fun x => env' !! name x = Some (example x)) g_env_spec.
Proof.
  assert (H : (let '(rc, env', _) := source_env_file (fun _ _ => true) path cap (Some print_env_example) ∅ in
               (rc =? 0) && forallb (fun x => bool_decide (env' !! name x = Some (example x))) g_env_spec)
              = true) by (vm_compute; reflexivity).
  destruct (source_env_file _ _ _ _ _) as [[rc env'] err].
  apply andb_true_iff in H as [Hrc%Z.eqb_eq H]. split; [done|]. apply Forall_forall. intros x Hx.
  rewrite forallb_forall in H. apply list_elem_of_In, H, bool_decide_eq_true in Hx. done.
Qed.

Lemma name_avoids (nm : cstring) (z : Z) :
  is_env_name_valid nm = true -> is_env_name_char z = false -> Forall (fun c => c <> z) nm.
Proof.
  intros Hn Hz. destruct (valid_name nm Hn) as (c & nm' & -> & _ & H).
  apply Forall_forall. intros x Hx ->. rewrite forallb_forall in H.
  apply list_elem_of_In in Hx. specialize (H _ Hx). congruence.
Qed.

Lemma name_end (nm : cstring) (f : option Z) :
  is_env_name_valid nm = true -> f = head nm \/ f = last nm ->
  exists c, f = Some c /\ is_env_name_char c = true.
Proof.
  intros Hn Hf. destruct (valid_name nm Hn) as (c & nm' & -> & _ & H). rewrite forallb_forall in H.
  destruct Hf as [-> | ->]; [exists c; split; [done|]; apply H; by left|].
  destruct (last (c :: nm')) as [z|] eqn:E; [|by rewrite last_None in E].
  exists z. split; [done|]. apply H. apply last_Some in E as (l & ->).
  apply in_or_app. right. by left.
Qed.

Lemma plain_assign_ok (nm v : cstring) :
  is_env_name_valid nm = true -> (length nm <= 2048)%nat -> forallb plain_char v = true ->
  strlen v <= 247 -> item_ok (IAssign [] false nm true v).
Proof.
  intros Hn Hlen Hv Hl. unfold item_ok. cbn [item_line app].
  assert (Hb : forall c, is_env_name_char c = true -> is_blank c = false /\ c <> chr "#" /\ c <> 13).
  { intros c Hc. split_and!; [|intros ->; by vm_compute in Hc..].
    apply orb_false_iff. split; apply Z.eqb_neq; intros ->; by vm_compute in Hc. }
  destruct (name_end nm _ Hn (or_introl eq_refl)) as (h & -> & Hh).
  destruct (name_end nm _ Hn (or_intror eq_refl)) as (l & -> & Hlast).
  destruct (Hb h Hh) as (? & ? & ?), (Hb l Hlast) as (? & _ & _). split_and!; try done.
  - pose proof (name_avoids nm 0 Hn eq_refl) as Hn0. pose proof (name_avoids nm 10 Hn eq_refl) as Hn10.
    unfold line_text. rewrite !Forall_app. split_and!.
    + apply Forall_and. done.
    + by repeat constructor.
    + by repeat constructor.
    + apply Forall_forall. intros x Hx%list_elem_of_In. rewrite forallb_forall in Hv.
      specialize (Hv x Hx). unfold plain_char in Hv. bool_props. lia.
    + by repeat constructor.
  - rewrite !length_app. unfold strlen, STRIM_ENV_LINE_MAX in *. simpl. lia.
  - intros ->. done.
  - by apply name_avoids.
  - intros _. destruct (starts_with _ _) eqn:E; [|done]. apply starts_with_spec in E as (r & Er).
    pose proof (name_avoids nm 32 Hn eq_refl) as H32.
    assert (Forall (fun c => c <> 32) (nm ++ lit "=")) as Hf by (apply Forall_app; by repeat constructor).
    rewrite Er, Forall_app in Hf. destruct Hf as [Hf _]. rewrite Forall_forall in Hf.
    exfalso. by apply (Hf 32); [apply list_elem_of_In; do 6 right; left|].
Qed.

(** quoted values source back.  The line "NAME=" ++ [go_quote value]
    that the env example prints is read back to exactly that value whenever
    the value is printable ASCII without double quotes and backslashes and
    fits the 256-byte buffer; in particular sourcing the whole printed
    example sets every variable of the specification to its example. *)
Theorem env_example_roundtrip (ok : cstring -> cstring -> bool) (path : cstring) (cap : Z) (nm v : cstring)
    (env : environ) :
  (forall n v, ok n v = true) ->
  is_env_name_valid nm = true -> (length nm <= 2048)%nat -> forallb plain_char v = true ->
  strlen v <= 247 ->
  source_env_file ok path cap (Some (nm ++ lit "=" ++ go_quote v 256 ++ nl)) env =
    (0, <[nm := v]> env, []) /\
  (let '(rc, env', _) := source_env_file (fun _ _ => true) path cap (Some print_env_example) ∅ in
   rc = 0 /\ Forall (fun x => env' !! name x = Some (example x)) g_env_spec).
Proof.
  intros Hset Hn Hlen Hv Hl. split.
  - assert (Hq : nm ++ lit "=" ++ go_quote v 256 ++ nl = listing [IAssign [] false nm true v]).
    { unfold go_quote, listing. cbn [Z.eqb map concat item_line app].
      rewrite quote_plain by (done || lia). by rewrite app_nil_r, <- !app_assoc. }
    rewrite Hq. unfold source_env_file. apply source_items; [done | | done].
    constructor; [|constructor]. by apply plain_assign_ok.
  - apply (source_example path cap).
Qed.

Lemma env_example_roundtrip_witness :
  source_env_file (fun _ _ => true) (lit "/f") 64
    (Some (lit "LOG" ++ lit "=" ++ go_quote (lit "/x.log") 256 ++ nl)) ∅ =
  (0, <[lit "LOG" := lit "/x.log"]> ∅, []).
Proof.
  assert (H1 : forall n v : cstring, (fun _ _ : cstring => true) n v = true) by reflexivity.
  assert (H2 : is_env_name_valid (lit "LOG") = true) by reflexivity.
  assert (H3 : (length (lit "LOG") <= 2048)%nat) by (simpl; lia).
  assert (H4 : forallb plain_char (lit "/x.log") = true) by reflexivity.
  assert (H5 : strlen (lit "/x.log") <= 247) by (vm_compute; discriminate).
  pose proof (env_example_roundtrip (fun _ _ => true) (lit "/f") 64 (lit "LOG") (lit "/x.log") ∅ H1 H2 H3 H4 H5) as H.
  destruct H as [H _]. exact H.
Defined.

(** What [go_quote] escapes is not unescaped: a backslash comes back doubled
    and a double quote comes back with a backslash. *)
Lemma quoted_escapes_do_not_source_back :
  let set v := (source_env_file (fun _ _ => true) [] 64
                 (Some (lit "K=" ++ go_quote v 256 ++ nl)) ∅).1.2 !! lit "K" in
  set [92] = Some [92; 92] /\ set [chr "a"; 34] = Some [chr "a"; 92; 34].
Proof. by vm_compute. Qed.
