(* ===== verification/Callbacks.v ===== *)
(** * The HTTP callbacks of main.c

    The glue between the HTTP lane and the controller: the JSON of a status,
    the /event, /control and /status handlers, and the listener that pushes a
    status into a WebSocket client's slot.

    yyjson is a library: parsing is the parameter [yyjson_read], from a body
    to a JSON value.  Submitting an action to the controller's queue is the
    parameter [submit], from the action to the queue thread's reply; the
    handlers also report the actions they submitted. *)

From S2P Require Import Prelude Wire Controller Http WsSlot Double Config Json.

(** ** Status JSON *)

(** [None]: a spelling is NULL, which printf may not be given. *)
Definition stage_json (nm : cstring) (s : strim_stage_status) : option cstring :=
  match strim_stage_state_to_string (desired s), strim_stage_state_to_string (actual s) with
  | Some d, Some a =>
      Some (dq ++ nm ++ dq ++ lit ":{" ++ dq ++ lit "desired" ++ dq ++ lit ":" ++ dq ++ d ++ dq ++
            lit "," ++ dq ++ lit "actual" ++ dq ++ lit ":" ++ dq ++ a ++ dq ++ lit "}")
  | _, _ => None
  end.

Definition path_json (nm : cstring) (v : Z) : option cstring :=
  match strim_path_status_to_string v with
  | Some s => Some (dq ++ nm ++ dq ++ lit ":" ++ dq ++ s ++ dq)
  | None => None
  end.

Definition status_text (st : strim_controller_status) : option cstring :=
  match st_paths st, st_stages st with
  | [p0; p1], [s0; s1; s2; s3] =>
      match path_json (lit "ingress0") p0, path_json (lit "normalized") p1,
            stage_json (lit "mediamtx") s0, stage_json (lit "normalize") s1,
            stage_json (lit "scale_and_egress") s2, stage_json (lit "single_stage_egress") s3 with
      | Some a, Some b, Some j0, Some j1, Some j2, Some j3 =>
          Some (lit "{" ++ dq ++ lit "paths" ++ dq ++ lit ":{" ++ a ++ lit "," ++ b ++ lit "}," ++
                dq ++ lit "stages" ++ dq ++ lit ":{" ++ j0 ++ lit "," ++ j1 ++ lit "," ++
                j2 ++ lit "," ++ j3 ++ lit "}}")
      | _, _, _, _, _, _ => None
      end
  | _, _ => None
  end.

(** The text written and the result: [Refused] is the -1 return. *)
Definition serialize_status (st : strim_controller_status) (cap : Z) : bound cstring :=
  match status_text st with
  | None => Undefined
  | Some text => if cap <=? strlen text then Refused [] else Bound text
  end.

(** ** JSON requests *)

(** [None]: present but not a string; [Some None]: missing.  The string is
    used as a C string, up to its first NUL. *)
Definition json_obj_string (root : jval) (key : cstring) : option (option cstring) :=
  match yyjson_obj_get root key with
  | None => Some None
  | Some (JStr s) => Some (Some (c_string s))
  | Some _ => None
  end.

(** A member that is decoded by a wire table: [inl] is the refusal (code and
    text), [inr v] the value, -1 when the member is missing. *)
Definition json_enum (root : jval) (key type_text unknown_text : cstring)
    (from : option cstring -> bool -> option Z) : (Z * cstring) + Z :=
  match json_obj_string root key with
  | None => inl (STRIM_HTTP_ERR_BADJSON, type_text)
  | Some None => inr (-1)
  | Some (Some s) =>
      match from (Some s) true with
      | Some v => inr v
      | None => inl (-1, unknown_text ++ s)
      end
  end.

Section Handlers.

Variable yyjson_read : bytes -> option jval.
Variable submit : strim_action -> reply.

(** Code, error text and the action submitted, if any. *)
Abbreviation outcome := (Z * cstring * option strim_action)%type.

Definition refuse (err_cap rc : Z) (text : cstring) : outcome := (rc, snprintf_str err_cap text, None).

Definition submit_or_fail (err_cap : Z) (act : strim_action) (text : cstring) : outcome :=
  let rc := rp_result (submit act) in
  if negb (rc =? 0) then (rc, snprintf_str err_cap text, Some act) else (0, [], Some act).

Definition http_handle_event (err_cap : Z) (body : bytes) : outcome :=
  match yyjson_read body with
  | None => refuse err_cap STRIM_HTTP_ERR_BADJSON (lit "invalid JSON body")
  | Some (JObj ms) =>
      let root := JObj ms in
      match json_enum root (lit "path") (lit "path is not a string") (lit "invalid path name: ")
              strim_path_name_from_string with
      | inl (rc, text) => refuse err_cap rc text
      | inr path =>
          match json_enum root (lit "status") (lit "status is not a string")
                  (lit "invalid path status: ") strim_path_status_from_string with
          | inl (rc, text) => refuse err_cap rc text
          | inr status =>
              submit_or_fail err_cap (ACTION_PATH_EVENT (PathEvent path status))
                (lit "could not handle path event")
          end
      end
  | Some _ => refuse err_cap STRIM_HTTP_ERR_BADJSON (lit "expected a JSON object")
  end.

Definition http_handle_control (err_cap : Z) (body : bytes) : outcome :=
  match yyjson_read body with
  | None => refuse err_cap STRIM_HTTP_ERR_BADJSON (lit "invalid JSON body")
  | Some (JObj ms) =>
      let root := JObj ms in
      match json_enum root (lit "component") (lit "component is not a string")
              (lit "unknown control component: ") strim_control_component_from_string with
      | inl (rc, text) => refuse err_cap rc text
      | inr component =>
          match json_enum root (lit "action") (lit "action is not a string")
                  (lit "unknown control action: ") strim_control_action_from_string with
          | inl (rc, text) => refuse err_cap rc text
          | inr action =>
              submit_or_fail err_cap (ACTION_CONTROL (ControlCommand component action))
                (lit "could not handle control")
          end
      end
  | Some _ => refuse err_cap STRIM_HTTP_ERR_BADJSON (lit "expected a JSON object")
  end.

(** Code and bytes of /status; [None]: undefined. *)
Definition http_handle_status (cap : Z) : option (Z * bytes) :=
  let r := submit (ACTION_STATUS true) in
  if negb (rp_result r =? 0) then Some (-1, [])
  else match rp_status r with
       | None => None
       | Some st =>
           match serialize_status st cap with
           | Undefined => None
           | Refused _ => Some (-1, [])
           | Bound text =>
               if cap <=? strlen text + 1 then Some (-1, []) else Some (0, text ++ nl)
           end
       end.

End Handlers.

(** ** Pushing a status to WebSocket clients *)

(** The listener [run()] registers for client [idx]: address and userdata. *)
Definition ws_status_listener_addr : ptr := 301.

(** One call: the client slots afterwards; [None]: undefined. *)
Definition ws_status_listener (active : bool) (st : strim_controller_status) (userdata : ptr)
    (cs : list ws_client) : option (list ws_client) :=
  match serialize_status st STRIM_HTTP_STATUS_MAX with
  | Undefined => None
  | Refused _ => Some cs
  | Bound text =>
      if STRIM_HTTP_STATUS_MAX <=? strlen text + 1 then Some cs
      else Some (strim_http_ws_send active userdata (Some (text ++ nl)) cs).2
  end.

Definition http_ws_subscribe (client_idx : Z) : Z + strim_action :=
  strim_controller_submit_add_listener true ws_status_listener_addr client_idx.

Definition http_ws_unsubscribe (client_idx : Z) : Z + strim_action :=
  strim_controller_submit_remove_listener true ws_status_listener_addr client_idx.

(** Delivering the notifications of a handler. *)
Fixpoint deliver (active : bool) (ef : list effect) (cs : list ws_client)
  : option (list ws_client) :=
  match ef with
  | [] => Some cs
  | Notify fn u st :: ef' =>
      if fn =? ws_status_listener_addr
      then match ws_status_listener active st u cs with
           | None => None
           | Some cs' => deliver active ef' cs'
           end
      else deliver active ef' cs
  | _ :: ef' => deliver active ef' cs
  end.
