(* ===== verification/CallbacksFacts.v ===== *)
(** * What the callbacks promise

    The status JSON fits its buffers and determines the status; the request
    handlers validate before they submit and report the controller's verdict;
    a notification leaves the newest status in every subscribed client's
    slot. *)

From S2P Require Import Prelude Wire Controller ControllerFacts CtlSpec Wiring Http HttpFacts WsSlot Double Config Json JsonFacts Callbacks.

(** ** Status JSON *)

Definition stage_status_ok (s : strim_stage_status) : Prop :=
  stage_state_ok (desired s) /\ stage_state_ok (actual s).

Definition status_ok (st : strim_controller_status) : Prop :=
  length (st_paths st) = 2%nat /\ Forall path_status_ok (st_paths st) /\
  length (st_stages st) = 4%nat /\ Forall stage_status_ok (st_stages st).

Lemma snapshot_ok (c : strim_controller) : wf_controller c -> status_ok (snapshot c).
Proof.
  intros Hwf. split_and!; simpl.
  - apply Hwf.
  - apply Hwf.
  - rewrite length_map. apply Hwf.
  - apply Forall_forall. intros s Hs. apply list_elem_of_In, in_map_iff in Hs as (g & <- & Hg).
    apply list_elem_of_In, list_elem_of_lookup in Hg as (i & Hi).
    destruct (wf_stages c Hwf i g Hi). by split.
Qed.

(** The spellings of valid values have no double quote and at most nine
    characters. *)
Lemma path_spelling (v : Z) :
  path_status_ok v ->
  exists s, strim_path_status_to_string v = Some s /\ Forall (fun c => c <> 34) s /\
    (length s <= 9)%nat.
Proof.
  unfold path_status_ok, STRIM_PATH_STATUS_COUNT. intros Hv.
  assert (v = 0 \/ v = 1 \/ v = 2) as [-> | [-> | ->]] by lia;
    (eexists; split; [reflexivity|]; split; [by repeat constructor | simpl; lia]).
Qed.

Lemma stage_spelling (v : Z) :
  stage_state_ok v ->
  exists s, strim_stage_state_to_string v = Some s /\ Forall (fun c => c <> 34) s /\
    (length s <= 9)%nat.
Proof.
  unfold stage_state_ok, STRIM_STAGE_RUNNING. intros Hv.
  assert (v = 0 \/ v = 1 \/ v = 2) as [-> | [-> | ->]] by lia;
    (eexists; split; [reflexivity|]; split; [by repeat constructor | simpl; lia]).
Qed.

Lemma path_status_spelled (v w : Z) (s : cstring) :
  path_status_ok v -> path_status_ok w ->
  strim_path_status_to_string v = Some s -> strim_path_status_to_string w = Some s -> v = w.
Proof.
  unfold path_status_ok, STRIM_PATH_STATUS_COUNT. intros Hv Hw.
  assert (v = 0 \/ v = 1 \/ v = 2) as [-> | [-> | ->]] by lia;
    assert (w = 0 \/ w = 1 \/ w = 2) as [-> | [-> | ->]] by lia; intros E1 E2; vm_compute in E1, E2; congruence.
Qed.

Lemma stage_state_spelled (v w : Z) (s : cstring) :
  stage_state_ok v -> stage_state_ok w ->
  strim_stage_state_to_string v = Some s -> strim_stage_state_to_string w = Some s -> v = w.
Proof.
  unfold stage_state_ok, STRIM_STAGE_RUNNING. intros Hv Hw.
  assert (v = 0 \/ v = 1 \/ v = 2) as [-> | [-> | ->]] by lia;
    assert (w = 0 \/ w = 1 \/ w = 2) as [-> | [-> | ->]] by lia; intros E1 E2; vm_compute in E1, E2; congruence.
Qed.

Lemma path_json_spec (nm : cstring) (v : Z) :
  path_status_ok v ->
  exists j, path_json nm v = Some j /\ (length j <= length nm + 14)%nat.
Proof.
  intros Hv. destruct (path_spelling v Hv) as (s & Es & _ & Hl). unfold path_json. rewrite Es.
  eexists. split; [done|]. rewrite !length_app. simpl. lia.
Qed.

Lemma stage_json_spec (nm : cstring) (s : strim_stage_status) :
  stage_status_ok s ->
  exists j, stage_json nm s = Some j /\ (length j <= length nm + 54)%nat.
Proof.
  intros [Hd Ha]. destruct (stage_spelling _ Hd) as (d & Ed & _ & Hl1).
  destruct (stage_spelling _ Ha) as (a & Ea & _ & Hl2). unfold stage_json. rewrite Ed, Ea.
  eexists. split; [done|]. rewrite !length_app. simpl. lia.
Qed.

Lemma status_shape (st : strim_controller_status) :
  status_ok st ->
  exists p0 p1 s0 s1 s2 s3, st = ControllerStatus [p0; p1] [s0; s1; s2; s3] /\
    path_status_ok p0 /\ path_status_ok p1 /\
    stage_status_ok s0 /\ stage_status_ok s1 /\ stage_status_ok s2 /\ stage_status_ok s3.
Proof.
  intros (H1 & H2 & H3 & H4). destruct st as [ps ss]. simpl in *.
  destruct ps as [|p0 [|p1 [|]]]; try done. destruct ss as [|s0 [|s1 [|s2 [|s3 [|]]]]]; try done.
  rewrite !Forall_cons in *. naive_solver.
Qed.

Lemma status_text_total (st : strim_controller_status) :
  status_ok st -> exists t, status_text st = Some t /\ t <> [] /\ strlen t <= 400.
Proof.
  intros (p0 & p1 & s0 & s1 & s2 & s3 & -> & H0 & H1 & G0 & G1 & G2 & G3)%status_shape.
  unfold status_text. cbn [st_paths st_stages].
  destruct (path_json_spec (lit "ingress0") p0 H0) as (j0 & -> & L0).
  destruct (path_json_spec (lit "normalized") p1 H1) as (j1 & -> & L1).
  destruct (stage_json_spec (lit "mediamtx") s0 G0) as (k0 & -> & M0).
  destruct (stage_json_spec (lit "normalize") s1 G1) as (k1 & -> & M1).
  destruct (stage_json_spec (lit "scale_and_egress") s2 G2) as (k2 & -> & M2).
  destruct (stage_json_spec (lit "single_stage_egress") s3 G3) as (k3 & -> & M3).
  eexists. split; [done|]. split; [done|]. unfold strlen. rewrite !length_app. simpl in *. lia.
Qed.

(** Quoted texts are delimited by their closing quote. *)
Lemma quote_split (a b x y : cstring) :
  Forall (fun c => c <> 34) a -> Forall (fun c => c <> 34) b ->
  a ++ dq ++ x = b ++ dq ++ y -> a = b /\ x = y.
Proof.
  intros Ha. revert b. induction Ha as [|c a Hc _ IH]; intros b Hb E.
  - destruct Hb as [|d b Hd _]; [by simplify_eq/= | by simplify_eq/=].
  - destruct Hb as [|d b Hd Hb]; [by simplify_eq/=|]. simplify_eq/=.
    by destruct (IH b Hb) as [-> ->].
Qed.

Lemma path_json_inj (nm : cstring) (v w : Z) (j k x y : cstring) :
  path_status_ok v -> path_status_ok w ->
  path_json nm v = Some j -> path_json nm w = Some k -> j ++ x = k ++ y -> v = w /\ x = y.
Proof.
  intros Hv Hw. unfold path_json.
  destruct (path_spelling v Hv) as (s & Es & Hs & _), (path_spelling w Hw) as (t & Et & Ht & _).
  rewrite Es, Et. intros <-%(inj Some) <-%(inj Some). rewrite <- !app_assoc. intros E.
  do 5 apply app_inv_head in E. apply quote_split in E as [-> ->]; [|done..].
  split; [|done]. by eapply path_status_spelled.
Qed.

Lemma stage_json_inj (nm : cstring) (v w : strim_stage_status) (j k x y : cstring) :
  stage_status_ok v -> stage_status_ok w ->
  stage_json nm v = Some j -> stage_json nm w = Some k -> j ++ x = k ++ y -> v = w /\ x = y.
Proof.
  intros [Hv1 Hv2] [Hw1 Hw2]. unfold stage_json.
  destruct (stage_spelling _ Hv1) as (d & Ed & Hd & _), (stage_spelling _ Hv2) as (a & Ea & Ha & _).
  destruct (stage_spelling _ Hw1) as (e & Ee & He & _), (stage_spelling _ Hw2) as (b & Eb & Hb & _).
  rewrite Ed, Ea, Ee, Eb. intros <-%(inj Some) <-%(inj Some). rewrite <- !app_assoc. intros E.
  do 9 apply app_inv_head in E. apply quote_split in E as [-> E]; [|done..].
  do 6 apply app_inv_head in E. apply quote_split in E as [-> E]; [|done..].
  apply app_inv_head in E. subst y. split; [|done]. destruct v, w. simpl in *.
  f_equal; by eapply stage_state_spelled.
Qed.

Lemma status_text_inj (st st' : strim_controller_status) (t : cstring) :
  status_ok st -> status_ok st' -> status_text st = Some t -> status_text st' = Some t -> st = st'.
Proof.
  intros (p0 & p1 & s0 & s1 & s2 & s3 & -> & H0 & H1 & G0 & G1 & G2 & G3)%status_shape.
  intros (q0 & q1 & t0 & t1 & t2 & t3 & -> & H0' & H1' & G0' & G1' & G2' & G3')%status_shape.
  unfold status_text. cbn [st_paths st_stages].
  destruct (path_json (lit "ingress0") p0) as [a0|] eqn:A0; [|done].
  destruct (path_json (lit "normalized") p1) as [a1|] eqn:A1; [|done].
  destruct (stage_json (lit "mediamtx") s0) as [j0|] eqn:J0; [|done].
  destruct (stage_json (lit "normalize") s1) as [j1|] eqn:J1; [|done].
  destruct (stage_json (lit "scale_and_egress") s2) as [j2|] eqn:J2; [|done].
  destruct (stage_json (lit "single_stage_egress") s3) as [j3|] eqn:J3; [|done].
  destruct (path_json (lit "ingress0") q0) as [b0|] eqn:B0; [|done].
  destruct (path_json (lit "normalized") q1) as [b1|] eqn:B1; [|done].
  destruct (stage_json (lit "mediamtx") t0) as [k0|] eqn:K0; [|done].
  destruct (stage_json (lit "normalize") t1) as [k1|] eqn:K1; [|done].
  destruct (stage_json (lit "scale_and_egress") t2) as [k2|] eqn:K2; [|done].
  destruct (stage_json (lit "single_stage_egress") t3) as [k3|] eqn:K3; [|done].
  intros T1 T2. assert (E := eq_trans T1 (eq_sym T2)). clear T1 T2. injection E as E.
  destruct (path_json_inj _ _ _ _ _ _ _ H0 H0' A0 B0 E) as [-> E1]. injection E1 as E1.
  destruct (path_json_inj _ _ _ _ _ _ _ H1 H1' A1 B1 E1) as [-> E2]. injection E2 as E2.
  destruct (stage_json_inj _ _ _ _ _ _ _ G0 G0' J0 K0 E2) as [-> E3]. injection E3 as E3.
  destruct (stage_json_inj _ _ _ _ _ _ _ G1 G1' J1 K1 E3) as [-> E4]. injection E4 as E4.
  destruct (stage_json_inj _ _ _ _ _ _ _ G2 G2' J2 K2 E4) as [-> E5]. injection E5 as E5.
  by destruct (stage_json_inj _ _ _ _ _ _ _ G3 G3' J3 K3 E5) as [-> _].
Qed.

(** the status JSON.  The status of every well-formed controller is
    serialized (no spelling is NULL) within 400 bytes, so it fits the
    4096-byte buffers of /status and of the WebSocket slot with its trailing
    newline; and the text determines the status: two well-formed controllers
    answer /status alike exactly when every path and every stage has the same
    state. *)
Theorem status_json_faithful (c c' : strim_controller) :
  wf_controller c -> wf_controller c' ->
  exists t t', serialize_status (snapshot c) STRIM_HTTP_STATUS_MAX = Bound t /\
    serialize_status (snapshot c') STRIM_HTTP_STATUS_MAX = Bound t' /\
    strlen t <= 400 /\ (t = t' <-> snapshot c = snapshot c') /\
    http_handle_status (fun _ => Reply 0 (Some (snapshot c))) STRIM_HTTP_STATUS_MAX =
      Some (0, t ++ nl).
Proof.
  intros Hwf Hwf'. pose proof (snapshot_ok c Hwf) as Hs. pose proof (snapshot_ok c' Hwf') as Hs'.
  destruct (status_text_total _ Hs) as (t & Et & _ & Hl), (status_text_total _ Hs') as (t' & Et' & _ & Hl').
  exists t, t'. unfold http_handle_status. cbn [rp_result rp_status Z.eqb negb].
  unfold serialize_status. rewrite Et, Et'. unfold STRIM_HTTP_STATUS_MAX.
  rewrite !(proj2 (Z.leb_gt _ _)) by lia. split_and!; try done. split; [|by intros E; rewrite E in Et; congruence].
  intros <-. by eapply status_text_inj.
Qed.

(** ** Request handlers *)
Lemma snprintf_str_fits (cap : Z) (t : cstring) : 1 <= cap -> strlen (snprintf_str cap t) < cap.
Proof. intros Hc. unfold snprintf_str, strlen. rewrite length_take. lia. Qed.

Section Requests.

Variable yyjson_read : bytes -> option jval.
Variable submit : strim_action -> reply.

Lemma submit_or_fail_fits (cap : Z) (act : strim_action) (t : cstring) :
  1 <= cap -> strlen (submit_or_fail submit cap act t).1.2 < cap.
Proof.
  intros Hc. unfold submit_or_fail. destruct (_ =? 0); [unfold strlen; simpl; lia | by apply snprintf_str_fits].
Qed.

(** The error text always fits its buffer. *)
Lemma event_text_fits (cap : Z) (body : bytes) :
  1 <= cap -> strlen (http_handle_event yyjson_read submit cap body).1.2 < cap.
Proof.
  intros Hc. unfold http_handle_event, refuse.
  destruct (yyjson_read body) as [[|?|?| |s|l|ms]|]; try (by apply snprintf_str_fits).
  destruct (json_enum _ _ _ _ strim_path_name_from_string) as [[rc t]|v];
    [by apply snprintf_str_fits|].
  destruct (json_enum _ _ _ _ strim_path_status_from_string) as [[rc t]|w];
    [by apply snprintf_str_fits|]. by apply submit_or_fail_fits.
Qed.

Lemma control_text_fits (cap : Z) (body : bytes) :
  1 <= cap -> strlen (http_handle_control yyjson_read submit cap body).1.2 < cap.
Proof.
  intros Hc. unfold http_handle_control, refuse.
  destruct (yyjson_read body) as [[|?|?| |s|l|ms]|]; try (by apply snprintf_str_fits).
  destruct (json_enum _ _ _ _ strim_control_component_from_string) as [[rc t]|v];
    [by apply snprintf_str_fits|].
  destruct (json_enum _ _ _ _ strim_control_action_from_string) as [[rc t]|w];
    [by apply snprintf_str_fits|]. by apply submit_or_fail_fits.
Qed.

(** A member decodes to an in-range value or to -1. *)
Lemma json_enum_value (strs : list cstring) `{!WireTable strs} (root : jval) (k a b : cstring) (v : Z) :
  json_enum root k a b (from_string strs) = inr v ->
  v = -1 /\ yyjson_obj_get root k = None \/
  exists s, yyjson_obj_get root k = Some (JStr s) /\ 0 <= v /\ strs !! Z.to_nat v = Some (c_string s).
Proof.
  unfold json_enum, json_obj_string. destruct (yyjson_obj_get root k) as [[|?|?| |s|l|ms]|]; try done.
  - destruct (from_string strs (Some (c_string s)) true) as [x|] eqn:E; [|done]. intros [= ->].
    right. exists s. split; [done|]. by apply from_string_Some in E.
  - intros [= <-]. by left.
Qed.

(** A member that spells a value of the table decodes to it. *)
Lemma json_enum_spelled (strs : list cstring) `{!WireTable strs} (root : jval) (k a b s t : cstring) (v : Z) :
  yyjson_obj_get root k = Some (JStr s) -> c_string s = t -> 0 <= v -> strs !! Z.to_nat v = Some t ->
  json_enum root k a b (from_string strs) = inr v.
Proof.
  intros Hg Hc Hv Hl. unfold json_enum, json_obj_string. rewrite Hg, Hc.
  assert (from_string strs (Some t) true = Some v) as -> by (by apply from_string_Some). done.
Qed.

(** The code of a handler, for the HTTP lane. *)
Definition event_handler (body : bytes) : Z * cstring :=
  (http_handle_event yyjson_read submit STRIM_HTTP_ERRBUF_MAX body).1.
Definition control_handler (body : bytes) : Z * cstring :=
  (http_handle_control yyjson_read submit STRIM_HTTP_ERRBUF_MAX body).1.

End Requests.

(** The two POST routes: member names, wire tables, action and error text. *)
Definition first_key (event : bool) : cstring := if event then lit "path" else lit "component".
Definition second_key (event : bool) : cstring := if event then lit "status" else lit "action".
Definition first_table (event : bool) : list cstring :=
  if event then k_path_name_strs else k_control_component_strs.
Definition second_table (event : bool) : list cstring :=
  if event then k_path_status_strs else k_control_action_strs.
Definition request_action (event : bool) (v w : Z) : strim_action :=
  if event then ACTION_PATH_EVENT (PathEvent v w) else ACTION_CONTROL (ControlCommand v w).
Definition refusal_text (event : bool) : cstring :=
  if event then lit "could not handle path event" else lit "could not handle control".

Definition request_outcome (event : bool) (yyjson_read : bytes -> option jval)
    (submit : strim_action -> reply) (body : bytes) :=
  if event then http_handle_event yyjson_read submit STRIM_HTTP_ERRBUF_MAX body
  else http_handle_control yyjson_read submit STRIM_HTTP_ERRBUF_MAX body.

(** The members spell [v] and [w]. *)
Definition spells (event : bool) (ms : list (bytes * jval)) (v w : Z) : Prop :=
  exists s t,
    yyjson_obj_get (JObj ms) (first_key event) = Some (JStr s) /\ 0 <= v /\
    first_table event !! Z.to_nat v = Some (c_string s) /\
    yyjson_obj_get (JObj ms) (second_key event) = Some (JStr t) /\ 0 <= w /\
    second_table event !! Z.to_nat w = Some (c_string t).

Lemma request_spelled (event : bool) (yyjson_read : bytes -> option jval)
    (submit : strim_action -> reply) (body : bytes) (ms : list (bytes * jval)) (v w : Z) :
  yyjson_read body = Some (JObj ms) -> spells event ms v w ->
  let act := request_action event v w in
  request_outcome event yyjson_read submit body =
  (rp_result (submit act), if rp_result (submit act) =? 0 then [] else refusal_text event, Some act).
Proof.
  intros Hr (s & t & G1 & V1 & T1 & G2 & V2 & T2). cbv zeta. unfold request_outcome.
  destruct event; cbn [first_key second_key first_table second_table] in *;
    [unfold http_handle_event | unfold http_handle_control]; rewrite Hr;
    unfold strim_path_name_from_string, strim_path_status_from_string,
      strim_control_component_from_string, strim_control_action_from_string;
    rewrite (json_enum_spelled _ _ _ _ _ _ _ v G1 eq_refl V1 T1);
    rewrite (json_enum_spelled _ _ _ _ _ _ _ w G2 eq_refl V2 T2);
    unfold submit_or_fail; cbn [request_action];
    match goal with
    | |- context [submit ?a] =>
        destruct (Z.eqb_spec (rp_result (submit a)) 0) as [E|E]; cbn [negb]; [by rewrite E | done]
    end.
Qed.

(** The codes the controller answers a request with. *)
Lemma request_codes (event : bool) (call : ptr -> ptr -> strim_controller -> Z) (sd : bool)
    (o : Z -> fire_oracle) (c : strim_controller) (v w : Z) :
  rp_result (run_action call sd o c (request_action event v w)).1.1 ∈ [0; -1; -2; -3].
Proof.
  assert (Ha : forall c r, (apply_desired_stage_target call c r).1.1 ∈ [0; -1; -2; -3]).
  { intros c1 r. unfold apply_desired_stage_target.
    repeat case_match; simpl; by_decide. }
  destruct event; cbn [request_action run_action].
  - unfold strim_controller_handle_path_event.
    destruct (_ <=? _); [by_decide|]. destruct (negb _); [by_decide|]. cbv zeta.
    destruct (find_path_event_route _ _ _) as [r|]; [|by_decide].
    specialize (Ha (with_paths (<[Z.to_nat v := w]> (c_paths c)) c) r).
    cbn [pe_path pe_status] in *. by destruct (apply_desired_stage_target _ _ _) as [[? ?] ?].
  - unfold strim_controller_handle_control.
    destruct (_ <=? _); [by_decide|]. destruct (_ <=? _); [by_decide|].
    destruct (find_control_route _ _ _) as [r|]; [|by_decide].
    specialize (Ha c r). by destruct (apply_desired_stage_target _ _ _) as [[? ?] ?].
Qed.

(** A request that spells its values, from the body to the answer. *)
Lemma request_answered (event : bool) (yyjson_read : bytes -> option jval)
    (call : ptr -> ptr -> strim_controller -> Z) (sd : bool) (o : Z -> fire_oracle)
    (c : strim_controller) (handle_status : Z * bytes) (version commit : cstring) (junk : bytes)
    (h : headers) (chunks : list bytes) (ms : list (bytes * jval)) (v w : Z) :
  Z.of_nat (length (concat chunks)) <= STRIM_HTTP_BODY_MAX ->
  yyjson_read (concat chunks) = Some (JObj ms) -> spells event ms v w ->
  let submit a := (run_action call sd o c a).1.1 in
  let act := request_action event v w in
  (request_outcome event yyjson_read submit (concat chunks)).2 = Some act /\
  exists r,
    answer_cb (event_handler yyjson_read submit) (control_handler yyjson_read submit) handle_status
      version commit junk h (Some (lit "POST")) (Some (post_url event)) chunks =
    (post_call event (concat chunks) ::
       (if rp_result (submit act) =? 0 then [CallReconcile] else []), Answer r) /\
    (rs_status r, rs_body r) =
    (if rp_result (submit act) =? 0 then (MHD_HTTP_NO_CONTENT, [])
     else (MHD_HTTP_INTERNAL_SERVER_ERROR, refusal_text event ++ nl)).
Proof.
  intros Hlen Hr Hsp submit act.
  pose proof (request_spelled event yyjson_read submit _ ms v w Hr Hsp) as Ho. cbv zeta in Ho.
  fold act in Ho. split; [by rewrite Ho|].
  assert (Hh : post_handler (event_handler yyjson_read submit) (control_handler yyjson_read submit)
                 event (concat chunks) = (request_outcome event yyjson_read submit (concat chunks)).1)
    by (by destruct event).
  pose proof (post_contract (event_handler yyjson_read submit) (control_handler yyjson_read submit)
    handle_status version commit junk event h chunks) as Hp. cbv zeta in Hp.
  rewrite Hh, Ho in Hp. cbn [fst snd] in Hp. rewrite (proj2 (Z.leb_le _ _)) in Hp by done.
  destruct Hp as (r & [H1 H2] & _).
  { intros b. destruct event; [by apply event_text_fits | by apply control_text_fits]. }
  exists r. split; [exact H1|]. rewrite H2. unfold post_answer.
  pose proof (request_codes event call sd o c v w) as Hc. fold act in Hc. fold (submit act) in Hc.
  destruct (Z.eqb_spec (rp_result (submit act)) 0); [done|].
  rewrite (proj2 (Z.eqb_neq _ _)).
  - by destruct event.
  - intros E. rewrite E in Hc. unfold STRIM_HTTP_ERR_BADJSON in Hc. set_solver by lia.
Qed.

(** C8: requests end to end.  A POST to /event or /control whose body (in any
    chunks, up to 16384 bytes) is a JSON object whose two members spell values
    of the wire tables is decoded to exactly that event or command, which is
    the one action submitted to the controller; the answer is an empty 204
    and a reconcile is requested when the controller accepts it, and 500 with
    the refusal text and no reconcile when it does not. *)
Theorem http_request_end_to_end (event : bool) (yyjson_read : bytes -> option jval)
    (call : ptr -> ptr -> strim_controller -> Z) (sd : bool) (o : Z -> fire_oracle)
    (c : strim_controller) (handle_status : Z * bytes) (version commit : cstring) (junk : bytes)
    (h : headers) (chunks : list bytes) (ms : list (bytes * jval)) (v w : Z) :
  Z.of_nat (length (concat chunks)) <= STRIM_HTTP_BODY_MAX ->
  yyjson_read (concat chunks) = Some (JObj ms) -> spells event ms v w ->
  let submit a := (run_action call sd o c a).1.1 in
  let act := request_action event v w in
  (request_outcome event yyjson_read submit (concat chunks)).2 = Some act /\
  exists r,
    answer_cb (event_handler yyjson_read submit) (control_handler yyjson_read submit) handle_status
      version commit junk h (Some (lit "POST")) (Some (post_url event)) chunks =
    (post_call event (concat chunks) ::
       (if rp_result (submit act) =? 0 then [CallReconcile] else []), Answer r) /\
    (rs_status r, rs_body r) =
    (if rp_result (submit act) =? 0 then (MHD_HTTP_NO_CONTENT, [])
     else (MHD_HTTP_INTERNAL_SERVER_ERROR, refusal_text event ++ nl)).
Proof. apply request_answered. Qed.

(** ** Pushing statuses *)

Definition open_slot (c : ws_client) : bool := in_use c && negb (closed c) && negb (closing c).

Definition subscribed (ls : list strim_listener_entry) (i : nat) : bool :=
  existsb (fun l => (l_fn l =? ws_status_listener_addr) && (l_userdata l =? Z.of_nat i)) ls.

(** One delivery: the slot named by the listener, if it is open, holds the
    text; the other slots are as they were. *)
Lemma listener_push (st : strim_controller_status) (u : ptr) (cs : list ws_client) (t : cstring) :
  length cs = STRIM_HTTP_MAX_WS_CLIENTS -> status_text st = Some t -> t <> [] -> strlen t <= 400 ->
  exists cs', ws_status_listener true st u cs = Some cs' /\ length cs' = length cs /\
    forall i c, cs !! i = Some c ->
      cs' !! i = Some (if (u =? Z.of_nat i) && open_slot c then set_pending (Some (t ++ nl)) c else c).
Proof.
  intros Hlen Ht Hne Hl. unfold ws_status_listener, serialize_status. rewrite Ht.
  unfold STRIM_HTTP_STATUS_MAX in *. rewrite !(proj2 (Z.leb_gt _ _)) by lia.
  eexists. split; [done|].
  assert (Hn : Z.of_nat (length (t ++ nl)) = strlen t + 1) by (unfold strlen; rewrite length_app; simpl; lia).
  unfold strim_http_ws_send. cbn [negb orb].
  unfold STRIM_HTTP_STATUS_MAX in *. rewrite Hn, (proj2 (Z.eqb_neq (strlen t + 1) 0)) by (unfold strlen; lia).
  rewrite (proj2 (Z.ltb_ge 4096 _)) by lia. cbn [orb]. rewrite <- Hlen.
  destruct (_ || _) eqn:Er; cbn [snd].
  { split; [done|]. intros i c Hi. apply lookup_lt_Some in Hi as Hi'. destruct (Z.eqb_spec u (Z.of_nat i)); [|done].
    apply orb_true_iff in Er as [E%Z.ltb_lt|E%Z.leb_le]; lia. }
  apply orb_false_iff in Er as [E1%Z.ltb_ge E2%Z.leb_gt].
  destruct (cs !! Z.to_nat u) as [c0|] eqn:E0;
    [|apply lookup_ge_None in E0; lia].
  fold (open_slot c0). destruct (open_slot c0) eqn:Eo; cbn [snd].
  - split; [apply length_insert|]. intros i c Hi. destruct (Z.eqb_spec u (Z.of_nat i)) as [->|Hne'].
    + rewrite Nat2Z.id in *. rewrite list_lookup_insert_eq by (by eapply lookup_lt_Some). simplify_eq.
      by rewrite Eo.
    + rewrite list_lookup_insert_ne by lia. done.
  - split; [done|]. intros i c Hi. destruct (Z.eqb_spec u (Z.of_nat i)) as [->|Hne']; [|done].
    rewrite Nat2Z.id in *. simplify_eq. by rewrite Eo.
Qed.

Lemma open_slot_pending (p : option bytes) (c : ws_client) : open_slot (set_pending p c) = open_slot c.
Proof. by destruct p. Qed.

Lemma set_pending_twice (b : bytes) (c : ws_client) :
  set_pending (Some b) (set_pending (Some b) c) = set_pending (Some b) c.
Proof. done. Qed.

Lemma deliver_all (ls : list strim_listener_entry) (st : strim_controller_status) (cs : list ws_client)
    (t : cstring) :
  length cs = STRIM_HTTP_MAX_WS_CLIENTS -> status_text st = Some t -> t <> [] -> strlen t <= 400 ->
  exists cs', deliver true (map (fun l => Notify (l_fn l) (l_userdata l) st) ls) cs = Some cs' /\
    length cs' = length cs /\
    forall i c, cs !! i = Some c ->
      cs' !! i = Some (if subscribed ls i && open_slot c then set_pending (Some (t ++ nl)) c else c).
Proof.
  intros Hlen Ht Hne Hl. revert cs Hlen. induction ls as [|l ls IH]; intros cs Hlen.
  { exists cs. by split_and!. }
  cbn [map deliver subscribed existsb]. destruct (l_fn l =? ws_status_listener_addr); cbn [andb].
  - destruct (listener_push st (l_userdata l) cs t Hlen Ht Hne Hl) as (cs1 & -> & Hl1 & H1).
    destruct (IH cs1 ltac:(congruence)) as (cs2 & E2 & Hl2 & H2). exists cs2.
    split; [done|]. split; [congruence|]. intros i c Hi. pose proof (H1 i c Hi) as Hi1.
    rewrite (H2 i _ Hi1). f_equal. fold (subscribed ls i).
    destruct (_ =? Z.of_nat i); cbn [andb orb]; [|done].
    destruct (open_slot c) eqn:Eo; rewrite ?open_slot_pending, ?Eo, ?andb_true_r, ?andb_false_r;
      [|done]. by destruct (subscribed ls i).
  - apply (IH cs Hlen).
Qed.

(** ** The document a client reads *)

Definition path_word (v : Z) : cstring :=
  if v =? STRIM_PATH_READY then lit "ready" else if v =? STRIM_PATH_NOT_READY then lit "not-ready" else lit "unknown".

(** A stage without a target has the empty word. *)
Definition stage_word (v : Z) : cstring :=
  if v =? STRIM_STAGE_RUNNING then lit "running" else if v =? STRIM_STAGE_STOPPED then lit "stopped" else [].

Definition path_member (nm : string) (path : Z) (c : strim_controller) : bytes * jval :=
  (lit nm, JStr (path_word (default STRIM_PATH_UNKNOWN (c_paths c !! Z.to_nat path)))).

Definition stage_member (nm : string) (stage : Z) (c : strim_controller) : bytes * jval :=
  (lit nm, match c_stages c !! Z.to_nat stage with
           | Some g => JObj [(lit "desired", JStr (stage_word (desired (s_status g))));
                             (lit "actual", JStr (stage_word (actual (s_status g))))]
           | None => JNull
           end).

(** The status of a controller: every path with its state, every stage with
    what is wanted of it and what it is. *)
Definition status_doc (c : strim_controller) : jval :=
  JObj [(lit "paths", JObj [path_member "ingress0" STRIM_PATH_INGRESS0 c;
                            path_member "normalized" STRIM_PATH_NORMALIZED c]);
        (lit "stages", JObj [stage_member "mediamtx" STRIM_STAGE_MEDIA_MTX c;
                             stage_member "normalize" STRIM_STAGE_NORMALIZE c;
                             stage_member "scale_and_egress" STRIM_STAGE_SCALE_AND_EGRESS c;
                             stage_member "single_stage_egress" STRIM_STAGE_SINGLE_STAGE_EGRESS c])].

Lemma path_word_quoted (v : Z) : path_status_ok v ->
  exists s, strim_path_status_to_string v = Some s /\ quoted (path_word v) = dq ++ s ++ dq /\ text_ok (path_word v).
Proof.
  unfold path_status_ok, STRIM_PATH_STATUS_COUNT. intros Hv.
  assert (v = 0 \/ v = 1 \/ v = 2) as [-> | [-> | ->]] by lia; (eexists; split; [reflexivity|]; split; [reflexivity|]; repeat (constructor; [discriminate|]); constructor).
Qed.

Lemma stage_word_quoted (v : Z) : stage_state_ok v ->
  exists s, strim_stage_state_to_string v = Some s /\ quoted (stage_word v) = dq ++ s ++ dq /\ text_ok (stage_word v).
Proof.
  unfold stage_state_ok, STRIM_STAGE_RUNNING. intros Hv.
  assert (v = 0 \/ v = 1 \/ v = 2) as [-> | [-> | ->]] by lia; (eexists; split; [reflexivity|]; split; [reflexivity|]; repeat (constructor; [discriminate|]); constructor).
Qed.

Lemma path_json_text (nm : string) (v : Z) : path_status_ok v -> quoted (lit nm) = dq ++ lit nm ++ dq ->
  path_json (lit nm) v = Some (quoted (lit nm) ++ [58] ++ quoted (path_word v)).
Proof.
  intros Hv ->. destruct (path_word_quoted v Hv) as (s & Es & -> & _). unfold path_json. rewrite Es.
  by rewrite <- !app_assoc.
Qed.

Lemma stage_json_text (nm : string) (s : strim_stage_status) : stage_status_ok s -> quoted (lit nm) = dq ++ lit nm ++ dq ->
  stage_json (lit nm) s =
    Some (quoted (lit nm) ++ [58] ++ render (JObj [(lit "desired", JStr (stage_word (desired s)));
                                                   (lit "actual", JStr (stage_word (actual s)))])).
Proof.
  intros [Hd Ha] ->. destruct (stage_word_quoted _ Hd) as (d & Ed & Rd & _).
  destruct (stage_word_quoted _ Ha) as (a & Ea & Ra & _). unfold stage_json. rewrite Ed, Ea.
  cbn [render map commas fst snd]. rewrite Rd, Ra. rewrite <- !app_assoc. do 2 (cbn [app]; rewrite <- !app_assoc). done.
Qed.

(** The printed status is that document. *)
Lemma status_text_doc (c : strim_controller) : wf_controller c ->
  status_text (snapshot c) = Some (render (status_doc c)) /\ doc_ok (status_doc c).
Proof.
  intros Hwf. destruct (status_shape _ (snapshot_ok c Hwf))
    as (p0 & p1 & s0 & s1 & s2 & s3 & Est & H0 & H1 & G0 & G1 & G2 & G3).
  rewrite Est. injection Est as Ep Es. unfold status_doc, path_member, stage_member. rewrite Ep.
  destruct (c_stages c) as [|g0 [|g1 [|g2 [|g3 [|]]]]]; try done. injection Es as <- <- <- <-.
  repeat match goal with |- context [Z.to_nat ?n] =>
    let v := eval compute in (Z.to_nat n) in change (Z.to_nat n) with v end.
  cbn [lookup list_lookup default].
  split.
  - unfold status_text. cbn [st_paths st_stages].
    rewrite !path_json_text, !stage_json_text by done. f_equal.
    cbn [render map commas fst snd].
    repeat (cbn [app]; rewrite <- !app_assoc). reflexivity.
  - destruct (path_word_quoted _ H0) as (? & _ & _ & ?), (path_word_quoted _ H1) as (? & _ & _ & ?).
    destruct G0 as [D0 A0], G1 as [D1 A1], G2 as [D2 A2], G3 as [D3 A3].
    repeat match goal with H : stage_state_ok _ |- _ => apply stage_word_quoted in H as (? & _ & _ & ?) end.
    assert (Hl : forall nm, forallb (Z.leb 0) (lit nm) = true -> text_ok (lit nm)).
    { intros nm E. apply Forall_forall. intros b Hb. rewrite forallb_forall in E.
      apply Z.leb_le, E. by apply list_elem_of_In. }
    cbn -[lit text_ok]. split_and!; done || by apply Hl.
Qed.

(** C29: status pushes.  When a well-formed controller notifies its
    listeners, every open WebSocket slot whose client is subscribed then
    holds one line of JSON, replacing whatever was pending (latest wins): the
    document [status_doc] of the controller, with the state of each of the two
    paths and, for each of the four stages, its desired and its actual state,
    which a JSON reader reads back; every other slot is unchanged, and no
    delivery is undefined. *)
Theorem subscribers_hold_latest_status (c : strim_controller) (cs : list ws_client) :
  wf_controller c -> length cs = STRIM_HTTP_MAX_WS_CLIENTS ->
  read_json (render (status_doc c)) = Some (status_doc c) /\
  exists cs', deliver true (notify_listeners c) cs = Some cs' /\
    forall i k, cs !! i = Some k ->
      cs' !! i = Some (if subscribed (c_listeners c) i && open_slot k
                       then set_pending (Some (render (status_doc c) ++ nl)) k else k).
Proof.
  intros Hwf Hlen. destruct (status_text_doc c Hwf) as [Et Hok].
  destruct (status_text_total _ (snapshot_ok c Hwf)) as (t & Et' & Hne & Hl). rewrite Et in Et'. injection Et' as <-.
  destruct (deliver_all (c_listeners c) (snapshot c) cs _ Hlen Et Hne Hl) as (cs' & Hd & _ & Hs).
  split; [by apply read_json_render|]. exists cs'. split; [|done].
  unfold notify_listeners. by destruct (c_listeners c).
Qed.

(** ** The controller of main.c

    Instances of the theorems on the controller [run()] builds. *)

Definition demo_controller : strim_controller := main_controller 0 false 30000 16.

Lemma demo_wf : wf_controller demo_controller.
Proof. apply main_controller_wf; done. Qed.

Lemma status_json_faithful_witness :
  exists t, serialize_status (snapshot demo_controller) STRIM_HTTP_STATUS_MAX = Bound t /\
    strlen t <= 400.
Proof.
  destruct (status_json_faithful demo_controller demo_controller demo_wf demo_wf)
    as (t & t' & H1 & _ & H2 & _).
  exists t. exact (conj H1 H2).
Defined.

(** A parser that knows one body. *)
Definition demo_members : list (bytes * jval) :=
  [(lit "path", JStr (lit "ingress0")); (lit "status", JStr (lit "ready"))].
Definition demo_read (body : bytes) : option jval :=
  if bool_decide (body = lit "B") then Some (JObj demo_members) else None.

Definition demo_oracle (i : Z) : fire_oracle := FireOracle false 0 0 true 0.

Lemma http_request_end_to_end_witness :
  exists r, answer_cb (event_handler demo_read (fun a => (run_action call_main_prerequisite false demo_oracle demo_controller a).1.1))
      (control_handler demo_read (fun a => (run_action call_main_prerequisite false demo_oracle demo_controller a).1.1))
      (0, []) [] [] [] (Headers None None None None) (Some (lit "POST")) (Some (post_url true)) [lit "B"] =
    ([CallEvent (lit "B"); CallReconcile], Answer r) /\ rs_status r = MHD_HTTP_NO_CONTENT.
Proof.
  assert (H1 : Z.of_nat (length (concat [lit "B"])) <= STRIM_HTTP_BODY_MAX) by (vm_compute; discriminate).
  assert (H2 : demo_read (concat [lit "B"]) = Some (JObj demo_members)) by reflexivity.
  assert (H3 : spells true demo_members STRIM_PATH_INGRESS0 STRIM_PATH_READY).
  { exists (lit "ingress0"), (lit "ready"). by split_and!. }
  destruct (http_request_end_to_end true demo_read call_main_prerequisite false demo_oracle
    demo_controller (0, []) [] [] [] (Headers None None None None) [lit "B"] demo_members
    STRIM_PATH_INGRESS0 STRIM_PATH_READY H1 H2 H3) as (_ & r & Ha & Hb).
  exists r. split; [exact Ha | exact (f_equal fst Hb)].
Defined.

(** Client 0 subscribed, its slot open. *)
Definition demo_subscribed : strim_controller :=
  with_listeners [ListenerEntry ws_status_listener_addr 0] demo_controller.

Lemma demo_subscribed_wf : wf_controller demo_subscribed.
Proof. destruct demo_wf. by split. Qed.

Definition demo_slots : list ws_client :=
  WsClient true false false false [] false 0 0 true (Some 1%nat) [] :: replicate 3 free_client.

Lemma subscribers_hold_latest_status_witness :
  exists cs' k, deliver true (notify_listeners demo_subscribed) demo_slots = Some cs' /\
    cs' !! 0%nat = Some k /\ has_pending k = true /\ pending k = render (status_doc demo_subscribed) ++ nl.
Proof.
  destruct (subscribers_hold_latest_status demo_subscribed demo_slots demo_subscribed_wf eq_refl)
    as (_ & cs' & Hd & Hs).
  eexists cs', _. split; [exact Hd|]. split; [apply (Hs 0%nat _ eq_refl)|]. split; reflexivity.
Defined.
