(* ===== verification/Spec.v ===== *)
(** * Container specs (core/spec.c)

    The host layout, the bind-mount lists and the stage argv that the start
    op hands to containerd.  The string fields of a layout are possibly-NULL
    pointers; the static buffers that back them are not modelled apart from
    their size (they are filled once, at boot). *)

From S2P Require Import Prelude Wire Controller Http Double Config Wiring EnvFile.

Definition STRIM_SPEC_PATH_MAX : Z := 4096.
Definition STRIM_SPEC_MAX_MOUNTS : Z := 256.
Definition STRIM_SPEC_ERR_BADARG : Z := -1.
Definition STRIM_SPEC_ERR_TOOSMALL : Z := -2.

Definition STRIM_CTR_ENV : cstring := lit "/strimserver.env".
Definition STRIM_CTR_TRANSCODE : cstring := lit "/transcode.sh".
Definition STRIM_CTR_NOTIFY : cstring := lit "/notify".
Definition STRIM_CTR_MEDIAMTX_TMPL : cstring := lit "/mediamtx.yaml.template".
Definition STRIM_CTR_SRT_SECRET : cstring := lit "/run/secrets/srt-passphrase".
Definition STRIM_CTR_VIDEO_DIR : cstring := lit "/video-files".
Definition STRIM_CTR_RESOLV_CONF : cstring := lit "/etc/resolv.conf".
Definition STRIM_CTR_TMP : cstring := lit "/tmp".

Record strim_layout := Layout {
  ly_env : option cstring;
  ly_transcode : option cstring;
  ly_notify : option cstring;
  ly_mediamtx_tmpl : option cstring;
  ly_srt_pass : option cstring;
  ly_video_dir : option cstring;
  ly_resolv_conf : option cstring;
  ly_tmp : option cstring;
}.

Record strim_mount := Mount {
  m_source : cstring;
  m_destination : cstring;
  m_read_write : bool;
}.

Definition strim_default_unix_env : list cstring :=
  [lit "PATH=/usr/local/sbin:/usr/local/bin:/usr/sbin:/usr/bin:/sbin:/bin"].

Definition strim_spec_added_capabilities : list cstring := [lit "CAP_SYS_NICE"].

(** ** Layout *)

Definition join_path (cap : Z) (base suffix : cstring) : cstring :=
  if streq base (lit "/") then snprintf_str cap suffix
  else snprintf_str cap (base ++ lit "/" ++ suffix).

(** Remove trailing slashes, keeping at least one character. *)
Fixpoint drop_slashes (fuel : nat) (root : cstring) : cstring :=
  match fuel with
  | O => root
  | S fuel' =>
      if (1 <? length root)%nat && (default 0 (last root) =? chr "/")
      then drop_slashes fuel' (take (length root - 1) root)
      else root
  end.

Definition layout_root (host_root : option cstring) : cstring :=
  let r := match host_root with None | Some [] => lit "/mnt/nvme" | Some r => r end in
  let root := snprintf_str STRIM_SPEC_PATH_MAX r in
  drop_slashes (length root) root.

Definition strim_default_layout (host_root : option cstring) : strim_layout :=
  let root := layout_root host_root in
  let at_root := join_path STRIM_SPEC_PATH_MAX root in
  Layout (Some (at_root (lit "config/strimserver.env")))
    (Some (at_root (lit "bin/transcode.sh")))
    (Some (at_root (lit "bin/notify")))
    (Some (at_root (lit "config/mediamtx.yaml.template")))
    (Some (at_root (lit "srt-passphrase")))
    (Some (at_root (lit "video-files")))
    (Some (lit "/run/systemd/resolve/resolv.conf"))
    (Some (lit "/tmp")).

(** ** Mount lists: the list filled, or the error code *)

Definition strim_ffmpeg_mounts (layout : option strim_layout) (mounts : bool) (cap : Z)
  : Z + list strim_mount :=
  match layout, mounts with
  | Some ly, true =>
      match ly_env ly, ly_transcode ly, ly_resolv_conf ly, ly_tmp ly with
      | Some env, Some transcode, Some resolv_conf, Some tmp =>
          if cap <? 4 then inl STRIM_SPEC_ERR_TOOSMALL
          else inr [ Mount env STRIM_CTR_ENV false;
                     Mount transcode STRIM_CTR_TRANSCODE false;
                     Mount resolv_conf STRIM_CTR_RESOLV_CONF false;
                     Mount tmp STRIM_CTR_TMP true ]
      | _, _, _, _ => inl STRIM_SPEC_ERR_BADARG
      end
  | _, _ => inl STRIM_SPEC_ERR_BADARG
  end.

Definition strim_mediamtx_mounts (layout : option strim_layout) (mounts : bool) (cap : Z)
  : Z + list strim_mount :=
  match layout, mounts with
  | Some ly, true =>
      match ly_env ly, ly_mediamtx_tmpl ly, ly_notify ly, ly_srt_pass ly, ly_video_dir ly, ly_tmp ly with
      | Some env, Some tmpl, Some notify, Some srt_pass, Some video_dir, Some tmp =>
          if cap <? 6 then inl STRIM_SPEC_ERR_TOOSMALL
          else inr [ Mount env STRIM_CTR_ENV false;
                     Mount tmpl STRIM_CTR_MEDIAMTX_TMPL false;
                     Mount notify STRIM_CTR_NOTIFY false;
                     Mount srt_pass STRIM_CTR_SRT_SECRET false;
                     Mount video_dir STRIM_CTR_VIDEO_DIR true;
                     Mount tmp STRIM_CTR_TMP true ]
      | _, _, _, _, _, _ => inl STRIM_SPEC_ERR_BADARG
      end
  | _, _ => inl STRIM_SPEC_ERR_BADARG
  end.

(** ** Stage argv *)

(** The wire name of the first entry with the id, else the id itself. *)
Definition stage_str (table : list strim_stage_table_entry) (container_id : cstring) : cstring :=
  match find_first (fun e => streq (te_container_id e) container_id) table with
  | Some e => default container_id (strim_stage_name_to_string (te_stage e))
  | None => container_id
  end.

Definition strim_stage_argv (table : list strim_stage_table_entry) (container_id : option cstring)
    (argv0_cap argv1_cap : Z) : Z + (cstring * cstring) :=
  match container_id with
  | None => inl STRIM_SPEC_ERR_BADARG
  | Some id =>
      if (argv0_cap =? 0) || (argv1_cap =? 0) then inl STRIM_SPEC_ERR_BADARG
      else if argv0_cap <=? strlen STRIM_CTR_TRANSCODE then inl STRIM_SPEC_ERR_TOOSMALL
      else if argv1_cap <=? strlen (stage_str table id) then inl STRIM_SPEC_ERR_TOOSMALL
      else inr (STRIM_CTR_TRANSCODE, stage_str table id)
  end.
