(* ===== verification/SpecFacts.v ===== *)
(** * What the container specs contain *)

From S2P Require Import Prelude Wire Controller ControllerFacts Http Double Config Wiring EnvFile Spec.

(** ** Layout *)
Lemma drop_slashes_spec (fuel : nat) (root : cstring) :
  (length root <= fuel)%nat -> root <> [] ->
  exists k, root = drop_slashes fuel root ++ replicate k (chr "/") /\ drop_slashes fuel root <> [] /\
    (length (drop_slashes fuel root) = 1%nat \/ default 0 (last (drop_slashes fuel root)) <> chr "/").
Proof.
  revert root. induction fuel as [|fuel IH]; intros root Hf Hne; [destruct root; [done|simpl in Hf; lia]|].
  cbn [drop_slashes]. destruct ((1 <? length root)%nat && _) eqn:E.
  - apply andb_true_iff in E as [E1%Nat.ltb_lt E2%Z.eqb_eq].
    destruct (last root) as [z|] eqn:El; [|done]. simpl in E2. subst z.
    apply last_Some in El as (r & ->). rewrite length_app in *. simpl in *.
    replace (length r + 1 - 1)%nat with (length r) by lia. rewrite take_app_length.
    destruct (IH r) as (k & Hk & H1 & H2); [lia | destruct r; [simpl in E1; lia | done] |].
    exists (k + 1)%nat. split_and!; [|done..].
    rewrite Hk at 1. rewrite <- app_assoc. f_equal. by rewrite replicate_add.
  - exists 0%nat. rewrite app_nil_r. split_and!; [done..|].
    apply andb_false_iff in E as [E%Nat.ltb_ge|E%Z.eqb_neq]; [left|by right].
    destruct root; [done|]. simpl in *. lia.
Qed.

Lemma snprintf_str_short (cap : Z) (t : cstring) : strlen t < cap -> snprintf_str cap t = t.
Proof. intros H. unfold snprintf_str, strlen in *. apply take_ge. lia. Qed.

(** The layout's paths under the host root, relative to it. *)
Definition layout_suffixes : list cstring :=
  [lit "config/strimserver.env"; lit "bin/transcode.sh"; lit "bin/notify";
   lit "config/mediamtx.yaml.template"; lit "srt-passphrase"; lit "video-files"].

Definition layout_paths (ly : strim_layout) : list (option cstring) :=
  [ly_env ly; ly_transcode ly; ly_notify ly; ly_mediamtx_tmpl ly; ly_srt_pass ly; ly_video_dir ly].

(** the host layout.  For every host root of at most 4000 characters the
    root loses exactly its trailing slashes, and (unless nothing but "/" is
    left) every path of the layout is that root, one slash and the fixed
    suffix, untruncated; an empty root means /mnt/nvme.  For the root "/" the
    code joins without the slash, so the paths come out relative. *)
Theorem default_layout_paths (r : cstring) :
  strlen r <= 4000 ->
  let root := layout_root (Some r) in
  (exists k, match r with [] => lit "/mnt/nvme" | _ => r end = root ++ replicate k (chr "/")) /\
  (length root = 1%nat \/ default 0 (last root) <> chr "/") /\
  layout_paths (strim_default_layout (Some r)) =
    map (fun s => Some (if streq root (lit "/") then s else root ++ lit "/" ++ s)) layout_suffixes /\
  layout_paths (strim_default_layout (Some (lit "//"))) = map Some layout_suffixes.
Proof.
  intros Hr root.
  set (r0 := match r with [] => lit "/mnt/nvme" | _ => r end).
  assert (Hr0 : strlen r0 <= 4000 /\ r0 <> []) by (unfold r0; destruct r; [by vm_compute | done]).
  destruct Hr0 as [Hl Hne].
  assert (Hroot : root = drop_slashes (length r0) r0).
  { unfold root, layout_root. fold r0.
    assert (E : match r with [] => lit "/mnt/nvme" | _ :: _ => r end = r0) by done.
    destruct r; rewrite snprintf_str_short by (unfold STRIM_SPEC_PATH_MAX, r0 in *; lia); done. }
  destruct (drop_slashes_spec (length r0) r0 ltac:(lia) Hne) as (k & Hk & Hd & Hlast).
  rewrite <- Hroot in *.
  assert (Hlen : strlen root <= 4000).
  { unfold strlen in *. rewrite Hk, length_app in Hl. lia. }
  split_and!; [by exists k | done | | by vm_compute].
  assert (Hj : forall s, strlen s <= 40 -> join_path STRIM_SPEC_PATH_MAX root s =
            if streq root (lit "/") then s else root ++ lit "/" ++ s).
  { intros s Hs. unfold join_path, STRIM_SPEC_PATH_MAX.
    destruct (streq root (lit "/")); apply snprintf_str_short; [lia|].
    unfold strlen in *. rewrite !length_app. simpl. lia. }
  unfold strim_default_layout, layout_paths. fold root. cbn [ly_env ly_transcode ly_notify
    ly_mediamtx_tmpl ly_srt_pass ly_video_dir layout_suffixes map].
  rewrite !Hj by (vm_compute; discriminate). done.
Qed.

Lemma default_layout_paths_witness :
  ly_env (strim_default_layout (Some (lit "/srv/strim//"))) = Some (lit "/srv/strim/config/strimserver.env").
Proof.
  destruct (default_layout_paths (lit "/srv/strim//")) as (_ & _ & H & _); [vm_compute; discriminate|].
  apply (f_equal (fun l => default None (head l))) in H. exact H.
Defined.

(** ** Mounts *)

(** the bind mounts.  On the layout of any host root both mount lists
    are produced whenever the array has room (4 and 6 entries; 256 in the
    start op) and refused as too small otherwise; no destination repeats, and
    exactly /tmp and /video-files are writable. *)
Theorem mount_lists (r : option cstring) (cap : Z) :
  let ly := Some (strim_default_layout r) in
  (strim_ffmpeg_mounts ly true cap = inl STRIM_SPEC_ERR_TOOSMALL <-> cap < 4) /\
  (strim_mediamtx_mounts ly true cap = inl STRIM_SPEC_ERR_TOOSMALL <-> cap < 6) /\
  (4 <= cap -> exists ms, strim_ffmpeg_mounts ly true cap = inr ms /\
     map m_destination ms = [STRIM_CTR_ENV; STRIM_CTR_TRANSCODE; STRIM_CTR_RESOLV_CONF; STRIM_CTR_TMP] /\
     map m_read_write ms = [false; false; false; true]) /\
  (6 <= cap -> exists ms, strim_mediamtx_mounts ly true cap = inr ms /\
     NoDup (map m_destination ms) /\
     forall m, m ∈ ms -> m_read_write m = true <->
       m_destination m = STRIM_CTR_TMP \/ m_destination m = STRIM_CTR_VIDEO_DIR).
Proof.
  cbv zeta. unfold strim_ffmpeg_mounts, strim_mediamtx_mounts.
  cbn [strim_default_layout ly_env ly_transcode ly_notify ly_mediamtx_tmpl ly_srt_pass ly_video_dir
       ly_resolv_conf ly_tmp].
  destruct (Z.ltb_spec cap 4), (Z.ltb_spec cap 6); split_and!; try (split; [done || lia | done || lia]);
    try lia; intros _; (eexists; split; [reflexivity|]).
  1,2: by split.
  1: { split; [by_decide|]. intros m Hm. repeat rewrite elem_of_cons in Hm.
       destruct Hm as [-> | [-> | [-> | [-> | [-> | [-> | Hm%elem_of_nil]]]]]]; [..|done];
         simpl; (split; [done || by auto | intros [E|E]; first [done | by vm_compute in E]]). }
Qed.

(** ** The container-id table *)
Lemma find_entry (table : list strim_stage_table_entry) (e : strim_stage_table_entry) :
  NoDup (map te_container_id table) -> e ∈ table ->
  find_first (fun x => streq (te_container_id x) (te_container_id e)) table = Some e.
Proof.
  induction table as [|x table IH]; intros Hnd He; [by apply elem_of_nil in He|].
  cbn [map] in Hnd. apply NoDup_cons in Hnd as [Hx Hnd]. cbn [find_first].
  apply elem_of_cons in He as [->|He]; [by rewrite streq_refl|].
  destruct (streq _ _) eqn:E; [|by apply IH]. apply streq_true in E. exfalso. apply Hx. rewrite E.
  apply list_elem_of_In, in_map, list_elem_of_In, He.
Qed.

(** container ids and stages.  With pairwise distinct configured ids, the
    table [run()] builds is read the same way in both directions: the start
    op of a stage launches transcode.sh with that stage's wire name, and a
    task start or exit event of that container is reported as that stage
    running or stopped.  An id outside the table reports nothing, and the
    single-stage container is outside it unless that pipeline is enabled. *)
Theorem stage_table_consistent (mediamtx normalize egress single : cstring) (enable : bool) (id : cstring) :
  NoDup [mediamtx; normalize; egress; single] ->
  let table := main_stage_table mediamtx normalize egress single enable in
  (forall e, e ∈ table ->
     (exists w, strim_stage_name_to_string (te_stage e) = Some w /\
        strim_stage_argv table (Some (te_container_id e)) 64 64 = inr (STRIM_CTR_TRANSCODE, w)) /\
     stage_event_of_envelope table STRIM_EVENT_TASK_START (Some (te_container_id e)) =
       Some (StageEvent (te_stage e) STRIM_STAGE_RUNNING) /\
     stage_event_of_envelope table STRIM_EVENT_TASK_EXIT (Some (te_container_id e)) =
       Some (StageEvent (te_stage e) STRIM_STAGE_STOPPED)) /\
  (id ∉ map te_container_id table ->
     stage_str table id = id /\ forall k, stage_event_of_envelope table k (Some id) = None) /\
  (single ∈ map te_container_id table <-> enable = true).
Proof.
  intros Hnd table.
  assert (Hnt : NoDup (map te_container_id table)).
  { unfold table, main_stage_table. destruct enable; [exact Hnd|]. cbn [app map te_container_id].
    repeat rewrite NoDup_cons in *. repeat rewrite elem_of_cons in *. set_solver. }
  split_and!.
  - intros e He. pose proof (find_entry table e Hnt He) as Hf. split_and!.
    + assert (Hs : te_stage e = 0 \/ te_stage e = 1 \/ te_stage e = 2 \/ te_stage e = 3).
      { unfold table, main_stage_table in He. apply elem_of_app in He as [He|He].
        - repeat rewrite elem_of_cons in He. rewrite elem_of_nil in He. naive_solver.
        - destruct enable; [|by apply elem_of_nil in He]. rewrite list_elem_of_singleton in He. naive_solver. }
      unfold strim_stage_argv, stage_str. rewrite Hf.
      destruct Hs as [E|[E|[E|E]]]; rewrite E; (eexists; split; [reflexivity | reflexivity]).
    + cbn [stage_event_of_envelope]. by rewrite Hf.
    + cbn [stage_event_of_envelope]. by rewrite Hf.
  - intros Hid. assert (Hn : find_first (fun x => streq (te_container_id x) id) table = None).
    { apply find_first_None, Forall_forall. intros x Hx. destruct (streq _ _) eqn:E; [|done].
      apply streq_true in E. exfalso. apply Hid. rewrite <- E.
      apply list_elem_of_In, in_map, list_elem_of_In, Hx. }
    unfold stage_str. rewrite Hn. split; [done|]. intros []; unfold stage_event_of_envelope; by rewrite ?Hn.
  - unfold table, main_stage_table. repeat rewrite NoDup_cons in Hnd. repeat rewrite elem_of_cons in Hnd.
    destruct enable; cbn [app map te_container_id]; repeat rewrite elem_of_cons; set_solver.
Qed.

Lemma stage_table_consistent_witness :
  strim_stage_argv (main_stage_table (lit "mediamtx") (lit "normalize") (lit "scale-and-egress")
    (lit "single-stage-egress") false) (Some (lit "scale-and-egress")) 64 64 =
  inr (STRIM_CTR_TRANSCODE, lit "scale_and_egress").
Proof.
  assert (Hnd : NoDup [lit "mediamtx"; lit "normalize"; lit "scale-and-egress"; lit "single-stage-egress"])
    by by_decide.
  destruct (stage_table_consistent (lit "mediamtx") (lit "normalize") (lit "scale-and-egress")
    (lit "single-stage-egress") false [] Hnd) as (H & _).
  destruct (H (StageTableEntry (lit "scale-and-egress") STRIM_STAGE_SCALE_AND_EGRESS)) as ((w & Hw & Ha) & _).
  { right. right. left. }
  cbn [te_container_id] in Ha. rewrite Ha. vm_compute in Hw. by simplify_eq.
Defined.
