(* ===== verification/StageOps.v ===== *)
(** * Stage operations (main.c)

    [stage_stop_op] and [stage_start_op] run on worker threads and talk to
    containerd, to the CDI registry, to the clock and to the stage's live
    generation.  An op is a program of such calls: [Do c k] makes call [c] and
    goes on with its answer.  What the other side answers is not fixed here:
    theorems quantify over every answer, so over every failure and over every
    point at which a newer fire supersedes the op.

    The daemon's client library answers a return code; the waiter thread that
    blocks in task_wait is started by [CSpawnWaiter] and [CJoinWaiter] answers
    what task_wait returned. *)

From S2P Require Import Prelude Wire Controller Http Double Config Wiring EnvFile Spec.

Definition STRIM_CTRD_ERR_NOTFOUND : Z := -3.
Definition STRIM_CTRD_ERR_TIMEOUT : Z := -4.
Definition STRIM_CTRD_KILL_SIGTERM : Z := 15.

(** The arguments of new_container. *)
Record container_request := ContainerRequest {
  cr_container_id : cstring;
  cr_snapshot_id : cstring;
  cr_image_name : cstring;
  cr_args : list cstring;
  cr_capabilities : list cstring;
  cr_host_network : bool;
  cr_mounts : list strim_mount;
}.

Inductive call :=
  | CGeneration                           (* the stage's live generation *)
  | CNow                                  (* the controller's clock *)
  | CLoadContainer (container_id : cstring)
  | CLoadTask
  | CDeleteContainer
  | CSpawnWaiter (timeout_ms : Z)
  | CJoinWaiter
  | CTaskKill (signum : Z)
  | CTaskDelete (force : bool)
  | CCdiParse (device : cstring)
  | CCdiScan
  | CCdiResolve
  | CCdiMergeEdits
  | CNewContainer (req : container_request)
  | CNewTask (logfile : cstring)
  | CTaskStart.

Inductive prog (A : Type) :=
  | Ret (a : A)
  | Do (c : call) (k : Z -> prog A).
Arguments Ret {A} a.
Arguments Do {A} c k.

Fixpoint prog_bind {A B} (p : prog A) (f : A -> prog B) : prog B :=
  match p with
  | Ret a => f a
  | Do c k => Do c (fun z => prog_bind (k z) f)
  end.

Declare Scope prog_scope.
Delimit Scope prog_scope with prog.
Notation "'let*' x ':=' p 'in' q" := (prog_bind p (fun x => q))
  (at level 200, x name, p at level 100, q at level 200) : prog_scope.
Notation "'call*' x ':=' c 'in' q" := (Do c (fun x => q))
  (at level 200, x name, c at level 100, q at level 200) : prog_scope.
Open Scope prog_scope.

(** ** The op context *)

Record strim_stage_ops := StageOps {
  so_client : bool;                 (* the client pointer is not NULL *)
  so_container_id : cstring;
  so_snapshot_id : cstring;
  so_image_name : cstring;
  so_logfile : cstring;
  so_stage : Z;
  so_ffmpeg : bool;
  so_layout : strim_layout;
  so_stage_table : list strim_stage_table_entry;
  so_stage_stop_timeout_ms : Z;
}.

(** [strncpy(dst, src, sizeof dst - 1)] into a zeroed buffer. *)
Definition strncpy_field (size : Z) (src : cstring) : cstring := take (Z.to_nat (size - 1)) src.

Definition init_stage_ops (client : bool) (cfg : strim_container_config) (stage : Z) (ffmpeg : bool)
    (layout : strim_layout) (table : list strim_stage_table_entry) (stop_timeout_ms : Z)
  : strim_stage_ops :=
  StageOps client (strncpy_field STRIM_CFG_ID_MAX (container_id cfg))
    (strncpy_field STRIM_CFG_SNAP_MAX (snapshot_id cfg))
    (strncpy_field STRIM_CFG_IMAGE_MAX (image_name cfg))
    (strncpy_field STRIM_CFG_PATH_MAX (logfile cfg))
    stage ffmpeg layout table stop_timeout_ms.

(** ** Deadlines and safe points *)

Definition op_rpc_budget (cancel : option strim_op_job) (timeout_ms : Z) : prog Z :=
  let budget remaining :=
    if remaining <? 0 then timeout_ms
    else if remaining <? timeout_ms then remaining else timeout_ms in
  match cancel with
  | None => Ret (budget (strim_stage_op_remaining_ms None None))
  | Some _ => call* t := CNow in Ret (budget (strim_stage_op_remaining_ms cancel (Some t)))
  end.

Definition op_superseded_abort (cancel : option strim_op_job) : prog bool :=
  match cancel with
  | None => Ret (strim_stage_op_superseded None 0)
  | Some _ => call* live := CGeneration in Ret (strim_stage_op_superseded cancel live)
  end.

(** [if (op_superseded_abort(...)) return 0;] and then the rest. *)
Definition unless_superseded (cancel : option strim_op_job) (rest : prog Z) : prog Z :=
  let* s := op_superseded_abort cancel in if s then Ret 0 else rest.

(** ** The stop op *)

(** The end of the stop op: the container goes, with its snapshot. *)
Definition finish_stop : prog Z :=
  call* rc := CDeleteContainer in Ret rc.

(** After the waiter has reported [wait_rc]. *)
Definition stop_after_wait (cancel : option strim_op_job) (wait_rc : Z) : prog Z :=
  if wait_rc =? 0 then
    call* rc := CTaskDelete false in
    if negb (rc =? 0) then Ret rc else unless_superseded cancel finish_stop
  else if wait_rc =? STRIM_CTRD_ERR_TIMEOUT then
    call* rc := CTaskDelete true in
    if negb (rc =? 0) then Ret rc else unless_superseded cancel finish_stop
  else if wait_rc =? STRIM_CTRD_ERR_NOTFOUND then
    unless_superseded cancel finish_stop
  else Ret wait_rc.

(** From the loaded task on. *)
Definition stop_task (ops : strim_stage_ops) (cancel : option strim_op_job) (budget_ms : Z) : prog Z :=
  let wait_ms := if (0 <? budget_ms) && (budget_ms <? so_stage_stop_timeout_ms ops)
                 then budget_ms else so_stage_stop_timeout_ms ops in
  call* created := CSpawnWaiter wait_ms in
  if negb (created =? 0) then Ret (-1)
  else
    let* s := op_superseded_abort cancel in
    if s then (call* _ := CJoinWaiter in Ret 0)
    else
      call* rc := CTaskKill STRIM_CTRD_KILL_SIGTERM in
      if negb (rc =? 0) then (call* _ := CJoinWaiter in Ret rc)
      else call* wait_rc := CJoinWaiter in
           unless_superseded cancel (stop_after_wait cancel wait_rc).

Definition stage_stop_op (ops : option strim_stage_ops) (timeout_ms : Z)
    (cancel : option strim_op_job) : prog Z :=
  match ops with
  | None => Ret (-1)
  | Some ops =>
      if negb (so_client ops) then Ret (-1)
      else
        unless_superseded cancel (
        let* budget_ms := op_rpc_budget cancel timeout_ms in
        if budget_ms <=? 0 then Ret (-1)
        else
          call* rc := CLoadContainer (so_container_id ops) in
          if rc =? STRIM_CTRD_ERR_NOTFOUND then Ret 0
          else if negb (rc =? 0) then Ret rc
          else
            unless_superseded cancel (
            call* rc := CLoadTask in
            if rc =? STRIM_CTRD_ERR_NOTFOUND then
              (call* rc := CDeleteContainer in Ret (if rc =? 0 then 0 else rc))
            else if negb (rc =? 0) then Ret rc
            else unless_superseded cancel (stop_task ops cancel budget_ms)))
  end.

(** ** The start op *)

Definition STRIM_FFMPEG_CDI_DEVICE : cstring := lit "nvidia.com/gpu=0".

Definition prepare_ffmpeg_cdi : prog Z :=
  call* rc := CCdiParse STRIM_FFMPEG_CDI_DEVICE in
  if negb (rc =? 0) then Ret (-1)
  else call* rc := CCdiScan in
       if negb (rc =? 0) then Ret (-1)
       else call* rc := CCdiResolve in
            if negb (rc =? 0) then Ret (-1)
            else call* rc := CCdiMergeEdits in Ret rc.

(** The argv and mounts of a stage: [inl rc] is the early return. *)
Definition build_spec (ops : strim_stage_ops) : prog (Z + (list cstring * list strim_mount)) :=
  if so_ffmpeg ops then
    match strim_stage_argv (so_stage_table ops) (Some (so_container_id ops)) 64 64 with
    | inl _ => Ret (inl (-1))
    | inr (argv0, argv1) =>
        let mounts := strim_ffmpeg_mounts (Some (so_layout ops)) true STRIM_SPEC_MAX_MOUNTS in
        let* cdi := prepare_ffmpeg_cdi in
        if negb (cdi =? 0) then Ret (inl (-1))
        else match mounts with
             | inl rc => Ret (inl rc)
             | inr ms => Ret (inr ([argv0; argv1], ms))
             end
    end
  else
    match strim_mediamtx_mounts (Some (so_layout ops)) true STRIM_SPEC_MAX_MOUNTS with
    | inl rc => Ret (inl rc)
    | inr ms => Ret (inr ([], ms))
    end.

Definition stage_request (ops : strim_stage_ops) (args : list cstring) (mounts : list strim_mount)
  : container_request :=
  ContainerRequest (so_container_id ops) (so_snapshot_id ops) (so_image_name ops) args
    strim_spec_added_capabilities true mounts.

(** Create the container and its task and start it. *)
Definition launch (ops : strim_stage_ops) (cancel : option strim_op_job)
    (args : list cstring) (mounts : list strim_mount) : prog Z :=
  call* rc := CNewContainer (stage_request ops args mounts) in
  if negb (rc =? 0) then Ret rc
  else unless_superseded cancel (
       call* rc := CNewTask (so_logfile ops) in
       if negb (rc =? 0) then Ret rc
       else unless_superseded cancel (
            call* rc := CTaskStart in
            if negb (rc =? 0) then Ret rc else Ret 0)).

Definition stage_start_op (ops : option strim_stage_ops) (timeout_ms : Z)
    (cancel : option strim_op_job) : prog Z :=
  match ops with
  | None => Ret (-1)
  | Some o =>
      if negb (so_client o) then Ret (-1)
      else
        unless_superseded cancel (
        let* budget_ms := op_rpc_budget cancel timeout_ms in
        if budget_ms <=? 0 then Ret (-1)
        else
          let* rc := stage_stop_op (Some o) budget_ms cancel in
          if negb (rc =? 0) then Ret rc
          else
            unless_superseded cancel (
            let* spec := build_spec o in
            match spec with
            | inl rc => Ret rc
            | inr (args, mounts) => unless_superseded cancel (launch o cancel args mounts)
            end))
  end.
