(* ===== verification/StageOpsFacts.v ===== *)
(** * The containerd protocol of the stage ops

    A monitor watches the calls an op makes and the answers it gets; it
    accepts exactly the orders the protocol allows.  Both ops are accepted for
    every sequence of answers.  Against an abstract daemon that answers
    faithfully, a stop leaves no container and a start leaves the requested
    container running, from every state of the daemon. *)

From S2P Require Import Prelude Wire Controller Http Double Config Wiring EnvFile Spec SpecFacts StageOps.

(** ** Programs under a monitor *)

(** What the monitor makes of a call and its answer: go on, or a violation. *)
Inductive verdict (M : Type) :=
  | Next (m : M)
  | Violation.
Arguments Next {M} m.
Arguments Violation {M}.

Section Monitored.

Context {M : Type} (step : M -> call -> Z -> verdict M).

(** Every run of the program from monitor state [m] is accepted, and ends in
    a state and with a result that satisfy [Q]. *)
Fixpoint holds {A} (p : prog A) (m : M) (Q : M -> A -> Prop) : Prop :=
  match p with
  | Ret a => Q m a
  | Do c k => forall z, match step m c z with
                        | Next m' => holds (k z) m' Q
                        | Violation => False
                        end
  end.

Lemma holds_bind {A B} (p : prog A) (f : A -> prog B) (m : M) (Q : M -> B -> Prop) :
  holds p m (fun m' a => holds (f a) m' Q) -> holds (prog_bind p f) m Q.
Proof.
  revert m. induction p as [a|c k IH]; intros m H; [done|]. intros z. specialize (H z).
  destruct (step m c z); [|done]. by apply IH.
Qed.

Lemma holds_impl {A} (p : prog A) (m : M) (Q R : M -> A -> Prop) :
  holds p m Q -> (forall m' a, Q m' a -> R m' a) -> holds p m R.
Proof.
  intros H HQ. revert m H. induction p as [a|c k IH]; intros m H; [by apply HQ|].
  intros z. specialize (H z). destruct (step m c z); [|done]. by apply IH.
Qed.

(** What the monitor keeps holds at the end as well. *)
Lemma holds_inv {A} (I : M -> Prop) (p : prog A) (m : M) (Q : M -> A -> Prop) :
  (forall m c z m', I m -> step m c z = Next m' -> I m') -> I m ->
  holds p m Q -> holds p m (fun m' a => Q m' a /\ I m').
Proof.
  intros Hstep. revert m. induction p as [a|c k IH]; intros m Hm H; [done|].
  intros z. specialize (H z). destruct (step m c z) eqn:E; [|done].
  apply IH; [by eapply Hstep | done].
Qed.

End Monitored.

(** ** The protocol *)

(** How far an op has come. *)
Inductive phase :=
  | PhBegin                      (* nothing loaded *)
  | PhContainer                  (* container loaded *)
  | PhTask                       (* task loaded *)
  | PhWaiting                    (* waiter running, not signalled *)
  | PhSignalled                  (* waiter running, SIGTERM sent *)
  | PhExited (wait_rc : Z)       (* waiter joined after the signal *)
  | PhGone                       (* no task: the container may go *)
  | PhClean                      (* no container *)
  | PhResumed                    (* stopped part of the way, then current again *)
  | PhCreated                    (* new container *)
  | PhTaskCreated
  | PhStarted.

Record mstate := MState {
  ms_phase : phase;
  ms_waiter : bool;              (* a waiter thread has not been joined *)
  ms_over : option Z;            (* the op must stop, with this result *)
}.

(** The op must not act any more: only the waiter may still be joined. *)
Definition over (m : mstate) (rc : Z) : verdict mstate := Next (MState (ms_phase m) (ms_waiter m) (Some rc)).
Definition goto (m : mstate) (p : phase) : verdict mstate := Next (MState p (ms_waiter m) None).

(** A return code that ends the op unless it is 0. *)
Definition on_ok (m : mstate) (rc : Z) (p : phase) : verdict mstate :=
  if rc =? 0 then goto m p else over m rc.

Section Protocol.

(** The generation of the fire, for a cancellable op. *)
Variable generation : option Z.

(** A live generation other than the fire's ends the op with 0.  The op may
    look again: it stays ended while the generation is another one, but a
    fire that could not be submitted gives its generation back, and then the
    op is current again, with its stop left where it was. *)
Definition mon (m : mstate) (c : call) (z : Z) : verdict mstate :=
  match c, ms_over m, ms_phase m with
  | CJoinWaiter, ov, p =>
      if ms_waiter m
      then Next (MState (match ov, p with None, PhSignalled => PhExited z | _, _ => p end) false ov)
      else Violation
  | CGeneration, ov, _ =>
      match generation, ov with
      | Some g, None => if z =? g then Next m else over m 0
      | Some g, Some 0 => Next (if z =? g then MState PhResumed (ms_waiter m) None else m)
      | _, _ => Violation
      end
  | _, Some _, _ => Violation
  | CNow, None, _ => Next m
  | CLoadContainer _, None, PhBegin =>
      if z =? STRIM_CTRD_ERR_NOTFOUND then goto m PhClean else on_ok m z PhContainer
  | CLoadTask, None, PhContainer =>
      if z =? STRIM_CTRD_ERR_NOTFOUND then goto m PhGone else on_ok m z PhTask
  | CSpawnWaiter _, None, PhTask =>
      if ms_waiter m then Violation
      else if z =? 0 then Next (MState PhWaiting true None) else over m (-1)
  | CTaskKill s, None, PhWaiting =>
      if s =? STRIM_CTRD_KILL_SIGTERM then on_ok m z PhSignalled else Violation
  | CTaskDelete force, None, PhExited w =>
      if w =? (if force then STRIM_CTRD_ERR_TIMEOUT else 0) then on_ok m z PhGone else Violation
  | CDeleteContainer, None, PhGone => on_ok m z PhClean
  | CDeleteContainer, None, PhExited w =>
      if w =? STRIM_CTRD_ERR_NOTFOUND then on_ok m z PhClean else Violation
  | (CCdiParse _ | CCdiScan | CCdiResolve | CCdiMergeEdits), None, (PhClean | PhResumed) =>
      if z =? 0 then Next m else over m (-1)
  | CNewContainer _, None, (PhClean | PhResumed) => on_ok m z PhCreated
  | CNewTask _, None, PhCreated => on_ok m z PhTaskCreated
  | CTaskStart, None, PhTaskCreated => on_ok m z PhStarted
  | _, None, _ => Violation
  end.

(** How an op may end: with no waiter left; with the result of what ended
    it; otherwise with 0 only where its work is done, or with the waiter's
    report. *)
Definition stop_done (m : mstate) (rc : Z) : Prop :=
  ms_waiter m = false /\
  match ms_over m with
  | Some r => rc = r
  | None =>
      match ms_phase m with
      | PhClean => rc = 0
      | PhExited w => rc = w /\ rc <> 0
      | PhBegin => rc = -1
      | _ => False
      end
  end.

Definition start_done (m : mstate) (rc : Z) : Prop :=
  ms_waiter m = false /\
  match ms_over m with
  | Some r => rc = r
  | None =>
      match ms_phase m with
      | PhStarted => rc = 0
      | PhExited w => rc = w /\ rc <> 0
      | PhBegin => rc = -1
      | PhClean | PhResumed => rc < 0
      | _ => False
      end
  end.

End Protocol.

Definition begin_state : mstate := MState PhBegin false None.

Definition job_generation (cancel : option strim_op_job) : option Z := j_generation <$> cancel.

(** Passing a safe point. *)
Lemma holds_unless (cancel : option strim_op_job) (rest : prog Z) (p : phase) (Q : mstate -> Z -> Prop) :
  holds (mon (job_generation cancel)) rest (MState p false None) Q ->
  Q (MState p false (Some 0)) 0 ->
  holds (mon (job_generation cancel)) (unless_superseded cancel rest) (MState p false None) Q.
Proof.
  intros Hr Hq. destruct cancel as [h|]; [|exact Hr].
  unfold unless_superseded, op_superseded_abort. cbn [prog_bind strim_stage_op_superseded].
  intros z. unfold job_generation. cbn.
  destruct (Z.eqb_spec z (j_generation h)); cbn [negb]; [exact Hr | exact Hq].
Qed.

(** ** The stop op follows the protocol *)
Lemma finish_stop_ok (cancel : option strim_op_job) (p : phase) :
  p = PhGone \/ p = PhExited STRIM_CTRD_ERR_NOTFOUND ->
  holds (mon (job_generation cancel)) finish_stop (MState p false None) stop_done.
Proof.
  intros [-> | ->] z; cbn; unfold on_ok; destruct (Z.eqb_spec z 0) as [->|]; by split.
Qed.

Lemma task_delete_ok (cancel : option strim_op_job) (force : bool) (w : Z) :
  w = (if force then STRIM_CTRD_ERR_TIMEOUT else 0) ->
  holds (mon (job_generation cancel))
    (call* rc := CTaskDelete force in
     if negb (rc =? 0) then Ret rc else unless_superseded cancel finish_stop)
    (MState (PhExited w) false None) stop_done.
Proof.
  intros -> z. cbn [mon ms_over ms_phase]. rewrite Z.eqb_refl. unfold on_ok.
  destruct (Z.eqb_spec z 0) as [->|Hz]; cbn [negb]; [|by split].
  apply holds_unless; [|by split]. apply finish_stop_ok. by left.
Qed.

Lemma stop_after_wait_ok (cancel : option strim_op_job) (w : Z) :
  holds (mon (job_generation cancel)) (stop_after_wait cancel w) (MState (PhExited w) false None) stop_done.
Proof.
  unfold stop_after_wait. destruct (Z.eqb_spec w 0) as [->|H0]; [by apply task_delete_ok|].
  destruct (Z.eqb_spec w STRIM_CTRD_ERR_TIMEOUT) as [->|H1]; [by apply task_delete_ok|].
  destruct (Z.eqb_spec w STRIM_CTRD_ERR_NOTFOUND) as [->|H2]; [|by split].
  apply holds_unless; [|by split]. apply finish_stop_ok. by right.
Qed.

Lemma stop_task_ok (ops : strim_stage_ops) (cancel : option strim_op_job) (budget : Z) :
  holds (mon (job_generation cancel)) (stop_task ops cancel budget) (MState PhTask false None) stop_done.
Proof.
  unfold stop_task. intros z. cbn [mon ms_over ms_phase ms_waiter].
  destruct (z =? 0); cbn [negb]; [|by split]. apply holds_bind.
  assert (Hk : holds (mon (job_generation cancel))
    (call* rc := CTaskKill STRIM_CTRD_KILL_SIGTERM in
     if negb (rc =? 0) then (call* _ := CJoinWaiter in Ret rc)
     else call* wait_rc := CJoinWaiter in unless_superseded cancel (stop_after_wait cancel wait_rc))
    (MState PhWaiting true None) stop_done).
  { intros rc. cbn [mon ms_over ms_phase]. rewrite Z.eqb_refl. unfold on_ok.
    destruct (Z.eqb_spec rc 0); cbn [negb]; intros w; cbn [mon ms_over ms_phase ms_waiter goto]; [|by split].
    apply holds_unless; [apply stop_after_wait_ok | by split]. }
  destruct cancel as [h|]; [|exact Hk]. cbn [op_superseded_abort]. intros live.
  cbn [mon ms_over ms_phase job_generation]. cbn.
  destruct (Z.eqb_spec live (j_generation h)); cbn [negb]; [exact Hk|].
  intros w. cbn. by split.
Qed.

Lemma budget_holds {A} (cancel : option strim_op_job) (t : Z) (f : Z -> prog A) (m : mstate)
    (Q : mstate -> A -> Prop) :
  ms_over m = None -> (forall b, holds (mon (job_generation cancel)) (f b) m Q) ->
  holds (mon (job_generation cancel)) (prog_bind (op_rpc_budget cancel t) f) m Q.
Proof.
  intros Hm Hf. apply holds_bind. destruct cancel as [h|]; [|apply Hf].
  cbn [op_rpc_budget]. intros z. cbn [mon]. rewrite Hm. apply Hf.
Qed.

Lemma stop_protocol (ops : option strim_stage_ops) (timeout : Z) (cancel : option strim_op_job) :
  holds (mon (job_generation cancel)) (stage_stop_op ops timeout cancel) begin_state stop_done.
Proof.
  unfold stage_stop_op. destruct ops as [ops|]; [|by split]. destruct (so_client ops); cbn [negb]; [|by split].
  apply holds_unless; [|by split]. apply budget_holds; [done|]. intros b.
  destruct (b <=? 0); [by split|]. intros rc. cbn [mon ms_over ms_phase]. unfold on_ok.
  destruct (rc =? STRIM_CTRD_ERR_NOTFOUND); [by split|]. destruct (rc =? 0); cbn [negb]; [|by split].
  apply holds_unless; [|by split]. intros rc2. cbn [mon ms_over ms_phase]. unfold on_ok.
  destruct (rc2 =? STRIM_CTRD_ERR_NOTFOUND).
  - intros rc3. cbn. unfold on_ok. destruct (Z.eqb_spec rc3 0); by split.
  - destruct (rc2 =? 0); cbn [negb]; [|by split].
    apply holds_unless; [|by split]. apply stop_task_ok.
Qed.

(** ** The start op *)
Lemma start_done_of_stop (m : mstate) (rc : Z) : stop_done m rc -> rc <> 0 -> start_done m rc.
Proof.
  unfold stop_done, start_done. intros [Hw H] Hrc. split; [done|].
  destruct (ms_over m); [done|]. destruct (ms_phase m); try done.
Qed.

(** After a stop that returned 0: clean, or superseded. *)
Lemma stop_done_zero (m : mstate) :
  stop_done m 0 -> m = MState PhClean false None \/ ms_over m = Some 0 /\ ms_waiter m = false.
Proof.
  destruct m as [p w o]. unfold stop_done. cbn. intros [-> H]. destruct o as [r|]; [subst r; by right|].
  destruct p; naive_solver.
Qed.

(** The phases in which the start op may create. *)
Definition may_create (p : phase) : Prop := p = PhClean \/ p = PhResumed.

Lemma launch_ok (ops : strim_stage_ops) (cancel : option strim_op_job) (args : list cstring)
    (ms : list strim_mount) (p : phase) :
  may_create p ->
  holds (mon (job_generation cancel)) (launch ops cancel args ms) (MState p false None) start_done.
Proof.
  intros Hp rc. replace (mon _ _ _ rc) with (on_ok (MState p false None) rc PhCreated)
    by (by destruct Hp as [-> | ->]). unfold on_ok.
  destruct (rc =? 0); cbn [negb]; [|by split].
  apply holds_unless; [|by split]. intros rc2. cbn [mon ms_over ms_phase]. unfold on_ok.
  destruct (rc2 =? 0); cbn [negb]; [|by split].
  apply holds_unless; [|by split]. intros rc3. cbn [mon ms_over ms_phase]. unfold on_ok.
  destruct (rc3 =? 0); cbn [negb]; by split.
Qed.

Lemma build_spec_ok (ops : strim_stage_ops) (cancel : option strim_op_job) (p : phase) :
  may_create p ->
  holds (mon (job_generation cancel)) (build_spec ops) (MState p false None)
    (fun m r => match r with
                | inr _ => m = MState p false None
                | inl rc => start_done m rc
                end).
Proof.
  intros Hp.
  assert (Hfail : forall rc, rc < 0 -> start_done (MState p false None) rc)
    by (intros rc Hrc; split; [done | by destruct Hp as [-> | ->]]).
  unfold build_spec. destruct (so_ffmpeg ops).
  - destruct (strim_stage_argv _ _ _ _) as [e|[a0 a1]]; [by apply Hfail|]. apply holds_bind.
    unfold prepare_ffmpeg_cdi.
    do 3 (let r := fresh in
          intros r; replace (mon _ _ _ r) with
            (if r =? 0 then Next (MState p false None) else over (MState p false None) (-1))
            by (by destruct Hp as [-> | ->]);
          destruct (r =? 0); cbn [negb]; [|by split]).
    intros z. replace (mon _ _ _ z) with
      (if z =? 0 then Next (MState p false None) else over (MState p false None) (-1))
      by (by destruct Hp as [-> | ->]).
    destruct (Z.eqb_spec z 0); cbn [holds negb]; [|by rewrite (proj2 (Z.eqb_neq z 0)) by done].
    subst z. cbn [Z.eqb negb]. destruct (strim_ffmpeg_mounts _ _ _) eqn:E; [|done].
    apply Hfail. unfold strim_ffmpeg_mounts in E. repeat case_match; simplify_eq; done.
  - destruct (strim_mediamtx_mounts _ _ _) eqn:E; [|done].
    apply Hfail. unfold strim_mediamtx_mounts in E. repeat case_match; simplify_eq; done.
Qed.

(** Without a cancellation handle nothing supersedes an op. *)
Lemma never_superseded (m m' : mstate) (c : call) (z : Z) :
  ms_over m <> Some 0 -> mon None m c z = Next m' -> ms_over m' <> Some 0.
Proof.
  destruct m as [p w o]. unfold mon, on_ok, goto, over. cbn.
  intros Ho H. repeat (case_match; simplify_eq/=; try done).
  all: intros [= ->]; done.
Qed.

Lemma build_and_launch_ok (ops : strim_stage_ops) (cancel : option strim_op_job) (p : phase) :
  may_create p ->
  holds (mon (job_generation cancel))
    (let* spec := build_spec ops in
     match spec with
     | inl rc => Ret rc
     | inr (args, mounts) => unless_superseded cancel (launch ops cancel args mounts)
     end) (MState p false None) start_done.
Proof.
  intros Hp. apply holds_bind. eapply holds_impl; [by apply build_spec_ok|].
  intros m' [rc|[args ms]]; [done|]. cbv beta iota. intros ->.
  apply holds_unless; [by apply launch_ok | by split].
Qed.

Lemma start_protocol (ops : option strim_stage_ops) (timeout : Z) (cancel : option strim_op_job) :
  holds (mon (job_generation cancel)) (stage_start_op ops timeout cancel) begin_state start_done.
Proof.
  unfold stage_start_op. destruct ops as [ops|]; [|by split]. destruct (so_client ops); cbn [negb]; [|by split].
  apply holds_unless; [|by split]. apply budget_holds; [done|]. intros b.
  destruct (b <=? 0); [by split|]. apply holds_bind.
  eapply holds_impl;
    [apply (holds_inv _ (fun m => cancel = None -> ms_over m <> Some 0)); [|done|apply stop_protocol]|].
  { intros m c z m' Hm Hs ->. eapply never_superseded; [by apply Hm | exact Hs]. }
  intros m rc [Hd Hsup]. cbv beta.
  destruct (Z.eqb_spec rc 0) as [->|Hrc]; cbn [negb]; [|by apply start_done_of_stop].
  apply stop_done_zero in Hd as [-> | [Ho Hw]].
  - apply holds_unless; [|by split]. apply build_and_launch_ok. by left.
  - destruct cancel as [h|]; [|by destruct (Hsup eq_refl)].
    unfold unless_superseded at 1, op_superseded_abort.
    cbn [prog_bind strim_stage_op_superseded]. intros z. cbn [mon job_generation fmap option_fmap option_map].
    rewrite Ho, Hw. destruct (Z.eqb_spec z (j_generation h)); cbn [negb].
    + apply (build_and_launch_ok ops (Some h)). by right.
    + split; [done|]. by rewrite Ho.
Qed.


(** ** An abstract daemon *)

Inductive task_state := TNone | TCreated | TRunning | TExited.

(** The daemon's view of one stage's container. *)
Record daemon := Daemon {
  d_container : option container_request;
  d_task : task_state;
}.

Definition daemon_ok (d : daemon) : Prop := d_container d = None -> d_task d = TNone.

Definition STRIM_CTRD_ERR_RPC : Z := -9.

(** The answers of a healthy daemon, registry and clock.  [exits]: the
    process exits within the grace period after SIGTERM; [live] and [now]:
    the stage's generation and the time. *)
Definition serve (exits : bool) (live now : Z) (d : daemon) (c : call) : Z * daemon :=
  match c with
  | CGeneration => (live, d)
  | CNow => (now, d)
  | CLoadContainer _ =>
      (match d_container d with Some _ => 0 | None => STRIM_CTRD_ERR_NOTFOUND end, d)
  | CLoadTask => (match d_task d with TNone => STRIM_CTRD_ERR_NOTFOUND | _ => 0 end, d)
  | CSpawnWaiter _ => (0, d)
  | CTaskKill _ =>
      (0, if exits then match d_task d with
                        | TNone => d
                        | _ => Daemon (d_container d) TExited
                        end
          else d)
  | CJoinWaiter =>
      (match d_task d with
       | TNone => STRIM_CTRD_ERR_NOTFOUND
       | TExited => 0
       | _ => STRIM_CTRD_ERR_TIMEOUT
       end, d)
  | CTaskDelete force =>
      match d_task d with
      | TNone => (STRIM_CTRD_ERR_NOTFOUND, d)
      | TExited => (0, Daemon (d_container d) TNone)
      | _ => if force then (0, Daemon (d_container d) TNone) else (STRIM_CTRD_ERR_RPC, d)
      end
  | CDeleteContainer =>
      match d_container d, d_task d with
      | Some _, TNone => (0, Daemon None TNone)
      | Some _, _ => (STRIM_CTRD_ERR_RPC, d)
      | None, _ => (STRIM_CTRD_ERR_NOTFOUND, d)
      end
  | CCdiParse _ | CCdiScan | CCdiResolve | CCdiMergeEdits => (0, d)
  | CNewContainer req =>
      match d_container d with
      | None => (0, Daemon (Some req) TNone)
      | Some _ => (STRIM_CTRD_ERR_RPC, d)
      end
  | CNewTask _ =>
      match d_container d, d_task d with
      | Some _, TNone => (0, Daemon (d_container d) TCreated)
      | _, _ => (STRIM_CTRD_ERR_RPC, d)
      end
  | CTaskStart =>
      match d_task d with
      | TCreated => (0, Daemon (d_container d) TRunning)
      | _ => (STRIM_CTRD_ERR_RPC, d)
      end
  end.

Arguments serve exits live now d !c /.

(** Running a program against something that answers. *)
Fixpoint run {A S} (answer : S -> call -> Z * S) (p : prog A) (s : S) : A * S :=
  match p with
  | Ret a => (a, s)
  | Do c k => let '(z, s') := answer s c in run answer (k z) s'
  end.

Lemma run_bind {A B S} (answer : S -> call -> Z * S) (p : prog A) (f : A -> prog B) (s : S) :
  run answer (prog_bind p f) s = let '(a, s') := run answer p s in run answer (f a) s'.
Proof.
  revert s. induction p as [a|c k IH]; intros s; [done|]. cbn. destruct (answer s c). apply IH.
Qed.

(** The op is current, its deadline lies ahead and its timeout is positive. *)
Definition live_op (cancel : option strim_op_job) (live now timeout : Z) : Prop :=
  0 < timeout /\
  match cancel with Some h => live = j_generation h /\ now < j_deadline_ms h | None => True end.

(** Let the daemon answer the calls in sight. *)
Ltac serve_calls :=
  cbn [run serve d_container d_task Z.eqb Pos.eqb negb STRIM_CTRD_ERR_NOTFOUND
       STRIM_CTRD_ERR_TIMEOUT STRIM_CTRD_ERR_RPC STRIM_CTRD_KILL_SIGTERM].

Section Healthy.

Variables (exits : bool) (live now : Z).
Abbreviation answer := (serve exits live now).

Lemma run_unless (cancel : option strim_op_job) (t : Z) (rest : prog Z) (d : daemon) :
  live_op cancel live now t -> run answer (unless_superseded cancel rest) d = run answer rest d.
Proof.
  intros [_ H]. unfold unless_superseded. rewrite run_bind. destruct cancel as [h|]; [|done].
  cbn. destruct H as [-> _]. by rewrite Z.eqb_refl.
Qed.

Lemma run_budget (cancel : option strim_op_job) (t : Z) (d : daemon) :
  live_op cancel live now t ->
  exists b, run answer (op_rpc_budget cancel t) d = (b, d) /\ 0 < b <= t.
Proof.
  intros [Ht H]. destruct cancel as [h|]; cbn.
  - eexists. split; [done|]. destruct (Z.ltb_spec (j_deadline_ms h - now) 0); [lia|].
    destruct (Z.ltb_spec (j_deadline_ms h - now) t); lia.
  - eexists. split; [done|]. lia.
Qed.

End Healthy.

Lemma stop_converges (exits : bool) (live now : Z) (ops : strim_stage_ops) (t : Z) (cancel : option strim_op_job) (d : daemon) :
  so_client ops = true -> live_op cancel live now t -> daemon_ok d ->
  run (serve exits live now) (stage_stop_op (Some ops) t cancel) d = (0, Daemon None TNone).
Proof.
  intros Hc Hl Hd. unfold stage_stop_op. rewrite Hc. cbn [negb].
  rewrite (run_unless _ live now cancel t) by done. rewrite run_bind.
  destruct (run_budget exits live now cancel t d Hl) as (b & -> & Hb). rewrite (proj2 (Z.leb_gt b 0)) by lia.
  assert (Hs : forall e x, run (serve e live now) (op_superseded_abort cancel) x = (false, x)).
  { intros e x. destruct Hl as [_ Hl], cancel as [h|]; [|done]. cbn.
    destruct Hl as [-> _]. by rewrite Z.eqb_refl. }
  destruct d as [[req|] task]; serve_calls; [|specialize (Hd eq_refl); cbn in Hd; by subst task].
  rewrite (run_unless _ live now cancel t) by done.
  destruct task; serve_calls; [done|..]; rewrite (run_unless _ live now cancel t) by done;
    unfold stop_task; serve_calls; rewrite run_bind, Hs; serve_calls;
    rewrite (run_unless _ live now cancel t) by done; destruct exits; unfold stop_after_wait; serve_calls;
    rewrite (run_unless _ live now cancel t) by done; done.
Qed.


(** The request a stage is created with. *)
Definition expected_request (ops : strim_stage_ops) (root : option cstring) : option container_request :=
  if so_ffmpeg ops then
    match strim_ffmpeg_mounts (Some (strim_default_layout root)) true STRIM_SPEC_MAX_MOUNTS with
    | inr ms => Some (stage_request ops
        [STRIM_CTR_TRANSCODE; stage_str (so_stage_table ops) (so_container_id ops)] ms)
    | inl _ => None
    end
  else match strim_mediamtx_mounts (Some (strim_default_layout root)) true STRIM_SPEC_MAX_MOUNTS with
       | inr ms => Some (stage_request ops [] ms)
       | inl _ => None
       end.

Lemma build_spec_run (exits : bool) (live now : Z) (ops : strim_stage_ops) (root : option cstring) (d : daemon) :
  so_layout ops = strim_default_layout root ->
  strlen (stage_str (so_stage_table ops) (so_container_id ops)) < 64 ->
  exists args ms, run (serve exits live now) (build_spec ops) d = (inr (args, ms), d) /\
    expected_request ops root = Some (stage_request ops args ms).
Proof.
  intros Hly Hs. unfold build_spec, expected_request. rewrite Hly. destruct (so_ffmpeg ops).
  - unfold strim_stage_argv. change ((64 =? 0) || (64 =? 0)) with false.
    change (64 <=? strlen STRIM_CTR_TRANSCODE) with false.
    rewrite (proj2 (Z.leb_gt _ _)) by done. eexists _, _. split; [|reflexivity]. reflexivity.
  - eexists _, _. split; reflexivity.
Qed.

(** C13: stage ops converge.  With a client, the default host layout, a stage
    name of less than 64 bytes, and a daemon and CDI registry that answer
    faithfully, an op that is current, whose deadline lies ahead and whose
    timeout is positive does its work from whatever state of the stage's
    container (absent, created, running, exited, whether or not the process
    obeys SIGTERM in time): stop returns 0 and leaves neither task nor
    container; start returns 0 and leaves exactly the requested container
    with its task running.  So a retry repairs whatever an earlier,
    interrupted op left behind. *)
Theorem stage_ops_converge (exits : bool) (live now : Z) (ops : strim_stage_ops)
    (root : option cstring) (t : Z) (cancel : option strim_op_job) (d : daemon) :
  so_client ops = true -> live_op cancel live now t -> daemon_ok d ->
  so_layout ops = strim_default_layout root ->
  strlen (stage_str (so_stage_table ops) (so_container_id ops)) < 64 ->
  run (serve exits live now) (stage_stop_op (Some ops) t cancel) d = (0, Daemon None TNone) /\
  exists req, expected_request ops root = Some req /\
    run (serve exits live now) (stage_start_op (Some ops) t cancel) d = (0, Daemon (Some req) TRunning).
Proof.
  intros Hc Hl Hd Hly Hs. split; [by apply stop_converges|].
  unfold stage_start_op. rewrite Hc. cbn [negb]. rewrite (run_unless _ live now cancel t), run_bind by done.
  destruct (run_budget exits live now cancel t d Hl) as (b & -> & Hb).
  rewrite (proj2 (Z.leb_gt b 0)) by lia. rewrite run_bind.
  assert (Hlb : live_op cancel live now b) by (destruct Hl; split; [lia | done]).
  rewrite (stop_converges exits live now ops b cancel d) by done. cbn [Z.eqb negb].
  rewrite (run_unless _ live now cancel t), run_bind by done.
  destruct (build_spec_run exits live now ops root (Daemon None TNone) Hly Hs) as (args & ms & -> & He).
  exists (stage_request ops args ms). split; [done|].
  rewrite (run_unless _ live now cancel t) by done. unfold launch. serve_calls.
  rewrite (run_unless _ live now cancel t) by done. serve_calls.
  rewrite (run_unless _ live now cancel t) by done. done.
Qed.

(** The context [run()] builds for the egress stage from the example
    configuration. *)
Definition sample_ops : strim_stage_ops :=
  init_stage_ops true
    (ContainerConfig (lit "scale-and-egress") (lit "egress-snapshot")
       (lit "docker.io/library/ffmpeg:latest") (lit "/mnt/nvme/logs/egress.log"))
    STRIM_STAGE_SCALE_AND_EGRESS true (strim_default_layout (Some (lit "/mnt/nvme")))
    (main_stage_table (lit "mediamtx") (lit "normalize") (lit "scale-and-egress") [] false) 10000.

Lemma stage_ops_converge_witness :
  exists req,
    run (serve false 7 1000) (stage_start_op (Some sample_ops) 30000 (Some (OpJob 2 101 203 30000 7 31000)))
      (Daemon (Some (stage_request sample_ops [] [])) TRunning) = (0, Daemon (Some req) TRunning) /\
    cr_args req = [lit "/transcode.sh"; lit "scale_and_egress"].
Proof.
  destruct (stage_ops_converge false 7 1000 sample_ops (Some (lit "/mnt/nvme")) 30000
    (Some (OpJob 2 101 203 30000 7 31000)) (Daemon (Some (stage_request sample_ops [] [])) TRunning))
    as (_ & req & He & Hr).
  - reflexivity.
  - split; [lia|]. split; [reflexivity | reflexivity].
  - discriminate.
  - reflexivity.
  - vm_compute. reflexivity.
  - exists req. split; [exact Hr|]. vm_compute in He. injection He as <-. reflexivity.
Defined.

(** An op whose deadline has passed is given its full timeout again: the
    negative remainder is taken for "no deadline". *)
Lemma expired_op_gets_full_timeout (h : strim_op_job) (t now : Z) (exits : bool) (live : Z) (d : daemon) :
  j_deadline_ms h < now -> run (serve exits live now) (op_rpc_budget (Some h) t) d = (t, d).
Proof. intros H. cbn. by rewrite (proj2 (Z.ltb_lt _ _)) by lia. Qed.

(** The fire of a newer op that could not be submitted gives its generation
    back.  A start op that saw it in between has its stop return 0 half way,
    finds itself current and goes on to create, here while the old container
    still runs.  [gens] are the answers to the looks at the generation. *)
Definition serve_generations (s : daemon * list Z) (c : call) : Z * (daemon * list Z) :=
  match c with
  | CGeneration => (hd 0 s.2, (s.1, tl s.2))
  | _ => let '(z, d) := serve false 0 1000 s.1 c in (z, (d, s.2))
  end.

Lemma withdrawn_supersede_resumes :
  let old := Daemon (Some (stage_request sample_ops [] [])) TRunning in
  let h := OpJob 2 101 203 30000 7 31000 in
  run serve_generations (stage_start_op (Some sample_ops) 30000 (Some h)) (old, [7; 7; 8; 8; 8]) =
    (0, (old, [8])) /\
  run serve_generations (stage_start_op (Some sample_ops) 30000 (Some h)) (old, [7; 7; 8; 7; 7]) =
    (STRIM_CTRD_ERR_RPC, (old, [])).
Proof. split; vm_compute; reflexivity. Qed.
