(* ===== verification/Oci.v ===== *)
(** * The OCI runtime spec (containerd/oci_spec.c)

    The growable text buffer, the user resolution against /etc/passwd and
    /etc/group, and the emitters that write the spec of a container.

    Whether [realloc] can provide a buffer of a given capacity is the
    parameter [realloc]; the two files of /etc are parameters too, [None] when
    they cannot be opened.  An array with its count is a list; a pointer that
    may be NULL is an [option] where NULL and an empty value differ. *)

From S2P Require Import Prelude Wire Controller Http Double Config EnvFile Json MiniPb Spec.

Definition STRIM_SPEC_MAX_ENV : nat := 64.

(** ** Data (spec.h, oci_spec.h) *)

Record strim_hook := Hook {
  hk_path : cstring;
  hk_args : list cstring;
  hk_env : list cstring;
  hk_timeout : Z;
}.

Record strim_process := Process {
  pr_args : list cstring;
  pr_env : list cstring;
  pr_cwd : option cstring;
  pr_capabilities : list cstring;
}.

Record strim_spec := StrimSpec {
  sp_process : strim_process;
  sp_mounts : list strim_mount;
  sp_host_network : bool;
  sp_cgroups_path : option cstring;
  sp_hooks : list strim_hook;
}.

Record strim_oci_image_config := ImageConfig {
  ic_env : list cstring;
  ic_entrypoint : list cstring;
  ic_cmd : list cstring;
  ic_working_dir : option cstring;
  ic_user : option cstring;
}.

Record strim_oci_cdi_mount := CdiMount {
  cm_host_path : cstring;
  cm_container_path : cstring;
  cm_options : list cstring;
}.

Record strim_oci_cdi_device := CdiDevice {
  cd_path : cstring;
  cd_type : option cstring;
  cd_major : Z;
  cd_minor : Z;
  cd_file_mode : Z;
  cd_uid : Z;
  cd_gid : Z;
}.

Record strim_oci_cdi_hook := CdiHook {
  ch_path : cstring;
  ch_args : list cstring;
  ch_env : list cstring;
  ch_timeout : Z;
}.

Record strim_oci_cdi_edits := CdiEdits {
  ce_env : list cstring;
  ce_mounts : list strim_oci_cdi_mount;
  ce_devices : list strim_oci_cdi_device;
  ce_hooks : list strim_oci_cdi_hook;
  ce_additional_gids : list Z;
}.

Definition DEFAULT_CAPS : list cstring :=
  map lit ["CAP_CHOWN"; "CAP_DAC_OVERRIDE"; "CAP_FSETID"; "CAP_FOWNER"; "CAP_MKNOD"; "CAP_NET_RAW";
           "CAP_SETGID"; "CAP_SETUID"; "CAP_SETFCAP"; "CAP_SETPCAP"; "CAP_NET_BIND_SERVICE";
           "CAP_SYS_CHROOT"; "CAP_KILL"; "CAP_AUDIT_WRITE"]%string.

(** Destination, type, source, options. *)
Definition DEFAULT_MOUNTS : list (cstring * cstring * cstring * list cstring) :=
  [ (lit "/proc", lit "proc", lit "proc", map lit ["nosuid"; "noexec"; "nodev"]%string);
    (lit "/dev", lit "tmpfs", lit "tmpfs", map lit ["nosuid"; "strictatime"; "mode=755"; "size=65536k"]%string);
    (lit "/dev/pts", lit "devpts", lit "devpts",
     map lit ["nosuid"; "noexec"; "newinstance"; "ptmxmode=0666"; "mode=0620"; "gid=5"]%string);
    (lit "/dev/shm", lit "tmpfs", lit "shm",
     map lit ["nosuid"; "noexec"; "nodev"; "mode=1777"; "size=65536k"]%string);
    (lit "/dev/mqueue", lit "mqueue", lit "mqueue", map lit ["nosuid"; "noexec"; "nodev"]%string);
    (lit "/sys", lit "sysfs", lit "sysfs", map lit ["nosuid"; "noexec"; "nodev"; "ro"]%string);
    (lit "/run", lit "tmpfs", lit "tmpfs",
     map lit ["nosuid"; "strictatime"; "mode=755"; "size=65536k"]%string) ].

Definition MASKED_PATHS : list cstring :=
  map lit ["/proc/acpi"; "/proc/asound"; "/proc/kcore"; "/proc/keys"; "/proc/latency_stats"; "/proc/timer_list";
           "/proc/timer_stats"; "/proc/sched_debug"; "/sys/firmware"; "/sys/devices/virtual/powercap";
           "/proc/scsi"]%string.

Definition READONLY_PATHS : list cstring :=
  map lit ["/proc/bus"; "/proc/fs"; "/proc/irq"; "/proc/sys"; "/proc/sysrq-trigger"]%string.

(** ** User resolution *)

Record resolved_user := ResolvedUser { ru_uid : Z; ru_gid : Z; ru_gids : list Z }.

Definition USER_BUF : Z := 128.

(** Name, group, and the uid when the name is a number. *)
Definition parse_user_spec (user : cstring) (name_cap group_cap : Z)
  : option (cstring * cstring * option Z) :=
  let numeric name :=
    match name with
    | c :: _ =>
        if is_digit c then
          let '(v, _, rest) := strtoul name in if streq rest [] then Some (u32 v) else None
        else None
    | [] => None
    end in
  match user with
  | [] => None
  | _ =>
      match cut_at (chr ":") user with
      | Some (name, group) =>
          if (strlen name =? 0) || (name_cap <=? strlen name) || (group_cap <=? strlen group) then None
          else Some (name, group, numeric name)
      | None => if name_cap <=? strlen user then None else Some (user, [], numeric user)
      end
  end.

(** [strtok_r] with the one delimiter [d]: the token and the rest. *)
Definition strtok_r (d : Z) (s : cstring) : option (cstring * cstring) :=
  match skip_while (fun c => c =? d) s with
  | [] => None
  | p => match cut_at d p with Some (t, r) => Some (t, r) | None => Some (p, []) end
  end.

(** At most [n] tokens. *)
Fixpoint strtok_fields (n : nat) (d : Z) (s : cstring) : list cstring :=
  match n with
  | O => []
  | S n' => match strtok_r d s with None => [] | Some (t, r) => t :: strtok_fields n' d r end
  end.

(** The whole of [s] as a number. *)
Definition strtoul_whole (s : cstring) : option Z :=
  let '(v, _, rest) := strtoul s in if streq rest [] then Some (u32 v) else None.

Definition LINE_ROOM : nat := 511.

(** The lines of an open file, [fgets] by [fgets]. *)
Fixpoint passwd_scan (fuel : nat) (name : cstring) (f : bytes) : option (Z * Z) :=
  match fuel, f with
  | S fuel', _ :: _ =>
      let '(buf, rest) := fgets LINE_ROOM f in
      match strtok_fields 7 (chr ":") (c_string buf) with
      | f0 :: _ :: f2 :: f3 :: _ =>
          if streq f0 name then
            match strtoul_whole f2, strtoul_whole f3 with
            | Some u, Some g => Some (u, g)
            | _, _ => None
            end
          else passwd_scan fuel' name rest
      | _ => passwd_scan fuel' name rest
      end
  | _, _ => None
  end.

Definition passwd_lookup (passwd : option bytes) (name : cstring) : option (Z * Z) :=
  match passwd with None => None | Some f => passwd_scan (length f) name f end.

Fixpoint group_scan (fuel : nat) (name : cstring) (f : bytes) : option Z :=
  match fuel, f with
  | S fuel', _ :: _ =>
      let '(buf, rest) := fgets LINE_ROOM f in
      match strtok_fields 4 (chr ":") (c_string buf) with
      | f0 :: _ :: f2 :: _ =>
          if streq f0 name then strtoul_whole f2 else group_scan fuel' name rest
      | _ => group_scan fuel' name rest
      end
  | _, _ => None
  end.

Definition group_lookup (group : option bytes) (name : cstring) : option Z :=
  match group with None => None | Some f => group_scan (length f) name f end.

Definition MAX_GIDS : nat := 16.

Definition is_eol (c : Z) : bool := (c =? 10) || (c =? 13).

(** [username] is one of the comma-separated members. *)
Definition lists_member (username members : cstring) : bool :=
  existsb (fun m => streq (trim_end is_eol m) username) (strtok_fields (length members) (chr ",") members).

Fixpoint memberships_scan (fuel : nat) (username : cstring) (f : bytes) (gids : list Z) : list Z :=
  match fuel, f with
  | S fuel', _ :: _ =>
      if (length gids <? MAX_GIDS)%nat then
        let '(buf, rest) := fgets LINE_ROOM f in
        let gids' :=
          match strtok_fields 4 (chr ":") (c_string buf) with
          | [_; _; f2; f3] =>
              if lists_member username f3
              then match strtoul_whole f2 with Some g => gids ++ [g] | None => gids end
              else gids
          | _ => gids
          end in
        memberships_scan fuel' username rest gids'
      else gids
  | _, _ => gids
  end.

(** The list is left empty when the file cannot be opened. *)
Definition group_memberships (group : option bytes) (username : cstring) (primary_gid : Z) : list Z :=
  match group with None => [] | Some f => memberships_scan (length f) username f [primary_gid] end.

Definition root_user : resolved_user := ResolvedUser 0 0 [0].

Definition resolve_user (passwd group : option bytes) (image : strim_oci_image_config) : resolved_user :=
  let with_gids name uid gid :=
    let gids := group_memberships group name gid in
    ResolvedUser uid gid (match gids with [] => [gid] | _ => gids end) in
  let named_group g gid := match g with [] => gid | _ => default gid (group_lookup group g) end in
  match ic_user image with
  | None | Some [] => root_user
  | Some user =>
      match parse_user_spec user USER_BUF USER_BUF with
      | None => root_user
      | Some (_, g, Some uid) =>
          let gid :=
            match g with
            | [] => 0
            | _ => match strtoul_whole g with Some gv => gv | None => named_group g 0 end
            end in
          with_gids (fmt_u64 uid) uid gid
      | Some (name, g, None) =>
          match passwd_lookup passwd name with
          | Some (uid, gid) => with_gids name uid (named_group g gid)
          | None => with_gids name 0 (named_group g 0)
          end
      end
  end.

(** ** Environment keys *)

Definition env_key_len (entry : cstring) : nat :=
  match cut_at (chr "=") entry with Some (k, _) => length k | None => length entry end.

Definition env_has_key (env : list cstring) (entry : cstring) : bool :=
  existsb (fun e => (env_key_len e =? env_key_len entry)%nat
                    && streq (take (env_key_len entry) e) (take (env_key_len entry) entry)) env.

Fixpoint cap_contains (caps : list cstring) (cap : cstring) : bool :=
  match caps with [] => false | c :: caps' => if streq c cap then true else cap_contains caps' cap end.

(** ** The text buffer *)

Record jbuf := Jbuf { jb_data : bytes; jb_cap : Z }.

Definition jb_len (b : jbuf) : Z := strlen (jb_data b).

(** An emitter changes the buffer. *)
Abbreviation emit := (jbuf -> jbuf).

Declare Scope emit_scope.
Delimit Scope emit_scope with emit.
Definition and_then (e f : emit) : emit := fun b => f (e b).
Notation "e ~> f" := (and_then e f) (at level 62, right associativity) : emit_scope.
Open Scope emit_scope.

Definition skip : emit := fun b => b.

Section Emitters.
Variable realloc : Z -> bool.
Variable passwd group : option bytes.

(** 64 doublings of 256 pass any size. *)
Definition jb_reserve (b : jbuf) (extra : Z) : option jbuf :=
  let need := jb_len b + extra in
  if need <=? jb_cap b then Some b
  else let ncap := grow 64 (if jb_cap b =? 0 then 256 else jb_cap b) need in
       if realloc ncap then Some (Jbuf (jb_data b) ncap) else None.

(** Nothing is written when no room can be made. *)
Definition jb_raw (s : cstring) : emit := fun b =>
  match jb_reserve b (strlen s) with
  | None => b
  | Some b' => Jbuf (jb_data b' ++ s) (jb_cap b')
  end.

Definition jb_ch (c : Z) : emit := fun b =>
  match jb_reserve b 1 with
  | None => b
  | Some b' => Jbuf (jb_data b' ++ [c]) (jb_cap b')
  end.

Fixpoint quote_bytes (s : cstring) : emit :=
  match s with
  | [] => skip
  | c :: s' =>
      (if c =? 34 then jb_raw [92; 34]
       else if c =? 92 then jb_raw [92; 92]
       else if c =? 8 then jb_raw (lit "\b")
       else if c =? 12 then jb_raw (lit "\f")
       else if c =? 10 then jb_raw (lit "\n")
       else if c =? 13 then jb_raw (lit "\r")
       else if c =? 9 then jb_raw (lit "\t")
       else if c <? 0x20 then jb_raw (lit "\u00" ++ [hex_char (c / 16); hex_char (c mod 16)])
       else jb_ch c) ~> quote_bytes s'
  end.

Definition jb_quoted (s : option cstring) : emit :=
  jb_ch 34 ~> quote_bytes (default [] s) ~> jb_ch 34.

Definition jb_u32 (v : Z) : emit := jb_raw (fmt_u64 v).
Definition jb_i64 (v : Z) : emit := jb_raw (fmt_i64 v).

(** [for (...) { if (i) jb_ch(b, ','); f(x); }], the index starting at [i]. *)
Fixpoint emit_each {A} (f : A -> emit) (i : nat) (l : list A) : emit :=
  match l with
  | [] => skip
  | x :: l' => (if (i =? 0)%nat then skip else jb_ch comma) ~> f x ~> emit_each f (S i) l'
  end.

(** [for (...) f(x);] *)
Fixpoint emit_all {A} (f : A -> emit) (l : list A) : emit :=
  match l with [] => skip | x :: l' => f x ~> emit_all f l' end.

Definition quote_item (s : cstring) : emit := jb_quoted (Some s).

Definition jb_str_array (items : list cstring) : emit :=
  jb_ch 91 ~> emit_each quote_item 0 items ~> jb_ch 93.

(** String literals that contain quotes are written with single quotes. *)
Definition sq (c : Z) : Z := if c =? 39 then 34 else c.
Definition jlit (s : string) : cstring := map sq (lit s).

(** ** Spec assembly *)

(** The environment of the process before the CDI edits. *)
Definition base_env (spec : strim_spec) (image : strim_oci_image_config) : list cstring :=
  match pr_env (sp_process spec) with
  | _ :: _ => pr_env (sp_process spec)
  | [] => match ic_env image with _ :: _ => ic_env image | [] => strim_default_unix_env end
  end.

(** Append the CDI variables whose key [env] does not set, while there is
    room. *)
Fixpoint merge_cdi_env (env : list cstring) (cdi : list cstring) (all : list cstring) : list cstring :=
  match cdi with
  | [] => all
  | e :: cdi' =>
      if (length all <? STRIM_SPEC_MAX_ENV)%nat
      then merge_cdi_env env cdi' (if env_has_key env e then all else all ++ [e])
      else all
  end.

Definition process_env (spec : strim_spec) (image : strim_oci_image_config)
    (cdi : option strim_oci_cdi_edits) : list cstring :=
  let env := base_env spec image in
  let all := take STRIM_SPEC_MAX_ENV env in
  match cdi with Some c => merge_cdi_env env (ce_env c) all | None => all end.

Definition MAX_CAPS : nat := 64.

Fixpoint add_caps (extra : list cstring) (caps : list cstring) : list cstring :=
  match extra with
  | [] => caps
  | c :: extra' =>
      if (length caps <? MAX_CAPS)%nat
      then add_caps extra' (if cap_contains caps c then caps else caps ++ [c])
      else caps
  end.

Definition process_user (image : strim_oci_image_config) (cdi : option strim_oci_cdi_edits) : resolved_user :=
  let ru := resolve_user passwd group image in
  match cdi with
  | None => ru
  | Some c => ResolvedUser (ru_uid ru) (ru_gid ru)
                (ru_gids ru ++ take (MAX_GIDS - length (ru_gids ru)) (ce_additional_gids c))
  end.

Definition emit_user (ru : resolved_user) : emit :=
  jb_raw (jlit "'process':{'user':{") ~>
  (if negb (ru_uid ru =? 0) then jb_raw (jlit "'uid':") ~> jb_u32 (ru_uid ru) else skip) ~>
  (if negb (ru_gid ru =? 0)
   then (if negb (ru_uid ru =? 0) then jb_ch comma else skip) ~> jb_raw (jlit "'gid':") ~> jb_u32 (ru_gid ru)
   else skip) ~>
  (if (0 <? length (ru_gids ru))%nat
   then (if negb (ru_uid ru =? 0) || negb (ru_gid ru =? 0) then jb_ch comma else skip) ~>
        jb_raw (jlit "'additionalGids':[") ~> emit_each jb_u32 0 (ru_gids ru) ~> jb_ch 93
   else skip) ~>
  jb_ch 125.

Definition emit_args (spec : strim_spec) (image : strim_oci_image_config) : emit :=
  let args_tail := match pr_args (sp_process spec) with [] => ic_cmd image | args => args end in
  jb_raw (jlit ",'args':[") ~>
  emit_each quote_item 0 (ic_entrypoint image) ~>
  emit_each quote_item (length (ic_entrypoint image)) args_tail ~>
  jb_ch 93.

Definition emit_process (spec : strim_spec) (image : strim_oci_image_config)
    (cdi : option strim_oci_cdi_edits) : emit :=
  let env := process_env spec image cdi in
  let cwd := match ic_working_dir image with None | Some [] => lit "/" | Some d => d end in
  let ru := process_user image cdi in
  let caps := add_caps (pr_capabilities (sp_process spec)) DEFAULT_CAPS in
  emit_user ru ~>
  emit_args spec image ~>
  jb_raw (jlit ",'env':") ~> jb_str_array env ~>
  jb_raw (jlit ",'cwd':") ~> jb_quoted (Some cwd) ~>
  jb_raw (jlit ",'capabilities':{") ~>
  jb_raw (jlit "'bounding':") ~> jb_str_array caps ~>
  jb_raw (jlit ",'effective':") ~> jb_str_array caps ~>
  jb_raw (jlit ",'permitted':") ~> jb_str_array caps ~>
  jb_ch 125 ~>
  jb_raw (jlit ",'rlimits':[{'type':'RLIMIT_NOFILE','hard':1024,'soft':1024}]") ~>
  jb_raw (jlit ",'noNewPrivileges':true}").

Definition emit_default_mount (m : cstring * cstring * cstring * list cstring) : emit :=
  let '(dest, type, source, options) := m in
  jb_raw (jlit "{'destination':") ~> jb_quoted (Some dest) ~>
  jb_raw (jlit ",'type':") ~> jb_quoted (Some type) ~>
  jb_raw (jlit ",'source':") ~> jb_quoted (Some source) ~>
  jb_raw (jlit ",'options':[") ~> emit_each quote_item 0 options ~> jb_ch 93 ~> jb_ch 125.

Definition emit_bind_mount (m : strim_mount) : emit :=
  jb_ch comma ~> jb_raw (jlit "{'destination':") ~> jb_quoted (Some (m_destination m)) ~>
  jb_raw (jlit ",'type':'bind','source':") ~> jb_quoted (Some (m_source m)) ~>
  jb_raw (jlit ",'options':['rbind','") ~> jb_raw (if m_read_write m then lit "rw" else lit "ro") ~>
  jb_raw (jlit "']}").

Definition emit_cdi_mount (m : strim_oci_cdi_mount) : emit :=
  jb_ch comma ~> jb_raw (jlit "{'destination':") ~> jb_quoted (Some (cm_container_path m)) ~>
  jb_raw (jlit ",'type':'bind','source':") ~> jb_quoted (Some (cm_host_path m)) ~>
  jb_raw (jlit ",'options':[") ~> emit_each quote_item 0 (cm_options m) ~> jb_ch 93 ~> jb_ch 125.

Definition emit_mounts (spec : strim_spec) (cdi : option strim_oci_cdi_edits) : emit :=
  jb_raw (jlit "'mounts':[") ~>
  emit_each emit_default_mount 0 DEFAULT_MOUNTS ~>
  emit_all emit_bind_mount (sp_mounts spec) ~>
  match cdi with Some c => emit_all emit_cdi_mount (ce_mounts c) | None => skip end ~>
  jb_ch 93.

Definition CGPATH_MAX : Z := 512.

Definition cgroups_path (spec : strim_spec) (namespace_ : option cstring) (container_id : cstring) : cstring :=
  match sp_cgroups_path spec with
  | Some (c :: p) => snprintf_str CGPATH_MAX (c :: p)
  | _ => snprintf_str CGPATH_MAX (lit "/" ++ default (lit "default") namespace_ ++ lit "/" ++ container_id)
  end.

Definition emit_allow (d : strim_oci_cdi_device) : emit :=
  if (cd_major d <? 0) || (cd_minor d <? 0) then skip
  else if match cd_type d with Some t => negb (streq t (lit "c")) | None => false end then skip
  else jb_raw (jlit ",{'allow':true,'type':'c','major':") ~> jb_i64 (cd_major d) ~>
       jb_raw (jlit ",'minor':") ~> jb_i64 (cd_minor d) ~> jb_raw (jlit ",'access':'rwm'}").

Definition emit_device (d : strim_oci_cdi_device) : emit :=
  jb_raw (jlit "{'path':") ~> jb_quoted (Some (cd_path d)) ~>
  jb_raw (jlit ",'type':") ~> jb_quoted (Some (default (lit "c") (cd_type d))) ~>
  jb_raw (jlit ",'major':") ~> jb_i64 (cd_major d) ~>
  jb_raw (jlit ",'minor':") ~> jb_i64 (cd_minor d) ~>
  (if negb (cd_file_mode d =? 0) then jb_raw (jlit ",'fileMode':") ~> jb_u32 (cd_file_mode d) else skip) ~>
  (if negb (cd_uid d =? 0) then jb_raw (jlit ",'uid':") ~> jb_u32 (cd_uid d) else skip) ~>
  (if negb (cd_gid d =? 0) then jb_raw (jlit ",'gid':") ~> jb_u32 (cd_gid d) else skip) ~>
  jb_ch 125.

Definition emit_namespace (nm : cstring) : emit :=
  jb_raw (jlit "{'type':") ~> jb_quoted (Some nm) ~> jb_ch 125.

Definition cdi_devices (cdi : option strim_oci_cdi_edits) : list strim_oci_cdi_device :=
  match cdi with Some c => ce_devices c | None => [] end.

Definition emit_linux (spec : strim_spec) (namespace_ : option cstring) (container_id : cstring)
    (cdi : option strim_oci_cdi_edits) : emit :=
  jb_raw (jlit "'linux':{") ~>
  jb_raw (jlit "'maskedPaths':") ~> jb_str_array MASKED_PATHS ~>
  jb_raw (jlit ",'readonlyPaths':") ~> jb_str_array READONLY_PATHS ~>
  jb_raw (jlit ",'cgroupsPath':") ~> jb_quoted (Some (cgroups_path spec namespace_ container_id)) ~>
  jb_raw (jlit ",'resources':{'devices':[{'allow':false,'access':'rwm'}") ~>
  emit_all emit_allow (cdi_devices cdi) ~>
  jb_raw (jlit "]}") ~>
  jb_raw (jlit ",'namespaces':[") ~>
  emit_each emit_namespace 0 (map lit ["pid"; "ipc"; "uts"; "mount"]%string) ~>
  (if negb (sp_host_network spec) then jb_ch comma ~> jb_raw (jlit "{'type':'network'}") else skip) ~>
  jb_ch 93 ~>
  (if (0 <? length (cdi_devices cdi))%nat
   then jb_raw (jlit ",'devices':[") ~> emit_each emit_device 0 (cdi_devices cdi) ~> jb_ch 93
   else skip) ~>
  jb_ch 125.

Definition emit_hook_object (path : cstring) (args env : list cstring) (timeout : Z) : emit :=
  jb_raw (jlit "{'path':") ~> jb_quoted (Some path) ~>
  (if (0 <? length args)%nat then jb_raw (jlit ",'args':") ~> jb_str_array args else skip) ~>
  (if (0 <? length env)%nat then jb_raw (jlit ",'env':") ~> jb_str_array env else skip) ~>
  (if negb (timeout =? 0) then jb_raw (jlit ",'timeout':") ~> jb_i64 timeout else skip) ~>
  jb_ch 125.

Definition emit_hooks (spec : strim_spec) (cdi : option strim_oci_cdi_edits) : emit :=
  let cdi_hooks := match cdi with Some c => ce_hooks c | None => [] end in
  if (length (sp_hooks spec) =? 0)%nat && (length cdi_hooks =? 0)%nat then skip
  else
    jb_raw (jlit ",'hooks':{") ~>
    jb_raw (jlit "'createContainer':[") ~>
    emit_each (fun h => emit_hook_object (hk_path h) (hk_args h) (hk_env h) (hk_timeout h)) 0 (sp_hooks spec) ~>
    emit_each (fun h => emit_hook_object (ch_path h) (ch_args h) (ch_env h) (ch_timeout h))
      (length (sp_hooks spec)) cdi_hooks ~>
    jb_raw (jlit "]}").

Definition emit_spec (spec : strim_spec) (image : strim_oci_image_config) (namespace_ : option cstring)
    (container_id : cstring) (cdi : option strim_oci_cdi_edits) : emit :=
  jb_ch 123 ~>
  jb_raw (jlit "'ociVersion':'1.0.2',") ~>
  emit_process spec image cdi ~> jb_ch comma ~>
  jb_raw (jlit "'root':{'path':'rootfs'},") ~>
  emit_mounts spec cdi ~> jb_ch comma ~>
  emit_linux spec namespace_ container_id cdi ~>
  emit_hooks spec cdi ~>
  jb_ch 125.

(** The buffer and the length handed to the caller, or [None] for -1.  A
    buffer that was never allocated has no data. *)
Definition strim_oci_build_spec (spec : option strim_spec) (image : option strim_oci_image_config)
    (namespace_ container_id : option cstring) (cdi : option strim_oci_cdi_edits) (out : bool)
  : option (jbuf * Z) :=
  match spec, image, container_id, out with
  | Some spec, Some image, Some container_id, true =>
      let b := (emit_spec spec image namespace_ container_id cdi ~> jb_ch 0) (Jbuf [] 0) in
      if jb_cap b =? 0 then None else Some (b, jb_len b - 1)
  | _, _, _, _ => None
  end.

End Emitters.
