(* ===== verification/OciFacts.v ===== *)
(** * What the spec builder writes

    The text of a spec is the text of one JSON document, given here in the
    terms of the OCI runtime spec; it never leaves its buffer, and it reads
    back as the document. *)

From S2P Require Import Prelude Wire Controller Http HttpFacts Double Config DurationFacts EnvFile Json JsonFacts MiniPb Spec Oci.

(** ** Emitters write texts *)

Definition fits (b : jbuf) : Prop := jb_len b <= jb_cap b.

Lemma grow_enough (fuel : nat) (ncap need : Z) :
  0 < ncap -> need <= ncap * 2 ^ Z.of_nat fuel -> need <= grow fuel ncap need.
Proof.
  revert ncap. induction fuel as [|fuel IH]; intros ncap Hp H; cbn [grow].
  - by rewrite Z.mul_1_r in H.
  - destruct (Z.ltb_spec ncap need); [|lia]. apply IH; [lia|].
    rewrite Nat2Z.inj_succ, Z.pow_succ_r in H by lia. lia.
Qed.

Definition jtexts (l : list cstring) : jval := JArr (map JStr l).

Definition jints (l : list Z) : jval := JArr (map JInt l).

Lemma texts_items (l : list cstring) : render (jtexts l) = 91 :: commas (map quoted l) ++ [93].
Proof. unfold jtexts. cbn [render]. by rewrite map_map. Qed.

Section Texts.
Context (realloc : Z -> bool).

(** With memory [e] appends [t]; whatever happens to memory, it stays within
    the buffer and writes no more than [t]. *)
Class Writes (e : emit) (t : bytes) : Prop := {
  writes_all : (forall n, realloc n = true) -> forall b, jb_data (e b) = jb_data b ++ t;
  writes_within : forall b, fits b -> jb_len b + strlen t <= 2 ^ 63 ->
    fits (e b) /\ jb_len (e b) <= jb_len b + strlen t;
}.

#[export] Typeclasses Opaque jb_raw jb_ch skip and_then jb_quoted jb_u32 jb_i64 emit_each emit_all
  quote_bytes quote_item jb_str_array.

Lemma writes_eq (e : emit) (t t' : bytes) : Writes e t -> t = t' -> Writes e t'.
Proof. by intros ? <-. Qed.

#[export] Instance raw_writes (s : cstring) : Writes (jb_raw realloc s) s.
Proof.
  pose proof (strlen_nonneg s) as Hs. split.
  - intros Hm b. unfold jb_raw, jb_reserve. destruct (_ <=? _); [done|]. by rewrite Hm.
  - intros b Hb Hl. pose proof (strlen_nonneg (jb_data b)) as H0.
    unfold jb_raw, jb_reserve, fits, jb_len in *. destruct (Z.leb_spec (strlen (jb_data b) + strlen s) (jb_cap b)).
    + cbn [jb_data jb_cap]. rewrite strlen_app. lia.
    + destruct (realloc _); [|lia]. cbn [jb_data jb_cap]. rewrite strlen_app. split; [|lia].
      apply grow_enough; destruct (Z.eqb_spec (jb_cap b) 0); lia.
Qed.

#[export] Instance ch_writes (c : Z) : Writes (jb_ch realloc c) [c].
Proof. change (jb_ch realloc c) with (jb_raw realloc [c]). apply raw_writes. Qed.

#[export] Instance skip_writes : Writes skip [].
Proof.
  split; [intros _ b; by rewrite app_nil_r|]. intros b Hb Hl. unfold skip.
  split; [done|]. change (strlen []) with 0. lia.
Qed.

#[export] Instance seq_writes (e f : emit) (t u : bytes) :
  Writes e t -> Writes f u -> Writes (e ~> f) (t ++ u).
Proof.
  intros He Hf. pose proof (strlen_nonneg t). pose proof (strlen_nonneg u). split; unfold and_then.
  - intros Hm b. rewrite (writes_all (e := f) Hm), (writes_all (e := e) Hm). by rewrite app_assoc.
  - intros b Hb Hl. rewrite strlen_app in Hl |- *.
    destruct (writes_within (e := e) b Hb) as [H1 H2]; [lia|].
    destruct (writes_within (e := f) (e b) H1) as [H3 H4]; [lia|]. split; [done|lia].
Qed.

Lemma if_writes (c : bool) (e f : emit) (t u : bytes) :
  Writes e t -> Writes f u -> Writes (if c then e else f) (if c then t else u).
Proof. by destruct c. Qed.

#[export] Instance quoted_writes (s : cstring) : Writes (jb_quoted realloc (Some s)) (quoted s).
Proof.
  enough (Hq : Writes (quote_bytes realloc s) (concat (map quoted_byte s))) by (unfold quoted, jb_quoted; cbn [default]; apply _).
  induction s as [|c s IH]; [exact skip_writes|]. cbn [quote_bytes map concat].
  apply (seq_writes _ _ _ _); [|done]. unfold quoted_byte. repeat (case_match; [apply _|]). apply _.
Qed.

#[export] Instance u32_writes (v : Z) : Writes (jb_u32 realloc v) (fmt_u64 v).
Proof. unfold jb_u32. apply _. Qed.

#[export] Instance i64_writes (v : Z) : Writes (jb_i64 realloc v) (fmt_i64 v).
Proof. unfold jb_i64. apply _. Qed.

(** The items of a list from index [i] on. *)
Definition each_text (i : nat) (ps : list bytes) : bytes :=
  match i with O => commas ps | _ => concat (map (cons comma) ps) end.

Lemma commas_tail (p : bytes) (ps : list bytes) : commas (p :: ps) = p ++ concat (map (cons comma) ps).
Proof.
  revert p. induction ps as [|q ps IH]; intros p; [by rewrite app_nil_r|].
  rewrite commas_cons by done. rewrite IH. done.
Qed.

Lemma each_text_app (ps qs : list bytes) :
  each_text 0 ps ++ each_text (length ps) qs = commas (ps ++ qs).
Proof.
  destruct ps as [|p ps]; [done|]. cbn [length each_text app].
  by rewrite !commas_tail, map_app, concat_app, app_assoc.
Qed.

Lemma each_tail_writes {A} (f : A -> emit) (g : A -> bytes) (i : nat) (l : list A) :
  Forall (fun x => Writes (f x) (g x)) l ->
  Writes (emit_each realloc f (S i) l) (concat (map (cons comma) (map g l))).
Proof.
  intros Hl. revert i. induction Hl as [|x l Hx _ IH]; intros i; [exact skip_writes|].
  exact (seq_writes _ _ _ _ (ch_writes comma) (seq_writes _ _ _ _ Hx (IH (S i)))).
Qed.

Lemma each_writes_in {A} (f : A -> emit) (g : A -> bytes) (i : nat) (l : list A) :
  Forall (fun x => Writes (f x) (g x)) l -> Writes (emit_each realloc f i l) (each_text i (map g l)).
Proof.
  intros Hf. destruct i as [|i]; [|by apply each_tail_writes].
  destruct Hf as [|x l Hx Hl]; [exact skip_writes|]. cbn [each_text map]. rewrite commas_tail.
  exact (seq_writes _ _ _ _ skip_writes (seq_writes _ _ _ _ Hx (each_tail_writes f g 0 l Hl))).
Qed.

#[export] Instance each_writes {A} (f : A -> emit) (g : A -> bytes) (i : nat) (l : list A) :
  (forall x, Writes (f x) (g x)) -> Writes (emit_each realloc f i l) (each_text i (map g l)).
Proof. intros Hf. apply each_writes_in. apply Forall_forall. auto. Qed.

#[export] Instance all_writes {A} (f : A -> emit) (g : A -> bytes) (l : list A) :
  (forall x, Writes (f x) (g x)) -> Writes (emit_all f l) (concat (map g l)).
Proof. intros Hf. induction l; [exact skip_writes|]. cbn. apply _. Qed.

Lemma quote_item_writes (s : cstring) : Writes (quote_item realloc s) (quoted s).
Proof. unfold quote_item. apply _. Qed.
#[export] Existing Instance quote_item_writes.

#[export] Instance str_array_writes (l : list cstring) :
  Writes (jb_str_array realloc l) (render (jtexts l)).
Proof. rewrite texts_items. eapply writes_eq; [unfold jb_str_array; apply _|done]. Qed.

End Texts.

#[export] Hint Extern 1 (Writes _ (if _ then _ else _) _) => apply if_writes : typeclass_instances.

(** ** The document *)

(** A member that is left out when [absent]. *)
Definition unless (absent : bool) (k : string) (v : jval) : list (bytes * jval) :=
  if absent then [] else [(lit k, v)].

Definition field (k : string) (v : jval) : bytes * jval := (lit k, v).
Definition jtext (s : string) : jval := JStr (lit s).

Definition user_doc (ru : resolved_user) : jval :=
  JObj (unless (ru_uid ru =? 0) "uid" (JInt (ru_uid ru)) ++ unless (ru_gid ru =? 0) "gid" (JInt (ru_gid ru)) ++
        unless (length (ru_gids ru) =? 0)%nat "additionalGids" (jints (ru_gids ru))).

(** The key of an environment entry. *)
Definition env_key (e : cstring) : cstring := take (env_key_len e) e.

(** The base environment, then the CDI variables with new keys. *)
Definition merged_env (spec : strim_spec) (image : strim_oci_image_config)
    (cdi : option strim_oci_cdi_edits) : list cstring :=
  let base := base_env spec image in
  take STRIM_SPEC_MAX_ENV
    (base ++ match cdi with
             | Some c => filter (fun e => env_key e ∉ map env_key base) (ce_env c)
             | None => []
             end).

(** Each item at its first occurrence. *)
Definition first_occurrences (l : list cstring) : list cstring := reverse (remove_dups (reverse l)).

Definition merged_caps (spec : strim_spec) : list cstring :=
  take MAX_CAPS (first_occurrences (DEFAULT_CAPS ++ pr_capabilities (sp_process spec))).

Definition process_doc (ru : resolved_user) (spec : strim_spec) (image : strim_oci_image_config)
    (cdi : option strim_oci_cdi_edits) : jval :=
  let caps := jtexts (merged_caps spec) in
  JObj [ field "user" (user_doc ru);
         field "args" (jtexts (ic_entrypoint image ++
                               match pr_args (sp_process spec) with [] => ic_cmd image | args => args end));
         field "env" (jtexts (merged_env spec image cdi));
         field "cwd" (JStr match ic_working_dir image with None | Some [] => lit "/" | Some d => d end);
         field "capabilities" (JObj [field "bounding" caps; field "effective" caps; field "permitted" caps]);
         field "rlimits" (JArr [JObj [field "type" (jtext "RLIMIT_NOFILE"); field "hard" (JInt 1024);
                                      field "soft" (JInt 1024)]]);
         field "noNewPrivileges" (JBool true) ].

Definition mount_doc (dest type source : cstring) (options : list cstring) : jval :=
  JObj [ field "destination" (JStr dest); field "type" (JStr type); field "source" (JStr source);
         field "options" (jtexts options) ].

Definition default_mount_doc (m : cstring * cstring * cstring * list cstring) : jval :=
  let '(dest, type, source, options) := m in mount_doc dest type source options.
Definition bind_mount_doc (m : strim_mount) : jval :=
  mount_doc (m_destination m) (lit "bind") (m_source m)
    [lit "rbind"; if m_read_write m then lit "rw" else lit "ro"].
Definition cdi_mount_doc (m : strim_oci_cdi_mount) : jval :=
  mount_doc (cm_container_path m) (lit "bind") (cm_host_path m) (cm_options m).

Definition cdi_mounts (cdi : option strim_oci_cdi_edits) : list strim_oci_cdi_mount :=
  match cdi with Some c => ce_mounts c | None => [] end.
Definition cdi_hooks (cdi : option strim_oci_cdi_edits) : list strim_oci_cdi_hook :=
  match cdi with Some c => ce_hooks c | None => [] end.

Definition mounts_doc (spec : strim_spec) (cdi : option strim_oci_cdi_edits) : jval :=
  JArr (map default_mount_doc DEFAULT_MOUNTS ++ map bind_mount_doc (sp_mounts spec) ++
        map cdi_mount_doc (cdi_mounts cdi)).

(** A character device with its numbers, by default the type of a device. *)
Definition char_device (d : strim_oci_cdi_device) : bool :=
  (0 <=? cd_major d) && (0 <=? cd_minor d) && streq (default (lit "c") (cd_type d)) (lit "c").

Definition deny_all : jval := JObj [field "allow" (JBool false); field "access" (jtext "rwm")].
Definition allow_doc (d : strim_oci_cdi_device) : jval :=
  JObj [ field "allow" (JBool true); field "type" (jtext "c"); field "major" (JInt (cd_major d));
         field "minor" (JInt (cd_minor d)); field "access" (jtext "rwm") ].

Definition device_doc (d : strim_oci_cdi_device) : jval :=
  JObj ([ field "path" (JStr (cd_path d)); field "type" (JStr (default (lit "c") (cd_type d)));
          field "major" (JInt (cd_major d)); field "minor" (JInt (cd_minor d)) ] ++
        unless (cd_file_mode d =? 0) "fileMode" (JInt (cd_file_mode d)) ++
        unless (cd_uid d =? 0) "uid" (JInt (cd_uid d)) ++ unless (cd_gid d =? 0) "gid" (JInt (cd_gid d))).

Definition namespace_doc (nm : cstring) : jval := JObj [field "type" (JStr nm)].

Definition rules_doc (cdi : option strim_oci_cdi_edits) : jval :=
  JArr (deny_all :: map allow_doc (filter char_device (cdi_devices cdi))).
Definition namespaces_doc (spec : strim_spec) : jval :=
  JArr (map namespace_doc (map lit ["pid"; "ipc"; "uts"; "mount"]%string ++
                           if sp_host_network spec then [] else [lit "network"])).
Definition devices_doc (cdi : option strim_oci_cdi_edits) : jval := JArr (map device_doc (cdi_devices cdi)).

Definition linux_doc (spec : strim_spec) (namespace_ : option cstring) (container_id : cstring)
    (cdi : option strim_oci_cdi_edits) : jval :=
  JObj ([ field "maskedPaths" (jtexts MASKED_PATHS); field "readonlyPaths" (jtexts READONLY_PATHS);
          field "cgroupsPath" (JStr (cgroups_path spec namespace_ container_id));
          field "resources" (JObj [field "devices" (rules_doc cdi)]);
          field "namespaces" (namespaces_doc spec) ] ++
        unless (length (cdi_devices cdi) =? 0)%nat "devices" (devices_doc cdi)).

Definition hook_doc (path : cstring) (args env : list cstring) (timeout : Z) : jval :=
  JObj ([field "path" (JStr path)] ++ unless (length args =? 0)%nat "args" (jtexts args) ++
        unless (length env =? 0)%nat "env" (jtexts env) ++ unless (timeout =? 0) "timeout" (JInt timeout)).

Definition hook_docs (spec : strim_spec) (cdi : option strim_oci_cdi_edits) : list jval :=
  map (fun h => hook_doc (hk_path h) (hk_args h) (hk_env h) (hk_timeout h)) (sp_hooks spec) ++
  map (fun h => hook_doc (ch_path h) (ch_args h) (ch_env h) (ch_timeout h)) (cdi_hooks cdi).

Definition hooks_doc (spec : strim_spec) (cdi : option strim_oci_cdi_edits) : jval := JArr (hook_docs spec cdi).

Definition oci_document (ru : resolved_user) (spec : strim_spec) (image : strim_oci_image_config)
    (namespace_ : option cstring) (container_id : cstring) (cdi : option strim_oci_cdi_edits) : jval :=
  JObj ([ field "ociVersion" (jtext "1.0.2"); field "process" (process_doc ru spec image cdi);
          field "root" (JObj [field "path" (jtext "rootfs")]); field "mounts" (mounts_doc spec cdi);
          field "linux" (linux_doc spec namespace_ container_id cdi) ] ++
        unless (length (hook_docs spec cdi) =? 0)%nat "hooks" (JObj [field "createContainer" (hooks_doc spec cdi)])).
