(* ===== verification/OciText.v ===== *)
(** * The text of a spec is the text of its document *)

From S2P Require Import Prelude Wire Controller Http HttpFacts Double Config DurationFacts EnvFile Json JsonFacts MiniPb Spec Oci OciFacts.

(** Compute the literals of a text. *)
Ltac closed_texts :=
  repeat match goal with
  | |- context [quoted (lit ?s)] => let v := eval vm_compute in (quoted (lit s)) in change (quoted (lit s)) with v
  | |- context [jlit ?s] => let v := eval vm_compute in (jlit s) in change (jlit s) with v
  | |- context [lit ?s] => let v := eval vm_compute in (lit s) in change (lit s) with v
  end.

(** Both sides as one list of bytes and opaque parts. *)
Ltac flat_texts :=
  unfold field, jtext, unless, each_text; cbn [render map commas fst snd app]; closed_texts;
  repeat (progress (rewrite <- ?app_assoc; cbn [app])).

Ltac same_text := flat_texts; reflexivity.

(** ** Environment and capabilities *)
Lemma env_key_length (e : cstring) : (env_key_len e <= length e)%nat.
Proof.
  unfold env_key_len. destruct (cut_at _ e) as [[k r]|] eqn:E; [|done].
  revert k r E. induction e as [|x e IH]; intros k r E; [done|]. cbn in E.
  destruct (x =? _); [by simplify_eq/=; lia|]. destruct (cut_at _ e) as [[a b]|] eqn:E'; [|done].
  simplify_eq/=. specialize (IH _ _ eq_refl). lia.
Qed.

Lemma env_has_key_spec (env : list cstring) (e : cstring) :
  env_has_key env e = bool_decide (env_key e ∈ map env_key env).
Proof.
  unfold env_has_key, env_key. apply eq_true_iff_eq. rewrite existsb_exists, bool_decide_eq_true.
  rewrite list_elem_of_In, in_map_iff. apply exist_proper. intros x.
  pose proof (env_key_length x). pose proof (env_key_length e).
  rewrite andb_true_iff, Nat.eqb_eq, streq_true. split.
  - intros (Hi & Hl & Ht). by rewrite Hl.
  - intros (Ht & Hi). split; [done|]. assert (env_key_len x = env_key_len e) as E.
    { apply (f_equal length) in Ht. rewrite !length_take in Ht. lia. }
    by rewrite E in Ht |- *.
Qed.

Lemma merge_cdi_env_take (env cdi all : list cstring) : (length all <= STRIM_SPEC_MAX_ENV)%nat ->
  merge_cdi_env env cdi all =
    take STRIM_SPEC_MAX_ENV (all ++ filter (fun e => env_key e ∉ map env_key env) cdi).
Proof.
  revert all. induction cdi as [|e cdi IH]; intros all Hl; cbn [merge_cdi_env].
  { rewrite filter_nil, app_nil_r, take_ge by done. done. }
  rewrite env_has_key_spec, filter_cons. destruct (Nat.ltb_spec (length all) STRIM_SPEC_MAX_ENV).
  - case_bool_decide as Hk.
    + rewrite IH by lia. by rewrite decide_False by (by intros ?).
    + rewrite IH by (rewrite length_app; simpl; lia). rewrite decide_True by done. by rewrite <- app_assoc.
  - by rewrite take_app_le, take_ge by lia.
Qed.

Lemma process_env_spec (spec : strim_spec) (image : strim_oci_image_config) (cdi : option strim_oci_cdi_edits) :
  process_env spec image cdi = merged_env spec image cdi.
Proof.
  unfold process_env, merged_env. set (env := base_env spec image). destruct cdi as [c|]; [|by rewrite app_nil_r].
  rewrite merge_cdi_env_take by (rewrite length_take; lia). set (new := filter _ _).
  destruct (decide (length env <= STRIM_SPEC_MAX_ENV)%nat); [by rewrite take_ge with (l := env) by done|].
  rewrite take_app_le by (rewrite length_take; lia). rewrite take_take, (take_app_le env) by lia. done.
Qed.

Lemma first_occurrences_snoc (l : list cstring) (c : cstring) :
  first_occurrences (l ++ [c]) = if decide (c ∈ l) then first_occurrences l else first_occurrences l ++ [c].
Proof.
  unfold first_occurrences. rewrite reverse_app.
  change (reverse [c] ++ reverse l) with (c :: reverse l). cbn [remove_dups].
  destruct (decide_rel _ c (reverse l)) as [H|H]; rewrite elem_of_reverse in H; destruct (decide (c ∈ l)); try done.
  by rewrite reverse_cons.
Qed.

Lemma elem_of_first_occurrences (l : list cstring) (c : cstring) : c ∈ first_occurrences l <-> c ∈ l.
Proof. unfold first_occurrences. by rewrite elem_of_reverse, elem_of_remove_dups, elem_of_reverse. Qed.

Lemma first_occurrences_prefix (l k : list cstring) : first_occurrences l `prefix_of` first_occurrences (l ++ k).
Proof.
  induction k as [|c k IH] using rev_ind; [by rewrite app_nil_r|].
  rewrite app_assoc, first_occurrences_snoc. case_decide; [done|]. by apply prefix_app_r.
Qed.

Lemma cap_contains_spec (caps : list cstring) (c : cstring) : cap_contains caps c = bool_decide (c ∈ caps).
Proof.
  induction caps as [|x caps IH]; cbn [cap_contains].
  { by rewrite bool_decide_false by (by apply not_elem_of_nil). }
  destruct (streq x c) eqn:E.
  - apply streq_true in E as ->. symmetry. apply bool_decide_eq_true. apply elem_of_cons. by left.
  - rewrite IH. apply bool_decide_ext. rewrite elem_of_cons.
    assert (c <> x) by (intros ->; by rewrite streq_refl in E). naive_solver.
Qed.

Lemma add_caps_spec (extra l : list cstring) : (length (first_occurrences l) <= MAX_CAPS)%nat ->
  add_caps extra (first_occurrences l) = take MAX_CAPS (first_occurrences (l ++ extra)).
Proof.
  revert l. induction extra as [|c extra IH]; intros l Hl; cbn [add_caps].
  { by rewrite app_nil_r, take_ge by done. }
  rewrite cap_contains_spec. replace (l ++ c :: extra) with ((l ++ [c]) ++ extra) by (by rewrite <- app_assoc).
  destruct (Nat.ltb_spec (length (first_occurrences l)) MAX_CAPS).
  - rewrite <- IH; rewrite first_occurrences_snoc.
    + f_equal. case_bool_decide as E; rewrite elem_of_first_occurrences in E; by case_decide.
    + case_decide; [lia|]. rewrite length_app. simpl. lia.
  - rewrite <- app_assoc. destruct (first_occurrences_prefix l ([c] ++ extra)) as [k ->].
    by rewrite take_app_le, take_ge by lia.
Qed.

Lemma process_caps_spec (spec : strim_spec) :
  add_caps (pr_capabilities (sp_process spec)) DEFAULT_CAPS = merged_caps spec.
Proof.
  assert (DEFAULT_CAPS = first_occurrences DEFAULT_CAPS) as E by (vm_compute; reflexivity).
  unfold merged_caps. rewrite E at 1. apply add_caps_spec. rewrite <- E. apply Nat.leb_le. reflexivity.
Qed.

Section Text.
Context (realloc : Z -> bool) (passwd group : option bytes).

Lemma fmt_unsigned (v : Z) : 0 <= v -> fmt_u64 v = fmt_i64 v.
Proof. intros Hv. unfold fmt_i64. by rewrite (proj2 (Z.ltb_ge v 0)). Qed.

Lemma ints_items (l : list Z) : Forall (fun v => 0 <= v) l ->
  render (jints l) = 91 :: commas (map fmt_u64 l) ++ [93].
Proof.
  intros Hl. unfold jints. cbn [render]. rewrite map_map. do 3 f_equal. apply map_ext_Forall.
  eapply Forall_impl; [done|]. intros v Hv. cbn. by rewrite fmt_unsigned.
Qed.

Definition user_ok (ru : resolved_user) : Prop :=
  0 <= ru_uid ru < 2 ^ 32 /\ 0 <= ru_gid ru < 2 ^ 32 /\ Forall (fun g => 0 <= g < 2 ^ 32) (ru_gids ru).

Lemma user_writes (ru : resolved_user) : user_ok ru ->
  Writes realloc (emit_user realloc ru) (jlit "'process':{'user':" ++ render (user_doc ru)).
Proof.
  intros ([Hu _] & [Hg _] & Hl). apply (Forall_impl _ (fun v => 0 <= v)) in Hl; [|lia].
  unfold emit_user, user_doc. eapply writes_eq; [apply _|].
  rewrite !fmt_unsigned by done. unfold unless.
  replace (0 <? length (ru_gids ru))%nat with (negb (length (ru_gids ru) =? 0)%nat)
    by (by destruct (length (ru_gids ru))).
  destruct (ru_uid ru =? 0), (ru_gid ru =? 0), (length (ru_gids ru) =? 0)%nat;
    cbn [negb orb]; flat_texts; rewrite ?ints_items by done; same_text.
Qed.

Lemma args_writes (spec : strim_spec) (image : strim_oci_image_config) :
  Writes realloc (emit_args realloc spec image)
    (jlit ",'args':" ++
     render (jtexts (ic_entrypoint image ++
                     match pr_args (sp_process spec) with [] => ic_cmd image | args => args end))).
Proof.
  unfold emit_args. eapply writes_eq; [apply _|]. rewrite texts_items, map_app, <- each_text_app, length_map.
  by rewrite <- !app_assoc.
Qed.

Lemma default_mount_writes m : Writes realloc (emit_default_mount realloc m) (render (default_mount_doc m)).
Proof.
  destruct m as [[[dest type] source] options]. unfold emit_default_mount, default_mount_doc, mount_doc.
  eapply writes_eq; [apply _|]. flat_texts. rewrite texts_items. same_text.
Qed.

Lemma bind_mount_writes (m : strim_mount) :
  Writes realloc (emit_bind_mount realloc m) (comma :: render (bind_mount_doc m)).
Proof.
  unfold emit_bind_mount, bind_mount_doc, mount_doc. eapply writes_eq; [apply _|].
  destruct (m_read_write m); same_text.
Qed.

Lemma cdi_mount_writes (m : strim_oci_cdi_mount) :
  Writes realloc (emit_cdi_mount realloc m) (comma :: render (cdi_mount_doc m)).
Proof.
  unfold emit_cdi_mount, cdi_mount_doc, mount_doc. eapply writes_eq; [apply _|].
  flat_texts. rewrite texts_items. same_text.
Qed.

#[local] Existing Instance default_mount_writes.
#[local] Existing Instance bind_mount_writes.
#[local] Existing Instance cdi_mount_writes.

(** A list that continues another. *)
Lemma commas_app (ps qs : list bytes) : ps <> [] ->
  commas (ps ++ qs) = commas ps ++ concat (map (cons comma) qs).
Proof. intros Hp. rewrite <- each_text_app. by destruct ps. Qed.

Lemma mounts_writes (spec : strim_spec) (cdi : option strim_oci_cdi_edits) :
  Writes realloc (emit_mounts realloc spec cdi) (jlit "'mounts':" ++ render (mounts_doc spec cdi)).
Proof.
  unfold emit_mounts, mounts_doc.
  assert (Writes realloc (match cdi with Some c => emit_all (emit_cdi_mount realloc) (ce_mounts c) | None => skip end)
            (concat (map (fun m => comma :: render (cdi_mount_doc m)) (cdi_mounts cdi)))) as Hc.
  { destruct cdi; cbn [cdi_mounts map concat]; apply _. }
  eapply writes_eq; [apply _|]. cbn [render]. rewrite !map_app, commas_app, map_app, concat_app, !map_map by done.
  unfold each_text. rewrite <- !app_assoc. done.
Qed.

Lemma allow_writes (d : strim_oci_cdi_device) :
  Writes realloc (emit_allow realloc d) (if char_device d then comma :: render (allow_doc d) else []).
Proof.
  unfold emit_allow, char_device. rewrite !Z.leb_antisym.
  destruct (cd_major d <? 0); [apply _|]. destruct (cd_minor d <? 0); [apply _|]. cbn [negb andb orb].
  assert (match cd_type d with Some t => negb (streq t (lit "c")) | None => false end =
          negb (streq (default (lit "c") (cd_type d)) (lit "c"))) as -> by (by destruct (cd_type d)).
  destruct (streq _ _); cbn [negb]; [|apply _].
  eapply writes_eq; [apply _|]. unfold allow_doc. same_text.
Qed.

Lemma concat_if_filter {A} (p : A -> bool) (f : A -> bytes) (l : list A) :
  concat (map (fun x => if p x then f x else []) l) = concat (map f (filter p l)).
Proof.
  induction l as [|x l IH]; [done|]. cbn [map concat]. rewrite IH, filter_cons.
  destruct (p x) eqn:E; by destruct (decide _).
Qed.

Definition device_ok (d : strim_oci_cdi_device) : Prop :=
  text_ok (cd_path d) /\ text_ok (default [] (cd_type d)) /\
  - 2 ^ 63 <= cd_major d < 2 ^ 63 /\ - 2 ^ 63 <= cd_minor d < 2 ^ 63 /\
  0 <= cd_file_mode d < 2 ^ 32 /\ 0 <= cd_uid d < 2 ^ 32 /\ 0 <= cd_gid d < 2 ^ 32.

Lemma device_writes (d : strim_oci_cdi_device) : device_ok d ->
  Writes realloc (emit_device realloc d) (render (device_doc d)).
Proof.
  intros (_ & _ & _ & _ & [Hm _] & [Hu _] & [Hg _]). unfold emit_device, device_doc.
  eapply writes_eq; [apply _|]. rewrite !fmt_unsigned by done. unfold unless.
  destruct (cd_file_mode d =? 0), (cd_uid d =? 0), (cd_gid d =? 0); cbn [negb]; same_text.
Qed.

Lemma namespace_writes (nm : cstring) : Writes realloc (emit_namespace realloc nm) (render (namespace_doc nm)).
Proof. unfold emit_namespace, namespace_doc. eapply writes_eq; [apply _|]. same_text. Qed.

Lemma hook_writes (path : cstring) (args env : list cstring) (timeout : Z) :
  Writes realloc (emit_hook_object realloc path args env timeout) (render (hook_doc path args env timeout)).
Proof.
  unfold emit_hook_object, hook_doc, unless. eapply writes_eq; [apply _|].
  destruct args, env, (timeout =? 0); cbn [length Nat.eqb Nat.ltb Nat.leb negb]; same_text.
Qed.

#[local] Existing Instance allow_writes.
#[local] Existing Instance namespace_writes.
#[local] Existing Instance hook_writes.

Lemma rules_text (cdi : option strim_oci_cdi_edits) :
  render (rules_doc cdi) =
    jlit "[{'allow':false,'access':'rwm'}" ++
    concat (map (fun d => if char_device d then comma :: render (allow_doc d) else []) (cdi_devices cdi)) ++ [93].
Proof. unfold rules_doc. cbn [render map]. by rewrite commas_tail, concat_if_filter, !map_map. Qed.

Lemma namespaces_text (spec : strim_spec) :
  render (namespaces_doc spec) =
    91 :: each_text 0 (map (fun nm => render (namespace_doc nm)) (map lit ["pid"; "ipc"; "uts"; "mount"]%string)) ++
    (if negb (sp_host_network spec) then comma :: jlit "{'type':'network'}" else []) ++ [93].
Proof. unfold namespaces_doc. by destruct (sp_host_network spec). Qed.

Lemma linux_writes (spec : strim_spec) (namespace_ : option cstring) (container_id : cstring)
    (cdi : option strim_oci_cdi_edits) :
  Forall device_ok (cdi_devices cdi) ->
  Writes realloc (emit_linux realloc spec namespace_ container_id cdi)
    (jlit "'linux':" ++ render (linux_doc spec namespace_ container_id cdi)).
Proof.
  intros Hd. unfold emit_linux, linux_doc.
  assert (Writes realloc (emit_each realloc (emit_device realloc) 0 (cdi_devices cdi))
            (commas (map render (map device_doc (cdi_devices cdi))))) as Hw.
  { rewrite map_map. apply each_writes_in. eapply Forall_impl; [done|]. intros d. apply device_writes. }
  assert (render (devices_doc cdi) = 91 :: commas (map render (map device_doc (cdi_devices cdi))) ++ [93])
    as He by done.
  eapply writes_eq; [apply _|]. unfold unless.
  replace (0 <? length (cdi_devices cdi))%nat with (negb (length (cdi_devices cdi) =? 0)%nat)
    by (by destruct (length (cdi_devices cdi))).
  destruct (length (cdi_devices cdi) =? 0)%nat; cbn [negb]; flat_texts;
    rewrite rules_text, namespaces_text, ?He; destruct (sp_host_network spec); same_text.
Qed.

Lemma hooks_writes (spec : strim_spec) (cdi : option strim_oci_cdi_edits) :
  Writes realloc (emit_hooks realloc spec cdi)
    (if (length (hook_docs spec cdi) =? 0)%nat then []
     else jlit ",'hooks':{'createContainer':" ++ render (hooks_doc spec cdi) ++ [125]).
Proof.
  unfold emit_hooks, hook_docs. fold (cdi_hooks cdi). rewrite length_app, !length_map.
  destruct (length (sp_hooks spec) =? 0)%nat eqn:E1, (length (cdi_hooks cdi) =? 0)%nat eqn:E2; cbn [andb];
    rewrite ?Nat.eqb_eq, ?Nat.eqb_neq in *.
  { rewrite E1, E2. apply _. }
  all: rewrite (proj2 (Nat.eqb_neq (_ + _) 0)) by lia; eapply writes_eq; [apply _|];
    unfold hooks_doc, hook_docs; cbn [render]; rewrite map_app, !map_map, <- each_text_app, length_map;
    unfold jlit; flat_texts; reflexivity.
Qed.

#[local] Existing Instance args_writes.

Lemma process_writes (spec : strim_spec) (image : strim_oci_image_config) (cdi : option strim_oci_cdi_edits) :
  let ru := process_user passwd group image cdi in user_ok ru ->
  Writes realloc (emit_process realloc passwd group spec image cdi)
    (jlit "'process':" ++ render (process_doc ru spec image cdi)).
Proof.
  cbv zeta. intros Hu. pose proof (user_writes _ Hu). unfold emit_process, process_doc.
  eapply writes_eq; [apply _|]. rewrite process_env_spec, process_caps_spec. same_text.
Qed.

Lemma spec_writes (spec : strim_spec) (image : strim_oci_image_config) (namespace_ : option cstring)
    (container_id : cstring) (cdi : option strim_oci_cdi_edits) :
  let ru := process_user passwd group image cdi in user_ok ru -> Forall device_ok (cdi_devices cdi) ->
  Writes realloc (emit_spec realloc passwd group spec image namespace_ container_id cdi)
    (render (oci_document ru spec image namespace_ container_id cdi)).
Proof.
  cbv zeta. intros Hu Hd. pose proof (process_writes spec image cdi Hu). pose proof (mounts_writes spec cdi).
  pose proof (linux_writes spec namespace_ container_id cdi Hd). pose proof (hooks_writes spec cdi).
  unfold emit_spec, oci_document. eapply writes_eq; [apply _|]. unfold unless.
  destruct (length (hook_docs spec cdi) =? 0)%nat; same_text.
Qed.

End Text.
