(* ===== verification/OciSpec.v ===== *)
(** * Specs read back, and which devices they open

    The users a spec can name, the range of its numbers, and the two main
    results: the text handed to containerd reads back as the document, and
    the device rules in it, read with the kernel's last-match-wins rule, open
    exactly the character devices of the CDI edits. *)

From S2P Require Import Prelude Wire Controller Http HttpFacts Double Config DurationFacts EnvFile Json JsonFacts MiniPb Spec Oci OciFacts OciText.

(** ** Users *)

Definition id_ok (v : Z) : Prop := 0 <= v < 2 ^ 32.

Lemma u32_id_ok (v : Z) : id_ok (u32 v).
Proof. apply wrap_range. lia. Qed.

Lemma strtoul_whole_ok (s : cstring) (v : Z) : strtoul_whole s = Some v -> id_ok v.
Proof.
  unfold strtoul_whole. destruct (strtoul s) as [[x e] r]. destruct (streq r []); [|done].
  intros [= <-]. apply u32_id_ok.
Qed.

Lemma passwd_scan_ok (fuel : nat) (name : cstring) (f : bytes) (u g : Z) :
  passwd_scan fuel name f = Some (u, g) -> id_ok u /\ id_ok g.
Proof.
  revert f. induction fuel as [|fuel IH]; intros f; [done|]. destruct f as [|c f]; [done|]. cbn [passwd_scan].
  destruct (fgets LINE_ROOM (c :: f)) as [buf rest].
  destruct (strtok_fields _ _ _) as [|f0 [|f1 [|f2 [|f3 fs]]]]; try apply IH.
  destruct (streq f0 name); [|apply IH].
  destruct (strtoul_whole f2) eqn:E2, (strtoul_whole f3) eqn:E3; intros [= -> ->].
  eauto using strtoul_whole_ok.
Qed.

Lemma group_scan_ok (fuel : nat) (name : cstring) (f : bytes) (g : Z) :
  group_scan fuel name f = Some g -> id_ok g.
Proof.
  revert f. induction fuel as [|fuel IH]; intros f; [done|]. destruct f as [|c f]; [done|]. cbn [group_scan].
  destruct (fgets LINE_ROOM (c :: f)) as [buf rest].
  destruct (strtok_fields _ _ _) as [|f0 [|f1 [|f2 fs]]]; try apply IH.
  destruct (streq f0 name); [|apply IH]. apply strtoul_whole_ok.
Qed.

Lemma memberships_scan_ok (fuel : nat) (user : cstring) (f : bytes) (gids : list Z) :
  Forall id_ok gids -> (0 < length gids <= MAX_GIDS)%nat ->
  Forall id_ok (memberships_scan fuel user f gids) /\
  (0 < length (memberships_scan fuel user f gids) <= MAX_GIDS)%nat.
Proof.
  revert f gids. induction fuel as [|fuel IH]; intros f gids Hg Hl; [done|].
  destruct f as [|c f]; [done|]. cbn [memberships_scan].
  destruct (Nat.ltb_spec (length gids) MAX_GIDS); [|done].
  destruct (fgets LINE_ROOM (c :: f)) as [buf rest]. cbv zeta.
  destruct (strtok_fields _ _ _) as [|f0 [|f1 [|f2 [|f3 [|f4 fs]]]]]; try (by apply IH).
  destruct (lists_member user f3); [|by apply IH].
  destruct (strtoul_whole f2) as [g|] eqn:E; [|by apply IH]. apply IH.
  - apply Forall_app. split; [done|]. apply Forall_singleton. by eapply strtoul_whole_ok.
  - rewrite length_app. simpl. lia.
Qed.

Section Users.
Context (passwd group : option bytes).

Lemma group_lookup_ok (name : cstring) (gid : Z) : id_ok gid -> id_ok (default gid (group_lookup group name)).
Proof.
  intros Hg. unfold group_lookup. destruct group as [f|]; [|done].
  destruct (group_scan _ name f) as [g|] eqn:E; [|done]. by apply group_scan_ok in E.
Qed.

(** A user with its groups: the primary group first, at most sixteen. *)
Definition user_wf (ru : resolved_user) : Prop :=
  user_ok ru /\ (0 < length (ru_gids ru) <= MAX_GIDS)%nat.

Lemma with_gids_ok (name : cstring) (uid gid : Z) : id_ok uid -> id_ok gid ->
  let gids := group_memberships group name gid in
  user_wf (ResolvedUser uid gid (match gids with [] => [gid] | _ => gids end)).
Proof.
  intros Hu Hg. unfold group_memberships. cbv zeta.
  assert (user_wf (ResolvedUser uid gid [gid])) as Hd.
  { split; [|cbn; unfold MAX_GIDS; lia]. split; [done|split; [done|by apply Forall_singleton]]. }
  destruct group as [f|]; [|done].
  destruct (memberships_scan_ok (length f) name f [gid]) as [H1 H2];
    [by apply Forall_singleton|cbn; unfold MAX_GIDS; lia|].
  by destruct (memberships_scan _ _ _ _).
Qed.

Lemma resolve_user_wf (image : strim_oci_image_config) : user_wf (resolve_user passwd group image).
Proof.
  assert (user_wf root_user) as Hroot.
  { split; [|cbn; unfold MAX_GIDS; lia]. split; [cbn; lia|split; [cbn; lia|by apply Forall_singleton]]. }
  assert (H0 : id_ok 0) by (unfold id_ok; lia).
  assert (Hn : forall g gid, id_ok gid -> id_ok match g with [] => gid | _ => default gid (group_lookup group g) end).
  { intros [|c g] gid Hg; [done|]. by apply group_lookup_ok. }
  unfold resolve_user. destruct (ic_user image) as [[|c user]|]; [done| |done].
  destruct (parse_user_spec _ _ _) as [[[name g] [uid|]]|] eqn:E; [| |done].
  - apply with_gids_ok.
    + unfold parse_user_spec in E. repeat case_match; simplify_eq; apply u32_id_ok.
    + destruct g as [|d g]; [done|]. destruct (strtoul_whole (d :: g)) eqn:Eg; [by eapply strtoul_whole_ok|].
      by apply (Hn (d :: g)).
  - destruct (passwd_lookup passwd name) as [[uid gid]|] eqn:Ep.
    + unfold passwd_lookup in Ep. destruct passwd as [f|]; [|done].
      apply passwd_scan_ok in Ep as [Hu Hg]. apply with_gids_ok; auto.
    + apply with_gids_ok; auto.
Qed.

(** The user of the process, with the groups of the CDI edits. *)
Lemma process_user_wf (image : strim_oci_image_config) (cdi : option strim_oci_cdi_edits) :
  Forall id_ok (default [] (ce_additional_gids <$> cdi)) -> user_wf (process_user passwd group image cdi).
Proof.
  pose proof (resolve_user_wf image) as [(Hu & Hg & Hl) Hn]. unfold process_user.
  destruct cdi as [c|]; [|done]. cbn. intros Hc. split; [split; [done|split; [done|]]|]; cbn [ru_gids].
  - apply Forall_app. split; [done|]. by apply Forall_take.
  - rewrite length_app, length_take. unfold MAX_GIDS in *. lia.
Qed.

End Users.

(** ** Documents are printable *)

Definition texts_ok (l : list cstring) : Prop := Forall text_ok l.

Lemma lit_text_ok (s : string) : text_ok (lit s).
Proof. eapply Forall_impl; [apply lit_bytes_ok|]. intros c [? ?]. done. Qed.

Lemma lits_ok (l : list string) : texts_ok (map lit l).
Proof. apply Forall_map, Forall_forall. intros s _. apply lit_text_ok. Qed.

Lemma texts_nil : texts_ok [].
Proof. constructor. Qed.

Lemma texts_cons (s : cstring) (l : list cstring) : text_ok s -> texts_ok l -> texts_ok (s :: l).
Proof. by constructor. Qed.

Lemma jtexts_ok (l : list cstring) : texts_ok l -> doc_ok (jtexts l).
Proof. intros Hl. apply doc_ok_arr, Forall_map. done. Qed.

Lemma map_doc_ok {A} (f : A -> jval) (P : A -> Prop) (l : list A) :
  (forall x, P x -> doc_ok (f x)) -> Forall P l -> doc_ok (JArr (map f l)).
Proof. intros Hf Hl. apply doc_ok_arr, Forall_map. eapply Forall_impl; [done|]. auto. Qed.

Lemma jints_ok (l : list Z) : Forall id_ok l -> doc_ok (jints l).
Proof. apply map_doc_ok. unfold id_ok. cbn. lia. Qed.

Lemma id_doc_ok (v : Z) : id_ok v -> doc_ok (JInt v).
Proof. unfold id_ok. cbn. lia. Qed.

Lemma obj_app_ok (ms ns : list (bytes * jval)) :
  doc_ok (JObj ms) -> doc_ok (JObj ns) -> doc_ok (JObj (ms ++ ns)).
Proof. rewrite !doc_ok_obj. intros. by apply Forall_app. Qed.

Lemma unless_ok (absent : bool) (k : string) (v : jval) : doc_ok v -> doc_ok (JObj (unless absent k v)).
Proof. intros Hv. destruct absent; [done|]. apply doc_ok_obj, Forall_singleton. split; [apply lit_text_ok|done]. Qed.

Lemma jtext_ok (s : string) : doc_ok (jtext s).
Proof. apply lit_text_ok. Qed.

Create HintDb docs.
#[export] Hint Resolve lit_text_ok lits_ok texts_nil texts_cons jtexts_ok jints_ok jtext_ok id_doc_ok unless_ok : docs.

Ltac doc_fields := repeat apply obj_app_ok; auto with docs; cbn [doc_ok field fst snd];
  repeat match goal with |- _ /\ _ => split end; auto with docs.

Definition mount_ok (m : strim_mount) : Prop := text_ok (m_source m) /\ text_ok (m_destination m).
Definition cdi_mount_ok (m : strim_oci_cdi_mount) : Prop :=
  text_ok (cm_host_path m) /\ text_ok (cm_container_path m) /\ texts_ok (cm_options m).
Definition hook_ok (path : cstring) (args env : list cstring) (timeout : Z) : Prop :=
  text_ok path /\ texts_ok args /\ texts_ok env /\ - 2 ^ 31 <= timeout < 2 ^ 31.

(** C strings are bytes and C integers are in range. *)
Record inputs_ok (spec : strim_spec) (image : strim_oci_image_config) (namespace_ : option cstring)
    (container_id : cstring) (cdi : option strim_oci_cdi_edits) : Prop := {
  in_args : texts_ok (pr_args (sp_process spec));
  in_env : texts_ok (pr_env (sp_process spec));
  in_caps : texts_ok (pr_capabilities (sp_process spec));
  in_mounts : Forall mount_ok (sp_mounts spec);
  in_cgroups : text_ok (default [] (sp_cgroups_path spec));
  in_hooks : Forall (fun h => hook_ok (hk_path h) (hk_args h) (hk_env h) (hk_timeout h)) (sp_hooks spec);
  in_image_env : texts_ok (ic_env image);
  in_entrypoint : texts_ok (ic_entrypoint image);
  in_cmd : texts_ok (ic_cmd image);
  in_dir : text_ok (default [] (ic_working_dir image));
  in_namespace : text_ok (default [] namespace_);
  in_id : text_ok container_id;
  in_cdi_env : texts_ok (default [] (ce_env <$> cdi));
  in_cdi_mounts : Forall cdi_mount_ok (cdi_mounts cdi);
  in_cdi_devices : Forall device_ok (cdi_devices cdi);
  in_cdi_hooks : Forall (fun h => hook_ok (ch_path h) (ch_args h) (ch_env h) (ch_timeout h)) (cdi_hooks cdi);
  in_cdi_gids : Forall id_ok (default [] (ce_additional_gids <$> cdi));
}.

Lemma user_doc_ok (ru : resolved_user) : user_ok ru -> doc_ok (user_doc ru).
Proof. intros (Hu & Hg & Hl). unfold user_doc. doc_fields. Qed.

Lemma mount_doc_ok (dest type source : cstring) (options : list cstring) :
  text_ok dest -> text_ok type -> text_ok source -> texts_ok options -> doc_ok (mount_doc dest type source options).
Proof. intros. unfold mount_doc. doc_fields. Qed.

Lemma hook_doc_ok (path : cstring) (args env : list cstring) (timeout : Z) :
  hook_ok path args env timeout -> doc_ok (hook_doc path args env timeout).
Proof. intros (Hp & Ha & He & Ht). unfold hook_doc. doc_fields. apply unless_ok. cbn. lia. Qed.

Lemma allow_doc_ok (d : strim_oci_cdi_device) : device_ok d -> doc_ok (allow_doc d).
Proof. intros (_ & _ & Hma & Hmi & _). unfold allow_doc. doc_fields; lia. Qed.

Lemma device_doc_ok (d : strim_oci_cdi_device) : device_ok d -> doc_ok (device_doc d).
Proof.
  intros (Hp & Ht & Hma & Hmi & Hm & Hu & Hg). unfold device_doc. doc_fields; try lia.
  destruct (cd_type d); [done|]. apply lit_text_ok.
Qed.

Section Documents.
Context (spec : strim_spec) (image : strim_oci_image_config) (namespace_ : option cstring)
  (container_id : cstring) (cdi : option strim_oci_cdi_edits) (ru : resolved_user).
Hypothesis Hin : inputs_ok spec image namespace_ container_id cdi.

Lemma merged_env_ok : texts_ok (merged_env spec image cdi).
Proof.
  unfold merged_env, texts_ok. apply Forall_take, Forall_app. split.
  - pose proof (in_env _ _ _ _ _ Hin). pose proof (in_image_env _ _ _ _ _ Hin). unfold base_env.
    destruct (pr_env _); [|done]. destruct (ic_env image); [|done].
    apply Forall_singleton. apply lit_text_ok.
  - pose proof (in_cdi_env _ _ _ _ _ Hin) as Hc. destruct cdi as [c|]; [|done].
    apply Forall_forall. intros e He. rewrite list_elem_of_filter in He. destruct He as [_ He].
    cbn in Hc. unfold texts_ok in Hc. rewrite Forall_forall in Hc. auto.
Qed.

Lemma merged_caps_ok : texts_ok (merged_caps spec).
Proof.
  unfold merged_caps. apply Forall_take, Forall_forall. intros c Hc.
  rewrite elem_of_first_occurrences in Hc. apply elem_of_app in Hc as [Hc|Hc].
  - unfold DEFAULT_CAPS in Hc. apply list_elem_of_fmap in Hc as (s & -> & _). apply lit_text_ok.
  - pose proof (in_caps _ _ _ _ _ Hin) as H. unfold texts_ok in H. rewrite Forall_forall in H. auto.
Qed.

Lemma process_doc_ok : user_ok ru -> doc_ok (process_doc ru spec image cdi).
Proof.
  intros Hu. pose proof merged_env_ok. pose proof merged_caps_ok.
  unfold process_doc. doc_fields; try lia.
  - by apply user_doc_ok.
  - apply jtexts_ok. apply Forall_app. split; [apply (in_entrypoint _ _ _ _ _ Hin)|].
    pose proof (in_args _ _ _ _ _ Hin). pose proof (in_cmd _ _ _ _ _ Hin). by destruct (pr_args _).
  - pose proof (in_dir _ _ _ _ _ Hin). destruct (ic_working_dir image) as [[|c d]|]; auto with docs.
Qed.

Lemma mounts_doc_ok : doc_ok (mounts_doc spec cdi).
Proof.
  unfold mounts_doc. rewrite doc_ok_arr, !Forall_app. split_and!.
  - unfold DEFAULT_MOUNTS. cbn [map default_mount_doc].
    repeat (apply Forall_cons; split; [by apply mount_doc_ok; auto 9 with docs|]). constructor.
  - apply doc_ok_arr, (map_doc_ok _ mount_ok); [|apply (in_mounts _ _ _ _ _ Hin)].
    intros m [Hs Hd]. apply mount_doc_ok; auto with docs.
    destruct (m_read_write m); auto with docs.
  - apply doc_ok_arr, (map_doc_ok _ cdi_mount_ok); [|apply (in_cdi_mounts _ _ _ _ _ Hin)].
    intros m (Hh & Hc & Ho). apply mount_doc_ok; auto with docs.
Qed.

Lemma linux_doc_ok : doc_ok (linux_doc spec namespace_ container_id cdi).
Proof.
  pose proof (in_cdi_devices _ _ _ _ _ Hin) as Hd.
  assert (doc_ok (devices_doc cdi)) by (by apply (map_doc_ok _ device_ok); [apply device_doc_ok|]).
  unfold linux_doc. doc_fields.
  - apply jtexts_ok, lits_ok.
  - apply jtexts_ok, lits_ok.
  - pose proof (in_cgroups _ _ _ _ _ Hin) as Hg. pose proof (in_namespace _ _ _ _ _ Hin) as Hn.
    pose proof (in_id _ _ _ _ _ Hin) as Hi. unfold cgroups_path, snprintf_str.
    assert (text_ok (lit "/" ++ default (lit "default") namespace_ ++ lit "/" ++ container_id)) as H1.
    { unfold text_ok. rewrite !Forall_app. split_and!; auto with docs; [apply lit_text_ok| |apply lit_text_ok].
      destruct namespace_; [done|apply lit_text_ok]. }
    destruct (sp_cgroups_path spec) as [[|c p]|]; by apply Forall_take.
  - apply doc_ok_arr, Forall_cons. split; [by unfold deny_all; doc_fields|].
    apply doc_ok_arr, (map_doc_ok _ device_ok); [apply allow_doc_ok|]. apply Forall_forall. intros d H1.
    rewrite list_elem_of_filter in H1. destruct H1 as [_ H1]. rewrite Forall_forall in Hd. auto.
  - apply (map_doc_ok _ text_ok); [by intros nm Hn; unfold namespace_doc; doc_fields|].
    destruct (sp_host_network spec);
      [apply (lits_ok ["pid"; "ipc"; "uts"; "mount"]%string)
      |apply (lits_ok ["pid"; "ipc"; "uts"; "mount"; "network"]%string)].
Qed.

Lemma oci_document_ok : user_ok ru -> doc_ok (oci_document ru spec image namespace_ container_id cdi).
Proof.
  intros Hu. assert (doc_ok (hooks_doc spec cdi)).
  { unfold hooks_doc, hook_docs. rewrite doc_ok_arr, Forall_app, !Forall_map.
    split; (eapply Forall_impl; [apply (in_hooks _ _ _ _ _ Hin) || apply (in_cdi_hooks _ _ _ _ _ Hin)|]);
      intros h; apply hook_doc_ok. }
  pose proof (process_doc_ok Hu). pose proof mounts_doc_ok. pose proof linux_doc_ok.
  unfold oci_document. doc_fields. apply unless_ok. by doc_fields.
Qed.

End Documents.

(** ** The text handed to containerd *)

Section Build.
Context (realloc : Z -> bool) (passwd group : option bytes).
Context (spec : strim_spec) (image : strim_oci_image_config) (namespace_ : option cstring)
  (container_id : cstring) (cdi : option strim_oci_cdi_edits).

Definition spec_document : jval :=
  oci_document (process_user passwd group image cdi) spec image namespace_ container_id cdi.

Hypothesis Hin : inputs_ok spec image namespace_ container_id cdi.
Hypothesis Hsize : strlen (render spec_document) < 2 ^ 63.

Lemma process_user_ok : user_ok (process_user passwd group image cdi).
Proof. apply process_user_wf, (in_cdi_gids _ _ _ _ _ Hin). Qed.

Lemma spec_text_writes :
  Writes realloc (emit_spec realloc passwd group spec image namespace_ container_id cdi ~> jb_ch realloc 0)
    (render spec_document ++ [0]).
Proof.
  apply seq_writes; [|apply ch_writes]. apply spec_writes; [apply process_user_ok|].
  apply (in_cdi_devices _ _ _ _ _ Hin).
Qed.

(** Whatever memory does, the text stays inside its buffer. *)
Lemma build_spec_within (b : jbuf) (n : Z) :
  strim_oci_build_spec realloc passwd group (Some spec) (Some image) namespace_ (Some container_id) cdi true =
    Some (b, n) -> fits b.
Proof.
  unfold strim_oci_build_spec. destruct (jb_cap _ =? 0); [done|]. intros [= <- _].
  apply (writes_within realloc (Writes := spec_text_writes) (Jbuf [] 0)); [done|].
  rewrite strlen_app. change (jb_len (Jbuf [] 0)) with 0. change (strlen [0]) with 1. lia.
Qed.

Lemma build_spec_text : (forall n, realloc n = true) ->
  exists b,
    strim_oci_build_spec realloc passwd group (Some spec) (Some image) namespace_ (Some container_id) cdi true =
      Some (b, strlen (render spec_document)) /\
    jb_data b = render spec_document ++ [0].
Proof.
  intros Hm. unfold strim_oci_build_spec.
  pose proof (writes_all realloc (Writes := spec_text_writes) Hm (Jbuf [] 0)) as Hd.
  destruct (writes_within realloc (Writes := spec_text_writes) (Jbuf [] 0)) as [Hf _]; [done| |].
  { rewrite strlen_app. change (jb_len (Jbuf [] 0)) with 0. change (strlen [0]) with 1. lia. }
  set (b := _ (Jbuf [] 0)) in *. unfold fits, jb_len in *. rewrite Hd in *. cbn [jb_data app] in *.
  rewrite strlen_app in Hf |- *. change (strlen [0]) with 1 in *. pose proof (strlen_nonneg (render spec_document)).
  rewrite (proj2 (Z.eqb_neq (jb_cap b) 0)) by lia. exists b. split; [do 2 f_equal; lia|done].
Qed.

End Build.

(** The document a caller reads from the buffer and the length it got. *)
Definition read_spec (r : option (jbuf * Z)) : option jval :=
  match r with Some (b, n) => read_json (take (Z.to_nat n) (jb_data b)) | None => None end.

Lemma build_spec_reads (realloc : Z -> bool) (passwd group : option bytes) (spec : strim_spec)
    (image : strim_oci_image_config) (namespace_ : option cstring) (container_id : cstring)
    (cdi : option strim_oci_cdi_edits) :
  let doc := spec_document passwd group spec image namespace_ container_id cdi in
  inputs_ok spec image namespace_ container_id cdi -> strlen (render doc) < 2 ^ 63 ->
  (forall n, realloc n = true) ->
  read_spec (strim_oci_build_spec realloc passwd group (Some spec) (Some image) namespace_ (Some container_id)
               cdi true) = Some doc.
Proof.
  intros doc Hin Hsize Hm. destruct (build_spec_text realloc passwd group _ _ _ _ _ Hin Hsize Hm) as (b & -> & Hd).
  cbn [read_spec]. rewrite Hd. unfold strlen. rewrite Nat2Z.id, take_app_length. apply read_json_render.
  apply oci_document_ok; [done|]. by eapply process_user_ok.
Qed.

(** The inputs for which spec.h and the builder agree: the working directory
    is left to the image, and the environment is given by the caller or by
    the image, so that the default environment is not needed. *)
Definition plain_inputs (spec : strim_spec) (image : strim_oci_image_config) : Prop :=
  pr_cwd (sp_process spec) = None /\ (pr_env (sp_process spec) <> [] \/ ic_env image <> []).

(** C9: with memory, and for a spec that leaves the working directory to the
    image and has an environment of its own or the image's,
    [strim_oci_build_spec] returns a text that reads back as the spec's
    document: the resolved user, args, merged environment, capabilities,
    mounts in order (default, spec, CDI), masked paths, cgroup path, device
    rules and nodes, namespaces and hooks; the text is NUL-terminated, its
    length excludes the NUL, and it lies inside its buffer. *)
Theorem spec_reads_as_document (realloc : Z -> bool) (passwd group : option bytes) (spec : strim_spec)
    (image : strim_oci_image_config) (namespace_ : option cstring) (container_id : cstring)
    (cdi : option strim_oci_cdi_edits) :
  let doc := oci_document (process_user passwd group image cdi) spec image namespace_ container_id cdi in
  inputs_ok spec image namespace_ container_id cdi -> plain_inputs spec image ->
  strlen (render doc) < 2 ^ 63 -> (forall n, realloc n = true) ->
  exists b n,
    strim_oci_build_spec realloc passwd group (Some spec) (Some image) namespace_ (Some container_id) cdi true =
      Some (b, n) /\
    fits b /\ jb_data b = take (Z.to_nat n) (jb_data b) ++ [0] /\
    read_json (take (Z.to_nat n) (jb_data b)) = Some doc.
Proof.
  intros doc Hin _ Hsize Hm.
  destruct (build_spec_text realloc passwd group _ _ _ _ _ Hin Hsize Hm) as (b & E & Hd).
  pose proof (build_spec_reads realloc passwd group _ _ _ _ _ Hin Hsize Hm) as Hr. rewrite E in Hr.
  eexists _, _. split; [exact E|]. split; [by eapply build_spec_within|]. split; [|exact Hr].
  rewrite Hd. unfold strlen. by rewrite Nat2Z.id, take_app_length.
Qed.

(** ** Which devices a spec opens *)

Record device_rule := Rule {
  dr_allow : bool;
  dr_type : option bytes;
  dr_major : option Z;
  dr_minor : option Z;
}.

Definition get_text (j : jval) (k : string) : option bytes :=
  match yyjson_obj_get j (lit k) with Some (JStr s) => Some s | _ => None end.
Definition get_int (j : jval) (k : string) : option Z :=
  match yyjson_obj_get j (lit k) with Some (JInt z) => Some z | _ => None end.

Definition read_rule (j : jval) : option device_rule :=
  match yyjson_obj_get j (lit "allow") with
  | Some (JBool a) => Some (Rule a (get_text j "type") (get_int j "major") (get_int j "minor"))
  | _ => None
  end.

Definition get_in (j : option jval) (k : string) : option jval :=
  match j with Some v => yyjson_obj_get v (lit k) | None => None end.

(** The device rules of a spec: linux.resources.devices. *)
Definition read_rules (doc : option jval) : option (list device_rule) :=
  match get_in (get_in (get_in doc "linux") "resources") "devices" with
  | Some (JArr l) => mapM read_rule l
  | _ => None
  end.

(** An absent field of a rule matches every device. *)
Definition field_matches {A} `{EqDecision A} (f : option A) (v : A) : bool :=
  match f with None => true | Some x => bool_decide (x = v) end.

Definition rule_matches (type : cstring) (major minor : Z) (r : device_rule) : bool :=
  field_matches (dr_type r) type && field_matches (dr_major r) major && field_matches (dr_minor r) minor.

(** The last rule that matches decides. *)
Definition device_open (rules : list device_rule) (type : cstring) (major minor : Z) : bool :=
  match find_first (rule_matches type major minor) (reverse rules) with
  | Some r => dr_allow r
  | None => false
  end.

Definition allow_rule (d : strim_oci_cdi_device) : device_rule :=
  Rule true (Some (lit "c")) (Some (cd_major d)) (Some (cd_minor d)).

Lemma read_rules_document (ru : resolved_user) (spec : strim_spec) (image : strim_oci_image_config)
    (namespace_ : option cstring) (container_id : cstring) (cdi : option strim_oci_cdi_edits) :
  read_rules (Some (oci_document ru spec image namespace_ container_id cdi)) =
    Some (Rule false None None None :: map allow_rule (filter char_device (cdi_devices cdi))).
Proof.
  unfold read_rules. change (get_in _ "devices") with (Some (rules_doc cdi)). cbn [rules_doc].
  set (l := filter char_device _). cbn [mapM]. change (read_rule deny_all) with (Some (Rule false None None None)).
  cbn [mbind option_bind]. assert (mapM read_rule (map allow_doc l) = Some (map allow_rule l)) as ->; [|done].
  induction l as [|d l IH]; [done|]. cbn [map mapM]. change (read_rule (allow_doc d)) with (Some (allow_rule d)).
  cbn [mbind option_bind]. by rewrite IH.
Qed.

Lemma find_first_app {A} (f : A -> bool) (l k : list A) :
  find_first f (l ++ k) = match find_first f l with Some x => Some x | None => find_first f k end.
Proof. induction l as [|x l IH]; [done|]. cbn. by destruct (f x). Qed.

Lemma deny_then_allow (ds : list strim_oci_cdi_device) (type : cstring) (major minor : Z) :
  device_open (Rule false None None None :: map allow_rule ds) type major minor = true <->
  type = lit "c" /\ exists d, d ∈ ds /\ cd_major d = major /\ cd_minor d = minor.
Proof.
  unfold device_open. rewrite reverse_cons, find_first_app.
  destruct (find_first _ (reverse (map allow_rule ds))) as [r|] eqn:E.
  - apply find_first_Some in E as (Hin & Hm). rewrite elem_of_reverse in Hin.
    apply list_elem_of_fmap in Hin as (d & -> & Hd). cbn [dr_allow allow_rule]. split; [intros _|done].
    unfold rule_matches in Hm. cbn [allow_rule dr_type dr_major dr_minor field_matches] in Hm.
    rewrite !andb_true_iff, !bool_decide_eq_true in Hm. destruct Hm as ((<- & <-) & <-). eauto.
  - split; [done|]. intros (-> & d & Hd & <- & <-). exfalso.
    pose proof (proj1 (find_first_None _ _) E) as Hn. rewrite Forall_forall in Hn.
    specialize (Hn (allow_rule d)). rewrite elem_of_reverse in Hn.
    specialize (Hn (list_elem_of_fmap_2 allow_rule ds d Hd)). unfold rule_matches in Hn. cbn in Hn.
    by rewrite !bool_decide_true in Hn by done.
Qed.

(** a container can open exactly the character devices its CDI edits name
    with their numbers: the deny-all rule comes first and the last matching
    rule decides, so every other device stays closed and no allow is
    vetoed. *)
Theorem spec_opens_cdi_devices_only (realloc : Z -> bool) (passwd group : option bytes) (spec : strim_spec)
    (image : strim_oci_image_config) (namespace_ : option cstring) (container_id : cstring)
    (cdi : option strim_oci_cdi_edits) :
  inputs_ok spec image namespace_ container_id cdi ->
  strlen (render (spec_document passwd group spec image namespace_ container_id cdi)) < 2 ^ 63 ->
  (forall n, realloc n = true) ->
  exists rules,
    read_rules (read_spec (strim_oci_build_spec realloc passwd group (Some spec) (Some image) namespace_
                             (Some container_id) cdi true)) = Some rules /\
    forall type major minor,
      device_open rules type major minor = true <->
      type = lit "c" /\ exists d, d ∈ cdi_devices cdi /\ char_device d = true /\
                                  cd_major d = major /\ cd_minor d = minor.
Proof.
  intros Hin Hsize Hm. rewrite (build_spec_reads realloc passwd group _ _ _ _ _ Hin Hsize Hm).
  eexists. split; [apply read_rules_document|]. intros type major minor. rewrite deny_then_allow.
  apply and_iff_compat_l, exist_proper. intros d. rewrite list_elem_of_filter.
  rewrite Is_true_true. tauto.
Qed.

(** ** A concrete container

    An ffmpeg stage with one GPU: the theorems at work, and what a builder
    that runs out of memory half way hands out. *)

Definition gpu_spec : strim_spec :=
  StrimSpec (Process (map lit ["/transcode.sh"; "normalize"]%string) [] None [lit "CAP_SYS_NICE"])
    [Mount (lit "/tmp") (lit "/tmp") true] true None [].

Definition gpu_image : strim_oci_image_config :=
  ImageConfig (map lit ["PATH=/bin"; "NVIDIA_VISIBLE_DEVICES=all"]%string) [lit "/entrypoint"] [] None
    (Some (lit "1000:video")).

Definition gpu_edits : strim_oci_cdi_edits :=
  CdiEdits (map lit ["NVIDIA_VISIBLE_DEVICES=void"; "NVIDIA=1"]%string)
    [CdiMount (lit "/usr/lib/libcuda.so") (lit "/usr/lib/libcuda.so") (map lit ["ro"; "bind"]%string)]
    [ CdiDevice (lit "/dev/nvidia0") None 195 0 0 0 0;
      CdiDevice (lit "/dev/nvme0") (Some (lit "b")) 259 0 0 0 0 ]
    [CdiHook (lit "/usr/bin/nvidia-cdi-hook") [lit "create-symlinks"] [] 0] [44].

Definition etc_group : option bytes := Some (lit "video:x:44:" ++ [10] ++ lit "render:x:109:1000,bob" ++ [10]).

Lemma gpu_inputs_ok : inputs_ok gpu_spec gpu_image (Some (lit "strim")) (lit "norm") (Some gpu_edits).
Proof.
  constructor; unfold mount_ok, hook_ok, cdi_mount_ok, device_ok, id_ok, texts_ok, text_ok; by_decide.
Qed.

Lemma gpu_inputs_plain : plain_inputs gpu_spec gpu_image.
Proof. split; [done|]. by right. Qed.

Lemma spec_reads_as_document_witness :
  exists b n,
    strim_oci_build_spec (fun _ => true) None etc_group (Some gpu_spec) (Some gpu_image) (Some (lit "strim"))
      (Some (lit "norm")) (Some gpu_edits) true = Some (b, n) /\
    fits b /\ jb_data b = take (Z.to_nat n) (jb_data b) ++ [0] /\
    read_json (take (Z.to_nat n) (jb_data b)) =
      Some (oci_document (ResolvedUser 1000 44 [44; 109; 44]) gpu_spec gpu_image (Some (lit "strim")) (lit "norm")
              (Some gpu_edits)).
Proof.
  exact (spec_reads_as_document (fun _ => true) None etc_group gpu_spec gpu_image (Some (lit "strim"))
           (lit "norm") (Some gpu_edits) gpu_inputs_ok gpu_inputs_plain eq_refl (fun _ => eq_refl)).
Defined.

Lemma spec_opens_cdi_devices_only_witness :
  exists rules,
    read_rules (read_spec (strim_oci_build_spec (fun _ => true) None None (Some gpu_spec) (Some gpu_image)
      (Some (lit "strim")) (Some (lit "norm")) (Some gpu_edits) true)) = Some rules /\
    forall type major minor,
      device_open rules type major minor = true <->
      type = lit "c" /\ exists d, d ∈ cdi_devices (Some gpu_edits) /\ char_device d = true /\
                                  cd_major d = major /\ cd_minor d = minor.
Proof.
  exact (spec_opens_cdi_devices_only (fun _ => true) None None gpu_spec gpu_image (Some (lit "strim"))
           (lit "norm") (Some gpu_edits) gpu_inputs_ok eq_refl (fun _ => eq_refl)).
Defined.

(** When the buffer cannot grow past 1024 bytes the builder still reports
    success, and the text it hands out is not JSON. *)
Example short_memory_is_not_reported :
  let r := strim_oci_build_spec (fun n => n <=? 1024) None None (Some gpu_spec) (Some gpu_image)
             (Some (lit "strim")) (Some (lit "norm")) (Some gpu_edits) true in
  is_Some r /\ read_spec r = None.
Proof. vm_compute. split; [by eexists|done]. Qed.
