(* ===== verification/Cdi.v ===== *)
(** * Container devices (containerd/cdi.c)

    CDI spec files are parsed into an index, a device reference is resolved
    into the edits of its spec and its own, and the merged edits are handed to
    the spec builder.

    yyjson is a library: [yyjson_read] is a parameter, from a text to a JSON
    value, and so are the directories and files ([readdir], [read_file],
    [stat_ok]) and whether an allocation of a given size succeeds ([malloc]).
    A failure that the C code answers with -1 after releasing what it built is
    [Refused]; a write outside an array is [Undefined]. *)

From S2P Require Import Prelude Wire Controller Http Double Config EnvFile Json MiniPb Spec Oci.

Definition CDI_MAX_SPECS : nat := 64.
Definition CDI_MAX_DEVICES : nat := 256.
Definition STRIM_CDI_VENDOR_MAX : Z := 128.
Definition STRIM_CDI_CLASS_MAX : Z := 128.
Definition STRIM_CDI_ID_MAX : Z := 128.
Definition STRIM_CDI_MAX_DEVICES : nat := 32.
Definition STRIM_CDI_ERR_BADARG : Z := -1.
Definition STRIM_CDI_ERR_NODIR : Z := -2.
Definition STRIM_CDI_ERR_PARSE : Z := -3.
Definition STRIM_CDI_ERR_NOTFOUND : Z := -4.
Definition STRIM_CDI_ERR_NOMEM : Z := -5.
Definition STRIM_CDI_DIR_ETC : cstring := lit "/etc/cdi".
Definition STRIM_CDI_DIR_VAR_RUN : cstring := lit "/var/run/cdi".

(** ** Data *)

Record cdi_mount := CMount {
  mt_host_path : cstring;
  mt_container_path : cstring;
  mt_options : list cstring;
}.

Record cdi_device_node := CNode {
  dn_path : cstring;
  dn_type : option cstring;
  dn_major : Z;
  dn_minor : Z;
  dn_file_mode : Z;
  dn_uid : Z;
  dn_gid : Z;
}.

Record cdi_hook := CHook {
  cdh_path : cstring;
  cdh_args : list cstring;
  cdh_env : list cstring;
  cdh_timeout : Z;
}.

Record cdi_edits := Edits {
  e_env : list cstring;
  e_mounts : list cdi_mount;
  e_devices : list cdi_device_node;
  e_hooks : list cdi_hook;
  e_gids : list Z;
}.

(** A zeroed or freed edit set. *)
Definition no_edits : cdi_edits := Edits [] [] [] [] [].

Record cdi_device := CDevice { dv_name : cstring; dv_edits : cdi_edits }.

Record cdi_spec_entry := SpecEntry {
  se_kind : cstring;
  se_edits : cdi_edits;
  se_devices : list cdi_device;
}.

Record strim_cdi_ref := CdiRef { rf_vendor : cstring; rf_class : cstring; rf_id : cstring }.

(** The module's static variables; [g_specs] is [None] while it is NULL. *)
Record cdi_state := CdiState {
  g_specs : option (list cdi_spec_entry);
  g_scanned : bool;
  g_pending : cdi_edits;
  g_pending_valid : bool;
}.

Definition cdi_init : cdi_state := CdiState None false no_edits false.

(** Continue unless the step failed or went outside an array. *)
Definition bound_bind {A B} (m : bound A) (f : A -> bound B) : bound B :=
  match m with
  | Bound a => f a
  | Refused e => Refused e
  | Undefined => Undefined
  end.
Notation "'try' x ':=' m 'in' k" := (bound_bind m (fun x => k))
  (at level 200, x name, m at level 100, k at level 200).

Definition fail {A} : bound A := Refused [].

(** A [None] answer is the failure. *)
Definition need {A} (o : option A) : bound A := match o with Some a => Bound a | None => fail end.

(** ** yyjson accessors *)

Definition obj_get (v : jval) (k : string) : option jval := yyjson_obj_get v (lit k).

Definition arr_of (v : option jval) : option (list jval) :=
  match v with Some (JArr l) => Some l | _ => None end.

Definition is_obj (v : jval) : bool := match v with JObj _ => true | _ => false end.

(** The value cast to a signed integer of [w] bits. *)
Definition to_signed (w z : Z) : Z := let u := wrap w z in if u <? 2 ^ (w - 1) then u else u - 2 ^ w.

(** [yyjson_get_int], whose result is an [int], where the value is an integer;
    0 otherwise, as the field was zeroed. *)
Definition int_field (v : option jval) : Z := match v with Some (JInt z) => to_signed 32 z | _ => 0 end.

(** [(uint32_t)yyjson_get_uint] where the value is an unsigned integer. *)
Definition uint_field (v : option jval) : Z :=
  match v with Some (JInt z) => if 0 <=? z then u32 z else 0 | _ => 0 end.

Section Parse.
Variable malloc : Z -> bool.

Definition dup_val_str (v : option jval) : option cstring :=
  match v with
  | Some (JStr s) => if malloc (strlen s + 1) then Some (c_string s) else None
  | _ => None
  end.

Fixpoint dup_all (l : list jval) : option (list cstring) :=
  match l with
  | [] => Some []
  | v :: l' =>
      match dup_val_str (Some v), dup_all l' with Some s, Some ss => Some (s :: ss) | _, _ => None end
  end.

(** An array of strings into a [calloc]ed array; none when it is no array. *)
Definition str_array (v : option jval) : option (list cstring) :=
  match arr_of v with
  | None => Some []
  | Some l => if malloc (8 * Z.of_nat (length l)) then dup_all l else None
  end.

Definition parse_hook_object (h : jval) : option cdi_hook :=
  match dup_val_str (obj_get h "path") with
  | None => None
  | Some path =>
      match str_array (obj_get h "args"), str_array (obj_get h "env") with
      | Some args, Some env => Some (CHook path args env (int_field (obj_get h "timeout")))
      | _, _ => None
      end
  end.

(** *** The fields of an edit set *)

(** [env] and the other arrays are left NULL when they are empty. *)
Definition parse_env (obj : jval) : option (list cstring) :=
  match arr_of (obj_get obj "env") with
  | None | Some [] => Some []
  | Some l => if malloc (8 * Z.of_nat (length l)) then dup_all l else None
  end.

Definition parse_mount (m : jval) : option cdi_mount :=
  if negb (is_obj m) then None
  else match dup_val_str (obj_get m "hostPath"), dup_val_str (obj_get m "containerPath") with
       | Some host, Some ctr =>
           match str_array (obj_get m "options") with
           | Some opts => Some (CMount host ctr opts)
           | None => None
           end
       | _, _ => None
       end.

Definition parse_device (d : jval) : option cdi_device_node :=
  if negb (is_obj d) then None
  else match dup_val_str (obj_get d "path") with
       | None => None
       | Some path =>
           Some (CNode path (dup_val_str (obj_get d "type")) (int_field (obj_get d "major"))
                   (int_field (obj_get d "minor")) (uint_field (obj_get d "fileMode"))
                   (uint_field (obj_get d "uid")) (uint_field (obj_get d "gid")))
       end.

Fixpoint parse_each {A} (f : jval -> option A) (l : list jval) : option (list A) :=
  match l with
  | [] => Some []
  | v :: l' => match f v with
               | None => None
               | Some a => match parse_each f l' with Some r => Some (a :: r) | None => None end
               end
  end.

(** An array of objects of [size] bytes each. *)
Definition parse_objects {A} (size : Z) (f : jval -> option A) (v : option jval) : option (list A) :=
  match arr_of v with
  | None | Some [] => Some []
  | Some l => if malloc (size * Z.of_nat (length l)) then parse_each f l else None
  end.

Definition names_create (h : jval) : bool :=
  match obj_get h "hookName" with
  | Some (JStr s) => streq (c_string s) (lit "createContainer")
  | _ => false
  end.

(** Pass 1: the hooks the array yields; [None] at an item that is no
    object. *)
Fixpoint count_hooks (l : list jval) : option nat :=
  match l with
  | [] => Some O
  | h :: l' =>
      if negb (is_obj h) then None
      else match count_hooks l' with
           | None => None
           | Some n =>
               Some (if names_create h then S n
                     else match arr_of (obj_get h "createContainer") with
                          | Some cc => (length cc + n)%nat
                          | None => n
                          end)
           end
  end.

(** A hook goes into slot [length acc] of an array of [room] slots. *)
Definition put_hook (room : nat) (h : jval) (acc : list cdi_hook) : bound (list cdi_hook) :=
  if (length acc <? room)%nat
  then match parse_hook_object h with Some k => Bound (acc ++ [k]) | None => fail end
  else Undefined.

Fixpoint put_legacy (room : nat) (cc : list jval) (acc : list cdi_hook) : bound (list cdi_hook) :=
  match cc with
  | [] => Bound acc
  | one :: cc' =>
      if negb (is_obj one) then fail
      else try acc' := put_hook room one acc in put_legacy room cc' acc'
  end.

(** Pass 2. *)
Fixpoint put_hooks (room : nat) (l : list jval) (acc : list cdi_hook) : bound (list cdi_hook) :=
  match l with
  | [] => Bound acc
  | h :: l' =>
      try acc' := (if names_create h then put_hook room h acc
                   else match arr_of (obj_get h "createContainer") with
                        | Some cc => put_legacy room cc acc
                        | None => Bound acc
                        end) in
      put_hooks room l' acc'
  end.

Definition parse_hooks (v : option jval) : bound (list cdi_hook) :=
  match arr_of v with
  | None | Some [] => Bound []
  | Some l =>
      match count_hooks l with
      | None => fail
      | Some O => Bound []
      | Some n => if malloc (48 * Z.of_nat n) then put_hooks n l [] else fail
      end
  end.

Definition parse_gids (v : option jval) : option (list Z) :=
  match arr_of v with
  | None | Some [] => Some []
  | Some l => if malloc (4 * Z.of_nat (length l)) then Some (map (fun g => uint_field (Some g)) l) else None
  end.

Definition parse_edits (obj : jval) : bound cdi_edits :=
  try env := need (parse_env obj) in
  try mounts := need (parse_objects 32 parse_mount (obj_get obj "mounts")) in
  try devices := need (parse_objects 48 parse_device (obj_get obj "deviceNodes")) in
  try hooks := parse_hooks (obj_get obj "hooks") in
  try gids := need (parse_gids (obj_get obj "additionalGIDs")) in
  Bound (Edits env mounts devices hooks gids).

(** [if (yyjson_is_obj(v) && parse_edits(v, ...) < 0) goto done;] *)
Definition parse_edits_if (v : option jval) : bound cdi_edits :=
  match v with
  | Some (JObj ms) => parse_edits (JObj ms)
  | _ => Bound no_edits
  end.

(** ** Spec files *)

Definition parse_cdi_device (d : jval) : bound cdi_device :=
  if negb (is_obj d) then fail
  else try name := need (dup_val_str (obj_get d "name")) in
       try edits := parse_edits_if (obj_get d "containerEdits") in
       Bound (CDevice name edits).

Fixpoint parse_cdi_devices (l : list jval) : bound (list cdi_device) :=
  match l with
  | [] => Bound []
  | d :: l' => try dev := parse_cdi_device d in
               try rest := parse_cdi_devices l' in
               Bound (dev :: rest)
  end.

Variable yyjson_read : bytes -> option jval.

(** [None]: the file cannot be opened, measured or read. *)
Definition parse_spec_file (file : option bytes) : bound cdi_spec_entry :=
  try text := need file in
  if 2 ^ 20 <? strlen text then fail
  else if negb (malloc (strlen text + 1)) then fail
  else
    try root := need (yyjson_read text) in
    if negb (is_obj root) then fail
    else
      try kind := need (dup_val_str (obj_get root "kind")) in
      try edits := parse_edits_if (obj_get root "containerEdits") in
      match arr_of (obj_get root "devices") with
      | None => Bound (SpecEntry kind edits [])
      | Some l =>
          if (CDI_MAX_DEVICES <? length l)%nat then fail
          else if negb (malloc (88 * Z.max 1 (Z.of_nat (length l)))) then fail
          else try devices := parse_cdi_devices l in Bound (SpecEntry kind edits devices)
      end.

Variable readdir : cstring -> option (list cstring).
Variable read_file : cstring -> option bytes.
Variable stat_ok : cstring -> bool.

Definition is_json (name : cstring) : bool :=
  (6 <=? length name)%nat && streq (drop (length name - 5) name) (lit ".json").

Definition PATH_BUF : Z := 1024.

(** The directory's entries in order, into the index. *)
Fixpoint scan_entries (dir : cstring) (names : list cstring) (specs : list cdi_spec_entry)
  : bound (list cdi_spec_entry) :=
  match names with
  | [] => Bound specs
  | nm :: names' =>
      if negb (is_json nm) then scan_entries dir names' specs
      else
        try entry := parse_spec_file (read_file (snprintf_str PATH_BUF (dir ++ lit "/" ++ nm))) in
        if (CDI_MAX_SPECS <=? length specs)%nat then fail
        else scan_entries dir names' (specs ++ [entry])
  end.

Definition scan_dir (dir : cstring) (specs : list cdi_spec_entry) : bound (list cdi_spec_entry) :=
  match readdir dir with
  | None => Bound specs
  | Some names => scan_entries dir names specs
  end.

Fixpoint scan_all (dirs : list cstring) (specs : list cdi_spec_entry) : bound (list cdi_spec_entry) :=
  match dirs with
  | [] => Bound specs
  | d :: dirs' => try specs' := scan_dir d specs in scan_all dirs' specs'
  end.

Definition index_free_all (st : cdi_state) : cdi_state :=
  CdiState None false (g_pending st) (g_pending_valid st).

Definition scan_dirs (dirs : list cstring) (st : cdi_state) : bound (Z * cdi_state) :=
  let st := index_free_all st in
  let st := CdiState (g_specs st) (g_scanned st) no_edits false in
  if negb (malloc (Z.of_nat CDI_MAX_SPECS * 104)) then Bound (STRIM_CDI_ERR_NOMEM, st)
  else match scan_all dirs [] with
       | Undefined => Undefined
       | Refused _ => Bound (STRIM_CDI_ERR_PARSE, index_free_all st)
       | Bound specs =>
           if negb (existsb stat_ok dirs) then Bound (STRIM_CDI_ERR_NODIR, index_free_all st)
           else Bound (0, CdiState (Some specs) true (g_pending st) (g_pending_valid st))
       end.

Definition strim_cdi_scan (st : cdi_state) : bound (Z * cdi_state) :=
  scan_dirs [STRIM_CDI_DIR_ETC; STRIM_CDI_DIR_VAR_RUN] st.

Definition strim_cdi_test_scan_dir (dir : option cstring) (st : cdi_state) : bound (Z * cdi_state) :=
  match dir with
  | None | Some [] => Bound (STRIM_CDI_ERR_BADARG, st)
  | Some d => scan_dirs [d] st
  end.

(** ** Pending edits *)

Definition strdup (s : cstring) : option cstring := if malloc (strlen s + 1) then Some s else None.

Fixpoint copy_each {A B} (f : A -> option B) (l : list A) : option (list B) :=
  match l with
  | [] => Some []
  | x :: l' => match f x, copy_each f l' with Some y, Some r => Some (y :: r) | _, _ => None end
  end.

(** A copy of a string array, NULL when it is empty. *)
Definition copy_strings (l : list cstring) : option (list cstring) :=
  match l with
  | [] => Some []
  | _ => if malloc (8 * Z.of_nat (length l)) then copy_each strdup l else None
  end.

Definition copy_mount (m : cdi_mount) : option cdi_mount :=
  match strdup (mt_host_path m), strdup (mt_container_path m) with
  | Some h, Some c => match copy_strings (mt_options m) with Some o => Some (CMount h c o) | None => None end
  | _, _ => None
  end.

(** A missing type becomes a character device. *)
Definition copy_device (d : cdi_device_node) : option cdi_device_node :=
  match strdup (dn_path d), strdup (default (lit "c") (dn_type d)) with
  | Some p, Some t =>
      Some (CNode p (Some t) (dn_major d) (dn_minor d) (dn_file_mode d) (dn_uid d) (dn_gid d))
  | _, _ => None
  end.

Definition copy_hook (h : cdi_hook) : option cdi_hook :=
  match strdup (cdh_path h) with
  | None => None
  | Some p =>
      match copy_strings (cdh_args h), copy_strings (cdh_env h) with
      | Some a, Some e => Some (CHook p a e (cdh_timeout h))
      | _, _ => None
      end
  end.

(** Grow an array of items of [size] bytes and copy [src] to its end. *)
Definition append_part {A} (size : Z) (copy : A -> option A) (dst src : list A) : option (list A) :=
  if (0 <? length dst + length src)%nat then
    if malloc (size * Z.of_nat (length dst + length src))
    then match copy_each copy src with Some l => Some (dst ++ l) | None => None end
    else None
  else Some dst.

(** [None]: -1; the callers then free the pending edits. *)
Definition pending_append_edits (pending src : cdi_edits) : option cdi_edits :=
  match append_part 8 strdup (e_env pending) (e_env src) with
  | None => None
  | Some env =>
  match append_part 32 copy_mount (e_mounts pending) (e_mounts src) with
  | None => None
  | Some mounts =>
  match append_part 48 copy_device (e_devices pending) (e_devices src) with
  | None => None
  | Some devices =>
  match append_part 48 copy_hook (e_hooks pending) (e_hooks src) with
  | None => None
  | Some hooks =>
  match append_part 4 Some (e_gids pending) (e_gids src) with
  | None => None
  | Some gids => Some (Edits env mounts devices hooks gids)
  end end end end end.

(** ** References *)

(** [slash] and [eq] are the first '/' and the first '='. *)
Definition strim_cdi_ref_parse (dev : option cstring) (out : bool) : Z * option strim_cdi_ref :=
  match dev, out with
  | Some dev, true =>
      match cut_at (chr "/") dev, cut_at (chr "=") dev with
      | Some (vendor, _), Some (before, id) =>
          if (length before <=? length vendor)%nat then (STRIM_CDI_ERR_BADARG, None)
          else
            let class := drop (S (length vendor)) before in
            if (strlen vendor =? 0) || (strlen class =? 0) || (strlen id =? 0) then (STRIM_CDI_ERR_BADARG, None)
            else if (STRIM_CDI_VENDOR_MAX <=? strlen vendor) || (STRIM_CDI_CLASS_MAX <=? strlen class)
                    || (STRIM_CDI_ID_MAX <=? strlen id) then (STRIM_CDI_ERR_BADARG, None)
            else (0, Some (CdiRef vendor class id))
      | _, _ => (STRIM_CDI_ERR_BADARG, None)
      end
  | _, _ => (STRIM_CDI_ERR_BADARG, None)
  end.

(** ** Resolve, merge, hand over *)

Definition drop_pending (st : cdi_state) : cdi_state :=
  CdiState (g_specs st) (g_scanned st) no_edits false.

(** Code, state and [*out_n_devices]. *)
Definition strim_cdi_resolve (ref : option strim_cdi_ref) (st : cdi_state) : Z * cdi_state * option Z :=
  match ref with
  | None => (STRIM_CDI_ERR_BADARG, st, None)
  | Some ref =>
      match g_scanned st, g_specs st with
      | true, Some specs =>
          let kind := snprintf_str (STRIM_CDI_VENDOR_MAX + STRIM_CDI_CLASS_MAX + 2)
                        (rf_vendor ref ++ lit "/" ++ rf_class ref) in
          match find_first (fun s => streq (se_kind s) kind) specs with
          | None => (STRIM_CDI_ERR_NOTFOUND, st, None)
          | Some spec =>
              let st := drop_pending st in
              match pending_append_edits no_edits (se_edits spec) with
              | None => (STRIM_CDI_ERR_NOMEM, st, None)
              | Some p =>
                  match find_first (fun d => streq (dv_name d) (rf_id ref)) (se_devices spec) with
                  | None => (STRIM_CDI_ERR_NOTFOUND, st, None)
                  | Some d =>
                      match pending_append_edits p (dv_edits d) with
                      | None => (STRIM_CDI_ERR_NOMEM, st, None)
                      | Some p' =>
                          let n := (length (e_devices p') + length (e_mounts p'))%nat in
                          (0, CdiState (g_specs st) (g_scanned st) p' true,
                           Some (Z.of_nat (Nat.min n STRIM_CDI_MAX_DEVICES)))
                      end
                  end
              end
          end
      | _, _ => (STRIM_CDI_ERR_NODIR, st, None)
      end
  end.

(** The pending variables whose key the base environment does not set. *)
Definition pending_drop_env_duplicates (base_env : list cstring) (pending : cdi_edits) : cdi_edits :=
  match base_env with
  | [] => pending
  | _ => Edits (List.filter (fun e => negb (env_has_key base_env e)) (e_env pending)) (e_mounts pending)
           (e_devices pending) (e_hooks pending) (e_gids pending)
  end.

Definition strim_cdi_merge_edits (spec : option strim_spec) (st : cdi_state) : Z * cdi_state :=
  match spec with
  | None => (STRIM_CDI_ERR_BADARG, st)
  | Some spec =>
      let p := g_pending st in
      if negb (g_pending_valid st) then (STRIM_CDI_ERR_BADARG, st)
      else if (STRIM_SPEC_MAX_ENV <? length (e_env p))%nat then (STRIM_CDI_ERR_PARSE, st)
      else if STRIM_SPEC_MAX_MOUNTS <? Z.of_nat (length (e_mounts p)) then (STRIM_CDI_ERR_PARSE, st)
      else if (STRIM_CDI_MAX_DEVICES <? length (e_devices p) + length (e_hooks p))%nat
           then (STRIM_CDI_ERR_PARSE, st)
      else (0, CdiState (g_specs st) (g_scanned st)
                 (pending_drop_env_duplicates (pr_env (sp_process spec)) p) (g_pending_valid st))
  end.

Definition oci_mount (m : cdi_mount) : strim_oci_cdi_mount :=
  CdiMount (mt_host_path m) (mt_container_path m) (mt_options m).
Definition oci_device (d : cdi_device_node) : strim_oci_cdi_device :=
  CdiDevice (dn_path d) (dn_type d) (dn_major d) (dn_minor d) (dn_file_mode d) (dn_uid d) (dn_gid d).
Definition oci_hook (h : cdi_hook) : strim_oci_cdi_hook :=
  CdiHook (cdh_path h) (cdh_args h) (cdh_env h) (cdh_timeout h).

(** The view is built in static arrays of fixed size; only the copy of the
    group ids is guarded. *)
Definition strim_cdi_get_pending_edits (out : bool) (st : cdi_state)
  : bound (Z * option strim_oci_cdi_edits) :=
  let p := g_pending st in
  if negb out then Bound (STRIM_CDI_ERR_BADARG, None)
  else if negb (g_pending_valid st) then Bound (STRIM_CDI_ERR_BADARG, None)
  else if STRIM_SPEC_MAX_MOUNTS <? Z.of_nat (length (e_mounts p)) then Undefined
  else if (STRIM_CDI_MAX_DEVICES <? length (e_devices p))%nat then Undefined
  else if (STRIM_CDI_MAX_DEVICES <? length (e_hooks p))%nat then Undefined
  else Bound (0, Some (CdiEdits (e_env p) (map oci_mount (e_mounts p)) (map oci_device (e_devices p))
                         (map oci_hook (e_hooks p)) (take 16 (e_gids p)))).

End Parse.
