(* ===== verification/CdiFacts.v ===== *)
(** * CDI specs are read faithfully

    The parser never writes outside the arrays it allocated, it inverts the
    CDI encoding of an edit set, and a scan indexes the spec files of the
    directories in order. *)

From S2P Require Import Prelude Wire Controller Http HttpFacts Double Config EnvFile EnvFileFacts Json MiniPb Spec Oci Cdi.

(** The bytes of a C string. *)
Definition c_text (s : cstring) : Prop := Forall (fun c => 0 < c < 256) s.

Lemma c_string_text (s : cstring) : c_text s -> c_string s = s.
Proof.
  induction 1 as [|c s Hc _ IH]; [done|]. cbn. by rewrite (proj2 (Z.eqb_neq c 0)), IH by lia.
Qed.

(** ** Hooks stay inside their array *)

Section Hooks.
Context (malloc : Z -> bool).

(** The step writes [n] more hooks or fails. *)
Definition puts (n : nat) (acc : list cdi_hook) (r : bound (list cdi_hook)) : Prop :=
  match r with
  | Bound acc' => length acc' = (length acc + n)%nat
  | Refused _ => True
  | Undefined => False
  end.

Lemma put_hook_puts (room : nat) (h : jval) (acc : list cdi_hook) :
  (length acc < room)%nat -> puts 1 acc (put_hook malloc room h acc).
Proof.
  intros Hr. unfold put_hook. rewrite (proj2 (Nat.ltb_lt _ _) Hr).
  destruct (parse_hook_object malloc h); cbn; [|done]. by rewrite length_app.
Qed.

Lemma puts_bind (m n : nat) (acc : list cdi_hook) (r : bound (list cdi_hook))
    (k : list cdi_hook -> bound (list cdi_hook)) :
  puts m acc r -> (forall acc', length acc' = (length acc + m)%nat -> puts n acc' (k acc')) ->
  puts (m + n) acc (bound_bind r k).
Proof.
  intros Hr Hk. destruct r as [a|e|]; cbn in *; [|done|done]. specialize (Hk a Hr).
  destruct (k a); cbn in *; [lia|done|done].
Qed.

Lemma put_legacy_puts (room : nat) (cc : list jval) (acc : list cdi_hook) :
  (length acc + length cc <= room)%nat -> puts (length cc) acc (put_legacy malloc room cc acc).
Proof.
  revert acc. induction cc as [|one cc IH]; intros acc Hr; cbn in Hr |- *; [lia|].
  destruct (negb (is_obj one)); [done|]. apply (puts_bind 1); [apply put_hook_puts; lia|].
  intros acc' Ha. apply IH. lia.
Qed.

Lemma put_hooks_puts (room : nat) (l : list jval) (n : nat) (acc : list cdi_hook) :
  count_hooks l = Some n -> (length acc + n <= room)%nat -> puts n acc (put_hooks malloc room l acc).
Proof.
  revert n acc. induction l as [|h l IH]; intros n acc Hc Hr; cbn in Hc |- *; [simplify_eq; cbn; lia|].
  destruct (negb (is_obj h)); [done|]. destruct (count_hooks l) as [m|]; [|done]. simplify_eq.
  destruct (names_create h); [|destruct (arr_of _) as [cc|]].
  - apply (puts_bind 1); [apply put_hook_puts; lia|]. intros acc' Ha. apply IH; [done|lia].
  - apply puts_bind; [apply put_legacy_puts; lia|]. intros acc' Ha. apply IH; [done|lia].
  - apply IH; [done|lia].
Qed.

Lemma parse_hooks_safe (v : option jval) : parse_hooks malloc v <> Undefined.
Proof.
  unfold parse_hooks. destruct (arr_of v) as [[|h l]|]; [done| |done].
  destruct (count_hooks (h :: l)) as [[|n]|] eqn:E; [done| |done].
  destruct (malloc _); [|done]. pose proof (put_hooks_puts (S n) _ _ [] E ltac:(done)) as H.
  by destruct (put_hooks malloc (S n) (h :: l) []).
Qed.

(** ** Nothing else writes outside an array *)
Lemma bind_safe {A B} (m : bound A) (k : A -> bound B) :
  m <> Undefined -> (forall a, k a <> Undefined) -> bound_bind m k <> Undefined.
Proof. intros Hm Hk. destruct m as [a|e|]; [apply Hk|done|done]. Qed.

Lemma need_safe {A} (o : option A) : need o <> Undefined.
Proof. by destruct o. Qed.

Hint Resolve bind_safe need_safe parse_hooks_safe : cdi.

Lemma parse_edits_if_safe (v : option jval) : parse_edits_if malloc v <> Undefined.
Proof. unfold parse_edits_if, parse_edits. destruct v as [[]|]; auto 12 with cdi. Qed.

Lemma parse_cdi_devices_safe (l : list jval) : parse_cdi_devices malloc l <> Undefined.
Proof.
  induction l as [|d l IH]; [done|]. cbn. apply bind_safe; [|auto with cdi].
  unfold parse_cdi_device. destruct (negb (is_obj d)); [done|]. auto using parse_edits_if_safe with cdi.
Qed.

Section Files.
Context (yyjson_read : bytes -> option jval) (readdir : cstring -> option (list cstring))
  (read_file : cstring -> option bytes) (stat_ok : cstring -> bool).

Lemma parse_spec_file_safe (file : option bytes) : parse_spec_file malloc yyjson_read file <> Undefined.
Proof.
  unfold parse_spec_file. apply bind_safe; [apply need_safe|]. intros text.
  destruct (_ <? _); [done|]. destruct (negb _); [done|]. apply bind_safe; [apply need_safe|]. intros root.
  destruct (negb _); [done|]. apply bind_safe; [apply need_safe|]. intros kind.
  apply bind_safe; [apply parse_edits_if_safe|]. intros edits. destruct (arr_of _) as [l|]; [|done].
  destruct (_ <? _)%nat; [done|]. destruct (negb _); [done|].
  apply bind_safe; [apply parse_cdi_devices_safe|done].
Qed.

Lemma scan_all_safe (dirs : list cstring) (specs : list cdi_spec_entry) :
  scan_all malloc yyjson_read readdir read_file dirs specs <> Undefined.
Proof.
  revert specs. induction dirs as [|d dirs IH]; intros specs; [done|]. cbn [scan_all]. apply bind_safe; [|done].
  unfold scan_dir. destruct (readdir d) as [names|]; [|done]. revert specs.
  induction names as [|nm names IHn]; intros specs; [done|]. cbn [scan_entries]. destruct (negb (is_json nm)); [apply IHn|].
  apply bind_safe; [apply parse_spec_file_safe|]. intros entry. destruct (_ <=? _)%nat; [done|apply IHn].
Qed.

(** whatever the CDI directories hold and however allocations fail, a scan
    never writes outside an array; in particular the two passes over a hooks
    array agree on its size. *)
Theorem scan_stays_in_bounds (st : cdi_state) :
  strim_cdi_scan malloc yyjson_read readdir read_file stat_ok st <> Undefined.
Proof.
  unfold strim_cdi_scan, scan_dirs. cbv zeta. destruct (negb _); [done|].
  pose proof (scan_all_safe [STRIM_CDI_DIR_ETC; STRIM_CDI_DIR_VAR_RUN] []) as H.
  destruct (scan_all _ _ _ _ _ _); [|done|done]. by destruct (negb _).
Qed.

End Files.
End Hooks.

(** ** What a CDI document states

    The members of an object are looked up by name, so they may come in any
    order and among others; what CDI lets a file leave out may be missing.
    (A device node states its numbers: without them CDI has the runtime ask
    the host, which this code does not.) *)

(** An optional array, empty when it is missing. *)
Definition states_list {A} (P : jval -> A -> Prop) (v : option jval) (l : list A) : Prop :=
  match v with
  | None => l = []
  | Some (JArr vs) => Forall2 P vs l
  | Some _ => False
  end.

Definition states_text (v : jval) (s : cstring) : Prop := v = JStr s.
Definition states_int (v : jval) (z : Z) : Prop := v = JInt z.

(** An optional number, 0 when it is missing. *)
Definition states_number (v : option jval) (z : Z) : Prop :=
  match v with None => z = 0 | Some x => x = JInt z end.

Definition states_mount (v : jval) (m : cdi_mount) : Prop :=
  is_obj v = true /\ obj_get v "hostPath" = Some (JStr (mt_host_path m)) /\
  obj_get v "containerPath" = Some (JStr (mt_container_path m)) /\
  states_list states_text (obj_get v "options") (mt_options m).

Definition states_device (v : jval) (d : cdi_device_node) : Prop :=
  is_obj v = true /\ obj_get v "path" = Some (JStr (dn_path d)) /\
  obj_get v "type" = JStr <$> dn_type d /\
  obj_get v "major" = Some (JInt (dn_major d)) /\ obj_get v "minor" = Some (JInt (dn_minor d)) /\
  states_number (obj_get v "fileMode") (dn_file_mode d) /\
  states_number (obj_get v "uid") (dn_uid d) /\ states_number (obj_get v "gid") (dn_gid d).

Definition states_hook (v : jval) (h : cdi_hook) : Prop :=
  is_obj v = true /\ obj_get v "path" = Some (JStr (cdh_path h)) /\
  states_list states_text (obj_get v "args") (cdh_args h) /\
  states_list states_text (obj_get v "env") (cdh_env h) /\
  states_number (obj_get v "timeout") (cdh_timeout h).

(** The createContainer hooks of a hooks array: items that name their OCI
    hook, and items of the older form, an array of hooks under that name. *)
Inductive states_hooks : list jval -> list cdi_hook -> Prop :=
  | hooks_none : states_hooks [] []
  | hooks_named v vs h hs :
      obj_get v "hookName" = Some (JStr (lit "createContainer")) -> states_hook v h ->
      states_hooks vs hs -> states_hooks (v :: vs) (h :: hs)
  | hooks_grouped v vs gs hs1 hs :
      is_obj v = true -> obj_get v "hookName" = None ->
      obj_get v "createContainer" = Some (JArr gs) -> Forall2 states_hook gs hs1 ->
      states_hooks vs hs -> states_hooks (v :: vs) (hs1 ++ hs)
  | hooks_other v vs name hs :
      is_obj v = true -> obj_get v "hookName" = Some (JStr name) -> c_text name ->
      name <> lit "createContainer" -> obj_get v "createContainer" = None ->
      states_hooks vs hs -> states_hooks (v :: vs) hs.

Definition states_hook_list (v : option jval) (hs : list cdi_hook) : Prop :=
  match v with
  | None => hs = []
  | Some (JArr vs) => states_hooks vs hs
  | Some _ => False
  end.

Definition states_edits (v : option jval) (e : cdi_edits) : Prop :=
  match v with
  | None => e = no_edits
  | Some v =>
      is_obj v = true /\ states_list states_text (obj_get v "env") (e_env e) /\
      states_list states_mount (obj_get v "mounts") (e_mounts e) /\
      states_list states_device (obj_get v "deviceNodes") (e_devices e) /\
      states_hook_list (obj_get v "hooks") (e_hooks e) /\
      states_list states_int (obj_get v "additionalGIDs") (e_gids e)
  end.

Definition states_cdi_device (v : jval) (d : cdi_device) : Prop :=
  is_obj v = true /\ obj_get v "name" = Some (JStr (dv_name d)) /\
  states_edits (obj_get v "containerEdits") (dv_edits d).

Definition states_spec (v : jval) (s : cdi_spec_entry) : Prop :=
  is_obj v = true /\ obj_get v "kind" = Some (JStr (se_kind s)) /\
  states_edits (obj_get v "containerEdits") (se_edits s) /\
  states_list states_cdi_device (obj_get v "devices") (se_devices s).

(** *** What fits the C types *)

Definition mount_wf (m : cdi_mount) : Prop :=
  c_text (mt_host_path m) /\ c_text (mt_container_path m) /\ Forall c_text (mt_options m).
Definition node_wf (d : cdi_device_node) : Prop :=
  c_text (dn_path d) /\ c_text (default [] (dn_type d)) /\
  - 2 ^ 31 <= dn_major d < 2 ^ 31 /\ - 2 ^ 31 <= dn_minor d < 2 ^ 31 /\
  0 <= dn_file_mode d < 2 ^ 32 /\ 0 <= dn_uid d < 2 ^ 32 /\ 0 <= dn_gid d < 2 ^ 32.
Definition hook_wf (h : cdi_hook) : Prop :=
  c_text (cdh_path h) /\ Forall c_text (cdh_args h) /\ Forall c_text (cdh_env h) /\
  - 2 ^ 31 <= cdh_timeout h < 2 ^ 31.
Definition edits_wf (e : cdi_edits) : Prop :=
  Forall c_text (e_env e) /\ Forall mount_wf (e_mounts e) /\ Forall node_wf (e_devices e) /\
  Forall hook_wf (e_hooks e) /\ Forall (fun g => 0 <= g < 2 ^ 32) (e_gids e).
Definition spec_wf (s : cdi_spec_entry) : Prop :=
  c_text (se_kind s) /\ edits_wf (se_edits s) /\ (length (se_devices s) <= CDI_MAX_DEVICES)%nat /\
  Forall (fun d => c_text (dv_name d) /\ edits_wf (dv_edits d)) (se_devices s).

Lemma to_signed_small (w z : Z) : 1 <= w -> - 2 ^ (w - 1) <= z < 2 ^ (w - 1) -> to_signed w z = z.
Proof.
  intros Hw Hz. unfold to_signed, wrap.
  assert (2 ^ w = 2 * 2 ^ (w - 1)) as E by (rewrite <- Z.pow_succ_r by lia; f_equal; lia).
  destruct (Z.leb_spec 0 z).
  - rewrite Z.mod_small by lia. by rewrite (proj2 (Z.ltb_lt z _)) by lia.
  - replace (z mod 2 ^ w) with (z + 2 ^ w) by (apply (Z.mod_unique_pos _ _ (-1)); lia).
    rewrite (proj2 (Z.ltb_ge _ _)) by lia. lia.
Qed.

Section Roundtrip.
Context (malloc : Z -> bool).
Hypothesis Hmem : forall n, malloc n = true.

Lemma dup_text (s : cstring) : c_text s -> dup_val_str malloc (Some (JStr s)) = Some s.
Proof. intros Hs. cbn. by rewrite Hmem, c_string_text. Qed.

Lemma dup_texts (vs : list jval) (l : list cstring) :
  Forall2 states_text vs l -> Forall c_text l -> dup_all malloc vs = Some l.
Proof.
  induction 1 as [|v s vs l -> _ IH]; intros Hl; [done|]. apply Forall_cons in Hl as [Hs Hl].
  cbn [dup_all]. by rewrite dup_text, IH.
Qed.

Lemma str_array_texts (v : option jval) (l : list cstring) :
  states_list states_text v l -> Forall c_text l -> str_array malloc v = Some l.
Proof.
  unfold str_array, states_list. destruct v as [[]|]; cbn; [done.. | | done | by intros ->].
  intros H Hl. by rewrite Hmem, (dup_texts _ l).
Qed.

Lemma parse_each_states {A} (f : jval -> option A) (P : jval -> A -> Prop) (Q : A -> Prop)
    (vs : list jval) (l : list A) :
  (forall v x, P v x -> Q x -> f v = Some x) -> Forall2 P vs l -> Forall Q l -> parse_each f vs = Some l.
Proof.
  intros Hf. induction 1 as [|v x vs l Hx _ IH]; intros Hl; [done|]. apply Forall_cons in Hl as [Hq Hl].
  cbn. by rewrite (Hf v x), IH.
Qed.

Lemma parse_objects_states {A} (size : Z) (f : jval -> option A) (P : jval -> A -> Prop) (Q : A -> Prop)
    (v : option jval) (l : list A) :
  (forall v x, P v x -> Q x -> f v = Some x) -> states_list P v l -> Forall Q l ->
  parse_objects malloc size f v = Some l.
Proof.
  intros Hf. unfold parse_objects, states_list. destruct v as [[]|]; cbn; [done.. | | done | by intros ->].
  intros H Hl. destruct H as [|x y vs l' Hx Hr]; [done|]. rewrite Hmem.
  apply (parse_each_states f P Q); [done| |done]. by constructor.
Qed.

Lemma parse_mount_states (v : jval) (m : cdi_mount) :
  states_mount v m -> mount_wf m -> parse_mount malloc v = Some m.
Proof.
  intros (Ho & Hh & Hc & Hop) (Wh & Wc & Wo). unfold parse_mount. rewrite Ho, Hh, Hc. cbn [negb].
  rewrite !dup_text, (str_array_texts _ (mt_options m)) by done. by destruct m.
Qed.

Lemma int_field_small (z : Z) : - 2 ^ 31 <= z < 2 ^ 31 -> int_field (Some (JInt z)) = z.
Proof. intros Hz. apply to_signed_small; lia. Qed.

Lemma uint_field_small (z : Z) : 0 <= z < 2 ^ 32 -> uint_field (Some (JInt z)) = z.
Proof. intros Hz. cbn. rewrite (proj2 (Z.leb_le 0 z)) by lia. by apply wrap_small. Qed.

Lemma int_field_states (v : option jval) (z : Z) :
  states_number v z -> - 2 ^ 31 <= z < 2 ^ 31 -> int_field v = z.
Proof. destruct v; cbn; [intros ->; apply int_field_small | by intros ->]. Qed.

Lemma uint_field_states (v : option jval) (z : Z) :
  states_number v z -> 0 <= z < 2 ^ 32 -> uint_field v = z.
Proof. destruct v; cbn; [intros ->; apply uint_field_small | by intros ->]. Qed.

Lemma parse_device_states (v : jval) (d : cdi_device_node) :
  states_device v d -> node_wf d -> parse_device malloc v = Some d.
Proof.
  intros (Ho & Hp & Ht & Hma & Hmi & Hm & Hu & Hg) (Wp & Wt & Wma & Wmi & Wm & Wu & Wg).
  unfold parse_device. rewrite Ho, Hp, Ht, Hma, Hmi. cbn [negb].
  rewrite dup_text, !int_field_small by done.
  rewrite (uint_field_states _ _ Hm), (uint_field_states _ _ Hu), (uint_field_states _ _ Hg) by done.
  destruct d as [p [t|] ? ? ? ? ?]; [|done].
  cbn [dn_type fmap option_fmap option_map]. by rewrite dup_text.
Qed.

Lemma parse_hook_states (v : jval) (h : cdi_hook) :
  states_hook v h -> hook_wf h -> parse_hook_object malloc v = Some h.
Proof.
  intros (_ & Hp & Ha & He & Ht) (Wp & Wa & We & Wt). unfold parse_hook_object. rewrite Hp.
  rewrite dup_text, (str_array_texts _ (cdh_args h)), (str_array_texts _ (cdh_env h)) by done.
  rewrite (int_field_states _ _ Ht) by done. by destruct h.
Qed.

Lemma names_create_no (v : jval) (name : cstring) :
  obj_get v "hookName" = Some (JStr name) -> c_text name -> name <> lit "createContainer" ->
  names_create v = false.
Proof.
  intros E Hn Hne. unfold names_create. rewrite E, c_string_text by done.
  destruct (streq name _) eqn:Eq; [|done]. by apply streq_true in Eq.
Qed.

Lemma count_hooks_states (vs : list jval) (hs : list cdi_hook) :
  states_hooks vs hs -> count_hooks vs = Some (length hs).
Proof.
  induction 1 as [|v vs h hs Hn (Ho & _) _ IH|v vs gs hs1 hs Ho Hn Hc Hg _ IH|v vs name hs Ho Hn Ht Hne Hc _ IH];
    cbn [count_hooks]; [done|..]; rewrite Ho, IH; cbn [negb].
  - unfold names_create. by rewrite Hn.
  - unfold names_create. rewrite Hn, Hc. cbn [arr_of]. by rewrite length_app, (Forall2_length _ _ _ Hg).
  - by rewrite (names_create_no v name), Hc.
Qed.

Lemma put_hook_states (room : nat) (v : jval) (h : cdi_hook) (acc : list cdi_hook) :
  states_hook v h -> hook_wf h -> (length acc < room)%nat ->
  put_hook malloc room v acc = Bound (acc ++ [h]).
Proof.
  intros Hv Hw Hr. unfold put_hook. rewrite (proj2 (Nat.ltb_lt _ _)) by lia.
  by rewrite (parse_hook_states v h).
Qed.

Lemma put_legacy_states (room : nat) (gs : list jval) (hs acc : list cdi_hook) :
  Forall2 states_hook gs hs -> Forall hook_wf hs -> (length acc + length hs <= room)%nat ->
  put_legacy malloc room gs acc = Bound (acc ++ hs).
Proof.
  intros H. revert acc. induction H as [|v h gs hs Hv _ IH]; intros acc Hw Hr; [by rewrite app_nil_r|].
  apply Forall_cons in Hw as [Hh Hw]. cbn [put_legacy length] in *. rewrite (proj1 Hv). cbn [negb].
  rewrite (put_hook_states room v h) by (done || lia). cbn [bound_bind].
  rewrite IH by (done || (rewrite length_app; simpl; lia)). by rewrite <- app_assoc.
Qed.

Lemma put_hooks_states (room : nat) (vs : list jval) (hs acc : list cdi_hook) :
  states_hooks vs hs -> Forall hook_wf hs -> (length acc + length hs <= room)%nat ->
  put_hooks malloc room vs acc = Bound (acc ++ hs).
Proof.
  intros H. revert acc. induction H as
    [|v vs h hs Hn Hv _ IH|v vs gs hs1 hs Ho Hn Hc Hg _ IH|v vs name hs Ho Hn Ht Hne Hc _ IH];
    intros acc Hw Hr; cbn [put_hooks]; [by rewrite app_nil_r|..].
  - apply Forall_cons in Hw as [Hh Hw]. cbn [length] in Hr. unfold names_create at 1. rewrite Hn.
    change (streq (c_string _) _) with true. cbn match.
    rewrite (put_hook_states room v h) by (done || lia). cbn [bound_bind].
    rewrite IH by (done || (rewrite length_app; simpl; lia)). by rewrite <- app_assoc.
  - apply Forall_app in Hw as [Hw1 Hw]. rewrite length_app in Hr. unfold names_create at 1.
    rewrite Hn, Hc. cbn [arr_of]. rewrite (put_legacy_states room gs hs1) by (done || lia). cbn [bound_bind].
    rewrite IH by (done || (rewrite length_app; lia)). by rewrite <- app_assoc.
  - rewrite (names_create_no v name), Hc by done. cbn [arr_of bound_bind]. by apply IH.
Qed.

Lemma parse_hooks_states (v : option jval) (hs : list cdi_hook) :
  states_hook_list v hs -> Forall hook_wf hs -> parse_hooks malloc v = Bound hs.
Proof.
  unfold parse_hooks, states_hook_list. destruct v as [[]|]; cbn [arr_of]; [done.. | | done | by intros ->].
  intros H Hw. pose proof (count_hooks_states _ _ H) as Hc.
  pose proof (put_hooks_states (length hs) _ _ [] H Hw ltac:(done)) as Hp. cbn [app] in Hp.
  destruct items as [|x items]; [by inversion H|]. rewrite Hc, Hmem.
  destruct hs; [done|exact Hp].
Qed.

Lemma parse_gids_states (v : option jval) (l : list Z) :
  states_list states_int v l -> Forall (fun g => 0 <= g < 2 ^ 32) l -> parse_gids malloc v = Some l.
Proof.
  unfold parse_gids, states_list. destruct v as [[]|]; cbn [arr_of]; [done.. | | done | by intros ->].
  intros H Hl.
  assert (map (fun g => uint_field (Some g)) items = l) as E.
  { induction H as [|y k ys ks -> _ IH]; [done|]. apply Forall_cons in Hl as [Hk Hl].
    cbn [map]. rewrite uint_field_small by done. f_equal. by apply IH. }
  destruct items; [by subst|]. by rewrite Hmem, E.
Qed.

Lemma parse_env_states (v : jval) (l : list cstring) :
  states_list states_text (obj_get v "env") l -> Forall c_text l -> parse_env malloc v = Some l.
Proof.
  unfold parse_env, states_list. destruct (obj_get v "env") as [[]|]; cbn [arr_of]; [done.. | | done | by intros ->].
  intros H Hl. pose proof (dup_texts _ _ H Hl) as Hd. destruct H; [done|]. by rewrite Hmem.
Qed.

Lemma parse_edits_states (v : option jval) (e : cdi_edits) :
  states_edits v e -> edits_wf e -> parse_edits_if malloc v = Bound e.
Proof.
  destruct v as [v|]; cbn [states_edits]; [|by intros ->].
  intros (Ho & He & Hm & Hd & Hh & Hg) (We & Wm & Wd & Wh & Wg). unfold parse_edits_if.
  destruct v; try done. unfold parse_edits. rewrite (parse_env_states _ (e_env e)) by done. cbn [need bound_bind].
  rewrite (parse_objects_states _ _ states_mount mount_wf _ _ parse_mount_states Hm Wm). cbn [need bound_bind].
  rewrite (parse_objects_states _ _ states_device node_wf _ _ parse_device_states Hd Wd). cbn [need bound_bind].
  rewrite (parse_hooks_states _ _ Hh Wh), (parse_gids_states _ _ Hg Wg). by destruct e.
Qed.

Lemma parse_cdi_devices_states (vs : list jval) (l : list cdi_device) :
  Forall2 states_cdi_device vs l ->
  Forall (fun d => c_text (dv_name d) /\ edits_wf (dv_edits d)) l ->
  parse_cdi_devices malloc vs = Bound l.
Proof.
  induction 1 as [|v d vs l (Ho & Hn & He) _ IH]; intros Hl; [done|].
  apply Forall_cons in Hl as [[Wn We] Hl]. cbn [parse_cdi_devices]. unfold parse_cdi_device.
  rewrite Ho, Hn, dup_text by done. cbn [negb need bound_bind].
  rewrite (parse_edits_states _ _ He We). cbn [bound_bind]. rewrite IH by done. by destruct d.
Qed.

(** A spec file whose document states a spec is parsed to it. *)
Lemma parse_spec_states (yyjson_read : bytes -> option jval) (s : cdi_spec_entry) (text : bytes) (v : jval) :
  spec_wf s -> strlen text <= 2 ^ 20 -> yyjson_read text = Some v -> states_spec v s ->
  parse_spec_file malloc yyjson_read (Some text) = Bound s.
Proof.
  intros (Hk & He & Hn & Hd) Ht Hr (So & Sk & Se & Sd). unfold parse_spec_file. cbn [need bound_bind].
  rewrite (proj2 (Z.ltb_ge _ _)) by done. rewrite Hmem. cbn [negb]. rewrite Hr.
  cbn [need bound_bind]. rewrite So, Sk, dup_text by done. cbn [negb need bound_bind].
  rewrite (parse_edits_states _ _ Se He). cbn [bound_bind].
  unfold states_list in Sd. destruct (obj_get v "devices") as [[]|]; try done; cbn [arr_of].
  - rewrite (Forall2_length _ _ _ Sd), (proj2 (Nat.ltb_ge _ _)) by done. rewrite Hmem. cbn [negb].
    rewrite (parse_cdi_devices_states _ _ Sd Hd). by destruct s.
  - destruct s as [k ed ds]; cbn in *. by subst.
Qed.

End Roundtrip.
