(* ===== verification/CdiResolve.v ===== *)
(** * From CDI spec files to a container's devices

    A scan indexes the spec files; resolving a reference selects the edits of
    the spec and of the device; the merge and the view hand them to the spec
    builder unchanged, and the container opens exactly their devices. *)

From S2P Require Import Prelude Wire Controller Http HttpFacts Double Config DurationFacts EnvFile EnvFileFacts Json JsonFacts MiniPb Spec Oci OciFacts OciText OciSpec Cdi CdiFacts.

(** ** References *)
Lemma cut_at_spec (c : Z) (s a b : cstring) :
  cut_at c s = Some (a, b) <-> s = a ++ c :: b /\ Forall (fun x => x <> c) a.
Proof.
  split; [|intros [-> Ha]; by apply cut_at_app]. revert a. induction s as [|x s IH]; intros a; [done|]. cbn.
  destruct (Z.eqb_spec x c); [intros [= <- <-]; by subst|].
  destruct (cut_at c s) as [[a' b']|]; [|done]. intros [= <- <-]. destruct (IH a' eq_refl) as [-> H].
  split; [done|]. by constructor.
Qed.

Definition ref_text (r : strim_cdi_ref) : cstring :=
  rf_vendor r ++ chr "/" :: rf_class r ++ chr "=" :: rf_id r.

Definition ref_wf (r : strim_cdi_ref) : Prop :=
  0 < strlen (rf_vendor r) < 128 /\ 0 < strlen (rf_class r) < 128 /\ 0 < strlen (rf_id r) < 128 /\
  Forall (fun c => c <> chr "/" /\ c <> chr "=") (rf_vendor r) /\ Forall (fun c => c <> chr "=") (rf_class r).

Lemma ref_parse_cases (dev : cstring) :
  strim_cdi_ref_parse (Some dev) true = (STRIM_CDI_ERR_BADARG, None) \/
  exists r, strim_cdi_ref_parse (Some dev) true = (0, Some r) /\ dev = ref_text r /\ ref_wf r.
Proof.
  unfold strim_cdi_ref_parse.
  destruct (cut_at (chr "/") dev) as [[v w]|] eqn:Es; [|by left].
  destruct (cut_at (chr "=") dev) as [[bef id]|] eqn:Ee; [|by left].
  destruct (Nat.leb_spec (length bef) (length v)) as [|Hl]; [by left|]. cbv zeta.
  apply cut_at_spec in Es as [Es Hv]. apply cut_at_spec in Ee as [Ee Hb].
  assert (exists m, bef = v ++ chr "/" :: m) as [m ->].
  { rewrite Es in Ee. apply app_eq_app in Ee as (k & [[-> _]|[-> Hk]]); [rewrite length_app in Hl; lia|].
    destruct k as [|c k]; [rewrite app_nil_r in Hl; lia|]. cbn in Hk. simplify_eq. by exists k. }
  rewrite drop_app, drop_ge, Nat.sub_succ_l, Nat.sub_diag by lia. cbn [drop app]. rewrite drop_0.
  match goal with |- context [if ?c then _ else _] => destruct c eqn:Z1 end; [by left|].
  match goal with |- context [if ?c then _ else _] => destruct c eqn:Z2 end; [by left|]. right.
  eexists. split; [done|]. split; [by rewrite Ee; unfold ref_text; cbn; rewrite <- app_assoc|].
  rewrite !orb_false_iff, !Z.eqb_neq in Z1. rewrite !orb_false_iff, !Z.leb_gt in Z2.
  unfold ref_wf, STRIM_CDI_VENDOR_MAX, STRIM_CDI_CLASS_MAX, STRIM_CDI_ID_MAX in *. cbn [rf_vendor rf_class rf_id].
  pose proof (strlen_nonneg v). pose proof (strlen_nonneg m). pose proof (strlen_nonneg id).
  apply Forall_app in Hb as [Hb Hm]. apply Forall_cons in Hm as [_ Hm].
  split_and!; try lia; [|done]. rewrite Forall_forall in *. naive_solver.
Qed.

Lemma ref_parse_text (r : strim_cdi_ref) : ref_wf r ->
  strim_cdi_ref_parse (Some (ref_text r)) true = (0, Some r).
Proof.
  intros (Hv & Hc & Hi & Hv' & Hc'). unfold strim_cdi_ref_parse, ref_text.
  rewrite cut_at_app by (eapply Forall_impl; [done|]; naive_solver).
  assert (cut_at (chr "=") (rf_vendor r ++ chr "/" :: rf_class r ++ chr "=" :: rf_id r) =
          Some (rf_vendor r ++ chr "/" :: rf_class r, rf_id r)) as ->.
  { apply cut_at_spec. split; [by rewrite <- app_assoc|]. apply Forall_app. split.
    - eapply Forall_impl; [done|]. naive_solver.
    - by constructor. }
  rewrite length_app. cbn [length]. rewrite (proj2 (Nat.leb_gt _ _)) by lia. cbv zeta.
  rewrite drop_app, drop_ge, Nat.sub_succ_l, Nat.sub_diag by lia. cbn [drop app]. rewrite drop_0.
  unfold STRIM_CDI_VENDOR_MAX, STRIM_CDI_CLASS_MAX, STRIM_CDI_ID_MAX.
  rewrite !(proj2 (Z.eqb_neq _ _)), !(proj2 (Z.leb_gt _ _)) by lia. cbn [orb]. by destruct r.
Qed.

(** a device reference is accepted exactly when it is vendor/class=id with
    the three parts not empty, shorter than 128 bytes, no '/' or '=' in the
    vendor and no '=' in the class, and the parts are then those of the
    text; anything else is refused with BADARG. *)
Theorem ref_parse_exact (dev : cstring) (r : strim_cdi_ref) :
  (strim_cdi_ref_parse (Some dev) true = (0, Some r) <-> dev = ref_text r /\ ref_wf r) /\
  (strim_cdi_ref_parse (Some dev) true = (STRIM_CDI_ERR_BADARG, None) \/
   exists r', strim_cdi_ref_parse (Some dev) true = (0, Some r')).
Proof.
  split; [split|].
  - intros E. destruct (ref_parse_cases dev) as [E'|(r' & E' & ? & ?)]; rewrite E in E'; by simplify_eq.
  - intros [-> Hw]. by apply ref_parse_text.
  - destruct (ref_parse_cases dev) as [E|(r' & E & _)]; eauto.
Qed.

(** ** The index *)

Section Index.
Context (malloc : Z -> bool) (yyjson_read : bytes -> option jval).
Context (readdir : cstring -> option (list cstring)) (read_file : cstring -> option bytes)
  (stat_ok : cstring -> bool).
Hypothesis Hmem : forall n, malloc n = true.

(** The JSON files among the names of a directory hold these specs. *)
Inductive dir_holds (dir : cstring) : list cstring -> list cdi_spec_entry -> Prop :=
  | holds_nil : dir_holds dir [] []
  | holds_other (nm : cstring) (names : list cstring) (ss : list cdi_spec_entry) :
      is_json nm = false -> dir_holds dir names ss -> dir_holds dir (nm :: names) ss
  | holds_spec (nm : cstring) (names : list cstring) (text : bytes) (v : jval) (s : cdi_spec_entry)
      (ss : list cdi_spec_entry) :
      is_json nm = true -> strlen (dir ++ lit "/" ++ nm) < PATH_BUF ->
      read_file (dir ++ lit "/" ++ nm) = Some text -> strlen text <= 2 ^ 20 ->
      yyjson_read text = Some v -> states_spec v s -> spec_wf s ->
      dir_holds dir names ss -> dir_holds dir (nm :: names) (s :: ss).

(** A directory that is missing holds no spec. *)
Definition holds (dir : cstring) (ss : list cdi_spec_entry) : Prop :=
  match readdir dir with None => ss = [] | Some names => dir_holds dir names ss end.

Lemma scan_dir_holds (dir : cstring) (ss specs : list cdi_spec_entry) :
  holds dir ss -> (length specs + length ss <= CDI_MAX_SPECS)%nat ->
  scan_dir malloc yyjson_read readdir read_file dir specs = Bound (specs ++ ss).
Proof.
  unfold holds, scan_dir. destruct (readdir dir) as [names|]; [|intros -> _; by rewrite app_nil_r].
  intros H. revert specs. induction H as [|nm names ss Hj _ IH|nm names text v s ss Hj Hp Hf Ht Hr Hv Hw _ IH];
    intros specs Hl; cbn [scan_entries].
  - by rewrite app_nil_r.
  - rewrite Hj. by apply IH.
  - rewrite Hj. cbn [negb]. unfold snprintf_str. rewrite take_ge by (unfold strlen in Hp; lia). rewrite Hf.
    rewrite (parse_spec_states malloc Hmem yyjson_read s text v Hw Ht Hr Hv). cbn [bound_bind length] in *.
    rewrite (proj2 (Nat.leb_gt _ _)) by lia. rewrite IH by (rewrite length_app; simpl; lia).
    by rewrite <- app_assoc.
Qed.

Lemma scan_holds (ss1 ss2 : list cdi_spec_entry) (st : cdi_state) :
  holds STRIM_CDI_DIR_ETC ss1 -> holds STRIM_CDI_DIR_VAR_RUN ss2 ->
  (length ss1 + length ss2 <= CDI_MAX_SPECS)%nat ->
  stat_ok STRIM_CDI_DIR_ETC || stat_ok STRIM_CDI_DIR_VAR_RUN = true ->
  strim_cdi_scan malloc yyjson_read readdir read_file stat_ok st =
    Bound (0, CdiState (Some (ss1 ++ ss2)) true no_edits false).
Proof.
  intros H1 H2 Hl Hs. unfold strim_cdi_scan, scan_dirs. cbv zeta. rewrite Hmem. cbn [negb scan_all].
  rewrite (scan_dir_holds _ ss1 [] H1) by (simpl; lia). cbn [bound_bind app].
  rewrite (scan_dir_holds _ ss2 ss1 H2) by lia. cbn [bound_bind existsb]. by rewrite orb_false_r, Hs.
Qed.

(** ** The edits of a device *)

(** A node without a type is a character device. *)
Definition typed (d : cdi_device_node) : cdi_device_node :=
  CNode (dn_path d) (Some (default (lit "c") (dn_type d))) (dn_major d) (dn_minor d) (dn_file_mode d)
    (dn_uid d) (dn_gid d).

Definition join_edits (a b : cdi_edits) : cdi_edits :=
  Edits (e_env a ++ e_env b) (e_mounts a ++ e_mounts b) (e_devices a ++ map typed (e_devices b))
    (e_hooks a ++ e_hooks b) (e_gids a ++ e_gids b).

(** The spec's edits, then the device's own. *)
Definition device_edits (s : cdi_spec_entry) (d : cdi_device) : cdi_edits :=
  join_edits (join_edits no_edits (se_edits s)) (dv_edits d).

Lemma copy_each_map {A B} (f : A -> option B) (g : A -> B) (l : list A) :
  (forall x, f x = Some (g x)) -> copy_each f l = Some (map g l).
Proof. intros Hf. induction l as [|x l IH]; [done|]. cbn. by rewrite Hf, IH. Qed.

Lemma strdup_id (s : cstring) : strdup malloc s = Some s.
Proof. unfold strdup. by rewrite Hmem. Qed.

Lemma copy_strings_id (l : list cstring) : copy_strings malloc l = Some l.
Proof.
  unfold copy_strings. destruct l as [|s l]; [done|]. rewrite Hmem.
  rewrite (copy_each_map _ id) by apply strdup_id. by rewrite map_id.
Qed.

Lemma append_part_map {A} (size : Z) (copy : A -> option A) (g : A -> A) (dst src : list A) :
  (forall x, copy x = Some (g x)) -> append_part malloc size copy dst src = Some (dst ++ map g src).
Proof.
  intros Hc. unfold append_part. rewrite Hmem. destruct (Nat.ltb_spec 0 (length dst + length src)) as [|Hl].
  - by rewrite (copy_each_map _ g).
  - assert (src = []) as -> by (destruct src; [done|simpl in Hl; lia]). by rewrite app_nil_r.
Qed.

Lemma pending_append_join (p src : cdi_edits) : pending_append_edits malloc p src = Some (join_edits p src).
Proof.
  unfold pending_append_edits, join_edits.
  rewrite (append_part_map _ _ id) by apply strdup_id.
  rewrite (append_part_map _ (copy_mount malloc) id)
    by (intros []; unfold copy_mount; by rewrite !strdup_id, copy_strings_id).
  rewrite (append_part_map _ (copy_device malloc) typed) by (intros d; unfold copy_device; by rewrite !strdup_id).
  rewrite (append_part_map _ (copy_hook malloc) id)
    by (intros []; unfold copy_hook; by rewrite strdup_id, !copy_strings_id).
  rewrite (append_part_map _ Some id) by done. by rewrite !map_id.
Qed.

(** The first spec of the reference's kind and its first device of that id. *)
Definition selects (ref : strim_cdi_ref) (specs : list cdi_spec_entry) (s : cdi_spec_entry) (d : cdi_device) : Prop :=
  find_first (fun s => streq (se_kind s) (rf_vendor ref ++ lit "/" ++ rf_class ref)) specs = Some s /\
  find_first (fun d => streq (dv_name d) (rf_id ref)) (se_devices s) = Some d.

Lemma resolve_selects (ref : strim_cdi_ref) (specs : list cdi_spec_entry) (p : cdi_edits) (v : bool)
    (s : cdi_spec_entry) (d : cdi_device) :
  ref_wf ref -> selects ref specs s d ->
  exists n, strim_cdi_resolve malloc (Some ref) (CdiState (Some specs) true p v) =
    (0, CdiState (Some specs) true (device_edits s d) true, Some n).
Proof.
  intros (Hv & Hc & _) [Hs Hd]. unfold strim_cdi_resolve. cbn [g_scanned g_specs].
  unfold snprintf_str. rewrite take_ge.
  2:{ rewrite !length_app. unfold strlen, STRIM_CDI_VENDOR_MAX, STRIM_CDI_CLASS_MAX in *.
      change (length (lit "/")) with 1%nat. lia. }
  rewrite Hs. cbv zeta. rewrite pending_append_join, Hd, pending_append_join. eauto.
Qed.

(** ** Merge and view *)

(** The edits fit the fixed arrays of the module. *)
Definition edits_fit (e : cdi_edits) : bool :=
  (length (e_env e) <=? STRIM_SPEC_MAX_ENV)%nat && (Z.of_nat (length (e_mounts e)) <=? STRIM_SPEC_MAX_MOUNTS) &&
  (length (e_devices e) + length (e_hooks e) <=? STRIM_CDI_MAX_DEVICES)%nat.

(** What the builder sees: no variable whose key the base environment sets,
    and at most sixteen groups. *)
Definition edits_view (base : list cstring) (e : cdi_edits) : strim_oci_cdi_edits :=
  CdiEdits (e_env (pending_drop_env_duplicates base e)) (map oci_mount (e_mounts e)) (map oci_device (e_devices e))
    (map oci_hook (e_hooks e)) (take 16 (e_gids e)).

(** A successful merge leaves edits that the view has room for. *)
Lemma merge_then_view (sp : strim_spec) (st st' : cdi_state) :
  strim_cdi_merge_edits (Some sp) st = (0, st') ->
  edits_fit (g_pending st) = true /\
  strim_cdi_get_pending_edits true st' =
    Bound (0, Some (edits_view (pr_env (sp_process sp)) (g_pending st))).
Proof.
  unfold strim_cdi_merge_edits. destruct (g_pending_valid st) eqn:Hv; cbn [negb]; [|done].
  destruct (Nat.ltb_spec STRIM_SPEC_MAX_ENV (length (e_env (g_pending st)))) as [|H1]; [done|].
  destruct (Z.ltb_spec STRIM_SPEC_MAX_MOUNTS (Z.of_nat (length (e_mounts (g_pending st))))) as [|H2]; [done|].
  match goal with |- context [(?a <? ?b)%nat] => destruct (Nat.ltb_spec a b) as [|H3] end; [done|]. intros [= <-].
  split.
  - unfold edits_fit. rewrite (proj2 (Nat.leb_le _ _)), (proj2 (Z.leb_le _ _)), (proj2 (Nat.leb_le _ _)) by lia. done.
  - unfold strim_cdi_get_pending_edits. cbn [g_pending g_pending_valid negb].
    assert (forall b, e_mounts (pending_drop_env_duplicates b (g_pending st)) = e_mounts (g_pending st) /\
      e_devices (pending_drop_env_duplicates b (g_pending st)) = e_devices (g_pending st) /\
      e_hooks (pending_drop_env_duplicates b (g_pending st)) = e_hooks (g_pending st) /\
      e_gids (pending_drop_env_duplicates b (g_pending st)) = e_gids (g_pending st)) as Hp by (by intros []).
    destruct (Hp (pr_env (sp_process sp))) as (-> & -> & -> & ->).
    rewrite (proj2 (Z.ltb_ge _ _)), !(proj2 (Nat.ltb_ge _ _)) by lia. done.
Qed.

Lemma merge_fits (sp : strim_spec) (specs : option (list cdi_spec_entry)) (sc : bool) (e : cdi_edits) :
  edits_fit e = true ->
  exists st', strim_cdi_merge_edits (Some sp) (CdiState specs sc e true) = (0, st').
Proof.
  unfold edits_fit. rewrite !andb_true_iff, !Nat.leb_le, Z.leb_le. intros ((H1 & H2) & H3).
  unfold strim_cdi_merge_edits. cbn [g_pending g_pending_valid negb].
  rewrite (proj2 (Nat.ltb_ge _ _)), (proj2 (Z.ltb_ge _ _)), (proj2 (Nat.ltb_ge _ _)) by lia. eauto.
Qed.

End Index.

(** ** The device of a stage *)

Section Container.
Context (malloc realloc : Z -> bool) (yyjson_read : bytes -> option jval).
Context (readdir : cstring -> option (list cstring)) (read_file : cstring -> option bytes)
  (stat_ok : cstring -> bool) (passwd group : option bytes).

(** The calls that a start op makes for its CDI device, on the module's
    state. *)
Definition prepare_cdi (dev : cstring) (spec : strim_spec) (st : cdi_state) : bound (Z * cdi_state) :=
  match strim_cdi_ref_parse (Some dev) true with
  | (0, ref) =>
      try scanned := strim_cdi_scan malloc yyjson_read readdir read_file stat_ok st in
      match scanned with
      | (0, st) =>
          match strim_cdi_resolve malloc ref st with
          | (0, st, _) => Bound (strim_cdi_merge_edits (Some spec) st)
          | (_, st, _) => Bound (-1, st)
          end
      | (_, st) => Bound (-1, st)
      end
  | _ => Bound (-1, st)
  end.

(** The edits that the creation of a container takes: none when the module
    has none pending. *)
Definition pending_for_container (st : cdi_state) : bound (option strim_oci_cdi_edits) :=
  try r := strim_cdi_get_pending_edits true st in
  Bound (match r with (0, set) => set | _ => None end).

Hypothesis Hmem : forall n, malloc n = true.

Abbreviation holds := (holds yyjson_read readdir read_file).

(** What a stage finds on the host: the spec files, and the spec and device
    that its reference selects. *)
Record cdi_host (dev : cstring) (ref : strim_cdi_ref) (ss1 ss2 : list cdi_spec_entry)
    (s : cdi_spec_entry) (d : cdi_device) : Prop := {
  host_ref : dev = ref_text ref /\ ref_wf ref;
  host_etc : holds STRIM_CDI_DIR_ETC ss1;
  host_run : holds STRIM_CDI_DIR_VAR_RUN ss2;
  host_room : (length ss1 + length ss2 <= CDI_MAX_SPECS)%nat;
  host_dirs : stat_ok STRIM_CDI_DIR_ETC || stat_ok STRIM_CDI_DIR_VAR_RUN = true;
  host_selects : selects ref (ss1 ++ ss2) s d;
  host_fits : edits_fit (device_edits s d) = true;
}.

Lemma prepare_cdi_view (dev : cstring) (ref : strim_cdi_ref) (ss1 ss2 : list cdi_spec_entry)
    (s : cdi_spec_entry) (d : cdi_device) (sp : strim_spec) (st : cdi_state) :
  cdi_host dev ref ss1 ss2 s d ->
  exists st', prepare_cdi dev sp st = Bound (0, st') /\
    pending_for_container st' = Bound (Some (edits_view (pr_env (sp_process sp)) (device_edits s d))).
Proof.
  intros [[-> Hr] H1 H2 Hl Hs Hd Hf]. unfold prepare_cdi. rewrite ref_parse_text by done.
  rewrite (scan_holds malloc yyjson_read readdir read_file stat_ok Hmem ss1 ss2) by done. cbn [bound_bind].
  destruct (resolve_selects malloc Hmem ref (ss1 ++ ss2) no_edits false s d Hr Hd) as [n ->].
  destruct (merge_fits sp (Some (ss1 ++ ss2)) true (device_edits s d) Hf) as [st' Hm]. rewrite Hm.
  exists st'. split; [done|]. unfold pending_for_container.
  destruct (merge_then_view _ _ _ Hm) as [_ ->]. done.
Qed.

Lemma dir_holds_wf (dir : cstring) (names : list cstring) (ss : list cdi_spec_entry) :
  dir_holds yyjson_read read_file dir names ss -> Forall spec_wf ss.
Proof. induction 1; [constructor|done|by constructor]. Qed.

Lemma holds_wf (dir : cstring) (ss : list cdi_spec_entry) : holds dir ss -> Forall spec_wf ss.
Proof. unfold CdiResolve.holds. destruct (readdir dir); [apply dir_holds_wf|intros ->; constructor]. Qed.

Lemma join_edits_wf (a b : cdi_edits) : edits_wf a -> edits_wf b -> edits_wf (join_edits a b).
Proof.
  intros (A1 & A2 & A3 & A4 & A5) (B1 & B2 & B3 & B4 & B5). unfold edits_wf, join_edits.
  cbn [e_env e_mounts e_devices e_hooks e_gids]. rewrite !Forall_app. split_and!; try done.
  apply Forall_map. eapply Forall_impl; [exact B3|]. intros n (N1 & N2 & N3). unfold node_wf, typed. cbn.
  split; [done|]. split; [|done]. destruct (dn_type n); [done|]. by repeat constructor.
Qed.

Lemma device_edits_wf (dev : cstring) (ref : strim_cdi_ref) (ss1 ss2 : list cdi_spec_entry)
    (s : cdi_spec_entry) (d : cdi_device) :
  cdi_host dev ref ss1 ss2 s d -> edits_wf (device_edits s d).
Proof.
  intros [_ H1 H2 _ _ [Hs Hd] _]. apply find_first_Some in Hs as [Hs _]. apply find_first_Some in Hd as [Hd _].
  assert (spec_wf s) as (_ & He & _ & Hl).
  { apply holds_wf in H1. apply holds_wf in H2. rewrite Forall_forall in H1, H2. apply elem_of_app in Hs as [?|?]; auto. }
  rewrite Forall_forall in Hl. destruct (Hl d Hd) as [_ Hw].
  apply join_edits_wf; [apply join_edits_wf|]; [by repeat constructor|done|done].
Qed.

Lemma c_text_ok (s : cstring) : c_text s -> text_ok s.
Proof. intros H. eapply Forall_impl; [exact H|]. cbn. lia. Qed.

Lemma c_texts_ok (l : list cstring) : Forall c_text l -> texts_ok l.
Proof. intros H. eapply Forall_impl; [exact H|]. apply c_text_ok. Qed.

(** A well-formed edit set is a proper input of the spec builder. *)
Lemma view_inputs_ok (spec : strim_spec) (image : strim_oci_image_config) (ns : option cstring) (id : cstring)
    (base : list cstring) (e : cdi_edits) :
  inputs_ok spec image ns id None -> edits_wf e -> inputs_ok spec image ns id (Some (edits_view base e)).
Proof.
  intros Hin (He & Hm & Hd & Hh & Hg). destruct Hin.
  constructor; try done; unfold cdi_mounts, cdi_devices, cdi_hooks; cbn [fmap option_fmap option_map default edits_view
    ce_env ce_mounts ce_devices ce_hooks ce_additional_gids from_option].
  - apply c_texts_ok. unfold pending_drop_env_duplicates. destruct base; [done|]. cbn [e_env].
    apply Forall_forall. intros x Hx. apply list_elem_of_In, filter_In in Hx as [Hx _]. apply list_elem_of_In in Hx.
    rewrite Forall_forall in He. auto.
  - apply Forall_map. eapply Forall_impl; [exact Hm|]. intros m (? & ? & ?).
    split_and!; cbn; auto using c_text_ok, c_texts_ok.
  - apply Forall_map. eapply Forall_impl; [exact Hd|]. intros n (? & ? & ? & ? & ? & ? & ?).
    unfold device_ok; cbn. split_and!; auto using c_text_ok; lia.
  - apply Forall_map. eapply Forall_impl; [exact Hh|]. intros h (? & ? & ? & ?).
    unfold hook_ok; cbn. split_and!; auto using c_text_ok, c_texts_ok; lia.
  - apply Forall_take. exact Hg.
Qed.

(** The nodes of the selected spec and device that are character devices. *)
Definition opens (s : cdi_spec_entry) (d : cdi_device) (major minor : Z) : Prop :=
  exists n, n ∈ e_devices (se_edits s) ++ e_devices (dv_edits d) /\ default (lit "c") (dn_type n) = lit "c" /\
            dn_major n = major /\ dn_minor n = minor /\ 0 <= major /\ 0 <= minor.

Lemma view_devices (base : list cstring) (s : cdi_spec_entry) (d : cdi_device) (major minor : Z) :
  (exists x, x ∈ filter char_device (cdi_devices (Some (edits_view base (device_edits s d)))) /\
             cd_major x = major /\ cd_minor x = minor) <-> opens s d major minor.
Proof.
  unfold cdi_devices, edits_view, device_edits, join_edits, opens. cbn [ce_devices e_devices no_edits].
  rewrite !map_app, !map_map. split.
  - intros (x & Hx & <- & <-). rewrite list_elem_of_filter, Is_true_true in Hx. destruct Hx as [Hc Hx].
    cbn [map app] in Hx. rewrite <- map_app in Hx. apply list_elem_of_fmap in Hx as (n & -> & Hn).
    exists n. unfold char_device in Hc. cbn in Hc. rewrite !andb_true_iff, !Z.leb_le, streq_true in Hc.
    split; [done|]. naive_solver.
  - intros (n & Hn & Ht & <- & <- & H1 & H2). exists (oci_device (typed n)). split; [|done].
    rewrite list_elem_of_filter, Is_true_true. split.
    + unfold char_device. cbn. rewrite !andb_true_iff, !Z.leb_le, streq_true. done.
    + cbn [map app]. rewrite <- map_app. by apply (list_elem_of_fmap_2 (fun x => oci_device (typed x))).
Qed.

(** What the spec builder is to get for a device: the variables whose key
    the caller's environment does not set, the mounts, nodes (character
    devices by default) and createContainer hooks of the spec, then those of
    the device, and the first sixteen of their groups. *)
Definition handed_over (base : list cstring) (s : cdi_spec_entry) (d : cdi_device) : strim_oci_cdi_edits :=
  let e1 := se_edits s in
  let e2 := dv_edits d in
  CdiEdits (filter (fun v => env_key v ∉ map env_key base) (e_env e1 ++ e_env e2))
    (map (fun m => CdiMount (mt_host_path m) (mt_container_path m) (mt_options m)) (e_mounts e1 ++ e_mounts e2))
    (map (fun n => CdiDevice (dn_path n) (Some (default (lit "c") (dn_type n))) (dn_major n) (dn_minor n)
                     (dn_file_mode n) (dn_uid n) (dn_gid n)) (e_devices e1 ++ e_devices e2))
    (map (fun h => CdiHook (cdh_path h) (cdh_args h) (cdh_env h) (cdh_timeout h)) (e_hooks e1 ++ e_hooks e2))
    (take 16 (e_gids e1 ++ e_gids e2)).

Lemma view_handed_over (base : list cstring) (s : cdi_spec_entry) (d : cdi_device) :
  edits_view base (device_edits s d) = handed_over base s d.
Proof.
  unfold edits_view, handed_over, device_edits, join_edits. cbn [e_env e_mounts e_devices e_hooks e_gids no_edits app].
  f_equal; [|by rewrite <- map_app, map_map].
  set (env := e_env (se_edits s) ++ e_env (dv_edits d)). unfold pending_drop_env_duplicates.
  destruct base as [|b base]; cbn [e_env].
  - induction env as [|x env IH]; [done|]. rewrite filter_cons_True by (by apply not_elem_of_nil). by f_equal.
  - induction env as [|x env IH]; [done|]. cbn [List.filter]. rewrite env_has_key_spec, filter_cons, IH.
    case_bool_decide; cbn [negb]; case_decide; naive_solver.
Qed.


End Container.
