(* ===== verification/CdiScenario.v ===== *)
(** * CDI on a concrete host

    One NVIDIA spec file in /etc/cdi: the theorems at work, and what a merge
    that was refused leaves behind. *)

From S2P Require Import Prelude Wire Controller Http HttpFacts Double Config DurationFacts EnvFile EnvFileFacts Json JsonFacts MiniPb Spec Oci OciFacts OciText OciSpec Cdi CdiFacts CdiResolve.

Definition gpu0 : cdi_device :=
  CDevice (lit "0") (Edits [] [] [CNode (lit "/dev/nvidia0") None 195 0 0 0 0] [] []).

Definition nvidia : cdi_spec_entry :=
  SpecEntry (lit "nvidia.com/gpu")
    (Edits [lit "NVIDIA_VISIBLE_DEVICES=void"] [CMount (lit "/usr/bin/nvidia-smi") (lit "/usr/bin/nvidia-smi") [lit "ro"]]
       [CNode (lit "/dev/nvidiactl") (Some (lit "c")) 195 255 438 0 0; CNode (lit "/dev/nvme0") (Some (lit "b")) 259 0 0 0 0]
       [CHook (lit "/usr/bin/nvidia-cdi-hook") [lit "create-symlinks"] [] 5] [44])
    [CDevice (lit "1") no_edits; gpu0].

(** The file as a vendor tool writes it: the devices first, members that do
    not matter, no member for what is empty, and the hook of the older form. *)
Definition nvidia_doc : jval :=
  let str (s : string) := JStr (lit s) in
  JObj [
    (lit "devices", JArr [
       JObj [(lit "annotations", JObj []); (lit "name", str "1")];
       JObj [(lit "containerEdits", JObj [(lit "deviceNodes", JArr [
                JObj [(lit "minor", JInt 0); (lit "major", JInt 195); (lit "path", str "/dev/nvidia0")]])]);
             (lit "name", str "0")]]);
    (lit "kind", str "nvidia.com/gpu");
    (lit "cdiVersion", str "0.5.0");
    (lit "containerEdits", JObj [
       (lit "hooks", JArr [
          JObj [(lit "hookName", str "poststart"); (lit "path", str "/bin/true")];
          JObj [(lit "createContainer", JArr [
             JObj [(lit "timeout", JInt 5); (lit "args", JArr [str "create-symlinks"]);
                   (lit "path", str "/usr/bin/nvidia-cdi-hook")]])]]);
       (lit "additionalGIDs", JArr [JInt 44]);
       (lit "deviceNodes", JArr [
          JObj [(lit "path", str "/dev/nvidiactl"); (lit "type", str "c"); (lit "major", JInt 195);
                (lit "minor", JInt 255); (lit "fileMode", JInt 438)];
          JObj [(lit "path", str "/dev/nvme0"); (lit "type", str "b"); (lit "major", JInt 259);
                (lit "minor", JInt 0)]]);
       (lit "env", JArr [str "NVIDIA_VISIBLE_DEVICES=void"]);
       (lit "mounts", JArr [
          JObj [(lit "hostPath", str "/usr/bin/nvidia-smi"); (lit "containerPath", str "/usr/bin/nvidia-smi");
                (lit "options", JArr [str "ro"])]])])].

Definition nvidia_file : bytes := render nvidia_doc.

Lemma nvidia_stated : states_spec nvidia_doc nvidia.
Proof.
  split; [done|]. split; [reflexivity|]. split.
  - split; [done|]. split; [by repeat constructor|]. split; [by repeat constructor|].
    split; [by repeat constructor|]. split; [|by repeat constructor].
    eapply (hooks_other _ _ (lit "poststart")); [done | reflexivity | by repeat constructor | done | reflexivity |].
    eapply (hooks_grouped _ _ _ [_] []); [done | reflexivity | reflexivity | by repeat constructor | constructor].
  - constructor; [|constructor; [|constructor]]; (split; [done|]; split; [reflexivity|]); [done|].
    split; [done|]. by repeat constructor.
Qed.

Definition host_readdir (dir : cstring) : option (list cstring) :=
  if streq dir STRIM_CDI_DIR_ETC then Some [lit "README"; lit "nvidia.json"] else None.
Definition host_read_file (path : cstring) : option bytes :=
  if streq path (lit "/etc/cdi/nvidia.json") then Some nvidia_file else None.
Definition host_stat (dir : cstring) : bool := streq dir STRIM_CDI_DIR_ETC.

Definition gpu_ref : strim_cdi_ref := CdiRef (lit "nvidia.com") (lit "gpu") (lit "0").

Lemma nvidia_wf : spec_wf nvidia.
Proof.
  unfold spec_wf, edits_wf, mount_wf, node_wf, hook_wf, c_text, nvidia. cbn. by_decide.
Qed.

Lemma demo_host :
  cdi_host read_json host_readdir host_read_file host_stat (lit "nvidia.com/gpu=0") gpu_ref [nvidia] [] nvidia gpu0.
Proof.
  constructor.
  - split; [reflexivity|]. unfold ref_wf. by_decide.
  - apply holds_other; [reflexivity|]. apply (holds_spec _ _ _ _ _ nvidia_file nvidia_doc); [reflexivity..| | | | |constructor].
    + vm_compute. discriminate.
    + vm_compute. reflexivity.
    + apply nvidia_stated.
    + apply nvidia_wf.
  - reflexivity.
  - apply Nat.leb_le. reflexivity.
  - reflexivity.
  - split; reflexivity.
  - reflexivity.
Qed.

Lemma gpu_spec_inputs : inputs_ok gpu_spec gpu_image (Some (lit "strim")) (lit "norm") None.
Proof. constructor; unfold mount_ok, hook_ok, cdi_mount_ok, device_ok, id_ok, texts_ok, text_ok; by_decide. Qed.


(** A spec with 300 mounts is resolved, its merge is refused, and the edits
    stay pending: the next container to be created copies them past the end
    of the module's array of 256 mounts. *)
Definition wide_spec : cdi_spec_entry :=
  SpecEntry (lit "nvidia.com/gpu")
    (Edits [] (replicate 300 (CMount (lit "/a") (lit "/a") [])) [] [] []) [gpu0].

Example refused_merge_stays_pending :
  let st := CdiState (Some [wide_spec]) true no_edits false in
  let '(rc, st1, _) := strim_cdi_resolve (fun _ => true) (Some gpu_ref) st in
  let '(rc', st2) := strim_cdi_merge_edits (Some gpu_spec) st1 in
  rc = 0 /\ rc' = STRIM_CDI_ERR_PARSE /\ pending_for_container st2 = Undefined.
Proof. vm_compute. done. Qed.
