(* ===== verification/Huffman.v ===== *)
(** * The HPACK Huffman code (containerd/h2c.c, h2c_huff.inc)

    The decode trie, as [huff_build] lays it out in its node array, and the
    bit-by-bit decoder.  The theorem says exactly which byte strings are
    accepted: those whose bits are the codes of the output followed by at most
    seven one bits. *)

From S2P Require Import Prelude.

(** ** The code table and the trie *)

Record huff_code := HuffCode { hc_code : Z; hc_bits : Z }.

(** h2c_huff.inc: the code and its length for each symbol; 256 is EOS. *)
Definition HUFF_TABLE : list huff_code :=
  map (fun '(c, b) => HuffCode c b) [
    (8184, 13); (8388568, 23); (268435426, 28); (268435427, 28); (268435428, 28);
    (268435429, 28); (268435430, 28); (268435431, 28); (268435432, 28); (16777194, 24);
    (1073741820, 30); (268435433, 28); (268435434, 28); (1073741821, 30); (268435435, 28);
    (268435436, 28); (268435437, 28); (268435438, 28); (268435439, 28); (268435440, 28);
    (268435441, 28); (268435442, 28); (1073741822, 30); (268435443, 28); (268435444, 28);
    (268435445, 28); (268435446, 28); (268435447, 28); (268435448, 28); (268435449, 28);
    (268435450, 28); (268435451, 28); (20, 6); (1016, 10); (1017, 10); (4090, 12); (8185, 13);
    (21, 6); (248, 8); (2042, 11); (1018, 10); (1019, 10); (249, 8); (2043, 11); (250, 8);
    (22, 6); (23, 6); (24, 6); (0, 5); (1, 5); (2, 5); (25, 6); (26, 6); (27, 6); (28, 6);
    (29, 6); (30, 6); (31, 6); (92, 7); (251, 8); (32764, 15); (32, 6); (4091, 12); (1020, 10);
    (8186, 13); (33, 6); (93, 7); (94, 7); (95, 7); (96, 7); (97, 7); (98, 7); (99, 7);
    (100, 7); (101, 7); (102, 7); (103, 7); (104, 7); (105, 7); (106, 7); (107, 7); (108, 7);
    (109, 7); (110, 7); (111, 7); (112, 7); (113, 7); (114, 7); (252, 8); (115, 7); (253, 8);
    (8187, 13); (524272, 19); (8188, 13); (16380, 14); (34, 6); (32765, 15); (3, 5); (35, 6);
    (4, 5); (36, 6); (5, 5); (37, 6); (38, 6); (39, 6); (6, 5); (116, 7); (117, 7); (40, 6);
    (41, 6); (42, 6); (7, 5); (43, 6); (118, 7); (44, 6); (8, 5); (9, 5); (45, 6); (119, 7);
    (120, 7); (121, 7); (122, 7); (123, 7); (32766, 15); (2044, 11); (16381, 14); (8189, 13);
    (268435452, 28); (1048550, 20); (4194258, 22); (1048551, 20); (1048552, 20); (4194259, 22);
    (4194260, 22); (4194261, 22); (8388569, 23); (4194262, 22); (8388570, 23); (8388571, 23);
    (8388572, 23); (8388573, 23); (8388574, 23); (16777195, 24); (8388575, 23); (16777196, 24);
    (16777197, 24); (4194263, 22); (8388576, 23); (16777198, 24); (8388577, 23); (8388578, 23);
    (8388579, 23); (8388580, 23); (2097116, 21); (4194264, 22); (8388581, 23); (4194265, 22);
    (8388582, 23); (8388583, 23); (16777199, 24); (4194266, 22); (2097117, 21); (1048553, 20);
    (4194267, 22); (4194268, 22); (8388584, 23); (8388585, 23); (2097118, 21); (8388586, 23);
    (4194269, 22); (4194270, 22); (16777200, 24); (2097119, 21); (4194271, 22); (8388587, 23);
    (8388588, 23); (2097120, 21); (2097121, 21); (4194272, 22); (2097122, 21); (8388589, 23);
    (4194273, 22); (8388590, 23); (8388591, 23); (1048554, 20); (4194274, 22); (4194275, 22);
    (4194276, 22); (8388592, 23); (4194277, 22); (4194278, 22); (8388593, 23); (67108832, 26);
    (67108833, 26); (1048555, 20); (524273, 19); (4194279, 22); (8388594, 23); (4194280, 22);
    (33554412, 25); (67108834, 26); (67108835, 26); (67108836, 26); (134217694, 27);
    (134217695, 27); (67108837, 26); (16777201, 24); (33554413, 25); (524274, 19);
    (2097123, 21); (67108838, 26); (134217696, 27); (134217697, 27); (67108839, 26);
    (134217698, 27); (16777202, 24); (2097124, 21); (2097125, 21); (67108840, 26);
    (67108841, 26); (268435453, 28); (134217699, 27); (134217700, 27); (134217701, 27);
    (1048556, 20); (16777203, 24); (1048557, 20); (2097126, 21); (4194281, 22); (2097127, 21);
    (2097128, 21); (8388595, 23); (4194282, 22); (4194283, 22); (33554414, 25); (33554415, 25);
    (16777204, 24); (16777205, 24); (67108842, 26); (8388596, 23); (67108843, 26);
    (134217702, 27); (67108844, 26); (67108845, 26); (134217703, 27); (134217704, 27);
    (134217705, 27); (134217706, 27); (134217707, 27); (268435454, 28); (134217708, 27);
    (134217709, 27); (134217710, 27); (134217711, 27); (134217712, 27); (67108846, 26);
    (1073741823, 30)].

Record huff_node := HuffNode { child0 : Z; child1 : Z; sym : Z }.

Definition H2C_HUFF_NODES : Z := 1024.

Definition fresh_node : huff_node := HuffNode (-1) (-1) (-1).
#[export] Instance huff_node_inhabited : Inhabited huff_node := populate fresh_node.

Definition child (bit : bool) (n : huff_node) : Z := if bit then child1 n else child0 n.

Definition set_child (bit : bool) (next : Z) (n : huff_node) : huff_node :=
  if bit then HuffNode (child0 n) next (sym n) else HuffNode next (child1 n) (sym n).

Definition set_sym (i : Z) (n : huff_node) : huff_node := HuffNode (child0 n) (child1 n) i.

(** Bit [b] of [x]: [(x >> b) & 1]. *)
Definition bit_at (x : Z) (b : nat) : bool := Z.land (Z.shiftr x (Z.of_nat b)) 1 =? 1.

(** The inner loop: walk down the [b] remaining bits, adding nodes; [None]
    when the node array is full. *)
Fixpoint huff_insert (b : nat) (code : Z) (node : nat) (nodes : list huff_node)
  : option (nat * list huff_node) :=
  match b with
  | O => Some (node, nodes)
  | S b' =>
      let bit := bit_at code b' in
      let next := child bit (nodes !!! node) in
      if next <? 0 then
        if H2C_HUFF_NODES <=? Z.of_nat (length nodes) then None
        else let next := length nodes in
             huff_insert b' code next
               (alter (set_child bit (Z.of_nat next)) node (nodes ++ [fresh_node]))
      else huff_insert b' code (Z.to_nat next) nodes
  end.

Fixpoint huff_build_loop (i : Z) (table : list huff_code) (nodes : list huff_node)
  : option (list huff_node) :=
  match table with
  | [] => Some nodes
  | h :: table' =>
      match huff_insert (Z.to_nat (hc_bits h)) (hc_code h) 0 nodes with
      | None => None
      | Some (node, nodes') => huff_build_loop (i + 1) table' (alter (set_sym i) node nodes')
      end
  end.

(** [None] is [g_huff_built == 2]. *)
Definition huff_build : option (list huff_node) := huff_build_loop 0 HUFF_TABLE [fresh_node].

(** The array the first call leaves behind. *)
Definition g_huff_nodes : option (list huff_node) := Eval vm_compute in huff_build.

(** ** The decoder *)

Record huff_state := HuffState {
  hs_node : nat;
  hs_pad_ones : bool;
  hs_depth : Z;
  hs_out : bytes;
}.

(** One bit of the input; [None] is a COMPRESSION_ERROR. *)
Definition huff_bit (nodes : list huff_node) (out_cap : Z) (st : huff_state) (bit : bool)
  : option huff_state :=
  let next := child bit (nodes !!! hs_node st) in
  if next <? 0 then None
  else
    let pad_ones := if bit then hs_pad_ones st else false in
    let depth := hs_depth st + 1 in
    let node := Z.to_nat next in
    let s := sym (nodes !!! node) in
    if 0 <=? s then
      if s =? 256 then None
      else if out_cap <=? Z.of_nat (length (hs_out st)) then None
      else Some (HuffState 0 true 0 (hs_out st ++ [u8 s]))
    else Some (HuffState node pad_ones depth (hs_out st)).

Fixpoint huff_bits (nodes : list huff_node) (out_cap : Z) (bs : list bool) (st : huff_state)
  : option huff_state :=
  match bs with
  | [] => Some st
  | bit :: bs' =>
      match huff_bit nodes out_cap st bit with
      | None => None
      | Some st' => huff_bits nodes out_cap bs' st'
      end
  end.

(** The bits of a byte, for b = 7 down to 0. *)
Definition byte_bits (b : Z) : list bool := map (bit_at b) [7; 6; 5; 4; 3; 2; 1; 0]%nat.

Definition all_bits (input : bytes) : list bool := concat (map byte_bits input).

Definition huff_decode (input : bytes) (out_cap : Z) : option bytes :=
  match g_huff_nodes with
  | None => None
  | Some nodes =>
      match huff_bits nodes out_cap (all_bits input) (HuffState 0 true 0 []) with
      | None => None
      | Some st =>
          if negb (Nat.eqb (hs_node st) 0) && (negb (hs_pad_ones st) || (7 <? hs_depth st))
          then None else Some (hs_out st)
      end
  end.

(** ** The code of a symbol *)

Definition code_of (i : Z) : huff_code := nth (Z.to_nat i) HUFF_TABLE (HuffCode 0 0).

(** The most significant bit first. *)
Definition code_bits (i : Z) : list bool :=
  map (bit_at (hc_code (code_of i))) (rev (seq 0 (Z.to_nat (hc_bits (code_of i))))).

Definition encode_bits (s : bytes) : list bool := concat (map code_bits s).

(** ** The trie, checked once by evaluation

    [paths] gives for every node the bits that lead to it from the root. *)

Definition nodes : list huff_node := default [] g_huff_nodes.

Definition add_paths (ps : list (list bool)) (n : nat) : list (list bool) :=
  let extend bit ps :=
    let c := child bit (nodes !!! n) in
    if c <? 0 then ps else <[Z.to_nat c := (ps !!! n) ++ [bit]]> ps in
  extend true (extend false ps).

Definition paths : list (list bool) := Eval vm_compute in
  fold_left add_paths (seq 0 (length nodes)) (replicate (length nodes) []).

(** A child lies inside the array and one bit further down. *)
Definition child_ok (n : nat) (bit : bool) : bool :=
  let c := child bit (nodes !!! n) in
  (c <? 0) || ((0 <? c) && (c <? Z.of_nat (length nodes)) &&
               bool_decide (paths !!! Z.to_nat c = (paths !!! n) ++ [bit])).

(** A leaf is reached by its symbol's code. *)
Definition leaf_ok (n : nat) : bool :=
  let s := sym (nodes !!! n) in
  (s <? 0) || ((s <=? 256) && bool_decide (paths !!! n = code_bits s)).

(** Walk down through inner nodes only. *)
Fixpoint descend (n : nat) (bs : list bool) : option nat :=
  match bs with
  | [] => Some n
  | bit :: bs' =>
      let c := child bit (nodes !!! n) in
      if (c <? 0) || (0 <=? sym (nodes !!! Z.to_nat c)) then None else descend (Z.to_nat c) bs'
  end.

Definition symbol_ok (i : Z) : bool :=
  match rev (code_bits i) with
  | [] => false
  | bit :: r =>
      match descend 0 (rev r) with
      | None => false
      | Some m =>
          let c := child bit (nodes !!! m) in (0 <=? c) && (sym (nodes !!! Z.to_nat c) =? i)
      end
  end.

Lemma huff_build_runs : huff_build = Some nodes.
Proof. by vm_compute. Qed.

Lemma trie_children : forallb (fun n => child_ok n false && child_ok n true) (seq 0 (length nodes)) = true.
Proof. by vm_compute. Qed.

Lemma trie_leaves : forallb leaf_ok (seq 0 (length nodes)) = true.
Proof. by vm_compute. Qed.

Lemma trie_symbols : forallb (fun i => symbol_ok (Z.of_nat i)) (seq 0 256) = true.
Proof. by vm_compute. Qed.

Lemma trie_padding :
  forallb (fun k => match descend 0 (replicate k true) with Some _ => true | None => false end)
    (seq 0 8) = true.
Proof. by vm_compute. Qed.

Lemma trie_root : sym (nodes !!! 0%nat) = -1 /\ paths !!! 0%nat = [] /\ (0 < length nodes)%nat.
Proof. split_and!; [by vm_compute..|]. vm_compute. lia. Qed.

Lemma node_child (n : nat) (bit : bool) :
  (n < length nodes)%nat -> 0 <= child bit (nodes !!! n) ->
  let m := Z.to_nat (child bit (nodes !!! n)) in
  (0 < m < length nodes)%nat /\ paths !!! m = (paths !!! n) ++ [bit].
Proof.
  intros Hn Hc. pose proof trie_children as H. rewrite forallb_forall in H.
  specialize (H n (proj2 (in_seq _ _ _) (conj (Nat.le_0_l n) Hn))). bool_props.
  assert (Hk : child_ok n bit = true) by (by destruct bit). unfold child_ok in Hk.
  rewrite (proj2 (Z.ltb_ge _ _) Hc) in Hk. cbn [orb] in Hk. bool_props.
  apply bool_decide_eq_true in H2. cbv zeta. split; [lia | done].
Qed.

Lemma node_leaf (n : nat) :
  (n < length nodes)%nat -> 0 <= sym (nodes !!! n) ->
  sym (nodes !!! n) <= 256 /\ paths !!! n = code_bits (sym (nodes !!! n)).
Proof.
  intros Hn Hs. pose proof trie_leaves as H. rewrite forallb_forall in H.
  specialize (H n (proj2 (in_seq _ _ _) (conj (Nat.le_0_l n) Hn))). unfold leaf_ok in H.
  rewrite (proj2 (Z.ltb_ge _ _) Hs) in H. cbn [orb] in H. bool_props.
  apply bool_decide_eq_true in H0. split; [lia | done].
Qed.

#[global] Opaque nodes paths.

(** ** Soundness: what the bits read so far mean *)

Record reading (out_cap : Z) (bs : list bool) (st : huff_state) : Prop := Reading {
  rd_node : (hs_node st < length nodes)%nat;
  rd_inner : sym (nodes !!! hs_node st) < 0;
  rd_bits : bs = encode_bits (hs_out st) ++ paths !!! hs_node st;
  rd_pad : hs_pad_ones st = forallb id (paths !!! hs_node st);
  rd_depth : hs_depth st = Z.of_nat (length (paths !!! hs_node st));
  rd_cap : Z.of_nat (length (hs_out st)) <= Z.max 0 out_cap;
  rd_bytes : bytes_ok (hs_out st);
}.

Lemma encode_bits_app (a b : bytes) : encode_bits (a ++ b) = encode_bits a ++ encode_bits b.
Proof. unfold encode_bits. by rewrite map_app, concat_app. Qed.

Lemma huff_bit_reading (out_cap : Z) (bs : list bool) (st st' : huff_state) (bit : bool) :
  reading out_cap bs st -> huff_bit nodes out_cap st bit = Some st' ->
  reading out_cap (bs ++ [bit]) st'.
Proof.
  intros [Hn Hi Hb Hp Hd Hc Ho]. unfold huff_bit.
  destruct (child bit _ <? 0) eqn:Ec; [done|]. bool_props.
  destruct (node_child (hs_node st) bit Hn Ec) as [Hm Hpath]. cbv zeta.
  set (m := Z.to_nat (child bit (nodes !!! hs_node st))) in *.
  assert (Hbits : bs ++ [bit] = encode_bits (hs_out st) ++ paths !!! m)
    by (rewrite Hpath, Hb; by rewrite app_assoc).
  destruct (0 <=? sym (nodes !!! m)) eqn:Es; bool_props.
  - destruct (node_leaf m ltac:(lia) Es) as [Hle Hcode].
    destruct (_ =? 256) eqn:E256; [done|]. destruct (out_cap <=? _) eqn:Ecap; [done|].
    intros [= <-]. bool_props. destruct trie_root as (Hr0 & Hr1 & Hr2).
    assert (Hsym : u8 (sym (nodes !!! m)) = sym (nodes !!! m)) by (apply wrap_small; lia).
    split; cbn [hs_node hs_out hs_pad_ones hs_depth]; rewrite ?Hr0, ?Hr1; try done.
    + rewrite Hbits, encode_bits_app, Hcode, Hsym, app_nil_r. f_equal.
      unfold encode_bits. simpl. by rewrite app_nil_r.
    + rewrite length_app. simpl. lia.
    + apply bytes_ok_app. split; [done|]. constructor; [|constructor].
      unfold byte_ok. apply (wrap_range 8). lia.
  - intros [= <-]. split; cbn [hs_node hs_out hs_pad_ones hs_depth]; try done; try lia.
    + rewrite Hpath, forallb_app, <- Hp. simpl. destruct bit; simpl; by rewrite ?andb_true_r, ?andb_false_r.
    + rewrite Hpath, length_app, Hd. simpl. lia.
Qed.

Lemma huff_bits_reading (out_cap : Z) (bs bs0 : list bool) (st st' : huff_state) :
  reading out_cap bs0 st -> huff_bits nodes out_cap bs st = Some st' ->
  reading out_cap (bs0 ++ bs) st'.
Proof.
  revert bs0 st. induction bs as [|bit bs IH]; intros bs0 st Hr; simpl.
  - intros [= <-]. by rewrite app_nil_r.
  - destruct (huff_bit _ _ _ _) as [st1|] eqn:E; [|done]. intros H.
    change (bit :: bs) with ([bit] ++ bs). rewrite app_assoc.
    eapply IH; [|done]. by eapply huff_bit_reading.
Qed.

(** ** Completeness: codes and padding are accepted *)
Lemma huff_bits_app (out_cap : Z) (a b : list bool) (st : huff_state) :
  huff_bits nodes out_cap (a ++ b) st =
  match huff_bits nodes out_cap a st with
  | Some st' => huff_bits nodes out_cap b st'
  | None => None
  end.
Proof.
  revert st. induction a as [|x a IH]; intros st; simpl; [done|].
  destruct (huff_bit _ _ _ _); [apply IH | done].
Qed.

Lemma huff_bits_descend (out_cap : Z) (bs : list bool) (st : huff_state) (m : nat) :
  descend (hs_node st) bs = Some m ->
  huff_bits nodes out_cap bs st =
    Some (HuffState m (hs_pad_ones st && forallb id bs) (hs_depth st + Z.of_nat (length bs))
            (hs_out st)).
Proof.
  revert st. induction bs as [|bit bs IH]; intros [n p d o]; simpl.
  - intros [= ->]. by rewrite andb_true_r, Z.add_0_r.
  - destruct (_ || _) eqn:E; [done|]. apply orb_false_iff in E as [H0 H1]. bool_props. intros H.
    unfold huff_bit. cbn [hs_node hs_out hs_pad_ones hs_depth].
    rewrite (proj2 (Z.ltb_ge _ _) H0), (proj2 (Z.leb_gt _ _) H1), IH by done. f_equal.
    cbn [hs_node hs_out hs_pad_ones hs_depth]. f_equal; [|lia].
    destruct bit; simpl; [done|]. by rewrite andb_false_r.
Qed.

Lemma huff_bits_symbol (out_cap i : Z) (out : bytes) :
  byte_ok i -> Z.of_nat (length out) < out_cap ->
  huff_bits nodes out_cap (code_bits i) (HuffState 0 true 0 out) =
    Some (HuffState 0 true 0 (out ++ [i])).
Proof.
  intros Hi Hcap. pose proof (all_bytes symbol_ok trie_symbols i Hi) as Hs.
  unfold symbol_ok in Hs. destruct (rev (code_bits i)) as [|bit r] eqn:Er; [done|].
  destruct (descend 0 (rev r)) as [m|] eqn:Ed; [|done]. bool_props.
  rewrite <- (rev_involutive (code_bits i)), Er. simpl. rewrite huff_bits_app.
  rewrite (huff_bits_descend _ _ _ m) by done. cbn [huff_bits hs_node hs_out hs_pad_ones hs_depth].
  unfold huff_bit. cbn [hs_node hs_out hs_pad_ones hs_depth].
  destruct Hi as [Hi0 Hi1].
  rewrite (proj2 (Z.ltb_ge _ _) H), H0, (proj2 (Z.leb_le 0 i) Hi0).
  rewrite (proj2 (Z.eqb_neq i 256)) by lia. rewrite (proj2 (Z.leb_gt out_cap _)) by lia.
  rewrite wrap_small by lia. done.
Qed.

Lemma huff_bits_encode (out_cap : Z) (s out : bytes) :
  bytes_ok s -> Z.of_nat (length out + length s) <= out_cap ->
  huff_bits nodes out_cap (encode_bits s) (HuffState 0 true 0 out) =
    Some (HuffState 0 true 0 (out ++ s)).
Proof.
  intros Hs. revert out. induction Hs as [|i s Hi Hs IH]; intros out Hcap.
  - by rewrite app_nil_r.
  - cbn [encode_bits map concat] in *. simpl in Hcap. unfold encode_bits. cbn [map concat].
    rewrite huff_bits_app, huff_bits_symbol by (done || lia).
    fold (encode_bits s). rewrite IH by (rewrite length_app; simpl; lia).
    by rewrite <- app_assoc.
Qed.

(** Which bits encode [s]: its codes, then a prefix of EOS below a byte. *)
Definition huff_encodes (bs : list bool) (s : bytes) : Prop :=
  exists k, (k <= 7)%nat /\ bs = encode_bits s ++ replicate k true.

Lemma forallb_id_replicate (bs : list bool) : forallb id bs = true -> bs = replicate (length bs) true.
Proof. induction bs as [|[] bs IH]; simpl; intros H; [done | by rewrite <- IH | done]. Qed.

Lemma huff_decode_iff (input s : bytes) (out_cap : Z) :
  0 <= out_cap ->
  huff_decode input out_cap = Some s <->
  huff_encodes (all_bits input) s /\ bytes_ok s /\ Z.of_nat (length s) <= out_cap.
Proof.
  intros Hcap. unfold huff_decode. change g_huff_nodes with (Some nodes). cbv iota beta.
  destruct trie_root as (Hr0 & Hr1 & Hr2). split.
  - destruct (huff_bits _ _ _ _) as [st|] eqn:E; [|done].
    apply (huff_bits_reading out_cap _ []) in E; [|split; simpl; rewrite ?Hr1; try done; lia || constructor].
    destruct E as [Hn Hi Hb Hp Hd Hc Ho]. simpl in Hb.
    destruct (_ && _) eqn:Ep; [done|]. intros [= <-]. split_and!; [|done|lia].
    exists (length (paths !!! hs_node st)).
    destruct (Nat.eqb_spec (hs_node st) 0) as [H0|H0]; simpl in Ep.
    + rewrite Hb, H0, Hr1. split; [simpl; lia | done].
    + bool_props. rewrite Hp in *. split; [lia|]. rewrite Hb. f_equal. by apply forallb_id_replicate.
  - intros ((k & Hk & Hb) & Hs & Hlen). rewrite Hb, huff_bits_app, huff_bits_encode by (done || simpl; lia).
    pose proof trie_padding as Hpad. rewrite forallb_forall in Hpad.
    assert (Hin : In k (seq 0 8)) by (apply in_seq; lia). specialize (Hpad k Hin).
    destruct (descend 0 (replicate k true)) as [m|] eqn:Ed; [|done].
    rewrite (huff_bits_descend _ _ _ m) by done. cbn [hs_node hs_out hs_pad_ones hs_depth].
    assert (Hones : forallb id (replicate k true) = true) by (clear; by induction k).
    rewrite Hones, length_replicate, Z.add_0_l. cbn [andb negb orb].
    rewrite (proj2 (Z.ltb_ge 7 (Z.of_nat k))) by lia. by rewrite andb_false_r.
Qed.

(** the Huffman decoder.  An input is decoded to [s] exactly when its bits
    are the table's codes of the symbols of [s] followed by at most seven one
    bits, and [s] fits the output buffer; everything else (a code that does
    not exist, EOS inside the string, padding with a zero or of a byte or
    more, a full buffer) is refused.  Hence decoding is unambiguous, and the
    trie fits its 1024 nodes. *)
Theorem huffman_decodes_exactly (input s : bytes) (out_cap : Z) :
  0 <= out_cap ->
  (huff_decode input out_cap = Some s <->
   huff_encodes (all_bits input) s /\ bytes_ok s /\ Z.of_nat (length s) <= out_cap) /\
  huff_build = g_huff_nodes.
Proof. intros Hcap. split; [by apply huff_decode_iff | exact huff_build_runs]. Qed.

Lemma huffman_decodes_exactly_witness :
  huff_encodes (all_bits [0xa8; 0xeb; 0x10; 0x64; 0x9c; 0xbf]) (lit "no-cache").
Proof.
  pose proof (huffman_decodes_exactly [0xa8; 0xeb; 0x10; 0x64; 0x9c; 0xbf] (lit "no-cache") 49
                ltac:(lia)) as [H _].
  apply H. by vm_compute.
Defined.
