(* ===== verification/Hpack.v ===== *)
(** * HPACK (containerd/h2c.c)

    Integers, strings, the static and the dynamic table, the header-block
    decoder and the request encoder.

    A read takes the bytes from [in + off] on and returns those it has not
    consumed; a write into [out] with [cap] bytes left returns the bytes it
    wrote, none standing for the return value 0.  Whether [malloc] can provide
    a block of a given size is the parameter [malloc].  The dynamic table's
    entries are listed in array order, oldest first; [count] is the length of
    the list. *)

From S2P Require Import Prelude Huffman.

(** ** Integers *)

Fixpoint read_int_loop (rest : bytes) (value shift : Z) : option (Z * bytes) :=
  match rest with
  | [] => None
  | b :: rest' =>
      let value := value + Z.shiftl (Z.land b 0x7f) shift in
      if Z.land b 0x80 =? 0 then
        if 0x7fffffff <? value then None else Some (value, rest')
      else if 28 <? shift + 7 then None
      else read_int_loop rest' value (shift + 7)
  end.

Definition hpack_read_int (input : bytes) (prefix : Z) : option (Z * bytes) :=
  let mask := Z.shiftl 1 prefix - 1 in
  match input with
  | [] => None
  | b :: rest =>
      let value := Z.land b mask in
      if value <? mask then Some (value, rest) else read_int_loop rest value 0
  end.

(** The bytes after the prefix; five groups of seven bits cover 32 bits. *)
Fixpoint write_int_loop (fuel : nat) (cap value : Z) : option bytes :=
  match fuel with
  | O => None
  | S fuel' =>
      if cap <=? 0 then None
      else if 0x80 <=? value then
        (fun bs => u8 (Z.lor (Z.land value 0x7f) 0x80) :: bs)
          <$> write_int_loop fuel' (cap - 1) (Z.shiftr value 7)
      else Some [u8 value]
  end.

Definition hpack_write_int_ex (cap value prefix pattern : Z) : bytes :=
  let mask := Z.shiftl 1 prefix - 1 in
  if value <? mask then
    if cap <=? 0 then [] else [u8 (Z.lor pattern value)]
  else if cap <=? 0 then []
  else match write_int_loop 5 (cap - 1) (value - mask) with
       | None => []
       | Some bs => u8 (Z.lor pattern mask) :: bs
       end.

Definition hpack_write_int (cap value prefix : Z) : bytes := hpack_write_int_ex cap value prefix 0.

(** ** The static table *)

Definition HPACK_STATIC : list (cstring * cstring) :=
  map (fun '(n, v) => (lit n, lit v)) [
    (":authority", EmptyString); (":method", "GET"); (":method", "POST"); (":path", "/");
    (":path", "/index.html"); (":scheme", "http"); (":scheme", "https"); (":status", "200");
    (":status", "204"); (":status", "206"); (":status", "304"); (":status", "400");
    (":status", "404"); (":status", "500"); ("accept-charset", EmptyString);
    ("accept-encoding", "gzip, deflate"); ("accept-language", EmptyString);
    ("accept-ranges", EmptyString); ("accept", EmptyString);
    ("access-control-allow-origin", EmptyString); ("age", EmptyString); ("allow", EmptyString);
    ("authorization", EmptyString); ("cache-control", EmptyString);
    ("content-disposition", EmptyString); ("content-encoding", EmptyString);
    ("content-language", EmptyString); ("content-length", EmptyString);
    ("content-location", EmptyString); ("content-range", EmptyString);
    ("content-type", EmptyString); ("cookie", EmptyString); ("date", EmptyString);
    ("etag", EmptyString); ("expect", EmptyString); ("expires", EmptyString);
    ("from", EmptyString); ("host", EmptyString); ("if-match", EmptyString);
    ("if-modified-since", EmptyString); ("if-none-match", EmptyString);
    ("if-range", EmptyString); ("if-unmodified-since", EmptyString);
    ("last-modified", EmptyString); ("link", EmptyString); ("location", EmptyString);
    ("max-forwards", EmptyString); ("proxy-authenticate", EmptyString);
    ("proxy-authorization", EmptyString); ("range", EmptyString); ("referer", EmptyString);
    ("refresh", EmptyString); ("retry-after", EmptyString); ("server", EmptyString);
    ("set-cookie", EmptyString); ("strict-transport-security", EmptyString);
    ("transfer-encoding", EmptyString); ("user-agent", EmptyString); ("vary", EmptyString);
    ("via", EmptyString); ("www-authenticate", EmptyString)]%string.

(** The 1-based position of the first match, 0 when there is none. *)
Fixpoint position {A} (f : A -> bool) (i : Z) (l : list A) : Z :=
  match l with
  | [] => 0
  | x :: l' => if f x then i else position f (i + 1) l'
  end.

(** [len == name_len && memcmp(...) == 0] *)
Definition mem_eq (a b : bytes) : bool := bool_decide (a = b).

Definition static_find_pair (name value : bytes) : Z :=
  position (fun e => mem_eq e.1 name && mem_eq e.2 value) 1 HPACK_STATIC.

Definition static_find_name (name : bytes) : Z :=
  position (fun e => mem_eq e.1 name) 1 HPACK_STATIC.

(** ** The dynamic table *)

Record hpack_dyn_entry := DynEntry { de_name : bytes; de_value : bytes; de_size : Z }.

Record hpack_dyn := Dyn { dy_entries : list hpack_dyn_entry; dy_size : Z; dy_max_size : Z }.

Definition H2C_DYN_MAX_ENTRIES : Z := 128.

Definition dy_count (d : hpack_dyn) : Z := Z.of_nat (length (dy_entries d)).

Definition dyn_reset : hpack_dyn := Dyn [] 0 4096.

Definition dyn_get (d : hpack_dyn) (index : Z) : option hpack_dyn_entry :=
  if (index =? 0) || (dy_count d <? index) then None
  else dy_entries d !! Z.to_nat (dy_count d - index).

Definition dyn_evict_one (d : hpack_dyn) : hpack_dyn :=
  match dy_entries d with
  | [] => d
  | e :: es => Dyn es (dy_size d - de_size e) (dy_max_size d)
  end.

(** [while (cond && count > 0) evict]: at most [count] rounds. *)
Fixpoint evict_while (fuel : nat) (cond : hpack_dyn -> bool) (d : hpack_dyn) : hpack_dyn :=
  match fuel with
  | O => d
  | S fuel' => if cond d then evict_while fuel' cond (dyn_evict_one d) else d
  end.

Definition dyn_set_max (d : hpack_dyn) (max_size : Z) : hpack_dyn :=
  let d := Dyn (dy_entries d) (dy_size d) max_size in
  evict_while (length (dy_entries d)) (fun d => dy_max_size d <? dy_size d) d.

Definition no_room (entry_size : Z) (d : hpack_dyn) : bool :=
  (dy_max_size d <? dy_size d + entry_size) || (H2C_DYN_MAX_ENTRIES <=? dy_count d).

Section Hpack.
Variable malloc : Z -> bool.

Definition alloc_len (n : Z) : bool := malloc (if n =? 0 then 1 else n).

Definition dyn_add (d : hpack_dyn) (name value : bytes) : hpack_dyn :=
  let entry_size := strlen name + strlen value + 32 in
  if dy_max_size d <? entry_size then d
  else
    let d := evict_while (length (dy_entries d)) (no_room entry_size) d in
    if no_room entry_size d then d
    else if negb (alloc_len (strlen name)) || negb (alloc_len (strlen value)) then d
    else Dyn (dy_entries d ++ [DynEntry name value entry_size]) (dy_size d + entry_size)
             (dy_max_size d).

(** For i = 1 .. count, [dyn_get] walks from the newest entry. *)
Definition dyn_find_pair (d : hpack_dyn) (name value : bytes) : Z :=
  position (fun e => mem_eq (de_name e) name && mem_eq (de_value e) value) 1 (rev (dy_entries d)).

Definition dyn_find_name (d : hpack_dyn) (name : bytes) : Z :=
  position (fun e => mem_eq (de_name e) name) 1 (rev (dy_entries d)).

(** ** Strings *)

Definition hpack_read_string (input : bytes) : option (bytes * bytes) :=
  match input with
  | [] => None
  | b :: _ =>
      let huffman := negb (Z.land b 0x80 =? 0) in
      match hpack_read_int input 7 with
      | None => None
      | Some (str_len, rest) =>
          if Z.of_nat (length rest) <? str_len then None
          else
            let s := take (Z.to_nat str_len) rest in
            let rest' := drop (Z.to_nat str_len) rest in
            if huffman then
              if negb (malloc (str_len * 8 + 1)) then None
              else match huff_decode s (str_len * 8 + 1) with
                   | None => None
                   | Some out => Some (out, rest')
                   end
            else if negb (alloc_len str_len) then None
            else Some (s, rest')
      end
  end.

Definition hpack_write_string (cap : Z) (s : bytes) : bytes :=
  let n := hpack_write_int cap (u32 (strlen s)) 7 in
  if (strlen n =? 0) || (cap <? strlen n + strlen s) then [] else n ++ s.

(** ** The block decoder *)

(** [None] for a name or value is a pointer left NULL by a failed [strdup]. *)
Record hpack_field := Field {
  f_name : option bytes;
  f_name_len : Z;
  f_value : option bytes;
  f_value_len : Z;
}.

Definition strdup (s : cstring) : option bytes := if malloc (strlen s + 1) then Some s else None.

(** A copy of [len] bytes into a fresh block. *)
Definition copy_of (s : bytes) : option bytes := if alloc_len (strlen s) then Some s else None.

(** [index] is at least 1 here. *)
Definition field_resolve_name (d : hpack_dyn) (index : Z) : option bytes :=
  if index <=? 61 then
    match HPACK_STATIC !! Z.to_nat (index - 1) with
    | None => None
    | Some (sname, _) => strdup sname
    end
  else match dyn_get d (index - 61) with
       | None => None
       | Some de => copy_of (de_name de)
       end.

(** The indexed representation; [index - 61] is unsigned, so index 0 is far
    beyond the table. *)
Definition indexed_field (d : hpack_dyn) (index : Z) : option hpack_field :=
  if (1 <=? index) && (index <=? 61) then
    match HPACK_STATIC !! Z.to_nat (index - 1) with
    | None => None
    | Some (n, v) => Some (Field (strdup n) (strlen n) (strdup v) (strlen v))
    end
  else match dyn_get d (u32 (index - 61)) with
       | None => None
       | Some de =>
           match copy_of (de_name de), copy_of (de_value de) with
           | Some n, Some v => Some (Field (Some n) (strlen n) (Some v) (strlen v))
           | _, _ => None
           end
       end.

(** A literal representation whose index has [prefix] bits: the name, the
    value and what follows. *)
Definition literal_field (d : hpack_dyn) (input : bytes) (prefix : Z) : option (bytes * bytes * bytes) :=
  match hpack_read_int input prefix with
  | None => None
  | Some (index, rest) =>
      let named := if index =? 0 then hpack_read_string rest
                   else (fun n => (n, rest)) <$> field_resolve_name d index in
      match named with
      | None => None
      | Some (name, rest) =>
          match hpack_read_string rest with
          | None => None
          | Some (value, rest) => Some (name, value, rest)
          end
      end
  end.

Definition literal (name value : bytes) : hpack_field :=
  Field (Some name) (strlen name) (Some value) (strlen value).

(** Every round consumes at least a byte, so the length of the block is enough
    fuel.  The table is returned with the result, which is [None] on an
    error. *)
Fixpoint decode_loop (fuel : nat) (d : hpack_dyn) (input : bytes) (fields : list hpack_field)
    (max_fields : Z) : hpack_dyn * option (list hpack_field) :=
  match fuel, input with
  | _, [] => (d, Some fields)
  | O, _ => (d, None)
  | S fuel', b :: _ =>
      if max_fields <=? Z.of_nat (length fields) then (d, None)
      else if negb (Z.land b 0x80 =? 0) then
        match hpack_read_int input 7 with
        | None => (d, None)
        | Some (index, rest) =>
            match indexed_field d index with
            | None => (d, None)
            | Some f => decode_loop fuel' d rest (fields ++ [f]) max_fields
            end
        end
      else if Z.land b 0xc0 =? 0x40 then
        match literal_field d input 6 with
        | None => (d, None)
        | Some (name, value, rest) =>
            decode_loop fuel' (dyn_add d name value) rest (fields ++ [literal name value]) max_fields
        end
      else if Z.land b 0xe0 =? 0x20 then
        match hpack_read_int input 5 with
        | None => (d, None)
        | Some (new_size, rest) =>
            if dy_max_size d <? new_size then (d, None)
            else decode_loop fuel' (dyn_set_max d new_size) rest fields max_fields
        end
      else if (Z.land b 0xf0 =? 0x00) || (Z.land b 0xf0 =? 0x10) then
        match literal_field d input 4 with
        | None => (d, None)
        | Some (name, value, rest) =>
            decode_loop fuel' d rest (fields ++ [literal name value]) max_fields
        end
      else (d, None)
  end.

Definition hpack_decode_block (d : hpack_dyn) (input : bytes) (max_fields : Z)
  : hpack_dyn * option (list hpack_field) :=
  decode_loop (length input) d input [] max_fields.

(** ** The request encoder *)

(** The tests of [n == 0] after the strings are never true, since [n] already
    counts the index: a string that does not fit is left out. *)
Definition hpack_encode_field (d : hpack_dyn) (cap : Z) (name value : cstring) : bytes * hpack_dyn :=
  let pair_idx := static_find_pair name value in
  let pair_idx :=
    if pair_idx =? 0 then
      let k := dyn_find_pair d name value in if k =? 0 then 0 else 61 + k
    else pair_idx in
  if negb (pair_idx =? 0) then (hpack_write_int_ex cap pair_idx 7 0x80, d)
  else
    let name_idx := static_find_name name in
    let name_idx :=
      if name_idx =? 0 then
        let k := dyn_find_name d name in if k =? 0 then 0 else 61 + k
      else name_idx in
    let n := hpack_write_int_ex cap name_idx 6 0x40 in
    if strlen n =? 0 then ([], d)
    else
      let n := if negb (name_idx =? 0) then n
               else n ++ hpack_write_string (cap - strlen n) name in
      let n := n ++ hpack_write_string (cap - strlen n) value in
      (n, dyn_add d name value).

(** ** Request headers *)

Definition H2C_REQ_HDR_BLOCK : Z := 1024.

(** The six fields that are not fully indexed, in order. *)
Definition request_fields (namespace_ path : cstring) : list (cstring * cstring) :=
  [(lit ":path", path); (lit ":authority", lit "localhost");
   (lit "content-type", lit "application/grpc"); (lit "te", lit "trailers");
   (lit "user-agent", lit "grpc-c/1.0"); (lit "containerd-namespace", namespace_)].

Fixpoint encode_fields (d : hpack_dyn) (cap : Z) (out : bytes) (fields : list (cstring * cstring))
  : hpack_dyn * option bytes :=
  match fields with
  | [] => (d, Some out)
  | (name, value) :: fields' =>
      let '(w, d') := hpack_encode_field d (cap - strlen out) name value in
      if strlen w =? 0 then (d', None) else encode_fields d' cap (out ++ w) fields'
  end.

(** The encoder's table and [enc_size_update] are those of the connection;
    [None] is the return value -1. *)
Definition build_request_headers (d : hpack_dyn) (enc_size_update : bool)
    (namespace_ path : cstring) (cap : Z) : hpack_dyn * bool * option bytes :=
  let put out v prefix pattern :=
    let w := hpack_write_int_ex (cap - strlen out) v prefix pattern in
    if strlen w =? 0 then None else Some (out ++ w) in
  match (if enc_size_update then put [] (u32 (dy_max_size d)) 5 0x20 else Some []) with
  | None => (d, enc_size_update, None)
  | Some out =>
      match put out 3 7 0x80 with
      | None => (d, false, None)
      | Some out =>
          match put out 6 7 0x80 with
          | None => (d, false, None)
          | Some out =>
              let '(d', r) := encode_fields d cap out (request_fields namespace_ path) in
              (d', false, r)
          end
      end
  end.

End Hpack.
