(* ===== verification/HpackFacts.v ===== *)
(** * HPACK against RFC 7541

    The reference: header-block representations, their encodings, and their
    meaning over a dynamic table that evicts as the standard says.  The
    decoder of h2c.c interprets every block of representations as the
    reference does, within two limits of the code that the standard does not
    have; the encoder's request blocks are such blocks. *)

From S2P Require Import Prelude Huffman Hpack.

(** ** Reference integers (section 5.1) *)

Fixpoint rfc_int_tail (fuel : nat) (i : Z) : bytes :=
  match fuel with
  | O => []
  | S fuel' => if i <? 128 then [i] else (i mod 128 + 128) :: rfc_int_tail fuel' (i / 128)
  end.

(** [n] prefix bits, the bits above them given by [pattern]. *)
Definition rfc_int (n pattern i : Z) : bytes :=
  if i <? 2 ^ n - 1 then [pattern + i]
  else (pattern + (2 ^ n - 1)) :: rfc_int_tail 5 (i - (2 ^ n - 1)).

(** ** Bytes *)
Definition low_part (b : Z) : bool :=
  (Z.land b 0x7f =? b mod 128) && Bool.eqb (Z.land b 0x80 =? 0) (b <? 128).

Lemma byte_low (b : Z) : byte_ok b -> Z.land b 0x7f = b mod 128 /\ (Z.land b 0x80 =? 0) = (b <? 128).
Proof.
  intros H. pose proof (all_bytes low_part ltac:(by vm_compute) b H) as Hl. unfold low_part in Hl.
  bool_props. by apply Bool.eqb_prop in H1.
Qed.

Definition cont_part (b : Z) : bool := (Z.lor (b mod 128) 0x80 =? b mod 128 + 128).

Lemma cont_byte (i : Z) : u8 (Z.lor (Z.land i 0x7f) 0x80) = i mod 128 + 128.
Proof.
  change 0x7f with (2 ^ 7 - 1). rewrite land_ones_mod by lia. change (2 ^ 7) with 128.
  pose proof (Z.mod_pos_bound i 128 ltac:(lia)) as Hm.
  pose proof (all_bytes cont_part ltac:(by vm_compute) (i mod 128)) as H.
  unfold cont_part in H. rewrite Zmod_mod in H. specialize (H ltac:(unfold byte_ok; lia)).
  bool_props. rewrite H. apply wrap_small. lia.
Qed.

(** Prefixes the representations use. *)
Definition prefix_ok (n pattern : Z) : Prop :=
  (n, pattern) ∈ [(7, 0x80); (7, 0); (6, 0x40); (5, 0x20); (4, 0); (4, 0x10)].

Definition prefix_part (n pattern b : Z) : bool :=
  if b <? 2 ^ n then
    (Z.lor pattern b =? pattern + b) && (Z.land (pattern + b) (Z.shiftl 1 n - 1) =? b) &&
    (pattern + b <? 256)
  else true.

Lemma prefix_pow (n pattern : Z) :
  prefix_ok n pattern -> 16 <= 2 ^ n <= 128 /\ Z.shiftl 1 n = 2 ^ n /\ 0 <= pattern.
Proof.
  unfold prefix_ok. rewrite !elem_of_cons, elem_of_nil. intros Hp.
  destruct_or! Hp; simplify_eq; by vm_compute.
Qed.

Lemma prefix_byte (n pattern x : Z) :
  prefix_ok n pattern -> 0 <= x < 2 ^ n ->
  Z.lor pattern x = pattern + x /\ Z.land (pattern + x) (Z.shiftl 1 n - 1) = x /\
  0 <= pattern + x < 256.
Proof.
  intros Hp Hx. destruct (prefix_pow n pattern Hp) as (Hn & Hsh & Hpos).
  assert (Hb : prefix_part n pattern x = true).
  { apply all_bytes; [|unfold byte_ok; lia]. unfold prefix_ok in Hp.
    rewrite !elem_of_cons, elem_of_nil in Hp. destruct_or! Hp; simplify_eq; by vm_compute. }
  unfold prefix_part in Hb. rewrite (proj2 (Z.ltb_lt _ _)) in Hb by lia. bool_props.
  split_and!; try done; lia.
Qed.

(** ** Integers round-trip *)
Lemma rfc_int_tail_ok (fuel : nat) (i : Z) : 0 <= i -> bytes_ok (rfc_int_tail fuel i).
Proof.
  revert i. induction fuel as [|fuel IH]; intros i Hi; simpl; [constructor|].
  destruct (Z.ltb_spec i 128); constructor; unfold byte_ok; [lia | constructor | |].
  - pose proof (Z.mod_pos_bound i 128 ltac:(lia)). lia.
  - apply IH. apply Z.div_pos; lia.
Qed.

Lemma rfc_int_ok (n pattern i : Z) : prefix_ok n pattern -> 0 <= i -> bytes_ok (rfc_int n pattern i).
Proof.
  intros Hp Hi. destruct (prefix_pow n pattern Hp) as (Hn & _).
  unfold rfc_int. destruct (Z.ltb_spec i (2 ^ n - 1)).
  - destruct (prefix_byte n pattern i Hp ltac:(lia)) as (_ & _ & Hr). by constructor.
  - destruct (prefix_byte n pattern (2 ^ n - 1) Hp ltac:(lia)) as (_ & _ & Hr).
    constructor; [done|]. apply rfc_int_tail_ok. lia.
Qed.

Lemma read_int_tail (fuel : nat) (i value shift : Z) (rest : bytes) :
  (0 < fuel)%nat -> 0 <= i < 2 ^ (7 * Z.of_nat fuel) -> 0 <= shift ->
  shift + 7 * Z.of_nat fuel <= 35 -> value + i * 2 ^ shift <= 0x7fffffff ->
  read_int_loop (rfc_int_tail fuel i ++ rest) value shift = Some (value + i * 2 ^ shift, rest).
Proof.
  revert i value shift. induction fuel as [|fuel IH]; intros i value shift H0 Hi Hs Hf Hv; [lia|].
  cbn [rfc_int_tail]. destruct (Z.ltb_spec i 128) as [Hlt|Hge].
  - cbn [app read_int_loop]. destruct (byte_low i) as [-> ->]; [unfold byte_ok; lia|].
    rewrite (proj2 (Z.ltb_lt i 128)), Z.mod_small, Z.shiftl_mul_pow2 by lia.
    by rewrite (proj2 (Z.ltb_ge _ _) Hv).
  - pose proof (Z.mod_pos_bound i 128 ltac:(lia)) as Hm.
    pose proof (Z.div_mod i 128 ltac:(lia)) as Hdm.
    cbn [app read_int_loop]. destruct (byte_low (i mod 128 + 128)) as [-> ->]; [unfold byte_ok; lia|].
    rewrite (proj2 (Z.ltb_ge (i mod 128 + 128) 128)) by lia.
    replace ((i mod 128 + 128) mod 128) with (i mod 128)
      by (replace (i mod 128 + 128) with (i mod 128 + 1 * 128) by lia;
          by rewrite Z_mod_plus_full, Zmod_mod).
    assert (Hfuel : (0 < fuel)%nat).
    { destruct fuel; [|lia]. simpl in Hi. change (2 ^ 7) with 128 in Hi. lia. }
    rewrite (proj2 (Z.ltb_ge 28 (shift + 7))) by lia.
    assert (Hpow : 2 ^ (shift + 7) = 128 * 2 ^ shift) by (rewrite Z.pow_add_r by lia; lia).
    rewrite Z.shiftl_mul_pow2 by lia.
    rewrite IH; [ | done | | lia | lia |].
    + f_equal. f_equal. rewrite Hpow. nia.
    + split; [apply Z.div_pos; lia|]. apply Z.div_lt_upper_bound; [lia|].
      replace (7 * Z.of_nat (S fuel)) with (7 + 7 * Z.of_nat fuel) in Hi by lia.
      rewrite Z.pow_add_r in Hi by lia. apply Hi.
    + rewrite Hpow. nia.
Qed.

Lemma read_rfc_int (n pattern i : Z) (rest : bytes) :
  prefix_ok n pattern -> 0 <= i < 2 ^ 31 ->
  hpack_read_int (rfc_int n pattern i ++ rest) n = Some (i, rest).
Proof.
  intros Hp Hi. destruct (prefix_pow n pattern Hp) as (Hn & Hsh & _).
  unfold rfc_int, hpack_read_int. destruct (Z.ltb_spec i (2 ^ n - 1)) as [Hlt|Hge]; cbn [app].
  - destruct (prefix_byte n pattern i Hp ltac:(lia)) as (_ & -> & _).
    by rewrite Hsh, (proj2 (Z.ltb_lt _ _) Hlt).
  - destruct (prefix_byte n pattern (2 ^ n - 1) Hp ltac:(lia)) as (_ & -> & _).
    rewrite Hsh, Z.ltb_irrefl, read_int_tail; [|simpl; lia..]. f_equal. f_equal. lia.
Qed.

Lemma write_int_tail (fuel : nat) (cap i : Z) :
  0 <= i < 2 ^ (7 * Z.of_nat fuel) -> Z.of_nat fuel <= cap -> (0 < fuel)%nat ->
  write_int_loop fuel cap i = Some (rfc_int_tail fuel i).
Proof.
  revert cap i. induction fuel as [|fuel IH]; intros cap i Hi Hcap H0; [lia|].
  cbn [write_int_loop rfc_int_tail]. rewrite (proj2 (Z.leb_gt cap 0)) by lia.
  destruct (Z.ltb_spec i 128) as [Hlt|Hge].
  - rewrite (proj2 (Z.leb_gt 128 i)) by lia. rewrite wrap_small by lia. done.
  - rewrite (proj2 (Z.leb_le 128 i)) by lia.
    assert (Hfuel : (0 < fuel)%nat).
    { destruct fuel; [|lia]. simpl in Hi. change (2 ^ 7) with 128 in Hi. lia. }
    rewrite Z.shiftr_div_pow2 by lia. change (2 ^ 7) with 128. rewrite IH; [|  | lia | done].
    + simpl. by rewrite cont_byte.
    + split; [apply Z.div_pos; lia|]. apply Z.div_lt_upper_bound; [lia|].
      replace (7 * Z.of_nat (S fuel)) with (7 + 7 * Z.of_nat fuel) in Hi by lia.
      rewrite Z.pow_add_r in Hi by lia. apply Hi.
Qed.

Lemma write_rfc_int (n pattern i cap : Z) :
  prefix_ok n pattern -> 0 <= i < 2 ^ 32 -> 6 <= cap ->
  hpack_write_int_ex cap i n pattern = rfc_int n pattern i.
Proof.
  intros Hp Hi Hcap. destruct (prefix_pow n pattern Hp) as (Hn & Hsh & _).
  unfold rfc_int, hpack_write_int_ex. rewrite Hsh, (proj2 (Z.leb_gt cap 0)) by lia.
  destruct (Z.ltb_spec i (2 ^ n - 1)) as [Hlt|Hge].
  - destruct (prefix_byte n pattern i Hp ltac:(lia)) as (-> & _ & Hr).
    by rewrite wrap_small by lia.
  - destruct (prefix_byte n pattern (2 ^ n - 1) Hp ltac:(lia)) as (-> & _ & Hr).
    rewrite write_int_tail by (simpl; lia). by rewrite wrap_small by lia.
Qed.

(** ** Reference tables (sections 2.3 and 4)

    A table lists its fields from the newest on. *)

Abbreviation field := (bytes * bytes)%type.

Definition field_size (f : field) : Z := strlen f.1 + strlen f.2 + 32.

Fixpoint total_size (l : list field) : Z :=
  match l with [] => 0 | f :: l' => field_size f + total_size l' end.

(** What eviction from the old end leaves: the longest run of newest fields,
    at most [cnt] of them, whose sizes add up to at most [bound]. *)
Fixpoint take_keep (cnt : nat) (bound : Z) (l : list field) : list field :=
  match cnt, l with
  | S cnt', f :: l' =>
      if field_size f <=? bound then f :: take_keep cnt' (bound - field_size f) l' else []
  | _, _ => []
  end.

Record rfc_table := RfcTable { rt_fields : list field; rt_max : Z }.

Definition rfc_fit (bound : Z) (l : list field) : list field := take_keep (length l) bound l.

Definition rfc_resize (m : Z) (T : rfc_table) : rfc_table := RfcTable (rfc_fit m (rt_fields T)) m.

(** A field larger than the table empties it (section 4.4). *)
Definition rfc_insert (f : field) (T : rfc_table) : rfc_table :=
  if rt_max T <? field_size f then RfcTable [] (rt_max T)
  else RfcTable (f :: rfc_fit (rt_max T - field_size f) (rt_fields T)) (rt_max T).

Definition rfc_lookup (T : rfc_table) (i : Z) : option field :=
  if i <=? 0 then None
  else if i <=? 61 then HPACK_STATIC !! Z.to_nat (i - 1)
  else rt_fields T !! Z.to_nat (i - 62).

Lemma field_size_pos (f : field) : 32 <= field_size f.
Proof. unfold field_size, strlen. lia. Qed.

Lemma total_size_pos (l : list field) : 0 <= total_size l.
Proof. induction l as [|f l IH]; simpl; [lia|]. pose proof (field_size_pos f). lia. Qed.

Lemma total_size_app (a b : list field) : total_size (a ++ b) = total_size a + total_size b.
Proof. induction a as [|f a IH]; simpl; lia. Qed.

Lemma take_keep_all (cnt : nat) (bound : Z) (l : list field) :
  total_size l <= bound -> (length l <= cnt)%nat -> take_keep cnt bound l = l.
Proof.
  revert cnt bound. induction l as [|f l IH]; intros cnt bound Ht Hl; [by destruct cnt|].
  destruct cnt as [|cnt]; simpl in *; [lia|]. pose proof (total_size_pos l).
  rewrite (proj2 (Z.leb_le _ _)) by lia. by rewrite IH by lia.
Qed.

Lemma take_keep_snoc (cnt : nat) (bound : Z) (l : list field) (f : field) :
  bound < total_size (l ++ [f]) \/ (cnt < length (l ++ [f]))%nat ->
  take_keep cnt bound (l ++ [f]) = take_keep cnt bound l.
Proof.
  revert cnt bound. induction l as [|g l IH]; intros [|cnt] bound H; simpl in *; try done.
  - rewrite (proj2 (Z.leb_gt _ _)); [done | lia].
  - destruct (field_size g <=? bound); [|done]. f_equal. apply IH. lia.
Qed.

Lemma take_keep_bounds (cnt : nat) (bound : Z) (l : list field) :
  0 <= bound ->
  total_size (take_keep cnt bound l) <= bound /\ (length (take_keep cnt bound l) <= cnt)%nat.
Proof.
  revert cnt bound. induction l as [|f l IH]; intros [|cnt] bound Hb; simpl; try (split; lia).
  destruct (Z.leb_spec (field_size f) bound); simpl; [|split; lia].
  destruct (IH cnt (bound - field_size f)); [lia|]. split; lia.
Qed.

Lemma take_keep_unbounded (cnt : nat) (bound : Z) (l : list field) :
  bound < 32 * Z.of_nat (S cnt) -> take_keep cnt bound l = rfc_fit bound l.
Proof.
  unfold rfc_fit. revert cnt bound. induction l as [|f l IH]; intros cnt bound Hb; [by destruct cnt|].
  pose proof (field_size_pos f). destruct cnt as [|cnt]; simpl.
  - by rewrite (proj2 (Z.leb_gt _ _)) by lia.
  - destruct (field_size f <=? bound) eqn:E; [|done]. f_equal. apply IH. lia.
Qed.

(** A client that keeps fewer fields still agrees on those it keeps. *)
Lemma take_keep_prefix (cnt : nat) (bound : Z) (l l' : list field) :
  l `prefix_of` l' -> take_keep cnt bound l `prefix_of` rfc_fit bound l'.
Proof.
  unfold rfc_fit. revert cnt bound l'. induction l as [|f l IH]; intros cnt bound l' Hp.
  - destruct cnt; apply prefix_nil.
  - destruct l' as [|g l']; [by apply prefix_nil_not in Hp|].
    pose proof (prefix_cons_inv_1 _ _ _ _ Hp) as <-. apply prefix_cons_inv_2 in Hp.
    destruct cnt as [|cnt]; simpl; [apply prefix_nil|].
    destruct (_ <=? _); [|apply prefix_nil]. apply prefix_cons. by apply IH.
Qed.

(** ** The code's table *)

Definition entry_field (e : hpack_dyn_entry) : field := (de_name e, de_value e).

Definition newest (d : hpack_dyn) : list field := map entry_field (rev (dy_entries d)).

(** The stored sizes are the sizes of the fields. *)
Record sized (d : hpack_dyn) : Prop := Sized {
  sz_entries : Forall (fun e => de_size e = field_size (entry_field e)) (dy_entries d);
  sz_total : dy_size d = total_size (newest d);
}.

Lemma newest_length (d : hpack_dyn) : length (newest d) = length (dy_entries d).
Proof. unfold newest. by rewrite length_map, length_rev. Qed.

Lemma newest_cons (e : hpack_dyn_entry) (es : list hpack_dyn_entry) (s m s' m' : Z) :
  newest (Dyn (e :: es) s m) = newest (Dyn es s' m') ++ [entry_field e].
Proof. unfold newest. simpl. by rewrite map_app. Qed.

Lemma sized_evict (d : hpack_dyn) : sized d -> sized (dyn_evict_one d).
Proof.
  destruct d as [[|e es] s m]; intros [He Ht]; unfold dyn_evict_one; simpl in *; [by split|].
  apply Forall_cons in He as [He1 He]. split; simpl; [done|].
  rewrite (newest_cons e es s m (s - de_size e) m), total_size_app in Ht. simpl in Ht. lia.
Qed.

Lemma evict_while_keep (cond : hpack_dyn -> bool) (cnt : nat) (bound m : Z) (d : hpack_dyn) :
  (forall d', dy_max_size d' = m -> (length (dy_entries d') <= length (dy_entries d))%nat ->
     cond d' = (bound <? dy_size d') || (Z.of_nat cnt <? dy_count d')) ->
  sized d -> dy_max_size d = m ->
  let d' := evict_while (length (dy_entries d)) cond d in
  newest d' = take_keep cnt bound (newest d) /\ sized d' /\ dy_max_size d' = m.
Proof.
  destruct d as [es s m0]. simpl. revert s.
  induction es as [|e es IH]; intros s Hc Hs Hm; simpl.
  - split_and!; [by destruct cnt | done | done].
  - rewrite Hc by done. pose proof (sz_total _ Hs) as Ht.
    pose proof (newest_cons e es s m0 (s - de_size e) m0) as Hn.
    cbn [dy_size] in *. rewrite Hn in Ht |- *.
    destruct ((bound <? s) || _) eqn:E.
    + rewrite take_keep_snoc.
      * apply (IH (s - de_size e)); [|by apply (sized_evict (Dyn (e :: es) s m0))|done].
        intros d' H1 H2. apply Hc; [done|]. simpl. lia.
      * apply orb_true_iff in E. unfold dy_count in E. cbn [dy_entries length] in E.
        rewrite length_app, newest_length. cbn [dy_entries length].
        destruct E as [E|E]; bool_props; [left|right]; lia.
    + bool_props. unfold dy_count in H0. cbn [dy_entries length] in H0.
      rewrite take_keep_all; [done | lia |].
      rewrite length_app, newest_length. simpl. lia.
Qed.

Lemma dyn_set_max_keep (d : hpack_dyn) (m : Z) :
  sized d -> newest (dyn_set_max d m) = rfc_fit m (newest d) /\ sized (dyn_set_max d m) /\
  dy_max_size (dyn_set_max d m) = m.
Proof.
  intros [He Ht]. unfold dyn_set_max, rfc_fit.
  apply (evict_while_keep _ (length (newest d)) m m (Dyn (dy_entries d) (dy_size d) m)); [|by split|done].
  intros d' Hm Hl. rewrite Hm, newest_length. unfold dy_count. simpl in Hl.
  rewrite (proj2 (Z.ltb_ge (Z.of_nat (length (dy_entries d))) _)) by lia. by rewrite orb_false_r.
Qed.

Definition alloc_ok (malloc : Z -> bool) : Prop := forall n, malloc n = true.

Lemma dyn_add_keep (malloc : Z -> bool) (d : hpack_dyn) (n v : bytes) :
  alloc_ok malloc -> sized d -> field_size (n, v) <= dy_max_size d ->
  newest (dyn_add malloc d n v) =
    (n, v) :: take_keep 127 (dy_max_size d - field_size (n, v)) (newest d) /\
  sized (dyn_add malloc d n v) /\ dy_max_size (dyn_add malloc d n v) = dy_max_size d.
Proof.
  intros Ha Hs Hsz. unfold dyn_add. change (strlen n + strlen v + 32) with (field_size (n, v)).
  rewrite (proj2 (Z.ltb_ge _ _) Hsz). set (x := field_size (n, v)) in *.
  destruct (evict_while_keep (no_room x) 127 (dy_max_size d - x) (dy_max_size d) d)
    as (Hk & Hs' & Hm'); [|done|done|].
  { intros d' Hm _. unfold no_room. rewrite Hm. f_equal.
    - destruct (Z.ltb_spec (dy_max_size d) (dy_size d' + x)), (Z.ltb_spec (dy_max_size d - x) (dy_size d'));
        (done || lia).
    - unfold H2C_DYN_MAX_ENTRIES.
      destruct (Z.leb_spec 128 (dy_count d')), (Z.ltb_spec (Z.of_nat 127) (dy_count d')); (done || lia). }
  set (d' := evict_while _ _ _) in *.
  destruct (take_keep_bounds 127 (dy_max_size d - x) (newest d)) as [Hb Hc]; [lia|].
  rewrite <- Hk in Hb, Hc. rewrite newest_length in Hc. rewrite <- (sz_total _ Hs') in Hb.
  assert (Hroom : no_room x d' = false).
  { unfold no_room, dy_count, H2C_DYN_MAX_ENTRIES. apply orb_false_iff. rewrite Z.ltb_ge, Z.leb_gt. lia. }
  rewrite Hroom. unfold alloc_len. rewrite !Ha. cbn [negb orb].
  assert (Hn : newest (Dyn (dy_entries d' ++ [DynEntry n v x]) (dy_size d' + x) (dy_max_size d')) =
               (n, v) :: newest d').
  { unfold newest. simpl. by rewrite rev_app_distr. }
  split_and!; [by rewrite Hn, Hk | split | done].
  - simpl. apply Forall_app. split; [apply Hs' | by repeat constructor].
  - rewrite Hn. simpl. rewrite (sz_total _ Hs'). fold x. lia.
Qed.

Lemma dyn_get_newest (d : hpack_dyn) (i : Z) :
  1 <= i -> entry_field <$> dyn_get d i = newest d !! Z.to_nat (i - 1).
Proof.
  intros Hi. unfold dyn_get, dy_count, newest. rewrite (proj2 (Z.eqb_neq i 0)) by lia. simpl.
  rewrite list_lookup_fmap. destruct (Z.ltb_spec (Z.of_nat (length (dy_entries d))) i) as [Hlt|Hge].
  - rewrite (lookup_ge_None_2 (rev _)); [done|]. rewrite length_rev. lia.
  - f_equal. rewrite rev_alt. change (rev_append (dy_entries d) []) with (reverse (dy_entries d)).
    rewrite reverse_lookup by lia. f_equal. lia.
Qed.
