(* ===== verification/HpackBlocks.v ===== *)
(** * Header blocks (RFC 7541, sections 5.2 and 6)

    Representations, their bytes and their meaning over a reference table; the
    decoder of h2c.c reads every block of representations as the standard
    does, and the request headers it sends are such a block. *)

From S2P Require Import Prelude Huffman Hpack HpackFacts.

(** ** Representations *)

(** A string literal, raw or Huffman-coded ([input] is the coded form). *)
Inductive hstr := Raw (s : bytes) | Huff (input s : bytes).

Definition hstr_value (h : hstr) : bytes := match h with Raw s => s | Huff _ s => s end.

Definition hstr_bytes (h : hstr) : bytes :=
  match h with
  | Raw s => rfc_int 7 0 (strlen s) ++ s
  | Huff input _ => rfc_int 7 0x80 (strlen input) ++ input
  end.

Definition hstr_ok (h : hstr) : Prop :=
  match h with
  | Raw s => strlen s < 2 ^ 31
  | Huff input s => strlen input < 2 ^ 31 /\ bytes_ok s /\ huff_encodes (all_bits input) s
  end.

Inductive name_ref := ByIndex (i : Z) | ByName (n : hstr).
Inductive indexing := Incremental | WithoutIndexing | NeverIndexed.

Inductive rep :=
  | Indexed (i : Z)
  | Literal (k : indexing) (n : name_ref) (v : hstr)
  | SizeUpdate (m : Z).

Definition indexing_prefix (k : indexing) : Z := match k with Incremental => 6 | _ => 4 end.
Definition indexing_pattern (k : indexing) : Z :=
  match k with Incremental => 0x40 | WithoutIndexing => 0 | NeverIndexed => 0x10 end.

Definition name_bytes (k : indexing) (n : name_ref) : bytes :=
  match n with
  | ByIndex i => rfc_int (indexing_prefix k) (indexing_pattern k) i
  | ByName s => rfc_int (indexing_prefix k) (indexing_pattern k) 0 ++ hstr_bytes s
  end.

Definition rep_bytes (r : rep) : bytes :=
  match r with
  | Indexed i => rfc_int 7 0x80 i
  | Literal k n v => name_bytes k n ++ hstr_bytes v
  | SizeUpdate m => rfc_int 5 0x20 m
  end.

(** The meaning of a representation: the field it adds and the new table. *)
Definition rfc_name (T : rfc_table) (n : name_ref) : option bytes :=
  match n with
  | ByIndex i => fst <$> rfc_lookup T i
  | ByName s => Some (hstr_value s)
  end.

Definition rfc_step (T : rfc_table) (r : rep) : option (rfc_table * list field) :=
  match r with
  | Indexed i => (fun f => (T, [f])) <$> rfc_lookup T i
  | Literal k n v =>
      (fun name => let f := (name, hstr_value v) in
                   (match k with Incremental => rfc_insert f T | _ => T end, [f])) <$> rfc_name T n
  | SizeUpdate m => Some (rfc_resize m T, [])
  end.

Fixpoint rfc_run (T : rfc_table) (rs : list rep) : option (rfc_table * list field) :=
  match rs with
  | [] => Some (T, [])
  | r :: rs' =>
      match rfc_step T r with
      | None => None
      | Some (T1, fs) => (fun '(T2, fs') => (T2, fs ++ fs')) <$> rfc_run T1 rs'
      end
  end.

(** Integers and strings below 2^31, and the two limits of the code: an
    indexed field must fit the table, and the table is never enlarged. *)
Definition name_ok (n : name_ref) : Prop :=
  match n with ByIndex i => 0 <= i < 2 ^ 31 | ByName s => hstr_ok s end.

Definition rep_ok (T : rfc_table) (r : rep) : Prop :=
  match r with
  | Indexed i => 0 <= i < 2 ^ 31
  | Literal k n v =>
      name_ok n /\ hstr_ok v /\
      (k = Incremental -> forall name, rfc_name T n = Some name ->
         field_size (name, hstr_value v) <= rt_max T)
  | SizeUpdate m => 0 <= m <= rt_max T /\ m < 2 ^ 31
  end.

Fixpoint reps_ok (T : rfc_table) (rs : list rep) : Prop :=
  match rs with
  | [] => True
  | r :: rs' => rep_ok T r /\
      match rfc_step T r with Some (T', _) => reps_ok T' rs' | None => True end
  end.

(** ** Strings *)
Lemma code_length (i : Z) : byte_ok i -> (5 <= length (code_bits i))%nat.
Proof.
  intros Hi. apply Nat.leb_le.
  apply (all_bytes (fun i => Nat.leb 5 (length (code_bits i)))); [by vm_compute | done].
Qed.

Lemma encode_bits_length (s : bytes) : bytes_ok s -> (5 * length s <= length (encode_bits s))%nat.
Proof.
  induction 1 as [|i s Hi Hs IH]; [simpl; lia|]. unfold encode_bits in *. cbn [map concat length].
  rewrite length_app. pose proof (code_length i Hi). lia.
Qed.

Lemma all_bits_length (input : bytes) : length (all_bits input) = (8 * length input)%nat.
Proof.
  induction input as [|b input IH]; [done|]. unfold all_bits in *. cbn [map concat length].
  rewrite length_app, IH. simpl. lia.
Qed.

(** The decode buffer of eight bytes per coded byte is always large enough. *)
Lemma huff_room (input s : bytes) :
  bytes_ok s -> huff_encodes (all_bits input) s -> strlen s <= strlen input * 8 + 1.
Proof.
  intros Hs (k & _ & Hb). pose proof (encode_bits_length s Hs). pose proof (all_bits_length input) as Hl.
  rewrite Hb, length_app in Hl. unfold strlen. lia.
Qed.

Lemma rfc_int_head (n pattern i : Z) :
  prefix_ok n pattern -> 0 <= i ->
  exists x tl, rfc_int n pattern i = (pattern + x) :: tl /\ 0 <= x < 2 ^ n.
Proof.
  intros Hp Hi. destruct (prefix_pow n pattern Hp) as (Hn & _). unfold rfc_int.
  destruct (Z.ltb_spec i (2 ^ n - 1)); eexists _, _; (split; [reflexivity | lia]).
Qed.

Ltac prefix := match goal with |- prefix_ok _ _ => unfold prefix_ok; by_decide end.

Lemma read_hstr (malloc : Z -> bool) (h : hstr) (rest : bytes) :
  alloc_ok malloc -> hstr_ok h ->
  hpack_read_string malloc (hstr_bytes h ++ rest) = Some (hstr_value h, rest).
Proof.
  intros Ha Hok. set (body := match h with Raw s => s | Huff i _ => i end).
  set (pat := match h with Raw _ => 0 | Huff _ _ => 0x80 end).
  assert (Hp : prefix_ok 7 pat) by (subst pat; destruct h; prefix).
  assert (Hb : hstr_bytes h = rfc_int 7 pat (strlen body) ++ body) by (by destruct h).
  assert (Hlen : 0 <= strlen body < 2 ^ 31) by (subst body; destruct h; simpl in Hok; unfold strlen in *; lia).
  rewrite Hb, <- app_assoc. unfold hpack_read_string.
  destruct (rfc_int_head 7 pat (strlen body) Hp) as (x & tl & Hx & Hr); [lia|].
  pose proof (read_rfc_int 7 pat (strlen body) (body ++ rest) Hp Hlen) as Hread.
  rewrite Hx in Hread |- *. cbn [app] in Hread |- *. rewrite Hread.
  assert (Hge : strlen body <= Z.of_nat (length (body ++ rest)))
    by (rewrite length_app; unfold strlen; lia).
  rewrite (proj2 (Z.ltb_ge _ _) Hge). unfold alloc_len. rewrite !Ha.
  assert (Ht : take (Z.to_nat (strlen body)) (body ++ rest) = body)
    by (unfold strlen; by rewrite Nat2Z.id, take_app_length).
  assert (Hd : drop (Z.to_nat (strlen body)) (body ++ rest) = rest)
    by (unfold strlen; by rewrite Nat2Z.id, drop_app_length).
  rewrite Ht, Hd. clear Hread Hb Hx Ht Hd. change (2 ^ 7) with 128 in Hr.
  destruct h as [s|input s]; subst body pat; cbn [hstr_ok hstr_value] in *.
  - rewrite Z.add_0_l. destruct (byte_low x) as [_ ->]; [unfold byte_ok; lia|].
    by rewrite (proj2 (Z.ltb_lt x 128)) by lia.
  - destruct (byte_low (128 + x)) as [_ ->]; [unfold byte_ok; lia|].
    rewrite (proj2 (Z.ltb_ge _ 128)) by lia. cbn [negb]. destruct Hok as (_ & Hs & He).
    assert (Hroom := huff_room input s Hs He).
    rewrite (proj2 (huff_decode_iff input s (strlen input * 8 + 1) ltac:(unfold strlen; lia)));
      [done | by split_and!].
Qed.

(** ** The decoder *)

(** The code's table stands for the reference table. *)
Record matches (d : hpack_dyn) (T : rfc_table) : Prop := Matches {
  mt_fields : newest d = rt_fields T;
  mt_sized : sized d;
  mt_max : dy_max_size d = rt_max T;
  mt_bound : 0 <= rt_max T <= 4096;
}.

Definition decoded (f : field) : hpack_field := literal f.1 f.2.

Lemma static_length : length HPACK_STATIC = 61%nat.
Proof. done. Qed.

Lemma lookup_indexed (malloc : Z -> bool) (d : hpack_dyn) (T : rfc_table) (i : Z) (f : field) :
  alloc_ok malloc -> matches d T -> i < 2 ^ 31 -> rfc_lookup T i = Some f ->
  indexed_field malloc d i = Some (decoded f).
Proof.
  intros Ha Hm Hi. unfold rfc_lookup, indexed_field. destruct (Z.leb_spec i 0); [done|].
  rewrite (proj2 (Z.leb_le 1 i)) by lia. destruct (Z.leb_spec i 61) as [Hs|Hs]; simpl.
  - intros ->. destruct f as [n v]. unfold strdup. by rewrite !Ha.
  - intros Hf. rewrite wrap_small by lia.
    pose proof (dyn_get_newest d (i - 61) ltac:(lia)) as Hg. rewrite (mt_fields _ _ Hm) in Hg.
    replace (i - 61 - 1) with (i - 62) in Hg by lia. rewrite Hf in Hg.
    destruct (dyn_get d (i - 61)) as [de|]; [|done]. simpl in Hg. injection Hg as <-.
    unfold copy_of, alloc_len. by rewrite !Ha.
Qed.

Lemma lookup_name (malloc : Z -> bool) (d : hpack_dyn) (T : rfc_table) (i : Z) (f : field) :
  alloc_ok malloc -> matches d T -> rfc_lookup T i = Some f ->
  i <> 0 /\ field_resolve_name malloc d i = Some f.1.
Proof.
  intros Ha Hm. unfold rfc_lookup, field_resolve_name. destruct (Z.leb_spec i 0); [done|].
  destruct (Z.leb_spec i 61) as [Hs|Hs]; simpl.
  - intros ->. split; [lia|]. destruct f as [n v]. unfold strdup. by rewrite !Ha.
  - intros Hf. split; [lia|].
    pose proof (dyn_get_newest d (i - 61) ltac:(lia)) as Hg. rewrite (mt_fields _ _ Hm) in Hg.
    replace (i - 61 - 1) with (i - 62) in Hg by lia. rewrite Hf in Hg.
    destruct (dyn_get d (i - 61)) as [de|]; [|done]. simpl in Hg. injection Hg as <-.
    unfold copy_of, alloc_len. by rewrite !Ha.
Qed.

Lemma indexing_ok (k : indexing) : prefix_ok (indexing_prefix k) (indexing_pattern k).
Proof. destruct k; prefix. Qed.

Lemma read_literal (malloc : Z -> bool) (d : hpack_dyn) (T : rfc_table) (k : indexing)
    (n : name_ref) (v : hstr) (name rest : bytes) :
  alloc_ok malloc -> matches d T -> name_ok n -> hstr_ok v -> rfc_name T n = Some name ->
  literal_field malloc d ((name_bytes k n ++ hstr_bytes v) ++ rest) (indexing_prefix k) =
    Some (name, hstr_value v, rest).
Proof.
  intros Ha Hm Hn Hv Hname. unfold literal_field. destruct n as [i|s]; simpl in *.
  - rewrite <- app_assoc, read_rfc_int by (apply indexing_ok || lia).
    destruct (rfc_lookup T i) as [f|] eqn:Hf; [|done]. simpl in Hname. injection Hname as <-.
    destruct (lookup_name malloc d T i f Ha Hm Hf) as [H0 ->].
    rewrite (proj2 (Z.eqb_neq i 0) H0). simpl. by rewrite read_hstr.
  - injection Hname as <-. rewrite <- !app_assoc, read_rfc_int by (apply indexing_ok || lia).
    simpl. by rewrite read_hstr, read_hstr.
Qed.

Lemma matches_insert (malloc : Z -> bool) (d : hpack_dyn) (T : rfc_table) (n v : bytes) :
  alloc_ok malloc -> matches d T -> field_size (n, v) <= rt_max T ->
  matches (dyn_add malloc d n v) (rfc_insert (n, v) T).
Proof.
  intros Ha [Hf Hs Hm Hb] Hsz. destruct (dyn_add_keep malloc d n v Ha Hs) as (H1 & H2 & H3); [lia|].
  unfold rfc_insert. rewrite (proj2 (Z.ltb_ge _ _) Hsz). split; simpl; [|done|lia|done].
  rewrite H1, Hm, Hf. f_equal. apply take_keep_unbounded.
  pose proof (field_size_pos (n, v)). lia.
Qed.

Lemma matches_resize (d : hpack_dyn) (T : rfc_table) (m : Z) :
  matches d T -> 0 <= m <= rt_max T -> matches (dyn_set_max d m) (rfc_resize m T).
Proof.
  intros [Hf Hs Hm Hb] Hr. destruct (dyn_set_max_keep d m Hs) as (H1 & H2 & H3).
  split; simpl; [by rewrite H1, Hf | done | done | lia].
Qed.

(** Which branch a first byte takes. *)
Definition branch_part (b : Z) : bool :=
  Bool.eqb (negb (Z.land b 0x80 =? 0)) (128 <=? b) &&
  ((128 <=? b) || Bool.eqb (Z.land b 0xc0 =? 0x40) (64 <=? b)) &&
  ((64 <=? b) || Bool.eqb (Z.land b 0xe0 =? 0x20) (32 <=? b)) &&
  ((32 <=? b) || (Z.land b 0xf0 =? 0x00) || (Z.land b 0xf0 =? 0x10)).

Lemma byte_branch (b : Z) :
  byte_ok b ->
  negb (Z.land b 0x80 =? 0) = (128 <=? b) /\
  (b < 128 -> (Z.land b 0xc0 =? 0x40) = (64 <=? b)) /\
  (b < 64 -> (Z.land b 0xe0 =? 0x20) = (32 <=? b)) /\
  (b < 32 -> (Z.land b 0xf0 =? 0x00) || (Z.land b 0xf0 =? 0x10) = true).
Proof.
  intros H. pose proof (all_bytes branch_part ltac:(by vm_compute) b H) as Hb.
  unfold branch_part in Hb. rewrite !andb_true_iff in Hb. destruct Hb as [[[H1 H2] H3] H4].
  split_and!; [by apply Bool.eqb_prop | intros Hlt..].
  - rewrite (proj2 (Z.leb_gt 128 b) Hlt) in H2. by apply Bool.eqb_prop.
  - rewrite (proj2 (Z.leb_gt 64 b) Hlt) in H3. by apply Bool.eqb_prop.
  - by rewrite (proj2 (Z.leb_gt 32 b) Hlt) in H4.
Qed.

Lemma name_bytes_head (k : indexing) (n : name_ref) (tl : bytes) :
  name_ok n -> exists x tl', name_bytes k n ++ tl = (indexing_pattern k + x) :: tl' /\
    0 <= x < 2 ^ indexing_prefix k.
Proof.
  intros Hn. destruct n as [i|s]; simpl in *.
  - destruct (rfc_int_head _ _ i (indexing_ok k)) as (x & t & -> & Hx); [lia|]. eauto.
  - destruct (rfc_int_head _ _ 0 (indexing_ok k)) as (x & t & -> & Hx); [lia|]. eauto.
Qed.

(** One representation is one round of the decoder. *)
Lemma decode_rep (malloc : Z -> bool) (fuel : nat) (d : hpack_dyn) (T T' : rfc_table) (r : rep)
    (fs : list field) (rest : bytes) (acc : list hpack_field) (max : Z) :
  alloc_ok malloc -> matches d T -> rep_ok T r -> rfc_step T r = Some (T', fs) ->
  Z.of_nat (length acc) < max ->
  exists d', matches d' T' /\
    decode_loop malloc (S fuel) d (rep_bytes r ++ rest) acc max =
    decode_loop malloc fuel d' rest (acc ++ map decoded fs) max.
Proof.
  intros Ha Hm Hok Hstep Hacc. destruct r as [i|k n v|m]; simpl in Hok, Hstep.
  - assert (Hp : prefix_ok 7 0x80) by prefix.
    destruct (rfc_int_head 7 0x80 i Hp ltac:(lia)) as (x & tl & Hx & Hr). change (2 ^ 7) with 128 in Hr.
    destruct (rfc_lookup T i) as [f|] eqn:Hf; [|done]. simpl in Hstep. simplify_eq.
    exists d. split; [done|]. pose proof (read_rfc_int 7 0x80 i rest Hp Hok) as Hread.
    cbn [rep_bytes]. rewrite Hx in *. cbn [app decode_loop] in *. rewrite (proj2 (Z.leb_gt _ _) Hacc).
    destruct (byte_branch (128 + x)) as (-> & _); [unfold byte_ok; lia|].
    rewrite (proj2 (Z.leb_le 128 _)), Hread by lia.
    by rewrite (lookup_indexed malloc d T' i f) by (done || lia).
  - destruct Hok as (Hn & Hv & Hfit). destruct (rfc_name T n) as [name|] eqn:Hname; [|done].
    simpl in Hstep. simplify_eq.
    pose proof (read_literal malloc d T k n v name rest Ha Hm Hn Hv Hname) as Hread.
    destruct (name_bytes_head k n (hstr_bytes v ++ rest) Hn) as (x & tl & Hx & Hr).
    cbn [rep_bytes]. rewrite <- app_assoc in *. rewrite Hx in *. cbn [app decode_loop].
    rewrite (proj2 (Z.leb_gt _ _) Hacc).
    destruct (byte_branch (indexing_pattern k + x)) as (-> & Hc & Hu & Hl);
      [unfold byte_ok; destruct k; simpl in *; lia|].
    destruct k; simpl in Hr; cbn [indexing_pattern indexing_prefix] in *.
    + rewrite (proj2 (Z.leb_gt 128 _)), Hc, (proj2 (Z.leb_le 64 _)), Hread by lia.
      exists (dyn_add malloc d name (hstr_value v)). split; [|done]. apply matches_insert; auto.
    + exists d. split; [done|].
      rewrite (proj2 (Z.leb_gt 128 _)), Hc, (proj2 (Z.leb_gt 64 _)), Hu, (proj2 (Z.leb_gt 32 _)),
        Hl, Hread by lia. done.
    + exists d. split; [done|].
      rewrite (proj2 (Z.leb_gt 128 _)), Hc, (proj2 (Z.leb_gt 64 _)), Hu, (proj2 (Z.leb_gt 32 _)),
        Hl, Hread by lia. done.
  - assert (Hp : prefix_ok 5 0x20) by prefix. simplify_eq. destruct Hok as [Hmax Hm31].
    destruct (rfc_int_head 5 0x20 m Hp ltac:(lia)) as (x & tl & Hx & Hr). change (2 ^ 5) with 32 in Hr.
    exists (dyn_set_max d m). split; [by apply matches_resize|].
    pose proof (read_rfc_int 5 0x20 m rest Hp ltac:(lia)) as Hread.
    cbn [rep_bytes]. rewrite Hx in *. cbn [app decode_loop] in *. rewrite (proj2 (Z.leb_gt _ _) Hacc).
    destruct (byte_branch (32 + x)) as (-> & Hc & Hu & _); [unfold byte_ok; lia|].
    rewrite (proj2 (Z.leb_gt 128 _)), Hc, (proj2 (Z.leb_gt 64 _)), Hu, (proj2 (Z.leb_le 32 _)), Hread by lia.
    rewrite (mt_max _ _ Hm), (proj2 (Z.ltb_ge _ _)) by lia. simpl. by rewrite app_nil_r.
Qed.

Lemma rep_bytes_nonempty (T : rfc_table) (r : rep) : rep_ok T r -> (1 <= length (rep_bytes r))%nat.
Proof.
  destruct r as [i|k n v|m]; simpl; intros Hok.
  - destruct (rfc_int_head 7 0x80 i) as (x & tl & -> & _); [prefix | lia | simpl; lia].
  - destruct (name_bytes_head k n (hstr_bytes v)) as (x & tl & -> & _); [apply Hok | simpl; lia].
  - destruct (rfc_int_head 5 0x20 m) as (x & tl & -> & _); [prefix | lia | simpl; lia].
Qed.

Lemma decode_reps (malloc : Z -> bool) (rs : list rep) (fuel : nat) (d : hpack_dyn) (T T' : rfc_table)
    (fs : list field) (acc : list hpack_field) (max : Z) :
  alloc_ok malloc -> matches d T -> reps_ok T rs -> rfc_run T rs = Some (T', fs) ->
  (length (concat (map rep_bytes rs)) <= fuel)%nat -> Z.of_nat (length acc + length rs) <= max ->
  exists d', matches d' T' /\
    decode_loop malloc fuel d (concat (map rep_bytes rs)) acc max = (d', Some (acc ++ map decoded fs)).
Proof.
  intros Ha. revert fuel d T fs acc.
  induction rs as [|r rs IH]; intros fuel d T fs acc Hm Hok Hrun Hfuel Hmax; simpl in *.
  - simplify_eq. exists d. split; [done|]. rewrite app_nil_r. by destruct fuel.
  - destruct Hok as [Hr Hok]. destruct (rfc_step T r) as [[T1 fs1]|] eqn:Es; [|done].
    destruct (rfc_run T1 rs) as [[T2 fs2]|] eqn:Er; [|done]. simpl in Hrun. simplify_eq.
    pose proof (rep_bytes_nonempty T r Hr). rewrite length_app in Hfuel.
    destruct fuel as [|fuel]; [lia|].
    destruct (decode_rep malloc fuel d T T1 r fs1 (concat (map rep_bytes rs)) acc max Ha Hm Hr Es)
      as (d1 & Hm1 & ->); [lia|].
    assert (Hfs : (length fs1 <= 1)%nat).
    { destruct r; simpl in Es; [destruct (rfc_lookup T i) | destruct (rfc_name T n) |];
        simpl in Es; simplify_eq; simpl; lia. }
    destruct (IH fuel d1 T1 fs2 (acc ++ map decoded fs1)) as (d' & Hm' & ->);
      [done | done | done | lia | rewrite length_app, length_map; lia|].
    exists d'. by rewrite map_app, app_assoc.
Qed.

(** C27: header blocks.  A block built from any representations of RFC 7541
    (indexed fields, literals with or without indexing, names by index or by
    text, raw or Huffman-coded strings, table size updates), at most 32 of
    them, is decoded to exactly the fields the standard assigns to it, in
    order, and leaves the code's dynamic table equal to the standard's, so
    the next block starts from agreeing tables.  The standard's meaning is
    assumed to exist, and two things it allows are excluded: an indexed field
    larger than the table, and a size update above the current size. *)
Theorem decode_block_follows_rfc (malloc : Z -> bool) (d : hpack_dyn) (T T' : rfc_table)
    (rs : list rep) (fs : list field) :
  alloc_ok malloc -> matches d T -> reps_ok T rs -> rfc_run T rs = Some (T', fs) ->
  (length rs <= 32)%nat ->
  exists d', matches d' T' /\
    hpack_decode_block malloc d (concat (map rep_bytes rs)) 32 = (d', Some (map decoded fs)).
Proof.
  intros Ha Hm Hok Hrun Hlen. unfold hpack_decode_block.
  destruct (decode_reps malloc rs (length (concat (map rep_bytes rs))) d T T' fs [] 32) as (d' & H1 & H2);
    (done || (simpl; lia) || eauto).
Qed.

Lemma decode_block_follows_rfc_witness :
  exists d', matches d' (RfcTable [(lit "cache-control", lit "no-cache"); (lit ":authority", lit "www")] 4096) /\
    hpack_decode_block (fun _ => true) dyn_reset
      (concat (map rep_bytes [Indexed 2; Literal Incremental (ByIndex 1) (Raw (lit "www"));
         Literal Incremental (ByIndex 24) (Huff [0xa8; 0xeb; 0x10; 0x64; 0x9c; 0xbf] (lit "no-cache"));
         Indexed 62])) 32 =
    (d', Some (map decoded [(lit ":method", lit "GET"); (lit ":authority", lit "www");
       (lit "cache-control", lit "no-cache"); (lit "cache-control", lit "no-cache")])).
Proof.
  apply (decode_block_follows_rfc (fun _ => true) dyn_reset (RfcTable [] 4096)); [done | | | |].
  - split; [done | split; [constructor | done] | done | simpl; lia].
  - assert (Hh : huff_encodes (all_bits [0xa8; 0xeb; 0x10; 0x64; 0x9c; 0xbf]) (lit "no-cache")).
    { apply (huff_decode_iff _ _ 49); [lia | by vm_compute]. }
    cbn [reps_ok rep_ok name_ok hstr_ok]. split_and!; try lia; try done; try by vm_compute.
    all: repeat (simpl; split_and!); try done; try lia; try (change (bytes_ok (lit "no-cache")); apply lit_bytes_ok);
      try (intros _ ? [= <-]; by vm_compute).
  - by vm_compute.
  - simpl. lia.
Defined.

(** Two departures from the standard, at concrete inputs.  Indexing a field
    larger than the table should empty the table; the code keeps it.  Raising
    the table size back to the advertised 4096 after a reduction is allowed;
    the code refuses it. *)
Lemma oversized_field_keeps_table :
  let d := dyn_set_max (dyn_add (fun _ => true) dyn_reset (lit "a") (lit "b")) 64 in
  let d' := dyn_add (fun _ => true) d (lit "containerd-namespace") (lit "the-namespace") in
  newest d' = [(lit "a", lit "b")] /\
  rt_fields (rfc_insert (lit "containerd-namespace", lit "the-namespace") (RfcTable (newest d) 64)) = [] /\
  (hpack_decode_block (fun _ => true) dyn_reset (concat (map rep_bytes [SizeUpdate 0; SizeUpdate 4096])) 32).2
    = None.
Proof. by vm_compute. Qed.

(** ** The encoder *)
Lemma position_Some {A} (f : A -> bool) (i : Z) (l : list A) :
  0 < i -> position f i l <> 0 ->
  exists x, l !! Z.to_nat (position f i l - i) = Some x /\ f x = true /\
    i <= position f i l < i + Z.of_nat (length l).
Proof.
  revert i. induction l as [|y l IH]; intros i Hi; simpl; [done|].
  destruct (f y) eqn:E.
  - intros _. exists y. rewrite Z.sub_diag. simpl. split_and!; [done | done | lia | lia].
  - intros Hne. destruct (IH (i + 1) ltac:(lia) Hne) as (x & Hx & Hf & Hr).
    exists x. split_and!; [|done | lia | lia].
    replace (Z.to_nat (position f (i + 1) l - i)) with (S (Z.to_nat (position f (i + 1) l - (i + 1)))) by lia.
    done.
Qed.

Lemma mem_eq_true (a b : bytes) : mem_eq a b = true -> a = b.
Proof. apply bool_decide_eq_true. Qed.

(** The encoder's table holds the newest fields of the peer's. *)
Record synced (d : hpack_dyn) (T : rfc_table) : Prop := Synced {
  sy_fields : newest d `prefix_of` rt_fields T;
  sy_sized : sized d;
  sy_max : dy_max_size d = rt_max T;
  sy_range : 0 <= rt_max T < 2 ^ 32;
  sy_count : (length (newest d) <= 128)%nat;
}.

Lemma newest_position (f : field -> bool) (d : hpack_dyn) :
  position (fun e => f (entry_field e)) 1 (rev (dy_entries d)) = position f 1 (newest d).
Proof.
  unfold newest. generalize 1. induction (rev (dy_entries d)) as [|e l IH]; intros i; simpl; [done|].
  by rewrite IH.
Qed.

(** An index computed from either table is valid at the peer. *)
Lemma static_lookup (f : field -> bool) (T : rfc_table) :
  position f 1 HPACK_STATIC <> 0 ->
  exists x, rfc_lookup T (position f 1 HPACK_STATIC) = Some x /\ f x = true /\
    1 <= position f 1 HPACK_STATIC <= 61.
Proof.
  intros Hne. destruct (position_Some f 1 HPACK_STATIC ltac:(lia) Hne) as (x & Hx & Hf & Hr).
  rewrite static_length in Hr. exists x. split_and!; [|done | lia | lia].
  unfold rfc_lookup. rewrite (proj2 (Z.leb_gt _ 0)), (proj2 (Z.leb_le _ 61)) by lia. done.
Qed.

Lemma dynamic_lookup (f : field -> bool) (d : hpack_dyn) (T : rfc_table) :
  synced d T -> position f 1 (newest d) <> 0 ->
  exists x, rfc_lookup T (61 + position f 1 (newest d)) = Some x /\ f x = true /\
    62 <= 61 + position f 1 (newest d) <= 189.
Proof.
  intros Hs Hne. destruct (position_Some f 1 (newest d) ltac:(lia) Hne) as (x & Hx & Hf & Hr).
  pose proof (sy_count _ _ Hs). exists x. split_and!; [|done | lia | lia].
  unfold rfc_lookup. rewrite (proj2 (Z.leb_gt _ 0)), (proj2 (Z.leb_gt _ 61)) by lia.
  replace (61 + position f 1 (newest d) - 62) with (position f 1 (newest d) - 1) by lia.
  eapply prefix_lookup_Some; [done | apply Hs].
Qed.

Lemma synced_insert (malloc : Z -> bool) (d : hpack_dyn) (T : rfc_table) (n v : bytes) :
  alloc_ok malloc -> synced d T -> field_size (n, v) <= rt_max T ->
  synced (dyn_add malloc d n v) (rfc_insert (n, v) T).
Proof.
  intros Ha [Hf Hs Hm Hb Hc] Hsz. destruct (dyn_add_keep malloc d n v Ha Hs) as (H1 & H2 & H3); [lia|].
  unfold rfc_insert. rewrite (proj2 (Z.ltb_ge _ _) Hsz). split; simpl; [|done|lia|done|].
  - rewrite H1, Hm. apply prefix_cons. by apply take_keep_prefix.
  - rewrite H1. cbn [length].
    destruct (take_keep_bounds 127 (dy_max_size d - field_size (n, v)) (newest d)); lia.
Qed.

(** The peer lowers or raises its table: the next block announces it. *)
Lemma synced_resize (d : hpack_dyn) (T : rfc_table) (m : Z) :
  synced d T -> 0 <= m < 2 ^ 32 -> synced (dyn_set_max d m) (rfc_resize m T).
Proof.
  intros [Hf Hs Hm Hb Hc] Hr. destruct (dyn_set_max_keep d m Hs) as (H1 & H2 & H3).
  split; simpl; [|done|done|done|].
  - rewrite H1. by apply take_keep_prefix.
  - rewrite H1. destruct (take_keep_bounds (length (newest d)) m (newest d)); [lia|]. unfold rfc_fit. lia.
Qed.

Lemma rfc_int_length (n pattern i : Z) : (1 <= length (rfc_int n pattern i) <= 6)%nat.
Proof.
  assert (Ht : forall fuel i, (length (rfc_int_tail fuel i) <= fuel)%nat).
  { intros fuel. induction fuel as [|fuel IH]; intros j; simpl; [lia|].
    destruct (j <? 128); simpl; [lia|]. specialize (IH (j / 128)). lia. }
  unfold rfc_int. destruct (_ <? _); [simpl; lia|]. cbn [length]. specialize (Ht 5%nat (i - (2 ^ n - 1))). lia.
Qed.

Lemma write_raw (cap : Z) (s : bytes) :
  strlen s < 2 ^ 31 -> 6 + strlen s <= cap -> hpack_write_string cap s = hstr_bytes (Raw s).
Proof.
  intros Hs Hcap. unfold hpack_write_string, hpack_write_int. unfold strlen in *.
  rewrite wrap_small, write_rfc_int by (prefix || lia).
  pose proof (rfc_int_length 7 0 (Z.of_nat (length s))).
  rewrite (proj2 (Z.eqb_neq _ 0)), (proj2 (Z.ltb_ge cap _)) by lia. done.
Qed.

Lemma raw_length (s : bytes) : 1 <= strlen (hstr_bytes (Raw s)) <= 6 + strlen s.
Proof.
  cbn [hstr_bytes]. pose proof (rfc_int_length 7 0 (strlen s)). unfold strlen in *. rewrite length_app. lia.
Qed.

(** The index the encoder computes for a field or a name. *)
Definition idx_or (a b : Z) : Z := if a =? 0 then if b =? 0 then 0 else 61 + b else a.

Definition find_idx (f : field -> bool) (d : hpack_dyn) : Z :=
  idx_or (position f 1 HPACK_STATIC) (position f 1 (newest d)).

Lemma find_idx_lookup (f : field -> bool) (d : hpack_dyn) (T : rfc_table) :
  synced d T -> 0 <= find_idx f d < 2 ^ 31 /\
  (find_idx f d <> 0 -> exists x, rfc_lookup T (find_idx f d) = Some x /\ f x = true).
Proof.
  intros Hs. unfold find_idx, idx_or. destruct (position f 1 HPACK_STATIC =? 0) eqn:E1; bool_props.
  - destruct (position f 1 (newest d) =? 0) eqn:E2; [split; [lia | done]|]. bool_props.
    destruct (dynamic_lookup f d T Hs E2) as (x & Hl & Hf & Hr). split; [lia | by exists x].
  - destruct (static_lookup f T E1) as (x & Hl & Hf & Hr). split; [lia | by exists x].
Qed.

(** The encoder in terms of these indices. *)
Lemma encode_field_eq (malloc : Z -> bool) (d : hpack_dyn) (cap : Z) (n v : cstring) :
  hpack_encode_field malloc d cap n v =
  let pair := find_idx (fun e => mem_eq e.1 n && mem_eq e.2 v) d in
  let name := find_idx (fun e => mem_eq e.1 n) d in
  if negb (pair =? 0) then (hpack_write_int_ex cap pair 7 0x80, d)
  else
    let w := hpack_write_int_ex cap name 6 0x40 in
    if strlen w =? 0 then ([], d)
    else
      let w := if negb (name =? 0) then w else w ++ hpack_write_string (cap - strlen w) n in
      (w ++ hpack_write_string (cap - strlen w) v, dyn_add malloc d n v).
Proof. unfold find_idx. rewrite <- !newest_position. done. Qed.

Lemma encode_literal (cap idx : Z) (n v : cstring) :
  0 <= idx < 2 ^ 31 -> strlen n + strlen v < 2 ^ 20 -> 18 + strlen n + strlen v <= cap ->
  let w := hpack_write_int_ex cap idx 6 0x40 in
  let w' := if negb (idx =? 0) then w else w ++ hpack_write_string (cap - strlen w) n in
  let r := Literal Incremental (if idx =? 0 then ByName (Raw n) else ByIndex idx) (Raw v) in
  (strlen w =? 0) = false /\ w' ++ hpack_write_string (cap - strlen w') v = rep_bytes r /\
  1 <= strlen (rep_bytes r) <= 18 + strlen n + strlen v.
Proof.
  intros Hi Hlen Hcap. assert (Hn : 0 <= strlen n) by (unfold strlen; lia).
  assert (Hv : 0 <= strlen v) by (unfold strlen; lia). cbv zeta.
  rewrite write_rfc_int by (prefix || lia).
  assert (Hil : 1 <= strlen (rfc_int 6 0x40 idx) <= 6)
    by (pose proof (rfc_int_length 6 0x40 idx); unfold strlen; lia).
  pose proof (raw_length n) as Hrn. pose proof (raw_length v) as Hrv.
  split; [apply Z.eqb_neq; lia|].
  destruct (idx =? 0) eqn:E0; cbn [negb rep_bytes name_bytes indexing_prefix indexing_pattern]; bool_props.
  - rewrite (write_raw _ n) by lia. rewrite write_raw by (rewrite ?strlen_app; lia).
    rewrite E0 in *. split; [done|]. rewrite !strlen_app. lia.
  - rewrite write_raw by lia. split; [done|]. rewrite strlen_app. lia.
Qed.

Lemma encode_field_rep (malloc : Z -> bool) (d : hpack_dyn) (T : rfc_table) (cap : Z) (n v : cstring) :
  alloc_ok malloc -> synced d T -> field_size (n, v) <= rt_max T ->
  strlen n + strlen v < 2 ^ 20 -> 18 + strlen n + strlen v <= cap ->
  exists r T', (hpack_encode_field malloc d cap n v).1 = rep_bytes r /\
    rfc_step T r = Some (T', [(n, v)]) /\ synced (hpack_encode_field malloc d cap n v).2 T' /\
    1 <= strlen (rep_bytes r) <= 18 + strlen n + strlen v.
Proof.
  intros Ha Hs Hsz Hlen Hcap. rewrite encode_field_eq. cbv zeta.
  set (fp := fun e : field => mem_eq e.1 n && mem_eq e.2 v). set (fn := fun e : field => mem_eq e.1 n).
  assert (Hn : 0 <= strlen n) by (unfold strlen; lia). assert (Hv : 0 <= strlen v) by (unfold strlen; lia).
  destruct (find_idx_lookup fp d T Hs) as [Hpr Hp]. destruct (find_idx_lookup fn d T Hs) as [Hnr Hnm].
  destruct (find_idx fp d =? 0) eqn:Ep; cbn [negb]; bool_props.
  - destruct (encode_literal cap (find_idx fn d) n v Hnr Hlen Hcap) as (-> & Hw & Hr).
    eexists _, (rfc_insert (n, v) T). cbn [fst snd].
    split_and!; [exact Hw | | by apply synced_insert | lia | lia].
    destruct (find_idx fn d =? 0) eqn:E0; [done|]. bool_props.
    destruct (Hnm E0) as ([n' w] & Hl & Hf%mem_eq_true). simpl in *. by rewrite Hl, Hf.
  - destruct (Hp Ep) as ([n' w] & Hl & Hf). unfold fp in Hf. bool_props.
    apply mem_eq_true in H, H0. simpl in H, H0. subst n' w.
    exists (Indexed (find_idx fp d)), T. cbn [fst snd rep_bytes].
    rewrite write_rfc_int by (prefix || lia). simpl. rewrite Hl.
    pose proof (rfc_int_length 7 0x80 (find_idx fp d)). unfold strlen in *.
    split_and!; [done | done | done | lia | lia].
Qed.

(** ** Request headers *)

Fixpoint fields_length (l : list field) : Z :=
  match l with [] => 0 | f :: l' => 18 + strlen f.1 + strlen f.2 + fields_length l' end.

Lemma encode_fields_reps (malloc : Z -> bool) (cap : Z) (fs : list field) (d : hpack_dyn) (T : rfc_table)
    (out : bytes) :
  alloc_ok malloc -> synced d T -> Forall (fun f => field_size f <= rt_max T) fs ->
  strlen out + fields_length fs <= cap -> cap < 2 ^ 20 ->
  exists rs T' d', encode_fields malloc d cap out fs = (d', Some (out ++ concat (map rep_bytes rs))) /\
    rfc_run T rs = Some (T', fs) /\ synced d' T' /\ rt_max T' = rt_max T.
Proof.
  intros Ha. revert d T out. induction fs as [|[n v] fs IH]; intros d T out Hs Hf Hc Hcap; simpl in *.
  - exists [], T, d. simpl. by rewrite app_nil_r.
  - apply Forall_cons in Hf as [Hf1 Hf].
    assert (Hpos : 0 <= fields_length fs).
    { clear. induction fs as [|f fs IH]; simpl; [lia|]. unfold strlen. lia. }
    assert (Hso : 0 <= strlen out) by (unfold strlen; lia).
    destruct (encode_field_rep malloc d T (cap - strlen out) n v Ha Hs Hf1) as (r & T1 & Hb & Hst & Hs1 & Hl);
      [unfold strlen in *; lia | lia |].
    destruct (hpack_encode_field malloc d (cap - strlen out) n v) as [w d1]. simpl in Hb, Hs1. subst w.
    rewrite (proj2 (Z.eqb_neq _ 0)) by lia.
    assert (Hmax : rt_max T1 = rt_max T).
    { destruct r; simpl in Hst; [destruct (rfc_lookup T i) | destruct (rfc_name T n0) |]; simpl in Hst;
        simplify_eq; try done. destruct k; try done. unfold rfc_insert. by destruct (_ <? _). }
    destruct (IH d1 T1 (out ++ rep_bytes r)) as (rs & T2 & d2 & -> & Hrun & Hs2 & Hm2);
      [done | by rewrite Hmax | rewrite strlen_app; lia | done |].
    exists (r :: rs), T2, d2. simpl. rewrite Hst, Hrun, <- app_assoc. simpl. split_and!; (done || congruence).
Qed.

Lemma rfc_run_app (a b : list rep) (T : rfc_table) :
  rfc_run T (a ++ b) =
  match rfc_run T a with
  | Some (T1, fs) => (fun '(T2, fs') => (T2, fs ++ fs')) <$> rfc_run T1 b
  | None => None
  end.
Proof.
  revert T. induction a as [|r a IH]; intros T; simpl; [destruct (rfc_run T b) as [[]|]; done|].
  destruct (rfc_step T r) as [[T1 fs]|]; [|done]. rewrite IH.
  destruct (rfc_run T1 a) as [[T2 fs2]|]; [|done]. simpl.
  destruct (rfc_run T2 b) as [[T3 fs3]|]; simpl; [by rewrite app_assoc | done].
Qed.

(** request headers.  Whenever the encoder's table holds the newest
    fields of the peer's table (its own size limit and entry limit may make
    it keep fewer), and the path and the namespace have at most 800 bytes
    together, the block [build_request_headers] writes is a block of RFC 7541
    representations that means exactly :method POST, :scheme http, the path,
    the authority, content-type, te, user-agent and the containerd namespace;
    a pending table-size change is announced first; and the tables agree
    again afterwards, so every later request is decoded correctly too.  The
    fields must fit the table the peer allows. *)
Theorem request_headers_decode (malloc : Z -> bool) (d : hpack_dyn) (update : bool) (T : rfc_table)
    (ns path : cstring) :
  alloc_ok malloc -> 0 <= dy_max_size d < 2 ^ 32 ->
  synced d (if update then rfc_resize (dy_max_size d) T else T) ->
  Forall (fun f => field_size f <= dy_max_size d) (request_fields ns path) ->
  strlen path + strlen ns <= 800 ->
  exists rs T' d',
    build_request_headers malloc d update ns path H2C_REQ_HDR_BLOCK =
      (d', false, Some (concat (map rep_bytes rs))) /\
    rfc_run T rs = Some (T', (lit ":method", lit "POST") :: (lit ":scheme", lit "http") ::
                             request_fields ns path) /\
    synced d' T'.
Proof.
  intros Ha Hm Hs Hf Hlen. set (T0 := if update then rfc_resize (dy_max_size d) T else T) in *.
  set (pre := if update then [SizeUpdate (dy_max_size d)] else []).
  assert (Hpre : rfc_run T pre = Some (T0, [])) by (subst pre T0; by destruct update).
  set (out := concat (map rep_bytes pre)).
  assert (Hout : strlen out <= 6).
  { subst out pre. destruct update; [|unfold strlen; simpl; lia].
    cbn [map concat]. rewrite app_nil_r. unfold strlen. cbn [rep_bytes].
    pose proof (rfc_int_length 5 0x20 (dy_max_size d)). lia. }
  destruct (encode_fields_reps malloc 1024 (request_fields ns path) d T0
              ((out ++ rep_bytes (Indexed 3)) ++ rep_bytes (Indexed 6))) as (rs & T' & d' & Henc & Hrun & Hs' & _);
    [done | done | by rewrite <- (sy_max _ _ Hs) | | lia |].
  { rewrite !strlen_app. unfold request_fields. cbn [fields_length fst snd].
    change (strlen (rep_bytes (Indexed 3))) with 1. change (strlen (rep_bytes (Indexed 6))) with 1.
    repeat match goal with |- context [strlen (lit ?s)] =>
      let k := eval vm_compute in (strlen (lit s)) in change (strlen (lit s)) with k end. lia. }
  exists (pre ++ Indexed 3 :: Indexed 6 :: rs), T', d'. split_and!; [| |done].
  - assert (Hp : (if update then
                    let w := hpack_write_int_ex (H2C_REQ_HDR_BLOCK - strlen []) (u32 (dy_max_size d)) 5 0x20 in
                    if strlen w =? 0 then None else Some ([] ++ w)
                  else Some []) = Some out).
    { subst out pre. destruct update; [|done]. cbn [map concat rep_bytes app]. rewrite app_nil_r.
      rewrite wrap_small, write_rfc_int by (prefix || lia || (unfold strlen, H2C_REQ_HDR_BLOCK; simpl; lia)).
      pose proof (rfc_int_length 5 0x20 (dy_max_size d)). cbv zeta. unfold strlen.
      by rewrite (proj2 (Z.eqb_neq _ 0)) by lia. }
    assert (Hput : forall o i, strlen o <= 1000 -> 0 <= i < 127 ->
              hpack_write_int_ex (H2C_REQ_HDR_BLOCK - strlen o) i 7 0x80 = rep_bytes (Indexed i)).
    { intros o i Ho Hi. apply write_rfc_int; [prefix | lia | unfold H2C_REQ_HDR_BLOCK; lia]. }
    unfold build_request_headers. cbv zeta in Hp |- *. rewrite Hp, !Hput by (rewrite ?strlen_app; simpl; lia).
    change (strlen (rep_bytes (Indexed 3)) =? 0) with false. cbv iota.
    rewrite Hput by (rewrite ?strlen_app; change (strlen (rep_bytes (Indexed 3))) with 1; lia).
    change (strlen (rep_bytes (Indexed 6)) =? 0) with false. cbv iota.
    unfold H2C_REQ_HDR_BLOCK. rewrite Henc. by rewrite map_app, concat_app, <- !app_assoc.
  - rewrite rfc_run_app, Hpre. simpl. by rewrite Hrun.
Qed.

Lemma request_headers_decode_witness :
  exists rs T' d',
    build_request_headers (fun _ => true) dyn_reset false (lit "default") (lit "/a.B/Get") 1024 =
      (d', false, Some (concat (map rep_bytes rs))) /\
    rfc_run (RfcTable [] 4096) rs =
      Some (T', (lit ":method", lit "POST") :: (lit ":scheme", lit "http") ::
                request_fields (lit "default") (lit "/a.B/Get")) /\
    synced d' T'.
Proof.
  apply (request_headers_decode (fun _ => true) dyn_reset false (RfcTable [] 4096)); [done | by vm_compute | | |].
  - split; [apply prefix_nil | split; [constructor | done] | done | by vm_compute | by vm_compute; lia].
  - repeat constructor; by vm_compute.
  - by vm_compute.
Defined.

(** A field whose text does not fit the block is cut short without an error:
    here "te: trailers" with three bytes left. *)
Lemma field_without_room_is_truncated :
  hpack_encode_field (fun _ => true) dyn_reset 3 (lit "te") (lit "trailers") =
    ([0x40], dyn_add (fun _ => true) dyn_reset (lit "te") (lit "trailers")).
Proof. by vm_compute. Qed.
