(* ===== verification/HpackSafe.v ===== *)
(** * The HPACK tables stay within their bounds (containerd/h2c.c)

    Whatever block arrives and whichever allocations fail, the dynamic table's
    accounting is exact, its size is at most the maximum and its entries fit
    the array of 128. *)

From S2P Require Import Prelude Huffman Hpack HpackFacts.

Record table_wf (d : hpack_dyn) : Prop := TableWf {
  tw_sized : sized d;
  tw_max : 0 <= dy_max_size d;
  tw_fits : dy_size d <= dy_max_size d;
  tw_count : dy_count d <= H2C_DYN_MAX_ENTRIES;
}.

Lemma table_wf_reset : table_wf dyn_reset.
Proof. repeat split; (done || apply Forall_nil || (vm_compute; congruence)). Qed.

Lemma dyn_set_max_wf (d : hpack_dyn) (m : Z) : table_wf d -> 0 <= m -> table_wf (dyn_set_max d m).
Proof.
  intros [Hs _ _ Hc] Hm. destruct (dyn_set_max_keep d m Hs) as (Hn & Hs' & Hm').
  destruct (take_keep_bounds (length (newest d)) m (newest d) Hm) as [Hb Hl].
  fold (rfc_fit m (newest d)) in Hb, Hl. rewrite <- Hn in Hb, Hl. rewrite !newest_length in Hl.
  split; [done | lia | rewrite (sz_total _ Hs'); lia |]. unfold dy_count in *. lia.
Qed.

(** Evicting makes no table worse. *)
Lemma evict_one_wf (d : hpack_dyn) : table_wf d -> table_wf (dyn_evict_one d).
Proof.
  intros [Hs Hm Hf Hc]. assert (Hs' := sized_evict d Hs). pose proof (sz_entries _ Hs) as Hall.
  destruct d as [[|e es] s m]; [done|]. unfold dyn_evict_one, dy_count in *. simpl in *.
  apply Forall_cons in Hall as [He _]. pose proof (field_size_pos (entry_field e)).
  split; simpl; [done | done | lia | unfold dy_count; simpl; lia].
Qed.

Lemma evict_while_wf (fuel : nat) (cond : hpack_dyn -> bool) (d : hpack_dyn) :
  table_wf d -> table_wf (evict_while fuel cond d).
Proof.
  revert d. induction fuel as [|fuel IH]; intros d Hw; simpl; [done|].
  destruct (cond d); [by apply IH, evict_one_wf | done].
Qed.

Section Decoder.
Context (malloc : Z -> bool).

Lemma dyn_add_wf (d : hpack_dyn) (n v : bytes) : table_wf d -> table_wf (dyn_add malloc d n v).
Proof.
  intros Hw. unfold dyn_add. destruct (_ <? _); [done|].
  apply (evict_while_wf (length (dy_entries d)) (no_room (strlen n + strlen v + 32))) in Hw.
  set (d' := evict_while _ _ d) in *. destruct (no_room _ d') eqn:Hr; [done|].
  destruct (_ || _); [done|]. destruct Hw as [[He Ht] Hm Hf Hc].
  apply orb_false_iff in Hr as [Hr1 Hr2]. unfold dy_count, H2C_DYN_MAX_ENTRIES in *.
  apply Z.ltb_ge in Hr1. apply Z.leb_gt in Hr2. split; simpl; [split; simpl | lia | lia |].
  - apply Forall_app. split; [done|]. by repeat constructor.
  - unfold newest in *. simpl. rewrite rev_app_distr, Ht. simpl. unfold field_size. simpl. lia.
  - unfold dy_count, H2C_DYN_MAX_ENTRIES. simpl. rewrite length_app. simpl. lia.
Qed.

Lemma read_int_loop_nonneg (rest rest' : bytes) (value shift x : Z) :
  0 <= value -> 0 <= shift -> read_int_loop rest value shift = Some (x, rest') -> 0 <= x.
Proof.
  revert value shift. induction rest as [|b rest IH]; intros value shift Hv Hs; simpl; [done|].
  assert (0 <= Z.shiftl (Z.land b 127) shift).
  { apply Z.shiftl_nonneg, Z.land_nonneg. lia. }
  destruct (_ =? 0); [destruct (_ <? _); [done|]; intros [= <- <-]; lia|].
  destruct (_ <? _); [done|]. apply IH; lia.
Qed.

Lemma read_int_nonneg (input rest : bytes) (prefix x : Z) :
  0 <= prefix -> hpack_read_int input prefix = Some (x, rest) -> 0 <= x.
Proof.
  intros Hp. unfold hpack_read_int. destruct input as [|b input]; [done|].
  assert (Hm : 0 <= Z.shiftl 1 prefix - 1) by (rewrite Z.shiftl_mul_pow2 by lia; lia).
  assert (0 <= Z.land b (Z.shiftl 1 prefix - 1)) by (apply Z.land_nonneg; lia).
  destruct (_ <? _); [intros [= <- <-]; lia|]. by apply read_int_loop_nonneg.
Qed.

(** A field has its name and its value, if memory did not run out. *)
Definition present (f : hpack_field) : Prop :=
  alloc_ok malloc -> is_Some (f_name f) /\ is_Some (f_value f).

Lemma indexed_present (d : hpack_dyn) (i : Z) (f : hpack_field) :
  indexed_field malloc d i = Some f -> present f.
Proof.
  unfold indexed_field. intros H Ha. destruct (_ && _).
  - destruct (HPACK_STATIC !! _) as [[n v]|]; [|done]. injection H as <-. unfold strdup. rewrite !Ha. by eauto.
  - destruct (dyn_get _ _); [|done]. destruct (copy_of _ _); [|done]. destruct (copy_of _ _); [|done].
    injection H as <-. by eauto.
Qed.

Lemma literal_present (n v : bytes) : present (literal n v).
Proof. intros _. by eauto. Qed.

Lemma decode_loop_wf (fuel : nat) (d d' : hpack_dyn) (input : bytes) (fields : list hpack_field) (max : Z)
    (r : option (list hpack_field)) :
  table_wf d -> Forall present fields -> decode_loop malloc fuel d input fields max = (d', r) ->
  table_wf d' /\ (forall fs, r = Some fs -> Forall present fs).
Proof.
  assert (Hsnoc : forall fs f, Forall present fs -> present f -> Forall present (fs ++ [f])).
  { intros. apply Forall_app. split; [done | by apply Forall_singleton]. }
  revert d input fields. induction fuel as [|fuel IH]; intros d input fields Hw Hp; destruct input as [|b input].
  1-3: simpl; intros [= <- <-]; split; [done|]; intros fs [= <-]; done.
  cbn [decode_loop]. destruct (_ <=? _); [by intros [= <- <-]|].
  destruct (negb _).
  { destruct (hpack_read_int _ _) as [[i rest]|]; [|by intros [= <- <-]].
    destruct (indexed_field _ _ _) as [f|] eqn:Ef; [|by intros [= <- <-]].
    apply IH; [done|]. apply Hsnoc; [done | by apply indexed_present in Ef]. }
  destruct (_ =? _).
  { destruct (literal_field _ _ _ _) as [[[n v] rest]|]; [|by intros [= <- <-]].
    apply IH; [by apply dyn_add_wf|]. apply Hsnoc; [done | apply literal_present]. }
  destruct (_ =? _).
  { destruct (hpack_read_int _ _) as [[m rest]|] eqn:Er; [|by intros [= <- <-]].
    apply read_int_nonneg in Er; [|lia]. destruct (_ <? _); [by intros [= <- <-]|].
    apply IH; [by apply dyn_set_max_wf | done]. }
  destruct (_ || _); [|by intros [= <- <-]].
  destruct (literal_field _ _ _ _) as [[[n v] rest]|]; [|by intros [= <- <-]].
  apply IH; [done|]. apply Hsnoc; [done | apply literal_present].
Qed.

Lemma decode_block_wf (d d' : hpack_dyn) (input : bytes) (max : Z) (r : option (list hpack_field)) :
  table_wf d -> hpack_decode_block malloc d input max = (d', r) ->
  table_wf d' /\ (forall fs, r = Some fs -> Forall present fs).
Proof. intros Hw. by apply decode_loop_wf. Qed.

(** ** The encoder *)
Lemma encode_field_wf (d : hpack_dyn) (cap : Z) (n v : cstring) :
  table_wf d -> table_wf (hpack_encode_field malloc d cap n v).2.
Proof.
  intros Hw. unfold hpack_encode_field. cbv zeta. destruct (negb _); [done|]. destruct (_ =? _); [done|].
  by apply dyn_add_wf.
Qed.

Lemma encode_fields_wf (fields : list (cstring * cstring)) (d : hpack_dyn) (cap : Z) (out : bytes) :
  table_wf d -> table_wf (encode_fields malloc d cap out fields).1.
Proof.
  revert d out. induction fields as [|[n v] fields IH]; intros d out Hw; simpl; [done|].
  pose proof (encode_field_wf d (cap - strlen out) n v Hw).
  destruct (hpack_encode_field _ _ _ _ _) as [w d']. destruct (_ =? _); [done | by apply IH].
Qed.

Lemma build_headers_wf (d : hpack_dyn) (u : bool) (ns path : cstring) (cap : Z) :
  table_wf d -> table_wf (build_request_headers malloc d u ns path cap).1.1.
Proof.
  intros Hw. unfold build_request_headers.
  repeat match goal with |- context [match ?x with Some _ => _ | None => _ end] => destruct x; [|done] end.
  match goal with |- context [encode_fields _ d cap ?out ?fs] =>
    pose proof (encode_fields_wf fs d cap out Hw); by destruct (encode_fields _ _ _ _ _) end.
Qed.

End Decoder.
