(* ===== verification/H2cState.v ===== *)
(** * The HTTP/2 connection: state (containerd/h2c.c, h2c.h)

    Constants, the frame reader, streams and the connection.

    The outside world is part of the connection's state ([io]): what [read],
    [send] and [poll] report, in order, and how often the clock was read.  An
    exhausted list stands for a socket with nothing to read, one that accepts
    every byte, and a poll that times out.

    A stream pointer is its index in the [streams] array.  Windows are
    [int32_t]: where the C arithmetic overflows, copies past a buffer or
    follows a NULL pointer, the behaviour is undefined, and [c_undefined]
    records that; what the model does afterwards is then meaningless. *)

From S2P Require Import Prelude MiniPb Huffman Hpack.

(** ** Constants *)

Definition H2C_MAX_STREAMS : nat := 8.
Definition H2C_HDR_BLOCK_MAX : Z := 64 * 1024.
Definition H2C_FRAME_BUDGET : nat := 128.
Definition H2C_MAX_FIELDS : Z := 32.
Definition H2C_DATA_BUF : Z := 16384 + 5.
Definition H2C_QUEUE_MAX_BYTES : Z := 4 * 1024 * 1024.
Definition H2C_DEFAULT_UNARY_TIMEOUT_MS : Z := 30000.
Definition H2C_STREAM_OPEN_GRACE_MS : Z := 250.
Definition H2_INIT_WINDOW : Z := 65535.
Definition H2C_MAX_SOCK_PATH : Z := 108.
Definition H2C_MAX_NAMESPACE : Z := 64.
Definition H2C_MAX_MSG : Z := 16 * 1024 * 1024.
Definition H2C_MAX_HDR_MSG : Z := 2048.
Definition H2C_HANDSHAKE_MS : Z := 5000.

Definition H2_DATA : Z := 0.
Definition H2_HEADERS : Z := 1.
Definition H2_PRIORITY : Z := 2.
Definition H2_RST_STREAM : Z := 3.
Definition H2_SETTINGS : Z := 4.
Definition H2_PUSH_PROMISE : Z := 5.
Definition H2_PING : Z := 6.
Definition H2_GOAWAY : Z := 7.
Definition H2_WINDOW_UPDATE : Z := 8.
Definition H2_CONTINUATION : Z := 9.

Definition H2_FLAG_ACK : Z := 0x1.
Definition H2_FLAG_END_STREAM : Z := 0x1.
Definition H2_FLAG_END_HEADERS : Z := 0x4.
Definition H2_FLAG_PADDED : Z := 0x8.
Definition H2_FLAG_PRIORITY : Z := 0x20.

Definition H2_SETTINGS_HEADER_TABLE_SIZE : Z := 0x1.
Definition H2_SETTINGS_ENABLE_PUSH : Z := 0x2.
Definition H2_SETTINGS_MAX_CONCURRENT_STREAMS : Z := 0x3.
Definition H2_SETTINGS_INITIAL_WINDOW_SIZE : Z := 0x4.
Definition H2_SETTINGS_MAX_FRAME_SIZE : Z := 0x5.

Definition H2_ERR_PROTOCOL : Z := 1.
Definition H2_ERR_INTERNAL : Z := 2.
Definition H2_ERR_FLOW_CONTROL : Z := 3.
Definition H2_ERR_FRAME_SIZE : Z := 6.
Definition H2_ERR_CANCEL : Z := 8.

Definition H2C_STATUS_CANCELLED : Z := 1.
Definition H2C_STATUS_UNIMPLEMENTED : Z := 12.
Definition H2C_STATUS_INTERNAL : Z := 13.
Definition H2C_STATUS_UNAVAILABLE : Z := 14.

Definition H2C_ERR_IO : Z := -2.
Definition H2C_ERR_GOAWAY : Z := -4.
Definition H2C_ERR_NOSTREAM : Z := -5.
Definition H2C_ERR_TOOBIG : Z := -6.
Definition H2C_ERR_CLOSED : Z := -10.

Definition ST_UNARY : Z := 1.
Definition ST_SUBSCRIBE : Z := 2.
Definition SS_SENT : Z := 0.
Definition SS_HEADERS : Z := 1.
Definition SS_DONE : Z := 2.

Definition has_flag (flags f : Z) : bool := negb (Z.land flags f =? 0).

(** ** The outside world *)

(** What one [read] finds; a chunk longer than the request is left for the
    next call, and an empty chunk is the end of the stream. *)
Inductive rx_ev := RxBytes (bs : bytes) | RxIntr | RxAgain | RxFail.

(** What one [send] does: accept at most [n] bytes, or fail. *)
Inductive tx_ev := TxSome (n : nat) | TxIntr | TxFail.

Inductive poll_ev := PollReady | PollTimeout | PollIntr | PollFail.

Record io := Io {
  rx_evs : list rx_ev;
  tx_evs : list tx_ev;
  tx : bytes;
  polls : list poll_ev;
  ticks : nat;
}.

Definition set_rx_evs (v : list rx_ev) (w : io) : io :=
  Io v (tx_evs w) (tx w) (polls w) (ticks w).
Definition set_tx_evs (v : list tx_ev) (w : io) : io :=
  Io (rx_evs w) v (tx w) (polls w) (ticks w).
Definition set_tx (v : bytes) (w : io) : io :=
  Io (rx_evs w) (tx_evs w) v (polls w) (ticks w).
Definition set_polls (v : list poll_ev) (w : io) : io :=
  Io (rx_evs w) (tx_evs w) (tx w) v (ticks w).
Definition set_ticks (v : nat) (w : io) : io :=
  Io (rx_evs w) (tx_evs w) (tx w) (polls w) v.

(** ** The frame reader *)

(** [hdr_fill] and [payload_fill] are the lengths of the two buffers. *)
Record frame_reader := FrameReader {
  fr_hdr : bytes;
  fr_payload : bytes;
  fr_cap : Z;
  fr_len : Z;
  fr_type : Z;
  fr_flags : Z;
  fr_sid : Z;
}.

Definition frame_reader_reset (r : frame_reader) : frame_reader :=
  FrameReader [] [] (fr_cap r) (fr_len r) (fr_type r) (fr_flags r) (fr_sid r).

(** ** Streams *)

(** The reassembler; [rasm_buf] holds the bytes copied so far. *)
Record rasm := Rasm {
  rasm_state : Z;
  rasm_hdr : bytes;
  rasm_msglen : Z;
  rasm_got : Z;
  rasm_buf : option bytes;
  rasm_buf_cap : Z;
}.

Record phase := Phase {
  st_state : Z;
  saw_headers : bool;
  st_status : Z;
  st_err : Z;
}.

Record msg_queue := MsgQueue {
  q_msgs : list bytes;
  q_bytes : Z;
  q_closed : bool;
  last_msg : option bytes;
}.

(** The unary destination: [None] is a NULL buffer. *)
Record response := Response {
  resp : option bytes;
  resp_cap : Z;
  resp_len : Z;
  msg_count : Z;
}.

Record strim_h2c_stream := Stream {
  s_id : Z;
  s_in_use : bool;
  s_type : Z;
  s_phase : phase;
  recv_window : Z;
  send_window : Z;
  s_rasm : rasm;
  s_queue : msg_queue;
  s_resp : response;
}.

Definition set_id (v : Z) (s : strim_h2c_stream) : strim_h2c_stream :=
  Stream v (s_in_use s) (s_type s) (s_phase s) (recv_window s) (send_window s) (s_rasm s)
    (s_queue s) (s_resp s).
Definition set_in_use (v : bool) (s : strim_h2c_stream) : strim_h2c_stream :=
  Stream (s_id s) v (s_type s) (s_phase s) (recv_window s) (send_window s) (s_rasm s) (s_queue
    s) (s_resp s).
Definition set_type (v : Z) (s : strim_h2c_stream) : strim_h2c_stream :=
  Stream (s_id s) (s_in_use s) v (s_phase s) (recv_window s) (send_window s) (s_rasm s)
    (s_queue s) (s_resp s).
Definition set_phase (v : phase) (s : strim_h2c_stream) : strim_h2c_stream :=
  Stream (s_id s) (s_in_use s) (s_type s) v (recv_window s) (send_window s) (s_rasm s)
    (s_queue s) (s_resp s).
Definition set_recv_window (v : Z) (s : strim_h2c_stream) : strim_h2c_stream :=
  Stream (s_id s) (s_in_use s) (s_type s) (s_phase s) v (send_window s) (s_rasm s) (s_queue s)
    (s_resp s).
Definition set_send_window (v : Z) (s : strim_h2c_stream) : strim_h2c_stream :=
  Stream (s_id s) (s_in_use s) (s_type s) (s_phase s) (recv_window s) v (s_rasm s) (s_queue s)
    (s_resp s).
Definition set_rasm (v : rasm) (s : strim_h2c_stream) : strim_h2c_stream :=
  Stream (s_id s) (s_in_use s) (s_type s) (s_phase s) (recv_window s) (send_window s) v
    (s_queue s) (s_resp s).
Definition set_queue (v : msg_queue) (s : strim_h2c_stream) : strim_h2c_stream :=
  Stream (s_id s) (s_in_use s) (s_type s) (s_phase s) (recv_window s) (send_window s) (s_rasm
    s) v (s_resp s).
Definition set_resp (v : response) (s : strim_h2c_stream) : strim_h2c_stream :=
  Stream (s_id s) (s_in_use s) (s_type s) (s_phase s) (recv_window s) (send_window s) (s_rasm
    s) (s_queue s) v.

Definition st (s : strim_h2c_stream) : Z := st_state (s_phase s).

(** [free(s->rasm_buf); rasm_buf = NULL; rasm_buf_cap = 0] *)
Definition free_rasm (r : rasm) : rasm :=
  Rasm (rasm_state r) (rasm_hdr r) (rasm_msglen r) (rasm_got r) None 0.

Definition close_queue (q : msg_queue) : msg_queue :=
  MsgQueue (q_msgs q) (q_bytes q) true (last_msg q).

(** ** The connection *)

Record header_block := HeaderBlock {
  hdr_block : bytes;
  hdr_block_cap : Z;
  hdr_block_sid : Z;
  hdr_block_flags : Z;
  hdr_block_pending : bool;
}.

Record life := Life {
  ready : bool;
  dead : bool;
  dead_code : Z;
  goaway_seen : bool;
  goaway_last_sid : Z;
}.

Record peer := Peer {
  srv_max_frame : Z;
  srv_max_streams : Z;
  srv_initial_window : Z;
}.

Record msg_ring := MsgRing {
  msg_head : Z;
  msg_slot0 : Z * cstring;
  msg_slot1 : Z * cstring;
}.

Record strim_h2c := H2c {
  c_io : io;
  c_rx : frame_reader;
  c_life : life;
  namespace_ : cstring;
  next_sid : Z;
  streams : list strim_h2c_stream;
  conn_recv_window : Z;
  conn_send_window : Z;
  c_peer : peer;
  dyn_enc : hpack_dyn;
  enc_size_update : bool;
  dyn_dec : hpack_dyn;
  c_hdr : header_block;
  c_ring : msg_ring;
  c_undefined : bool;
}.

Definition set_io (v : io) (c : strim_h2c) : strim_h2c :=
  H2c v (c_rx c) (c_life c) (namespace_ c) (next_sid c) (streams c) (conn_recv_window c)
    (conn_send_window c) (c_peer c) (dyn_enc c) (enc_size_update c) (dyn_dec c) (c_hdr c)
    (c_ring c) (c_undefined c).
Definition set_rx (v : frame_reader) (c : strim_h2c) : strim_h2c :=
  H2c (c_io c) v (c_life c) (namespace_ c) (next_sid c) (streams c) (conn_recv_window c)
    (conn_send_window c) (c_peer c) (dyn_enc c) (enc_size_update c) (dyn_dec c) (c_hdr c)
    (c_ring c) (c_undefined c).
Definition set_life (v : life) (c : strim_h2c) : strim_h2c :=
  H2c (c_io c) (c_rx c) v (namespace_ c) (next_sid c) (streams c) (conn_recv_window c)
    (conn_send_window c) (c_peer c) (dyn_enc c) (enc_size_update c) (dyn_dec c) (c_hdr c)
    (c_ring c) (c_undefined c).
Definition set_next_sid (v : Z) (c : strim_h2c) : strim_h2c :=
  H2c (c_io c) (c_rx c) (c_life c) (namespace_ c) v (streams c) (conn_recv_window c)
    (conn_send_window c) (c_peer c) (dyn_enc c) (enc_size_update c) (dyn_dec c) (c_hdr c)
    (c_ring c) (c_undefined c).
Definition set_streams (v : list strim_h2c_stream) (c : strim_h2c) : strim_h2c :=
  H2c (c_io c) (c_rx c) (c_life c) (namespace_ c) (next_sid c) v (conn_recv_window c)
    (conn_send_window c) (c_peer c) (dyn_enc c) (enc_size_update c) (dyn_dec c) (c_hdr c)
    (c_ring c) (c_undefined c).
Definition set_conn_recv_window (v : Z) (c : strim_h2c) : strim_h2c :=
  H2c (c_io c) (c_rx c) (c_life c) (namespace_ c) (next_sid c) (streams c) v (conn_send_window
    c) (c_peer c) (dyn_enc c) (enc_size_update c) (dyn_dec c) (c_hdr c) (c_ring c)
    (c_undefined c).
Definition set_conn_send_window (v : Z) (c : strim_h2c) : strim_h2c :=
  H2c (c_io c) (c_rx c) (c_life c) (namespace_ c) (next_sid c) (streams c) (conn_recv_window
    c) v (c_peer c) (dyn_enc c) (enc_size_update c) (dyn_dec c) (c_hdr c) (c_ring c)
    (c_undefined c).
Definition set_peer (v : peer) (c : strim_h2c) : strim_h2c :=
  H2c (c_io c) (c_rx c) (c_life c) (namespace_ c) (next_sid c) (streams c) (conn_recv_window
    c) (conn_send_window c) v (dyn_enc c) (enc_size_update c) (dyn_dec c) (c_hdr c) (c_ring c)
    (c_undefined c).
Definition set_dyn_enc (v : hpack_dyn) (c : strim_h2c) : strim_h2c :=
  H2c (c_io c) (c_rx c) (c_life c) (namespace_ c) (next_sid c) (streams c) (conn_recv_window
    c) (conn_send_window c) (c_peer c) v (enc_size_update c) (dyn_dec c) (c_hdr c) (c_ring c)
    (c_undefined c).
Definition set_enc_size_update (v : bool) (c : strim_h2c) : strim_h2c :=
  H2c (c_io c) (c_rx c) (c_life c) (namespace_ c) (next_sid c) (streams c) (conn_recv_window
    c) (conn_send_window c) (c_peer c) (dyn_enc c) v (dyn_dec c) (c_hdr c) (c_ring c)
    (c_undefined c).
Definition set_dyn_dec (v : hpack_dyn) (c : strim_h2c) : strim_h2c :=
  H2c (c_io c) (c_rx c) (c_life c) (namespace_ c) (next_sid c) (streams c) (conn_recv_window
    c) (conn_send_window c) (c_peer c) (dyn_enc c) (enc_size_update c) v (c_hdr c) (c_ring c)
    (c_undefined c).
Definition set_hdr (v : header_block) (c : strim_h2c) : strim_h2c :=
  H2c (c_io c) (c_rx c) (c_life c) (namespace_ c) (next_sid c) (streams c) (conn_recv_window
    c) (conn_send_window c) (c_peer c) (dyn_enc c) (enc_size_update c) (dyn_dec c) v (c_ring
    c) (c_undefined c).
Definition set_ring (v : msg_ring) (c : strim_h2c) : strim_h2c :=
  H2c (c_io c) (c_rx c) (c_life c) (namespace_ c) (next_sid c) (streams c) (conn_recv_window
    c) (conn_send_window c) (c_peer c) (dyn_enc c) (enc_size_update c) (dyn_dec c) (c_hdr c) v
    (c_undefined c).
Definition set_undefined (v : bool) (c : strim_h2c) : strim_h2c :=
  H2c (c_io c) (c_rx c) (c_life c) (namespace_ c) (next_sid c) (streams c) (conn_recv_window
    c) (conn_send_window c) (c_peer c) (dyn_enc c) (enc_size_update c) (dyn_dec c) (c_hdr c)
    (c_ring c) v.
