(* ===== verification/H2c.v ===== *)
(** * The HTTP/2 connection: operations (containerd/h2c.c)

    Framing, the incremental frame reader, the frame handlers, the gRPC
    message reassembler and its flow-control credit, requests and the public
    API, over the state of [H2cState].

    [malloc] says which sizes can be allocated, [clock] what [mono_ms] returns
    at its n-th call.  Loops that wait for the peer take [fuel], one unit for
    each poll. *)

From S2P Require Import Prelude MiniPb Huffman Hpack H2cState.

Definition stream_at (c : strim_h2c) (k : nat) : option strim_h2c_stream := streams c !! k.

Definition update_stream (k : nat) (f : strim_h2c_stream -> strim_h2c_stream) (c : strim_h2c)
  : strim_h2c := set_streams (alter f k (streams c)) c.

Definition on_io (f : io -> io) (c : strim_h2c) : strim_h2c := set_io (f (c_io c)) c.

(** Record undefined behaviour unless [ok]. *)
Definition require (ok : bool) (c : strim_h2c) : strim_h2c :=
  if ok then c else set_undefined true c.

Definition int32_ok (v : Z) : bool := (- 2 ^ 31 <=? v) && (v <=? 2 ^ 31 - 1).

(** Big-endian bytes of a 32-bit value, and back. *)
Definition be32 (v : Z) : bytes :=
  [u8 (Z.shiftr v 24); u8 (Z.shiftr v 16); u8 (Z.shiftr v 8); u8 v].

Definition be32_of (p : bytes) (i : nat) : Z :=
  Z.lor (Z.lor (Z.lor (Z.shiftl (default 0 (p !! i)) 24) (Z.shiftl (default 0 (p !! (i + 1)%nat)) 16))
           (Z.shiftl (default 0 (p !! (i + 2)%nat)) 8)) (default 0 (p !! (i + 3)%nat)).

Section H2c.
Variable malloc : Z -> bool.
Variable clock : nat -> Z.

(** ** Clock and socket *)

Definition mono_ms (c : strim_h2c) : Z * strim_h2c :=
  (clock (ticks (c_io c)), on_io (set_ticks (S (ticks (c_io c)))) c).

Definition time_left_ms (deadline : Z) (c : strim_h2c) : Z * strim_h2c :=
  let '(now, c) := mono_ms c in
  let left := deadline - now in (if 0 <? left then left else 0, c).

(** The bytes that reached the socket are appended to [sent]. *)
Fixpoint write_all (evs : list tx_ev) (data sent : bytes) : Z * list tx_ev * bytes :=
  match data, evs with
  | [], _ => (0, evs, sent)
  | _, [] => (0, [], sent ++ data)
  | _, TxIntr :: evs' => write_all evs' data sent
  | _, TxFail :: evs' => (-1, evs', sent)
  | _, TxSome n :: evs' => write_all evs' (drop n data) (sent ++ take n data)
  end.

Definition write (data : bytes) (c : strim_h2c) : Z * strim_h2c :=
  let w := c_io c in
  let '(rc, evs, sent) := write_all (tx_evs w) data (tx w) in
  (rc, set_io (set_tx_evs evs (set_tx sent w)) c).

(** ** Frames *)

Definition frame_hdr (type flags sid len : Z) : bytes :=
  [u8 (Z.shiftr len 16); u8 (Z.shiftr len 8); u8 len; type; flags] ++ be32 sid.

Definition frame_write (type flags sid : Z) (payload : bytes) (c : strim_h2c) : Z * strim_h2c :=
  let len := strlen payload in
  if 0xffffff <? len then (-1, c)
  else
    let '(rc, c) := write (frame_hdr type flags sid len) c in
    if rc <? 0 then (-1, c)
    else if len =? 0 then (0, c)
    else let '(rc, c) := write payload c in if rc <? 0 then (-1, c) else (0, c).

Definition frame_write_settings (flags : Z) (payload : bytes) (c : strim_h2c) : Z * strim_h2c :=
  frame_write H2_SETTINGS flags 0 payload c.

Definition frame_write_window_update (sid inc : Z) (c : strim_h2c) : Z * strim_h2c :=
  frame_write H2_WINDOW_UPDATE 0 sid (be32 inc) c.

Definition frame_write_ping_ack (opaque : bytes) (c : strim_h2c) : Z * strim_h2c :=
  frame_write H2_PING H2_FLAG_ACK 0 opaque c.

Definition frame_write_rst (sid code : Z) (c : strim_h2c) : Z * strim_h2c :=
  frame_write H2_RST_STREAM 0 sid (be32 code) c.

Inductive read_result := ReadBytes (bs : bytes) | ReadIntr | ReadAgain | ReadFail.

Definition sock_read (n : nat) (evs : list rx_ev) : read_result * list rx_ev :=
  match evs with
  | [] => (ReadAgain, [])
  | RxIntr :: evs' => (ReadIntr, evs')
  | RxAgain :: evs' => (ReadAgain, evs')
  | RxFail :: evs' => (ReadFail, evs')
  | RxBytes bs :: evs' =>
      (ReadBytes (take n bs), match drop n bs with [] => evs' | rest => RxBytes rest :: evs' end)
  end.

(** The header fields, once all nine bytes are there. *)
Definition parse_header (r : frame_reader) : frame_reader :=
  let h i := default 0 (fr_hdr r !! i) in
  FrameReader (fr_hdr r) (fr_payload r) (fr_cap r)
    (Z.lor (Z.lor (Z.shiftl (h 0%nat) 16) (Z.shiftl (h 1%nat) 8)) (h 2%nat))
    (h 3%nat) (h 4%nat) (be32_of (fr_hdr r) 5).

Definition add_hdr (bs : bytes) (r : frame_reader) : frame_reader :=
  FrameReader (fr_hdr r ++ bs) (fr_payload r) (fr_cap r) (fr_len r) (fr_type r) (fr_flags r) (fr_sid r).

Definition add_payload (bs : bytes) (r : frame_reader) : frame_reader :=
  FrameReader (fr_hdr r) (fr_payload r ++ bs) (fr_cap r) (fr_len r) (fr_type r) (fr_flags r) (fr_sid r).

Definition set_fr_cap (v : Z) (r : frame_reader) : frame_reader :=
  FrameReader (fr_hdr r) (fr_payload r) v (fr_len r) (fr_type r) (fr_flags r) (fr_sid r).

(** What a [read] of at most [n] bytes leads to: go on with the bytes, try
    again, or return. *)
Definition after_read (n : nat) (evs : list rx_ev) : (bytes + option Z) * list rx_ev :=
  match sock_read n evs with
  | (ReadIntr, evs') => (inr None, evs')
  | (ReadAgain, evs') => (inr (Some 0), evs')
  | (ReadFail, evs') => (inr (Some (-1)), evs')
  | (ReadBytes [], evs') => (inr (Some (-1)), evs')
  | (ReadBytes bs, evs') => (inl bs, evs')
  end.

(** 1 a complete frame, 0 more data needed, -1 an error.  Every round reads
    once, so the events and their bytes bound the rounds. *)
Fixpoint frame_reader_fill (fuel : nat) (r : frame_reader) (evs : list rx_ev)
  : Z * frame_reader * list rx_ev :=
  match fuel with
  | O => (0, r, evs)
  | S fuel' =>
      if (length (fr_hdr r) <? 9)%nat then
        match after_read (9 - length (fr_hdr r)) evs with
        | (inl bs, evs') => frame_reader_fill fuel' (add_hdr bs r) evs'
        | (inr None, evs') => frame_reader_fill fuel' r evs'
        | (inr (Some rc), evs') => (rc, r, evs')
        end
      else
        let start := (length (fr_payload r) =? 0)%nat in
        let r := if start then parse_header r else r in
        let grow := start && (fr_cap r <? fr_len r) in
        if grow && negb (malloc (fr_len r)) then (-1, r, evs)
        else
          let r := if grow then set_fr_cap (fr_len r) r else r in
          if start && (fr_len r =? 0) then (1, r, evs)
          else
            match after_read (Z.to_nat (fr_len r) - length (fr_payload r)) evs with
            | (inl bs, evs') =>
                let r := add_payload bs r in
                if fr_len r <=? strlen (fr_payload r) then (1, r, evs')
                else frame_reader_fill fuel' r evs'
            | (inr None, evs') => frame_reader_fill fuel' r evs'
            | (inr (Some rc), evs') => (rc, r, evs')
            end
  end.

Fixpoint rx_size (evs : list rx_ev) : nat :=
  match evs with
  | [] => 1
  | RxBytes bs :: evs' => S (length bs + rx_size evs')
  | _ :: evs' => S (rx_size evs')
  end.

(** ** Streams *)

Fixpoint find_slot (f : strim_h2c_stream -> bool) (k : nat) (l : list strim_h2c_stream) : option nat :=
  match l with
  | [] => None
  | s :: l' => if f s then Some k else find_slot f (S k) l'
  end.

Definition stream_find (c : strim_h2c) (sid : Z) : option nat :=
  find_slot (fun s => s_in_use s && (s_id s =? sid)) 0 (streams c).

(** A failed allocation of the list node drops the message. *)
Definition queue_push (data : bytes) (q : msg_queue) : msg_queue :=
  if malloc 24 then MsgQueue (q_msgs q ++ [data]) (q_bytes q + strlen data) (q_closed q) (last_msg q)
  else q.

Definition queue_drain (q : msg_queue) : msg_queue := MsgQueue [] 0 (q_closed q) (last_msg q).

Definition stream_destroy (s : strim_h2c_stream) : strim_h2c_stream :=
  let q := queue_drain (s_queue s) in
  set_in_use false
    (set_queue (MsgQueue (q_msgs q) (q_bytes q) (q_closed q) None)
       (set_rasm (free_rasm (s_rasm s)) s)).

Definition new_stream (sid type window : Z) : strim_h2c_stream :=
  Stream sid true type (Phase SS_SENT false 0 0) H2_INIT_WINDOW window (Rasm 0 [] 0 0 None 0)
    (MsgQueue [] 0 false None) (Response None 0 0 0).

Definition take_slot (k : nat) (type : Z) (c : strim_h2c) : nat * strim_h2c :=
  (k, set_next_sid (u32 (next_sid c + 2))
        (update_stream k (fun _ => new_stream (next_sid c) type (srv_initial_window (c_peer c))) c)).

(** A free slot, else the first finished one; destroying a finished slot frees
    it, so the call [stream_alloc] then makes to itself takes the first free
    slot. *)
Definition stream_alloc (type : Z) (c : strim_h2c) : option (nat * strim_h2c) :=
  let free c := find_slot (fun s => negb (s_in_use s)) 0 (streams c) in
  match free c with
  | Some k => Some (take_slot k type c)
  | None =>
      match find_slot (fun s => st s =? SS_DONE) 0 (streams c) with
      | None => None
      | Some d =>
          let c := update_stream d stream_destroy c in
          match free c with Some k => Some (take_slot k type c) | None => None end
      end
  end.

(** [snprintf(dst, 2048, "%s", msg)]; [msg_head] starts at -1. *)
Definition conn_store_message (status : Z) (msg : cstring) (c : strim_h2c) : strim_h2c :=
  let r := c_ring c in
  let head := (msg_head r + 1) mod 2 in
  let slot := (status, take (Z.to_nat (H2C_MAX_HDR_MSG - 1)) msg) in
  set_ring (if head =? 0 then MsgRing head slot (msg_slot1 r) else MsgRing head (msg_slot0 r) slot) c.

Definition hex_value (c : Z) : option Z :=
  if (48 <=? c) && (c <=? 57) then Some (c - 48)
  else if (97 <=? c) && (c <=? 102) then Some (c - 97 + 10)
  else if (65 <=? c) && (c <=? 70) then Some (c - 65 + 10)
  else None.

(** The text written before the NUL; the input's length is enough fuel. *)
Fixpoint percent_decode (fuel : nat) (input : bytes) (out_cap : Z) : bytes :=
  match fuel, input with
  | S fuel', x :: rest =>
      if out_cap <=? 1 then []
      else
        match (if x =? 37 then
                 match rest with
                 | hi :: lo :: rest' =>
                     match hex_value hi, hex_value lo with
                     | Some h, Some l => Some (Z.lor (Z.shiftl h 4) l, rest')
                     | _, _ => None
                     end
                 | _ => None
                 end
               else None) with
        | Some (b, rest') => b :: percent_decode fuel' rest' (out_cap - 1)
        | None => x :: percent_decode fuel' rest (out_cap - 1)
        end
  | _, _ => []
  end.

(** The C string a [char] buffer holds: up to its first NUL. *)
Fixpoint c_str (bs : bytes) : cstring :=
  match bs with
  | [] => []
  | b :: bs' => if b =? 0 then [] else b :: c_str bs'
  end.

(** ** Failing *)

Definition finish_stream (status : Z) (s : strim_h2c_stream) : strim_h2c_stream :=
  set_rasm (free_rasm (s_rasm s)) (set_phase (Phase SS_DONE (saw_headers (s_phase s)) status 0) s).

Definition complete_all_streams (status : Z) (msg : cstring) (c : strim_h2c) : strim_h2c :=
  conn_store_message status msg
    (set_streams (map (fun s => if negb (s_in_use s) || (st s =? SS_DONE) then s
                                else finish_stream status s) (streams c)) c).

Definition set_dead (code : Z) (c : strim_h2c) : strim_h2c :=
  let l := c_life c in
  set_life (Life (ready l) true code (goaway_seen l) (goaway_last_sid l)) c.

Definition conn_fail (err_code : Z) (c : strim_h2c) : strim_h2c :=
  if dead (c_life c) then c
  else complete_all_streams H2C_STATUS_UNAVAILABLE (lit "connection failed") (set_dead err_code c).

Definition stream_abort (k : nat) (h2_code err_code : Z) (c : strim_h2c) : strim_h2c :=
  match stream_at c k with
  | None => c
  | Some s =>
      let '(_, c) := frame_write_rst (s_id s) h2_code c in
      update_stream k (fun s =>
        set_rasm (free_rasm (s_rasm s))
          (set_phase (Phase SS_DONE (saw_headers (s_phase s)) H2C_STATUS_INTERNAL err_code) s)) c
  end.

(** ** SETTINGS *)

(** [send_window += delta] on every stream in use; the test after it can never
    hold for an [int32_t]. *)
Definition shift_windows (delta : Z) (c : strim_h2c) : strim_h2c :=
  let sum s := send_window s + delta in
  set_streams (map (fun s => if s_in_use s then set_send_window (to_int (sum s)) s else s) (streams c))
    (require (forallb (fun s => negb (s_in_use s) || int32_ok (sum s)) (streams c)) c).

Definition apply_setting (id val : Z) (c : strim_h2c) : Z * strim_h2c :=
  let p := c_peer c in
  if id =? H2_SETTINGS_HEADER_TABLE_SIZE then
    if val =? dy_max_size (dyn_enc c) then (0, c)
    else (0, set_enc_size_update true (set_dyn_enc (dyn_set_max (dyn_enc c) val) c))
  else if id =? H2_SETTINGS_INITIAL_WINDOW_SIZE then
    let delta := to_int val - srv_initial_window p in
    let c := require (int32_ok delta) c in
    let c := set_peer (Peer (srv_max_frame p) (srv_max_streams p) (to_int val)) c in
    (0, shift_windows (to_int delta) c)
  else if id =? H2_SETTINGS_MAX_FRAME_SIZE then
    if (val <? 16384) || (16777215 <? val) then (-1, c)
    else (0, set_peer (Peer val (srv_max_streams p) (srv_initial_window p)) c)
  else if id =? H2_SETTINGS_MAX_CONCURRENT_STREAMS then
    (0, set_peer (Peer (srv_max_frame p) val (srv_initial_window p)) c)
  else (0, c).

Fixpoint apply_settings (p : bytes) (c : strim_h2c) : Z * strim_h2c :=
  match p with
  | a :: b :: v0 :: v1 :: v2 :: v3 :: p' =>
      let '(rc, c) := apply_setting (u16 (Z.lor (Z.shiftl a 8) b)) (be32_of [v0; v1; v2; v3] 0) c in
      if rc <? 0 then (-1, c) else apply_settings p' c
  | _ => (0, c)
  end.

Definition set_ready (c : strim_h2c) : strim_h2c :=
  let l := c_life c in
  set_life (Life true (dead l) (dead_code l) (goaway_seen l) (goaway_last_sid l)) c.

Definition handle_settings (p : bytes) (c : strim_h2c) : Z * strim_h2c :=
  if negb (Z.of_nat (length p) mod 6 =? 0) then (-1, c)
  else
    let '(rc, c) := apply_settings p c in
    if rc <? 0 then (-1, c)
    else
      let '(rc, c) := frame_write_settings H2_FLAG_ACK [] c in
      if rc <? 0 then (-1, c) else (0, set_ready c).

(** ** HEADERS *)

(** The offset skips the padding length, as many bytes as it says, and the
    priority; the block is everything after it. *)
Definition headers_block_offset (payload : bytes) (flags : Z) : option nat :=
  let len := Z.of_nat (length payload) in
  match (if has_flag flags H2_FLAG_PADDED then
           match payload with
           | [] => None
           | pad :: _ => if len <? 1 + pad then None else Some (1 + pad)
           end
         else Some 0) with
  | None => None
  | Some off =>
      let off := if has_flag flags H2_FLAG_PRIORITY then off + 5 else off in
      if has_flag flags H2_FLAG_PRIORITY && (len <? off) then None else Some (Z.to_nat off)
  end.

(** [None]: the comparison follows a NULL pointer. *)
Definition header_name_eq (f : hpack_field) (name : cstring) : option bool :=
  if f_name_len f =? strlen name
  then match f_name f with None => None | Some n => Some (mem_eq n name) end
  else Some false.

Definition value_of (f : hpack_field) : bytes := default [] (f_value f).

Definition header_value_eq (f : hpack_field) (value : cstring) : bool :=
  (f_value_len f =? strlen value) && mem_eq (value_of f) value.

Fixpoint status_digits (v : Z) (value : bytes) : Z :=
  match value with
  | [] => v
  | d :: value' =>
      if (d <? 48) || (57 <? d) then -1
      else let v := v * 10 + (d - 48) in if 999 <? v then -1 else status_digits v value'
  end.

Definition parse_status_int (f : hpack_field) : Z := status_digits 0 (value_of f).

(** The local variables of [handle_header_block]. *)
Record header_info := HeaderInfo {
  hi_has_status : bool;
  hi_status_value : Z;
  hi_grpc_status : option Z;
  hi_content_type_ok : bool;
  hi_encoding_ok : bool;
  hi_msg : bytes;
}.

Inductive classified := Classified (i : header_info) | BadStatus | NullDeref.

(** The chain of name comparisons, with the continuation of each match. *)
Definition classify_field (f : hpack_field) (i : header_info) : classified :=
  let named name (yes no : classified) :=
    match header_name_eq f name with None => NullDeref | Some b => if b then yes else no end in
  let needs_value (k : classified) :=
    match f_value f with
    | None => if f_value_len f =? 0 then k else NullDeref
    | Some _ => k
    end in
  named (lit ":status")
    (needs_value (Classified (HeaderInfo true (parse_status_int f) (hi_grpc_status i)
                                (hi_content_type_ok i) (hi_encoding_ok i) (hi_msg i))))
  (named (lit "grpc-status")
    (needs_value
      (let v := parse_status_int f in
       if (v <? 0) || (99 <? v) then BadStatus
       else Classified (HeaderInfo (hi_has_status i) (hi_status_value i) (Some v)
                          (hi_content_type_ok i) (hi_encoding_ok i) (hi_msg i))))
  (named (lit "grpc-message")
    (needs_value
      (Classified (HeaderInfo (hi_has_status i) (hi_status_value i) (hi_grpc_status i)
         (hi_content_type_ok i) (hi_encoding_ok i)
         (percent_decode (length (value_of f)) (value_of f) H2C_MAX_HDR_MSG))))
  (named (lit "content-type")
    (needs_value
      (Classified (HeaderInfo (hi_has_status i) (hi_status_value i) (hi_grpc_status i)
         ((16 <=? f_value_len f) && mem_eq (take 16 (value_of f)) (lit "application/grpc"))
         (hi_encoding_ok i) (hi_msg i))))
  (named (lit "grpc-encoding")
    (needs_value
      (Classified (HeaderInfo (hi_has_status i) (hi_status_value i) (hi_grpc_status i)
         (hi_content_type_ok i)
         (if header_value_eq f (lit "identity") then hi_encoding_ok i else false) (hi_msg i))))
    (Classified i))))).

Fixpoint classify (fs : list hpack_field) (i : header_info) : classified :=
  match fs with
  | [] => Classified i
  | f :: fs' =>
      match classify_field f i with
      | Classified i' => classify fs' i'
      | r => r
      end
  end.

(** The three overrides that turn the headers into a final status. *)
Definition final_status (i : header_info) : option Z :=
  let g := hi_grpc_status i in
  let g := if hi_has_status i && negb (hi_status_value i =? 200) && negb (bool_decide (is_Some g))
           then Some (if hi_status_value i =? 404 then H2C_STATUS_UNIMPLEMENTED
                      else H2C_STATUS_INTERNAL)
           else g in
  let g := if negb (bool_decide (is_Some g)) && negb (hi_content_type_ok i)
           then Some H2C_STATUS_INTERNAL else g in
  if negb (hi_encoding_ok i) then Some H2C_STATUS_INTERNAL else g.

(** Trailers, or the initial headers. *)
Definition apply_headers (k : nat) (i : header_info) (c : strim_h2c) : Z * strim_h2c :=
  match stream_at c k with
  | None => (-1, c)
  | Some s =>
      match final_status i with
      | Some g =>
          let c := update_stream k (fun s =>
            set_queue (close_queue (s_queue s)) (finish_stream g s)) c in
          let msg := c_str (hi_msg i) in
          (0, if negb (g =? 0) || negb (streq msg []) then conn_store_message g msg c else c)
      | None =>
          if negb (st s =? SS_SENT) then (-1, c)
          else (0, update_stream k (fun s =>
                     set_phase (Phase SS_HEADERS true (st_status (s_phase s)) (st_err (s_phase s))) s) c)
      end
  end.

Definition handle_header_block (sid : Z) (block : bytes) (flags : Z) (c : strim_h2c) : Z * strim_h2c :=
  match headers_block_offset block flags with
  | None => (-1, c)
  | Some off =>
      let '(d, r) := hpack_decode_block malloc (dyn_dec c) (drop off block) H2C_MAX_FIELDS in
      let c := set_dyn_dec d c in
      match r with
      | None => (-1, c)
      | Some fields =>
          match stream_find c sid with
          | None => (-1, c)
          | Some k =>
              match stream_at c k with
              | None => (-1, c)
              | Some s =>
                  if (st s =? SS_DONE) && negb (st_err (s_phase s) =? 0) then (0, c)
                  else
                    match classify fields (HeaderInfo false 0 None false true []) with
                    | NullDeref => (-1, set_undefined true c)
                    | BadStatus => (-1, c)
                    | Classified i => apply_headers k i c
                    end
              end
          end
      end
  end.

Definition handle_headers_frame (flags sid : Z) (payload : bytes) (c : strim_h2c) : Z * strim_h2c :=
  let h := c_hdr c in
  let len := strlen payload in
  if hdr_block_pending h then (-1, c)
  else if has_flag flags H2_FLAG_END_HEADERS then handle_header_block sid payload flags c
  else if H2C_HDR_BLOCK_MAX <? len then (-1, c)
  else if (hdr_block_cap h <? len) && negb (malloc len) then (-1, c)
  else (0, set_hdr (HeaderBlock payload (Z.max (hdr_block_cap h) len) sid flags true) c).

Definition set_pending (v : bool) (h : header_block) : header_block :=
  HeaderBlock (hdr_block h) (hdr_block_cap h) (hdr_block_sid h) (hdr_block_flags h) v.

Definition handle_continuation_frame (flags : Z) (payload : bytes) (c : strim_h2c) : Z * strim_h2c :=
  let h := c_hdr c in
  let ncap := strlen (hdr_block h) + strlen payload in
  if negb (hdr_block_pending h) then (-1, c)
  else if H2C_HDR_BLOCK_MAX <? ncap then (-1, c)
  else if (hdr_block_cap h <? ncap) && negb (malloc (if ncap =? 0 then 1 else ncap)) then (-1, c)
  else
    let h := HeaderBlock (hdr_block h ++ payload) (Z.max (hdr_block_cap h) ncap) (hdr_block_sid h)
               (hdr_block_flags h) true in
    let c := set_hdr h c in
    if has_flag flags H2_FLAG_END_HEADERS then
      let '(rc, c) := handle_header_block (hdr_block_sid h) (hdr_block h) (hdr_block_flags h) c in
      (rc, set_hdr (set_pending false (c_hdr c)) c)
    else (0, c).

(** ** DATA *)

(** Credit both windows and tell the peer, unless that would overflow. *)
Definition stream_credit_message (k : nat) (total : Z) (c : strim_h2c) : strim_h2c :=
  match stream_at c k with
  | None => c
  | Some s =>
      if total =? 0 then c
      else if 0x7fffffff - to_int total <? recv_window s then c
      else if 0x7fffffff - to_int total <? conn_recv_window c then c
      else
        let c := update_stream k (set_recv_window (recv_window s + to_int total)) c in
        let c := set_conn_recv_window (conn_recv_window c + to_int total) c in
        let '(_, c) := frame_write_window_update (s_id s) total c in
        let '(_, c) := frame_write_window_update 0 total c in c
  end.

(** [memcpy(buf + off, bs, n)] *)
Definition write_at (off : nat) (bs buf : bytes) : bytes :=
  take off buf ++ bs ++ drop (off + length bs) buf.

Definition set_rasm_of (k : nat) (r : rasm) : strim_h2c -> strim_h2c := update_stream k (set_rasm r).

(** The five-byte message header; the second component is the data that
    follows it, or [None] when the call returns. *)
Definition feed_header (k : nat) (data : bytes) (c : strim_h2c) : strim_h2c * option bytes :=
  match stream_at c k with
  | None => (c, None)
  | Some s =>
      let r := s_rasm s in
      let n := Nat.min (5 - length (rasm_hdr r)) (length data) in
      let hdr := rasm_hdr r ++ take n data in
      let rest := drop n data in
      let r := Rasm (rasm_state r) hdr (rasm_msglen r) (rasm_got r) (rasm_buf r) (rasm_buf_cap r) in
      let c := set_rasm_of k r c in
      if (length hdr <? 5)%nat then (c, None)
      else if negb (default 0 (hdr !! 0%nat) =? 0)
      then (stream_abort k H2_ERR_INTERNAL H2C_ERR_PROTO c, None)
      else
        let msglen := be32_of hdr 1 in
        let c := set_rasm_of k (Rasm (rasm_state r) hdr msglen (rasm_got r) (rasm_buf r)
                                  (rasm_buf_cap r)) c in
        if H2C_MAX_MSG <? msglen then (stream_abort k H2_ERR_FRAME_SIZE H2C_ERR_TOOBIG c, None)
        else if s_type s =? ST_SUBSCRIBE then
          let cap := if msglen =? 0 then 1 else msglen in
          if negb (malloc cap) then
            (stream_abort k H2_ERR_INTERNAL H2C_ERR_IO
               (set_rasm_of k (Rasm (rasm_state r) hdr msglen 0 (rasm_buf r) (rasm_buf_cap r)) c), None)
          else (set_rasm_of k (Rasm 1 hdr msglen 0 (Some []) cap) c, Some rest)
        else if bool_decide (is_Some (resp (s_resp s))) && (resp_cap (s_resp s) <? msglen) then
          let '(_, c) := frame_write_rst (s_id s) H2_ERR_CANCEL c in
          (update_stream k (fun s =>
             set_rasm (Rasm (rasm_state r) hdr msglen 0 (rasm_buf r) (rasm_buf_cap r))
               (set_queue (close_queue (s_queue s))
                  (set_phase (Phase SS_DONE (saw_headers (s_phase s)) 0 H2C_ERR_TOOBIG) s))) c, None)
        else (set_rasm_of k (Rasm 1 hdr msglen 0 (rasm_buf r) (rasm_buf_cap r)) c, Some rest)
  end.

(** Copy [bs] to the message being received, at [rasm_got]. *)
Definition copy_body (k : nat) (bs : bytes) (c : strim_h2c) : strim_h2c :=
  match stream_at c k with
  | None => c
  | Some s =>
      let r := s_rasm s in
      let got := Z.to_nat (rasm_got r) in
      let got' := u32 (rasm_got r + strlen bs) in
      if s_type s =? ST_SUBSCRIBE then
        let c := require (match rasm_buf r with
                          | None => (length bs =? 0)%nat
                          | Some _ => rasm_got r + strlen bs <=? rasm_buf_cap r
                          end) c in
        set_rasm_of k (Rasm (rasm_state r) (rasm_hdr r) (rasm_msglen r) got'
                         (write_at got bs <$> rasm_buf r) (rasm_buf_cap r)) c
      else
        let p := s_resp s in
        let c := require (match resp p with
                          | None => true
                          | Some _ => rasm_got r + strlen bs <=? resp_cap p
                          end) c in
        update_stream k (fun s =>
          set_rasm (Rasm (rasm_state r) (rasm_hdr r) (rasm_msglen r) got' (rasm_buf r) (rasm_buf_cap r))
            (set_resp (Response (write_at got bs <$> resp p) (resp_cap p) (resp_len p) (msg_count p)) s)) c
  end.

(** A complete message; [false] when the call returns. *)
Definition finish_message (k : nat) (c : strim_h2c) : strim_h2c * bool :=
  match stream_at c k with
  | None => (c, false)
  | Some s =>
      let r := s_rasm s in
      let restart := set_rasm_of k (Rasm 0 [] (rasm_msglen r) (rasm_got r) None 0) in
      if s_type s =? ST_SUBSCRIBE then
        if H2C_QUEUE_MAX_BYTES <? q_bytes (s_queue s) + rasm_msglen r
        then (stream_abort k H2_ERR_FLOW_CONTROL H2C_ERR_PROTO c, false)
        else
          let msg := take (Z.to_nat (rasm_msglen r)) (default [] (rasm_buf r)) in
          (restart (update_stream k (set_queue (queue_push msg (s_queue s))) c), true)
      else
        let p := s_resp s in
        let p := Response (resp p) (resp_cap p) (rasm_got r) (msg_count p + 1) in
        let c := update_stream k (set_resp p) c in
        if 1 <? msg_count p then (stream_abort k H2_ERR_PROTOCOL H2C_ERR_PROTO c, false)
        else
          let c := stream_credit_message k (u32 (rasm_got r + 5)) c in
          (set_rasm_of k (Rasm 0 [] (rasm_msglen r) (rasm_got r) (rasm_buf r) (rasm_buf_cap r)) c, true)
  end.

(** The body of the current message, as far as the data goes. *)
Definition feed_body (k : nat) (data : bytes) (c : strim_h2c) : strim_h2c * option bytes :=
  match stream_at c k with
  | None => (c, None)
  | Some s =>
      let r := s_rasm s in
      let n := Nat.min (Z.to_nat (rasm_msglen r - rasm_got r)) (length data) in
      let c := copy_body k (take n data) c in
      let rest := drop n data in
      match stream_at c k with
      | None => (c, None)
      | Some s =>
          if rasm_msglen (s_rasm s) <=? rasm_got (s_rasm s) then
            let '(c, go) := finish_message k c in (c, if go then Some rest else None)
          else (c, Some rest)
      end
  end.

(** Every round consumes a byte: a header byte when no message is being
    received, a body byte otherwise. *)
Fixpoint feed_loop (fuel : nat) (k : nat) (data : bytes) (c : strim_h2c) : strim_h2c :=
  match fuel, data with
  | S fuel', _ :: _ =>
      match stream_at c k with
      | None => c
      | Some s =>
          let '(c, next) :=
            if rasm_state (s_rasm s) =? 0 then feed_header k data c else (c, Some data) in
          match next with
          | None => c
          | Some data =>
              match feed_body k data c with
              | (c, None) => c
              | (c, Some data) => feed_loop fuel' k data c
              end
          end
      end
  | _, _ => c
  end.

Definition stream_feed_data (k : nat) (data : bytes) (c : strim_h2c) : strim_h2c :=
  feed_loop (length data) k data c.

Definition handle_data_frame (flags sid : Z) (payload : bytes) (c : strim_h2c) : Z * strim_h2c :=
  let len := strlen payload in
  match stream_find c sid with
  | None => (-1, c)
  | Some k =>
      match stream_at c k with
      | None => (-1, c)
      | Some s =>
          if st s =? SS_DONE then (if negb (st_err (s_phase s) =? 0) then 0 else -1, c)
          else if (conn_recv_window c <? len) || (recv_window s <? len) then (-1, c)
          else
            match (if has_flag flags H2_FLAG_PADDED then
                     match payload with
                     | [] => None
                     | pad :: body => if len - 1 <? pad then None
                                      else Some (take (Z.to_nat (len - 1 - pad)) body)
                     end
                   else Some payload) with
            | None => (-1, c)
            | Some data =>
                let c := set_conn_recv_window (conn_recv_window c - len) c in
                let c := update_stream k (set_recv_window (recv_window s - len)) c in
                let c := stream_feed_data k data c in
                if has_flag flags H2_FLAG_END_STREAM then
                  match stream_at c k with
                  | None => (0, c)
                  | Some s =>
                      if negb (rasm_state (s_rasm s) =? 0)
                      then (0, stream_abort k H2_ERR_PROTOCOL H2C_ERR_PROTO c) else (0, c)
                  end
                else (0, c)
            end
      end
  end.

(** ** The other frames *)

Definition handle_window_update (sid : Z) (payload : bytes) (c : strim_h2c) : Z * strim_h2c :=
  if negb (strlen payload =? 4) then (-1, c)
  else
    let inc := be32_of payload 0 in
    if inc =? 0 then (-1, c)
    else if sid =? 0 then
      let w := conn_send_window c + to_int inc in
      (0, set_conn_send_window (to_int w) (require (int32_ok w) c))
    else
      match stream_find c sid with
      | None => (0, c)
      | Some k =>
          match stream_at c k with
          | None => (0, c)
          | Some s =>
              let w := send_window s + to_int inc in
              (0, update_stream k (set_send_window (to_int w)) (require (int32_ok w) c))
          end
      end.

Definition handle_goaway (payload : bytes) (c : strim_h2c) : Z * strim_h2c :=
  if strlen payload <? 8 then (-1, c)
  else
    let l := c_life c in
    let c := set_life (Life (ready l) (dead l) (dead_code l) true (be32_of payload 0)) c in
    let c := complete_all_streams H2C_STATUS_UNAVAILABLE (lit "server GOAWAY") c in
    (0, set_dead H2C_ERR_GOAWAY c).

Definition handle_rst_stream (sid : Z) (payload : bytes) (c : strim_h2c) : Z * strim_h2c :=
  if negb (strlen payload =? 4) then (-1, c)
  else
    match stream_find c sid with
    | None => (0, c)
    | Some k =>
        match stream_at c k with
        | None => (0, c)
        | Some s =>
            if st s =? SS_DONE then (0, update_stream k stream_destroy c)
            else (0, update_stream k (fun s => set_queue (close_queue (s_queue s))
                                                 (finish_stream H2C_STATUS_CANCELLED s)) c)
        end
    end.

Definition handle_ping (flags : Z) (payload : bytes) (c : strim_h2c) : Z * strim_h2c :=
  if negb (strlen payload =? 8) then (-1, c)
  else if has_flag flags H2_FLAG_ACK then (0, c)
  else
    let '(rc, c) := frame_write_ping_ack payload c in
    if rc <? 0 then (-1, c) else (0, c).

(** ** Dispatch *)

(** The [switch] on the type of a complete frame. *)
Definition dispatch_frame (type flags sid : Z) (payload : bytes) (c : strim_h2c) : Z * strim_h2c :=
  if type =? H2_SETTINGS then
    if negb (sid =? 0) then (-1, c)
    else if has_flag flags H2_FLAG_ACK then (if strlen payload =? 0 then 0 else -1, c)
    else handle_settings payload c
  else if type =? H2_PING then handle_ping flags payload c
  else if type =? H2_WINDOW_UPDATE then handle_window_update sid payload c
  else if type =? H2_DATA then handle_data_frame flags sid payload c
  else if type =? H2_HEADERS then handle_headers_frame flags sid payload c
  else if type =? H2_CONTINUATION then handle_continuation_frame flags payload c
  else if type =? H2_RST_STREAM then handle_rst_stream sid payload c
  else if type =? H2_GOAWAY then handle_goaway payload c
  else if type =? H2_PRIORITY then (if strlen payload =? 5 then 0 else -1, c)
  else (-1, c).

Definition process_one_frame (c : strim_h2c) : Z * strim_h2c :=
  let w := c_io c in
  let '(fr, r, evs) := frame_reader_fill (rx_size (rx_evs w)) (c_rx c) (rx_evs w) in
  let c := set_rx r (set_io (set_rx_evs evs w) c) in
  if fr <? 0 then (H2C_ERR_IO, c)
  else if fr =? 0 then (0, c)
  else
    let '(rc, c) := dispatch_frame (fr_type r) (fr_flags r) (fr_sid r) (fr_payload r) c in
    let c := set_rx (frame_reader_reset (c_rx c)) c in
    if rc <? 0 then (H2C_ERR_PROTO, c) else (1, c).

(** [while (budget-- > 0)]: the code of a failure, or [None]. *)
Fixpoint process_frames (budget : nat) (c : strim_h2c) : option Z * strim_h2c :=
  match budget with
  | O => (None, c)
  | S budget' =>
      let '(r, c) := process_one_frame c in
      if r <? 0 then (Some r, c)
      else if r =? 0 then (None, c)
      else process_frames budget' c
  end.

Definition next_poll (c : strim_h2c) : poll_ev * strim_h2c :=
  match polls (c_io c) with
  | [] => (PollTimeout, c)
  | e :: l => (e, on_io (set_polls l) c)
  end.

Definition conn_poll_once (c : strim_h2c) : Z * strim_h2c :=
  if dead (c_life c) then (dead_code (c_life c), c)
  else
    let '(e, c) := next_poll c in
    match e with
    | PollIntr => (0, c)
    | PollFail => let c := conn_fail H2C_ERR_IO c in (H2C_ERR_IO, c)
    | PollTimeout => (0, c)
    | PollReady =>
        match process_frames H2C_FRAME_BUDGET c with
        | (Some r, c) => let c := conn_fail r c in (dead_code (c_life c), c)
        | (None, c) => if dead (c_life c) then (dead_code (c_life c), c) else (1, c)
        end
    end.

(** ** Requests *)

Definition goaway_or_io (c : strim_h2c) : Z :=
  if dead_code (c_life c) =? H2C_ERR_GOAWAY then H2C_ERR_GOAWAY else H2C_ERR_IO.

Definition death_code (c : strim_h2c) : Z :=
  if dead_code (c_life c) =? H2C_ERR_GOAWAY then H2C_ERR_GOAWAY
  else if dead_code (c_life c) =? H2C_ERR_PROTO then H2C_ERR_PROTO
  else H2C_ERR_IO.

Definition window_short (k : nat) (chunk : Z) (c : strim_h2c) : bool :=
  match stream_at c k with
  | None => false
  | Some s => (send_window s <? chunk) || (conn_send_window c <? chunk)
  end.

Definition stream_done (k : nat) (c : strim_h2c) : bool :=
  match stream_at c k with None => true | Some s => st s =? SS_DONE end.

(** Wait for credit for [chunk] bytes: 0, an error, or [None] out of fuel. *)
Fixpoint wait_window (fuel : nat) (k : nat) (chunk deadline : Z) (c : strim_h2c)
  : option (Z * strim_h2c) :=
  if negb (window_short k chunk c) then Some (0, c)
  else
    match fuel with
    | O => None
    | S fuel' =>
        let '(ms, c) := time_left_ms deadline c in
        if ms <=? 0 then Some (H2C_ERR_TIMEOUT, c)
        else
          let '(wr, c) := conn_poll_once c in
          if wr <? 0 then Some (goaway_or_io c, c)
          else if stream_done k c then Some (H2C_ERR_PROTO, c)
          else wait_window fuel' k chunk deadline c
    end.

(** The DATA frames.  [rest] is what of the header and the request is not sent
    yet; [buf] holds one chunk.  A frame carries at least a byte, so the
    length of the message bounds the frames. *)
Fixpoint send_chunks (frames fuel : nat) (k : nat) (frame_max : Z) (rest : bytes) (c : strim_h2c)
  : option (Z * strim_h2c) :=
  match frames, rest with
  | S frames', _ :: _ =>
      let total := strlen rest in
      let chunk := if frame_max <? total then frame_max else total in
      let flags := if total <=? chunk then H2_FLAG_END_STREAM else 0 in
      let c := require (chunk <=? H2C_DATA_BUF) c in
      match (if window_short k chunk c then
               let '(now, c) := mono_ms c in
               wait_window fuel k chunk (now + H2C_DEFAULT_UNARY_TIMEOUT_MS) c
             else Some (0, c)) with
      | None => None
      | Some (rc, c) =>
          if rc <? 0 then Some (rc, c)
          else
            match stream_at c k with
            | None => None
            | Some s =>
                let c := update_stream k (set_send_window (send_window s - chunk)) c in
                let c := set_conn_send_window (conn_send_window c - chunk) c in
                let '(rc, c) := frame_write H2_DATA flags (s_id s) (take (Z.to_nat chunk) rest) c in
                if rc <? 0 then Some (H2C_ERR_IO, c)
                else send_chunks frames' fuel k frame_max (drop (Z.to_nat chunk) rest) c
            end
      end
  | _, _ => Some (0, c)
  end.

(** A gRPC message: no compression, the length, the bytes. *)
Definition grpc_frame (msg : bytes) : bytes := 0 :: be32 (strlen msg) ++ msg.

Definition send_request (fuel : nat) (k : nat) (path : cstring) (req : bytes) (c : strim_h2c)
  : option (Z * strim_h2c) :=
  let '(d, upd, hdrs) :=
    build_request_headers malloc (dyn_enc c) (enc_size_update c) (namespace_ c) path H2C_REQ_HDR_BLOCK in
  let c := set_enc_size_update upd (set_dyn_enc d c) in
  match hdrs, stream_at c k with
  | Some block, Some s =>
      let '(rc, c) := frame_write H2_HEADERS H2_FLAG_END_HEADERS (s_id s) block c in
      if rc <? 0 then Some (H2C_ERR_IO, c)
      else send_chunks (length (grpc_frame req)) fuel k (srv_max_frame (c_peer c)) (grpc_frame req) c
  | _, _ => Some (H2C_ERR_PROTO, c)
  end.

(** ** Public API *)

Definition H2_PREFACE : bytes := lit "PRI * HTTP/2.0" ++ [13; 10; 13; 10] ++ lit "SM" ++ [13; 10; 13; 10].

Definition client_settings : bytes :=
  [0; H2_SETTINGS_ENABLE_PUSH; 0; 0; 0; 0;
   0; H2_SETTINGS_MAX_CONCURRENT_STREAMS; 0; 0; 0; 100;
   0; H2_SETTINGS_INITIAL_WINDOW_SIZE; 0; 0; 0xff; 0xff;
   0; H2_SETTINGS_MAX_FRAME_SIZE; 0; 0; 0x40; 0;
   0; H2_SETTINGS_HEADER_TABLE_SIZE; 0; 0; 0x10; 0].

(** [calloc] and the assignments that follow. *)
Definition free_slot : strim_h2c_stream :=
  Stream 0 false 0 (Phase SS_SENT false 0 0) 0 0 (Rasm 0 [] 0 0 None 0) (MsgQueue [] 0 false None)
    (Response None 0 0 0).

Definition new_connection (w : io) (ns : cstring) : strim_h2c :=
  H2c w (FrameReader [] [] 0 0 0 0 0) (Life false false 0 false 0)
    (take (Z.to_nat (H2C_MAX_NAMESPACE - 1)) ns) 1 (replicate H2C_MAX_STREAMS free_slot)
    H2_INIT_WINDOW H2_INIT_WINDOW (Peer 16384 100 H2_INIT_WINDOW) dyn_reset false dyn_reset
    (HeaderBlock [] 0 0 0 false) (MsgRing (-1) (0, []) (0, [])) false.

Fixpoint handshake (fuel : nat) (deadline : Z) (c : strim_h2c) : option (Z * strim_h2c) :=
  if ready (c_life c) || dead (c_life c) then Some (0, c)
  else
    match fuel with
    | O => None
    | S fuel' =>
        let '(ms, c) := time_left_ms deadline c in
        if ms <=? 0 then Some (H2C_ERR_TIMEOUT, c)
        else
          let '(r, c) := conn_poll_once c in
          if r <? 0 then Some (H2C_ERR_IO, c) else handshake fuel' deadline c
    end.

(** [socket] tells whether the socket was created, connected and made
    non-blocking.  The connection is returned with the result 0 only. *)
Definition h2c_connect (fuel : nat) (out : bool) (sock_path namespace_ : option cstring)
    (socket : bool) (w : io) : option (Z * option strim_h2c) :=
  let or_default s d := match s with Some (x :: s') => x :: s' | _ => d end in
  let path := or_default sock_path (lit "/run/containerd/containerd.sock") in
  let ns := or_default namespace_ (lit "default") in
  if negb out then Some (H2C_ERR_BADARG, None)
  else if H2C_MAX_SOCK_PATH <=? strlen path then Some (H2C_ERR_BADARG, None)
  else if H2C_MAX_NAMESPACE <=? strlen ns then Some (H2C_ERR_BADARG, None)
  else if negb socket then Some (H2C_ERR_IO, None)
  else
    let c := new_connection w ns in
    let '(rc, c) := write H2_PREFACE c in
    if rc <? 0 then Some (H2C_ERR_IO, None)
    else
      let '(rc, c) := frame_write_settings 0 client_settings c in
      if rc <? 0 then Some (H2C_ERR_IO, None)
      else
        let '(now, c) := mono_ms c in
        match handshake fuel (now + H2C_HANDSHAKE_MS) c with
        | None => None
        | Some (rc, c) => Some (rc, if rc <? 0 then None else Some c)
        end.

(** Cancel the live streams, slot by slot, and free everything. *)
Definition cancel_live (c : strim_h2c) (k : nat) : strim_h2c :=
  match stream_at c k with
  | None => c
  | Some s =>
      let c := if s_in_use s && negb (st s =? SS_DONE)
               then (frame_write_rst (s_id s) H2_ERR_CANCEL c).2 else c in
      update_stream k stream_destroy c
  end.

Definition h2c_close (c : strim_h2c) : strim_h2c :=
  fold_left cancel_live (seq 0 (length (streams c))) c.

(** The wait of [h2c_unary]: 0 when the stream is done. *)
Fixpoint unary_wait (fuel : nat) (k : nat) (deadline : Z) (c : strim_h2c) : option (Z * strim_h2c) :=
  if stream_done k c then Some (0, c)
  else
    match fuel with
    | O => None
    | S fuel' =>
        let '(ms, c) := time_left_ms deadline c in
        if ms <=? 0 then
          match stream_at c k with
          | None => Some (H2C_ERR_TIMEOUT, c)
          | Some s => Some (H2C_ERR_TIMEOUT, (frame_write_rst (s_id s) H2_ERR_CANCEL c).2)
          end
        else
          let '(r, c) := conn_poll_once c in
          if r <? 0 then if stream_done k c then Some (0, c) else Some (death_code c, c)
          else unary_wait fuel' k deadline c
    end.

(** The result code and, when it is 0, the response.  [resp_buf] tells whether
    the caller gave a buffer, of [cap] bytes, and [resp_len_out] whether it gave
    a place for the length. *)
Definition h2c_unary (fuel : nat) (method : option cstring) (req : bytes) (resp_buf : bool)
    (cap : Z) (resp_len_out : bool) (timeout_ms : Z) (c : strim_h2c)
  : option (Z * bytes * strim_h2c) :=
  match method with
  | None => Some (H2C_ERR_BADARG, [], c)
  | Some path =>
      if negb resp_len_out then Some (H2C_ERR_BADARG, [], c)
      else if dead (c_life c) then Some (goaway_or_io c, [], c)
      else if negb resp_buf && negb (cap =? 0) then Some (H2C_ERR_BADARG, [], c)
      else if H2C_MAX_MSG <? strlen req then Some (H2C_ERR_TOOBIG, [], c)
      else
        match stream_alloc ST_UNARY c with
        | None => Some (H2C_ERR_NOSTREAM, [], c)
        | Some (k, c) =>
            let c := update_stream k (set_resp (Response (if resp_buf then Some [] else None) cap 0 0)) c in
            let release c := update_stream k stream_destroy c in
            match send_request fuel k path req c with
            | None => None
            | Some (rc, c) =>
                if rc <? 0 then Some (rc, [], release c)
                else
                  let timeout := if 0 <? timeout_ms then u32 timeout_ms
                                 else H2C_DEFAULT_UNARY_TIMEOUT_MS in
                  let '(now, c) := mono_ms c in
                  match unary_wait fuel k (now + timeout) c with
                  | None => None
                  | Some (rc, c) =>
                      match stream_at c k with
                      | None => None
                      | Some s =>
                          if rc <? 0 then Some (rc, [], release c)
                          else if negb (st_err (s_phase s) =? 0)
                          then Some (st_err (s_phase s), [], release c)
                          else if st_status (s_phase s) =? 0 then
                            Some (0, take (Z.to_nat (resp_len (s_resp s))) (default [] (resp (s_resp s))),
                                  release c)
                          else Some (st_status (s_phase s), [], release c)
                      end
                  end
            end
        end
  end.

Definition stream_sent (k : nat) (c : strim_h2c) : bool :=
  match stream_at c k with None => false | Some s => st s =? SS_SENT end.

(** The grace window of [h2c_stream_open]. *)
Fixpoint open_wait (fuel : nat) (k : nat) (grace : Z) (c : strim_h2c) : option (Z * strim_h2c) :=
  if negb (stream_sent k c) then Some (0, c)
  else
    match fuel with
    | O => None
    | S fuel' =>
        let '(ms, c) := time_left_ms grace c in
        if ms <=? 0 then Some (0, c)
        else if dead (c_life c) then Some (death_code c, c)
        else
          let '(r, c) := conn_poll_once c in
          if (r <? 0) && stream_sent k c then Some (death_code c, c)
          else open_wait fuel' k grace c
    end.

Definition h2c_stream_open (fuel : nat) (out : bool) (method : option cstring) (req : bytes)
    (c : strim_h2c) : option (Z * option nat * strim_h2c) :=
  match method with
  | None => Some (H2C_ERR_BADARG, None, c)
  | Some path =>
      if negb out then Some (H2C_ERR_BADARG, None, c)
      else if dead (c_life c) then Some (goaway_or_io c, None, c)
      else if H2C_MAX_MSG <? strlen req then Some (H2C_ERR_TOOBIG, None, c)
      else
        match stream_alloc ST_SUBSCRIBE c with
        | None => Some (H2C_ERR_NOSTREAM, None, c)
        | Some (k, c) =>
            let release c := update_stream k stream_destroy c in
            match send_request fuel k path req c with
            | None => None
            | Some (rc, c) =>
                if rc <? 0 then Some (rc, None, release c)
                else
                  let '(now, c) := mono_ms c in
                  match open_wait fuel k (now + H2C_STREAM_OPEN_GRACE_MS) c with
                  | None => None
                  | Some (rc, c) =>
                      match stream_at c k with
                      | None => None
                      | Some s =>
                          if rc <? 0 then Some (rc, None, release c)
                          else if negb (st_err (s_phase s) =? 0)
                          then Some (st_err (s_phase s), None, release c)
                          else if (st s =? SS_DONE) && negb (saw_headers (s_phase s)) then
                            let status := st_status (s_phase s) in
                            Some (if status =? 0 then H2C_ERR_STREAM_END else status, None, release c)
                          else Some (0, Some k, c)
                      end
                  end
            end
        end
  end.

Fixpoint next_loop (fuel : nat) (k : nat) (deadline : Z) (c : strim_h2c)
  : option (Z * option bytes * strim_h2c) :=
  match stream_at c k with
  | None => None
  | Some s =>
      let q := s_queue s in
      match q_msgs q with
      | m :: ms =>
          let c := update_stream k
                     (set_queue (MsgQueue ms (q_bytes q - strlen m) (q_closed q) (Some m))) c in
          Some (0, Some m, stream_credit_message k (u32 (strlen m + 5)) c)
      | [] =>
          if st s =? SS_DONE then
            Some (if negb (st_err (s_phase s) =? 0) then st_err (s_phase s)
                  else if st_status (s_phase s) =? 0 then H2C_ERR_STREAM_END
                  else st_status (s_phase s), None, c)
          else
            match fuel with
            | O => None
            | S fuel' =>
                let '(ms, c) := time_left_ms deadline c in
                if ms <=? 0 then Some (H2C_ERR_TIMEOUT, None, c)
                else
                  let '(r, c) := conn_poll_once c in
                  if r <? 0 then
                    match stream_at c k with
                    | None => None
                    | Some s =>
                        if negb (bool_decide (q_msgs (s_queue s) = [])) || (st s =? SS_DONE)
                        then next_loop fuel' k deadline c
                        else Some (death_code c, None, c)
                    end
                  else next_loop fuel' k deadline c
            end
      end
  end.

Definition h2c_stream_next (fuel : nat) (k : nat) (timeout_ms : Z) (c : strim_h2c)
  : option (Z * option bytes * strim_h2c) :=
  match stream_at c k with
  | None => None
  | Some s =>
      if negb (s_in_use s) then Some (H2C_ERR_CLOSED, None, c)
      else if timeout_ms <? 0 then next_loop fuel k INT64_MAX c
      else let '(now, c) := mono_ms c in next_loop fuel k (now + timeout_ms) c
  end.

Definition h2c_stream_close (k : nat) (c : strim_h2c) : strim_h2c :=
  match stream_at c k with
  | None => c
  | Some s =>
      if negb (s_in_use s) then c
      else
        let c := if negb (dead (c_life c)) && negb (st s =? SS_DONE)
                 then (frame_write_rst (s_id s) H2_ERR_CANCEL c).2 else c in
        update_stream k (fun s =>
          stream_destroy (set_queue (close_queue (s_queue s))
            (set_phase (Phase SS_DONE (saw_headers (s_phase s)) 0 H2C_ERR_CLOSED) s))) c
  end.

End H2c.
