(* ===== verification/H2cFrames.v ===== *)
(** * Frames survive the socket (containerd/h2c.c)

    The frame reader, fed by a socket that splits the bytes anywhere and is
    interrupted or empty at any time, returns exactly the frames that were
    sent.  Also what the writer puts on the wire. *)

From S2P Require Import Prelude MiniPb Huffman Hpack HpackFacts H2cState H2c.

(** ** Big-endian words *)

Definition word (a b c d : Z) : Z := a * 2 ^ 24 + b * 2 ^ 16 + c * 2 ^ 8 + d.

Lemma word_lor (a b c d : Z) :
  byte_ok a -> byte_ok b -> byte_ok c -> byte_ok d ->
  Z.lor (Z.lor (Z.lor (Z.shiftl a 24) (Z.shiftl b 16)) (Z.shiftl c 8)) d = word a b c d.
Proof.
  unfold byte_ok, word. intros Ha Hb Hc Hd.
  rewrite (lor_shiftl_add a (Z.shiftl b 16) 24) by (rewrite ?Z.shiftl_mul_pow2 by lia; lia).
  rewrite (Z.shiftl_mul_pow2 b 16) by lia.
  replace (a * 2 ^ 24 + b * 2 ^ 16) with (Z.shiftl (a * 2 ^ 8 + b) 16) by (rewrite Z.shiftl_mul_pow2 by lia; lia).
  rewrite lor_shiftl_add by (rewrite ?Z.shiftl_mul_pow2 by lia; lia).
  rewrite (Z.shiftl_mul_pow2 c 8) by lia.
  replace ((a * 2 ^ 8 + b) * 2 ^ 16 + c * 2 ^ 8) with (Z.shiftl ((a * 2 ^ 8 + b) * 2 ^ 8 + c) 8)
    by (rewrite Z.shiftl_mul_pow2 by lia; lia).
  rewrite lor_shiftl_add, ?Z.shiftl_mul_pow2 by lia. lia.
Qed.

Lemma u8_shift (v n : Z) : 0 <= n -> u8 (Z.shiftr v n) = v / 2 ^ n mod 256.
Proof. intros. unfold wrap. by rewrite Z.shiftr_div_pow2. Qed.

Lemma word_bytes (v : Z) :
  0 <= v < 2 ^ 32 -> word (u8 (Z.shiftr v 24)) (u8 (Z.shiftr v 16)) (u8 (Z.shiftr v 8)) (u8 v) = v.
Proof.
  intros Hv. rewrite !u8_shift by lia. unfold word, wrap. change (2 ^ 8) with 256.
  change (2 ^ 16) with (256 * 256). change (2 ^ 24) with (256 * 256 * 256).
  rewrite <- !Z.div_div by lia. Z.div_mod_to_equations. lia.
Qed.

Lemma be32_ok (v : Z) : bytes_ok (be32 v).
Proof. repeat constructor; apply (wrap_range 8); lia. Qed.

Lemma be32_roundtrip (v : Z) (pre post : bytes) (i : nat) :
  0 <= v < 2 ^ 32 -> length pre = i -> be32_of (pre ++ be32 v ++ post) i = v.
Proof.
  intros Hv <-. unfold be32_of.
  assert (H : forall j, (pre ++ be32 v ++ post) !! (length pre + j)%nat = (be32 v ++ post) !! j).
  { intros j. by rewrite lookup_app_r, Nat.add_sub' by lia. }
  pose proof (H 0%nat) as H0. rewrite Nat.add_0_r in H0. rewrite H0, !H.
  cbn [be32 app lookup list_lookup].
  cbn [default from_option id]. rewrite word_lor by (apply (wrap_range 8); lia). by apply word_bytes.
Qed.

(** ** Frames *)

Record frame := Frame { f_type : Z; f_flags : Z; f_sid : Z; f_payload : bytes }.

Definition frame_bytes (f : frame) : bytes :=
  frame_hdr (f_type f) (f_flags f) (f_sid f) (strlen (f_payload f)) ++ f_payload f.

Definition frame_ok (f : frame) : Prop :=
  byte_ok (f_type f) /\ byte_ok (f_flags f) /\ 0 <= f_sid f < 2 ^ 32 /\ strlen (f_payload f) <= 0xffffff.

Definition frame_of (r : frame_reader) : frame := Frame (fr_type r) (fr_flags r) (fr_sid r) (fr_payload r).

Lemma frame_hdr_length (ty fl sid len : Z) : length (frame_hdr ty fl sid len) = 9%nat.
Proof. done. Qed.

Lemma frame_bytes_length (f : frame) : length (frame_bytes f) = (9 + length (f_payload f))%nat.
Proof. unfold frame_bytes. by rewrite length_app, frame_hdr_length. Qed.

Lemma parse_frame_hdr (r : frame_reader) (ty fl sid len : Z) :
  0 <= sid < 2 ^ 32 -> 0 <= len <= 0xffffff -> fr_hdr r = frame_hdr ty fl sid len ->
  parse_header r = FrameReader (fr_hdr r) (fr_payload r) (fr_cap r) len ty fl sid.
Proof.
  intros Hs Hl Hh. unfold parse_header. rewrite Hh. f_equal.
  - cbn [frame_hdr app lookup list_lookup default from_option id]. rewrite !u8_shift by lia. unfold wrap.
    pose proof (Z.mod_pos_bound (len / 2 ^ 16) 256 ltac:(lia)) as H1.
    pose proof (Z.mod_pos_bound (len / 2 ^ 8) 256 ltac:(lia)) as H2.
    pose proof (word_lor 0 (len / 2 ^ 16 mod 256) (len / 2 ^ 8 mod 256) (len mod 2 ^ 8)) as Hw.
    change (Z.shiftl 0 24) with 0 in Hw. rewrite Z.lor_0_l in Hw.
    rewrite Hw by (unfold byte_ok; change (2 ^ 8) with 256; Z.div_mod_to_equations; lia).
    unfold word. change (2 ^ 16) with (256 * 256). rewrite <- Z.div_div by lia.
    change (2 ^ 8) with 256. Z.div_mod_to_equations. lia.
  - pose proof (be32_roundtrip sid (take 5 (frame_hdr ty fl sid len)) [] 5 Hs eq_refl) as H.
    by rewrite app_nil_r in H.
Qed.

(** ** The writer *)
Lemma write_all_quiet (bs sent : bytes) : write_all [] bs sent = (0, [], sent ++ bs).
Proof. destruct bs; simpl; by rewrite ?app_nil_r. Qed.

(** Whatever [send] does, what was sent is a prefix, all of it on success. *)
Lemma write_all_prefix (evs : list tx_ev) (bs sent : bytes) :
  let '(rc, evs', sent') := write_all evs bs sent in
  exists k, sent' = sent ++ take k bs /\ (rc = 0 -> sent' = sent ++ bs) /\ (rc = 0 \/ rc = -1).
Proof.
  revert bs sent. induction evs as [|e evs IH]; intros bs sent.
  - rewrite write_all_quiet. exists (length bs). rewrite firstn_all. auto.
  - destruct bs as [|x bs]; simpl; [exists 0%nat; rewrite app_nil_r; split_and!; [done | intros _; by rewrite app_nil_r | by left]|].
    destruct e as [n| |].
    + specialize (IH (drop n (x :: bs)) (sent ++ take n (x :: bs))).
      destruct (write_all _ _ _) as [[rc evs'] sent']. destruct IH as (k & -> & H0 & Hrc).
      exists (n + k)%nat. split_and!; [|intros Hz; rewrite H0 by done|done].
      * rewrite <- app_assoc. f_equal. rewrite take_take_drop. done.
      * by rewrite <- app_assoc, take_drop.
    + apply IH.
    + exists 0%nat. simpl. rewrite app_nil_r. split_and!; [done | lia | by right].
Qed.

(** ** The reader *)

(** Events that are not errors. *)
Definition rx_quiet (e : rx_ev) : Prop :=
  match e with RxBytes [] | RxFail => False | _ => True end.

Definition rx_bytes (evs : list rx_ev) : bytes :=
  concat (map (fun e => match e with RxBytes bs => bs | _ => [] end) evs).

Definition fed (r : frame_reader) : bytes := fr_hdr r ++ fr_payload r.

(** A frame is being received and is not complete. *)
Record partial (r : frame_reader) : Prop := Partial {
  pa_hdr : (length (fr_hdr r) <= 9)%nat;
  pa_payload : fr_payload r <> [] ->
    length (fr_hdr r) = 9%nat /\ parse_header r = r /\ strlen (fr_payload r) < fr_len r;
}.

Lemma after_read_quiet (n : nat) (evs evs' : list rx_ev) (x : bytes + option Z) :
  (0 < n)%nat -> Forall rx_quiet evs -> after_read n evs = (x, evs') ->
  Forall rx_quiet evs' /\
  match x with
  | inl bs => rx_bytes evs = bs ++ rx_bytes evs' /\ (0 < length bs <= n)%nat /\ (rx_size evs' < rx_size evs)%nat
  | inr None => rx_bytes evs = rx_bytes evs' /\ (rx_size evs' < rx_size evs)%nat
  | inr (Some rc) => rc = 0 /\ rx_bytes evs = rx_bytes evs' /\
      ((evs = [] /\ evs' = []) \/ (rx_size evs' < rx_size evs)%nat)
  end.
Proof.
  intros Hn Hq. unfold after_read, sock_read. destruct evs as [|[bs| | |] evs]; simpl.
  - intros [= <- <-]. split_and!; auto.
  - apply Forall_cons in Hq as [Hb Hq]. destruct bs as [|b bs]; [done|]. destruct n as [|n]; [lia|].
    simpl. intros [= <- <-]. unfold rx_bytes. simpl.
    destruct (drop n bs) as [|y rest] eqn:Ed; simpl.
    + apply (f_equal length) in Ed. rewrite length_drop in Ed. simpl in Ed.
      split; [done|]. rewrite take_ge by lia. split_and!; [done | lia | lia | lia].
    + split; [by constructor|].
      rewrite <- (take_drop n bs) at 1. rewrite Ed. split_and!; [by rewrite <- app_assoc | lia | |].
      * rewrite length_take. lia.
      * apply (f_equal length) in Ed. rewrite length_drop in Ed. simpl in Ed. lia.
  - apply Forall_cons in Hq as [_ Hq]. intros [= <- <-]. split_and!; [done | done | lia].
  - apply Forall_cons in Hq as [_ Hq]. intros [= <- <-]. split_and!; [done | done | done | right; lia].
  - by apply Forall_cons in Hq as [].
Qed.

(** With the header complete, the fields are those of the frame. *)
Lemma reader_header (r : frame_reader) (f : frame) (tl rest : bytes) :
  frame_ok f -> partial r -> length (fr_hdr r) = 9%nat -> fed r ++ tl = frame_bytes f ++ rest ->
  fr_hdr r = frame_hdr (f_type f) (f_flags f) (f_sid f) (strlen (f_payload f)) /\
  fr_payload r ++ tl = f_payload f ++ rest /\
  (if (length (fr_payload r) =? 0)%nat then parse_header r else r) =
    FrameReader (fr_hdr r) (fr_payload r) (fr_cap r) (strlen (f_payload f)) (f_type f) (f_flags f) (f_sid f).
Proof.
  intros (Hty & Hfl & Hsid & Hlen) Hp H9 Heq. unfold fed, frame_bytes in Heq. rewrite <- !app_assoc in Heq.
  apply app_inj_1 in Heq as [Hh Hb]; [|by rewrite H9, frame_hdr_length].
  assert (Hl : 0 <= strlen (f_payload f) <= 0xffffff) by (unfold strlen in *; lia).
  assert (Hparse := parse_frame_hdr r _ _ _ _ Hsid Hl Hh).
  split_and!; [done | done |]. destruct (Nat.eqb_spec (length (fr_payload r)) 0) as [|Hne]; [done|].
  destruct (pa_payload r Hp) as (_ & Hr & _); [by intros E; rewrite E in Hne|].
  by rewrite <- Hparse.
Qed.

(** The result of a call, for the frame [f] at the head of the stream. *)
Definition fill_result (f : frame) (rest : bytes) (evs : list rx_ev) (x : Z * frame_reader * list rx_ev)
  : Prop :=
  let '(rc, r', evs') := x in
  Forall rx_quiet evs' /\
  ((rc = 1 /\ frame_of r' = f /\ rx_bytes evs' = rest /\ (rx_size evs' <= rx_size evs)%nat) \/
   (rc = 0 /\ partial r' /\ fed r' ++ rx_bytes evs' = frame_bytes f ++ rest /\
    (rx_size evs' < rx_size evs)%nat)).

Lemma fill_result_mono (f : frame) (rest : bytes) (evs evs1 : list rx_ev) (x : Z * frame_reader * list rx_ev) :
  (rx_size evs1 < rx_size evs)%nat -> fill_result f rest evs1 x -> fill_result f rest evs x.
Proof. unfold fill_result. destruct x as [[rc r'] evs']. intros Hs [H1 H2]. split; [done|]. naive_solver lia. Qed.

(** A round that reads the payload. *)
Lemma fill_payload (malloc : Z -> bool) (fuel : nat) (r : frame_reader) (evs : list rx_ev) (f : frame)
    (rest : bytes) :
  alloc_ok malloc -> frame_ok f -> partial r -> Forall rx_quiet evs -> length (fr_hdr r) = 9%nat ->
  fed r ++ rx_bytes evs = frame_bytes f ++ rest ->
  (forall r' evs', partial r' -> Forall rx_quiet evs' ->
     fed r' ++ rx_bytes evs' = frame_bytes f ++ rest -> (rx_size evs' < rx_size evs)%nat ->
     fill_result f rest evs (frame_reader_fill malloc fuel r' evs')) ->
  fill_result f rest evs (frame_reader_fill malloc (S fuel) r evs).
Proof.
  intros Ha Hf Hp Hq H9 Heq IH. cbn [frame_reader_fill].
  rewrite (proj2 (Nat.ltb_ge (length (fr_hdr r)) 9)) by lia.
  destruct (reader_header r f _ rest Hf Hp H9 Heq) as (Hh & Hb & Hr1). cbv zeta. rewrite Hr1, Ha, andb_false_r.
  set (start := (length (fr_payload r) =? 0)%nat). set (len := strlen (f_payload f)) in *.
  set (r2 := if start && _ then set_fr_cap _ _ else _).
  assert (Hr2 : exists cap, r2 = FrameReader (fr_hdr r) (fr_payload r) cap len (f_type f) (f_flags f) (f_sid f)).
  { subst r2. destruct (start && _); eexists; reflexivity. }
  clearbody r2. destruct Hr2 as [cap ->]. cbn [fr_len fr_payload].
  assert (Hparse : forall p, let r3 := FrameReader (fr_hdr r) p cap len (f_type f) (f_flags f) (f_sid f) in
                   parse_header r3 = r3).
  { intros p r3. destruct Hf as (_ & _ & Hsid & Hl).
    apply (parse_frame_hdr r3 (f_type f) (f_flags f) (f_sid f) len Hsid); [|done].
    subst len. unfold strlen in *. lia. }
  destruct (start && (len =? 0)) eqn:E0.
  { apply andb_true_iff in E0 as [Es El]. subst start. apply Nat.eqb_eq in Es. bool_props.
    apply nil_length_inv in Es. assert (Hnil : f_payload f = []).
    { apply nil_length_inv. subst len. unfold strlen in El. lia. }
    rewrite Es, Hnil in Hb. simpl in Hb. split; [done|]. left. split_and!; [done | | done | lia].
    unfold frame_of. simpl. rewrite Es, <- Hnil. by destruct f. }
  assert (Hshort : (length (fr_payload r) < Z.to_nat len)%nat).
  { destruct (Nat.eqb_spec (length (fr_payload r)) 0) as [H0|H0]; subst start; simpl in E0.
    - bool_props. subst len. unfold strlen in *. lia.
    - destruct (pa_payload r Hp) as (_ & _ & Hlt); [by intros Hn; rewrite Hn in H0|].
      cbv iota in Hr1. rewrite Hr1 in Hlt. simpl in Hlt.
      unfold strlen in Hlt. lia. }
  destruct (after_read _ evs) as [x evs'] eqn:Er.
  apply after_read_quiet in Er as [Hq' Hx]; [|lia|done]. destruct x as [bs|[rc|]].
  - destruct Hx as (Hbs & Hl & Hs). unfold add_payload. cbn [fr_hdr fr_payload fr_cap fr_len fr_type fr_flags fr_sid].
    assert (Hcut : (fr_payload r ++ bs) ++ rx_bytes evs' = f_payload f ++ rest) by (by rewrite <- app_assoc, <- Hbs).
    destruct (len <=? strlen (fr_payload r ++ bs)) eqn:El; bool_props.
    + apply app_inj_1 in Hcut as [Hpay Hrest].
      2:{ subst len. unfold strlen in *. rewrite length_app in *. lia. }
      split; [done|]. left. split_and!; [done | | done | lia].
      unfold frame_of. simpl. rewrite Hpay. by destruct f.
    + apply IH; [| done | | done].
      * split; cbn [fr_hdr fr_payload fr_len]; [lia|]. intros _. split_and!; [done | apply Hparse | done].
      * unfold fed. cbn [fr_hdr fr_payload]. rewrite <- app_assoc, Hcut, app_assoc. unfold frame_bytes. by rewrite Hh.
  - destruct Hx as (-> & Hbs & Hs). split; [done|]. right.
    assert (Hne : evs <> []).
    { intros ->. rewrite app_nil_r in Hb. apply (f_equal length) in Hb. rewrite length_app in Hb.
      subst len. unfold strlen in Hshort. lia. }
    split_and!; [done | | | by destruct Hs as [[]|]].
    + split; cbn [fr_hdr fr_payload fr_len]; [lia|]. intros _.
      split_and!; [done | apply Hparse | unfold strlen; lia].
    + unfold fed. cbn [fr_hdr fr_payload]. rewrite <- Hbs. unfold frame_bytes. by rewrite <- !app_assoc, Hb, Hh.
  - destruct Hx as [Hbs Hs]. apply IH; [| done | | done].
    + split; cbn [fr_hdr fr_payload fr_len]; [lia|]. intros _.
      split_and!; [done | apply Hparse | unfold strlen; lia].
    + unfold fed. cbn [fr_hdr fr_payload]. rewrite <- Hbs. unfold frame_bytes. by rewrite <- !app_assoc, Hb, Hh.
Qed.

Lemma fill_frame (malloc : Z -> bool) (fuel : nat) (r : frame_reader) (evs : list rx_ev) (f : frame)
    (rest : bytes) :
  alloc_ok malloc -> frame_ok f -> partial r -> Forall rx_quiet evs ->
  fed r ++ rx_bytes evs = frame_bytes f ++ rest -> (rx_size evs <= fuel)%nat ->
  fill_result f rest evs (frame_reader_fill malloc fuel r evs).
Proof.
  intros Ha Hf. revert r evs. induction fuel as [|fuel IH]; intros r evs Hp Hq Heq Hfuel.
  { destruct evs as [|[]]; simpl in Hfuel; lia. }
  destruct (Nat.ltb_spec (length (fr_hdr r)) 9) as [Hlt|Hge].
  - assert (Hpay : fr_payload r = []).
    { destruct (fr_payload r) eqn:E; [done|]. destruct (pa_payload r Hp); [by rewrite E | lia]. }
    cbn [frame_reader_fill]. rewrite (proj2 (Nat.ltb_lt _ _) Hlt).
    destruct (after_read _ evs) as [x evs'] eqn:Er.
    apply after_read_quiet in Er as [Hq' Hx]; [|lia|done]. destruct x as [bs|[rc|]].
    + destruct Hx as (Hb & Hl & Hs). apply (fill_result_mono f rest evs evs'); [done|].
      apply IH; [| done | | lia].
      * split; simpl; [rewrite length_app; lia | by rewrite Hpay].
      * rewrite <- Heq. unfold fed. simpl. rewrite Hpay, !app_nil_r, Hb. by rewrite app_assoc.
    + destruct Hx as (-> & Hb & Hs). split; [done|]. right. split_and!; [done | done | by rewrite <- Hb |].
      destruct Hs as [[-> _]|]; [|done]. exfalso. apply (f_equal length) in Heq.
      unfold fed in Heq. rewrite Hpay, !length_app, frame_bytes_length in Heq. simpl in Heq. lia.
    + destruct Hx as [Hb Hs]. apply (fill_result_mono f rest evs evs'); [done|].
      apply IH; [done | done | by rewrite <- Hb | lia].
  - apply fill_payload; try done; [pose proof (pa_hdr r Hp); lia|].
    intros r' evs' Hp' Hq' Heq' Hs. apply (fill_result_mono f rest evs evs'); [done|].
    apply IH; [done | done | done | lia].
Qed.

(** ** Streams of frames *)

(** Call the reader [n] times, as successive polls do, and collect the frames
    it completes. *)
Fixpoint read_frames (malloc : Z -> bool) (n : nat) (r : frame_reader) (evs : list rx_ev) : list frame :=
  match n with
  | O => []
  | S n' =>
      match frame_reader_fill malloc (rx_size evs) r evs with
      | (rc, r', evs') =>
          if rc =? 1 then frame_of r' :: read_frames malloc n' (frame_reader_reset r') evs'
          else if rc =? 0 then read_frames malloc n' r' evs'
          else []
      end
  end.

Lemma partial_reset (r : frame_reader) : partial (frame_reader_reset r) /\ fed (frame_reader_reset r) = [].
Proof. split; [|done]. split; simpl; [lia | done]. Qed.

Lemma read_frames_idle (malloc : Z -> bool) (n : nat) (r : frame_reader) (evs : list rx_ev) :
  alloc_ok malloc -> fr_hdr r = [] -> fr_payload r = [] -> Forall rx_quiet evs -> rx_bytes evs = [] ->
  read_frames malloc n r evs = [].
Proof.
  intros Ha Hh Hp. revert evs. induction n as [|n IH]; intros evs Hq Hb; [done|]. cbn [read_frames].
  assert (H : forall fuel evs, Forall rx_quiet evs -> rx_bytes evs = [] ->
            exists evs', frame_reader_fill malloc fuel r evs = (0, r, evs') /\ Forall rx_quiet evs' /\
              rx_bytes evs' = []).
  { clear IH Hq Hb evs. intros fuel. induction fuel as [|fuel IH]; intros evs Hq Hb; [by exists evs|].
    cbn [frame_reader_fill]. rewrite Hh. cbn [length Nat.ltb Nat.leb].
    destruct (after_read 9 evs) as [x evs'] eqn:Er. change (9 - 0)%nat with 9%nat. rewrite Er.
    apply after_read_quiet in Er as [Hq' Hx]; [|lia|done]. destruct x as [bs|[rc|]].
    - destruct Hx as (Hbs & Hl & _). rewrite Hb in Hbs. destruct bs; simpl in *; [lia | done].
    - destruct Hx as (-> & Hbs & _). exists evs'. by rewrite <- Hbs.
    - destruct Hx as [Hbs _]. apply IH; [done | by rewrite <- Hbs]. }
  destruct (H (rx_size evs) evs Hq Hb) as (evs' & -> & Hq' & Hb'). simpl. by apply IH.
Qed.

(** C25: frames survive the socket.  However the bytes of a sequence of frames
    are cut into reads, and wherever a read is interrupted or finds nothing,
    the reader returns exactly those frames, in order, with type, flags,
    stream and payload intact (payloads up to the 24-bit limit), and nothing
    else; the next call continues where the last one stopped. *)
Theorem frames_survive_segmentation (malloc : Z -> bool) (r : frame_reader) (evs : list rx_ev)
    (fs : list frame) (n : nat) :
  alloc_ok malloc -> Forall frame_ok fs -> Forall rx_quiet evs ->
  rx_bytes evs = concat (map frame_bytes fs) -> (rx_size evs + length fs <= n)%nat ->
  read_frames malloc n (frame_reader_reset r) evs = fs.
Proof.
  intros Ha Hf Hq Hb Hn.
  enough (H : forall n fs r evs, (rx_size evs + length fs <= n)%nat -> Forall frame_ok fs -> partial r ->
            Forall rx_quiet evs -> fed r ++ rx_bytes evs = concat (map frame_bytes fs) ->
            (fs = [] -> fr_hdr r = [] /\ fr_payload r = []) ->
            read_frames malloc n r evs = fs).
  { destruct (partial_reset r) as [Hp Hfed]. by apply H. }
  clear - Ha. intros n. induction n as [|n IH]; intros fs r evs Hn Hf Hp Hq Hb H0.
  { destruct evs as [|[]]; simpl in Hn; lia. }
  destruct fs as [|f fs].
  - destruct (H0 eq_refl) as [Hh Hpay]. apply read_frames_idle; try done.
    unfold fed in Hb. by rewrite Hh, Hpay in Hb.
  - apply Forall_cons in Hf as [Hf Hfs]. cbn [map concat] in Hb. cbn [read_frames].
    pose proof (fill_frame malloc (rx_size evs) r evs f _ Ha Hf Hp Hq Hb (le_n _)) as Hfill.
    destruct (frame_reader_fill malloc (rx_size evs) r evs) as [[rc r'] evs'].
    destruct Hfill as [Hq' [(-> & Hof & Hrest & Hs)|(-> & Hp' & Heq & Hs)]]; simpl.
    + rewrite Hof. f_equal. destruct (partial_reset r') as [Hpr Hfed]. apply IH; try done.
      simpl in Hn. lia.
    + apply IH; try done; [simpl in *; lia | by constructor].
Qed.

Lemma frames_survive_segmentation_witness :
  let f1 := Frame H2_PING 0 0 [1; 2; 3; 4; 5; 6; 7; 8] in
  let f2 := Frame H2_SETTINGS 0 0 [] in
  let wire := frame_bytes f1 ++ frame_bytes f2 in
  read_frames (fun _ => true) 100 (frame_reader_reset (FrameReader [] [] 0 0 0 0 0))
    [RxBytes (take 5 wire); RxAgain; RxBytes (take 7 (drop 5 wire)); RxIntr; RxBytes (drop 12 wire)] = [f1; f2].
Proof.
  cbv zeta. apply frames_survive_segmentation; [done | | | by vm_compute | vm_compute; lia].
  - by repeat constructor.
  - by repeat constructor.
Defined.
