(* ===== verification/H2cFacts.v ===== *)
(** * The HTTP/2 connection: shared facts (containerd/h2c.c)

    What changing one stream, finding one, and writing a frame do to the rest
    of the connection. *)

From S2P Require Import Prelude MiniPb Huffman Hpack H2cState H2c.

(** ** Changing one stream *)

Definition put (k : nat) (s : strim_h2c_stream) (c : strim_h2c) : strim_h2c := update_stream k (fun _ => s) c.

Lemma stream_at_put (k : nat) (s s' : strim_h2c_stream) (c : strim_h2c) :
  stream_at c k = Some s -> stream_at (put k s' c) k = Some s'.
Proof. unfold stream_at, put, update_stream. simpl. intros H. by rewrite list_lookup_alter_eq, H. Qed.

Lemma update_put (k : nat) (f : strim_h2c_stream -> strim_h2c_stream) (s : strim_h2c_stream) (c : strim_h2c) :
  stream_at c k = Some s -> update_stream k f c = put k (f s) c.
Proof.
  unfold stream_at, put, update_stream. intros H. f_equal. apply list_eq. intros i.
  destruct (decide (k = i)) as [<-|Hne].
  - by rewrite !list_lookup_alter_eq, H.
  - by rewrite !list_lookup_alter_ne.
Qed.

Lemma put_put (k : nat) (s s' : strim_h2c_stream) (c : strim_h2c) : put k s' (put k s c) = put k s' c.
Proof.
  unfold put, update_stream, set_streams. simpl. f_equal. apply list_eq. intros i.
  destruct (decide (k = i)) as [<-|Hne].
  - rewrite !list_lookup_alter_eq. by destruct (streams c !! k).
  - by rewrite !list_lookup_alter_ne.
Qed.

Lemma put_same (k : nat) (s : strim_h2c_stream) (c : strim_h2c) : stream_at c k = Some s -> put k s c = c.
Proof.
  unfold stream_at, put, update_stream. intros H. destruct c. unfold set_streams. simpl in *. f_equal.
  apply list_eq. intros i. destruct (decide (k = i)) as [<-|Hne].
  - by rewrite list_lookup_alter_eq, H.
  - by rewrite list_lookup_alter_ne.
Qed.

Lemma put_conn_window (k : nat) (s : strim_h2c_stream) (w : Z) (c : strim_h2c) :
  put k s (set_conn_recv_window w c) = set_conn_recv_window w (put k s c).
Proof. done. Qed.

(** ** Finding a stream *)
Lemma find_slot_some (f : strim_h2c_stream -> bool) (l : list strim_h2c_stream) (i k : nat) :
  find_slot f i l = Some k -> exists s, (i <= k)%nat /\ l !! (k - i)%nat = Some s /\ f s = true.
Proof.
  revert i. induction l as [|s l IH]; intros i; simpl; [done|]. destruct (f s) eqn:Hf.
  - intros [= <-]. exists s. by rewrite Nat.sub_diag.
  - intros (s' & Hle & Hl & Hs')%IH. exists s'. split; [lia|]. split; [|done].
    by replace (k - i)%nat with (S (k - S i)) by lia.
Qed.

Lemma stream_find_some (c : strim_h2c) (sid : Z) (k : nat) :
  stream_find c sid = Some k ->
  exists s, stream_at c k = Some s /\ s_in_use s = true /\ s_id s = sid.
Proof.
  intros (s & _ & Hl & Hf)%find_slot_some. rewrite Nat.sub_0_r in Hl. exists s. bool_props. done.
Qed.

Lemma find_slot_alter (f : strim_h2c_stream -> bool) (s s' : strim_h2c_stream)
    (l : list strim_h2c_stream) (i k : nat) :
  l !! k = Some s -> f s' = f s -> find_slot f i (alter (fun _ => s') k l) = find_slot f i l.
Proof.
  intros Hl Hf. revert i k Hl. induction l as [|x l IH]; intros i k Hl; [done|]. destruct k as [|k]; simpl in *.
  - injection Hl as ->. by rewrite Hf.
  - by rewrite (IH _ _ Hl).
Qed.

(** A stream that keeps its identifier is found where it was. *)
Lemma stream_find_put (k : nat) (s s' : strim_h2c_stream) (c : strim_h2c) (sid : Z) :
  stream_at c k = Some s -> s_in_use s' = s_in_use s -> s_id s' = s_id s ->
  stream_find (put k s' c) sid = stream_find c sid.
Proof. intros Hs Hu Hi. apply (find_slot_alter _ s); [done|]. by rewrite Hu, Hi. Qed.

(** ** Writing *)

(** Nothing is read from the socket, polled for or asked of the clock. *)
Definition write_only (w w' : io) : Prop :=
  rx_evs w = rx_evs w' /\ polls w = polls w' /\ ticks w = ticks w'.

Lemma set_io_set_io (w w' : io) (c : strim_h2c) : set_io w (set_io w' c) = set_io w c.
Proof. done. Qed.

Lemma set_io_same (c : strim_h2c) : set_io (c_io c) c = c.
Proof. by destruct c. Qed.

(** A frame changes nothing but the sending side of the socket. *)
Lemma write_io (data : bytes) (c : strim_h2c) :
  exists w, (write data c).2 = set_io w c /\ write_only w (c_io c).
Proof. unfold write. destruct (write_all _ _ _) as [[rc evs] sent]. by eexists. Qed.

Lemma frame_write_io (type flags sid : Z) (payload : bytes) (c : strim_h2c) :
  exists w, (frame_write type flags sid payload c).2 = set_io w c /\ write_only w (c_io c).
Proof.
  unfold frame_write. destruct (_ <? _); [exists (c_io c); by rewrite set_io_same|].
  destruct (write_io (frame_hdr type flags sid (strlen payload)) c) as (w & Hw & Hq).
  destruct (write (frame_hdr _ _ _ _) c) as [rc c1]. simpl in Hw. subst c1.
  destruct (rc <? 0); [by exists w|]. destruct (strlen payload =? 0); [by exists w|].
  destruct (write_io payload (set_io w c)) as (w' & Hw' & Hq'). destruct (write payload _) as [rc' c2].
  simpl in Hw'. subst c2. rewrite set_io_set_io. exists w'.
  assert (write_only w' (c_io c)) by (unfold write_only in *; simpl in Hq'; intuition congruence).
  by destruct (rc' <? 0).
Qed.

(** ** Credit *)
Lemma credit_spec (k : nat) (s : strim_h2c_stream) (total : Z) (c : strim_h2c) :
  stream_at c k = Some s -> 0 < total -> recv_window s + total <= 0x7fffffff ->
  conn_recv_window c + total <= 0x7fffffff -> 0 <= recv_window s -> 0 <= conn_recv_window c ->
  exists w, stream_credit_message k total c =
    set_io w (set_conn_recv_window (conn_recv_window c + total)
                (put k (set_recv_window (recv_window s + total) s) c)).
Proof.
  intros Hs Hpos Hw Hc H0 H1. unfold stream_credit_message. rewrite Hs.
  rewrite (proj2 (Z.eqb_neq total 0)) by lia. rewrite (to_int_small total) by lia.
  rewrite (proj2 (Z.ltb_ge _ _)) by lia. rewrite (proj2 (Z.ltb_ge _ _)) by lia.
  rewrite (update_put k _ s c Hs). unfold frame_write_window_update.
  set (c' := set_conn_recv_window _ _).
  destruct (frame_write_io H2_WINDOW_UPDATE 0 (s_id s) (be32 total) c') as (w & Hw1 & _).
  destruct (frame_write _ _ (s_id s) _ c') as [rc c1]. simpl in Hw1. subst c1.
  destruct (frame_write_io H2_WINDOW_UPDATE 0 0 (be32 total) (set_io w c')) as (w' & Hw2 & _).
  destruct (frame_write _ _ 0 _ _) as [rc' c2]. simpl in Hw2. subst c2. by exists w'.
Qed.
