(* ===== verification/H2cReassembly.v ===== *)
(** * gRPC messages (containerd/h2c.c)

    The reassembler of a server stream, fed with DATA payloads cut anywhere,
    queues exactly the messages that were sent. *)

From S2P Require Import Prelude MiniPb Huffman Hpack HpackFacts H2cState H2c H2cFrames H2cFacts.

(** ** The state of the reassembler *)

(** The header bytes of a message. *)
Definition grpc_hdr (msg : bytes) : bytes := 0 :: be32 (strlen msg).

Lemma grpc_frame_hdr (msg : bytes) : grpc_frame msg = grpc_hdr msg ++ msg.
Proof. done. Qed.

Lemma grpc_hdr_len (msg : bytes) : strlen msg < 2 ^ 32 -> be32_of (grpc_hdr msg) 1 = strlen msg.
Proof.
  intros H. pose proof (be32_roundtrip (strlen msg) [0] [] 1) as Hr. rewrite app_nil_r in Hr.
  apply Hr; [unfold strlen in *; lia | done].
Qed.

(** Receiving the body of [msg], of which [body] is there. *)
Definition cap_of (msg : bytes) : Z := if strlen msg =? 0 then 1 else strlen msg.

Definition in_body (msg body : bytes) : rasm :=
  Rasm 1 (grpc_hdr msg) (strlen msg) (strlen body) (Some body) (cap_of msg).

(** After [msg]. *)
Definition restarted (msg : bytes) : rasm := Rasm 0 [] (strlen msg) (strlen msg) None 0.

Definition msg_ok (m : bytes) : Prop := strlen m <= H2C_MAX_MSG.

(** The bytes [tail] of the next message have been received: part of the
    header, or the header and part of the body. *)
Inductive rasm_at (r : rasm) (tail : bytes) : Prop :=
  | rasm_in_header :
      rasm_state r = 0 -> rasm_hdr r = tail -> (length tail < 5)%nat -> rasm_at r tail
  | rasm_in_body (msg body rest : bytes) :
      r = in_body msg body -> msg_ok msg -> msg = body ++ rest -> rest <> [] -> tail = grpc_hdr msg ++ body ->
      rasm_at r tail.

(** What the queue holds after [msgs] arrive. *)
Definition queue_after (msgs : list bytes) (q : msg_queue) : msg_queue :=
  MsgQueue (q_msgs q ++ msgs) (q_bytes q + strlen (concat msgs)) (q_closed q) (last_msg q).

Lemma queue_after_nil (q : msg_queue) : queue_after [] q = q.
Proof. destruct q. unfold queue_after, strlen. simpl. by rewrite app_nil_r, Z.add_0_r. Qed.

Lemma queue_after_app (ms ms' : list bytes) (q : msg_queue) :
  queue_after ms' (queue_after ms q) = queue_after (ms ++ ms') q.
Proof.
  unfold queue_after. simpl. rewrite <- app_assoc. f_equal. rewrite concat_app, strlen_app. lia.
Qed.

Lemma write_at_end (bs buf : bytes) : write_at (length buf) bs buf = buf ++ bs.
Proof. unfold write_at. rewrite firstn_all, drop_ge by lia. by rewrite app_nil_r. Qed.

Lemma cap_of_ge (msg : bytes) : strlen msg <= cap_of msg.
Proof. unfold cap_of. destruct (_ =? 0) eqn:E; bool_props; lia. Qed.

Lemma long_prefix (a b x y : bytes) :
  a ++ x = b ++ y -> (length b <= length a)%nat -> exists z, a = b ++ z /\ z ++ x = y.
Proof.
  intros Heq Hle. apply app_eq_inv in Heq as [(z & -> & ->)|(z & -> & ->)]; [by exists z|].
  rewrite length_app in Hle. destruct z; [|simpl in Hle; lia]. exists []. by rewrite !app_nil_r.
Qed.

(** ** One message at a time *)

Section Subscribe.
Context (malloc : Z -> bool) (k : nat).
Hypothesis malloc_ok : alloc_ok malloc.

Lemma copy_body_spec (c : strim_h2c) (s : strim_h2c_stream) (msg body bs rest : bytes) :
  stream_at c k = Some s -> s_type s = ST_SUBSCRIBE -> msg_ok msg -> s_rasm s = in_body msg body ->
  msg = body ++ bs ++ rest ->
  copy_body k bs c = put k (set_rasm (in_body msg (body ++ bs)) s) c.
Proof.
  intros Hs Hty Hok Hr Hm. unfold copy_body, set_rasm_of. rewrite Hs, Hty, Hr. unfold in_body. simpl.
  assert (Hlen : strlen body + strlen bs <= strlen msg) by (rewrite Hm, !strlen_app; unfold strlen; lia).
  pose proof (cap_of_ge msg). rewrite (proj2 (Z.leb_le (strlen body + strlen bs) (cap_of msg))) by lia. unfold require.
  rewrite (update_put k _ s c Hs). do 3 f_equal.
  - unfold msg_ok, H2C_MAX_MSG, strlen in *. rewrite length_app, wrap_small by lia. lia.
  - unfold strlen. rewrite Nat2Z.id. by rewrite write_at_end.
Qed.

Lemma finish_message_spec (c : strim_h2c) (s : strim_h2c_stream) (msg : bytes) :
  stream_at c k = Some s -> s_type s = ST_SUBSCRIBE ->
  q_bytes (s_queue s) + strlen msg <= H2C_QUEUE_MAX_BYTES -> s_rasm s = in_body msg msg ->
  finish_message malloc k c =
    (put k (set_rasm (restarted msg)
              (set_queue (queue_after [msg] (s_queue s)) s)) c, true).
Proof.
  intros Hs Hty Hq Hr. unfold finish_message. rewrite Hs, Hty, Hr. unfold in_body. simpl.
  rewrite (proj2 (Z.ltb_ge _ _) Hq). rewrite (update_put k _ s c Hs).
  unfold set_rasm_of. rewrite (update_put k _ _ _ (stream_at_put k s _ c Hs)), put_put. do 2 f_equal.
  unfold queue_push, queue_after. rewrite malloc_ok. simpl. f_equal. f_equal.
  unfold strlen. rewrite Nat2Z.id, firstn_all, app_nil_r. done.
Qed.

(** The rest of the body, or as much of it as there is. *)
Lemma feed_body_spec (c : strim_h2c) (s : strim_h2c_stream) (msg body rest data : bytes) :
  stream_at c k = Some s -> s_type s = ST_SUBSCRIBE -> msg_ok msg ->
  q_bytes (s_queue s) + strlen msg <= H2C_QUEUE_MAX_BYTES ->
  s_rasm s = in_body msg body -> msg = body ++ rest ->
  (forall more, data = rest ++ more ->
     feed_body malloc k data c =
       (put k (set_rasm (restarted msg)
                 (set_queue (queue_after [msg] (s_queue s)) s)) c, Some more)) /\
  (forall rest', rest = data ++ rest' -> rest' <> [] ->
     feed_body malloc k data c = (put k (set_rasm (in_body msg (body ++ data)) s) c, Some [])).
Proof.
  intros Hs Hty Hok Hq Hr Hm. unfold feed_body. rewrite Hs, Hr. cbn [in_body rasm_msglen rasm_got].
  assert (Hneed : Z.to_nat (strlen msg - strlen body) = length rest)
    by (rewrite Hm, strlen_app; unfold strlen; lia).
  rewrite Hneed. split.
  - intros more ->. rewrite length_app, Nat.min_l, take_app_length, drop_app_length by lia.
    rewrite (copy_body_spec c s msg body rest []) by (done || by rewrite app_nil_r).
    rewrite (stream_at_put k s _ c Hs). cbn [set_rasm s_rasm in_body rasm_msglen rasm_got].
    rewrite <- Hm, Z.leb_refl.
    rewrite (finish_message_spec _ (set_rasm (in_body msg msg) s) msg) by
      (done || apply (stream_at_put k s _ c Hs)).
    by rewrite put_put.
  - intros rest' -> Hne. rewrite Nat.min_r, firstn_all, drop_all by (rewrite length_app; lia).
    rewrite (copy_body_spec c s msg body data rest') by done.
    rewrite (stream_at_put k s _ c Hs). cbn [set_rasm s_rasm in_body rasm_msglen rasm_got].
    assert (Hgt : strlen (body ++ data) < strlen msg).
    { rewrite Hm, !strlen_app. destruct rest'; [done|]. unfold strlen. simpl. lia. }
    by rewrite (proj2 (Z.leb_gt _ _) Hgt).
Qed.

(** The header, or as much of it as there is. *)
Lemma feed_header_spec (c : strim_h2c) (s : strim_h2c_stream) (msg hdr data : bytes) :
  stream_at c k = Some s -> s_type s = ST_SUBSCRIBE -> msg_ok msg ->
  rasm_state (s_rasm s) = 0 -> rasm_hdr (s_rasm s) = hdr -> (length hdr < 5)%nat ->
  (forall more, hdr ++ data = grpc_hdr msg ++ more ->
     feed_header malloc k data c = (put k (set_rasm (in_body msg []) s) c, Some more)) /\
  ((length (hdr ++ data) < 5)%nat -> exists r, rasm_at r (hdr ++ data) /\
     feed_header malloc k data c = (put k (set_rasm r s) c, None)).
Proof.
  intros Hs Hty Hok H0 Hh Hlt. unfold feed_header, set_rasm_of. rewrite Hs, Hh, H0. split.
  - intros more Heq. assert (Hl5 : length (grpc_hdr msg) = 5%nat) by done.
    assert (Hlen := f_equal length Heq). rewrite !length_app, Hl5 in Hlen.
    rewrite Nat.min_l by lia.
    assert (Hcut : hdr ++ take (5 - length hdr) data = grpc_hdr msg /\ drop (5 - length hdr) data = more).
    { rewrite <- (take_drop (5 - length hdr) data) in Heq. rewrite app_assoc in Heq.
      apply app_inj_1 in Heq; [done|]. rewrite length_app, length_take, Hl5. lia. }
    destruct Hcut as [-> ->]. rewrite Hl5. cbn [Nat.ltb Nat.leb]. change (default 0 (grpc_hdr msg !! 0%nat)) with 0.
    cbn [Z.eqb negb]. rewrite grpc_hdr_len by (unfold msg_ok, H2C_MAX_MSG in Hok; lia).
    rewrite (proj2 (Z.ltb_ge _ _) Hok), Hty. change (ST_SUBSCRIBE =? ST_SUBSCRIBE) with true. cbv iota.
    rewrite malloc_ok. cbn [negb].
    rewrite (update_put k _ s c Hs), (update_put k _ _ _ (stream_at_put k s _ c Hs)), put_put.
    rewrite (update_put k _ _ _ (stream_at_put k s _ c Hs)), put_put. done.
  - intros Hshort. rewrite length_app in Hshort. rewrite Nat.min_r, firstn_all by lia.
    rewrite (proj2 (Nat.ltb_lt _ 5)) by (rewrite length_app; lia).
    rewrite (update_put k _ s c Hs). eexists. split; [|reflexivity].
    apply rasm_in_header; [done | done | rewrite length_app; lia].
Qed.

(** *** A whole payload *)

(** [data] from state [r] with [tail] received turns it into [r'] with [tail'],
    and completes the messages [got]. *)
Definition fed (tail data : bytes) (got : list bytes) (tail' : bytes) : Prop :=
  tail ++ data = concat (map grpc_frame got) ++ tail'.

Definition after_feed (s : strim_h2c_stream) (r : rasm) (got : list bytes) : strim_h2c_stream :=
  set_rasm r (set_queue (queue_after got (s_queue s)) s).

Lemma after_feed_more (s : strim_h2c_stream) (r r' : rasm) (got got' : list bytes) :
  after_feed (after_feed s r got) r' got' = after_feed s r' (got ++ got').
Proof. unfold after_feed. simpl. by rewrite queue_after_app. Qed.

Definition room (s : strim_h2c_stream) (msgs : list bytes) : Prop :=
  q_bytes (s_queue s) + strlen (concat msgs) <= H2C_QUEUE_MAX_BYTES.

(** What a round of [feed_loop] that starts in a body leads to. *)
Definition feeds (fuel : nat) : Prop := forall c s tail data future msgs,
  stream_at c k = Some s -> s_type s = ST_SUBSCRIBE -> Forall msg_ok msgs -> room s msgs ->
  rasm_at (s_rasm s) tail -> (length data <= fuel)%nat ->
  tail ++ data ++ future = concat (map grpc_frame msgs) ->
  exists got todo tail' r, msgs = got ++ todo /\ rasm_at r tail' /\ fed tail data got tail' /\
    feed_loop malloc fuel k data c = put k (after_feed s r got) c.

Lemma rasm_fresh (r : rasm) : rasm_state r = 0 -> rasm_hdr r = [] -> rasm_at r [].
Proof. intros. apply rasm_in_header; [done | done | simpl; lia]. Qed.

Lemma after_feed_nil (s : strim_h2c_stream) (r : rasm) : after_feed s r [] = set_rasm r s.
Proof. unfold after_feed. rewrite queue_after_nil. by destruct s. Qed.

Lemma room_cons (s : strim_h2c_stream) (r : rasm) (m : bytes) (ms : list bytes) :
  room s (m :: ms) -> q_bytes (s_queue s) + strlen m <= H2C_QUEUE_MAX_BYTES /\ room (after_feed s r [m]) ms.
Proof.
  unfold room. simpl. rewrite app_nil_r, strlen_app. unfold strlen in *. lia.
Qed.

Lemma feed_round_body (fuel : nat) (c : strim_h2c) (s : strim_h2c_stream)
    (m body rest data future : bytes) (ms : list bytes) :
  feeds fuel -> stream_at c k = Some s -> s_type s = ST_SUBSCRIBE -> Forall msg_ok (m :: ms) ->
  room s (m :: ms) -> s_rasm s = in_body m body -> m = body ++ rest -> (length data <= S fuel)%nat ->
  (rest = [] -> (length data <= fuel)%nat) ->
  data ++ future = rest ++ concat (map grpc_frame ms) ->
  exists got todo tail' r, m :: ms = got ++ todo /\ rasm_at r tail' /\
    fed (grpc_hdr m ++ body) data got tail' /\
    match feed_body malloc k data c with
    | (c, None) => c
    | (c, Some data) => feed_loop malloc fuel k data c
    end = put k (after_feed s r got) c.
Proof.
  intros IH Hs Hty Hok Hroom Hr Hm Hfuel Hfuel0 Heq. apply Forall_cons in Hok as [Hokm Hoks].
  destruct (room_cons s (restarted m) m ms Hroom) as [Hq Hroom'].
  destruct (feed_body_spec c s m body rest data Hs Hty Hokm Hq Hr Hm) as [Hfull Hpart].
  apply app_eq_inv in Heq as [(more & -> & Hrest)|(rest' & -> & Hrest)].
  - rewrite (Hfull more eq_refl).
    change (set_rasm _ (set_queue _ s)) with (after_feed s (restarted m) [m]).
    rewrite length_app in Hfuel, Hfuel0.
    assert (Hlt : (length more <= fuel)%nat) by (destruct rest; [apply Hfuel0; done | simpl in Hfuel; lia]).
    destruct (IH _ (after_feed s (restarted m) [m]) [] more future ms (stream_at_put k s _ c Hs) Hty Hoks Hroom'
                (rasm_fresh (restarted m) eq_refl eq_refl)
                Hlt (eq_sym Hrest)) as (got & todo & tail' & r & -> & Hat & Hfed & Hrun).
    exists (m :: got), todo, tail', r. split; [done|]. split; [done|]. rewrite Hrun, put_put, after_feed_more.
    split; [|done]. unfold fed in *. cbn [map concat app] in Hfed |- *.
    by rewrite <- (app_assoc (grpc_frame m)), <- Hfed, grpc_frame_hdr, <- !app_assoc, (app_assoc body), <- Hm.
  - destruct rest' as [|b rest'].
    + rewrite app_nil_r in *. rewrite (Hfull [] (eq_sym (app_nil_r _))).
      exists [m], ms, [], (restarted m). split; [done|].
      split; [by apply rasm_fresh|]. split; [|by destruct fuel].
      unfold fed. cbn [map concat]. by rewrite !app_nil_r, grpc_frame_hdr, <- app_assoc, <- Hm.
    + rewrite (Hpart (b :: rest') eq_refl) by done.
      exists [], (m :: ms), (grpc_hdr m ++ body ++ data), (in_body m (body ++ data)). split; [done|].
      split; [|split; [unfold fed; cbn [map concat]; by rewrite <- app_assoc | rewrite after_feed_nil; by destruct fuel]].
      apply (rasm_in_body _ _ m (body ++ data) (b :: rest')); [done | done | by rewrite <- app_assoc | done | done].
Qed.

(** The bytes of a header already received determine how the body's state
    reads, so a partial body belongs to the message that is being sent. *)
Lemma in_body_of_sent (msg body rest m data : bytes) (ms : list bytes) :
  msg_ok m -> msg = body ++ rest -> rest <> [] -> msg_ok msg ->
  (grpc_hdr msg ++ body) ++ data = grpc_frame m ++ concat (map grpc_frame ms) ->
  exists rest', rest' <> [] /\ m = body ++ rest' /\ in_body msg body = in_body m body /\
    data = rest' ++ concat (map grpc_frame ms).
Proof.
  intros Hokm Hmsg Hne Hokmsg Heq. rewrite grpc_frame_hdr, <- !app_assoc in Heq.
  apply app_inj_1 in Heq as [Hhdr Heq]; [|done].
  assert (Hlen : strlen msg = strlen m).
  { unfold msg_ok, H2C_MAX_MSG in *. rewrite <- (grpc_hdr_len msg), <- (grpc_hdr_len m), Hhdr by lia. done. }
  assert (Hpos : (length body < length m)%nat).
  { rewrite Hmsg, strlen_app in Hlen. destruct rest; [done|]. unfold strlen in Hlen. simpl in Hlen. lia. }
  apply app_eq_inv in Heq as [(x & -> & Hd)|(x & -> & Hd)].
  - rewrite length_app in Hpos. lia.
  - exists x. split; [intros ->; rewrite app_nil_r in Hpos; lia|]. split; [done|].
    unfold in_body, grpc_hdr, cap_of. by rewrite Hlen.
Qed.

Lemma feed_loop_spec (fuel : nat) : feeds fuel.
Proof.
  induction fuel as [|fuel IH]; intros c s tail data future msgs Hs Hty Hok Hroom Hat Hfuel Heq.
  - destruct data; [|simpl in Hfuel; lia]. exists [], msgs, tail, (s_rasm s).
    split; [done|]. split; [done|]. split; [unfold fed; by rewrite app_nil_r|].
    rewrite after_feed_nil. simpl. symmetry. apply put_same. by destruct s.
  - destruct data as [|b data]; [exists [], msgs, tail, (s_rasm s)|].
    { split; [done|]. split; [done|]. split; [unfold fed; by rewrite app_nil_r|].
      rewrite after_feed_nil. simpl. symmetry. apply put_same. by destruct s. }
    cbn [feed_loop]. rewrite Hs. destruct msgs as [|m ms]; [by destruct tail|].
    assert (Hokm := Hok). apply Forall_cons in Hokm as [Hokm _]. cbn [map concat] in Heq.
    destruct Hat as [H0 Hh Hlt|msg body rest Hr Hokmsg Hmsg Hne ->].
    + rewrite H0. cbn [Z.eqb].
      destruct (feed_header_spec c s m tail (b :: data) Hs Hty Hokm H0 Hh Hlt) as [Hfull Hpart].
      destruct (Nat.lt_ge_cases (length (tail ++ b :: data)) 5) as [Hshort|Hlong].
      * destruct (Hpart Hshort) as (r & Hr & ->). exists [], (m :: ms), (tail ++ b :: data), r.
        split; [done|]. split; [done|]. split; [done|]. by rewrite after_feed_nil.
      * rewrite app_assoc, grpc_frame_hdr, <- (app_assoc (grpc_hdr m)) in Heq.
        apply long_prefix in Heq as (more & Hcut & Hmore); [|done].
        rewrite (Hfull more Hcut). assert (Hl := f_equal length Hcut).
        rewrite !length_app in Hl. change (length (grpc_hdr m)) with 5%nat in Hl. simpl in Hl, Hfuel.
        destruct (feed_round_body fuel _ (set_rasm (in_body m []) s) m [] m more future ms IH
                    (stream_at_put k s _ c Hs) Hty Hok Hroom eq_refl eq_refl ltac:(lia) ltac:(lia) Hmore)
          as (got & todo & tail' & r & Hms & Hat & Hfed & Hrun).
        exists got, todo, tail', r. split; [done|]. split; [done|]. split.
        -- unfold fed in *. by rewrite Hcut, <- Hfed, app_nil_r.
        -- by rewrite Hrun, put_put.
    + rewrite Hr. cbn [in_body rasm_state Z.eqb].
      destruct (in_body_of_sent msg body rest m (b :: data ++ future) ms) as (rest' & Hne' & Hm & Hbody & Hd);
        [done | done | done | done | done |].
      destruct (feed_round_body fuel c s m body rest' (b :: data) future ms IH Hs Hty Hok Hroom)
        as (got & todo & tail' & r' & Hms & Hat & Hfed & Hrun); [by rewrite Hr | done | done | done | done |].
      exists got, todo, tail', r'. split; [done|]. split; [done|]. split; [|done].
      unfold fed in *. rewrite <- Hfed. by rewrite (f_equal rasm_hdr Hbody : grpc_hdr msg = grpc_hdr m).
Qed.

End Subscribe.

(** ** Frames in, messages out *)

Section Delivery.
Context (malloc : Z -> bool) (clock : nat -> Z) (k : nat) (sid : Z).

(** DATA frames with the payloads [chunks]. *)
Fixpoint run_data (chunks : list bytes) (c : strim_h2c) : Z * strim_h2c :=
  match chunks with
  | [] => (0, c)
  | d :: chunks' =>
      let '(rc, c) := handle_data_frame malloc 0 sid d c in
      if rc <? 0 then (rc, c) else run_data chunks' c
  end.

(** [n] calls of [h2c_stream_next]. *)
Fixpoint next_all (n fuel : nat) (timeout_ms : Z) (c : strim_h2c)
  : option (list (Z * option bytes) * strim_h2c) :=
  match n with
  | O => Some ([], c)
  | S n' =>
      match h2c_stream_next malloc clock fuel k timeout_ms c with
      | None => None
      | Some (rc, m, c) =>
          match next_all n' fuel timeout_ms c with
          | None => None
          | Some (l, c) => Some ((rc, m) :: l, c)
          end
      end
  end.

(** The bytes of the messages on the wire. *)
Definition cost (msgs : list bytes) : Z := strlen (concat (map grpc_frame msgs)).

Lemma cost_cons (m : bytes) (ms : list bytes) : cost (m :: ms) = strlen m + 5 + cost ms.
Proof. unfold cost, grpc_frame. cbn [map concat]. rewrite strlen_app. unfold strlen. simpl. lia. Qed.

(** [n] bytes have been received, which left the reassembler at [r] and
    completed [got]. *)
Definition received (n : Z) (s : strim_h2c_stream) (r : rasm) (got : list bytes) (c : strim_h2c) : strim_h2c :=
  set_conn_recv_window (conn_recv_window c - n)
    (put k (set_recv_window (recv_window s - n) (after_feed s r got)) c).

Definition receiving (c : strim_h2c) (s : strim_h2c_stream) : Prop :=
  stream_find c sid = Some k /\ stream_at c k = Some s /\ s_type s = ST_SUBSCRIBE /\ st s <> SS_DONE.

Lemma receiving_received (c : strim_h2c) (s : strim_h2c_stream) (n : Z) (r : rasm) (got : list bytes) :
  receiving c s ->
  receiving (received n s r got c) (set_recv_window (recv_window s - n) (after_feed s r got)).
Proof.
  intros (Hf & Hs & Hty & Hst). split; [|split; [exact (stream_at_put k s _ c Hs) | done]].
  unfold received. etransitivity; [|exact Hf]. by apply (stream_find_put k s).
Qed.

Lemma received_more (n n' : Z) (s : strim_h2c_stream) (r r' : rasm) (got got' : list bytes) (c : strim_h2c) :
  received n' (set_recv_window (recv_window s - n) (after_feed s r got)) r' got' (received n s r got c) =
  received (n + n') s r' (got ++ got') c.
Proof.
  unfold received. simpl. rewrite put_conn_window, put_put. unfold set_conn_recv_window. simpl.
  rewrite !Z.sub_add_distr. do 2 f_equal. unfold set_recv_window, after_feed. simpl.
  by rewrite queue_after_app.
Qed.

Hypothesis malloc_ok : alloc_ok malloc.

(** One frame. *)
Lemma data_frame_spec (c : strim_h2c) (s : strim_h2c_stream) (tail d future : bytes) (msgs : list bytes) :
  receiving c s -> Forall msg_ok msgs -> room s msgs -> rasm_at (s_rasm s) tail ->
  strlen d <= recv_window s -> strlen d <= conn_recv_window c ->
  tail ++ d ++ future = concat (map grpc_frame msgs) ->
  exists got todo tail' r, msgs = got ++ todo /\ rasm_at r tail' /\ fed tail d got tail' /\
    handle_data_frame malloc 0 sid d c = (0, received (strlen d) s r got c).
Proof.
  intros (Hf & Hs & Hty & Hst) Hok Hroom Hat Hw Hcw Heq. unfold handle_data_frame. rewrite Hf, Hs.
  rewrite (proj2 (Z.eqb_neq _ _) Hst), (proj2 (Z.ltb_ge _ _) Hw), (proj2 (Z.ltb_ge _ _) Hcw). cbn [orb].
  change (has_flag 0 H2_FLAG_PADDED) with false. change (has_flag 0 H2_FLAG_END_STREAM) with false. cbv iota.
  set (c0 := set_conn_recv_window _ c).
  rewrite (update_put k _ s c0 Hs). unfold stream_feed_data.
  destruct (feed_loop_spec malloc k malloc_ok (length d) (put k (set_recv_window (recv_window s - strlen d) s) c0)
              (set_recv_window (recv_window s - strlen d) s) tail d future msgs)
    as (got & todo & tail' & r & Hm & Hr & Hfed & Hrun);
    [exact (stream_at_put k s _ c0 Hs) | done | done | done | done | done | done |].
  exists got, todo, tail', r. split; [done|]. split; [done|]. split; [done|]. rewrite Hrun, put_put. done.
Qed.

Lemma rasm_at_complete (r : rasm) (tail : bytes) (msgs : list bytes) :
  Forall msg_ok msgs -> rasm_at r tail -> tail = concat (map grpc_frame msgs) -> msgs = [] /\ tail = [].
Proof.
  intros Hok Hat Heq. destruct msgs as [|m ms]; [done|]. exfalso. apply Forall_cons in Hok as [Hokm _].
  cbn [map concat] in Heq. destruct Hat as [_ _ Hlt|msg body rest _ Hokmsg Hmsg Hne ->].
  - rewrite Heq, grpc_frame_hdr, !length_app in Hlt. change (length (grpc_hdr m)) with 5%nat in Hlt. lia.
  - rewrite <- (app_nil_r (_ ++ body)) in Heq.
    destruct (in_body_of_sent msg body rest m [] ms) as (rest' & Hne' & _ & _ & Hd); [done..|].
    by destruct rest'.
Qed.

(** All the frames. *)
Lemma run_data_spec (chunks : list bytes) : forall c s tail msgs,
  receiving c s -> Forall msg_ok msgs -> room s msgs -> rasm_at (s_rasm s) tail ->
  strlen (concat chunks) <= recv_window s -> strlen (concat chunks) <= conn_recv_window c ->
  tail ++ concat chunks = concat (map grpc_frame msgs) ->
  exists r, rasm_at r [] /\ run_data chunks c = (0, received (strlen (concat chunks)) s r msgs c).
Proof.
  induction chunks as [|d chunks IH]; intros c s tail msgs Hc Hok Hroom Hat Hw Hcw Heq.
  - cbn [concat] in *. rewrite app_nil_r in Heq.
    destruct (rasm_at_complete _ _ _ Hok Hat Heq) as [-> ->]. exists (s_rasm s). split; [done|].
    cbn [run_data]. unfold received. change (strlen []) with 0. rewrite !Z.sub_0_r, after_feed_nil. f_equal.
    rewrite put_same; [by destruct c|]. destruct Hc as (_ & -> & _). by destruct s.
  - cbn [concat] in *. rewrite strlen_app in *. assert (0 <= strlen (concat chunks)) by (unfold strlen; lia).
    assert (0 <= strlen d) by (unfold strlen; lia).
    destruct (data_frame_spec c s tail d (concat chunks) msgs Hc Hok Hroom Hat ltac:(lia) ltac:(lia) Heq)
      as (got & todo & tail' & r & -> & Hr & Hfed & Hd).
    cbn [run_data]. rewrite Hd. cbn [Z.ltb Z.compare]. apply Forall_app in Hok as [_ Hok].
    rewrite map_app, concat_app in Heq. unfold fed in Hfed. rewrite app_assoc, Hfed, <- app_assoc in Heq.
    apply app_inv_head in Heq.
    destruct (IH (received (strlen d) s r got c) _ tail' todo (receiving_received c s _ r got Hc))
      as (r' & Hr' & ->); [done | | done | simpl; lia | simpl; lia | done |].
    { unfold room in *. simpl. rewrite concat_app, strlen_app in Hroom. lia. }
    exists r'. split; [done|]. by rewrite received_more.
Qed.

(** A call of [h2c_stream_next] on a queue that is not empty hands out its
    first message, and gives back what that used of the windows. *)
Lemma next_spec (fuel : nat) (timeout_ms : Z) (c : strim_h2c) (s : strim_h2c_stream) (m : bytes) (ms : list bytes) :
  stream_at c k = Some s -> s_in_use s = true -> q_msgs (s_queue s) = m :: ms -> msg_ok m ->
  0 <= recv_window s -> 0 <= conn_recv_window c ->
  recv_window s + (strlen m + 5) <= 0x7fffffff -> conn_recv_window c + (strlen m + 5) <= 0x7fffffff ->
  exists w, h2c_stream_next malloc clock fuel k timeout_ms c =
    Some (0, Some m, set_io w (set_conn_recv_window (conn_recv_window c + (strlen m + 5))
      (put k (set_recv_window (recv_window s + (strlen m + 5)) (set_queue
        (MsgQueue ms (q_bytes (s_queue s) - strlen m) (q_closed (s_queue s)) (Some m)) s)) c))).
Proof.
  intros Hs Hu Hq Hokm H0 H1 Hw Hcw. unfold msg_ok, H2C_MAX_MSG in Hokm.
  assert (0 <= strlen m) by (unfold strlen; lia).
  set (q := MsgQueue ms _ _ _).
  assert (Hloop : forall dl w0, exists w, next_loop malloc clock fuel k dl (set_io w0 c) =
    Some (0, Some m, set_io w (set_conn_recv_window (conn_recv_window c + (strlen m + 5))
      (put k (set_recv_window (recv_window s + (strlen m + 5)) (set_queue q s)) c)))).
  { intros dl w0. assert (Hl : next_loop malloc clock fuel k dl (set_io w0 c) =
      Some (0, Some m, stream_credit_message k (u32 (strlen m + 5)) (put k (set_queue q s) (set_io w0 c)))).
    { assert (Hs1 : stream_at (set_io w0 c) k = Some s) by done.
      destruct fuel; cbn [next_loop]; rewrite Hs1, Hq; by rewrite (update_put k _ s _ Hs1). }
    rewrite Hl, wrap_small by lia.
    destruct (credit_spec k (set_queue q s) (strlen m + 5) (put k (set_queue q s) (set_io w0 c))) as [w ->];
      [apply (stream_at_put k s _ (set_io w0 c) Hs) | lia | simpl; lia | simpl; lia | done | simpl; lia |].
    exists w. by rewrite put_put. }
  unfold h2c_stream_next. rewrite Hs, Hu. cbn [negb]. destruct (timeout_ms <? 0).
  - destruct (Hloop INT64_MAX (c_io c)) as [w Hl]. rewrite set_io_same in Hl. by exists w.
  - unfold mono_ms, on_io. apply Hloop.
Qed.

Lemma next_all_spec (fuel : nat) (timeout_ms : Z) (msgs : list bytes) : forall c s later,
  stream_at c k = Some s -> s_in_use s = true -> q_msgs (s_queue s) = msgs ++ later -> Forall msg_ok msgs ->
  0 <= recv_window s -> 0 <= conn_recv_window c ->
  recv_window s + cost msgs <= 0x7fffffff -> conn_recv_window c + cost msgs <= 0x7fffffff ->
  exists c' s', next_all (length msgs) fuel timeout_ms c = Some (map (fun m => (0, Some m)) msgs, c') /\
    stream_at c' k = Some s' /\ q_msgs (s_queue s') = later /\
    recv_window s' = recv_window s + cost msgs /\ conn_recv_window c' = conn_recv_window c + cost msgs /\
    c_undefined c' = c_undefined c.
Proof.
  induction msgs as [|m msgs IH]; intros c s later Hs Hu Hq Hok H0 H1 Hw Hcw.
  - exists c, s. change (cost []) with 0. rewrite !Z.add_0_r. done.
  - apply Forall_cons in Hok as [Hokm Hok]. rewrite cost_cons in *.
    assert (0 <= cost msgs) by (unfold cost, strlen; lia). assert (0 <= strlen m) by (unfold strlen; lia).
    cbn [next_all length map].
    destruct (next_spec fuel timeout_ms c s m (msgs ++ later) Hs Hu Hq Hokm H0 H1 ltac:(lia) ltac:(lia)) as [w ->].
    match goal with |- context [put k ?s1 c] =>
      destruct (IH (set_io w (set_conn_recv_window (conn_recv_window c + (strlen m + 5)) (put k s1 c))) s1 later)
        as (c' & s' & -> & Hs' & Hq' & Hr' & Hc' & Hu') end;
      [exact (stream_at_put k s _ c Hs) | done | done | done | simpl; lia | simpl; lia | simpl; lia | simpl; lia |].
    exists c', s'. split; [done|]. split; [done|]. split; [done|]. simpl in *. lia || (repeat split; try done; lia).
Qed.

(** C5: Server-streamed gRPC messages that fit the receive windows arrive as
    they were sent.  On a stream that is receiving and has delivered all it
    had, messages which with their five-byte headers fit both receive windows
    (65535 bytes at first) and the queue of 4 MiB may be cut into DATA payloads
    anywhere: while memory lasts every frame is accepted, and as many calls of
    [h2c_stream_next] as there are messages return exactly those messages, in
    order, without waiting; afterwards both receive windows are back where they
    were and nothing undefined happened.  (A message larger than the window is
    never delivered: [H2cScenario.large_message_is_refused].) *)
Theorem messages_reassembled (fuel : nat) (timeout_ms : Z) (c : strim_h2c) (s : strim_h2c_stream)
    (chunks msgs : list bytes) :
  receiving c s -> rasm_state (s_rasm s) = 0 -> rasm_hdr (s_rasm s) = [] ->
  q_msgs (s_queue s) = [] -> q_bytes (s_queue s) = 0 ->
  Forall msg_ok msgs -> cost msgs <= H2C_QUEUE_MAX_BYTES ->
  cost msgs <= recv_window s <= 0x7fffffff -> cost msgs <= conn_recv_window c <= 0x7fffffff ->
  concat chunks = concat (map grpc_frame msgs) ->
  exists c1 c2 s2, run_data chunks c = (0, c1) /\
    next_all (length msgs) fuel timeout_ms c1 = Some (map (fun m => (0, Some m)) msgs, c2) /\
    stream_at c2 k = Some s2 /\ recv_window s2 = recv_window s /\
    conn_recv_window c2 = conn_recv_window c /\ c_undefined c2 = c_undefined c.
Proof.
  intros Hc Hst Hh Hq Hqb Hok Hmax Hw Hcw Heq.
  assert (Hlen : strlen (concat chunks) = cost msgs) by (unfold cost; by rewrite Heq).
  assert (Hroom : room s msgs).
  { unfold room. rewrite Hqb. assert (forall l, strlen (concat l) <= cost l); [|specialize (H msgs); lia].
    induction l as [|m l IHl]; [done|]. rewrite cost_cons. cbn [concat]. rewrite strlen_app. lia. }
  destruct (run_data_spec chunks c s [] msgs Hc Hok Hroom (rasm_fresh _ Hst Hh)) as (r & _ & Hrun);
    [lia | lia | done |].
  destruct (receiving_received c s (cost msgs) r msgs Hc) as (Hf & Hs1 & _ & _).
  rewrite Hlen in Hrun. apply stream_find_some in Hf as (x & Hx & Hu & _). rewrite Hs1 in Hx. injection Hx as <-.
  destruct (next_all_spec fuel timeout_ms msgs _ _ [] Hs1 Hu) as (c2 & s2 & Hn & Hs2 & _ & Hr2 & Hc2 & Hu2);
    [simpl; by rewrite Hq, app_nil_r | done | simpl; lia | simpl; lia | simpl; lia | simpl; lia |].
  exists (received (cost msgs) s r msgs c), c2, s2. split; [done|]. split; [done|]. split; [done|].
  simpl in *. split; [lia|]. split; [lia|]. done.
Qed.

End Delivery.

(** A subscription just opened on slot 0. *)
Definition subscribed : strim_h2c :=
  (take_slot 0 ST_SUBSCRIBE (new_connection (Io [] [] [] [] 0) (lit "moby"))).2.

Lemma messages_reassembled_witness :
  exists c1 c2 s2,
    run_data (fun _ => true) 1 [[0; 0; 0]; [0; 2; 104]; [105; 0; 0; 0; 0; 0; 0; 0; 0; 0; 3; 1]; []; [2; 3]] subscribed
      = (0, c1) /\
    next_all (fun _ => true) (fun _ => 0) 0 (length [[104; 105]; []; [1; 2; 3]]) 0 (-1) c1 =
      Some (map (fun m => (0, Some m)) [[104; 105]; []; [1; 2; 3]], c2) /\
    stream_at c2 0 = Some s2 /\ recv_window s2 = recv_window (new_stream 1 ST_SUBSCRIBE 65535) /\
    conn_recv_window c2 = conn_recv_window subscribed /\ c_undefined c2 = c_undefined subscribed.
Proof.
  assert (H : receiving 0 1 subscribed (new_stream 1 ST_SUBSCRIBE 65535)).
  { split; [reflexivity|]. split; [reflexivity|]. split; [reflexivity|]. discriminate. }
  refine (messages_reassembled (fun _ => true) (fun _ => 0) 0 1 (fun _ => eq_refl) 0 (-1) subscribed
            (new_stream 1 ST_SUBSCRIBE 65535) _ [[104; 105]; []; [1; 2; 3]] H eq_refl eq_refl eq_refl eq_refl _ _ _ _ _).
  - repeat (apply Forall_cons; split; [vm_compute; discriminate|]). apply Forall_nil. exact I.
  - vm_compute. discriminate.
  - vm_compute. split; discriminate.
  - vm_compute. split; discriminate.
  - reflexivity.
Defined.
