(* ===== verification/H2cWf.v ===== *)
(** * A connection stays well formed (containerd/h2c.c)

    The type invariant of a connection: flow-control windows within their
    [int32_t], receive windows never negative, queues that account for their
    bytes, reassembly buffers large enough for the message announced, header
    blocks and frame payloads within the buffers that hold them, and HPACK
    tables within their bounds.  Every frame, and every call of the public
    interface, preserves it. *)

From S2P Require Import Prelude MiniPb Huffman Hpack HpackFacts HpackSafe H2cState H2c H2cFrames H2cFacts.

(** ** The invariant *)

Definition int32 (v : Z) : Prop := - 2 ^ 31 <= v < 2 ^ 31.
Definition window_wf (v : Z) : Prop := 0 <= v < 2 ^ 31.

Definition queue_wf (q : msg_queue) : Prop :=
  q_bytes q = strlen (concat (q_msgs q)) /\ q_bytes q <= H2C_QUEUE_MAX_BYTES.

(** Where a body of [rasm_msglen] bytes goes. *)
Definition dest_wf (s : strim_h2c_stream) : Prop :=
  let r := s_rasm s in
  if s_type s =? ST_SUBSCRIBE
  then exists b, rasm_buf r = Some b /\ strlen b = rasm_got r /\ rasm_msglen r <= rasm_buf_cap r
  else is_Some (resp (s_resp s)) -> rasm_msglen r <= resp_cap (s_resp s).

Inductive rasm_wf (s : strim_h2c_stream) : Prop :=
  | rasm_wf_header :
      rasm_state (s_rasm s) = 0 -> (length (rasm_hdr (s_rasm s)) < 5)%nat -> bytes_ok (rasm_hdr (s_rasm s)) ->
      rasm_wf s
  | rasm_wf_body :
      rasm_state (s_rasm s) = 1 -> 0 <= rasm_got (s_rasm s) <= rasm_msglen (s_rasm s) ->
      rasm_msglen (s_rasm s) <= H2C_MAX_MSG -> dest_wf s -> rasm_wf s.

(** A stream that can still receive. *)
Definition live (s : strim_h2c_stream) : Prop := s_in_use s = true /\ st s <> SS_DONE.

Record stream_wf (s : strim_h2c_stream) : Prop := StreamWf {
  sw_recv : window_wf (recv_window s);
  sw_send : int32 (send_window s);
  sw_queue : queue_wf (s_queue s);
  sw_rasm : live s -> rasm_wf s;
}.

(** The reader: what is buffered fits what was allocated. *)
Record reader_wf (r : frame_reader) : Prop := ReaderWf {
  rw_hdr : (length (fr_hdr r) <= 9)%nat;
  rw_hdr_bytes : bytes_ok (fr_hdr r);
  rw_payload_bytes : bytes_ok (fr_payload r);
  rw_payload : fr_payload r <> [] ->
    length (fr_hdr r) = 9%nat /\ strlen (fr_payload r) <= fr_len r <= fr_cap r;
}.

Definition ev_wf (e : rx_ev) : Prop := match e with RxBytes bs => bytes_ok bs | _ => True end.

Record conn_wf (c : strim_h2c) : Prop := ConnWf {
  cw_streams : Forall stream_wf (streams c);
  cw_count : length (streams c) = H2C_MAX_STREAMS;
  cw_recv : window_wf (conn_recv_window c);
  cw_send : int32 (conn_send_window c);
  cw_frame : 16384 <= srv_max_frame (c_peer c) <= 16777215;
  cw_init : int32 (srv_initial_window (c_peer c));
  cw_hdr : bytes_ok (hdr_block (c_hdr c)) /\ strlen (hdr_block (c_hdr c)) <= H2C_HDR_BLOCK_MAX /\
           strlen (hdr_block (c_hdr c)) <= hdr_block_cap (c_hdr c);
  cw_enc : table_wf (dyn_enc c);
  cw_dec : table_wf (dyn_dec c);
  cw_reader : reader_wf (c_rx c);
  cw_events : Forall ev_wf (rx_evs (c_io c));
}.

(** ** Setters *)

Create HintDb h2c.

Ltac wf_setter := let H := fresh in intros H; destruct H; intros; constructor; simpl; try assumption.

Lemma wf_io (w : io) (c : strim_h2c) : conn_wf c -> Forall ev_wf (rx_evs w) -> conn_wf (set_io w c).
Proof. wf_setter. Qed.

Lemma wf_write (w : io) (c : strim_h2c) : conn_wf c -> write_only w (c_io c) -> conn_wf (set_io w c).
Proof. intros Hc (Hr & _). apply wf_io; [done|]. rewrite Hr. apply Hc. Qed.

Lemma wf_ticks (n : nat) (c : strim_h2c) : conn_wf c -> conn_wf (on_io (set_ticks n) c).
Proof. wf_setter. Qed.

Lemma wf_rx (r : frame_reader) (c : strim_h2c) : conn_wf c -> reader_wf r -> conn_wf (set_rx r c).
Proof. wf_setter. Qed.

Lemma wf_life (l : life) (c : strim_h2c) : conn_wf c -> conn_wf (set_life l c).
Proof. wf_setter. Qed.

Lemma wf_ring (r : msg_ring) (c : strim_h2c) : conn_wf c -> conn_wf (set_ring r c).
Proof. wf_setter. Qed.

Lemma wf_next_sid (v : Z) (c : strim_h2c) : conn_wf c -> conn_wf (set_next_sid v c).
Proof. wf_setter. Qed.

Lemma wf_undefined (v : bool) (c : strim_h2c) : conn_wf c -> conn_wf (set_undefined v c).
Proof. wf_setter. Qed.

Lemma wf_require (b : bool) (c : strim_h2c) : conn_wf c -> conn_wf (require b c).
Proof. destruct b; [done | apply wf_undefined]. Qed.

Lemma wf_conn_recv (v : Z) (c : strim_h2c) : conn_wf c -> window_wf v -> conn_wf (set_conn_recv_window v c).
Proof. wf_setter. Qed.

Lemma wf_conn_send (v : Z) (c : strim_h2c) : conn_wf c -> int32 v -> conn_wf (set_conn_send_window v c).
Proof. wf_setter. Qed.

Lemma wf_enc (d : hpack_dyn) (c : strim_h2c) : conn_wf c -> table_wf d -> conn_wf (set_dyn_enc d c).
Proof. wf_setter. Qed.

Lemma wf_enc_update (b : bool) (c : strim_h2c) : conn_wf c -> conn_wf (set_enc_size_update b c).
Proof. wf_setter. Qed.

Lemma wf_dec (d : hpack_dyn) (c : strim_h2c) : conn_wf c -> table_wf d -> conn_wf (set_dyn_dec d c).
Proof. wf_setter. Qed.

Lemma wf_streams (l : list strim_h2c_stream) (c : strim_h2c) :
  conn_wf c -> Forall stream_wf l -> length l = H2C_MAX_STREAMS -> conn_wf (set_streams l c).
Proof. wf_setter. Qed.

Lemma wf_update (k : nat) (f : strim_h2c_stream -> strim_h2c_stream) (c : strim_h2c) :
  conn_wf c -> (forall s, stream_at c k = Some s -> stream_wf s -> stream_wf (f s)) ->
  conn_wf (update_stream k f c).
Proof.
  intros Hc Hf. apply wf_streams; [done | | rewrite length_alter; apply Hc].
  pose proof (cw_streams c Hc) as Hall. apply Forall_lookup. intros i s Hl.
  rewrite Forall_lookup in Hall. destruct (decide (k = i)) as [<-|Hne].
  - rewrite list_lookup_alter_eq in Hl. destruct (streams c !! k) as [x|] eqn:Hx; [|done]. injection Hl as <-.
    apply Hf; [done | by apply (Hall k)].
  - rewrite list_lookup_alter_ne in Hl by done. by apply (Hall i).
Qed.

Lemma wf_put (k : nat) (s : strim_h2c_stream) (c : strim_h2c) : conn_wf c -> stream_wf s -> conn_wf (put k s c).
Proof. intros Hc Hs. by apply wf_update. Qed.

Lemma wf_at (c : strim_h2c) (k : nat) (s : strim_h2c_stream) :
  conn_wf c -> stream_at c k = Some s -> stream_wf s.
Proof. intros Hc Hs. pose proof (cw_streams c Hc) as Hall. rewrite Forall_lookup in Hall. by apply (Hall k). Qed.

#[export] Hint Resolve wf_write wf_ticks wf_life wf_ring wf_next_sid wf_require wf_enc_update wf_put wf_at : h2c.

(** ** Finished streams *)
Lemma wf_finished (s s' : strim_h2c_stream) :
  stream_wf s -> recv_window s' = recv_window s -> send_window s' = send_window s ->
  queue_wf (s_queue s') -> ~ live s' -> stream_wf s'.
Proof. intros [Hr Hs _ _] Hr' Hs' Hq Hl. by split; [rewrite Hr' | rewrite Hs' | |]. Qed.

Lemma not_live_done (s : strim_h2c_stream) : st s = SS_DONE -> ~ live s.
Proof. intros H [_ Hl]. done. Qed.

Lemma wf_destroy (s : strim_h2c_stream) : stream_wf s -> stream_wf (stream_destroy s).
Proof. intros Hs. apply (wf_finished s); [done | done | done | done | intros [? _]; done]. Qed.

Lemma wf_finish (status : Z) (s : strim_h2c_stream) : stream_wf s -> stream_wf (finish_stream status s).
Proof. intros Hs. apply (wf_finished s); [done | done | done | apply Hs | by apply not_live_done]. Qed.

Lemma wf_close_queue (s : strim_h2c_stream) : stream_wf s -> stream_wf (set_queue (close_queue (s_queue s)) s).
Proof. intros [Hr Hs Hq Hl]. split; [done | done | done |]. intros Hv. destruct (Hl Hv); [by left | by right]. Qed.

Lemma wf_finish_close (status : Z) (s : strim_h2c_stream) :
  stream_wf s -> stream_wf (set_queue (close_queue (s_queue s)) (finish_stream status s)).
Proof. intros Hs. by apply (wf_close_queue (finish_stream status s)), wf_finish. Qed.

Lemma wf_new (sid type window : Z) : int32 window -> stream_wf (new_stream sid type window).
Proof.
  intros Hw. split; simpl; [unfold window_wf, H2_INIT_WINDOW; lia | done | done |].
  intros _. left; simpl; [done | lia | apply Forall_nil; done].
Qed.

#[export] Hint Resolve wf_destroy wf_finish wf_close_queue : h2c.

(** ** The reassembler *)

Section Handlers.
Context (malloc : Z -> bool).

(** The result is well formed, and nothing undefined happened unless memory
    ran out. *)
Definition safe (c c' : strim_h2c) : Prop :=
  conn_wf c' /\ (alloc_ok malloc -> c_undefined c' = c_undefined c).

Lemma safe_refl (c : strim_h2c) : conn_wf c -> safe c c.
Proof. done. Qed.

Lemma safe_trans (a b c : strim_h2c) : safe a b -> (conn_wf b -> safe b c) -> safe a c.
Proof. intros [Hb Hu] Hc. destruct (Hc Hb) as [Hw Hu']. split; [done|]. intros Ha. by rewrite Hu', Hu. Qed.

(** An operation on a stream and the sending side of the socket. *)
Lemma safe_put (k : nat) (s : strim_h2c_stream) (w : io) (c : strim_h2c) :
  conn_wf c -> write_only w (c_io c) -> stream_wf s -> safe c (put k s (set_io w c)).
Proof. intros. split; [auto with h2c | done]. Qed.

Lemma safe_put' (k : nat) (s : strim_h2c_stream) (c : strim_h2c) : conn_wf c -> stream_wf s -> safe c (put k s c).
Proof. intros. split; [auto with h2c | done]. Qed.

Definition aborted (err_code : Z) (s : strim_h2c_stream) : strim_h2c_stream :=
  set_rasm (free_rasm (s_rasm s))
    (set_phase (Phase SS_DONE (saw_headers (s_phase s)) H2C_STATUS_INTERNAL err_code) s).

Lemma stream_abort_put (k : nat) (h e : Z) (c : strim_h2c) (s : strim_h2c_stream) :
  stream_at c k = Some s ->
  exists w, stream_abort k h e c = put k (aborted e s) (set_io w c) /\ write_only w (c_io c).
Proof.
  intros Hs. unfold stream_abort. rewrite Hs. unfold frame_write_rst.
  destruct (frame_write_io H2_RST_STREAM 0 (s_id s) (be32 h) c) as (w & Hw & Hq).
  destruct (frame_write _ _ _ _ c) as [rc c1]. simpl in Hw. subst c1. exists w. split; [|done].
  by rewrite (update_put k _ s).
Qed.

Lemma safe_abort (k : nat) (h e : Z) (c : strim_h2c) (s s' : strim_h2c_stream) :
  conn_wf c -> stream_at c k = Some s -> recv_window s' = recv_window s -> send_window s' = send_window s ->
  queue_wf (s_queue s') -> safe c (stream_abort k h e (put k s' c)).
Proof.
  intros Hc Hs Hr Hw Hq. destruct (stream_abort_put k h e (put k s' c) s' (stream_at_put k s s' c Hs)) as (w & -> & Hio).
  change (put k ?x (set_io w (put k s' c))) with (set_io w (put k x (put k s' c))). rewrite put_put.
  apply safe_put; [done | done |]. apply (wf_finished s); [by apply (wf_at c k) | done | done | done |].
  by apply not_live_done.
Qed.

Lemma safe_abort' (k : nat) (h e : Z) (c : strim_h2c) : conn_wf c -> safe c (stream_abort k h e c).
Proof.
  intros Hc. destruct (stream_at c k) as [s|] eqn:Hs; [|unfold stream_abort; by rewrite Hs].
  rewrite <- (put_same k s c Hs) at 2. apply (safe_abort k _ _ c s); [done | done | done | done |].
  apply (wf_at c k s Hc Hs).
Qed.

Lemma be32_of_nonneg (p : bytes) (i : nat) : bytes_ok p -> 0 <= be32_of p i.
Proof.
  intros Hp. unfold be32_of. assert (Hb : forall j, 0 <= default 0 (p !! j)).
  { intros j. destruct (p !! j) as [b|] eqn:E; [|done]. by apply (Forall_lookup_1 _ _ _ _ Hp) in E as [? _]. }
  repeat (apply Z.lor_nonneg; split); try apply Z.shiftl_nonneg; apply Hb.
Qed.

Lemma feed_header_safe (k : nat) (data : bytes) (c : strim_h2c) (s : strim_h2c_stream) :
  conn_wf c -> stream_at c k = Some s -> live s -> rasm_state (s_rasm s) = 0 -> bytes_ok data ->
  let x := feed_header malloc k data c in
  safe c x.1 /\ forall rest, x.2 = Some rest ->
    bytes_ok rest /\ exists s', stream_at x.1 k = Some s' /\ live s' /\ rasm_state (s_rasm s') = 1.
Proof.
  intros Hc Hs Hl H0 Hd. pose proof (wf_at c k s Hc Hs) as Hsw. destruct Hsw as [Hsr Hss Hsq Hsra].
  destruct (Hsra Hl) as [_ Hlen Hb|H1]; [|congruence].
  unfold feed_header, set_rasm_of. rewrite Hs. cbv zeta.
  set (n := Nat.min _ _). set (hdr := rasm_hdr (s_rasm s) ++ take n data).
  assert (Hhb : bytes_ok hdr) by (apply bytes_ok_app; split; [done | by apply Forall_take]).
  assert (Hrb : bytes_ok (drop n data)) by (by apply Forall_drop).
  rewrite (update_put k _ s c Hs). cbn [rasm_state rasm_hdr rasm_msglen rasm_got rasm_buf rasm_buf_cap].
  destruct (length hdr <? 5)%nat eqn:E5; cbn [fst snd].
  { apply Nat.ltb_lt in E5. split; [|done]. apply safe_put'; [done|]. split; simpl; [done | done | done |].
    intros _. by left; simpl. }
  destruct (negb (default 0 (hdr !! 0%nat) =? 0)).
  { split; [|done]. by apply (safe_abort k _ _ c s). }
  rewrite (update_put k _ _ _ (stream_at_put k s _ c Hs)), put_put. set (s1 := set_rasm _ (set_rasm _ s)).
  destruct (H2C_MAX_MSG <? be32_of hdr 1) eqn:Emax.
  { split; [|done]. by apply (safe_abort k _ _ c s). }
  apply Z.ltb_ge in Emax. pose proof (be32_of_nonneg hdr 1 Hhb) as Hm0.
  rewrite !(update_put k _ _ _ (stream_at_put k s s1 c Hs)), !put_put.
  destruct (s_type s =? ST_SUBSCRIBE) eqn:Ety.
  - destruct (negb (malloc _)).
    { split; [|done]. by apply (safe_abort k _ _ c s). }
    split; [|intros rest [= <-]; split; [done|]; eexists; split; [apply (stream_at_put k s _ c Hs) | done]].
    apply safe_put'; [done|]. split; simpl; [done | done | done |]. intros _. right; simpl; [done | lia | done |].
    unfold dest_wf. simpl. rewrite Ety. exists []. split; [done|]. split; [done|].
    destruct (be32_of hdr 1 =? 0) eqn:Ez; bool_props; lia.
  - destruct (bool_decide _ && _) eqn:Eb.
    { unfold frame_write_rst.
      destruct (frame_write_io H2_RST_STREAM 0 (s_id s) (be32 H2_ERR_CANCEL) (put k s1 c)) as (w & Hw & Hq).
      destruct (frame_write _ _ _ _ (put k s1 c)) as [rc c1]. simpl in Hw. subst c1. split; [|done]. cbn [fst].
      change (set_io w (put k s1 c)) with (put k s1 (set_io w c)).
      rewrite (update_put k _ s1) by apply (stream_at_put k s _ (set_io w c) Hs). rewrite put_put.
      apply safe_put; [done | done |]. apply (wf_finished s); [done | done | done | done | by apply not_live_done]. }
    split; [|intros rest [= <-]; split; [done|]; eexists; split; [apply (stream_at_put k s _ c Hs) | done]].
    apply safe_put'; [done|]. split; simpl; [done | done | done |]. intros _. right; simpl; [done | lia | done |].
    unfold dest_wf. simpl. rewrite Ety. intros Hresp. rewrite bool_decide_true in Eb by done. simpl in Eb.
    by apply Z.ltb_ge in Eb.
Qed.

Lemma write_at_got (off : nat) (bs buf : bytes) : length buf = off -> write_at off bs buf = buf ++ bs.
Proof. intros <-. unfold write_at. rewrite firstn_all, drop_ge by lia. by rewrite app_nil_r. Qed.

Lemma copy_body_put (k : nat) (bs : bytes) (c : strim_h2c) (s : strim_h2c_stream) :
  conn_wf c -> stream_at c k = Some s -> live s -> rasm_state (s_rasm s) = 1 ->
  rasm_got (s_rasm s) + strlen bs <= rasm_msglen (s_rasm s) ->
  exists s', copy_body k bs c = put k s' c /\ stream_wf s' /\ live s' /\ rasm_state (s_rasm s') = 1 /\
    rasm_msglen (s_rasm s') = rasm_msglen (s_rasm s) /\ rasm_got (s_rasm s') = rasm_got (s_rasm s) + strlen bs.
Proof.
  intros Hc Hs Hl H1 Hle. pose proof (wf_at c k s Hc Hs) as [Hsr Hss Hsq Hsra].
  destruct (Hsra Hl) as [H0|_ Hgot Hmax Hdest]; [congruence|]. assert (0 <= strlen bs) by (unfold strlen; lia).
  assert (Hu : u32 (rasm_got (s_rasm s) + strlen bs) = rasm_got (s_rasm s) + strlen bs)
    by (apply wrap_small; unfold H2C_MAX_MSG in *; lia).
  unfold copy_body, set_rasm_of. rewrite Hs. cbv zeta. rewrite Hu. unfold dest_wf in Hdest.
  destruct (s_type s =? ST_SUBSCRIBE) eqn:Ety.
  - destruct Hdest as (b & Hb & Hlen & Hcap). rewrite Hb, (proj2 (Z.leb_le _ _)) by lia. cbn [require].
    rewrite (update_put k _ s c Hs). eexists. split; [done|]. split; [|done].
    split; simpl; [done | done | done |]. intros _. right; simpl; [done | lia | done |].
    unfold dest_wf. simpl. rewrite Ety. eexists. split; [done|]. split; [|done].
    rewrite write_at_got by (unfold strlen in *; lia). rewrite strlen_app. lia.
  - assert (Hreq : match resp (s_resp s) with None => true
                   | Some _ => rasm_got (s_rasm s) + strlen bs <=? resp_cap (s_resp s) end = true).
    { destruct (resp (s_resp s)); [|done]. apply Z.leb_le. specialize (Hdest ltac:(by eexists)). lia. }
    rewrite Hreq. cbn [require]. rewrite (update_put k _ s c Hs). eexists. split; [done|]. split; [|done].
    split; simpl; [done | done | done |]. intros _. right; simpl; [done | lia | done |].
    unfold dest_wf. simpl. rewrite Ety. intros [x Hx]. apply fmap_Some in Hx as (y & Hy & _).
    apply Hdest. by eexists.
Qed.

Lemma credit_put (k : nat) (total : Z) (c : strim_h2c) (s : strim_h2c_stream) :
  conn_wf c -> stream_at c k = Some s -> 0 <= total < 2 ^ 31 ->
  exists w rw cw, stream_credit_message k total c =
    set_io w (set_conn_recv_window cw (put k (set_recv_window rw s) c)) /\
    write_only w (c_io c) /\ window_wf rw /\ window_wf cw.
Proof.
  intros Hc Hs Ht. pose proof (sw_recv s (wf_at c k s Hc Hs)) as Hr. pose proof (cw_recv c Hc) as Hcr.
  assert (Hnone : c = set_io (c_io c) (set_conn_recv_window (conn_recv_window c)
                        (put k (set_recv_window (recv_window s) s) c))).
  { rewrite put_same; [by destruct c|]. rewrite Hs. by destruct s. }
  unfold stream_credit_message. rewrite Hs, to_int_small by lia.
  destruct (total =? 0); [by eexists _, _, _; split; [exact Hnone|]|].
  destruct (_ <? recv_window s) eqn:E1; [by eexists _, _, _; split; [exact Hnone|]|].
  destruct (_ <? conn_recv_window c) eqn:E2; [by eexists _, _, _; split; [exact Hnone|]|].
  clear Hnone. bool_props. rewrite (update_put k _ s c Hs). unfold frame_write_window_update.
  set (c' := set_conn_recv_window _ _).
  destruct (frame_write_io H2_WINDOW_UPDATE 0 (s_id s) (be32 total) c') as (w & Hw1 & Hq1).
  destruct (frame_write _ _ (s_id s) _ c') as [rc c1]. simpl in Hw1. subst c1.
  destruct (frame_write_io H2_WINDOW_UPDATE 0 0 (be32 total) (set_io w c')) as (w' & Hw2 & Hq2).
  destruct (frame_write _ _ 0 _ _) as [rc' c2]. simpl in Hw2. subst c2. eexists w', _, _. split; [done|].
  unfold write_only, window_wf in *. simpl in *. split; [intuition congruence | lia].
Qed.

Lemma finish_message_safe (k : nat) (c : strim_h2c) (s : strim_h2c_stream) :
  conn_wf c -> stream_at c k = Some s -> live s -> rasm_state (s_rasm s) = 1 ->
  let x := finish_message malloc k c in
  safe c x.1 /\ (x.2 = true -> exists s', stream_at x.1 k = Some s' /\ live s').
Proof.
  intros Hc Hs Hl H1. pose proof (wf_at c k s Hc Hs) as Hsw. destruct Hsw as [Hsr Hss Hsq Hsra].
  destruct (Hsra Hl) as [H0|_ Hgot Hmax Hdest]; [congruence|].
  unfold finish_message, set_rasm_of. rewrite Hs. cbv zeta. destruct (s_type s =? ST_SUBSCRIBE) eqn:Ety.
  - destruct (H2C_QUEUE_MAX_BYTES <? _) eqn:Eq.
    { split; [by apply safe_abort' | done]. }
    apply Z.ltb_ge in Eq. rewrite (update_put k _ s c Hs), (update_put k _ _ _ (stream_at_put k s _ c Hs)), put_put.
    split; [|intros _; eexists; split; [apply (stream_at_put k s _ c Hs) | done]].
    apply safe_put'; [done|]. split; simpl; [done | done | |].
    + unfold queue_push. destruct (malloc 24); [|done]. destruct Hsq as [Hq1 Hq2]. split; simpl.
      * rewrite concat_app, strlen_app, Hq1. simpl. by rewrite app_nil_r.
      * unfold strlen at 1. rewrite length_take. lia.
    + intros _. left; simpl; [done | lia | by apply Forall_nil].
  - rewrite (update_put k _ s c Hs). set (s1 := set_resp _ s). destruct (1 <? _).
    { split; [|done]. by apply (safe_abort k _ _ c s). }
    assert (Hw1 : stream_wf s1).
    { split; [done | done | done |]. intros _. right; [done | done | done |].
      unfold dest_wf in *. simpl. by rewrite Ety in *. }
    destruct (credit_put k (u32 (rasm_got (s_rasm s) + 5)) (put k s1 c) s1) as (w & rw & cw & -> & Hio & Hrw & Hcw);
      [auto with h2c | apply (stream_at_put k s _ c Hs) | rewrite wrap_small by (unfold H2C_MAX_MSG in *; lia);
        unfold H2C_MAX_MSG in *; lia |].
    rewrite put_put. set (s2 := set_recv_window rw s1).
    rewrite (update_put k _ s2) by apply (stream_at_put k s _ c Hs).
    change (put k ?x (set_io w (set_conn_recv_window cw ?y))) with (set_io w (set_conn_recv_window cw (put k x y))).
    rewrite put_put. cbn [fst snd].
    split; [|intros _; eexists; split; [apply (stream_at_put k s _ c Hs) | done]].
    split; [|done]. apply wf_write; [|done]. apply wf_conn_recv; [|done]. apply wf_put; [done|].
    split; simpl; [done | done | done |]. intros _. left; simpl; [done | lia | by apply Forall_nil].
Qed.

Lemma feed_body_safe (k : nat) (data : bytes) (c : strim_h2c) (s : strim_h2c_stream) :
  conn_wf c -> stream_at c k = Some s -> live s -> rasm_state (s_rasm s) = 1 -> bytes_ok data ->
  let x := feed_body malloc k data c in
  safe c x.1 /\ forall rest, x.2 = Some rest ->
    bytes_ok rest /\ exists s', stream_at x.1 k = Some s' /\ live s'.
Proof.
  intros Hc Hs Hl H1 Hd. unfold feed_body. rewrite Hs. cbv zeta. set (n := Nat.min _ _).
  pose proof (wf_at c k s Hc Hs) as [_ _ _ Hsra]. destruct (Hsra Hl) as [H0|_ Hgot Hmax _]; [congruence|].
  destruct (copy_body_put k (take n data) c s Hc Hs Hl H1) as (s1 & -> & Hw1 & Hl1 & Hr1 & Hm1 & Hg1).
  { unfold strlen. rewrite length_take. lia. }
  assert (Hs1 := stream_at_put k s s1 c Hs). rewrite Hs1.
  assert (Hrb : bytes_ok (drop n data)) by (by apply Forall_drop).
  assert (Hc1 : conn_wf (put k s1 c)) by auto with h2c.
  destruct (_ <=? _); cbn [fst snd].
  - destruct (finish_message_safe k (put k s1 c) s1 Hc1 Hs1 Hl1 Hr1) as [Hsafe Hgo].
    destruct (finish_message malloc k (put k s1 c)) as [c2 go]. cbn [fst snd] in *.
    split; [by apply (safe_trans c (put k s1 c))|]. intros rest. destruct go; [|done]. intros [= <-].
    split; [done | by apply Hgo].
  - split; [done|]. intros rest [= <-]. split; [done|]. by exists s1.
Qed.

Lemma feed_loop_safe (fuel k : nat) (data : bytes) (c : strim_h2c) (s : strim_h2c_stream) :
  conn_wf c -> stream_at c k = Some s -> live s -> bytes_ok data -> safe c (feed_loop malloc fuel k data c).
Proof.
  revert data c s. induction fuel as [|fuel IH]; intros data c s Hc Hs Hl Hd; [done|].
  destruct data as [|b data]; [done|]. cbn [feed_loop]. rewrite Hs.
  assert (Hbody : forall c' d s', safe c c' -> stream_at c' k = Some s' -> live s' ->
    rasm_state (s_rasm s') = 1 -> bytes_ok d ->
    safe c (match feed_body malloc k d c' with (c, None) => c | (c, Some d) => feed_loop malloc fuel k d c end)).
  { intros c' d s' Hsafe Hs' Hl' Hr' Hd'.
    destruct (feed_body_safe k d c' s' (proj1 Hsafe) Hs' Hl' Hr' Hd') as [Hx Hgo].
    destruct (feed_body malloc k d c') as [c2 [rest|]]; cbn [fst snd] in *.
    - destruct (Hgo rest eq_refl) as (Hrb & s2 & Hs2 & Hl2).
      apply (safe_trans _ c'); [done|]. intros _. apply (safe_trans _ c2); [done|]. intros Hc2. by apply (IH _ _ s2).
    - by apply (safe_trans _ c'). }
  destruct (rasm_state (s_rasm s) =? 0) eqn:E0; bool_props.
  - destruct (feed_header_safe k (b :: data) c s Hc Hs Hl E0 Hd) as [Hx Hgo].
    destruct (feed_header malloc k (b :: data) c) as [c1 [rest|]]; cbn [fst snd] in *; [|done].
    destruct (Hgo rest eq_refl) as (Hrb & s1 & Hs1 & Hl1 & Hr1). by apply (Hbody c1 rest s1).
  - apply (Hbody c (b :: data) s); [done | done | done | | done].
    pose proof (wf_at c k s Hc Hs) as [_ _ _ Hsra]. by destruct (Hsra Hl).
Qed.

(** ** The frame handlers *)
Lemma unpad_ok (flags : Z) (payload data : bytes) :
  bytes_ok payload ->
  (if has_flag flags H2_FLAG_PADDED then
     match payload with
     | [] => None
     | pad :: body => if strlen payload - 1 <? pad then None
                      else Some (take (Z.to_nat (strlen payload - 1 - pad)) body)
     end
   else Some payload) = Some data -> bytes_ok data.
Proof.
  intros Hp. destruct (has_flag _ _); [|by intros [= <-]]. destruct payload as [|pad body]; [done|].
  destruct (_ <? _); [done|]. intros [= <-]. apply Forall_cons in Hp as [_ Hp]. by apply Forall_take.
Qed.

Lemma data_safe (flags sid : Z) (payload : bytes) (c : strim_h2c) :
  conn_wf c -> bytes_ok payload -> safe c (handle_data_frame malloc flags sid payload c).2.
Proof.
  intros Hc Hp. unfold handle_data_frame. destruct (stream_find c sid) as [k|] eqn:Hf; [|done].
  destruct (stream_find_some _ _ _ Hf) as (s & Hs & Hu & _). rewrite Hs.
  destruct (st s =? SS_DONE) eqn:Est; [done|]. destruct (_ || _) eqn:Ew; [done|].
  destruct (if has_flag flags H2_FLAG_PADDED then _ else _) as [data|] eqn:Ed; [|done].
  apply unpad_ok in Ed; [|done]. apply orb_false_iff in Ew as [Ew1 Ew2]. bool_props.
  assert (0 <= strlen payload) by (unfold strlen; lia).
  pose proof (wf_at c k s Hc Hs) as [Hsr Hss Hsq Hsra]. pose proof (cw_recv c Hc) as Hcr. unfold window_wf in *.
  set (c0 := set_conn_recv_window _ c). rewrite (update_put k _ s c0 Hs). set (s1 := set_recv_window _ s).
  assert (Hs1 : stream_at (put k s1 c0) k = Some s1) by apply (stream_at_put k s s1 c0 Hs).
  assert (Hc1 : conn_wf (put k s1 c0)).
  { apply wf_put; [apply wf_conn_recv; [done | unfold window_wf; lia]|].
    split; simpl; [unfold window_wf; lia | done | done |].
    intros Hl. destruct (Hsra Hl); [by left | by right]. }
  pose proof (feed_loop_safe (length data) k data (put k s1 c0) s1 Hc1 Hs1 (conj Hu Est) Ed) as Hsafe.
  unfold stream_feed_data. set (c2 := feed_loop _ _ _ _ _) in *.
  assert (Hsafe' : safe c c2) by (apply (safe_trans c (put k s1 c0)); done).
  destruct (has_flag flags H2_FLAG_END_STREAM); [|done]. destruct (stream_at c2 k) as [s2|]; [|done].
  destruct (negb _); [|done]. apply (safe_trans c c2); [done | apply safe_abort'].
Qed.

Lemma store_message_safe (status : Z) (msg : cstring) (c : strim_h2c) :
  conn_wf c -> safe c (conn_store_message status msg c).
Proof. intros Hc. split; [unfold conn_store_message; auto with h2c | done]. Qed.

Lemma safe_update (k : nat) (f : strim_h2c_stream -> strim_h2c_stream) (c : strim_h2c) :
  conn_wf c -> (forall s, stream_at c k = Some s -> stream_wf s -> stream_wf (f s)) ->
  safe c (update_stream k f c).
Proof. intros Hc Hf. split; [by apply wf_update | done]. Qed.

Lemma apply_headers_safe (k : nat) (i : header_info) (c : strim_h2c) :
  conn_wf c -> safe c (apply_headers k i c).2.
Proof.
  intros Hc. unfold apply_headers. destruct (stream_at c k) as [s|] eqn:Hs; [|done].
  destruct (final_status i) as [g|].
  - assert (Hsafe : safe c (update_stream k (fun s => set_queue (close_queue (s_queue s)) (finish_stream g s)) c)).
    { apply safe_update; [done|]. intros s0 _ Hs0. by apply wf_finish_close. }
    destruct (_ || _); [|done]. apply (safe_trans _ _ _ Hsafe), store_message_safe.
  - destruct (negb (st s =? SS_SENT)) eqn:E; [done|]. bool_props. apply safe_update; [done|].
    intros s0 Hs0 [Hr Hw Hq Hl]. assert (s0 = s) by congruence. subst s0. split; simpl; [done | done | done |].
    intros [Hu _]. destruct Hl; [split; [done | by rewrite E] | by left | by right].
Qed.

Lemma header_name_present (f : hpack_field) (name : cstring) :
  is_Some (f_name f) -> is_Some (header_name_eq f name).
Proof. intros [n Hn]. unfold header_name_eq. rewrite Hn. by destruct (_ =? _). Qed.

Lemma classify_present (fs : list hpack_field) (i : header_info) :
  alloc_ok malloc -> Forall (present malloc) fs -> classify fs i <> NullDeref.
Proof.
  intros Ha. revert i. induction fs as [|f fs IH]; intros i Hp; [done|]. apply Forall_cons in Hp as [Hf Hp].
  cbn [classify]. destruct (Hf Ha) as [Hn [v Hv]].
  assert (Hc : classify_field f i <> NullDeref).
  { unfold classify_field. rewrite Hv.
    repeat match goal with |- context [header_name_eq f ?n] =>
      destruct (header_name_present f n Hn) as [b ->]; destruct b; [done || by destruct (_ || _)|] end. done. }
  destruct (classify_field f i); [by apply IH | done | done].
Qed.

Lemma header_block_safe (sid : Z) (block : bytes) (flags : Z) (c : strim_h2c) :
  conn_wf c -> safe c (handle_header_block malloc sid block flags c).2.
Proof.
  intros Hc. unfold handle_header_block. destruct (headers_block_offset block flags) as [off|]; [|done].
  destruct (hpack_decode_block malloc (dyn_dec c) (drop off block) H2C_MAX_FIELDS) as [d r] eqn:Ed.
  destruct (decode_block_wf _ _ _ _ _ _ (cw_dec c Hc) Ed) as [Hd Hpres].
  assert (Hsafe : safe c (set_dyn_dec d c)) by (split; [by apply wf_dec | done]).
  destruct r as [fields|]; [|done]. specialize (Hpres fields eq_refl).
  destruct (stream_find _ sid) as [k|]; [|done]. destruct (stream_at _ k) as [s|]; [|done].
  destruct (_ && _); [done|]. destruct (classify fields _) as [i| |] eqn:Ec; [|done|].
  - apply (safe_trans _ _ _ Hsafe), apply_headers_safe.
  - split; [apply wf_undefined, Hsafe|]. intros Ha. by apply classify_present in Ec.
Qed.

Lemma wf_hdr_block (h : header_block) (c : strim_h2c) :
  conn_wf c -> bytes_ok (hdr_block h) -> strlen (hdr_block h) <= H2C_HDR_BLOCK_MAX ->
  strlen (hdr_block h) <= hdr_block_cap h -> conn_wf (set_hdr h c).
Proof. wf_setter. done. Qed.

Lemma headers_safe (flags sid : Z) (payload : bytes) (c : strim_h2c) :
  conn_wf c -> bytes_ok payload -> safe c (handle_headers_frame malloc flags sid payload c).2.
Proof.
  intros Hc Hp. unfold handle_headers_frame. destruct (hdr_block_pending _); [done|].
  destruct (has_flag _ _); [by apply header_block_safe|]. destruct (_ <? _) eqn:E; [done|].
  destruct (_ && _); [done|]. split; [|done]. bool_props. by apply wf_hdr_block; [| | |simpl; lia].
Qed.

Lemma continuation_safe (flags : Z) (payload : bytes) (c : strim_h2c) :
  conn_wf c -> bytes_ok payload -> safe c (handle_continuation_frame malloc flags payload c).2.
Proof.
  intros Hc Hp. unfold handle_continuation_frame. destruct (negb _); [done|].
  destruct (_ <? _) eqn:E; [done|]. destruct (_ && _); [done|]. bool_props. rewrite <- strlen_app in *.
  set (h := HeaderBlock _ _ _ _ _). destruct (cw_hdr c Hc) as (Hb & _ & _).
  assert (Hsafe : safe c (set_hdr h c)).
  { split; [|done]. apply wf_hdr_block; [done | by apply bytes_ok_app | done | simpl; lia]. }
  destruct (has_flag _ _); [|done].
  pose proof (header_block_safe (hdr_block_sid h) (hdr_block h) (hdr_block_flags h) _ (proj1 Hsafe)) as Hblock.
  destruct (handle_header_block _ _ _ _ _) as [rc c2]. cbn [snd] in *.
  apply (safe_trans _ _ _ Hsafe). intros _. apply (safe_trans _ _ _ Hblock). intros Hc2.
  split; [|done]. destruct (cw_hdr c2 Hc2) as (? & ? & ?). by apply wf_hdr_block.
Qed.

Lemma to_int_range (v : Z) : int32 (to_int v).
Proof. unfold int32, to_int. pose proof (Z.mod_pos_bound (v + 2 ^ 31) (2 ^ 32)). lia. Qed.

Lemma wf_send_window (v : Z) (s : strim_h2c_stream) : stream_wf s -> int32 v -> stream_wf (set_send_window v s).
Proof.
  intros [Hr Hw Hq Hl] Hv. split; simpl; [done | done | done |]. intros Hlive.
  destruct (Hl Hlive); [by left | by right].
Qed.

Lemma shift_windows_wf (delta : Z) (c : strim_h2c) : conn_wf c -> conn_wf (shift_windows delta c).
Proof.
  intros Hc. unfold shift_windows. apply wf_streams; [auto with h2c | | rewrite length_map; apply Hc].
  apply Forall_map. apply (Forall_impl _ _ _ (cw_streams c Hc)). intros s Hs. simpl.
  destruct (s_in_use s); [apply wf_send_window; [done | apply to_int_range] | done].
Qed.

Lemma wf_peer (p : peer) (c : strim_h2c) :
  conn_wf c -> 16384 <= srv_max_frame p <= 16777215 -> int32 (srv_initial_window p) -> conn_wf (set_peer p c).
Proof. wf_setter. Qed.

Lemma apply_setting_wf (id val : Z) (c : strim_h2c) : conn_wf c -> 0 <= val -> conn_wf (apply_setting id val c).2.
Proof.
  intros Hc Hv. pose proof (cw_frame c Hc). pose proof (cw_init c Hc). unfold apply_setting.
  destruct (id =? _).
  { destruct (val =? _); [done|]. apply wf_enc_update, wf_enc; [done|]. apply dyn_set_max_wf; [apply Hc | done]. }
  destruct (id =? _).
  { apply shift_windows_wf, wf_peer; [auto with h2c | done | apply to_int_range]. }
  destruct (id =? _).
  { destruct (_ || _) eqn:E; [done|]. apply orb_false_iff in E as [E1 E2]. bool_props. by apply wf_peer. }
  destruct (id =? _); [by apply wf_peer | done].
Qed.

Lemma apply_settings_wf (n : nat) (p : bytes) (c : strim_h2c) :
  (length p <= n)%nat -> conn_wf c -> bytes_ok p -> conn_wf (apply_settings p c).2.
Proof.
  revert p c. induction n as [|n IH]; intros p c Hn Hc Hp.
  { by destruct p; [|simpl in Hn; lia]. }
  destruct p as [|a [|b [|v0 [|v1 [|v2 [|v3 p]]]]]]; try done. cbn [apply_settings].
  assert (Hv : 0 <= be32_of [v0; v1; v2; v3] 0).
  { apply be32_of_nonneg. unfold bytes_ok in *. rewrite !Forall_cons in *. intuition. }
  pose proof (apply_setting_wf (u16 (Z.lor (Z.shiftl a 8) b)) _ c Hc Hv) as Hc'.
  destruct (apply_setting _ _ c) as [rc c']. destruct (rc <? 0); [done|]. apply IH; [simpl in Hn; lia | done |].
  unfold bytes_ok in *. rewrite !Forall_cons in Hp. intuition.
Qed.

(** A frame is written: only the sending side of the socket changes. *)
Lemma frame_write_safe (type flags sid : Z) (payload : bytes) (c : strim_h2c) :
  conn_wf c -> safe c (frame_write type flags sid payload c).2.
Proof. intros Hc. destruct (frame_write_io type flags sid payload c) as (w & -> & Hw). split; [auto with h2c | done]. Qed.

Lemma settings_wf (p : bytes) (c : strim_h2c) : conn_wf c -> bytes_ok p -> conn_wf (handle_settings p c).2.
Proof.
  intros Hc Hp. unfold handle_settings. destruct (negb _); [done|].
  pose proof (apply_settings_wf (length p) p c ltac:(lia) Hc Hp) as Hc1. destruct (apply_settings p c) as [rc c1].
  destruct (rc <? 0); [done|].
  pose proof (frame_write_safe H2_SETTINGS H2_FLAG_ACK 0 [] c1 Hc1) as [Hc2 _]. unfold frame_write_settings.
  destruct (frame_write _ _ _ _ c1) as [rc' c2]. destruct (rc' <? 0); [done | unfold set_ready; cbn [snd] in *; auto with h2c].
Qed.

Lemma window_update_wf (sid : Z) (payload : bytes) (c : strim_h2c) :
  conn_wf c -> conn_wf (handle_window_update sid payload c).2.
Proof.
  intros Hc. unfold handle_window_update. destruct (negb _); [done|]. destruct (_ =? 0); [done|].
  destruct (sid =? 0); [apply wf_conn_send; [auto with h2c | apply to_int_range]|].
  destruct (stream_find c sid) as [k|]; [|done]. destruct (stream_at c k) as [s|]; [|done].
  apply wf_update; [auto with h2c|]. intros s0 _ Hs0. apply wf_send_window; [done | apply to_int_range].
Qed.

Lemma complete_all_safe (status : Z) (msg : cstring) (c : strim_h2c) :
  conn_wf c -> safe c (complete_all_streams status msg c).
Proof.
  intros Hc. unfold complete_all_streams. set (c1 := set_streams _ c).
  apply (safe_trans c c1); [|apply store_message_safe]. split; [|done].
  apply wf_streams; [done | | rewrite length_map; apply Hc].
  apply Forall_map. apply (Forall_impl _ _ _ (cw_streams c Hc)). intros s Hs. simpl.
  destruct (_ || _); auto with h2c.
Qed.

Lemma conn_fail_safe (e : Z) (c : strim_h2c) : conn_wf c -> safe c (conn_fail e c).
Proof.
  intros Hc. unfold conn_fail. destruct (dead _); [done|].
  apply (safe_trans c (set_dead e c)); [split; [unfold set_dead; auto with h2c | done] | apply complete_all_safe].
Qed.

Lemma goaway_safe (payload : bytes) (c : strim_h2c) : conn_wf c -> safe c (handle_goaway payload c).2.
Proof.
  intros Hc. unfold handle_goaway. destruct (_ <? _); [done|]. cbn [snd]. set (c1 := set_life _ c).
  pose proof (complete_all_safe H2C_STATUS_UNAVAILABLE (lit "server GOAWAY") c1 (wf_life _ _ Hc)) as Hsafe.
  apply (safe_trans c c1); [split; [by apply wf_life | done]|]. intros _. apply (safe_trans _ _ _ Hsafe). intros Hc2.
  split; [unfold set_dead; auto with h2c | done].
Qed.

Lemma rst_safe (sid : Z) (payload : bytes) (c : strim_h2c) : conn_wf c -> safe c (handle_rst_stream sid payload c).2.
Proof.
  intros Hc. unfold handle_rst_stream. destruct (negb _); [done|]. destruct (stream_find c sid) as [k|]; [|done].
  destruct (stream_at c k) as [s|]; [|done].
  destruct (_ =? _); (apply safe_update; [done|]; intros s0 _ Hs0; auto using wf_finish_close with h2c).
Qed.

Lemma ping_safe (flags : Z) (payload : bytes) (c : strim_h2c) : conn_wf c -> safe c (handle_ping flags payload c).2.
Proof.
  intros Hc. unfold handle_ping. destruct (negb _); [done|]. destruct (has_flag _ _); [done|].
  pose proof (frame_write_safe H2_PING H2_FLAG_ACK 0 payload c Hc) as Hsafe. unfold frame_write_ping_ack.
  destruct (frame_write _ _ _ _ c) as [rc c1]. by destruct (rc <? 0).
Qed.

Lemma dispatch_wf (type flags sid : Z) (payload : bytes) (c : strim_h2c) :
  conn_wf c -> bytes_ok payload ->
  conn_wf (dispatch_frame malloc type flags sid payload c).2 /\
  (type <> H2_SETTINGS -> type <> H2_WINDOW_UPDATE ->
     safe c (dispatch_frame malloc type flags sid payload c).2).
Proof.
  intros Hc Hp. unfold dispatch_frame.
  destruct (type =? H2_SETTINGS) eqn:E1; bool_props.
  { split; [|done]. destruct (negb _); [done|]. destruct (has_flag _ _); [done | by apply settings_wf]. }
  assert (Hcase : forall x, safe c x -> conn_wf x /\ (type <> H2_SETTINGS -> type <> H2_WINDOW_UPDATE -> safe c x))
    by (intros x [H1 H2]; done).
  destruct (type =? H2_PING); [by apply Hcase, ping_safe|].
  destruct (type =? H2_WINDOW_UPDATE) eqn:E2; bool_props; [split; [by apply window_update_wf | done]|].
  destruct (type =? H2_DATA); [by apply Hcase, data_safe|].
  destruct (type =? H2_HEADERS); [by apply Hcase, headers_safe|].
  destruct (type =? H2_CONTINUATION); [by apply Hcase, continuation_safe|].
  destruct (type =? H2_RST_STREAM); [by apply Hcase, rst_safe|].
  destruct (type =? H2_GOAWAY); [by apply Hcase, goaway_safe|].
  destruct (type =? H2_PRIORITY); by apply Hcase.
Qed.

End Handlers.
