(* ===== verification/H2cPublic.v ===== *)
(** * Every call keeps the connection well formed (containerd/h2c.c)

    The invariant of [H2cWf] holds of a connection [h2c_connect] returns, and
    every call of the public interface preserves it. *)

From S2P Require Import Prelude MiniPb Huffman Hpack HpackFacts HpackSafe H2cState H2c H2cFrames H2cFacts H2cWf.

(** ** Reading *)

Section Public.
Context (malloc : Z -> bool) (clock : nat -> Z).

Lemma after_read_wf (n : nat) (evs evs' : list rx_ev) (x : bytes + option Z) :
  Forall ev_wf evs -> after_read n evs = (x, evs') ->
  Forall ev_wf evs' /\ match x with inl bs => bytes_ok bs /\ (length bs <= n)%nat | _ => True end.
Proof.
  intros He. unfold after_read, sock_read. destruct evs as [|[bs| | |] evs]; simpl; [by intros [= <- <-]| | | |];
    apply Forall_cons in He as [He Hevs]; try (by intros [= <- <-]).
  assert (Hrest : Forall ev_wf (match drop n bs with [] => evs | rest => RxBytes rest :: evs end)).
  { pose proof (Forall_drop byte_ok n bs He) as Hd. destruct (drop n bs); [done|]. by apply Forall_cons. }
  pose proof (Forall_take byte_ok n bs He) as Ht. pose proof (length_take bs n) as Hl.
  destruct (take n bs) as [|b l]; [by intros [= <- <-]|]. intros [= <- <-]. split; [done|]. split; [done|]. lia.
Qed.

Lemma header_fields_nonneg (r : frame_reader) : bytes_ok (fr_hdr r) -> 0 <= fr_len (parse_header r).
Proof.
  intros Hb. simpl. assert (H : forall j, 0 <= default 0 (fr_hdr r !! j)).
  { intros j. destruct (fr_hdr r !! j) as [b|] eqn:E; [|done]. by apply (Forall_lookup_1 _ _ _ _ Hb) in E as [? _]. }
  repeat (apply Z.lor_nonneg; split); try apply Z.shiftl_nonneg; apply H.
Qed.

Lemma add_hdr_wf (r : frame_reader) (bs : bytes) :
  reader_wf r -> (length (fr_hdr r) < 9)%nat -> bytes_ok bs -> (length bs <= 9 - length (fr_hdr r))%nat ->
  reader_wf (add_hdr bs r).
Proof.
  intros [Hh Hb Hp Hpl] Hlt Hbs Hlen. split; simpl; [rewrite length_app; lia | by apply bytes_ok_app | done |].
  intros Hne. destruct (Hpl Hne). lia.
Qed.

Lemma parse_wf (r : frame_reader) : reader_wf r -> fr_payload r = [] -> reader_wf (parse_header r).
Proof. intros [Hh Hb Hp _] Hnil. split; simpl; [done | done | done |]. by rewrite Hnil. Qed.

(** The reader before it reads the payload. *)
Lemma start_wf (r r' : frame_reader) (start : bool) :
  reader_wf r -> length (fr_hdr r) = 9%nat -> start = (length (fr_payload r) =? 0)%nat ->
  r' = (let r := if start then parse_header r else r in
        if start && (fr_cap r <? fr_len r) then set_fr_cap (fr_len r) r else r) ->
  reader_wf r' /\ fr_hdr r' = fr_hdr r /\ fr_payload r' = fr_payload r /\
  0 <= fr_len r' <= fr_cap r' /\ strlen (fr_payload r') <= fr_len r'.
Proof.
  intros [Hh Hb Hp Hpl] H9 -> ->. pose proof (header_fields_nonneg r Hb) as Hnn.
  destruct (fr_payload r) as [|b p] eqn:Epl; cbn [length Nat.eqb andb].
  - cbv zeta. destruct (fr_cap _ <? fr_len _) eqn:E; bool_props;
      (split; [split; simpl; rewrite ?Epl; done|]); simpl in *; rewrite ?Epl; unfold strlen; simpl; split_and!; try done; lia.
  - destruct (Hpl ltac:(done)) as [_ Hle]. rewrite <- Epl in *.
    assert (0 <= strlen (fr_payload r)) by (unfold strlen; lia). split; [by split|]. split_and!; try done; lia.
Qed.

Lemma add_payload_wf (r : frame_reader) (bs : bytes) :
  reader_wf r -> length (fr_hdr r) = 9%nat -> bytes_ok bs -> fr_len r <= fr_cap r ->
  strlen (fr_payload r) + strlen bs <= fr_len r -> reader_wf (add_payload bs r).
Proof.
  intros [Hh Hb Hp Hpl] H9 Hbs Hcap Hlen. split; simpl; [done | done | by apply bytes_ok_app |].
  intros _. rewrite strlen_app. split; [done | lia].
Qed.

Lemma fill_wf (fuel : nat) (r r' : frame_reader) (evs evs' : list rx_ev) (rc : Z) :
  reader_wf r -> Forall ev_wf evs -> frame_reader_fill malloc fuel r evs = (rc, r', evs') ->
  reader_wf r' /\ Forall ev_wf evs'.
Proof.
  revert r evs. induction fuel as [|fuel IH]; intros r evs Hr He; cbn [frame_reader_fill]; [by intros [= <- <- <-]|].
  destruct (length (fr_hdr r) <? 9)%nat eqn:E9.
  { apply Nat.ltb_lt in E9. destruct (after_read _ evs) as [x evs1] eqn:Er.
    destruct (after_read_wf _ _ _ _ He Er) as [He1 Hx]. destruct x as [bs|[rc0|]]; [|by intros [= <- <- <-]|by apply IH].
    destruct Hx as [Hb Hl]. apply IH; [by apply add_hdr_wf | done]. }
  apply Nat.ltb_ge in E9. pose proof (rw_hdr r Hr). assert (H9 : length (fr_hdr r) = 9%nat) by lia.
  cbv zeta. set (start := (length (fr_payload r) =? 0)%nat). set (r1 := if start then parse_header r else r).
  destruct (start_wf r _ start Hr H9 eq_refl eq_refl) as (Hr2 & Hh2 & Hp2 & Hl2 & Hs2). fold r1 in Hr2, Hh2, Hp2, Hl2, Hs2.
  destruct (_ && negb _).
  { intros [= <- <- <-]. split; [|done]. unfold r1. destruct start eqn:Es; [|done]. apply Nat.eqb_eq in Es.
    apply parse_wf; [done | by apply nil_length_inv]. }
  set (r2 := if start && _ then _ else _) in *.
  destruct (start && (fr_len r2 =? 0)); [by intros [= <- <- <-]|].
  destruct (after_read _ evs) as [x evs1] eqn:Er. destruct (after_read_wf _ _ _ _ He Er) as [He1 Hx].
  destruct x as [bs|[rc0|]]; [|by intros [= <- <- <-]|by apply IH]. destruct Hx as [Hb Hl].
  assert (Hr3 : reader_wf (add_payload bs r2)).
  { apply add_payload_wf; [done | by rewrite Hh2 | done | lia |]. unfold strlen in *. lia. }
  destruct (_ <=? _); [by intros [= <- <- <-] | by apply IH].
Qed.

Lemma reset_wf (r : frame_reader) : reader_wf (frame_reader_reset r).
Proof. split; simpl; (lia || by apply Forall_nil || done). Qed.

Lemma process_one_wf (c : strim_h2c) : conn_wf c -> conn_wf (process_one_frame malloc c).2.
Proof.
  intros Hc. unfold process_one_frame.
  destruct (frame_reader_fill malloc _ _ _) as [[fr r] evs] eqn:Ef.
  destruct (fill_wf _ _ _ _ _ _ (cw_reader c Hc) (cw_events c Hc) Ef) as [Hr He].
  set (c1 := set_rx r _). assert (Hc1 : conn_wf c1) by (by apply wf_rx, Hr; apply wf_io).
  destruct (fr <? 0); [done|]. destruct (fr =? 0); [done|].
  destruct (dispatch_wf malloc (fr_type r) (fr_flags r) (fr_sid r) (fr_payload r) c1 Hc1 (rw_payload_bytes r Hr)) as [Hc2 _].
  destruct (dispatch_frame _ _ _ _ _ _) as [rc c2]. cbn [snd] in *.
  assert (conn_wf (set_rx (frame_reader_reset (c_rx c2)) c2)) by (apply wf_rx; [done | apply reset_wf]).
  by destruct (rc <? 0).
Qed.

Lemma process_frames_wf (budget : nat) (c : strim_h2c) : conn_wf c -> conn_wf (process_frames malloc budget c).2.
Proof.
  revert c. induction budget as [|budget IH]; intros c Hc; [done|]. cbn [process_frames].
  pose proof (process_one_wf c Hc) as Hc1. destruct (process_one_frame malloc c) as [r c1].
  destruct (r <? 0); [done|]. destruct (r =? 0); [done | by apply IH].
Qed.

Lemma poll_wf (c : strim_h2c) : conn_wf c -> conn_wf (conn_poll_once malloc c).2.
Proof.
  intros Hc. unfold conn_poll_once. destruct (dead _); [done|].
  assert (Hc1 : conn_wf (next_poll c).2).
  { unfold next_poll. destruct (polls _); [done|]. apply wf_io; [done | apply Hc]. }
  destruct (next_poll c) as [[] c1]; cbn [snd] in *; [|done | done | by apply (conn_fail_safe malloc)].
  pose proof (process_frames_wf H2C_FRAME_BUDGET c1 Hc1) as Hc2.
  destruct (process_frames _ _ _) as [[r|] c2]; cbn [snd] in *; [by apply (conn_fail_safe malloc)|].
  by destruct (dead _).
Qed.

Lemma time_left_wf (d : Z) (c : strim_h2c) : conn_wf c -> conn_wf (time_left_ms clock d c).2.
Proof. intros Hc. unfold time_left_ms, mono_ms. simpl. auto with h2c. Qed.

(** ** Sending *)
Lemma wait_window_wf (fuel k : nat) (chunk deadline : Z) (c c' : strim_h2c) (rc : Z) :
  conn_wf c -> wait_window malloc clock fuel k chunk deadline c = Some (rc, c') ->
  conn_wf c' /\ ((rc <? 0) = false -> window_short k chunk c' = false).
Proof.
  revert c. induction fuel as [|fuel IH]; intros c Hc; cbn [wait_window];
    (destruct (window_short k chunk c) eqn:E; cbn [negb]; [|by intros [= <- <-]]); [done|].
  pose proof (time_left_wf deadline c Hc) as Hc1. destruct (time_left_ms _ _ c) as [ms c1]. cbn [snd] in Hc1.
  destruct (ms <=? 0); [by intros [= <- <-]|].
  pose proof (poll_wf c1 Hc1) as Hc2. destruct (conn_poll_once malloc c1) as [wr c2]. cbn [snd] in Hc2.
  destruct (wr <? 0).
  { intros [= <- <-]. split; [done|]. unfold goaway_or_io. by destruct (_ =? _). }
  destruct (stream_done k c2); [by intros [= <- <-] | by apply IH].
Qed.

Lemma window_room (k : nat) (chunk : Z) (c : strim_h2c) (s : strim_h2c_stream) :
  window_short k chunk c = false -> stream_at c k = Some s -> chunk <= send_window s /\ chunk <= conn_send_window c.
Proof. unfold window_short. intros H Hs. rewrite Hs in H. by apply orb_false_iff in H as [?%Z.ltb_ge ?%Z.ltb_ge]. Qed.

Lemma spend_wf (k : nat) (chunk : Z) (c : strim_h2c) (s : strim_h2c_stream) :
  conn_wf c -> stream_at c k = Some s -> window_short k chunk c = false -> 0 <= chunk ->
  conn_wf (set_conn_send_window (conn_send_window c - chunk)
             (update_stream k (set_send_window (send_window s - chunk)) c)).
Proof.
  intros Hc Hs Hw H0. destruct (window_room k chunk c s Hw Hs) as [H1 H2].
  pose proof (sw_send s (wf_at c k s Hc Hs)) as Hss. pose proof (cw_send c Hc) as Hcs. unfold int32 in *.
  apply wf_conn_send; [|unfold int32; lia]. apply wf_update; [done|]. intros s0 _ Hs0.
  apply wf_send_window; [done | unfold int32; lia].
Qed.

Lemma send_chunks_wf (frames fuel k : nat) (frame_max : Z) (rest : bytes) (c c' : strim_h2c) (rc : Z) :
  conn_wf c -> 0 <= frame_max -> send_chunks malloc clock frames fuel k frame_max rest c = Some (rc, c') -> conn_wf c'.
Proof.
  intros Hc Hf. revert rest c Hc. induction frames as [|frames IH]; intros rest c Hc; cbn [send_chunks].
  { by intros [= <- <-]. }
  destruct rest as [|b rest]; [by intros [= <- <-]|]. set (chunk := if _ <? _ then _ else _).
  assert (H0 : 0 <= chunk) by (unfold chunk; destruct (_ <? _); [lia | unfold strlen; lia]).
  set (c0 := require _ c). assert (Hc0 : conn_wf c0) by (unfold c0; auto with h2c).
  destruct (if window_short k chunk c0 then _ else _) as [[rc1 c1]|] eqn:Ew; [|done].
  assert (Hc1 : conn_wf c1 /\ ((rc1 <? 0) = false -> window_short k chunk c1 = false)).
  { destruct (window_short k chunk c0) eqn:Es; [|by injection Ew as <- <-].
    unfold mono_ms in Ew. apply wait_window_wf in Ew; [done | auto with h2c]. }
  destruct Hc1 as [Hc1 Hroom]. destruct (rc1 <? 0); [by intros [= <- <-]|].
  destruct (stream_at c1 k) as [s|] eqn:Hs; [|done].
  pose proof (spend_wf k chunk c1 s Hc1 Hs (Hroom eq_refl) H0) as Hc2. set (c2 := set_conn_send_window _ _) in *.
  match goal with |- context [frame_write ?t ?f ?i ?p c2] =>
    destruct (frame_write_safe malloc t f i p c2 Hc2) as [Hc3 _]; destruct (frame_write t f i p c2) as [rc3 c3] end.
  cbn [snd] in Hc3. destruct (rc3 <? 0); [by intros [= <- <-] | by apply IH].
Qed.

Lemma send_request_wf (fuel k : nat) (path : cstring) (req : bytes) (c c' : strim_h2c) (rc : Z) :
  conn_wf c -> send_request malloc clock fuel k path req c = Some (rc, c') -> conn_wf c'.
Proof.
  intros Hc. unfold send_request.
  pose proof (build_headers_wf malloc (dyn_enc c) (enc_size_update c) (namespace_ c) path H2C_REQ_HDR_BLOCK (cw_enc c Hc)) as Hd.
  destruct (build_request_headers _ _ _ _ _ _) as [[d upd] hdrs]. cbn [fst] in Hd.
  set (c1 := set_enc_size_update _ _). assert (Hc1 : conn_wf c1) by (by apply wf_enc_update, wf_enc).
  destruct hdrs as [block|]; [|by intros [= <- <-]]. destruct (stream_at c1 k) as [s|]; [|by intros [= <- <-]].
  destruct (frame_write_safe malloc H2_HEADERS H2_FLAG_END_HEADERS (s_id s) block c1 Hc1) as [Hc2 _].
  destruct (frame_write _ _ _ block c1) as [rc2 c2]. cbn [snd] in Hc2. destruct (rc2 <? 0); [by intros [= <- <-]|].
  apply send_chunks_wf; [done|]. pose proof (cw_frame c2 Hc2). lia.
Qed.

(** ** Streams come and go *)
Lemma take_slot_wf (k : nat) (type : Z) (c : strim_h2c) : conn_wf c -> conn_wf (take_slot k type c).2.
Proof.
  intros Hc. unfold take_slot. cbn [snd]. apply wf_next_sid, wf_update; [done|]. intros s _ _.
  apply wf_new, Hc.
Qed.

Lemma stream_alloc_wf (type : Z) (c c' : strim_h2c) (k : nat) :
  conn_wf c -> stream_alloc type c = Some (k, c') ->
  conn_wf c' /\ forall s, stream_at c' k = Some s -> rasm_wf s /\ rasm_state (s_rasm s) = 0.
Proof.
  assert (Htake : forall c j, conn_wf c -> Some (take_slot j type c) = Some (k, c') ->
    conn_wf c' /\ forall s, stream_at c' k = Some s -> rasm_wf s /\ rasm_state (s_rasm s) = 0).
  { intros c0 j Hc0 Heq. pose proof (take_slot_wf j type c0 Hc0) as Hw. injection Heq as -> <-. split; [done|].
    intros s Hs. unfold stream_at in Hs. simpl in Hs. rewrite list_lookup_alter_eq in Hs.
    destruct (streams c0 !! k); [|done]. injection Hs as <-.
    split; [left; simpl; [done | lia | by apply Forall_nil] | done]. }
  intros Hc. unfold stream_alloc. destruct (find_slot _ 0 (streams c)); [by apply Htake|].
  destruct (find_slot _ 0 (streams c)) as [d|]; [|done].
  destruct (find_slot _ 0 _); [|done]. apply Htake. apply wf_update; [done|]. intros. by apply wf_destroy.
Qed.

Lemma destroy_wf (k : nat) (c : strim_h2c) : conn_wf c -> conn_wf (update_stream k stream_destroy c).
Proof. intros Hc. apply wf_update; [done|]. intros. by apply wf_destroy. Qed.

Lemma rst_write_wf (sid code : Z) (c : strim_h2c) : conn_wf c -> conn_wf (frame_write_rst sid code c).2.
Proof. intros Hc. by apply (frame_write_safe malloc). Qed.

(** ** Waiting *)
Lemma handshake_wf (fuel : nat) (deadline : Z) (c c' : strim_h2c) (rc : Z) :
  conn_wf c -> handshake malloc clock fuel deadline c = Some (rc, c') -> conn_wf c'.
Proof.
  revert c. induction fuel as [|fuel IH]; intros c Hc; cbn [handshake]; (destruct (_ || _); [by intros [= <- <-]|]); [done|].
  pose proof (time_left_wf deadline c Hc) as Hc1. destruct (time_left_ms _ _ c) as [ms c1]. cbn [snd] in Hc1.
  destruct (ms <=? 0); [by intros [= <- <-]|].
  pose proof (poll_wf c1 Hc1) as Hc2. destruct (conn_poll_once malloc c1) as [wr c2]. cbn [snd] in Hc2.
  destruct (wr <? 0); [by intros [= <- <-] | by apply IH].
Qed.

Lemma unary_wait_wf (fuel k : nat) (deadline : Z) (c c' : strim_h2c) (rc : Z) :
  conn_wf c -> unary_wait malloc clock fuel k deadline c = Some (rc, c') -> conn_wf c'.
Proof.
  revert c. induction fuel as [|fuel IH]; intros c Hc; cbn [unary_wait];
    (destruct (stream_done k c); [by intros [= <- <-]|]); [done|].
  pose proof (time_left_wf deadline c Hc) as Hc1. destruct (time_left_ms _ _ c) as [ms c1]. cbn [snd] in Hc1.
  destruct (ms <=? 0).
  { destruct (stream_at c1 k) as [s|]; [|by intros [= <- <-]]. intros [= <- <-]. by apply rst_write_wf. }
  pose proof (poll_wf c1 Hc1) as Hc2. destruct (conn_poll_once malloc c1) as [wr c2]. cbn [snd] in Hc2.
  destruct (wr <? 0); [|by apply IH]. destruct (stream_done k c2); by intros [= <- <-].
Qed.

Lemma open_wait_wf (fuel k : nat) (grace : Z) (c c' : strim_h2c) (rc : Z) :
  conn_wf c -> open_wait malloc clock fuel k grace c = Some (rc, c') -> conn_wf c'.
Proof.
  revert c. induction fuel as [|fuel IH]; intros c Hc; cbn [open_wait];
    (destruct (negb _); [by intros [= <- <-]|]); [done|].
  pose proof (time_left_wf grace c Hc) as Hc1. destruct (time_left_ms _ _ c) as [ms c1]. cbn [snd] in Hc1.
  destruct (ms <=? 0); [by intros [= <- <-]|]. destruct (dead _); [by intros [= <- <-]|].
  pose proof (poll_wf c1 Hc1) as Hc2. destruct (conn_poll_once malloc c1) as [wr c2]. cbn [snd] in Hc2.
  destruct (_ && _); [by intros [= <- <-] | by apply IH].
Qed.

(** Handing out the first message. *)
Lemma pop_wf (s : strim_h2c_stream) (m : bytes) (ms : list bytes) :
  stream_wf s -> q_msgs (s_queue s) = m :: ms ->
  stream_wf (set_queue (MsgQueue ms (q_bytes (s_queue s) - strlen m) (q_closed (s_queue s)) (Some m)) s) /\
  strlen m <= H2C_QUEUE_MAX_BYTES.
Proof.
  intros [Hr Hw [Hq1 Hq2] Hl] Hq. rewrite Hq in Hq1. cbn [concat] in Hq1. rewrite strlen_app in Hq1.
  assert (0 <= strlen (concat ms)) by (unfold strlen; lia). assert (0 <= strlen m) by (unfold strlen; lia).
  split; [|lia]. split; simpl; [done | done | split; simpl; lia |].
  intros Hv. destruct (Hl Hv); [by left | by right].
Qed.

Lemma credit_wf (k : nat) (total : Z) (c : strim_h2c) :
  conn_wf c -> 0 <= total < 2 ^ 31 -> conn_wf (stream_credit_message k total c).
Proof.
  intros Hc Ht. destruct (stream_at c k) as [s|] eqn:Hs; [|unfold stream_credit_message; by rewrite Hs].
  destruct (credit_put malloc k total c s Hc Hs Ht) as (w & rw & cw & -> & Hio & Hrw & Hcw).
  apply wf_write; [|done]. apply wf_conn_recv; [|done]. apply wf_put; [done|].
  destruct (wf_at c k s Hc Hs) as [Hr Hw Hq Hl]. split; simpl; [done | done | done |].
  intros Hv. destruct (Hl Hv); [by left | by right].
Qed.

Lemma next_loop_wf (fuel k : nat) (deadline : Z) (c c' : strim_h2c) (rc : Z) (m : option bytes) :
  conn_wf c -> next_loop malloc clock fuel k deadline c = Some (rc, m, c') -> conn_wf c'.
Proof.
  revert c. induction fuel as [|fuel IH]; intros c Hc; cbn [next_loop];
    (destruct (stream_at c k) as [s|] eqn:Hs; [|done]);
    (destruct (q_msgs (s_queue s)) as [|m0 ms] eqn:Hq;
     [|destruct (pop_wf s m0 ms (wf_at c k s Hc Hs) Hq) as [Hpop Hlen]; intros [= <- <- <-];
       assert (0 <= strlen m0) by (unfold strlen; lia); unfold H2C_QUEUE_MAX_BYTES in Hlen;
       apply credit_wf; [apply wf_update; [done|]; intros s0 Hs0; assert (s0 = s) by congruence; by subst s0 |
                         rewrite wrap_small by lia; lia]]);
    (destruct (st s =? SS_DONE); [by intros [= <- <- <-]|]); [done|].
  pose proof (time_left_wf deadline c Hc) as Hc1. destruct (time_left_ms _ _ c) as [tl c1]. cbn [snd] in Hc1.
  destruct (tl <=? 0); [by intros [= <- <- <-]|].
  pose proof (poll_wf c1 Hc1) as Hc2. destruct (conn_poll_once malloc c1) as [wr c2]. cbn [snd] in Hc2.
  destruct (wr <? 0); [|by apply IH]. destruct (stream_at c2 k) as [s2|]; [|done].
  destruct (_ || _); [by apply IH | by intros [= <- <- <-]].
Qed.

(** ** The public interface *)
Lemma new_connection_wf (w : io) (ns : cstring) : Forall ev_wf (rx_evs w) -> conn_wf (new_connection w ns).
Proof.
  intros He. assert (Hslot : stream_wf free_slot).
  { split; simpl; [done | done | done | intros [? _]; done]. }
  split; simpl; try done; try apply table_wf_reset; try (unfold int32, H2_INIT_WINDOW; lia).
  - repeat (apply Forall_cons; split; [done|]). by apply Forall_nil.
  - split; [by apply Forall_nil | done].
  - split; simpl; (lia || by apply Forall_nil || done).
Qed.

Lemma connect_wf (fuel : nat) (out : bool) (sock_path ns : option cstring) (socket : bool) (w : io)
    (rc : Z) (c : strim_h2c) :
  Forall ev_wf (rx_evs w) ->
  h2c_connect malloc clock fuel out sock_path ns socket w = Some (rc, Some c) -> conn_wf c.
Proof.
  intros He. unfold h2c_connect. cbv zeta. destruct (negb out); [done|]. destruct (_ <=? _); [done|].
  destruct (_ <=? _); [done|]. destruct (negb socket); [done|].
  set (c0 := new_connection _ _). assert (Hc0 : conn_wf c0) by (by apply new_connection_wf).
  destruct (write_io H2_PREFACE c0) as (w1 & Hw1 & Hq1). destruct (write H2_PREFACE c0) as [rc1 c1].
  cbn [snd] in Hw1. subst c1. destruct (rc1 <? 0); [done|].
  destruct (frame_write_safe malloc H2_SETTINGS 0 0 client_settings (set_io w1 c0)) as [Hc2 _]; [auto with h2c|].
  unfold frame_write_settings. destruct (frame_write _ _ _ _ _) as [rc2 c2]. cbn [snd] in Hc2.
  destruct (rc2 <? 0); [done|]. unfold mono_ms.
  destruct (handshake _ _ _ _ _) as [[rc3 c3]|] eqn:Eh; [|done].
  apply handshake_wf in Eh; [|auto with h2c]. destruct (rc3 <? 0); [done|]. by intros [= <- <-].
Qed.

Lemma set_resp_wf (k : nat) (p : response) (c : strim_h2c) :
  conn_wf c -> (forall s, stream_at c k = Some s -> rasm_wf s /\ rasm_state (s_rasm s) = 0) ->
  conn_wf (update_stream k (set_resp p) c).
Proof.
  intros Hc Hk. apply wf_update; [done|]. intros s Hs [Hr Hw Hq _]. split; simpl; [done | done | done |].
  intros _. destruct (Hk s Hs) as [[H0 H1 H2|H1] H0']; [by left | congruence].
Qed.

Lemma unary_wf (fuel : nat) (method : option cstring) (req : bytes) (buf : bool) (cap : Z) (out : bool)
    (timeout : Z) (c c' : strim_h2c) (rc : Z) (r : bytes) :
  conn_wf c -> h2c_unary malloc clock fuel method req buf cap out timeout c = Some (rc, r, c') -> conn_wf c'.
Proof.
  intros Hc. unfold h2c_unary. destruct method as [path|]; [|by intros [= <- <- <-]].
  destruct (negb out); [by intros [= <- <- <-]|]. destruct (dead _); [by intros [= <- <- <-]|].
  destruct (_ && _); [by intros [= <- <- <-]|]. destruct (_ <? _); [by intros [= <- <- <-]|].
  destruct (stream_alloc _ c) as [[k c1]|] eqn:Ea; [|by intros [= <- <- <-]].
  destruct (stream_alloc_wf _ _ _ _ Hc Ea) as [Hc1 Hk]. cbv zeta.
  set (c2 := update_stream k _ c1). assert (Hc2 : conn_wf c2) by (by apply set_resp_wf).
  destruct (send_request _ _ _ _ _ _ c2) as [[rc3 c3]|] eqn:Es; [|done]. apply send_request_wf in Es; [|done].
  destruct (rc3 <? 0); [intros [= <- <- <-]; by apply destroy_wf|]. unfold mono_ms.
  destruct (unary_wait _ _ _ _ _ _) as [[rc4 c4]|] eqn:Ew; [|done]. apply unary_wait_wf in Ew; [|auto with h2c].
  destruct (stream_at c4 k) as [s|]; [|done].
  repeat (match goal with |- context [if ?b then _ else _] => destruct b end);
    intros [= <- <- <-]; by apply destroy_wf.
Qed.

Lemma stream_open_wf (fuel : nat) (out : bool) (method : option cstring) (req : bytes) (c c' : strim_h2c)
    (rc : Z) (k : option nat) :
  conn_wf c -> h2c_stream_open malloc clock fuel out method req c = Some (rc, k, c') -> conn_wf c'.
Proof.
  intros Hc. unfold h2c_stream_open. destruct method as [path|]; [|by intros [= <- <- <-]].
  destruct (negb out); [by intros [= <- <- <-]|]. destruct (dead _); [by intros [= <- <- <-]|].
  destruct (_ <? _); [by intros [= <- <- <-]|].
  destruct (stream_alloc _ c) as [[j c1]|] eqn:Ea; [|by intros [= <- <- <-]].
  destruct (stream_alloc_wf _ _ _ _ Hc Ea) as [Hc1 _]. cbv zeta.
  destruct (send_request _ _ _ _ _ _ c1) as [[rc3 c3]|] eqn:Es; [|done]. apply send_request_wf in Es; [|done].
  destruct (rc3 <? 0); [intros [= <- <- <-]; by apply destroy_wf|]. unfold mono_ms.
  destruct (open_wait _ _ _ _ _ _) as [[rc4 c4]|] eqn:Ew; [|done]. apply open_wait_wf in Ew; [|auto with h2c].
  destruct (stream_at c4 j) as [s|]; [|done].
  destruct (rc4 <? 0); [intros [= <- <- <-]; by apply destroy_wf|].
  destruct (negb _); [intros [= <- <- <-]; by apply destroy_wf|].
  destruct (_ && _); intros [= <- <- <-]; [by apply destroy_wf | done].
Qed.

Lemma stream_next_wf (fuel k : nat) (timeout : Z) (c c' : strim_h2c) (rc : Z) (m : option bytes) :
  conn_wf c -> h2c_stream_next malloc clock fuel k timeout c = Some (rc, m, c') -> conn_wf c'.
Proof.
  intros Hc. unfold h2c_stream_next. destruct (stream_at c k) as [s|]; [|done].
  destruct (negb _); [by intros [= <- <- <-]|].
  destruct (timeout <? 0); [by apply next_loop_wf|]. unfold mono_ms. apply next_loop_wf. auto with h2c.
Qed.

Lemma stream_close_wf (k : nat) (c : strim_h2c) : conn_wf c -> conn_wf (h2c_stream_close k c).
Proof.
  intros Hc. unfold h2c_stream_close. destruct (stream_at c k) as [s|]; [|done]. destruct (negb _); [done|].
  apply wf_update; [destruct (_ && _); [by apply rst_write_wf | done]|].
  intros s0 _ Hs0. apply wf_destroy. apply (wf_finished s0); [done | done | done | apply Hs0 | by apply not_live_done].
Qed.

(** ** Reachable connections *)

(** The connections a program can hold: one that [h2c_connect] returned, and
    what the calls make of it, whatever the peer sends, whichever allocations
    fail and however the clock runs. *)
Inductive reachable : strim_h2c -> Prop :=
  | reach_connect fuel out sock_path ns socket w rc c :
      Forall ev_wf (rx_evs w) ->
      h2c_connect malloc clock fuel out sock_path ns socket w = Some (rc, Some c) -> reachable c
  | reach_unary fuel method req buf cap out timeout rc r c c' :
      reachable c -> h2c_unary malloc clock fuel method req buf cap out timeout c = Some (rc, r, c') -> reachable c'
  | reach_open fuel out method req rc k c c' :
      reachable c -> h2c_stream_open malloc clock fuel out method req c = Some (rc, k, c') -> reachable c'
  | reach_next fuel k timeout rc m c c' :
      reachable c -> h2c_stream_next malloc clock fuel k timeout c = Some (rc, m, c') -> reachable c'
  | reach_close k c : reachable c -> reachable (h2c_stream_close k c).

(** C12: Every connection a program can hold is well formed: from [h2c_connect]
    on, after any sequence of calls and whatever bytes the peer sends, flow
    windows stay in range and receive windows non-negative, queues account
    for their bytes within 4 MiB, the message being received fits its buffer,
    header blocks, frame payloads and both HPACK tables stay within their
    limits. *)
Theorem connections_stay_well_formed (c : strim_h2c) : reachable c -> conn_wf c.
Proof.
  induction 1 as [? ? ? ? ? ? ? ? He Hc | ? ? ? ? ? ? ? ? ? ? ? _ IH Hc | ? ? ? ? ? ? ? ? _ IH Hc
                 | ? ? ? ? ? ? ? _ IH Hc | ? ? _ IH].
  - by apply connect_wf in Hc.
  - by apply unary_wf in Hc.
  - by apply stream_open_wf in Hc.
  - by apply stream_next_wf in Hc.
  - by apply stream_close_wf.
Qed.

(** C20: On a well-formed connection no frame but SETTINGS and WINDOW_UPDATE can
    cause undefined behaviour while memory lasts: DATA of any shape stays
    within the reassembly buffers, and header blocks never lead to a NULL
    name or value. *)
Theorem frames_are_memory_safe (type flags sid : Z) (payload : bytes) (c : strim_h2c) :
  conn_wf c -> bytes_ok payload -> alloc_ok malloc -> type <> H2_SETTINGS -> type <> H2_WINDOW_UPDATE ->
  c_undefined (dispatch_frame malloc type flags sid payload c).2 = c_undefined c.
Proof.
  intros Hc Hp Ha H1 H2. destruct (dispatch_wf malloc type flags sid payload c Hc Hp) as [_ Hs].
  by apply (Hs H1 H2).
Qed.

End Public.

(** A server that sends an empty SETTINGS frame. *)
Definition greeting : io := Io [RxBytes [0; 0; 0; 4; 0; 0; 0; 0; 0]] [] [] [PollReady] 0.

Definition connected : strim_h2c :=
  match h2c_connect (fun _ => true) (fun _ => 0) 5 true None (Some (lit "moby")) true greeting with
  | Some (_, Some c) => c
  | _ => new_connection greeting []
  end.

Lemma connected_wf : conn_wf connected.
Proof.
  apply (connect_wf (fun _ => true) (fun _ => 0) 5 true None (Some (lit "moby")) true greeting 0).
  - repeat constructor; unfold byte_ok; lia.
  - vm_compute. reflexivity.
Qed.

Lemma connections_stay_well_formed_witness : conn_wf (h2c_stream_close 0 connected).
Proof.
  apply (connections_stay_well_formed (fun _ => true) (fun _ => 0)). apply reach_close.
  apply (reach_connect _ _ 5 true None (Some (lit "moby")) true greeting 0).
  - repeat constructor; unfold byte_ok; lia.
  - vm_compute. reflexivity.
Defined.

Lemma frames_are_memory_safe_witness :
  c_undefined (dispatch_frame (fun _ => true) H2_DATA 0 1 [0; 0; 0; 0; 1; 7]
    (take_slot 0 ST_SUBSCRIBE connected).2).2 = c_undefined (take_slot 0 ST_SUBSCRIBE connected).2.
Proof.
  apply frames_are_memory_safe.
  - apply take_slot_wf. exact connected_wf.
  - repeat constructor; unfold byte_ok; lia.
  - intros n. reflexivity.
  - discriminate.
  - discriminate.
Defined.
