(* ===== verification/H2cSend.v ===== *)
(** * Requests on the wire (containerd/h2c.c)

    What [send_request] puts on the socket: a HEADERS frame, then DATA frames
    that carry the gRPC message, the last one ending the stream. *)

From S2P Require Import Prelude MiniPb Huffman Hpack HpackFacts H2cState H2c H2cFrames H2cFacts.

(** ** Writing *)

(** The socket takes its time, but takes everything. *)
Definition tx_quiet (e : tx_ev) : Prop := e <> TxFail.

Lemma write_all_ok (evs : list tx_ev) (data sent : bytes) :
  Forall tx_quiet evs -> exists evs', write_all evs data sent = (0, evs', sent ++ data) /\ Forall tx_quiet evs'.
Proof.
  revert data sent. induction evs as [|e evs IH]; intros data sent Hq.
  - rewrite write_all_quiet. by eexists.
  - destruct data as [|b data]; [eexists; simpl; rewrite app_nil_r; done|].
    apply Forall_cons in Hq as [He Hq]. destruct e as [n| |]; [|by apply IH|done]. cbn [write_all].
    destruct (IH (drop n (b :: data)) (sent ++ take n (b :: data)) Hq) as (evs' & -> & Hq').
    eexists. split; [|done]. by rewrite <- app_assoc, take_drop.
Qed.

(** A frame on the wire; [w] is the socket afterwards. *)
Definition sends (bs : bytes) (w w' : io) : Prop :=
  tx w' = tx w ++ bs /\ Forall tx_quiet (tx_evs w') /\ write_only w' w.

Lemma sends_trans (a b : bytes) (w w' w'' : io) : sends a w w' -> sends b w' w'' -> sends (a ++ b) w w''.
Proof.
  unfold sends, write_only. intros (H1 & H2 & H3) (H4 & H5 & H6). rewrite H4, H1, <- app_assoc.
  intuition congruence.
Qed.

Lemma write_sends (data : bytes) (c : strim_h2c) :
  Forall tx_quiet (tx_evs (c_io c)) -> exists w, write data c = (0, set_io w c) /\ sends data (c_io c) w.
Proof.
  intros Hq. unfold write. destruct (write_all_ok _ data (tx (c_io c)) Hq) as (evs' & -> & Hq').
  eexists. split; [done|]. by unfold sends.
Qed.

Lemma frame_write_sends (type flags sid : Z) (payload : bytes) (c : strim_h2c) :
  Forall tx_quiet (tx_evs (c_io c)) -> strlen payload <= 0xffffff ->
  exists w, frame_write type flags sid payload c = (0, set_io w c) /\
    sends (frame_bytes (Frame type flags sid payload)) (c_io c) w.
Proof.
  intros Hq Hlen. unfold frame_write. rewrite (proj2 (Z.ltb_ge _ _) Hlen).
  destruct (write_sends (frame_hdr type flags sid (strlen payload)) c Hq) as (w & -> & Hw). cbn [Z.ltb Z.compare].
  unfold frame_bytes. cbn [f_type f_flags f_sid f_payload].
  destruct (strlen payload =? 0) eqn:E.
  - destruct payload; [|done]. exists w. by rewrite app_nil_r.
  - destruct (write_sends payload (set_io w c)) as (w' & -> & Hw'); [apply Hw|]. exists w'. split; [done|].
    by apply (sends_trans _ _ _ w).
Qed.

(** ** DATA *)

(** The frames of a message cut into [ps]: the last one ends the stream. *)
Fixpoint data_frames (sid : Z) (ps : list bytes) : list frame :=
  match ps with
  | [] => []
  | p :: ps' => Frame H2_DATA (match ps' with [] => H2_FLAG_END_STREAM | _ => 0 end) sid p :: data_frames sid ps'
  end.

(** [n] bytes of a stream's credit are used. *)
Definition spent (k : nat) (s : strim_h2c_stream) (n : Z) (c : strim_h2c) : strim_h2c :=
  set_conn_send_window (conn_send_window c - n) (put k (set_send_window (send_window s - n) s) c).

Lemma spent_more (k : nat) (s : strim_h2c_stream) (n m : Z) (c : strim_h2c) :
  spent k (set_send_window (send_window s - n) s) m (spent k s n c) = spent k s (n + m) c.
Proof.
  unfold spent. simpl. unfold set_conn_send_window, put, update_stream, set_streams. simpl.
  rewrite !Z.sub_add_distr. f_equal.
  pose proof (put_put k (set_send_window (send_window s - n) s) (set_send_window (send_window s - n - m) s) c) as H.
  apply (f_equal streams) in H. exact H.
Qed.

Lemma spent_nothing (k : nat) (s : strim_h2c_stream) (c : strim_h2c) :
  stream_at c k = Some s -> set_io (c_io c) (spent k s (strlen []) c) = c.
Proof.
  intros Hs. unfold spent. change (strlen []) with 0. rewrite !Z.sub_0_r, put_same by (rewrite Hs; by destruct s).
  by destruct c.
Qed.

Lemma sends_nothing (w : io) : Forall tx_quiet (tx_evs w) -> sends [] w w.
Proof. unfold sends. by rewrite app_nil_r. Qed.

Section Send.
Context (malloc : Z -> bool) (clock : nat -> Z).

Lemma send_chunks_ok (frames fuel k : nat) (frame_max : Z) : forall (rest : bytes) (c : strim_h2c) (s : strim_h2c_stream),
  (length rest <= frames)%nat -> 0 < frame_max <= 0xffffff -> Z.min frame_max (strlen rest) <= H2C_DATA_BUF ->
  stream_at c k = Some s -> strlen rest <= send_window s -> strlen rest <= conn_send_window c ->
  Forall tx_quiet (tx_evs (c_io c)) ->
  exists ps w, concat ps = rest /\ Forall (fun p => 0 < strlen p <= frame_max) ps /\
    sends (concat (map frame_bytes (data_frames (s_id s) ps))) (c_io c) w /\
    send_chunks malloc clock frames fuel k frame_max rest c =
      Some (0, set_io w (spent k s (strlen rest) c)).
Proof.
  induction frames as [|frames IH]; intros rest c s Hn Hmax Hbuf Hs Hw Hcw Hq.
  { destruct rest; [|simpl in Hn; lia]. exists [], (c_io c). rewrite spent_nothing by done; auto using sends_nothing. }
  destruct rest as [|b rest0]; [exists [], (c_io c); rewrite spent_nothing by done; auto using sends_nothing|].
  cbn [send_chunks]. set (rest := b :: rest0) in *.
  assert (Hpos : 0 < strlen rest) by (unfold rest, strlen; simpl; lia).
  set (chunk := if frame_max <? strlen rest then frame_max else strlen rest).
  assert (Hchunk : chunk = Z.min frame_max (strlen rest))
    by (unfold chunk; destruct (Z.ltb_spec frame_max (strlen rest)); lia).
  assert (Hreq : require (chunk <=? H2C_DATA_BUF) c = c) by (by rewrite (proj2 (Z.leb_le chunk H2C_DATA_BUF)) by lia).
  rewrite Hreq. assert (Hshort : window_short k chunk c = false).
  { unfold window_short. rewrite Hs. apply orb_false_iff. rewrite !Z.ltb_ge. lia. }
  rewrite Hshort. cbn [Z.ltb Z.compare]. rewrite Hs, (update_put k _ s c Hs).
  change (set_conn_send_window _ (put k (set_send_window (send_window s - chunk) s) c)) with (spent k s chunk c).
  set (p := take (Z.to_nat chunk) rest).
  assert (Hp : strlen p = chunk) by (unfold p, strlen in *; rewrite length_take; lia).
  destruct (frame_write_sends H2_DATA (if strlen rest <=? chunk then H2_FLAG_END_STREAM else 0) (s_id s) p
              (spent k s chunk c) Hq) as (w & -> & Hsend); [lia|]. cbn [Z.ltb Z.compare].
  set (rest' := drop (Z.to_nat chunk) rest).
  assert (Hr' : strlen rest' = strlen rest - chunk) by (unfold rest', strlen in *; rewrite length_drop; lia).
  destruct (IH rest' (set_io w (spent k s chunk c)) (set_send_window (send_window s - chunk) s))
    as (ps & w' & Hps & Hall & Hsend' & ->);
    [unfold strlen in *; lia | done | lia | apply (stream_at_put k s _ c Hs) | simpl; lia | simpl; lia | apply Hsend |].
  exists (p :: ps), w'. split; [cbn [concat]; rewrite Hps; apply take_drop|].
  split; [apply Forall_cons; split; [lia | done]|]. split.
  - cbn [data_frames map concat]. apply (sends_trans _ _ _ w); [|done].
    replace (match ps with [] => _ | _ => _ end) with (if strlen rest <=? chunk then H2_FLAG_END_STREAM else 0); [done|].
    apply (f_equal strlen) in Hps. destruct ps as [|q ps]; destruct (Z.leb_spec (strlen rest) chunk); try done.
    + change (strlen (concat [])) with 0 in Hps. lia.
    + apply Forall_cons in Hall as [Hq0 _]. cbn [concat] in Hps. rewrite strlen_app in Hps. unfold strlen in *. lia.
  - f_equal. f_equal. change (spent k ?a ?m (set_io w ?x)) with (set_io w (spent k a m x)).
    rewrite spent_more, set_io_set_io. do 2 f_equal. lia.
Qed.

(** C26: A request goes out as one message.  When the header block could be
    encoded, the length-prefixed request fits both send windows, the frames of
    this request hold at most the 16389 bytes of the frame buffer (the server's
    maximum frame size or the request itself is no larger) and the socket takes
    what is written, possibly in pieces and with interruptions, [send_request]
    writes a HEADERS frame with that block and then DATA frames, none empty or
    larger than the server's maximum, whose payloads concatenate to the
    length-prefixed request; END_STREAM is on the last one and only there; the
    windows shrink by exactly what was sent and nothing undefined happens.
    (Without the condition on the frames the buffer is overrun:
    [large_frames_overrun_the_buffer].) *)
Theorem request_on_the_wire (fuel k : nat) (path : cstring) (req block : bytes) (c : strim_h2c)
    (s : strim_h2c_stream) (d : hpack_dyn) (upd : bool) :
  stream_at c k = Some s -> Forall tx_quiet (tx_evs (c_io c)) ->
  build_request_headers malloc (dyn_enc c) (enc_size_update c) (namespace_ c) path H2C_REQ_HDR_BLOCK =
    (d, upd, Some block) ->
  strlen block <= 0xffffff -> 0 < srv_max_frame (c_peer c) <= 0xffffff ->
  Z.min (srv_max_frame (c_peer c)) (5 + strlen req) <= H2C_DATA_BUF ->
  5 + strlen req <= send_window s -> 5 + strlen req <= conn_send_window c ->
  exists ps w,
    send_request malloc clock fuel k path req c =
      Some (0, set_io w (spent k s (5 + strlen req) (set_enc_size_update upd (set_dyn_enc d c)))) /\
    tx w = tx (c_io c) ++ frame_bytes (Frame H2_HEADERS H2_FLAG_END_HEADERS (s_id s) block) ++
           concat (map frame_bytes (data_frames (s_id s) ps)) /\
    concat ps = grpc_frame req /\ Forall (fun p => 0 < strlen p <= srv_max_frame (c_peer c)) ps.
Proof.
  intros Hs Hq Hb Hblock Hmax Hbuf Hw Hcw. unfold send_request. rewrite Hb. set (c1 := set_enc_size_update _ _).
  assert (Hs1 : stream_at c1 k = Some s) by done. rewrite Hs1.
  assert (Hlen : strlen (grpc_frame req) = 5 + strlen req) by (unfold grpc_frame, strlen; simpl; lia).
  destruct (frame_write_sends H2_HEADERS H2_FLAG_END_HEADERS (s_id s) block c1 Hq Hblock) as (w & -> & Hsend).
  cbn [Z.ltb Z.compare].
  destruct (send_chunks_ok (length (grpc_frame req)) fuel k (srv_max_frame (c_peer c)) (grpc_frame req)
              (set_io w c1) s) as (ps & w' & Hps & Hall & Hsend' & Hrun);
    [done | done | lia | done | lia | simpl; lia | apply Hsend |].
  exists ps, w'. rewrite Hlen in Hrun. split; [exact Hrun|]. split; [|done].
  apply (sends_trans _ _ _ _ _ Hsend) in Hsend'. apply Hsend'.
Qed.

End Send.

(** A connection whose slot 0 carries a unary call. *)
Definition calling (max_frame : Z) : strim_h2c :=
  set_peer (Peer max_frame 100 65535)
    (take_slot 0 ST_UNARY (new_connection (Io [] [TxSome 3; TxIntr; TxSome 1] [] [] 0) (lit "moby"))).2.

Definition calling_headers : hpack_dyn * bool * option bytes :=
  build_request_headers (fun _ => true) dyn_reset false (lit "moby") (lit "/a.B/Get") H2C_REQ_HDR_BLOCK.

Lemma request_on_the_wire_witness :
  exists ps w,
    send_request (fun _ => true) (fun _ => 0) 0 0 (lit "/a.B/Get") [1; 2; 3] (calling 16384) =
      Some (0, set_io w (spent 0 (new_stream 1 ST_UNARY 65535) (5 + strlen [1; 2; 3])
        (set_enc_size_update (snd (fst calling_headers)) (set_dyn_enc (fst (fst calling_headers)) (calling 16384))))) /\
    tx w = [] ++ frame_bytes (Frame H2_HEADERS H2_FLAG_END_HEADERS 1 (default [] (snd calling_headers))) ++
           concat (map frame_bytes (data_frames 1 ps)) /\
    concat ps = grpc_frame [1; 2; 3] /\ Forall (fun p => 0 < strlen p <= 16384) ps.
Proof.
  refine (request_on_the_wire (fun _ => true) (fun _ => 0) 0 0 (lit "/a.B/Get") [1; 2; 3] (default [] (snd calling_headers))
           (calling 16384) (new_stream 1 ST_UNARY 65535) (fst (fst calling_headers)) (snd (fst calling_headers))
           eq_refl _ _ _ _ _ _ _).
  - repeat constructor; discriminate.
  - vm_compute. reflexivity.
  - vm_compute. discriminate.
  - vm_compute. split; [reflexivity | discriminate].
  - vm_compute. discriminate.
  - vm_compute. discriminate.
  - vm_compute. discriminate.
Defined.

(** A server that allows larger frames makes [send_request] copy past the
    16389 bytes of its frame buffer. *)
Lemma large_frames_overrun_the_buffer :
  match send_request (fun _ => true) (fun _ => 0) 0 0 (lit "/a.B/Get") (replicate 20000 0) (calling 65536) with
  | Some (_, c) => c_undefined c = true
  | None => False
  end.
Proof. vm_compute. reflexivity. Qed.
