(* ===== verification/H2cTime.v ===== *)
(** * Calls return (containerd/h2c.c)

    Handling what the peer sends takes no time of its own: only the waiting
    loops read the clock.  So, once the clock passes the deadline, every loop
    ends, and every call returns. *)

From S2P Require Import Prelude MiniPb Huffman Hpack HpackFacts HpackSafe H2cState H2c H2cFrames H2cFacts H2cWf H2cPublic.

Definition now (c : strim_h2c) : nat := ticks (c_io c).

(** ** Handlers do not read the clock *)

Section Handlers.
Context (malloc : Z -> bool).

Lemma frame_write_now (type flags sid : Z) (payload : bytes) (c : strim_h2c) :
  now (frame_write type flags sid payload c).2 = now c.
Proof. destruct (frame_write_io type flags sid payload c) as (w & -> & _ & _ & Hw). exact Hw. Qed.

Lemma require_now (b : bool) (c : strim_h2c) : now (require b c) = now c.
Proof. by destruct b. Qed.

(** Case analysis on every test, and the fact above for every frame written. *)
Ltac quiet :=
  repeat match goal with
  | |- context [frame_write ?a ?b ?d ?e ?c] =>
      let H := fresh in pose proof (frame_write_now a b d e c) as H; destruct (frame_write a b d e c)
  | |- context [match ?x with _ => _ end] => destruct x
  end; unfold now in *; simpl in *; try rewrite !require_now; congruence.

Lemma abort_now (k : nat) (h e : Z) (c : strim_h2c) : now (stream_abort k h e c) = now c.
Proof. unfold stream_abort, frame_write_rst. quiet. Qed.

Lemma credit_now (k : nat) (total : Z) (c : strim_h2c) : now (stream_credit_message k total c) = now c.
Proof. unfold stream_credit_message, frame_write_window_update. quiet. Qed.

Lemma feed_header_now (k : nat) (data : bytes) (c : strim_h2c) : now (feed_header malloc k data c).1 = now c.
Proof.
  unfold feed_header, frame_write_rst. destruct (stream_at c k) as [s|]; [|done]. cbv zeta.
  repeat match goal with
  | |- context [frame_write ?a ?b ?d ?e ?c] =>
      let H := fresh in pose proof (frame_write_now a b d e c) as H; destruct (frame_write a b d e c)
  | |- now (if ?b then _ else _).1 = _ => destruct b
  end; cbn [fst snd] in *; try (rewrite abort_now); try done.
Qed.

Lemma copy_body_now (k : nat) (bs : bytes) (c : strim_h2c) : now (copy_body k bs c) = now c.
Proof.
  unfold copy_body. destruct (stream_at c k) as [s|]; [|done]. cbv zeta.
  destruct (_ =? _); [apply (require_now _ c) | apply (require_now _ c)].
Qed.

Lemma finish_message_now (k : nat) (c : strim_h2c) : now (finish_message malloc k c).1 = now c.
Proof.
  unfold finish_message. destruct (stream_at c k) as [s|]; [|done]. cbv zeta.
  destruct (_ =? _); [destruct (_ <? _); cbn [fst]; [apply abort_now | done]|].
  destruct (_ <? _); cbn [fst]; [by rewrite abort_now|].
  match goal with |- now (set_rasm_of _ _ ?x) = _ => change (now x = now c) end. by rewrite credit_now.
Qed.

Lemma feed_body_now (k : nat) (data : bytes) (c : strim_h2c) : now (feed_body malloc k data c).1 = now c.
Proof.
  unfold feed_body. destruct (stream_at c k) as [s|]; [|done]. cbv zeta. set (c1 := copy_body _ _ _).
  assert (H1 : now c1 = now c) by apply copy_body_now. destruct (stream_at c1 k); [|done].
  destruct (_ <=? _); [|done]. pose proof (finish_message_now k c1). destruct (finish_message malloc k c1).
  cbn [fst] in *. congruence.
Qed.

Lemma feed_loop_now (fuel k : nat) (data : bytes) (c : strim_h2c) : now (feed_loop malloc fuel k data c) = now c.
Proof.
  revert data c. induction fuel as [|fuel IH]; intros data c; [done|]. destruct data as [|b data]; [done|].
  cbn [feed_loop]. destruct (stream_at c k) as [s|]; [|done].
  assert (Hb : forall d c', now c' = now c ->
    now (match feed_body malloc k d c' with (c, None) => c | (c, Some d) => feed_loop malloc fuel k d c end) = now c).
  { intros d c' Hc'. pose proof (feed_body_now k d c'). destruct (feed_body malloc k d c') as [c2 [d2|]]; cbn [fst] in *;
      [rewrite IH|]; congruence. }
  destruct (_ =? 0); [|by apply Hb]. pose proof (feed_header_now k (b :: data) c).
  destruct (feed_header malloc k (b :: data) c) as [c1 [d1|]]; cbn [fst] in *; [by apply Hb | done].
Qed.

Lemma data_now (flags sid : Z) (payload : bytes) (c : strim_h2c) :
  now (handle_data_frame malloc flags sid payload c).2 = now c.
Proof.
  unfold handle_data_frame, stream_feed_data. destruct (stream_find c sid) as [k|]; [|done].
  destruct (stream_at c k) as [s|]; [|done]. destruct (_ =? _); [done|]. destruct (_ || _); [done|].
  destruct (if has_flag flags H2_FLAG_PADDED then _ else _) as [data|]; [|done]. cbv zeta.
  set (c0 := update_stream k _ _). pose proof (feed_loop_now (length data) k data c0) as H.
  set (c1 := feed_loop _ _ _ _ _) in *. change (now c0) with (now c) in H.
  destruct (has_flag _ _); [|done]. destruct (stream_at c1 k); [|done]. destruct (negb _); [|done].
  cbn [snd]. by rewrite abort_now.
Qed.

Lemma header_block_now (sid : Z) (block : bytes) (flags : Z) (c : strim_h2c) :
  now (handle_header_block malloc sid block flags c).2 = now c.
Proof.
  unfold handle_header_block. destruct (headers_block_offset _ _); [|done].
  destruct (hpack_decode_block _ _ _ _) as [d [fs|]]; [|done]. destruct (stream_find _ _); [|done].
  destruct (stream_at _ _); [|done]. destruct (_ && _); [done|]. destruct (classify _ _) as [i| |]; [|done|done].
  unfold apply_headers. destruct (stream_at _ _); [|done]. destruct (final_status i); [by destruct (_ || _)|].
  by destruct (negb _).
Qed.

Lemma settings_now (p : bytes) (c : strim_h2c) : now (handle_settings p c).2 = now c.
Proof.
  assert (H1 : forall id val c, now (apply_setting id val c).2 = now c).
  { intros id val c0. unfold apply_setting, shift_windows. repeat destruct (_ =? _); try done; [|by destruct (_ || _)].
    cbn [snd]. match goal with |- now (set_streams _ ?x) = _ => change (now x = now c0) end.
    rewrite require_now. match goal with |- now (set_peer _ ?x) = _ => change (now x = now c0) end.
    by rewrite require_now. }
  assert (H2 : forall n p c, (length p <= n)%nat -> now (apply_settings p c).2 = now c).
  { induction n as [|n IH]; intros p0 c0 Hn; [destruct p0; [done | simpl in Hn; lia]|].
    destruct p0 as [|a [|b [|v0 [|v1 [|v2 [|v3 p0]]]]]]; try done. cbn [apply_settings].
    match goal with |- context [apply_setting ?i ?v c0] => specialize (H1 i v c0); destruct (apply_setting i v c0) as [rc c1] end.
    cbn [snd] in H1. destruct (rc <? 0); [done|]. rewrite IH by (simpl in Hn; lia). done. }
  unfold handle_settings, frame_write_settings. destruct (negb _); [done|]. specialize (H2 _ p c (le_n _)).
  destruct (apply_settings p c) as [rc c1]. cbn [snd] in H2. destruct (rc <? 0); [done|].
  pose proof (frame_write_now H2_SETTINGS H2_FLAG_ACK 0 [] c1). destruct (frame_write _ _ _ _ c1) as [rc2 c2]. cbn [snd] in *.
  destruct (rc2 <? 0); cbn [snd]; [congruence|]. change (now (set_ready c2)) with (now c2). congruence.
Qed.

Lemma dispatch_now (type flags sid : Z) (payload : bytes) (c : strim_h2c) :
  now (dispatch_frame malloc type flags sid payload c).2 = now c.
Proof.
  unfold dispatch_frame.
  destruct (_ =? _). { destruct (negb _); [done|]. destruct (has_flag _ _); [done | apply settings_now]. }
  destruct (_ =? _). { unfold handle_ping, frame_write_ping_ack. quiet. }
  destruct (_ =? _).
  { unfold handle_window_update. destruct (negb _); [done|]. destruct (_ =? _); [done|]. destruct (_ =? _);
      [apply (require_now _ c)|]. destruct (stream_find _ _); [|done]. destruct (stream_at _ _); [|done].
    apply (require_now _ c). }
  destruct (_ =? _); [apply data_now|].
  destruct (_ =? _).
  { unfold handle_headers_frame. destruct (hdr_block_pending _); [done|]. destruct (has_flag _ _);
      [apply header_block_now|]. destruct (_ <? _); [done|]. by destruct (_ && _). }
  destruct (_ =? _).
  { unfold handle_continuation_frame. destruct (negb _); [done|]. destruct (_ <? _); [done|].
    destruct (_ && _); [done|]. cbv zeta. set (c1 := set_hdr _ c). destruct (has_flag _ _); [|done].
    match goal with |- context [handle_header_block _ ?a ?b ?d c1] =>
      pose proof (header_block_now a b d c1) as H; destruct (handle_header_block _ a b d c1) end. exact H. }
  destruct (_ =? _).
  { unfold handle_rst_stream. destruct (negb _); [done|]. destruct (stream_find _ _); [|done].
    destruct (stream_at _ _); [|done]. by destruct (_ =? _). }
  destruct (_ =? _). { unfold handle_goaway. by destruct (_ <? _). }
  by destruct (_ =? _).
Qed.

Lemma poll_now (c : strim_h2c) : now (conn_poll_once malloc c).2 = now c.
Proof.
  assert (Hfail : forall e c, now (conn_fail e c) = now c) by (intros e c0; unfold conn_fail; by destruct (dead _)).
  assert (H1 : forall c, now (process_one_frame malloc c).2 = now c).
  { intros c0. unfold process_one_frame. destruct (frame_reader_fill _ _ _ _) as [[fr r] evs].
    destruct (fr <? 0); [done|]. destruct (fr =? 0); [done|]. set (c1 := set_rx r _).
    pose proof (dispatch_now (fr_type r) (fr_flags r) (fr_sid r) (fr_payload r) c1) as H.
    destruct (dispatch_frame _ _ _ _ _ c1) as [rc c2]. by destruct (rc <? 0). }
  assert (H2 : forall b c, now (process_frames malloc b c).2 = now c).
  { induction b as [|b IH]; intros c0; [done|]. cbn [process_frames]. specialize (H1 c0).
    destruct (process_one_frame malloc c0) as [r c1]. cbn [snd] in H1. destruct (r <? 0); [done|].
    destruct (r =? 0); [done|]. by rewrite IH. }
  unfold conn_poll_once. destruct (dead _); [done|].
  assert (H3 : now (next_poll c).2 = now c) by (unfold next_poll; by destruct (polls _)).
  destruct (next_poll c) as [[] c1]; cbn [snd] in *; [|done | done | by rewrite Hfail].
  specialize (H2 H2C_FRAME_BUDGET c1). destruct (process_frames _ _ _) as [[r|] c2]; cbn [snd] in *.
  - rewrite Hfail. congruence.
  - destruct (dead _); cbn [snd]; congruence.
Qed.

End Handlers.

(** ** Loops end *)

Section Returns.
Context (malloc : Z -> bool) (clock : nat -> Z).

(** From the [N]-th reading on, the clock is past [d]. *)
Definition past (d : Z) (N : nat) : Prop := forall n, (N <= n)%nat -> d <= clock n.

Definition time_passes : Prop := forall d, exists N, past d N.

(** Enough fuel from [c] on. *)
Definition enough (N fuel : nat) (c : strim_h2c) : Prop := (1 <= fuel)%nat /\ (N <= now c + (fuel - 1))%nat.

Lemma enough_exists (N : nat) (c : strim_h2c) : enough N (S N) c.
Proof. unfold enough. lia. Qed.

Lemma enough_more (N fuel fuel' : nat) (c : strim_h2c) : (fuel <= fuel')%nat -> enough N fuel c -> enough N fuel' c.
Proof. unfold enough. lia. Qed.

(** A round of a loop: either the deadline has passed, or there is still
    enough fuel after the poll. *)
Lemma round (d : Z) (N fuel : nat) (c : strim_h2c) :
  past d N -> enough N (S fuel) c ->
  let '(ms, c1) := time_left_ms clock d c in
  (ms <=? 0) = true \/ enough N fuel (conn_poll_once malloc c1).2.
Proof.
  intros Hp [_ He]. unfold time_left_ms, mono_ms. cbv zeta. set (c1 := on_io _ c).
  destruct (0 <? d - clock (ticks (c_io c))) eqn:E; [|by left]. right.
  unfold enough. rewrite poll_now. change (now c1) with (S (now c)). apply Z.ltb_lt in E.
  destruct (Nat.le_gt_cases N (now c)) as [Hle|Hgt]; [specialize (Hp _ Hle); unfold now in Hp; lia|]. lia.
Qed.

Lemma enough_pos (N : nat) (c : strim_h2c) : ~ enough N 0 c.
Proof. unfold enough. lia. Qed.

Ltac next_round Hp He :=
  let H := fresh in pose proof (round _ _ _ _ Hp He) as H;
  match goal with |- context [time_left_ms clock ?d ?c] => destruct (time_left_ms clock d c) as [ms c1] end;
  match goal with |- context [?ms <=? 0] => destruct (ms <=? 0); [by eauto|] end;
  destruct H as [?|H]; [done|].

Lemma wait_window_returns (fuel k : nat) (chunk d : Z) (N : nat) (c : strim_h2c) :
  past d N -> enough N fuel c -> exists r, wait_window malloc clock fuel k chunk d c = Some r.
Proof.
  intros Hp. revert c. induction fuel as [|fuel IH]; intros c He; [by apply enough_pos in He|].
  cbn [wait_window]. destruct (negb _); [by eauto|]. next_round Hp He.
  destruct (conn_poll_once malloc c1) as [wr c2]. destruct (wr <? 0); [by eauto|].
  destruct (stream_done k c2); [by eauto | by apply IH].
Qed.

Lemma handshake_returns (fuel : nat) (d : Z) (N : nat) (c : strim_h2c) :
  past d N -> enough N fuel c -> exists r, handshake malloc clock fuel d c = Some r.
Proof.
  intros Hp. revert c. induction fuel as [|fuel IH]; intros c He; [by apply enough_pos in He|].
  cbn [handshake]. destruct (_ || _); [by eauto|]. next_round Hp He.
  destruct (conn_poll_once malloc c1) as [wr c2]. destruct (wr <? 0); [by eauto | by apply IH].
Qed.

Lemma unary_wait_returns (fuel k : nat) (d : Z) (N : nat) (c : strim_h2c) :
  past d N -> enough N fuel c -> exists r, unary_wait malloc clock fuel k d c = Some r.
Proof.
  intros Hp. revert c. induction fuel as [|fuel IH]; intros c He; [by apply enough_pos in He|].
  cbn [unary_wait]. destruct (stream_done k c); [by eauto|].
  pose proof (round _ _ _ _ Hp He) as Hr. destruct (time_left_ms clock d c) as [ms c1].
  destruct (ms <=? 0); [destruct (stream_at c1 k); by eauto|]. destruct Hr as [?|Hr]; [done|].
  destruct (conn_poll_once malloc c1) as [wr c2]. destruct (wr <? 0); [destruct (stream_done k c2); by eauto | by apply IH].
Qed.

Lemma open_wait_returns (fuel k : nat) (d : Z) (N : nat) (c : strim_h2c) :
  past d N -> enough N fuel c -> exists r, open_wait malloc clock fuel k d c = Some r.
Proof.
  intros Hp. revert c. induction fuel as [|fuel IH]; intros c He; [by apply enough_pos in He|].
  cbn [open_wait]. destruct (negb _); [by eauto|]. next_round Hp He. destruct (dead _); [by eauto|].
  destruct (conn_poll_once malloc c1) as [wr c2]. destruct (_ && _); [by eauto | by apply IH].
Qed.

Lemma slot_exists (c : strim_h2c) (k : nat) : conn_wf c -> (k < H2C_MAX_STREAMS)%nat -> exists s, stream_at c k = Some s.
Proof. intros Hc Hk. apply lookup_lt_is_Some. by rewrite (cw_count c Hc). Qed.

Lemma next_loop_returns (fuel k : nat) (d : Z) (N : nat) (c : strim_h2c) :
  past d N -> enough N fuel c -> conn_wf c -> (k < H2C_MAX_STREAMS)%nat ->
  exists r, next_loop malloc clock fuel k d c = Some r.
Proof.
  intros Hp. revert c. induction fuel as [|fuel IH]; intros c He Hc Hk; [by apply enough_pos in He|].
  cbn [next_loop]. destruct (slot_exists c k Hc Hk) as [s ->].
  destruct (q_msgs (s_queue s)); [|by eauto]. destruct (st s =? SS_DONE); [by eauto|].
  pose proof (round _ _ _ _ Hp He) as Hr. pose proof (time_left_wf clock d c Hc) as Hc1.
  destruct (time_left_ms clock d c) as [ms c1]. cbn [snd] in Hc1. destruct (ms <=? 0); [by eauto|].
  destruct Hr as [?|Hr]; [done|].
  pose proof (poll_wf malloc c1 Hc1) as Hc2. destruct (conn_poll_once malloc c1) as [wr c2]. cbn [snd] in *.
  destruct (wr <? 0); [|by apply IH]. destruct (slot_exists c2 k Hc2 Hk) as [s2 ->].
  destruct (_ || _); [by apply IH | by eauto].
Qed.

(** ** More fuel changes nothing *)
Lemma wait_window_mono (fuel fuel' k : nat) (chunk d : Z) (c : strim_h2c) (r : Z * strim_h2c) :
  (fuel <= fuel')%nat -> wait_window malloc clock fuel k chunk d c = Some r ->
  wait_window malloc clock fuel' k chunk d c = Some r.
Proof.
  revert fuel' c. induction fuel as [|fuel IH]; intros fuel' c Hle; (destruct fuel' as [|fuel']; [try done; lia|]);
    cbn [wait_window]; (destruct (negb _); [done|]); [done|].
  destruct (time_left_ms _ _ c) as [ms c1]. destruct (ms <=? 0); [done|].
  destruct (conn_poll_once malloc c1) as [wr c2]. destruct (wr <? 0); [done|].
  destruct (stream_done k c2); [done | apply IH; lia].
Qed.

(** One frame of [send_chunks]: the credit for [chunk] bytes, then the frame. *)
Definition chunk_of (m : Z) (rest : bytes) : Z := if m <? strlen rest then m else strlen rest.

Definition get_credit (fuel k : nat) (chunk : Z) (c : strim_h2c) : option (Z * strim_h2c) :=
  if window_short k chunk c then
    let '(now, c) := mono_ms clock c in
    wait_window malloc clock fuel k chunk (now + H2C_DEFAULT_UNARY_TIMEOUT_MS) c
  else Some (0, c).

Definition send_frame (k : nat) (chunk : Z) (rest : bytes) (c : strim_h2c) (s : strim_h2c_stream) : Z * strim_h2c :=
  frame_write H2_DATA (if strlen rest <=? chunk then H2_FLAG_END_STREAM else 0) (s_id s) (take (Z.to_nat chunk) rest)
    (set_conn_send_window (conn_send_window c - chunk) (update_stream k (set_send_window (send_window s - chunk)) c)).

Lemma send_chunks_step (frames fuel k : nat) (m b : Z) (rest : bytes) (c : strim_h2c) :
  send_chunks malloc clock (S frames) fuel k m (b :: rest) c =
  let chunk := chunk_of m (b :: rest) in
  match get_credit fuel k chunk (require (chunk <=? H2C_DATA_BUF) c) with
  | None => None
  | Some (rc, c) =>
      if rc <? 0 then Some (rc, c)
      else match stream_at c k with
           | None => None
           | Some s =>
               let '(rc, c) := send_frame k chunk (b :: rest) c s in
               if rc <? 0 then Some (H2C_ERR_IO, c)
               else send_chunks malloc clock frames fuel k m (drop (Z.to_nat chunk) (b :: rest)) c
           end
  end.
Proof. done. Qed.

Lemma get_credit_mono (fuel fuel' k : nat) (chunk : Z) (c : strim_h2c) (r : Z * strim_h2c) :
  (fuel <= fuel')%nat -> get_credit fuel k chunk c = Some r -> get_credit fuel' k chunk c = Some r.
Proof. intros Hle. unfold get_credit. destruct (window_short k chunk c); [|done]. by apply wait_window_mono. Qed.

Lemma send_chunks_mono (frames fuel fuel' k : nat) (m : Z) (rest : bytes) (c : strim_h2c) (r : Z * strim_h2c) :
  (fuel <= fuel')%nat -> send_chunks malloc clock frames fuel k m rest c = Some r ->
  send_chunks malloc clock frames fuel' k m rest c = Some r.
Proof.
  intros Hle. revert rest c. induction frames as [|frames IH]; intros rest c; [done|].
  destruct rest as [|b rest]; [done|]. rewrite !send_chunks_step. cbv zeta.
  destruct (get_credit fuel _ _ _) as [[rc c1]|] eqn:Eg; [|done].
  rewrite (get_credit_mono _ fuel' _ _ _ _ Hle Eg). destruct (rc <? 0); [done|].
  destruct (stream_at c1 k) as [s|]; [|done]. destruct (send_frame _ _ _ _ _) as [rc3 c3].
  destruct (rc3 <? 0); [done | apply IH].
Qed.

Lemma get_credit_returns (k : nat) (chunk : Z) (c : strim_h2c) :
  time_passes -> conn_wf c ->
  exists fuel rc c', get_credit fuel k chunk c = Some (rc, c') /\ conn_wf c' /\
    ((rc <? 0) = false -> window_short k chunk c' = false).
Proof.
  intros Ht Hc. unfold get_credit. destruct (window_short k chunk c) eqn:Es; [|by exists O, 0, c]. unfold mono_ms.
  set (c1 := on_io _ c). destruct (Ht (clock (ticks (c_io c)) + H2C_DEFAULT_UNARY_TIMEOUT_MS)) as [N HN].
  destruct (wait_window_returns (S N) k chunk _ N c1 HN (enough_exists N c1)) as [[rc c2] Hw].
  exists (S N), rc, c2. split; [done|]. apply wait_window_wf in Hw; [done | unfold c1; auto with h2c].
Qed.

Lemma send_frame_wf (k : nat) (chunk : Z) (rest : bytes) (c : strim_h2c) (s : strim_h2c_stream) :
  conn_wf c -> stream_at c k = Some s -> window_short k chunk c = false -> 0 <= chunk ->
  conn_wf (send_frame k chunk rest c s).2.
Proof. intros Hc Hs Hw H0. apply (frame_write_safe malloc). by apply spend_wf. Qed.

Lemma send_chunks_returns (frames k : nat) (m : Z) (rest : bytes) (c : strim_h2c) :
  time_passes -> conn_wf c -> 0 <= m -> (k < H2C_MAX_STREAMS)%nat ->
  exists fuel r, send_chunks malloc clock frames fuel k m rest c = Some r.
Proof.
  intros Ht Hc Hm Hk. revert rest c Hc. induction frames as [|frames IH]; intros rest c Hc; [exists O; by eauto|].
  destruct rest as [|b rest]; [exists O; by eauto|]. set (chunk := chunk_of m (b :: rest)).
  assert (H0 : 0 <= chunk) by (unfold chunk, chunk_of; destruct (_ <? _); [lia | unfold strlen; lia]).
  destruct (get_credit_returns k chunk (require (chunk <=? H2C_DATA_BUF) c) Ht) as (fuel1 & rc & c1 & Hg & Hc1 & Hroom);
    [auto with h2c|].
  destruct (rc <? 0) eqn:Erc; [exists fuel1; rewrite send_chunks_step; cbv zeta; fold chunk; rewrite Hg, Erc; by eauto|].
  destruct (slot_exists c1 k Hc1 Hk) as [s Hs].
  pose proof (send_frame_wf k chunk (b :: rest) c1 s Hc1 Hs (Hroom eq_refl) H0) as Hc3.
  destruct (send_frame k chunk (b :: rest) c1 s) as [rc3 c3] eqn:Ef. cbn [snd] in Hc3.
  destruct (IH (drop (Z.to_nat chunk) (b :: rest)) c3 Hc3) as (fuel2 & r & Hr).
  exists (Nat.max fuel1 fuel2). rewrite send_chunks_step. cbv zeta. fold chunk.
  rewrite (get_credit_mono fuel1 _ _ _ _ _ (Nat.le_max_l _ _) Hg), Erc, Hs, Ef.
  destruct (rc3 <? 0); [by eauto|]. exists r. apply (send_chunks_mono _ fuel2); [lia | done].
Qed.

(** A request is sent or fails, whatever the fuel beyond some amount. *)
Lemma send_request_returns (k : nat) (path : cstring) (req : bytes) (c : strim_h2c) :
  time_passes -> conn_wf c -> (k < H2C_MAX_STREAMS)%nat ->
  exists fuel0 r, forall fuel, (fuel0 <= fuel)%nat -> send_request malloc clock fuel k path req c = Some r.
Proof.
  intros Ht Hc Hk. unfold send_request.
  pose proof (build_headers_wf malloc (dyn_enc c) (enc_size_update c) (namespace_ c) path H2C_REQ_HDR_BLOCK (cw_enc c Hc)) as Hd.
  destruct (build_request_headers _ _ _ _ _ _) as [[d upd] hdrs]. cbn [fst] in Hd.
  set (c1 := set_enc_size_update _ _). assert (Hc1 : conn_wf c1) by (by apply wf_enc_update, wf_enc).
  destruct hdrs as [block|]; [|exists O; by eauto]. destruct (stream_at c1 k) as [s|]; [|exists O; by eauto].
  destruct (frame_write_safe malloc H2_HEADERS H2_FLAG_END_HEADERS (s_id s) block c1 Hc1) as [Hc2 _].
  destruct (frame_write _ _ _ block c1) as [rc2 c2]. cbn [snd] in Hc2. destruct (rc2 <? 0); [exists O; by eauto|].
  pose proof (cw_frame c2 Hc2).
  destruct (send_chunks_returns (length (grpc_frame req)) k (srv_max_frame (c_peer c2)) (grpc_frame req) c2)
    as (fuel0 & r & Hr); [done | done | lia | done |].
  exists fuel0, r. intros fuel Hf. by apply (send_chunks_mono _ fuel0).
Qed.

Lemma alloc_slot (type : Z) (c c' : strim_h2c) (k : nat) :
  conn_wf c -> stream_alloc type c = Some (k, c') -> (k < H2C_MAX_STREAMS)%nat.
Proof.
  intros Hc. assert (Hfind : forall f c0, conn_wf c0 -> find_slot f 0 (streams c0) = Some k -> (k < H2C_MAX_STREAMS)%nat).
  { intros f c0 Hc0 Hf. apply find_slot_some in Hf as (s & _ & Hl & _). apply lookup_lt_Some in Hl.
    rewrite (cw_count c0 Hc0) in Hl. lia. }
  unfold stream_alloc. cbv zeta.
  destruct (find_slot (fun s => negb (s_in_use s)) 0 (streams c)) as [j|] eqn:E1.
  { intros [= -> <-]. by apply (Hfind _ c Hc E1). }
  destruct (find_slot (fun s => st s =? SS_DONE) 0 (streams c)) as [d|]; [|done].
  destruct (find_slot _ 0 (streams (update_stream d stream_destroy c))) as [j|] eqn:E2; [|done].
  intros [= -> <-]. by apply (Hfind _ _ (destroy_wf d c Hc) E2).
Qed.

Lemma unary_returns (c : strim_h2c) :
  time_passes -> conn_wf c ->
  forall method req buf cap out timeout,
    exists fuel r, h2c_unary malloc clock fuel method req buf cap out timeout c = Some r.
Proof.
  intros Ht Hc. intros method req buf cap out timeout. unfold h2c_unary. destruct method as [path|]; [|exists O; by eauto].
  destruct (negb out); [exists O; by eauto|]. destruct (dead _); [exists O; by eauto|].
  destruct (_ && _); [exists O; by eauto|]. destruct (_ <? _); [exists O; by eauto|].
  destruct (stream_alloc _ c) as [[k c1]|] eqn:Ea; [|exists O; by eauto].
  destruct (stream_alloc_wf _ _ _ _ Hc Ea) as [Hc1 Hk]. pose proof (alloc_slot _ _ _ _ Hc Ea) as Hlt. cbv zeta.
  set (c2 := update_stream k _ c1). assert (Hc2 : conn_wf c2) by (by apply set_resp_wf).
  destruct (send_request_returns k path req c2 Ht Hc2 Hlt) as (fuel1 & [rc c3] & Hsend).
  assert (Hc3 := send_request_wf _ _ _ _ _ _ _ _ _ Hc2 (Hsend fuel1 (le_n _))).
  destruct (rc <? 0) eqn:Erc; [exists fuel1; rewrite Hsend, Erc by done; by eauto|]. unfold mono_ms.
  set (c4 := on_io (set_ticks (S (ticks (c_io c3)))) c3).
  set (dl := clock (ticks (c_io c3)) + (if 0 <? timeout then u32 timeout else H2C_DEFAULT_UNARY_TIMEOUT_MS)).
  destruct (Ht dl) as [N HN]. set (fuel := Nat.max fuel1 (S N)).
  destruct (unary_wait_returns fuel k dl N c4 HN) as [[rc5 c5] Hw].
  { apply (enough_more _ (S N)); [lia | apply enough_exists]. }
  assert (Hc5 : conn_wf c5) by (apply unary_wait_wf in Hw; [done | unfold c4; auto with h2c]).
  exists fuel. rewrite Hsend, Erc by lia. fold c4 dl. rewrite Hw.
  destruct (slot_exists c5 k Hc5 Hlt) as [s ->].
  repeat (match goal with |- context [if ?b then _ else _] => destruct b end); by eauto.
Qed.

Lemma open_returns (c : strim_h2c) :
  time_passes -> conn_wf c ->
  forall out method req, exists fuel r, h2c_stream_open malloc clock fuel out method req c = Some r.
Proof.
  intros Ht Hc. intros out method req. unfold h2c_stream_open. destruct method as [path|]; [|exists O; by eauto].
  destruct (negb out); [exists O; by eauto|]. destruct (dead _); [exists O; by eauto|].
  destruct (_ <? _); [exists O; by eauto|].
  destruct (stream_alloc _ c) as [[k c1]|] eqn:Ea; [|exists O; by eauto].
  destruct (stream_alloc_wf _ _ _ _ Hc Ea) as [Hc1 _]. pose proof (alloc_slot _ _ _ _ Hc Ea) as Hlt. cbv zeta.
  destruct (send_request_returns k path req c1 Ht Hc1 Hlt) as (fuel1 & [rc c3] & Hsend).
  assert (Hc3 := send_request_wf _ _ _ _ _ _ _ _ _ Hc1 (Hsend fuel1 (le_n _))).
  destruct (rc <? 0) eqn:Erc; [exists fuel1; rewrite Hsend, Erc by done; by eauto|]. unfold mono_ms.
  set (c4 := on_io (set_ticks (S (ticks (c_io c3)))) c3).
  set (dl := clock (ticks (c_io c3)) + H2C_STREAM_OPEN_GRACE_MS).
  destruct (Ht dl) as [N HN]. set (fuel := Nat.max fuel1 (S N)).
  destruct (open_wait_returns fuel k dl N c4 HN) as [[rc5 c5] Hw].
  { apply (enough_more _ (S N)); [lia | apply enough_exists]. }
  assert (Hc5 : conn_wf c5) by (apply open_wait_wf in Hw; [done | unfold c4; auto with h2c]).
  exists fuel. rewrite Hsend, Erc by lia. fold c4 dl. rewrite Hw.
  destruct (slot_exists c5 k Hc5 Hlt) as [s ->].
  repeat (match goal with |- context [if ?b then _ else _] => destruct b end); by eauto.
Qed.

Lemma next_returns (c : strim_h2c) :
  time_passes -> conn_wf c ->
  forall k timeout, (k < H2C_MAX_STREAMS)%nat -> 0 <= timeout ->
    exists fuel r, h2c_stream_next malloc clock fuel k timeout c = Some r.
Proof.
  intros Ht Hc. intros k timeout Hk H0. unfold h2c_stream_next. destruct (slot_exists c k Hc Hk) as [s ->].
  destruct (negb _); [exists O; by eauto|]. rewrite (proj2 (Z.ltb_ge _ _) H0). unfold mono_ms.
  set (c1 := on_io (set_ticks (S (ticks (c_io c)))) c). set (dl := clock (ticks (c_io c)) + timeout).
  destruct (Ht dl) as [N HN].
  destruct (next_loop_returns (S N) k dl N c1 HN (enough_exists N c1)) as [r Hr]; [unfold c1; auto with h2c | done |].
  by eauto.
Qed.

(** C21: Calls return.  If the clock eventually passes every deadline, then on
    every well-formed connection, whatever the peer does or does not send,
    [h2c_unary], [h2c_stream_open] and a [h2c_stream_next] with a timeout
    return: there is an amount of fuel with which each gives a result. *)
Theorem calls_return (c : strim_h2c) :
  time_passes -> conn_wf c ->
  (forall method req buf cap out timeout,
     exists fuel r, h2c_unary malloc clock fuel method req buf cap out timeout c = Some r) /\
  (forall out method req, exists fuel r, h2c_stream_open malloc clock fuel out method req c = Some r) /\
  (forall k timeout, (k < H2C_MAX_STREAMS)%nat -> 0 <= timeout ->
     exists fuel r, h2c_stream_next malloc clock fuel k timeout c = Some r).
Proof. intros Ht Hc. auto using unary_returns, open_returns, next_returns. Qed.

End Returns.

Lemma calls_return_witness :
  exists fuel r, h2c_unary (fun _ => true) Z.of_nat fuel (Some (lit "/a.B/Get")) [1; 2] false 0 true 250 connected = Some r.
Proof.
  apply (calls_return (fun _ => true) Z.of_nat connected).
  - intros d. exists (Z.to_nat d). intros n Hn. lia.
  - exact connected_wf.
Defined.
