(* ===== verification/H2cScenario.v ===== *)
(** * Calls, end to end (containerd/h2c.c)

    A unary call against a scripted server, and runs that show what the code
    does where that is not what its comments or HTTP/2 say. *)

From S2P Require Import Prelude MiniPb Huffman Hpack HpackFacts HpackSafe H2cState H2c H2cFrames H2cFacts H2cWf H2cPublic.

(** The server sends [fs] in one piece. *)
Definition server_sends (fs : list frame) : list rx_ev := [RxBytes (concat (map frame_bytes fs))].

(** A call on a fresh connection while the socket delivers [evs]. *)
Definition call (evs : list rx_ev) : option (Z * bytes * strim_h2c) :=
  let c := on_io (fun w => Io evs [] [] [PollReady] 0) connected in
  h2c_unary (fun _ => true) Z.of_nat 300 (Some (lit "/a.B/Get")) (lit "ask") true 64 true 250 c.

Definition outcome (r : option (Z * bytes * strim_h2c)) : option (Z * bytes) :=
  match r with Some (rc, body, _) => Some (rc, body) | None => None end.

(** ":status: 200", "content-type: application/grpc" *)
Definition reply_headers : bytes :=
  [0x88; 0x0f; 0x10; 16] ++ lit "application/grpc".

(** "grpc-status: <digit>" *)
Definition trailers (digit : Z) : bytes := [0; 11] ++ lit "grpc-status" ++ [1; 48 + digit].

(** The whole exchange: headers, a message in two DATA frames, trailers. *)
Example unary_returns_the_reply :
  outcome (call (server_sends
    [Frame H2_HEADERS H2_FLAG_END_HEADERS 1 reply_headers;
     Frame H2_DATA 0 1 (take 7 (grpc_frame (lit "hello")));
     Frame H2_DATA 0 1 (drop 7 (grpc_frame (lit "hello")));
     Frame H2_HEADERS (H2_FLAG_END_HEADERS + H2_FLAG_END_STREAM) 1 (trailers 0)])) = Some (0, lit "hello").
Proof. vm_compute. reflexivity. Qed.

(** The status of the trailers is the result. *)
Example unary_returns_the_status :
  outcome (call (server_sends
    [Frame H2_HEADERS H2_FLAG_END_HEADERS 1 reply_headers;
     Frame H2_HEADERS (H2_FLAG_END_HEADERS + H2_FLAG_END_STREAM) 1 (trailers 5)])) = Some (5, []).
Proof. vm_compute. reflexivity. Qed.

(** A connection that fails while the call waits: the result is the gRPC
    status 14, not a negative transport error, since [conn_fail] has completed
    the stream by the time [h2c_unary] looks at it. *)
Lemma connection_failure_is_a_status : outcome (call [RxFail]) = Some (H2C_STATUS_UNAVAILABLE, []).
Proof. vm_compute. reflexivity. Qed.

(** END_STREAM on DATA, without trailers, does not end the call: it times out. *)
Lemma missing_trailers_time_out :
  outcome (call (server_sends
    [Frame H2_HEADERS H2_FLAG_END_HEADERS 1 reply_headers;
     Frame H2_DATA H2_FLAG_END_STREAM 1 (grpc_frame (lit "hello"))])) = Some (H2C_ERR_TIMEOUT, []).
Proof. vm_compute. reflexivity. Qed.

(** A grpc-status without digits counts as 0. *)
Lemma empty_status_is_ok :
  outcome (call (server_sends
    [Frame H2_HEADERS H2_FLAG_END_HEADERS 1 reply_headers;
     Frame H2_HEADERS (H2_FLAG_END_HEADERS + H2_FLAG_END_STREAM) 1 ([0; 11] ++ lit "grpc-status" ++ [0])]))
  = Some (0, []).
Proof. vm_compute. reflexivity. Qed.

(** The padding of a HEADERS frame is skipped in front of the block instead of
    behind it. *)
Lemma padding_is_skipped_at_the_front :
  headers_block_offset ([2] ++ [0x88; 0x8b] ++ [0; 0]) H2_FLAG_PADDED = Some 3%nat.
Proof. reflexivity. Qed.

(** A WINDOW_UPDATE that brings the window past 2^31 - 1 overflows an
    [int32_t]; the check behind the addition comes too late. *)
Lemma window_update_overflows :
  c_undefined (dispatch_frame (fun _ => true) H2_WINDOW_UPDATE 0 0 (be32 0x7fffffff) connected).2 = true.
Proof. vm_compute. reflexivity. Qed.

(** A message larger than the window never arrives: credit is given only for
    complete messages, so the frame that would complete it is refused. *)
Lemma large_message_is_refused :
  let c := (take_slot 0 ST_SUBSCRIBE connected).2 in
  let c := (dispatch_frame (fun _ => true) H2_DATA 0 1 (take 65535 (grpc_frame (replicate (Z.to_nat 65531) 7))) c).2 in
  conn_recv_window c = 0 /\ (dispatch_frame (fun _ => true) H2_DATA 0 1 [7] c).1 = -1.
Proof. vm_compute. split; reflexivity. Qed.
