(* ===== verification/Snapshots.v ===== *)
(** * Snapshots (containerd/snapshots.c)

    The encoding of a snapshot request and the decoding of the mounts in a
    response.  Memory is the parameter [malloc] (of a size).  The decoder
    returns its code and the mounts it hands out; [free_count] is how often it
    frees its own array before it returns. *)

From S2P Require Import Prelude Http Double Config MiniPb.

Definition SNAP_METHOD_PREPARE : cstring := lit "/containerd.services.snapshots.v1.Snapshots/Prepare".
Definition SNAP_METHOD_REMOVE : cstring := lit "/containerd.services.snapshots.v1.Snapshots/Remove".
Definition SNAP_METHOD_MOUNTS : cstring := lit "/containerd.services.snapshots.v1.Snapshots/Mounts".
Definition SNAP_TIMEOUT_MS : Z := 30000.

(** containerd_types_Mount; [None] is a NULL string. *)
Record types_mount := TypesMount {
  tm_type : option cstring;
  tm_source : option cstring;
  tm_target : option cstring;
  tm_options : list cstring;
}.

Definition mount_zero : types_mount := TypesMount None None None [].

Section Decode.
Variable malloc : Z -> bool.

(** The length-delimited string of a field: its C string and the rest. *)
Definition rd_string (wiretype : Z) (rest : bytes) : option (cstring * bytes) :=
  if negb (wiretype =? MPB_WT_LEN) then None
  else match mpb_rd_len rest with
       | None => None
       | Some (p, rest') => if malloc (strlen p + 1) then Some (c_string p, rest') else None
       end.

(** One field per iteration, so the length of the body is enough fuel. *)
Fixpoint decode_mount_fields (fuel : nat) (rest : bytes) (out : types_mount) : option types_mount :=
  match fuel with
  | O => None
  | S fuel' =>
      match rest with
      | [] => Some out
      | _ =>
          match mpb_rd_tag rest with
          | None => None
          | Some (field, wiretype, rest1) =>
              if field =? 1 then
                match rd_string wiretype rest1 with
                | None => None
                | Some (s, rest2) =>
                    decode_mount_fields fuel' rest2
                      (TypesMount (Some s) (tm_source out) (tm_target out) (tm_options out))
                end
              else if field =? 2 then
                match rd_string wiretype rest1 with
                | None => None
                | Some (s, rest2) =>
                    decode_mount_fields fuel' rest2
                      (TypesMount (tm_type out) (Some s) (tm_target out) (tm_options out))
                end
              else if field =? 3 then
                match rd_string wiretype rest1 with
                | None => None
                | Some (s, rest2) =>
                    decode_mount_fields fuel' rest2
                      (TypesMount (tm_type out) (tm_source out) (Some s) (tm_options out))
                end
              else if field =? 4 then
                if negb (wiretype =? MPB_WT_LEN) then None
                else match mpb_rd_len rest1 with
                     | None => None
                     | Some (p, rest2) =>
                         if malloc (8 * Z.of_nat (length (tm_options out) + 1)) && malloc (strlen p + 1)
                         then decode_mount_fields fuel' rest2
                                (TypesMount (tm_type out) (tm_source out) (tm_target out)
                                   (tm_options out ++ [c_string p]))
                         else None
                     end
              else match mpb_rd_skip rest1 wiretype with
                   | None => None
                   | Some rest2 => decode_mount_fields fuel' rest2 out
                   end
          end
      end
  end.

Definition mpb_decode_mount (data : bytes) : option types_mount :=
  decode_mount_fields (S (length data)) data mount_zero.

(** The response loop: [inr] the mounts, [inl] whether the array had been
    allocated when the loop failed. *)
Fixpoint decode_mounts_fields (fuel : nat) (rest : bytes) (mounts : list types_mount) (cap : Z)
  : bool + list types_mount :=
  let failed := inl (negb (cap =? 0)) in
  match fuel with
  | O => failed
  | S fuel' =>
      match rest with
      | [] => inr mounts
      | _ =>
          match mpb_rd_tag rest with
          | None => failed
          | Some (field, wiretype, rest1) =>
              if (field =? 1) && (wiretype =? MPB_WT_LEN) then
                match mpb_rd_len rest1 with
                | None => failed
                | Some (mdata, rest2) =>
                    let full := Z.of_nat (length mounts) =? cap in
                    let ncap := if full then if cap =? 0 then 4 else cap * 2 else cap in
                    if full && negb (malloc (ncap * 40)) then failed
                    else match mpb_decode_mount mdata with
                         | None => inl true
                         | Some m => decode_mounts_fields fuel' rest2 (mounts ++ [m]) ncap
                         end
                end
              else match mpb_rd_skip rest1 wiretype with
                   | None => failed
                   | Some rest2 => decode_mounts_fields fuel' rest2 mounts cap
                   end
          end
      end
  end.

(** How often [snapshots_free_mounts] frees the array it is given. *)
Definition snapshots_free_mounts (array : bool) : nat := if array then 1 else 0.

(** The mounts handed out, or [inl n] for -1 after freeing the array [n]
    times. *)
Definition decode_mounts_response (body : bytes) : nat + list types_mount :=
  match decode_mounts_fields (S (length body)) body [] 0 with
  | inr mounts => inr mounts
  | inl array => inl (if array then snapshots_free_mounts array + 1 else 0)%nat
  end.

(** Labels are never set. *)
Definition encode_snap_request (snapshotter key parent : option cstring) : mpb_buf :=
  let b := mpb_put_string malloc mpb_empty 1 snapshotter in
  let b := mpb_put_string malloc b 2 key in
  mpb_put_string malloc b 3 parent.

End Decode.

(** * Mounts of a snapshot response

    What the decoder makes of any well-formed response: the mounts in order,
    each from the fields of its submessage, unknown fields passed over. *)


Abbreviation memory := (fun _ : Z => true).

(** ** The meaning of a mount's fields *)

(** The last of several single strings counts; options are kept in order.  A
    known field that is not length-delimited is malformed. *)
Definition mount_field (m : types_mount) (f : pfield) : option types_mount :=
  match f with
  | PLen n bs =>
      if n =? 1 then Some (TypesMount (Some (c_string bs)) (tm_source m) (tm_target m) (tm_options m))
      else if n =? 2 then Some (TypesMount (tm_type m) (Some (c_string bs)) (tm_target m) (tm_options m))
      else if n =? 3 then Some (TypesMount (tm_type m) (tm_source m) (Some (c_string bs)) (tm_options m))
      else if n =? 4 then Some (TypesMount (tm_type m) (tm_source m) (tm_target m) (tm_options m ++ [c_string bs]))
      else Some m
  | PVarint n _ | P64 n _ | P32 n _ => if (1 <=? n) && (n <=? 4) then None else Some m
  end.

Fixpoint mount_of (m : types_mount) (fs : list pfield) : option types_mount :=
  match fs with
  | [] => Some m
  | f :: fs => match mount_field m f with Some m => mount_of m fs | None => None end
  end.

Lemma decode_mount_step (fuel : nat) (n wt : Z) (body : bytes) (m : types_mount) :
  field_no_ok n -> 0 <= wt < 8 ->
  decode_mount_fields memory (S fuel) (varint_bytes 10 (mpb_tag n wt) ++ body) m =
  if (1 <=? n) && (n <=? 4) then
    if negb (wt =? MPB_WT_LEN) then None
    else match mpb_rd_len body with
         | None => None
         | Some (p, rest) =>
             match mount_field m (PLen n p) with Some m => decode_mount_fields memory fuel rest m | None => None end
         end
  else match mpb_rd_skip body wt with
       | None => None
       | Some rest => decode_mount_fields memory fuel rest m
       end.
Proof.
  intros Hn Hw. cbn [decode_mount_fields]. destruct (_ ++ body) eqn:E; [by apply varint_nonempty in E|].
  rewrite <- E. rewrite rd_tag_roundtrip by done. unfold rd_string, mount_field.
  destruct (Z.eqb_spec n 1) as [->|]; [by destruct (negb _), (mpb_rd_len body) as [[]|]|].
  destruct (Z.eqb_spec n 2) as [->|]; [by destruct (negb _), (mpb_rd_len body) as [[]|]|].
  destruct (Z.eqb_spec n 3) as [->|]; [by destruct (negb _), (mpb_rd_len body) as [[]|]|].
  destruct (Z.eqb_spec n 4) as [->|]; [by destruct (negb _), (mpb_rd_len body) as [[]|]|].
  replace ((1 <=? n) && (n <=? 4)) with false; [done|]. symmetry. apply andb_false_iff.
  rewrite !Z.leb_gt. lia.
Qed.

Lemma decode_mount_spec (fs : list pfield) (fuel : nat) (m : types_mount) :
  Forall pfield_ok fs -> (length fs < fuel)%nat ->
  decode_mount_fields memory fuel (message_bytes fs) m = mount_of m fs.
Proof.
  revert fuel m. induction fs as [|f fs IH]; intros fuel m Hok Hf; (destruct fuel as [|fuel]; [cbn in Hf; lia|]).
  - done.
  - apply Forall_cons in Hok as [Hf1 Hok]. cbn [length] in Hf. unfold message_bytes. cbn [map concat].
    fold (message_bytes fs).
    destruct (rd_skip_roundtrip f (message_bytes fs) Hf1) as (n & wt & body & E & Hn & Hw & Hskip & Hlen).
    rewrite E, decode_mount_step by done. cbn [mount_of]. rewrite Hskip.
    destruct f as [n' v|n' bs|n' bs|n' bs]; destruct Hlen as [-> Hlen].
    3:{ destruct Hlen as [-> Hlen]. rewrite Hlen. cbn [negb Z.eqb MPB_WT_LEN].
        destruct ((1 <=? n') && (n' <=? 4)) eqn:Eb.
        - change (2 =? 2) with true. cbn [negb]. destruct (mount_field m (PLen n' bs)); [apply IH; [done|lia]|done].
        - replace (mount_field m (PLen n' bs)) with (Some m); [apply IH; [done|lia]|]. unfold mount_field.
          apply andb_false_iff in Eb. rewrite !Z.leb_gt in Eb.
          rewrite !(proj2 (Z.eqb_neq _ _)) by lia. done. }
    all: apply Z.eqb_neq in Hlen as ->; cbn [negb mount_field];
      destruct ((1 <=? n') && (n' <=? 4)); [done|apply IH; [done|lia]].
Qed.

(** ** Responses *)

(** A mount, given by its fields, or a field that is passed over. *)
Inductive response_field := RMount (fs : list pfield) | ROther (f : pfield).

Definition rfield (r : response_field) : pfield :=
  match r with RMount fs => PLen 1 (message_bytes fs) | ROther f => f end.

Definition rfield_ok (r : response_field) : Prop :=
  pfield_ok (rfield r) /\
  match r with
  | RMount fs => Forall pfield_ok fs
  | ROther (PLen n _) => n <> 1
  | ROther _ => True
  end.

Fixpoint response_mounts (rs : list response_field) : option (list types_mount) :=
  match rs with
  | [] => Some []
  | RMount fs :: rs =>
      match mount_of mount_zero fs, response_mounts rs with
      | Some m, Some ms => Some (m :: ms)
      | _, _ => None
      end
  | ROther _ :: rs => response_mounts rs
  end.

Lemma decode_mounts_step (fuel : nat) (n wt : Z) (body : bytes) (mounts : list types_mount) (cap : Z) :
  field_no_ok n -> 0 <= wt < 8 ->
  decode_mounts_fields memory (S fuel) (varint_bytes 10 (mpb_tag n wt) ++ body) mounts cap =
  if (n =? 1) && (wt =? MPB_WT_LEN) then
    match mpb_rd_len body with
    | None => inl (negb (cap =? 0))
    | Some (mdata, rest) =>
        let ncap := if Z.of_nat (length mounts) =? cap then if cap =? 0 then 4 else cap * 2 else cap in
        match mpb_decode_mount memory mdata with
        | None => inl true
        | Some m => decode_mounts_fields memory fuel rest (mounts ++ [m]) ncap
        end
    end
  else match mpb_rd_skip body wt with
       | None => inl (negb (cap =? 0))
       | Some rest => decode_mounts_fields memory fuel rest mounts cap
       end.
Proof.
  intros Hn Hw. cbn [decode_mounts_fields]. destruct (_ ++ body) eqn:E; [by apply varint_nonempty in E|].
  rewrite <- E. rewrite rd_tag_roundtrip by done. cbn [negb]. by rewrite andb_false_r.
Qed.

Lemma decode_mounts_spec (rs : list response_field) (fuel : nat) (mounts : list types_mount) (cap : Z) :
  Forall rfield_ok rs -> (length rs < fuel)%nat ->
  decode_mounts_fields memory fuel (message_bytes (map rfield rs)) mounts cap =
  match response_mounts rs with Some ms => inr (mounts ++ ms) | None => inl true end.
Proof.
  revert fuel mounts cap. induction rs as [|r rs IH]; intros fuel mounts cap Hok Hf;
    (destruct fuel as [|fuel]; [cbn in Hf; lia|]).
  - cbn. by rewrite app_nil_r.
  - apply Forall_cons in Hok as [[Hp Hr] Hok]. cbn [length] in Hf. unfold message_bytes. cbn [map concat].
    fold (message_bytes (map rfield rs)).
    destruct (rd_skip_roundtrip (rfield r) (message_bytes (map rfield rs)) Hp)
      as (n & wt & body & E & Hn & Hw & Hskip & Hlen).
    rewrite E, decode_mounts_step by done. rewrite Hskip. destruct r as [fs|f].
    + cbn in Hlen. destruct Hlen as (-> & -> & Hlen). rewrite Hlen. cbn [Z.eqb MPB_WT_LEN andb response_mounts].
      change ((1 =? 1) && (2 =? 2)) with true. cbv zeta iota. unfold mpb_decode_mount.
      rewrite decode_mount_spec; [|done|pose proof (message_length fs); lia].
      destruct (mount_of mount_zero fs) as [m|]; [|done].
      rewrite IH by (done || lia). destruct (response_mounts rs); [|done]. by rewrite <- app_assoc.
    + replace ((n =? 1) && (wt =? MPB_WT_LEN)) with false; [cbn [response_mounts]; apply IH; [done|lia]|].
      symmetry. apply andb_false_iff. destruct f; cbn in Hlen, Hr; destruct Hlen as [-> Hlen];
        [right|right|left|right]; by apply Z.eqb_neq.
Qed.

(** for every well-formed response, decoding with memory hands out exactly
    the mounts it contains, in order, each with the strings of its submessage
    (the last one where a field is repeated, options all of them, cut at a NUL
    as the C strings are) and with unknown fields passed over; when a mount is
    malformed nothing is handed out, and the array has been freed twice. *)
Theorem mounts_decode (rs : list response_field) :
  Forall rfield_ok rs ->
  decode_mounts_response memory (message_bytes (map rfield rs)) =
  match response_mounts rs with Some ms => inr ms | None => inl 2%nat end.
Proof.
  intros Hok. unfold decode_mounts_response. rewrite decode_mounts_spec; [|done|].
  - by destruct (response_mounts rs).
  - pose proof (message_length (map rfield rs)). rewrite length_map in *. lia.
Qed.

Definition overlay_mount : list pfield :=
  [PLen 1 (lit "overlay"); PLen 2 (lit "overlay"); PVarint 9 7; PLen 4 (lit "ro"); PLen 4 (lit "index=off")].

Lemma mounts_decode_witness :
  Forall rfield_ok [ROther (PVarint 1 5); RMount overlay_mount] /\
  decode_mounts_response memory (message_bytes (map rfield [ROther (PVarint 1 5); RMount overlay_mount])) =
  inr [TypesMount (Some (lit "overlay")) (Some (lit "overlay")) None [lit "ro"; lit "index=off"]].
Proof.
  assert (Hok : Forall rfield_ok [ROther (PVarint 1 5); RMount overlay_mount]).
  { repeat constructor; vm_compute; intuition congruence. }
  split; [exact Hok|]. exact (mounts_decode _ Hok).
Defined.
