(* ===== verification/Client.v ===== *)
(** * The containerd client (containerd/containerd_client.c)

    Calls on the daemon are the nodes of a program: [Do c k] makes the call
    [c] of the HTTP/2 layer and goes on with its answer.  What the daemon
    answers is not fixed, so a statement about a program holds for every
    daemon and every failure.  A call on a connection that the code has not
    established is not made: the HTTP/2 layer answers BADARG for a NULL
    handle.

    The protobuf codecs of the daemon's services are generated code: they are
    the class [Codecs], an encoder answering [None] where it or its buffer
    fails.  yyjson and memory are parameters as elsewhere.  The client mutex
    serialises the operations, so an operation is one program; the lists of
    handles are modelled with the addresses of their elements. *)

From S2P Require Import Prelude Wire Controller Http Double Config EnvFile Json MiniPb Hash Spec StageOps Oci H2cState Snapshots.

Definition STRIM_CTRD_DEFAULT_SNAPSHOTTER : cstring := lit "overlayfs".
Definition STRIM_CTRD_DEFAULT_RUNTIME : cstring := lit "io.containerd.runc.v2".
Definition STRIM_CTRD_ERR_BADARG : Z := -1.
Definition STRIM_CTRD_ERR_CONNECT : Z := -2.
Definition STRIM_CTRD_ERR_IO : Z := -5.
Definition STRIM_CTRD_ERR_PROTO : Z := -6.
Definition STRIM_CTRD_ERR_CLOSED : Z := -7.
Definition STRIM_CTRD_ERR_NOMEM : Z := -8.
Definition STRIM_CTRD_ERR_RPC : Z := -9.

Definition H2C_STATUS_DEADLINE_EXCEEDED : Z := 4.
Definition H2C_STATUS_NOT_FOUND : Z := 5.
Definition H2C_STATUS_ALREADY_EXISTS : Z := 6.
Definition H2C_ERR_NOCONN : Z := -9.

Definition SPEC_TYPE_URL : cstring := lit "types.containerd.io/opencontainers/runtime-spec/1/Spec".
Definition EV_START_SUFFIX : cstring := lit "containerd.events.TaskStart".
Definition EV_EXIT_SUFFIX : cstring := lit "containerd.events.TaskExit".

Definition M_IMAGES_GET : cstring := lit "/containerd.services.images.v1.Images/Get".
Definition M_CONTAINERS_GET : cstring := lit "/containerd.services.containers.v1.Containers/Get".
Definition M_CONTAINERS_CREATE : cstring := lit "/containerd.services.containers.v1.Containers/Create".
Definition M_CONTAINERS_DELETE : cstring := lit "/containerd.services.containers.v1.Containers/Delete".
Definition M_TASKS_CREATE : cstring := lit "/containerd.services.tasks.v1.Tasks/Create".
Definition M_TASKS_START : cstring := lit "/containerd.services.tasks.v1.Tasks/Start".
Definition M_TASKS_KILL : cstring := lit "/containerd.services.tasks.v1.Tasks/Kill".
Definition M_TASKS_DELETE : cstring := lit "/containerd.services.tasks.v1.Tasks/Delete".
Definition M_TASKS_GET : cstring := lit "/containerd.services.tasks.v1.Tasks/Get".
Definition M_EVENTS_SUBSCRIBE : cstring := lit "/containerd.services.events.v1.Events/Subscribe".
Definition M_TASKS_WAIT : cstring := lit "/containerd.services.tasks.v1.Tasks/Wait".

Definition CTRD_TIMEOUT_MS : Z := 30000.
Definition SIGKILL : Z := 9.
Definition CTRD_FORCE_KILL_WAIT_MS : Z := 10000.

(** ** Error mapping *)

Definition grpc_status_name (status : Z) : cstring :=
  if status =? 0 then lit "OK"
  else if status =? 1 then lit "CANCELLED"
  else if status =? 2 then lit "UNKNOWN"
  else if status =? 3 then lit "INVALID_ARGUMENT"
  else if status =? 4 then lit "DEADLINE_EXCEEDED"
  else if status =? 5 then lit "NOT_FOUND"
  else if status =? 6 then lit "ALREADY_EXISTS"
  else if status =? 7 then lit "PERMISSION_DENIED"
  else if status =? 8 then lit "RESOURCE_EXHAUSTED"
  else if status =? 9 then lit "FAILED_PRECONDITION"
  else if status =? 10 then lit "ABORTED"
  else if status =? 11 then lit "OUT_OF_RANGE"
  else if status =? 12 then lit "UNIMPLEMENTED"
  else if status =? 13 then lit "INTERNAL"
  else if status =? 14 then lit "UNAVAILABLE"
  else if status =? 15 then lit "DATA_LOSS"
  else if status =? 16 then lit "UNAUTHENTICATED"
  else lit "UNKNOWN".

Definition map_grpc_err (rc : Z) : Z :=
  if 0 <=? rc then
    if rc =? 0 then 0
    else if rc =? H2C_STATUS_NOT_FOUND then STRIM_CTRD_ERR_NOTFOUND
    else if rc =? H2C_STATUS_DEADLINE_EXCEEDED then STRIM_CTRD_ERR_TIMEOUT
    else if rc =? H2C_STATUS_ALREADY_EXISTS then STRIM_CTRD_ERR_IO
    else if rc =? H2C_STATUS_UNAVAILABLE then STRIM_CTRD_ERR_IO
    else STRIM_CTRD_ERR_RPC
  else if rc =? H2C_ERR_TIMEOUT then STRIM_CTRD_ERR_TIMEOUT
  else if rc =? H2C_ERR_CLOSED then STRIM_CTRD_ERR_CLOSED
  else if (rc =? H2C_ERR_TOOBIG) || (rc =? H2C_ERR_PROTO) then STRIM_CTRD_ERR_PROTO
  else STRIM_CTRD_ERR_IO.

Definition map_rpc_err (rc : Z) : Z :=
  if rc =? STRIM_CTRD_ERR_CONNECT then STRIM_CTRD_ERR_CONNECT else map_grpc_err rc.

Definition transport_is_dead (rc : Z) : bool :=
  (rc =? H2C_ERR_IO) || (rc =? H2C_ERR_GOAWAY) || (rc =? H2C_ERR_PROTO) || (rc =? H2C_ERR_NOSTREAM)
  || (rc =? H2C_ERR_NOCONN) || (rc =? H2C_ERR_CLOSED) || (rc =? H2C_ERR_TOOBIG).

(** ** Handles *)

Record strim_image := Image {
  im_name : cstring;
  im_target_digest : option cstring;
  im_target_media_type : option cstring;
  im_target_size : Z;
}.

Record strim_container := Container {
  ct_id : cstring;
  ct_image : option cstring;
  ct_runtime_name : option cstring;
  ct_snapshotter : option cstring;
  ct_snapshot_key : option cstring;
}.

(** [tk_container] is the container's address. *)
Record strim_task := Task {
  tk_container : nat;
  tk_container_id : cstring;
  tk_stdout_uri : option cstring;
  tk_pid : Z;
}.

(** An event's payload, once decoded; [None] is an absent container id. *)
Inductive event_payload :=
  | NotDecoded
  | TaskStart (container_id : option cstring)
  | TaskExit (container_id : option cstring).

(** containerd_types_Envelope, as far as it is used. *)
Record envelope_msg := EnvelopeMsg {
  em_has_event : bool;
  em_type_url : option cstring;
  em_value : option bytes;
}.

Record strim_event_envelope := EventEnvelope { ee_env : envelope_msg; ee_payload : event_payload }.

Record strim_event_stream := EventStream {
  es_closed : bool;
  es_current : option strim_event_envelope;
}.

(** Handles are listed with their addresses, newest first; [cl_next] is the
    next fresh address. *)
Record client := Client {
  cl_h2c : bool;                   (* the shared connection is not NULL *)
  cl_namespace : cstring;
  cl_last_grpc_status : Z;
  cl_images : list (nat * strim_image);
  cl_containers : list (nat * strim_container);
  cl_tasks : list (nat * strim_task);
  cl_streams : list (nat * strim_event_stream);
  cl_next : nat;
}.

Definition with_h2c (h : bool) (c : client) : client :=
  Client h (cl_namespace c) (cl_last_grpc_status c) (cl_images c) (cl_containers c) (cl_tasks c) (cl_streams c) (cl_next c).
Definition with_status (s : Z) (c : client) : client :=
  Client (cl_h2c c) (cl_namespace c) s (cl_images c) (cl_containers c) (cl_tasks c) (cl_streams c) (cl_next c).
Definition with_images (l : list (nat * strim_image)) (c : client) : client :=
  Client (cl_h2c c) (cl_namespace c) (cl_last_grpc_status c) l (cl_containers c) (cl_tasks c) (cl_streams c) (cl_next c).
Definition with_containers (l : list (nat * strim_container)) (c : client) : client :=
  Client (cl_h2c c) (cl_namespace c) (cl_last_grpc_status c) (cl_images c) l (cl_tasks c) (cl_streams c) (cl_next c).
Definition with_tasks (l : list (nat * strim_task)) (c : client) : client :=
  Client (cl_h2c c) (cl_namespace c) (cl_last_grpc_status c) (cl_images c) (cl_containers c) l (cl_streams c) (cl_next c).
Definition with_streams (l : list (nat * strim_event_stream)) (c : client) : client :=
  Client (cl_h2c c) (cl_namespace c) (cl_last_grpc_status c) (cl_images c) (cl_containers c) (cl_tasks c) l (cl_next c).
Definition fresh (c : client) : client :=
  Client (cl_h2c c) (cl_namespace c) (cl_last_grpc_status c) (cl_images c) (cl_containers c) (cl_tasks c) (cl_streams c)
    (S (cl_next c)).

(** Remove the handle at an address; nothing when it is not listed. *)
Fixpoint unregister {A} (a : nat) (l : list (nat * A)) : list (nat * A) :=
  match l with
  | [] => []
  | (b, x) :: l' => if (a =? b)%nat then l' else (b, x) :: unregister a l'
  end.

(** ** Calls and programs *)

Inductive rpc : Type -> Type :=
  | Dial : rpc Z                                                     (* h2c_connect of the shared connection *)
  | Hangup : rpc unit                                                (* h2c_close of the shared connection *)
  | Unary (method : cstring) (req : bytes) (cap timeout : Z) : rpc (Z * bytes)
  | OpenRead (req : bytes) : rpc (Z + stream_outcome)                (* Content/Read *)
  | OwnDial : rpc Z                                                  (* a connection of its own *)
  | OwnUnary (method : cstring) (req : bytes) (cap timeout : Z) : rpc (Z * bytes)
  | OwnOpen (method : cstring) (req : bytes) : rpc Z                 (* h2c_stream_open on it *)
  | OwnNext (timeout : Z) : rpc (Z * bytes)                          (* h2c_stream_next *)
  | OwnCloseStream : rpc unit
  | OwnHangup : rpc unit.

Inductive prog (A : Type) :=
  | Ret (a : A)
  | Do {R : Type} (c : rpc R) (k : R -> prog A).
Arguments Ret {A} a.
Arguments Do {A R} c k.

Fixpoint bind {A B} (p : prog A) (f : A -> prog B) : prog B :=
  match p with
  | Ret a => f a
  | Do c k => Do c (fun r => bind (k r) f)
  end.

(** An operation on a client. *)
Abbreviation M A := (client -> prog (A * client)).

Definition ret {A} (a : A) : M A := fun c => Ret (a, c).
Definition then_ {A B} (m : M A) (f : A -> M B) : M B := fun c => bind (m c) (fun '(a, c') => f a c').
Definition get : M client := fun c => Ret (c, c).
Definition modify (f : client -> client) : M unit := fun c => Ret (tt, f c).
Definition call {R} (r : rpc R) : M R := fun c => Do r (fun a => Ret (a, c)).

Declare Scope client_scope.
Delimit Scope client_scope with client.
Notation "'let!' x ':=' m 'in' k" := (then_ m (fun x => k))
  (at level 200, x name, m at level 100, k at level 200) : client_scope.
Notation "m ';!' k" := (then_ m (fun _ => k)) (at level 199, right associativity) : client_scope.
Open Scope client_scope.

(** ** The generated codecs *)

Record create_container := CreateContainer {
  cc_id : cstring;
  cc_image : cstring;
  cc_runtime : cstring;
  cc_spec_type_url : cstring;
  cc_spec_value : bytes;
  cc_snapshotter : cstring;
  cc_snapshot_key : cstring;
}.

Record create_task := CreateTask {
  ck_container_id : cstring;
  ck_rootfs : list types_mount;
  ck_stdout : option cstring;
  ck_stderr : option cstring;
}.

(** An image's target descriptor: digest, media type, size. *)
Definition descriptor : Type := option cstring * option cstring * Z.

(** A decoder answers [None] on a malformed message; [Some None] is a message
    without the submessage. *)
Class Codecs := {
  enc_get_image : cstring -> option bytes;
  dec_get_image : bytes -> option (option descriptor);
  enc_create_container : create_container -> option bytes;
  dec_create_container : bytes -> bool;
  enc_get_container : cstring -> option bytes;
  dec_get_container : bytes -> option (option strim_container);
  enc_delete_container : cstring -> option bytes;
  enc_create_task : create_task -> option bytes;
  dec_create_task : bytes -> option Z;
  enc_get_task : cstring -> option bytes;
  dec_get_task : bytes -> option Z;
  enc_start_task : cstring -> option bytes;
  enc_kill_task : cstring -> Z -> bool -> option bytes;
  enc_wait_task : cstring -> option bytes;
  dec_wait_task : bytes -> option Z;
  enc_delete_task : cstring -> option bytes;
  enc_subscribe : list cstring -> option bytes;
  dec_envelope : bytes -> option envelope_msg;
  dec_task_start : bytes -> option (option cstring);
  dec_task_exit : bytes -> option (option cstring);
}.

(** ** The shared connection *)

Definition shared_conn_reset_locked : M unit :=
  let! c := get in
  if cl_h2c c then call Hangup ;! modify (with_h2c false) else ret tt.

(** 0 or CONNECT. *)
Definition shared_conn_locked : M Z :=
  let! c := get in
  if cl_h2c c then ret 0
  else let! rc := call Dial in
       if rc =? 0 then modify (with_h2c true) ;! ret 0 else ret STRIM_CTRD_ERR_CONNECT.

Definition shared_unary_locked (method : cstring) (req : bytes) (cap timeout : Z) : M (Z * bytes) :=
  let! rc := shared_conn_locked in
  if negb (rc =? 0) then ret (rc, [])
  else
    let! a := call (Unary method req cap timeout) in
    (if (a.1 <? 0) && transport_is_dead a.1 then shared_conn_reset_locked else ret tt) ;!
    modify (with_status (if 0 <? a.1 then a.1 else 0)) ;!
    ret a.

(** [if (transport_is_dead(rc)) shared_conn_reset_locked(client); return
    map_grpc_err(rc);] *)
Definition fail_transport {A} (rc : Z) (none : A) : M (Z * A) :=
  (if transport_is_dead rc then shared_conn_reset_locked else ret tt) ;! ret (map_grpc_err rc, none).

(** ** The image's configuration *)

Section Config.
Variable malloc : Z -> bool.
Variable yyjson_read : bytes -> option jval.
Variable want_arch : cstring.

Definition dup_yy_str (v : option jval) : option cstring :=
  match v with
  | Some (JStr s) => if malloc (strlen s + 1) then Some (c_string s) else None
  | _ => None
  end.

Fixpoint dup_items (l : list jval) : option (list cstring) :=
  match l with
  | [] => Some []
  | v :: l' => match dup_yy_str (Some v), dup_items l' with Some s, Some ss => Some (s :: ss) | _, _ => None end
  end.

(** [None] is NULL: no array, an empty one, or a failure. *)
Definition dup_str_array (v : option jval) : option (list cstring) :=
  match v with
  | Some (JArr (x :: l)) =>
      if malloc (8 * Z.of_nat (length (x :: l))) then dup_items (x :: l) else None
  | _ => None
  end.

Definition image_config_get (config : jval) (canonical lowercase : string) : option jval :=
  match yyjson_obj_get config (lit canonical) with
  | Some v => Some v
  | None => yyjson_obj_get config (lit lowercase)
  end.

(** The configuration and the diff ids. *)
Definition parse_image_config (blob : bytes) : option (strim_oci_image_config * list cstring) :=
  match yyjson_read blob with
  | Some (JObj ms) =>
      let root := JObj ms in
      match yyjson_obj_get root (lit "rootfs") with
      | Some (JObj rs) =>
          match dup_str_array (yyjson_obj_get (JObj rs) (lit "diff_ids")) with
          | None => None
          | Some diff_ids =>
              let cfg :=
                match yyjson_obj_get root (lit "config") with
                | Some (JObj cs) =>
                    let config := JObj cs in
                    ImageConfig (default [] (dup_str_array (image_config_get config "Env" "env")))
                      (default [] (dup_str_array (image_config_get config "Entrypoint" "entrypoint")))
                      (default [] (dup_str_array (image_config_get config "Cmd" "cmd")))
                      (dup_yy_str (image_config_get config "WorkingDir" "workingdir"))
                      (dup_yy_str (image_config_get config "User" "user"))
                | _ => ImageConfig [] [] [] None None
                end in
              Some (cfg, diff_ids)
          end
      | _ => None
      end
  | _ => None
  end.

(** A manifest for the host: its architecture, and linux or no os text. *)
Definition platform_matches (m : jval) : bool :=
  match yyjson_obj_get m (lit "platform") with
  | None => false
  | Some p =>
      match yyjson_obj_get p (lit "architecture") with
      | Some (JStr a) =>
          streq (c_string a) want_arch &&
          match yyjson_obj_get p (lit "os") with
          | Some (JStr os) => streq (c_string os) (lit "linux")
          | _ => true
          end
      | _ => false
      end
  end.

Definition BLOB_MAX : Z := 4 * 1024 * 1024.

(** A blob from the content store; BADARG without a connection. *)
Definition content_read (digest : cstring) : M (Z + bytes) :=
  let! c := get in
  if negb (cl_h2c c) then ret (inl H2C_ERR_BADARG)
  else
    let! a := call (OpenRead (data (mpb_put_string malloc mpb_empty 1 (Some digest)))) in
    ret (content_read_blob malloc (fun _ => a) true digest BLOB_MAX).

Definition config_digest (root : jval) : Z + cstring :=
  match yyjson_obj_get root (lit "config") with
  | Some (JObj cs) =>
      match dup_yy_str (yyjson_obj_get (JObj cs) (lit "digest")) with
      | Some d => inr d
      | None => inl H2C_ERR_PROTO
      end
  | _ => inl H2C_ERR_PROTO
  end.

(** The digest of the manifest that an index selects. *)
Definition index_digest (root : jval) : option cstring :=
  match yyjson_obj_get root (lit "manifests") with
  | Some (JArr (m0 :: ms)) =>
      let chosen := default m0 (find_first platform_matches (m0 :: ms)) in
      dup_yy_str (yyjson_obj_get chosen (lit "digest"))
  | _ => None
  end.

Definition resolve_config_digest (target_digest : cstring) : M (Z + cstring) :=
  let! r := content_read target_digest in
  match r with
  | inl rc => ret (inl rc)
  | inr blob =>
      match yyjson_read blob with
      | Some (JObj ms) =>
          match index_digest (JObj ms) with
          | None => ret (config_digest (JObj ms))
          | Some m_digest =>
              let! r := content_read m_digest in
              match r with
              | inl rc => ret (inl rc)
              | inr mblob =>
                  match yyjson_read mblob with
                  | None => ret (inl H2C_ERR_PROTO)
                  | Some root => ret (config_digest root)
                  end
              end
          end
      | _ => ret (inl H2C_ERR_PROTO)
      end
  end.

Definition strdup (s : cstring) : option cstring := if malloc (strlen s + 1) then Some s else None.

Fixpoint chain_loop (chain : option cstring) (diff_ids : list cstring) : option cstring :=
  match diff_ids with
  | [] => chain
  | d :: ds =>
      match chain with
      | None => chain_loop (strdup d) ds
      | Some ch =>
          if malloc (strlen ch + 1 + strlen d + 1)
          then chain_loop (strdup (strim_sha256_format (strim_sha256 (ch ++ [32] ++ d)))) ds
          else None
      end
  end.

Definition compute_chain_id (diff_ids : list cstring) : option cstring := chain_loop None diff_ids.

End Config.
