(* ===== verification/ClientChain.v ===== *)
(** * The chain id of an image's layers

    The reference is the definition of the OCI image specification:
    ChainID(L) = L, ChainID(L0|...|Ln) = SHA256(ChainID(L0|...|Ln-1) " " Ln). *)

From S2P Require Import Prelude Wire Controller Http Double Config EnvFile Json MiniPb Hash Spec StageOps Oci H2cState Snapshots Client.

(** Over the layers from the last to the first. *)
Fixpoint chain_id_rev (layers : list cstring) : cstring :=
  match layers with
  | [] => []
  | [l] => l
  | l :: below => strim_sha256_format (strim_sha256 (chain_id_rev below ++ [32] ++ l))
  end.

Definition ChainID (diff_ids : list cstring) : cstring := chain_id_rev (rev diff_ids).

Lemma chain_id_snoc (l : list cstring) (d : cstring) :
  l <> [] -> ChainID (l ++ [d]) = strim_sha256_format (strim_sha256 (ChainID l ++ [32] ++ d)).
Proof.
  intros Hl. unfold ChainID. rewrite rev_app_distr. cbn [rev app chain_id_rev].
  destruct (rev l) eqn:E; [|done]. apply (f_equal (@rev cstring)) in E. rewrite rev_involutive in E. done.
Qed.

Section Chain.
Variable malloc : Z -> bool.

Lemma chain_loop_some (done ds : list cstring) :
  done <> [] -> (forall n, malloc n = true) -> chain_loop malloc (Some (ChainID done)) ds = Some (ChainID (done ++ ds)).
Proof.
  intros Hd Hm. revert done Hd. induction ds as [|d ds IH]; intros done Hd; cbn [chain_loop].
  - by rewrite app_nil_r.
  - unfold strdup. rewrite !Hm, <- chain_id_snoc by done. rewrite IH by (by destruct done).
    by rewrite <- app_assoc.
Qed.

(** Without memory a later layer may be taken for the first. *)
Lemma chain_loop_suffix (chain : option cstring) (done ds : list cstring) (ch : cstring) :
  (forall c, chain = Some c -> exists k, drop k done <> [] /\ c = ChainID (drop k done)) ->
  chain_loop malloc chain ds = Some ch ->
  exists k, drop k (done ++ ds) <> [] /\ ch = ChainID (drop k (done ++ ds)).
Proof.
  revert chain done. induction ds as [|d ds IH]; intros chain done Hc; cbn [chain_loop].
  - intros ->. rewrite app_nil_r. by apply Hc.
  - replace (done ++ d :: ds) with ((done ++ [d]) ++ ds) by (by rewrite <- app_assoc).
    destruct chain as [c|].
    + destruct (malloc _); [|done]. apply IH. intros c' Hc'. unfold strdup in Hc'. case_match; [|done].
      destruct (Hc c eq_refl) as (k & Hk & ->). exists k.
      assert (k < length done)%nat by (apply Nat.nle_gt; intros ?; by rewrite drop_ge in Hk).
      rewrite drop_app_le by lia. split; [by destruct (drop k done)|]. injection Hc' as <-. by rewrite chain_id_snoc.
    + apply IH. intros c' Hc'. unfold strdup in Hc'. case_match; [|done]. injection Hc' as <-.
      exists (length done). rewrite drop_app_length. done.
Qed.

End Chain.

(** with memory, the parent of a new container's snapshot is exactly the
    chain id that the OCI image specification defines for the image's layers
    (none when there is no layer); when memory fails along the way the answer
    is still the chain id of a nonempty suffix of the layers, or nothing. *)
Theorem chain_id_is_oci (malloc : Z -> bool) (diff_ids : list cstring) :
  compute_chain_id (fun _ => true) diff_ids = (match diff_ids with [] => None | _ => Some (ChainID diff_ids) end) /\
  (forall ch, compute_chain_id malloc diff_ids = Some ch ->
     exists k, drop k diff_ids <> [] /\ ch = ChainID (drop k diff_ids)).
Proof.
  split.
  - destruct diff_ids as [|d ds]; [done|]. exact (chain_loop_some _ [d] ds ltac:(done) (fun _ => eq_refl)).
  - intros ch Hc. by apply (chain_loop_suffix malloc None [] diff_ids ch).
Qed.

(** A failure of the first copy starts the chain at the second layer. *)
Example chain_of_a_suffix :
  compute_chain_id (fun n => negb (n =? 3)) [lit "aa"; lit "bbb"] = Some (lit "bbb").
Proof. reflexivity. Qed.
