(* ===== verification/ClientOps.v ===== *)
(** * The operations of the containerd client (containerd/containerd_client.c,
    containerd/snapshots.c)

    Images, containers, tasks and event streams.  An operation takes a handle
    as its address and what it points to; it answers its code and the handle
    it made. *)

From S2P Require Import Prelude Wire Controller Wiring Http Double Config EnvFile Json MiniPb Hash Spec StageOps Oci H2cState Snapshots Client.

Section Ops.
Context `{Codecs}.
Variables malloc realloc : Z -> bool.
Variable yyjson_read : bytes -> option jval.
Variable want_arch : cstring.
Variables passwd group : option bytes.

(** ** Snapshots *)

Definition snap_unary_mounts (method : cstring) (snapshotter key : cstring) (parent : option cstring)
    (want : bool) : M (Z * list types_mount) :=
  let! c := get in
  if negb (cl_h2c c) then ret (H2C_ERR_BADARG, [])
  else
    let! a := call (Unary method (data (encode_snap_request malloc (Some snapshotter) (Some key) parent)) 16384
                      SNAP_TIMEOUT_MS) in
    if negb (a.1 =? 0) then ret (a.1, [])
    else if want then
      match decode_mounts_response malloc a.2 with
      | inl _ => ret (H2C_ERR_PROTO, [])
      | inr mounts => ret (0, mounts)
      end
    else ret (0, []).

Definition snapshots_prepare (snapshotter key : cstring) (parent : option cstring) (want : bool)
  : M (Z * list types_mount) := snap_unary_mounts SNAP_METHOD_PREPARE snapshotter key parent want.

Definition snapshots_mounts (snapshotter key : cstring) : M (Z * list types_mount) :=
  snap_unary_mounts SNAP_METHOD_MOUNTS snapshotter key None true.

Definition snapshots_remove (snapshotter key : cstring) : M Z :=
  let! c := get in
  if negb (cl_h2c c) then ret H2C_ERR_BADARG
  else
    let! a := call (Unary SNAP_METHOD_REMOVE (data (encode_snap_request malloc (Some snapshotter) (Some key) None))
                      64 SNAP_TIMEOUT_MS) in
    ret a.1.

(** ** Images *)

(** Put a handle at the head of its list, at a fresh address. *)
Definition image_register (i : strim_image) : M nat :=
  let! c := get in modify (fun c => fresh (with_images ((cl_next c, i) :: cl_images c) c)) ;! ret (cl_next c).
Definition container_register (k : strim_container) : M nat :=
  let! c := get in modify (fun c => fresh (with_containers ((cl_next c, k) :: cl_containers c) c)) ;! ret (cl_next c).
Definition task_register (t : strim_task) : M nat :=
  let! c := get in modify (fun c => fresh (with_tasks ((cl_next c, t) :: cl_tasks c) c)) ;! ret (cl_next c).

Definition image_free (a : nat) : M unit := modify (fun c => with_images (unregister a (cl_images c)) c).

(** A copy of a string that may be NULL; NULL when memory fails. *)
Definition strdup_opt (s : option cstring) : option cstring :=
  match s with Some s => strdup malloc s | None => None end.

(** The handle's address and contents. *)
Definition get_image_locked (ref : cstring) : M (Z * option (nat * strim_image)) :=
  match enc_get_image ref with
  | None => ret (STRIM_CTRD_ERR_NOMEM, None)
  | Some req =>
      let! a := shared_unary_locked M_IMAGES_GET req 16384 CTRD_TIMEOUT_MS in
      if negb (a.1 =? 0) then ret (map_rpc_err a.1, None)
      else
        match dec_get_image a.2 with
        | None | Some None => ret (STRIM_CTRD_ERR_PROTO, None)
        | Some (Some (digest, media_type, size)) =>
            if negb (malloc 48) then ret (STRIM_CTRD_ERR_NOMEM, None)
            else
              match strdup malloc ref with
              | None => ret (STRIM_CTRD_ERR_NOMEM, None)
              | Some name =>
                  match digest, strdup_opt digest with
                  | Some _, None => ret (STRIM_CTRD_ERR_NOMEM, None)
                  | _, d =>
                      let image := Image name d (strdup_opt media_type) size in
                      let! addr := image_register image in ret (0, Some (addr, image))
                  end
              end
        end
  end.

Definition strim_containerd_get_image (ref : option cstring) : M (Z * option (nat * strim_image)) :=
  match ref with None => ret (STRIM_CTRD_ERR_BADARG, None) | Some ref => get_image_locked ref end.

(** ** Containers *)

Definition container_new (id : cstring) (image runtime_name snapshotter snapshot_key : option cstring)
  : option strim_container :=
  if malloc 48 then
    match strdup malloc id with
    | None => None
    | Some id =>
        Some (Container id (strdup_opt image) (strdup_opt runtime_name) (strdup_opt snapshotter)
                (strdup_opt snapshot_key))
    end
  else None.

(** Step 2: the image's configuration and chain id; [inl] is the early
    return. *)
Definition image_rootfs (target_digest : cstring) : M (Z + strim_oci_image_config * cstring) :=
  let! r := resolve_config_digest malloc yyjson_read want_arch target_digest in
  match r with
  | inl rc => let! e := fail_transport rc tt in ret (inl e.1)
  | inr digest =>
      let! r := content_read malloc digest in
      match r with
      | inl rc => let! e := fail_transport rc tt in ret (inl e.1)
      | inr blob =>
          match parse_image_config malloc yyjson_read blob with
          | None => ret (inl STRIM_CTRD_ERR_PROTO)
          | Some (cfg, diff_ids) =>
              match compute_chain_id malloc diff_ids with
              | None => ret (inl STRIM_CTRD_ERR_NOMEM)
              | Some chain => ret (inr (cfg, chain))
              end
          end
      end
  end.

(** Steps 4 and 5: the spec and the container. *)
Definition create_from_spec (id snapshot_id image_name : cstring) (spec : strim_spec)
    (cfg : strim_oci_image_config) (cdi : option strim_oci_cdi_edits)
  : M (Z * option (nat * strim_container)) :=
  let! c := get in
  match strim_oci_build_spec realloc passwd group (Some spec) (Some cfg) (Some (cl_namespace c)) (Some id) cdi true with
  | None => ret (STRIM_CTRD_ERR_NOMEM, None)
  | Some (b, n) =>
      let json := take (Z.to_nat n) (jb_data b) in
      if negb (malloc (strlen json + 8)) then ret (STRIM_CTRD_ERR_NOMEM, None)
      else
        match enc_create_container (CreateContainer id image_name STRIM_CTRD_DEFAULT_RUNTIME SPEC_TYPE_URL json
                                      STRIM_CTRD_DEFAULT_SNAPSHOTTER snapshot_id) with
        | None => ret (STRIM_CTRD_ERR_NOMEM, None)
        | Some req =>
            let! a := shared_unary_locked M_CONTAINERS_CREATE req 65536 CTRD_TIMEOUT_MS in
            if negb (a.1 =? 0) then ret (map_rpc_err a.1, None)
            else if negb (dec_create_container a.2) then ret (STRIM_CTRD_ERR_PROTO, None)
            else
              match container_new id (Some image_name) (Some STRIM_CTRD_DEFAULT_RUNTIME)
                      (Some STRIM_CTRD_DEFAULT_SNAPSHOTTER) (Some snapshot_id) with
              | None => ret (STRIM_CTRD_ERR_NOMEM, None)
              | Some k => let! addr := container_register k in ret (0, Some (addr, k))
              end
        end
  end.

(** Steps 2 to 5, with the image resolved. *)
Definition create_from_image (id snapshot_id image_name : cstring) (spec : strim_spec)
    (cdi : option strim_oci_cdi_edits) (target_digest : option cstring)
  : M (Z * option (nat * strim_container)) :=
  match target_digest with
  | None => ret (STRIM_CTRD_ERR_PROTO, None)
  | Some digest =>
      let! r := image_rootfs digest in
      match r with
      | inl rc => ret (rc, None)
      | inr (cfg, chain_id) =>
          let! p := snapshots_prepare STRIM_CTRD_DEFAULT_SNAPSHOTTER snapshot_id (Some chain_id) false in
          if negb (p.1 =? 0) && negb (p.1 =? H2C_STATUS_ALREADY_EXISTS) then fail_transport p.1 None
          else create_from_spec id snapshot_id image_name spec cfg cdi
      end
  end.

(** Every path frees the image; [cdi] is what the CDI module has pending. *)
Definition new_container_locked (id snapshot_id image_name : cstring) (spec : strim_spec)
    (cdi : option strim_oci_cdi_edits) : M (Z * option (nat * strim_container)) :=
  let! r := get_image_locked image_name in
  match r with
  | (rc, Some (addr, image)) =>
      let! r := create_from_image id snapshot_id image_name spec cdi (im_target_digest image) in
      image_free addr ;! ret r
  | (rc, None) => ret (rc, None)
  end.

Definition strim_containerd_new_container (id snapshot_id image_name : option cstring) (spec : option strim_spec)
    (cdi : option strim_oci_cdi_edits) : M (Z * option (nat * strim_container)) :=
  match id, snapshot_id, image_name, spec with
  | Some id, Some snapshot_id, Some image_name, Some spec =>
      new_container_locked id snapshot_id image_name spec cdi
  | _, _, _, _ => ret (STRIM_CTRD_ERR_BADARG, None)
  end.

Definition load_container_locked (id : cstring) : M (Z * option (nat * strim_container)) :=
  match enc_get_container id with
  | None => ret (STRIM_CTRD_ERR_NOMEM, None)
  | Some req =>
      let! a := shared_unary_locked M_CONTAINERS_GET req 65536 CTRD_TIMEOUT_MS in
      if negb (a.1 =? 0) then ret (map_rpc_err a.1, None)
      else
        match dec_get_container a.2 with
        | None | Some None => ret (STRIM_CTRD_ERR_PROTO, None)
        | Some (Some k) =>
            match container_new id (ct_image k) (ct_runtime_name k) (ct_snapshotter k) (ct_snapshot_key k) with
            | None => ret (STRIM_CTRD_ERR_NOMEM, None)
            | Some k => let! addr := container_register k in ret (0, Some (addr, k))
            end
        end
  end.

Definition strim_containerd_load_container (id : option cstring) : M (Z * option (nat * strim_container)) :=
  match id with None => ret (STRIM_CTRD_ERR_BADARG, None) | Some id => load_container_locked id end.

Definition snapshotter_of (k : strim_container) : cstring :=
  default STRIM_CTRD_DEFAULT_SNAPSHOTTER (ct_snapshotter k).

(** From Containers/Delete on. *)
Definition delete_record (addr : nat) (k : strim_container) : M Z :=
  match enc_delete_container (ct_id k) with
  | None => ret STRIM_CTRD_ERR_NOMEM
  | Some req =>
      let! a := shared_unary_locked M_CONTAINERS_DELETE req 64 CTRD_TIMEOUT_MS in
      if negb (a.1 =? 0) then ret (map_rpc_err a.1)
      else modify (fun c => with_containers (unregister addr (cl_containers c)) c) ;! ret 0
  end.

Definition delete_container_locked (addr : nat) (k : strim_container) (cleanup_snapshot : bool) : M Z :=
  match cleanup_snapshot, ct_snapshot_key k with
  | true, Some (b :: key) =>
      let! rc := snapshots_remove (snapshotter_of k) (b :: key) in
      if negb (rc =? 0) && negb (rc =? H2C_STATUS_NOT_FOUND)
      then let! e := fail_transport rc tt in ret e.1
      else delete_record addr k
  | _, _ => delete_record addr k
  end.

Definition strim_containerd_delete_container (container : option (nat * strim_container)) (cleanup_snapshot : bool)
  : M Z :=
  match container with
  | None => ret STRIM_CTRD_ERR_BADARG
  | Some (addr, k) => delete_container_locked addr k cleanup_snapshot
  end.

(** ** Tasks *)

Definition logfile_uri (logfile : cstring) : option cstring :=
  if malloc (strlen logfile + 8) then Some (lit "file://" ++ logfile) else None.

(** The rootfs mounts of the container's snapshot; [inl] is the early
    return. *)
Definition task_rootfs (k : strim_container) : M (Z + list types_mount) :=
  match ct_snapshot_key k with
  | Some (b :: key) =>
      let! r := snapshots_mounts (snapshotter_of k) (b :: key) in
      if negb (r.1 =? 0) then let! e := fail_transport r.1 tt in ret (inl e.1) else ret (inr r.2)
  | _ => ret (inr [])
  end.

(** Tasks/Create with its mounts and log file. *)
Definition create_task_with (caddr : nat) (k : strim_container) (mounts : list types_mount)
    (uri : option cstring) : M (Z * option (nat * strim_task)) :=
  match enc_create_task (CreateTask (ct_id k) mounts uri uri) with
  | None => ret (STRIM_CTRD_ERR_NOMEM, None)
  | Some req =>
      let! a := shared_unary_locked M_TASKS_CREATE req 4096 CTRD_TIMEOUT_MS in
      if negb (a.1 =? 0) then ret (map_rpc_err a.1, None)
      else
        match dec_create_task a.2 with
        | None => ret (STRIM_CTRD_ERR_PROTO, None)
        | Some pid =>
            if negb (malloc 40) then ret (STRIM_CTRD_ERR_NOMEM, None)
            else
              match strdup malloc (ct_id k) with
              | None => ret (STRIM_CTRD_ERR_NOMEM, None)
              | Some id =>
                  let task := Task caddr id uri pid in
                  let! addr := task_register task in ret (0, Some (addr, task))
              end
        end
  end.

Definition new_task_locked (caddr : nat) (k : strim_container) (logfile : option cstring)
  : M (Z * option (nat * strim_task)) :=
  let! r := task_rootfs k in
  match r with
  | inl rc => ret (rc, None)
  | inr mounts =>
      match logfile with
      | Some (b :: path) =>
          match logfile_uri (b :: path) with
          | None => ret (STRIM_CTRD_ERR_NOMEM, None)
          | Some uri => create_task_with caddr k mounts (Some uri)
          end
      | _ => create_task_with caddr k mounts None
      end
  end.

Definition strim_containerd_new_task (container : option (nat * strim_container)) (logfile : option cstring)
  : M (Z * option (nat * strim_task)) :=
  match container with
  | None => ret (STRIM_CTRD_ERR_BADARG, None)
  | Some (addr, k) => new_task_locked addr k logfile
  end.

Definition load_task_locked (caddr : nat) (k : strim_container) : M (Z * option (nat * strim_task)) :=
  match enc_get_task (ct_id k) with
  | None => ret (STRIM_CTRD_ERR_NOMEM, None)
  | Some req =>
      let! a := shared_unary_locked M_TASKS_GET req 4096 CTRD_TIMEOUT_MS in
      if negb (a.1 =? 0) then ret (map_rpc_err a.1, None)
      else
        match dec_get_task a.2 with
        | None => ret (STRIM_CTRD_ERR_PROTO, None)
        | Some pid =>
            if negb (malloc 40) then ret (STRIM_CTRD_ERR_NOMEM, None)
            else
              match strdup malloc (ct_id k) with
              | None => ret (STRIM_CTRD_ERR_NOMEM, None)
              | Some id =>
                  let task := Task caddr id None pid in
                  let! addr := task_register task in ret (0, Some (addr, task))
              end
        end
  end.

Definition strim_containerd_load_task (container : option (nat * strim_container))
  : M (Z * option (nat * strim_task)) :=
  match container with
  | None => ret (STRIM_CTRD_ERR_BADARG, None)
  | Some (addr, k) => load_task_locked addr k
  end.

Definition task_start_locked (t : strim_task) : M Z :=
  match enc_start_task (tk_container_id t) with
  | None => ret STRIM_CTRD_ERR_NOMEM
  | Some req =>
      let! a := shared_unary_locked M_TASKS_START req 64 CTRD_TIMEOUT_MS in ret (map_rpc_err a.1)
  end.

Definition strim_containerd_task_start (task : option (nat * strim_task)) : M Z :=
  match task with None => ret STRIM_CTRD_ERR_BADARG | Some (_, t) => task_start_locked t end.

(** The raw result: 0, a status or an error. *)
Definition kill_locked (t : strim_task) (signum : Z) (all : bool) : M Z :=
  match enc_kill_task (tk_container_id t) (u32 signum) all with
  | None => ret STRIM_CTRD_ERR_NOMEM
  | Some req =>
      let! a := shared_unary_locked M_TASKS_KILL req 64 CTRD_TIMEOUT_MS in ret a.1
  end.

Definition strim_containerd_task_kill (task : option (nat * strim_task)) (signum : Z) : M Z :=
  match task with
  | None => ret STRIM_CTRD_ERR_BADARG
  | Some (_, t) =>
      let! rc := kill_locked t signum false in
      if rc =? H2C_STATUS_NOT_FOUND then ret 0 else ret (map_rpc_err rc)
  end.

(** On a connection of its own; the exit code on success. *)
Definition task_wait (t : strim_task) (timeout : Z) : M (Z * option Z) :=
  let! rc := call OwnDial in
  if negb (rc =? 0) then ret (STRIM_CTRD_ERR_CONNECT, None)
  else
    match enc_wait_task (tk_container_id t) with
    | None => call OwnHangup ;! ret (STRIM_CTRD_ERR_NOMEM, None)
    | Some req =>
        let! a := call (OwnUnary M_TASKS_WAIT req 4096 timeout) in
        call OwnHangup ;!
        if negb (a.1 =? 0) then ret (map_grpc_err a.1, None)
        else match dec_wait_task a.2 with
             | None => ret (STRIM_CTRD_ERR_PROTO, None)
             | Some status => ret (0, Some (to_int status))
             end
    end.

Definition strim_containerd_task_wait (task : option (nat * strim_task)) (timeout : Z) : M (Z * option Z) :=
  match task with None => ret (STRIM_CTRD_ERR_BADARG, None) | Some (_, t) => task_wait t timeout end.

(** Tasks/Delete; a task that is already gone keeps its handle. *)
Definition delete_task_record (addr : nat) (t : strim_task) : M Z :=
  match enc_delete_task (tk_container_id t) with
  | None => ret STRIM_CTRD_ERR_NOMEM
  | Some req =>
      let! a := shared_unary_locked M_TASKS_DELETE req 4096 CTRD_TIMEOUT_MS in
      if a.1 =? H2C_STATUS_NOT_FOUND then ret 0
      else if negb (a.1 =? 0) then ret (map_rpc_err a.1)
      else modify (fun c => with_tasks (unregister addr (cl_tasks c)) c) ;! ret 0
  end.

Definition task_delete_locked (addr : nat) (t : strim_task) (force : bool) : M Z :=
  if force then
    let! rc := kill_locked t SIGKILL true in
    if negb (rc =? 0) && negb (rc =? H2C_STATUS_NOT_FOUND) then ret (map_rpc_err rc)
    else
      let! w := task_wait t CTRD_FORCE_KILL_WAIT_MS in
      if negb (w.1 =? 0) && negb (w.1 =? STRIM_CTRD_ERR_NOTFOUND) && negb (w.1 =? STRIM_CTRD_ERR_TIMEOUT)
      then ret w.1
      else delete_task_record addr t
  else delete_task_record addr t.

Definition strim_containerd_task_delete (task : option (nat * strim_task)) (force : bool) : M Z :=
  match task with None => ret STRIM_CTRD_ERR_BADARG | Some (addr, t) => task_delete_locked addr t force end.

(** ** Events *)

Definition subscribe_locked (filters : list cstring) : M (Z * option nat) :=
  let! rc := call OwnDial in
  if negb (rc =? 0) then ret (STRIM_CTRD_ERR_CONNECT, None)
  else
    match enc_subscribe filters with
    | None => call OwnHangup ;! ret (STRIM_CTRD_ERR_NOMEM, None)
    | Some req =>
        let! rc := call (OwnOpen M_EVENTS_SUBSCRIBE req) in
        if negb (rc =? 0) then call OwnHangup ;! ret (map_grpc_err rc, None)
        else if negb (malloc 48) then call OwnCloseStream ;! call OwnHangup ;! ret (STRIM_CTRD_ERR_NOMEM, None)
        else
          let! c := get in
          modify (fun c => fresh (with_streams ((cl_next c, EventStream false None) :: cl_streams c) c)) ;!
          ret (0, Some (cl_next c))
    end.

Definition strim_containerd_subscribe (filters : list cstring) : M (Z * option nat) :=
  match filters with [] => ret (STRIM_CTRD_ERR_BADARG, None) | _ => subscribe_locked filters end.

(** The stream's next envelope; the stream keeps it. *)
Definition strim_event_stream_next (s : strim_event_stream) (timeout : Z)
  : M (Z * strim_event_stream * option strim_event_envelope) :=
  if es_closed s then ret (STRIM_CTRD_ERR_CLOSED, s, None)
  else
    let! a := call (OwnNext timeout) in
    if negb (a.1 =? 0) then
      ret (if a.1 =? H2C_ERR_TIMEOUT then STRIM_CTRD_ERR_TIMEOUT
           else if a.1 =? H2C_ERR_CLOSED then STRIM_CTRD_ERR_CLOSED else STRIM_CTRD_ERR_IO, s, None)
    else
      match es_current s with
      | None =>
          if negb (malloc 200) then ret (STRIM_CTRD_ERR_NOMEM, s, None)
          else match dec_envelope a.2 with
               | None => ret (STRIM_CTRD_ERR_PROTO,
                              EventStream false (Some (EventEnvelope (EnvelopeMsg false None None) NotDecoded)), None)
               | Some m => let e := EventEnvelope m NotDecoded in ret (0, EventStream false (Some e), Some e)
               end
      | Some _ =>
          match dec_envelope a.2 with
          | None => ret (STRIM_CTRD_ERR_PROTO,
                         EventStream false (Some (EventEnvelope (EnvelopeMsg false None None) NotDecoded)), None)
          | Some m => let e := EventEnvelope m NotDecoded in ret (0, EventStream false (Some e), Some e)
          end
      end.

(** The handle is gone afterwards. *)
Definition event_stream_close_locked (addr : nat) (s : strim_event_stream) : M unit :=
  (if es_closed s then ret tt else call OwnCloseStream ;! call OwnHangup) ;!
  modify (fun c => with_streams (unregister addr (cl_streams c)) c).

Definition strim_event_stream_close (stream : option (nat * strim_event_stream)) : M unit :=
  match stream with None => ret tt | Some (addr, s) => event_stream_close_locked addr s end.

Definition type_url_has_suffix (type_url : option cstring) (suffix : cstring) : bool :=
  match type_url with
  | None => false
  | Some t => if (length t <? length suffix)%nat then false else streq (drop (length t - length suffix) t) suffix
  end.

(** The decoded payload is kept in the envelope. *)
Definition ensure_payload_decoded (e : strim_event_envelope) : strim_event_envelope :=
  match ee_payload e with
  | TaskStart _ | TaskExit _ => e
  | NotDecoded =>
      match em_has_event (ee_env e), em_value (ee_env e) with
      | true, Some payload =>
          if type_url_has_suffix (em_type_url (ee_env e)) EV_START_SUFFIX then
            match dec_task_start payload with
            | None => e
            | Some id => EventEnvelope (ee_env e) (TaskStart id)
            end
          else if type_url_has_suffix (em_type_url (ee_env e)) EV_EXIT_SUFFIX then
            match dec_task_exit payload with
            | None => e
            | Some id => EventEnvelope (ee_env e) (TaskExit id)
            end
          else e
      | _, _ => e
      end
  end.

Definition strim_event_get_kind (e : option strim_event_envelope) : strim_event_kind * option strim_event_envelope :=
  match e with
  | None => (STRIM_EVENT_OTHER, None)
  | Some e =>
      let url := em_type_url (ee_env e) in
      if type_url_has_suffix url EV_START_SUFFIX || type_url_has_suffix url EV_EXIT_SUFFIX then
        let e := ensure_payload_decoded e in
        (match ee_payload e with
         | TaskStart _ => STRIM_EVENT_TASK_START
         | TaskExit _ => STRIM_EVENT_TASK_EXIT
         | NotDecoded => STRIM_EVENT_OTHER
         end, Some e)
      else (STRIM_EVENT_OTHER, Some e)
  end.

(** The length or an error, and the text in the buffer. *)
Definition strim_event_container_id (e : option strim_event_envelope) (cap : Z) : Z * option cstring :=
  match e with
  | None => (STRIM_CTRD_ERR_BADARG, None)
  | Some e =>
      if cap =? 0 then (STRIM_CTRD_ERR_BADARG, None)
      else match ee_payload (ensure_payload_decoded e) with
           | TaskStart (Some id) | TaskExit (Some id) =>
               if cap <=? strlen id then (STRIM_CTRD_ERR_PROTO, None) else (strlen id, Some id)
           | _ => (STRIM_CTRD_ERR_PROTO, None)
           end
  end.

(** ** The client *)

(** Nothing is dialled. *)
Definition strim_containerd_connect (socket_path ns : option cstring) : Z * option client :=
  match socket_path, ns with
  | Some (_ :: _), Some (b :: n) =>
      if malloc 128 then
        match strdup_opt socket_path, strdup_opt ns with
        | Some _, Some _ => (0, Some (Client false (b :: n) 0 [] [] [] [] 0))
        | _, _ => (STRIM_CTRD_ERR_NOMEM, None)
        end
      else (STRIM_CTRD_ERR_NOMEM, None)
  | _, _ => (STRIM_CTRD_ERR_BADARG, None)
  end.

Fixpoint close_streams (l : list (nat * strim_event_stream)) : M unit :=
  match l with
  | [] => ret tt
  | (a, s) :: l' => event_stream_close_locked a s ;! close_streams l'
  end.

(** Every handle is freed with its list. *)
Definition strim_containerd_close : M unit :=
  let! c := get in
  close_streams (cl_streams c) ;!
  modify (fun c => with_tasks [] (with_images [] c)) ;!
  modify (fun c => with_containers [] c) ;!
  (if cl_h2c c then call Hangup ;! modify (with_h2c false) else ret tt).

(** The status text of the last refusal, 0 when there is none. *)
Definition strim_containerd_last_error (c : client) (cap : Z) : Z * cstring :=
  if cap =? 0 then (STRIM_CTRD_ERR_BADARG, [])
  else
    let status := cl_last_grpc_status c in
    if status <=? 0 then (0, [])
    else
      let text := lit "grpc status " ++ fmt_u64 status ++ lit " (" ++ grpc_status_name status ++ lit ")" in
      (if cap <=? strlen text then cap - 1 else strlen text, snprintf_str cap text).

End Ops.
