(* ===== verification/ClientFacts.v ===== *)
(** * Reasoning about the client's programs

    [wp] runs a program against every possible daemon.  It keeps whether the
    shared connection is up, the state of a connection of the operation's own,
    and the calls made so far with their answers; a call that a connection is
    not ready for makes it false. *)

From S2P Require Import Prelude Wire Controller Http Double Config EnvFile Json MiniPb Hash Spec StageOps Oci H2cState Snapshots Client ClientOps.

(** Split conjunctions without unfolding, and close the plain parts. *)
Ltac conjs := repeat match goal with |- _ /\ _ => split end; try done; eauto with strim.

(** ** Traces *)

Inductive event :=
  | EUnary (method : cstring) (req : bytes) (a : Z * bytes)
  | ERead (req : bytes) (a : Z + stream_outcome)
  | EOwn (method : cstring) (req : bytes) (timeout : Z) (a : Z * bytes)
  | ENext (timeout : Z) (a : Z * bytes).

(** What opening and reading a stream can answer: [h2c_stream_open] fails with
    a code, and the call that ends the loop did not deliver a message. *)
Definition read_answer (a : Z + stream_outcome) : Prop :=
  match a with inl rc => rc <> 0 | inr o => so_last o <> 0 end.

(** A connection of the operation's own. *)
Inductive own_state := OwnNone | OwnUp | OwnStream.

Abbreviation post A := (bool -> own_state -> list event -> A -> Prop).

Fixpoint wp {A} (up : bool) (own : own_state) (tr : list event) (Q : post A) (p : prog A) : Prop :=
  match p with
  | Ret a => Q up own tr a
  | Do c k =>
      match c in rpc R return (R -> prog A) -> Prop with
      | Dial => fun k => up = false /\ forall rc, wp (rc =? 0) own tr Q (k rc)
      | Hangup => fun k => up = true /\ wp false own tr Q (k tt)
      | Unary m req cap t => fun k => up = true /\ forall a, wp up own (tr ++ [EUnary m req a]) Q (k a)
      | OpenRead req => fun k => up = true /\ forall a, read_answer a -> wp up own (tr ++ [ERead req a]) Q (k a)
      | OwnDial => fun k => own = OwnNone /\ forall rc, wp up (if rc =? 0 then OwnUp else OwnNone) tr Q (k rc)
      | OwnUnary m req cap t => fun k => own = OwnUp /\ forall a, wp up own (tr ++ [EOwn m req t a]) Q (k a)
      | OwnOpen m req => fun k => own = OwnUp /\
          forall rc, wp up (if rc =? 0 then OwnStream else OwnUp) (tr ++ [EOwn m req 0 (rc, [])]) Q (k rc)
      | OwnNext t => fun k => own = OwnStream /\ forall a, wp up own (tr ++ [ENext t a]) Q (k a)
      | OwnCloseStream => fun k => own = OwnStream /\ wp up OwnUp tr Q (k tt)
      | OwnHangup => fun k => own = OwnUp /\ wp up OwnNone tr Q (k tt)
      end k
  end.

Lemma wp_mono {A} (p : prog A) (up : bool) (own : own_state) (tr : list event) (Q Q' : post A) :
  wp up own tr Q p -> (forall up own tr a, Q up own tr a -> Q' up own tr a) -> wp up own tr Q' p.
Proof.
  revert up own tr. induction p as [a|R c k IH]; intros up own tr H HQ; [by apply HQ|].
  destruct c; cbn in *; destruct H as [? H]; split; eauto.
Qed.

Lemma wp_bind {A B} (p : prog A) (f : A -> prog B) (up : bool) (own : own_state) (tr : list event) (Q : post B) :
  wp up own tr (fun up own tr a => wp up own tr Q (f a)) p -> wp up own tr Q (bind p f).
Proof.
  revert up own tr. induction p as [a|R c k IH]; intros up own tr H; [done|].
  destruct c; cbn in *; destruct H as [? H]; split; eauto.
Qed.

Lemma wp_then {A B} (m : M A) (f : A -> M B) (c : client) (up : bool) (own : own_state) (tr : list event)
    (Q : post (B * client)) :
  wp up own tr (fun up own tr r => wp up own tr Q (f r.1 r.2)) (m c) -> wp up own tr Q (then_ m f c).
Proof. intros H. apply wp_bind. eapply wp_mono; [exact H|]. by intros ? ? ? [a c']. Qed.

(** ** Clients between operations *)

(** The lists of handles, and the supply of addresses. *)
Definition lists (c : client) : list (nat * strim_image) * list (nat * strim_container) * list (nat * strim_task) *
    list (nat * strim_event_stream) * nat :=
  (cl_images c, cl_containers c, cl_tasks c, cl_streams c, cl_next c).

(** The same handles, and the same namespace. *)
Definition same_handles (c c' : client) : Prop := lists c' = lists c /\ cl_namespace c' = cl_namespace c.

Lemma same_refl (c : client) : same_handles c c.
Proof. done. Qed.

Lemma same_trans (a b c : client) : same_handles a b -> same_handles b c -> same_handles a c.
Proof. intros [H1 H2] [H3 H4]. split; congruence. Qed.

#[export] Hint Resolve same_refl : strim.

(** ** The shared connection *)
Lemma wp_reset (c : client) (own : own_state) (tr : list event) (Q : post (unit * client)) :
  Q false own tr (tt, with_h2c false c) ->
  wp (cl_h2c c) own tr Q (shared_conn_reset_locked c).
Proof.
  intros H. unfold shared_conn_reset_locked. apply wp_then. cbn. destruct (cl_h2c c) eqn:E; cbn.
  - split; [done|]. exact H.
  - by destruct c; cbn in *; subst.
Qed.

(** The answer of a shared call: CONNECT when no connection could be made,
    otherwise the daemon's, which is in the trace; the connection is dropped
    exactly on a dead transport. *)
Definition unary_post (method : cstring) (req : bytes) (c : client) (own : own_state) (tr : list event)
  : post (Z * bytes * client) := fun up' own' tr' r =>
  let '(a, c') := r in
  own' = own /\ up' = cl_h2c c' /\ same_handles c c' /\
  ((a = (STRIM_CTRD_ERR_CONNECT, []) /\ tr' = tr /\ cl_h2c c' = false /\
    cl_last_grpc_status c' = cl_last_grpc_status c) \/
   (tr' = tr ++ [EUnary method req a] /\ cl_h2c c' = negb ((a.1 <? 0) && transport_is_dead a.1) /\
    cl_last_grpc_status c' = Z.max 0 a.1)).

Lemma wp_shared_unary (method : cstring) (req : bytes) (cap timeout : Z) (c : client) (own : own_state)
    (tr : list event) :
  wp (cl_h2c c) own tr (unary_post method req c own tr) (shared_unary_locked method req cap timeout c).
Proof.
  unfold shared_unary_locked. apply wp_then. unfold shared_conn_locked. apply wp_then. cbn [get wp fst snd].
  assert (Hcall : forall c0, same_handles c c0 -> cl_h2c c0 = true ->
    wp true own tr (unary_post method req c own tr)
      ((let! a := call (Unary method req cap timeout) in
        (if (a.1 <? 0) && transport_is_dead a.1 then shared_conn_reset_locked else ret tt) ;!
        modify (with_status (if 0 <? a.1 then a.1 else 0)) ;! ret a) c0)).
  { intros c0 Hs Hu. apply wp_then. cbn [call wp]. split; [done|]. intros a. apply wp_then. cbn [fst snd].
    assert (Hmax : (if 0 <? a.1 then a.1 else 0) = Z.max 0 a.1) by (destruct (Z.ltb_spec 0 a.1); lia).
    rewrite Hmax. destruct ((a.1 <? 0) && transport_is_dead a.1) eqn:E.
    - rewrite <- Hu at 1. apply wp_reset. cbn. split_and!; [done..|]. right. by rewrite E.
    - cbn. rewrite Hu. split_and!; [done..|]. right. by rewrite E. }
  destruct (cl_h2c c) eqn:Hc.
  - exact (Hcall c (same_refl c) Hc).
  - apply wp_then. cbn [call wp]. split; [done|]. intros rc. cbn [fst snd]. destruct (rc =? 0) eqn:Hr.
    + exact (Hcall (with_h2c true c) (conj eq_refl eq_refl) eq_refl).
    + cbn. split_and!; [done..|]. left. by rewrite Hc.
Qed.

(** ** Codes *)

Definition public (rc : Z) : Prop := -9 <= rc <= 0.

Lemma map_grpc_public (rc : Z) : public (map_grpc_err rc) /\ (map_grpc_err rc = 0 <-> rc = 0).
Proof.
  unfold map_grpc_err, public. destruct (Z.leb_spec 0 rc); case_ifs; bool_props;
    unfold STRIM_CTRD_ERR_NOTFOUND, STRIM_CTRD_ERR_TIMEOUT, STRIM_CTRD_ERR_IO, STRIM_CTRD_ERR_RPC,
      STRIM_CTRD_ERR_CLOSED, STRIM_CTRD_ERR_PROTO; lia.
Qed.

Lemma map_rpc_public (rc : Z) : public (map_rpc_err rc) /\ (map_rpc_err rc = 0 <-> rc = 0).
Proof.
  unfold map_rpc_err. destruct (Z.eqb_spec rc STRIM_CTRD_ERR_CONNECT) as [->|]; [|apply map_grpc_public].
  unfold public, STRIM_CTRD_ERR_CONNECT. lia.
Qed.

(** A failure: a public code other than 0. *)
Definition refused (rc : Z) : Prop := public rc /\ rc <> 0.

Lemma map_grpc_refused (rc : Z) : rc <> 0 -> refused (map_grpc_err rc).
Proof. intros H. destruct (map_grpc_public rc) as [? [? ?]]. split; [done|]. auto. Qed.

Lemma map_rpc_refused (rc : Z) : rc <> 0 -> refused (map_rpc_err rc).
Proof. intros H. destruct (map_rpc_public rc) as [? [? ?]]. split; [done|]. auto. Qed.

Lemma proto_refused : refused STRIM_CTRD_ERR_PROTO.
Proof. unfold refused, public, STRIM_CTRD_ERR_PROTO. lia. Qed.
Lemma nomem_refused : refused STRIM_CTRD_ERR_NOMEM.
Proof. unfold refused, public, STRIM_CTRD_ERR_NOMEM. lia. Qed.
Lemma connect_refused : refused STRIM_CTRD_ERR_CONNECT.
Proof. unfold refused, public, STRIM_CTRD_ERR_CONNECT. lia. Qed.

#[export] Hint Resolve map_grpc_refused map_rpc_refused proto_refused nomem_refused connect_refused : strim.

(** ** Failures of the transport *)

(** The connection may have been dropped; nothing else has changed. *)
Definition maybe_dropped (c c' : client) : Prop := c' = c \/ c' = with_h2c false c.

Lemma maybe_dropped_same (c c' : client) : maybe_dropped c c' -> same_handles c c'.
Proof. by intros [->| ->]. Qed.

Lemma wp_fail_transport {A} (rc : Z) (none : A) (c : client) (own : own_state) (tr : list event) :
  wp (cl_h2c c) own tr (fun up' own' tr' '(r, c') =>
    r = (map_grpc_err rc, none) /\ own' = own /\ up' = cl_h2c c' /\ tr' = tr /\ maybe_dropped c c')
    (fail_transport rc none c).
Proof.
  unfold fail_transport. apply wp_then. destruct (transport_is_dead rc).
  - apply wp_reset. cbn. split_and!; [done..|]. by right.
  - cbn. split_and!; [done..|]. by left.
Qed.

Section Specs.
Context `{Codecs}.
Context (malloc realloc : Z -> bool) (yyjson_read : bytes -> option jval) (want_arch : cstring)
  (passwd group : option bytes).

(** ** Reading the image's configuration *)

Definition is_read (e : event) : Prop := match e with ERead _ _ => True | _ => False end.

Definition read_request (digest : cstring) : bytes := data (mpb_put_string malloc mpb_empty 1 (Some digest)).

Lemma read_messages_code (msgs : list bytes) (last : Z) (acc : bytes) (cap max rc : Z) :
  last <> 0 -> read_messages malloc msgs last acc cap max = inl rc -> rc <> 0.
Proof.
  intros Hl. revert acc cap. induction msgs as [|m msgs IH]; intros acc cap; cbn [read_messages].
  - destruct (_ =? _); [done|]. by intros [= <-].
  - destruct (decode_read_response _ _ _ _ _) as [[acc' cap']|]; [apply IH|]. by intros [= <-].
Qed.

(** A blob was read over the connection, or the read failed. *)
Lemma wp_content_read (digest : cstring) (c : client) (own : own_state) (tr : list event) :
  wp (cl_h2c c) own tr (fun up' own' tr' '(r, c') =>
    c' = c /\ own' = own /\ up' = cl_h2c c /\
    ((r = inl H2C_ERR_BADARG /\ tr' = tr) \/
     exists a, read_answer a /\ tr' = tr ++ [ERead (read_request digest) a] /\
       r = content_read_blob malloc (fun _ => a) true digest BLOB_MAX) /\
    (forall rc, r = inl rc -> rc <> 0)) (content_read malloc digest c).
Proof.
  unfold content_read. apply wp_then. cbn [get wp fst snd]. destruct (cl_h2c c) eqn:E; cbn [negb].
  - apply wp_then. cbn [call wp fst snd ret]. split; [done|]. intros a Ha. split_and!; [done..| |].
    + right. exists a. done.
    + intros rc. unfold content_read_blob. cbn [negb]. destruct a as [rc'|o]; [by intros [= <-]|].
      by apply read_messages_code.
  - cbn [ret wp]. split_and!; [done..| |]; [by left|]. by intros rc [= <-].
Qed.

Lemma config_digest_code (root : jval) (rc : Z) : config_digest malloc root = inl rc -> rc <> 0.
Proof. unfold config_digest. repeat case_match; by intros [= <-]. Qed.

(** A manifest of an index is for the host: its architecture, and linux
    unless it names no operating system. *)
Definition wanted (m : jval) : Prop :=
  exists p a, yyjson_obj_get m (lit "platform") = Some p /\
    yyjson_obj_get p (lit "architecture") = Some (JStr a) /\ c_string a = want_arch /\
    forall os, yyjson_obj_get p (lit "os") = Some (JStr os) -> c_string os = lit "linux".

(** The document is an index, and the text is the digest of its first
    manifest for the host, or of its first manifest when none is. *)
Definition names_manifest (root : jval) (s : bytes) : Prop :=
  exists ms m, yyjson_obj_get root (lit "manifests") = Some (JArr ms) /\
    yyjson_obj_get m (lit "digest") = Some (JStr s) /\
    ((exists pre post, ms = pre ++ m :: post /\ wanted m /\ Forall (fun x => ~ wanted x) pre) \/
     (Forall (fun x => ~ wanted x) ms /\ head ms = Some m)).

(** The document is a manifest, and the text the digest of its config. *)
Definition names_config (root : jval) (s : bytes) : Prop :=
  exists cs, yyjson_obj_get root (lit "config") = Some (JObj cs) /\
    yyjson_obj_get (JObj cs) (lit "digest") = Some (JStr s).

(** The answer [a] to reading [digest] is a blob with the document. *)
Definition blob_holds (digest : cstring) (a : Z + stream_outcome) (root : jval) : Prop :=
  exists blob, content_read_blob malloc (fun _ => a) true digest BLOB_MAX = inr blob /\
    yyjson_read blob = Some root.

(** The reads [es] lead from the image's target to the digest of its
    configuration: the target is its manifest (or an index whose digest could
    not be copied), or an index and the manifest it names was read next. *)
Inductive resolved_by (target : cstring) : list event -> cstring -> Prop :=
  | by_manifest a root s :
      blob_holds target a root -> names_config root s ->
      (forall m, names_manifest root m -> malloc (strlen m + 1) = false) ->
      resolved_by target [ERead (read_request target) a] (c_string s)
  | by_index a1 root1 m a2 root2 s :
      blob_holds target a1 root1 -> names_manifest root1 m ->
      blob_holds (c_string m) a2 root2 -> names_config root2 s ->
      resolved_by target [ERead (read_request target) a1; ERead (read_request (c_string m)) a2] (c_string s).

Lemma platform_wanted (m : jval) : platform_matches want_arch m = true <-> wanted m.
Proof.
  unfold platform_matches, wanted. split.
  - intros Hm. destruct (yyjson_obj_get m _) as [p|]; [|done].
    destruct (yyjson_obj_get p (lit "architecture")) as [[]|] eqn:Ea; try done.
    apply andb_true_iff in Hm as [Ha Ho]. apply streq_true in Ha.
    eexists p, _. split_and!; [done..|]. intros os Eo. rewrite Eo in Ho. by apply streq_true.
  - intros (p & a & -> & -> & Ha & Ho). apply andb_true_iff. split; [by apply streq_true|].
    destruct (yyjson_obj_get p (lit "os")) as [[]|]; try done. by apply streq_true, Ho.
Qed.

Lemma platform_unwanted (m : jval) : platform_matches want_arch m = false <-> ~ wanted m.
Proof. rewrite <- platform_wanted. by destruct (platform_matches want_arch m). Qed.

Lemma find_first_split {A} (f : A -> bool) (l : list A) (x : A) :
  find_first f l = Some x -> exists pre post, l = pre ++ x :: post /\ f x = true /\ Forall (fun y => f y = false) pre.
Proof.
  induction l as [|y l IH]; [done|]. cbn. destruct (f y) eqn:E; intros Hf; simplify_eq.
  - exists [], l. split_and!; [done|done|constructor].
  - destruct (IH Hf) as (pre & post & -> & Hx & Hp). exists (y :: pre), post.
    split_and!; [done|done|by constructor].
Qed.

(** The chosen manifest of an index. *)
Lemma chosen_manifest (root m0 : jval) (ms : list jval) (s : bytes) :
  yyjson_obj_get root (lit "manifests") = Some (JArr (m0 :: ms)) ->
  yyjson_obj_get (default m0 (find_first (platform_matches want_arch) (m0 :: ms))) (lit "digest") = Some (JStr s) <->
  names_manifest root s.
Proof.
  intros Em. unfold names_manifest. rewrite Em.
  destruct (find_first (platform_matches want_arch) (m0 :: ms)) as [m|] eqn:Ef; cbn [default].
  - apply find_first_split in Ef as (pre & post & E & Hm & Hp). apply platform_wanted in Hm.
    assert (Hp' : Forall (fun y => ~ wanted y) pre)
      by (eapply Forall_impl; [exact Hp|]; intros y; apply platform_unwanted). split.
    + intros Hs. eexists _, m. split_and!; [done..|]. left. eauto.
    + intros (l & m' & [= <-] & Hs & [(pre' & post' & E' & Hw & Hn)|[Hn _]]).
      * rewrite E in E'. assert (m = m') as ->; [|done].
        apply app_eq_app in E' as (k & [[-> Hk]|[-> Hk]]); destruct k as [|y k]; cbn in Hk; simplify_eq; try done.
        -- by apply Forall_app in Hp' as [_ [Hy _]%Forall_cons].
        -- by apply Forall_app in Hn as [_ [Hy _]%Forall_cons].
      * rewrite E in Hn. by apply Forall_app in Hn as [_ [Hy _]%Forall_cons].
  - apply find_first_None in Ef. assert (Hn : Forall (fun y => ~ wanted y) (m0 :: ms))
      by (eapply Forall_impl; [exact Ef|]; intros y; apply platform_unwanted). split.
    + intros Hs. eexists _, m0. split_and!; [done..|]. by right.
    + intros (l & m' & [= <-] & Hs & [(pre' & post' & E' & Hw & _)|[_ [= ->]]]); [|done].
      rewrite E' in Hn. by apply Forall_app in Hn as [_ [Hy _]%Forall_cons].
Qed.

Lemma index_digest_some (root : jval) (d : cstring) :
  index_digest malloc want_arch root = Some d -> exists s, names_manifest root s /\ d = c_string s.
Proof.
  unfold index_digest. destruct (yyjson_obj_get root (lit "manifests")) as [[| | | | |[|m0 ms]|]|] eqn:Em; try done.
  cbv zeta. set (m := default m0 _). intros Hd. destruct (yyjson_obj_get m (lit "digest")) as [[]|] eqn:Ed; try done.
  cbn in Hd. case_match; [|done]. simplify_eq. eexists. split; [|done]. by eapply (chosen_manifest root m0 ms).
Qed.

Lemma index_digest_none (root : jval) (s : bytes) :
  index_digest malloc want_arch root = None -> names_manifest root s -> malloc (strlen s + 1) = false.
Proof.
  unfold index_digest. intros Hi Hn. pose proof Hn as (ms & m & Em & _ & Hc). rewrite Em in Hi.
  destruct ms as [|m0 ms].
  { destruct Hc as [(pre & post & E & _)|[_ ?]]; [by destruct pre|done]. }
  apply (chosen_manifest root m0 ms s Em) in Hn. cbv zeta in Hi. rewrite Hn in Hi. cbn in Hi.
  by destruct (malloc _).
Qed.

Lemma config_digest_names (root : jval) (d : cstring) :
  config_digest malloc root = inr d -> exists s, names_config root s /\ d = c_string s.
Proof.
  unfold config_digest, names_config.
  destruct (yyjson_obj_get root (lit "config")) as [[| | | | | |cs]|]; try done.
  destruct (yyjson_obj_get (JObj cs) (lit "digest")) as [[]|] eqn:E; cbn; try done.
  destruct (malloc _); [|done]. intros [= <-]. eauto.
Qed.

Lemma wp_resolve_config (digest : cstring) (c : client) (own : own_state) (tr : list event) :
  wp (cl_h2c c) own tr (fun up' own' tr' '(r, c') =>
    c' = c /\ own' = own /\ up' = cl_h2c c /\
    (exists es, Forall is_read es /\ tr' = tr ++ es /\ (forall d, r = inr d -> resolved_by digest es d)) /\
    (forall rc, r = inl rc -> rc <> 0)) (resolve_config_digest malloc yyjson_read want_arch digest c).
Proof.
  unfold resolve_config_digest. apply wp_then. eapply wp_mono; [apply wp_content_read|].
  intros up1 own1 tr1 [r1 c1] (-> & -> & -> & Hr & Hc). cbn [fst snd].
  assert (Hnil : exists es, Forall is_read es /\ tr1 = tr ++ es).
  { destruct Hr as [[_ ->]|(a & _ & -> & _)]; [by exists []; rewrite app_nil_r|].
    eexists. split; [|done]. by repeat constructor. }
  assert (Hfail : forall rc tr2, rc <> 0 -> (exists es, Forall is_read es /\ tr2 = tr ++ es) ->
    (exists es, Forall is_read es /\ tr2 = tr ++ es /\ (forall d, @inl Z cstring rc = inr d -> resolved_by digest es d)) /\
    (forall rc', @inl Z cstring rc = inl rc' -> rc' <> 0)).
  { intros rc tr2 Hrc (es & Hes & ->). split; [|by intros rc' [= <-]]. exists es. by split_and!. }
  destruct r1 as [rc|blob].
  { cbn. do 3 (split; [done|]). apply Hfail; auto. }
  destruct Hr as [[? _]|(a & Ha & -> & Hb)]; [done|].
  destruct (yyjson_read blob) as [[| | | | | |ms]|] eqn:Ej;
    try (cbn; do 3 (split; [done|]); by apply Hfail).
  assert (Hh : blob_holds digest a (JObj ms)) by (exists blob; auto).
  destruct (index_digest malloc want_arch (JObj ms)) as [md|] eqn:Ei.
  2:{ cbn. split_and!; [done..| |intros rc; apply config_digest_code].
      exists [ERead (read_request digest) a]. split_and!; [by repeat constructor|done|]. intros d Hd.
      apply config_digest_names in Hd as (s & Hs & ->).
      eapply by_manifest; [done|done|]. intros m. by apply index_digest_none. }
  apply index_digest_some in Ei as (m & Hm & ->).
  apply wp_then. eapply wp_mono; [apply wp_content_read|].
  intros up2 own2 tr2 [r2 c2] (-> & -> & -> & Hr2 & Hc2). cbn [fst snd].
  assert (Hnil2 : exists es', Forall is_read es' /\ tr2 = tr ++ es').
  { destruct Hr2 as [[_ ->]|(a2 & _ & -> & _)]; [by eauto|]. rewrite <- app_assoc. eexists. split; [|done].
    by repeat constructor. }
  destruct r2 as [rc|mblob].
  { cbn. do 3 (split; [done|]). apply Hfail; auto. }
  destruct Hr2 as [[? _]|(a2 & Ha2 & -> & Hb2)]; [done|].
  destruct (yyjson_read mblob) as [root|] eqn:Ej2; cbn; (do 3 (split; [done|])); [|by apply Hfail].
  split.
  - exists [ERead (read_request digest) a; ERead (read_request (c_string m)) a2].
    split_and!; [by repeat constructor|by rewrite <- app_assoc|]. intros d Hd.
    apply config_digest_names in Hd as (s & Hs & ->). eapply by_index; [done|done|by exists mblob|done].
  - intros rc. apply config_digest_code.
Qed.

End Specs.
