(* ===== verification/ClientSpecs.v ===== *)
(** * What the client's operations do, whatever the daemon answers

    Codes stay in the public range, connections are used only while they are
    up and own connections are always given back, handles appear and
    disappear with success only, and a container is created only on a
    snapshot of its own image. *)

From S2P Require Import Prelude Wire Controller Http Double Config EnvFile Json MiniPb Hash Spec StageOps Oci H2cState Snapshots Client ClientOps ClientFacts.

Section Specs.
Context `{Codecs}.
Context (malloc realloc : Z -> bool) (yyjson_read : bytes -> option jval) (want_arch : cstring)
  (passwd group : option bytes).

(** ** The image's root file system *)

(** The configuration and chain id come from the blob of the digest. *)
Definition config_read (digest : cstring) (cfg : strim_oci_image_config) (chain : cstring) (e : event) : Prop :=
  match e with
  | ERead req a =>
      exists blob diff_ids,
        req = read_request malloc digest /\
        content_read_blob malloc (fun _ => a) true digest BLOB_MAX = inr blob /\
        parse_image_config malloc yyjson_read blob = Some (cfg, diff_ids) /\
        compute_chain_id malloc diff_ids = Some chain
  | _ => False
  end.

Lemma wp_image_rootfs (digest : cstring) (c : client) (own : own_state) (tr : list event) :
  wp (cl_h2c c) own tr (fun up' own' tr' '(r, c') =>
    own' = own /\ up' = cl_h2c c' /\ maybe_dropped c c' /\
    exists es, Forall is_read es /\ tr' = tr ++ es /\
      match r with
      | inl rc => refused rc
      | inr (cfg, chain) => c' = c /\ exists es' cd e, es = es' ++ [e] /\
          resolved_by malloc yyjson_read want_arch digest es' cd /\ config_read cd cfg chain e
      end) (image_rootfs malloc yyjson_read want_arch digest c).
Proof.
  unfold image_rootfs. apply wp_then. eapply wp_mono; [apply wp_resolve_config|].
  intros up1 own1 tr1 [r1 c1] (-> & -> & -> & (es & Hes & -> & Hres) & Hc). cbn [fst snd].
  destruct r1 as [rc|cd].
  { apply wp_then. eapply wp_mono; [apply wp_fail_transport|].
    intros up2 own2 tr2 [r2 c2] (-> & -> & -> & -> & Hd). cbn. split_and!; [done..|]. eexists. split_and!; [done..|].
    by apply map_grpc_refused, Hc. }
  apply wp_then. eapply wp_mono; [apply wp_content_read|].
  intros up2 own2 tr2 [r2 c2] (-> & -> & -> & Hr & Hc2). cbn [fst snd].
  assert (exists es', Forall is_read es' /\ tr2 = tr ++ es') as (es' & Hes' & Htr).
  { destruct Hr as [[_ ->]|(a & _ & -> & _)]; [by eauto|]. rewrite <- app_assoc. eexists. split; [|done].
    apply Forall_app. split; [done|]. by repeat constructor. }
  destruct r2 as [rc|blob].
  { apply wp_then. eapply wp_mono; [apply wp_fail_transport|].
    intros up3 own3 tr3 [r3 c3] (-> & -> & -> & -> & Hd). cbn. split_and!; [done..|]. exists es'. split_and!; [done..|].
    by apply map_grpc_refused, Hc2. }
  assert (maybe_dropped c c) by (by left).
  destruct Hr as [[? _]|(a & Ha & -> & Hb)]; [done|]. rewrite <- app_assoc.
  assert (Forall is_read (es ++ [ERead (read_request malloc cd) a])).
  { apply Forall_app. split; [done|]. by repeat constructor. }
  destruct (parse_image_config malloc yyjson_read blob) as [[cfg diff]|] eqn:Ep.
  2:{ cbn. split_and!; [done..|]. eexists. split_and!; [done..|]. apply proto_refused. }
  destruct (compute_chain_id malloc diff) as [chain|] eqn:Ech.
  - cbn. split_and!; [done..|]. eexists. split_and!; [done..|]. eexists es, cd, _. split; [done|].
    split; [by apply Hres|]. cbn. eauto 10.
  - cbn. split_and!; [done..|]. eexists. split_and!; [done..|]. apply nomem_refused.
Qed.

(** ** Snapshots *)
Lemma wp_snap_unary (method snapshotter key : cstring) (parent : option cstring) (want : bool) (c : client)
    (own : own_state) (tr : list event) :
  let req := data (encode_snap_request malloc (Some snapshotter) (Some key) parent) in
  wp (cl_h2c c) own tr (fun up' own' tr' '(r, c') =>
    c' = c /\ own' = own /\ up' = cl_h2c c /\
    ((r = (H2C_ERR_BADARG, []) /\ tr' = tr /\ cl_h2c c = false) \/
     exists a, tr' = tr ++ [EUnary method req a] /\
       (r.1 = a.1 \/ (want = true /\ a.1 = 0 /\ r.1 = H2C_ERR_PROTO)) /\
       (r.1 = 0 -> a.1 = 0 /\ (want = true -> decode_mounts_response malloc a.2 = inr r.2))))
    (snap_unary_mounts malloc method snapshotter key parent want c).
Proof.
  cbv zeta. unfold snap_unary_mounts. apply wp_then. cbn [get wp fst snd]. destruct (cl_h2c c) eqn:E; cbn [negb].
  2:{ cbn. split_and!; [done..|]. by left. }
  apply wp_then. cbn [call wp fst snd]. split; [done|]. intros a.
  destruct (Z.eqb_spec a.1 0) as [E0|E0]; cbn [negb].
  - destruct want; [destruct (decode_mounts_response malloc a.2) as [n|ms] eqn:Ed|]; cbn;
      (split_and!; [done..|]; right; exists a; split_and!; [done|auto|]).
    + by intros ?.
    + done.
    + done.
  - cbn. split_and!; [done..|]. right. exists a. split_and!; [done|by left|]. by intros ?.
Qed.

Lemma wp_snapshots_remove (snapshotter key : cstring) (c : client) (own : own_state) (tr : list event) :
  let req := data (encode_snap_request malloc (Some snapshotter) (Some key) None) in
  wp (cl_h2c c) own tr (fun up' own' tr' '(rc, c') =>
    c' = c /\ own' = own /\ up' = cl_h2c c /\
    ((rc = H2C_ERR_BADARG /\ tr' = tr /\ cl_h2c c = false) \/
     exists a, tr' = tr ++ [EUnary SNAP_METHOD_REMOVE req a] /\ rc = a.1)) (snapshots_remove malloc snapshotter key c).
Proof.
  cbv zeta. unfold snapshots_remove. apply wp_then. cbn [get wp fst snd]. destruct (cl_h2c c) eqn:E; cbn [negb].
  2:{ cbn. split_and!; [done..|]. by left. }
  apply wp_then. cbn. split; [done|]. intros a. split_and!; [done..|]. right. by exists a.
Qed.

(** ** Images *)

(** The daemon was asked for the image and answered with its target. *)
Definition got_image (ref : cstring) (target : option cstring) (tr tr' : list event) : Prop :=
  exists req a media_type size, tr' = tr ++ [EUnary M_IMAGES_GET req a] /\
    enc_get_image ref = Some req /\ a.1 = 0 /\ dec_get_image a.2 = Some (Some (target, media_type, size)).

(** The operation made no handle, or one at the next address. *)
Lemma wp_get_image (ref : cstring) (c : client) (own : own_state) (tr : list event) :
  wp (cl_h2c c) own tr (fun up' own' tr' '((rc, h), c') =>
    own' = own /\ up' = cl_h2c c' /\ cl_namespace c' = cl_namespace c /\
    match h with
    | None =>
        refused rc /\ same_handles c c' /\
        (tr' = tr \/ exists req a, tr' = tr ++ [EUnary M_IMAGES_GET req a])
    | Some (addr, image) =>
        got_image ref (im_target_digest image) tr tr' /\ rc = 0 /\ up' = true /\ addr = cl_next c /\
        lists c' = ((addr, image) :: cl_images c, cl_containers c, cl_tasks c, cl_streams c, S (cl_next c))
    end) (get_image_locked malloc ref c).
Proof.
  unfold get_image_locked. destruct (enc_get_image ref) as [req|] eqn:Ereq.
  2:{ cbn. conjs. }
  apply wp_then. eapply wp_mono; [apply wp_shared_unary|].
  intros up1 own1 tr1 [a c1] (-> & -> & [Hl Hn] & Hcase). cbn [fst snd].
  assert (tr1 = tr \/ exists req a, tr1 = tr ++ [EUnary M_IMAGES_GET req a]) as Ht
    by (destruct Hcase as [(_ & -> & _)|(-> & _)]; eauto).
  assert (Hsame : same_handles c c1) by done.
  destruct (Z.eqb_spec a.1 0) as [E0|E0]; cbn [negb].
  2:{ cbn. conjs. }
  assert (Hu : tr1 = tr ++ [EUnary M_IMAGES_GET req a] /\ cl_h2c c1 = true).
  { destruct Hcase as [(Ha & _)|(-> & -> & _)]; [by rewrite Ha in E0|]. by rewrite E0. }
  destruct Hu as [-> Hu].
  destruct (dec_get_image a.2) as [[[[dg mt] size]|]|] eqn:Ed;
    try (by cbn; conjs).
  destruct (malloc 48); cbn [negb]; [|by cbn; conjs].
  destruct (strdup malloc ref) as [name|]; [|by cbn; conjs].
  assert (Hreg : forall image, im_target_digest image = dg ->
    wp (cl_h2c c1) own (tr ++ [EUnary M_IMAGES_GET req a]) (fun up' own' tr' '((rc, h), c') =>
      own' = own /\ up' = cl_h2c c' /\ cl_namespace c' = cl_namespace c /\
      match h with
      | None =>
          refused rc /\ same_handles c c' /\
          (tr' = tr \/ exists req a, tr' = tr ++ [EUnary M_IMAGES_GET req a])
      | Some (addr, image) =>
          got_image ref (im_target_digest image) tr tr' /\ rc = 0 /\ up' = true /\ addr = cl_next c /\
          lists c' = ((addr, image) :: cl_images c, cl_containers c, cl_tasks c, cl_streams c, S (cl_next c))
      end) ((let! addr := image_register image in ret (0, Some (addr, image))) c1)).
  { intros image Hi. cbn. unfold lists in *. simplify_eq/=. split_and!; try done; try congruence.
    exists req, a, mt, size. by split_and!. }
  destruct dg as [dg|]; cbn [strdup_opt]; [|by apply Hreg].
  destruct (strdup malloc dg) as [d|] eqn:Edg; [|cbn; conjs].
  apply Hreg. unfold strdup in Edg. case_match; by simplify_eq/=.
Qed.

(** ** New containers *)

Definition is_create (e : event) : Prop :=
  match e with EUnary m _ _ => m = M_CONTAINERS_CREATE | _ => False end.

(** A creation comes last, after the reads that lead from the image's target
    to its configuration, the read of the configuration, and the preparation
    of a snapshot on the chain of its layers; it carries the spec built from
    that configuration. *)
Definition creates_on_target (id snapshot_id image_name ns : cstring) (spec : strim_spec)
    (cdi : option strim_oci_cdi_edits) (target : option cstring) (es : list event) : Prop :=
  forall t1 req a t2, es = t1 ++ EUnary M_CONTAINERS_CREATE req a :: t2 ->
  t2 = [] /\
  exists tg rs cd e cfg chain p b n,
    target = Some tg /\
    t1 = rs ++ [e; EUnary SNAP_METHOD_PREPARE
                     (data (encode_snap_request malloc (Some STRIM_CTRD_DEFAULT_SNAPSHOTTER) (Some snapshot_id)
                              (Some chain))) p] /\
    resolved_by malloc yyjson_read want_arch tg rs cd /\ config_read cd cfg chain e /\
    (p.1 = 0 \/ p.1 = H2C_STATUS_ALREADY_EXISTS) /\
    strim_oci_build_spec realloc passwd group (Some spec) (Some cfg) (Some ns) (Some id) cdi true = Some (b, n) /\
    enc_create_container (CreateContainer id image_name STRIM_CTRD_DEFAULT_RUNTIME SPEC_TYPE_URL
      (take (Z.to_nat n) (jb_data b)) STRIM_CTRD_DEFAULT_SNAPSHOTTER snapshot_id) = Some req.

(** The calls begin with the image's target, if they create. *)
Definition creates_on_image (id snapshot_id image_name ns : cstring) (spec : strim_spec)
    (cdi : option strim_oci_cdi_edits) (es : list event) : Prop :=
  Exists is_create es ->
  exists target g es', es = g ++ es' /\ got_image image_name target [] g /\
    creates_on_target id snapshot_id image_name ns spec cdi target es'.

Lemma last_event (pre t1 t2 : list event) (x y : event) :
  pre ++ [x] = t1 ++ y :: t2 -> Forall (fun e => ~ is_create e) pre -> is_create y -> t1 = pre /\ y = x /\ t2 = [].
Proof.
  intros E Hp Hy. destruct t2 as [|z t2 _] using rev_ind.
  - change (t1 ++ [y]) with (t1 ++ [y]) in E. apply app_inj_tail in E as [-> ->]. done.
  - exfalso. rewrite app_comm_cons, app_assoc in E. apply app_inj_tail in E as [-> _].
    apply Forall_app in Hp as [_ Hp]. by apply Forall_cons in Hp as [Hp _].
Qed.

Lemma no_create (es : list event) (id snapshot_id image_name ns : cstring) (spec : strim_spec)
    (cdi : option strim_oci_cdi_edits) (target : option cstring) :
  Forall (fun e => ~ is_create e) es -> creates_on_target id snapshot_id image_name ns spec cdi target es.
Proof.
  intros Hes t1 req a t2 ->. exfalso. apply Forall_app in Hes as [_ Hes]. apply Forall_cons in Hes as [Hn _].
  by apply Hn.
Qed.

Lemma reads_no_create (es : list event) : Forall is_read es -> Forall (fun e => ~ is_create e) es.
Proof. intros Hes. eapply Forall_impl; [exact Hes|]. intros [] Hr Hc; done. Qed.

(** The handle that a creation makes, and no other change. *)
Definition container_made (c c' : client) (rc : Z) (h : option (nat * strim_container)) : Prop :=
  cl_namespace c' = cl_namespace c /\ cl_images c' = cl_images c /\ cl_tasks c' = cl_tasks c /\
  cl_streams c' = cl_streams c /\ (cl_next c <= cl_next c')%nat /\
  match h with
  | None => refused rc /\ cl_containers c' = cl_containers c
  | Some (addr, k) => rc = 0 /\ (cl_next c <= addr < cl_next c')%nat /\ cl_containers c' = (addr, k) :: cl_containers c
  end.

Lemma same_made (c c' : client) (rc : Z) : refused rc -> same_handles c c' -> container_made c c' rc None.
Proof. intros Hr [Hl Hn]. unfold lists in Hl. simplify_eq. unfold container_made. conjs; lia. Qed.

Lemma wp_create_from_spec (id snapshot_id image_name : cstring) (spec : strim_spec) (cfg : strim_oci_image_config)
    (cdi : option strim_oci_cdi_edits) (c : client) (own : own_state) (tr : list event) :
  wp (cl_h2c c) own tr (fun up' own' tr' '((rc, h), c') =>
    own' = own /\ up' = cl_h2c c' /\ container_made c c' rc h /\
    (match h with
     | None => True
     | Some (_, k) => container_new malloc id (Some image_name) (Some STRIM_CTRD_DEFAULT_RUNTIME)
                        (Some STRIM_CTRD_DEFAULT_SNAPSHOTTER) (Some snapshot_id) = Some k
     end) /\
    (tr' = tr \/ exists b n req a,
       strim_oci_build_spec realloc passwd group (Some spec) (Some cfg) (Some (cl_namespace c)) (Some id) cdi true =
         Some (b, n) /\
       enc_create_container (CreateContainer id image_name STRIM_CTRD_DEFAULT_RUNTIME SPEC_TYPE_URL
         (take (Z.to_nat n) (jb_data b)) STRIM_CTRD_DEFAULT_SNAPSHOTTER snapshot_id) = Some req /\
       tr' = tr ++ [EUnary M_CONTAINERS_CREATE req a]))
    (create_from_spec malloc realloc passwd group id snapshot_id image_name spec cfg cdi c).
Proof.
  unfold create_from_spec. apply wp_then. cbn [get wp fst snd].
  assert (Hnone : forall c' rc, refused rc -> same_handles c c' -> container_made c c' rc None) by apply same_made.
  destruct (strim_oci_build_spec _ _ _ _ _ _ _ _ _) as [[b n]|] eqn:Eb; [|cbn; conjs].
  cbv zeta. destruct (malloc _); cbn [negb]; [|cbn; conjs].
  destruct (enc_create_container _) as [req|] eqn:Ee; [|cbn; conjs].
  apply wp_then. eapply wp_mono; [apply wp_shared_unary|].
  intros up1 own1 tr1 [a c1] (-> & -> & Hs & Hcase). cbn [fst snd].
  assert (Ht : tr1 = tr \/ exists b0 n0 req0 a0, Some (b, n) = Some (b0, n0) /\
    enc_create_container (CreateContainer id image_name STRIM_CTRD_DEFAULT_RUNTIME SPEC_TYPE_URL
         (take (Z.to_nat n0) (jb_data b0)) STRIM_CTRD_DEFAULT_SNAPSHOTTER snapshot_id) = Some req0 /\
    tr1 = tr ++ [EUnary M_CONTAINERS_CREATE req0 a0])
    by (destruct Hcase as [(_ & -> & _)|(-> & _)]; [by left|right; by exists b, n, req, a]).
  destruct (Z.eqb_spec a.1 0) as [E0|E0]; cbn [negb]; [|cbn; conjs].
  destruct (dec_create_container a.2); cbn [negb]; [|cbn; conjs].
  destruct (container_new _ _ _ _ _ _) as [k|] eqn:Ek; [|cbn; conjs].
  cbn. destruct Hs as [Hl Hn]. unfold lists in Hl. simplify_eq. unfold container_made. cbn. conjs; try lia; congruence.
Qed.

(** The handle that [container_new] builds. *)
Definition is_new_container (id snapshot_id image_name : cstring) (h : option (nat * strim_container)) : Prop :=
  match h with
  | None => True
  | Some (_, k) => container_new malloc id (Some image_name) (Some STRIM_CTRD_DEFAULT_RUNTIME)
                     (Some STRIM_CTRD_DEFAULT_SNAPSHOTTER) (Some snapshot_id) = Some k
  end.

Lemma prepare_not_create (req : bytes) (a : Z * bytes) : ~ is_create (EUnary SNAP_METHOD_PREPARE req a).
Proof. cbn. apply (bool_decide_unpack _). vm_compute. exact I. Qed.

Lemma get_not_create (req : bytes) (a : Z * bytes) : ~ is_create (EUnary M_IMAGES_GET req a).
Proof. cbn. apply (bool_decide_unpack _). vm_compute. exact I. Qed.

Lemma made_trans (c c1 c' : client) (rc : Z) (h : option (nat * strim_container)) :
  same_handles c c1 -> container_made c1 c' rc h -> container_made c c' rc h.
Proof.
  intros [Hl Hn] (H1 & H2 & H3 & H4 & H5 & H6). unfold lists in Hl. simplify_eq. unfold container_made.
  destruct h as [[addr k]|]; destruct_and!; conjs; first [lia|congruence].
Qed.

Lemma create_shape (id snapshot_id image_name ns : cstring) (spec : strim_spec) (cdi : option strim_oci_cdi_edits)
    (tg cd : cstring) (es : list event) (e : event) (cfg : strim_oci_image_config) (chain : cstring) (p : Z * bytes)
    (b : jbuf) (n : Z) (req : bytes) (a : Z * bytes) :
  Forall (fun e => ~ is_create e) es -> is_read e ->
  resolved_by malloc yyjson_read want_arch tg es cd -> config_read cd cfg chain e ->
  p.1 = 0 \/ p.1 = H2C_STATUS_ALREADY_EXISTS ->
  strim_oci_build_spec realloc passwd group (Some spec) (Some cfg) (Some ns) (Some id) cdi true = Some (b, n) ->
  enc_create_container (CreateContainer id image_name STRIM_CTRD_DEFAULT_RUNTIME SPEC_TYPE_URL
    (take (Z.to_nat n) (jb_data b)) STRIM_CTRD_DEFAULT_SNAPSHOTTER snapshot_id) = Some req ->
  creates_on_target id snapshot_id image_name ns spec cdi (Some tg)
    ((es ++ [e; EUnary SNAP_METHOD_PREPARE
                 (data (encode_snap_request malloc (Some STRIM_CTRD_DEFAULT_SNAPSHOTTER) (Some snapshot_id)
                          (Some chain))) p]) ++ [EUnary M_CONTAINERS_CREATE req a]).
Proof.
  intros Hes He Hrs Hc Hp Hb Hr t1 req' a' t2 E. apply last_event in E as (-> & [= -> ->] & ->); [|..].
  - split; [done|]. by exists tg, es, cd, e, cfg, chain, p, b, n.
  - apply Forall_app. split; [done|]. constructor; [destruct e; cbn in *; tauto|]. constructor; [apply prepare_not_create|constructor].
  - done.
Qed.

(** The calls made are [es]: none creates a container, or the last one does,
    on the image's snapshot. *)
Definition create_post (id snapshot_id image_name : cstring) (spec : strim_spec) (cdi : option strim_oci_cdi_edits)
    (target : option cstring) (c : client) (own : own_state) (tr : list event)
  : post (Z * option (nat * strim_container) * client) :=
  fun up' own' tr' '((rc, h), c') =>
  own' = own /\ up' = cl_h2c c' /\ container_made c c' rc h /\ is_new_container id snapshot_id image_name h /\
  exists es, tr' = tr ++ es /\
    creates_on_target id snapshot_id image_name (cl_namespace c) spec cdi target es.

Lemma wp_create_from_image (id snapshot_id image_name : cstring) (spec : strim_spec)
    (cdi : option strim_oci_cdi_edits) (target : option cstring) (c : client) (own : own_state) (tr : list event) :
  wp (cl_h2c c) own tr (create_post id snapshot_id image_name spec cdi target c own tr)
    (create_from_image malloc realloc yyjson_read want_arch passwd group id snapshot_id image_name spec cdi target c).
Proof.
  assert (Hstop : forall c' rc es, refused rc -> same_handles c c' -> Forall (fun e => ~ is_create e) es ->
    create_post id snapshot_id image_name spec cdi target c own tr (cl_h2c c') own (tr ++ es) ((rc, None), c')).
  { intros c' rc es Hr Hs He. unfold create_post. conjs; [by apply same_made|].
    exists es. split; [done|]. by apply no_create. }
  unfold create_from_image. destruct target as [digest|].
  2:{ pose proof (Hstop c _ [] proto_refused (same_refl c) (Forall_nil_2 _)) as Hs. by rewrite app_nil_r in Hs. }
  apply wp_then. eapply wp_mono; [apply wp_image_rootfs|].
  intros up1 own1 tr1 [r1 c1] (-> & -> & Hd & es & Hes & -> & Hr). cbn [fst snd].
  apply reads_no_create in Hes as Hes'. destruct r1 as [rc|[cfg chain]].
  { apply Hstop; [done|by apply maybe_dropped_same|done]. }
  destruct Hr as (-> & es' & cd & e & -> & Hrs & Hcfg). apply wp_then.
  apply Forall_app in Hes as [Hes0 He]. apply Forall_cons in He as [He _].
  eapply wp_mono; [apply wp_snap_unary|]. intros up2 own2 tr2 [p c2] (-> & -> & -> & Hp). cbn [fst snd].
  set (pe := EUnary SNAP_METHOD_PREPARE _) in Hp.
  assert (Hpe : forall a, Forall (fun e => ~ is_create e) ((es' ++ [e]) ++ [pe a])).
  { intros a. apply Forall_app. split; [done|]. constructor; [apply prepare_not_create|constructor]. }
  destruct (bool_decide_reflect (p.1 = 0 \/ p.1 = H2C_STATUS_ALREADY_EXISTS)) as [Hok|Hbad].
  - destruct Hp as [(-> & _)|(a & -> & Ha & _)]; [by destruct Hok|]. destruct Ha as [Ha|(? & _)]; [|done].
    replace (_ && _) with false by (destruct Hok as [-> | ->]; done).
    eapply wp_mono; [apply wp_create_from_spec|].
    intros up3 own3 tr3 [[rc h] c3] (-> & -> & Hm & Hk & Htr). unfold create_post. conjs.
    destruct Htr as [->|(b & n & req & a3 & Hb & Hreq & ->)].
    + exists ((es' ++ [e]) ++ [pe a]). rewrite <- !app_assoc. split; [done|].
      apply no_create. specialize (Hpe a). by rewrite <- app_assoc in Hpe.
    + exists ((es' ++ [e; pe a]) ++ [EUnary M_CONTAINERS_CREATE req a3]). rewrite <- !app_assoc. split; [done|].
      rewrite app_assoc. apply (create_shape _ _ _ _ _ _ _ cd _ e cfg chain a b n);
        [by apply reads_no_create|done|done|done|rewrite <- Ha; auto|done|done].
  - replace (_ && _) with true by (destruct (Z.eqb_spec p.1 0), (Z.eqb_spec p.1 H2C_STATUS_ALREADY_EXISTS); tauto).
    eapply wp_mono; [apply wp_fail_transport|].
    intros up3 own3 tr3 [r3 c3] (-> & -> & -> & -> & Hd3).
    assert (refused (map_grpc_err p.1)) by (apply map_grpc_refused; tauto).
    destruct Hp as [(_ & -> & _)|(a & -> & _)]; [|rewrite <- app_assoc];
      (apply Hstop; [done|by apply maybe_dropped_same|done]).
Qed.

End Specs.
