(* ===== verification/ClientTasks.v ===== *)
(** * Containers and tasks against any daemon

    What loading, deleting, starting, killing and waiting do: the calls made
    and their order, the handles made and freed, the codes answered. *)

From S2P Require Import Prelude Wire Controller Http Double Config EnvFile Json MiniPb Hash Spec StageOps Oci H2cState Snapshots Client ClientOps ClientFacts ClientSpecs.

(** A shared call was answered, or no connection could be made for it. *)
Definition answered (tr : list event) (method : cstring) (req : bytes) (a : Z * bytes) (tr' : list event) : Prop :=
  (a = (STRIM_CTRD_ERR_CONNECT, []) /\ tr' = tr) \/ tr' = tr ++ [EUnary method req a].

Lemma wp_shared_then {B} (method : cstring) (req : bytes) (cap timeout : Z) (f : Z * bytes -> M B) (c : client)
    (own : own_state) (tr : list event) (Q : post (B * client)) :
  (forall a c1 tr1, same_handles c c1 -> answered tr method req a tr1 -> wp (cl_h2c c1) own tr1 Q (f a c1)) ->
  wp (cl_h2c c) own tr Q ((let! a := shared_unary_locked method req cap timeout in f a) c).
Proof.
  intros Hf. apply wp_then. eapply wp_mono; [apply wp_shared_unary|].
  intros up1 own1 tr1 [a c1] (-> & -> & Hs & Hcase). cbn [fst snd]. apply Hf; [done|].
  destruct Hcase as [(-> & -> & _)|(-> & _)]; [by left|by right].
Qed.

Lemma answered_ok (tr : list event) (method : cstring) (req : bytes) (a : Z * bytes) (tr' : list event) :
  answered tr method req a tr' -> a.1 = 0 -> tr' = tr ++ [EUnary method req a].
Proof. by intros [[-> _]|?]. Qed.

(** The calls that were made, as an extension of the trace. *)
Lemma answered_ext (tr : list event) (method : cstring) (req : bytes) (a : Z * bytes) (tr' : list event) :
  answered tr method req a tr' ->
  exists es, tr' = tr ++ es /\ ((es = [] /\ a.1 = STRIM_CTRD_ERR_CONNECT) \/ es = [EUnary method req a]).
Proof. intros [[-> ->]| ->]; [exists []; rewrite app_nil_r; eauto|eauto]. Qed.

Section Specs.
Context `{Codecs}.
Context (malloc realloc : Z -> bool) (yyjson_read : bytes -> option jval) (want_arch : cstring)
  (passwd group : option bytes).

(** ** New containers *)
Lemma wp_new_container_locked (id snapshot_id image_name : cstring) (spec : strim_spec)
    (cdi : option strim_oci_cdi_edits) (c : client) (own : own_state) (tr : list event) :
  wp (cl_h2c c) own tr (fun up' own' tr' '((rc, h), c') =>
    own' = own /\ up' = cl_h2c c' /\ container_made c c' rc h /\ is_new_container malloc id snapshot_id image_name h /\
    exists es, tr' = tr ++ es /\
      creates_on_image malloc realloc yyjson_read want_arch passwd group id snapshot_id image_name (cl_namespace c)
        spec cdi es)
    (new_container_locked malloc realloc yyjson_read want_arch passwd group id snapshot_id image_name spec cdi c).
Proof.
  unfold new_container_locked. apply wp_then. eapply wp_mono; [apply wp_get_image|].
  intros up1 own1 tr1 [[rc h] c1] (-> & -> & Hn & Hh). cbn [fst snd].
  destruct h as [[addr image]|].
  - destruct Hh as (Hg & -> & _ & -> & Hl). apply wp_then. eapply wp_mono; [apply wp_create_from_image|].
    intros up2 own2 tr2 [[rc h] c2] (-> & -> & Hm & Hk & es & -> & Hes). cbn [fst snd].
    rewrite Hn in Hes. cbn. unfold container_made in *. injection Hl as Hi Hc Ht' Hst Hnx.
    cbn. destruct Hm as (Hm1 & Hm2 & Hm3 & Hm4 & Hm5 & Hm6). rewrite Hm2, Hi. cbn. rewrite Nat.eqb_refl.
    split_and!; try done; try congruence; try lia.
    + destruct h as [[a k]|]; destruct_and!; split_and!; try done; try congruence; lia.
    + destruct Hg as (req & a & mt & size & -> & He & H0 & Hd).
      exists (EUnary M_IMAGES_GET req a :: es). split; [by rewrite <- app_assoc|]. intros _.
      exists (im_target_digest image), [EUnary M_IMAGES_GET req a], es. split_and!; [done| |done].
      by exists req, a, mt, size.
  - destruct Hh as (Hr & Hs & Ht). cbn. conjs; [by apply same_made|].
    destruct Ht as [->|(req & a & ->)].
    + exists []. split; [by rewrite app_nil_r|]. intros Hx. inversion Hx.
    + eexists. split; [done|]. intros Hx. exfalso. apply Exists_cons in Hx as [Hx|Hx]; [|inversion Hx].
      by apply get_not_create in Hx.
Qed.

End Specs.

Section Specs.
Context `{Codecs}.
Context (malloc : Z -> bool).

(** ** Loaded containers *)

Definition load_post (id : cstring) (c : client) (own : own_state) (tr : list event)
  : post (Z * option (nat * strim_container) * client) := fun up' own' tr' '((rc, h), c') =>
  own' = own /\ up' = cl_h2c c' /\ container_made c c' rc h /\
  (tr' = tr \/ exists req a, enc_get_container id = Some req /\ tr' = tr ++ [EUnary M_CONTAINERS_GET req a] /\
     (forall addr k, h = Some (addr, k) -> a.1 = 0 /\ ct_id k = id)).

Lemma wp_load_container (id : cstring) (c : client) (own : own_state) (tr : list event) :
  wp (cl_h2c c) own tr (load_post id c own tr) (load_container_locked malloc id c).
Proof.
  unfold load_container_locked. destruct (enc_get_container id) as [req|] eqn:Ereq.
  2:{ cbn. unfold load_post. conjs. }
  apply wp_shared_then. intros a c1 tr1 Hs Ha.
  assert (Hstop : forall rc, refused rc -> load_post id c own tr (cl_h2c c1) own tr1 ((rc, None), c1)).
  { intros rc Hr. unfold load_post. conjs; [by apply same_made|].
    destruct Ha as [[_ ->]| ->]; [by left|right; exists req, a; by conjs]. }
  destruct (Z.eqb_spec a.1 0) as [E0|E0]; cbn [negb]; [|apply Hstop; eauto with strim].
  destruct (dec_get_container a.2) as [[k|]|]; try (apply Hstop; eauto with strim).
  unfold container_new. destruct (malloc 48); [|apply Hstop; eauto with strim].
  unfold strdup at 1. destruct (malloc _); [|apply Hstop; eauto with strim].
  destruct Hs as [Hl Hn]. injection Hl as Hi Hc Ht Hst Hnx.
  cbn. unfold load_post, container_made. conjs; cbn; try congruence; try lia.
  right. exists req, a. conjs; [by apply answered_ok|]. by intros addr k' [= _ <-].
Qed.

(** ** Deleted containers *)

(** The snapshot removal that comes first, if any. *)
Definition removal (k : strim_container) (cleanup : bool) : option bytes :=
  match cleanup, ct_snapshot_key k with
  | true, Some (b :: key) =>
      Some (data (encode_snap_request malloc (Some (snapshotter_of k)) (Some (b :: key)) None))
  | _, _ => None
  end.

Definition removed (k : strim_container) (cleanup : bool) (pre : list event) : Prop :=
  match removal k cleanup with
  | None => pre = []
  | Some q => exists p, pre = [EUnary SNAP_METHOD_REMOVE q p] /\ (p.1 = 0 \/ p.1 = H2C_STATUS_NOT_FOUND)
  end.

(** The calls of a deletion and its code. *)
Inductive deletion (k : strim_container) (cleanup : bool) : Z -> list event -> Prop :=
  | Del_no_connection rc q : removal k cleanup = Some q -> refused rc -> deletion k cleanup rc []
  | Del_not_removed q p : removal k cleanup = Some q -> p.1 <> 0 -> p.1 <> H2C_STATUS_NOT_FOUND ->
      deletion k cleanup (map_grpc_err p.1) [EUnary SNAP_METHOD_REMOVE q p]
  | Del_not_asked rc pre : removed k cleanup pre -> refused rc -> deletion k cleanup rc pre
  | Del_asked pre req a : removed k cleanup pre -> enc_delete_container (ct_id k) = Some req ->
      deletion k cleanup (map_rpc_err a.1) (pre ++ [EUnary M_CONTAINERS_DELETE req a]).

Definition delete_post (addr : nat) (k : strim_container) (cleanup : bool) (c : client) (own : own_state)
    (tr : list event) : post (Z * client) := fun up' own' tr' '(rc, c') =>
  own' = own /\ up' = cl_h2c c' /\
  (if rc =? 0 then lists c' = lists (with_containers (unregister addr (cl_containers c)) c) /\
                   cl_namespace c' = cl_namespace c
   else refused rc /\ same_handles c c') /\
  exists es, tr' = tr ++ es /\ deletion k cleanup rc es.

Lemma refused_ne (rc : Z) : refused rc -> (rc =? 0) = false.
Proof. intros [_ Hr]. by apply Z.eqb_neq. Qed.

Lemma wp_delete_record (addr : nat) (k : strim_container) (cleanup : bool) (pre : list event) (c0 c : client)
    (own : own_state) (tr : list event) :
  removed k cleanup pre -> same_handles c0 c ->
  wp (cl_h2c c) own (tr ++ pre) (delete_post addr k cleanup c0 own tr) (delete_record addr k c).
Proof.
  intros Hp Hs0. unfold delete_record. destruct (enc_delete_container (ct_id k)) as [req|] eqn:Ereq.
  2:{ cbn. unfold delete_post. conjs. exists pre. split; [done|]. constructor; eauto with strim. }
  apply wp_shared_then. intros a c1 tr1 Hs Ha. pose proof (same_trans _ _ _ Hs0 Hs) as Hs1.
  destruct (Z.eqb_spec a.1 0) as [E0|E0]; cbn [negb].
  - cbn. destruct Hs1 as [Hl Hn]. unfold lists in *. injection Hl as Hi Hc Ht Hst Hnx. unfold delete_post. cbn.
    conjs; try congruence. exists (pre ++ [EUnary M_CONTAINERS_DELETE req a]). rewrite app_assoc. split; [by apply answered_ok|].
    replace 0 with (map_rpc_err a.1) by (by rewrite E0). by constructor.
  - cbn. unfold delete_post. rewrite refused_ne by eauto with strim. conjs.
    apply answered_ext in Ha as (es & -> & [(-> & Ha)| ->]); rewrite <- app_assoc; eexists; (split; [done|]).
    + rewrite app_nil_r. constructor; eauto with strim.
    + by constructor.
Qed.

Lemma wp_delete_container (addr : nat) (k : strim_container) (cleanup : bool) (c : client) (own : own_state)
    (tr : list event) :
  wp (cl_h2c c) own tr (delete_post addr k cleanup c own tr) (delete_container_locked malloc addr k cleanup c).
Proof.
  assert (Hplain : removal k cleanup = None ->
    wp (cl_h2c c) own tr (delete_post addr k cleanup c own tr) (delete_record addr k c)).
  { intros Hr. rewrite <- (app_nil_r tr) at 1. apply wp_delete_record; [|done]. unfold removed. by rewrite Hr. }
  unfold delete_container_locked. destruct cleanup; [|by apply Hplain].
  destruct (ct_snapshot_key k) as [[|b key]|] eqn:Ek; [by apply Hplain; unfold removal; rewrite Ek| |
    by apply Hplain; unfold removal; rewrite Ek].
  assert (Hrm : removal k true = Some (data (encode_snap_request malloc (Some (snapshotter_of k)) (Some (b :: key)) None)))
    by (unfold removal; by rewrite Ek).
  apply wp_then. eapply wp_mono; [apply wp_snapshots_remove|].
  intros up1 own1 tr1 [rc c1] (-> & -> & -> & Hcase). cbn [fst snd].
  destruct (bool_decide_reflect (rc = 0 \/ rc = H2C_STATUS_NOT_FOUND)) as [Hok|Hbad].
  - replace (_ && _) with false by (destruct Hok as [-> | ->]; done).
    destruct Hcase as [(-> & _)|(a & -> & ->)]; [by destruct Hok|].
    apply wp_delete_record; [|done]. unfold removed. rewrite Hrm. eauto.
  - replace (_ && _) with true by (destruct (Z.eqb_spec rc 0), (Z.eqb_spec rc H2C_STATUS_NOT_FOUND); tauto).
    apply wp_then. eapply wp_mono; [apply wp_fail_transport|].
    intros up2 own2 tr2 [r c2] (-> & -> & -> & -> & Hd). cbn.
    assert (Hr : refused (map_grpc_err rc)) by (apply map_grpc_refused; tauto).
    unfold delete_post. rewrite refused_ne by done. conjs; [by apply maybe_dropped_same|].
    destruct Hcase as [(-> & -> & _)|(a & -> & ->)].
    + exists []. rewrite app_nil_r. split; [done|]. by eapply Del_no_connection.
    + eexists. split; [done|]. apply Del_not_removed; tauto.
Qed.

(** ** New tasks *)

Definition task_made (c c' : client) (rc : Z) (h : option (nat * strim_task)) : Prop :=
  cl_namespace c' = cl_namespace c /\ cl_images c' = cl_images c /\ cl_containers c' = cl_containers c /\
  cl_streams c' = cl_streams c /\
  match h with
  | None => refused rc /\ cl_tasks c' = cl_tasks c /\ cl_next c' = cl_next c
  | Some (addr, t) => rc = 0 /\ addr = cl_next c /\ cl_next c' = S (cl_next c) /\ cl_tasks c' = (addr, t) :: cl_tasks c
  end.

Lemma same_task_made (c c' : client) (rc : Z) : refused rc -> same_handles c c' -> task_made c c' rc None.
Proof. intros Hr [Hl Hn]. injection Hl as Hi Hc Ht Hst Hnx. unfold task_made. conjs. Qed.

Lemma registered_task_made (c c1 : client) (addr : nat) (t : strim_task) :
  same_handles c c1 -> addr = cl_next c1 ->
  task_made c (fresh (with_tasks ((addr, t) :: cl_tasks c1) c1)) 0 (Some (addr, t)).
Proof.
  intros [Hl Hn] ->. injection Hl as Hi Hc Ht Hst Hnx. unfold task_made. cbn. conjs; congruence.
Qed.

(** The mounts of the container's snapshot, and the call that asked for
    them. *)
Definition rootfs_of (k : strim_container) (pre : list event) (mounts : list types_mount) : Prop :=
  match ct_snapshot_key k with
  | Some (b :: key) =>
      exists p, p.1 = 0 /\ decode_mounts_response malloc p.2 = inr mounts /\
        pre = [EUnary SNAP_METHOD_MOUNTS
                 (data (encode_snap_request malloc (Some (snapshotter_of k)) (Some (b :: key)) None)) p]
  | _ => pre = [] /\ mounts = []
  end.

Lemma wp_task_rootfs (k : strim_container) (c : client) (own : own_state) (tr : list event) :
  wp (cl_h2c c) own tr (fun up' own' tr' '(r, c') =>
    own' = own /\ up' = cl_h2c c' /\ same_handles c c' /\
    exists es, tr' = tr ++ es /\
      match r with
      | inl rc => refused rc /\ (es = [] \/ exists q p, es = [EUnary SNAP_METHOD_MOUNTS q p])
      | inr mounts => rootfs_of k es mounts
      end) (task_rootfs malloc k c).
Proof.
  unfold task_rootfs, rootfs_of. destruct (ct_snapshot_key k) as [[|b key]|];
    try (cbn; conjs; exists []; by rewrite app_nil_r).
  apply wp_then. eapply wp_mono; [apply wp_snap_unary|].
  intros up1 own1 tr1 [r c1] (-> & -> & -> & Hcase). cbn [fst snd].
  destruct (Z.eqb_spec r.1 0) as [E0|E0]; cbn [negb].
  - cbn. destruct Hcase as [(-> & _)|(a & -> & _ & Hok)]; [done|]. conjs. eexists. split; [done|].
    destruct (Hok E0) as [Ha Hd]. exists a. conjs.
  - apply wp_then. eapply wp_mono; [apply wp_fail_transport|].
    intros up2 own2 tr2 [e c2] (-> & -> & -> & -> & Hd). cbn. conjs; [by apply maybe_dropped_same|].
    destruct Hcase as [(_ & -> & _)|(a & -> & _)]; [exists []; rewrite app_nil_r; conjs|].
    eexists. conjs.
Qed.

(** The calls of a task's creation: Tasks/Create comes last, with the mounts
    that the snapshotter answered for the container's snapshot. *)
Inductive task_creation (k : strim_container) (uri : option cstring) : Z -> list event -> Prop :=
  | TC_not_asked rc es : refused rc -> (es = [] \/ exists q p, es = [EUnary SNAP_METHOD_MOUNTS q p]) ->
      task_creation k uri rc es
  | TC_asked rc pre mounts req a : rootfs_of k pre mounts ->
      enc_create_task (CreateTask (ct_id k) mounts uri uri) = Some req -> public rc -> (rc = 0 -> a.1 = 0) ->
      task_creation k uri rc (pre ++ [EUnary M_TASKS_CREATE req a]).

Lemma rootfs_calls (k : strim_container) (pre : list event) (mounts : list types_mount) :
  rootfs_of k pre mounts -> pre = [] \/ exists q p, pre = [EUnary SNAP_METHOD_MOUNTS q p].
Proof. unfold rootfs_of. intros Hr. repeat case_match; destruct_and?; naive_solver. Qed.

Definition new_task_post (caddr : nat) (k : strim_container) (uri : option cstring) (c : client)
    (own : own_state) (tr : list event) : post (Z * option (nat * strim_task) * client) :=
  fun up' own' tr' '((rc, h), c') =>
  own' = own /\ up' = cl_h2c c' /\ task_made c c' rc h /\
  (forall addr t, h = Some (addr, t) -> tk_container t = caddr /\ tk_container_id t = ct_id k /\ tk_stdout_uri t = uri) /\
  exists es, tr' = tr ++ es /\ task_creation k uri rc es.

Lemma wp_create_task_with (caddr : nat) (k : strim_container) (mounts : list types_mount) (uri : option cstring)
    (pre : list event) (c0 c : client) (own : own_state) (tr : list event) :
  rootfs_of k pre mounts -> same_handles c0 c ->
  wp (cl_h2c c) own (tr ++ pre) (new_task_post caddr k uri c0 own tr) (create_task_with malloc caddr k mounts uri c).
Proof.
  intros Hp Hs0. unfold create_task_with. destruct (enc_create_task _) as [req|] eqn:Ereq.
  2:{ cbn. unfold new_task_post. conjs; [apply same_task_made; eauto with strim|]. exists pre. split; [done|].
      apply TC_not_asked; [eauto with strim|by eapply rootfs_calls]. }
  apply wp_shared_then. intros a c1 tr1 Hs Ha. pose proof (same_trans _ _ _ Hs0 Hs) as Hs1.
  assert (Hstop : forall rc, refused rc -> new_task_post caddr k uri c0 own tr (cl_h2c c1) own tr1 ((rc, None), c1)).
  { intros rc Hr. unfold new_task_post. conjs; [by apply same_task_made|].
    apply answered_ext in Ha as (es & -> & [(-> & _)| ->]); rewrite <- app_assoc; eexists; (split; [done|]).
    - rewrite app_nil_r. apply TC_not_asked; [done|by eapply rootfs_calls].
    - destruct Hr as [Hr Hr0]. by eapply TC_asked. }
  destruct (Z.eqb_spec a.1 0) as [E0|E0]; cbn [negb]; [|apply Hstop; eauto with strim].
  destruct (dec_create_task a.2) as [pid|]; [|apply Hstop; eauto with strim].
  destruct (malloc 40); cbn [negb]; [|apply Hstop; eauto with strim].
  unfold strdup. destruct (malloc _); [|apply Hstop; eauto with strim].
  cbn. unfold new_task_post. conjs; [by apply registered_task_made|by intros addr t [= _ <-]|].
  exists (pre ++ [EUnary M_TASKS_CREATE req a]). rewrite app_assoc. split; [by apply answered_ok|].
  eapply TC_asked; [done|done|by split|done].
Qed.

Definition log_uri (logfile : option cstring) : option cstring :=
  match logfile with Some (b :: path) => Some (lit "file://" ++ b :: path) | _ => None end.

Lemma wp_new_task (caddr : nat) (k : strim_container) (logfile : option cstring) (c : client) (own : own_state)
    (tr : list event) :
  wp (cl_h2c c) own tr (new_task_post caddr k (log_uri logfile) c own tr)
    (new_task_locked malloc caddr k logfile c).
Proof.
  unfold new_task_locked. apply wp_then. eapply wp_mono; [apply wp_task_rootfs|].
  intros up1 own1 tr1 [r c1] (-> & -> & Hs & es & -> & Hr). cbn [fst snd]. destruct r as [rc|mounts].
  { destruct Hr as [Hr He]. cbn. unfold new_task_post. conjs; [by apply same_task_made|]. exists es.
    split; [done|]. by apply TC_not_asked. }
  destruct logfile as [[|b path]|]; try (by apply wp_create_task_with).
  unfold logfile_uri. destruct (malloc _); [by apply wp_create_task_with|].
  cbn. unfold new_task_post. conjs; [apply same_task_made; eauto with strim|]. exists es. split; [done|].
  apply TC_not_asked; [eauto with strim|by eapply rootfs_calls].
Qed.

Lemma wp_load_task (caddr : nat) (k : strim_container) (c : client) (own : own_state) (tr : list event) :
  wp (cl_h2c c) own tr (fun up' own' tr' '((rc, h), c') =>
    own' = own /\ up' = cl_h2c c' /\ task_made c c' rc h /\
    (forall addr t, h = Some (addr, t) ->
       tk_container t = caddr /\ tk_container_id t = ct_id k /\ tk_stdout_uri t = None))
    (load_task_locked malloc caddr k c).
Proof.
  unfold load_task_locked. destruct (enc_get_task (ct_id k)) as [req|].
  2:{ cbn. conjs. }
  apply wp_shared_then. intros a c1 tr1 Hs Ha.
  assert (Hstop : forall rc, refused rc -> task_made c c1 rc None) by (intros; by apply same_task_made).
  destruct (Z.eqb_spec a.1 0) as [E0|E0]; cbn [negb]; [|cbn; conjs].
  destruct (dec_get_task a.2) as [pid|]; [|cbn; conjs].
  destruct (malloc 40); cbn [negb]; [|cbn; conjs].
  unfold strdup. destruct (malloc _); [|cbn; conjs].
  cbn. conjs; [by apply registered_task_made|by intros addr t [= _ <-]].
Qed.

End Specs.

Section Specs.
Context `{Codecs}.

(** ** Starting, killing and waiting *)

(** One call, whose answer alone decides the code. *)
Definition asked (method : cstring) (req : option bytes) (code : Z -> Z) (c : client) (own : own_state)
    (tr : list event) : post (Z * client) := fun up' own' tr' '(rc, c') =>
  own' = own /\ up' = cl_h2c c' /\ same_handles c c' /\
  match req with
  | None => tr' = tr /\ rc = code STRIM_CTRD_ERR_NOMEM
  | Some req => exists a, answered tr method req a tr' /\ rc = code a.1
  end.

Lemma wp_kill (t : strim_task) (signum : Z) (all : bool) (c : client) (own : own_state) (tr : list event) :
  wp (cl_h2c c) own tr
    (asked M_TASKS_KILL (enc_kill_task (tk_container_id t) (u32 signum) all) (fun rc => rc) c own tr)
    (kill_locked t signum all c).
Proof.
  unfold kill_locked, asked. destruct (enc_kill_task _ _ _) as [req|].
  - apply wp_shared_then. intros a c1 tr1 Hs Ha. cbn. conjs.
  - cbn. conjs.
Qed.

Lemma wp_task_start (t : strim_task) (c : client) (own : own_state) (tr : list event) :
  wp (cl_h2c c) own tr (fun up' own' tr' '(rc, c') => public rc /\
    own' = own /\ up' = cl_h2c c' /\ same_handles c c' /\
    (rc = 0 -> exists req a, enc_start_task (tk_container_id t) = Some req /\ a.1 = 0 /\
                 tr' = tr ++ [EUnary M_TASKS_START req a]))
    (task_start_locked t c).
Proof.
  unfold task_start_locked. destruct (enc_start_task _) as [req|] eqn:Er.
  - apply wp_shared_then. intros a c1 tr1 Hs Ha. cbn. destruct (map_rpc_public a.1) as [Hp H0]. conjs.
    intros Hz. apply H0 in Hz. exists req, a. conjs. by apply answered_ok.
  - cbn. conjs.
Qed.

Definition kill_code (rc : Z) : Z := if rc =? H2C_STATUS_NOT_FOUND then 0 else map_rpc_err rc.

Lemma kill_code_public (rc : Z) : public (kill_code rc).
Proof. unfold kill_code. case_match; [done|]. apply map_rpc_public. Qed.

Lemma wp_task_kill (h : nat * strim_task) (signum : Z) (c : client) (own : own_state) (tr : list event) :
  wp (cl_h2c c) own tr
    (asked M_TASKS_KILL (enc_kill_task (tk_container_id h.2) (u32 signum) false) kill_code c own tr)
    (strim_containerd_task_kill (Some h) signum c).
Proof.
  destruct h as [addr t]. unfold strim_containerd_task_kill. apply wp_then. eapply wp_mono; [apply wp_kill|].
  intros up1 own1 tr1 [rc c1] (-> & -> & Hs & Hr). cbn [fst snd].
  assert (Hret : forall rc', rc' = kill_code rc ->
    asked M_TASKS_KILL (enc_kill_task (tk_container_id t) (u32 signum) false) kill_code c own tr (cl_h2c c1) own tr1 (rc', c1)).
  { intros rc' ->. unfold asked. conjs. destruct (enc_kill_task _ _ _) as [req|]; [|by destruct Hr as [-> ->]].
    destruct Hr as (a & Ha & ->). eauto. }
  unfold kill_code in Hret. destruct (rc =? H2C_STATUS_NOT_FOUND); by apply Hret.
Qed.

(** The wait has a connection of its own and gives it back. *)
Definition wait_post (t : strim_task) (timeout : Z) (c : client) (up : bool) (tr : list event)
  : post (Z * option Z * client) := fun up' own' tr' '((rc, code), c') =>
  c' = c /\ up' = up /\ own' = OwnNone /\
  ((tr' = tr /\ refused rc /\ rc <> STRIM_CTRD_ERR_NOTFOUND /\ rc <> STRIM_CTRD_ERR_TIMEOUT /\ code = None) \/
   exists req a, enc_wait_task (tk_container_id t) = Some req /\
     tr' = tr ++ [EOwn M_TASKS_WAIT req timeout a] /\
     ((a.1 <> 0 /\ rc = map_grpc_err a.1 /\ code = None) \/
      (a.1 = 0 /\ dec_wait_task a.2 = None /\ rc = STRIM_CTRD_ERR_PROTO /\ code = None) \/
      exists status, a.1 = 0 /\ dec_wait_task a.2 = Some status /\ rc = 0 /\ code = Some (to_int status))).

Lemma wp_task_wait (t : strim_task) (timeout : Z) (c : client) (up : bool) (tr : list event) :
  wp up OwnNone tr (wait_post t timeout c up tr) (task_wait t timeout c).
Proof.
  unfold task_wait. apply wp_then. cbn [call wp]. split; [done|]. intros rc. cbn [fst snd].
  destruct (rc =? 0); cbn [negb].
  2:{ cbn. unfold wait_post. conjs. left. conjs. }
  destruct (enc_wait_task _) as [req|] eqn:Er.
  2:{ cbn. split; [done|]. unfold wait_post. conjs; left; conjs. }
  apply wp_then. cbn [call wp]. split; [done|]. intros a. apply wp_then. cbn [call wp fst snd]. split; [done|].
  destruct (Z.eqb_spec a.1 0) as [E0|E0]; cbn [negb].
  - destruct (dec_wait_task a.2) as [status|] eqn:Ed; cbn; unfold wait_post; conjs; right; exists req, a; conjs;
      right; [right; exists status|left]; conjs.
  - cbn. unfold wait_post. conjs. right. exists req, a. conjs.
Qed.

Lemma wait_public (t : strim_task) (timeout : Z) (c : client) (up : bool) (tr : list event)
    up' own' tr' (rc : Z) (code : option Z) (c' : client) :
  wait_post t timeout c up tr up' own' tr' ((rc, code), c') -> public rc.
Proof.
  intros (_ & _ & _ & [(_ & [Hp _] & _)|(req & a & _ & _ & [(_ & -> & _)|[(_ & _ & -> & _)|(s & _ & _ & -> & _)]])]);
    [done|apply map_grpc_public|apply proto_refused|done].
Qed.

(** ** Deleted tasks *)

(** What comes before Tasks/Delete. *)
Definition stopped (t : strim_task) (force : bool) (pre : list event) : Prop :=
  if force then
    exists kreq ka wreq wa,
      pre = [EUnary M_TASKS_KILL kreq ka; EOwn M_TASKS_WAIT wreq CTRD_FORCE_KILL_WAIT_MS wa] /\
      enc_kill_task (tk_container_id t) SIGKILL true = Some kreq /\ (ka.1 = 0 \/ ka.1 = H2C_STATUS_NOT_FOUND) /\
      enc_wait_task (tk_container_id t) = Some wreq /\
      (map_grpc_err wa.1 = 0 \/ map_grpc_err wa.1 = STRIM_CTRD_ERR_NOTFOUND \/
       map_grpc_err wa.1 = STRIM_CTRD_ERR_TIMEOUT)
  else pre = [].

Definition is_task_delete (e : event) : Prop :=
  match e with EUnary m _ _ => m = M_TASKS_DELETE | _ => False end.

Inductive task_deletion (t : strim_task) (force : bool) : Z -> bool -> list event -> Prop :=
  | TD_not_asked rc es : refused rc -> Forall (fun e => ~ is_task_delete e) es -> task_deletion t force rc false es
  | TD_asked pre req a : stopped t force pre -> enc_delete_task (tk_container_id t) = Some req ->
      task_deletion t force (kill_code a.1) (a.1 =? 0) (pre ++ [EUnary M_TASKS_DELETE req a]).

Definition task_delete_post (addr : nat) (t : strim_task) (force : bool) (c : client) (tr : list event)
  : post (Z * client) := fun up' own' tr' '(rc, c') =>
  own' = OwnNone /\ up' = cl_h2c c' /\
  exists freed es, tr' = tr ++ es /\ task_deletion t force rc freed es /\
    cl_namespace c' = cl_namespace c /\
    lists c' = lists (if (freed : bool) then with_tasks (unregister addr (cl_tasks c)) c else c).

Lemma stopped_no_delete (t : strim_task) (force : bool) (pre : list event) :
  stopped t force pre -> Forall (fun e => ~ is_task_delete e) pre.
Proof.
  destruct force; cbn; [|by intros ->]. intros (kreq & ka & wreq & wa & -> & _). repeat constructor.
  - cbn. apply (bool_decide_unpack _). vm_compute. exact I.
  - intros [].
Qed.

Lemma wp_delete_task_record (addr : nat) (t : strim_task) (force : bool) (pre : list event) (c0 c : client)
    (tr : list event) :
  stopped t force pre -> same_handles c0 c ->
  wp (cl_h2c c) OwnNone (tr ++ pre) (task_delete_post addr t force c0 tr) (delete_task_record addr t c).
Proof.
  intros Hp Hs0. unfold delete_task_record. destruct (enc_delete_task _) as [req|] eqn:Ereq.
  2:{ cbn. unfold task_delete_post. conjs. exists false, pre. destruct Hs0 as [Hl Hn]. conjs.
      constructor; [eauto with strim|by eapply stopped_no_delete]. }
  apply wp_shared_then. intros a c1 tr1 Hs Ha. pose proof (same_trans _ _ _ Hs0 Hs) as [Hl Hn].
  assert (Hkeep : a.1 <> 0 -> task_delete_post addr t force c0 tr (cl_h2c c1) OwnNone tr1 (kill_code a.1, c1)).
  { intros E0. unfold task_delete_post. conjs.
    apply answered_ext in Ha as (es & -> & [(-> & Ha)| ->]); rewrite <- app_assoc; exists false; eexists; conjs.
    - rewrite app_nil_r. constructor; [|by eapply stopped_no_delete]. rewrite Ha. apply connect_refused.
    - apply Z.eqb_neq in E0 as <-. by constructor. }
  destruct (Z.eqb_spec a.1 H2C_STATUS_NOT_FOUND) as [E5|E5].
  { replace 0 with (kill_code a.1) by (unfold kill_code; by rewrite E5). apply Hkeep. by rewrite E5. }
  destruct (Z.eqb_spec a.1 0) as [E0|E0]; cbn [negb].
  - cbn. unfold task_delete_post, lists in *. injection Hl as Hi Hc Ht Hst Hnx. cbn. conjs.
    exists true, (pre ++ [EUnary M_TASKS_DELETE req a]). rewrite app_assoc. conjs; [by apply answered_ok| |cbn; congruence].
    replace true with (a.1 =? 0) by (by rewrite E0).
    replace 0 with (kill_code a.1) at 1 by (by rewrite E0). by constructor.
  - replace (map_rpc_err a.1) with (kill_code a.1); [by apply Hkeep|]. unfold kill_code.
    apply Z.eqb_neq in E5. by rewrite E5.
Qed.

Lemma kill_not_delete (req : bytes) (a : Z * bytes) : ~ is_task_delete (EUnary M_TASKS_KILL req a).
Proof. cbn. apply (bool_decide_unpack _). vm_compute. exact I. Qed.

Lemma wp_task_delete (addr : nat) (t : strim_task) (force : bool) (c : client) (tr : list event) :
  wp (cl_h2c c) OwnNone tr (task_delete_post addr t force c tr) (task_delete_locked addr t force c).
Proof.
  unfold task_delete_locked. destruct force.
  2:{ rewrite <- (app_nil_r tr) at 1. by apply wp_delete_task_record. }
  apply wp_then. eapply wp_mono; [apply wp_kill|].
  intros up1 own1 tr1 [rc c1] (-> & -> & Hs & Hr). cbn [fst snd].
  assert (Hstop : forall rc' c' es, refused rc' -> same_handles c c' -> Forall (fun e => ~ is_task_delete e) es ->
    task_delete_post addr t true c tr (cl_h2c c') OwnNone (tr ++ es) (rc', c')).
  { intros rc' c' es Hr' [Hl Hn] Hes. unfold task_delete_post. conjs. exists false, es. conjs. by constructor. }
  assert (Hes : exists es, tr1 = tr ++ es /\ Forall (fun e => ~ is_task_delete e) es /\
    (rc = 0 \/ rc = H2C_STATUS_NOT_FOUND -> exists kreq ka, es = [EUnary M_TASKS_KILL kreq ka] /\ rc = ka.1 /\
       enc_kill_task (tk_container_id t) SIGKILL true = Some kreq)).
  { change (u32 SIGKILL) with SIGKILL in Hr. destruct (enc_kill_task _ SIGKILL true) as [kreq|].
    - destruct Hr as (ka & Ha & ->). apply answered_ext in Ha as (es & -> & [(-> & Ha)| ->]); eexists; conjs.
      + rewrite Ha. by intros [?|?].
      + constructor; [apply kill_not_delete|constructor].
    - destruct Hr as [-> ->]. exists []. rewrite app_nil_r. conjs. by intros [?|?]. }
  destruct Hes as (es & -> & Hes & Hk).
  destruct (bool_decide_reflect (rc = 0 \/ rc = H2C_STATUS_NOT_FOUND)) as [Hok|Hbad].
  2:{ replace (_ && _) with true by (destruct (Z.eqb_spec rc 0), (Z.eqb_spec rc H2C_STATUS_NOT_FOUND); tauto).
      apply Hstop; [apply map_rpc_refused; tauto|done|done]. }
  replace (_ && _) with false by (destruct Hok as [-> | ->]; done).
  destruct (Hk Hok) as (kreq & ka & -> & -> & Ekill).
  apply wp_then. eapply wp_mono; [apply wp_task_wait|].
  intros up2 own2 tr2 [[w code] c2] Hw. pose proof (wait_public _ _ _ _ _ _ _ _ _ _ _ Hw) as Hpub.
  destruct Hw as (-> & -> & -> & Hcase). cbn [fst snd].
  destruct (bool_decide_reflect (w = 0 \/ w = STRIM_CTRD_ERR_NOTFOUND \/ w = STRIM_CTRD_ERR_TIMEOUT)) as [Hwok|Hwbad].
  - replace (_ && _) with false by (destruct Hwok as [-> | [-> | ->]]; done).
    destruct Hcase as [(_ & [_ ?] & ? & ? & _)|(wreq & wa & Ew & -> & Hwa)]; [tauto|]. rewrite <- app_assoc.
    apply wp_delete_task_record; [|done]. exists kreq, ka, wreq, wa. conjs.
    destruct Hwa as [(_ & <- & _)|[(_ & _ & -> & _)|(s & Ha & _)]]; [done|by destruct Hwok as [?|[?|?]]|].
    left. by rewrite Ha.
  - replace (_ && _) with true by (destruct (Z.eqb_spec w 0), (Z.eqb_spec w STRIM_CTRD_ERR_NOTFOUND),
      (Z.eqb_spec w STRIM_CTRD_ERR_TIMEOUT); tauto).
    assert (refused w) by (split; tauto).
    destruct Hcase as [(-> & _)|(wreq & wa & _ & -> & _)]; [by apply Hstop|]. rewrite <- app_assoc.
    apply Hstop; [done|done|]. apply Forall_app. split; [done|]. constructor; [by intros []|constructor].
Qed.

End Specs.

Section Streams.
Context `{Codecs}.
Context (malloc : Z -> bool).

(** ** Event streams *)

Definition is_subscribe (e : event) : Prop :=
  match e with EOwn m _ _ _ => m = M_EVENTS_SUBSCRIBE | _ => False end.

(** A subscription keeps a connection of its own exactly when it succeeds. *)
Lemma wp_subscribe (filters : list cstring) (c : client) (up : bool) (tr : list event) :
  wp up OwnNone tr (fun up' own' tr' '((rc, h), c') => up' = up /\
    (exists es, tr' = tr ++ es /\ Forall is_subscribe es) /\
    match h with
    | None => refused rc /\ c' = c /\ own' = OwnNone
    | Some addr => rc = 0 /\ own' = OwnStream /\ addr = cl_next c /\
        c' = fresh (with_streams ((addr, EventStream false None) :: cl_streams c) c) /\
        exists req a, enc_subscribe filters = Some req /\ tr' = tr ++ [EOwn M_EVENTS_SUBSCRIBE req 0 (0, a)]
    end) (strim_containerd_subscribe malloc filters c).
Proof.
  assert (Hnil : exists es, tr = tr ++ es /\ Forall is_subscribe es) by (exists []; by rewrite app_nil_r).
  assert (Hone : forall req a, exists es, tr ++ [EOwn M_EVENTS_SUBSCRIBE req 0 a] = tr ++ es /\ Forall is_subscribe es).
  { intros req a. eexists. split; [done|]. by repeat constructor. }
  unfold strim_containerd_subscribe. destruct filters as [|f fs]; [cbn; conjs|].
  unfold subscribe_locked. apply wp_then. cbn [call wp]. split; [done|]. intros rc. cbn [fst snd].
  destruct (rc =? 0); cbn [negb]; [|cbn; conjs].
  destruct (enc_subscribe _) as [req|]; [|cbn; conjs].
  apply wp_then. cbn [call wp]. split; [done|]. intros rc'. cbn [fst snd].
  destruct (Z.eqb_spec rc' 0) as [->|E]; cbn [negb]; [|cbn; conjs].
  destruct (malloc 48); cbn; conjs.
Qed.

Definition stream_code (rc : Z) : Prop :=
  In rc [0; STRIM_CTRD_ERR_TIMEOUT; STRIM_CTRD_ERR_CLOSED; STRIM_CTRD_ERR_IO; STRIM_CTRD_ERR_NOMEM; STRIM_CTRD_ERR_PROTO].

(** What an answer of the transport means to the reader of the stream. *)
Definition next_answer (a : Z * bytes) (rc : Z) (e : option strim_event_envelope) : Prop :=
  (rc = 0 <-> a.1 = 0 /\ dec_envelope a.2 <> None /\ e <> None) /\
  (forall x, e = Some x -> exists m, dec_envelope a.2 = Some m /\ x = EventEnvelope m NotDecoded) /\
  (rc = STRIM_CTRD_ERR_TIMEOUT <-> a.1 = H2C_ERR_TIMEOUT) /\
  (rc = 0 \/ rc = STRIM_CTRD_ERR_TIMEOUT \/ a.1 <> 0 \/ dec_envelope a.2 = None \/ malloc 200 = false).

Lemma wp_stream_next (s : strim_event_stream) (timeout : Z) (c : client) (up : bool) (tr : list event) :
  es_closed s = false ->
  wp up OwnStream tr (fun up' own' tr' '((rc, s', e), c') =>
    up' = up /\ own' = OwnStream /\ c' = c /\ es_closed s' = false /\ stream_code rc /\
    (rc = 0 <-> e <> None) /\ (rc = 0 -> es_current s' = e) /\
    exists a, tr' = tr ++ [ENext timeout a] /\ next_answer a rc e) (strim_event_stream_next malloc s timeout c).
Proof.
  intros Hc. unfold strim_event_stream_next. rewrite Hc. apply wp_then. cbn [call wp]. split; [done|]. intros a.
  cbn [fst snd]. destruct (Z.eqb_spec a.1 0) as [E0|E0]; cbn [negb].
  - assert (Hdec : forall m, dec_envelope a.2 = Some m -> next_answer a 0 (Some (EventEnvelope m NotDecoded))).
    { intros m Ed. unfold next_answer. rewrite E0, Ed. split_and!; naive_solver. }
    assert (Hno : forall rc, rc <> 0 -> rc <> STRIM_CTRD_ERR_TIMEOUT -> dec_envelope a.2 = None \/ malloc 200 = false ->
      next_answer a rc None).
    { intros rc Hr Ht Hd. unfold next_answer. rewrite E0. split_and!; naive_solver. }
    destruct (es_current s) eqn:Ecur; [|destruct (malloc 200) eqn:Em; cbn [negb]].
    1,2: destruct (dec_envelope a.2) eqn:Ed; cbn; unfold stream_code; split_and!; cbn; try done; try tauto; exists a;
      (split; [done|]); first [by apply Hdec|by apply Hno; auto].
    cbn. unfold stream_code. split_and!; cbn; try done; try tauto. exists a. split; [done|]. by apply Hno; auto.
  - assert (Hno : forall rc, rc <> 0 -> (rc = STRIM_CTRD_ERR_TIMEOUT <-> a.1 = H2C_ERR_TIMEOUT) -> next_answer a rc None).
    { intros rc Hr Ht. unfold next_answer. split_and!; naive_solver. }
    cbn. destruct (Z.eqb_spec a.1 H2C_ERR_TIMEOUT) as [Et|Et]; [|destruct (a.1 =? H2C_ERR_CLOSED)];
      unfold stream_code; split_and!; cbn; try done; try tauto; exists a; (split; [done|]); apply Hno; try done; by split.
Qed.

(** Reading a stream some times. *)
Fixpoint read_events (timeouts : list Z) (s : strim_event_stream) : M strim_event_stream :=
  match timeouts with
  | [] => ret s
  | t :: ts => let! r := strim_event_stream_next malloc s t in read_events ts r.1.2
  end.

Lemma wp_read_events (timeouts : list Z) (s : strim_event_stream) (c : client) (up : bool) (tr : list event) :
  es_closed s = false ->
  wp up OwnStream tr (fun up' own' tr' '(s', c') =>
    up' = up /\ own' = OwnStream /\ c' = c /\ es_closed s' = false) (read_events timeouts s c).
Proof.
  revert s tr. induction timeouts as [|t ts IH]; intros s tr Hs; cbn [read_events]; [by cbn|].
  apply wp_then. eapply wp_mono; [by apply wp_stream_next|].
  intros up1 own1 tr1 [[[rc s'] e] c1] (-> & -> & -> & Hs' & _). cbn [fst snd]. by apply IH.
Qed.

Lemma wp_stream_close (addr : nat) (s : strim_event_stream) (c : client) (up : bool) (tr : list event) :
  es_closed s = false ->
  wp up OwnStream tr (fun up' own' tr' '(_, c') =>
    up' = up /\ own' = OwnNone /\ tr' = tr /\ c' = with_streams (unregister addr (cl_streams c)) c)
    (event_stream_close_locked addr s c).
Proof. intros Hs. unfold event_stream_close_locked. rewrite Hs. cbn. done. Qed.

End Streams.
