(* ===== verification/ClientSession.v ===== *)
(** * Sessions of the containerd client

    Any sequence of operations against any daemon: the handles stay distinct
    allocations, every code is a public one, no call is made on a connection
    that is down, and no connection of an operation's own is left behind. *)

From S2P Require Import Prelude Wire Controller Http Double Config EnvFile Json MiniPb Hash Spec StageOps Oci H2cState Snapshots Client ClientOps ClientFacts ClientSpecs ClientTasks.

(** ** Allocated handles *)

Definition addresses (c : client) : list nat :=
  (cl_images c).*1 ++ (cl_containers c).*1 ++ (cl_tasks c).*1 ++ (cl_streams c).*1.

(** No two handles share an address, and the next one is fresh. *)
Definition client_ok (c : client) : Prop :=
  NoDup (addresses c) /\ Forall (fun a => (a < cl_next c)%nat) (addresses c).

Lemma unregister_sublist {A} (a : nat) (l : list (nat * A)) : (unregister a l).*1 `sublist_of` l.*1.
Proof.
  induction l as [|[b x] l IH]; cbn; [constructor|]. destruct (a =? b)%nat; cbn.
  - by apply sublist_cons.
  - by apply sublist_skip.
Qed.

(** Fewer handles, or one new one. *)
Lemma ok_fewer (c c' : client) :
  client_ok c -> addresses c' `sublist_of` addresses c -> (cl_next c <= cl_next c')%nat -> client_ok c'.
Proof.
  intros [Hn Hf] Hs Hle. split; [by eapply sublist_NoDup|].
  apply Forall_forall. intros a Ha.
  pose proof (elem_of_sublist _ _ _ Ha Hs) as Ha'. eapply Forall_forall in Hf; [|exact Ha']. lia.
Qed.

Lemma ok_more (c c' : client) (a : nat) :
  client_ok c -> addresses c' ≡ₚ a :: addresses c -> (cl_next c <= a < cl_next c')%nat -> client_ok c'.
Proof.
  intros [Hn Hf] Hp Ha. unfold client_ok. rewrite Hp. split.
  - constructor; [|done]. intros Hin. eapply Forall_forall in Hf; [|exact Hin]. lia.
  - constructor; [lia|]. eapply Forall_impl; [exact Hf|]. cbn. lia.
Qed.

Lemma ok_same (c c' : client) : same_handles c c' -> client_ok c -> client_ok c'.
Proof. intros [Hl _] Hok. injection Hl as Hi Hc Ht Hst Hn. unfold client_ok, addresses. by rewrite Hi, Hc, Ht, Hst, Hn. Qed.

Lemma ok_container (c c' : client) (rc : Z) (h : option (nat * strim_container)) :
  container_made c c' rc h -> client_ok c -> client_ok c'.
Proof.
  intros (_ & Hi & Ht & Hst & Hn & Hh) Hok. destruct h as [[addr k]|].
  - destruct Hh as (_ & Ha & Hc). apply (ok_more c c' addr); [done| |lia]. unfold addresses. rewrite Hi, Ht, Hst, Hc.
    cbn. by rewrite <- Permutation_middle.
  - destruct Hh as [_ Hc]. apply (ok_fewer c); [done| |done]. unfold addresses. by rewrite Hi, Ht, Hst, Hc.
Qed.

Lemma ok_task (c c' : client) (rc : Z) (h : option (nat * strim_task)) :
  task_made c c' rc h -> client_ok c -> client_ok c'.
Proof.
  intros (_ & Hi & Hc & Hst & Hh) Hok. destruct h as [[addr t]|].
  - destruct Hh as (_ & Ha & Hn & Ht). apply (ok_more c c' addr); [done| |lia]. unfold addresses.
    rewrite Hi, Hc, Hst, Ht. cbn. by rewrite <- !Permutation_middle.
  - destruct Hh as (_ & Ht & Hn). apply (ok_fewer c); [done| |lia]. unfold addresses. by rewrite Hi, Ht, Hst, Hc.
Qed.

Lemma ok_freed_container (c : client) (addr : nat) :
  client_ok c -> client_ok (with_containers (unregister addr (cl_containers c)) c).
Proof.
  intros Hok. apply (ok_fewer c); [done| |done]. unfold addresses. cbn.
  repeat apply sublist_app; try done. apply unregister_sublist.
Qed.

Lemma ok_freed_task (c : client) (addr : nat) : client_ok c -> client_ok (with_tasks (unregister addr (cl_tasks c)) c).
Proof.
  intros Hok. apply (ok_fewer c); [done| |done]. unfold addresses. cbn.
  repeat apply sublist_app; try done. apply unregister_sublist.
Qed.

Lemma ok_lists (c c' : client) : lists c' = lists c -> client_ok c -> client_ok c'.
Proof. intros Hl Hok. injection Hl as Hi Hc Ht Hst Hn. unfold client_ok, addresses. by rewrite Hi, Hc, Ht, Hst, Hn. Qed.

(** ** Operations *)

Inductive operation :=
  | GetImage (ref : option cstring)
  | NewContainer (id snapshot_id image_name : option cstring) (spec : option strim_spec)
      (cdi : option strim_oci_cdi_edits)
  | LoadContainer (id : option cstring)
  | DeleteContainer (container : option (nat * strim_container)) (cleanup_snapshot : bool)
  | NewTask (container : option (nat * strim_container)) (logfile : option cstring)
  | LoadTask (container : option (nat * strim_container))
  | StartTask (task : option (nat * strim_task))
  | KillTask (task : option (nat * strim_task)) (signum : Z)
  | WaitTask (task : option (nat * strim_task)) (timeout : Z)
  | DeleteTask (task : option (nat * strim_task)) (force : bool).

Section Session.
Context `{Codecs}.
Context (malloc realloc : Z -> bool) (yyjson_read : bytes -> option jval) (want_arch : cstring)
  (passwd group : option bytes).

(** The code of an operation. *)
Definition perform (o : operation) : M Z :=
  match o with
  | GetImage ref => let! r := strim_containerd_get_image malloc ref in ret r.1
  | NewContainer id snapshot_id image_name spec cdi =>
      let! r := strim_containerd_new_container malloc realloc yyjson_read want_arch passwd group id snapshot_id
                  image_name spec cdi in ret r.1
  | LoadContainer id => let! r := strim_containerd_load_container malloc id in ret r.1
  | DeleteContainer container cleanup => strim_containerd_delete_container malloc container cleanup
  | NewTask container logfile => let! r := strim_containerd_new_task malloc container logfile in ret r.1
  | LoadTask container => let! r := strim_containerd_load_task malloc container in ret r.1
  | StartTask task => strim_containerd_task_start task
  | KillTask task signum => strim_containerd_task_kill task signum
  | WaitTask task timeout => let! r := strim_containerd_task_wait task timeout in ret r.1
  | DeleteTask task force => strim_containerd_task_delete task force
  end.

Fixpoint session (os : list operation) : M (list Z) :=
  match os with
  | [] => ret []
  | o :: os => let! rc := perform o in let! rcs := session os in ret (rc :: rcs)
  end.

Definition good : post (Z * client) := fun up' own' tr' '(rc, c') =>
  public rc /\ own' = OwnNone /\ up' = cl_h2c c' /\ client_ok c'.

Lemma made_public (c c' : client) (rc : Z) (h : option (nat * strim_container)) : container_made c c' rc h -> public rc.
Proof. intros (_ & _ & _ & _ & _ & Hh). destruct h as [[]|]; [by destruct Hh as [-> _]|apply Hh]. Qed.

Lemma task_made_public (c c' : client) (rc : Z) (h : option (nat * strim_task)) : task_made c c' rc h -> public rc.
Proof. intros (_ & _ & _ & _ & Hh). destruct h as [[]|]; [by destruct Hh as [-> _]|apply Hh]. Qed.

Lemma wp_code {A} (m : M (Z * A)) (c : client) (up : bool) (own : own_state) (tr : list event) (Q : post (Z * client)) :
  wp up own tr (fun up' own' tr' r => Q up' own' tr' (r.1.1, r.2)) (m c) ->
  wp up own tr Q ((let! r := m in ret r.1) c).
Proof. intros Hm. apply wp_then. eapply wp_mono; [exact Hm|]. by intros up1 own1 tr1 [[rc a] c1]. Qed.

Lemma badarg_good (c : client) (tr : list event) :
  client_ok c -> good (cl_h2c c) OwnNone tr (STRIM_CTRD_ERR_BADARG, c).
Proof. intros Hok. unfold good, public, STRIM_CTRD_ERR_BADARG. split_and!; try done; lia. Qed.

Lemma wp_perform (o : operation) (c : client) (tr : list event) :
  client_ok c -> wp (cl_h2c c) OwnNone tr good (perform o c).
Proof.
  intros Hok. pose proof (badarg_good c tr Hok) as Hbad.
  destruct o as [ref|id sid name spec cdi|id|h cleanup|h logfile|h|h|h signum|h timeout|h force]; cbn [perform].
  - apply wp_code. destruct ref as [ref|]; [|exact Hbad]. eapply wp_mono; [apply wp_get_image|].
    intros up1 own1 tr1 [[rc h] c1] (-> & -> & _ & Hh). unfold good. cbn. destruct h as [[a i]|].
    + destruct Hh as (_ & -> & _ & -> & Hl). conjs. injection Hl as Hi Hc Ht Hst Hn.
      apply (ok_more c c1 (cl_next c)); [done| |lia]. unfold addresses. by rewrite Hi, Hc, Ht, Hst.
    + destruct Hh as ([Hr _] & Hs & _). conjs. by eapply ok_same.
  - apply wp_code. destruct id as [id|], sid as [sid|], name as [name|], spec as [spec|]; try exact Hbad.
    eapply wp_mono; [apply wp_new_container_locked|].
    intros up1 own1 tr1 [[rc h] c1] (-> & -> & Hm & _). unfold good. cbn.
    conjs; [by eapply made_public|by eapply ok_container].
  - apply wp_code. destruct id as [id|]; [|exact Hbad]. eapply wp_mono; [apply wp_load_container|].
    intros up1 own1 tr1 [[rc h] c1] (-> & -> & Hm & _). unfold good. cbn.
    conjs; [by eapply made_public|by eapply ok_container].
  - destruct h as [[addr k]|]; [|exact Hbad]. eapply wp_mono; [apply wp_delete_container|].
    intros up1 own1 tr1 [rc c1] (-> & -> & Hc & _). unfold good. destruct (Z.eqb_spec rc 0) as [->|E].
    + destruct Hc as [Hl _]. conjs. eapply ok_lists; [exact Hl|]. by apply ok_freed_container.
    + destruct Hc as [[Hr _] Hs]. conjs. by eapply ok_same.
  - apply wp_code. destruct h as [[addr k]|]; [|exact Hbad]. eapply wp_mono; [apply wp_new_task|].
    intros up1 own1 tr1 [[rc h] c1] (-> & -> & Hm & _). unfold good. cbn.
    conjs; [by eapply task_made_public|by eapply ok_task].
  - apply wp_code. destruct h as [[addr k]|]; [|exact Hbad]. eapply wp_mono; [apply wp_load_task|].
    intros up1 own1 tr1 [[rc h] c1] (-> & -> & Hm & _). unfold good. cbn.
    conjs; [by eapply task_made_public|by eapply ok_task].
  - destruct h as [[addr t]|]; [|exact Hbad]. eapply wp_mono; [apply wp_task_start|].
    intros up1 own1 tr1 [rc c1] (Hp & -> & -> & Hs & _). unfold good. conjs. by eapply ok_same.
  - destruct h as [[addr t]|]; [|exact Hbad]. eapply wp_mono; [apply wp_task_kill|].
    intros up1 own1 tr1 [rc c1] (-> & -> & Hs & Hr). unfold good. conjs; [|by eapply ok_same].
    destruct (enc_kill_task _ _ _); [destruct Hr as (a & _ & ->)|destruct Hr as [_ ->]]; apply kill_code_public.
  - apply wp_code. destruct h as [[addr t]|]; [|exact Hbad]. eapply wp_mono; [apply wp_task_wait|].
    intros up1 own1 tr1 [[rc code] c1] Hw. unfold good. cbn. split; [by eapply wait_public|].
    destruct Hw as (-> & -> & -> & _). conjs.
  - destruct h as [[addr t]|]; [|exact Hbad]. eapply wp_mono; [apply wp_task_delete|].
    intros up1 own1 tr1 [rc c1] (-> & -> & freed & es & _ & Hd & _ & Hl). unfold good. conjs.
    + destruct Hd as [rc es [Hr _] _|pre req a _ _]; [done|apply kill_code_public].
    + eapply ok_lists; [exact Hl|]. destruct freed; [by apply ok_freed_task|done].
Qed.

Lemma wp_session (os : list operation) (c : client) (tr : list event) :
  client_ok c ->
  wp (cl_h2c c) OwnNone tr (fun up' own' tr' '(rcs, c') =>
    Forall public rcs /\ length rcs = length os /\ own' = OwnNone /\ up' = cl_h2c c' /\ client_ok c') (session os c).
Proof.
  revert c tr. induction os as [|o os IH]; intros c tr Hok; cbn [session]; [by cbn|].
  apply wp_then. eapply wp_mono; [by apply wp_perform|].
  intros up1 own1 tr1 [rc c1] (Hp & -> & -> & Hok1). cbn [fst snd].
  apply wp_then. eapply wp_mono; [by apply IH|].
  intros up2 own2 tr2 [rcs c2] (Hps & Hl & -> & -> & Hok2). cbn. conjs.
Qed.

(** ** The properties *)

(** C7: whatever sequence of operations is performed on a connected client,
    and whatever the daemon answers or however the transport fails: every
    operation answers a public code (0 to -9); no call is made on a shared
    connection that is down and none is dialled while one is up; every
    connection that an operation opens for itself is closed again; and the
    live handles are always distinct allocations, none of them at the next
    address. *)
Theorem sessions_are_safe (socket_path ns : option cstring) (c : client) (os : list operation) :
  strim_containerd_connect malloc socket_path ns = (0, Some c) ->
  wp (cl_h2c c) OwnNone [] (fun up' own' tr' '(rcs, c') =>
    Forall public rcs /\ length rcs = length os /\ own' = OwnNone /\ up' = cl_h2c c' /\ client_ok c') (session os c).
Proof.
  intros Hc. apply wp_session. unfold strim_containerd_connect in Hc. repeat case_match; simplify_eq.
  split; constructor.
Qed.


(** deleting a container removes its snapshot first when that is asked
    and the container has one, and the container itself is deleted only when
    the removal answered OK or NotFound; the code is that of the call that
    failed, and the handle is freed exactly when the code is 0. *)
Theorem snapshot_is_removed_first (addr : nat) (k : strim_container) (cleanup : bool) (c : client) :
  wp (cl_h2c c) OwnNone [] (fun up' own' es '(rc, c') =>
    own' = OwnNone /\ up' = cl_h2c c' /\ deletion malloc k cleanup rc es /\
    (if rc =? 0 then lists c' = lists (with_containers (unregister addr (cl_containers c)) c)
     else lists c' = lists c)) (strim_containerd_delete_container malloc (Some (addr, k)) cleanup c).
Proof.
  eapply wp_mono; [apply wp_delete_container|].
  intros up1 own1 tr1 [rc c1] (-> & -> & Hc & es & -> & Hd). conjs. destruct (rc =? 0); apply Hc.
Qed.

(** a task is created with the mounts that the snapshotter answered for
    the container's own snapshot (none when it has no snapshot) and with the
    log file as both outputs; Tasks/Create is the last call made, and the
    handle is made exactly on success. *)
Theorem task_runs_on_its_snapshot (caddr : nat) (k : strim_container) (logfile : option cstring) (c : client) :
  wp (cl_h2c c) OwnNone [] (fun up' own' es '((rc, h), c') =>
    own' = OwnNone /\ up' = cl_h2c c' /\ task_made c c' rc h /\
    (forall addr t, h = Some (addr, t) ->
       tk_container t = caddr /\ tk_container_id t = ct_id k /\ tk_stdout_uri t = log_uri logfile) /\
    task_creation malloc k (log_uri logfile) rc es)
    (strim_containerd_new_task malloc (Some (caddr, k)) logfile c).
Proof.
  eapply wp_mono; [apply wp_new_task|].
  intros up1 own1 tr1 [[rc h] c1] (-> & -> & Hm & Ht & es & -> & Hes). conjs.
Qed.

(** deleting a task by force kills all its processes with SIGKILL, then
    waits at most ten seconds on a connection of its own, and only then
    deletes it; a kill or a wait that failed otherwise than with NotFound (or,
    for the wait, the timeout) stops it before the deletion.  The handle is
    freed exactly when Tasks/Delete answered OK. *)
Theorem forced_delete_kills_first (addr : nat) (t : strim_task) (force : bool) (c : client) :
  wp (cl_h2c c) OwnNone [] (fun up' own' es '(rc, c') =>
    own' = OwnNone /\ up' = cl_h2c c' /\
    exists freed, task_deletion t force rc freed es /\
      lists c' = lists (if (freed : bool) then with_tasks (unregister addr (cl_tasks c)) c else c))
    (strim_containerd_task_delete (Some (addr, t)) force c).
Proof.
  eapply wp_mono; [apply wp_task_delete|].
  intros up1 own1 tr1 [rc c1] (-> & -> & freed & es & -> & Hd & _ & Hl). conjs.
Qed.

(** a subscription that fails gives its connection back and leaves the
    client as it was; one that succeeds has its connection until the stream is
    closed, however often and with whatever outcome the stream is read in
    between, and after the close the client's handles are the ones it had. *)
Theorem stream_gives_its_connection_back (filters : list cstring) (timeouts : list Z) (c : client) (up : bool) :
  wp up OwnNone [] (fun up' own' _ '(rc, c') =>
    up' = up /\ own' = OwnNone /\ public rc /\ cl_streams c' = cl_streams c /\ cl_tasks c' = cl_tasks c /\
    cl_containers c' = cl_containers c /\ cl_images c' = cl_images c)
    ((let! r := strim_containerd_subscribe malloc filters in
      match r.2 with
      | None => ret r.1
      | Some addr =>
          let! s := read_events malloc timeouts (EventStream false None) in
          strim_event_stream_close (Some (addr, s)) ;! ret r.1
      end) c).
Proof.
  apply wp_then. eapply wp_mono; [apply wp_subscribe|].
  intros up1 own1 tr1 [[rc h] c1] (-> & _ & Hh). cbn [fst snd]. destruct h as [addr|].
  - destruct Hh as (-> & -> & -> & -> & _). apply wp_then. eapply wp_mono; [by apply wp_read_events|].
    intros up2 own2 tr2 [s c2] (-> & -> & -> & Hs). cbn [fst snd].
    apply wp_then. eapply wp_mono; [by apply wp_stream_close|].
    intros up3 own3 tr3 [[] c3] (-> & -> & -> & ->). cbn. rewrite Nat.eqb_refl. conjs.
  - destruct Hh as ([Hp _] & -> & ->). cbn. conjs.
Qed.

End Session.
