(* ===== verification/Listener.v ===== *)
(** * The containerd event listener (main.c, containerd_listener_thread_fn)

    The thread subscribes to the task events, reads the stream until it fails
    or a shutdown is signalled, and submits a stage event for each task event
    of a known container.  The shutdown flag is read before each iteration:
    [sig] is what those reads see, and the flag is set once they are used up.
    The result is the list of submitted events; a refused submission is only
    logged. *)

From S2P Require Import Prelude Wire Controller Wiring Http Double Config EnvFile Json MiniPb Hash Spec StageOps Oci H2cState Snapshots Client ClientOps ClientFacts ClientTasks.

Definition LISTENER_FILTER : cstring := lit "topic~=" ++ [34] ++ lit "/tasks/.*" ++ [34].
Definition LISTENER_SLICE_MS : Z := 250.

Section Listener.
Context `{Codecs}.
Variable malloc : Z -> bool.

(** The stage event of a delivered envelope, if any. *)
Definition envelope_event (table : list strim_stage_table_entry) (env : option strim_event_envelope)
  : option strim_stage_event :=
  let '(kind, env) := strim_event_get_kind env in
  match kind with
  | STRIM_EVENT_OTHER => None
  | _ =>
      let '(n, cid) := strim_event_container_id env STRIM_CFG_ID_MAX in
      if n <? 0 then None else stage_event_of_envelope table kind cid
  end.

Fixpoint listen (table : list strim_stage_table_entry) (sig : list bool) (stream : strim_event_stream)
  : M (strim_event_stream * list strim_stage_event) :=
  match sig with
  | [] | true :: _ => ret (stream, [])
  | false :: sig =>
      let! r := strim_event_stream_next malloc stream LISTENER_SLICE_MS in
      let rc := r.1.1 in let stream := r.1.2 in
      if rc =? STRIM_CTRD_ERR_TIMEOUT then listen table sig stream
      else if rc =? STRIM_CTRD_ERR_CLOSED then ret (stream, [])
      else if negb (rc =? 0) then ret (stream, [])
      else
        let! rest := listen table sig stream in
        ret (rest.1, match envelope_event table r.2 with Some e => e :: rest.2 | None => rest.2 end)
  end.

Definition containerd_listener_thread_fn (has_client : bool) (table : list strim_stage_table_entry) (sig : list bool)
  : M (list strim_stage_event) :=
  if negb has_client then ret []
  else
    let! r := strim_containerd_subscribe malloc [LISTENER_FILTER] in
    match r.2 with
    | None => ret []
    | Some addr =>
        let! l := listen table sig (EventStream false None) in
        strim_event_stream_close (Some (addr, l.1)) ;! ret l.2
    end.

(** ** What the listener is to report *)

(** A task event of a known container: started tasks run, exited ones have
    stopped.  The container id must fit the listener's buffer. *)
Definition task_event (table : list strim_stage_table_entry) (m : envelope_msg) : option strim_stage_event :=
  let report state (id : option (option cstring)) :=
    match id with
    | Some (Some id) =>
        if strlen id <? STRIM_CFG_ID_MAX then
          match find_first (fun e => streq (te_container_id e) id) table with
          | Some e => Some (StageEvent (te_stage e) state)
          | None => None
          end
        else None
    | _ => None
    end in
  match em_has_event m, em_value m with
  | true, Some payload =>
      if type_url_has_suffix (em_type_url m) EV_START_SUFFIX then report STRIM_STAGE_RUNNING (dec_task_start payload)
      else if type_url_has_suffix (em_type_url m) EV_EXIT_SUFFIX
      then report STRIM_STAGE_STOPPED (dec_task_exit payload)
      else None
  | _, _ => None
  end.

Lemma envelope_event_spec (table : list strim_stage_table_entry) (m : envelope_msg) :
  envelope_event table (Some (EventEnvelope m NotDecoded)) = task_event table m.
Proof.
  assert (Hlen : forall id : cstring, (strlen id <? 0) = false) by (intros id; apply Z.ltb_ge; unfold strlen; lia).
  assert (Hcap : forall id : cstring, (STRIM_CFG_ID_MAX <=? strlen id) = negb (strlen id <? STRIM_CFG_ID_MAX))
    by (intros id; by rewrite Z.leb_antisym).
  unfold envelope_event, task_event, strim_event_get_kind, strim_event_container_id, ensure_payload_decoded.
  cbn [ee_env ee_payload].
  destruct (type_url_has_suffix (em_type_url m) EV_START_SUFFIX), (type_url_has_suffix (em_type_url m) EV_EXIT_SUFFIX);
    cbn [orb]; destruct (em_has_event m), (em_value m) as [p|]; cbn [ee_payload ee_env]; try done.
  1,2: destruct (dec_task_start p) as [[id|]|]; cbn [ee_payload ee_env]; try done.
  3: destruct (dec_task_exit p) as [[id|]|]; cbn [ee_payload ee_env]; try done.
  all: change (STRIM_CFG_ID_MAX =? 0) with false; cbv iota; rewrite Hcap;
    destruct (strlen id <? STRIM_CFG_ID_MAX); cbn [negb]; [|done]; by rewrite Hlen.
Qed.

(** The envelopes among the stream's answers, up to its first failure. *)
Fixpoint heard (answers : list (Z * bytes)) : list envelope_msg :=
  match answers with
  | [] => []
  | a :: answers =>
      if a.1 =? H2C_ERR_TIMEOUT then heard answers
      else if a.1 =? 0 then match dec_envelope a.2 with Some m => m :: heard answers | None => [] end
      else []
  end.

(** An answer after which the listener reads on. *)
Definition goes_on (a : Z * bytes) : Prop :=
  a.1 = H2C_ERR_TIMEOUT \/ (a.1 = 0 /\ dec_envelope a.2 <> None).

End Listener.

Section Reports.
Context `{Codecs}.
Abbreviation memory := (fun _ : Z => true).

Lemma wp_listen (table : list strim_stage_table_entry) (sig : list bool) (s : strim_event_stream) (c : client)
    (up : bool) (tr : list event) :
  es_closed s = false ->
  wp up OwnStream tr (fun up' own' tr' '((s', evs), c') =>
    up' = up /\ own' = OwnStream /\ c' = c /\ es_closed s' = false /\
    exists answers, tr' = tr ++ map (ENext LISTENER_SLICE_MS) answers /\
      evs = omap (task_event table) (heard answers) /\ Forall goes_on (removelast answers))
    (listen memory table sig s c).
Proof.
  revert s tr. induction sig as [|b sig IH]; intros s tr Hs; cbn [listen].
  { cbn. conjs. exists []. by rewrite app_nil_r. }
  destruct b. { cbn. conjs. exists []. by rewrite app_nil_r. }
  apply wp_then. eapply wp_mono; [by apply wp_stream_next|].
  intros up1 own1 tr1 [[[rc s'] e] c1] (-> & -> & -> & Hs' & Hcode & He & _ & a & -> & (H0 & Hm & Ht & Hstop)).
  cbn [fst snd].
  assert (Hgo : forall answers, goes_on a -> Forall goes_on (removelast answers) -> Forall goes_on (removelast (a :: answers))).
  { intros [|a' answers] Ha Hl; [constructor|]. by constructor. }
  assert (Hlast : heard [a] = [] ->
    exists answers, tr ++ [ENext LISTENER_SLICE_MS a] = tr ++ map (ENext LISTENER_SLICE_MS) answers /\
      [] = omap (task_event table) (heard answers) /\ Forall goes_on (removelast answers)).
  { intros Hh. exists [a]. rewrite Hh. split_and!; [done|done|constructor]. }
  destruct (Z.eqb_spec rc STRIM_CTRD_ERR_TIMEOUT) as [Er|Er].
  { apply Ht in Er. eapply wp_mono; [by apply IH|].
    intros up2 own2 tr2 [[s2 evs] c2] (-> & -> & -> & Hs2 & answers & -> & -> & Hall). conjs.
    exists (a :: answers). rewrite <- app_assoc. split_and!; [done| |by apply Hgo; [left|]].
    cbn [heard]. by rewrite Er. }
  destruct (Z.eqb_spec rc 0) as [Ez|Ez]; cbn [negb].
  - assert (Hne : (rc =? STRIM_CTRD_ERR_CLOSED) = false) by (by rewrite Ez). rewrite Hne.
    destruct e as [x|]; [|by apply He in Ez]. destruct (Hm x eq_refl) as (m & Ed & ->).
    apply H0 in Ez as (Ea & _ & _).
    apply wp_then. eapply wp_mono; [by apply IH|].
    intros up2 own2 tr2 [[s2 evs] c2] (-> & -> & -> & Hs2 & answers & -> & -> & Hall). cbn. conjs.
    exists (a :: answers). rewrite <- app_assoc. split_and!; [done| |apply Hgo; [right|]; by rewrite ?Ed].
    cbn [heard]. rewrite Ea, Ed. cbn. by rewrite envelope_event_spec.
  - assert (Hh : heard [a] = []).
    { cbn [heard]. destruct (Z.eqb_spec a.1 H2C_ERR_TIMEOUT); [done|]. destruct (Z.eqb_spec a.1 0); [|done].
      destruct Hstop as [?|[?|[?|[->|?]]]]; done. }
    destruct (rc =? STRIM_CTRD_ERR_CLOSED); cbn; conjs.
Qed.

(** *** Against a daemon that accepts the subscription *)

(** Everything is accepted, and the reads of the stream are answered from a
    list (closed once it is used up). *)
Fixpoint accepts {A} (p : prog A) : list (Z * bytes) -> A * list (Z * bytes) :=
  match p with
  | Ret a => fun nexts => (a, nexts)
  | Do c k =>
      match c in rpc R return (R -> list (Z * bytes) -> A * list (Z * bytes)) -> list (Z * bytes) -> A * list (Z * bytes) with
      | Dial | OwnDial | OwnOpen _ _ => fun k => k 0
      | Hangup | OwnCloseStream | OwnHangup => fun k => k tt
      | Unary _ _ _ _ | OwnUnary _ _ _ _ => fun k => k (0, [])
      | OpenRead _ => fun k => k (inl H2C_ERR_IO)
      | OwnNext _ => fun k nexts =>
          match nexts with
          | [] => k (H2C_ERR_CLOSED, []) []
          | a :: nexts => k a nexts
          end
      end (fun r => accepts (k r))
  end.

Lemma accepts_bind {A B} (p : prog A) (f : A -> prog B) (nexts : list (Z * bytes)) :
  accepts (bind p f) nexts = let '(a, rest) := accepts p nexts in accepts (f a) rest.
Proof.
  revert nexts. induction p as [a|R c k IH]; intros nexts; [done|].
  destruct c; cbn; try apply IH. destruct nexts; apply IH.
Qed.

Lemma accepts_then {A B} (m : M A) (f : A -> M B) (c : client) (nexts : list (Z * bytes)) :
  accepts (then_ m f c) nexts = let '((a, c'), rest) := accepts (m c) nexts in accepts (f a c') rest.
Proof. unfold then_. rewrite accepts_bind. by destruct (accepts (m c) nexts) as [[a c'] rest]. Qed.

(** How often the listener may read before it sees the shutdown flag. *)
Fixpoint polls (sig : list bool) : nat :=
  match sig with false :: sig => S (polls sig) | _ => 0 end.

Lemma accepts_next (s : strim_event_stream) (t : Z) (c : client) (a : Z * bytes) (nexts : list (Z * bytes)) :
  es_closed s = false ->
  exists s', es_closed s' = false /\
    accepts (strim_event_stream_next memory s t c) (a :: nexts) =
    (((if a.1 =? 0 then match dec_envelope a.2 with Some _ => 0 | None => STRIM_CTRD_ERR_PROTO end
       else if a.1 =? H2C_ERR_TIMEOUT then STRIM_CTRD_ERR_TIMEOUT
       else if a.1 =? H2C_ERR_CLOSED then STRIM_CTRD_ERR_CLOSED else STRIM_CTRD_ERR_IO), s',
      (if a.1 =? 0 then (fun m => EventEnvelope m NotDecoded) <$> dec_envelope a.2 else None)), c, nexts).
Proof.
  intros Hs. unfold strim_event_stream_next. rewrite Hs, accepts_then. cbn [call accepts].
  destruct (a.1 =? 0); cbn [negb]; [|eexists; by split; [|reflexivity]].
  destruct (es_current s), (dec_envelope a.2); eexists; by split; [|reflexivity].
Qed.

Lemma accepts_listen (table : list strim_stage_table_entry) (sig : list bool) (s : strim_event_stream) (c : client)
    (nexts : list (Z * bytes)) :
  es_closed s = false -> length nexts = polls sig ->
  exists s' rest, es_closed s' = false /\
    accepts (listen memory table sig s c) nexts =
    ((s', omap (task_event table) (heard nexts)), c, rest).
Proof.
  revert s nexts. induction sig as [|b sig IH]; intros s nexts Hs Hl; cbn [polls listen] in *.
  { destruct nexts; [|done]. eexists _, _. by split. }
  destruct b; [destruct nexts; [|done]; eexists _, _; by split|].
  destruct nexts as [|a nexts]; [done|]. injection Hl as Hl.
  destruct (accepts_next s LISTENER_SLICE_MS c a nexts Hs) as (s1 & Hs1 & E).
  rewrite accepts_then, E. cbn [fst snd heard]. clear E.
  destruct (Z.eqb_spec a.1 0) as [E0|E0].
  - rewrite E0. change (0 =? H2C_ERR_TIMEOUT) with false. destruct (dec_envelope a.2) as [m|]; cbn.
    + destruct (IH s1 nexts Hs1 Hl) as (s2 & rest & Hs2 & E2). rewrite accepts_then, E2. cbn.
      rewrite envelope_event_spec. exists s2, rest. split; [done|]. by destruct (task_event table m).
    + eexists _, _. by split.
  - destruct (a.1 =? H2C_ERR_TIMEOUT); cbn; [by apply IH|].
    destruct (a.1 =? H2C_ERR_CLOSED); cbn; eexists _, _; by split.
Qed.

Lemma listener_accepted (table : list strim_stage_table_entry) (sig : list bool) (c : client) (req : bytes)
    (nexts : list (Z * bytes)) :
  enc_subscribe [LISTENER_FILTER] = Some req -> length nexts = polls sig ->
  (accepts (containerd_listener_thread_fn memory true table sig c) nexts).1.1 =
  omap (task_event table) (heard nexts).
Proof.
  intros He Hl. unfold containerd_listener_thread_fn. cbn [negb]. rewrite accepts_then.
  unfold strim_containerd_subscribe, subscribe_locked. rewrite accepts_then. cbn [call accepts Z.eqb negb]. rewrite He.
  rewrite accepts_then. cbn -[listen task_event heard LISTENER_FILTER].
  edestruct (accepts_listen table sig (EventStream false None)) as (s' & rest & Hs & E); [done|exact Hl|].
  rewrite accepts_then, E. cbn. unfold event_stream_close_locked. by rewrite Hs.
Qed.

(** C15: while memory lasts, whatever the daemon sends and however the stream
    ends, the listener submits exactly the stage events of the task events it
    heard, in order: a start or exit of a container in the stage table, whose
    id fits the listener's buffer, becomes Running or Stopped of that
    container's stage; everything else is passed over.  It reads on after
    every timeout and every message, up to the first other failure or
    undecodable message or until it sees the shutdown flag: once subscribed,
    with one answer for each read the flag leaves it, it reports every task
    event before the first failure.  The subscription's connection is given
    back and the client's handles are as before. *)
Theorem listener_reports_task_events (has_client : bool) (table : list strim_stage_table_entry) (sig : list bool) (c : client)
    (up : bool) :
  wp up OwnNone [] (fun up' own' tr' '(evs, c') =>
    up' = up /\ own' = OwnNone /\ cl_streams c' = cl_streams c /\ cl_tasks c' = cl_tasks c /\
    cl_containers c' = cl_containers c /\ cl_images c' = cl_images c /\
    exists opening answers, tr' = opening ++ map (ENext LISTENER_SLICE_MS) answers /\ Forall is_subscribe opening /\
      evs = omap (task_event table) (heard answers) /\ Forall goes_on (removelast answers))
    (containerd_listener_thread_fn memory has_client table sig c) /\
  forall req nexts,
    enc_subscribe [LISTENER_FILTER] = Some req -> length nexts = polls sig ->
    (accepts (containerd_listener_thread_fn memory true table sig c) nexts).1.1 =
    omap (task_event table) (heard nexts).
Proof.
  split; [|intros req nexts; apply listener_accepted].
  unfold containerd_listener_thread_fn. destruct has_client; cbn [negb].
  2:{ cbn. conjs. by exists [], []. }
  apply wp_then. eapply wp_mono; [apply wp_subscribe|].
  intros up1 own1 tr1 [[rc h] c1] (-> & (es & -> & Hes) & Hh). cbn [fst snd app]. destruct h as [addr|].
  - destruct Hh as (-> & -> & -> & -> & _). apply wp_then. eapply wp_mono; [by apply wp_listen|].
    intros up2 own2 tr2 [[s evs] c2] (-> & -> & -> & Hs & answers & -> & Hevs). cbn [fst snd].
    apply wp_then. eapply wp_mono; [by apply wp_stream_close|].
    intros up3 own3 tr3 [[] c3] (-> & -> & -> & ->). cbn. rewrite Nat.eqb_refl. conjs.
  - destruct Hh as (_ & -> & ->). cbn. conjs. exists es, []. by rewrite app_nil_r.
Qed.

End Reports.
