(* ===== verification/ClientScenario.v ===== *)
(** * The client against a concrete daemon

    [run] plays a program against a daemon that answers by a table.  What is
    proved for every daemon holds of each run; the runs show that the
    operations succeed. *)

From S2P Require Import Prelude Wire Controller Http Double Config EnvFile Json MiniPb Hash Spec StageOps Oci HttpFacts DurationFacts JsonFacts OciFacts OciText OciSpec H2cState Snapshots Client ClientOps ClientFacts ClientSpecs ClientTasks ClientSession Wiring Listener.

Record daemon := Daemon {
  d_dial : Z;
  d_unary : cstring -> bytes -> Z * bytes;
  d_read : bytes -> Z + stream_outcome;
  d_next : Z -> Z * bytes;
}.

Fixpoint run {A} (d : daemon) (p : prog A) : A :=
  match p with
  | Ret a => a
  | Do c k =>
      match c in rpc R return (R -> A) -> A with
      | Dial | OwnDial => fun k => k (d_dial d)
      | Hangup | OwnCloseStream | OwnHangup => fun k => k tt
      | Unary m req _ _ | OwnUnary m req _ _ => fun k => k (d_unary d m req)
      | OpenRead req => fun k => k (d_read d req)
      | OwnOpen m req => fun k => k (d_unary d m req).1
      | OwnNext t => fun k => k (d_next d t)
      end (fun r => run d (k r))
  end.

(** A daemon whose streams never end with a message. *)
Definition answers (d : daemon) : Prop := forall req, read_answer (d_read d req).

Lemma wp_run {A} (d : daemon) (p : prog A) (up : bool) (own : own_state) (tr : list event) (Q : post A) :
  answers d -> wp up own tr Q p -> exists up' own' tr', Q up' own' tr' (run d p).
Proof.
  intros Hd. revert up own tr. induction p as [a|R c k IH]; intros up own tr Hp; [eauto|].
  destruct c; cbn in *; destruct Hp as [_ Hp]; eauto.
Qed.

(** Codecs that write one string. *)
#[local] Instance plain : Codecs := {|
  enc_get_image := Some;
  dec_get_image b := Some (Some (Some b, None, 0));
  enc_create_container m := Some (cc_spec_value m);
  dec_create_container _ := true;
  enc_get_container := Some;
  dec_get_container b := Some (Some (Container b None None None (Some b)));
  enc_delete_container := Some;
  enc_create_task m := Some (ck_container_id m);
  dec_create_task b := Some (Z.of_nat (length b));
  enc_get_task := Some;
  dec_get_task b := Some (Z.of_nat (length b));
  enc_start_task := Some;
  enc_kill_task id _ _ := Some id;
  enc_wait_task := Some;
  dec_wait_task b := Some (Z.of_nat (length b));
  enc_delete_task := Some;
  enc_subscribe fs := Some (concat fs);
  dec_envelope b := Some (EnvelopeMsg true (Some b) (Some b));
  dec_task_start b := Some (Some b);
  dec_task_exit b := Some (Some b);
|}.

Definition memory (_ : Z) : bool := true.

Definition manifest : jval := JObj [(lit "config", JObj [(lit "digest", JStr (lit "sha256:c0"))])].
Definition image_config : jval :=
  JObj [ (lit "rootfs", JObj [(lit "diff_ids", JArr [JStr (lit "sha256:aa"); JStr (lit "sha256:bb")])]);
         (lit "config", JObj [(lit "Env", JArr [JStr (lit "PATH=/bin")])]) ].

Definition blob_message (j : jval) : stream_outcome :=
  StreamOutcome [message_bytes [PLen 2 (render j)]] H2C_ERR_STREAM_END.

(** It knows one image, whose blobs are above. *)
Definition containerd : daemon :=
  Daemon 0
    (fun m req => if bool_decide (m = M_IMAGES_GET) then (0, lit "sha256:m0") else (0, []))
    (fun req => inr (blob_message (if bool_decide (req = read_request memory (lit "sha256:m0")) then manifest else image_config)))
    (fun _ => (H2C_ERR_TIMEOUT, [])).

Lemma containerd_answers : answers containerd.
Proof. intros req. cbn. done. Qed.

Definition new_client : client := Client false (lit "strim") 0 [] [] [] [] 0.

(** Create the container, run a task in it and take both down again. *)
Definition lifetime : list operation :=
  let k := Container (lit "norm") (Some (lit "img")) (Some STRIM_CTRD_DEFAULT_RUNTIME)
             (Some STRIM_CTRD_DEFAULT_SNAPSHOTTER) (Some (lit "norm-snap")) in
  let t := Task 1 (lit "norm") None 0 in
  [ NewContainer (Some (lit "norm")) (Some (lit "norm-snap")) (Some (lit "img")) (Some gpu_spec) None;
    NewTask (Some (1%nat, k)) None; StartTask (Some (2%nat, t)); DeleteTask (Some (2%nat, t)) true;
    DeleteContainer (Some (1%nat, k)) true; StartTask None ].

Definition play (os : list operation) : list Z * client :=
  run containerd (session memory memory read_json (lit "amd64") None None os new_client).

Example lifetime_succeeds :
  (play lifetime).1 = [0; 0; 0; 0; 0; STRIM_CTRD_ERR_BADARG] /\ addresses (play lifetime).2 = [] /\
  addresses (play (take 2 lifetime)).2 = [1; 2]%nat.
Proof. vm_compute. done. Qed.

Lemma sessions_are_safe_witness :
  strim_containerd_connect memory (Some (lit "/run/containerd.sock")) (Some (lit "strim")) = (0, Some new_client) /\
  wp (cl_h2c new_client) OwnNone [] (fun up' own' tr' '(rcs, c') =>
    Forall public rcs /\ length rcs = length lifetime /\ own' = OwnNone /\ up' = cl_h2c c' /\ client_ok c')
    (session memory memory read_json (lit "amd64") None None lifetime new_client).
Proof.
  split; [reflexivity|].
  exact (sessions_are_safe memory memory read_json (lit "amd64") None None (Some (lit "/run/containerd.sock"))
           (Some (lit "strim")) new_client lifetime eq_refl).
Defined.

(** A quiet slice, the start of a known container, a quiet slice, the start
    of an unknown one, and the end of the stream. *)
Lemma listener_reports_task_events_witness :
  let known := lit "norm" ++ EV_START_SUFFIX in
  (accepts (containerd_listener_thread_fn memory true [StageTableEntry known STRIM_STAGE_NORMALIZE]
              [false; false; false; false; false; true] new_client)
     [(H2C_ERR_TIMEOUT, []); (0, known); (H2C_ERR_TIMEOUT, []); (0, EV_START_SUFFIX); (H2C_ERR_CLOSED, [])]).1.1 =
  [StageEvent STRIM_STAGE_NORMALIZE STRIM_STAGE_RUNNING].
Proof.
  exact (proj2 (listener_reports_task_events true [StageTableEntry (lit "norm" ++ EV_START_SUFFIX) STRIM_STAGE_NORMALIZE]
           [false; false; false; false; false; true] new_client false) LISTENER_FILTER
           [(H2C_ERR_TIMEOUT, []); (0, lit "norm" ++ EV_START_SUFFIX); (H2C_ERR_TIMEOUT, []); (0, EV_START_SUFFIX);
            (H2C_ERR_CLOSED, [])] eq_refl eq_refl).
Defined.
