(* ===== verification/Run.v ===== *)
(** * Start-up, shutdown and flags (main.c: run, main, the ticker)

    [run] as what it does to the long-lived objects and threads, in order.
    What it meets is the record [run_env]: the environment, memory, the
    results of the calls it makes, and the flags it sees while it waits.  The
    controller it builds is the one of [Wiring], the client the one of
    [ClientOps], the server the one of [HttpServer]. *)

From S2P Require Import Prelude Wire Controller ControllerFacts CtlSpec Wiring Http WsSlot HttpServer Double Config EnvFile Client ClientOps.

(** ** The lifecycle *)

Inductive thread := ControllerThread | ListenerThread | TickerThread | HttpThread.

#[global] Instance thread_eq_dec : EqDecision thread.
Proof. solve_decision. Defined.

(** What [run] does. *)
Inductive act :=
  | Connect                          (* strim_containerd_connect succeeded *)
  | NewController (c : strim_controller)
  | StartServer (s : strim_http_server)
  | Spawn (t : thread)               (* pthread_create succeeded *)
  | Signal                           (* g_sig_flag is set *)
  | ServerFailed                     (* g_http_fatal is set *)
  | RequestShutdown                  (* strim_http_server_shutdown_request *)
  | Join (t : thread)
  | BeginShutdown
  | WaitForOps
  | Teardown
  | CloseController
  | DestroyServer
  | DestroyController
  | CloseClient.

Record run_env := RunEnv {
  re_getenv : cstring -> option cstring;
  re_malloc : Z -> bool;
  re_junk : Z;                       (* uninitialised members of the routes *)
  re_new : new_oracle;
  re_start : start_env;
  re_create : thread -> bool;        (* pthread_create returns 0 *)
  re_polls : list (bool * bool);     (* g_sig_flag and g_http_fatal, per test of the wait loop *)
  re_version : option cstring;       (* STRIMSERVER_VERSION *)
  re_commit : option cstring;        (* STRIMSERVER_COMMIT *)
}.

(** How far [run] has come; loading the configuration can overflow. *)
Inductive run_result :=
  | UndefinedConfig
  | Waiting (acts : list act)
  | Exited (rc : Z) (acts : list act).

Definition after (before : list act) (r : run_result) : run_result :=
  match r with
  | UndefinedConfig => UndefinedConfig
  | Waiting acts => Waiting (before ++ acts)
  | Exited rc acts => Exited rc (before ++ acts)
  end.

Definition CONFIG_ERR_CAP : Z := 1024.
Definition ADDR_CAP : Z := 64.

(** [while (!g_sig_flag && !g_http_fatal) sleep_ms(100);] [None]: the tests
    ran out, it is still waiting. *)
Fixpoint wait_for_shutdown (polls : list (bool * bool)) : option (bool * bool) :=
  match polls with
  | [] => None
  | (sig, fatal) :: polls => if negb sig && negb fatal then wait_for_shutdown polls else Some (sig, fatal)
  end.

Definition graceful_shutdown : list act :=
  [ RequestShutdown; Join HttpThread; Join TickerThread; Join ListenerThread; BeginShutdown; WaitForOps; Teardown;
    CloseController; Join ControllerThread; DestroyServer; DestroyController; CloseClient ].

(** [up] are the threads that came up. *)
Definition thread_fail (up : list thread) : list act :=
  [Signal] ++
  (if bool_decide (HttpThread ∈ up) then [RequestShutdown; Join HttpThread] else []) ++
  (if bool_decide (TickerThread ∈ up) then [Join TickerThread] else []) ++
  (if bool_decide (ListenerThread ∈ up) then [Join ListenerThread] else []) ++
  (if bool_decide (ControllerThread ∈ up) then [CloseController; Join ControllerThread] else []) ++
  [DestroyServer; DestroyController; CloseClient].

(** Spawn the threads in order; the rest of [run] is [k]. *)
Fixpoint spawn_threads (create : thread -> bool) (ts up : list thread) (k : run_result) : run_result :=
  match ts with
  | [] => k
  | t :: ts =>
      if create t then after [Spawn t] (spawn_threads create ts (t :: up) k) else Exited 1 (thread_fail up)
  end.

Definition threads : list thread := [ControllerThread; ListenerThread; TickerThread; HttpThread].

(** From the wait loop on. *)
Definition wait_and_stop (polls : list (bool * bool)) : run_result :=
  match wait_for_shutdown polls with
  | None => Waiting []
  | Some (sig, fatal) =>
      Exited 0 ((if sig then [Signal] else []) ++ (if fatal then [ServerFailed] else []) ++ graceful_shutdown)
  end.

Definition run (env : run_env) : run_result :=
  match load_config (re_getenv env) CONFIG_ERR_CAP with
  | None => UndefinedConfig
  | Some (rc, cfg, _) =>
      if negb (rc =? 0) then Exited 1 []
      else if reconcile_interval_ms cfg <=? 0 then Exited 1 []
      else
        match strim_containerd_connect (re_malloc env) (Some (containerd_socket cfg)) (Some (containerd_namespace cfg)) with
        | (_, None) => Exited 1 []
        | (_, Some _) =>
            match strim_controller_new (re_new env)
                    (Some (main_controller_config (re_junk env) (enable_single_stage_pipeline cfg)
                             (inflight_timeout_ms cfg) (actions_buffer_size cfg))) true with
            | inl _ => Exited 1 [Connect; CloseClient]
            | inr c =>
                let addr := snprintf_str ADDR_CAP (lit ":" ++ controller_http_port cfg) in
                match strim_http_server_start (re_start env) false true (Some addr) (Some fill_http_callbacks)
                        (re_version env) (re_commit env) with
                | (_, None, _) => Exited 1 [Connect; NewController c; DestroyController; CloseClient]
                | (_, Some s, _) =>
                    after [Connect; NewController c; StartServer s]
                      (spawn_threads (re_create env) threads [] (wait_and_stop (re_polls env)))
                end
            end
        end
  end.

(** ** What the steps need

    [l_blocked]: a thread that only the signal flag stops was joined without
    it.  [l_unwaited]: a controller that had run was destroyed without waiting
    for its ops. *)

Record life := Life {
  l_client : bool;
  l_controller : bool;
  l_server : bool;
  l_threads : list thread;
  l_signal : bool;
  l_stopped : bool;                  (* the service loop was told to end, or failed *)
  l_closed : bool;                   (* the action queue is closed *)
  l_ran : bool;
  l_waited : bool;
  l_blocked : bool;
  l_unwaited : bool;
}.

Definition life0 : life := Life false false false [] false false false false false false false.

(** The objects that a thread uses. *)
Definition uses (t : thread) (l : life) : bool :=
  match t with
  | ControllerThread => l_controller l && l_server l && l_client l   (* ops and status pushes *)
  | ListenerThread => l_client l && l_controller l
  | TickerThread => l_controller l
  | HttpThread => l_server l && l_controller l
  end.

Definition without (t : thread) (ts : list thread) : list thread := List.filter (fun x => negb (bool_decide (x = t))) ts.

(** [None]: the step uses something that is not there, releases something
    that is still used, or joins a thread that was not told to end. *)
Definition permits (l : life) (a : act) : option life :=
  let 'Life client controller server ts sig stopped closed ran waited blocked unwaited := l in
  let running t := bool_decide (t ∈ ts) in
  match a with
  | Connect => if client then None else Some (Life true controller server ts sig stopped closed ran waited blocked unwaited)
  | NewController _ =>
      if client && negb controller then Some (Life client true server ts sig stopped closed ran waited blocked unwaited) else None
  | StartServer _ =>
      if controller && negb server then Some (Life client controller true ts sig stopped closed ran waited blocked unwaited)
      else None
  | Spawn t =>
      if uses t l && negb (running t)
      then Some (Life client controller server (t :: ts) sig stopped closed
                   (ran || bool_decide (t = ControllerThread)) waited blocked unwaited) else None
  | Signal => Some (Life client controller server ts true stopped closed ran waited blocked unwaited)
  | ServerFailed => if running HttpThread
                    then Some (Life client controller server ts sig true closed ran waited blocked unwaited) else None
  | RequestShutdown => if server then Some (Life client controller server ts sig true closed ran waited blocked unwaited) else None
  | Join t =>
      if running t then
        match t with
        | HttpThread => if stopped then Some (Life client controller server (without t ts) sig stopped closed ran waited blocked unwaited) else None
        | ControllerThread => if closed then Some (Life client controller server (without t ts) sig stopped closed ran waited blocked unwaited) else None
        | TickerThread | ListenerThread =>
            Some (Life client controller server (without t ts) sig stopped closed ran waited (blocked || negb sig) unwaited)
        end
      else None
  | BeginShutdown => if controller then Some l else None
  | WaitForOps => if controller then Some (Life client controller server ts sig stopped closed ran true blocked unwaited) else None
  | Teardown => if running ControllerThread && negb closed then Some l else None
  | CloseController => if controller then Some (Life client controller server ts sig stopped true ran waited blocked unwaited) else None
  | DestroyServer =>
      if server && negb (running HttpThread) && negb (running ControllerThread)
      then Some (Life client controller false ts sig stopped closed ran waited blocked unwaited) else None
  | DestroyController =>
      if controller && bool_decide (ts = [])
      then Some (Life client false server ts sig stopped closed ran waited blocked (unwaited || (ran && negb waited))) else None
  | CloseClient =>
      if client && negb controller && negb (running ListenerThread)
      then Some (Life false controller server ts sig stopped closed ran waited blocked unwaited) else None
  end.

Fixpoint permits_all (l : life) (acts : list act) : option life :=
  match acts with
  | [] => Some l
  | a :: acts => match permits l a with None => None | Some l => permits_all l acts end
  end.

(** Everything has been released. *)
Definition released (l : life) : bool :=
  negb (l_client l) && negb (l_controller l) && negb (l_server l) && bool_decide (l_threads l = []).

(** ** Facts *)
Lemma main_controller_only (o : new_oracle) (junk : Z) (single : bool) (t b : Z) (c : strim_controller) :
  strim_controller_new o (Some (main_controller_config junk single t b)) true = inr c ->
  c = main_controller junk single t b /\ 0 < t /\ b <> 0.
Proof.
  unfold strim_controller_new. cbn [negb cc_inflight_timeout_ms cc_actions_buffer_size main_controller_config].
  destruct (Z.leb_spec t 0); [done|]. destruct (Z.eqb_spec b 0); [done|].
  destruct o as [[] [] [] []], single; cbn; intros Hc; simplify_eq/=; done.
Qed.

Lemma permits_app (l : life) (a b : list act) :
  permits_all l (a ++ b) = match permits_all l a with None => None | Some l => permits_all l b end.
Proof. revert l. induction a as [|x a IH]; intros l; [done|]. cbn. destruct (permits l x); [apply IH|done]. Qed.

Lemma wait_quiet (polls : list (bool * bool)) :
  wait_for_shutdown polls = None -> Forall (fun p => p = (false, false)) polls.
Proof.
  induction polls as [|[sig fatal] polls IH]; [constructor|]. cbn. destruct sig, fatal; cbn; try done.
  intros H. constructor; [done|]. by apply IH.
Qed.

Lemma wait_ends (polls : list (bool * bool)) (sig fatal : bool) :
  wait_for_shutdown polls = Some (sig, fatal) -> sig || fatal = true.
Proof.
  induction polls as [|[s f] polls IH]; [done|]. cbn. destruct s, f; cbn; try (by intros [= <- <-]). done.
Qed.

(** Spawning: all the threads are up, or the failure path ran. *)
Lemma spawn_shape (create : thread -> bool) (k : run_result) :
  match spawn_threads create threads [] k with
  | r =>
      (forallb create threads = true /\ r = after (map Spawn threads) k) \/
      (exists n, (n < 4)%nat /\ r = Exited 1 (map Spawn (take n threads) ++ thread_fail (rev (take n threads))))
  end.
Proof.
  unfold threads. cbn [spawn_threads].
  destruct (create ControllerThread) eqn:E1; [|right; by exists 0%nat; split; [lia|]].
  destruct (create ListenerThread) eqn:E2; [|right; by exists 1%nat; split; [lia|]].
  destruct (create TickerThread) eqn:E3; [|right; by exists 2%nat; split; [lia|]].
  destruct (create HttpThread) eqn:E4; [|right; by exists 3%nat; split; [lia|]].
  left. cbn. rewrite E1, E2, E3, E4. split; [done|]. by destruct k.
Qed.

(** Membership in a list that is written out. *)
Ltac members :=
  intros;
  repeat match goal with
  | H : context [thread_fail ?x] |- _ =>
      let y := eval vm_compute in (thread_fail x) in change (thread_fail x) with y in H
  | |- context [thread_fail ?x] =>
      let y := eval vm_compute in (thread_fail x) in change (thread_fail x) with y
  end;
  cbn [app map take rev threads graceful_shutdown after] in *;
  rewrite ?elem_of_cons, ?elem_of_nil in *; naive_solver.

(** The same for one long list. *)
Ltac find_in H :=
  cbn [app map take rev threads graceful_shutdown after] in H;
  repeat (apply elem_of_cons in H as [H|H]; [first [discriminate H|by injection H as ->]|]);
  by apply elem_of_nil in H.

(** [run] gave up before it spawned a thread. *)
Lemma early_exit (env : run_env) (cfg : option (Z * strim_config * cstring)) (acts : list act) :
  (exists l, permits_all life0 acts = Some l /\ released l = true /\ l_blocked l = false /\ l_unwaited l = false) ->
  (forall t, Spawn t ∉ acts) ->
  (forall c, NewController c ∈ acts -> exists cfg0 err, cfg = Some (0, cfg0, err) /\
     c = main_controller (re_junk env) (enable_single_stage_pipeline cfg0) (inflight_timeout_ms cfg0) (actions_buffer_size cfg0)) ->
  exists l, permits_all life0 acts = Some l /\ released l = true /\
    (1 = 0 /\ Spawn HttpThread ∈ acts \/ 1 = 1 /\ Spawn HttpThread ∉ acts) /\
    (l_blocked l = true <-> 1 = 0 /\ wait_for_shutdown (re_polls env) = Some (false, true)) /\
    (l_unwaited l = true <-> 1 = 1 /\ Spawn ControllerThread ∈ acts) /\
    (forall c, NewController c ∈ acts -> exists cfg0 err, cfg = Some (0, cfg0, err) /\
       c = main_controller (re_junk env) (enable_single_stage_pipeline cfg0) (inflight_timeout_ms cfg0) (actions_buffer_size cfg0)).
Proof.
  intros (l & Hl & Hr & Hb & Hu) Hs Hc. exists l. rewrite Hb, Hu. split; [done|]. split; [done|].
  split; [right; by split|]. split; [split; [done|by intros [? _]]|].
  split; [split; [done|]|done]. intros [_ Hin]. by apply Hs in Hin.
Qed.

(** C4: whatever fails while [run] starts the program up and whichever way it
    is asked to stop, it works in order: no step uses an object that is not
    there, no object is released while a thread still uses it, no thread is
    joined that was not told to end, and when [run] returns every object has
    been released once and every thread joined.  The controller it runs is
    the one of the configuration.  It returns 0 exactly when every thread came
    up.  Two things are not in order: a join that nothing but a later signal
    ends, exactly when the HTTP server failed before any signal; and, exactly
    when a thread after the controller's did not come up, a controller that is
    destroyed without waiting for its ops. *)
Theorem run_is_orderly (env : run_env) :
  match run env with
  | UndefinedConfig => load_config (re_getenv env) CONFIG_ERR_CAP = None
  | Waiting acts =>
      (exists l, permits_all life0 acts = Some l /\ l_threads l = rev threads) /\
      Forall (fun p => p = (false, false)) (re_polls env)
  | Exited rc acts =>
      exists l, permits_all life0 acts = Some l /\ released l = true /\
        (rc = 0 /\ Spawn HttpThread ∈ acts \/ rc = 1 /\ Spawn HttpThread ∉ acts) /\
        (l_blocked l = true <-> rc = 0 /\ wait_for_shutdown (re_polls env) = Some (false, true)) /\
        (l_unwaited l = true <-> rc = 1 /\ Spawn ControllerThread ∈ acts) /\
        (forall c, NewController c ∈ acts ->
           exists cfg err, load_config (re_getenv env) CONFIG_ERR_CAP = Some (0, cfg, err) /\
             c = main_controller (re_junk env) (enable_single_stage_pipeline cfg) (inflight_timeout_ms cfg)
                   (actions_buffer_size cfg))
  end.
Proof.
  unfold run. destruct (load_config _ _) as [[[rc cfg] err]|] eqn:Ec; [|done].
  destruct (Z.eqb_spec rc 0) as [->|]; cbn [negb]; [|apply early_exit; [by eexists|members|members]].
  destruct (reconcile_interval_ms cfg <=? 0); [apply early_exit; [by eexists|members|members]|].
  destruct (strim_containerd_connect _ _ _) as [? [cl|]]; [|apply early_exit; [by eexists|members|members]].
  destruct (strim_controller_new _ _ _) as [e|c] eqn:En; [apply early_exit; [by eexists|members|members]|].
  assert (Hc : forall c', c' = c -> exists cfg0 err0, Some (0, cfg, err) = Some (0, cfg0, err0) /\
    c' = main_controller (re_junk env) (enable_single_stage_pipeline cfg0) (inflight_timeout_ms cfg0)
           (actions_buffer_size cfg0)).
  { intros c' ->. exists cfg, err. split; [done|]. by apply main_controller_only in En as [-> _]. }
  destruct (strim_http_server_start _ _ _ _ _ _ _) as [[? [srv|]] ?]; [|apply early_exit; [by eexists|members|members]].
  destruct (spawn_shape (re_create env) (wait_and_stop (re_polls env))) as [[_ ->]|(n & Hn & ->)].
  - unfold wait_and_stop. destruct (wait_for_shutdown (re_polls env)) as [[sig fatal]|] eqn:Ew.
    + pose proof (wait_ends _ _ _ Ew) as Hsf. cbn [after map threads app].
      destruct sig, fatal; try done; eexists; (split; [reflexivity|]); (split; [reflexivity|]);
        (split; [left; members|]); (split; [split; members|]); (split; [split; members|]); intros c' Hin; apply Hc; find_in Hin.
    + cbn [after]. split; [eexists; split; reflexivity|]. by apply wait_quiet.
  - destruct n as [|[|[|[|n]]]]; [..|lia]; eexists; (split; [reflexivity|]); (split; [reflexivity|]);
      (split; [right; members|]); (split; [split; members|]); (split; [split; members|]); intros c' Hin; apply Hc; find_in Hin.
Qed.
