(* ===== verification/Main.v ===== *)
(** * The ticker, the flags and main (main.c)

    The reconcile ticker as what its reads of the signal flag see; the flag
    parser; [main] up to [run]. *)

From S2P Require Import Prelude Wire Controller Wiring Http Double Config EnvFile.

(** ** The reconcile ticker *)

Definition TICK_SLICE_MS : Z := 100.

(** Where the flag is read next: at the top, in the waiting loop, or before
    the request. *)
Inductive ticker_pc := TickTop | TickWait (waited : Z) | TickAsk.

Record ticker_result := TickerResult { tr_requests : nat; tr_slept : Z; tr_returned : bool }.

Definition tick (requests : nat) (slept : Z) (r : ticker_result) : ticker_result :=
  TickerResult (requests + tr_requests r) (slept + tr_slept r) (tr_returned r).

(** [waited] has reached the interval: the flag is read before the request. *)
Definition settle (interval_ms : Z) (pc : ticker_pc) : ticker_pc :=
  match pc with TickWait waited => if waited <? interval_ms then pc else TickAsk | _ => pc end.

(** One step per read of [g_sig_flag]. *)
Fixpoint reconcile_ticker_thread_fn (interval_ms : Z) (pc : ticker_pc) (reads : list bool) : ticker_result :=
  match reads with
  | [] => TickerResult 0 0 false
  | sig :: reads =>
      match settle interval_ms pc with
      | TickTop =>
          if sig then TickerResult 0 0 true else reconcile_ticker_thread_fn interval_ms (TickWait 0) reads
      | TickWait waited =>
          if sig then reconcile_ticker_thread_fn interval_ms TickAsk reads
          else tick 0 TICK_SLICE_MS (reconcile_ticker_thread_fn interval_ms (TickWait (waited + TICK_SLICE_MS)) reads)
      | TickAsk =>
          if sig then reconcile_ticker_thread_fn interval_ms TickTop reads
          else tick 1 0 (reconcile_ticker_thread_fn interval_ms TickTop reads)
      end
  end.

(** ** Flags *)

Definition flag_match (arg name : cstring) : option bool :=
  match
    (if starts_with (lit "--") arg then Some (drop 2 arg)
     else if starts_with (lit "-") arg then Some (drop 1 arg) else None)
  with
  | None => None
  | Some p =>
      if negb (starts_with name p) then None
      else
        match drop (length name) p with
        | [] => Some true
        | c :: v =>
            if c =? chr "=" then
              if streq v (lit "true") || streq v (lit "1") then Some true
              else if streq v (lit "false") || streq v (lit "0") then Some false
              else None
            else None
        end
  end.

Record flags := Flags { check_env_flag : bool; print_example : bool; print_ts : bool }.

(** [inl] is the argument that is not a flag. *)
Fixpoint parse_flags (args : list cstring) (f : flags) : cstring + flags :=
  match args with
  | [] => inr f
  | arg :: args =>
      match flag_match arg (lit "check-env") with
      | Some v => parse_flags args (Flags v (print_example f) (print_ts f))
      | None =>
          match flag_match arg (lit "print-env-example") with
          | Some v => parse_flags args (Flags (check_env_flag f) v (print_ts f))
          | None =>
              match flag_match arg (lit "print-ts-types") with
              | Some v => parse_flags args (Flags (check_env_flag f) (print_example f) v)
              | None => inl arg
              end
          end
      end
  end.

Definition no_flags : flags := Flags false false false.

(** ** The printed wire types *)

Definition quoted_alt (names : list string) : cstring :=
  match names with
  | [] => []
  | n :: ns => dq ++ lit n ++ dq ++ concat (map (fun n => lit " | " ++ dq ++ lit n ++ dq) ns)
  end.

Definition ts_line (s : string) : cstring := lit s ++ nl.

Definition print_ts_types : cstring :=
  ts_line "// CODE GENERATED by `strimserver-controller -print-ts-types`. DO NOT EDIT." ++
  ts_line "// Source of truth: core/controller/names.go + controller.go" ++ nl ++
  lit "export type PathStatus = " ++ quoted_alt ["unknown"; "ready"; "not-ready"]%string ++ lit ";" ++ nl ++
  lit "export type StageState = " ++ quoted_alt ["running"; "stopped"; ""]%string ++ lit ";" ++ nl ++
  lit "export type PathName  = " ++ quoted_alt ["ingress0"; "normalized"]%string ++ lit ";" ++ nl ++
  lit "export type StageName = " ++
    quoted_alt ["mediamtx"; "normalize"; "scale_and_egress"; "single_stage_egress"]%string ++ lit ";" ++ nl ++ nl ++
  ts_line "export interface StageStatus { desired: StageState; actual: StageState; }" ++
  ts_line "export interface ControllerStatus {" ++
  ts_line "   paths: Record<PathName, PathStatus>;" ++
  ts_line "   stages: Record<StageName, StageStatus>;" ++
  ts_line "}" ++ nl ++
  lit "export const Stages = { MediaMTX: " ++ dq ++ lit "mediamtx" ++ dq ++ lit ", Normalize: " ++ dq ++ lit "normalize" ++ dq ++
    lit ", ScaleAndEgress: " ++ dq ++ lit "scale_and_egress" ++ dq ++ lit ", SingleStageEgress: " ++ dq ++
    lit "single_stage_egress" ++ dq ++ lit " } as const;" ++ nl ++
  lit "export type ControlComponent = " ++ quoted_alt ["egress"]%string ++ lit ";" ++ nl ++
  lit "export type ControlAction    = " ++ quoted_alt ["start"; "stop"]%string ++ lit ";" ++ nl.

(** ** main *)

Definition ENV_FILE : cstring := lit "/strimserver.env".
Definition MAIN_ERR_CAP : Z := 1024.

(** The exit code with what is written to the standard output, or a call of
    [run] in the sourced environment. *)
Inductive main_result :=
  | MainExit (code : Z) (output : cstring)
  | MainRun (env : environ).

(** [file] is the env file; [args] are the arguments after the program's
    name. *)
Definition main (setenv_ok : cstring -> cstring -> bool) (file : option bytes) (env : environ) (args : list cstring)
  : main_result :=
  let '(rc, env, _) := source_env_file setenv_ok ENV_FILE MAIN_ERR_CAP file env in
  if negb (rc =? 0) then MainExit 1 []
  else
    match parse_flags args no_flags with
    | inl _ => MainExit 2 []
    | inr f =>
        if print_example f then MainExit 0 print_env_example
        else if print_ts f then MainExit 0 print_ts_types
        else if check_env_flag f then
          if negb ((check_env (fun n => env !! n) MAIN_ERR_CAP).1 =? 0) then MainExit 1 []
          else MainExit 0 (lit "env OK" ++ nl)
        else MainRun env
    end.

(** * Flags, dispatch and the ticker

    Which arguments [main] accepts and what it then does; how often the ticker
    asks for a reconcile and that it ends. *)


(** ** Flags *)

(** The ways to write a flag's value. *)
Definition value_spellings (v : bool) : list cstring :=
  if v then [[]; lit "=true"; lit "=1"] else [lit "=false"; lit "=0"].

Definition spelled (name : cstring) (v : bool) (arg : cstring) : Prop :=
  exists dashes suffix, dashes ∈ [lit "-"; lit "--"] /\ suffix ∈ value_spellings v /\ arg = dashes ++ name ++ suffix.

Definition flag_names : list cstring := map lit ["check-env"; "print-env-example"; "print-ts-types"]%string.

(** A flag's name does not start with a dash. *)
Definition plain_name (name : cstring) : Prop := starts_with (lit "-") name = false /\ name <> [].

Lemma flag_names_plain (name : cstring) : name ∈ flag_names -> plain_name name.
Proof. intros H. repeat (apply elem_of_cons in H as [->|H]; [done|]). by apply elem_of_nil in H. Qed.

(** What follows the name. *)
Definition flag_suffix (rest : cstring) : option bool :=
  match rest with
  | [] => Some true
  | c :: v =>
      if c =? chr "=" then
        if streq v (lit "true") || streq v (lit "1") then Some true
        else if streq v (lit "false") || streq v (lit "0") then Some false
        else None
      else None
  end.

Lemma flag_suffix_exact (rest : cstring) (v : bool) : flag_suffix rest = Some v <-> rest ∈ value_spellings v.
Proof.
  assert (Hto : forall v rest, rest ∈ value_spellings v -> flag_suffix rest = Some v).
  { intros [] r Hr; repeat (apply elem_of_cons in Hr as [->|Hr]; [done|]); by apply elem_of_nil in Hr. }
  split; [|apply Hto]. destruct rest as [|c r]; cbn [flag_suffix].
  - intros [= <-]. cbn. by apply elem_of_cons; left.
  - destruct (Z.eqb_spec c (chr "=")) as [->|]; [|done].
    destruct (streq r (lit "true")) eqn:E1; [apply streq_true in E1 as ->; intros [= <-]; by_decide|].
    destruct (streq r (lit "1")) eqn:E2; [apply streq_true in E2 as ->; intros [= <-]; by_decide|].
    destruct (streq r (lit "false")) eqn:E3; [apply streq_true in E3 as ->; intros [= <-]; by_decide|].
    destruct (streq r (lit "0")) eqn:E4; [apply streq_true in E4 as ->; intros [= <-]; by_decide|]. done.
Qed.

Definition strip_dashes (arg : cstring) : option cstring :=
  if starts_with (lit "--") arg then Some (drop 2 arg)
  else if starts_with (lit "-") arg then Some (drop 1 arg) else None.

Lemma flag_match_strip (arg name : cstring) :
  flag_match arg name =
  match strip_dashes arg with
  | None => None
  | Some p => if starts_with name p then flag_suffix (drop (length name) p) else None
  end.
Proof.
  unfold flag_match, strip_dashes. destruct (starts_with (lit "--") arg); [|destruct (starts_with (lit "-") arg); [|done]].
  all: by destruct (starts_with name _).
Qed.

Lemma strip_dashes_to (dashes p : cstring) :
  dashes ∈ [lit "-"; lit "--"] -> starts_with (lit "-") p = false -> strip_dashes (dashes ++ p) = Some p.
Proof.
  intros Hd Hp. apply elem_of_cons in Hd as [->|Hd]; [|apply elem_of_cons in Hd as [->|Hd]; [|by apply elem_of_nil in Hd]].
  - unfold strip_dashes. change (starts_with (lit "--") (lit "-" ++ p)) with (starts_with (lit "-") p). by rewrite Hp.
  - done.
Qed.

Lemma strip_dashes_from (arg p : cstring) :
  strip_dashes arg = Some p -> exists dashes, dashes ∈ [lit "-"; lit "--"] /\ arg = dashes ++ p.
Proof.
  unfold strip_dashes. destruct (starts_with (lit "--") arg) eqn:E2.
  - apply starts_with_spec in E2 as [r ->]. intros [= <-]. exists (lit "--"). split; [by_decide|done].
  - destruct (starts_with (lit "-") arg) eqn:E1; [|done]. apply starts_with_spec in E1 as [r ->].
    intros [= <-]. exists (lit "-"). split; [by_decide|done].
Qed.

Lemma flag_match_exact (arg name : cstring) (v : bool) :
  plain_name name -> flag_match arg name = Some v <-> spelled name v arg.
Proof.
  intros [Hn Hne]. rewrite flag_match_strip. split.
  - destruct (strip_dashes arg) as [p|] eqn:Es; [|done]. apply strip_dashes_from in Es as (dashes & Hd & ->).
    destruct (starts_with name p) eqn:Ep; [|done]. apply starts_with_spec in Ep as [r ->].
    rewrite drop_app_length. intros Hf. apply flag_suffix_exact in Hf. by exists dashes, r.
  - intros (dashes & r & Hd & Hr & ->). rewrite strip_dashes_to; [|done|].
    + assert (starts_with name (name ++ r) = true) as -> by (apply starts_with_spec; eauto).
      rewrite drop_app_length. by apply flag_suffix_exact.
    + destruct name as [|c name]; [done|]. cbn in *. done.
Qed.

(** An argument spells at most one flag. *)
Lemma flags_disjoint (arg n1 n2 : cstring) (v : bool) :
  flag_match arg n1 = Some v -> (forall r, starts_with n2 (n1 ++ r) = false) -> flag_match arg n2 = None.
Proof.
  rewrite !flag_match_strip. destruct (strip_dashes arg) as [p|]; [|done].
  destruct (starts_with n1 p) eqn:E; [|done]. apply starts_with_spec in E as [r ->]. intros _ Hn. by rewrite Hn.
Qed.

Definition is_flag (arg : cstring) : Prop := exists name v, name ∈ flag_names /\ spelled name v arg.

(** The last argument that spells the flag decides. *)
Definition last_value (name : cstring) (before : bool) (args : list cstring) : bool :=
  default before (last (omap (fun arg => flag_match arg name) args)).

Lemma last_value_cons (name arg : cstring) (before : bool) (args : list cstring) :
  last_value name before (arg :: args) = last_value name (default before (flag_match arg name)) args.
Proof.
  unfold last_value. cbn. destruct (flag_match arg name) as [v|]; [|done]. cbn.
  rewrite last_cons. by destruct (last _).
Qed.

Definition flags_of (f : flags) (args : list cstring) : flags :=
  Flags (last_value (lit "check-env") (check_env_flag f) args)
    (last_value (lit "print-env-example") (print_example f) args) (last_value (lit "print-ts-types") (print_ts f) args).

Lemma spelled_flag (arg name : cstring) (v : bool) : name ∈ flag_names -> flag_match arg name = Some v -> is_flag arg.
Proof. intros Hn Hf. exists name, v. split; [done|]. apply flag_match_exact; [by apply flag_names_plain|done]. Qed.

Lemma not_a_flag (arg : cstring) :
  flag_match arg (lit "check-env") = None -> flag_match arg (lit "print-env-example") = None ->
  flag_match arg (lit "print-ts-types") = None -> ~ is_flag arg.
Proof.
  intros H1 H2 H3 (name & v & Hn & Hs). apply flag_match_exact in Hs; [|by apply flag_names_plain].
  unfold flag_names in Hn. cbn [map] in Hn.
  repeat (apply elem_of_cons in Hn as [->|Hn]; [congruence|]). by apply elem_of_nil in Hn.
Qed.

Lemma parse_flags_spec (args : list cstring) (f : flags) :
  (Forall is_flag args /\ parse_flags args f = inr (flags_of f args)) \/
  (exists pre arg post, args = pre ++ arg :: post /\ Forall is_flag pre /\ ~ is_flag arg /\ parse_flags args f = inl arg).
Proof.
  revert f. induction args as [|arg args IH]; intros f; [left; by destruct f|].
  cbn [parse_flags].
  assert (Hstep : forall f', is_flag arg -> flags_of f' args = flags_of f (arg :: args) ->
    (Forall is_flag (arg :: args) /\ parse_flags args f' = inr (flags_of f (arg :: args))) \/
    (exists pre a post, arg :: args = pre ++ a :: post /\ Forall is_flag pre /\ ~ is_flag a /\ parse_flags args f' = inl a)).
  { intros f' Ha Hf. destruct (IH f') as [[H1 H2]|(pre & a & post & -> & H1 & H2 & H3)].
    - left. rewrite H2, Hf. split; [by constructor|done].
    - right. exists (arg :: pre), a, post. split_and!; [done|by constructor|done|done]. }
  assert (Hof : flags_of f (arg :: args) =
    flags_of (Flags (default (check_env_flag f) (flag_match arg (lit "check-env")))
                (default (print_example f) (flag_match arg (lit "print-env-example")))
                (default (print_ts f) (flag_match arg (lit "print-ts-types")))) args)
    by (unfold flags_of; by rewrite !last_value_cons).
  destruct (flag_match arg (lit "check-env")) as [v|] eqn:E1.
  { apply Hstep; [eapply spelled_flag; [|exact E1]; by_decide|]. rewrite Hof.
    by rewrite (flags_disjoint arg _ (lit "print-env-example") v E1), (flags_disjoint arg _ (lit "print-ts-types") v E1). }
  destruct (flag_match arg (lit "print-env-example")) as [v|] eqn:E2.
  { apply Hstep; [eapply spelled_flag; [|exact E2]; by_decide|]. rewrite Hof.
    by rewrite (flags_disjoint arg _ (lit "print-ts-types") v E2). }
  destruct (flag_match arg (lit "print-ts-types")) as [v|] eqn:E3.
  { apply Hstep; [eapply spelled_flag; [|exact E3]; by_decide|]. by rewrite Hof. }
  right. exists [], arg, args. split_and!; [done|constructor|by apply not_a_flag|done].
Qed.

(** ** main *)

(** the command line.  After sourcing the env file (a malformed file is exit
    code 1), an argument that is not a spelling of one of the three flags,
    with one or two dashes and an optional value, is exit code 2 and nothing
    is printed.  Otherwise each flag has the value of the last argument that
    spells it, and the first of print-env-example, print-ts-types and
    check-env that is set decides what is printed; with none of them the
    controller runs, in the sourced environment. *)
Theorem main_command_line (setenv_ok : cstring -> cstring -> bool) (file : option bytes) (env : environ)
    (args : list cstring) :
  let '(rc, env', _) := source_env_file setenv_ok ENV_FILE MAIN_ERR_CAP file env in
  let flag n := last_value (lit n) false args in
  (forall arg name v, name ∈ flag_names -> flag_match arg name = Some v <-> spelled name v arg) /\
  (rc <> 0 -> main setenv_ok file env args = MainExit 1 []) /\
  (rc = 0 -> ~ Forall is_flag args -> main setenv_ok file env args = MainExit 2 []) /\
  (rc = 0 -> Forall is_flag args ->
   main setenv_ok file env args =
     if flag "print-env-example" then MainExit 0 print_env_example
     else if flag "print-ts-types" then MainExit 0 print_ts_types
     else if flag "check-env" then
       if (check_env (fun n => env' !! n) MAIN_ERR_CAP).1 =? 0 then MainExit 0 (lit "env OK" ++ nl) else MainExit 1 []
     else MainRun env').
Proof.
  unfold main. destruct (source_env_file _ _ _ _ _) as [[rc env'] err]. split_and!.
  - intros arg name v Hn. apply flag_match_exact. by apply flag_names_plain.
  - intros Hr. apply Z.eqb_neq in Hr. by rewrite Hr.
  - intros -> Hno. cbn [negb Z.eqb]. destruct (parse_flags_spec args no_flags) as [[H1 _]|(pre & a & post & _ & _ & _ & ->)]; done.
  - intros -> Hall. cbn [negb Z.eqb].
    destruct (parse_flags_spec args no_flags) as [[_ ->]|(pre & a & post & -> & _ & Ha & _)].
    + cbn [print_example print_ts check_env_flag flags_of no_flags]. by destruct (_ =? 0).
    + apply Forall_app in Hall as [_ Hall]. by apply Forall_cons in Hall as [? _].
Qed.

(** ** The ticker *)

(** The slices of one interval. *)
Definition slices (interval_ms : Z) : nat := Z.to_nat ((interval_ms + 99) / 100).

Section Ticker.
Variable interval_ms : Z.
Hypothesis Hpos : 0 < interval_ms.
Abbreviation ticker := (reconcile_ticker_thread_fn interval_ms).
Abbreviation k := (slices interval_ms).

Lemma slices_bounds : 100 * (Z.of_nat k - 1) < interval_ms <= 100 * Z.of_nat k.
Proof. unfold slices. rewrite Z2Nat.id by (apply Z.div_pos; lia). Z.div_mod_to_equations. lia. Qed.

Lemma waiting (i j : nat) (rest : list bool) :
  (i + j <= k)%nat ->
  ticker (TickWait (100 * Z.of_nat i)) (replicate j false ++ rest) =
  tick 0 (100 * Z.of_nat j) (ticker (TickWait (100 * Z.of_nat (i + j))) rest).
Proof.
  pose proof slices_bounds as Hk. revert i. induction j as [|j IH]; intros i Hij.
  - rewrite Nat.add_0_r. cbn [replicate app]. unfold tick. by destruct (ticker _ rest).
  - cbn [replicate app reconcile_ticker_thread_fn settle]. rewrite (proj2 (Z.ltb_lt _ _)) by lia.
    replace (100 * Z.of_nat i + TICK_SLICE_MS) with (100 * Z.of_nat (S i)) by (unfold TICK_SLICE_MS; lia).
    rewrite IH by lia. replace (S i + j)%nat with (i + S j)%nat by lia. unfold tick. cbn. f_equal; unfold TICK_SLICE_MS; lia.
Qed.

Lemma one_cycle (rest : list bool) :
  ticker TickTop (replicate (k + 2) false ++ rest) = tick 1 (100 * Z.of_nat k) (ticker TickTop rest).
Proof.
  pose proof slices_bounds as Hk. replace (k + 2)%nat with (S (k + 1)) by lia.
  cbn [replicate app reconcile_ticker_thread_fn settle]. rewrite replicate_add, <- app_assoc.
  change 0 with (100 * Z.of_nat 0) at 1. rewrite waiting by lia.
  cbn [replicate app reconcile_ticker_thread_fn settle Nat.add]. rewrite (proj2 (Z.ltb_ge _ _)) by lia.
  unfold tick. cbn. f_equal; lia.
Qed.

Lemma cycles (n : nat) (rest : list bool) :
  ticker TickTop (replicate (n * (k + 2)) false ++ rest) = tick n (100 * Z.of_nat (n * k)) (ticker TickTop rest).
Proof.
  induction n as [|n IH]; [unfold tick; cbn; by destruct (ticker _ rest)|].
  cbn [Nat.mul]. rewrite replicate_add, <- app_assoc, one_cycle, IH. unfold tick. cbn. f_equal; lia.
Qed.

(** The signal is seen within three reads. *)
Lemma signalled (r m : nat) :
  (r < k + 2)%nat -> (3 <= m)%nat ->
  ticker TickTop (replicate r false ++ replicate m true) = TickerResult 0 (100 * Z.of_nat (Nat.min k (r - 1))) true.
Proof.
  pose proof slices_bounds as Hk. intros Hr Hm. destruct m as [|[|[|m]]]; try lia. destruct r as [|r]; [by rewrite Nat.min_0_r|].
  cbn [replicate app reconcile_ticker_thread_fn settle Nat.sub]. change 0 with (100 * Z.of_nat 0) at 1. rewrite Nat.sub_0_r.
  destruct (decide (r <= k)%nat) as [Hle|Hgt].
  - rewrite waiting by lia. cbn [Nat.add reconcile_ticker_thread_fn settle].
    replace (Nat.min k r) with r by lia.
    destruct (_ <? _); unfold tick; cbn; f_equal; lia.
  - exfalso. lia.
Qed.

End Ticker.

(** the ticker asks for a reconcile once per interval, rounded up to slices
    of 100 ms, for as long as no shutdown is signalled, and returns within
    three more reads of the flag once it is, without a further request. *)
Theorem ticker_asks_every_interval (interval_ms : Z) (n m : nat) :
  0 < interval_ms -> (3 <= m)%nat ->
  let k := slices interval_ms in
  reconcile_ticker_thread_fn interval_ms TickTop (replicate n false ++ replicate m true) =
  TickerResult (n / (k + 2)) (100 * Z.of_nat (n / (k + 2) * k + Nat.min k (n mod (k + 2) - 1))) true.
Proof.
  intros Hpos Hm. cbv zeta. set (k := slices interval_ms).
  assert (Hn : n = (n / (k + 2) * (k + 2) + n mod (k + 2))%nat) by (rewrite Nat.mul_comm; apply Nat.div_mod; lia).
  rewrite Hn at 1. rewrite replicate_add, <- app_assoc, cycles by done.
  rewrite signalled by (done || apply Nat.mod_upper_bound; lia). unfold tick. cbn. f_equal; lia.
Qed.

Lemma ticker_asks_every_interval_witness :
  0 < 250 /\ (3 <= 3)%nat /\
  reconcile_ticker_thread_fn 250 TickTop (replicate 12 false ++ replicate 3 true) = TickerResult 2 700 true.
Proof. split; [done|]. split; [done|]. exact (ticker_asks_every_interval 250 12 3 ltac:(done) ltac:(done)). Defined.
