(* ===== verification/CLib.v ===== *)
(** * The C library's text functions

    What the command-line tools use of strtol, strstr, inet_pton and
    inet_ntop, with their facts. *)

From S2P Require Import Prelude Http Double Config EnvFile.

(** ** Numbers *)

Definition LONG_MAX : Z := INT64_MAX.
Definition LONG_MIN : Z := - 2 ^ 63.

(** [strtol(raw, &end, 10)]: the value and what is at [end]; without a digit
    that is [raw] itself. *)
Definition strtol (raw : cstring) : Z * cstring :=
  let p := skip_while is_space raw in
  let '(neg, p) :=
    match p with
    | c :: p' => if c =? chr "-" then (true, p') else if c =? chr "+" then (false, p') else (false, p)
    | [] => (false, p)
    end in
  let '(v, has, rest) := ul_digits p 0 false in
  if negb has then (0, raw)
  else (Z.max LONG_MIN (Z.min LONG_MAX (if neg : bool then - v else v)), rest).

(** [atoi]: undefined when the number is not an [int]. *)
Definition atoi (s : cstring) : option Z :=
  let v := (strtol s).1 in if (- 2 ^ 31 <=? v) && (v <? 2 ^ 31) then Some v else None.

(** ** Searching *)

(** [strstr(s, p)]: what precedes the first occurrence of [p] and what
    follows it. *)
Fixpoint strstr (p s : cstring) : option (cstring * cstring) :=
  if starts_with p s then Some ([], drop (length p) s)
  else
    match s with
    | [] => None
    | c :: s' => match strstr p s' with Some (a, b) => Some (c :: a, b) | None => None end
    end.

(** ** Addresses *)

Fixpoint split_on (c : Z) (s : cstring) : list cstring :=
  match s with
  | [] => [[]]
  | x :: s =>
      if x =? c then [] :: split_on c s
      else match split_on c s with w :: ws => (x :: w) :: ws | [] => [[x]] end
  end.

(** A decimal octet: one to three digits, no leading zero. *)
Definition octet (w : cstring) : option Z :=
  if forallb is_digit w && (1 <=? strlen w) && (strlen w <=? 3) &&
     ((strlen w =? 1) || negb (default 0 (head w) =? chr "0"))
  then let v := foldl (fun v c => v * 10 + digit c) 0 w in if v <=? 255 then Some v else None
  else None.

(** [inet_pton(AF_INET, s, &addr)]: the four bytes of the address. *)
Definition inet_pton (s : cstring) : option bytes :=
  match split_on (chr ".") s with
  | [a; b; c; d] =>
      match octet a, octet b, octet c, octet d with
      | Some a, Some b, Some c, Some d => Some [a; b; c; d]
      | _, _, _, _ => None
      end
  | _ => None
  end.

(** [inet_ntop(AF_INET, &addr, ...)] *)
Definition inet_ntop (addr : bytes) : cstring :=
  match addr with
  | [a; b; c; d] => fmt_u64 a ++ [chr "."] ++ fmt_u64 b ++ [chr "."] ++ fmt_u64 c ++ [chr "."] ++ fmt_u64 d
  | _ => []
  end.

Example pton_example : inet_pton (lit "127.0.0.1") = Some [127; 0; 0; 1] /\ inet_pton (lit "1.2.3.04") = None.
Proof. vm_compute. done. Qed.

(** ** Facts *)
Lemma split_cut (c : Z) (s : cstring) :
  split_on c s = match cut_at c s with Some (a, b) => a :: split_on c b | None => [s] end.
Proof.
  induction s as [|x s IH]; [done|]. cbn [split_on cut_at]. destruct (x =? c); [done|].
  rewrite IH. by destruct (cut_at c s) as [[a b]|].
Qed.

Lemma cut_shorter (c : Z) (s a b : cstring) : cut_at c s = Some (a, b) -> (length b < length s)%nat.
Proof.
  revert a. induction s as [|x s IH]; intros a; [done|]. cbn [cut_at]. destruct (x =? c); [intros [= <- <-]; cbn; lia|].
  destruct (cut_at c s) as [[a' b']|] eqn:E; [|done]. intros [= <- <-]. specialize (IH _ eq_refl). cbn. lia.
Qed.

Lemma split_nonempty (c : Z) (s : cstring) : split_on c s <> [].
Proof. rewrite split_cut. by destruct (cut_at c s) as [[a b]|]. Qed.

Lemma inet_pton_len (s : cstring) (addr : bytes) : inet_pton s = Some addr -> strlen addr = 4.
Proof.
  unfold inet_pton. destruct (split_on _ s) as [|a [|b [|c [|d [|]]]]]; try done.
  destruct (octet a), (octet b), (octet c), (octet d); try done. by intros [= <-].
Qed.

Lemma strstr_spec (p s a b : cstring) : strstr p s = Some (a, b) -> s = a ++ p ++ b.
Proof.
  revert a. induction s as [|c s IH]; intros a; cbn [strstr].
  - destruct (starts_with p []) eqn:E; [|done]. apply starts_with_spec in E as [r E]. intros [= <- <-].
    by destruct p; [|discriminate E].
  - destruct (starts_with p (c :: s)) eqn:E.
    + apply starts_with_spec in E as [r ->]. intros [= <- <-]. by rewrite drop_app_length.
    + destruct (strstr p s) as [[a' b']|]; [|done]. intros [= <- <-]. cbn. f_equal. by apply IH.
Qed.

(** It is the first one. *)
Lemma strstr_first (p s a b a' b' : cstring) :
  strstr p s = Some (a, b) -> s = a' ++ p ++ b' -> (length a <= length a')%nat.
Proof.
  revert a a'. induction s as [|c s IH]; intros a a'; cbn [strstr].
  - destruct (starts_with p []); [|done]. intros [= <- <-] _. cbn. lia.
  - destruct (starts_with p (c :: s)) eqn:E; [intros [= <- <-] _; cbn; lia|].
    destruct (strstr p s) as [[a0 b0]|]; [|done]. intros [= <- <-] Hs. destruct a' as [|c' a'].
    + exfalso. assert (starts_with p (c :: s) = true); [apply starts_with_spec; by exists b'|congruence].
    + injection Hs as <- Hs. specialize (IH _ _ eq_refl Hs). cbn. lia.
Qed.

Lemma strstr_found (p a b : cstring) : is_Some (strstr p (a ++ p ++ b)).
Proof.
  induction a as [|c a IH].
  - cbn [app]. assert (Hs : starts_with p (p ++ b) = true) by (apply starts_with_spec; by exists b).
    destruct (p ++ b) eqn:E; cbn [strstr]; rewrite Hs; by eexists.
  - cbn [app strstr]. destruct (starts_with _ _); [by eexists|]. destruct IH as [[x y] ->]. by eexists.
Qed.

Lemma split_app (c : Z) (a b : cstring) : c ∉ a -> split_on c (a ++ c :: b) = a :: split_on c b.
Proof.
  intros Ha. induction a as [|x a IH]; cbn [app split_on]; [by rewrite Z.eqb_refl|].
  apply not_elem_of_cons in Ha as [Hx Ha]. rewrite (proj2 (Z.eqb_neq _ _)) by done. by rewrite IH.
Qed.

Lemma split_single (c : Z) (a : cstring) : c ∉ a -> split_on c a = [a].
Proof.
  intros Ha. induction a as [|x a IH]; [done|]. cbn [split_on]. apply not_elem_of_cons in Ha as [Hx Ha].
  rewrite (proj2 (Z.eqb_neq _ _)) by done. by rewrite IH.
Qed.

Lemma octet_printed (b : Z) : byte_ok b -> octet (fmt_u64 b) = Some b /\ chr "." ∉ fmt_u64 b.
Proof.
  intros Hb.
  pose proof (all_bytes (fun b => bool_decide (octet (fmt_u64 b) = Some b /\ chr "." ∉ fmt_u64 b)) ltac:(by vm_compute) b Hb) as H.
  cbn beta in H. by apply bool_decide_eq_true_1 in H.
Qed.

(** A printed address is read back. *)
Lemma address_roundtrip (a b c d : Z) : bytes_ok [a; b; c; d] -> inet_pton (inet_ntop [a; b; c; d]) = Some [a; b; c; d].
Proof.
  intros Hok. unfold bytes_ok in Hok. rewrite !Forall_cons in Hok. destruct Hok as (Ha & Hb & Hc & Hd & _).
  destruct (octet_printed a Ha) as [Ea Na], (octet_printed b Hb) as [Eb Nb], (octet_printed c Hc) as [Ec Nc], (octet_printed d Hd) as [Ed Nd].
  unfold inet_pton, inet_ntop. cbn [app]. rewrite !split_app, split_single by done. by rewrite Ea, Eb, Ec, Ed.
Qed.

(** An occurrence that nothing before it can start. *)
Lemma strstr_at (c : Z) (p a b : cstring) : c ∉ a -> strstr (c :: p) (a ++ (c :: p) ++ b) = Some (a, b).
Proof.
  intros Ha. induction a as [|x a IH].
  - cbn [app strstr]. change (c :: p ++ b) with ((c :: p) ++ b).
    rewrite (proj2 (starts_with_spec _ _)) by (by exists b). by rewrite drop_app_length.
  - apply not_elem_of_cons in Ha as [Hx Ha]. cbn [app strstr starts_with].
    rewrite (proj2 (Z.eqb_neq _ _)) by done. cbn [andb]. cbn [app] in IH. by rewrite IH.
Qed.
