(* ===== verification/Notify.v ===== *)
(** * The notifier (core/notify.c)

    The hook mediamtx runs: it posts a path event to the controller and turns
    the answer into an exit code.  The socket is a parameter: the results of
    its calls, in order.  A list of results that runs out is a call that has
    not returned. *)

From S2P Require Import Prelude Http Double Config EnvFile CLib Wire Controller ControllerFacts CtlSpec Wiring HttpFacts DurationFacts Json JsonFacts Callbacks CallbacksFacts.

Definition CONTROLLER_HOST : cstring := lit "127.0.0.1".
Definition ENV_FILE_PATH : cstring := lit "/strimserver.env".
Definition PORT_VAR : cstring := lit "CONTROLLER_HTTP_PORT".
Definition NOTIFY_ERR_CAP : Z := 256.
Definition BODY_CAP : Z := 256.
Definition REQUEST_CAP : Z := 512.
Definition RESPONSE_CAP : nat := 4096.

Definition is_json_safe (value : cstring) : bool :=
  negb (existsb (fun c => c =? 34) value) && negb (existsb (fun c => c =? 10) value) && negb (existsb (fun c => c =? 13) value).

Definition crlf : cstring := [13; 10].

Definition notify_body (path status : cstring) : cstring :=
  lit "{" ++ dq ++ lit "path" ++ dq ++ lit ":" ++ dq ++ path ++ dq ++ lit "," ++ dq ++ lit "status" ++ dq ++ lit ":" ++
  dq ++ status ++ dq ++ lit "}".

Definition notify_request (port_str body : cstring) : cstring :=
  lit "POST /event HTTP/1.1" ++ crlf ++ lit "Host: " ++ CONTROLLER_HOST ++ lit ":" ++ port_str ++ crlf ++
  lit "Content-Type: application/json" ++ crlf ++ lit "Content-Length: " ++ fmt_u64 (strlen body) ++ crlf ++
  lit "Connection: close" ++ crlf ++ crlf ++ body.

(** ** The socket *)

Inductive write_result := Wrote (n : nat) | WriteIntr | WriteFailed.
Inductive read_result := Got (data : bytes) | ReadIntr | ReadFailed.

(** Whether the whole request was written, and what was; [None]: a call has
    not returned. *)
Fixpoint write_loop (results : list write_result) (rest : bytes) : option bool * bytes :=
  match rest with
  | [] => (Some true, [])
  | _ =>
      match results with
      | [] => (None, [])
      | WriteFailed :: _ => (Some false, [])
      | WriteIntr :: results => write_loop results rest
      | Wrote n :: results => let '(ok, sent) := write_loop results (drop n rest) in (ok, take n rest ++ sent)
      end
  end.

(** The response; [Some None]: an error before any of it. *)
Fixpoint read_loop (results : list read_result) (response : bytes) : option (option bytes) :=
  match results with
  | [] => None
  | ReadIntr :: results => read_loop results response
  | ReadFailed :: _ => Some (match response with [] => None | _ => Some response end)
  | Got data :: results =>
      match take (RESPONSE_CAP - length response) data with
      | [] => Some (Some response)
      | data =>
          let response := response ++ data in
          if (length response =? RESPONSE_CAP)%nat then Some (Some response) else read_loop results response
      end
  end.

(** ** The status line *)

(** [%d]: the number and what follows it. *)
Definition scan_int (s : cstring) : option (Z * cstring) :=
  let '(v, rest) := strtol s in if streq rest s then None else Some (v, rest).

(** [sscanf(response, "HTTP/%*d.%*d %d", &status_code)] *)
Definition scan_status (response : cstring) : option Z :=
  if negb (starts_with (lit "HTTP/") response) then None
  else
    match scan_int (drop 5 response) with
    | Some (_, c :: r) =>
        if negb (c =? chr ".") then None
        else
          match scan_int r with
          | Some (_, r) => match scan_int (skip_while is_space r) with Some (v, _) => Some v | None => None end
          | None => None
          end
    | _ => None
    end.

(** ** main *)

Record notify_env := NotifyEnv {
  ne_environ : environ;
  ne_file : option bytes;                        (* the env file *)
  ne_setenv : cstring -> cstring -> bool;
  ne_socket : bool;
  ne_connect : bool;
  ne_writes : list write_result;
  ne_reads : list read_result;
}.

(** The exit code and what was sent; waiting in a call; or a response that
    fills the buffer and has no NUL, or a status that is not an [int]. *)
Inductive notify_result :=
  | NotifyExit (code : Z) (sent : bytes)
  | NotifyWaiting (sent : bytes)
  | NotifyUndefined (sent : bytes).

Definition judge (response sent : bytes) : notify_result :=
  if (length response =? RESPONSE_CAP)%nat && forallb (fun c => negb (c =? 0)) response then NotifyUndefined sent
  else
    match scan_status (c_string response) with
    | None => NotifyExit 1 sent
    | Some code =>
        if (code <? - 2 ^ 31) || (2 ^ 31 <=? code) then NotifyUndefined sent
        else NotifyExit (if (200 <=? code) && (code <? 300) then 0 else 1) sent
    end.

Definition exchange (env : notify_env) (request : bytes) : notify_result :=
  if negb (ne_socket env) then NotifyExit 1 []
  else if negb (ne_connect env) then NotifyExit 1 []
  else
    match write_loop (ne_writes env) request with
    | (None, sent) => NotifyWaiting sent
    | (Some false, sent) => NotifyExit 1 sent
    | (Some true, sent) =>
        match read_loop (ne_reads env) [] with
        | None => NotifyWaiting sent
        | Some None => NotifyExit 1 sent
        | Some (Some response) => judge response sent
        end
    end.

(** The port's text: of the environment, or of the env file. *)
Definition notify_port (env : notify_env) : option cstring :=
  match ne_environ env !! PORT_VAR with
  | Some ((_ :: _) as p) => Some p
  | _ =>
      let '(rc, environ, _) := source_env_file (ne_setenv env) ENV_FILE_PATH NOTIFY_ERR_CAP (ne_file env) (ne_environ env) in
      if negb (rc =? 0) then None
      else match environ !! PORT_VAR with Some ((_ :: _) as p) => Some p | _ => None end
  end.

(** [args] are the arguments after the program's name. *)
Definition notify_main (env : notify_env) (args : list cstring) : notify_result :=
  match args with
  | path :: status :: _ =>
      if negb (is_json_safe path) || negb (is_json_safe status) then NotifyExit 1 []
      else
        match notify_port env with
        | None => NotifyExit 1 []
        | Some port_str =>
            let '(port, port_end) := strtol port_str in
            if negb (streq port_end []) || (port <? 1) || (65535 <? port) then NotifyExit 1 []
            else
              let body := notify_body path status in
              if BODY_CAP <=? strlen body then NotifyExit 1 []
              else
                let request := notify_request port_str body in
                if REQUEST_CAP <=? strlen request then NotifyExit 1 [] else exchange env request
        end
  | _ => NotifyExit 2 []
  end.

Example notify_example :
  notify_main (NotifyEnv {[ PORT_VAR := lit "8080" ]} None (fun _ _ => true) true true [Wrote 20; WriteIntr; Wrote 500]
                 [Got (lit "HTTP/1.1 20"); Got (lit "4 No Content"); Got []]) [lit "ingress0"; lit "ready"] =
  NotifyExit 0 (notify_request (lit "8080") (lit "{" ++ dq ++ lit "path" ++ dq ++ lit ":" ++ dq ++ lit "ingress0" ++ dq ++
    lit "," ++ dq ++ lit "status" ++ dq ++ lit ":" ++ dq ++ lit "ready" ++ dq ++ lit "}")).
Proof. vm_compute. reflexivity. Qed.

(** * Correctness of the notifier

    From the hook's arguments through the HTTP lane to the controller, and
    back to the exit code. *)


(** ** Reading a decimal *)
Lemma digit_is (c : Z) : is_digit c = true -> is_space c = false /\ (c =? chr "-") = false /\ (c =? chr "+") = false.
Proof.
  unfold is_digit, is_space. change (chr "0") with 48. change (chr "9") with 57. change (chr "-") with 45. change (chr "+") with 43.
  intros H. bool_props. split_and!; [|lia..].
  rewrite (proj2 (Z.eqb_neq _ _)), (proj2 (Z.leb_gt c 13)), andb_false_r by lia. done.
Qed.

Lemma strtol_digits (ds rest : cstring) :
  forallb is_digit ds = true -> ds <> [] -> ends_number rest -> 0 <= decimal ds <= LONG_MAX ->
  strtol (ds ++ rest) = (decimal ds, rest).
Proof.
  intros Hds Hne Hr Hv. unfold strtol.
  destruct ds as [|c ds0]; [done|]. assert (Hc : is_digit c = true) by (cbn in Hds; by apply andb_true_iff in Hds as [? _]).
  destruct (digit_is c Hc) as (Hs & Hm & Hp). change ((c :: ds0) ++ rest) with (c :: ds0 ++ rest).
  cbn [skip_while]. rewrite Hs, Hm, Hp. change (c :: ds0 ++ rest) with ((c :: ds0) ++ rest). rewrite ul_digits_app by done.
  rewrite bool_decide_false by done. cbn [orb negb]. unfold decimal in *. f_equal.
  unfold LONG_MIN, LONG_MAX, INT64_MAX in *. lia.
Qed.

Lemma strtol_fmt (v : Z) (rest : cstring) : 0 <= v <= LONG_MAX -> ends_number rest -> strtol (fmt_u64 v ++ rest) = (v, rest).
Proof.
  intros Hv Hr. destruct (fmt_u64_digits v) as (H1 & H2 & H3); [unfold LONG_MAX, INT64_MAX in Hv; lia|].
  rewrite strtol_digits by (done || lia). by rewrite H2.
Qed.

Lemma scan_int_fmt (v : Z) (rest : cstring) : 0 <= v <= LONG_MAX -> ends_number rest -> scan_int (fmt_u64 v ++ rest) = Some (v, rest).
Proof.
  intros Hv Hr. unfold scan_int. rewrite strtol_fmt by done. destruct (fmt_u64_digits v) as (_ & _ & Hne); [unfold LONG_MAX, INT64_MAX in Hv; lia|].
  destruct (streq rest _) eqn:E; [|done]. apply streq_true in E. exfalso. apply Hne.
  apply (f_equal length) in E. rewrite length_app in E. destruct (fmt_u64 v); [done|cbn in E; lia].
Qed.

Lemma fmt_no (v c : Z) : 0 <= v < 2 ^ 64 -> is_digit c = false -> c ∉ fmt_u64 v.
Proof.
  intros Hv Hc Hin. destruct (fmt_u64_digits v Hv) as (H1 & _). rewrite forallb_forall in H1.
  apply list_elem_of_In, H1 in Hin. congruence.
Qed.

(** ** The request *)

(** A reader of HTTP/1.1 requests: the method, the target, the header fields
    and the body, whose length is announced. *)
Fixpoint read_headers (fuel : nat) (bs : bytes) : option (list (cstring * cstring) * bytes) :=
  match fuel with
  | O => None
  | S fuel =>
      match strstr crlf bs with
      | None => None
      | Some ([], rest) => Some ([], rest)
      | Some (line, rest) =>
          match strstr (lit ": ") line, read_headers fuel rest with
          | Some h, Some (hs, body) => Some (h :: hs, body)
          | _, _ => None
          end
      end
  end.

Record http_request := HttpRequest { hr_method : cstring; hr_target : cstring; hr_headers : list (cstring * cstring); hr_body : bytes }.

Definition read_request (bs : bytes) : option http_request :=
  match strstr crlf bs with
  | None => None
  | Some (line, rest) =>
      match split_on 32 line, read_headers (S (length rest)) rest with
      | [method; target; version], Some (hs, body) =>
          if streq version (lit "HTTP/1.1") && bool_decide ((lit "Content-Length", fmt_u64 (strlen body)) ∈ hs)
          then Some (HttpRequest method target hs body) else None
      | _, _ => None
      end
  end.

Lemma read_headers_line (fuel : nat) (k v rest body : bytes) (hs : list (cstring * cstring)) :
  58 ∉ k -> 13 ∉ k -> 13 ∉ v -> read_headers fuel rest = Some (hs, body) ->
  read_headers (S fuel) (k ++ lit ": " ++ v ++ crlf ++ rest) = Some ((k, v) :: hs, body).
Proof.
  intros Hk1 Hk2 Hv Hr. cbn [read_headers]. unfold crlf at 1.
  replace (k ++ lit ": " ++ v ++ crlf ++ rest) with ((k ++ lit ": " ++ v) ++ [13; 10] ++ rest) by (by rewrite <- !app_assoc).
  rewrite strstr_at by (rewrite !not_elem_of_app; split_and!; [done|by_decide|done]).
  destruct (k ++ lit ": " ++ v) as [|c line] eqn:El; [by apply app_eq_nil in El as [_ El]|]. rewrite <- El.
  change (lit ": ") with [58; 32]. rewrite strstr_at by done. by rewrite Hr.
Qed.

Definition notify_headers (port_str body : cstring) : list (cstring * cstring) :=
  [ (lit "Host", CONTROLLER_HOST ++ lit ":" ++ port_str); (lit "Content-Type", lit "application/json");
    (lit "Content-Length", fmt_u64 (strlen body)); (lit "Connection", lit "close") ].

Lemma notify_request_reads (port_str body : cstring) :
  13 ∉ port_str -> strlen body < 2 ^ 64 ->
  read_request (notify_request port_str body) = Some (HttpRequest (lit "POST") (lit "/event") (notify_headers port_str body) body).
Proof.
  intros Hp Hb. unfold read_request, notify_request. unfold crlf at 1 2.
  rewrite strstr_at by by_decide. set (rest := lit "Host: " ++ _).
  change (split_on 32 (lit "POST /event HTTP/1.1")) with [lit "POST"; lit "/event"; lit "HTTP/1.1"].
  assert (Hrest : rest = lit "Host" ++ lit ": " ++ (CONTROLLER_HOST ++ lit ":" ++ port_str) ++ crlf ++
    lit "Content-Type" ++ lit ": " ++ lit "application/json" ++ crlf ++
    lit "Content-Length" ++ lit ": " ++ fmt_u64 (strlen body) ++ crlf ++ lit "Connection" ++ lit ": " ++ lit "close" ++ crlf ++ crlf ++ body)
    by (unfold rest; rewrite <- !app_assoc; done).
  assert (Hfuel : exists n, S (length rest) = S (S (S (S (S n))))).
  { exists (length rest - 4)%nat. rewrite Hrest. cbn. lia. }
  destruct Hfuel as [n ->]. rewrite Hrest. pose proof (strlen_nonneg body).
  rewrite (read_headers_line _ (lit "Host") _ _ body (tail (notify_headers port_str body))); [|by_decide|by_decide|rewrite !not_elem_of_app; split_and!; [by_decide|by_decide|done]|].
  - change (_ :: tail _) with (notify_headers port_str body).
    rewrite bool_decide_eq_true_2 by (unfold notify_headers; do 2 apply list_elem_of_further; apply list_elem_of_here). done.
  - apply read_headers_line; [by_decide|by_decide|by_decide|].
    apply read_headers_line; [by_decide|by_decide|by apply fmt_no|].
    apply (read_headers_line _ (lit "Connection") (lit "close")); [by_decide|by_decide|by_decide|].
    cbn [read_headers]. change (strstr crlf (crlf ++ body)) with (strstr [13; 10] ([] ++ [13; 10] ++ body)).
    by rewrite strstr_at by apply not_elem_of_nil.
Qed.

(** ** The body *)

(** Characters that stand for themselves in a JSON string. *)
Definition plain (s : cstring) : Prop := Forall (fun c => quoted_byte c = [c] /\ 0 <= c) s.

Lemma plain_quoted (s : cstring) : plain s -> concat (map quoted_byte s) = s.
Proof. induction 1 as [|c s [Hc _] _ IH]; [done|]. cbn. by rewrite Hc, IH. Qed.

Lemma plain_text (s : cstring) : plain s -> text_ok s.
Proof. intros H. eapply Forall_impl; [exact H|]. by intros c [_ ?]. Qed.

(** Printable ASCII. *)
Definition ascii_text (s : bytes) : Prop := Forall (fun c => 32 <= c < 127) s.

(** What a JSON parser does with an object of ASCII strings: it reads back
    the members that were written. *)
Definition reads_ascii_objects (yyjson_read : bytes -> option jval) : Prop :=
  forall ms : list (bytes * bytes), Forall (fun m => ascii_text m.1 /\ ascii_text m.2) ms ->
    let doc := JObj (map (fun m => (m.1, JStr m.2)) ms) in yyjson_read (render doc) = Some doc.

Lemma ascii_text_ok (s : bytes) : ascii_text s -> text_ok s.
Proof. intros H. eapply Forall_impl; [exact H|]. cbn. lia. Qed.

Lemma read_json_ascii : reads_ascii_objects read_json.
Proof.
  intros ms Hms doc. apply read_json_render, doc_ok_obj, Forall_map. eapply Forall_impl; [exact Hms|].
  intros [k v] [Hk Hv]. split; by apply ascii_text_ok.
Qed.

Definition event_doc (path status : cstring) : jval := JObj [(lit "path", JStr path); (lit "status", JStr status)].

Lemma body_renders (path status : cstring) :
  plain path -> plain status -> notify_body path status = render (event_doc path status).
Proof.
  intros Hp Hs. unfold notify_body, event_doc. cbn [render map commas fst snd]. unfold quoted. rewrite (plain_quoted path), (plain_quoted status) by done.
    repeat (simpl; rewrite <- ?app_assoc). done.
Qed.

Instance plain_dec s : Decision (plain s).
Proof. unfold plain. apply _. Defined.
Instance ascii_dec s : Decision (ascii_text s).
Proof. unfold ascii_text. apply _. Defined.

(** The names of the tables are plain and accepted by the notifier. *)
Lemma names_are_plain (p : cstring) :
  p ∈ k_path_name_strs ++ k_path_status_strs -> (plain p /\ ascii_text p) /\ is_json_safe p = true /\ strlen p <= 20 /\ c_string p = p.
Proof.
  assert (H : Forall (fun p => (plain p /\ ascii_text p) /\ is_json_safe p = true /\ strlen p <= 20 /\ c_string p = p) (k_path_name_strs ++ k_path_status_strs)) by by_decide.
  rewrite Forall_forall in H. apply H.
Qed.

(** ** The answer *)
Lemma scan_status_line (code : Z) (more : cstring) :
  0 <= code < 2 ^ 31 -> scan_status (lit "HTTP/1.1 " ++ fmt_u64 code ++ 32 :: more) = Some code.
Proof.
  intros Hc. assert (Hl : 0 <= code <= LONG_MAX) by (unfold LONG_MAX, INT64_MAX; lia). unfold scan_status.
  rewrite (proj2 (starts_with_spec (lit "HTTP/") _)) by (by eexists). cbn [negb].
  change (drop 5 _) with (fmt_u64 1 ++ 46 :: fmt_u64 1 ++ 32 :: fmt_u64 code ++ 32 :: more).
  rewrite (scan_int_fmt 1 (46 :: _)) by done. change (negb (46 =? chr ".")) with false. cbv iota.
  rewrite scan_int_fmt by done. 
  destruct (fmt_u64_head code) as (c & ds & E & Hd); [lia|].
  assert (Hsk : skip_while is_space (32 :: fmt_u64 code ++ 32 :: more) = fmt_u64 code ++ 32 :: more).
  { cbn [skip_while]. change (is_space 32) with true. cbv iota. rewrite E. cbn [app skip_while].
    destruct (digit_is c) as [-> _]; [|done]. unfold is_digit. change (chr "0") with 48. change (chr "9") with 57.
    apply andb_true_iff. split; apply Z.leb_le; lia. }
  rewrite Hsk, scan_int_fmt by done. done.
Qed.

(** ** The exchange *)
Lemma write_loop_sent (results : list write_result) (rest sent : bytes) :
  write_loop results rest = (Some true, sent) -> sent = rest.
Proof.
  revert rest sent. induction results as [|[n| |] results IH]; intros rest sent; destruct rest as [|b rest]; cbn [write_loop]; try (by intros [= <-]); try done.
  - destruct (write_loop results (drop n (b :: rest))) as [ok s] eqn:E. intros [= -> <-]. apply IH in E as ->. by rewrite take_drop.
  - apply IH.
Qed.

Lemma c_string_keeps (text rest : bytes) : Forall (fun c => c <> 0) text -> c_string (text ++ rest) = text ++ c_string rest.
Proof. induction 1 as [|c text Hc Ht IH]; [done|]. cbn [app c_string]. rewrite (proj2 (Z.eqb_neq c 0)) by done. by rewrite IH. Qed.

Lemma judge_status_line (code : Z) (more sent : bytes) (response : bytes) :
  0 <= code < 2 ^ 31 -> response = lit "HTTP/1.1 " ++ fmt_u64 code ++ 32 :: more -> (length response < RESPONSE_CAP)%nat ->
  judge response sent = NotifyExit (if (200 <=? code) && (code <? 300) then 0 else 1) sent.
Proof.
  intros Hc -> Hlen. unfold judge. rewrite (proj2 (Nat.eqb_neq _ _)) by lia. cbn [andb].
  replace (lit "HTTP/1.1 " ++ fmt_u64 code ++ 32 :: more) with ((lit "HTTP/1.1 " ++ fmt_u64 code ++ [32]) ++ more) by (by rewrite <- !app_assoc).
  rewrite c_string_keeps.
  2:{ apply Forall_app. split; [by_decide|]. apply Forall_app. split; [|by_decide].
      apply Forall_forall. intros x Hx ->. by apply (fmt_no code 0) in Hx; [|lia|]. }
  rewrite <- !app_assoc. cbn [app]. rewrite (scan_status_line code) by done.
  rewrite (proj2 (Z.ltb_ge _ _)), (proj2 (Z.leb_gt _ _)) by lia. done.
Qed.

Lemma fmt_u64_len (v : Z) : strlen (fmt_u64 v) <= 20.
Proof.
  assert (H : forall fuel v tail, (length (dec_digits fuel v tail) <= fuel + length tail)%nat).
  { induction fuel as [|fuel IH]; intros v' tail; cbn [dec_digits]; [lia|].
    destruct (0 <? v'); [|lia]. etrans; [apply IH|]. cbn [length]. lia. }
  unfold fmt_u64, strlen. destruct (v =? 0); [cbn; lia|]. specialize (H 20%nat v []). cbn [length] in H. lia.
Qed.

Lemma notify_main_exchanges (env : notify_env) (port : Z) (p s : cstring) :
  1 <= port <= 65535 -> ne_environ env !! PORT_VAR = Some (fmt_u64 port) -> is_json_safe p = true -> is_json_safe s = true ->
  strlen (notify_body p s) <= 65 -> notify_main env [p; s] = exchange env (notify_request (fmt_u64 port) (notify_body p s)).
Proof.
  intros Hport Henv Jp Js Hb. unfold notify_main. rewrite Jp, Js. cbn [negb orb].
  destruct (fmt_u64_digits port) as (_ & _ & Hne); [lia|].
  assert (Hp : notify_port env = Some (fmt_u64 port)) by (unfold notify_port; rewrite Henv; by destruct (fmt_u64 port)).
  rewrite Hp. pose proof (strtol_fmt port [] ltac:(unfold LONG_MAX, INT64_MAX; lia) ltac:(done)) as Hstr.
  rewrite app_nil_r in Hstr. rewrite Hstr, streq_refl, (proj2 (Z.ltb_ge port 1)), (proj2 (Z.ltb_ge 65535 port)) by lia. cbn [negb orb].
  unfold BODY_CAP, REQUEST_CAP. rewrite (proj2 (Z.leb_gt 256 _)) by lia.
  rewrite (proj2 (Z.leb_gt 512 _)); [done|]. pose proof (fmt_u64_len port). pose proof (fmt_u64_len (strlen (notify_body p s))).
  unfold notify_request. rewrite !strlen_app. unfold strlen in *. cbn [length lit CONTROLLER_HOST crlf]. lia.
Qed.

(** C16: the notifier end to end.  With a path and a status of the wire tables,
    a port, a controller that can be reached and takes the whole request, and
    a parser that reads objects of ASCII strings, the request that is written
    reads as a POST of exactly one JSON document to /event; the HTTP lane,
    however the body is cut, submits exactly that path event and answers 204
    or 500; and the exit code, read from the status line of an answer of less
    than 4096 bytes, is 0 exactly when the controller accepted the event. *)
Theorem notify_reaches_the_controller (yyjson_read : bytes -> option jval)
    (call : ptr -> ptr -> strim_controller -> Z) (sd : bool) (o : Z -> fire_oracle) (c : strim_controller)
    (handle_status : Z * bytes) (version commit : cstring) (junk : bytes) (h : headers)
    (env : notify_env) (port v w : Z) (p s : cstring) :
  1 <= port <= 65535 -> ne_environ env !! PORT_VAR = Some (fmt_u64 port) -> ne_socket env = true -> ne_connect env = true ->
  0 <= v -> k_path_name_strs !! Z.to_nat v = Some p -> 0 <= w -> k_path_status_strs !! Z.to_nat w = Some s ->
  reads_ascii_objects yyjson_read ->
  (write_loop (ne_writes env) (notify_request (fmt_u64 port) (notify_body p s))).1 = Some true ->
  let submit a := (run_action call sd o c a).1.1 in
  let act := ACTION_PATH_EVENT (PathEvent v w) in
  exists sent body,
    read_request sent = Some (HttpRequest (lit "POST") (lit "/event") (notify_headers (fmt_u64 port) body) body) /\
    (http_handle_event yyjson_read submit STRIM_HTTP_ERRBUF_MAX body).2 = Some act /\
    forall chunks, concat chunks = body ->
    exists r,
      answer_cb (event_handler yyjson_read submit) (control_handler yyjson_read submit) handle_status
        version commit junk h (Some (lit "POST")) (Some (lit "/event")) chunks =
      (CallEvent body :: (if rp_result (submit act) =? 0 then [CallReconcile] else []), Answer r) /\
      rs_status r = (if rp_result (submit act) =? 0 then 204 else 500) /\
      forall response more,
        read_loop (ne_reads env) [] = Some (Some response) -> (length response < RESPONSE_CAP)%nat ->
        response = lit "HTTP/1.1 " ++ fmt_u64 (rs_status r) ++ 32 :: more ->
        notify_main env [p; s] = NotifyExit (if rp_result (submit act) =? 0 then 0 else 1) sent.
Proof.
  intros Hport Henv Hsock Hconn Hv Hp Hw Hs Hyy Hwr submit act.
  destruct (names_are_plain p) as ([Pp Ap] & Jp & Lp & Cp); [apply elem_of_app; left; by eapply list_elem_of_lookup_2|].
  destruct (names_are_plain s) as ([Ps As] & Js & Ls & Cs); [apply elem_of_app; right; by eapply list_elem_of_lookup_2|].
  pose proof (body_renders p s Pp Ps) as Hbody. set (body := notify_body p s) in *.
  assert (Hblen : strlen body <= 65) by (unfold body, notify_body; rewrite !strlen_app; unfold strlen in *; cbn [length lit dq]; lia).
  destruct (write_loop (ne_writes env) _) as [ok sent] eqn:Ew. cbn [fst] in Hwr. subst ok.
  pose proof (write_loop_sent _ _ _ Ew) as ->. set (sent := notify_request (fmt_u64 port) body) in *.
  assert (Hread : yyjson_read body = Some (event_doc p s)) 
    by (rewrite Hbody; apply (Hyy [(lit "path", p); (lit "status", s)]); constructor; [split; [by_decide|done]|];
        constructor; [split; [by_decide|done]|constructor]).
  assert (Hspells : spells true [(lit "path", JStr p); (lit "status", JStr s)] v w).
  { exists p, s. rewrite Cp, Cs. by split_and!. }
  exists sent, body.
  split; [apply notify_request_reads; [apply fmt_no; [lia|done]|lia]|].
  split; [pose proof (request_spelled true yyjson_read submit body _ v w Hread Hspells) as Hr; cbv zeta in Hr; cbn [request_outcome] in Hr; by rewrite Hr|].
  intros chunks Hch.
  destruct (request_answered true yyjson_read call sd o c handle_status version commit junk h chunks _ v w
    ltac:(rewrite Hch; unfold STRIM_HTTP_BODY_MAX; unfold strlen in Hblen; lia) ltac:(rewrite Hch; exact Hread) Hspells) as (_ & r & Hans & Hst).
  cbv zeta in Hans, Hst. rewrite Hch in Hans. exists r. split; [exact Hans|].
  assert (Hcode : rs_status r = if rp_result (submit act) =? 0 then 204 else 500)
    by (apply (f_equal fst) in Hst; cbn [fst] in Hst; rewrite Hst; change (run_action call sd o c (request_action true v w)).1.1 with (submit act); by destruct (_ =? 0)).
  split; [exact Hcode|]. intros response more Hrd Hlen Hresp.
  clear Hst. rewrite Hcode in Hresp. clear Hcode.
  rewrite (notify_main_exchanges env port p s) by (done || lia). fold body. fold sent. unfold exchange. rewrite Hsock, Hconn, Ew, Hrd. cbn [negb].
  destruct (rp_result (submit act) =? 0).
  - rewrite (judge_status_line 204 more sent response) by (done || lia). done.
  - rewrite (judge_status_line 500 more sent response) by (done || lia). done.
Qed.

(** The controller of the two-stage pipeline is told that the stream is up;
    the parser is the reference reader. *)
Definition notify_env1 : notify_env :=
  NotifyEnv {[ PORT_VAR := fmt_u64 8080 ]} None (fun _ _ => true) true true [Wrote 30; WriteIntr; Wrote 400]
    [Got (lit "HTTP/1.1 20"); Got (lit "4 No Content"); Got []].

Lemma notify_reaches_the_controller_witness :
  exists sent body,
    read_request sent = Some (HttpRequest (lit "POST") (lit "/event") (notify_headers (fmt_u64 8080) body) body) /\
    (http_handle_event read_json (fun a => (run_action call_main_prerequisite false (fun _ => FireOracle false 0 0 true 0)
       (main_controller 0 false 30000 16) a).1.1) STRIM_HTTP_ERRBUF_MAX body).2 =
    Some (ACTION_PATH_EVENT (PathEvent STRIM_PATH_INGRESS0 STRIM_PATH_READY)) /\
    notify_main notify_env1 [lit "ingress0"; lit "ready"] = NotifyExit 0 sent.
Proof.
  assert (He : ne_environ notify_env1 !! PORT_VAR = Some (fmt_u64 8080)) by reflexivity.
  assert (Hw : (write_loop (ne_writes notify_env1) (notify_request (fmt_u64 8080) (notify_body (lit "ingress0") (lit "ready")))).1 = Some true)
    by (vm_compute; reflexivity).
  destruct (notify_reaches_the_controller read_json call_main_prerequisite false (fun _ => FireOracle false 0 0 true 0)
    (main_controller 0 false 30000 16) (0, []) [] [] [] (Headers None None None None) notify_env1 8080 STRIM_PATH_INGRESS0 STRIM_PATH_READY
    (lit "ingress0") (lit "ready") ltac:(lia) He eq_refl eq_refl ltac:(done) eq_refl ltac:(done) eq_refl read_json_ascii Hw)
    as (sent & body & H1 & H2 & H3).
  exists sent, body. split; [exact H1|]. split; [exact H2|].
  destruct (H3 [body] (app_nil_r body)) as (r & _ & Hst & Hexit).
  apply (Hexit (lit "HTTP/1.1 204 No Content") (lit "No Content")).
  - vm_compute. reflexivity.
  - apply Nat.ltb_lt. vm_compute. reflexivity.
  - rewrite Hst. vm_compute. reflexivity.
Defined.
