(* ===== verification/Entrypoint.v ===== *)
(** * The entrypoint of the mediamtx container (core/entrypoint.c)

    It sources the env file, falls back to the mounted secret, removes a stale
    socket, renders the configuration and becomes mediamtx.  The files, the C
    library's refusals and execve are parameters. *)

From S2P Require Import Prelude Http HttpFacts Double Config EnvFile EnvFileFacts CLib.

Definition DEFAULT_ENV_FILE : cstring := lit "/strimserver.env".
Definition DEFAULT_TEMPLATE : cstring := lit "/mediamtx.yaml.template".
Definition DEFAULT_OUTPUT : cstring := lit "/mediamtx.yaml".
Definition DEFAULT_NICE : cstring := lit "-10".
Definition MEDIAMTX_BIN : cstring := lit "/mediamtx".
Definition SECRET_CAP : nat := 4096.
Definition ENTRY_ERR_CAP : Z := 1024.
Definition PASSPHRASE_VAR : cstring := lit "SRT_PUBLISH_PASSPHRASE".

Definition env_or_default (environ : environ) (name fallback : cstring) : cstring :=
  match environ !! name with None | Some [] => fallback | Some value => value end.

Record entry_env := EntryEnv {
  ee_environ : environ;
  ee_file : cstring -> option bytes;             (* the env file at a path *)
  ee_setenv : cstring -> cstring -> bool;
  ee_secret : option bytes;                      (* the secret, when it can be opened *)
  ee_secret_error : bool;                        (* a read error on it *)
  ee_io : cstring -> cstring -> expand_io;       (* for a template and an output *)
  ee_setpriority : Z -> bool;
  ee_exec : bool;                                (* execve does not return *)
}.

(** The environment afterwards; [None]: the error return. *)
Definition load_srt_secret (env : entry_env) (environ : environ) : option EnvFile.environ :=
  match environ !! PASSPHRASE_VAR with
  | Some (_ :: _) => Some environ
  | _ =>
      match ee_secret env with
      | None => Some environ
      | Some f =>
          let value := take (SECRET_CAP - 1) f in
          if (length value =? SECRET_CAP - 1)%nat && negb (ee_secret_error env) && (SECRET_CAP - 1 <? length f)%nat then None
          else if ee_secret_error env then None
          else
            let value := c_string (trim_end (fun c => (c =? 10) || (c =? 13)) value) in
            if ee_setenv env PASSPHRASE_VAR value then Some (<[PASSPHRASE_VAR := value]> environ) else None
      end
  end.

(** What the entrypoint does to the system. *)
Inductive entry_act :=
  | Unlink (path : cstring)
  | Render (template_path output_path : cstring) (rc : Z) (result : output)
  | SetPriority (nice : Z).

(** The process ends with a code, or becomes mediamtx with its arguments and
    environment; a nice level that is not an [int] is undefined. *)
Inductive entry_result :=
  | EntryExit (code : Z) (acts : list entry_act)
  | EntryExec (acts : list entry_act) (argv : list cstring) (environ : environ)
  | EntryUndefined (acts : list entry_act).

Definition entry_main (env : entry_env) (args : list cstring) : entry_result :=
  let render_only := existsb (streq (lit "--render-only")) args in
  let env_file := env_or_default (ee_environ env) (lit "STRIMSERVER_ENV_FILE") DEFAULT_ENV_FILE in
  let '(rc, environ, _) := source_env_file (ee_setenv env) env_file ENTRY_ERR_CAP (ee_file env env_file) (ee_environ env) in
  if negb (rc =? 0) then EntryExit 1 []
  else
    match load_srt_secret env environ with
    | None => EntryExit 1 []
    | Some environ =>
        let unlinked := match environ !! lit "NORMALIZED_MPEGTS_SOCKET" with Some p => [Unlink p] | None => [] end in
        let template_path := env_or_default environ (lit "STRIMSERVER_TEMPLATE") DEFAULT_TEMPLATE in
        let output_path := env_or_default environ (lit "STRIMSERVER_OUTPUT") DEFAULT_OUTPUT in
        let '(rc, result) := expand_template_file (fun n => environ !! n) (ee_io env template_path output_path) in
        let acts := unlinked ++ [Render template_path output_path rc result] in
        if negb (rc =? 0) then EntryExit 1 acts
        else if render_only then EntryExit 0 acts
        else
          match atoi (default DEFAULT_NICE (environ !! lit "MEDIAMTX_NICE")) with
          | None => EntryUndefined acts
          | Some nice =>
              let acts := acts ++ [SetPriority nice] in
              if ee_exec env then EntryExec acts [lit "mediamtx"; output_path] environ else EntryExit 1 acts
          end
    end.

(** ** What it guarantees *)

(** The configuration an environment gives to mediamtx. *)
Definition secret_value (f : bytes) : cstring := c_string (trim_end (fun c => (c =? 10) || (c =? 13)) f).

Definition with_secret (env : entry_env) (environ : environ) : EnvFile.environ :=
  match environ !! PASSPHRASE_VAR, ee_secret env with
  | (None | Some []), Some f => <[PASSPHRASE_VAR := secret_value f]> environ
  | _, _ => environ
  end.

Lemma load_secret_spec (env : entry_env) (environ : environ) :
  (forall n v, ee_setenv env n v = true) -> ee_secret_error env = false ->
  (forall f, ee_secret env = Some f -> (length f < SECRET_CAP)%nat) ->
  load_srt_secret env environ = Some (with_secret env environ).
Proof.
  intros Hset Herr Hlen. unfold load_srt_secret, with_secret. rewrite Herr.
  assert (Hf : forall f, ee_secret env = Some f ->
    (length (take (SECRET_CAP - 1) f) =? SECRET_CAP - 1)%nat && negb false && (SECRET_CAP - 1 <? length f)%nat = false /\ take (SECRET_CAP - 1) f = f).
  { intros f Hs. specialize (Hlen f Hs). rewrite take_ge by lia. split; [|done].
    rewrite (proj2 (Nat.ltb_ge _ (length f))) by lia. by rewrite andb_false_r. }
  destruct (environ !! PASSPHRASE_VAR) as [[|c v]|]; [|done|];
    (destruct (ee_secret env) as [f|]; [|done]); destruct (Hf f eq_refl) as [-> ->]; by rewrite Hset.
Qed.

(** The failing paths. *)
Definition rendered (r : entry_result) : Prop :=
  let acts := match r with EntryExit _ a | EntryExec a _ _ | EntryUndefined a => a end in
  exists t o contents, Render t o 0 (OutFile contents) ∈ acts.

Lemma expand_ok_is_file (getenv : cstring -> option cstring) (io : expand_io) (result : output) :
  expand_template_file getenv io = (0, result) -> exists contents, result = OutFile contents.
Proof.
  unfold expand_template_file. destruct (io_template io); [|done]. destruct (io_alloc io 8192); [|done]. cbn [negb].
  destruct (read_all _ _ _ _ _); [|done]. destruct (io_out_opens io); [|done]. cbn [negb].
  destruct (first_failure _ _ _); [done|]. destruct (io_close_ok io); [|done]. intros [= <-]. by eexists.
Qed.

(** mediamtx is never started without its configuration: the process only
    becomes mediamtx, and only succeeds, after a rendering that was written
    completely; it is then started on the file that was rendered, with the
    environment the template was rendered in.  With --render-only it is not
    started at all.  In every other case the exit code is 1. *)
Theorem mediamtx_needs_its_configuration (env : entry_env) (args : list cstring) :
  match entry_main env args with
  | EntryExec acts argv environ =>
      lit "--render-only" ∉ args /\
      exists t o contents, argv = [lit "mediamtx"; o] /\ Render t o 0 (OutFile contents) ∈ acts /\
        expand_template_file (fun n => environ !! n) (ee_io env t o) = (0, OutFile contents)
  | EntryExit code acts =>
      code = 0 /\ lit "--render-only" ∈ args /\ rendered (EntryExit code acts) \/ code = 1
  | EntryUndefined acts => rendered (EntryUndefined acts) /\ lit "--render-only" ∉ args
  end.
Proof.
  unfold entry_main. destruct (source_env_file _ _ _ _ _) as [[rc environ] err]. destruct (rc =? 0); cbn [negb]; [|by right].
  destruct (load_srt_secret env environ) as [environ1|]; [|by right].
  set (t := env_or_default environ1 (lit "STRIMSERVER_TEMPLATE") _). set (o := env_or_default environ1 (lit "STRIMSERVER_OUTPUT") _).
  destruct (expand_template_file _ (ee_io env t o)) as [rc1 result] eqn:Ex.
  destruct (Z.eqb_spec rc1 0) as [->|]; cbn [negb]; [|by right].
  destruct (expand_ok_is_file _ _ _ Ex) as [contents ->].
  assert (Hin : forall (a b : list entry_act), Render t o 0 (OutFile contents) ∈ (a ++ [Render t o 0 (OutFile contents)]) ++ b)
    by (intros a b; rewrite <- app_assoc, !elem_of_app; right; left; apply list_elem_of_here).
  destruct (existsb (streq (lit "--render-only")) args) eqn:Er.
  - left. split; [done|]. split; [|exists t, o, contents; specialize (Hin (match environ1 !! lit "NORMALIZED_MPEGTS_SOCKET" with Some p => [Unlink p] | None => [] end) []); by rewrite app_nil_r in Hin].
    apply existsb_exists in Er as (x & Hx & E). apply streq_true in E as <-. by apply list_elem_of_In.
  - assert (Hno : lit "--render-only" ∉ args).
    { intros Hx. assert (existsb (streq (lit "--render-only")) args = true); [|congruence].
      apply existsb_exists. exists (lit "--render-only"). split; [by apply list_elem_of_In|apply streq_refl]. }
    destruct (atoi _) as [nice|].
    + destruct (ee_exec env); [|by right]. split; [done|]. exists t, o, contents. split; [done|]. split; [apply Hin|done].
    + split; [|done]. exists t, o, contents. specialize (Hin (match environ1 !! lit "NORMALIZED_MPEGTS_SOCKET" with Some p => [Unlink p] | None => [] end) []). by rewrite app_nil_r in Hin.
Qed.

(** the environment and the configuration mediamtx gets.  With a legal env
    file, a secret that fits its buffer and a template of legal pieces, and
    nothing failing, mediamtx is started on the rendered file: the environment
    is the given one with the file's assignments in order and, where the
    passphrase is then still unset or empty, the secret without its trailing
    line ends; and the file is the template with every reference replaced by
    its value in that environment. *)
Theorem entrypoint_starts_mediamtx (env : entry_env) (args : list cstring) (items : list item) (ps : list piece) (nice : Z) :
  let env_file := env_or_default (ee_environ env) (lit "STRIMSERVER_ENV_FILE") DEFAULT_ENV_FILE in
  let environ := with_secret env (fold_left item_effect items (ee_environ env)) in
  let template_path := env_or_default environ (lit "STRIMSERVER_TEMPLATE") DEFAULT_TEMPLATE in
  let output_path := env_or_default environ (lit "STRIMSERVER_OUTPUT") DEFAULT_OUTPUT in
  let io := ee_io env template_path output_path in
  lit "--render-only" ∉ args -> Forall item_ok items -> ee_file env env_file = Some (listing items) ->
  (forall n v, ee_setenv env n v = true) -> ee_secret_error env = false ->
  (forall f, ee_secret env = Some f -> (length f < SECRET_CAP)%nat) ->
  pieces_ok ps -> io_template io = Some (render_all ps) ->
  (forall n, io_alloc io n = true) -> io_read_error io = false -> io_out_opens io = true ->
  (forall n, io_write_ok io n = true) -> io_close_ok io = true ->
  atoi (default DEFAULT_NICE (environ !! lit "MEDIAMTX_NICE")) = Some nice -> ee_exec env = true ->
  exists acts,
    entry_main env args = EntryExec acts [lit "mediamtx"; output_path] environ /\
    acts = match environ !! lit "NORMALIZED_MPEGTS_SOCKET" with Some p => [Unlink p] | None => [] end ++
           [Render template_path output_path 0 (OutFile (concat (map (meaning (fun n => environ !! n)) ps))); SetPriority nice].
Proof.
  cbv zeta. intros Hno Hit Hfile Hset Herr Hsec Hps Htpl Ha Hre Hop Hw Hcl Hnice Hexec.
  unfold entry_main. rewrite Hfile. unfold source_env_file. rewrite source_items by done. cbn [negb Z.eqb]. rewrite load_secret_spec by done.
  destruct (template_rendered (fun n => with_secret env (fold_left item_effect items (ee_environ env)) !! n) _ ps Hps Htpl) as [_ Ht].
  rewrite (Ht Ha Hre Hop Hw Hcl). cbn [negb Z.eqb].
  assert (Er : existsb (streq (lit "--render-only")) args = false).
  { destruct (existsb _ args) eqn:E; [|done]. exfalso. apply Hno. apply existsb_exists in E as (x & Hx & E).
    apply streq_true in E as <-. by apply list_elem_of_In. }
  rewrite Er, Hnice, Hexec. eexists. split; [done|]. by rewrite <- app_assoc.
Qed.

(** A container with a secret and an address in its env file. *)
Definition demo_items : list item := [IComment [] (lit " settings"); IAssign [] true (lit "PORT") true (lit "9000")].
Definition demo_template : list piece := [PChar (chr "p"); PChar (chr "="); PBraced (lit "PORT"); PChar (chr " "); PBare PASSPHRASE_VAR].
Definition demo_entry : entry_env :=
  EntryEnv ∅ (fun _ => Some (listing demo_items)) (fun _ _ => true) (Some (lit "s3cret" ++ [13; 10])) false
    (fun _ _ => ExpandIo (Some (render_all demo_template)) (fun _ => true) false true (fun _ => true) true)
    (fun _ => true) true.

Lemma entrypoint_starts_mediamtx_witness :
  exists acts environ, entry_main demo_entry [] = EntryExec acts [lit "mediamtx"; DEFAULT_OUTPUT] environ /\
    Render DEFAULT_TEMPLATE DEFAULT_OUTPUT 0 (OutFile (lit "p=9000 s3cret")) ∈ acts.
Proof.
  destruct (entrypoint_starts_mediamtx demo_entry [] demo_items demo_template (-10)) as (acts & H & ->).
  - apply not_elem_of_nil.
  - constructor; [|constructor; [|constructor]].
    all: split_and!; try (by vm_compute); try (vm_compute; lia); try (intros; by vm_compute).
    all: repeat constructor; by vm_compute.
  - reflexivity.
  - done.
  - done.
  - intros f [= <-]. vm_compute. lia.
  - cbn [pieces_ok piece_ok demo_template]. split_and!; try (by vm_compute); try (simpl; lia).
  - reflexivity.
  - done.
  - done.
  - done.
  - done.
  - done.
  - vm_compute. reflexivity.
  - done.
  - eexists _, _. split; [exact H|]. vm_compute. apply list_elem_of_here.
Defined.
