(* ===== verification/DnsWire.v ===== *)
(** * The DNS codec (tools/ddns/dns_wire.c)

    Parsing of a query and building of a response.  A buffer that is read is
    the list of its bytes; one that is written is what has been written so
    far, with its capacity. *)

From S2P Require Import Prelude Http Double Config EnvFile CLib.

Definition DNS_WIRE_TYPE_A : Z := 1.
Definition DNS_WIRE_TYPE_NS : Z := 2.
Definition DNS_WIRE_TYPE_CNAME : Z := 5.
Definition DNS_WIRE_TYPE_AAAA : Z := 28.
Definition DNS_WIRE_CLASS_IN : Z := 1.
Definition DNS_WIRE_RCODE_NOERROR : Z := 0.
Definition DNS_WIRE_RCODE_SERVFAIL : Z := 2.
Definition DNS_WIRE_RCODE_NXDOMAIN : Z := 3.
Definition DNS_WIRE_RCODE_REFUSED : Z := 5.
Definition DNS_WIRE_NAME_MAX : Z := 255.
Definition DNS_WIRE_LABEL_MAX : Z := 63.
Definition DNS_WIRE_HDR_LEN : Z := 12.

(** The size of [question_raw]. *)
Definition QUESTION_RAW_CAP : Z := DNS_WIRE_NAME_MAX + 1 + 4.

Record dns_wire_query := DnsQuery {
  q_id : Z;
  q_flags : Z;
  q_name : bytes;
  q_qtype : Z;
  q_qclass : Z;
  q_question_raw : bytes;          (* the first [question_len] bytes *)
}.

Record dns_wire_answer := DnsAnswer {
  a_owner : cstring;
  a_type : Z;
  a_data : cstring;
  a_ttl : Z;
}.

(** [(hi << 8) | lo] *)
Definition word16 (hi lo : Z) : Z := Z.lor (Z.shiftl hi 8) lo.

(** ** Names *)

(** The octets written at [pos], the root octet included. *)
Fixpoint encode_labels (fuel : nat) (name : cstring) (pos cap : Z) : option bytes :=
  match fuel with
  | O => None
  | S fuel' =>
      match name with
      | [] => if cap <? pos + 1 then None else Some [0]
      | _ =>
          let '(label, rest) := default (name, []) (cut_at (chr ".") name) in
          let n := strlen label in
          if (n =? 0) || (DNS_WIRE_LABEL_MAX <? n) then None
          else if cap <? pos + 1 + n then None
          else
            match encode_labels fuel' rest (pos + 1 + n) cap with
            | None => None
            | Some bs => Some (u8 n :: label ++ bs)
            end
      end
  end.

Definition encode_name (name : cstring) (cap off : Z) : option bytes := encode_labels (S (length name)) name off cap.

(** The loop over the labels of a question: the name, and what follows the
    root octet. *)
Fixpoint name_loop (fuel : nat) (buf name : bytes) : option (bytes * bytes) :=
  match fuel with
  | O => None
  | S fuel' =>
      match buf with
      | [] => None
      | l :: buf =>
          if l =? 0 then Some (name, buf)
          else if negb (Z.land l 192 =? 0) then None
          else if DNS_WIRE_LABEL_MAX <? l then None
          else if (strlen buf <? l) || (DNS_WIRE_NAME_MAX <? strlen name + l + 1) then None
          else
            let name := if 0 <? strlen name then name ++ [chr "."] else name in
            name_loop fuel' (drop (Z.to_nat l) buf) (name ++ map tolower (take (Z.to_nat l) buf))
      end
  end.

(** ** Queries *)

Definition dns_wire_parse_query (buf : option bytes) : option dns_wire_query :=
  match buf with
  | Some (b0 :: b1 :: b2 :: b3 :: b4 :: b5 :: _ :: _ :: _ :: _ :: _ :: _ :: question) =>
      if negb (Z.land b2 128 =? 0) then None
      else if negb (word16 b4 b5 =? 1) then None
      else
        match name_loop (S (length question)) question [] with
        | Some (name, t0 :: t1 :: c0 :: c1 :: rest) =>
            Some (DnsQuery (word16 b0 b1) (word16 b2 b3) name (word16 t0 t1) (word16 c0 c1)
                    (take (length question - length rest) question))
        | _ => None
        end
  | _ => None
  end.

(** ** Responses *)

Definition put16 (v : Z) : bytes := [u8 (Z.shiftr v 8); Z.land v 255].

(** The bytes of one answer written at [off]. *)
Definition append_answer (a : dns_wire_answer) (cap off : Z) : option bytes :=
  match encode_name (a_owner a) cap off with
  | None => None
  | Some owner =>
      let pos := off + strlen owner in
      if cap <? pos + 10 then None
      else
        let fixed := put16 (a_type a) ++ [0; 1] ++
                     [u8 (Z.shiftr (a_ttl a) 24); u8 (Z.shiftr (a_ttl a) 16); u8 (Z.shiftr (a_ttl a) 8); Z.land (a_ttl a) 255] in
        let pos := pos + 8 in
        if a_type a =? DNS_WIRE_TYPE_A then
          match inet_pton (a_data a) with
          | None => None
          | Some addr => if cap <? pos + 6 then None else Some (owner ++ fixed ++ [0; 4] ++ addr)
          end
        else if (a_type a =? DNS_WIRE_TYPE_NS) || (a_type a =? DNS_WIRE_TYPE_CNAME) then
          if cap <? pos + 2 then None
          else
            match encode_name (a_data a) cap (pos + 2) with
            | None => None
            | Some rdata => Some (owner ++ fixed ++ put16 (u16 (strlen rdata)) ++ rdata)
            end
        else None
  end.

Fixpoint append_answers (answers : list dns_wire_answer) (cap off : Z) : option bytes :=
  match answers with
  | [] => Some []
  | a :: answers =>
      match append_answer a cap off with
      | None => None
      | Some bs =>
          match append_answers answers cap (off + strlen bs) with
          | None => None
          | Some rest => Some (bs ++ rest)
          end
      end
  end.

Definition response_flags (q : dns_wire_query) (rcode : Z) (recursive : bool) : Z :=
  u16 (Z.lor (Z.lor (Z.lor (Z.lor 32768 1024) (if recursive then 128 else 0)) (Z.land (q_flags q) 30720)) (Z.land rcode 15)).

(** The response, whose length the function returns. *)
Definition dns_wire_build_response (q : option dns_wire_query) (rcode : Z) (answers : list dns_wire_answer)
    (out : bool) (out_cap : Z) (recursive : bool) : option bytes :=
  match q with
  | None => None
  | Some q =>
      if negb out || (out_cap <? DNS_WIRE_HDR_LEN) then None
      else if out_cap - DNS_WIRE_HDR_LEN <? strlen (q_question_raw q) then None
      else
        let nanswers := Z.of_nat (length answers) in
        let header := put16 (q_id q) ++ put16 (response_flags q rcode recursive) ++ [0; 1] ++
                      [u8 (Z.shiftr nanswers 8); Z.land nanswers 255] ++ [0; 0; 0; 0] in
        match append_answers answers out_cap (DNS_WIRE_HDR_LEN + strlen (q_question_raw q)) with
        | None => None
        | Some bs =>
            let packet := header ++ q_question_raw q ++ bs in
            if out_cap <? strlen packet then None else Some packet
        end
  end.

Example query_example :
  dns_wire_parse_query (Some ([18; 52; 1; 0; 0; 1; 0; 0; 0; 0; 0; 0] ++ [3] ++ lit "WWW" ++ [2] ++ lit "eu" ++ [0; 0; 1; 0; 1])) =
  Some (DnsQuery 4660 256 (lit "www.eu") 1 1 ([3] ++ lit "WWW" ++ [2] ++ lit "eu" ++ [0; 0; 1; 0; 1])).
Proof. vm_compute. reflexivity. Qed.

(** * Correctness of the DNS codec

    The wire format of RFC 1035 without compression: names as lists of
    labels, resource records, and a reader of messages.  The query parser
    accepts exactly the queries with one question and plain labels; a response
    reads back as the answers it was built from. *)


(** ** The format *)

Definition label_ok (l : bytes) : Prop := 1 <= strlen l <= 63.
Definition label_okb (l : bytes) : bool := (1 <=? strlen l) && (strlen l <=? 63).

Definition wire_name (ls : list bytes) : bytes := concat (map (fun l => strlen l :: l) ls) ++ [0].

Fixpoint dotted (ls : list bytes) : bytes :=
  match ls with
  | [] => []
  | [l] => l
  | l :: ls => l ++ [chr "."] ++ dotted ls
  end.

Record rr := RR { rr_owner : list bytes; rr_type : Z; rr_class : Z; rr_ttl : Z; rr_rdata : bytes }.
Record question := Question { qn_name : list bytes; qn_type : Z; qn_class : Z }.
Record message := Message { m_id : Z; m_flags : Z; m_questions : list question; m_answers : list rr }.

(** *** A reader *)

Fixpoint read_name (fuel : nat) (bs : bytes) : option (list bytes * bytes) :=
  match fuel, bs with
  | S fuel, l :: bs =>
      if l =? 0 then Some ([], bs)
      else if (l <=? 63) && (l <=? strlen bs) then
        match read_name fuel (drop (Z.to_nat l) bs) with
        | Some (ls, rest) => Some (take (Z.to_nat l) bs :: ls, rest)
        | None => None
        end
      else None
  | _, _ => None
  end.

Definition read_rr (bs : bytes) : option (rr * bytes) :=
  match read_name (S (length bs)) bs with
  | Some (ls, t0 :: t1 :: c0 :: c1 :: l0 :: l1 :: l2 :: l3 :: n0 :: n1 :: bs) =>
      let n := Z.to_nat (n0 * 256 + n1) in
      if (n <=? length bs)%nat
      then Some (RR ls (t0 * 256 + t1) (c0 * 256 + c1) (((l0 * 256 + l1) * 256 + l2) * 256 + l3) (take n bs), drop n bs)
      else None
  | _ => None
  end.

Definition read_question (bs : bytes) : option (question * bytes) :=
  match read_name (S (length bs)) bs with
  | Some (ls, t0 :: t1 :: c0 :: c1 :: bs) => Some (Question ls (t0 * 256 + t1) (c0 * 256 + c1), bs)
  | _ => None
  end.

Fixpoint read_many {A} (read : bytes -> option (A * bytes)) (n : nat) (bs : bytes) : option (list A * bytes) :=
  match n with
  | O => Some ([], bs)
  | S n =>
      match read bs with
      | None => None
      | Some (x, bs) => match read_many read n bs with Some (xs, bs) => Some (x :: xs, bs) | None => None end
      end
  end.

(** A message without authority and additional records. *)
Definition read_message (bs : bytes) : option message :=
  match bs with
  | i0 :: i1 :: f0 :: f1 :: q0 :: q1 :: a0 :: a1 :: 0 :: 0 :: 0 :: 0 :: bs =>
      match read_many read_question (Z.to_nat (q0 * 256 + q1)) bs with
      | None => None
      | Some (qs, bs) =>
          match read_many read_rr (Z.to_nat (a0 * 256 + a1)) bs with
          | Some (rs, []) => Some (Message (i0 * 256 + i1) (f0 * 256 + f1) qs rs)
          | _ => None
          end
      end
  | _ => None
  end.

(** ** Bytes of numbers *)
Lemma word16_be (hi lo : Z) : byte_ok hi -> byte_ok lo -> word16 hi lo = hi * 256 + lo.
Proof. unfold byte_ok, word16. intros. rewrite lor_shiftl_add by lia. lia. Qed.

Lemma put16_be (v : Z) : 0 <= v < 65536 -> put16 v = [v / 256; v mod 256].
Proof.
  intros Hv. unfold put16. change 255 with (2 ^ 8 - 1). rewrite land_ones_mod, Z.shiftr_div_pow2 by lia.
  rewrite wrap_small; [done|]. change (2 ^ 8) with 256. split; [apply Z.div_pos; lia|apply Z.div_lt_upper_bound; lia].
Qed.

Lemma put32_be (v : Z) :
  0 <= v < 2 ^ 32 ->
  [u8 (Z.shiftr v 24); u8 (Z.shiftr v 16); u8 (Z.shiftr v 8); Z.land v 255] =
  [v / 2 ^ 24; (v / 2 ^ 16) mod 256; (v / 2 ^ 8) mod 256; v mod 256].
Proof.
  intros Hv. change 255 with (2 ^ 8 - 1). rewrite land_ones_mod, !Z.shiftr_div_pow2 by lia.
  rewrite wrap_small; [done|]. split; [apply Z.div_pos; lia|apply Z.div_lt_upper_bound; lia].
Qed.

Lemma be32_read (v : Z) :
  0 <= v < 2 ^ 32 -> ((v / 2 ^ 24 * 256 + (v / 2 ^ 16) mod 256) * 256 + (v / 2 ^ 8) mod 256) * 256 + v mod 256 = v.
Proof.
  intros Hv. change (2 ^ 24) with 16777216. change (2 ^ 16) with 65536. change (2 ^ 8) with 256.
  Z.div_mod_to_equations. lia.
Qed.

Lemma be16_read (v : Z) : v / 256 * 256 + v mod 256 = v.
Proof. Z.div_mod_to_equations. lia. Qed.

(** ** Parsing a name *)

Definition add_label (n l : bytes) : bytes := (if 0 <? strlen n then n ++ [chr "."] else n) ++ map tolower l.

Lemma add_label_len (n l : bytes) :
  strlen (add_label n l) = strlen n + (if 0 <? strlen n then 1 else 0) + strlen l.
Proof.
  unfold add_label, strlen. destruct (Z.ltb_spec 0 (Z.of_nat (length n))); rewrite !length_app, length_map; cbn [length]; lia.
Qed.

Lemma foldl_label_len (ls : list bytes) (n : bytes) : strlen n <= strlen (foldl add_label n ls).
Proof.
  revert n. induction ls as [|l ls IH]; intros n; cbn [foldl]; [lia|].
  specialize (IH (add_label n l)). rewrite add_label_len in IH. pose proof (strlen_nonneg l).
  destruct (0 <? strlen n); lia.
Qed.

(** The room test: exactly the names of at most 255 characters. *)
Lemma room_for_label (n l : bytes) :
  strlen l <= 63 -> strlen n + strlen l + 1 <= 255 <-> strlen (add_label n l) <= 255.
Proof.
  intros Hl. rewrite add_label_len. pose proof (strlen_nonneg n). destruct (Z.ltb_spec 0 (strlen n)); lia.
Qed.

Lemma small_land (l : Z) : 0 <= l <= 63 -> Z.land l 192 = 0.
Proof.
  intros Hl.
  pose proof (all_bytes (fun l => (63 <? l) || (Z.land l 192 =? 0)) ltac:(by vm_compute) l ltac:(unfold byte_ok; lia)) as H. cbn beta in H.
  apply orb_true_iff in H as [H|H]; bool_props; lia.
Qed.

Lemma wire_name_cons (l : bytes) (ls : list bytes) (rest : bytes) :
  wire_name (l :: ls) ++ rest = strlen l :: l ++ wire_name ls ++ rest.
Proof. unfold wire_name. cbn. by rewrite <- !app_assoc. Qed.

Lemma name_loop_reads (ls : list bytes) (name rest : bytes) (fuel : nat) :
  Forall label_ok ls -> strlen (foldl add_label name ls) <= 255 -> (length ls < fuel)%nat ->
  name_loop fuel (wire_name ls ++ rest) name = Some (foldl add_label name ls, rest).
Proof.
  intros Hls. revert name fuel. induction Hls as [|l ls Hl Hls IH]; intros name [|fuel] Hlen Hf; try (cbn in Hf; lia); [done|].
  rewrite wire_name_cons. cbn [name_loop]. unfold label_ok in Hl.
  pose proof (foldl_label_len ls (add_label name l)) as Hle. cbn [foldl] in Hlen |- *.
  rewrite (proj2 (Z.eqb_neq _ _)), small_land by lia. cbn [Z.eqb negb].
  unfold DNS_WIRE_LABEL_MAX, DNS_WIRE_NAME_MAX. rewrite (proj2 (Z.ltb_ge 63 _)) by lia.
  rewrite (proj2 (Z.ltb_ge _ (strlen l))) by (rewrite strlen_app; pose proof (strlen_nonneg (wire_name ls ++ rest)); lia).
  rewrite (proj2 (Z.ltb_ge 255 _)) by (apply room_for_label; lia). cbn [orb].
  replace (Z.to_nat (strlen l)) with (length l) by (unfold strlen; lia).
  rewrite drop_app_length, take_app_length. change (name_loop fuel (wire_name ls ++ rest) (add_label name l) = Some (foldl add_label (add_label name l) ls, rest)).
  apply IH; [done|cbn in Hf; lia].
Qed.

Lemma name_loop_accepts (fuel : nat) (buf name n rest : bytes) :
  bytes_ok buf -> name_loop fuel buf name = Some (n, rest) ->
  exists ls, Forall label_ok ls /\ buf = wire_name ls ++ rest /\ n = foldl add_label name ls /\ (strlen name <= 255 -> strlen n <= 255).
Proof.
  revert buf name. induction fuel as [|fuel IH]; intros buf name Hok; [done|]. destruct buf as [|l buf]; [done|].
  cbn [name_loop]. destruct (Z.eqb_spec l 0) as [->|Hl].
  { intros [= -> ->]. exists []. split_and!; [constructor|done|done|done]. }
  destruct (negb _); [done|]. unfold DNS_WIRE_LABEL_MAX, DNS_WIRE_NAME_MAX. destruct (Z.ltb_spec 63 l) as [|H63]; [done|].
  destruct (Z.ltb_spec (strlen buf) l) as [|Hfit]; [done|]. destruct (Z.ltb_spec 255 (strlen name + l + 1)) as [|Hroom]; [done|].
  cbn [orb]. apply Forall_cons in Hok as [Hb Hok]. unfold byte_ok in Hb. intros Hr.
  set (lab := take (Z.to_nat l) buf) in *.
  assert (Hlab : strlen lab = l) by (unfold lab, strlen in *; rewrite length_take; lia).
  apply (IH (drop (Z.to_nat l) buf) (add_label name lab)) in Hr as (ls & Hls & Hbuf & -> & Hn); [|by apply Forall_drop].
  exists (lab :: ls). split_and!.
  - constructor; [unfold label_ok; lia|done].
  - rewrite wire_name_cons, <- Hbuf, Hlab. unfold lab. by rewrite take_drop.
  - done.
  - intros _. apply Hn. apply room_for_label; lia.
Qed.

Lemma foldl_dotted (ls : list bytes) (n : bytes) :
  Forall label_ok ls -> 0 < strlen n -> ls <> [] -> foldl add_label n ls = n ++ [chr "."] ++ map tolower (dotted ls).
Proof.
  intros Hls. revert n. induction Hls as [|l ls Hl Hls IH]; intros n Hn Hne; [done|]. cbn [foldl].
  assert (Ha : add_label n l = n ++ [chr "."] ++ map tolower l).
  { unfold add_label. rewrite (proj2 (Z.ltb_lt _ _)) by lia. by rewrite <- app_assoc. }
  destruct ls as [|l2 ls]; [by cbn [foldl dotted]|]. rewrite IH; [|rewrite Ha, !strlen_app; pose proof (strlen_nonneg (map tolower l)); change (strlen [chr "."]) with 1; lia|done].
  rewrite Ha. cbn [dotted]. rewrite !map_app, <- !app_assoc. done.
Qed.

(** The name of a question in lower case, with dots. *)
Lemma parsed_name (ls : list bytes) : Forall label_ok ls -> foldl add_label [] ls = map tolower (dotted ls).
Proof.
  intros Hls. destruct Hls as [|l ls Hl Hls]; [done|]. cbn [foldl]. change (add_label [] l) with (map tolower l).
  destruct ls as [|l2 ls]; [done|]. unfold label_ok, strlen in Hl. rewrite foldl_dotted; [|done|unfold strlen; rewrite length_map; lia|done].
  cbn [dotted]. by rewrite !map_app.
Qed.

Lemma wire_name_len (ls : list bytes) : ls <> [] -> strlen (wire_name ls) = strlen (dotted ls) + 2.
Proof.
  intros Hne. induction ls as [|l ls IH]; [done|]. rewrite <- (app_nil_r (wire_name _)), wire_name_cons, app_nil_r.
  destruct ls as [|l2 ls]; [unfold wire_name, strlen; cbn; rewrite length_app; cbn; lia|].
  specialize (IH ltac:(done)). cbn [dotted] in *. rewrite !strlen_app in *. change (strlen [chr "."]) with 1 in *.
  unfold strlen in *. cbn [length]. rewrite length_app. lia.
Qed.

(** ** Queries *)

Definition be16 (v : Z) : bytes := [v / 256; v mod 256].

Lemma be16_word (hi lo : Z) : byte_ok hi -> byte_ok lo -> be16 (word16 hi lo) = [hi; lo] /\ 0 <= word16 hi lo < 65536.
Proof.
  intros Hh Hl. rewrite word16_be by done. unfold byte_ok, be16 in *. split; [|lia]. f_equal; [|f_equal].
  - rewrite Z.div_add_l, (Z.div_small lo) by lia. lia.
  - rewrite Z.add_comm, Z.mod_add, Z.mod_small by lia. done.
Qed.

Lemma word_be16 (v : Z) : 0 <= v < 65536 -> word16 (v / 256) (v mod 256) = v.
Proof.
  intros Hv. rewrite word16_be; [apply be16_read| |]; unfold byte_ok; Z.div_mod_to_equations; lia.
Qed.

(** The QR bit. *)
Lemma query_bit (hi lo : Z) : byte_ok hi -> byte_ok lo -> Z.land hi 128 = 0 <-> word16 hi lo < 32768.
Proof.
  intros Hh Hl. rewrite word16_be by done.
  pose proof (all_bytes (fun b => Bool.eqb (Z.land b 128 =? 0) (b <? 128)) ltac:(by vm_compute) hi Hh) as H. cbn beta in H.
  apply Bool.eqb_prop in H. unfold byte_ok in *.
  destruct (Z.eqb_spec (Z.land hi 128) 0), (Z.ltb_spec hi 128); try done; lia.
Qed.

(** A query packet. *)
Definition wire_query (id flags : Z) (counts : bytes) (ls : list bytes) (ty cl : Z) (tail : bytes) : bytes :=
  be16 id ++ be16 flags ++ [0; 1] ++ counts ++ wire_name ls ++ be16 ty ++ be16 cl ++ tail.

(** What its fields may be. *)
Definition query_fields (id flags : Z) (counts : bytes) (ls : list bytes) (ty cl : Z) : Prop :=
  0 <= id < 65536 /\ 0 <= flags < 32768 /\ length counts = 6%nat /\ Forall label_ok ls /\ strlen (dotted ls) <= 255 /\
  0 <= ty < 65536 /\ 0 <= cl < 65536.

Lemma tolower_len (s : bytes) : strlen (map tolower s) = strlen s.
Proof. unfold strlen. by rewrite length_map. Qed.

Lemma query_accepted (id flags : Z) (counts : bytes) (ls : list bytes) (ty cl : Z) (tail : bytes) :
  query_fields id flags counts ls ty cl ->
  dns_wire_parse_query (Some (wire_query id flags counts ls ty cl tail)) =
  Some (DnsQuery id flags (map tolower (dotted ls)) ty cl (wire_name ls ++ be16 ty ++ be16 cl)).
Proof.
  intros (Hid & Hfl & Hc & Hls & Hd & Hty & Hcl). unfold wire_query.
  destruct counts as [|c0 [|c1 [|c2 [|c3 [|c4 [|c5 [|]]]]]]]; try done. cbn [be16 app dns_wire_parse_query].
  rewrite (proj2 (Z.eqb_eq _ _)); [|apply (query_bit _ (flags mod 256)); [| |rewrite word_be16 by lia; lia]; unfold byte_ok; Z.div_mod_to_equations; lia].
  change (word16 0 1 =? 1) with true. cbn [negb].
  rewrite name_loop_reads; [|done|rewrite parsed_name by done; by rewrite tolower_len|].
  2:{ rewrite length_app. unfold wire_name. rewrite length_app. cbn [length].
      assert (length ls <= length (concat (map (fun l => strlen l :: l) ls)))%nat; [|lia].
      clear. induction ls as [|l ls IH]; cbn; [lia|]. rewrite length_app. lia. }
  rewrite !word_be16, parsed_name by (done || lia). do 2 f_equal.
  rewrite !length_app. cbn [length].
  replace (length (wire_name ls) + _ - _)%nat with (length (wire_name ls ++ be16 ty ++ be16 cl)) by (rewrite !length_app; cbn; lia).
  change (ty / 256 :: ty mod 256 :: cl / 256 :: cl mod 256 :: tail) with (be16 ty ++ be16 cl ++ tail).
  replace (wire_name ls ++ be16 ty ++ be16 cl ++ tail) with ((wire_name ls ++ be16 ty ++ be16 cl) ++ tail)
    by by rewrite <- !app_assoc.
  by rewrite take_app_length.
Qed.

Lemma query_shape (buf : bytes) (q : dns_wire_query) :
  bytes_ok buf -> dns_wire_parse_query (Some buf) = Some q ->
  exists id flags counts ls ty cl tail, query_fields id flags counts ls ty cl /\ buf = wire_query id flags counts ls ty cl tail.
Proof.
  intros Hok. destruct buf as [|b0 [|b1 [|b2 [|b3 [|b4 [|b5 [|c0 [|c1 [|c2 [|c3 [|c4 [|c5 qs]]]]]]]]]]]]; try done.
  cbn [dns_wire_parse_query].
  repeat (apply Forall_cons in Hok as [? Hok]).
  destruct (Z.eqb_spec (Z.land b2 128) 0) as [Hq|]; [|done]. cbn [negb].
  destruct (Z.eqb_spec (word16 b4 b5) 1) as [Hone|]; [|done]. cbn [negb].
  destruct (name_loop _ qs []) as [[n rest]|] eqn:En; [|done].
  destruct rest as [|t0 [|t1 [|k0 [|k1 rest]]]]; try done. intros _.
  apply name_loop_accepts in En as (ls & Hls & -> & -> & Hn); [|done].
  rewrite parsed_name, tolower_len in Hn by done. specialize (Hn ltac:(done)).
  apply Forall_app in Hok as [_ Hok]. repeat (apply Forall_cons in Hok as [? Hok]).
  destruct (be16_word b0 b1) as [E0 ?], (be16_word b2 b3) as [E2 ?], (be16_word t0 t1) as [Et ?], (be16_word k0 k1) as [Ek ?]; try done.
  exists (word16 b0 b1), (word16 b2 b3), [c0; c1; c2; c3; c4; c5], ls, (word16 t0 t1), (word16 k0 k1), rest.
  split; [|unfold wire_query; rewrite E0, E2, Et, Ek].
  - apply (query_bit b2 b3) in Hq; [|done|done]. unfold query_fields. split_and!; (done || lia).
  - cbn [app]. rewrite word16_be in Hone by done. unfold byte_ok in *.
    replace b4 with 0 by lia. by replace b5 with 1 by lia.
Qed.

(** C31: the query parser accepts exactly the packets of RFC 1035 with the QR
    bit clear, one question, and a name of uncompressed labels whose dotted
    text has at most 255 characters, and returns the packet's id and flags,
    the name in lower case, the type, the class and the question's bytes.
    Those bytes overrun the query's buffer exactly when the text has 255
    characters. *)
Theorem query_parsed_exactly (buf : bytes) (q : dns_wire_query) :
  bytes_ok buf ->
  (dns_wire_parse_query (Some buf) = Some q <->
   exists id flags counts ls ty cl tail,
     query_fields id flags counts ls ty cl /\ buf = wire_query id flags counts ls ty cl tail /\
     q = DnsQuery id flags (map tolower (dotted ls)) ty cl (wire_name ls ++ be16 ty ++ be16 cl)) /\
  (dns_wire_parse_query (Some buf) = Some q ->
   QUESTION_RAW_CAP < strlen (q_question_raw q) <-> strlen (q_name q) = DNS_WIRE_NAME_MAX).
Proof.
  intros Hok.
  assert (Hin : dns_wire_parse_query (Some buf) = Some q -> exists id flags counts ls ty cl tail,
     query_fields id flags counts ls ty cl /\ buf = wire_query id flags counts ls ty cl tail /\
     q = DnsQuery id flags (map tolower (dotted ls)) ty cl (wire_name ls ++ be16 ty ++ be16 cl)).
  { intros Hp. destruct (query_shape _ _ Hok Hp) as (id & flags & counts & ls & ty & cl & tail & Hf & ->).
    exists id, flags, counts, ls, ty, cl, tail. split_and!; [done|done|]. rewrite query_accepted in Hp by done. congruence. }
  split; [split; [done|]|].
  - intros (id & flags & counts & ls & ty & cl & tail & Hf & -> & ->). by apply query_accepted.
  - intros Hp. apply Hin in Hp as (id & flags & counts & ls & ty & cl & tail & (_ & _ & _ & Hls & Hd & _) & _ & ->).
    cbn [q_question_raw q_name]. rewrite tolower_len, !strlen_app. change (strlen (be16 ty)) with 2. change (strlen (be16 cl)) with 2.
    unfold QUESTION_RAW_CAP, DNS_WIRE_NAME_MAX.
    destruct ls as [|l ls]; [cbn; done|]. rewrite wire_name_len by done. lia.
Qed.

(** A name of four 63-byte labels. *)
Definition long_query : bytes :=
  wire_query 7 256 [0; 0; 0; 0; 0; 0] (replicate 4 (replicate 63 97)) 1 1 [].

Lemma query_parsed_exactly_witness :
  bytes_ok long_query /\ is_Some (dns_wire_parse_query (Some long_query)) /\
  forall q, dns_wire_parse_query (Some long_query) = Some q -> QUESTION_RAW_CAP < strlen (q_question_raw q).
Proof.
  assert (Hok : bytes_ok long_query) by by_decide.
  split; [exact Hok|]. split; [vm_compute; by eexists|].
  intros q Hq. apply (proj2 (query_parsed_exactly long_query q Hok) Hq). revert Hq. vm_compute. by intros [= <-].
Defined.

(** ** Encoding a name *)

(** The labels of a text; the root's dot may be written. *)
Fixpoint strip_root (ws : list bytes) : list bytes :=
  match ws with
  | [] => []
  | [[]] => []
  | w :: ws => w :: strip_root ws
  end.

Definition name_labels (s : cstring) : option (list bytes) :=
  let ls := strip_root (split_on (chr ".") s) in if forallb label_okb ls then Some ls else None.

Lemma strip_root_cons (w : bytes) (ws : list bytes) : ws <> [] -> strip_root (w :: ws) = w :: strip_root ws.
Proof. by destruct w, ws. Qed.

Definition fits (pos cap : Z) (bs : bytes) : option bytes := if pos + strlen bs <=? cap then Some bs else None.

Lemma label_test (l : bytes) : (strlen l =? 0) || (63 <? strlen l) = negb (label_okb l).
Proof. unfold label_okb. pose proof (strlen_nonneg l). destruct (Z.eqb_spec (strlen l) 0), (Z.ltb_spec 63 (strlen l)), (Z.leb_spec 1 (strlen l)), (Z.leb_spec (strlen l) 63); cbn; lia || done. Qed.

(** One label, in front of what follows. *)
Lemma fits_label (l : bytes) (ls : list bytes) (pos cap : Z) :
  label_okb l = true ->
  (if cap <? pos + 1 + strlen l then None
   else match fits (pos + 1 + strlen l) cap (wire_name ls) with None => None | Some bs => Some (u8 (strlen l) :: l ++ bs) end) =
  fits pos cap (wire_name (l :: ls)).
Proof.
  intros Hl. apply andb_true_iff in Hl as [H1 H2]. bool_props. unfold fits.
  rewrite wrap_small by (change (2 ^ 8) with 256; lia).
  rewrite <- (app_nil_r (wire_name (l :: ls))), wire_name_cons, app_nil_r.
  assert (Hlen : strlen (strlen l :: l ++ wire_name ls) = 1 + strlen l + strlen (wire_name ls)) by (unfold strlen; cbn [length]; rewrite length_app; lia).
  rewrite Hlen. pose proof (strlen_nonneg (wire_name ls)).
  destruct (Z.ltb_spec cap (pos + 1 + strlen l)), (Z.leb_spec (pos + (1 + strlen l + strlen (wire_name ls))) cap); try lia; try done;
    destruct (Z.leb_spec (pos + 1 + strlen l + strlen (wire_name ls)) cap); lia || done.
Qed.

Lemma encode_labels_spec (fuel : nat) (s : cstring) (pos cap : Z) :
  (length s < fuel)%nat ->
  encode_labels fuel s pos cap = match name_labels s with Some ls => fits pos cap (wire_name ls) | None => None end.
Proof.
  revert s pos. induction fuel as [|fuel IH]; intros s pos Hf; [lia|]. cbn [encode_labels].
  destruct s as [|c0 s0].
  { change (name_labels []) with (Some (@nil bytes)). unfold fits. change (strlen (wire_name [])) with 1.
    destruct (Z.ltb_spec cap (pos + 1)), (Z.leb_spec (pos + 1) cap); lia || done. }
  set (s := c0 :: s0) in *.
  assert (Hstep : forall label rest, (length rest < fuel)%nat ->
    strip_root (split_on (chr ".") s) = label :: strip_root (split_on (chr ".") rest) ->
    (if (strlen label =? 0) || (DNS_WIRE_LABEL_MAX <? strlen label) then None
     else if cap <? pos + 1 + strlen label then None
     else match encode_labels fuel rest (pos + 1 + strlen label) cap with None => None | Some bs => Some (u8 (strlen label) :: label ++ bs) end) =
    match name_labels s with Some ls => fits pos cap (wire_name ls) | None => None end).
  { intros label rest Hr Hs. unfold name_labels. rewrite Hs. cbn [forallb]. unfold DNS_WIRE_LABEL_MAX. rewrite label_test.
    destruct (label_okb label) eqn:El; [|done]. cbn [negb andb]. rewrite IH by done. unfold name_labels.
    destruct (forallb label_okb _); [by apply fits_label|]. by destruct (_ <? _). }
  destruct (cut_at (chr ".") s) as [[label rest]|] eqn:Ec; cbn [default].
  - apply Hstep; [apply cut_shorter in Ec; cbn in Ec, Hf; lia|].
    rewrite (split_cut _ s), Ec. apply strip_root_cons, split_nonempty.
  - apply Hstep; [cbn in *; lia|]. rewrite (split_cut _ s), Ec. done.
Qed.

Lemma encode_name_spec (s : cstring) (cap off : Z) :
  encode_name s cap off = match name_labels s with Some ls => fits off cap (wire_name ls) | None => None end.
Proof. apply encode_labels_spec. lia. Qed.

(** ** Records *)

Definition answer_ok (a : dns_wire_answer) : Prop := 0 <= a_type a < 65536 /\ 0 <= a_ttl a < 2 ^ 32.

Definition rdata_of (a : dns_wire_answer) : option bytes :=
  if a_type a =? DNS_WIRE_TYPE_A then inet_pton (a_data a)
  else if (a_type a =? DNS_WIRE_TYPE_NS) || (a_type a =? DNS_WIRE_TYPE_CNAME)
       then match name_labels (a_data a) with Some ls => Some (wire_name ls) | None => None end
  else None.

(** The record an answer stands for. *)
Definition rr_of (a : dns_wire_answer) : option rr :=
  match name_labels (a_owner a), rdata_of a with
  | Some ls, Some rdata => Some (RR ls (a_type a) DNS_WIRE_CLASS_IN (a_ttl a) rdata)
  | _, _ => None
  end.

Definition wire_rr (r : rr) : bytes :=
  wire_name (rr_owner r) ++ put16 (rr_type r) ++ [0; 1] ++
  [u8 (Z.shiftr (rr_ttl r) 24); u8 (Z.shiftr (rr_ttl r) 16); u8 (Z.shiftr (rr_ttl r) 8); Z.land (rr_ttl r) 255] ++
  put16 (u16 (strlen (rr_rdata r))) ++ rr_rdata r.

Lemma wire_rr_len (r : rr) : strlen (wire_rr r) = strlen (wire_name (rr_owner r)) + 10 + strlen (rr_rdata r).
Proof. unfold wire_rr, put16. rewrite !strlen_app. unfold strlen. cbn [length]. lia. Qed.

Lemma append_answer_spec (a : dns_wire_answer) (cap off : Z) :
  append_answer a cap off = match rr_of a with Some r => fits off cap (wire_rr r) | None => None end.
Proof.
  unfold append_answer, rr_of. rewrite encode_name_spec. destruct (name_labels (a_owner a)) as [ls|]; [|done].
  unfold fits at 1. pose proof (strlen_nonneg (wire_name ls)) as Hpos.
  assert (Hshort : forall rdata, cap < off + strlen (wire_name ls) + 10 ->
    fits off cap (wire_rr (RR ls (a_type a) DNS_WIRE_CLASS_IN (a_ttl a) rdata)) = None).
  { intros rdata Hs. unfold fits. rewrite wire_rr_len. cbn [rr_owner rr_rdata]. pose proof (strlen_nonneg rdata).
    destruct (Z.leb_spec (off + (strlen (wire_name ls) + 10 + strlen rdata)) cap); [lia|done]. }
  destruct (Z.leb_spec (off + strlen (wire_name ls)) cap); [|destruct (rdata_of a); [by rewrite Hshort by lia|done]].
  destruct (Z.ltb_spec cap (off + strlen (wire_name ls) + 10)); [destruct (rdata_of a); [by rewrite Hshort by lia|done]|].
  unfold rdata_of. destruct (a_type a =? DNS_WIRE_TYPE_A).
  - destruct (inet_pton (a_data a)) as [addr|] eqn:Ea; [|done]. apply inet_pton_len in Ea.
    unfold fits. rewrite wire_rr_len. cbn [rr_owner rr_rdata]. unfold wire_rr. cbn [rr_owner rr_type rr_ttl rr_rdata]. rewrite Ea.
    destruct (Z.ltb_spec cap (off + strlen (wire_name ls) + 8 + 6)), (Z.leb_spec (off + (strlen (wire_name ls) + 10 + 4)) cap); try lia; [done|].
    rewrite <- !app_assoc. done.
  - destruct (_ || _); [|done]. rewrite (proj2 (Z.ltb_ge _ _)) by lia. rewrite encode_name_spec.
    destruct (name_labels (a_data a)) as [ds|]; [|done].
    unfold fits. rewrite wire_rr_len. cbn [rr_owner rr_rdata].
    destruct (Z.leb_spec (off + strlen (wire_name ls) + 8 + 2 + strlen (wire_name ds)) cap),
      (Z.leb_spec (off + (strlen (wire_name ls) + 10 + strlen (wire_name ds))) cap); try lia; [|done].
    unfold wire_rr. cbn [rr_owner rr_type rr_ttl rr_rdata]. by rewrite <- !app_assoc.
Qed.

Lemma append_answers_spec (answers : list dns_wire_answer) (cap off : Z) :
  off <= cap ->
  append_answers answers cap off =
  match mapM rr_of answers with Some rrs => fits off cap (concat (map wire_rr rrs)) | None => None end.
Proof.
  revert off. induction answers as [|a answers IH]; intros off Hoff; cbn [append_answers].
  { change (mapM rr_of []) with (Some (@nil rr)). unfold fits. cbn [map concat]. change (strlen []) with 0. by rewrite (proj2 (Z.leb_le _ _)) by lia. }
  rewrite append_answer_spec.
  change (mapM rr_of (a :: answers)) with
    (match rr_of a with Some r => match mapM rr_of answers with Some rs => Some (r :: rs) | None => None end | None => None end).
  destruct (rr_of a) as [r|]; [|done].
  assert (Hlong : forall rrs, cap < off + strlen (wire_rr r) -> fits off cap (concat (map wire_rr (r :: rrs))) = None).
  { intros rrs Hs. unfold fits. cbn [map concat]. rewrite strlen_app. pose proof (strlen_nonneg (concat (map wire_rr rrs))).
    destruct (Z.leb_spec (off + (strlen (wire_rr r) + strlen (concat (map wire_rr rrs)))) cap); [lia|done]. }
  unfold fits at 1. destruct (Z.leb_spec (off + strlen (wire_rr r)) cap); [|destruct (mapM rr_of answers); [by rewrite Hlong by lia|done]].
  rewrite IH by lia. destruct (mapM rr_of answers) as [rrs|]; [|done].
  unfold fits. cbn [map concat]. rewrite strlen_app, Z.add_assoc. by destruct (_ <=? _).
Qed.

(** ** Reading a message back *)

Definition rr_ok (r : rr) : Prop :=
  Forall label_ok (rr_owner r) /\ 0 <= rr_type r < 65536 /\ rr_class r = DNS_WIRE_CLASS_IN /\ 0 <= rr_ttl r < 2 ^ 32.

Lemma name_labels_ok (s : cstring) (ls : list bytes) : name_labels s = Some ls -> Forall label_ok ls.
Proof.
  unfold name_labels. destruct (forallb label_okb _) eqn:E; [|done]. intros [= <-].
  apply Forall_forall. intros l Hl. rewrite forallb_forall in E. apply list_elem_of_In, E in Hl.
  apply andb_true_iff in Hl as [H1 H2]. bool_props. by split.
Qed.

Lemma rr_of_ok (a : dns_wire_answer) (r : rr) : answer_ok a -> rr_of a = Some r -> rr_ok r.
Proof.
  intros [Ht Hl]. unfold rr_of. destruct (name_labels (a_owner a)) as [ls|] eqn:E; [|done].
  destruct (rdata_of a); [|done]. intros [= <-]. split; [by eapply name_labels_ok|]. cbn. naive_solver.
Qed.

Lemma read_name_wire (ls : list bytes) (rest : bytes) (fuel : nat) :
  Forall label_ok ls -> (length ls < fuel)%nat -> read_name fuel (wire_name ls ++ rest) = Some (ls, rest).
Proof.
  intros Hls. revert fuel. induction Hls as [|l ls Hl Hls IH]; intros [|fuel] Hf; try (cbn in Hf; lia); [done|].
  rewrite wire_name_cons. cbn [read_name]. unfold label_ok in Hl.
  assert (Hle : strlen l <= strlen (l ++ wire_name ls ++ rest)) by (rewrite strlen_app; pose proof (strlen_nonneg (wire_name ls ++ rest)); lia).
  rewrite (proj2 (Z.eqb_neq _ _)), (proj2 (Z.leb_le _ 63)) by lia. apply Z.leb_le in Hle. rewrite Hle.
  cbn [andb]. replace (Z.to_nat (strlen l)) with (length l) by (unfold strlen; lia).
  rewrite drop_app_length, take_app_length, IH by (cbn in Hf; lia). done.
Qed.

Lemma wire_name_longer (ls : list bytes) : (length ls < length (wire_name ls))%nat.
Proof.
  unfold wire_name. rewrite length_app. cbn [length]. induction ls as [|l ls IH]; cbn; [lia|]. rewrite length_app. lia.
Qed.

Lemma read_rr_wire (r : rr) (rest : bytes) :
  rr_ok r -> strlen (rr_rdata r) < 65536 -> read_rr (wire_rr r ++ rest) = Some (r, rest).
Proof.
  intros (Hls & Ht & Hc & Hl) Hn. unfold read_rr. pose proof (strlen_nonneg (rr_rdata r)) as Hn0.
  unfold wire_rr. rewrite (wrap_small 16) by lia.
  rewrite !put16_be, put32_be by lia. rewrite <- app_assoc.
  rewrite read_name_wire by (done || rewrite length_app; pose proof (wire_name_longer (rr_owner r)); lia). cbn [app].
  rewrite be16_read, be32_read, be16_read by done.
  replace (Z.to_nat (strlen (rr_rdata r))) with (length (rr_rdata r)) by (unfold strlen; lia).
  rewrite (proj2 (Nat.leb_le _ _)) by (rewrite length_app; lia). rewrite take_app_length, drop_app_length.
  destruct r as [o t c l d]; cbn in *. by subst c.
Qed.

Lemma read_many_wire {A} (read : bytes -> option (A * bytes)) (wire : A -> bytes) (xs : list A) (rest : bytes) :
  Forall (fun x => forall rest, read (wire x ++ rest) = Some (x, rest)) xs ->
  read_many read (length xs) (concat (map wire xs) ++ rest) = Some (xs, rest).
Proof.
  induction 1 as [|x xs Hx Hxs IH]; [done|]. cbn [length read_many map concat]. rewrite <- app_assoc, Hx, IH. done.
Qed.

Lemma read_question_wire (ls : list bytes) (ty cl : Z) (rest : bytes) :
  Forall label_ok ls -> read_question ((wire_name ls ++ be16 ty ++ be16 cl) ++ rest) = Some (Question ls ty cl, rest).
Proof.
  intros Hls. unfold read_question. rewrite <- app_assoc.
  rewrite read_name_wire by (done || rewrite length_app; pose proof (wire_name_longer ls); lia).
  cbn [app be16]. by rewrite !be16_read.
Qed.

(** The header of a response, bit by bit. *)
Lemma masked_eq (a b m : Z) :
  0 <= m < 2 ^ 16 -> Forall (fun i => Z.testbit m i = true -> Z.testbit a i = Z.testbit b i) [0; 1; 2; 3; 4; 5; 6; 7; 8; 9; 10; 11; 12; 13; 14; 15] ->
  Z.land a m = Z.land b m.
Proof.
  intros Hm Hab. apply Z.bits_inj'. intros i Hi. rewrite !Z.land_spec. destruct (Z.testbit m i) eqn:E; [|by rewrite !andb_false_r].
  rewrite !andb_true_r. destruct (Z.ltb_spec i 16) as [|Hge].
  - change [0; 1; 2; 3; 4; 5; 6; 7; 8; 9; 10; 11; 12; 13; 14; 15] with (seqZ 0 16) in Hab.
    rewrite Forall_forall in Hab. apply Hab; [apply elem_of_seqZ; lia|done].
  - rewrite <- (Z.mod_small m (2 ^ 16)), Z.mod_pow2_bits_high in E by lia. done.
Qed.

Ltac by_bits Hrec :=
  repeat (apply Forall_cons; split); try apply Forall_nil_2; intros; try discriminate;
  rewrite Z.mod_pow2_bits_low, !Z.lor_spec, !Z.land_spec, Hrec by lia; cbn;
  rewrite ?andb_false_r, ?andb_true_r, ?orb_false_r; done.

Lemma response_flags_fields (q : dns_wire_query) (rcode : Z) (recursive : bool) :
  let f := response_flags q rcode recursive in
  0 <= f < 65536 /\ Z.testbit f 15 = true /\ Z.testbit f 10 = true /\ Z.testbit f 7 = recursive /\
  Z.land f 30720 = Z.land (q_flags q) 30720 /\ Z.land f 15 = Z.land rcode 15.
Proof.
  cbv zeta. unfold response_flags. split; [apply wrap_range; lia|]. unfold wrap.
  assert (Hrec : forall i, Z.testbit (if recursive then 128 else 0) i = recursive && (i =? 7)).
  { intros i. destruct recursive; [change 128 with (2 ^ 7); rewrite Z.pow2_bits_eqb by lia; by rewrite Z.eqb_sym|apply Z.bits_0]. }
  split_and!; [by_bits Hrec|by_bits Hrec|by_bits Hrec| |]; (apply masked_eq; [by_decide|by_bits Hrec]).
Qed.

(** The size of a response. *)
Definition response_size (q : dns_wire_query) (rrs : list rr) : Z :=
  12 + strlen (q_question_raw q) + strlen (concat (map wire_rr rrs)).

Lemma build_response_spec (q : dns_wire_query) (rcode : Z) (answers : list dns_wire_answer) (cap : Z) (recursive : bool) :
  dns_wire_build_response (Some q) rcode answers true cap recursive =
  match mapM rr_of answers with
  | Some rrs =>
      if response_size q rrs <=? cap
      then Some (put16 (q_id q) ++ put16 (response_flags q rcode recursive) ++ [0; 1] ++
                 put16 (Z.of_nat (length answers)) ++ [0; 0; 0; 0] ++ q_question_raw q ++ concat (map wire_rr rrs))
      else None
  | None => None
  end.
Proof.
  unfold dns_wire_build_response, response_size, DNS_WIRE_HDR_LEN. cbn [negb orb].
  pose proof (strlen_nonneg (q_question_raw q)) as Hq.
  assert (Hsmall : cap < 12 + strlen (q_question_raw q) -> None =
    match mapM rr_of answers with
    | Some rrs => if 12 + strlen (q_question_raw q) + strlen (concat (map wire_rr rrs)) <=? cap
                  then Some (put16 (q_id q) ++ put16 (response_flags q rcode recursive) ++ [0; 1] ++
                         put16 (Z.of_nat (length answers)) ++ [0; 0; 0; 0] ++ q_question_raw q ++ concat (map wire_rr rrs))
                  else None
    | None => None end).
  { intros Hs. destruct (mapM rr_of answers) as [rrs|]; [|done]. pose proof (strlen_nonneg (concat (map wire_rr rrs))).
    by rewrite (proj2 (Z.leb_gt _ _)) by lia. }
  destruct (Z.ltb_spec cap 12); [apply Hsmall; lia|].
  destruct (Z.ltb_spec (cap - 12) (strlen (q_question_raw q))); [apply Hsmall; lia|].
  rewrite append_answers_spec by lia. destruct (mapM rr_of answers) as [rrs|]; [|done]. unfold fits.
  destruct (Z.leb_spec (12 + strlen (q_question_raw q) + strlen (concat (map wire_rr rrs))) cap); [|done].
  rewrite (proj2 (Z.ltb_ge _ _)); [by rewrite <- !app_assoc|].
  rewrite !strlen_app. change (strlen (put16 _)) with 2. unfold strlen in *. cbn [length]. lia.
Qed.

Lemma mapM_rr_ok (answers : list dns_wire_answer) (rrs : list rr) :
  Forall answer_ok answers -> mapM rr_of answers = Some rrs -> Forall rr_ok rrs /\ length rrs = length answers.
Proof.
  intros Ha Hm. apply mapM_Some_1 in Hm. induction Hm as [|a r answers rrs Hr Hm IH]; [done|].
  apply Forall_cons in Ha as [Ha Has]. destruct (IH Has) as [H1 H2]. split; [|cbn; lia].
  constructor; [by eapply rr_of_ok|done].
Qed.

(** Each record is part of the packet. *)
Lemma concat_bounds (rrs : list rr) :
  Forall (fun r => strlen (rr_rdata r) <= strlen (concat (map wire_rr rrs))) rrs /\
  Z.of_nat (length rrs) <= strlen (concat (map wire_rr rrs)).
Proof.
  induction rrs as [|r rrs [H1 H2]]; [by split|]. cbn [map concat length]. rewrite strlen_app, wire_rr_len.
  pose proof (strlen_nonneg (wire_name (rr_owner r))). pose proof (strlen_nonneg (rr_rdata r)).
  pose proof (strlen_nonneg (concat (map wire_rr rrs))).
  split; [constructor; [lia|]|lia]. eapply Forall_impl; [exact H1|]. cbn beta. lia.
Qed.

(** a response to a parsed query, with a buffer of at most 65535 bytes, is
    built exactly when every answer has a meaning (legal names, a dotted quad
    for an A record) and the packet fits; it stays within the buffer, and it
    reads, by RFC 1035, as the answer to that question: the query's id, its
    opcode, the response and authoritative bits, recursion as asked, the
    response code, the question unchanged, and exactly the answers' records in
    order. *)
Theorem response_reads_back (buf : bytes) (q : dns_wire_query) (rcode : Z) (answers : list dns_wire_answer) (cap : Z)
    (recursive : bool) :
  bytes_ok buf -> dns_wire_parse_query (Some buf) = Some q -> Forall answer_ok answers -> cap <= 65535 ->
  match dns_wire_build_response (Some q) rcode answers true cap recursive with
  | None => forall rrs, mapM rr_of answers = Some rrs -> cap < response_size q rrs
  | Some out =>
      exists rrs ls f,
        mapM rr_of answers = Some rrs /\ strlen out = response_size q rrs /\ strlen out <= cap /\
        map tolower (dotted ls) = q_name q /\
        read_message out = Some (Message (q_id q) f [Question ls (q_qtype q) (q_qclass q)] rrs) /\
        Z.testbit f 15 = true /\ Z.testbit f 10 = true /\ Z.testbit f 7 = recursive /\
        Z.land f 30720 = Z.land (q_flags q) 30720 /\ Z.land f 15 = Z.land rcode 15
  end.
Proof.
  intros Hok Hp Ha Hcap. rewrite build_response_spec.
  destruct (mapM rr_of answers) as [rrs|] eqn:Em; [|done].
  destruct (Z.leb_spec (response_size q rrs) cap) as [Hfit|Hfit]; [|by intros ? [= <-]].
  destruct (query_shape _ _ Hok Hp) as (id & flags & counts & ls & ty & cl & tail & Hf & ->).
  rewrite query_accepted in Hp by done. injection Hp as <-. destruct Hf as (Hid & _ & _ & Hls & _ & Hty & Hcl).
  destruct (response_flags_fields (DnsQuery id flags (map tolower (dotted ls)) ty cl (wire_name ls ++ be16 ty ++ be16 cl)) rcode recursive)
    as (Hfl & Hbits). cbv zeta in Hfl, Hbits.
  set (f := response_flags _ rcode recursive) in *. cbn [q_id q_flags q_name q_qtype q_qclass q_question_raw] in *.
  destruct (mapM_rr_ok _ _ Ha Em) as [Hrr Hn]. destruct (concat_bounds rrs) as [Hb1 Hb2].
  pose proof (strlen_nonneg (wire_name ls ++ be16 ty ++ be16 cl)) as Hq0.
  unfold response_size in *. cbn [q_question_raw] in *.
  change (ty / 256 :: ty mod 256 :: be16 cl) with (be16 ty ++ be16 cl) in *.
  set (out := put16 id ++ _).
  assert (Hlen : strlen out = 12 + strlen (wire_name ls ++ be16 ty ++ be16 cl) + strlen (concat (map wire_rr rrs)))
    by (unfold out; rewrite !strlen_app; unfold put16, strlen; cbn [length]; lia).
  exists rrs, ls, f. split; [done|]. split; [done|]. split; [lia|]. unfold out. clear out Hlen.
  split; [done|]. split; [|exact Hbits].
  rewrite !put16_be by lia. cbn [app read_message]. change (Z.to_nat (0 * 256 + 1)) with 1%nat. cbn [read_many].
  rewrite read_question_wire by done. rewrite !be16_read, Nat2Z.id, <- Hn.
  rewrite <- (app_nil_r (concat _)), (read_many_wire read_rr wire_rr); [done|].
  apply Forall_forall. intros r Hr rest. rewrite Forall_forall in Hrr, Hb1. apply read_rr_wire; [by apply Hrr|].
  specialize (Hb1 _ Hr). lia.
Qed.

(** The answers of the authoritative role for a CNAME. *)
Definition cname_answers : list dns_wire_answer :=
  [ DnsAnswer (lit "www.eu") DNS_WIRE_TYPE_CNAME (lit "host.example.com.") 300;
    DnsAnswer (lit "host.example.com") DNS_WIRE_TYPE_A (lit "10.0.0.7") 300 ].

Definition www_query : bytes := wire_query 4660 256 [0; 0; 0; 0; 0; 0] [lit "WWW"; lit "eu"] 1 1 [].

Lemma response_reads_back_witness :
  let q := DnsQuery 4660 256 (lit "www.eu") 1 1 ([3] ++ lit "WWW" ++ [2] ++ lit "eu" ++ [0; 0; 1; 0; 1]) in
  bytes_ok www_query /\ dns_wire_parse_query (Some www_query) = Some q /\ Forall answer_ok cname_answers /\
  exists out rrs ls f, dns_wire_build_response (Some q) 0 cname_answers true 512 false = Some out /\
    read_message out = Some (Message 4660 f [Question ls 1 1] rrs).
Proof.
  cbv zeta. set (q := DnsQuery _ _ _ _ _ _).
  assert (Hok : bytes_ok www_query) by by_decide.
  assert (Hp : dns_wire_parse_query (Some www_query) = Some q) by (vm_compute; reflexivity).
  assert (Ha : Forall answer_ok cname_answers) by by_decide.
  split; [exact Hok|]. split; [exact Hp|]. split; [exact Ha|].
  pose proof (response_reads_back www_query q 0 cname_answers 512 false Hok Hp Ha ltac:(lia)) as H.
  destruct (dns_wire_build_response (Some q) 0 cname_answers true 512 false) as [out|] eqn:E; [|vm_compute in E; discriminate E].
  destruct H as (rrs & ls & f & _ & _ & _ & _ & Hr & _). by exists out, rrs, ls, f.
Defined.
