(* ===== verification/Ddns.v ===== *)
(** * The dynamic DNS client: update (tools/ddns/main.c)

    The reply buffer, the reply's meaning, the password file, the URL and the
    update itself.  libcurl is a parameter: how it escapes a value, whether it
    comes up, and what a request delivers to the write callback; so are the
    files and memory. *)

From S2P Require Import Prelude Http Double Config EnvFile CLib.

Definition DDNS_DEFAULT_ENDPOINT : cstring := lit "https://dynamicdns.park-your-domain.com/update".
Definition DDNS_UPDATE_TIMEOUT_SECS : Z := 15.

(** ** The reply *)

(** [len] is the length of the data. *)
Record reply_buffer := ReplyBuffer { rb_data : bytes; rb_cap : Z }.

Definition empty_reply : reply_buffer := ReplyBuffer [] 0.

(** [while (newcap < need) newcap *= 2;] *)
Fixpoint grow_cap (fuel : nat) (newcap need : Z) : Z :=
  match fuel with
  | O => newcap
  | S fuel => if newcap <? need then grow_cap fuel (u64 (newcap * 2)) need else newcap
  end.

(** The number of bytes taken, and the buffer. *)
Definition reply_write_cb (realloc : Z -> bool) (ptr : bytes) (buf : reply_buffer) : Z * reply_buffer :=
  let incoming := strlen ptr in
  let need := strlen (rb_data buf) + incoming + 1 in
  if rb_cap buf <? need then
    let newcap := grow_cap 64 (if rb_cap buf =? 0 then 4096 else u64 (rb_cap buf * 2)) need in
    if realloc newcap then (incoming, ReplyBuffer (rb_data buf ++ ptr) newcap) else (0, buf)
  else (incoming, ReplyBuffer (rb_data buf ++ ptr) (rb_cap buf)).

Definition ddns_reply_is_success (reply : cstring) : bool :=
  if starts_with (lit "Good") reply then true
  else if starts_with (lit "OK") reply then true
  else if starts_with (lit "No change") reply then true
  else
    match strstr (lit "<interface-response>") reply with
    | None => false
    | Some _ =>
        match strstr (lit "<ErrCount>") reply with
        | None => false
        | Some (_, p) =>
            match skip_while is_space p with
            | c :: p => if c =? chr "0" then starts_with (lit "</ErrCount>") (skip_while is_space p) else false
            | [] => false
            end
        end
    end.

(** [None]: no memory. *)
Definition sanitize_reply (malloc : bool) (raw : bytes) : option cstring :=
  if malloc
  then Some (trim_end is_space (skip_while is_space (List.filter (fun c => negb (c =? 0)) raw)))
  else None.

(** ** The password *)

Definition PASSWORD_CAP : Z := 65536.

(** The file's bytes, [None] when it cannot be opened. *)
Definition read_password_file (malloc : bool) (file : option bytes) : option cstring :=
  match file with
  | None => None
  | Some f =>
      if PASSWORD_CAP <=? strlen f then None
      else
        match trim_end is_space (skip_while is_space f) with
        | [] => None
        | password => if malloc then Some (c_string password) else None
        end
  end.

(** ** The request *)

Section Update.

(** [curl_easy_escape(NULL, s, 0)] *)
Variable url_escape : cstring -> option cstring.

Definition build_update_url (malloc : bool) (endpoint host domain password : cstring) (ip : option cstring)
  : option cstring :=
  let has_ip := match ip with Some (_ :: _) => true | _ => false end in
  match url_escape host, url_escape domain, url_escape password,
        (if has_ip then url_escape (default [] ip) else None) with
  | Some host_e, Some domain_e, Some pw_e, ip_e =>
      if has_ip && negb (bool_decide (is_Some ip_e)) then None
      else if negb malloc then None
      else
        let need := strlen endpoint + strlen host_e + strlen domain_e + strlen pw_e + strlen (default [] ip_e) + 64 in
        Some (snprintf_str need
                (endpoint ++ lit "?host=" ++ host_e ++ lit "&domain=" ++ domain_e ++ lit "&password=" ++ pw_e ++
                 match ip_e with Some ip_e => lit "&ip=" ++ ip_e | None => [] end))
  | _, _, _, _ => None
  end.

(** The options of a request. *)
Record curl_request := CurlRequest {
  rq_url : cstring;
  rq_headers : option cstring;
  rq_verify_peer : Z;
  rq_verify_host : Z;
  rq_follow : Z;
  rq_timeout : Z;
  rq_user_agent : cstring;
  rq_cainfo : option cstring;
}.

(** What libcurl does: whether a handle and a header list can be had, and per
    request the pieces of the body it delivers and whether it ends with
    [CURLE_OK]. *)
Record curl := Curl {
  cu_init : bool;
  cu_slist : bool;
  cu_perform : curl_request -> list bytes * bool;
}.

(** Deliver the body; a short write ends the transfer. *)
Fixpoint deliver (realloc : Z -> bool) (chunks : list bytes) (buf : reply_buffer) : bool * reply_buffer :=
  match chunks with
  | [] => (true, buf)
  | ptr :: chunks =>
      let '(n, buf) := reply_write_cb realloc ptr buf in
      if n =? strlen ptr then deliver realloc chunks buf else (false, buf)
  end.

(** The code, the reply and the request that was made. *)
Definition perform_https_get (cu : curl) (realloc : Z -> bool) (url : cstring) (ca_bundle accept_header : option cstring)
    (timeout_secs : Z) (reply : reply_buffer) : Z * reply_buffer * list curl_request :=
  if negb (cu_init cu) then (-1, reply, [])
  else
    let headers := match accept_header with Some (c :: h) => Some (c :: h) | _ => None end in
    if bool_decide (is_Some headers) && negb (cu_slist cu) then (-1, reply, [])
    else
      let rq := CurlRequest url headers 1 2 0 timeout_secs (lit "strim-ddns/1.0")
                  match ca_bundle with Some (c :: b) => Some (c :: b) | _ => None end in
      let '(chunks, ok) := cu_perform cu rq in
      let '(taken, reply) := deliver realloc chunks reply in
      (if ok && taken then 0 else -1, reply, [rq]).

(** ** run_update *)

(** What the update meets: the environment, the files, libcurl and memory. *)
Record update_env := UpdateEnv {
  ue_getenv : cstring -> option cstring;
  ue_file : cstring -> option bytes;
  ue_curl : curl;
  ue_realloc : Z -> bool;
  ue_malloc_password : bool;
  ue_malloc_url : bool;
  ue_malloc_clean : bool;
}.

(** The exit code, the two outputs, and the requests made. *)
Record update_result := UpdateResult {
  ur_exit : Z;
  ur_stdout : cstring;
  ur_requests : list curl_request;
}.

(** The [i]th argument after the subcommand, or a variable. *)
Definition arg_or_env (getenv : cstring -> option cstring) (args : list cstring) (i : nat) (name : cstring) : option cstring :=
  match args !! i with Some a => Some a | None => getenv name end.

Definition run_update (env : update_env) (args : list cstring) : update_result :=
  let get := arg_or_env (ue_getenv env) args in
  let ip := get 3%nat (lit "DDNS_IP") in
  match get 0%nat (lit "DDNS_HOST"), get 1%nat (lit "DDNS_DOMAIN"), get 2%nat (lit "DDNS_PASSWORD_FILE") with
  | Some ((_ :: _) as host), Some ((_ :: _) as domain), Some ((_ :: _) as password_file) =>
      let endpoint := match ue_getenv env (lit "DDNS_ENDPOINT") with Some ((_ :: _) as e) => e | _ => DDNS_DEFAULT_ENDPOINT end in
      match read_password_file (ue_malloc_password env) (ue_file env password_file) with
      | None => UpdateResult 2 [] []
      | Some password =>
          match build_update_url (ue_malloc_url env) endpoint host domain password ip with
          | None => UpdateResult 2 [] []
          | Some url =>
              let '(rc, reply, rqs) :=
                perform_https_get (ue_curl env) (ue_realloc env) url (ue_getenv env (lit "DDNS_CA_BUNDLE")) None
                  DDNS_UPDATE_TIMEOUT_SECS empty_reply in
              if negb (rc =? 0) then UpdateResult 1 [] rqs
              else
                match sanitize_reply (ue_malloc_clean env) (rb_data reply) with
                | None => UpdateResult 1 [] rqs
                | Some clean =>
                    if ddns_reply_is_success clean then UpdateResult 0 (clean ++ nl) rqs else UpdateResult 1 [] rqs
                end
          end
      end
  | _, _, _ => UpdateResult 2 [] []
  end.

End Update.

Example success_examples :
  map (fun s => ddns_reply_is_success (lit s))
    ["Good 1.2.3.4"; "No change"; "nochg"; "<interface-response><ErrCount> 0 </ErrCount></interface-response>";
     "<interface-response><ErrCount>1</ErrCount>"; "<ErrCount>0</ErrCount>"]%string =
  [true; true; false; true; false; false].
Proof. vm_compute. reflexivity. Qed.

(** * Correctness of the dynamic DNS update

    What the reply means, what the URL carries, and what the update does. *)


(** ** The reply buffer *)

(** The data and its NUL are inside the allocation. *)
Definition buffer_ok (b : reply_buffer) : Prop :=
  rb_data b = [] /\ rb_cap b = 0 \/ strlen (rb_data b) + 1 <= rb_cap b < 2 ^ 64.

Lemma grow_cap_enough (fuel : nat) (c need : Z) :
  0 < c < 2 ^ 64 -> need <= 2 ^ 62 -> need <= c * 2 ^ Z.of_nat fuel -> need <= grow_cap fuel c need < 2 ^ 64.
Proof.
  revert c. induction fuel as [|fuel IH]; intros c Hc Hn Hf; cbn [grow_cap]; [cbn in Hf; lia|].
  destruct (Z.ltb_spec c need); [|lia]. rewrite wrap_small by lia. apply IH; [lia|done|].
  rewrite Nat2Z.inj_succ, Z.pow_succ_r in Hf by lia. lia.
Qed.

Lemma write_cb_spec (realloc : Z -> bool) (ptr : bytes) (b : reply_buffer) :
  buffer_ok b -> strlen (rb_data b) + strlen ptr + 1 <= 2 ^ 62 ->
  let '(n, b') := reply_write_cb realloc ptr b in
  buffer_ok b' /\
  (n = strlen ptr /\ rb_data b' = rb_data b ++ ptr \/ n = 0 /\ b' = b /\ exists k, realloc k = false).
Proof.
  intros Hb Hsz. unfold reply_write_cb. pose proof (strlen_nonneg (rb_data b)). pose proof (strlen_nonneg ptr).
  destruct (Z.ltb_spec (rb_cap b) (strlen (rb_data b) + strlen ptr + 1)) as [Hlt|Hge].
  - set (c0 := if rb_cap b =? 0 then 4096 else _). set (need := strlen (rb_data b) + strlen ptr + 1) in *.
    assert (Hc0 : 0 < c0 < 2 ^ 64).
    { unfold c0, buffer_ok in *. destruct (Z.eqb_spec (rb_cap b) 0); [lia|]. destruct Hb as [[_ ?]|Hb]; [lia|].
      rewrite wrap_small by lia. lia. }
    assert (Hg : need <= grow_cap 64 c0 need < 2 ^ 64) by (apply grow_cap_enough; [done|done|]; change (2 ^ Z.of_nat 64) with (2 ^ 64); nia).
    destruct (realloc (grow_cap 64 c0 need)) eqn:Er; [|split; [done|]; right; split_and!; [done|done|by eexists]].
    split; [|by left]. right. cbn [rb_data rb_cap]. rewrite strlen_app. fold need. exact Hg.
  - split; [|by left]. cbn [rb_data rb_cap]. unfold buffer_ok in *. cbn [rb_data rb_cap]. rewrite strlen_app. destruct Hb as [[_ ?]|Hb]; lia.
Qed.

Lemma deliver_spec (realloc : Z -> bool) (chunks : list bytes) (b : reply_buffer) :
  buffer_ok b -> strlen (rb_data b ++ concat chunks) + 1 <= 2 ^ 62 ->
  let '(ok, b') := deliver realloc chunks b in
  buffer_ok b' /\ (ok = true -> rb_data b' = rb_data b ++ concat chunks) /\ ((forall k, realloc k = true) -> ok = true).
Proof.
  revert b. induction chunks as [|ptr chunks IH]; intros b Hb Hsz; cbn [deliver]; [by rewrite app_nil_r|].
  cbn [concat] in Hsz. rewrite !strlen_app in Hsz. pose proof (strlen_nonneg (concat chunks)).
  pose proof (write_cb_spec realloc ptr b Hb ltac:(lia)) as Hw. destruct (reply_write_cb realloc ptr b) as [n b'].
  destruct Hw as [Hb' [[-> Hd]|(-> & -> & k & Hk)]].
  - rewrite Z.eqb_refl. specialize (IH b' Hb'). rewrite Hd, !strlen_app in IH. specialize (IH ltac:(lia)).
    destruct (deliver realloc chunks b') as [ok b'']. destruct IH as (H1 & H2 & H3). split_and!; [done| |done].
    intros Hok. rewrite (H2 Hok). cbn [concat]. by rewrite app_assoc.
  - destruct (Z.eqb_spec 0 (strlen ptr)) as [Hz|_].
    + assert (ptr = []) as -> by (destruct ptr; [done|unfold strlen in Hz; cbn in Hz; lia]). apply IH; [done|]. rewrite strlen_app. lia.
    + split_and!; [done|done|]. intros Hall. by rewrite Hall in Hk.
Qed.

(** ** What a reply means *)

Definition spaces (w : cstring) : Prop := Forall (fun c => is_space c = true) w.

(** The reply opens with one of the texts, or is an XML reply whose first
    error count is zero. *)
Definition reports_success (reply : cstring) : Prop :=
  (exists p rest, p ∈ map lit ["Good"; "OK"; "No change"]%string /\ reply = p ++ rest) \/
  ((exists a b, reply = a ++ lit "<interface-response>" ++ b) /\
   exists a w1 w2 b, reply = a ++ lit "<ErrCount>" ++ w1 ++ lit "0" ++ w2 ++ lit "</ErrCount>" ++ b /\
     spaces w1 /\ spaces w2 /\ forall a' b', reply = a' ++ lit "<ErrCount>" ++ b' -> (length a <= length a')%nat).

Lemma skip_spaces (p : cstring) : exists w, spaces w /\ p = w ++ skip_while is_space p.
Proof.
  induction p as [|c p (w & Hw & E)]; [exists []; by split; [constructor|]|]. cbn [skip_while].
  destruct (is_space c) eqn:Ec; [|exists []; by split; [constructor|]].
  exists (c :: w). split; [by constructor|]. cbn. by f_equal.
Qed.

Lemma skip_spaces_app (w : cstring) (c : Z) (p : cstring) :
  spaces w -> is_space c = false -> skip_while is_space (w ++ c :: p) = c :: p.
Proof. intros Hw Hc. induction Hw as [|x w Hx Hw IH]; cbn [app skip_while]; [by rewrite Hc|by rewrite Hx]. Qed.

(** The same place. *)
Lemma same_split {A} (p : list A) (a b a' b' : list A) :
  a ++ p ++ b = a' ++ p ++ b' -> length a = length a' -> a = a' /\ b = b'.
Proof. intros H Hl. apply app_inj_1 in H as [-> H]; [|done]. split; [done|]. by apply app_inj_1 in H as [_ ->]. Qed.

Lemma reply_success_iff (reply : cstring) : ddns_reply_is_success reply = true <-> reports_success reply.
Proof.
  unfold ddns_reply_is_success, reports_success.
  assert (Hpre : forall p, p ∈ map lit ["Good"; "OK"; "No change"]%string -> starts_with p reply = true ->
    exists p rest, p ∈ map lit ["Good"; "OK"; "No change"]%string /\ reply = p ++ rest).
  { intros p Hp Hs. apply starts_with_spec in Hs as [r Hr]. by exists p, r. }
  destruct (starts_with (lit "Good") reply) eqn:E1; [split; [intros _; left; eapply Hpre; [|exact E1]; by_decide|done]|].
  destruct (starts_with (lit "OK") reply) eqn:E2; [split; [intros _; left; eapply Hpre; [|exact E2]; by_decide|done]|].
  destruct (starts_with (lit "No change") reply) eqn:E3; [split; [intros _; left; eapply Hpre; [|exact E3]; by_decide|done]|].
  assert (Hno : ~ exists p rest, p ∈ map lit ["Good"; "OK"; "No change"]%string /\ reply = p ++ rest).
  { intros (p & rest & Hp & Hr). assert (starts_with p reply = true) by (apply starts_with_spec; by exists rest).
    cbn [map] in Hp. repeat (apply elem_of_cons in Hp as [->|Hp]; [congruence|]). by apply elem_of_nil in Hp. }
  clear Hpre E1 E2 E3.
  destruct (strstr (lit "<interface-response>") reply) as [[x y]|] eqn:Ei.
  2:{ split; [done|]. intros [?|[(a & b & ->) _]]; [done|]. destruct (strstr_found (lit "<interface-response>") a b) as [? H]. congruence. }
  apply strstr_spec in Ei.
  destruct (strstr (lit "<ErrCount>") reply) as [[a p]|] eqn:Ee.
  2:{ split; [done|]. intros [?|[_ (a & w1 & w2 & b & Hr & _)]]; [done|].
      destruct (strstr_found (lit "<ErrCount>") a (w1 ++ lit "0" ++ w2 ++ lit "</ErrCount>" ++ b)) as [? H]. rewrite <- Hr in H. congruence. }
  pose proof (strstr_spec _ _ _ _ Ee) as Hr.
  split.
  - intros H. right. split; [by exists x, y|]. destruct (skip_spaces p) as (w1 & Hw1 & Hp).
    destruct (skip_while is_space p) as [|c q] eqn:Es; [done|]. destruct (Z.eqb_spec c (chr "0")) as [->|]; [|done].
    destruct (skip_spaces q) as (w2 & Hw2 & Hq). apply starts_with_spec in H as [b Hb]. rewrite Hb in Hq.
    exists a, w1, w2, b. split_and!; [rewrite Hr, Hp, Hq; done|done|done|]. intros a' b'. by eapply strstr_first.
  - intros [?|[_ (a' & w1 & w2 & b & Hr' & Hw1 & Hw2 & Hmin)]]; [done|].
    assert (Hlen : length a' = length a).
    { apply Nat.le_antisymm; [by eapply Hmin|]. eapply strstr_first; [exact Ee|exact Hr']. }
    rewrite Hr in Hr'. symmetry in Hr'. apply same_split in Hr' as [-> <-]; [|done].
    change (lit "0" ++ w2 ++ lit "</ErrCount>" ++ b) with (chr "0" :: w2 ++ chr "<" :: lit "/ErrCount>" ++ b).
    rewrite skip_spaces_app by done. rewrite Z.eqb_refl, skip_spaces_app by done. apply starts_with_spec. by exists b.
Qed.

(** ** What a URL carries *)

Definition url_unreserved (c : Z) : bool :=
  is_digit c || ((chr "a" <=? c) && (c <=? chr "z")) || ((chr "A" <=? c) && (c <=? chr "Z")) ||
  (c =? chr "-") || (c =? chr ".") || (c =? chr "_") || (c =? chr "~").
Definition url_safe (c : Z) : Prop := url_unreserved c = true \/ c = chr "%".

Definition hex_value (c : Z) : option Z :=
  if is_digit c then Some (digit c)
  else if (chr "A" <=? c) && (c <=? chr "F") then Some (c - chr "A" + 10)
  else if (chr "a" <=? c) && (c <=? chr "f") then Some (c - chr "a" + 10) else None.

(** Percent-decoding. *)
Fixpoint url_unescape (s : cstring) : option cstring :=
  match s with
  | [] => Some []
  | c :: s =>
      if c =? chr "%" then
        match s with
        | h :: l :: s =>
            match hex_value h, hex_value l, url_unescape s with
            | Some h, Some l, Some s => Some (16 * h + l :: s)
            | _, _, _ => None
            end
        | _ => None
        end
      else match url_unescape s with Some s => Some (c :: s) | None => None end
  end.

(** A field of a query string. *)
Definition form_field (f : cstring) : option (cstring * cstring) :=
  match cut_at (chr "=") f with
  | Some (k, v) => match url_unescape v with Some v => Some (k, v) | None => None end
  | None => None
  end.
Definition form_fields (q : cstring) : option (list (cstring * cstring)) := mapM form_field (split_on (chr "&") q).

(** What libcurl documents of its escaping. *)
Definition escapes (esc : cstring -> option cstring) : Prop :=
  forall s e, esc s = Some e -> Forall url_safe e /\ url_unescape e = Some s.

Lemma safe_no (c : Z) (e : cstring) : Forall url_safe e -> url_unreserved c = false -> c <> chr "%" -> c ∉ e.
Proof. intros He Hc Hp Hin. rewrite Forall_forall in He. destruct (He c Hin); [congruence|done]. Qed.

Lemma cut_app (c : Z) (a b : cstring) : c ∉ a -> cut_at c (a ++ c :: b) = Some (a, b).
Proof.
  intros Ha. induction a as [|x a IH]; cbn [app cut_at]; [by rewrite Z.eqb_refl|].
  apply not_elem_of_cons in Ha as [Hx Ha]. rewrite (proj2 (Z.eqb_neq _ _)) by done. by rewrite IH.
Qed.

Lemma field_decodes (k v e : cstring) : chr "=" ∉ k -> url_unescape e = Some v -> form_field (k ++ chr "=" :: e) = Some (k, v).
Proof. intros Hk He. unfold form_field. by rewrite cut_app, He. Qed.

(** The fields of the update's query. *)
Definition update_fields (host domain password : cstring) (ip : option cstring) : list (cstring * cstring) :=
  [(lit "host", host); (lit "domain", domain); (lit "password", password)] ++
  match ip with Some ((_ :: _) as ip) => [(lit "ip", ip)] | _ => [] end.

Lemma mapM_cons_Some {A B} (f : A -> option B) (x : A) (y : B) (xs : list A) (ys : list B) :
  f x = Some y -> mapM f xs = Some ys -> mapM f (x :: xs) = Some (y :: ys).
Proof. intros Hx Hxs. cbn. rewrite Hx. cbn. by rewrite Hxs. Qed.

(** The password, and the address when there is one. *)
Lemma last_fields (p password : cstring) (ip x : option cstring) :
  Forall url_safe p -> url_unescape p = Some password ->
  match ip with Some ((_ :: _) as i) => exists e, x = Some e /\ Forall url_safe e /\ url_unescape e = Some i | _ => x = None end ->
  mapM form_field (split_on (chr "&") ((lit "password=" ++ p) ++ match x with Some e => lit "&ip=" ++ e | None => [] end)) =
  Some ((lit "password", password) :: match ip with Some ((_ :: _) as i) => [(lit "ip", i)] | _ => [] end).
Proof.
  intros Sp Up Hx.
  assert (Hamp : forall k e, chr "&" ∉ k -> Forall url_safe e -> chr "&" ∉ k ++ e)
    by (intros k e Hk He; rewrite not_elem_of_app; split; [done|by apply safe_no]).
  assert (Hpw : form_field (lit "password=" ++ p) = Some (lit "password", password)) by (apply (field_decodes (lit "password")); [by_decide|done]).
  assert (Hnp : chr "&" ∉ lit "password=" ++ p) by (apply Hamp; [by_decide|done]).
  assert (Hnone : x = None -> mapM form_field (split_on (chr "&") ((lit "password=" ++ p) ++ match x with Some e => lit "&ip=" ++ e | None => [] end)) =
    Some [(lit "password", password)]).
  { intros ->. rewrite app_nil_r, split_single by done. by apply mapM_cons_Some. }
  destruct ip as [[|c i]|]; [by apply Hnone| |by apply Hnone]. destruct Hx as (e & -> & Se & Ue).
  change (lit "&ip=" ++ e) with (chr "&" :: lit "ip=" ++ e). rewrite split_app by done. apply mapM_cons_Some; [done|].
  rewrite split_single by (apply Hamp; [by_decide|done]). apply mapM_cons_Some; [|done].
  apply (field_decodes (lit "ip")); [by_decide|done].
Qed.

Lemma update_url_fields (esc : cstring -> option cstring) (m : bool) (endpoint host domain password : cstring)
    (ip : option cstring) (url : cstring) :
  escapes esc -> build_update_url esc m endpoint host domain password ip = Some url ->
  exists q, url = endpoint ++ lit "?" ++ q /\ form_fields q = Some (update_fields host domain password ip).
Proof.
  intros Hesc. unfold build_update_url.
  destruct (esc host) as [h|] eqn:Eh; [|done]. destruct (esc domain) as [d|] eqn:Ed; [|done].
  destruct (esc password) as [p|] eqn:Ep; [|done].
  destruct (Hesc _ _ Eh) as [Sh Uh], (Hesc _ _ Ed) as [Sd Ud], (Hesc _ _ Ep) as [Sp Up].
  assert (Hamp : forall e, Forall url_safe e -> chr "&" ∉ e) by (intros e He; by apply safe_no).
  set (x := if (_ : bool) then esc _ else None). destruct (_ && negb (bool_decide _)) eqn:Eb; [done|]. destruct m; [|done]. cbn [negb].
  intros Hu. apply (inj Some) in Hu as <-.
  assert (Hx : match ip with Some ((_ :: _) as i) => exists e, x = Some e /\ Forall url_safe e /\ url_unescape e = Some i | _ => x = None end).
  { unfold x in *. destruct ip as [[|c i]|]; [done| |done]. cbn in Eb |- *. destruct (esc (c :: i)) as [e|] eqn:Ei; [|discriminate Eb].
    exists e. split; [done|]. by apply Hesc. }
  set (tail := match x with Some _ => _ | None => [] end).
  exists (lit "host=" ++ h ++ chr "&" :: lit "domain=" ++ d ++ chr "&" :: lit "password=" ++ p ++ tail). split.
  - unfold snprintf_str. rewrite take_ge; [done|].
    assert (Ht : strlen tail <= strlen (default [] x) + 4)
      by (unfold tail; destruct x; unfold strlen; simpl; lia).
    unfold strlen in *. repeat (rewrite !length_app; cbn [length lit]). lia.
  - unfold form_fields.
    rewrite (app_assoc (lit "host=")), split_app by (rewrite not_elem_of_app; split; [by_decide|by apply Hamp]).
    rewrite (app_assoc (lit "domain=")), split_app by (rewrite not_elem_of_app; split; [by_decide|by apply Hamp]).
    rewrite (app_assoc (lit "password=")).
    apply mapM_cons_Some; [apply (field_decodes (lit "host")); [by_decide|done]|].
    apply mapM_cons_Some; [apply (field_decodes (lit "domain")); [by_decide|done]|]. by apply last_fields.
Qed.

(** ** The update *)

(** The text of a body: no NULs, no spaces around it. *)
Definition body_text (body : bytes) : cstring :=
  trim_end is_space (skip_while is_space (List.filter (fun c => negb (c =? 0)) body)).

(** Once the URL is built. *)
Definition finish_update (env : update_env) (url : cstring) : update_result :=
  let '(rc, reply, rqs) :=
    perform_https_get (ue_curl env) (ue_realloc env) url (ue_getenv env (lit "DDNS_CA_BUNDLE")) None
      DDNS_UPDATE_TIMEOUT_SECS empty_reply in
  if negb (rc =? 0) then UpdateResult 1 [] rqs
  else
    match sanitize_reply (ue_malloc_clean env) (rb_data reply) with
    | None => UpdateResult 1 [] rqs
    | Some clean => if ddns_reply_is_success clean then UpdateResult 0 (clean ++ nl) rqs else UpdateResult 1 [] rqs
    end.

Lemma update_cases (esc : cstring -> option cstring) (env : update_env) (args : list cstring) :
  let get := arg_or_env (ue_getenv env) args in
  run_update esc env args = UpdateResult 2 [] [] \/
  exists host domain file password url,
    get 0%nat (lit "DDNS_HOST") = Some host /\ get 1%nat (lit "DDNS_DOMAIN") = Some domain /\
    get 2%nat (lit "DDNS_PASSWORD_FILE") = Some file /\
    read_password_file (ue_malloc_password env) (ue_file env file) = Some password /\
    build_update_url esc (ue_malloc_url env)
      match ue_getenv env (lit "DDNS_ENDPOINT") with Some ((_ :: _) as e) => e | _ => DDNS_DEFAULT_ENDPOINT end
      host domain password (get 3%nat (lit "DDNS_IP")) = Some url /\
    run_update esc env args = finish_update env url.
Proof.
  cbv zeta. unfold run_update.
  destruct (arg_or_env _ _ 0 _) as [[|h host]|]; [by left| |by left].
  destruct (arg_or_env _ _ 1 _) as [[|d domain]|]; [by left| |by left].
  destruct (arg_or_env _ _ 2 _) as [[|f file]|]; [by left| |by left].
  destruct (read_password_file _ _) as [password|] eqn:Ep; [|by left].
  destruct (build_update_url _ _ _ _ _ _ _) as [url|] eqn:Eu; [|by left].
  right. by exists (h :: host), (d :: domain), (f :: file), password, url.
Qed.

Lemma finish_update_spec (env : update_env) (url : cstring) :
  (forall rq, strlen (concat (cu_perform (ue_curl env) rq).1) < 2 ^ 62) ->
  let r := finish_update env url in
  (length (ur_requests r) <= 1)%nat /\
  (forall rq, rq ∈ ur_requests r -> rq_url rq = url /\ rq_verify_peer rq = 1 /\ rq_verify_host rq = 2 /\ rq_follow rq = 0 /\
     rq_timeout rq = DDNS_UPDATE_TIMEOUT_SECS) /\
  (ur_exit r = 0 <->
   exists rq, ur_requests r = [rq] /\ (cu_perform (ue_curl env) rq).2 = true /\
     (deliver (ue_realloc env) (cu_perform (ue_curl env) rq).1 empty_reply).1 = true /\
     ue_malloc_clean env = true /\ reports_success (body_text (concat (cu_perform (ue_curl env) rq).1))) /\
  (ur_exit r = 0 -> exists rq, ur_requests r = [rq] /\ ur_stdout r = body_text (concat (cu_perform (ue_curl env) rq).1) ++ nl) /\
  (ur_exit r <> 0 -> ur_stdout r = [] /\ ur_exit r = 1).
Proof.
  intros Hsz. cbv zeta. unfold finish_update, perform_https_get. destruct (cu_init (ue_curl env)); cbn [negb].
  2:{ cbn. split_and!; [lia|by intros ? ?%elem_of_nil|split; [done|by intros (? & ? & _)]|done|done]. }
  cbn [andb bool_decide]. rewrite bool_decide_eq_false_2 by (by intros [? ?]). cbn [andb].
  set (rq := CurlRequest _ _ _ _ _ _ _ _). specialize (Hsz rq). destruct (cu_perform (ue_curl env) rq) as [chunks ok] eqn:Eq.
  cbn [fst] in Hsz.
  pose proof (deliver_spec (ue_realloc env) chunks empty_reply ltac:(by left) ltac:(cbn; lia)) as Hd.
  destruct (deliver (ue_realloc env) chunks empty_reply) as [taken reply] eqn:Ed. destruct Hd as (_ & Hdata & _). cbn [rb_data empty_reply app] in Hdata.
  assert (Hone : forall rc out, let r := UpdateResult rc out [rq] in
    (length (ur_requests r) <= 1)%nat /\ (forall rq0, rq0 ∈ ur_requests r -> rq_url rq0 = url /\ rq_verify_peer rq0 = 1 /\
      rq_verify_host rq0 = 2 /\ rq_follow rq0 = 0 /\ rq_timeout rq0 = DDNS_UPDATE_TIMEOUT_SECS))
    by (intros; cbn; split; [lia|by intros ? ->%list_elem_of_singleton]).
  assert (Hsame : forall x, [rq] = [x] -> x = rq) by (by intros x [= ->]).
  assert (Hfail : ~ (ok = true /\ taken = true /\ ue_malloc_clean env = true /\ reports_success (body_text (concat chunks))) ->
    forall x, [rq] = [x] -> (cu_perform (ue_curl env) x).2 = true ->
      (deliver (ue_realloc env) (cu_perform (ue_curl env) x).1 empty_reply).1 = true -> ue_malloc_clean env = true ->
      reports_success (body_text (concat (cu_perform (ue_curl env) x).1)) -> False).
  { intros Hn x ->%Hsame. rewrite Eq. cbn [fst snd]. rewrite Ed. cbn [fst]. naive_solver. }
  destruct (ok && taken) eqn:Eok; cbn [negb Z.eqb Z.opp].
  2:{ destruct (Hone 1 []) as [H1 H2]. split; [done|]. split; [done|]. cbn [ur_exit ur_stdout ur_requests].
      split; [split; [done|intros (x & ? & ? & ? & ? & ?); exfalso; eapply Hfail; try done; by intros (-> & -> & _)]|done]. }
  apply andb_true_iff in Eok as [-> ->]. rewrite (Hdata eq_refl). unfold sanitize_reply. fold (body_text (concat chunks)).
  destruct (ue_malloc_clean env) eqn:Em; [destruct (ddns_reply_is_success (body_text (concat chunks))) eqn:Es|].
  - apply reply_success_iff in Es. destruct (Hone 0 (body_text (concat chunks) ++ nl)) as [H1 H2].
    split; [done|]. split; [done|]. cbn [ur_exit ur_stdout ur_requests].
    assert (Hpf : chunks = (cu_perform (ue_curl env) rq).1) by (by rewrite Eq).
    split; [split; [intros _|done]|split; [intros _|done]]; exists rq; rewrite <- ?Hpf, ?Ed, ?Eq; done.
  - destruct (Hone 1 []) as [H1 H2]. split; [done|]. split; [done|]. cbn [ur_exit ur_stdout ur_requests].
    split; [split; [done|intros (x & ? & ? & ? & ? & ?); exfalso; eapply Hfail; try done]|done].
    intros (_ & _ & _ & Hs). apply reply_success_iff in Hs. congruence.
  - destruct (Hone 1 []) as [H1 H2]. split; [done|]. split; [done|]. cbn [ur_exit ur_stdout ur_requests].
    split; [split; [done|by intros (x & ? & ? & ? & ? & ?)]|done].
Qed.

(** C30: what an update does.  It makes at most one request.  The request
    verifies the server's certificate and name, follows no redirect and ends
    after 15 seconds; its URL is the endpoint and a query whose fields,
    decoded, are the host, the domain, the password of the file and the
    address, if any.  The exit code is 0 exactly when the transfer completed
    and its body, without NULs and surrounding spaces, reports success; then
    that text is printed, and nothing otherwise.  No host, domain or password
    file is exit code 2, without a request. *)
Theorem update_contract (esc : cstring -> option cstring) (env : update_env) (args : list cstring) :
  escapes esc -> (forall rq, strlen (concat (cu_perform (ue_curl env) rq).1) < 2 ^ 62) ->
  let r := run_update esc env args in
  let get := arg_or_env (ue_getenv env) args in
  let delivered rq := (deliver (ue_realloc env) (cu_perform (ue_curl env) rq).1 empty_reply).1 in
  (length (ur_requests r) <= 1)%nat /\
  (forall rq, rq ∈ ur_requests r ->
     rq_verify_peer rq = 1 /\ rq_verify_host rq = 2 /\ rq_follow rq = 0 /\ rq_timeout rq = DDNS_UPDATE_TIMEOUT_SECS /\
     exists host domain file password q,
       get 0%nat (lit "DDNS_HOST") = Some host /\ get 1%nat (lit "DDNS_DOMAIN") = Some domain /\
       get 2%nat (lit "DDNS_PASSWORD_FILE") = Some file /\
       read_password_file (ue_malloc_password env) (ue_file env file) = Some password /\
       rq_url rq = match ue_getenv env (lit "DDNS_ENDPOINT") with Some ((_ :: _) as e) => e | _ => DDNS_DEFAULT_ENDPOINT end ++
                   lit "?" ++ q /\
       form_fields q = Some (update_fields host domain password (get 3%nat (lit "DDNS_IP")))) /\
  (ur_exit r = 0 <->
   exists rq, ur_requests r = [rq] /\ (cu_perform (ue_curl env) rq).2 = true /\ delivered rq = true /\
     ue_malloc_clean env = true /\ reports_success (body_text (concat (cu_perform (ue_curl env) rq).1))) /\
  (ur_exit r = 0 -> exists rq, ur_requests r = [rq] /\ ur_stdout r = body_text (concat (cu_perform (ue_curl env) rq).1) ++ nl) /\
  (ur_exit r <> 0 -> ur_stdout r = [] /\ (ur_exit r = 1 \/ ur_exit r = 2 /\ ur_requests r = [])) /\
  (get 0%nat (lit "DDNS_HOST") = None \/ get 1%nat (lit "DDNS_DOMAIN") = None \/ get 2%nat (lit "DDNS_PASSWORD_FILE") = None ->
   ur_exit r = 2).
Proof.
  intros Hesc Hsz. cbv zeta.
  destruct (update_cases esc env args) as [->|(host & domain & file & password & url & Gh & Gd & Gf & Hpw & Hurl & ->)].
  { cbn. split_and!; [lia|by intros ? ?%elem_of_nil|split; [done|by intros (? & ? & _)]|done| |done].
    intros _. split; [done|by right]. }
  destruct (update_url_fields _ _ _ _ _ _ _ _ Hesc Hurl) as (q & Hq & Hf).
  destruct (finish_update_spec env url Hsz) as (Hlen & Hrq & Hexit & Hout & Hno).
  split; [done|]. split; [|split; [done|split; [done|split; [|naive_solver]]]].
  - intros rq Hin. destruct (Hrq rq Hin) as (Hu & H1 & H2 & H3 & H4). split_and!; [done|done|done|done|].
    exists host, domain, file, password, q. by rewrite Hu.
  - intros Hne. destruct (Hno Hne) as [? ?]. split; [done|by left].
Qed.

(** A percent-encoder with the documented behaviour. *)
Definition hex_digit (v : Z) : Z := if v <? 10 then chr "0" + v else chr "A" + (v - 10).
Definition percent_char (c : Z) : cstring := if url_unreserved c then [c] else [chr "%"; hex_digit (c / 16); hex_digit (c mod 16)].
Definition percent_encode (s : cstring) : option cstring :=
  if forallb (fun c => (0 <=? c) && (c <? 256)) s then Some (concat (map percent_char s)) else None.

Lemma percent_encode_escapes : escapes percent_encode.
Proof.
  intros s e. unfold percent_encode. destruct (forallb _ s) eqn:Es; [|done]. intros [= <-].
  induction s as [|c s IH]; [split; [constructor|done]|]. cbn [forallb] in Es. apply andb_true_iff in Es as [Hc Hs].
  destruct (IH Hs) as [IH1 IH2]. clear IH. apply andb_true_iff in Hc as [Hc0 Hc1]. bool_props.
  cbn [map concat]. unfold percent_char at 1 3. destruct (url_unreserved c) eqn:Eu.
  - split; [constructor; [by left|done]|]. cbn [app url_unescape]. rewrite IH2.
    destruct (Z.eqb_spec c (chr "%")) as [->|]; [discriminate Eu|done].
  - pose proof (all_bytes (fun c => bool_decide (url_unreserved (hex_digit (c / 16)) = true /\ url_unreserved (hex_digit (c mod 16)) = true /\
        hex_value (hex_digit (c / 16)) = Some (c / 16) /\ hex_value (hex_digit (c mod 16)) = Some (c mod 16)))
      ltac:(by vm_compute) c ltac:(by split)) as H.
    cbn beta in H. apply bool_decide_eq_true_1 in H as (H1 & H2 & H3 & H4).
    split; [constructor; [by right|]; constructor; [by left|]; constructor; [by left|done]|]. cbn [app url_unescape]. rewrite Z.eqb_refl, H3, H4, IH2.
    do 2 f_equal. pose proof (Z.div_mod c 16). lia.
Qed.

(** An update that is answered in XML, in two pieces. *)
Definition xml_curl : curl :=
  Curl true true (fun _ => ([lit "  <interface-response><ErrCo"; lit "unt>0</ErrCount>" ++ [0]], true)).
Definition xml_env : update_env :=
  UpdateEnv (fun _ => None) (fun _ => Some (lit "p&ss word" ++ nl)) xml_curl (fun _ => true) true true true.
Definition xml_args : list cstring := [lit "home"; lit "example.com"; lit "/etc/ddns"; lit "10.0.0.7"].

Lemma update_contract_witness :
  escapes percent_encode /\ ur_exit (run_update percent_encode xml_env xml_args) = 0 /\
  exists rq, ur_requests (run_update percent_encode xml_env xml_args) = [rq] /\
    ur_stdout (run_update percent_encode xml_env xml_args) = body_text (concat (cu_perform xml_curl rq).1) ++ nl.
Proof.
  split; [exact percent_encode_escapes|].
  destruct (update_contract percent_encode xml_env xml_args percent_encode_escapes ltac:(done)) as (_ & _ & H & Hout & _).
  assert (H0 : ur_exit (run_update percent_encode xml_env xml_args) = 0).
  { apply H. eexists. split; [vm_compute; reflexivity|]. split; [reflexivity|]. split; [reflexivity|]. split; [reflexivity|].
    apply reply_success_iff. vm_compute. reflexivity. }
  split; [exact H0|]. exact (Hout H0).
Defined.
