(* ===== verification/DdnsCheck.v ===== *)
(** * The dynamic DNS client: check and main (tools/ddns/main.c)

    The check asks the authoritative name servers of the domain for the
    address of the host.  c-ares is a parameter: what happens during each
    query's event loop, and how it reads the replies.  A check makes its
    queries one after the other; the [i]th of them meets the script [i]. *)

From S2P Require Import Prelude Http Double Config EnvFile CLib Ddns.

Definition DDNS_DNS_TIMEOUT_MS : Z := 5000.
Definition DDNS_DNS_TRIES : Z := 2.
Definition DDNS_MAX_NS_IPS : nat := 32.

(** ares.h *)
Definition ARES_SUCCESS : Z := 0.
Definition ARES_ENODATA : Z := 1.
Definition ARES_EFORMERR : Z := 2.
Definition ARES_ESERVFAIL : Z := 3.
Definition ARES_ENOTFOUND : Z := 4.
Definition ARES_ENOTIMP : Z := 5.
Definition ARES_EREFUSED : Z := 6.
Definition ARES_EBADRESP : Z := 10.
Definition ARES_ECONNREFUSED : Z := 11.
Definition ARES_ETIMEOUT : Z := 12.
Definition ARES_ENOMEM : Z := 15.
Definition ARES_ECANCELLED : Z := 24.
Definition ARES_REC_TYPE_A : Z := 1.
Definition ARES_REC_TYPE_NS : Z := 2.

Definition dns_status_str (status : Z) : cstring :=
  if status =? ARES_SUCCESS then lit "ok"
  else if status =? ARES_ENODATA then lit "no answer records"
  else if status =? ARES_EFORMERR then lit "malformed response"
  else if status =? ARES_ESERVFAIL then lit "server failure"
  else if status =? ARES_ENOTFOUND then lit "name not found"
  else if status =? ARES_ENOTIMP then lit "not implemented"
  else if status =? ARES_EREFUSED then lit "query refused"
  else if status =? ARES_EBADRESP then lit "bad response"
  else if status =? ARES_ECONNREFUSED then lit "connection refused"
  else if status =? ARES_ETIMEOUT then lit "timeout"
  else if status =? ARES_ECANCELLED then lit "cancelled"
  else if status =? ARES_ENOMEM then lit "out of memory"
  else lit "DNS error".

(** ** One query *)

Record dns_query_state := DnsState {
  st_done : bool;
  st_oom : bool;
  st_status : Z;
  st_reply : option bytes;
}.

(** A call of the callback: the status, the reply, and whether there is
    memory for its copy. *)
Record ares_callback := AresCallback { ac_status : Z; ac_abuf : option bytes; ac_malloc : bool }.

Definition dns_query_cb (st : dns_query_state) (cb : ares_callback) : dns_query_state :=
  match ac_abuf cb with
  | Some ((_ :: _) as abuf) =>
      if ac_malloc cb then DnsState true (st_oom st) (ac_status cb) (Some abuf)
      else DnsState true true (ac_status cb) (st_reply st)
  | _ => DnsState true (st_oom st) (ac_status cb) (st_reply st)
  end.

(** One turn of the event loop: nothing left to wait for, [select] fails (and
    cancelling may call back), or replies are processed. *)
Inductive ares_turn :=
  | NoFds
  | SelectFails (cancelled : option ares_callback)
  | Processed (answered : option ares_callback).

(** What [ares_query] does at once, and the turns. *)
Record ares_script := AresScript { as_query : option ares_callback; as_turns : list ares_turn }.

Definition call_back (cb : option ares_callback) (st : dns_query_state) : dns_query_state :=
  match cb with Some cb => dns_query_cb st cb | None => st end.

(** [None]: the turns ran out, it is still waiting. *)
Fixpoint query_turns (turns : list ares_turn) (st : dns_query_state) : option dns_query_state :=
  if st_done st then Some st
  else
    match turns with
    | [] => None
    | NoFds :: _ => Some st
    | SelectFails cb :: _ =>
        let st := call_back cb (DnsState (st_done st) (st_oom st) ARES_ETIMEOUT (st_reply st)) in
        Some (DnsState true (st_oom st) (st_status st) (st_reply st))
    | Processed cb :: turns => query_turns turns (call_back cb st)
    end.

Definition run_dns_query (script : ares_script) : option dns_query_state :=
  query_turns (as_turns script) (call_back (as_query script) (DnsState false false ARES_ETIMEOUT None)).

(** ** Channels *)

(** No servers: those of the system; port 0: the default; the timeout and the
    tries, when they are set. *)
Record ares_channel := Channel {
  ch_servers : option (list bytes);
  ch_port : Z;
  ch_norecurse : bool;
  ch_patience : option (Z * Z);
}.

Definition init_resolver_channel (override : option (bytes * Z)) : ares_channel :=
  let patience := Some (DDNS_DNS_TIMEOUT_MS, DDNS_DNS_TRIES) in
  match override with
  | Some (ip, port) => Channel (Some [ip]) port false patience
  | None => Channel None 0 false patience
  end.

Definition init_authoritative_channel (ns_ips : list bytes) (port_override : Z) : ares_channel :=
  Channel (Some ns_ips) port_override true (Some (DDNS_DNS_TIMEOUT_MS, DDNS_DNS_TRIES)).

(** [ares_init_options(&channel, NULL, 0)] *)
Definition system_channel : ares_channel := Channel None 0 false None.

(** ** The overrides *)

(** [strrchr] *)
Definition rcut_at (c : Z) (s : cstring) : option (cstring * cstring) :=
  match cut_at c (reverse s) with Some (b, a) => Some (reverse a, reverse b) | None => None end.

(** A whole decimal between 1 and 65535. *)
Definition strtol_port (s : cstring) : option Z :=
  let '(v, rest) := strtol s in
  if streq rest s || negb (streq rest []) || (v <=? 0) || (65535 <? v) then None else Some v.

Definition IPBUF_CAP : Z := 64.

(** [None]: malformed; [Some None]: not set. *)
Definition parse_resolver_override (env : option cstring) : option (option (bytes * Z)) :=
  match env with
  | None | Some [] => Some None
  | Some env =>
      match rcut_at (chr ":") env with
      | None => match inet_pton env with Some ip => Some (Some (ip, 0)) | None => None end
      | Some (ip, port) =>
          if (strlen ip =? 0) || (IPBUF_CAP <=? strlen ip) then None
          else match inet_pton ip with
               | None => None
               | Some ip => match strtol_port port with Some p => Some (Some (ip, p)) | None => None end
               end
      end
  end.

(** 0 when unset, -1 when malformed. *)
Definition parse_authoritative_port (env : option cstring) : Z :=
  match env with
  | None | Some [] => 0
  | Some env => default (-1) (strtol_port env)
  end.

(** ** run_check *)

(** A query that was made, and how it ended. *)
Record dns_query := DnsAsked { dq_channel : ares_channel; dq_name : cstring; dq_type : Z; dq_state : dns_query_state }.

Record lookup_env := CheckEnv {
  ce_getenv : cstring -> option cstring;
  ce_malloc : bool;                                   (* for the name *)
  ce_init : ares_channel -> bool;
  ce_script : nat -> ares_script;
  ce_parse_ns : bytes -> Z * option (list cstring);   (* the aliases of the host entry *)
  ce_parse_a : bytes -> Z * list bytes;
  ce_strdup : bool;
}.

Record check_result := CheckResult {
  cr_exit : Z;
  cr_stdout : cstring;
  cr_stderr : cstring;
  cr_queries : list dns_query;
}.

Section Check.
Variable env : lookup_env.
Variable prog : cstring.

Definition print_usage : cstring :=
  lit "usage: " ++ prog ++ lit " update <host> <domain> [password_file] [ip]" ++ nl ++
  lit "       " ++ prog ++ lit " check <host> <domain>" ++ nl ++
  lit "  the bare invocation " ++ prog ++ lit " <host> <domain> [password_file] [ip]" ++ nl ++
  lit "  is treated as " ++ [34] ++ lit "update" ++ [34] ++ lit " (legacy)." ++ nl ++
  lit "  config may instead come from DDNS_HOST, DDNS_DOMAIN," ++ nl ++
  lit "  DDNS_PASSWORD_FILE, DDNS_IP; DDNS_ENDPOINT overrides the" ++ nl ++
  lit "  update URL; DDNS_CA_BUNDLE overrides the CA bundle." ++ nl ++
  lit "  check discovers the domain's authoritative NS via the system" ++ nl ++
  lit "  resolver and queries the A record directly (no resolver is" ++ nl ++
  lit "  trusted for the dynamic A record); DDNS_RESOLVER (test-only)" ++ nl ++
  lit "  points NS discovery at an ip[:port] resolver," ++ nl ++
  lit "  DDNS_AUTHORITATIVE_PORT (test-only) overrides the direct" ++ nl ++
  lit "  query port (default 53)." ++ nl.

Definition oom_line : cstring := lit "strim-ddns: out of memory during DNS check" ++ nl.

(** The next query; [None]: it never ends. *)
Definition ask (ch : ares_channel) (name : cstring) (type : Z) (asked : list dns_query)
  : option (dns_query_state * list dns_query) :=
  match run_dns_query (ce_script env (length asked)) with
  | None => None
  | Some st => Some (st, asked ++ [DnsAsked ch name type st])
  end.

(** The loop over the name servers' names: [inl] is the end of the check. *)
Fixpoint resolve_ns (ch : ares_channel) (names : list cstring) (asked : list dns_query) (ips : list bytes) (via : option cstring)
  : option (check_result + list dns_query * list bytes * option cstring) :=
  match names with
  | [] => Some (inr (asked, ips, via))
  | ns_name :: names =>
      if (DDNS_MAX_NS_IPS <=? length ips)%nat then Some (inr (asked, ips, via))
      else
        match ask ch ns_name ARES_REC_TYPE_A asked with
        | None => None
        | Some (aq, asked) =>
            if st_oom aq then Some (inl (CheckResult 2 [] oom_line asked))
            else if st_status aq =? ARES_SUCCESS then
              let '(ar_rc, addrs) := ce_parse_a env (default [] (st_reply aq)) in
              if (ar_rc =? ARES_SUCCESS) && (0 <? length addrs)%nat then
                match (match via with Some v => Some v | None => if ce_strdup env then Some ns_name else None end) with
                | None => Some (inl (CheckResult 2 [] oom_line asked))
                | Some via =>
                    resolve_ns ch names asked (ips ++ take (DDNS_MAX_NS_IPS - length ips) addrs) (Some via)
                end
              else resolve_ns ch names asked ips via
            else resolve_ns ch names asked ips via
        end
  end.

(** "check <fqdn> not resolved (<reason>)" *)
Definition not_resolved (fqdn reason : cstring) : cstring :=
  lit "check " ++ fqdn ++ lit " not resolved (" ++ reason ++ lit ")" ++ nl.

(** The direct query. *)
Definition ask_authoritative (fqdn : cstring) (asked : list dns_query) (ips : list bytes) (via : cstring) (auth_port : Z)
  : option check_result :=
  let ch := init_authoritative_channel ips auth_port in
  if negb (ce_init env ch)
  then Some (CheckResult 2 [] (lit "strim-ddns: failed to initialize the authoritative query" ++ nl) asked)
  else
    match ask ch fqdn ARES_REC_TYPE_A asked with
    | None => None
    | Some (fq, asked) =>
        let failed reason := Some (CheckResult 1 [] (not_resolved fqdn (lit "via " ++ via ++ lit ": " ++ reason)) asked) in
        if st_oom fq then Some (CheckResult 2 [] oom_line asked)
        else if negb (st_status fq =? ARES_SUCCESS) then failed (dns_status_str (st_status fq))
        else
          let '(ar_rc, addrs) := ce_parse_a env (default [] (st_reply fq)) in
          match (if ar_rc =? ARES_SUCCESS then head addrs else None) with
          | None => failed (lit "no A records")
          | Some addr =>
              let ip := inet_ntop addr in
              Some (CheckResult 0 (ip ++ nl)
                      (lit "check " ++ fqdn ++ lit " -> " ++ ip ++ lit " (via " ++ via ++ lit ")" ++ nl) asked)
          end
    end.

Definition run_check (args : list cstring) : option check_result :=
  match arg_or_env (ce_getenv env) args 0 (lit "DDNS_HOST"), arg_or_env (ce_getenv env) args 1 (lit "DDNS_DOMAIN") with
  | Some ((_ :: _) as host), Some ((_ :: _) as domain) =>
      let resolver_env := ce_getenv env (lit "DDNS_RESOLVER") in
      let port_env := ce_getenv env (lit "DDNS_AUTHORITATIVE_PORT") in
      match parse_resolver_override resolver_env with
      | None =>
          Some (CheckResult 2 [] (lit "strim-ddns: invalid DDNS_RESOLVER '" ++ default [] resolver_env ++
                                  lit "' (expected an IPv4 address or ip:port)" ++ nl) [])
      | Some ov =>
          let auth_port := parse_authoritative_port port_env in
          if auth_port <? 0 then
            Some (CheckResult 2 [] (lit "strim-ddns: invalid DDNS_AUTHORITATIVE_PORT '" ++ default [] port_env ++
                                    lit "' (expected a port number 1-65535)" ++ nl) [])
          else if negb (ce_malloc env) then Some (CheckResult 2 [] oom_line [])
          else
            let fqdn := host ++ lit "." ++ domain in
            let ch := match ov with Some o => init_resolver_channel (Some o) | None => system_channel end in
            if negb (ce_init env ch)
            then Some (CheckResult 2 [] (lit "strim-ddns: failed to initialize the DNS resolver" ++ nl) [])
            else
              match ask ch domain ARES_REC_TYPE_NS [] with
              | None => None
              | Some (nsq, asked) =>
                  let failed status := Some (CheckResult 1 [] (not_resolved fqdn (lit "NS lookup failed: " ++ dns_status_str status)) asked) in
                  if st_oom nsq then Some (CheckResult 2 [] oom_line asked)
                  else if negb (st_status nsq =? ARES_SUCCESS) then failed (st_status nsq)
                  else
                    match ce_parse_ns env (default [] (st_reply nsq)) with
                    | (ns_rc, Some names) =>
                        if negb (ns_rc =? ARES_SUCCESS) then failed ns_rc
                        else
                          match resolve_ns ch names asked [] None with
                          | None => None
                          | Some (inl r) => Some r
                          | Some (inr (asked, ips, via)) =>
                              match ips with
                              | [] => Some (CheckResult 1 [] (not_resolved fqdn (lit "no address for the domain's NS")) asked)
                              | _ => ask_authoritative fqdn asked ips (default (lit "(null)") via) auth_port
                              end
                          end
                    | (ns_rc, None) => failed ns_rc
                    end
              end
      end
  | _, _ => Some (CheckResult 2 [] print_usage [])
  end.

End Check.

(** ** main *)

Inductive ddns_command := DdnsUpdate (args : list cstring) | DdnsCheck (args : list cstring).

(** The subcommand and its arguments; [args] are those after the program's
    name. *)
Definition ddns_main (args : list cstring) : ddns_command :=
  match args with
  | cmd :: rest =>
      if streq cmd (lit "check") then DdnsCheck rest
      else if streq cmd (lit "update") then DdnsUpdate rest
      else DdnsUpdate args
  | [] => DdnsUpdate []
  end.

(** * Correctness of the dynamic DNS check

    The printed address is the one the domain's own name servers gave. *)


(** ** One query *)

Definition callbacks (s : ares_script) : list ares_callback :=
  option_list (as_query s) ++
  concat (map (fun t => match t with NoFds => [] | SelectFails cb => option_list cb | Processed cb => option_list cb end) (as_turns s)).

(** The state is the one before any callback, or the one a callback left. *)
Definition answered (cbs : list ares_callback) (st : dns_query_state) : Prop :=
  st_status st = ARES_SUCCESS ->
  exists cb, cb ∈ cbs /\ ac_status cb = ARES_SUCCESS /\
    (st_oom st = false -> default [] (st_reply st) = default [] (ac_abuf cb)).

Lemma callback_answers (cbs : list ares_callback) (cb : ares_callback) (oom : bool) (status : Z) :
  cb ∈ cbs -> answered cbs (dns_query_cb (DnsState false oom status None) cb).
Proof.
  intros Hin. unfold answered, dns_query_cb. destruct cb as [s [[|b abuf]|] []]; cbn; intros Hs;
    (eexists; split; [exact Hin|]); done.
Qed.

Lemma query_turns_spec (turns : list ares_turn) (cbs : list ares_callback) (st0 st : dns_query_state) :
  (forall t cb, t ∈ turns -> (t = SelectFails (Some cb) \/ t = Processed (Some cb)) -> cb ∈ cbs) ->
  (st_done st0 = true /\ answered cbs st0 \/ st0 = DnsState false false ARES_ETIMEOUT None) ->
  query_turns turns st0 = Some st -> answered cbs st.
Proof.
  revert st0. induction turns as [|t turns IH]; intros st0 Hcb H0; cbn [query_turns].
  - destruct H0 as [[-> H]| ->]; [by intros [= <-]|done].
  - destruct H0 as [[-> H]| ->]; [by intros [= <-]|]. cbn [st_done st_oom st_status st_reply].
    destruct t as [|cb|cb].
    + by intros [= <-].
    + intros [= <-]. destruct cb as [cb|]; [|done]. cbn [call_back].
      pose proof (callback_answers cbs cb false ARES_ETIMEOUT ltac:(eapply Hcb; [apply list_elem_of_here|by left])) as Ha.
      by destruct (dns_query_cb _ cb).
    + apply IH; [intros t cb' Ht; apply Hcb; by apply list_elem_of_further|].
      destruct cb as [cb|]; [|by right]. left. split; [unfold call_back, dns_query_cb; by destruct (ac_abuf cb) as [[|]|], (ac_malloc cb)|].
      apply callback_answers. eapply Hcb; [apply list_elem_of_here|by right].
Qed.

(** A query succeeds only when c-ares called back with success, and the reply
    is the one it gave then. *)
Lemma query_succeeds (s : ares_script) (st : dns_query_state) : run_dns_query s = Some st -> answered (callbacks s) st.
Proof.
  unfold run_dns_query, callbacks. apply query_turns_spec.
  - intros t cb Ht Hc. apply elem_of_app. right. apply list_elem_of_In, in_concat.
    exists [cb]. split; [|by left]. apply list_elem_of_In, list_elem_of_fmap. exists t. split; [by destruct Hc as [->| ->]|done].
  - destruct (as_query s) as [cb|]; [|by right]. left. cbn [call_back]. split.
    + unfold dns_query_cb. by destruct (ac_abuf cb) as [[|]|], (ac_malloc cb).
    + apply callback_answers. apply elem_of_app. left. apply list_elem_of_here.
Qed.

(** ** The name servers *)
Lemma take_capped {A} (k : nat) (a b l : list A) :
  (length a <= k)%nat -> take k ((a ++ take (k - length a) b) ++ l) = take k (a ++ b ++ l).
Proof.
  intros Ha. rewrite <- app_assoc, !(take_app_ge a) by done. f_equal. set (m := (k - length a)%nat).
  destruct (decide (length b <= m)%nat) as [Hb|Hb]; [by rewrite (take_ge b) by done|].
  rewrite !take_app_le by (rewrite ?length_take; lia). by rewrite take_take, Nat.min_id.
Qed.


Section Check.
Variable env : lookup_env.

(** The addresses a query gave. *)
Definition addresses (q : dns_query) : list bytes :=
  if st_status (dq_state q) =? ARES_SUCCESS
  then let '(rc, addrs) := ce_parse_a env (default [] (st_reply (dq_state q))) in if rc =? ARES_SUCCESS then addrs else []
  else [].

(** The queries of a check meet their scripts. *)
Definition scripted (qs : list dns_query) : Prop :=
  forall i q, qs !! i = Some q -> run_dns_query (ce_script env i) = Some (dq_state q).

Lemma ask_spec (ch : ares_channel) (name : cstring) (type : Z) (asked asked' : list dns_query) (st : dns_query_state) :
  ask env ch name type asked = Some (st, asked') -> scripted asked ->
  asked' = asked ++ [DnsAsked ch name type st] /\ scripted asked'.
Proof.
  unfold ask. destruct (run_dns_query _) as [st'|] eqn:E; [|done]. intros [= <- <-] Hs. split; [done|].
  intros i q Hi. apply lookup_app_Some in Hi as [Hi|[Hl Hi]]; [by apply Hs|].
  apply list_lookup_singleton_Some in Hi as [Hz <-]. cbn. by replace i with (length asked) by lia.
Qed.

Lemma resolve_ns_spec (ch : ares_channel) (names : list cstring) (asked : list dns_query) (ips : list bytes) (via : option cstring) :
  scripted asked -> (length ips <= DDNS_MAX_NS_IPS)%nat -> (ips <> [] -> is_Some via) ->
  match resolve_ns env ch names asked ips via with
  | None => exists i, run_dns_query (ce_script env i) = None
  | Some (inl r) => cr_exit r = 2 /\ cr_stdout r = []
  | Some (inr (asked', ips', via')) =>
      scripted asked' /\ (ips' <> [] -> is_Some via') /\
      exists mid, asked' = asked ++ mid /\ map dq_name mid `prefix_of` names /\
        Forall (fun q => dq_channel q = ch /\ dq_type q = ARES_REC_TYPE_A) mid /\
        ips' = take DDNS_MAX_NS_IPS (ips ++ concat (map addresses mid))
  end.
Proof.
  revert asked ips via. induction names as [|n names IH]; intros asked ips via Hs Hlen Hvia; cbn [resolve_ns].
  { split; [done|]. split; [done|]. exists []. cbn [map concat]. rewrite !app_nil_r, take_ge by done. split_and!; [done|done|constructor|done]. }
  destruct (Nat.leb_spec DDNS_MAX_NS_IPS (length ips)) as [Hfull|Hroom].
  { split; [done|]. split; [done|]. exists []. cbn [map concat]. rewrite !app_nil_r, take_ge by done. split_and!; [done|apply prefix_nil|constructor|done]. }
  destruct (ask env ch n ARES_REC_TYPE_A asked) as [[aq asked1]|] eqn:Ea.
  2:{ unfold ask in Ea. exists (length asked). by destruct (run_dns_query _). }
  apply ask_spec in Ea as [-> Hs1]; [|done]. destruct (st_oom aq); [done|].
  set (q := DnsAsked ch n ARES_REC_TYPE_A aq) in *.
  assert (Hnext : forall ips1 via1, (length ips1 <= DDNS_MAX_NS_IPS)%nat -> (ips1 <> [] -> is_Some via1) ->
    (forall l, take DDNS_MAX_NS_IPS (ips1 ++ l) = take DDNS_MAX_NS_IPS (ips ++ addresses q ++ l)) ->
    match resolve_ns env ch names (asked ++ [q]) ips1 via1 with
    | None => exists i, run_dns_query (ce_script env i) = None
    | Some (inl r) => cr_exit r = 2 /\ cr_stdout r = []
    | Some (inr (asked', ips', via')) =>
        scripted asked' /\ (ips' <> [] -> is_Some via') /\
        exists mid, asked' = asked ++ mid /\ map dq_name mid `prefix_of` n :: names /\
          Forall (fun q => dq_channel q = ch /\ dq_type q = ARES_REC_TYPE_A) mid /\
          ips' = take DDNS_MAX_NS_IPS (ips ++ concat (map addresses mid))
    end).
  { intros ips1 via1 Hl1 Hv1 Htake. specialize (IH (asked ++ [q]) ips1 via1 Hs1 Hl1 Hv1).
    destruct (resolve_ns env ch names (asked ++ [q]) ips1 via1) as [[r|[[asked' ips'] via']]|]; [done| |done].
    destruct IH as (H1 & H2 & mid & -> & H3 & H4 & ->). split; [done|]. split; [done|]. exists (q :: mid).
    split_and!; [by rewrite <- app_assoc|by apply prefix_cons|by constructor|]. cbn [map concat]. apply Htake. }
  assert (Hnone : addresses q = [] -> forall l, take DDNS_MAX_NS_IPS (ips ++ l) = take DDNS_MAX_NS_IPS (ips ++ addresses q ++ l))
    by (intros -> l; done).
  destruct (st_status aq =? ARES_SUCCESS) eqn:Est; [|apply Hnext; [done|done|apply Hnone; unfold addresses; cbn; by rewrite Est]].
  destruct (ce_parse_a env (default [] (st_reply aq))) as [rc addrs] eqn:Ep.
  assert (Haddr : addresses q = if rc =? ARES_SUCCESS then addrs else []) by (unfold addresses; cbn; by rewrite Est, Ep).
  destruct (_ && _) eqn:Eok.
  - apply andb_true_iff in Eok as [Erc Hn]. rewrite Erc in Haddr. apply Nat.ltb_lt in Hn.
    destruct (match via with Some v => _ | None => _ end) as [via1|]; [|done].
    apply Hnext; [rewrite length_app, length_take; lia|by eexists|]. intros l. rewrite Haddr. by apply take_capped.
  - apply Hnext; [done|done|]. apply Hnone. rewrite Haddr. destruct (rc =? ARES_SUCCESS); [|done]. by destruct addrs.
Qed.

Lemma authoritative_spec (fqdn : cstring) (asked : list dns_query) (ips : list bytes) (via : cstring) (port : Z) :
  scripted asked ->
  match ask_authoritative env fqdn asked ips via port with
  | None => exists i, run_dns_query (ce_script env i) = None
  | Some r =>
      (cr_exit r = 1 \/ cr_exit r = 2) /\ cr_stdout r = [] \/
      cr_exit r = 0 /\
      exists q addr, cr_queries r = asked ++ [q] /\ scripted (cr_queries r) /\ dq_channel q = init_authoritative_channel ips port /\
        dq_name q = fqdn /\ dq_type q = ARES_REC_TYPE_A /\ head (addresses q) = Some addr /\ cr_stdout r = inet_ntop addr ++ nl
  end.
Proof.
  intros Hs. unfold ask_authoritative. destruct (ce_init env _); cbn [negb]; [|left; cbn; auto].
  destruct (ask env _ fqdn ARES_REC_TYPE_A asked) as [[fq asked1]|] eqn:Ea.
  2:{ unfold ask in Ea. exists (length asked). by destruct (run_dns_query _). }
  apply ask_spec in Ea as [-> Hs1]; [|done]. destruct (st_oom fq); [left; cbn; auto|].
  destruct (st_status fq =? ARES_SUCCESS) eqn:Est; cbn [negb]; [|left; cbn; auto].
  destruct (ce_parse_a env (default [] (st_reply fq))) as [rc addrs] eqn:Ep.
  destruct (if rc =? ARES_SUCCESS then head addrs else None) as [addr|] eqn:Eh; [|left; cbn; auto].
  right. split; [done|]. eexists _, addr. cbn [cr_queries cr_stdout]. split; [done|]. split; [done|].
  cbn [dq_channel dq_name dq_type]. split_and!; try done. unfold addresses. cbn. rewrite Est, Ep. by destruct (rc =? ARES_SUCCESS).
Qed.

(** The check ends with a code other than 0. *)
Ltac stopped := eexists; split; [reflexivity|]; cbn [cr_exit cr_stdout]; split; [tauto|]; by split.

(** C17: what a check does, when every query of c-ares ends.  It returns, with
    the code 0, 1 or 2; it prints something exactly with 0, and that is one
    address on a line: the first of the reply to a query for host.domain that
    went, without recursion, to nobody but name servers of the domain.  Their
    addresses, at least one and at most 32, are those that the resolver gave
    for the names in its NS reply for the domain, in order; and every query
    counted as answered is one for which c-ares called back with success. *)
Theorem check_asks_the_authority (prog : cstring) (args : list cstring) :
  (forall i, is_Some (run_dns_query (ce_script env i))) ->
  exists r, run_check env prog args = Some r /\
    (cr_exit r = 0 \/ cr_exit r = 1 \/ cr_exit r = 2) /\ (cr_exit r <> 0 -> cr_stdout r = []) /\
    (cr_exit r = 0 ->
     exists host domain names nsq mid last ips addr,
       arg_or_env (ce_getenv env) args 0 (lit "DDNS_HOST") = Some host /\
       arg_or_env (ce_getenv env) args 1 (lit "DDNS_DOMAIN") = Some domain /\
       cr_queries r = nsq :: mid ++ [last] /\
       dq_name nsq = domain /\ dq_type nsq = ARES_REC_TYPE_NS /\
       ce_parse_ns env (default [] (st_reply (dq_state nsq))) = (ARES_SUCCESS, Some names) /\
       map dq_name mid `prefix_of` names /\
       Forall (fun q => dq_channel q = dq_channel nsq /\ dq_type q = ARES_REC_TYPE_A) mid /\
       ips = take DDNS_MAX_NS_IPS (concat (map addresses mid)) /\ ips <> [] /\
       ch_servers (dq_channel last) = Some ips /\ ch_norecurse (dq_channel last) = true /\
       dq_name last = host ++ lit "." ++ domain /\ dq_type last = ARES_REC_TYPE_A /\
       head (addresses last) = Some addr /\ cr_stdout r = inet_ntop addr ++ nl /\
       forall i q, cr_queries r !! i = Some q -> answered (callbacks (ce_script env i)) (dq_state q)).
Proof.
  intros Hend.
  assert (Hno : forall i, run_dns_query (ce_script env i) <> None) by (intros i Hi; destruct (Hend i) as [x Hx]; congruence).
  unfold run_check.
  destruct (arg_or_env _ args 0 _) as [[|h host]|]; [stopped| |stopped].
  destruct (arg_or_env _ args 1 _) as [[|d domain]|]; [stopped| |stopped].
  destruct (parse_resolver_override _) as [ov|]; [|stopped].
  destruct (_ <? 0); [stopped|].
  destruct (ce_malloc env); cbn [negb]; [|stopped].
  set (ch := match ov with Some o => _ | None => _ end).
  destruct (ce_init env ch); cbn [negb]; [|stopped].
  destruct (ask env ch (d :: domain) ARES_REC_TYPE_NS []) as [[nsq asked]|] eqn:Ea.
  2:{ exfalso. unfold ask in Ea. eapply Hno. by destruct (run_dns_query _) eqn:E. }
  apply ask_spec in Ea as [-> Hs]; [|by intros ? ?]. cbn [app] in *.
  destruct (st_oom nsq); [stopped|].
  destruct (st_status nsq =? ARES_SUCCESS); cbn [negb]; [|stopped].
  destruct (ce_parse_ns env _) as [rc [names|]] eqn:Ens; [|stopped].
  destruct (Z.eqb_spec rc ARES_SUCCESS) as [->|]; cbn [negb]; [|stopped].
  pose proof (resolve_ns_spec ch names _ [] None Hs ltac:(cbn; lia) ltac:(done)) as Hres.
  destruct (resolve_ns env ch names _ [] None) as [[r|[[asked' ips] via]]|]; [| |by destruct Hres as [i Hi]; apply Hno in Hi].
  { destruct Hres as [H2 Hout]. exists r. split; [done|]. rewrite H2. split_and!; [tauto|done|lia]. }
  destruct Hres as (Hs' & _ & mid & -> & Hpre & Hmid & Hips). cbn [app] in Hips.
  destruct ips as [|ip0 ips0]; [stopped|]. set (ips := ip0 :: ips0) in *.
  match goal with |- context [ask_authoritative env ?f ?a ?i ?v ?p] => pose proof (authoritative_spec f a i v p Hs') as Hauth;
    destruct (ask_authoritative env f a i v p) as [r|] end; [|by destruct Hauth as [i Hi]; apply Hno in Hi].
  exists r. split; [done|]. destruct Hauth as [[Hrc Hout]|(Hrc & q & addr & Hq & Hs2 & Hch & Hn & Ht & Hhd & Hout)].
  { split_and!; [tauto|done|lia]. }
  rewrite Hrc. split; [tauto|]. split; [done|]. intros _.
  exists (h :: host), (d :: domain), names, (DnsAsked ch (d :: domain) ARES_REC_TYPE_NS nsq), mid, q, ips, addr.
  rewrite Hch. split_and!; try done. intros i q' Hi. apply query_succeeds. by apply Hs2.
Qed.

End Check.

(** A domain with one name server; the replies name their query. *)
Definition one_ns_env : lookup_env :=
  CheckEnv (fun _ => None) true (fun _ => true)
    (fun i => AresScript None [Processed None; Processed (Some (AresCallback ARES_SUCCESS (Some [Z.of_nat i + 1]) true))])
    (fun _ => (ARES_SUCCESS, Some [lit "ns1.example.com"]))
    (fun reply => (ARES_SUCCESS, if decide (reply = [2]) then [[192; 0; 2; 1]] else [[10; 0; 0; 7]])) true.
Definition one_ns_args : list cstring := [lit "home"; lit "example.com"].

Lemma check_asks_the_authority_witness :
  (forall i, is_Some (run_dns_query (ce_script one_ns_env i))) /\
  exists r, run_check one_ns_env (lit "strim-ddns") one_ns_args = Some r /\ (cr_exit r <> 0 -> cr_stdout r = []).
Proof.
  assert (H : forall i, is_Some (run_dns_query (ce_script one_ns_env i))) by (intros i; by eexists).
  split; [exact H|].
  destruct (check_asks_the_authority one_ns_env (lit "strim-ddns") one_ns_args H) as (r & Hr & _ & Hn & _). by exists r.
Defined.

Example check_example :
  option_map (fun r => (cr_exit r, cr_stdout r)) (run_check one_ns_env (lit "strim-ddns") one_ns_args) =
  Some (0, lit "10.0.0.7" ++ nl).
Proof. vm_compute. reflexivity. Qed.
