(* ===== verification/CcSpec.v ===== *)
(** * The spec builder of the alternate controller
    (core/controller/alternate/c/cc_ctr.c)

    A writer into a buffer of fixed size that truncates in silence, and the
    OCI document it writes.  The builder only notices at the end that the
    buffer is full. *)

From S2P Require Import Prelude Wire Controller Http HttpFacts Double Config DurationFacts EnvFile Json JsonFacts MiniPb Spec Oci OciFacts OciText OciSpec.

Definition CC_CTR_ERR_BADARG : Z := -101.
Definition CC_CTR_ERR_TOOBIG : Z := -102.
Definition CC_CTR_ERR_JSON : Z := -103.
Definition CC_CTR_ERR_STATE : Z := -105.

Definition CC_CTR_OCI_VERSION : cstring := lit "1.3.0".
Definition CC_CTR_OCI_ENV_MAX : Z := 64.
Definition CC_CTR_OCI_ARGS_MAX : Z := 64.
Definition CC_CTR_OCI_CAPS_MAX : Z := 32.
Definition CC_CTR_OCI_GIDS_MAX : Z := 32.
Definition CC_CTR_OCI_ANN_MAX : Z := 16.
Definition CC_CTR_OCI_MOUNT_OPTS_MAX : Z := 8.
Definition CC_CTR_OCI_MOUNTS_MAX : Z := 64.

(** ** Input

    An array with its count is a list; its entries may be NULL. *)

Record cc_ctr_oci_mount := CcMount {
  om_destination : option cstring;
  om_source : option cstring;
  om_type : option cstring;
  om_options : list (option cstring);
}.

Record cc_ctr_oci_spec := CcSpec {
  os_env : list (option cstring);
  os_args : list (option cstring);
  os_cwd : option cstring;
  os_uid : Z;
  os_gid : Z;
  os_additional_gids : list Z;
  os_caps_add : list (option cstring);
  os_mounts : list cc_ctr_oci_mount;
  os_host_network : bool;
  os_hostname : option cstring;
  os_cgroups_path : option cstring;
  os_annotations : list (option cstring);
}.

Definition count {A} (l : list A) : Z := Z.of_nat (length l).

(** ** The writer *)

Record json_out := JsonOut { o_buf : bytes; o_cap : Z }.

Definition o_len (o : json_out) : Z := strlen (o_buf o).

Abbreviation out := (json_out -> json_out).

Declare Scope out_scope.
Delimit Scope out_scope with out.
Definition out_then (e f : out) : out := fun o => f (e o).
Notation "e >~ f" := (out_then e f) (at level 62, right associativity) : out_scope.
#[local] Open Scope out_scope.
Definition out_skip : out := fun o => o.

Definition jout_raw (s : cstring) : out := fun o =>
  let n := strlen s in
  let n := if o_cap o <=? o_len o + n
           then if o_len o <? o_cap o then o_cap o - o_len o else 0
           else n in
  JsonOut (o_buf o ++ take (Z.to_nat n) s) (o_cap o).

Definition jout_ch (c : Z) : out := fun o =>
  if o_cap o <=? o_len o + 1 then o else JsonOut (o_buf o ++ [c]) (o_cap o).

(** [for (...) f(x);] *)
Fixpoint out_all {A} (f : A -> out) (l : list A) : out :=
  match l with [] => out_skip | x :: l' => f x >~ out_all f l' end.

(** [for (...) { if (i > 0) jout_ch(o, ','); f(x); }] *)
Fixpoint out_each {A} (f : A -> out) (i : nat) (l : list A) : out :=
  match l with
  | [] => out_skip
  | x :: l' => (if (i =? 0)%nat then out_skip else jout_ch comma) >~ f x >~ out_each f (S i) l'
  end.

(** The array [tmp]: the last digit first.  Ten digits hold 32 bits. *)
Fixpoint uint_tmp (fuel : nat) (v : Z) : list Z :=
  match fuel with
  | O => []
  | S f => (chr "0" + v mod 10) :: if 0 <? v / 10 then uint_tmp f (v / 10) else []
  end.

Definition jout_uint (v : Z) : out := out_all jout_ch (rev (uint_tmp 10 v)).

Definition jout_byte (c : Z) : out :=
  if c =? 34 then jout_raw [92; 34]
  else if c =? 92 then jout_raw [92; 92]
  else if c =? 10 then jout_raw (lit "\n")
  else if c =? 13 then jout_raw (lit "\r")
  else if c =? 9 then jout_raw (lit "\t")
  else if c =? chr "<" then jout_raw (lit "\u003c")
  else if c =? chr ">" then jout_raw (lit "\u003e")
  else if c =? chr "&" then jout_raw (lit "\u0026")
  else if c <? 0x20 then jout_raw (lit "\u00") >~ jout_ch (hex_char (c / 16)) >~ jout_ch (hex_char (c mod 16))
  else jout_ch c.

Definition jout_str (s : option cstring) : out :=
  jout_ch 34 >~ out_all jout_byte (default [] s) >~ jout_ch 34.

Definition jout_str_array (strs : list (option cstring)) : out :=
  jout_ch 91 >~ out_each jout_str 0 strs >~ jout_ch 93.

(** ** The skeleton *)

Definition k_default_caps : list cstring :=
  map lit ["CAP_CHOWN"; "CAP_DAC_OVERRIDE"; "CAP_FSETID"; "CAP_FOWNER"; "CAP_MKNOD"; "CAP_NET_RAW";
           "CAP_SETGID"; "CAP_SETUID"; "CAP_SETFCAP"; "CAP_SETPCAP"; "CAP_NET_BIND_SERVICE";
           "CAP_SYS_CHROOT"; "CAP_KILL"; "CAP_AUDIT_WRITE"]%string.

Definition k_default_namespaces : list cstring := map lit ["pid"; "ipc"; "uts"; "mount"]%string.
Definition k_default_namespaces_net : list cstring := map lit ["pid"; "ipc"; "uts"; "mount"; "network"]%string.

Definition k_masked_paths : list cstring :=
  map lit ["/proc/acpi"; "/proc/asound"; "/proc/kcore"; "/proc/keys"; "/proc/latency_stats"; "/proc/timer_list";
           "/proc/timer_stats"; "/proc/sched_debug"; "/sys/firmware"; "/sys/devices/virtual/powercap";
           "/proc/scsi"]%string.

Definition k_readonly_paths : list cstring :=
  map lit ["/proc/bus"; "/proc/fs"; "/proc/irq"; "/proc/sys"; "/proc/sysrq-trigger"]%string.

Definition default_mount (destination type source : string) (options : list string) : cc_ctr_oci_mount :=
  CcMount (Some (lit destination)) (Some (lit source)) (Some (lit type)) (map (fun s => Some (lit s)) options).

Definition k_default_mounts : list cc_ctr_oci_mount :=
  ([ default_mount "/proc" "proc" "proc" ["nosuid"; "noexec"; "nodev"];
     default_mount "/dev" "tmpfs" "tmpfs" ["nosuid"; "strictatime"; "mode=755"; "size=65536k"];
     default_mount "/dev/pts" "devpts" "devpts"
       ["nosuid"; "noexec"; "newinstance"; "ptmxmode=0666"; "mode=0620"; "gid=5"];
     default_mount "/dev/shm" "tmpfs" "shm" ["nosuid"; "noexec"; "nodev"; "mode=1777"; "size=65536k"];
     default_mount "/dev/mqueue" "mqueue" "mqueue" ["nosuid"; "noexec"; "nodev"];
     default_mount "/sys" "sysfs" "sysfs" ["nosuid"; "noexec"; "nodev"; "ro"];
     default_mount "/run" "tmpfs" "tmpfs" ["nosuid"; "strictatime"; "mode=755"; "size=65536k"] ])%string.

(** [s != NULL && s[0] != '\0'] *)
Definition given (s : option cstring) : bool := match s with None | Some [] => false | _ => true end.

Definition jout_mount_json (m : cc_ctr_oci_mount) : out :=
  jout_ch 123 >~ jout_raw (jlit "'destination':") >~ jout_str (om_destination m) >~
  (if given (om_type m) then jout_raw (jlit ",'type':") >~ jout_str (om_type m) else out_skip) >~
  (if given (om_source m) then jout_raw (jlit ",'source':") >~ jout_str (om_source m) else out_skip) >~
  (if 0 <? count (om_options m) then jout_raw (jlit ",'options':") >~ jout_str_array (om_options m) else out_skip) >~
  jout_ch 125.

(** ** The builder *)

Definition out_user (spec : cc_ctr_oci_spec) : out :=
  jout_raw (jlit ",'process':{'user':{'uid':") >~ jout_uint (os_uid spec) >~
  jout_raw (jlit ",'gid':") >~ jout_uint (os_gid spec) >~
  (if 0 <? count (os_additional_gids spec)
   then jout_raw (jlit ",'additionalGids':[") >~ out_each jout_uint 0 (os_additional_gids spec) >~ jout_ch 93
   else out_skip) >~
  jout_ch 125.

(** The array [caps] of each of the three sets. *)
Definition caps_of (spec : cc_ctr_oci_spec) : list (option cstring) :=
  take (Z.to_nat (CC_CTR_OCI_CAPS_MAX + 16)) (map Some k_default_caps ++ os_caps_add spec).

Definition out_process (spec : cc_ctr_oci_spec) : out :=
  out_user spec >~
  (if 0 <? count (os_args spec) then jout_raw (jlit ",'args':") >~ jout_str_array (os_args spec) else out_skip) >~
  (if 0 <? count (os_env spec) then jout_raw (jlit ",'env':") >~ jout_str_array (os_env spec) else out_skip) >~
  jout_raw (jlit ",'cwd':") >~ jout_str (Some (default (lit "/") (os_cwd spec))) >~
  jout_raw (jlit ",'capabilities':{'bounding':") >~ jout_str_array (caps_of spec) >~
  jout_raw (jlit ",'effective':") >~ jout_str_array (caps_of spec) >~
  jout_raw (jlit ",'permitted':") >~ jout_str_array (caps_of spec) >~ jout_ch 125 >~
  jout_raw (jlit ",'rlimits':[{'type':'RLIMIT_NOFILE','hard':1024,'soft':1024}]") >~
  jout_raw (jlit ",'noNewPrivileges':true").

Definition out_mounts (spec : cc_ctr_oci_spec) : out :=
  jout_raw (jlit ",'mounts':[") >~ out_each jout_mount_json 0 k_default_mounts >~
  out_all (fun m => jout_ch comma >~ jout_mount_json m) (os_mounts spec) >~ jout_ch 93.

Definition out_namespace (nm : cstring) : out :=
  jout_raw (jlit "{'type':") >~ jout_str (Some nm) >~ jout_ch 125.

Definition out_linux_body (spec : cc_ctr_oci_spec) : out :=
  jout_raw (jlit ",'linux':{'resources':{'devices':[{'allow':false,'access':'rwm'}]}") >~
  (if given (os_cgroups_path spec)
   then jout_raw (jlit ",'cgroupsPath':") >~ jout_str (os_cgroups_path spec) else out_skip) >~
  jout_raw (jlit ",'namespaces':[") >~
  (if os_host_network spec then out_each out_namespace 0 k_default_namespaces
   else out_each out_namespace 0 k_default_namespaces_net) >~
  jout_ch 93 >~
  jout_raw (jlit ",'maskedPaths':") >~ jout_str_array (map Some k_masked_paths) >~
  jout_raw (jlit ",'readonlyPaths':") >~ jout_str_array (map Some k_readonly_paths).

Definition out_linux (spec : cc_ctr_oci_spec) : out := out_linux_body spec >~ jout_raw (jlit "}}").

(** What comes before the annotations. *)
Definition out_front (spec : cc_ctr_oci_spec) : out :=
  jout_raw (jlit "{'ociVersion':") >~ jout_str (Some CC_CTR_OCI_VERSION) >~
  out_process spec >~
  jout_raw (jlit "},'root':{'path':'rootfs'}") >~
  (if given (os_hostname spec) then jout_raw (jlit ",'hostname':") >~ jout_str (os_hostname spec) else out_skip) >~
  out_mounts spec.

(** What the annotations do: go on, return, or subtract from a NULL pointer. *)
Inductive annotated :=
  | Annotated (o : json_out)
  | AnnotationError (o : json_out)
  | AnnotationUndefined.

Definition KEYBUF : Z := 512.

Fixpoint out_annotations (i : nat) (l : list (option cstring)) (o : json_out) : annotated :=
  match l with
  | [] => Annotated o
  | a :: l' =>
      let o := (if (i =? 0)%nat then out_skip else jout_ch comma) o in
      match a with
      | None => AnnotationError o
      | Some a =>
          match cut_at (chr "=") a with
          | None => AnnotationUndefined
          | Some (key, value) =>
              if KEYBUF <=? strlen key then AnnotationError o
              else out_annotations (S i) l' ((jout_str (Some key) >~ jout_ch 58 >~ jout_str (Some value)) o)
          end
      end
  end.

Definition annotations_block (spec : cc_ctr_oci_spec) (o : json_out) : annotated :=
  if 0 <? count (os_annotations spec) then
    match out_annotations 0 (os_annotations spec) (jout_raw (jlit ",'annotations':{") o) with
    | Annotated o => Annotated (jout_ch 125 o)
    | r => r
    end
  else Annotated o.

(** The return value and the bytes written to [out]; undefined when an array
    is read past its end or a NULL pointer subtracted from. *)
Inductive built :=
  | Built (rc : Z) (written : bytes)
  | BuildUndefined.

Definition tables_overflow (spec : cc_ctr_oci_spec) : bool :=
  (CC_CTR_OCI_ENV_MAX <? count (os_env spec)) || (CC_CTR_OCI_ARGS_MAX <? count (os_args spec)) ||
  (CC_CTR_OCI_CAPS_MAX <? count (os_caps_add spec)) ||
  (CC_CTR_OCI_GIDS_MAX <? count (os_additional_gids spec)) ||
  (CC_CTR_OCI_MOUNTS_MAX <? count (os_mounts spec)) || (CC_CTR_OCI_ANN_MAX <? count (os_annotations spec)).

(** [options[i]] with [i] past the array of the mount. *)
Definition options_over_read (spec : cc_ctr_oci_spec) : bool :=
  existsb (fun m => CC_CTR_OCI_MOUNT_OPTS_MAX <? count (om_options m)) (os_mounts spec).

Definition cc_ctr_oci_spec_build (spec : option cc_ctr_oci_spec) (out_given : bool) (cap : Z) : built :=
  match spec with
  | None => Built CC_CTR_ERR_BADARG []
  | Some spec =>
      if negb out_given || (cap =? 0) then Built CC_CTR_ERR_BADARG []
      else if tables_overflow spec then Built CC_CTR_ERR_BADARG []
      else if options_over_read spec then BuildUndefined
      else
        match annotations_block spec (out_front spec (JsonOut [] cap)) with
        | AnnotationUndefined => BuildUndefined
        | AnnotationError o => Built CC_CTR_ERR_JSON (o_buf o)
        | Annotated o =>
            let o := out_linux spec o in
            if o_cap o <=? o_len o then Built CC_CTR_ERR_TOOBIG (o_buf o)
            else Built (to_int (o_len o)) (o_buf o ++ [0])
        end
  end.

(** ** What the writer does to its buffer

    [e] appends [t] when the text leaves room for a NUL; otherwise the buffer
    is left with no more than one free byte.  Nothing is written past it. *)

Class Outs (e : out) (t : bytes) : Prop := {
  outs_fit : forall o, o_len o + strlen t < o_cap o -> e o = JsonOut (o_buf o ++ t) (o_cap o);
  outs_over : forall o, o_len o <= o_cap o -> o_cap o <= o_len o + strlen t ->
    o_cap (e o) = o_cap o /\ o_cap o - 1 <= o_len (e o) <= o_cap o;
}.

#[export] Typeclasses Opaque jout_raw jout_ch out_skip out_then jout_str jout_uint out_each out_all jout_byte
  jout_str_array jout_mount_json.

Lemma outs_eq (e : out) (t t' : bytes) : Outs e t -> t = t' -> Outs e t'.
Proof. by intros ? <-. Qed.

#[export] Instance raw_outs (s : cstring) : Outs (jout_raw s) s.
Proof.
  split; intros o H; unfold jout_raw.
  - rewrite (proj2 (Z.leb_gt _ _)) by lia. unfold strlen. by rewrite Nat2Z.id, firstn_all.
  - intros H1. rewrite (proj2 (Z.leb_le _ _)) by lia. unfold o_len in *. cbn [o_buf o_cap].
    rewrite strlen_app. unfold strlen in *. rewrite length_take.
    destruct (Z.ltb_spec (Z.of_nat (length (o_buf o))) (o_cap o)); split; try done; lia.
Qed.

#[export] Instance ch_outs (c : Z) : Outs (jout_ch c) [c].
Proof.
  split; intros o H; unfold jout_ch; change (strlen [c]) with 1 in *.
  - by rewrite (proj2 (Z.leb_gt _ _)) by lia.
  - intros H1. rewrite (proj2 (Z.leb_le _ _)) by lia. split; [done|lia].
Qed.

#[export] Instance skip_outs : Outs out_skip [].
Proof.
  split; intros o H; unfold out_skip; [destruct o; cbn; by rewrite app_nil_r|].
  change (strlen []) with 0. split; [done|lia].
Qed.

#[export] Instance then_outs (e f : out) (t u : bytes) : Outs e t -> Outs f u -> Outs (e >~ f) (t ++ u).
Proof.
  intros He Hf. pose proof (strlen_nonneg u) as Hu. split; intros o; unfold out_then; rewrite strlen_app.
  - intros H. rewrite (outs_fit (e := e)) by lia. rewrite (outs_fit (e := f)); cbn [o_buf o_cap].
    + by rewrite app_assoc.
    + unfold o_len in *. cbn. rewrite strlen_app. lia.
  - intros Hw H. destruct (Z.ltb_spec (o_len o + strlen t) (o_cap o)) as [Hl|Hl].
    + rewrite (outs_fit (e := e)) by done. apply (outs_over (e := f) (JsonOut _ _)); unfold o_len in *;
        cbn [o_buf o_cap]; rewrite strlen_app; lia.
    + destruct (outs_over (e := e) o Hw Hl) as [Hc Hb].
      destruct (Z.ltb_spec (o_len (e o) + strlen u) (o_cap (e o))) as [Hl'|Hl'].
      * rewrite (outs_fit (e := f)) by done. unfold o_len in *. cbn. rewrite strlen_app. lia.
      * destruct (outs_over (e := f) (e o)) as [H1 H2]; lia.
Qed.

Lemma if_outs (c : bool) (e f : out) (t u : bytes) :
  Outs e t -> Outs f u -> Outs (if c then e else f) (if c then t else u).
Proof. by destruct c. Qed.
#[export] Hint Extern 1 (Outs (if _ then _ else _) _) => apply if_outs : typeclass_instances.

#[export] Instance all_outs {A} (f : A -> out) (g : A -> bytes) (l : list A) :
  (forall x, Outs (f x) (g x)) -> Outs (out_all f l) (concat (map g l)).
Proof. intros Hf. induction l; [exact skip_outs|]. cbn. apply _. Qed.

Lemma each_outs_tail {A} (f : A -> out) (g : A -> bytes) (i : nat) (l : list A) :
  (forall x, Outs (f x) (g x)) -> Outs (out_each f (S i) l) (concat (map (cons comma) (map g l))).
Proof.
  intros Hf. revert i. induction l as [|x l IH]; intros i; [exact skip_outs|].
  exact (then_outs _ _ _ _ (ch_outs comma) (then_outs _ _ _ _ (Hf x) (IH (S i)))).
Qed.

#[export] Instance each_outs {A} (f : A -> out) (g : A -> bytes) (l : list A) :
  (forall x, Outs (f x) (g x)) -> Outs (out_each f 0 l) (commas (map g l)).
Proof.
  intros Hf. destruct l as [|x l]; [exact skip_outs|]. cbn [map]. rewrite commas_tail.
  exact (then_outs _ _ _ _ skip_outs (then_outs _ _ _ _ (Hf x) (each_outs_tail f g 0 l Hf))).
Qed.

(** A text that ends with a raw string of two bytes or more is either
    complete or fills the buffer. *)
Lemma outs_complete (e : out) (t s : bytes) (cap : Z) : Outs e t -> 0 <= cap -> 2 <= strlen s ->
  let o := (e >~ jout_raw s) (JsonOut [] cap) in
  o_cap o = cap /\ if strlen (t ++ s) <? cap then o_buf o = t ++ s else o_len o = cap.
Proof.
  intros He Hc Hs. pose proof (strlen_nonneg t) as Ht. cbv zeta. unfold out_then. rewrite strlen_app.
  destruct (Z.ltb_spec (strlen t + strlen s) cap) as [Hl|Hl].
  - rewrite (outs_fit (e := e)) by (change (o_len (JsonOut [] cap)) with 0; cbn; lia).
    rewrite (outs_fit (e := jout_raw s)) by (change (strlen t + strlen s < cap); lia). done.
  - assert (o_cap (e (JsonOut [] cap)) = cap /\ o_len (e (JsonOut [] cap)) <= cap /\
            cap <= o_len (e (JsonOut [] cap)) + strlen s) as (H1 & H2 & H3).
    { destruct (Z.ltb_spec (strlen t) cap) as [Hl'|Hl'].
      - rewrite (outs_fit (e := e)) by (change (o_len (JsonOut [] cap)) with 0; cbn; lia).
        unfold o_len. cbn [o_buf o_cap app]. lia.
      - destruct (outs_over (e := e) (JsonOut [] cap)) as [H1 H2];
          change (o_len (JsonOut [] cap)) with 0 in *; cbn [o_cap] in *; lia. }
    revert H1 H2 H3. generalize (e (JsonOut [] cap)). intros o H1 H2 H3. unfold jout_raw.
    rewrite (proj2 (Z.leb_le _ _)) by lia. unfold o_len in *. cbn [o_buf o_cap]. split; [done|].
    rewrite strlen_app. unfold strlen in *. rewrite length_take.
    destruct (Z.ltb_spec (Z.of_nat (length (o_buf o))) (o_cap o)); lia.
Qed.

(** ** Strings and numbers *)

(** A byte of a string, with the escapes of Go's encoder for HTML. *)
Definition go_byte (c : Z) : bytes :=
  if c =? 34 then [92; 34]
  else if c =? 92 then [92; 92]
  else if c =? 10 then lit "\n"
  else if c =? 13 then lit "\r"
  else if c =? 9 then lit "\t"
  else if c =? chr "<" then lit "\u003c"
  else if c =? chr ">" then lit "\u003e"
  else if c =? chr "&" then lit "\u0026"
  else if c <? 0x20 then lit "\u00" ++ [hex_char (c / 16)] ++ [hex_char (c mod 16)]
  else [c].

Abbreviation go_text := (render_with go_byte).
Abbreviation go_quoted := (quote_with go_byte).

(** The reader knows the escapes. *)
Lemma read_go_byte (c : Z) (t s r : bytes) : 0 <= c ->
  read_string t = Some (s, r) -> read_string (go_byte c ++ t) = Some (c :: s, r).
Proof.
  intros Hc Ht. unfold go_byte.
  repeat match goal with
  | |- context [if ?x =? ?k then _ else _] =>
      destruct (Z.eqb_spec x k); [subst; cbn -[unescape hex4]; rewrite Ht; reflexivity|]
  end.
  destruct (c <? 0x20) eqn:Hl.
  - pose proof (read_quoted_byte c t s r Hc Ht) as E. unfold quoted_byte in E.
    destruct (Z.eqb_spec c 8); [by subst; cbn -[unescape hex4]; rewrite Ht|].
    destruct (Z.eqb_spec c 12); [by subst; cbn -[unescape hex4]; rewrite Ht|].
    by rewrite !(proj2 (Z.eqb_neq c _)), Hl in E by done.
  - cbn [app read_string]. rewrite !(proj2 (Z.eqb_neq c _)), Hl by done. by rewrite Ht.
Qed.

#[export] Instance byte_outs (c : Z) : Outs (jout_byte c) (go_byte c).
Proof. unfold jout_byte, go_byte. repeat (case_match; [apply _|]). apply _. Qed.

#[export] Instance str_outs (s : option cstring) : Outs (jout_str s) (go_quoted (default [] s)).
Proof. unfold jout_str, quote_with. apply _. Qed.

Lemma uint_tmp_spec (f n : nat) (v : Z) (tail : cstring) : (f <= n)%nat -> 0 < v < 10 ^ Z.of_nat f ->
  dec_digits n v tail = rev (uint_tmp f v) ++ tail.
Proof.
  revert n v tail. induction f as [|f IH]; intros n v tail Hn Hv; [cbn in Hv; lia|].
  destruct n as [|n]; [lia|]. cbn [dec_digits uint_tmp rev]. rewrite (proj2 (Z.ltb_lt 0 v)) by lia.
  rewrite <- app_assoc. cbn [app]. rewrite Nat2Z.inj_succ, Z.pow_succ_r in Hv by lia.
  assert (v / 10 < 10 ^ Z.of_nat f) by (apply Z.div_lt_upper_bound; lia).
  destruct (Z.ltb_spec 0 (v / 10)); [apply IH; lia|].
  assert (v / 10 = 0) as -> by (pose proof (Z.div_pos v 10); lia). by destruct n.
Qed.

Lemma uint_text (v : Z) : id_ok v -> rev (uint_tmp 10 v) = fmt_i64 v.
Proof.
  intros [H0 H1]. rewrite <- fmt_unsigned by done. unfold fmt_u64. destruct (Z.eqb_spec v 0); [by subst|].
  rewrite (uint_tmp_spec 10 20 v []) by lia. by rewrite app_nil_r.
Qed.

#[export] Instance uint_outs (v : Z) : Outs (jout_uint v) (rev (uint_tmp 10 v)).
Proof.
  unfold jout_uint. eapply outs_eq; [apply (all_outs _ (fun c => [c])); apply _|].
  induction (rev _) as [|c l IH]; [done|]. cbn. by rewrite IH.
Qed.

(** ** The document *)

Definition jopt (s : option cstring) : jval := JStr (default [] s).
Definition jopts (l : list (option cstring)) : jval := JArr (map jopt l).

Definition cc_user_doc (spec : cc_ctr_oci_spec) : jval :=
  JObj ([field "uid" (JInt (os_uid spec)); field "gid" (JInt (os_gid spec))] ++
        unless (count (os_additional_gids spec) =? 0) "additionalGids" (jints (os_additional_gids spec))).

Definition cc_process_doc (spec : cc_ctr_oci_spec) : jval :=
  let caps := jopts (map Some k_default_caps ++ os_caps_add spec) in
  JObj ([field "user" (cc_user_doc spec)] ++
        unless (count (os_args spec) =? 0) "args" (jopts (os_args spec)) ++
        unless (count (os_env spec) =? 0) "env" (jopts (os_env spec)) ++
        [ field "cwd" (JStr (default (lit "/") (os_cwd spec)));
          field "capabilities" (JObj [field "bounding" caps; field "effective" caps; field "permitted" caps]);
          field "rlimits" (JArr [JObj [field "type" (jtext "RLIMIT_NOFILE"); field "hard" (JInt 1024);
                                       field "soft" (JInt 1024)]]);
          field "noNewPrivileges" (JBool true) ]).

Definition cc_mount_doc (m : cc_ctr_oci_mount) : jval :=
  JObj ([field "destination" (jopt (om_destination m))] ++
        unless (negb (given (om_type m))) "type" (jopt (om_type m)) ++
        unless (negb (given (om_source m))) "source" (jopt (om_source m)) ++
        unless (count (om_options m) =? 0) "options" (jopts (om_options m))).

Definition cc_linux_doc (spec : cc_ctr_oci_spec) : jval :=
  JObj ([field "resources" (JObj [field "devices" (JArr [deny_all])])] ++
        unless (negb (given (os_cgroups_path spec))) "cgroupsPath" (jopt (os_cgroups_path spec)) ++
        [ field "namespaces" (JArr (map namespace_doc (k_default_namespaces ++
                                         if os_host_network spec then [] else [lit "network"])));
          field "maskedPaths" (jtexts k_masked_paths); field "readonlyPaths" (jtexts k_readonly_paths) ]).

(** The annotations as members. *)
Definition annotation_doc (kv : cstring * cstring) : bytes * jval := (kv.1, JStr kv.2).

Definition cc_document (spec : cc_ctr_oci_spec) (annotations : list (cstring * cstring)) : jval :=
  JObj ([ field "ociVersion" (jtext "1.3.0"); field "process" (cc_process_doc spec);
          field "root" (JObj [field "path" (jtext "rootfs")]) ] ++
        unless (negb (given (os_hostname spec))) "hostname" (jopt (os_hostname spec)) ++
        [field "mounts" (JArr (map cc_mount_doc (k_default_mounts ++ os_mounts spec)))] ++
        unless (count annotations =? 0) "annotations" (JObj (map annotation_doc annotations)) ++
        [field "linux" (cc_linux_doc spec)]).

(** ** The text of every part *)

(** Compute the literals of a text and flatten it. *)
Ltac go_flat :=
  unfold field, jtext, unless; cbn [render_with map commas fst snd app];
  repeat match goal with
  | |- context [quote_with go_byte (lit ?s)] =>
      let v := eval vm_compute in (quote_with go_byte (lit s)) in change (quote_with go_byte (lit s)) with v
  | |- context [jlit ?s] => let v := eval vm_compute in (jlit s) in change (jlit s) with v
  | |- context [lit ?s] => let v := eval vm_compute in (lit s) in change (lit s) with v
  end;
  repeat (progress (rewrite <- ?app_assoc; cbn [app])).

Ltac go_same := go_flat; reflexivity.

#[export] Instance str_array_outs (l : list (option cstring)) : Outs (jout_str_array l) (go_text (jopts l)).
Proof.
  unfold jout_str_array, jopts. cbn [render_with]. rewrite map_map. apply _.
Qed.

Lemma count_positive {A} (l : list A) : (0 <? count l) = negb (count l =? 0).
Proof. unfold count. destruct l; cbn [length]; [done|]. by rewrite (proj2 (Z.ltb_lt _ _)), (proj2 (Z.eqb_neq _ _)) by lia. Qed.

#[export] Instance mount_outs (m : cc_ctr_oci_mount) : Outs (jout_mount_json m) (go_text (cc_mount_doc m)).
Proof.
  unfold jout_mount_json, cc_mount_doc. rewrite count_positive. eapply outs_eq; [apply _|].
  unfold jopt. destruct (given (om_type m)), (given (om_source m)), (count (om_options m) =? 0); cbn [negb]; go_same.
Qed.

Lemma uints_text (l : list Z) : Forall id_ok l ->
  go_text (jints l) = 91 :: commas (map (fun v => rev (uint_tmp 10 v)) l) ++ [93].
Proof.
  intros Hl. unfold jints. cbn [render_with]. rewrite map_map. do 3 f_equal. apply map_ext_Forall.
  eapply Forall_impl; [done|]. intros v Hv. cbn [render_with]. by rewrite uint_text.
Qed.

(** The fields have the widths of the structure, and the tables fit. *)
Record spec_ok (spec : cc_ctr_oci_spec) : Prop := {
  ok_uid : id_ok (os_uid spec);
  ok_gid : id_ok (os_gid spec);
  ok_gids : Forall id_ok (os_additional_gids spec);
  ok_tables : tables_overflow spec = false;
  ok_options : options_over_read spec = false;
}.

Lemma user_outs (spec : cc_ctr_oci_spec) : spec_ok spec ->
  Outs (out_user spec) (jlit ",'process':{'user':" ++ go_text (cc_user_doc spec)).
Proof.
  intros Hs. unfold out_user, cc_user_doc. rewrite count_positive. eapply outs_eq; [apply _|].
  rewrite !uint_text by apply Hs. unfold unless.
  destruct (count (os_additional_gids spec) =? 0); cbn [negb]; go_flat; rewrite ?uints_text by apply Hs; go_same.
Qed.

Lemma caps_of_all (spec : cc_ctr_oci_spec) : tables_overflow spec = false ->
  caps_of spec = map Some k_default_caps ++ os_caps_add spec.
Proof.
  intros H. unfold tables_overflow in H. bool_props. unfold caps_of. apply take_ge. rewrite length_app.
  unfold CC_CTR_OCI_CAPS_MAX, count in *. change (length (map Some k_default_caps)) with 14%nat. lia.
Qed.

(** The brace that closes the process comes with the next literal. *)
Lemma process_outs (spec : cc_ctr_oci_spec) : spec_ok spec ->
  exists t, Outs (out_process spec) t /\ t ++ [125] = jlit ",'process':" ++ go_text (cc_process_doc spec).
Proof.
  intros Hs. pose proof (user_outs spec Hs). unfold out_process, cc_process_doc.
  rewrite !count_positive, caps_of_all by apply Hs. eexists. split; [apply _|]. unfold unless.
  destruct (count (os_args spec) =? 0), (count (os_env spec) =? 0); cbn [negb]; go_same.
Qed.

Lemma mounts_outs (spec : cc_ctr_oci_spec) :
  Outs (out_mounts spec) (jlit ",'mounts':" ++ go_text (JArr (map cc_mount_doc (k_default_mounts ++ os_mounts spec)))).
Proof.
  unfold out_mounts. eapply outs_eq; [apply _|].
  cbn [render_with]. rewrite !map_app, commas_app, !map_map by done. rewrite <- !app_assoc. reflexivity.
Qed.

#[export] Instance namespace_outs (nm : cstring) : Outs (out_namespace nm) (go_text (namespace_doc nm)).
Proof. unfold out_namespace, namespace_doc. eapply outs_eq; [apply _|]. go_same. Qed.

Lemma jopts_some (l : list cstring) : jopts (map Some l) = jtexts l.
Proof. unfold jopts, jtexts. by rewrite map_map. Qed.

(** The last two braces are one literal. *)
Lemma linux_outs (spec : cc_ctr_oci_spec) :
  exists t, Outs (out_linux_body spec) t /\
    t ++ jlit "}}" = jlit ",'linux':" ++ go_text (cc_linux_doc spec) ++ [125].
Proof.
  unfold out_linux_body, cc_linux_doc. eexists. split; [apply _|]. rewrite !jopts_some. unfold unless.
  assert (go_text (JArr (map namespace_doc (k_default_namespaces ++ if os_host_network spec then [] else [lit "network"])))
    = 91 :: (if os_host_network spec then commas (map (fun nm => go_text (namespace_doc nm)) k_default_namespaces)
             else commas (map (fun nm => go_text (namespace_doc nm)) k_default_namespaces_net)) ++ [93]) as E
    by (by destruct (os_host_network spec)).
  destruct (given (os_cgroups_path spec)); cbn [negb app]; cbn [render_with map fst snd commas field] in E |- *;
    rewrite E; go_same.
Qed.

(** ** Annotations *)

(** The keys and values, if every entry has both and the key fits. *)
Fixpoint annotation_pairs (l : list (option cstring)) : option (list (cstring * cstring)) :=
  match l with
  | [] => Some []
  | a :: l' =>
      match a ≫= cut_at (chr "="), annotation_pairs l' with
      | Some (key, value), Some kvs => if strlen key <? KEYBUF then Some ((key, value) :: kvs) else None
      | _, _ => None
      end
  end.

Definition out_annotation (kv : cstring * cstring) : out :=
  jout_str (Some kv.1) >~ jout_ch 58 >~ jout_str (Some kv.2).

Lemma annotations_emitted (i : nat) (l : list (option cstring)) (kvs : list (cstring * cstring)) (o : json_out) :
  annotation_pairs l = Some kvs -> out_annotations i l o = Annotated (out_each out_annotation i kvs o).
Proof.
  revert i kvs o. induction l as [|a l IH]; intros i kvs o; cbn [annotation_pairs out_annotations].
  { intros. by simplify_eq. }
  destruct a as [a|]; [|done]. cbn [mbind option_bind]. destruct (cut_at _ a) as [[key value]|]; [|done].
  destruct (annotation_pairs l) as [kvs'|]; [|done].
  destruct (Z.ltb_spec (strlen key) KEYBUF); [|done]. intros. simplify_eq.
  rewrite (proj2 (Z.leb_gt _ _)) by done. by rewrite (IH _ kvs').
Qed.

Lemma annotation_count (l : list (option cstring)) (kvs : list (cstring * cstring)) :
  annotation_pairs l = Some kvs -> count l = count kvs.
Proof.
  unfold count. intros H. f_equal. revert kvs H.
  induction l as [|a l IH]; intros kvs; cbn [annotation_pairs]; [by intros; simplify_eq|].
  destruct (a ≫= _) as [[key value]|], (annotation_pairs l) as [kvs'|]; try done.
  destruct (_ <? _); intros; simplify_eq. cbn [length]. by rewrite (IH kvs').
Qed.

(** ** The whole text *)

#[export] Instance annotation_outs (kv : cstring * cstring) :
  Outs (out_annotation kv) (go_quoted kv.1 ++ [58] ++ go_quoted kv.2).
Proof. unfold out_annotation. apply _. Qed.

Definition out_members (kvs : list (cstring * cstring)) : out :=
  if 0 <? count kvs then jout_raw (jlit ",'annotations':{") >~ out_each out_annotation 0 kvs >~ jout_ch 125
  else out_skip.

Lemma block_emitted (spec : cc_ctr_oci_spec) (kvs : list (cstring * cstring)) (o : json_out) :
  annotation_pairs (os_annotations spec) = Some kvs ->
  annotations_block spec o = Annotated (out_members kvs o).
Proof.
  intros Hk. unfold annotations_block, out_members. rewrite (annotation_count _ _ Hk).
  destruct (0 <? count kvs); [|done]. by rewrite (annotations_emitted 0 _ _ _ Hk).
Qed.

Lemma spec_text (spec : cc_ctr_oci_spec) (kvs : list (cstring * cstring)) : spec_ok spec ->
  exists t, Outs (out_front spec >~ out_members kvs >~ out_linux_body spec) t /\
    t ++ jlit "}}" = go_text (cc_document spec kvs).
Proof.
  intros Hs. destruct (process_outs spec Hs) as (tp & Hp & Ep). destruct (linux_outs spec) as (tl & Hl & El).
  pose proof (mounts_outs spec) as Hm. unfold out_front, out_members. rewrite count_positive.
  eexists. split; [apply _|].
  assert (forall r, jlit "},'root':{'path':'rootfs'}" ++ r = [125] ++ jlit ",'root':{'path':'rootfs'}" ++ r) as Er by done.
  unfold cc_document. rewrite <- !app_assoc, El, Er. rewrite (app_assoc tp [125]), Ep.
  assert (go_text (JObj (map annotation_doc kvs)) =
          123 :: commas (map (fun kv => go_quoted kv.1 ++ [58] ++ go_quoted kv.2) kvs) ++ [125]) as Ea
    by (cbn [render_with]; by rewrite map_map).
  unfold unless. destruct (given (os_hostname spec)), (count kvs =? 0); cbn [negb app];
    cbn [render_with map fst snd commas field] in Ea |- *; rewrite ?Ea; go_same.
Qed.

(** The strings are bytes. *)
Definition opt_ok (s : option cstring) : Prop := text_ok (default [] s).
Definition opts_ok (l : list (option cstring)) : Prop := Forall opt_ok l.
Definition cc_mount_ok (m : cc_ctr_oci_mount) : Prop :=
  opt_ok (om_destination m) /\ opt_ok (om_source m) /\ opt_ok (om_type m) /\ opts_ok (om_options m).

Record spec_texts (spec : cc_ctr_oci_spec) (kvs : list (cstring * cstring)) : Prop := {
  tx_env : opts_ok (os_env spec);
  tx_args : opts_ok (os_args spec);
  tx_cwd : opt_ok (os_cwd spec);
  tx_caps : opts_ok (os_caps_add spec);
  tx_mounts : Forall cc_mount_ok (os_mounts spec);
  tx_hostname : opt_ok (os_hostname spec);
  tx_cgroups : opt_ok (os_cgroups_path spec);
  tx_annotations : Forall (fun kv => text_ok kv.1 /\ text_ok kv.2) kvs;
}.

Lemma jopts_ok (l : list (option cstring)) : opts_ok l -> doc_ok (jopts l).
Proof. apply map_doc_ok. done. Qed.
Lemma somes_ok (l : list cstring) : texts_ok l -> opts_ok (map Some l).
Proof. intros H. by apply Forall_map. Qed.
#[local] Hint Resolve jopts_ok somes_ok : docs.

Lemma cc_mount_doc_ok (m : cc_ctr_oci_mount) : cc_mount_ok m -> doc_ok (cc_mount_doc m).
Proof. intros (H1 & H2 & H3 & H4). unfold cc_mount_doc. doc_fields; apply unless_ok; auto with docs. Qed.

Lemma default_mounts_ok : Forall cc_mount_ok k_default_mounts.
Proof.
  assert (forall d t s o, cc_mount_ok (default_mount d t s o)) as H.
  { intros d t s o. split_and!; try apply lit_text_ok. apply Forall_map, Forall_forall. intros x _. apply lit_text_ok. }
  repeat (apply Forall_cons; split; [apply H|]). constructor.
Qed.

Lemma cc_linux_doc_ok (spec : cc_ctr_oci_spec) : opt_ok (os_cgroups_path spec) -> doc_ok (cc_linux_doc spec).
Proof.
  intros Hc. unfold cc_linux_doc. doc_fields; try (by apply unless_ok); try (by apply jtexts_ok, lits_ok).
  - by unfold deny_all; doc_fields.
  - apply (map_doc_ok _ text_ok); [by intros nm Hn; unfold namespace_doc; doc_fields|].
    destruct (os_host_network spec);
      [apply (lits_ok ["pid"; "ipc"; "uts"; "mount"]%string)
      |apply (lits_ok ["pid"; "ipc"; "uts"; "mount"; "network"]%string)].
Qed.

Lemma cc_document_ok (spec : cc_ctr_oci_spec) (kvs : list (cstring * cstring)) :
  spec_ok spec -> spec_texts spec kvs -> doc_ok (cc_document spec kvs).
Proof.
  intros [Hu Hg Hgs _ _] [He Ha Hw Hc Hm Hh Hp Hn].
  assert (opts_ok (map Some k_default_caps ++ os_caps_add spec)) as Hcaps
    by (apply Forall_app; split; [apply somes_ok, lits_ok|done]).
  assert (doc_ok (cc_process_doc spec)).
  { assert (doc_ok (cc_user_doc spec)) by (unfold cc_user_doc; doc_fields; unfold id_ok in *; lia).
    unfold cc_process_doc. doc_fields; try lia; try (by apply unless_ok, jopts_ok).
    destruct (os_cwd spec); [done|apply lit_text_ok]. }
  assert (doc_ok (JArr (map cc_mount_doc (k_default_mounts ++ os_mounts spec)))).
  { apply (map_doc_ok _ cc_mount_ok); [apply cc_mount_doc_ok|]. apply Forall_app. split; [apply default_mounts_ok|done]. }
  assert (doc_ok (JObj (map annotation_doc kvs))) by (by apply doc_ok_obj, Forall_map).
  pose proof (cc_linux_doc_ok spec Hp). unfold cc_document. doc_fields; by apply unless_ok.
Qed.

(** ** Complete or refused *)

Definition build_of (spec : cc_ctr_oci_spec) (cap : Z) : built := cc_ctr_oci_spec_build (Some spec) true cap.

Lemma last_literal (spec : cc_ctr_oci_spec) (kvs : list (cstring * cstring)) (o : json_out) :
  out_linux spec (out_members kvs (out_front spec o)) =
    ((out_front spec >~ out_members kvs >~ out_linux_body spec) >~ jout_raw (jlit "}}")) o.
Proof. unfold out_linux, out_then. reflexivity. Qed.

Lemma build_outcome (spec : cc_ctr_oci_spec) (kvs : list (cstring * cstring)) (cap : Z) :
  spec_ok spec -> annotation_pairs (os_annotations spec) = Some kvs -> 0 < cap < 2 ^ 31 ->
  let text := go_text (cc_document spec kvs) in
  exists written, build_of spec cap = Built (if strlen text <? cap then strlen text else CC_CTR_ERR_TOOBIG) written /\
    if strlen text <? cap then written = text ++ [0] else strlen written = cap.
Proof.
  intros Hs Hk Hc. cbv zeta. destruct (spec_text spec kvs Hs) as (t & Ht & <-).
  unfold build_of, cc_ctr_oci_spec_build. cbn [negb orb]. rewrite (proj2 (Z.eqb_neq cap 0)) by lia.
  rewrite (ok_tables _ Hs), (ok_options _ Hs), (block_emitted _ _ _ Hk).
  rewrite last_literal. destruct (outs_complete _ t (jlit "}}") cap Ht) as [Hcap Ho]; [lia|done|].
  revert Hcap Ho. generalize (((out_front spec >~ out_members kvs >~ out_linux_body spec) >~ jout_raw (jlit "}}")) (JsonOut [] cap)).
  intros o -> Ho.
  destruct (Z.ltb_spec (strlen (t ++ jlit "}}")) cap) as [Hl|Hl].
  - unfold o_len. rewrite Ho, (proj2 (Z.leb_gt _ _)) by done. pose proof (strlen_nonneg (t ++ jlit "}}")).
    rewrite to_int_small by lia. eauto.
  - rewrite (proj2 (Z.leb_le _ _)) by lia. eauto.
Qed.

(** What the builder relies on and does not check: the widths of the fields,
    at most eight options in a mount, and a '=' in every annotation. *)
Record spec_given (spec : cc_ctr_oci_spec) : Prop := {
  given_uid : id_ok (os_uid spec);
  given_gid : id_ok (os_gid spec);
  given_gids : Forall id_ok (os_additional_gids spec);
  given_options : Forall (fun m => count (om_options m) <= CC_CTR_OCI_MOUNT_OPTS_MAX) (os_mounts spec);
  given_equals : Forall (fun a => forall s, a = Some s -> cut_at (chr "=") s <> None) (os_annotations spec);
}.

Lemma options_in_bounds (spec : cc_ctr_oci_spec) :
  Forall (fun m => count (om_options m) <= CC_CTR_OCI_MOUNT_OPTS_MAX) (os_mounts spec) -> options_over_read spec = false.
Proof.
  unfold options_over_read. induction 1 as [|m ms Hm _ IH]; [done|]. cbn [existsb].
  by rewrite IH, (proj2 (Z.ltb_ge _ _)) by done.
Qed.

(** A missing annotation or a long key is an error. *)
Lemma annotations_refused (l : list (option cstring)) (i : nat) (o : json_out) :
  Forall (fun a => forall s, a = Some s -> cut_at (chr "=") s <> None) l -> annotation_pairs l = None ->
  exists o', out_annotations i l o = AnnotationError o'.
Proof.
  intros Hl. revert i o. induction Hl as [|a l Ha _ IH]; intros i o; cbn [annotation_pairs out_annotations]; [done|].
  destruct a as [a|]; [|by eauto]. cbn [mbind option_bind]. specialize (Ha a eq_refl).
  destruct (cut_at _ a) as [[key value]|]; [|done].
  destruct (Z.leb_spec KEYBUF (strlen key)) as [Hk|Hk]; [by eauto|]. intros Hp. apply IH.
  destruct (annotation_pairs l) as [kvs|]; [|done]. by rewrite (proj2 (Z.ltb_lt _ _)) in Hp.
Qed.

(** C33: the spec the alternate controller hands to containerd is complete or
    refused.  The builder is given fields of their C types (32-bit ids, bytes)
    with at most eight options in every mount and a '=' in every annotation,
    and a buffer of less than 2 GiB.  An empty buffer or a table with too many
    entries is refused with [CC_CTR_ERR_BADARG]; a missing annotation or one
    whose key has 512 bytes or more with [CC_CTR_ERR_JSON]; and for all other
    fields there is one text, which reads back as the OCI document of the
    fields (skeleton, user, mounts and annotations included): the builder
    returns its length with the whole text and its NUL in the buffer, or
    [CC_CTR_ERR_TOOBIG] with the buffer full to its last byte.  The writer
    drops bytes in silence, but never so that the builder misses it.  (More
    options, or an annotation without '=', are undefined behaviour:
    [nine_options], [annotation_without_equals].) *)
Theorem alt_spec_complete_or_refused (spec : cc_ctr_oci_spec) :
  spec_given spec -> (forall kvs, annotation_pairs (os_annotations spec) = Some kvs -> spec_texts spec kvs) ->
  (forall cap, cap = 0 \/ tables_overflow spec = true ->
     cc_ctr_oci_spec_build (Some spec) true cap = Built CC_CTR_ERR_BADARG []) /\
  (tables_overflow spec = false ->
   match annotation_pairs (os_annotations spec) with
   | None => forall cap, 0 < cap ->
       exists written, cc_ctr_oci_spec_build (Some spec) true cap = Built CC_CTR_ERR_JSON written
   | Some kvs =>
       exists text, read_json text = Some (cc_document spec kvs) /\
         forall cap, 0 < cap < 2 ^ 31 ->
           (strlen text < cap -> cc_ctr_oci_spec_build (Some spec) true cap = Built (strlen text) (text ++ [0])) /\
           (cap <= strlen text -> exists written,
              cc_ctr_oci_spec_build (Some spec) true cap = Built CC_CTR_ERR_TOOBIG written /\ strlen written = cap)
   end).
Proof.
  intros [Hu Hg Hgs Ho He] Ht. pose proof (options_in_bounds _ Ho) as Hopt. split.
  { unfold cc_ctr_oci_spec_build. cbn [negb orb]. intros cap [->| ->]; [done|]. by destruct (cap =? 0). }
  intros Htab. destruct (annotation_pairs (os_annotations spec)) as [kvs|] eqn:Hk.
  - assert (Hs : spec_ok spec) by done. exists (go_text (cc_document spec kvs)).
    split; [by apply (read_json_spelled go_byte read_go_byte), cc_document_ok, Ht|].
    intros cap Hc. destruct (build_outcome spec kvs cap Hs Hk Hc) as (w & E & Hw). unfold build_of in E.
    split; intros Hl.
    + rewrite (proj2 (Z.ltb_lt _ _)) in E, Hw by done. by rewrite E, Hw.
    + rewrite (proj2 (Z.ltb_ge _ _)) in E, Hw by done. eauto.
  - intros cap Hc. unfold cc_ctr_oci_spec_build. cbn [negb orb]. rewrite (proj2 (Z.eqb_neq cap 0)), Htab, Hopt by lia.
    unfold annotations_block. destruct (os_annotations spec) as [|a l] eqn:El; [done|]. rewrite <- El in *.
    replace (0 <? count (os_annotations spec)) with true by (rewrite El; done).
    destruct (annotations_refused _ 0 (jout_raw (jlit ",'annotations':{") (out_front spec (JsonOut [] cap))) He Hk) as [o' ->].
    eauto.
Qed.

(** A field set with every optional part. *)
Definition sample_spec : cc_ctr_oci_spec :=
  CcSpec [Some (lit "PATH=/bin"); None] [Some (lit "/entrypoint")] None 1000 0 [44; 27] [Some (lit "CAP_SYS_NICE")]
    [CcMount (Some (lit "/tmp")) (Some (lit "/srv/<a&b>")) (Some (lit "bind")) [Some (lit "rbind"); Some (lit "rw")]]
    true (Some (lit "host")) (Some (lit "/strim/mediamtx")) [Some (lit "k=v=w")].

Lemma sample_spec_given : spec_given sample_spec.
Proof.
  split; unfold id_ok; cbn; try lia; repeat constructor; cbn; try lia; try done.
  by intros s Hs; simplify_eq; vm_compute.
Qed.

Lemma alt_spec_complete_or_refused_witness :
  exists text, read_json text = Some (cc_document sample_spec [(lit "k", lit "v=w")]) /\
    forall cap, 0 < cap < 2 ^ 31 ->
      (strlen text < cap -> cc_ctr_oci_spec_build (Some sample_spec) true cap = Built (strlen text) (text ++ [0])) /\
      (cap <= strlen text -> exists written,
         cc_ctr_oci_spec_build (Some sample_spec) true cap = Built CC_CTR_ERR_TOOBIG written /\ strlen written = cap).
Proof.
  refine (proj2 (alt_spec_complete_or_refused sample_spec sample_spec_given _) eq_refl).
  intros kvs Hk. vm_compute in Hk. injection Hk as <-. split; repeat (constructor || lia).
Defined.

(** The bytes, on a field set with little in it. *)
Example small_spec_text :
  let spec := CcSpec [] [] (Some (lit "/")) 0 0 [] [] [] true None None [] in
  match build_of spec 4096 with
  | Built rc w => rc = strlen w - 1 /\ starts_with (jlit "{'ociVersion':'1.3.0','process':{'user':{'uid':0,'gid':0},'cwd':'/'") w = true
  | BuildUndefined => False
  end.
Proof. vm_compute. done. Qed.

(** *** Annotations that are not key and value *)

(** The first fault of the annotations decides. *)
Lemma annotation_faults (pre post : list (option cstring)) (a : option cstring) (kvs : list (cstring * cstring))
    (i : nat) (o : json_out) :
  annotation_pairs pre = Some kvs ->
  match a with
  | None => exists o', out_annotations i (pre ++ a :: post) o = AnnotationError o'
  | Some s =>
      match cut_at (chr "=") s with
      | None => out_annotations i (pre ++ a :: post) o = AnnotationUndefined
      | Some (key, _) => KEYBUF <= strlen key -> exists o', out_annotations i (pre ++ a :: post) o = AnnotationError o'
      end
  end.
Proof.
  revert kvs i o. induction pre as [|b pre IH]; intros kvs i o; cbn [annotation_pairs app out_annotations].
  - intros _. destruct a as [a|]; [|eauto]. destruct (cut_at _ a) as [[key value]|]; [|done].
    intros Hk. rewrite (proj2 (Z.leb_le _ _)) by done. eauto.
  - destruct b as [b|]; [|done]. cbn [mbind option_bind]. destruct (cut_at _ b) as [[key value]|]; [|done].
    destruct (annotation_pairs pre) as [kvs'|]; [|done]. destruct (Z.ltb_spec (strlen key) KEYBUF); [|done].
    intros _. rewrite (proj2 (Z.leb_gt _ _)) by done. exact (IH kvs' _ _ eq_refl).
Qed.

(** An annotation without '=' is undefined behaviour, not an error. *)
Theorem annotation_without_equals :
  build_of (CcSpec [] [] None 0 0 [] [] [] true None None [Some (lit "nvidia")]) 4096 = BuildUndefined.
Proof. vm_compute. reflexivity. Qed.

(** A mount with more options than its array holds is read past its end. *)
Theorem nine_options :
  build_of (CcSpec [] [] None 0 0 [] [] [CcMount None None None (replicate 9 (Some (lit "ro")))] true None None []) 65536
    = BuildUndefined.
Proof. vm_compute. reflexivity. Qed.
