(* ===== verification/CcJson.v ===== *)
(** * The JSON path extractor of the alternate controller
    (core/controller/alternate/c/cc_ctr.c)

    A recursive-descent parser that keeps the dotted path of the current key
    and copies the values it was asked for.  The text is the part of the
    document from the current position on. *)

From S2P Require Import Prelude Wire Controller Http HttpFacts Double Config DurationFacts EnvFile Json JsonFacts.

Definition CC_JSON_PATH_MAX : Z := 128.
Definition CC_CTR_DIGEST_MAX : Z := 256.

(** What to look for: a string, an integer, an array of strings. *)
Record json_targets := Targets {
  tg_str : option cstring;
  tg_out_cap : Z;
  tg_int : option cstring;
  tg_arr : option cstring;
  tg_arr_max : Z;
}.

(** What has been captured so far. *)
Record json_capture := Capture {
  jc_captured : bool;
  jc_out : option cstring;
  jc_out_int : option Z;
  jc_out_arr : list cstring;
}.

(** The position, the current path, and the captures. *)
Record json_ctx := Ctx { jc_rest : bytes; jc_path : bytes; jc_cap : json_capture }.

Definition with_rest (t : bytes) (c : json_ctx) : json_ctx := Ctx t (jc_path c) (jc_cap c).
Definition with_path (p : bytes) (c : json_ctx) : json_ctx := Ctx (jc_rest c) p (jc_cap c).
Definition with_cap (f : json_capture -> json_capture) (c : json_ctx) : json_ctx :=
  Ctx (jc_rest c) (jc_path c) (f (jc_cap c)).

Definition capture_str (s : cstring) (k : json_capture) : json_capture :=
  Capture true (Some s) (jc_out_int k) (jc_out_arr k).
Definition capture_int (v : Z) (k : json_capture) : json_capture :=
  Capture true (jc_out k) (Some v) (jc_out_arr k).
Definition capture_found (k : json_capture) : json_capture :=
  Capture true (jc_out k) (jc_out_int k) (jc_out_arr k).
Definition capture_elem (s : cstring) (k : json_capture) : json_capture :=
  Capture (jc_captured k) (jc_out k) (jc_out_int k) (jc_out_arr k ++ [s]).

(** A char array read as a C string: up to its first NUL. *)
Fixpoint c_string (b : bytes) : cstring :=
  match b with [] => [] | c :: b' => if c =? 0 then [] else c :: c_string b' end.

(** A copy that fits with its NUL; a NULL source is the empty string. *)
Definition copy_str (dst_cap : Z) (src : option cstring) : option cstring :=
  let src := default [] src in
  if dst_cap =? 0 then None else if dst_cap <? strlen src + 1 then None else Some src.

Section Extractor.
Variable tg : json_targets.

(** The path below its parent, whose length is [parent_len]. *)
Definition j_path_set (key : cstring) (parent_len : Z) (c : json_ctx) : option json_ctx :=
  let need := (if 0 <? parent_len then parent_len + 1 else 0) + strlen key in
  if CC_JSON_PATH_MAX <? need + 1 then None
  else Some (with_path (take (Z.to_nat parent_len) (jc_path c) ++
                        (if 0 <? parent_len then [chr "."] else []) ++ key) c).

(** [c->path_len = parent_len; c->path[parent_len] = '\0';] *)
Definition j_path_cut (parent_len : Z) (c : json_ctx) : json_ctx :=
  with_path (take (Z.to_nat parent_len) (jc_path c)) c.

Definition j_path_matches (c : json_ctx) (target : option cstring) : bool :=
  match target with Some t => streq (jc_path c) t | None => false end.

Definition is_json_ws (ch : Z) : bool := (ch =? 32) || (ch =? 9) || (ch =? 10) || (ch =? 13).

Definition j_skip_ws (c : json_ctx) : json_ctx := with_rest (skip_while is_json_ws (jc_rest c)) c.

Definition j_hex (hc : Z) : option Z :=
  if (chr "0" <=? hc) && (hc <=? chr "9") then Some (hc - chr "0")
  else if (chr "a" <=? hc) && (hc <=? chr "f") then Some (hc - chr "a" + 10)
  else if (chr "A" <=? hc) && (hc <=? chr "F") then Some (hc - chr "A" + 10)
  else None.

(** The UTF-8 bytes of a code unit; a high surrogate becomes U+FFFD. *)
Definition j_utf8 (cp : Z) : bytes :=
  if (0xD800 <=? cp) && (cp <=? 0xDBFF) then [0xEF; 0xBF; 0xBD]
  else if 0x800 <=? cp then
    [Z.lor 0xE0 (Z.shiftr cp 12); Z.lor 0x80 (Z.land (Z.shiftr cp 6) 0x3F); Z.lor 0x80 (Z.land cp 0x3F)]
  else if 0x80 <=? cp then [Z.lor 0xC0 (Z.shiftr cp 6); Z.lor 0x80 (Z.land cp 0x3F)]
  else [cp].

(** [if (olen + n >= cap) fail; out[olen++] = ...] *)
Definition j_put (out bs : bytes) (cap : Z) : option bytes :=
  if cap <=? strlen out + strlen bs then None else Some (out ++ bs).

(** The loop of j_parse_string, after the opening quote.  It ends at a
    quote, and also at the end of the text. *)
Fixpoint j_string_loop (t out : bytes) (cap : Z) : option (bytes * bytes) :=
  match t with
  | [] => if cap <? strlen out + 1 then None else Some (out, [])
  | ch :: t1 =>
      if ch =? 34 then if cap <? strlen out + 1 then None else Some (out, t1)
      else if ch =? 92 then
        match t1 with
        | [] => None
        | e :: t2 =>
            if e =? chr "u" then
              match t2 with
              | a :: b :: x :: d :: t3 =>
                  match j_hex a, j_hex b, j_hex x, j_hex d with
                  | Some a, Some b, Some x, Some d =>
                      let cp := Z.lor (Z.shiftl (Z.lor (Z.shiftl (Z.lor (Z.shiftl a 4) b) 4) x) 4) d in
                      match j_put out (j_utf8 cp) cap with
                      | Some out => j_string_loop t3 out cap
                      | None => None
                      end
                  | _, _, _, _ => None
                  end
              | _ => None
              end
            else
              match unescape e with
              | Some v => match j_put out [v] cap with Some out => j_string_loop t2 out cap | None => None end
              | None => None
              end
        end
      else match j_put out [ch] cap with Some out => j_string_loop t1 out cap | None => None end
  end.

(** The bytes written, before their NUL, and the context after the string. *)
Definition j_parse_string (cap : Z) (c : json_ctx) : option (bytes * json_ctx) :=
  match jc_rest c with
  | ch :: t =>
      if ch =? 34 then
        match j_string_loop t [] cap with Some (s, r) => Some (s, with_rest r c) | None => None end
      else None
  | [] => None
  end.

Fixpoint j_number_loop (t : bytes) (v : Z) : option (Z * bytes) :=
  match t with
  | ch :: t' =>
      if is_digit ch then
        if (INT64_MAX - (ch - chr "0")) / 10 <? v then None
        else j_number_loop t' (v * 10 + (ch - chr "0"))
      else Some (v, t)
  | [] => Some (v, [])
  end.

Definition j_parse_number (c : json_ctx) : option (Z * json_ctx) :=
  let neg := starts_with (lit "-") (jc_rest c) in
  let t := if neg then drop 1 (jc_rest c) else jc_rest c in
  match j_number_loop t 0 with
  | Some (v, r) => Some (if neg then - v else v, with_rest r c)
  | None => None
  end.

(** [-1], out of fuel included, is [None]; nothing that was captured is used
    then.  The loops of objects and arrays are functions of their own. *)
Fixpoint j_parse_value (fuel : nat) (c : json_ctx) : option json_ctx :=
  match fuel with
  | O => None
  | S f =>
      let c := j_skip_ws c in
      match jc_rest c with
      | [] => None
      | ch :: _ =>
          if ch =? 123 then j_parse_object f c
          else if ch =? 91 then j_parse_array f c (strlen (jc_path c))
          else if ch =? 34 then
            match j_parse_string CC_JSON_PATH_MAX c with
            | None => None
            | Some (v, c) =>
                if j_path_matches c (tg_str tg) then
                  match copy_str (tg_out_cap tg) (Some (c_string v)) with
                  | None => None
                  | Some s => Some (with_cap (capture_str s) c)
                  end
                else Some c
            end
          else if (ch =? chr "-") || is_digit ch then
            match j_parse_number c with
            | None => None
            | Some (v, c) => Some (if j_path_matches c (tg_int tg) then with_cap (capture_int v) c else c)
            end
          else if starts_with (lit "true") (jc_rest c) then Some (with_rest (drop 4 (jc_rest c)) c)
          else if starts_with (lit "false") (jc_rest c) then Some (with_rest (drop 5 (jc_rest c)) c)
          else if starts_with (lit "null") (jc_rest c) then Some (with_rest (drop 4 (jc_rest c)) c)
          else None
      end
  end
with j_parse_object (fuel : nat) (c : json_ctx) : option json_ctx :=
  match fuel with
  | O => None
  | S f =>
      let c := j_skip_ws (with_rest (drop 1 (jc_rest c)) c) in
      if starts_with [125] (jc_rest c) then Some c else j_object_loop f c
  end
with j_object_loop (fuel : nat) (c : json_ctx) : option json_ctx :=
  match fuel with
  | O => None
  | S f =>
      let parent := strlen (jc_path c) in
      match j_parse_string CC_JSON_PATH_MAX (j_skip_ws c) with
      | None => None
      | Some (key, c) =>
          let c := j_skip_ws c in
          if starts_with [58] (jc_rest c) then
            match j_path_set (c_string key) parent (with_rest (drop 1 (jc_rest c)) c) with
            | None => None
            | Some c =>
                match j_parse_value f c with
                | None => None
                | Some c =>
                    let c := j_skip_ws (j_path_cut parent c) in
                    match jc_rest c with
                    | ch :: t =>
                        if ch =? comma then j_object_loop f (with_rest t c)
                        else if ch =? 125 then Some (with_rest t c)
                        else None
                    | [] => None
                    end
                end
            end
          else None
      end
  end
with j_parse_array (fuel : nat) (c : json_ctx) (parent_len : Z) : option json_ctx :=
  match fuel with
  | O => None
  | S f =>
      let capture := j_path_matches c (tg_arr tg) in
      let c := if capture then with_cap capture_found c else c in
      let c := j_skip_ws (with_rest (drop 1 (jc_rest c)) c) in
      if starts_with [93] (jc_rest c) then Some (with_rest (drop 1 (jc_rest c)) c)
      else j_array_loop f capture c parent_len
  end
with j_array_loop (fuel : nat) (capture : bool) (c : json_ctx) (parent_len : Z) : option json_ctx :=
  match fuel with
  | O => None
  | S f =>
      let c := j_skip_ws c in
      let r :=
        if capture then
          match j_parse_string CC_CTR_DIGEST_MAX c with
          | None => None
          | Some (elem, c) =>
              if tg_arr_max tg <=? Z.of_nat (length (jc_out_arr (jc_cap c))) then None
              else Some (with_cap (capture_elem (c_string elem)) c)
          end
        else
          match j_parse_value f c with None => None | Some c => Some (j_path_cut parent_len c) end in
      match r with
      | None => None
      | Some c =>
          let c := j_skip_ws c in
          match jc_rest c with
          | ch :: t =>
              if ch =? comma then j_array_loop f capture (with_rest t c) parent_len
              else if ch =? 93 then Some (with_rest t c)
              else None
          | [] => None
          end
      end
  end.

(** Three units per byte suffice: see [value_parsed]. *)
Definition j_fuel (json : bytes) : nat := (3 * length json + 3)%nat.

Definition json_walk (json : bytes) : option json_ctx :=
  j_parse_value (j_fuel json) (Ctx json [] (Capture false None None [])).

End Extractor.

(** 0 found, 1 not found, -1 a parse error; with what was captured. *)
Definition path_result {A} (r : option json_ctx) (get : json_capture -> A) (none : A) : Z * A :=
  match r with
  | None => (-1, none)
  | Some c => (if jc_captured (jc_cap c) then 0 else 1, get (jc_cap c))
  end.

Definition json_path_str (json : bytes) (path : cstring) (cap : Z) : Z * option cstring :=
  path_result (json_walk (Targets (Some path) cap None None 0) json) jc_out None.

Definition json_path_int (json : bytes) (path : cstring) : Z * option Z :=
  path_result (json_walk (Targets None 0 (Some path) None 0) json) jc_out_int None.

Definition json_path_strs (json : bytes) (path : cstring) (max : Z) : Z * list cstring :=
  path_result (json_walk (Targets None 0 None (Some path) max) json) jc_out_arr [].

(** ** JSON texts

    A value and a text that spells it: the grammar of RFC 8259 without
    fractions, exponents and \u escapes of surrogates (pairs or lone ones),
    and with leading zeros allowed in integers. *)

(** The UTF-8 encoding of a code point of the basic plane. *)
Definition utf8 (cp : Z) : bytes :=
  if 0x800 <=? cp then [0xE0 + cp / 4096; 0x80 + cp / 64 mod 64; 0x80 + cp mod 64]
  else if 0x80 <=? cp then [0xC0 + cp / 64; 0x80 + cp mod 64]
  else [cp].

(** The characters of a string; a \u escape stands for a code point of the
    basic plane that is not a surrogate. *)
Inductive chars : bytes -> bytes -> Prop :=
  | ch_end : chars [] []
  | ch_raw c s t : c <> 34 -> c <> 92 -> chars s t -> chars (c :: s) (c :: t)
  | ch_escape e v s t : unescape e = Some v -> chars s t -> chars (v :: s) (92 :: e :: t)
  | ch_unicode a b x d va vb vx vd s t :
      let cp := ((va * 16 + vb) * 16 + vx) * 16 + vd in
      j_hex a = Some va -> j_hex b = Some vb -> j_hex x = Some vx -> j_hex d = Some vd ->
      ~ (0xD800 <= cp <= 0xDFFF) -> chars s t ->
      chars (utf8 cp ++ s) (92 :: chr "u" :: a :: b :: x :: d :: t).

Definition ws (w : bytes) : Prop := forallb is_json_ws w = true.

Inductive spells : jval -> bytes -> Prop :=
  | sp_null : spells JNull (lit "null")
  | sp_true : spells (JBool true) (lit "true")
  | sp_false : spells (JBool false) (lit "false")
  | sp_int ds : ds <> [] -> forallb is_digit ds = true -> spells (JInt (decimal ds)) ds
  | sp_neg ds : ds <> [] -> forallb is_digit ds = true -> spells (JInt (- decimal ds)) (chr "-" :: ds)
  | sp_str s t : chars s t -> spells (JStr s) (34 :: t ++ [34])
  | sp_arr_empty w : ws w -> spells (JArr []) (91 :: w ++ [93])
  | sp_arr l t : items l t -> spells (JArr l) (91 :: t ++ [93])
  | sp_obj_empty w : ws w -> spells (JObj []) (123 :: w ++ [125])
  | sp_obj ms t : members ms t -> spells (JObj ms) (123 :: t ++ [125])
with items : list jval -> bytes -> Prop :=
  | it_last w1 w2 j t : ws w1 -> ws w2 -> spells j t -> items [j] (w1 ++ t ++ w2)
  | it_more w1 w2 j t l u : ws w1 -> ws w2 -> spells j t -> items l u ->
      items (j :: l) (w1 ++ t ++ w2 ++ comma :: u)
with members : list (bytes * jval) -> bytes -> Prop :=
  | mb_last w1 w2 w3 w4 k kt j t : ws w1 -> ws w2 -> ws w3 -> ws w4 -> chars k kt -> spells j t ->
      members [(k, j)] (w1 ++ 34 :: kt ++ 34 :: w2 ++ 58 :: w3 ++ t ++ w4)
  | mb_more w1 w2 w3 w4 k kt j t ms u : ws w1 -> ws w2 -> ws w3 -> ws w4 -> chars k kt -> spells j t ->
      members ms u ->
      members ((k, j) :: ms) (w1 ++ 34 :: kt ++ 34 :: w2 ++ 58 :: w3 ++ t ++ w4 ++ comma :: u).

Scheme spells_mut := Minimality for spells Sort Prop
  with items_mut := Minimality for items Sort Prop
  with members_mut := Minimality for members Sort Prop.
Combined Scheme json_mut from spells_mut, items_mut, members_mut.

(** ** Strings and numbers *)
Lemma j_hex_range (c v : Z) : j_hex c = Some v -> 0 <= v < 16.
Proof.
  unfold j_hex. change (chr "0") with 48. change (chr "9") with 57. change (chr "a") with 97.
  change (chr "f") with 102. change (chr "A") with 65. change (chr "F") with 70.
  repeat case_match; intros; simplify_eq; bool_props; lia.
Qed.

Lemma j_utf8_spec (cp : Z) : 0 <= cp < 65536 -> ~ (0xD800 <= cp <= 0xDFFF) -> j_utf8 cp = utf8 cp.
Proof.
  intros Hcp Hs. unfold j_utf8, utf8.
  assert (((0xD800 <=? cp) && (cp <=? 0xDBFF)) = false) as ->.
  { apply not_true_iff_false. intros H. bool_props. lia. }
  assert (forall a b, 0 <= b < 64 -> Z.lor (a * 64) b = a * 64 + b) as Hor.
  { intros a b Hb. change 64 with (2 ^ 6) at 1. rewrite <- Z.shiftl_mul_pow2 by lia. by rewrite lor_shiftl_add. }
  change 0x3F with (2 ^ 6 - 1). rewrite !land_ones_mod, !Z.shiftr_div_pow2 by lia.
  change (2 ^ 12) with 4096. change (2 ^ 6) with 64.
  pose proof (Z.mod_pos_bound cp 64 ltac:(lia)). pose proof (Z.mod_pos_bound (cp / 64) 64 ltac:(lia)).
  rewrite !(Hor 2 : forall b, _ -> Z.lor 0x80 b = 0x80 + b) by done.
  destruct (Z.leb_spec 0x800 cp).
  - assert (0 <= cp / 4096 < 16) by (split; [apply Z.div_pos; lia|apply Z.div_lt_upper_bound; lia]).
    pose proof (lor_shiftl_add 14 (cp / 4096) 4 ltac:(lia) ltac:(lia)) as E. change (Z.shiftl 14 4) with 0xE0 in E.
    by rewrite E.
  - destruct (Z.leb_spec 0x80 cp); [|done].
    assert (0 <= cp / 64 < 32) by (split; [apply Z.div_pos; lia|apply Z.div_lt_upper_bound; lia]).
    by rewrite (Hor 3 : forall b, _ -> Z.lor 0xC0 b = 0xC0 + b) by lia.
Qed.

Lemma hex_units (va vb vx vd : Z) : 0 <= va < 16 -> 0 <= vb < 16 -> 0 <= vx < 16 -> 0 <= vd < 16 ->
  Z.lor (Z.shiftl (Z.lor (Z.shiftl (Z.lor (Z.shiftl va 4) vb) 4) vx) 4) vd = ((va * 16 + vb) * 16 + vx) * 16 + vd.
Proof. intros. by rewrite !lor_shiftl_add by lia. Qed.

Lemma put_fits (out bs : bytes) (cap : Z) : strlen out + strlen bs < cap -> j_put out bs cap = Some (out ++ bs).
Proof. intros. unfold j_put. by rewrite (proj2 (Z.leb_gt _ _)). Qed.

Lemma string_parsed (s t out r : bytes) (cap : Z) : chars s t -> strlen out + strlen s < cap ->
  j_string_loop (t ++ 34 :: r) out cap = Some (out ++ s, r).
Proof.
  intros Hc. revert out. induction Hc as [|c s t H1 H2 _ IH|e v s t He _ IH|a b x d va vb vx vd s t cp Ha Hb Hx Hd Hcp _ IH];
    intros out Hl; cbn [app j_string_loop].
  - change (strlen []) with 0 in Hl. rewrite (proj2 (Z.ltb_ge _ _)) by lia. by rewrite app_nil_r.
  - rewrite (proj2 (Z.eqb_neq c 34)), (proj2 (Z.eqb_neq c 92)) by done.
    change (c :: s) with ([c] ++ s) in *. rewrite strlen_app in Hl. pose proof (strlen_nonneg s).
    rewrite put_fits, IH by (rewrite ?strlen_app; lia). by rewrite <- app_assoc.
  - change (92 =? 34) with false. change (92 =? 92) with true. cbn match.
    destruct (Z.eqb_spec e (chr "u")) as [->|_]; [done|]. rewrite He.
    change (v :: s) with ([v] ++ s) in *. rewrite strlen_app in Hl. pose proof (strlen_nonneg s).
    rewrite put_fits, IH by (rewrite ?strlen_app; lia). by rewrite <- app_assoc.
  - change (92 =? 34) with false. change (92 =? 92) with true. cbn match. rewrite Z.eqb_refl, Ha, Hb, Hx, Hd.
    apply j_hex_range in Ha, Hb, Hx, Hd. rewrite hex_units by done. fold cp.
    rewrite j_utf8_spec by (unfold cp; done || lia). rewrite strlen_app in Hl. pose proof (strlen_nonneg s).
    rewrite put_fits, IH by (rewrite ?strlen_app; lia). by rewrite <- app_assoc.
Qed.

Lemma number_parsed (ds r : bytes) (v : Z) : forallb is_digit ds = true -> 0 <= v -> ends_number r ->
  fold_left (fun v c => v * 10 + digit c) ds v <= INT64_MAX ->
  j_number_loop (ds ++ r) v = Some (fold_left (fun v c => v * 10 + digit c) ds v, r).
Proof.
  revert v. induction ds as [|c ds IH]; intros v Hd Hv Hr Hm.
  - cbn. unfold ends_number in Hr. destruct r as [|c r]; [done|]. cbn in Hr |- *. by rewrite Hr.
  - cbn in Hd. apply andb_true_iff in Hd as [Hc Hd]. cbn [app j_number_loop fold_left] in *. rewrite Hc.
    assert (0 <= digit c) by (unfold is_digit, digit in *; bool_props; lia).
    pose proof (fold_decimal_ge ds (v * 10 + digit c) Hd ltac:(lia)). fold (digit c).
    rewrite (proj2 (Z.ltb_ge _ _)) by (apply Z.div_le_lower_bound; lia). apply IH; try done; lia.
Qed.

(** ** What a document has at a path *)

(** The path of a member. *)
Definition join (p k : bytes) : bytes := match p with [] => k | _ => p ++ chr "." :: k end.

(** Every value of a document with its dotted path, in the order of the text;
    the items of an array have the path of the array. *)
Fixpoint nodes (p : bytes) (j : jval) : list (bytes * jval) :=
  (p, j) :: match j with
            | JArr l => concat (map (nodes p) l)
            | JObj ms => concat (map (fun m => nodes (join p m.1) m.2) ms)
            | _ => []
            end.

Definition strings_of (l : list jval) : list bytes := omap (fun j => match j with JStr s => Some s | _ => None end) l.

Section Captures.
Context (tg : json_targets).

Definition wanted (p : bytes) (target : option cstring) : bool :=
  match target with Some t => streq p t | None => false end.

(** What one value adds to the captures. *)
Definition note (k : json_capture) (n : bytes * jval) : json_capture :=
  match n.2 with
  | JStr s => if wanted n.1 (tg_str tg) then capture_str s k else k
  | JInt v => if wanted n.1 (tg_int tg) then capture_int v k else k
  | JArr l => if wanted n.1 (tg_arr tg)
              then Capture true (jc_out k) (jc_out_int k) (jc_out_arr k ++ strings_of l) else k
  | _ => k
  end.

Definition notes (ns : list (bytes * jval)) (k : json_capture) : json_capture := fold_left note ns k.

(** What the extractor can take: strings of at most 127 bytes without NUL,
    64-bit integers, objects that are not empty with keys and paths of at most
    127 bytes, and strings where an array of strings is looked for. *)
Definition short (s : bytes) : Prop := strlen s < CC_JSON_PATH_MAX /\ 0 ∉ s.

Definition node_ok (n : bytes * jval) : Prop :=
  match n.2 with
  | JStr s => short s /\ (wanted n.1 (tg_str tg) = true -> strlen s < tg_out_cap tg)
  | JInt v => - INT64_MAX <= v <= INT64_MAX
  | JArr l => wanted n.1 (tg_arr tg) = true -> Forall (fun j => exists s, j = JStr s) l
  | JObj ms => ms <> [] /\ Forall (fun m => short m.1 /\ strlen (join n.1 m.1) < CC_JSON_PATH_MAX) ms
  | _ => True
  end.

(** The arrays found do not exceed the caller's array. *)
Definition room (ns : list (bytes * jval)) (k : json_capture) : Prop :=
  Z.of_nat (length (jc_out_arr (notes ns k))) <= tg_arr_max tg.

Lemma notes_grow (ns : list (bytes * jval)) (k : json_capture) :
  (length (jc_out_arr k) <= length (jc_out_arr (notes ns k)))%nat.
Proof.
  revert k. induction ns as [|[p j] ns IH]; intros k; [done|]. cbn [notes fold_left].
  etransitivity; [|apply IH]. unfold note. cbn [fst snd]. destruct j; try done; case_match; cbn; try done.
  rewrite length_app. lia.
Qed.

Lemma notes_app (ns ms : list (bytes * jval)) (k : json_capture) : notes (ns ++ ms) k = notes ms (notes ns k).
Proof. apply fold_left_app. Qed.

Lemma room_app (ns ms : list (bytes * jval)) (k : json_capture) :
  room (ns ++ ms) k -> room ns k /\ room ms (notes ns k).
Proof.
  unfold room. rewrite notes_app. intros H. pose proof (notes_grow ms (notes ns k)). split; [lia|done].
Qed.

(** ** Values are parsed as they are spelled *)
Lemma skip_ws_app (w t p : bytes) (k : json_capture) : ws w -> is_json_ws (default 0 (head t)) = false ->
  j_skip_ws (Ctx (w ++ t) p k) = Ctx t p k.
Proof.
  intros Hw Ht. unfold j_skip_ws, with_rest. cbn [jc_rest jc_path jc_cap]. f_equal.
  induction w as [|c w IH]; cbn [app].
  - destruct t as [|c t]; [done|]. cbn in Ht |- *. by rewrite Ht.
  - unfold ws in Hw. cbn in Hw |- *. apply andb_true_iff in Hw as [-> Hw]. by apply IH.
Qed.

(** The first byte of a value is not white space and no closing bracket. *)
Lemma spells_head (j : jval) (t : bytes) : spells j t ->
  exists c t', t = c :: t' /\ is_json_ws c = false /\ c <> 93 /\ c <> 125.
Proof.
  intros H. assert (forall ds : bytes, ds <> [] -> forallb is_digit ds = true ->
      exists c t', ds = c :: t' /\ is_json_ws c = false /\ c <> 93 /\ c <> 125) as Hd.
  { intros [|c ds]; [done|]. intros _ Hc. cbn in Hc. apply andb_true_iff in Hc as [Hc _].
    exists c, ds. unfold is_digit, is_json_ws in *. change (chr "0") with 48 in *. change (chr "9") with 57 in *.
    bool_props. rewrite !(proj2 (Z.eqb_neq c _)) by lia. split_and!; try done; lia. }
  destruct H; eauto; (eexists _, _; split; [reflexivity|]; split_and!; vm_compute; done).
Qed.

Lemma ws_ends_number (w t : bytes) (c : Z) : ws w -> is_digit c = false -> ends_number (w ++ c :: t).
Proof.
  intros Hw Hc. unfold ends_number. destruct w as [|x w]; [done|]. cbn. unfold ws in Hw. cbn in Hw.
  apply andb_true_iff in Hw as [Hx _]. unfold is_json_ws in Hx. unfold is_digit. change (chr "0") with 48.
  change (chr "9") with 57. apply not_true_iff_false. intros H. bool_props.
  rewrite !orb_true_iff, !Z.eqb_eq in Hx. lia.
Qed.

Lemma c_string_id (s : bytes) : 0 ∉ s -> c_string s = s.
Proof.
  induction s as [|c s IH]; [done|]. rewrite not_elem_of_cons. intros [Hc Hs]. cbn.
  rewrite (proj2 (Z.eqb_neq c 0)) by done. by rewrite IH.
Qed.

Lemma quoted_parsed (s t p r : bytes) (cap : Z) (k : json_capture) : chars s t -> strlen s < cap ->
  j_parse_string cap (Ctx (34 :: t ++ 34 :: r) p k) = Some (s, Ctx r p k).
Proof.
  intros Hc Hl. unfold j_parse_string. cbn [jc_rest Z.eqb Pos.eqb]. by rewrite (string_parsed s t [] r cap).
Qed.

Lemma path_set_join (p key : bytes) (t : bytes) (k : json_capture) : strlen (join p key) < CC_JSON_PATH_MAX ->
  j_path_set key (strlen p) (Ctx t p k) = Some (Ctx t (join p key) k).
Proof.
  intros Hl. unfold j_path_set, with_path, CC_JSON_PATH_MAX in *. cbn [jc_rest jc_path jc_cap].
  unfold strlen at 4. rewrite Nat2Z.id, firstn_all. destruct p as [|c p].
  - cbn [join] in *. change (strlen []) with 0. cbn [Z.ltb Z.compare app]. by rewrite (proj2 (Z.ltb_ge _ _)) by lia.
  - assert (0 < strlen (c :: p)) by (unfold strlen; cbn; lia).
    unfold join in *. change (chr "." :: key) with ([chr "."] ++ key) in *. rewrite !strlen_app in Hl.
    change (strlen [chr "."]) with 1 in Hl. rewrite (proj2 (Z.ltb_lt 0 _)) by done.
    by rewrite (proj2 (Z.ltb_ge _ _)) by lia.
Qed.

Lemma path_cut_parent (p : bytes) (t : bytes) (k : json_capture) (q : bytes) :
  j_path_cut (strlen p) (Ctx t (p ++ q) k) = Ctx t p k.
Proof. unfold j_path_cut, with_path, strlen. cbn. by rewrite Nat2Z.id, take_app_length. Qed.

Lemma join_prefix (p key : bytes) : exists q, join p key = p ++ q.
Proof. destruct p; cbn; eauto. Qed.

(** The items of an array that is captured. *)
Lemma captured_items (l : list jval) (t : bytes) : items l t -> forall f p k r n,
  Forall (fun j => exists s, j = JStr s /\ short s) l -> (3 * length t + 4 <= f)%nat ->
  Z.of_nat (length (jc_out_arr k) + length l) <= tg_arr_max tg ->
  j_array_loop tg f true (Ctx (t ++ 93 :: r) p k) n =
    Some (Ctx r p (Capture (jc_captured k) (jc_out k) (jc_out_int k) (jc_out_arr k ++ strings_of l))).
Proof.
  assert (forall s t w1 w2 c u p k, ws w1 -> ws w2 -> spells (JStr s) t -> short s -> is_json_ws c = false ->
    exists c', j_skip_ws (Ctx (w1 ++ t ++ w2 ++ c :: u) p k) = c' /\
      j_parse_string CC_CTR_DIGEST_MAX c' = Some (s, Ctx (w2 ++ c :: u) p k) /\
      forall k', j_skip_ws (Ctx (w2 ++ c :: u) p k') = Ctx (c :: u) p k') as Hs.
  { intros s t0 w1 w2 c u p k H1 H2 Ht [Hl _] Hc. inversion Ht; subst. eexists. split; [|split].
    - by rewrite skip_ws_app.
    - rewrite <- app_comm_cons, <- app_assoc. apply quoted_parsed; [done|].
      unfold CC_JSON_PATH_MAX, CC_CTR_DIGEST_MAX in *. lia.
    - intros k'. by rewrite skip_ws_app. }
  induction 1 as [w1 w2 j t H1 H2 Ht|w1 w2 j t l u H1 H2 Ht Hu IH]; intros f p k r n [(s & -> & Hq) Hl]%Forall_cons Hf Hm;
    (destruct f as [|f]; [lia|]); rewrite <- !app_assoc; cbn [j_array_loop length] in *.
  - destruct (Hs s t w1 w2 93 r p k H1 H2 Ht Hq eq_refl) as (c' & -> & -> & Hw). cbn [jc_cap].
    rewrite (proj2 (Z.leb_gt _ _)) by lia. unfold with_cap. cbn [jc_rest jc_path jc_cap]. rewrite Hw.
    cbn. by rewrite c_string_id by apply Hq.
  - rewrite <- app_comm_cons.
    destruct (Hs s t w1 w2 comma (u ++ 93 :: r) p k H1 H2 Ht Hq eq_refl) as (c' & -> & -> & Hw). cbn [jc_cap].
    rewrite (proj2 (Z.leb_gt _ _)) by lia. unfold with_cap. cbn [jc_rest jc_path jc_cap]. rewrite Hw.
    unfold with_rest. cbn [jc_rest jc_path jc_cap]. rewrite Z.eqb_refl.
    rewrite !length_app in Hf. cbn [length] in Hf. rewrite IH; [|done|lia|cbn; rewrite length_app; cbn; lia].
    cbn. rewrite c_string_id by apply Hq. by rewrite <- app_assoc.
Qed.

(** Strings and arrays are not looked for together. *)
Hypothesis one_target : tg_str tg = None \/ tg_arr tg = None.

(** A captured array notes its strings once: its items add nothing. *)
Lemma captured_notes (p : bytes) (l : list jval) (k : json_capture) :
  wanted p (tg_arr tg) = true -> Forall (fun j => exists s, j = JStr s) l -> notes (concat (map (nodes p) l)) k = k.
Proof.
  intros Hw. assert (tg_str tg = None) as Hn by (destruct one_target as [|H]; [done|by rewrite H in Hw]).
  induction 1 as [|j l [s ->] _ IH]; [done|]. cbn [map concat nodes app notes fold_left].
  unfold note at 2. cbn [fst snd]. rewrite Hn. exact IH.
Qed.

Definition parses_value (j : jval) (t : bytes) : Prop :=
  forall f w r p k, (3 * length t + 3 <= f)%nat -> ws w -> ends_number r ->
    Forall node_ok (nodes p j) -> room (nodes p j) k ->
    j_parse_value tg f (Ctx (w ++ t ++ r) p k) = Some (Ctx r p (notes (nodes p j) k)).

Definition parses_items (l : list jval) (t : bytes) : Prop :=
  forall f r p k, (3 * length t + 4 <= f)%nat ->
    Forall node_ok (concat (map (nodes p) l)) -> room (concat (map (nodes p) l)) k ->
    j_array_loop tg f false (Ctx (t ++ 93 :: r) p k) (strlen p) =
      Some (Ctx r p (notes (concat (map (nodes p) l)) k)).

Definition parses_members (ms : list (bytes * jval)) (t : bytes) : Prop :=
  forall f r p k, let ns := concat (map (fun m => nodes (join p m.1) m.2) ms) in
    (3 * length t + 4 <= f)%nat ->
    Forall (fun m => short m.1 /\ strlen (join p m.1) < CC_JSON_PATH_MAX) ms ->
    Forall node_ok ns -> room ns k ->
    j_object_loop tg f (Ctx (t ++ 125 :: r) p k) = Some (Ctx r p (notes ns k)).

Ltac at_value f := destruct f as [|f]; [cbn in *; lia|]; cbn [j_parse_value]; rewrite skip_ws_app by done.

Lemma literal_parsed (j : jval) (t : bytes) :
  (j, t) ∈ [(JNull, lit "null"); (JBool true, lit "true"); (JBool false, lit "false")] -> parses_value j t.
Proof.
  intros Hj f w r p k Hf Hw _ _ _.
  rewrite !elem_of_cons, elem_of_nil in Hj. destruct Hj as [E|[E|[E|[]]]]; simplify_eq; at_value f; done.
Qed.

Lemma number_value (neg : bool) (ds : bytes) : ds <> [] -> forallb is_digit ds = true ->
  parses_value (JInt (if neg then - decimal ds else decimal ds)) ((if neg then [chr "-"] else []) ++ ds).
Proof.
  intros Hn Hd f w r p k Hf Hw Hr Hok _. apply Forall_cons in Hok as [Hb _]. unfold node_ok in Hb. cbn [snd] in Hb.
  assert (0 <= decimal ds) by (by apply fold_decimal_ge). unfold decimal in *.
  destruct (spells_head _ _ (sp_int ds Hn Hd)) as (c & t & -> & Hc & _).
  assert (is_digit c = true) as Hdc by (cbn in Hd; by apply andb_true_iff in Hd as [-> _]).
  assert (48 <= c <= 57) by (unfold is_digit in Hdc; change (chr "0") with 48 in Hdc; change (chr "9") with 57 in Hdc; bool_props; lia).
  assert (forall v, Some (if j_path_matches (Ctx r p k) (tg_int tg) then with_cap (capture_int v) (Ctx r p k) else Ctx r p k) =
          Some (Ctx r p (notes (nodes p (JInt v)) k))) as Hfin.
  { intros v. cbn [nodes notes fold_left]. unfold note, j_path_matches, wanted. cbn [fst snd jc_path]. by destruct (tg_int tg) as [u|]; [destruct (streq p u)|]. }
  change (chr "-") with 45. destruct neg; cbn [app] in *; at_value f; unfold j_parse_number; cbn [jc_rest].
  - change ((45 =? chr "-") || is_digit 45) with true. change (starts_with (lit "-") (45 :: _)) with true.
    cbn [Z.eqb Pos.eqb drop]. change (c :: t ++ r) with ((c :: t) ++ r). rewrite number_parsed by (done || lia). apply Hfin.
  - rewrite !(proj2 (Z.eqb_neq c _)), Hdc, orb_true_r by lia. change (lit "-") with [45]. cbn [starts_with].
    rewrite (proj2 (Z.eqb_neq 45 c)) by lia. cbn [andb].
    change (c :: t ++ r) with ((c :: t) ++ r). rewrite number_parsed by (done || lia). apply Hfin.
Qed.

Lemma string_value (s t : bytes) : chars s t -> parses_value (JStr s) (34 :: t ++ [34]).
Proof.
  intros Hc f w r p k Hf Hw _ Hok _. apply Forall_cons in Hok as [[[Hl H0] Ht] _]. cbn [fst] in Ht.
  at_value f. cbn [app jc_rest Z.eqb Pos.eqb]. rewrite <- app_assoc. cbn [app]. rewrite (quoted_parsed s t) by done.
  cbn [nodes notes fold_left]. unfold note, wanted in *. cbn [fst snd]. unfold j_path_matches. cbn [jc_path].
  destruct (match tg_str tg with Some u => streq p u | None => false end); [|done].
  rewrite c_string_id by done. unfold copy_str. change (default [] (Some s)) with s. pose proof (strlen_nonneg s). specialize (Ht eq_refl).
  rewrite (proj2 (Z.eqb_neq (tg_out_cap tg) 0)), (proj2 (Z.ltb_ge (tg_out_cap tg) (strlen s + 1))) by lia. done.
Qed.

Lemma starts_with_head (c d : Z) (t : bytes) : c <> d -> starts_with [c] (d :: t) = false.
Proof. intros H. cbn. by rewrite (proj2 (Z.eqb_neq c d)) by done. Qed.

(** The first item or member is no closing bracket. *)
Lemma items_start (l : list jval) (t u p : bytes) (k : json_capture) : items l t ->
  starts_with [93] (jc_rest (j_skip_ws (Ctx (t ++ u) p k))) = false.
Proof.
  intros H. destruct H as [w1 w2 j t H1 H2 Ht|w1 w2 j t l v H1 H2 Ht Hl];
    destruct (spells_head j t Ht) as (c & t' & -> & Hc & H93 & _);
    rewrite <- app_assoc, skip_ws_app by done; by apply starts_with_head.
Qed.

Lemma members_start (ms : list (bytes * jval)) (t u p : bytes) (k : json_capture) : members ms t ->
  starts_with [125] (jc_rest (j_skip_ws (Ctx (t ++ u) p k))) = false.
Proof. intros H. destruct H; by rewrite <- app_assoc, skip_ws_app by done. Qed.

Lemma skip_ws_idem (c : json_ctx) : j_skip_ws (j_skip_ws c) = j_skip_ws c.
Proof.
  unfold j_skip_ws, with_rest. cbn [jc_rest jc_path jc_cap]. f_equal.
  induction (jc_rest c) as [|x t IH]; [done|]. cbn. destruct (is_json_ws x) eqn:E; [done|]. cbn. by rewrite E.
Qed.

Lemma array_loop_skip (f : nat) (capture : bool) (c : json_ctx) (n : Z) :
  j_array_loop tg f capture (j_skip_ws c) n = j_array_loop tg f capture c n.
Proof. destruct f; [done|]. cbn [j_array_loop]. by rewrite skip_ws_idem. Qed.

Lemma object_loop_skip (f : nat) (c : json_ctx) : j_object_loop tg f (j_skip_ws c) = j_object_loop tg f c.
Proof. destruct f; [done|]. cbn [j_object_loop]. by rewrite skip_ws_idem. Qed.

Lemma array_value (l : list jval) (t : bytes) : items l t -> parses_items l t -> parses_value (JArr l) (91 :: t ++ [93]).
Proof.
  intros Hi IH f w r p k Hf Hw _ Hok Hroom. cbn [length] in Hf. rewrite length_app in Hf. cbn [length] in Hf.
  at_value f. cbn [app jc_rest Z.eqb Pos.eqb]. destruct f as [|f]; [lia|]. cbn [j_parse_array jc_rest jc_path].
  rewrite <- app_assoc. cbn [app]. change (j_path_matches (Ctx ?x p k) ?y) with (wanted p y).
  cbn [nodes notes fold_left] in Hroom |- *. apply Forall_cons in Hok as [Hn Hok]. unfold node_ok in Hn. cbn [fst snd] in Hn.
  change (fold_left note ?ns ?k) with (notes ns k). unfold room in Hroom. cbn [notes fold_left] in Hroom.
  change (fold_left note ?ns ?k) with (notes ns k) in Hroom.
  unfold note in Hroom |- *. cbn [fst snd] in Hroom |- *. destruct (wanted p (tg_arr tg)) eqn:Ew.
  - unfold with_cap, with_rest. cbn [jc_rest jc_path jc_cap drop]. rewrite drop_0, items_start with (l := l), array_loop_skip by done.
    rewrite captured_notes in Hroom |- * by (done || auto). cbn [jc_out_arr] in Hroom. rewrite length_app in Hroom.
    assert (Forall (fun j => exists s, j = JStr s /\ short s) l /\ length (strings_of l) = length l) as [Hl El].
    { specialize (Hn eq_refl). clear -Hn Hok. induction Hn as [|j l [s ->] _ IHl]; [by split|].
      cbn [map concat nodes app] in Hok. apply Forall_cons in Hok as [[Hs _] Hok]. destruct (IHl Hok) as [H1 H2].
      split; [constructor; eauto|]. change (S (length (strings_of l)) = S (length l)). by rewrite H2. }
    rewrite (captured_items l t Hi); [done|done|lia|cbn; lia].
  - unfold with_rest. cbn [jc_rest jc_path jc_cap drop]. rewrite drop_0, items_start with (l := l), array_loop_skip by done.
    apply IH; [lia|done|done].
Qed.

Lemma object_value (ms : list (bytes * jval)) (t : bytes) : members ms t -> parses_members ms t ->
  parses_value (JObj ms) (123 :: t ++ [125]).
Proof.
  intros Hi IH f w r p k Hf Hw _ Hok Hroom. cbn [length] in Hf. rewrite length_app in Hf. cbn [length] in Hf.
  at_value f. cbn [app jc_rest Z.eqb Pos.eqb]. destruct f as [|f]; [lia|]. cbn [j_parse_object jc_rest jc_path].
  rewrite <- app_assoc. cbn [app drop]. rewrite drop_0. unfold with_rest. cbn [jc_path jc_cap].
  apply Forall_cons in Hok as [[_ Hk] Hok]. cbn [fst] in Hk.
  rewrite members_start with (ms := ms), object_loop_skip by done. apply IH; [lia|done..].
Qed.

Lemma empty_array_value (w : bytes) : ws w -> parses_value (JArr []) (91 :: w ++ [93]).
Proof.
  intros Hv f w' r p k Hf Hw _ Hok Hroom. cbn [length] in Hf. rewrite length_app in Hf. cbn [length] in Hf.
  at_value f. cbn [app jc_rest Z.eqb Pos.eqb]. destruct f as [|f]; [lia|]. cbn [j_parse_array jc_rest jc_path].
  rewrite <- app_assoc. cbn [app]. change (j_path_matches (Ctx ?x p k) ?y) with (wanted p y).
  cbn [nodes map concat notes fold_left]. unfold note. cbn [fst snd strings_of omap list_omap]. rewrite app_nil_r.
  destruct (wanted p (tg_arr tg)); unfold with_cap, with_rest; cbn [jc_rest jc_path jc_cap drop]; rewrite drop_0;
    by rewrite skip_ws_app.
Qed.
(** A value between white space, up to the separator after it. *)
Lemma value_between (j : jval) (t w1 w2 u p : bytes) (c : Z) (k : json_capture) (f : nat) :
  ws w1 -> ws w2 -> parses_value j t -> is_digit c = false -> is_json_ws c = false -> (3 * length t + 3 <= f)%nat ->
  Forall node_ok (nodes p j) -> room (nodes p j) k ->
  j_parse_value tg f (Ctx (w1 ++ t ++ w2 ++ c :: u) p k) = Some (Ctx (w2 ++ c :: u) p (notes (nodes p j) k)) /\
  forall q k', j_skip_ws (Ctx (w2 ++ c :: u) q k') = Ctx (c :: u) q k'.
Proof.
  intros H1 H2 Hj Hd Hc Hf Hok Hr. split; [apply Hj; try done; by apply ws_ends_number|].
  intros q k'. by rewrite skip_ws_app.
Qed.

Lemma value_skip (f : nat) (c : json_ctx) : j_parse_value tg f (j_skip_ws c) = j_parse_value tg f c.
Proof. destruct f; [done|]. cbn [j_parse_value]. by rewrite skip_ws_idem. Qed.

Lemma path_cut_self (p t : bytes) (k : json_capture) : j_path_cut (strlen p) (Ctx t p k) = Ctx t p k.
Proof. pose proof (path_cut_parent p t k []) as H. by rewrite app_nil_r in H. Qed.

Ltac in_parts :=
  repeat match goal with
  | H : Forall node_ok (_ ++ _) |- _ => apply Forall_app in H as [? ?]
  | H : room (_ ++ _) _ |- _ => apply room_app in H as [? ?]
  end.

Lemma last_item (w1 w2 : bytes) (j : jval) (t : bytes) :
  ws w1 -> ws w2 -> parses_value j t -> parses_items [j] (w1 ++ t ++ w2).
Proof.
  intros H1 H2 Hj f r p k Hf Hok Hr. cbn [map concat] in *. rewrite app_nil_r in *. rewrite !length_app in Hf.
  destruct f as [|f]; [lia|]. rewrite <- !app_assoc. cbn [j_array_loop]. rewrite value_skip.
  destruct (value_between j t w1 w2 r p 93 k f) as [-> Hs]; try done; [lia|].
  rewrite path_cut_self, Hs. done.
Qed.

Lemma more_items (w1 w2 : bytes) (j : jval) (t : bytes) (l : list jval) (u : bytes) :
  ws w1 -> ws w2 -> parses_value j t -> parses_items l u -> parses_items (j :: l) (w1 ++ t ++ w2 ++ comma :: u).
Proof.
  intros H1 H2 Hj Hl f r p k Hf Hok Hr. cbn [map concat] in *. in_parts. rewrite !length_app in Hf. cbn [length] in Hf.
  destruct f as [|f]; [lia|]. rewrite <- !app_assoc. cbn [app j_array_loop]. rewrite value_skip.
  destruct (value_between j t w1 w2 (u ++ 93 :: r) p comma k f) as [-> Hs]; try done; [lia|].
  rewrite path_cut_self, Hs. cbn [jc_rest]. rewrite Z.eqb_refl, notes_app. apply Hl; [lia|done..].
Qed.

(** A key, its colon and its value. *)
Lemma member_between (w1 w2 w3 w4 key kt : bytes) (j : jval) (t u p : bytes) (c : Z) (k : json_capture) (f : nat) :
  ws w1 -> ws w2 -> ws w3 -> ws w4 -> chars key kt -> parses_value j t ->
  is_digit c = false -> is_json_ws c = false -> (3 * length t + 3 <= f)%nat ->
  short key -> strlen (join p key) < CC_JSON_PATH_MAX ->
  Forall node_ok (nodes (join p key) j) -> room (nodes (join p key) j) k ->
  j_object_loop tg (S f) (Ctx (w1 ++ 34 :: kt ++ 34 :: w2 ++ 58 :: w3 ++ t ++ w4 ++ c :: u) p k) =
    let c' := Ctx u p (notes (nodes (join p key) j) k) in
    if c =? comma then j_object_loop tg f c' else if c =? 125 then Some c' else None.
Proof.
  intros H1 H2 H3 H4 Hk Hj Hd Hc Hf [Hl H0] Hp Hok Hr. cbn [j_object_loop jc_path]. rewrite skip_ws_app by done.
  rewrite (quoted_parsed key kt) by done. rewrite skip_ws_app by done. cbn [jc_rest starts_with Z.eqb Pos.eqb andb].
  unfold with_rest at 1. cbn [jc_path jc_cap drop]. rewrite drop_0, c_string_id, path_set_join by done.
  destruct (value_between j t w3 w4 u (join p key) c k f) as [-> Hs]; try done.
  destruct (join_prefix p key) as [q ->]. rewrite path_cut_parent, skip_ws_app by done. done.
Qed.

Lemma last_member (w1 w2 w3 w4 key kt : bytes) (j : jval) (t : bytes) :
  ws w1 -> ws w2 -> ws w3 -> ws w4 -> chars key kt -> parses_value j t ->
  parses_members [(key, j)] (w1 ++ 34 :: kt ++ 34 :: w2 ++ 58 :: w3 ++ t ++ w4).
Proof.
  intros H1 H2 H3 H4 Hk Hj f r p k ns Hf [[Hs Hp] _]%Forall_cons Hok Hr. unfold ns in *. cbn [map concat fst snd] in *.
  rewrite app_nil_r in *. repeat (rewrite length_app in Hf; cbn [length] in Hf). destruct f as [|f]; [lia|].
  repeat (rewrite <- app_assoc; cbn [app]). rewrite (member_between w1 w2 w3 w4 key kt j t) by (done || lia). done.
Qed.

Lemma more_members (w1 w2 w3 w4 key kt : bytes) (j : jval) (t : bytes) (ms : list (bytes * jval)) (u : bytes) :
  ws w1 -> ws w2 -> ws w3 -> ws w4 -> chars key kt -> parses_value j t -> parses_members ms u ->
  parses_members ((key, j) :: ms) (w1 ++ 34 :: kt ++ 34 :: w2 ++ 58 :: w3 ++ t ++ w4 ++ comma :: u).
Proof.
  intros H1 H2 H3 H4 Hk Hj Hm f r p k ns Hf [[Hs Hp] Hms]%Forall_cons Hok Hr. unfold ns in *.
  cbn [map concat fst snd] in *. in_parts.
  repeat (rewrite length_app in Hf; cbn [length] in Hf). destruct f as [|f]; [lia|].
  repeat (rewrite <- app_assoc; cbn [app]). rewrite (member_between w1 w2 w3 w4 key kt j t) by (done || lia).
  cbv zeta. rewrite Z.eqb_refl, notes_app. apply Hm; [lia|done..].
Qed.

(** Every spelling of a document the extractor can take. *)
Lemma value_parsed (j : jval) (t : bytes) : spells j t -> parses_value j t.
Proof.
  revert j t. apply (spells_mut parses_value parses_items parses_members).
  - by apply literal_parsed; set_solver.
  - by apply literal_parsed; set_solver.
  - by apply literal_parsed; set_solver.
  - intros ds. apply (number_value false).
  - intros ds. apply (number_value true).
  - intros. by apply string_value.
  - apply empty_array_value.
  - intros. by apply array_value.
  - intros w _ f w' r p k _ _ _ [[H _] _]%Forall_cons. done.
  - intros. by apply object_value.
  - intros. by apply last_item.
  - intros. by apply more_items.
  - intros. by apply last_member.
  - intros. by apply more_members.
Qed.
Lemma walk_spelled (j : jval) (w t w' : bytes) : ws w -> ws w' -> spells j t -> Forall node_ok (nodes [] j) ->
  let k := notes (nodes [] j) (Capture false None None []) in
  Z.of_nat (length (jc_out_arr k)) <= tg_arr_max tg ->
  json_walk tg (w ++ t ++ w') = Some (Ctx w' [] k).
Proof.
  cbv zeta. intros Hw Hw' Ht Hok Hr. unfold json_walk. apply (value_parsed j t Ht); try done.
  - unfold j_fuel. rewrite !length_app. lia.
  - destruct w' as [|c w']; [done|]. by apply (ws_ends_number (c :: w') [] 0) in Hw'.
Qed.

End Captures.

(** ** Cut texts

    A text that is parsed is parsed in the same way when more follows, as long
    as the parser saw where its last value ended. *)

Section Extension.
Context (tg : json_targets).

Definition ext (x : bytes) (c : json_ctx) : json_ctx := Ctx (jc_rest c ++ x) (jc_path c) (jc_cap c).

Lemma skip_ext (x : bytes) (c : json_ctx) : jc_rest (j_skip_ws c) <> [] -> j_skip_ws (ext x c) = ext x (j_skip_ws c).
Proof.
  unfold j_skip_ws, ext, with_rest. cbn [jc_rest jc_path jc_cap]. intros H. f_equal.
  induction (jc_rest c) as [|ch t IH]; [done|]. cbn in H |- *. destruct (is_json_ws ch); [by apply IH|done].
Qed.

Lemma string_loop_ext (x : bytes) (cap : Z) (s r : bytes) (n : nat) : forall t out, (length t < n)%nat ->
  j_string_loop t out cap = Some (s, r) -> r <> [] -> j_string_loop (t ++ x) out cap = Some (s, r ++ x).
Proof.
  induction n as [|n IH]; intros t out Hn H Hr; [lia|].
  destruct t as [|ch t]; cbn [app j_string_loop length] in *.
  { destruct (_ <? _); simplify_eq. }
  destruct (ch =? 34); [destruct (_ <? _); by simplify_eq|]. destruct (ch =? 92).
  - destruct t as [|e t]; [done|]. cbn [app length] in *. destruct (e =? chr "u").
    + destruct t as [|a [|b [|y [|d t]]]]; try done. cbn [app length] in *.
      destruct (j_hex a), (j_hex b), (j_hex y), (j_hex d); try done.
      destruct (j_put _ _ _); [|done]. apply IH; [lia|done..].
    + destruct (unescape e); [|done]. destruct (j_put _ _ _); [|done]. apply IH; [lia|done..].
  - destruct (j_put _ _ _); [|done]. apply IH; [lia|done..].
Qed.

Lemma parse_string_ext (x : bytes) (cap : Z) (c c' : json_ctx) (s : bytes) :
  j_parse_string cap c = Some (s, c') -> jc_rest c' <> [] -> j_parse_string cap (ext x c) = Some (s, ext x c').
Proof.
  unfold j_parse_string, ext. cbn [jc_rest jc_path jc_cap]. destruct (jc_rest c) as [|ch t]; [done|]. cbn [app].
  destruct (ch =? 34); [|done]. destruct (j_string_loop t [] cap) as [[s0 r]|] eqn:E; [|done]. intros. simplify_eq.
  cbn [with_rest jc_rest] in *. by rewrite (string_loop_ext x cap s r (S (length t)) t []) by (done || lia).
Qed.

Lemma number_loop_ext (x : bytes) (t r : bytes) (v v' : Z) :
  j_number_loop t v = Some (v', r) -> r <> [] -> j_number_loop (t ++ x) v = Some (v', r ++ x).
Proof.
  revert v. induction t as [|ch t IH]; intros v H Hr; cbn [app j_number_loop] in *; [by simplify_eq|].
  destruct (is_digit ch); [|by simplify_eq]. destruct (_ <? v); [done|]. by apply IH.
Qed.

Lemma parse_number_ext (x : bytes) (c c' : json_ctx) (v : Z) : jc_rest c <> [] ->
  j_parse_number c = Some (v, c') -> jc_rest c' <> [] -> j_parse_number (ext x c) = Some (v, ext x c').
Proof.
  unfold j_parse_number, ext. cbn [jc_rest jc_path jc_cap]. destruct (jc_rest c) as [|ch t]; [done|]. intros _.
  change (lit "-") with [45]. cbn [app starts_with]. destruct ((45 =? ch) && true); cbn [drop]; rewrite ?drop_0.
  all: destruct (j_number_loop _ 0) as [[v0 r]|] eqn:E; [|done]; intros; simplify_eq; cbn [with_rest jc_rest] in *;
    apply (number_loop_ext x) in E; [|done]; cbn [app] in E; by rewrite E.
Qed.

(** [parse] with more fuel on a longer text. *)
Definition extends (parse : nat -> json_ctx -> option json_ctx) (ok : json_ctx -> json_ctx -> Prop) (f : nat) : Prop :=
  forall f' c c' x, (f <= f')%nat -> parse f c = Some c' -> ok c c' -> parse f' (ext x c) = Some (ext x c').

Definition opens (c : json_ctx) : Prop := head (jc_rest (j_skip_ws c)) = Some 123 \/ head (jc_rest (j_skip_ws c)) = Some 91.

Abbreviation some_start := (fun c _ => jc_rest c <> []).
Abbreviation seen_end := (fun c c' => jc_rest c' <> [] \/ opens c).

Lemma drop_ext (x : bytes) (c : json_ctx) : jc_rest c <> [] ->
  with_rest (drop 1 (jc_rest (ext x c))) (ext x c) = ext x (with_rest (drop 1 (jc_rest c)) c).
Proof. destruct c as [[|ch t] p k]; [done|]. by cbn. Qed.

Lemma starts_ext (x : bytes) (d : Z) (c : json_ctx) : jc_rest c <> [] ->
  starts_with [d] (jc_rest (ext x c)) = starts_with [d] (jc_rest c).
Proof. by destruct c as [[|ch t] p k]. Qed.

Lemma object_loop_start (f : nat) (c c' : json_ctx) :
  j_object_loop tg f c = Some c' -> jc_rest (j_skip_ws c) <> [].
Proof.
  destruct f; [done|]. cbn [j_object_loop]. unfold j_parse_string. by destruct (jc_rest (j_skip_ws c)).
Qed.

Lemma value_start (f : nat) (c c' : json_ctx) : j_parse_value tg f c = Some c' -> jc_rest (j_skip_ws c) <> [].
Proof. destruct f; [done|]. cbn [j_parse_value]. by destruct (jc_rest (j_skip_ws c)). Qed.

Lemma array_loop_start (f : nat) (b : bool) (c c' : json_ctx) (n : Z) :
  j_array_loop tg f b c n = Some c' -> jc_rest (j_skip_ws c) <> [].
Proof.
  destruct f; [done|]. cbn [j_array_loop]. intros H E. destruct b.
  - unfold j_parse_string in H. by rewrite E in H.
  - destruct (j_parse_value tg f _) eqn:Ev; [|done]. apply value_start in Ev. rewrite skip_ws_idem in Ev. done.
Qed.

Lemma object_extends (f : nat) :
  extends (j_object_loop tg) (fun _ _ => True) f -> extends (j_parse_object tg) some_start (S f).
Proof.
  intros IH f' c c' x Hf H Hc. destruct f' as [|f']; [lia|]. cbn [j_parse_object] in *. rewrite drop_ext by done.
  set (c0 := with_rest _ c) in *. assert (jc_rest (j_skip_ws c0) <> []) as Hs.
  { intros E. rewrite E in H. cbn in H. apply object_loop_start in H. rewrite skip_ws_idem in H. done. }
  rewrite skip_ext, starts_ext by done. destruct (starts_with [125] _); [by simplify_eq|].
  apply (IH f' (j_skip_ws c0) c' x); [lia|done..].
Qed.

Lemma array_extends (f : nat) (n : Z) :
  (forall b, extends (fun f c => j_array_loop tg f b c n) (fun _ _ => True) f) ->
  extends (fun f c => j_parse_array tg f c n) some_start (S f).
Proof.
  intros IH f' c c' x Hf H Hc. destruct f' as [|f']; [lia|]. cbn [j_parse_array] in *.
  change (j_path_matches (ext x c) (tg_arr tg)) with (j_path_matches c (tg_arr tg)).
  set (b := j_path_matches c (tg_arr tg)) in *. set (c1 := if b then with_cap capture_found c else c) in *.
  assert ((if b then with_cap capture_found (ext x c) else ext x c) = ext x c1) as -> by (by unfold c1; destruct b).
  assert (jc_rest c1 <> []) by (by unfold c1; destruct b). rewrite drop_ext by done.
  set (c0 := with_rest _ c1) in *. assert (jc_rest (j_skip_ws c0) <> []) as Hs.
  { intros E. rewrite E in H. cbn in H. apply array_loop_start in H. rewrite skip_ws_idem in H. done. }
  rewrite skip_ext, starts_ext by done. destruct (starts_with [93] _); [rewrite drop_ext by done; by simplify_eq|].
  apply (IH b f' (j_skip_ws c0) c' x); [lia|done..].
Qed.

(** After a value: a separator or the closing bracket. *)
Lemma after_value_ext (x : bytes) (c : json_ctx) (close : Z) (loop loop' : json_ctx -> option json_ctx) (c' : json_ctx) :
  (forall d d', loop d = Some d' -> loop' (ext x d) = Some (ext x d')) ->
  match jc_rest (j_skip_ws c) with
  | ch :: t => if ch =? comma then loop (with_rest t (j_skip_ws c))
               else if ch =? close then Some (with_rest t (j_skip_ws c)) else None
  | [] => None
  end = Some c' ->
  jc_rest c <> [] /\
  match jc_rest (j_skip_ws (ext x c)) with
  | ch :: t => if ch =? comma then loop' (with_rest t (j_skip_ws (ext x c)))
               else if ch =? close then Some (with_rest t (j_skip_ws (ext x c))) else None
  | [] => None
  end = Some (ext x c').
Proof.
  intros Hl H. destruct (jc_rest (j_skip_ws c)) as [|ch t] eqn:E; [done|]. split.
  { intros E'. unfold j_skip_ws in E. rewrite E' in E. done. }
  rewrite skip_ext by (by rewrite E). unfold ext at 1. cbn [jc_rest]. rewrite E. cbn [app].
  destruct (ch =? comma); [by apply (Hl (with_rest t (j_skip_ws c)))|]. destruct (ch =? close); by simplify_eq.
Qed.

Lemma array_loop_extends (f : nat) (b : bool) (n : Z) :
  extends (j_parse_value tg) seen_end f -> (forall b, extends (fun f c => j_array_loop tg f b c n) (fun _ _ => True) f) ->
  extends (fun f c => j_array_loop tg f b c n) (fun _ _ => True) (S f).
Proof.
  intros IHv IHl f' c c' x Hf H _. assert (jc_rest (j_skip_ws c) <> []) as Hs by (by eapply array_loop_start).
  destruct f' as [|f']; [lia|]. cbn [j_array_loop] in H |- *. rewrite skip_ext by done.
  assert (forall d d', j_array_loop tg f b d n = Some d' -> j_array_loop tg f' b (ext x d) n = Some (ext x d')) as Hl
    by (intros d d' Hd; apply (IHl b f' d d' x); [lia|done..]).
  assert (Hafter := fun c1 => after_value_ext x c1 93 (fun d => j_array_loop tg f b d n) (fun d => j_array_loop tg f' b d n) c' Hl).
  destruct b.
  - destruct (j_parse_string _ _) as [[e c1]|] eqn:E; [|done].
    destruct (_ <=? _) eqn:Em; [done|]. destruct (Hafter _ H) as [Hr H'].
    rewrite (parse_string_ext x _ _ c1 e) by done. cbn [jc_cap ext]. rewrite Em. exact H'.
  - destruct (j_parse_value tg f _) as [c1|] eqn:E; [|done].
    destruct (Hafter _ H) as [Hr H']. rewrite (IHv f' _ c1 x) by (done || lia || by left). exact H'.
Qed.

Lemma path_set_ext (x key : bytes) (n : Z) (c c' : json_ctx) :
  j_path_set key n c = Some c' -> j_path_set key n (ext x c) = Some (ext x c').
Proof. unfold j_path_set. destruct (_ <? _); [done|]. intros. by simplify_eq. Qed.

Lemma object_loop_extends (f : nat) :
  extends (j_parse_value tg) seen_end f -> extends (j_object_loop tg) (fun _ _ => True) f ->
  extends (j_object_loop tg) (fun _ _ => True) (S f).
Proof.
  intros IHv IHl f' c c' x Hf H _. assert (jc_rest (j_skip_ws c) <> []) as Hs by (by eapply object_loop_start).
  destruct f' as [|f']; [lia|]. cbn [j_object_loop] in H |- *. rewrite skip_ext by done. cbn [ext jc_path].
  destruct (j_parse_string _ _) as [[key c1]|] eqn:Ek; [|done].
  destruct (starts_with [58] (jc_rest (j_skip_ws c1))) eqn:Ec; [|done].
  assert (jc_rest (j_skip_ws c1) <> []) as Hs1 by (intros E; by rewrite E in Ec).
  assert (jc_rest c1 <> []) by (intros E; unfold j_skip_ws in Hs1; by rewrite E in Hs1).
  rewrite (parse_string_ext x _ _ c1 key) by done. rewrite skip_ext, starts_ext, Ec, drop_ext by done.
  destruct (j_path_set _ _ _) as [c2|] eqn:Ep; [|done]. rewrite (path_set_ext x _ _ _ c2) by done.
  destruct (j_parse_value tg f c2) as [c3|] eqn:Ev; [|done].
  assert (forall d d', j_object_loop tg f d = Some d' -> j_object_loop tg f' (ext x d) = Some (ext x d')) as Hl
    by (intros d d' Hd; apply (IHl f' d d' x); [lia|done..]).
  destruct (after_value_ext x _ 125 _ _ c' Hl H) as [Hr H'].
  rewrite (IHv f' c2 c3 x) by (done || lia || by left). exact H'.
Qed.

Lemma literal_ext (p t x : bytes) : starts_with p t = true ->
  starts_with p (t ++ x) = true /\ drop (length p) (t ++ x) = drop (length p) t ++ x.
Proof.
  intros (r & ->)%starts_with_spec. rewrite <- app_assoc, !drop_app_length. split; [|done].
  apply starts_with_spec. eauto.
Qed.

Lemma other_literal (p q t x : bytes) : head p <> head q -> p <> [] -> q <> [] -> starts_with p t = true ->
  starts_with q (t ++ x) = false.
Proof.
  destruct p as [|a p], q as [|b q], t as [|ch t]; try done. intros Hpq _ _ Hp. cbn in Hp |- *.
  apply andb_true_iff in Hp as [Ha%Z.eqb_eq _]. rewrite (proj2 (Z.eqb_neq b ch)); [done|]. intros ->. by subst.
Qed.

Lemma value_extends (f : nat) : extends (j_parse_object tg) some_start f ->
  (forall n, extends (fun f c => j_parse_array tg f c n) some_start f) -> extends (j_parse_value tg) seen_end (S f).
Proof.
  intros IHo IHa f' c c' x Hf H He. assert (jc_rest (j_skip_ws c) <> []) as Hs by (by eapply value_start).
  destruct f' as [|f']; [lia|]. cbn [j_parse_value] in H |- *. rewrite skip_ext by done. unfold opens in He.
  set (d := j_skip_ws c) in *. destruct (jc_rest d) as [|ch t] eqn:Ed; [done|].
  replace (jc_rest (ext x d)) with (ch :: t ++ x) by (unfold ext; cbn [jc_rest]; by rewrite Ed).
  assert (jc_rest d <> []) as Hd by (by rewrite Ed).
  destruct (ch =? 123) eqn:E1; [apply (IHo f' d c' x); [lia|done..]|].
  destruct (ch =? 91) eqn:E2; [apply (IHa _ f' d c' x); [lia|done..]|].
  assert (jc_rest c' <> []) as Hr.
  { destruct He as [He|He]; [done|]. cbn in He. destruct He; simplify_eq; done. }
  destruct (ch =? 34).
  { destruct (j_parse_string _ d) as [[v c1]|] eqn:Ev; [|done].
    assert (jc_rest c1 = jc_rest c') as Hc by (repeat case_match; by simplify_eq).
    rewrite (parse_string_ext x _ d c1 v) by (done || by rewrite Hc).
    change (j_path_matches (ext x c1) (tg_str tg)) with (j_path_matches c1 (tg_str tg)).
    destruct (j_path_matches c1 (tg_str tg)); [|by simplify_eq]. destruct (copy_str _ _); [|done]. by simplify_eq. }
  destruct ((ch =? chr "-") || is_digit ch).
  { destruct (j_parse_number d) as [[v c1]|] eqn:Ev; [|done].
    assert (jc_rest c1 = jc_rest c') as Hc by (repeat case_match; by simplify_eq).
    rewrite (parse_number_ext x d c1 v) by (done || by rewrite Hc).
    change (j_path_matches (ext x c1) (tg_int tg)) with (j_path_matches c1 (tg_int tg)).
    destruct (j_path_matches c1 (tg_int tg)); by simplify_eq. }
  change (ch :: t ++ x) with ((ch :: t) ++ x).
  destruct (starts_with (lit "true") (ch :: t)) eqn:Et.
  { destruct (literal_ext _ _ x Et) as [-> Hd']. change (drop 4 ((ch :: t) ++ x)) with (drop (length (lit "true")) ((ch :: t) ++ x)).
    rewrite Hd'. by simplify_eq. }
  destruct (starts_with (lit "false") (ch :: t)) eqn:Ef.
  { rewrite (other_literal (lit "false") (lit "true")) by done. destruct (literal_ext _ _ x Ef) as [-> Hd'].
    change (drop 5 ((ch :: t) ++ x)) with (drop (length (lit "false")) ((ch :: t) ++ x)). rewrite Hd'. by simplify_eq. }
  destruct (starts_with (lit "null") (ch :: t)) eqn:En; [|done].
  rewrite (other_literal (lit "null") (lit "true")), (other_literal (lit "null") (lit "false")) by done.
  destruct (literal_ext _ _ x En) as [-> Hd'].
  change (drop 4 ((ch :: t) ++ x)) with (drop (length (lit "null")) ((ch :: t) ++ x)). rewrite Hd'. by simplify_eq.
Qed.

Lemma all_extend (f : nat) :
  extends (j_parse_value tg) seen_end f /\ extends (j_parse_object tg) some_start f /\
  extends (j_object_loop tg) (fun _ _ => True) f /\ (forall n, extends (fun f c => j_parse_array tg f c n) some_start f) /\
  (forall b n, extends (fun f c => j_array_loop tg f b c n) (fun _ _ => True) f).
Proof.
  induction f as [|f (IHv & IHo & IHol & IHa & IHal)]; [by split_and!; repeat intros ?|]. split_and!.
  - by apply value_extends.
  - by apply object_extends.
  - by apply object_loop_extends.
  - intros n. apply array_extends. auto.
  - intros b n. apply array_loop_extends; auto.
Qed.

(** What is left of a document without its end is refused. *)
Lemma walk_cut (j : jval) (w a b : bytes) : tg_str tg = None \/ tg_arr tg = None -> ws w -> spells j (a ++ b) -> b <> [] ->
  (exists ms, j = JObj ms) \/ (exists l, j = JArr l) -> Forall (node_ok tg) (nodes [] j) ->
  Z.of_nat (length (jc_out_arr (notes tg (nodes [] j) (Capture false None None [])))) <= tg_arr_max tg ->
  json_walk tg (w ++ a) = None.
Proof.
  intros H1 Hw Ht Hb Hj Hok Hr. destruct (json_walk tg (w ++ a)) as [c|] eqn:E; [exfalso|done].
  assert (a <> []) as Ha.
  { intros ->. unfold json_walk in E. apply value_start in E. apply E. rewrite skip_ws_app by done. done. }
  assert (head (jc_rest (j_skip_ws (Ctx (w ++ a) [] (Capture false None None [])))) = head (a ++ b)) as Hh.
  { destruct (spells_head j (a ++ b) Ht) as (ch & t & Et & Hc & _). destruct a as [|a0 a]; [done|].
    cbn in Et. simplify_eq. by rewrite skip_ws_app. }
  pose proof (walk_spelled tg H1 j w (a ++ b) [] Hw eq_refl Ht Hok Hr) as Hfull. unfold json_walk in *.
  destruct (all_extend (j_fuel (w ++ a))) as [Hext _].
  rewrite app_nil_r, app_assoc in Hfull.
  change (Ctx ((w ++ a) ++ b) ?p ?k) with (ext b (Ctx (w ++ a) p k)) in Hfull.
  rewrite (Hext (j_fuel ((w ++ a) ++ b)) _ c b) in Hfull; [| |done|].
  - unfold ext in Hfull. cbn in Hfull. simplify_eq. by destruct (jc_rest c), b.
  - unfold j_fuel. rewrite !length_app. lia.
  - right. unfold opens. rewrite Hh. destruct Hj as [[ms ->]|[l ->]]; inversion Ht; subst; auto.
Qed.

End Extension.

(** ** The three functions *)

(** The values of one kind at a path, in the order of the text. *)
Definition at_path {A} (pick : jval -> option A) (path : bytes) (j : jval) : list A :=
  omap (fun n => if streq n.1 path then pick n.2 else None) (nodes [] j).

Definition strings_at := at_path (fun j => match j with JStr s => Some s | _ => None end).
Definition ints_at := at_path (fun j => match j with JInt v => Some v | _ => None end).
Definition arrays_at := at_path (fun j => match j with JArr l => Some l | _ => None end).

(** What the extractor can take, whatever is looked for: no fractions, no
    empty objects, strings, keys and paths of at most 127 bytes. *)
Definition readable (j : jval) : Prop := Forall (node_ok (Targets None 0 None None 0)) (nodes [] j).

Lemma readable_str (j : jval) (path : cstring) (cap : Z) : readable j ->
  Forall (fun s => strlen s < cap) (strings_at path j) ->
  Forall (node_ok (Targets (Some path) cap None None 0)) (nodes [] j).
Proof.
  unfold readable, strings_at, at_path. induction 1 as [|[p v] ns Hn _ IH]; [done|]. intros Hs.
  assert (Forall (fun s => strlen s < cap) (omap (fun n : bytes * jval => if streq n.1 path then
    match n.2 with JStr s => Some s | _ => None end else None) ns)) as Hs'.
  { cbn in Hs. case_match; [by apply Forall_cons in Hs as [_ Hs]|done]. }
  constructor; [|by apply IH]. unfold node_ok in *. destruct v; try done.
  cbn [fst snd wanted tg_str] in *. destruct Hn as [Hn _]. split; [done|]. intros E. cbn in Hs. rewrite E in Hs.
  by apply Forall_cons in Hs as [Hs _].
Qed.

Lemma readable_int (j : jval) (path : cstring) : readable j ->
  Forall (node_ok (Targets None 0 (Some path) None 0)) (nodes [] j).
Proof. done. Qed.

Lemma readable_arr (j : jval) (path : cstring) (max : Z) : readable j ->
  Forall (Forall (fun x => exists s, x = JStr s)) (arrays_at path j) ->
  Forall (node_ok (Targets None 0 None (Some path) max)) (nodes [] j).
Proof.
  unfold readable, arrays_at, at_path. induction 1 as [|[p v] ns Hn _ IH]; [done|]. intros Hs.
  assert (Forall (Forall (fun x => exists s, x = JStr s)) (omap (fun n : bytes * jval => if streq n.1 path then
    match n.2 with JArr s => Some s | _ => None end else None) ns)) as Hs'.
  { cbn in Hs. case_match; [by apply Forall_cons in Hs as [_ Hs]|done]. }
  constructor; [|by apply IH]. unfold node_ok in *. destruct v; try done.
  cbn [fst snd wanted tg_arr] in *. intros E. cbn in Hs. rewrite E in Hs.
  by apply Forall_cons in Hs as [Hs _].
Qed.

(** One value against the path. *)
Ltac at_node p v path :=
  cbn [omap list_omap fst snd]; unfold note; cbn [fst snd]; unfold wanted; cbn [tg_str tg_int tg_arr];
  destruct v; try (destruct (streq p path); done); destruct (streq p path); [|done].

Lemma noted_str (ns : list (bytes * jval)) (path : cstring) (cap : Z) (k : json_capture) :
  let found := omap (fun n => if streq n.1 path then match n.2 with JStr s => Some s | _ => None end else None) ns in
  let k' := notes (Targets (Some path) cap None None 0) ns k in
  (jc_captured k', jc_out k') = match last found with Some s => (true, Some s) | None => (jc_captured k, jc_out k) end /\
  jc_out_arr k' = jc_out_arr k.
Proof.
  cbv zeta. revert k. induction ns as [|[p v] ns IH]; intros k; [done|]. cbn [notes fold_left].
  change (fold_left (note ?tg) ns ?k) with (notes tg ns k). destruct (IH (note (Targets (Some path) cap None None 0) k (p, v))) as [-> ->].
  at_node p v path. rewrite last_cons.
  split; [|done]. by destruct (last _).
Qed.

Lemma noted_int (ns : list (bytes * jval)) (path : cstring) (k : json_capture) :
  let found := omap (fun n => if streq n.1 path then match n.2 with JInt s => Some s | _ => None end else None) ns in
  let k' := notes (Targets None 0 (Some path) None 0) ns k in
  (jc_captured k', jc_out_int k') = match last found with Some v => (true, Some v) | None => (jc_captured k, jc_out_int k) end /\
  jc_out_arr k' = jc_out_arr k.
Proof.
  cbv zeta. revert k. induction ns as [|[p v] ns IH]; intros k; [done|]. cbn [notes fold_left].
  change (fold_left (note ?tg) ns ?k) with (notes tg ns k). destruct (IH (note (Targets None 0 (Some path) None 0) k (p, v))) as [-> ->].
  at_node p v path. rewrite last_cons.
  split; [|done]. by destruct (last _).
Qed.

Lemma noted_arr (ns : list (bytes * jval)) (path : cstring) (max : Z) (k : json_capture) :
  let found := omap (fun n => if streq n.1 path then match n.2 with JArr s => Some s | _ => None end else None) ns in
  let k' := notes (Targets None 0 None (Some path) max) ns k in
  jc_captured k' = jc_captured k || negb (length found =? 0)%nat /\
  jc_out_arr k' = jc_out_arr k ++ concat (map strings_of found).
Proof.
  cbv zeta. revert k. induction ns as [|[p v] ns IH]; intros k; cbn [notes fold_left].
  { cbn. by rewrite orb_false_r, app_nil_r. }
  change (fold_left (note ?tg) ns ?k) with (notes tg ns k). destruct (IH (note (Targets None 0 None (Some path) max) k (p, v))) as [-> ->].
  at_node p v path. cbn.
  by rewrite orb_true_r, <- app_assoc.
Qed.

Section Found.
Context (j : jval) (w t w' : bytes) (path : cstring).
Hypothesis blanks : ws w /\ ws w'.
Hypothesis spelled : spells j t.
Hypothesis Hread : readable j.

Lemma path_str_found (cap : Z) : Forall (fun s => strlen s < cap) (strings_at path j) ->
  json_path_str (w ++ t ++ w') path cap =
    match last (strings_at path j) with Some s => (0, Some s) | None => (1, None) end.
Proof.
  destruct blanks as [Hw Hw']. intros Hs. unfold json_path_str.
  destruct (noted_str (nodes [] j) path cap (Capture false None None [])) as [E1 E2].
  rewrite (walk_spelled (Targets (Some path) cap None None 0) (or_intror eq_refl) j w t w')
    by (done || by apply readable_str || by rewrite E2).
  cbn [path_result jc_cap]. unfold strings_at, at_path. revert E1. by destruct (last _); intros [= -> ->].
Qed.

Lemma path_int_found :
  json_path_int (w ++ t ++ w') path = match last (ints_at path j) with Some v => (0, Some v) | None => (1, None) end.
Proof.
  destruct blanks as [Hw Hw']. unfold json_path_int.
  destruct (noted_int (nodes [] j) path (Capture false None None [])) as [E1 E2].
  rewrite (walk_spelled (Targets None 0 (Some path) None 0) (or_introl eq_refl) j w t w') by (done || by rewrite E2).
  cbn [path_result jc_cap]. unfold ints_at, at_path. revert E1. by destruct (last _); intros [= -> ->].
Qed.

Lemma path_strs_found (max : Z) : Forall (Forall (fun x => exists s, x = JStr s)) (arrays_at path j) ->
  Z.of_nat (length (concat (map strings_of (arrays_at path j)))) <= max ->
  json_path_strs (w ++ t ++ w') path max =
    (if (length (arrays_at path j) =? 0)%nat then 1 else 0, concat (map strings_of (arrays_at path j))).
Proof.
  destruct blanks as [Hw Hw']. intros Ha Hm. unfold json_path_strs.
  destruct (noted_arr (nodes [] j) path max (Capture false None None [])) as [E1 E2].
  rewrite (walk_spelled (Targets None 0 None (Some path) max) (or_introl eq_refl) j w t w')
    by (done || by apply readable_arr || by rewrite E2).
  cbn [path_result jc_cap]. rewrite E1, E2. unfold arrays_at, at_path. cbn. by destruct (length _ =? 0)%nat.
Qed.

End Found.

(** Enough room for what is at the path. *)
Definition fits_path (path : cstring) (cap max : Z) (j : jval) : Prop :=
  Forall (fun s => strlen s < cap) (strings_at path j) /\
  Forall (Forall (fun x => exists s, x = JStr s)) (arrays_at path j) /\
  Z.of_nat (length (concat (map strings_of (arrays_at path j)))) <= max.


(** C35: a truncated document is not taken for a complete one, empty objects
    apart.  An object or array with the conditions of [json_paths_exact] (no
    empty object in it, no fractions, exponents or surrogate escapes, short
    strings, keys and paths, room for what is at the path), cut anywhere before
    its last byte, is a parse error for all three functions, whatever they look
    for.  (With an empty object a cut document can be accepted:
    [truncated_empty_object_accepted].) *)
Theorem truncated_json_refused (j : jval) (w a b : bytes) (path : cstring) (cap max : Z) :
  ws w -> spells j (a ++ b) -> b <> [] -> (exists ms, j = JObj ms) \/ (exists l, j = JArr l) ->
  readable j -> fits_path path cap max j ->
  json_path_str (w ++ a) path cap = (-1, None) /\ json_path_int (w ++ a) path = (-1, None) /\
  json_path_strs (w ++ a) path max = (-1, []).
Proof.
  intros Hw Ht Hb Hj Hr (Hs & Ha & Hm). unfold json_path_str, json_path_int, json_path_strs. split_and!.
  - destruct (noted_str (nodes [] j) path cap (Capture false None None [])) as [_ E].
    by rewrite (walk_cut _ j w a b) by (done || by right || by apply readable_str || by rewrite E).
  - destruct (noted_int (nodes [] j) path (Capture false None None [])) as [_ E].
    by rewrite (walk_cut _ j w a b) by (done || by left || by rewrite E).
  - destruct (noted_arr (nodes [] j) path max (Capture false None None [])) as [_ E].
    by rewrite (walk_cut _ j w a b) by (done || by left || by apply readable_arr || by rewrite E).
Qed.

(** The items of an array have its path. *)
Lemma nodes_items (j : jval) : forall p q l x, (q, JArr l) ∈ nodes p j -> x ∈ l -> (q, x) ∈ nodes p j.
Proof.
  assert (Hself : forall p x, (p, x) ∈ nodes p x) by (intros p x; destruct x; left).
  induction j as [|b|z| |s|l IH|ms IH] using jval_nested_ind; intros p q l' x; cbn [nodes];
    rewrite ?elem_of_cons; intros [E|Hin] Hx; try done; try (by apply elem_of_nil in Hin).
  - injection E as -> ->. right. rewrite list_elem_of_In, in_concat.
    exists (nodes p x). split; [by apply in_map, list_elem_of_In|by apply list_elem_of_In].
  - right. rewrite list_elem_of_In, in_concat in Hin |- *. destruct Hin as (ns & Hns & Hin).
    exists ns. split; [done|]. apply in_map_iff in Hns as (y & <- & Hy). rewrite Forall_forall in IH.
    apply list_elem_of_In, (IH y (proj2 (list_elem_of_In _ _) Hy) p q l' x); [by apply list_elem_of_In|done].
  - right. rewrite list_elem_of_In, in_concat in Hin |- *. destruct Hin as (ns & Hns & Hin).
    exists ns. split; [done|]. apply in_map_iff in Hns as (y & <- & Hy). rewrite Forall_forall in IH.
    apply list_elem_of_In, (IH y (proj2 (list_elem_of_In _ _) Hy) _ q l' x); [by apply list_elem_of_In|done].
Qed.

Lemma at_path_node {A} (pick : jval -> option A) (path : bytes) (j : jval) (a : A) :
  a ∈ at_path pick path j -> exists v, (path, v) ∈ nodes [] j /\ pick v = Some a.
Proof.
  unfold at_path. intros ([p v] & Hin & Ha)%list_elem_of_omap. cbn [fst snd] in Ha.
  destruct (streq p path) eqn:E; [|done]. apply streq_true in E as ->. eauto.
Qed.

(** Whatever is found is short. *)
Lemma strings_short (path : bytes) (j : jval) (s : bytes) : readable j -> s ∈ strings_at path j -> short s.
Proof.
  intros Hr (v & Hin & Hv)%at_path_node. destruct v; simplify_eq. unfold readable in Hr. rewrite Forall_forall in Hr.
  by destruct (Hr _ Hin) as [? _].
Qed.

Lemma items_short (path : bytes) (j : jval) (l : list jval) (s : bytes) : readable j -> l ∈ arrays_at path j ->
  JStr s ∈ l -> short s.
Proof.
  intros Hr (v & Hin & Hv)%at_path_node Hs. destruct v; simplify_eq. unfold readable in Hr. rewrite Forall_forall in Hr.
  by destruct (Hr _ (nodes_items j _ _ _ _ Hin Hs)) as [? _].
Qed.

(** ** Printed documents *)
Lemma j_hex_char (d : Z) : 0 <= d < 16 -> j_hex (hex_char d) = Some d.
Proof.
  intros Hd. pose proof (all_bytes (fun d => (16 <=? d) || bool_decide (j_hex (hex_char d) = Some d)) ltac:(by vm_compute) d
    ltac:(unfold byte_ok; lia)) as H. cbn beta in H. rewrite (proj2 (Z.leb_gt 16 d)) in H by lia. cbn [orb] in H.
  by apply bool_decide_eq_true in H.
Qed.

Lemma quoted_byte_chars (c : Z) (s t : bytes) : 0 <= c -> chars s t -> chars (c :: s) (quoted_byte c ++ t).
Proof.
  intros Hc Ht. unfold quoted_byte.
  repeat match goal with
  | |- context [if ?x =? ?k then _ else _] => destruct (Z.eqb_spec x k); [subst; by apply ch_escape|]
  end.
  destruct (Z.ltb_spec c 0x20).
  - assert (0 <= c / 16 < 16) by (split; [apply Z.div_pos; lia|apply Z.div_lt_upper_bound; lia]).
    pose proof (Z.mod_pos_bound c 16 ltac:(lia)).
    assert (((0 * 16 + 0) * 16 + c / 16) * 16 + c mod 16 = c) as E by (rewrite (Z.div_mod c 16) at 3 by lia; lia).
    pose proof (ch_unicode 48 48 (hex_char (c / 16)) (hex_char (c mod 16)) 0 0 (c / 16) (c mod 16) s t) as Hu.
    cbv zeta in Hu. rewrite E in Hu. unfold utf8 in Hu.
    rewrite (proj2 (Z.leb_gt 0x800 c)), (proj2 (Z.leb_gt 0x80 c)) in Hu by lia.
    apply Hu; try done; by apply j_hex_char || lia.
  - by apply ch_raw.
Qed.

Lemma quoted_spells (s : bytes) : text_ok s -> chars s (concat (map quoted_byte s)).
Proof. induction 1; [constructor|]. cbn [map concat]. by apply quoted_byte_chars. Qed.

Lemma render_items (l : list jval) : l <> [] -> Forall (fun j => spells j (render j)) l -> items l (commas (map render l)).
Proof.
  intros Hn. induction 1 as [|j l Hj Hl IH]; [done|]. destruct l as [|j' l].
  - cbn. rewrite <- (app_nil_r (render j)). by apply (it_last [] []).
  - cbn [map] in *. rewrite commas_cons by done. by apply (it_more [] [] j (render j)); [..|apply IH].
Qed.

Lemma render_members (ms : list (bytes * jval)) : ms <> [] ->
  Forall (fun m => text_ok m.1 /\ spells m.2 (render m.2)) ms ->
  members ms (commas (map (fun m => quoted m.1 ++ [58] ++ render m.2) ms)).
Proof.
  intros Hn. induction 1 as [|[k j] ms [Hk Hj] Hl IH]; [done|]. cbn [fst snd] in *.
  assert (forall r, (quoted k ++ [58] ++ render j) ++ r = [] ++ 34 :: concat (map quoted_byte k) ++ 34 :: [] ++ 58 :: [] ++ render j ++ r) as E.
  { intros r. unfold quoted. by rewrite <- !app_assoc. }
  destruct ms as [|m ms].
  - cbn [map commas fst snd]. rewrite <- (app_nil_r (quoted k ++ _)), E. apply mb_last; try done. by apply quoted_spells.
  - cbn [map fst snd] in *. rewrite commas_cons by done. rewrite E. apply (mb_more [] [] [] []); try done; [by apply quoted_spells|by apply IH].
Qed.

(** The printer of the reference reader spells what it prints. *)
Lemma render_spells (j : jval) : doc_ok j -> spells j (render j).
Proof.
  induction j as [|b|z| |s|l IH|ms IH] using jval_nested_ind; intros Hj.
  - constructor.
  - destruct b; constructor.
  - cbn [render doc_ok] in *. unfold fmt_i64. destruct (Z.ltb_spec z 0).
    + destruct (fmt_u64_digits (- z)) as (H1 & H2 & H3); [lia|]. replace z with (- decimal (fmt_u64 (- z))) at 1 by lia.
      by apply sp_neg.
    + destruct (fmt_u64_digits z) as (H1 & H2 & H3); [lia|]. replace z with (decimal (fmt_u64 z)) at 1 by lia. by apply sp_int.
  - done.
  - cbn [render]. unfold quoted. by apply sp_str, quoted_spells.
  - apply doc_ok_arr in Hj. cbn [render]. destruct l as [|x l]; [by apply (sp_arr_empty [])|].
    apply sp_arr, render_items; [done|]. rewrite !Forall_forall in *. auto.
  - apply doc_ok_obj in Hj. cbn [render]. destruct ms as [|x l]; [by apply (sp_obj_empty [])|].
    apply sp_obj, render_members; [done|]. rewrite !Forall_forall in *. naive_solver.
Qed.

(** ** A manifest *)

Definition sample_json : jval :=
  JObj [(lit "config", JObj [(lit "digest", JStr (lit "sha256:ab")); (lit "size", JInt (-7))]);
        (lit "layers", JArr [JObj [(lit "digest", JStr (lit "c"))]; JNull]);
        (lit "diff_ids", JArr [JStr (lit "a"); JStr (lit "b")])].

(** The check of [readable], executable. *)
Definition short_check (s : bytes) : bool := (strlen s <? CC_JSON_PATH_MAX) && forallb (fun c => negb (c =? 0)) s.

Definition node_check (n : bytes * jval) : bool :=
  match n.2 with
  | JStr s => short_check s
  | JInt v => (- INT64_MAX <=? v) && (v <=? INT64_MAX)
  | JObj ms => negb (length ms =? 0)%nat &&
               forallb (fun m => short_check m.1 && (strlen (join n.1 m.1) <? CC_JSON_PATH_MAX)) ms
  | _ => true
  end.

Lemma short_checked (s : bytes) : short_check s = true -> short s.
Proof.
  intros H. unfold short_check in H. bool_props. split; [done|]. rewrite forallb_forall in *.
  intros Hin. apply list_elem_of_In in Hin.
  match goal with H : forall x, _ |- _ => by specialize (H 0 Hin) end.
Qed.

Lemma readable_checked (j : jval) : forallb node_check (nodes [] j) = true -> readable j.
Proof.
  intros H. apply Forall_forall. intros [p v] Hin. rewrite forallb_forall in H.
  specialize (H (p, v) (proj1 (list_elem_of_In _ _) Hin)). unfold node_check in H. unfold node_ok. cbn [fst snd] in *.
  destruct v as [|b|z| |s|l|ms]; try done; bool_props; [lia|by split; [apply short_checked|]|].
  split; [by intros ->|]. apply Forall_forall. intros m Hm. rewrite forallb_forall in *.
  match goal with H : forall x, _ |- _ => specialize (H m (proj1 (list_elem_of_In _ _) Hm)) end. cbn beta in *. bool_props.
  split; [by apply short_checked|done].
Qed.

Lemma sample_readable : spells sample_json (render sample_json) /\ readable sample_json /\
  fits_path (lit "config.digest") 256 16 sample_json.
Proof.
  split_and!; [apply render_spells|by apply readable_checked; vm_compute|].
  - cbn [doc_ok sample_json fst snd]. repeat split; try lia;
      (eapply Forall_impl; [apply lit_bytes_ok|by intros c [? ?]]).
  - unfold fits_path. vm_compute. repeat (constructor || done).
Qed.


Lemma truncated_json_refused_witness :
  let a := take 40 (render sample_json) in
  json_path_str ([] ++ a) (lit "config.digest") 256 = (-1, None) /\ json_path_int ([] ++ a) (lit "config.digest") = (-1, None) /\
  json_path_strs ([] ++ a) (lit "config.digest") 16 = (-1, []).
Proof.
  destruct sample_readable as (Hs & Hr & Hf). cbv zeta.
  apply (truncated_json_refused sample_json [] (take 40 (render sample_json)) (drop 40 (render sample_json))
           (lit "config.digest") 256 16); [reflexivity|by rewrite take_drop|by vm_compute|left; by eexists|done|done].
Defined.

(** ** What the extractor takes for something else *)

(** Text with single quotes for double ones. *)
Definition doc (s : string) : bytes := map (fun c => if c =? 39 then 34 else c) (lit s).

(** An empty object does not consume its closing brace: the object around it
    is closed instead, and the members that follow move up one level.  Here
    the labels of an image pass for its layers. *)
Theorem empty_object_moves_members_up :
  json_path_strs (doc "{'config':{'Volumes':{},'rootfs':{'diff_ids':['sha256:other']}},'rootfs':{'diff_ids':['sha256:right']}}")
    (lit "rootfs.diff_ids") 16 = (0, [lit "sha256:other"]).
Proof. vm_compute. reflexivity. Qed.

(** For the same reason a document that lacks its last brace is accepted. *)
Theorem truncated_empty_object_accepted :
  json_path_str (doc "{'a':'x','b':{}") (lit "a") 128 = (0, Some (lit "x")).
Proof. vm_compute. reflexivity. Qed.

(** The escapes of U+1F600 are read as U+FFFD and an encoded low surrogate. *)
Theorem surrogate_pair_misread :
  json_path_str (doc "{'a':'\ud83d\ude00'}") (lit "a") 128 = (0, Some [0xEF; 0xBF; 0xBD; 0xED; 0xB8; 0x80]).
Proof. vm_compute. reflexivity. Qed.

(** An image that exposes a port has no layers. *)
Theorem exposed_port_hides_layers :
  json_path_strs (doc "{'config':{'ExposedPorts':{'1935/tcp':{}},'Cmd':['/m']},'rootfs':{'diff_ids':['sha256:right']}}")
    (lit "rootfs.diff_ids") 16 = (1, []).
Proof. vm_compute. reflexivity. Qed.

Lemma skip_none (c : Z) (t p : bytes) (k : json_capture) : is_json_ws c = false -> j_skip_ws (Ctx (c :: t) p k) = Ctx (c :: t) p k.
Proof. by apply (skip_ws_app [] (c :: t)). Qed.

Lemma string_too_long (n : nat) (out r : bytes) (cap : Z) : (1 <= n)%nat -> cap <= strlen out + Z.of_nat n ->
  j_string_loop (replicate n 97 ++ r) out cap = None.
Proof.
  revert out. induction n as [|n IH]; intros out Hn Hc; [lia|]. cbn [replicate app j_string_loop Z.eqb Pos.eqb].
  unfold j_put. change (strlen [97]) with 1. destruct (Z.leb_spec cap (strlen out + 1)); [done|].
  apply IH; [lia|]. rewrite strlen_app. change (strlen [97]) with 1. lia.
Qed.

(** A long string that is not looked for, such as a line of the build history,
    refuses the document. *)
Theorem long_string_refused (n : nat) (rest : bytes) (path : cstring) (max : Z) : (128 <= n)%nat ->
  json_path_strs (doc "{'created_by':'" ++ replicate n 97 ++ rest) path max = (-1, []).
Proof.
  intros Hn. unfold json_path_strs, json_walk. set (tg := Targets _ _ _ _ _). set (u := replicate n 97 ++ rest).
  assert (exists f, j_fuel (doc "{'created_by':'" ++ u) = S (S (S (S f)))) as [f ->]
    by (exists (3 * length u + 44)%nat; unfold j_fuel; rewrite length_app; change (length (doc _)) with 15%nat; lia).
  change (doc "{'created_by':'" ++ u) with (123 :: 34 :: lit "created_by" ++ 34 :: 58 :: 34 :: u).
  cbn [j_parse_value]. rewrite skip_none by done. cbn [jc_rest Z.eqb Pos.eqb j_parse_object].
  unfold with_rest. cbn [jc_rest jc_path jc_cap drop]. rewrite ?drop_0, skip_none by done.
  cbn [jc_rest starts_with Z.eqb Pos.eqb andb j_object_loop]. rewrite skip_none by done.
  assert (chars (lit "created_by") (lit "created_by")) as Hk by (repeat (apply ch_raw; [done..|]); constructor).
  rewrite (quoted_parsed _ _ _ _ _ _ Hk) by done. rewrite skip_none by done.
  unfold with_rest. cbn [jc_rest jc_path jc_cap starts_with Z.eqb Pos.eqb andb drop]. rewrite ?drop_0.
  rewrite (path_set_join [] (c_string (lit "created_by"))) by done.
  cbn [j_parse_value]. rewrite skip_none by done. cbn [jc_rest Z.eqb Pos.eqb]. unfold j_parse_string.
  cbn [jc_rest Z.eqb Pos.eqb]. unfold u. rewrite string_too_long; [done|lia|]. change (strlen []) with 0.
  unfold CC_JSON_PATH_MAX. lia.
Qed.
