(* ===== verification/CcCtr.v ===== *)
(** * The containerd operations of the alternate controller
    (core/controller/alternate/c/cc_ctr.c)

    An incremental SHA-256, the chain id of an image, and the operations on
    snapshots, containers and tasks as programs over unary gRPC calls. *)

From S2P Require Import Prelude Wire Controller Http HttpFacts Double Config DurationFacts EnvFile Json JsonFacts MiniPb Hash ClientChain CcSpec CcJson.

(** ** SHA-256, in pieces *)

Definition CC_SHA256_BLOCK : nat := 64.

(** The state words, the bytes seen, and the bytes of [buf] up to
    [buf_fill]. *)
Record cc_sha256 := Sha { sh_h : state8; sh_total : Z; sh_buf : bytes }.

(** The table, one literal per row of five words; the last row has four. *)
Definition cc_sha256_k : list Z := Eval vm_compute in
  concat (map (fun row => map (fun k => u32 (Z.shiftr row (32 * k))) [4; 3; 2; 1; 0])
    [0x428a2f9871374491b5c0fbcfe9b5dba53956c25b;
     0x59f111f1923f82a4ab1c5ed5d807aa9812835b01;
     0x243185be550c7dc372be5d7480deb1fe9bdc06a7;
     0xc19bf174e49b69c1efbe47860fc19dc6240ca1cc;
     0x2de92c6f4a7484aa5cb0a9dc76f988da983e5152;
     0xa831c66db00327c8bf597fc7c6e00bf3d5a79147;
     0x06ca63511429296727b70a852e1b21384d2c6dfc;
     0x53380d13650a7354766a0abb81c2c92e92722c85;
     0xa2bfe8a1a81a664bc24b8b70c76c51a3d192e819;
     0xd6990624f40e3585106aa07019a4c1161e376c08;
     0x2748774c34b0bcb5391c0cb34ed8aa4a5b9cca4f;
     0x682e6ff3748f82ee78a5636f84c878148cc70208]) ++
  row_words 0x90befffaa4506cebbef9a3f7c67178f2.

Definition cc_sha256_rotr (x n : Z) : Z := Z.lor (Z.shiftr x n) (shl32 x (32 - n)).

Definition cc_sha256_init : cc_sha256 :=
  Sha (0x6a09e667, 0xbb67ae85, 0x3c6ef372, 0xa54ff53a, 0x510e527f, 0x9b05688c, 0x1f83d9ab, 0x5be0cd19) 0 [].

(** The array [w]. *)
Definition cc_sha256_schedule (p : bytes) : list Z :=
  fold_left (fun w i =>
      let s0 := Z.lxor (Z.lxor (cc_sha256_rotr (at_ w (i - 15)) 7) (cc_sha256_rotr (at_ w (i - 15)) 18))
                  (Z.shiftr (at_ w (i - 15)) 3) in
      let s1 := Z.lxor (Z.lxor (cc_sha256_rotr (at_ w (i - 2)) 17) (cc_sha256_rotr (at_ w (i - 2)) 19))
                  (Z.shiftr (at_ w (i - 2)) 10) in
      w ++ [u32 (at_ w (i - 16) + s0 + at_ w (i - 7) + s1)])
    (seq 16 48) (map (be32_load p) (seq 0 16)).

Definition cc_sha256_round (w : list Z) (s : state8) (i : nat) : state8 :=
  let '(a, b, c, d, e, f, g, h) := s in
  let S1 := Z.lxor (Z.lxor (cc_sha256_rotr e 6) (cc_sha256_rotr e 11)) (cc_sha256_rotr e 25) in
  let ch := Z.lxor (Z.land e f) (Z.land (not32 e) g) in
  let S0 := Z.lxor (Z.lxor (cc_sha256_rotr a 2) (cc_sha256_rotr a 13)) (cc_sha256_rotr a 22) in
  let maj := Z.lxor (Z.lxor (Z.land a b) (Z.land a c)) (Z.land b c) in
  let t1 := u32 (h + S1 + ch + at_ cc_sha256_k i + at_ w i) in
  let t2 := u32 (S0 + maj) in
  (u32 (t1 + t2), a, b, c, u32 (d + t1), e, f, g).

Definition cc_sha256_block (h : state8) (p : bytes) : state8 :=
  let w := cc_sha256_schedule p in
  let '(h0, h1, h2, h3, h4, h5, h6, h7) := h in
  let '(a, b, c, d, e, f, g, hh) := fold_left (cc_sha256_round w) (seq 0 64) h in
  (u32 (h0 + a), u32 (h1 + b), u32 (h2 + c), u32 (h3 + d), u32 (h4 + e), u32 (h5 + f), u32 (h6 + g), u32 (h7 + hh)).

(** The loop of cc_sha256_update; every round takes a byte or more. *)
Fixpoint cc_sha256_feed (fuel : nat) (s : cc_sha256) (p : bytes) : cc_sha256 :=
  match fuel, p with
  | O, _ | _, [] => s
  | S f, _ =>
      let n := Nat.min (CC_SHA256_BLOCK - length (sh_buf s)) (length p) in
      let buf := sh_buf s ++ take n p in
      let s := if (length buf =? CC_SHA256_BLOCK)%nat
               then Sha (cc_sha256_block (sh_h s) buf) (sh_total s) [] else Sha (sh_h s) (sh_total s) buf in
      cc_sha256_feed f s (drop n p)
  end.

Definition cc_sha256_update (s : cc_sha256) (data : bytes) : cc_sha256 :=
  cc_sha256_feed (length data) (Sha (sh_h s) (u64 (sh_total s + strlen data)) (sh_buf s)) data.

(** [while (s->buf_fill != 56) cc_sha256_update(s, &zero, 1);]: at most 63
    rounds. *)
Fixpoint cc_sha256_zeros (fuel : nat) (s : cc_sha256) : cc_sha256 :=
  match fuel with
  | O => s
  | S f => if (length (sh_buf s) =? 56)%nat then s else cc_sha256_zeros f (cc_sha256_update s [0])
  end.

Definition cc_sha256_final (s : cc_sha256) : bytes :=
  let bits := u64 (sh_total s * 8) in
  let s := cc_sha256_zeros 64 (cc_sha256_update s [0x80]) in
  let lenb := map (fun i => u8 (Z.shiftr bits (56 - i * 8))) [0; 1; 2; 3; 4; 5; 6; 7] in
  let '(h0, h1, h2, h3, h4, h5, h6, h7) := sh_h (cc_sha256_update s lenb) in
  concat (map be32_store [h0; h1; h2; h3; h4; h5; h6; h7]).

(** ** The digest is that of FIPS 180-4 *)
Lemma cc_schedule_fips (p : bytes) : cc_sha256_schedule p = sha256_schedule p.
Proof.
  unfold cc_sha256_schedule, sha256_schedule. apply fold_left_ext. intros w i. do 3 f_equal.
  unfold SIG2, SIG3. change cc_sha256_rotr with ROTR. lia.
Qed.

Lemma cc_block_fips (h : state8) (p : bytes) : cc_sha256_block h p = sha256_block h p.
Proof.
  unfold cc_sha256_block, sha256_block. rewrite cc_schedule_fips.
  replace (fold_left (cc_sha256_round (sha256_schedule p)) (seq 0 64) h)
    with (fold_left (sha256_round (sha256_schedule p)) (seq 0 64) h); [done|].
  apply fold_left_ext. intros [[[[[[[a b] c] d] e] f] g] hh] i. unfold cc_sha256_round, sha256_round.
  change cc_sha256_k with sha256_k. reflexivity.
Qed.

(** The state after the bytes [m]. *)
Definition absorbed (s : cc_sha256) (m : bytes) : Prop :=
  sh_h s = fold_left sha256_block (blocks (length m / 64) m) sha256_init /\
  sh_buf s = drop (64 * (length m / 64)) m /\ sh_total s = u64 (strlen m).

Lemma blocks_prefix (n : nat) (a b : bytes) : (64 * n <= length a)%nat -> blocks n (a ++ b) = blocks n a.
Proof.
  revert a. induction n as [|n IH]; intros a Hn; [done|]. cbn [blocks].
  rewrite take_app_le, drop_app_le by lia. rewrite IH; [done|]. rewrite length_drop. lia.
Qed.

Lemma blocks_snoc (n : nat) (m : bytes) : blocks (S n) m = blocks n m ++ [take 64 (drop (64 * n) m)].
Proof.
  revert m. induction n as [|n IH]; intros m; [done|].
  change (blocks (S (S n)) m) with (take 64 m :: blocks (S n) (drop 64 m)). rewrite IH, drop_drop.
  replace (64 * S n)%nat with (64 + 64 * n)%nat by lia. done.
Qed.

(** One round of the loop. *)
Lemma feed_step (m a : bytes) (k : nat) : (k = length m / 64)%nat -> a <> [] ->
  (length (drop (64 * k) m) + length a <= 64)%nat ->
  let buf := drop (64 * k) m ++ a in
  fold_left sha256_block (blocks (length (m ++ a) / 64) (m ++ a)) sha256_init =
    (if (length buf =? 64)%nat
     then sha256_block (fold_left sha256_block (blocks k m) sha256_init) buf
     else fold_left sha256_block (blocks k m) sha256_init) /\
  drop (64 * (length (m ++ a) / 64)) (m ++ a) = if (length buf =? 64)%nat then [] else buf.
Proof.
  intros Hk Ha Hl. cbv zeta. pose proof (Nat.div_mod_eq (length m) 64) as E.
  pose proof (Nat.mod_upper_bound (length m) 64 ltac:(lia)) as Hm. rewrite <- Hk in E.
  assert (0 < length a)%nat by (destruct a; [done|cbn; lia]).
  rewrite length_drop in Hl. rewrite !length_app, length_drop. destruct (Nat.eqb_spec (length m - 64 * k + length a) 64).
  - assert ((length m + length a) / 64 = S k)%nat as -> by (symmetry; apply (Nat.div_unique _ _ _ 0); lia).
    rewrite blocks_snoc, fold_left_app, blocks_prefix by lia. cbn [fold_left].
    rewrite drop_app_le by lia. rewrite take_ge by (rewrite length_app, length_drop; lia). split; [done|].
    apply drop_ge. rewrite length_app. lia.
  - assert ((length m + length a) / 64 = k)%nat as -> by (symmetry; apply (Nat.div_unique _ _ _ (length m - 64 * k + length a)); lia).
    rewrite blocks_prefix by lia. split; [done|]. by rewrite drop_app_le by lia.
Qed.

Lemma feed_absorbed (fuel : nat) (h : state8) (total : Z) (buf m d : bytes) : (length d <= fuel)%nat ->
  h = fold_left sha256_block (blocks (length m / 64) m) sha256_init -> buf = drop (64 * (length m / 64)) m ->
  cc_sha256_feed fuel (Sha h total buf) d =
    Sha (fold_left sha256_block (blocks (length (m ++ d) / 64) (m ++ d)) sha256_init) total
      (drop (64 * (length (m ++ d) / 64)) (m ++ d)).
Proof.
  revert h buf m d. induction fuel as [|fuel IH]; intros h buf m d Hf -> ->.
  { destruct d; [|cbn in Hf; lia]. by rewrite app_nil_r. }
  destruct d as [|x d]; [by rewrite app_nil_r|]. cbn [cc_sha256_feed sh_buf sh_h sh_total].
  set (buf := drop (64 * (length m / 64)) m). set (n := Nat.min _ _).
  assert (length buf < 64)%nat as Hb.
  { unfold buf. rewrite length_drop. pose proof (Nat.div_mod_eq (length m) 64). pose proof (Nat.mod_upper_bound (length m) 64). lia. }
  assert (1 <= n)%nat by (unfold n, CC_SHA256_BLOCK; cbn [length]; lia).
  destruct (feed_step m (take n (x :: d)) (length m / 64) eq_refl) as [E1 E2].
  { by destruct n; [lia|]. }
  { fold buf. rewrite length_take. unfold n, CC_SHA256_BLOCK. lia. }
  fold buf in E1, E2. change CC_SHA256_BLOCK with 64%nat. rewrite cc_block_fips.
  replace (m ++ x :: d) with ((m ++ take n (x :: d)) ++ drop n (x :: d)) by (by rewrite <- app_assoc, take_drop).
  assert (length (drop n (x :: d)) <= fuel)%nat by (rewrite length_drop; cbn [length] in *; lia).
  destruct (_ =? 64)%nat; by apply IH.
Qed.

Lemma init_absorbed : absorbed cc_sha256_init [].
Proof. done. Qed.

Lemma update_absorbed (s : cc_sha256) (m d : bytes) : absorbed s m -> absorbed (cc_sha256_update s d) (m ++ d).
Proof.
  intros (H1 & H2 & H3). unfold cc_sha256_update. rewrite (feed_absorbed _ _ _ _ m d) by done.
  split_and!; [done|done|]. cbn [sh_total]. rewrite H3, strlen_app. unfold wrap. by rewrite Zplus_mod_idemp_l.
Qed.

Lemma zeros_absorbed (fuel : nat) (s : cc_sha256) (m : bytes) (z : nat) : absorbed s m -> (z < 64)%nat -> (z < fuel)%nat ->
  ((length m + z) mod 64 = 56)%nat -> absorbed (cc_sha256_zeros fuel s) (m ++ replicate z 0).
Proof.
  revert s m z. induction fuel as [|fuel IH]; intros s m z Hs Hz Hf Hm; [lia|]. cbn [cc_sha256_zeros].
  pose proof (Nat.div_mod_eq (length m) 64). pose proof (Nat.mod_upper_bound (length m) 64 ltac:(lia)).
  assert (length (sh_buf s) = length m mod 64)%nat as -> by (destruct Hs as (_ & -> & _); rewrite length_drop; lia).
  destruct (Nat.eqb_spec (length m mod 64) 56) as [E|E].
  - assert (z = 0)%nat as ->; [|by rewrite app_nil_r].
    destruct (decide (z = 0%nat)); [done|exfalso]. rewrite Nat.Div0.add_mod, E in Hm.
    rewrite (Nat.mod_small z) in Hm by lia.
    destruct (Nat.lt_ge_cases (56 + z) 64); [rewrite Nat.mod_small in Hm by lia; lia|].
    assert ((56 + z) mod 64 = 56 + z - 64)%nat by (symmetry; apply (Nat.mod_unique _ _ 1); lia). lia.
  - destruct z as [|z]; [rewrite Nat.add_0_r in Hm; done|].
    replace (m ++ replicate (S z) 0) with ((m ++ [0]) ++ replicate z 0) by (by rewrite <- app_assoc).
    apply IH; [by apply update_absorbed|lia|lia|]. rewrite length_app. cbn [length]. by rewrite <- Nat.add_assoc.
Qed.

(** Bytes fed in any pieces have the digest of their concatenation. *)
Lemma cc_sha256_digest (s : cc_sha256) (m : bytes) : absorbed s m -> cc_sha256_final s = strim_sha256 m.
Proof.
  intros Hs. rewrite sha256_correct. unfold cc_sha256_final, fips_sha256, parse.
  assert ((length m + 1 + pad_zeros (length m)) mod 64 = 56)%nat as Hz.
  { unfold pad_zeros. pose proof (Z.mod_pos_bound (55 - Z.of_nat (length m)) 64 ltac:(lia)).
    pose proof (Z.div_mod (55 - Z.of_nat (length m)) 64 ltac:(lia)) as E.
    apply Nat2Z.inj. rewrite Nat2Z.inj_mod, !Nat2Z.inj_add, Z2Nat.id by lia.
    symmetry. apply (Z.mod_unique_pos _ _ (- ((55 - Z.of_nat (length m)) / 64))); lia. }
  assert (pad_zeros (length m) < 64)%nat as Hlt.
  { unfold pad_zeros. pose proof (Z.mod_pos_bound (55 - Z.of_nat (length m)) 64 ltac:(lia)). lia. }
  pose proof (update_absorbed s m [0x80] Hs) as H1.
  pose proof (zeros_absorbed 64 _ _ (pad_zeros (length m)) H1 Hlt Hlt) as H2.
  rewrite length_app in H2. specialize (H2 Hz).
  pose proof (update_absorbed _ _ (be64 (u64 (strlen m * 8))) H2) as (H3 & _).
  assert (pad_message m = ((m ++ [0x80]) ++ replicate (pad_zeros (length m)) 0) ++ be64 (u64 (strlen m * 8))) as ->
    by (unfold pad_message, strlen; by rewrite <- !app_assoc).
  destruct Hs as (_ & _ & ->).
  replace (u64 (u64 (strlen m) * 8)) with (u64 (strlen m * 8)) by (unfold wrap; by rewrite Zmult_mod_idemp_l).
  change (map (fun i => u8 (Z.shiftr ?b (56 - i * 8))) [0; 1; 2; 3; 4; 5; 6; 7]) with (be64 b).
  rewrite H3. done.
Qed.

(** ** Messages

    The generated codecs are the class [CcCodecs]; what they pack is the
    request as the code fills it in. *)

Record pb_mount := PbMount {
  pm_type : cstring;
  pm_source : cstring;
  pm_target : cstring;
  pm_options : list (option cstring);
}.

Record container_record := ContainerRecord {
  cr_id : cstring;
  cr_image : cstring;
  cr_runtime : cstring;
  cr_type_url : cstring;
  cr_spec : bytes;
  cr_snapshotter : cstring;
  cr_snapshot_key : cstring;
}.

Record task_record := TaskRecord {
  tr_container_id : cstring;
  tr_rootfs : list pb_mount;
  tr_stdin : cstring;
  tr_stdout : cstring;
  tr_stderr : cstring;
  tr_options : option (cstring * bytes);
}.

Inductive request :=
  | EmptyReq
  | GetImageReq (name : cstring)
  | ReadContentReq (digest : cstring) (offset size : Z)
  | PrepareReq (snapshotter key parent : cstring)
  | CommitReq (snapshotter name key parent : cstring)
  | MountsReq (snapshotter key : cstring)
  | RemoveReq (snapshotter key : cstring)
  | StatReq (snapshotter key : cstring)
  | GetContainerReq (id : cstring)
  | CreateContainerReq (c : container_record)
  | DeleteContainerReq (id : cstring)
  | CreateTaskReq (t : task_record)
  | StartReq (id : cstring)
  | KillReq (id : cstring) (signal : Z)
  | DeleteTaskReq (id : cstring)
  | GetTaskReq (id : cstring)
  | WaitReq (id : cstring)
  | AnyMsg (type_url : cstring) (value : bytes).

(** An unpacker answers nothing for a text that is no message; a message
    field that is absent is nothing inside. *)
Class CcCodecs := {
  pack : request -> bytes;
  unpack_image : bytes -> option (option (cstring * option (cstring * Z)));  (* name, target: digest and size *)
  unpack_content : bytes -> option bytes;
  unpack_mounts : bytes -> option (list pb_mount);
  unpack_stat : bytes -> option (option (Z * cstring));  (* kind, parent *)
  unpack_container : bytes -> option (option (cstring * cstring));  (* snapshotter, key *)
  unpack_pid : bytes -> option Z;
  unpack_process : bytes -> option (option Z);
  unpack_exit : bytes -> option Z;
}.

(** ** Programs

    cc_grpc_unary as a call with its request and the size of its response
    buffer; the answer is its result and, when that is 0, the response. *)

Inductive rpc_prog (A : Type) :=
  | Return (a : A)
  | Undef
  | Rpc (path : cstring) (req : bytes) (resp_cap : Z) (k : Z * bytes -> rpc_prog A).
Arguments Return {A} a.
Arguments Undef {A}.
Arguments Rpc {A} path req resp_cap k.

Fixpoint rpc_bind {A B} (p : rpc_prog A) (f : A -> rpc_prog B) : rpc_prog B :=
  match p with
  | Return a => f a
  | Undef => Undef
  | Rpc path req cap k => Rpc path req cap (fun r => rpc_bind (k r) f)
  end.
#[local] Notation "'let*' x ':=' p 'in' q" := (rpc_bind p (fun x => q)) (at level 200, x pattern, right associativity).

(** What a program does with given answers: its calls, and its result, if
    the answers suffice. *)
Inductive rpc_outcome (A : Type) := Done (a : A) | Waiting | Broken.
Arguments Done {A} a.
Arguments Waiting {A}.
Arguments Broken {A}.

Definition rpc_call : Type := cstring * bytes.

Fixpoint replay {A} (p : rpc_prog A) (answers : list (Z * bytes)) : list rpc_call * rpc_outcome A :=
  match p with
  | Return a => ([], Done a)
  | Undef => ([], Broken)
  | Rpc path req _ k =>
      match answers with
      | [] => ([(path, req)], Waiting)
      | r :: answers' => let '(cs, o) := replay (k r) answers' in ((path, req) :: cs, o)
      end
  end.

Definition CC_GRPC_STATUS_OK : Z := 0.
Definition CC_GRPC_STATUS_NOT_FOUND : Z := 5.
Definition CC_GRPC_STATUS_FAILED_PRECONDITION : Z := 9.
Definition CC_CTR_MAX_MOUNTS : Z := 8.
Definition CC_CTR_MOUNT_TYPE_MAX : Z := 64.
Definition CC_CTR_MOUNT_SRC_MAX : Z := 512.
Definition CC_CTR_MOUNT_TGT_MAX : Z := 512.
Definition CC_CTR_MOUNT_OPT_MAX : Z := 8.
Definition CC_CTR_MOUNT_OPT_LEN_MAX : Z := 256.
Definition CC_CTR_REQ_MAX : Z := 16384.
Definition CC_CTR_RESP_MAX : Z := 65536.
Definition CC_CTR_CONTENT_BLOB_MAX : Z := 16384.
Definition CC_CTR_MAX_DIFFIDS : Z := 16.
Definition CC_CTR_OCI_TYPE_URL : cstring := lit "types.containerd.io/opencontainers/runtime-spec/1/Spec".
Definition CC_CTR_RUNC_OPTIONS_TYPE_URL : cstring := lit "containerd.runc.v1.Options".
Definition CC_CTR_DEFAULT_RUNTIME : cstring := lit "io.containerd.runc.v2".
Definition CC_CTR_DEFAULT_SNAPSHOTTER : cstring := lit "overlayfs".

(** ** Copies

    An output is a buffer of the caller: [None] where the pointer is NULL,
    otherwise its size.  A copy that fails leaves it as it was. *)

(** [copy_str(dst, cap, src) < 0], and what the buffer then holds. *)
Definition copy_out (dst : option Z) (src : cstring) : bool * option cstring :=
  match dst with
  | None => (false, None)
  | Some cap => match copy_str cap (Some src) with Some s => (false, Some s) | None => (true, None) end
  end.

Record cc_ctr_mount := CtrMount {
  cm_type : cstring;
  cm_source : cstring;
  cm_target : cstring;
  cm_options : list cstring;
}.

Fixpoint copy_options (l : list (option cstring)) : option (list cstring) :=
  match l with
  | [] => Some []
  | o :: l' =>
      match o with
      | None => None
      | Some o =>
          match copy_str CC_CTR_MOUNT_OPT_LEN_MAX (Some o), copy_options l' with
          | Some o, Some l' => Some (o :: l')
          | _, _ => None
          end
      end
  end.

Definition copy_mount (m : pb_mount) : option cc_ctr_mount :=
  match copy_str CC_CTR_MOUNT_TYPE_MAX (Some (pm_type m)), copy_str CC_CTR_MOUNT_SRC_MAX (Some (pm_source m)),
        copy_str CC_CTR_MOUNT_TGT_MAX (Some (pm_target m)) with
  | Some type, Some source, Some target =>
      if CC_CTR_MOUNT_OPT_MAX <? count (pm_options m) then None
      else match copy_options (pm_options m) with
           | Some options => Some (CtrMount type source target options)
           | None => None
           end
  | _, _, _ => None
  end.

Fixpoint copy_mounts (l : list pb_mount) : option (list cc_ctr_mount) :=
  match l with
  | [] => Some []
  | m :: l' => match copy_mount m, copy_mounts l' with Some m, Some l' => Some (m :: l') | _, _ => None end
  end.

(** [out_given] and [n_given]: the pointers are not NULL. *)
Definition mounts_to_c (mounts : list pb_mount) (out_given : bool) (cap : Z) (n_given : bool)
  : Z * list cc_ctr_mount :=
  if negb n_given then (CC_CTR_ERR_BADARG, [])
  else if negb (cap =? 0) && negb out_given then (CC_CTR_ERR_BADARG, [])
  else if cap <? count mounts then (CC_CTR_ERR_TOOBIG, [])
  else match copy_mounts mounts with None => (CC_CTR_ERR_TOOBIG, []) | Some ms => (0, ms) end.

Definition ctr_pack_runc_value (bin : option cstring) (cap : Z) : Z * bytes :=
  match bin with
  | None | Some [] => (CC_CTR_ERR_BADARG, [])
  | Some bin =>
      if 127 <? strlen bin then (CC_CTR_ERR_TOOBIG, [])
      else if cap <? 2 + strlen bin then (CC_CTR_ERR_TOOBIG, [])
      else (CC_GRPC_STATUS_OK, 0x32 :: u8 (strlen bin) :: bin)
  end.

(** ** Operations

    A handle is an int; NULL strings are [None].  The results come with the
    return value; an output that is not written is [None]. *)

Section Operations.
Context `{CcCodecs}.

(** Pack a request into a buffer of [buf] bytes, which it may overrun, and
    call. *)
Definition rpc (path : string) (buf : Z) (r : request) (resp_cap : Z) : rpc_prog (Z * bytes) :=
  if buf <? strlen (pack r) then Undef else Rpc (lit path) (pack r) resp_cap Return.

(** The return value alone. *)
Definition rpc_status (path : string) (buf : Z) (r : request) (resp_cap : Z) : rpc_prog Z :=
  let* a := rpc path buf r resp_cap in Return a.1.

Definition get_container_info (id : cstring) (ss sk : option Z) : rpc_prog (Z * option cstring * option cstring) :=
  let* a := rpc "/containerd.services.containers.v1.Containers/Get" 256 (GetContainerReq id) CC_CTR_RESP_MAX in
  if negb (a.1 =? CC_GRPC_STATUS_OK) then Return (a.1, None, None)
  else match unpack_container a.2 with
       | Some (Some (snapshotter, snapshot_key)) =>
           let '(e1, o1) := copy_out ss snapshotter in
           let '(e2, o2) := copy_out sk snapshot_key in
           Return (if e1 || e2 then CC_CTR_ERR_TOOBIG else 0, o1, o2)
       | _ => Return (CC_CTR_ERR_STATE, None, None)
       end.

Definition cc_ctr_ping (h : Z) : rpc_prog Z :=
  if h <=? 0 then Return CC_CTR_ERR_BADARG
  else rpc_status "/containerd.services.version.v1.Version/Version" 16 EmptyReq 1024.

Definition cc_ctr_get_image (h : Z) (image_ref : option cstring) (name digest : option Z)
  : rpc_prog (Z * option cstring * option cstring) :=
  match image_ref with
  | Some ((_ :: _) as ref) =>
      if h <=? 0 then Return (CC_CTR_ERR_BADARG, None, None)
      else
        let* a := rpc "/containerd.services.images.v1.Images/Get" 1024 (GetImageReq ref) CC_CTR_RESP_MAX in
        if negb (a.1 =? CC_GRPC_STATUS_OK) then Return (a.1, None, None)
        else match unpack_image a.2 with
             | Some (Some (nm, target)) =>
                 let '(e1, o1) := copy_out name nm in
                 let '(e2, o2) := match target with Some (d, _) => copy_out digest d | None => (false, None) end in
                 Return (if e1 || e2 then CC_CTR_ERR_TOOBIG else 0, o1, o2)
             | _ => Return (CC_CTR_ERR_STATE, None, None)
             end
  | _ => Return (CC_CTR_ERR_BADARG, None, None)
  end.

Definition ctr_read_content (h : Z) (digest : cstring) (size out_cap : Z) : rpc_prog (Z * bytes) :=
  if (h <=? 0) || streq digest [] || (out_cap =? 0) then Return (CC_CTR_ERR_BADARG, [])
  else
    let* a := rpc "/containerd.services.content.v1.Content/Read" 1024
                (ReadContentReq digest 0 (if 0 <? size then size else 0)) (CC_CTR_CONTENT_BLOB_MAX + 64) in
    if negb (a.1 =? CC_GRPC_STATUS_OK) then Return (a.1, [])
    else match unpack_content a.2 with
         | None => Return (CC_CTR_ERR_STATE, [])
         | Some data => if out_cap <? strlen data then Return (CC_CTR_ERR_TOOBIG, []) else Return (0, data)
         end.

(** *** The chain id *)

(** The hexadecimal digits of the digest behind [chain]. *)
Fixpoint hex_append (chain : cstring) (digest : bytes) : option cstring :=
  match digest with
  | [] => Some chain
  | d :: digest' =>
      if CC_CTR_DIGEST_MAX <=? strlen chain + 2 then None
      else hex_append (chain ++ [at_ hex_digits (Z.to_nat (Z.shiftr d 4)); at_ hex_digits (Z.to_nat (Z.land d 0xF))])
             digest'
  end.

(** The loop over the layers after the first.  [tmp] has 256 bytes: a text of
    exactly that length is copied with a NUL one past its end. *)
Inductive chained := Chain (c : cstring) | ChainTooBig | ChainOverrun.

Fixpoint chain_layers (chain : cstring) (diffids : list cstring) : chained :=
  match diffids with
  | [] => Chain chain
  | d :: diffids' =>
      let len := strlen chain + 1 + strlen d in
      if CC_CTR_DIGEST_MAX <? len then ChainTooBig
      else if CC_CTR_DIGEST_MAX <? len + 1 then ChainOverrun
      else
        match hex_append (lit "sha256:") (cc_sha256_final (cc_sha256_update cc_sha256_init (chain ++ [32] ++ d))) with
        | None => ChainTooBig
        | Some chain => chain_layers chain diffids'
        end
  end.

(** Step 4; the last copy answers -1 when it does not fit. *)
Definition chain_of (diffids : list cstring) (parent_cap : Z) : rpc_prog (Z * option cstring) :=
  match diffids with
  | [] => match copy_str parent_cap (Some []) with
          | None => Return (CC_CTR_ERR_TOOBIG, None)
          | Some s => Return (0, Some s)
          end
  | d :: ds =>
      match copy_str CC_CTR_DIGEST_MAX (Some d) with
      | None => Return (CC_CTR_ERR_TOOBIG, None)
      | Some d =>
          match chain_layers d ds with
          | ChainOverrun => Undef
          | ChainTooBig => Return (CC_CTR_ERR_TOOBIG, None)
          | Chain c => match copy_str parent_cap (Some c) with Some s => Return (0, Some s) | None => Return (-1, None) end
          end
      end
  end.

(** Step 3. *)
Definition read_diff_ids (h : Z) (config_digest : cstring) (config_size parent_cap : Z) : rpc_prog (Z * option cstring) :=
  let* c := ctr_read_content h config_digest config_size CC_CTR_CONTENT_BLOB_MAX in
  if negb (c.1 =? CC_GRPC_STATUS_OK) then Return (c.1, None)
  else
    let '(rc, diffids) := json_path_strs c.2 (lit "rootfs.diff_ids") CC_CTR_MAX_DIFFIDS in
    if negb (rc =? 0) then Return (CC_CTR_ERR_STATE, None) else chain_of diffids parent_cap.

(** Step 2. *)
Definition read_manifest (h : Z) (digest : cstring) (size parent_cap : Z) : rpc_prog (Z * option cstring) :=
  let* m := ctr_read_content h digest size CC_CTR_CONTENT_BLOB_MAX in
  if negb (m.1 =? CC_GRPC_STATUS_OK) then Return (m.1, None)
  else
    match json_path_str m.2 (lit "config.digest") CC_CTR_DIGEST_MAX with
    | (0, Some ((_ :: _) as config_digest)) =>
        match json_path_int m.2 (lit "config.size") with
        | (0, Some config_size) => read_diff_ids h config_digest config_size parent_cap
        | _ => Return (CC_CTR_ERR_STATE, None)
        end
    | _ => Return (CC_CTR_ERR_STATE, None)
    end.

(** The buffer [out_parent] holds the empty string from the start; [None] is
    that, or a NULL pointer. *)
Definition cc_ctr_resolve_chainid (h : Z) (image_ref : option cstring) (out_parent : option Z)
  : rpc_prog (Z * option cstring) :=
  match image_ref, out_parent with
  | Some ((_ :: _) as ref), Some parent_cap =>
      if (h <=? 0) || (parent_cap =? 0) then Return (CC_CTR_ERR_BADARG, None)
      else
        let* a := rpc "/containerd.services.images.v1.Images/Get" 1024 (GetImageReq ref) CC_CTR_RESP_MAX in
        if negb (a.1 =? CC_GRPC_STATUS_OK) then Return (a.1, None)
        else match unpack_image a.2 with
             | Some (Some (_, Some (digest, size))) =>
                 match copy_str CC_CTR_DIGEST_MAX (Some digest) with
                 | None => Return (CC_CTR_ERR_TOOBIG, None)
                 | Some digest => read_manifest h digest size parent_cap
                 end
             | _ => Return (CC_CTR_ERR_STATE, None)
             end
  | _, _ => Return (CC_CTR_ERR_BADARG, None)
  end.

(** *** Snapshots *)

(** The mounts of a response, in the caller's array. *)
Definition mounts_result (a : Z * bytes) (out_given : bool) (cap : Z) (n_given : bool)
  : rpc_prog (Z * list cc_ctr_mount) :=
  if negb (a.1 =? CC_GRPC_STATUS_OK) then Return (a.1, [])
  else match unpack_mounts a.2 with
       | None => Return (CC_CTR_ERR_STATE, [])
       | Some ms => Return (mounts_to_c ms out_given cap n_given)
       end.

Definition cc_ctr_prepare_snapshot (h : Z) (snapshotter key parent : option cstring)
    (out_given : bool) (cap : Z) (n_given : bool) : rpc_prog (Z * list cc_ctr_mount) :=
  match snapshotter, key, parent with
  | Some ((_ :: _) as snapshotter), Some ((_ :: _) as key), Some parent =>
      if h <=? 0 then Return (CC_CTR_ERR_BADARG, [])
      else
        let* a := rpc "/containerd.services.snapshots.v1.Snapshots/Prepare" 2048 (PrepareReq snapshotter key parent)
                    CC_CTR_RESP_MAX in
        mounts_result a out_given cap n_given
  | _, _, _ => Return (CC_CTR_ERR_BADARG, [])
  end.

Definition cc_ctr_commit_snapshot (h : Z) (snapshotter name key parent : option cstring) : rpc_prog Z :=
  match snapshotter, name, key with
  | Some ((_ :: _) as snapshotter), Some ((_ :: _) as name), Some ((_ :: _) as key) =>
      if h <=? 0 then Return CC_CTR_ERR_BADARG
      else rpc_status "/containerd.services.snapshots.v1.Snapshots/Commit" 2048
             (CommitReq snapshotter name key (default [] parent)) 1024
  | _, _, _ => Return CC_CTR_ERR_BADARG
  end.

Definition cc_ctr_mounts (h : Z) (snapshotter key : option cstring) (out_given : bool) (cap : Z) (n_given : bool)
  : rpc_prog (Z * list cc_ctr_mount) :=
  match snapshotter, key with
  | Some ((_ :: _) as snapshotter), Some ((_ :: _) as key) =>
      if h <=? 0 then Return (CC_CTR_ERR_BADARG, [])
      else
        let* a := rpc "/containerd.services.snapshots.v1.Snapshots/Mounts" 1024 (MountsReq snapshotter key)
                    CC_CTR_RESP_MAX in
        mounts_result a out_given cap n_given
  | _, _ => Return (CC_CTR_ERR_BADARG, [])
  end.

Definition cc_ctr_remove_snapshot (h : Z) (snapshotter key : option cstring) : rpc_prog Z :=
  match snapshotter, key with
  | Some ((_ :: _) as snapshotter), Some ((_ :: _) as key) =>
      if h <=? 0 then Return CC_CTR_ERR_BADARG
      else rpc_status "/containerd.services.snapshots.v1.Snapshots/Remove" 1024 (RemoveReq snapshotter key) 1024
  | _, _ => Return CC_CTR_ERR_BADARG
  end.

(** The kind is 0 from the start of a call that is made. *)
Definition cc_ctr_stat_snapshot (h : Z) (snapshotter key : option cstring) (parent : option Z)
  : rpc_prog (Z * option Z * option cstring) :=
  match snapshotter, key with
  | Some ((_ :: _) as snapshotter), Some ((_ :: _) as key) =>
      if h <=? 0 then Return (CC_CTR_ERR_BADARG, None, None)
      else
        let* a := rpc "/containerd.services.snapshots.v1.Snapshots/Stat" 1024 (StatReq snapshotter key)
                    CC_CTR_RESP_MAX in
        if negb (a.1 =? CC_GRPC_STATUS_OK) then Return (a.1, Some 0, None)
        else match unpack_stat a.2 with
             | Some (Some (kind, p)) =>
                 let '(e, o) := copy_out parent p in
                 Return (if e then CC_CTR_ERR_TOOBIG else 0, Some (u32 kind), o)
             | _ => Return (CC_CTR_ERR_STATE, Some 0, None)
             end
  | _, _ => Return (CC_CTR_ERR_BADARG, None, None)
  end.

(** *** Tasks *)

(** A call on a task whose answer holds one number, 0 until it arrives. *)
Definition task_call (path : string) (h : Z) (container_id : option cstring) (req : cstring -> request) (resp_cap : Z)
    (unpack : bytes -> option Z) : rpc_prog (Z * option Z) :=
  match container_id with
  | Some ((_ :: _) as id) =>
      if h <=? 0 then Return (CC_CTR_ERR_BADARG, None)
      else
        let* a := rpc path 1024 (req id) resp_cap in
        if negb (a.1 =? CC_GRPC_STATUS_OK) then Return (a.1, Some 0)
        else match unpack a.2 with None => Return (CC_CTR_ERR_STATE, Some 0) | Some v => Return (0, Some v) end
  | _ => Return (CC_CTR_ERR_BADARG, None)
  end.

Definition cc_ctr_start_task (h : Z) (container_id : option cstring) : rpc_prog (Z * option Z) :=
  task_call "/containerd.services.tasks.v1.Tasks/Start" h container_id StartReq 1024 unpack_pid.

Definition cc_ctr_kill_task (h : Z) (container_id : option cstring) (signal : Z) : rpc_prog Z :=
  match container_id with
  | Some ((_ :: _) as id) =>
      if h <=? 0 then Return CC_CTR_ERR_BADARG
      else rpc_status "/containerd.services.tasks.v1.Tasks/Kill" 1024 (KillReq id signal) 1024
  | _ => Return CC_CTR_ERR_BADARG
  end.

Definition cc_ctr_delete_task (h : Z) (container_id : option cstring) : rpc_prog (Z * option Z) :=
  task_call "/containerd.services.tasks.v1.Tasks/Delete" h container_id DeleteTaskReq 1024 unpack_exit.

Definition cc_ctr_get_task (h : Z) (container_id : option cstring) : rpc_prog (Z * option Z) :=
  task_call "/containerd.services.tasks.v1.Tasks/Get" h container_id GetTaskReq CC_CTR_RESP_MAX
    (fun b => match unpack_process b with Some (Some pid) => Some pid | _ => None end).

Definition cc_ctr_wait_task (h : Z) (container_id : option cstring) : rpc_prog (Z * option Z) :=
  task_call "/containerd.services.tasks.v1.Tasks/Wait" h container_id WaitReq 1024 unpack_exit.

(** The rootfs of the request from the copied mounts. *)
Definition rootfs_of (m : cc_ctr_mount) : pb_mount :=
  PbMount (cm_type m) (cm_source m) (cm_target m) (map Some (cm_options m)).

(** The options of the request, if a runtime is named. *)
Definition runtime_options (nvidia_bin : option cstring) : Z * option (cstring * bytes) :=
  if given nvidia_bin then
    let '(rc, value) := ctr_pack_runc_value nvidia_bin 130 in
    (rc, Some (CC_CTR_RUNC_OPTIONS_TYPE_URL, value))
  else (0, None).

(** From the two extra calls on. *)
Definition submit_task (id : cstring) (mounts : list cc_ctr_mount) (stdout_uri stderr_uri nvidia_bin : option cstring)
  : rpc_prog (Z * option Z) :=
  let* r := get_container_info id None None in
  if negb (r.1.1 =? CC_GRPC_STATUS_OK) then Return (r.1.1, Some 0)
  else
    let* r := get_container_info id None None in
    if negb (r.1.1 =? CC_GRPC_STATUS_OK) then Return (r.1.1, Some 0)
    else
      let '(rc, options) := runtime_options nvidia_bin in
      if negb (rc =? CC_GRPC_STATUS_OK) then Return (rc, Some 0)
      else
        let req := CreateTaskReq (TaskRecord id (map rootfs_of mounts) [] (default [] stdout_uri) (default [] stderr_uri)
                                    options) in
        if CC_CTR_REQ_MAX <? strlen (pack req) then Return (CC_CTR_ERR_TOOBIG, Some 0)
        else
          let* a := rpc "/containerd.services.tasks.v1.Tasks/Create" CC_CTR_REQ_MAX req CC_CTR_RESP_MAX in
          if negb (a.1 =? CC_GRPC_STATUS_OK) then Return (a.1, Some 0)
          else match unpack_pid a.2 with
               | None => Return (CC_CTR_ERR_STATE, Some 0)
               | Some pid => Return (0, Some pid)
               end.

Definition cc_ctr_create_task (h : Z) (container_id stdout_uri stderr_uri nvidia_bin : option cstring)
  : rpc_prog (Z * option Z) :=
  match container_id with
  | Some ((_ :: _) as id) =>
      if h <=? 0 then Return (CC_CTR_ERR_BADARG, None)
      else
        let* r := get_container_info id (Some CC_CTR_MOUNT_SRC_MAX) (Some CC_CTR_MOUNT_SRC_MAX) in
        if negb (r.1.1 =? CC_GRPC_STATUS_OK) then Return (r.1.1, Some 0)
        else match default [] r.2 with
             | [] => submit_task id [] stdout_uri stderr_uri nvidia_bin
             | _ =>
                 if streq (default [] r.1.2) [] then Return (CC_CTR_ERR_STATE, Some 0)
                 else
                   let* m := cc_ctr_mounts h r.1.2 r.2 true CC_CTR_MAX_MOUNTS true in
                   if negb (m.1 =? CC_GRPC_STATUS_OK) then Return (m.1, Some 0)
                   else submit_task id m.2 stdout_uri stderr_uri nvidia_bin
             end
  | _ => Return (CC_CTR_ERR_BADARG, None)
  end.

(** *** Containers *)

Definition cc_ctr_create_container (h : Z) (id image_ref snapshotter snapshot_key runtime : option cstring)
    (oci_spec_json : option bytes) : rpc_prog Z :=
  match id, image_ref, oci_spec_json with
  | Some ((_ :: _) as id), Some ((_ :: _) as image_ref), Some ((_ :: _) as spec) =>
      if h <=? 0 then Return CC_CTR_ERR_BADARG
      else
        let req := CreateContainerReq
          (ContainerRecord id image_ref (if given runtime then default [] runtime else CC_CTR_DEFAULT_RUNTIME)
             CC_CTR_OCI_TYPE_URL spec
             (if given snapshotter then default [] snapshotter else CC_CTR_DEFAULT_SNAPSHOTTER)
             (default [] snapshot_key)) in
        if CC_CTR_REQ_MAX <? strlen (pack req) then Return CC_CTR_ERR_TOOBIG
        else rpc_status "/containerd.services.containers.v1.Containers/Create" CC_CTR_REQ_MAX req CC_CTR_RESP_MAX
  | _, _, _ => Return CC_CTR_ERR_BADARG
  end.

Definition cc_ctr_get_container (h : Z) (id : option cstring) (ss sk : option Z)
  : rpc_prog (Z * option cstring * option cstring) :=
  match id with
  | Some ((_ :: _) as id) =>
      if h <=? 0 then Return (CC_CTR_ERR_BADARG, None, None) else get_container_info id ss sk
  | _ => Return (CC_CTR_ERR_BADARG, None, None)
  end.

(** The snapshot of the record, if it has one, then the container. *)
Definition delete_record (h : Z) (id : cstring) (snapshotter snapshot_key : option cstring) : rpc_prog Z :=
  let* rc := match default [] snapshot_key with
             | [] => Return CC_GRPC_STATUS_OK
             | _ => if streq (default [] snapshotter) [] then Return CC_CTR_ERR_STATE
                    else cc_ctr_remove_snapshot h snapshotter snapshot_key
             end in
  if negb (rc =? CC_GRPC_STATUS_OK) then Return rc
  else rpc_status "/containerd.services.containers.v1.Containers/Delete" 1024 (DeleteContainerReq id) 1024.

Definition cc_ctr_delete_container (h : Z) (id : option cstring) : rpc_prog Z :=
  match id with
  | Some ((_ :: _) as id') =>
      if h <=? 0 then Return CC_CTR_ERR_BADARG
      else
        let* t := cc_ctr_get_task h id in
        if t.1 =? CC_GRPC_STATUS_OK then Return CC_GRPC_STATUS_FAILED_PRECONDITION
        else if negb (t.1 =? CC_GRPC_STATUS_NOT_FOUND) then Return t.1
        else
          let* r := get_container_info id' (Some CC_CTR_MOUNT_SRC_MAX) (Some CC_CTR_MOUNT_SRC_MAX) in
          if negb (r.1.1 =? CC_GRPC_STATUS_OK) then Return r.1.1 else delete_record h id' r.1.2 r.2
  | _ => Return CC_CTR_ERR_BADARG
  end.

(** *** Events and messages *)

(** A thin wrapper: the stream, or 0. *)
Definition cc_ctr_subscribe (cc_grpc_subscribe : Z -> cstring -> Z) (h : Z) (filter : option cstring) (cb_given : bool) : Z :=
  match filter with
  | Some filter => if (h <=? 0) || negb cb_given then 0 else cc_grpc_subscribe h filter
  | None => 0
  end.

(** [None] of an output is a NULL pointer or a size of 0. *)
Definition cc_ctr_oci_wrap_any (spec_json : option bytes) (any_cap : option Z) : Z * bytes :=
  match spec_json, any_cap with
  | Some ((_ :: _) as json), Some cap =>
      let any := pack (AnyMsg CC_CTR_OCI_TYPE_URL json) in
      if cap <? strlen any then (CC_CTR_ERR_TOOBIG, []) else (CC_GRPC_STATUS_OK, any)
  | _, _ => (CC_CTR_ERR_BADARG, [])
  end.

Definition cc_ctr_pack_runc_nvidia (nvidia_bin : option cstring) (any_cap : option Z) : Z * bytes :=
  match any_cap with
  | None => (CC_CTR_ERR_BADARG, [])
  | Some cap =>
      let '(rc, value) := ctr_pack_runc_value nvidia_bin 130 in
      if negb (rc =? CC_GRPC_STATUS_OK) then (rc, [])
      else
        let any := pack (AnyMsg CC_CTR_RUNC_OPTIONS_TYPE_URL value) in
        if cap <? strlen any then (CC_CTR_ERR_TOOBIG, []) else (CC_GRPC_STATUS_OK, any)
  end.

End Operations.

(** ** The chain id *)
Lemma format_length (d : bytes) : length d = 32%nat -> strlen (strim_sha256_format d) = 71.
Proof.
  intros Hd. unfold strim_sha256_format, strlen. rewrite length_app, length_concat, map_map. cbn [length].
  reflexivity.
Qed.

Lemma hex_append_pairs (chain : cstring) (d : bytes) : strlen chain + 2 * strlen d < CC_CTR_DIGEST_MAX ->
  hex_append chain d = Some (chain ++ concat (map hex_pair d)).
Proof.
  revert chain. induction d as [|x d IH]; intros chain Hl; cbn [hex_append map concat]; [by rewrite app_nil_r|].
  assert (strlen (x :: d) = 1 + strlen d) as Hx by (unfold strlen; cbn [length]; lia). pose proof (strlen_nonneg d).
  rewrite (proj2 (Z.leb_gt _ _)) by lia. rewrite IH; [by rewrite <- app_assoc|].
  rewrite strlen_app. change (strlen [?a; ?b]) with 2. lia.
Qed.

Lemma digest_text (m : bytes) :
  hex_append (lit "sha256:") (cc_sha256_final (cc_sha256_update cc_sha256_init m)) = Some (strim_sha256_format (strim_sha256 m)).
Proof.
  rewrite (cc_sha256_digest _ m) by (apply (update_absorbed _ [] m init_absorbed)).
  destruct (sha256_digest_ok m) as [Hl _]. rewrite format_is_pairs by done. apply hex_append_pairs.
  unfold strlen at 2. rewrite Hl. vm_compute. done.
Qed.

Lemma chain_layers_spec (done ds : list cstring) : done <> [] -> strlen (ChainID done) <= 127 ->
  Forall (fun d => strlen d <= 127) ds -> chain_layers (ChainID done) ds = Chain (ChainID (done ++ ds)).
Proof.
  intros Hd Hl Hds. revert done Hd Hl. induction Hds as [|d ds Hb _ IH]; intros done Hd Hl; cbn [chain_layers].
  - by rewrite app_nil_r.
  - unfold CC_CTR_DIGEST_MAX. rewrite !(proj2 (Z.ltb_ge 256 _)) by lia. rewrite digest_text, <- chain_id_snoc by done.
    rewrite IH; [by rewrite <- app_assoc|by destruct done|].
    rewrite chain_id_snoc by done. rewrite format_length; [lia|]. apply sha256_digest_ok.
Qed.

Lemma copy_str_fits (cap : Z) (s : cstring) : strlen s < cap -> copy_str cap (Some s) = Some s.
Proof.
  intros Hl. pose proof (strlen_nonneg s). unfold copy_str. change (default [] (Some s)) with s.
  by rewrite (proj2 (Z.eqb_neq cap 0)), (proj2 (Z.ltb_ge cap (strlen s + 1))) by lia.
Qed.

Lemma copy_str_same (cap : Z) (s c : cstring) : copy_str cap (Some s) = Some c -> c = s.
Proof. unfold copy_str. change (default [] (Some s)) with s. repeat case_match; by intros [= <-]. Qed.

(** The methods that are called. *)
Abbreviation READ := "/containerd.services.content.v1.Content/Read"%string.
Abbreviation GET_IMAGE := "/containerd.services.images.v1.Images/Get"%string.
Abbreviation GET_TASK := "/containerd.services.tasks.v1.Tasks/Get"%string.
Abbreviation GET_CONTAINER := "/containerd.services.containers.v1.Containers/Get"%string.
Abbreviation REMOVE := "/containerd.services.snapshots.v1.Snapshots/Remove"%string.
Abbreviation DELETE := "/containerd.services.containers.v1.Containers/Delete"%string.
Abbreviation MOUNTS := "/containerd.services.snapshots.v1.Snapshots/Mounts"%string.
Abbreviation CREATE_TASK := "/containerd.services.tasks.v1.Tasks/Create"%string.

Section Facts.
Context `{CcCodecs}.

Lemma chain_of_spec (ids : list cstring) (cap : Z) : Forall (fun d => strlen d <= 127) ids -> strlen (ChainID ids) < cap ->
  chain_of ids cap = Return (0, Some (ChainID ids)).
Proof.
  intros Hb Hc. destruct ids as [|d ds]; cbn [chain_of].
  - by rewrite (copy_str_fits cap []).
  - apply Forall_cons in Hb as [Hd Hds]. rewrite copy_str_fits by (unfold CC_CTR_DIGEST_MAX; lia).
    change d with (ChainID [d]) at 1. rewrite chain_layers_spec by done. by rewrite copy_str_fits.
Qed.

(** A document in a blob: what it says, however it is spelled. *)
Record blob_of (j : jval) (blob : bytes) : Prop := {
  bl_spelled : exists w t w', blob = w ++ t ++ w' /\ ws w /\ ws w' /\ spells j t;
  bl_readable : readable j;
  bl_room : strlen blob <= CC_CTR_CONTENT_BLOB_MAX;
}.

(** An image in the content store: its manifest names the configuration, the
    configuration the layers. *)
Record image_of (manifest config : jval) (config_digest : cstring) (config_size : Z) (diff_ids : list cstring) : Prop := {
  im_digest : last (strings_at (lit "config.digest") manifest) = Some config_digest;
  im_named : config_digest <> [];
  im_size : last (ints_at (lit "config.size") manifest) = Some config_size;
  im_layers : arrays_at (lit "rootfs.diff_ids") config = [map JStr diff_ids];
  im_layers_max : count diff_ids <= CC_CTR_MAX_DIFFIDS;
}.

Lemma replay_bind {A B} (p : rpc_prog A) (f : A -> rpc_prog B) (answers : list (Z * bytes)) (a : A) (cs : list rpc_call) :
  replay p answers = (cs, Done a) ->
  replay (rpc_bind p f) answers =
    let '(cs', o) := replay (f a) (drop (length cs) answers) in (cs ++ cs', o).
Proof.
  revert answers cs. induction p as [x| |path req cap k IH]; intros answers cs; cbn [replay rpc_bind].
  - intros [= <- ->]. cbn [length app]. rewrite drop_0. by destruct (replay (f a) answers).
  - done.
  - destruct answers as [|r answers]; [done|]. destruct (replay (k r) answers) as [cs' o] eqn:E. intros [= <- ->].
    rewrite (IH r answers cs' E). cbn [length drop]. by destruct (replay (f a) _).
Qed.

(** A request that fits its buffer is a call. *)
Lemma rpc_fits (path : string) (buf : Z) (r : request) (cap : Z) : strlen (pack r) <= buf ->
  rpc path buf r cap = Rpc (lit path) (pack r) cap Return.
Proof. intros Hl. unfold rpc. by rewrite (proj2 (Z.ltb_ge _ _)). Qed.

(** The request that reads a blob. *)
Definition read_req (digest : cstring) (size : Z) : request := ReadContentReq digest 0 (Z.max 0 size).

Lemma content_read (h : Z) (digest : cstring) (size : Z) (resp blob : bytes) (answers : list (Z * bytes)) :
  0 < h -> digest <> [] -> strlen (pack (read_req digest size)) <= 1024 -> unpack_content resp = Some blob ->
  strlen blob <= CC_CTR_CONTENT_BLOB_MAX ->
  replay (ctr_read_content h digest size CC_CTR_CONTENT_BLOB_MAX) ((0, resp) :: answers) =
    ([(lit READ, pack (read_req digest size))], Done (0, blob)).
Proof.
  intros Hh Hd Hp Hu Hb. unfold ctr_read_content. rewrite (proj2 (Z.leb_gt h 0)) by done.
  assert (streq digest [] = false) as -> by (by apply bool_decide_eq_false). cbn [orb].
  change (CC_CTR_CONTENT_BLOB_MAX =? 0) with false. cbn [orb].
  replace (if 0 <? size then size else 0) with (Z.max 0 size) by (destruct (Z.ltb_spec 0 size); lia).
  rewrite (rpc_fits READ 1024 (read_req digest size)) by done. cbn [rpc_bind replay fst snd negb Z.eqb CC_GRPC_STATUS_OK].
  rewrite Hu. by rewrite (proj2 (Z.ltb_ge _ _)).
Qed.

Lemma strings_of_texts (l : list cstring) : strings_of (map JStr l) = l.
Proof. induction l as [|s l IH]; [done|]. cbn. f_equal. exact IH. Qed.

Lemma layers_found (config : jval) (c : bytes) (ids : list cstring) : blob_of config c ->
  arrays_at (lit "rootfs.diff_ids") config = [map JStr ids] -> count ids <= CC_CTR_MAX_DIFFIDS ->
  json_path_strs c (lit "rootfs.diff_ids") CC_CTR_MAX_DIFFIDS = (0, ids) /\ Forall (fun d => strlen d <= 127) ids.
Proof.
  intros [(w & t & w' & -> & Hw & Hw' & Ht) Hr _] Ha Hm. split.
  - rewrite (path_strs_found config) by (rewrite ?Ha; cbn [map concat]; rewrite ?app_nil_r, ?strings_of_texts;
      done || (apply Forall_singleton, Forall_map, Forall_forall; eauto)).
    rewrite Ha. cbn [map concat length]. by rewrite app_nil_r, strings_of_texts.
  - apply Forall_forall. intros d Hd.
    assert (short d) as [Hs _].
    { apply (items_short (lit "rootfs.diff_ids") config (map JStr ids)); [done|rewrite Ha; by left|].
      by apply list_elem_of_fmap_2. }
    unfold CC_JSON_PATH_MAX in Hs. lia.
Qed.

Lemma config_found (manifest : jval) (m : bytes) (config_digest : cstring) (config_size : Z) : blob_of manifest m ->
  last (strings_at (lit "config.digest") manifest) = Some config_digest ->
  last (ints_at (lit "config.size") manifest) = Some config_size ->
  json_path_str m (lit "config.digest") CC_CTR_DIGEST_MAX = (0, Some config_digest) /\
  json_path_int m (lit "config.size") = (0, Some config_size).
Proof.
  intros [(w & t & w' & -> & Hw & Hw' & Ht) Hr _] Hd Hs. split.
  - rewrite (path_str_found manifest), Hd; [done|done|done|done|]. apply Forall_forall. intros s Hin.
    destruct (strings_short _ _ _ Hr Hin) as [Hl _]. unfold CC_JSON_PATH_MAX, CC_CTR_DIGEST_MAX in *. lia.
  - by rewrite (path_int_found manifest), Hs.
Qed.

(** C32: the alternate controller computes the chain id of the OCI image
    specification.  When the daemon answers for an image whose manifest and
    configuration are documents the extractor can take, in any spelling,
    cc_ctr_resolve_chainid makes exactly three calls (the image by its
    reference, the manifest by the image's digest, the configuration by the
    manifest's) and answers 0 and the chain id of the configuration's layers,
    as the specification defines it and the other controller computes it: its
    JSON parser and its SHA-256 included. *)
Theorem alt_chain_id_is_oci (h : Z) (ref : cstring) (cap : Z) (name digest : cstring) (size : Z)
    (manifest config : jval) (config_digest : cstring) (config_size : Z) (diff_ids : list cstring)
    (r1 r2 r3 m c : bytes) :
  0 < h -> ref <> [] -> strlen (ChainID diff_ids) < cap ->
  strlen (pack (GetImageReq ref)) <= 1024 -> strlen (pack (read_req digest size)) <= 1024 ->
  strlen (pack (read_req config_digest config_size)) <= 1024 ->
  unpack_image r1 = Some (Some (name, Some (digest, size))) -> digest <> [] -> strlen digest < CC_CTR_DIGEST_MAX ->
  unpack_content r2 = Some m -> blob_of manifest m -> unpack_content r3 = Some c -> blob_of config c ->
  image_of manifest config config_digest config_size diff_ids ->
  replay (cc_ctr_resolve_chainid h (Some ref) (Some cap)) [(0, r1); (0, r2); (0, r3)] =
    ([(lit GET_IMAGE, pack (GetImageReq ref)); (lit READ, pack (read_req digest size));
      (lit READ, pack (read_req config_digest config_size))], Done (0, Some (ChainID diff_ids))).
Proof.
  intros Hh Hr Hcap Hp1 Hp2 Hp3 Hu1 Hd Hdl Hu2 Hm Hu3 Hc [Ed Hn Es Ea Hmax].
  destruct (layers_found config c diff_ids Hc Ea Hmax) as [El Hl].
  destruct (config_found manifest m config_digest config_size Hm Ed Es) as [Ef Ez].
  assert (Hread : replay (read_diff_ids h config_digest config_size cap) [(0, r3)] =
    ([(lit READ, pack (read_req config_digest config_size))], Done (0, Some (ChainID diff_ids)))).
  { unfold read_diff_ids. erewrite replay_bind by (apply content_read; try done; apply Hc).
    cbn [fst snd negb Z.eqb CC_GRPC_STATUS_OK length drop]. rewrite El. cbn [Z.eqb negb]. by rewrite chain_of_spec. }
  assert (Hman : replay (read_manifest h digest size cap) [(0, r2); (0, r3)] =
    ([(lit READ, pack (read_req digest size)); (lit READ, pack (read_req config_digest config_size))],
     Done (0, Some (ChainID diff_ids)))).
  { unfold read_manifest. erewrite replay_bind by (apply content_read; try done; apply Hm).
    cbn [fst snd negb Z.eqb CC_GRPC_STATUS_OK length drop]. rewrite ?drop_0, Ef, Ez. destruct config_digest as [|x cd]; [done|].
    by rewrite Hread. }
  destruct ref as [|x ref]; [done|]. cbn [cc_ctr_resolve_chainid]. rewrite (proj2 (Z.leb_gt h 0)) by done.
  pose proof (strlen_nonneg (ChainID diff_ids)). rewrite (proj2 (Z.eqb_neq cap 0)) by lia. cbn [orb].
  rewrite rpc_fits by done. cbn [rpc_bind replay fst snd negb Z.eqb CC_GRPC_STATUS_OK]. rewrite Hu1.
  rewrite copy_str_fits by done. by rewrite Hman.
Qed.

(** ** Deleting a container *)

(** A call and what follows it. *)
Lemma replay_rpc {A} (path : string) (buf : Z) (r : request) (cap : Z) (k : Z * bytes -> rpc_prog A)
    (answers : list (Z * bytes)) (calls : list rpc_call) (o : rpc_outcome A) :
  replay (rpc_bind (rpc path buf r cap) k) answers = (calls, o) ->
  (calls = [] /\ o = Broken) \/ (calls = [(lit path, pack r)] /\ o = Waiting) \/
  exists a answers' calls', answers = a :: answers' /\ calls = (lit path, pack r) :: calls' /\
    replay (k a) answers' = (calls', o).
Proof.
  unfold rpc. destruct (_ <? _); cbn [rpc_bind replay].
  - intros [= <- <-]. auto.
  - destruct answers as [|a answers]; [intros [= <- <-]; auto|].
    destruct (replay (k a) answers) as [cs o'] eqn:E. intros [= <- <-]. right. right. eauto 10.
Qed.

Lemma replay_bind_assoc {A B C} (p : rpc_prog A) (f : A -> rpc_prog B) (g : B -> rpc_prog C) (answers : list (Z * bytes)) :
  replay (rpc_bind (rpc_bind p f) g) answers = replay (rpc_bind p (fun a => rpc_bind (f a) g)) answers.
Proof.
  revert answers. induction p as [x| |path req cap k IH]; intros answers; [done..|]. cbn [rpc_bind replay].
  destruct answers; [done|]. by rewrite IH.
Qed.

Lemma path_differs (p q : string) (r r' : bytes) : lit p <> lit q -> (lit p, r) <> (lit q, r').
Proof. by intros H1 [= ? ?]. Qed.

(** A program that makes no call has made none. *)
Lemma replay_return {A} (a : A) (answers : list (Z * bytes)) (calls : list rpc_call) (o : rpc_outcome A) (c : rpc_call) :
  replay (Return a) answers = (calls, o) -> c ∉ calls.
Proof. cbn. intros [= <- <-]. apply not_elem_of_nil. Qed.

(** One call, and it is the only one. *)
Lemma replay_status (path : string) (buf : Z) (r : request) (cap : Z) (answers : list (Z * bytes))
    (calls : list rpc_call) (o : rpc_outcome Z) (c : rpc_call) :
  replay (rpc_status path buf r cap) answers = (calls, o) -> c ∈ calls -> calls = [(lit path, pack r)].
Proof.
  intros [[-> _]|[[-> _]|(a & answers' & calls' & _ & -> & E)]]%replay_rpc Hc; [by apply elem_of_nil in Hc|done|].
  cbn in E. by injection E as <- <-.
Qed.

Lemma copy_out_same (dst : option Z) (s : cstring) (o : option cstring) (e : bool) :
  copy_out dst s = (e, o) -> e = false -> dst <> None -> o = Some s.
Proof.
  unfold copy_out. destruct dst as [cap|]; [|done]. destruct (copy_str cap (Some s)) eqn:E; intros [= <- <-] ? _; [|done].
  f_equal. by apply copy_str_same in E.
Qed.

(** A record that was read whole is the one of the answer. *)
Lemma replay_container {A} (id : cstring) (ss sk : option Z) (k : Z * option cstring * option cstring -> rpc_prog A)
    (answers : list (Z * bytes)) (calls : list rpc_call) (o : rpc_outcome A) :
  (forall rc o1 o2, rc <> CC_GRPC_STATUS_OK -> exists a, k (rc, o1, o2) = Return a) ->
  replay (rpc_bind (get_container_info id ss sk) k) answers = (calls, o) ->
  (forall path req, (lit path, req) ∈ calls -> lit path = lit GET_CONTAINER) \/
  exists r answers' calls' snapshotter key o1 o2, answers = r :: answers' /\ r.1 = CC_GRPC_STATUS_OK /\
    unpack_container r.2 = Some (Some (snapshotter, key)) /\
    (ss <> None -> o1 = Some snapshotter) /\ (sk <> None -> o2 = Some key) /\
    calls = (lit GET_CONTAINER, pack (GetContainerReq id)) :: calls' /\
    replay (k (CC_GRPC_STATUS_OK, o1, o2)) answers' = (calls', o).
Proof.
  intros Hk. unfold get_container_info. rewrite replay_bind_assoc.
  intros [[-> _]|[[-> _]|(r & answers' & calls' & -> & -> & E)]]%replay_rpc.
  { left. by intros path req ?%elem_of_nil. }
  { left. intros path req [= -> _]%list_elem_of_singleton. done. }
  assert (forall rc o1 o2, rc <> CC_GRPC_STATUS_OK -> replay (k (rc, o1, o2)) answers' = (calls', o) ->
    forall path req, (lit path, req) ∈ (lit GET_CONTAINER, pack (GetContainerReq id)) :: calls' -> lit path = lit GET_CONTAINER) as Hend.
  { intros rc o1 o2 Hrc Er path req Hin. destruct (Hk rc o1 o2 Hrc) as [a Ha]. rewrite Ha in Er. cbn in Er. injection Er as <- <-.
    apply list_elem_of_singleton in Hin. by injection Hin. }
  destruct (Z.eqb_spec r.1 CC_GRPC_STATUS_OK) as [H0|H0]; cbn [negb] in E; [|left; by eapply Hend; [|exact E]].
  destruct (unpack_container r.2) as [[[snapshotter key]|]|] eqn:Eu; [|left; by eapply Hend; [|exact E]..].
  destruct (copy_out ss snapshotter) as [e1 o1] eqn:E1, (copy_out sk key) as [e2 o2] eqn:E2. cbn [rpc_bind] in E.
  destruct (e1 || e2) eqn:Ee; [left; by eapply Hend; [|exact E]|]. apply orb_false_iff in Ee as [-> ->].
  right. exists r, answers', calls', snapshotter, key, o1, o2. split_and!; try done.
  - by apply (copy_out_same _ _ _ _ E1).
  - by apply (copy_out_same _ _ _ _ E2).
Qed.

Lemma delete_record_protocol (h : Z) (id snapshotter key : cstring) (answers : list (Z * bytes)) (calls : list rpc_call)
    (o : rpc_outcome Z) (req : bytes) :
  replay (delete_record h id (Some snapshotter) (Some key)) answers = (calls, o) -> (lit DELETE, req) ∈ calls ->
  calls = match key with [] => [] | _ => [(lit REMOVE, pack (RemoveReq snapshotter key))] end ++
          [(lit DELETE, pack (DeleteContainerReq id))] /\
  (key <> [] -> exists m rest', answers = m :: rest' /\ m.1 = CC_GRPC_STATUS_OK).
Proof.
  unfold delete_record. change (default [] (Some ?s)) with s. destruct key as [|y key].
  { intros E Hin. split; [by apply (replay_status _ _ _ _ _ _ _ _ E Hin)|done]. }
  destruct snapshotter as [|s ss]; [by intros E Hin; cbn in E; injection E as <- _; apply elem_of_nil in Hin|].
  change (streq (s :: ss) []) with false. cbn [cc_ctr_remove_snapshot]. destruct (h <=? 0).
  { intros E Hin. cbn in E. injection E as <- _. by apply elem_of_nil in Hin. }
  unfold rpc_status at 1. rewrite replay_bind_assoc.
  intros [[-> _]|[[-> _]|(m & rest & calls' & -> & -> & E)]]%replay_rpc Hin.
  - by apply elem_of_nil in Hin.
  - by apply list_elem_of_singleton, path_differs in Hin.
  - cbn [rpc_bind] in E. apply elem_of_cons in Hin as [Hin|Hin]; [by apply path_differs in Hin|].
    destruct (Z.eqb_spec m.1 CC_GRPC_STATUS_OK) as [H0|H0]; cbn [negb] in E; [|by apply (replay_return _ _ _ _ _ E) in Hin].
    rewrite (replay_status _ _ _ _ _ _ _ _ E Hin). split; [done|]. eauto.
Qed.

(** the alternate controller never deletes a container that has a task
    or keeps a snapshot.  Whatever the daemon answers, Containers/Delete is
    only called after Tasks/Get was answered NotFound and the record was read,
    and, when the record names a snapshot, after Snapshots/Remove of exactly
    that snapshot succeeded; nothing else is called. *)
Theorem alt_delete_protocol (h : Z) (id : cstring) (answers : list (Z * bytes)) (calls : list rpc_call)
    (o : rpc_outcome Z) (req : bytes) :
  replay (cc_ctr_delete_container h (Some id)) answers = (calls, o) -> (lit DELETE, req) ∈ calls ->
  exists t r rest snapshotter key, answers = t :: r :: rest /\ t.1 = CC_GRPC_STATUS_NOT_FOUND /\ r.1 = CC_GRPC_STATUS_OK /\
    unpack_container r.2 = Some (Some (snapshotter, key)) /\
    let removed := match key with [] => [] | _ => [(lit REMOVE, pack (RemoveReq snapshotter key))] end in
    calls = [(lit GET_TASK, pack (GetTaskReq id)); (lit GET_CONTAINER, pack (GetContainerReq id))] ++
            removed ++ [(lit DELETE, pack (DeleteContainerReq id))] /\
    (key <> [] -> exists m rest', rest = m :: rest' /\ m.1 = CC_GRPC_STATUS_OK).
Proof.
  destruct id as [|x id]; [by intros [= <- _] ?%elem_of_nil|]. unfold cc_ctr_delete_container, cc_ctr_get_task, task_call.
  destruct (h <=? 0); [by intros [= <- _] ?%elem_of_nil|]. rewrite replay_bind_assoc.
  intros [[-> _]|[[-> _]|(t & answers' & calls' & -> & -> & E)]]%replay_rpc Hin.
  { by apply elem_of_nil in Hin. }
  { by apply list_elem_of_singleton, path_differs in Hin. }
  apply elem_of_cons in Hin as [Hin|Hin]; [by apply path_differs in Hin|].
  destruct (Z.eqb_spec t.1 CC_GRPC_STATUS_OK) as [H0|H0]; cbn [negb] in E.
  { exfalso. repeat case_match; cbn in E; injection E as <- _; by apply elem_of_nil in Hin. }
  cbn [rpc_bind fst] in E. rewrite (proj2 (Z.eqb_neq t.1 _)) in E by done.
  destruct (Z.eqb_spec t.1 CC_GRPC_STATUS_NOT_FOUND) as [H5|H5]; cbn [negb] in E; [|by apply (replay_return _ _ _ _ _ E) in Hin].
  destruct (fun H => replay_container _ _ _ _ _ _ _ H E) as [E'|(r & rest & calls & ss & key & o1 & o2 & -> & Hr & Hu & E1 & E2 & -> & E')].
  { intros rc o1 o2 Hrc. cbn [fst snd]. rewrite (proj2 (Z.eqb_neq rc _)) by done. cbn. eauto. }
  { by specialize (E' _ _ Hin). }
  apply elem_of_cons in Hin as [Hin|Hin]; [by apply path_differs in Hin|].
  rewrite E1, E2 in E' by done. destruct (delete_record_protocol h (x :: id) ss key rest calls o req E' Hin) as [-> Hk].
  exists t, r, rest, ss, key. split_and!; try done.
Qed.

(** ** Creating a task *)

(** A mount that is copied is copied whole. *)
Lemma copy_mount_same (m : pb_mount) (c : cc_ctr_mount) : copy_mount m = Some c -> rootfs_of c = m.
Proof.
  assert (forall l l', copy_options l = Some l' -> map Some l' = l) as Ho.
  { induction l as [|[x|] l IH]; intros l'; cbn [copy_options]; [by intros [= <-]| |done].
    destruct (copy_str _ _) as [y|] eqn:E; [|done]. destruct (copy_options l) as [k|]; [|done].
    intros [= <-]. apply copy_str_same in E as ->. cbn. by rewrite (IH k). }
  unfold copy_mount. destruct (copy_str _ (Some (pm_type m))) eqn:E1; [|done].
  destruct (copy_str _ (Some (pm_source m))) eqn:E2; [|done]. destruct (copy_str _ (Some (pm_target m))) eqn:E3; [|done].
  destruct (_ <? _); [done|]. destruct (copy_options _) eqn:E4; [|done]. intros [= <-].
  apply copy_str_same in E1, E2, E3. apply Ho in E4. destruct m. unfold rootfs_of. cbn in *. by subst.
Qed.

Lemma mounts_same (ms : list pb_mount) (cap rc : Z) (cs : list cc_ctr_mount) :
  mounts_to_c ms true cap true = (rc, cs) -> rc = CC_GRPC_STATUS_OK -> map rootfs_of cs = ms.
Proof.
  unfold mounts_to_c. cbn [negb]. rewrite andb_false_r. destruct (_ <? _); [by intros [= <- _]|].
  destruct (copy_mounts ms) as [k|] eqn:E; [|by intros [= <- _]]. intros [= <- <-] _. revert k E.
  induction ms as [|m ms IH]; intros k; cbn [copy_mounts]; [by intros [= <-]|].
  destruct (copy_mount m) as [c|] eqn:Em; [|done]. destruct (copy_mounts ms) as [k'|]; [|done]. intros [= <-].
  cbn. by rewrite (copy_mount_same m c Em), (IH k').
Qed.

(** The options that name a runtime: field 6 of runc's options. *)
Definition named_runtime (bin : option cstring) : option (cstring * bytes) :=
  match bin with None | Some [] => None | Some b => Some (CC_CTR_RUNC_OPTIONS_TYPE_URL, 0x32 :: strlen b :: b) end.

Lemma runtime_options_spec (bin : option cstring) (rc : Z) (options : option (cstring * bytes)) :
  runtime_options bin = (rc, options) -> rc = CC_GRPC_STATUS_OK -> options = named_runtime bin.
Proof.
  unfold runtime_options, named_runtime. destruct bin as [[|x b]|]; cbn [given ctr_pack_runc_value]; [by intros [= _ <-]| |by intros [= _ <-]].
  destruct (Z.ltb_spec 127 (strlen (x :: b))); [by intros [= <- _]|]. destruct (130 <? _); [by intros [= <- _]|].
  intros [= _ <-] _. pose proof (strlen_nonneg (x :: b)). by rewrite wrap_small by lia.
Qed.

(** A record that is only checked. *)
Lemma replay_checked {A} (id : cstring) (k : rpc_prog A) (ret : Z -> A) (answers : list (Z * bytes)) (calls : list rpc_call)
    (o : rpc_outcome A) (path : string) (req : bytes) :
  replay (rpc_bind (get_container_info id None None)
    (fun r => if negb (r.1.1 =? CC_GRPC_STATUS_OK) then Return (ret r.1.1) else k)) answers = (calls, o) ->
  (lit path, req) ∈ calls -> lit path <> lit GET_CONTAINER ->
  exists a rest calls', answers = a :: rest /\ calls = (lit GET_CONTAINER, pack (GetContainerReq id)) :: calls' /\
    replay k rest = (calls', o) /\ (lit path, req) ∈ calls'.
Proof.
  intros E Hin Hp. destruct (fun H => replay_container _ _ _ _ _ _ _ H E)
    as [E'|(r & rest & calls' & ss & key & o1 & o2 & -> & _ & _ & _ & _ & -> & E')].
  - intros rc o1 o2 Hrc. cbn [fst snd]. rewrite (proj2 (Z.eqb_neq rc _)) by done. cbn. eauto.
  - by specialize (E' _ _ Hin).
  - cbn [fst Z.eqb negb] in E'. exists r, rest, calls'. split_and!; try done.
    apply elem_of_cons in Hin as [Hin|Hin]; [|done]. by apply path_differs in Hin.
Qed.

Lemma submit_task_protocol (id : cstring) (mounts : list cc_ctr_mount) (out err bin : option cstring)
    (answers : list (Z * bytes)) (calls : list rpc_call) (o : rpc_outcome (Z * option Z)) (req : bytes) :
  replay (submit_task id mounts out err bin) answers = (calls, o) -> (lit CREATE_TASK, req) ∈ calls ->
  let get := (lit GET_CONTAINER, pack (GetContainerReq id)) in
  let task := TaskRecord id (map rootfs_of mounts) [] (default [] out) (default [] err) (named_runtime bin) in
  calls = [get; get; (lit CREATE_TASK, pack (CreateTaskReq task))].
Proof.
  intros E Hin. cbv zeta. unfold submit_task in E.
  apply (replay_checked id _ (fun rc => (rc, Some 0)) _ _ _ CREATE_TASK req) in E as (a & rest & calls1 & _ & -> & E & Hin1); [|done|done].
  apply (replay_checked id _ (fun rc => (rc, Some 0)) _ _ _ CREATE_TASK req) in E as (a' & rest' & calls2 & _ & -> & E & Hin2); [|done|done].
  destruct (runtime_options bin) as [rc options] eqn:Eo.
  destruct (Z.eqb_spec rc CC_GRPC_STATUS_OK) as [Hrc|]; cbn [negb] in E; [|by apply (replay_return _ _ _ _ _ E) in Hin2].
  rewrite (runtime_options_spec bin rc options Eo Hrc) in E.
  destruct (_ <? _) in E; [by apply (replay_return _ _ _ _ _ E) in Hin2|].
  apply replay_rpc in E as [[-> _]|[[-> _]|(b & rest2 & calls3 & _ & -> & E)]]; [by apply elem_of_nil in Hin2|done|].
  enough (calls3 = []) as -> by done. repeat case_match; cbn in E; by injection E as <- _.
Qed.

(** C36: a task of the alternate controller runs on the mounts of its own
    container.  Whatever the daemon answers, Tasks/Create is only called for
    the container whose record was read first, and its rootfs is, mount by
    mount and option by option, what Snapshots/Mounts answered for the
    snapshot of that record (none when the record has none); a named runtime
    goes along as field 6 of runc's options, and nothing else does. *)
Theorem alt_task_on_its_mounts (h : Z) (id : cstring) (out err bin : option cstring)
    (answers : list (Z * bytes)) (calls : list rpc_call) (o : rpc_outcome (Z * option Z)) (req : bytes) :
  replay (cc_ctr_create_task h (Some id) out err bin) answers = (calls, o) -> (lit CREATE_TASK, req) ∈ calls ->
  exists r rest snapshotter key mounts, answers = r :: rest /\ r.1 = CC_GRPC_STATUS_OK /\
    unpack_container r.2 = Some (Some (snapshotter, key)) /\
    match key with
    | [] => mounts = []
    | _ => exists m rest', rest = m :: rest' /\ m.1 = CC_GRPC_STATUS_OK /\ unpack_mounts m.2 = Some mounts
    end /\
    let get := (lit GET_CONTAINER, pack (GetContainerReq id)) in
    let asked := match key with [] => [] | _ => [(lit MOUNTS, pack (MountsReq snapshotter key))] end in
    calls = [get] ++ asked ++ [get; get; (lit CREATE_TASK,
      pack (CreateTaskReq (TaskRecord id mounts [] (default [] out) (default [] err) (named_runtime bin))))].
Proof.
  destruct id as [|x id]; [by intros [= <- _] ?%elem_of_nil|]. unfold cc_ctr_create_task.
  destruct (h <=? 0) eqn:Eh; [by intros [= <- _] ?%elem_of_nil|]. intros E Hin.
  destruct (fun H => replay_container _ _ _ _ _ _ _ H E)
    as [E'|(r & rest & calls' & ss & key & o1 & o2 & -> & Hr & Hu & E1 & E2 & -> & E')].
  { intros rc o1 o2 Hrc. cbn [fst snd]. rewrite (proj2 (Z.eqb_neq rc _)) by done. cbn. eauto. }
  { by specialize (E' _ _ Hin). }
  apply elem_of_cons in Hin as [Hin|Hin]; [by apply path_differs in Hin|].
  rewrite E1, E2 in E' by done. cbn [fst snd Z.eqb negb] in E'. change (default [] (Some ?s)) with s in E'.
  destruct key as [|y key].
  { rewrite (submit_task_protocol _ _ _ _ _ _ _ _ _ E' Hin). by exists r, rest, ss, [], []. }
  destruct ss as [|s ss]; [cbn in E'; injection E' as <- _; by apply elem_of_nil in Hin|].
  change (streq (s :: ss) []) with false in E'. cbn [cc_ctr_mounts] in E'. rewrite Eh in E'. change (CC_GRPC_STATUS_OK =? CC_GRPC_STATUS_OK) with true in E'. cbn [negb] in E'. rewrite replay_bind_assoc in E'.
  apply replay_rpc in E' as [[-> _]|[[-> _]|(m & rest' & calls2 & -> & -> & E3)]].
  { by apply elem_of_nil in Hin. }
  { by apply list_elem_of_singleton, path_differs in Hin. }
  apply elem_of_cons in Hin as [Hin|Hin]; [by apply path_differs in Hin|]. unfold mounts_result in E3.
  destruct (Z.eqb_spec m.1 CC_GRPC_STATUS_OK) as [H0|H0]; cbn [negb] in E3;
    [|cbn [rpc_bind fst] in E3; rewrite (proj2 (Z.eqb_neq m.1 _)) in E3 by done; by apply (replay_return _ _ _ _ _ E3) in Hin].
  destruct (unpack_mounts m.2) as [ms|] eqn:Em; [|by apply (replay_return _ _ _ _ _ E3) in Hin].
  cbn [rpc_bind] in E3. destruct (mounts_to_c ms true CC_CTR_MAX_MOUNTS true) as [rc cs] eqn:Ec. cbn [fst snd] in E3.
  destruct (Z.eqb_spec rc CC_GRPC_STATUS_OK) as [Hrc|]; cbn [negb] in E3; [|by apply (replay_return _ _ _ _ _ E3) in Hin].
  rewrite (submit_task_protocol _ _ _ _ _ _ _ _ _ E3 Hin), (mounts_same ms _ _ cs Ec Hrc).
  exists r, (m :: rest'), (s :: ss), (y :: key), ms. split_and!; try done. eauto.
Qed.

End Facts.

(** ** A daemon *)

(** Codecs that keep what the examples need. *)
Definition sample_codecs : CcCodecs := {|
  pack r := match r with
            | GetImageReq s | ReadContentReq s _ _ | GetContainerReq s | DeleteContainerReq s | GetTaskReq s => s
            | RemoveReq a b | MountsReq a b => a ++ [0] ++ b
            | CreateTaskReq t => tr_container_id t ++ [0] ++ concat (map pm_source (tr_rootfs t))
            | _ => []
            end;
  unpack_image b := Some (Some (b, Some (b, 2)));
  unpack_content b := Some b;
  unpack_mounts b := Some [PbMount (lit "overlay") b [] [Some (lit "lowerdir=/a"); Some (lit "ro")]];
  unpack_stat _ := None;
  unpack_container b := Some (Some (lit "overlayfs", b));
  unpack_pid _ := Some 42;
  unpack_process _ := None;
  unpack_exit _ := None;
|}.
#[local] Existing Instance sample_codecs.

Definition sample_ids : list cstring := [lit "sha256:0a"; lit "sha256:0b"].
Definition sample_manifest : jval :=
  JObj [(lit "config", JObj [(lit "digest", JStr (lit "sha256:cc")); (lit "size", JInt 7)])].
Definition sample_config : jval :=
  JObj [(lit "os", JStr (lit "linux")); (lit "rootfs", JObj [(lit "diff_ids", JArr (map JStr sample_ids))])].

Lemma sample_blobs : blob_of sample_manifest ([10] ++ render sample_manifest ++ []) /\
  blob_of sample_config ([] ++ render sample_config ++ [10]).
Proof.
  assert (forall s, text_ok (lit s)) as Ht by (intros s; eapply Forall_impl; [apply lit_bytes_ok|by intros c [? ?]]).
  split; split; try (by apply readable_checked; vm_compute); try (by vm_compute).
  - eexists [10], _, []. split_and!; try done. apply render_spells. cbn [doc_ok sample_manifest fst snd].
    repeat split; try lia; apply Ht.
  - eexists [], _, [10]. split_and!; try done. apply render_spells. cbn [doc_ok sample_config sample_ids map fst snd].
    repeat split; apply Ht.
Qed.

Lemma alt_chain_id_is_oci_witness :
  replay (cc_ctr_resolve_chainid 1 (Some (lit "img")) (Some 256))
    [(0, lit "sha256:mm"); (0, [10] ++ render sample_manifest ++ []); (0, [] ++ render sample_config ++ [10])] =
    ([(lit GET_IMAGE, lit "img"); (lit READ, lit "sha256:mm"); (lit READ, lit "sha256:cc")],
     Done (0, Some (ChainID sample_ids))).
Proof.
  destruct sample_blobs as [Hm Hc].
  refine (alt_chain_id_is_oci 1 (lit "img") 256 (lit "sha256:mm") (lit "sha256:mm") 2 sample_manifest sample_config
    (lit "sha256:cc") 7 sample_ids (lit "sha256:mm") _ _ _ _ _ _ _ _ _ _ _ _ _ _ Hm _ Hc _); try done.
Defined.

(** A container with a snapshot and no task. *)
Definition deletion := replay (cc_ctr_delete_container 1 (Some (lit "c"))) [(5, []); (0, lit "snap"); (0, []); (0, [])].

Lemma alt_delete_protocol_witness : deletion.2 = Done 0 /\
  exists t r rest snapshotter key, [(5, []); (0, lit "snap"); (0, []); (0, [])] = t :: r :: rest /\
    t.1 = CC_GRPC_STATUS_NOT_FOUND /\ r.1 = CC_GRPC_STATUS_OK /\
    unpack_container r.2 = Some (Some (snapshotter, key)) /\
    let removed := match key with [] => [] | _ => [(lit REMOVE, pack (RemoveReq snapshotter key))] end in
    deletion.1 = [(lit GET_TASK, pack (GetTaskReq (lit "c"))); (lit GET_CONTAINER, pack (GetContainerReq (lit "c")))] ++
      removed ++ [(lit DELETE, pack (DeleteContainerReq (lit "c")))] /\
    (key <> [] -> exists m rest', rest = m :: rest' /\ m.1 = CC_GRPC_STATUS_OK).
Proof.
  split; [by vm_compute|].
  apply (alt_delete_protocol 1 (lit "c") [(5, []); (0, lit "snap"); (0, []); (0, [])] deletion.1 deletion.2 (lit "c")).
  - exact (surjective_pairing deletion).
  - vm_compute. do 3 right. left.
Defined.

(** A task for a container with a snapshot, on a named runtime. *)
Definition creation := replay (cc_ctr_create_task 1 (Some (lit "c")) (Some (lit "file:///o")) None (Some (lit "/usr/bin/nv")))
  [(0, lit "snap"); (0, lit "/mnt"); (0, []); (0, []); (0, [])].

Lemma alt_task_on_its_mounts_witness : creation.2 = Done (0, Some 42) /\
  exists r rest snapshotter key mounts, [(0, lit "snap"); (0, lit "/mnt"); (0, []); (0, []); (0, [])] = r :: rest /\
    r.1 = CC_GRPC_STATUS_OK /\ unpack_container r.2 = Some (Some (snapshotter, key)) /\
    match key with
    | [] => mounts = []
    | _ => exists m rest', rest = m :: rest' /\ m.1 = CC_GRPC_STATUS_OK /\ unpack_mounts m.2 = Some mounts
    end /\
    let get := (lit GET_CONTAINER, pack (GetContainerReq (lit "c"))) in
    let asked := match key with [] => [] | _ => [(lit MOUNTS, pack (MountsReq snapshotter key))] end in
    creation.1 = [get] ++ asked ++ [get; get; (lit CREATE_TASK,
      pack (CreateTaskReq (TaskRecord (lit "c") mounts [] (lit "file:///o") [] (named_runtime (Some (lit "/usr/bin/nv"))))))].
Proof.
  split; [by vm_compute|].
  apply (alt_task_on_its_mounts 1 (lit "c") (Some (lit "file:///o")) None (Some (lit "/usr/bin/nv"))
           [(0, lit "snap"); (0, lit "/mnt"); (0, []); (0, []); (0, [])] creation.1 creation.2 (lit "c" ++ [0] ++ lit "/mnt")).
  - exact (surjective_pairing creation).
  - vm_compute. do 4 right. left.
Defined.

(** ** At the limits *)

(** Two layers whose texts and blank fill [tmp] exactly are copied with a NUL
    past its end. *)
Theorem chain_overruns_tmp :
  chain_of [replicate 127 97; replicate 128 98] 256 = Undef.
Proof. vm_compute. reflexivity. Qed.

(** A parent buffer that is too small is reported as -1, the code of an
    expired deadline. *)
Theorem small_parent_is_minus_one (d : cstring) (cap : Z) : strlen d < CC_CTR_DIGEST_MAX -> 0 < cap <= strlen d ->
  chain_of [d] cap = Return (-1, None).
Proof.
  intros Hd Hc. cbn [chain_of]. rewrite copy_str_fits by done. cbn [chain_layers]. unfold copy_str.
  change (default [] (Some d)) with d. rewrite (proj2 (Z.eqb_neq cap 0)), (proj2 (Z.ltb_lt cap (strlen d + 1))) by lia. done.
Qed.

(** A record is asked for with a request that is packed into 256 bytes,
    however long the id is. *)
Theorem long_id_overruns_request {C : CcCodecs} (h : Z) (id : cstring) (ss sk : option Z) (answers : list (Z * bytes)) :
  0 < h -> id <> [] -> 256 < strlen (pack (GetContainerReq id)) ->
  replay (cc_ctr_get_container h (Some id) ss sk) answers = ([], Broken).
Proof.
  intros Hh Hid Hl. destruct id as [|x id]; [done|]. cbn [cc_ctr_get_container]. rewrite (proj2 (Z.leb_gt h 0)) by done.
  unfold get_container_info, rpc. by rewrite (proj2 (Z.ltb_lt _ _)).
Qed.
