(* ===== verification/CcHttp.v ===== *)
(** * The HTTP lane of the alternate controller
    (core/controller/alternate/c/cc_http.c)

    One libwebsockets callback serves requests and WebSocket clients, over
    four client slots.  The library and the handlers in assembly are
    parameters: what they answer during a callback is the record [answers],
    and what the code asks of them is a list of events, in order.  The
    theorems are about every order of callbacks that the library documents
    ([lws_step]). *)

From S2P Require Import Prelude Http Double Config EnvFile CLib Wire Controller ControllerFacts CtlSpec Wiring HttpFacts DurationFacts Json JsonFacts Callbacks CallbacksFacts Notify.

Definition CC_HTTP_ERR_BADJSON : Z := -100.
Definition CC_HTTP_MAX_WS_CLIENTS : nat := 4.
Definition CC_HTTP_STATUS_MAX : Z := 4096.
Definition CC_HTTP_ERRBUF_MAX : Z := 256.
Definition CC_HTTP_BODY_MAX : Z := 16384.
Definition CC_HTTP_URI_MAX : Z := 128.

(** ** State *)

(** A slot is free when its connection is NULL.  [pending] holds the first
    [pending_len] bytes of the queued frame. *)
Record cc_http_client := HttpClient {
  hc_wsi : option nat;
  hc_client_idx : Z;
  hc_has_pending : bool;
  hc_pending : bytes;
  hc_deadline_ns : Z;
}.

(** [memset(g_clients, 0, ...)] *)
Definition no_client : cc_http_client := HttpClient None 0 false [] 0.

(** [HTTP_M_NONE] and [ROUTE_NONE] are [None].  [hs_body] holds the bytes
    copied so far; [hs_body_len] is their number, or the overflow marker. *)
Record http_session := HttpSession {
  hs_client_idx : Z;
  hs_method : option http_method;
  hs_route : option http_route;
  hs_handled : bool;
  hs_uri : bytes;
  hs_body : bytes;
  hs_body_len : Z;
}.

(** The zeroed user space of a new connection. *)
Definition zero_session : http_session := HttpSession 0 None None false [] [] 0.

Definition with_handled (s : http_session) : http_session :=
  HttpSession (hs_client_idx s) (hs_method s) (hs_route s) true (hs_uri s) (hs_body s) (hs_body_len s).
Definition with_idx (i : Z) (s : http_session) : http_session :=
  HttpSession i (hs_method s) (hs_route s) (hs_handled s) (hs_uri s) (hs_body s) (hs_body_len s).
Definition with_body (b : bytes) (n : Z) (s : http_session) : http_session :=
  HttpSession (hs_client_idx s) (hs_method s) (hs_route s) (hs_handled s) (hs_uri s) b n.

(** The static variables; [g_controller] is handed to the handlers only. *)
Record http_globals := Globals {
  g_ctx : bool;
  g_write_timeout_ns : Z;
  g_shutdown : bool;
  g_service_loop : bool;
  g_clients : list cc_http_client;
}.

Definition with_clients (cs : list cc_http_client) (g : http_globals) : http_globals :=
  Globals (g_ctx g) (g_write_timeout_ns g) (g_shutdown g) (g_service_loop g) cs.

(** What is asked of libwebsockets and of the handlers.  [Undefined] marks a
    read past a buffer. *)
Inductive lws_event :=
  | WriteHeaders (wsi : nat) (hdr : bytes)
  | WriteBody (wsi : nat) (body : bytes)
  | WriteText (wsi : nat) (frame : bytes)
  | Complete (wsi : nat)
  | CloseReason (wsi : nat) (code : Z) (text : bytes)
  | OnWritable (wsi : nat)
  | NoTimeout (wsi : nat)
  | HandleStatus
  | HandleControl (body : bytes)
  | HandleEvent (body : bytes)
  | WsConnect (idx : nat) (rc : Z)
  | WsDisconnect (idx : nat)
  | CancelService
  | DestroyContext
  | Undefined.

(** What the library and the handlers answer during one callback.  A write is
    complete or not; [a_connection] is what lws_hdr_copy gives ([None]: an
    error); a handler that notifies the listeners makes the calls
    [a_sends] of cc_http_ws_send_text. *)
Record answers := Answers {
  a_connection : option bytes;
  a_headers_ok : bool;
  a_body_ok : bool;
  a_text_ok : bool;
  a_completed : Z;
  a_status : Z * bytes;
  a_post : Z * cstring;
  a_connect : Z;
  a_sends : list (Z * bytes);
  a_now : Z;
}.

(** ** Requests *)

Definition route_for (uri : bytes) : http_route :=
  if streq uri (lit "/event") then ROUTE_EVENT
  else if streq uri (lit "/control") then ROUTE_CONTROL
  else if streq uri (lit "/status") then ROUTE_STATUS
  else if streq uri (lit "/subscribe") then ROUTE_SUBSCRIBE
  else if streq uri (lit "/healthz") then ROUTE_HEALTHZ
  else ROUTE_UNKNOWN.

(** [strcasestr(s, p) != NULL]; [p] is in lower case. *)
Definition strcasestr (s p : cstring) : bool :=
  match strstr p (map tolower s) with Some _ => true | None => false end.

Definition conn_wants_close (a : answers) : bool :=
  match a_connection a with
  | None => false
  | Some v => if strlen v <=? 0 then false else strcasestr (c_string v) (lit "close")
  end.

Definition status_text (status : Z) : cstring :=
  if status =? 200 then lit "OK"
  else if status =? 204 then lit "No Content"
  else if status =? 400 then lit "Bad Request"
  else if status =? 404 then lit "Not Found"
  else if status =? 405 then lit "Method Not Allowed"
  else if status =? 413 then lit "Request Entity Too Large"
  else if status =? 426 then lit "Upgrade Required"
  else if status =? 500 then lit "Internal Server Error"
  else lit "Unknown".

(** [n += snprintf(hdr + n, sizeof(hdr) - n, ...)] on [char hdr[512]]; [None]
    once a text was cut, because [n] then is past what was written. *)
Definition hdr_put (s : cstring) (hdr : option bytes) : option bytes :=
  match hdr with
  | None => None
  | Some h => if strlen (h ++ s) <? 512 then Some (h ++ s) else None
  end.

Definition hdr_put_if (b : bool) (s : cstring) (hdr : option bytes) : option bytes :=
  if b then hdr_put s hdr else hdr.

Definition response_header (status : Z) (extra_headers content_type : option cstring) (nosniff : bool)
    (body_len : Z) (close : bool) : option bytes :=
  let h := hdr_put (lit "HTTP/1.1 " ++ fmt_i64 status ++ lit " ") (Some []) in
  let h := hdr_put (status_text status) h in
  let h := hdr_put crlf h in
  let h := match extra_headers with Some e => hdr_put e h | None => h end in
  let h := match content_type with Some t => hdr_put (lit "Content-Type: " ++ t ++ crlf) h | None => h end in
  let h := hdr_put_if nosniff (lit "X-Content-Type-Options: nosniff" ++ crlf) h in
  let h := hdr_put_if (negb (status =? 204)) (lit "Content-Length: " ++ fmt_i64 body_len ++ crlf) h in
  let h := hdr_put_if close (lit "Connection: close" ++ crlf) h in
  hdr_put crlf h.

Definition http_respond (a : answers) (wsi : nat) (status : Z) (extra_headers content_type : option cstring)
    (nosniff : bool) (body : bytes) (close : bool) : Z * list lws_event :=
  match response_header status extra_headers content_type nosniff (strlen body) close with
  | None => (-1, [Undefined])
  | Some hdr =>
      if negb (a_headers_ok a) then (-1, [WriteHeaders wsi hdr])
      else if 0 <? strlen body then
        if a_body_ok a then (0, [WriteHeaders wsi hdr; WriteBody wsi body]) else (-1, [WriteHeaders wsi hdr; WriteBody wsi body])
      else (0, [WriteHeaders wsi hdr])
  end.

(** [if (http_respond(...) < 0) return -1; return lws_http_transaction_completed(wsi);] *)
Definition respond_complete (a : answers) (wsi : nat) (status : Z) (extra_headers content_type : option cstring)
    (nosniff : bool) (body : bytes) (close : bool) : Z * list lws_event :=
  let '(rc, es) := http_respond a wsi status extra_headers content_type nosniff body close in
  if rc <? 0 then (-1, es) else (a_completed a, es ++ [Complete wsi]).

(** A text of [snprintf] that is sent with the returned length: past the end
    of the buffer when it was cut. *)
Definition respond_formatted (cap : Z) (a : answers) (wsi : nat) (status : Z) (extra_headers content_type : option cstring)
    (nosniff : bool) (text : bytes) (close : bool) : Z * list lws_event :=
  if cap <=? strlen text then (-1, [Undefined])
  else respond_complete a wsi status extra_headers content_type nosniff text close.

(** ** Queueing a frame *)

(** [bytes]: NULL or the [len] bytes. *)
Definition cc_http_ws_send_text (client : Z) (bytes : option bytes) (g : http_globals) : Z * http_globals * list lws_event :=
  match bytes with
  | None => (-1, g, [])
  | Some b =>
      if (strlen b =? 0) || (CC_HTTP_STATUS_MAX <? strlen b) then (-1, g, [])
      else if (client <? 0) || (Z.of_nat CC_HTTP_MAX_WS_CLIENTS <=? client) then (-1, g, [])
      else
        match g_clients g !! Z.to_nat client with
        | Some c =>
            match hc_wsi c with
            | None => (-1, g, [])
            | Some wsi =>
                (0, with_clients (<[Z.to_nat client :=
                       HttpClient (Some wsi) (hc_client_idx c) true b (hc_deadline_ns c)]> (g_clients g)) g, [OnWritable wsi])
            end
        | None => (-1, g, [])
        end
  end.

(** The listeners a handler notified. *)
Fixpoint notified (sends : list (Z * bytes)) (g : http_globals) : http_globals * list lws_event :=
  match sends with
  | [] => (g, [])
  | (client, b) :: sends =>
      let '(_, g, es) := cc_http_ws_send_text client (Some b) g in
      let '(g, es') := notified sends g in (g, es ++ es')
  end.

Definition cc_http_ws_client_count (g : http_globals) : nat :=
  length (List.filter (fun c => bool_decide (hc_wsi c <> None)) (g_clients g)).

(** ** Dispatch *)

Definition method_not_allowed (a : answers) (wsi : nat) (close : bool) : Z * list lws_event :=
  respond_complete a wsi 405 None text_plain true (lit "method not allowed" ++ [10]) close.

Definition dispatch_status (a : answers) (wsi : nat) (s : http_session) (close : bool) : Z * list lws_event :=
  if negb (bool_decide (hs_method s = Some HTTP_M_GET)) then method_not_allowed a wsi close
  else
    let '(rc, out) := a_status a in
    let '(r, es) :=
      if negb (rc =? 0) then respond_complete a wsi 500 None text_plain true [] close
      else if CC_HTTP_STATUS_MAX <? strlen out then (-1, [Undefined])
      else respond_complete a wsi 200 None (Some (lit "application/json")) false out close in
    (r, HandleStatus :: es).

(** The answer to a handler's result: [errbuf] holds the text [err]. *)
Definition answer_post (a : answers) (wsi : nat) (close : bool) : Z * list lws_event :=
  let '(rc, err) := a_post a in
  if rc =? CC_HTTP_ERR_BADJSON then
    respond_formatted (CC_HTTP_ERRBUF_MAX + 16) a wsi 400 None text_plain true (lit "bad json: " ++ err ++ [10]) close
  else if negb (rc =? 0) then
    if strlen err + 1 <? CC_HTTP_ERRBUF_MAX
    then respond_complete a wsi 500 None text_plain true (err ++ [10]) close
    else respond_complete a wsi 500 None text_plain true err close
  else respond_complete a wsi 204 None None false [] close.

Definition dispatch_post (a : answers) (wsi : nat) (s : http_session) (route : http_route) (close : bool) (g : http_globals)
  : Z * http_globals * list lws_event :=
  if negb (bool_decide (hs_method s = Some HTTP_M_POST)) then
    let '(rc, es) := method_not_allowed a wsi close in (rc, g, es)
  else if CC_HTTP_BODY_MAX <? hs_body_len s then
    let '(rc, es) := respond_complete a wsi 413 None text_plain true [] close in (rc, g, es)
  else
    let call := if bool_decide (route = ROUTE_EVENT) then HandleEvent (hs_body s) else HandleControl (hs_body s) in
    let '(g, sent) := notified (a_sends a) g in
    let '(rc, es) := answer_post a wsi close in
    (rc, g, call :: sent ++ es).

(** A request to /subscribe without an upgrade. *)
Definition dispatch_subscribe (a : answers) (wsi : nat) (close : bool) : Z * list lws_event :=
  let conn := c_string (default [] (a_connection a)) in
  respond_formatted 256 a wsi 426 (Some (lit "Upgrade: websocket" ++ crlf)) text_plain true
    (lit "WebSocket protocol violation: Connection header " ++ [34] ++ conn ++ [34] ++ lit " does not contain Upgrade" ++ [10])
    close.

Definition http_dispatch (a : answers) (wsi : nat) (s : http_session) (g : http_globals)
  : Z * http_session * http_globals * list lws_event :=
  let close := conn_wants_close a in
  if hs_handled s then (0, s, g, [])
  else
    let s := with_handled s in
    let plain (r : Z * list lws_event) := (r.1, s, g, r.2) in
    match hs_route s with
    | Some ROUTE_UNKNOWN =>
        plain (respond_complete a wsi 404 None text_plain true (lit "404 page not found" ++ [10]) close)
    | Some ROUTE_HEALTHZ => plain (respond_complete a wsi 200 None text_plain false (lit "ok" ++ [10]) close)
    | Some ROUTE_STATUS => plain (dispatch_status a wsi s close)
    | Some ROUTE_SUBSCRIBE => plain (dispatch_subscribe a wsi close)
    | Some route => let '(rc, g, es) := dispatch_post a wsi s route close g in (rc, s, g, es)
    | None => plain (0, [])
    end.

(** ** The callback *)

Inductive lws_reason :=
  | CbHttp (m : http_method) (uri : bytes)
  | CbHttpBody (data : bytes)
  | CbHttpBodyCompletion
  | CbConfirmUpgrade (m : http_method) (uri : bytes)
  | CbEstablished
  | CbServerWriteable
  | CbReceive
  | CbPeerInitiatedClose
  | CbClosed
  | CbClosedHttp
  | CbOther.

Definition LWS_CLOSE_STATUS_NORMAL : Z := 1000.
Definition LWS_CLOSE_STATUS_POLICY_VIOLATION : Z := 1008.
Definition LWS_CLOSE_STATUS_UNEXPECTED_CONDITION : Z := 1011.

(** The result of the callback, with what it leaves and asks for. *)
Notation outcome := (Z * http_session * http_globals * list lws_event)%type.

(** A URI that is NULL has the length 0. *)
Definition cb_http (a : answers) (wsi : nat) (m : http_method) (uri : bytes) (g : http_globals) : outcome :=
  let uri := take (Z.to_nat (CC_HTTP_URI_MAX - 1)) uri in
  let s := HttpSession (-1) (Some m) (Some (route_for uri)) false uri [] 0 in
  if bool_decide (m = HTTP_M_POST) then (0, s, g, []) else http_dispatch a wsi s g.

Definition cb_http_body (data : bytes) (s : http_session) (g : http_globals) : outcome :=
  if u32 (hs_body_len s + u32 (strlen data)) <=? CC_HTTP_BODY_MAX then
    if CC_HTTP_BODY_MAX <? hs_body_len s + strlen data then (0, s, g, [Undefined])
    else (0, with_body (hs_body s ++ data) (u32 (hs_body_len s + u32 (strlen data))) s, g, [])
  else (0, with_body (hs_body s) (CC_HTTP_BODY_MAX + 1) s, g, []).

(** The dispatch of an upgrade elsewhere has a session of its own. *)
Definition cb_confirm_upgrade (a : answers) (wsi : nat) (m : http_method) (uri : bytes) (s : http_session) (g : http_globals)
  : outcome :=
  if negb (streq uri (lit "/subscribe")) then
    let tmp := HttpSession (-1) (Some m) (Some (route_for uri)) false (take (Z.to_nat (CC_HTTP_URI_MAX - 1)) uri) [] 0 in
    let '(rc, _, g, es) := http_dispatch a wsi tmp g in
    (if rc <? 0 then -1 else 1, s, g, es)
  else if negb (bool_decide (m = HTTP_M_GET)) then
    let name := if bool_decide (m = HTTP_M_POST) then lit "POST" else lit "?" in
    let '(rc, es) :=
      http_respond a wsi 405 None text_plain true
        (lit "WebSocket protocol violation: handshake request method is not GET but " ++ [34] ++ name ++ [34])
        (conn_wants_close a) in
    (if rc <? 0 then -1 else 1, s, g, es)
  else (0, s, g, []).

(** The first free slot. *)
Fixpoint free_slot (cs : list cc_http_client) : option nat :=
  match cs with
  | [] => None
  | c :: cs' => if bool_decide (hc_wsi c = None) then Some O else option_map S (free_slot cs')
  end.

Definition cb_established (a : answers) (wsi : nat) (s : http_session) (g : http_globals) : outcome :=
  match free_slot (g_clients g) with
  | None => (-1, s, g, [CloseReason wsi LWS_CLOSE_STATUS_POLICY_VIOLATION (take 18 (lit "too many ws clients"))])
  | Some i =>
      let s := with_idx (Z.of_nat i) s in
      let g := with_clients (<[i := HttpClient (Some wsi) (Z.of_nat i) false [] 0]> (g_clients g)) g in
      let '(g, sent) := notified (a_sends a) g in
      if negb (a_connect a =? 0) then
        (-1, s, g, WsConnect i (a_connect a) :: sent ++
           [CloseReason wsi LWS_CLOSE_STATUS_UNEXPECTED_CONDITION (take 22 (lit "could not add listener"))])
      else (0, s, g, WsConnect i (a_connect a) :: sent)
  end.

Definition write_pending (a : answers) (wsi : nat) (i : nat) (c : cc_http_client) (g : http_globals)
  : Z * http_globals * list lws_event :=
  let deadline := u64 (a_now a + g_write_timeout_ns g) in
  let put has g := with_clients (<[i := HttpClient (hc_wsi c) (hc_client_idx c) has (hc_pending c) deadline]> (g_clients g)) g in
  if (g_write_timeout_ns g =? 0) || (deadline <=? a_now a) then
    (-1, put true g, [CloseReason wsi LWS_CLOSE_STATUS_UNEXPECTED_CONDITION []])
  else if negb (a_text_ok a) then
    (-1, put true g, [WriteText wsi (hc_pending c); CloseReason wsi LWS_CLOSE_STATUS_UNEXPECTED_CONDITION []])
  else (0, put false g, WriteText wsi (hc_pending c) :: (if g_shutdown g then [NoTimeout wsi] else [])).

(** An index past the table does not occur: see [alt_slots_consistent]. *)
Definition cb_server_writeable (a : answers) (wsi : nat) (s : http_session) (g : http_globals) : outcome :=
  if hs_client_idx s <? 0 then (0, s, g, [])
  else
    match g_clients g !! Z.to_nat (hs_client_idx s) with
    | None => (0, s, g, [Undefined])
    | Some c =>
        if negb (bool_decide (hc_wsi c = Some wsi)) then (0, s, g, [])
        else if hc_has_pending c then
          let '(rc, g, es) := write_pending a wsi (Z.to_nat (hs_client_idx s)) c g in (rc, s, g, es)
        else if g_shutdown g then (-1, s, g, [CloseReason wsi LWS_CLOSE_STATUS_NORMAL []])
        else (0, s, g, [])
    end.

Definition cb_closed (s : http_session) (g : http_globals) : outcome :=
  if hs_client_idx s <? 0 then (0, s, g, [])
  else
    let i := Z.to_nat (hs_client_idx s) in
    match g_clients g !! i with
    | None => (0, s, g, [Undefined])
    | Some c =>
        (0, with_idx (-1) s,
         with_clients (<[i := HttpClient None (hc_client_idx c) false [] (hc_deadline_ns c)]> (g_clients g)) g,
         [WsDisconnect i])
    end.

Definition http_cb (a : answers) (wsi : nat) (reason : lws_reason) (s : http_session) (g : http_globals) : outcome :=
  match reason with
  | CbHttp m uri => cb_http a wsi m uri g
  | CbHttpBody data => cb_http_body data s g
  | CbHttpBodyCompletion => http_dispatch a wsi s g
  | CbConfirmUpgrade m uri => cb_confirm_upgrade a wsi m uri s g
  | CbEstablished => cb_established a wsi s g
  | CbServerWriteable => cb_server_writeable a wsi s g
  | CbReceive => (0, s, g, [])
  | CbPeerInitiatedClose => (1, s, g, [CloseReason wsi LWS_CLOSE_STATUS_NORMAL []])
  | CbClosed => cb_closed s g
  | CbClosedHttp | CbOther => (0, s, g, [])
  end.

(** ** Start *)

Fixpoint after_colon (p : cstring) : cstring :=
  match p with [] => [] | c :: p' => if c =? chr ":" then p' else after_colon p' end.

Fixpoint port_loop (p : cstring) (port : Z) : option Z :=
  match p with
  | c :: p' =>
      if is_digit c then if 65535 / 10 <? port then None else port_loop p' (port * 10 + digit c) else Some port
  | [] => Some port
  end.

(** [timeout]: what cc_env_dur answers; [created], [vhost]: whether the
    library's calls succeed.  The result comes with the port that was asked
    for. *)
Definition cc_http_server_init (addr : option cstring) (controller : bool) (timeout : Z) (created vhost : bool) (g : http_globals)
  : Z * option Z * http_globals :=
  match addr with
  | None => (-1, None, g)
  | Some addr =>
      if negb controller then (-1, None, g)
      else
        match port_loop (after_colon addr) 0 with
        | None => (-1, None, g)
        | Some port =>
            if (port <=? 0) || (65535 <? port) then (-1, None, g)
            else
              let no_ctx := Globals false (g_write_timeout_ns g) (g_shutdown g) (g_service_loop g) (g_clients g) in
              if negb created then (-1, Some port, no_ctx)
              else if negb vhost then (-1, Some port, no_ctx)
              else (0, Some port, Globals true timeout false (g_service_loop g) (replicate CC_HTTP_MAX_WS_CLIENTS no_client))
        end
  end.

(** ** The library's side

    A connection is plain HTTP until its WebSocket is established; a callback
    that does not return 0 has it closed.  A writable callback comes only
    after it was asked for. *)

Inductive phase := Plain | Open | Dying.

#[global] Instance phase_eq_dec : EqDecision phase.
Proof. solve_decision. Defined.

Record conn := Conn { cn_session : http_session; cn_phase : phase; cn_wants : bool }.

Record lws_world := World { w_g : http_globals; w_conns : gmap nat conn }.

Definition new_conn : conn := Conn zero_session Plain false.
Definition conn_of (w : lws_world) (wsi : nat) : conn := default new_conn (w_conns w !! wsi).

Record callback := Call { call_wsi : nat; call_reason : lws_reason; call_answers : answers }.

Definition next_phase (reason : lws_reason) (rc : Z) (p : phase) : phase :=
  match reason with
  | CbEstablished => if rc =? 0 then Open else Dying
  | CbServerWriteable | CbReceive | CbPeerInitiatedClose => if rc =? 0 then p else Dying
  | _ => p
  end.

(** The requests for a writable callback. *)
Definition want (m : gmap nat conn) (e : lws_event) : gmap nat conn :=
  match e with
  | OnWritable x => alter (fun c => Conn (cn_session c) (cn_phase c) true) x m
  | _ => m
  end.

Definition wanted (es : list lws_event) (m : gmap nat conn) : gmap nat conn := fold_left want es m.

Definition drops (reason : lws_reason) : bool :=
  match reason with CbClosed | CbClosedHttp => true | _ => false end.

Definition deliver (c : callback) (w : lws_world) : lws_world * list lws_event :=
  let cn := conn_of w (call_wsi c) in
  let wants := match call_reason c with CbServerWriteable => false | _ => cn_wants cn end in
  let '(rc, s, g, es) := http_cb (call_answers c) (call_wsi c) (call_reason c) (cn_session cn) (w_g w) in
  let conns :=
    if drops (call_reason c) then delete (call_wsi c) (w_conns w)
    else <[call_wsi c := Conn s (next_phase (call_reason c) rc (cn_phase cn)) wants]> (w_conns w) in
  (World g (wanted es conns), es).

Definition allowed (c : callback) (w : lws_world) : bool :=
  let cn := conn_of w (call_wsi c) in
  match call_reason c with
  | CbHttp _ _ | CbHttpBody _ | CbHttpBodyCompletion | CbConfirmUpgrade _ _ | CbEstablished | CbClosedHttp =>
      bool_decide (cn_phase cn = Plain)
  | CbServerWriteable => bool_decide (cn_phase cn = Open) && cn_wants cn
  | CbReceive | CbPeerInitiatedClose => bool_decide (cn_phase cn = Open)
  | CbClosed => negb (bool_decide (cn_phase cn = Plain))
  | CbOther => true
  end.

Fixpoint deliver_all (cs : list callback) (w : lws_world) : lws_world * list lws_event :=
  match cs with
  | [] => (w, [])
  | c :: cs => let '(w, es) := deliver c w in let '(w, es') := deliver_all cs w in (w, es ++ es')
  end.

(** ** The service loop and shutdown *)

Definition with_g (g : http_globals) (w : lws_world) : lws_world := World g (w_conns w).
Definition raise_shutdown (w : lws_world) : lws_world :=
  with_g (Globals (g_ctx (w_g w)) (g_write_timeout_ns (w_g w)) true (g_service_loop (w_g w)) (g_clients (w_g w))) w.
Definition set_loop (b : bool) (w : lws_world) : lws_world :=
  with_g (Globals (g_ctx (w_g w)) (g_write_timeout_ns (w_g w)) (g_shutdown (w_g w)) b (g_clients (w_g w))) w.
Definition no_ctx (w : lws_world) : lws_world :=
  with_g (Globals false (g_write_timeout_ns (w_g w)) (g_shutdown (w_g w)) (g_service_loop (w_g w)) (g_clients (w_g w))) w.

(** One lws_service: its callbacks, whether cc_http_shutdown_request was
    called meanwhile, and its result. *)
Record pass := Pass { p_calls : list callback; p_raised : bool; p_rc : Z }.

Definition live_writable (g : http_globals) : list lws_event :=
  omap (fun c => OnWritable <$> hc_wsi c) (g_clients g).

(** [None]: a call of lws_service has not returned. *)
Fixpoint flush_passes (n : nat) (passes : list pass) (w : lws_world) : option (lws_world * list lws_event) :=
  match n with
  | O => Some (w, [])
  | S n =>
      if (cc_http_ws_client_count (w_g w) =? 0)%nat then Some (w, [])
      else
        match passes with
        | [] => None
        | p :: passes =>
            let '(w, es) := deliver_all (p_calls p) w in
            match flush_passes n passes w with
            | Some (w, es') => Some (w, es ++ es')
            | None => None
            end
        end
  end.

(** [destroy]: the callbacks of lws_context_destroy. *)
Definition flush (passes : list pass) (destroy : list callback) (w : lws_world) : option (lws_world * list lws_event) :=
  let marks := live_writable (w_g w) in
  match flush_passes 256 passes (World (w_g w) (wanted marks (w_conns w))) with
  | None => None
  | Some (w, es) =>
      let '(w, es') := deliver_all destroy w in
      Some (no_ctx w, marks ++ es ++ es' ++ [DestroyContext])
  end.

Definition cc_http_shutdown_request (passes : list pass) (destroy : list callback) (w : lws_world)
  : option (lws_world * list lws_event) :=
  let w := raise_shutdown w in
  if negb (g_ctx (w_g w)) then Some (w, [])
  else if g_service_loop (w_g w) then Some (w, [CancelService])
  else match flush passes destroy w with
       | None => None
       | Some (w, es) => Some (w, CancelService :: es)
       end.

(** A request for shutdown during the loop only raises the flag. *)
Fixpoint service_loop (passes : list pass) (destroy : list callback) (w : lws_world)
  : option (Z * lws_world * list lws_event) :=
  if g_shutdown (w_g w) then
    match flush passes destroy w with
    | None => None
    | Some (w, es) => Some (0, set_loop false w, es)
    end
  else
    match passes with
    | [] => None
    | p :: passes =>
        let '(w, es) := deliver_all (p_calls p) w in
        let w := if p_raised p then raise_shutdown w else w in
        let es := es ++ (if p_raised p then [CancelService] else []) in
        if p_rc p <? 0 then Some (-1, set_loop false w, es)
        else match service_loop passes destroy w with
             | None => None
             | Some (rc, w, es') => Some (rc, w, es ++ es')
             end
    end.

Definition cc_http_service (timeout_ms : Z) (passes : list pass) (destroy : list callback) (w : lws_world)
  : option (Z * lws_world * list lws_event) :=
  if negb (g_ctx (w_g w)) then Some (-1, w, [])
  else if 0 <=? timeout_ms then
    match passes with
    | [] => None
    | p :: _ => let '(w, es) := deliver_all (p_calls p) w in Some (p_rc p, w, es)
    end
  else service_loop passes destroy (set_loop true w).

(** * Correctness

    ** The text of a response *)

(** A reader of HTTP/1.1 responses; the announced length must be that of the
    body, and 204 has none. *)
Record reply := Reply { rp_status : Z; rp_headers : list (cstring * cstring); rp_body : bytes }.

Definition read_response (bs : bytes) : option reply :=
  match strstr crlf bs with
  | None => None
  | Some (line, rest) =>
      match scan_status line, read_headers (S (length rest)) rest with
      | Some status, Some (hs, body) =>
          if (if status =? 204 then streq body []
              else bool_decide ((lit "Content-Length", fmt_u64 (strlen body)) ∈ hs))
          then Some (Reply status hs body) else None
      | _, _ => None
      end
  end.

(** The header fields of a response, in order. *)
Definition fields (status : Z) (upgrade : bool) (content_type : option cstring) (nosniff : bool) (len : Z) (close : bool)
  : list (cstring * cstring) :=
  (if upgrade then [(lit "Upgrade", lit "websocket")] else []) ++
  match content_type with Some t => [(lit "Content-Type", t)] | None => [] end ++
  (if nosniff then [(lit "X-Content-Type-Options", lit "nosniff")] else []) ++
  (if status =? 204 then [] else [(lit "Content-Length", fmt_u64 len)]) ++
  (if close then [(lit "Connection", lit "close")] else []).

Definition field_text (f : cstring * cstring) : bytes := f.1 ++ lit ": " ++ f.2 ++ crlf.
Definition field_ok (f : cstring * cstring) : Prop := 58 ∉ f.1 /\ 13 ∉ f.1 /\ 13 ∉ f.2.

Lemma hdr_put_some (s h : bytes) : strlen h + strlen s < 512 -> hdr_put s (Some h) = Some (h ++ s).
Proof. intros H. unfold hdr_put. rewrite strlen_app, (proj2 (Z.ltb_lt _ _)) by lia. done. Qed.

Lemma read_fields (fs : list (cstring * cstring)) (body : bytes) (fuel : nat) :
  Forall field_ok fs -> (length fs < fuel)%nat ->
  read_headers fuel (concat (map field_text fs) ++ crlf ++ body) = Some (fs, body).
Proof.
  intros Hfs. revert fuel. induction Hfs as [|[k v] fs (H1 & H2 & H3) _ IH]; intros fuel Hf.
  - destruct fuel as [|fuel]; [cbn in Hf; lia|]. cbn [map concat app read_headers]. change (strstr crlf (crlf ++ body)) with (strstr [13; 10] ([] ++ [13; 10] ++ body)).
    by rewrite strstr_at by apply not_elem_of_nil.
  - destruct fuel as [|fuel]; [cbn in Hf; lia|]. cbn in Hf. cbn [map concat]. unfold field_text at 1. cbn [fst snd].
    rewrite <- !app_assoc. apply read_headers_line; [done..|]. apply IH. lia.
Qed.

Lemma status_text_ok (status : Z) : 13 ∉ status_text status /\ strlen (status_text status) <= 24.
Proof. unfold status_text. repeat case_match; by_decide. Qed.

Definition type_ok (content_type : option cstring) : Prop :=
  match content_type with Some t => 13 ∉ t /\ strlen t <= 40 | None => True end.

Definition upgrade_text (upgrade : bool) : option cstring :=
  if upgrade then Some (lit "Upgrade: websocket" ++ crlf) else None.

Definition head_text (status : Z) (fs : list (cstring * cstring)) : bytes :=
  (lit "HTTP/1.1 " ++ fmt_u64 status ++ 32 :: status_text status) ++ crlf ++ concat (map field_text fs) ++ crlf.

Lemma fields_all_ok (status : Z) (upgrade : bool) (t : option cstring) (nosniff : bool) (len : Z) (close : bool) :
  0 <= len < 2 ^ 64 -> type_ok t -> Forall field_ok (fields status upgrade t nosniff len close).
Proof.
  intros Hl Ht. unfold fields. rewrite !Forall_app. split_and!.
  - destruct upgrade; by_decide.
  - destruct t as [t|]; [|by_decide]. repeat constructor; cbn [fst snd]; [by_decide..|apply Ht].
  - destruct nosniff; by_decide.
  - destruct (status =? 204); [by_decide|]. repeat constructor; cbn [fst snd]; [by_decide..|by apply fmt_no].
  - destruct close; by_decide.
Qed.

(** The pieces http_respond prints one after the other. *)
Definition pieces (status : Z) (fs : list (cstring * cstring)) : list bytes :=
  [lit "HTTP/1.1 " ++ fmt_u64 status ++ lit " "; status_text status; crlf] ++ map field_text fs ++ [crlf].

Lemma put_pieces (ps : list bytes) (h : bytes) :
  strlen h + strlen (concat ps) < 512 -> fold_left (fun h s => hdr_put s h) ps (Some h) = Some (h ++ concat ps).
Proof.
  revert h. induction ps as [|p ps IH]; intros h Hl; cbn [fold_left concat] in *; [by rewrite app_nil_r|].
  rewrite strlen_app in Hl. pose proof (strlen_nonneg (concat ps)). rewrite hdr_put_some by lia.
  rewrite IH by (rewrite strlen_app; lia). by rewrite <- app_assoc.
Qed.

Lemma pieces_text (status : Z) (fs : list (cstring * cstring)) : concat (pieces status fs) = head_text status fs.
Proof.
  unfold pieces, head_text. rewrite !concat_app. cbn [concat]. rewrite !app_nil_r. repeat (rewrite <- ?app_assoc; cbn [app]). done.
Qed.

Lemma fields_short (status : Z) (upgrade : bool) (t : option cstring) (nosniff : bool) (len : Z) (close : bool) :
  type_ok t -> strlen (concat (map field_text (fields status upgrade t nosniff len close))) <= 200.
Proof.
  intros Ht. unfold fields. rewrite !map_app, !concat_app, !strlen_app.
  assert (H1 : strlen (concat (map field_text (if upgrade then [(lit "Upgrade", lit "websocket")] else []))) <= 20)
    by (destruct upgrade; by_decide).
  assert (H2 : strlen (concat (map field_text match t with Some t => [(lit "Content-Type", t)] | None => [] end)) <= 56).
  { destruct t as [t|]; [|by_decide]. destruct Ht as [_ Ht]. cbn [map concat]. unfold field_text. rewrite app_nil_r, !strlen_app.
    cbn [fst snd]. change (strlen (lit "Content-Type")) with 12. change (strlen (lit ": ")) with 2. change (strlen crlf) with 2. lia. }
  assert (H3 : strlen (concat (map field_text (if nosniff then [(lit "X-Content-Type-Options", lit "nosniff")] else []))) <= 33)
    by (destruct nosniff; by_decide).
  assert (H4 : strlen (concat (map field_text (if status =? 204 then [] else [(lit "Content-Length", fmt_u64 len)]))) <= 38).
  { destruct (status =? 204); [by_decide|]. pose proof (fmt_u64_len len). cbn [map concat]. unfold field_text.
    rewrite app_nil_r, !strlen_app. cbn [fst snd].
    change (strlen (lit "Content-Length")) with 14. change (strlen (lit ": ")) with 2. change (strlen crlf) with 2. lia. }
  assert (H5 : strlen (concat (map field_text (if close then [(lit "Connection", lit "close")] else []))) <= 19)
    by (destruct close; by_decide).
  lia.
Qed.

(** The header never fills its 512 bytes. *)
Lemma header_is (status : Z) (upgrade : bool) (t : option cstring) (nosniff : bool) (len : Z) (close : bool) :
  0 <= status -> 0 <= len -> type_ok t ->
  response_header status (upgrade_text upgrade) t nosniff len close =
  Some (head_text status (fields status upgrade t nosniff len close)).
Proof.
  intros Hs Hl Ht. pose proof (fields_short status upgrade t nosniff len close Ht) as Hf.
  destruct (status_text_ok status) as [_ H1]. pose proof (fmt_u64_len status) as H2.
  rewrite <- pieces_text.
  match goal with |- _ = Some (concat ?ps) => change (concat ps) with ([] ++ concat ps); rewrite <- (put_pieces ps []) end.
  2:{ unfold pieces. rewrite !concat_app, !strlen_app. cbn [concat]. rewrite !strlen_app.
      change (strlen []) with 0. change (strlen crlf) with 2. change (strlen (lit " ")) with 1. change (strlen (lit "HTTP/1.1 ")) with 9. lia. }
  unfold response_header, pieces, fields, hdr_put_if, upgrade_text.
  assert (Hd : forall z, 0 <= z -> fmt_i64 z = fmt_u64 z) by (intros z Hz; unfold fmt_i64; by rewrite (proj2 (Z.ltb_ge z 0)) by lia).
  rewrite !Hd by lia. by destruct upgrade, t, nosniff, (status =? 204), close.
Qed.

(** What is written reads back. *)
Lemma head_reads (status : Z) (upgrade : bool) (t : option cstring) (nosniff : bool) (body : bytes) (close : bool) :
  0 <= status < 1000 -> strlen body < 2 ^ 64 -> type_ok t -> (status = 204 -> body = []) ->
  let fs := fields status upgrade t nosniff (strlen body) close in
  read_response (head_text status fs ++ body) = Some (Reply status fs body).
Proof.
  intros Hs Hb Ht H204 fs. pose proof (strlen_nonneg body) as H0.
  pose proof (fields_all_ok status upgrade t nosniff (strlen body) close ltac:(lia) Ht) as Hok. fold fs in Hok.
  unfold read_response, head_text. unfold crlf at 1 2. rewrite <- !app_assoc.
  assert (Hl : 13 ∉ lit "HTTP/1.1 " ++ fmt_u64 status ++ 32 :: status_text status).
  { rewrite !not_elem_of_app, not_elem_of_cons. split_and!; [by_decide|apply fmt_no; [lia|done]|done|apply status_text_ok]. }
  replace (lit "HTTP/1.1 " ++ fmt_u64 status ++ (32 :: status_text status) ++ [13; 10] ++ concat (map field_text fs) ++ crlf ++ body)
    with ((lit "HTTP/1.1 " ++ fmt_u64 status ++ 32 :: status_text status) ++ [13; 10] ++ (concat (map field_text fs) ++ crlf ++ body))
    by (by rewrite <- !app_assoc).
  rewrite strstr_at by done. rewrite scan_status_line by lia.
  rewrite read_fields; [|done|].
  2:{ rewrite length_app. apply Nat.lt_succ_r. etrans; [|apply Nat.le_add_r].
      clear. induction fs as [|f fs IH]; [done|]. cbn [map concat length]. rewrite length_app. unfold field_text at 1. rewrite !length_app. cbn [length crlf]. lia. }
  destruct (Z.eqb_spec status 204) as [->|Hn]; [by rewrite H204|].
  rewrite bool_decide_eq_true_2; [done|]. unfold fs, fields. rewrite (proj2 (Z.eqb_neq _ _)) by done.
  rewrite !elem_of_app. right. right. right. left. apply list_elem_of_here.
Qed.

(** ** The contract of the routes *)

(** What the handlers and the library promise: texts that fit the buffers
    they are given. *)
Definition answers_ok (a : answers) : Prop :=
  strlen (a_post a).2 < CC_HTTP_ERRBUF_MAX /\ strlen (a_status a).2 <= CC_HTTP_STATUS_MAX /\
  strlen (default [] (a_connection a)) < 128.

#[global] Instance answers_ok_dec (a : answers) : Decision (answers_ok a).
Proof. unfold answers_ok. apply _. Defined.

(** The status and the body of the answer to a handler's result. *)
Definition post_reply (r : Z * cstring) : Z * bytes :=
  if r.1 =? 0 then (204, [])
  else if r.1 =? CC_HTTP_ERR_BADJSON then (400, lit "bad json: " ++ r.2 ++ [10])
  else (500, if strlen r.2 <? 255 then r.2 ++ [10] else r.2).

(** The handler that is called, if any, and the answer. *)
Definition contract (a : answers) (m : http_method) (uri body : bytes) : option lws_event * (Z * bytes) :=
  let not_allowed := (None, (405, lit "method not allowed" ++ [10])) in
  let post call :=
    if bool_decide (m = HTTP_M_POST) then
      if strlen body <=? 16384 then (Some call, post_reply (a_post a)) else (None, (413, []))
    else not_allowed in
  if streq uri (lit "/event") then post (HandleEvent body)
  else if streq uri (lit "/control") then post (HandleControl body)
  else if streq uri (lit "/status") then
    if bool_decide (m = HTTP_M_GET)
    then (Some HandleStatus, if (a_status a).1 =? 0 then (200, (a_status a).2) else (500, []))
    else not_allowed
  else if streq uri (lit "/subscribe") then
    (None, (426, lit "WebSocket protocol violation: Connection header " ++ [34] ++
                 c_string (default [] (a_connection a)) ++ [34] ++ lit " does not contain Upgrade" ++ [10]))
  else if streq uri (lit "/healthz") then (None, (200, lit "ok" ++ [10]))
  else (None, (404, lit "404 page not found" ++ [10])).

(** What is written for a response, up to the first write that fails. *)
Definition sent (a : answers) (wsi : nat) (hdr body : bytes) : list lws_event :=
  WriteHeaders wsi hdr ::
  if a_headers_ok a then
    match body with
    | [] => [Complete wsi]
    | _ => WriteBody wsi body :: (if a_body_ok a then [Complete wsi] else [])
    end
  else [].

Definition delivered (a : answers) (body : bytes) : bool :=
  a_headers_ok a && (match body with [] => true | _ => a_body_ok a end).

(** One well-formed response with this status and body. *)
Definition answered (a : answers) (wsi : nat) (sb : Z * bytes) (r : Z * list lws_event) : Prop :=
  exists hdr fs,
    r = (if delivered a sb.2 then a_completed a else -1, sent a wsi hdr sb.2) /\
    read_response (hdr ++ sb.2) = Some (Reply sb.1 fs sb.2) /\
    ((lit "Connection", lit "close") ∈ fs <-> conn_wants_close a = true).

Lemma close_field (status : Z) (upgrade : bool) (t : option cstring) (nosniff : bool) (len : Z) (close : bool) :
  (lit "Connection", lit "close") ∈ fields status upgrade t nosniff len close <-> close = true.
Proof.
  unfold fields. rewrite !elem_of_app. split.
  - intros [H|[H|[H|[H|H]]]]; [destruct upgrade|destruct t|destruct nosniff|destruct (status =? 204)|destruct close]; try done;
      try (by apply not_elem_of_nil in H); apply list_elem_of_singleton in H; by simplify_eq.
  - intros ->. do 4 right. apply list_elem_of_here.
Qed.

Lemma respond_answered (a : answers) (wsi : nat) (status : Z) (upgrade : bool) (t : option cstring) (nosniff : bool) (body : bytes) :
  0 <= status < 1000 -> strlen body < 2 ^ 64 -> type_ok t -> (status = 204 -> body = []) ->
  answered a wsi (status, body)
    (respond_complete a wsi status (upgrade_text upgrade) t nosniff body (conn_wants_close a)).
Proof.
  intros Hs Hb Ht H204. pose proof (strlen_nonneg body).
  exists (head_text status (fields status upgrade t nosniff (strlen body) (conn_wants_close a))),
    (fields status upgrade t nosniff (strlen body) (conn_wants_close a)). cbn [fst snd]. split_and!.
  - unfold respond_complete, http_respond. rewrite header_is by (done || lia). unfold sent, delivered.
    destruct (a_headers_ok a); [|done]. cbn [negb andb].
    destruct body as [|x body]; [done|]. change (0 <? strlen (x :: body)) with true. cbv iota. by destruct (a_body_ok a).
  - by apply head_reads.
  - apply close_field.
Qed.

Lemma formatted_answered (cap : Z) (a : answers) (wsi : nat) (status : Z) (upgrade : bool) (t : option cstring) (nosniff : bool) (body : bytes) :
  strlen body < cap -> cap <= 2 ^ 64 -> 0 <= status < 1000 -> type_ok t -> (status = 204 -> body = []) ->
  answered a wsi (status, body)
    (respond_formatted cap a wsi status (upgrade_text upgrade) t nosniff body (conn_wants_close a)).
Proof.
  intros H1 H2 H3 H4 H5. unfold respond_formatted. rewrite (proj2 (Z.leb_gt _ _)) by done.
  apply respond_answered; (done || lia).
Qed.

Lemma c_string_short (b : bytes) : strlen (c_string b) <= strlen b.
Proof. unfold strlen. induction b as [|c b IH]; [done|]. cbn. case_match; cbn; lia. Qed.

Lemma answer_post_ok (a : answers) (wsi : nat) :
  answers_ok a -> answered a wsi (post_reply (a_post a)) (answer_post a wsi (conn_wants_close a)).
Proof.
  intros (He & _). unfold answer_post, post_reply. destruct (a_post a) as [rc err]. cbn [fst snd] in *.
  unfold CC_HTTP_ERRBUF_MAX in *. pose proof (strlen_nonneg err).
  destruct (Z.eqb_spec rc 0) as [->|Hr].
  - apply (respond_answered a wsi 204 false None false []); done.
  - destruct (rc =? CC_HTTP_ERR_BADJSON).
    + apply (formatted_answered (256 + 16) a wsi 400 false text_plain true); [|done|done|by_decide|done].
      rewrite !strlen_app. change (strlen (lit "bad json: ")) with 10. change (strlen [10]) with 1. lia.
    + cbn [negb]. replace (strlen err + 1 <? 256) with (strlen err <? 255) by (destruct (Z.ltb_spec (strlen err) 255), (Z.ltb_spec (strlen err + 1) 256); lia).
      destruct (strlen err <? 255).
      * apply (respond_answered a wsi 500 false text_plain true); [done| |by_decide|done].
        rewrite strlen_app. change (strlen [10]) with 1. lia.
      * apply (respond_answered a wsi 500 false text_plain true); [done|lia|by_decide|done].
Qed.

Lemma subscribe_answered (a : answers) (wsi : nat) :
  answers_ok a ->
  answered a wsi
    (426, lit "WebSocket protocol violation: Connection header " ++ [34] ++
          c_string (default [] (a_connection a)) ++ [34] ++ lit " does not contain Upgrade" ++ [10])
    (dispatch_subscribe a wsi (conn_wants_close a)).
Proof.
  intros (_ & _ & Hc). unfold dispatch_subscribe. pose proof (c_string_short (default [] (a_connection a))).
  apply (formatted_answered 256 a wsi 426 true); [|done|done|by_decide|done]. rewrite !strlen_app.
  change (strlen (lit "WebSocket protocol violation: Connection header ")) with 48.
  change (strlen (lit " does not contain Upgrade")) with 25. change (strlen [34]) with 1. change (strlen [10]) with 1. lia.
Qed.

(** The call and the frames its handler sends to the listeners. *)
Definition handled_by (a : answers) (call : option lws_event) (g : http_globals) : http_globals * list lws_event :=
  match call with
  | None => (g, [])
  | Some HandleStatus => (g, [HandleStatus])
  | Some call => let '(g, es) := notified (a_sends a) g in (g, call :: es)
  end.

(** The session after the chunks of [body]. *)
Definition holds_body (s : http_session) (body : bytes) : Prop :=
  (strlen body <= CC_HTTP_BODY_MAX /\ hs_body s = body /\ hs_body_len s = strlen body) \/
  (CC_HTTP_BODY_MAX < strlen body /\ hs_body_len s = CC_HTTP_BODY_MAX + 1).

Definition requested (s : http_session) (m : http_method) (uri : bytes) : Prop :=
  hs_method s = Some m /\ hs_route s = Some (route_for uri) /\ hs_handled s = false.

Lemma route_of_cut (uri : bytes) : route_for (take 127 uri) = route_for uri.
Proof.
  destruct (decide (length uri <= 127)%nat) as [H|H]; [by rewrite take_ge|].
  assert (Hs : forall u l, (length u >= 127)%nat -> (length l < 127)%nat -> streq u l = false).
  { intros u l Hu Hl. unfold streq. apply bool_decide_eq_false. intros ->. lia. }
  unfold route_for. rewrite !Hs; first [done | rewrite length_take; lia | lia | by_decide].
Qed.

(** The answer of a handler or a route, after the events of the calls. *)
Definition replies (a : answers) (wsi : nat) (s : http_session) (g : http_globals) (c : option lws_event * (Z * bytes)) (o : outcome) : Prop :=
  let '(g', calls) := handled_by a c.1 g in
  exists rc es, o = (rc, s, g', calls ++ es) /\ answered a wsi c.2 (rc, es).

Lemma replies_plain (a : answers) (wsi : nat) (s : http_session) (g : http_globals) (sb : Z * bytes) (r : Z * list lws_event) :
  answered a wsi sb r -> replies a wsi s g (None, sb) (r.1, s, g, r.2).
Proof. intros H. exists r.1, r.2. by destruct r. Qed.

Lemma not_allowed_answered (a : answers) (wsi : nat) :
  answered a wsi (405, lit "method not allowed" ++ [10]) (method_not_allowed a wsi (conn_wants_close a)).
Proof. apply (respond_answered a wsi 405 false text_plain true); [done|done|by_decide|done]. Qed.

Lemma posted_contract (a : answers) (wsi : nat) (s0 s : http_session) (g : http_globals) (m : http_method) (body : bytes) (route : http_route) :
  answers_ok a -> hs_method s = Some m -> holds_body s body ->
  let call := if bool_decide (route = ROUTE_EVENT) then HandleEvent body else HandleControl body in
  replies a wsi s0 g
    (if bool_decide (m = HTTP_M_POST) then
       if strlen body <=? 16384 then (Some call, post_reply (a_post a)) else (None, (413, []))
     else (None, (405, lit "method not allowed" ++ [10])))
    (let '(rc, g, es) := dispatch_post a wsi s route (conn_wants_close a) g in (rc, s0, g, es)).
Proof.
  intros Ha Hm Hb call. unfold dispatch_post. rewrite Hm.
  destruct (decide (m = HTTP_M_POST)) as [->|Hne].
  - rewrite !bool_decide_eq_true_2 by done. cbn [negb].
    unfold CC_HTTP_BODY_MAX in *. destruct Hb as [(Hl & Hb & Hn)|(Hl & Hn)]; unfold CC_HTTP_BODY_MAX in *; rewrite Hn.
    + rewrite (proj2 (Z.ltb_ge _ _)), (proj2 (Z.leb_le _ _)), Hb by lia. fold call.
      unfold replies. cbn [fst snd]. assert (Hc : handled_by a (Some call) g = let '(g, es) := notified (a_sends a) g in (g, call :: es))
        by (unfold call; by case_bool_decide). rewrite Hc.
      destruct (notified (a_sends a) g) as [g' sends]. pose proof (answer_post_ok a wsi Ha) as H.
      destruct (answer_post a wsi (conn_wants_close a)) as [rc es]. exists rc, es. done.
    + rewrite (proj2 (Z.ltb_lt _ _)), (proj2 (Z.leb_gt _ _)) by lia.
      pose proof (respond_answered a wsi 413 false text_plain true [] ltac:(lia) ltac:(done) ltac:(by_decide) ltac:(done)) as H.
      cbn [upgrade_text] in H. destruct (respond_complete _ _ _ _ _ _ _ _) as [rc es]. by apply (replies_plain a wsi s0 g (413, []) (rc, es)).
  - rewrite !bool_decide_eq_false_2 by congruence. cbn [negb].
    pose proof (not_allowed_answered a wsi) as H. destruct (method_not_allowed _ _ _) as [rc es].
    by apply (replies_plain a wsi s0 g _ (rc, es)).
Qed.

Lemma status_contract (a : answers) (wsi : nat) (s0 s : http_session) (g : http_globals) (m : http_method) :
  answers_ok a -> hs_method s = Some m ->
  replies a wsi s0 g
    (if bool_decide (m = HTTP_M_GET)
     then (Some HandleStatus, if (a_status a).1 =? 0 then (200, (a_status a).2) else (500, []))
     else (None, (405, lit "method not allowed" ++ [10])))
    (let r := dispatch_status a wsi s (conn_wants_close a) in (r.1, s0, g, r.2)).
Proof.
  intros (_ & Ho & _) Hm. unfold dispatch_status. rewrite Hm. cbv zeta.
  destruct m; try (rewrite bool_decide_eq_false_2 by done; cbn [negb];
    rewrite bool_decide_eq_false_2 by done; apply replies_plain, not_allowed_answered).
  rewrite !bool_decide_eq_true_2 by done. cbn [negb]. destruct (a_status a) as [rc out]. cbn [fst snd] in *.
  unfold CC_HTTP_STATUS_MAX in *. rewrite (proj2 (Z.ltb_ge 4096 _)) by lia.
  assert (H : answered a wsi (if rc =? 0 then (200, out) else (500, []))
    (if negb (rc =? 0) then respond_complete a wsi 500 None text_plain true [] (conn_wants_close a)
     else respond_complete a wsi 200 None (Some (lit "application/json")) false out (conn_wants_close a))).
  { destruct (rc =? 0); cbn [negb].
    - apply (respond_answered a wsi 200 false); [done|lia|by_decide|done].
    - apply (respond_answered a wsi 500 false); [done|done|by_decide|done]. }
  destruct (if negb (rc =? 0) then _ else _) as [r es]. by exists r, es.
Qed.

Lemma dispatch_contract (a : answers) (wsi : nat) (m : http_method) (uri body : bytes) (s : http_session) (g : http_globals) :
  answers_ok a -> requested s m uri -> holds_body s body ->
  replies a wsi (with_handled s) g (contract a m uri body) (http_dispatch a wsi s g).
Proof.
  intros Ha (Hm & Hr & Hh) Hb. unfold http_dispatch. rewrite Hh. change (hs_route (with_handled s)) with (hs_route s). rewrite Hr.
  unfold route_for, contract. change (Some HTTP_M_POST) with (Some HTTP_M_POST).
  destruct (streq uri (lit "/event")); [by apply (posted_contract a wsi (with_handled s) (with_handled s) g m body ROUTE_EVENT)|].
  destruct (streq uri (lit "/control")); [by apply (posted_contract a wsi (with_handled s) (with_handled s) g m body ROUTE_CONTROL)|].
  destruct (streq uri (lit "/status")); [by apply (status_contract a wsi (with_handled s) (with_handled s) g m)|].
  destruct (streq uri (lit "/subscribe")).
  { by apply replies_plain, subscribe_answered. }
  destruct (streq uri (lit "/healthz")); apply replies_plain.
  - apply (respond_answered a wsi 200 false); [done|done|by_decide|done].
  - apply (respond_answered a wsi 404 false); [done|done|by_decide|done].
Qed.

(** The callbacks of one request, in order. *)
Definition request (m : http_method) (uri : bytes) (chunks : list bytes) : list lws_reason :=
  CbHttp m uri :: if bool_decide (m = HTTP_M_POST) then map CbHttpBody chunks ++ [CbHttpBodyCompletion] else [].

(** Several callbacks of a connection; the result is that of the last. *)
Fixpoint run_callbacks (a : answers) (wsi : nat) (rs : list lws_reason) (s : http_session) (g : http_globals) : outcome :=
  match rs with
  | [] => (0, s, g, [])
  | r :: rs =>
      let '(rc, s, g, es) := http_cb a wsi r s g in
      match rs with
      | [] => (rc, s, g, es)
      | _ => let '(rc, s, g, es') := run_callbacks a wsi rs s g in (rc, s, g, es ++ es')
      end
  end.

Lemma body_chunk (data body : bytes) (s : http_session) (g : http_globals) (m : http_method) (uri : bytes) :
  strlen data < 2 ^ 31 -> requested s m uri -> holds_body s body ->
  exists s', cb_http_body data s g = (0, s', g, []) /\ requested s' m uri /\ holds_body s' (body ++ data).
Proof.
  intros Hd Hr Hb. unfold cb_http_body. pose proof (strlen_nonneg data). pose proof (strlen_nonneg body).
  unfold holds_body, CC_HTTP_BODY_MAX in *. rewrite strlen_app.
  assert (Hw : u32 (hs_body_len s + u32 (strlen data)) = hs_body_len s + strlen data).
  { rewrite (wrap_small 32 (strlen data)) by lia. apply wrap_small. lia. }
  rewrite Hw. destruct (Z.leb_spec (hs_body_len s + strlen data) 16384) as [Hle|Hgt].
  - destruct Hb as [(Hl & Hb & Hn)|(Hl & Hn)]; [|lia]. rewrite (proj2 (Z.ltb_ge _ _)) by lia.
    eexists. split; [done|]. split; [done|]. left. cbn. rewrite Hb. split_and!; [lia|done|lia].
  - eexists. split; [done|]. split; [done|]. right. cbn. destruct Hb as [(?&?&?)|[??]]; lia.
Qed.

Lemma body_chunks (a : answers) (wsi : nat) (chunks : list bytes) (body : bytes) (s : http_session) (g : http_globals)
    (m : http_method) (uri : bytes) :
  answers_ok a -> Forall (fun c => strlen c < 2 ^ 31) chunks -> requested s m uri -> holds_body s body ->
  exists s', requested s' m uri /\ holds_body s' (body ++ concat chunks) /\
    run_callbacks a wsi (map CbHttpBody chunks ++ [CbHttpBodyCompletion]) s g = http_dispatch a wsi s' g.
Proof.
  intros Ha Hc. revert body s. induction Hc as [|c chunks Hl _ IH]; intros body s Hr Hb.
  - exists s. cbn. rewrite app_nil_r. split_and!; [apply Hr..|done|]. by destruct (http_dispatch a wsi s g) as [[[??]?]?].
  - destruct (body_chunk c body s g m uri Hl Hr Hb) as (s1 & E & Hr1 & Hb1). destruct (IH _ _ Hr1 Hb1) as (s2 & Hr2 & Hb2 & Hrun).
    exists s2. cbn [concat]. rewrite app_assoc. split_and!; [apply Hr2..|done|]. rewrite <- Hrun. cbn [map app run_callbacks http_cb]. rewrite E.
    destruct (map CbHttpBody chunks ++ [CbHttpBodyCompletion]) as [|r rs] eqn:El; [by apply app_eq_nil in El as [_ El]|].
    by destruct (run_callbacks a wsi (r :: rs) s1 g) as [[[??]?]?].
Qed.

(** C37: Every request without upgrade headers is answered once, as its route,
    its method and its handler's result demand, however its body is cut: the
    callbacks of a request ([LWS_CALLBACK_HTTP] and, for a POST, those of the
    body) call at most one handler, on the whole body, and then write one
    response, which reads back with the status and the body of [contract],
    announces the length of the body and closes the connection when asked to;
    a failed write ends the answer.  No header or body reads past its
    buffer, and a second completion does nothing.  The handlers' texts fit the
    buffers they are given, and a piece of the body has less than 2 GiB.  (An
    upgrade request to another path than /subscribe is answered without its
    body: [upgrade_elsewhere].) *)
Theorem alt_request_contract (a : answers) (wsi : nat) (m : http_method) (uri : bytes) (chunks : list bytes)
    (s : http_session) (g : http_globals) :
  answers_ok a -> Forall (fun c => strlen c < 2 ^ 31) chunks ->
  let '(call, sb) := contract a m uri (concat chunks) in
  let '(g', calls) := handled_by a call g in
  exists rc s' es,
    run_callbacks a wsi (request m uri chunks) s g = (rc, s', g', calls ++ es) /\ answered a wsi sb (rc, es) /\
    http_cb a wsi CbHttpBodyCompletion s' g' = (0, s', g', []).
Proof.
  intros Ha Hc. set (s1 := HttpSession (-1) (Some m) (Some (route_for (take 127 uri))) false (take 127 uri) [] 0).
  assert (Hr : requested s1 m uri) by (unfold requested; cbn; by rewrite route_of_cut).
  assert (Hrun : exists s2, requested s2 m uri /\ replies a wsi (with_handled s2) g (contract a m uri (concat chunks))
                              (run_callbacks a wsi (request m uri chunks) s g)).
  { unfold request. cbn [run_callbacks http_cb]. unfold cb_http. change (Z.to_nat (CC_HTTP_URI_MAX - 1)) with 127%nat. fold s1.
    assert (Hb0 : holds_body s1 []) by (left; done).
    case_bool_decide as Em.
    - destruct (body_chunks a wsi chunks [] s1 g m uri Ha Hc Hr Hb0) as (s2 & Hr2 & Hb2 & E). cbn [app] in Hb2. exists s2. split; [done|].
      pose proof (dispatch_contract a wsi m uri _ s2 g Ha Hr2 Hb2) as H. rewrite <- E in H.
      destruct (map CbHttpBody chunks ++ [CbHttpBodyCompletion]) as [|r rs] eqn:El; [by apply app_eq_nil in El as [_ El]|].
      by destruct (run_callbacks a wsi (r :: rs) s1 g) as [[[??]?]?].
    - exists s1. split; [done|]. pose proof (dispatch_contract a wsi m uri [] s1 g Ha Hr Hb0) as H.
      destruct (http_dispatch a wsi s1 g) as [[[??]?]?].
      assert (Hm : contract a m uri [] = contract a m uri (concat chunks))
        by (unfold contract; by rewrite bool_decide_eq_false_2 by done).
      by rewrite <- Hm. }
  destruct Hrun as (s2 & Hr2 & H). destruct (contract a m uri (concat chunks)) as [call sb]. unfold replies in H. cbn [fst snd] in H.
  destruct (handled_by a call g) as [g' calls]. destruct H as (rc & es & E & H). by exists rc, (with_handled s2), es.
Qed.

Definition sample_answers : answers :=
  Answers (Some (lit "Close")) true true true 0 (0, lit "{}") (0, []) 0 [(0, lit "status")] 5.

Definition sample_globals : http_globals :=
  Globals true 7 false true (HttpClient (Some 3%nat) 0 false [] 0 :: replicate 3 no_client).

(** A POST to /event in two pieces. *)
Lemma alt_request_contract_witness :
  contract sample_answers HTTP_M_POST (lit "/event") (concat [lit "{"; lit "}"]) = (Some (HandleEvent (lit "{}")), (204, [])) /\
  exists rc s' es,
    run_callbacks sample_answers 9 (request HTTP_M_POST (lit "/event") [lit "{"; lit "}"]) zero_session sample_globals =
      (rc, s', (handled_by sample_answers (Some (HandleEvent (lit "{}"))) sample_globals).1,
       [HandleEvent (lit "{}"); OnWritable 3] ++ es) /\
    answered sample_answers 9 (204, []) (rc, es) /\
    http_cb sample_answers 9 CbHttpBodyCompletion s' (handled_by sample_answers (Some (HandleEvent (lit "{}"))) sample_globals).1 =
      (0, s', (handled_by sample_answers (Some (HandleEvent (lit "{}"))) sample_globals).1, []).
Proof.
  split; [by vm_compute|].
  apply (alt_request_contract sample_answers 9 HTTP_M_POST (lit "/event") [lit "{"; lit "}"] zero_session sample_globals); by_decide.
Defined.

(** ** The client slots *)

Definition owner (g : http_globals) (i : nat) : option nat := c ← g_clients g !! i; hc_wsi c.

(** The slots and the connections with a WebSocket are paired; a frame that
    waits has asked for its writable callback. *)
Record slots_ok (w : lws_world) : Prop := {
  so_len : length (g_clients (w_g w)) = CC_HTTP_MAX_WS_CLIENTS;
  so_slot i x : owner (w_g w) i = Some x ->
    exists cn, w_conns w !! x = Some cn /\ hs_client_idx (cn_session cn) = Z.of_nat i /\ cn_phase cn <> Plain;
  so_conn x cn : w_conns w !! x = Some cn -> cn_phase cn <> Plain ->
    exists i, owner (w_g w) i = Some x /\ hs_client_idx (cn_session cn) = Z.of_nat i;
  so_wake i c x cn : g_clients (w_g w) !! i = Some c -> hc_wsi c = Some x -> hc_has_pending c = true ->
    w_conns w !! x = Some cn -> cn_phase cn = Open -> cn_wants cn = true;
  so_frame i c : g_clients (w_g w) !! i = Some c -> strlen (hc_pending c) <= CC_HTTP_STATUS_MAX;
  so_body x cn : w_conns w !! x = Some cn -> 0 <= hs_body_len (cn_session cn) <= CC_HTTP_BODY_MAX + 1;
}.

(** The clients for which cc_http_ws_connect was called and
    cc_http_ws_disconnect has not been since, each with whether the controller
    has registered its listener: a call that does not return 0 registers
    nothing.  [None] when a client is connected or disconnected twice, or a
    buffer is overrun. *)
Fixpoint listeners (l : gmap nat bool) (es : list lws_event) : option (gmap nat bool) :=
  match es with
  | [] => Some l
  | WsConnect i rc :: es => if decide (l !! i = None) then listeners (<[i := rc =? 0]> l) es else None
  | WsDisconnect i :: es => if decide (l !! i = None) then None else listeners (delete i l) es
  | Undefined :: _ => None
  | _ :: es => listeners l es
  end.

(** What can happen: a callback in the library's order, a frame for a
    listener, a request for shutdown.  Every WebSocket that is established
    finds a free slot. *)
Inductive runs : lws_world -> list lws_event -> Prop :=
  | runs_start addr timeout g0 port g :
      cc_http_server_init addr true timeout true true g0 = (0, port, g) -> runs (World g ∅) []
  | runs_call w es c : runs w es -> allowed c w = true -> answers_ok (call_answers c) ->
      (forall data, call_reason c = CbHttpBody data -> strlen data < 2 ^ 31) ->
      (call_reason c = CbEstablished -> free_slot (g_clients (w_g w)) <> None) ->
      runs (deliver c w).1 (es ++ (deliver c w).2)
  | runs_send w es client b rc g es' : runs w es ->
      cc_http_ws_send_text client b (w_g w) = (rc, g, es') -> runs (World g (wanted es' (w_conns w))) (es ++ es')
  | runs_shutdown w es : runs w es -> runs (raise_shutdown w) es.

Definition quiet (e : lws_event) : Prop :=
  match e with OnWritable _ | WsConnect _ _ | WsDisconnect _ | Undefined => False | _ => True end.

Lemma listeners_app (l : gmap nat bool) (es es' : list lws_event) :
  listeners l (es ++ es') = (l' ← listeners l es; listeners l' es').
Proof. revert l. induction es as [|e es IH]; intros l; [done|]. destruct e; cbn; try apply IH; try done; case_decide; (done || apply IH). Qed.

Lemma listeners_quiet (l : gmap nat bool) (es : list lws_event) : Forall quiet es -> listeners l es = Some l.
Proof. induction 1 as [|e es He _ IH]; [done|]. by destruct e. Qed.

Lemma wanted_app (es es' : list lws_event) (m : gmap nat conn) : wanted (es ++ es') m = wanted es' (wanted es m).
Proof. apply fold_left_app. Qed.

Lemma wanted_quiet (es : list lws_event) (m : gmap nat conn) : Forall quiet es -> wanted es m = m.
Proof. unfold wanted. revert m. induction es as [|e es IH]; intros m H; [done|]. apply Forall_cons in H as [He H]. cbn. rewrite (IH _ H). by destruct e. Qed.

Lemma answered_quiet (a : answers) (wsi : nat) (sb : Z * bytes) (r : Z * list lws_event) : answered a wsi sb r -> Forall quiet r.2.
Proof.
  intros (hdr & fs & -> & _). cbn. constructor; [done|]. destruct (a_headers_ok a), sb.2, (a_body_ok a); repeat constructor.
Qed.

(** A connection that only has been asked to be writable. *)
Definition asked (x : nat) (m : gmap nat conn) : gmap nat conn := wanted [OnWritable x] m.

Lemma asked_lookup (y x : nat) (m : gmap nat conn) (cn' : conn) :
  asked y m !! x = Some cn' ->
  exists cn, m !! x = Some cn /\ cn_session cn' = cn_session cn /\ cn_phase cn' = cn_phase cn /\
    (cn_wants cn' = true \/ y <> x /\ cn' = cn).
Proof.
  unfold asked, wanted. cbn [fold_left want]. intros H. destruct (decide (y = x)) as [->|Hn].
  - rewrite lookup_alter_eq in H. destruct (m !! x) as [cn|]; [|done]. cbn in H. simplify_eq. exists cn. split_and!; auto.
  - rewrite lookup_alter_ne in H by done. exists cn'. split_and!; auto.
Qed.

Lemma asked_some (y x : nat) (m : gmap nat conn) (cn : conn) :
  m !! x = Some cn -> exists cn', asked y m !! x = Some cn' /\ cn_session cn' = cn_session cn /\ cn_phase cn' = cn_phase cn.
Proof.
  unfold asked, wanted. cbn [fold_left want]. intros H. destruct (decide (y = x)) as [->|Hn].
  - rewrite lookup_alter_eq, H. by eexists.
  - rewrite lookup_alter_ne by done. eauto.
Qed.

(** Replacing a slot by one of the same owner. *)
Lemma owner_insert (g : http_globals) (i : nat) (c c' : cc_http_client) (k : nat) :
  g_clients g !! i = Some c ->
  owner (with_clients (<[i := c']> (g_clients g)) g) k = if decide (k = i) then hc_wsi c' else owner g k.
Proof.
  intros Hc. unfold owner, with_clients. cbn [g_clients]. case_decide as Hk.
  - subst. by rewrite list_lookup_insert_eq by (eapply lookup_lt_Some; done).
  - by rewrite list_lookup_insert_ne by done.
Qed.

Lemma clients_insert (g : http_globals) (i k : nat) (c' d : cc_http_client) :
  g_clients (with_clients (<[i := c']> (g_clients g)) g) !! k = Some d -> k = i /\ d = c' \/ k <> i /\ g_clients g !! k = Some d.
Proof. cbn. intros H. apply list_lookup_insert_Some in H as [(?&?&?)|[??]]; subst; auto. Qed.

(** Frames for listeners change no owner and leave the pairing alone. *)
Definition sends_ok (g g' : http_globals) (es : list lws_event) : Prop :=
  (forall m, slots_ok (World g m) -> slots_ok (World g' (wanted es m))) /\ (forall i, owner g' i = owner g i) /\
  (forall l, listeners l es = Some l).

Lemma send_ok (client : Z) (b : option bytes) (g : http_globals) (rc : Z) (g' : http_globals) (es : list lws_event) :
  cc_http_ws_send_text client b g = (rc, g', es) -> sends_ok g g' es.
Proof.
  assert (Hnone : sends_ok g g []) by done.
  unfold cc_http_ws_send_text. destruct b as [b|]; [|by intros [= _ <- <-]].
  destruct ((strlen b =? 0) || (CC_HTTP_STATUS_MAX <? strlen b)) eqn:Eb; [by intros [= _ <- <-]|].
  destruct ((client <? 0) || _) eqn:Ec; [by intros [= _ <- <-]|].
  destruct (g_clients g !! Z.to_nat client) as [c|] eqn:Hc; [|by intros [= _ <- <-]].
  destruct (hc_wsi c) as [y|] eqn:Hy; [|by intros [= _ <- <-]]. intros [= _ <- <-].
  set (i := Z.to_nat client) in *. set (c' := HttpClient (Some y) _ true b _).
  assert (Ho : forall k, owner (with_clients (<[i := c']> (g_clients g)) g) k = owner g k).
  { intros k. rewrite (owner_insert g i c) by done. case_decide as Hk; [|done]. subst k. unfold owner. by rewrite Hc. }
  split; [|done]. intros m [H1 H2 H3 H4 H5 H6]. change (wanted [OnWritable y] m) with (asked y m).
  split; cbn [w_g w_conns] in *.
  - cbn. by rewrite length_insert.
  - intros k x Hx. rewrite Ho in Hx. destruct (H2 k x Hx) as (cn & Hcn & Hi & Hp).
    destruct (asked_some y x m cn Hcn) as (cn' & E & Es & Ep). exists cn'. by rewrite Es, Ep.
  - intros x cn' Hx Hp. destruct (asked_lookup y x m cn' Hx) as (cn & Hcn & Es & Ep & _). rewrite Ep in Hp. rewrite Es.
    destruct (H3 x cn Hcn Hp) as (k & Hk & Hi). exists k. by rewrite Ho.
  - intros k d x cn' Hd Hw Hpend Hx Hp. destruct (asked_lookup y x m cn' Hx) as (cn & Hcn & Es & Ep & [Hwant|[Hyx ->]]); [done|].
    apply clients_insert in Hd as [[-> ->]|[Hk Hd]]; [cbn in Hw; congruence|]. by eapply H4.
  - intros k d Hd. apply clients_insert in Hd as [[-> ->]|[Hk Hd]]; [|by eapply H5]. cbn. unfold CC_HTTP_STATUS_MAX in *. lia.
  - intros x cn' Hx. destruct (asked_lookup y x m cn' Hx) as (cn & Hcn & Es & _). rewrite Es. by eapply H6.
Qed.

Lemma notified_ok (sends : list (Z * bytes)) (g g' : http_globals) (es : list lws_event) :
  notified sends g = (g', es) -> sends_ok g g' es.
Proof.
  revert g es. induction sends as [|[client b] sends IH]; intros g es; cbn [notified]; [by intros [= <- <-]|].
  destruct (cc_http_ws_send_text client (Some b) g) as [[rc g1] es1] eqn:E1. destruct (notified sends g1) as [g2 es2] eqn:E2.
  intros [= <- <-]. destruct (send_ok _ _ _ _ _ _ E1) as (A1 & A2 & A3). destruct (IH _ _ E2) as (B1 & B2 & B3). split_and!.
  - intros m Hm. rewrite wanted_app. by apply B1, A1.
  - intros i. by rewrite B2.
  - intros l. rewrite listeners_app, A3. apply B3.
Qed.

Lemma sends_quiet (g : http_globals) (es : list lws_event) : Forall quiet es -> sends_ok g g es.
Proof. intros H. split_and!; [intros m; by rewrite wanted_quiet|done|intros l; by apply listeners_quiet]. Qed.

Lemma sends_app (g g1 g2 : http_globals) (es1 es2 : list lws_event) :
  sends_ok g g1 es1 -> sends_ok g1 g2 es2 -> sends_ok g g2 (es1 ++ es2).
Proof.
  intros (A1 & A2 & A3) (B1 & B2 & B3). split_and!.
  - intros m Hm. rewrite wanted_app. by apply B1, A1.
  - intros i. by rewrite B2.
  - intros l. rewrite listeners_app, A3. apply B3.
Qed.

Lemma status_quiet (a : answers) (wsi : nat) (s : http_session) :
  answers_ok a -> Forall quiet (dispatch_status a wsi s (conn_wants_close a)).2.
Proof.
  intros Ha. unfold dispatch_status. case_bool_decide as Hm; cbn [negb]; [|apply (answered_quiet _ _ _ _ (not_allowed_answered a wsi))].
  destruct Ha as (_ & Ho & _). destruct (a_status a) as [rc out]. cbn [snd] in Ho. unfold CC_HTTP_STATUS_MAX in *.
  rewrite (proj2 (Z.ltb_ge 4096 _)) by lia. destruct (rc =? 0); cbn [negb].
  - pose proof (answered_quiet _ _ _ _ (respond_answered a wsi 200 false (Some (lit "application/json")) false out ltac:(lia) ltac:(lia) ltac:(by_decide) ltac:(done))) as H.
    cbn [upgrade_text] in H. destruct (respond_complete _ _ _ _ _ _ _ _). by constructor.
  - pose proof (answered_quiet _ _ _ _ (respond_answered a wsi 500 false text_plain true [] ltac:(lia) ltac:(done) ltac:(by_decide) ltac:(done))) as H.
    cbn [upgrade_text] in H. destruct (respond_complete _ _ _ _ _ _ _ _). by constructor.
Qed.

Lemma post_sends (a : answers) (wsi : nat) (s : http_session) (route : http_route) (g g' : http_globals) (rc : Z) (es : list lws_event) :
  answers_ok a -> dispatch_post a wsi s route (conn_wants_close a) g = (rc, g', es) -> sends_ok g g' es.
Proof.
  intros Ha. unfold dispatch_post. case_bool_decide as Hm; cbn [negb].
  2:{ pose proof (answered_quiet _ _ _ _ (not_allowed_answered a wsi)) as H. destruct (method_not_allowed _ _ _). intros [= _ <- <-]. by apply sends_quiet. }
  destruct (CC_HTTP_BODY_MAX <? hs_body_len s).
  { pose proof (answered_quiet _ _ _ _ (respond_answered a wsi 413 false text_plain true [] ltac:(lia) ltac:(done) ltac:(by_decide) ltac:(done))) as H.
    cbn [upgrade_text] in H. destruct (respond_complete _ _ _ _ _ _ _ _). intros [= _ <- <-]. by apply sends_quiet. }
  set (call := if bool_decide (route = ROUTE_EVENT) then _ else _).
  destruct (notified (a_sends a) g) as [g1 mid] eqn:En. pose proof (answered_quiet _ _ _ _ (answer_post_ok a wsi Ha)) as Hq.
  destruct (answer_post a wsi (conn_wants_close a)) as [rc' post]. intros [= _ <- <-].
  change (call :: mid ++ post) with ([call] ++ (mid ++ post)). apply (sends_app g g g1).
  - apply sends_quiet. unfold call. by case_bool_decide; repeat constructor.
  - apply (sends_app g g1 g1); [by eapply notified_ok|by apply sends_quiet].
Qed.

Lemma dispatch_sends (a : answers) (wsi : nat) (s s' : http_session) (g g' : http_globals) (rc : Z) (es : list lws_event) :
  answers_ok a -> http_dispatch a wsi s g = (rc, s', g', es) -> sends_ok g g' es /\ hs_body_len s' = hs_body_len s.
Proof.
  intros Ha. unfold http_dispatch. destruct (hs_handled s); [by intros [= _ <- <- <-]|].
  assert (Hp : forall r, Forall quiet r.2 -> (r.1, with_handled s, g, r.2) = (rc, s', g', es) -> sends_ok g g' es /\ hs_body_len s' = hs_body_len s).
  { intros r Hq [= _ <- <- <-]. split; [by apply sends_quiet|done]. }
  destruct (hs_route (with_handled s)) as [[]|].
  1,2: destruct (dispatch_post a wsi (with_handled s) _ (conn_wants_close a) g) as [[rc1 g1] es1] eqn:E; intros [= _ <- <- <-];
    split; [by eapply post_sends|done].
  - by apply Hp, status_quiet.
  - apply Hp. by eapply answered_quiet, subscribe_answered.
  - apply Hp. eapply answered_quiet, (respond_answered a wsi 200 false); [done|done|by_decide|done].
  - apply Hp. eapply answered_quiet, (respond_answered a wsi 404 false); [done|done|by_decide|done].
  - by apply (Hp (0, [])).
Qed.

Lemma owner_conn (w : lws_world) (i x : nat) :
  slots_ok w -> owner (w_g w) i = Some x -> cn_phase (conn_of w x) <> Plain /\ hs_client_idx (cn_session (conn_of w x)) = Z.of_nat i.
Proof. intros Hw Hi. destruct (so_slot w Hw i x Hi) as (cn & Hcn & Hidx & Hp). unfold conn_of. by rewrite Hcn. Qed.

Lemma conn_owner (w : lws_world) (x : nat) :
  slots_ok w -> cn_phase (conn_of w x) <> Plain ->
  exists i c, g_clients (w_g w) !! i = Some c /\ hc_wsi c = Some x /\ hs_client_idx (cn_session (conn_of w x)) = Z.of_nat i /\
    w_conns w !! x = Some (conn_of w x).
Proof.
  unfold conn_of. intros Hw Hp. destruct (w_conns w !! x) as [cn|] eqn:Hx; [|done]. cbn in *.
  destruct (so_conn w Hw x cn Hx Hp) as (i & Ho & Hidx). unfold owner in Ho. destruct (g_clients (w_g w) !! i) as [c|] eqn:Hc; [|done].
  by exists i, c.
Qed.

Lemma body_of (w : lws_world) (x : nat) :
  slots_ok w -> 0 <= hs_body_len (cn_session (conn_of w x)) <= CC_HTTP_BODY_MAX + 1.
Proof.
  intros Hw. unfold conn_of. destruct (w_conns w !! x) as [cn|] eqn:Hx; [by eapply so_body|]. cbn. unfold CC_HTTP_BODY_MAX. lia.
Qed.

(** A connection changes and no slot does. *)
Lemma slots_put (w : lws_world) (x : nat) (cn : conn) :
  slots_ok w -> (cn_phase cn = Plain <-> cn_phase (conn_of w x) = Plain) ->
  (cn_phase cn <> Plain -> hs_client_idx (cn_session cn) = hs_client_idx (cn_session (conn_of w x))) ->
  (forall i c, g_clients (w_g w) !! i = Some c -> hc_wsi c = Some x -> hc_has_pending c = true -> cn_phase cn = Open -> cn_wants cn = true) ->
  0 <= hs_body_len (cn_session cn) <= CC_HTTP_BODY_MAX + 1 ->
  slots_ok (World (w_g w) (<[x := cn]> (w_conns w))).
Proof.
  intros Hw Hp Hi Hwake Hb. pose proof Hw as [H1 H2 H3 H4 H5 H6]. split; cbn [w_g w_conns]; [done|..|done|].
  - intros i y Hy. destruct (decide (x = y)) as [->|Hn].
    + destruct (owner_conn w i y Hw Hy) as [Hne Hidx]. exists cn. rewrite lookup_insert_eq, Hi by tauto. tauto.
    + rewrite lookup_insert_ne by done. by apply H2.
  - intros y cn' Hy Hne. destruct (decide (x = y)) as [->|Hn].
    + rewrite lookup_insert_eq in Hy. simplify_eq. destruct (conn_owner w y Hw ltac:(tauto)) as (i & c & Hc & Hwsi & Hidx & _).
      exists i. unfold owner. rewrite Hc. split; [done|]. by rewrite Hi.
    + rewrite lookup_insert_ne in Hy by done. by apply H3.
  - intros i c y cn' Hc Hwsi Hpend Hy Ho. destruct (decide (x = y)) as [->|Hn].
    + rewrite lookup_insert_eq in Hy. simplify_eq. by eapply Hwake.
    + rewrite lookup_insert_ne in Hy by done. by eapply H4.
  - intros y cn' Hy. destruct (decide (x = y)) as [->|Hn].
    + rewrite lookup_insert_eq in Hy. by simplify_eq.
    + rewrite lookup_insert_ne in Hy by done. by eapply H6.
Qed.

(** A slot is replaced by one of the same owner with less to write. *)
Lemma slots_same_owner (g : http_globals) (m : gmap nat conn) (i : nat) (c c' : cc_http_client) :
  slots_ok (World g m) -> g_clients g !! i = Some c -> hc_wsi c' = hc_wsi c ->
  (hc_has_pending c' = true -> hc_has_pending c = true) -> strlen (hc_pending c') <= CC_HTTP_STATUS_MAX ->
  slots_ok (World (with_clients (<[i := c']> (g_clients g)) g) m).
Proof.
  intros [H1 H2 H3 H4 H5 H6] Hc Hw Hpend Hlen. cbn [w_g w_conns] in *.
  assert (Ho : forall k, owner (with_clients (<[i := c']> (g_clients g)) g) k = owner g k).
  { intros k. rewrite (owner_insert g i c) by done. case_decide as Hk; [|done]. subst k. unfold owner. by rewrite Hc. }
  split; cbn [w_g w_conns]; [cbn; by rewrite length_insert|..|done].
  - intros k x. rewrite Ho. apply H2.
  - intros x cn Hx Hp. destruct (H3 x cn Hx Hp) as (k & Hk & Hi). exists k. by rewrite Ho.
  - intros k d x cn Hd Hx Hp. apply clients_insert in Hd as [[-> ->]|[Hk Hd]]; [|by eapply H4]. rewrite Hw in Hx.
    eapply (H4 i c x cn Hc Hx). by apply Hpend.
  - intros k d Hd. apply clients_insert in Hd as [[-> ->]|[Hk Hd]]; [done|by eapply H5].
Qed.

(** The clients are those of the slots in use, and those of open connections
    are registered. *)
Definition tracked (l : gmap nat bool) (w : lws_world) : Prop :=
  (forall i, is_Some (l !! i) <-> is_Some (owner (w_g w) i)) /\
  (forall x cn i, w_conns w !! x = Some cn -> cn_phase cn = Open -> owner (w_g w) i = Some x -> l !! i = Some true).

(** Connections that are open were open. *)
Definition opens_none (w : lws_world) (m : gmap nat conn) : Prop :=
  forall x cn, m !! x = Some cn -> cn_phase cn = Open -> exists cn0, w_conns w !! x = Some cn0 /\ cn_phase cn0 = Open.

Lemma opens_none_insert (w : lws_world) (x : nat) (cn : conn) :
  (cn_phase cn = Open -> cn_phase (conn_of w x) = Open) -> opens_none w (<[x := cn]> (w_conns w)).
Proof.
  intros Hx y cn' Hy Ho. destruct (decide (x = y)) as [<-|Hn].
  - rewrite lookup_insert_eq in Hy. simplify_eq. specialize (Hx Ho). unfold conn_of in Hx.
    destruct (w_conns w !! x) as [cn0|]; [by exists cn0|done].
  - rewrite lookup_insert_ne in Hy by done. by exists cn'.
Qed.

Lemma wanted_phase (es : list lws_event) (m : gmap nat conn) (x : nat) (cn' : conn) :
  wanted es m !! x = Some cn' -> exists cn, m !! x = Some cn /\ cn_phase cn' = cn_phase cn.
Proof.
  revert m. induction es as [|e es IH]; intros m; cbn; [by exists cn'|].
  intros (cn1 & H1 & ->)%IH. destruct e; try (by exists cn1).
  destruct (asked_lookup _ _ _ _ H1) as (cn & Hc & _ & -> & _). by exists cn.
Qed.

Lemma tracked_keep (l : gmap nat bool) (w : lws_world) (g : http_globals) (m : gmap nat conn) (es : list lws_event) :
  (forall i, owner g i = owner (w_g w) i) -> opens_none w m -> tracked l w -> tracked l (World g (wanted es m)).
Proof.
  intros Ho Hm [H1 H2]. split; cbn [w_g w_conns].
  - intros i. by rewrite Ho.
  - intros x cn' i (cn & Hx & ->)%wanted_phase Hp. rewrite Ho. destruct (Hm x cn Hx Hp) as (cn0 & Hx0 & Hp0). by apply (H2 x cn0).
Qed.

Definition step_ok (w w' : lws_world) (es : list lws_event) : Prop :=
  slots_ok w' /\ forall l, tracked l w -> exists l', listeners l es = Some l' /\ tracked l' w'.

Lemma sends_step (w : lws_world) (g' : http_globals) (m : gmap nat conn) (es : list lws_event) :
  sends_ok (w_g w) g' es -> slots_ok (World (w_g w) m) -> opens_none w m -> step_ok w (World g' (wanted es m)) es.
Proof.
  intros (H1 & H2 & H3) Hm Hn. split; [by apply H1|]. intros l Hl. exists l. split; [apply H3|]. by apply (tracked_keep l w).
Qed.

(** A callback of a connection without a WebSocket. *)
Lemma plain_step (w : lws_world) (x : nat) (s : http_session) (wants : bool) (g : http_globals) (es : list lws_event) :
  slots_ok w -> cn_phase (conn_of w x) = Plain -> sends_ok (w_g w) g es -> 0 <= hs_body_len s <= CC_HTTP_BODY_MAX + 1 ->
  step_ok w (World g (wanted es (<[x := Conn s Plain wants]> (w_conns w)))) es.
Proof. intros Hw Hp Hs Hb. apply sends_step; [done|by apply slots_put|by apply opens_none_insert]. Qed.

(** A callback that leaves session and slots alone. *)
Lemma still_step (w : lws_world) (x : nat) (p : phase) (es : list lws_event) :
  slots_ok w -> (p = cn_phase (conn_of w x) \/ p = Dying /\ cn_phase (conn_of w x) <> Plain) -> Forall quiet es ->
  step_ok w (World (w_g w) (wanted es (<[x := Conn (cn_session (conn_of w x)) p (cn_wants (conn_of w x))]> (w_conns w)))) es.
Proof.
  intros Hw Hp Hq. apply sends_step; [by apply sends_quiet| |apply opens_none_insert; cbn; intros ->; naive_solver].
  apply slots_put; cbn; [done| |done| |by apply body_of].
  - destruct Hp as [->|[-> ?]]; naive_solver.
  - intros i c Hc Hx Hpend ->. destruct Hp as [Hp|[? _]]; [|done].
    destruct (conn_owner w x Hw) as (_ & _ & _ & _ & _ & Hcn); [by rewrite <- Hp|]. by eapply (so_wake w Hw i c x).
Qed.

Lemma respond_quiet (a : answers) (wsi : nat) (status : Z) (t : option cstring) (nosniff : bool) (body : bytes) (close : bool) :
  0 <= status -> type_ok t -> Forall quiet (http_respond a wsi status None t nosniff body close).2.
Proof.
  intros Hs Ht. unfold http_respond. change None with (upgrade_text false). rewrite header_is; [|done|apply strlen_nonneg|done].
  repeat case_match; repeat constructor.
Qed.

Lemma confirm_sends (a : answers) (x : nat) (m : http_method) (uri : bytes) (s : http_session) (g : http_globals) :
  answers_ok a ->
  exists rc g' es, cb_confirm_upgrade a x m uri s g = (rc, s, g', es) /\ sends_ok g g' es.
Proof.
  intros Ha. unfold cb_confirm_upgrade. destruct (streq uri (lit "/subscribe")); cbn [negb].
  - case_bool_decide as Hm; cbn [negb]; [by eexists _, _, _|].
    match goal with |- context [http_respond ?a ?x ?st ?e ?t ?n ?b ?c] =>
      pose proof (respond_quiet a x st t n b c ltac:(lia) ltac:(by_decide)) as Hq; destruct (http_respond a x st e t n b c) as [rc es] end.
    eexists _, _, _. split; [done|]. by apply sends_quiet.
  - match goal with |- context [http_dispatch a x ?s g] => destruct (http_dispatch a x s g) as [[[rc s'] g'] es] eqn:E end.
    eexists _, _, _. split; [done|]. by eapply dispatch_sends.
Qed.

Lemma free_slot_Some (cs : list cc_http_client) (i : nat) :
  free_slot cs = Some i -> exists c, cs !! i = Some c /\ hc_wsi c = None.
Proof.
  revert i. induction cs as [|c cs IH]; intros i; [done|]. cbn. case_bool_decide as Hc; [intros [= <-]; by exists c|].
  destruct (free_slot cs) as [k|]; [|done]. intros [= <-]. by apply IH.
Qed.

(** A free slot is given to a new WebSocket. *)
Lemma slots_connect (w : lws_world) (x i : nat) (c : cc_http_client) (s : http_session) (p : phase) (wants : bool) :
  slots_ok w -> cn_phase (conn_of w x) = Plain -> g_clients (w_g w) !! i = Some c -> hc_wsi c = None ->
  p <> Plain -> hs_client_idx s = Z.of_nat i -> 0 <= hs_body_len s <= CC_HTTP_BODY_MAX + 1 ->
  slots_ok (World (with_clients (<[i := HttpClient (Some x) (Z.of_nat i) false [] 0]> (g_clients (w_g w))) (w_g w))
              (<[x := Conn s p wants]> (w_conns w))).
Proof.
  intros Hw Hx Hc Hfree Hp Hi Hb. pose proof Hw as [H1 H2 H3 H4 H5 H6].
  assert (Hnx : forall k, owner (w_g w) k <> Some x) by (intros k Hk; by destruct (owner_conn w k x Hw Hk)).
  assert (Hni : owner (w_g w) i = None) by (unfold owner; by rewrite Hc).
  split; cbn [w_g w_conns]; [cbn; by rewrite length_insert|..].
  - intros k y. rewrite (owner_insert _ i c) by done. case_decide as Hk; cbn [hc_wsi].
    + intros [= <-]. subst. rewrite lookup_insert_eq. by eexists.
    + intros Hy. assert (x <> y) by (intros ->; by apply (Hnx k)). rewrite lookup_insert_ne by done. by apply H2.
  - intros y cn Hy Hne. destruct (decide (x = y)) as [->|Hn].
    + rewrite lookup_insert_eq in Hy. simplify_eq. exists i. rewrite (owner_insert _ i c), decide_True by done. done.
    + rewrite lookup_insert_ne in Hy by done. destruct (H3 y cn Hy Hne) as (k & Hk & Hidx). exists k.
      rewrite (owner_insert _ i c) by done. rewrite decide_False by congruence. done.
  - intros k d y cn Hd Hy Hpend. apply clients_insert in Hd as [[-> ->]|[Hk Hd]]; [done|].
    assert (Hxy : x <> y) by (intros ->; apply (Hnx k); unfold owner; by rewrite Hd).
    rewrite lookup_insert_ne by done. by apply (H4 k d y cn).
  - intros k d Hd. apply clients_insert in Hd as [[-> ->]|[Hk Hd]]; [done|by eapply H5].
  - intros y cn Hy. destruct (decide (x = y)) as [->|Hn].
    + rewrite lookup_insert_eq in Hy. by simplify_eq.
    + rewrite lookup_insert_ne in Hy by done. by eapply H6.
Qed.

(** A slot is given back and its connection is gone. *)
Lemma slots_release (w : lws_world) (x i : nat) (c : cc_http_client) (d : Z) :
  slots_ok w -> g_clients (w_g w) !! i = Some c -> hc_wsi c = Some x ->
  slots_ok (World (with_clients (<[i := HttpClient None (hc_client_idx c) false [] d]> (g_clients (w_g w))) (w_g w))
              (delete x (w_conns w))).
Proof.
  intros Hw Hc Hx. pose proof Hw as [H1 H2 H3 H4 H5 H6].
  assert (Hi : owner (w_g w) i = Some x) by (unfold owner; by rewrite Hc).
  assert (Honly : forall k, owner (w_g w) k = Some x -> k = i).
  { intros k Hk. destruct (owner_conn w k x Hw Hk), (owner_conn w i x Hw Hi). lia. }
  split; cbn [w_g w_conns]; [cbn; by rewrite length_insert|..].
  - intros k y. rewrite (owner_insert _ i c) by done. case_decide as Hk; [done|]. intros Hy.
    assert (x <> y) by (intros ->; by apply Hk, Honly). rewrite lookup_delete_ne by done. by apply H2.
  - intros y cn Hy Hne. apply lookup_delete_Some in Hy as [Hn Hy]. destruct (H3 y cn Hy Hne) as (k & Hk & Hidx). exists k.
    rewrite (owner_insert _ i c) by done. rewrite decide_False by congruence. done.
  - intros k e y cn He Hy Hpend. apply clients_insert in He as [[-> ->]|[Hk He]]; [done|].
    intros Hcn. apply lookup_delete_Some in Hcn as [_ Hcn]. by eapply H4.
  - intros k e He. apply clients_insert in He as [[-> ->]|[Hk He]]; [done|by eapply H5].
  - intros y cn Hy. apply lookup_delete_Some in Hy as [_ Hy]. by eapply H6.
Qed.

(** The listener of a new WebSocket is registered if the call says so. *)
Lemma tracked_connect (l : gmap nat bool) (w : lws_world) (x i : nat) (c : cc_http_client) (g : http_globals)
    (s : http_session) (p : phase) (wants : bool) (rc : Z) (es : list lws_event) :
  slots_ok w -> cn_phase (conn_of w x) = Plain -> g_clients (w_g w) !! i = Some c -> hc_wsi c = None ->
  (forall k, owner g k = owner (with_clients (<[i := HttpClient (Some x) (Z.of_nat i) false [] 0]> (g_clients (w_g w))) (w_g w)) k) ->
  (p = Open -> rc = 0) -> tracked l w ->
  tracked (<[i := rc =? 0]> l) (World g (wanted es (<[x := Conn s p wants]> (w_conns w)))).
Proof.
  intros Hw Hx Hc Hnone Ho Hp [H1 H2]. assert (Hni : owner (w_g w) i = None) by (unfold owner; by rewrite Hc).
  split; cbn [w_g w_conns].
  - intros k. rewrite Ho, (owner_insert _ i c) by done. case_decide as Hk; cbn [hc_wsi].
    + subst. rewrite lookup_insert_eq. split; by eexists.
    + by rewrite lookup_insert_ne by done.
  - intros y cn' k (cn & Hy & ->)%wanted_phase Hop. rewrite Ho, (owner_insert _ i c) by done. case_decide as Hk; cbn [hc_wsi].
    + subst k. intros [= <-]. rewrite lookup_insert_eq in Hy. rewrite lookup_insert_eq. simplify_eq. cbn in Hop. by rewrite (Hp Hop).
    + intros Hk'. rewrite lookup_insert_ne by done. assert (x <> y) by (intros ->; by destruct (owner_conn w k y Hw Hk')).
      rewrite lookup_insert_ne in Hy by done. by apply (H2 y cn).
Qed.

Lemma established_step (w : lws_world) (x : nat) (a : answers) :
  slots_ok w -> cn_phase (conn_of w x) = Plain -> free_slot (g_clients (w_g w)) <> None ->
  step_ok w (deliver (Call x CbEstablished a) w).1 (deliver (Call x CbEstablished a) w).2.
Proof.
  intros Hw Hx Hfree. unfold deliver, http_cb, cb_established. cbn [call_wsi call_reason call_answers drops next_phase].
  destruct (free_slot (g_clients (w_g w))) as [i|] eqn:Ei; [|done]. destruct (free_slot_Some _ _ Ei) as (c & Hc & Hnone).
  set (g1 := with_clients _ _). destruct (notified (a_sends a) g1) as [g2 mid] eqn:En.
  destruct (notified_ok _ _ _ _ En) as (N1 & N2 & N3).
  set (s := with_idx (Z.of_nat i) (cn_session (conn_of w x))).
  set (e := WsConnect i (a_connect a)).
  assert (Hg : forall p rest, p <> Plain -> (p = Open -> a_connect a = 0) -> Forall quiet rest ->
    step_ok w (World g2 (wanted (e :: mid ++ rest) (<[x := Conn s p (cn_wants (conn_of w x))]> (w_conns w)))) (e :: mid ++ rest)).
  { intros p rest Hp Hreg Hq. assert (H : slots_ok (World g1 (<[x := Conn s p (cn_wants (conn_of w x))]> (w_conns w)))).
    { apply (slots_connect w x i c); try done. by apply body_of. }
    split.
    - change (wanted (e :: mid ++ rest) ?m) with (wanted (mid ++ rest) m). rewrite wanted_app, (wanted_quiet rest) by done. by apply N1.
    - intros l Hl. exists (<[i := a_connect a =? 0]> l). split; [|by apply (tracked_connect l w x i c)].
      unfold e. cbn [listeners]. rewrite decide_True, listeners_app, N3; [by apply listeners_quiet|].
      apply eq_None_not_Some. rewrite (proj1 Hl i). unfold owner. rewrite Hc. cbn. rewrite Hnone. by intros []. }
  destruct (Z.eqb_spec (a_connect a) 0) as [E0|E0]; cbn [negb fst snd].
  - change (0 =? 0) with true. rewrite <- (app_nil_r mid). by apply Hg.
  - change (-1 =? 0) with false. apply Hg; [done|done|]. by repeat constructor.
Qed.

Lemma writeable_step (w : lws_world) (x : nat) (a : answers) :
  slots_ok w -> cn_phase (conn_of w x) = Open ->
  step_ok w (deliver (Call x CbServerWriteable a) w).1 (deliver (Call x CbServerWriteable a) w).2.
Proof.
  intros Hw Hx. destruct (conn_owner w x Hw) as (i & c & Hc & Hwsi & Hidx & Hcn); [by rewrite Hx|].
  assert (Honly : forall k d, g_clients (w_g w) !! k = Some d -> hc_wsi d = Some x -> k = i).
  { intros k d Hd Hdx. assert (Hk : owner (w_g w) k = Some x) by (unfold owner; by rewrite Hd).
    destruct (owner_conn w k x Hw Hk). lia. }
  unfold deliver, http_cb, cb_server_writeable. cbn [call_wsi call_reason call_answers drops].
  rewrite Hidx, (proj2 (Z.ltb_ge _ 0)), Nat2Z.id, Hc, Hwsi, bool_decide_eq_true_2 by (done || lia). cbn [negb].
  set (s := cn_session (conn_of w x)).
  assert (Hput : forall p c' es, p <> Plain -> Forall quiet es -> hc_wsi c' = hc_wsi c ->
    (hc_has_pending c' = true -> hc_has_pending c = true /\ p = Dying) -> hc_pending c' = hc_pending c ->
    step_ok w (World (with_clients (<[i := c']> (g_clients (w_g w))) (w_g w)) (wanted es (<[x := Conn s p false]> (w_conns w)))) es).
  { intros p c' es Hp Hq Hw' Hpend Hb. rewrite wanted_quiet by done. set (g1 := with_clients _ _).
    assert (H1 : slots_ok (World g1 (w_conns w))).
    { apply (slots_same_owner (w_g w) (w_conns w) i c); [by destruct w|done|done|naive_solver|]. rewrite Hb. by eapply so_frame. }
    assert (Hco : conn_of (World g1 (w_conns w)) x = conn_of w x) by done. split.
    - apply (slots_put (World g1 (w_conns w)) x); rewrite ?Hco; cbn [cn_phase cn_session cn_wants w_g]; [done|by rewrite Hx|done| |by apply body_of].
      intros k d Hd Hdx Hdp ->. apply clients_insert in Hd as [[-> ->]|[Hk Hd]]; [by destruct (Hpend Hdp)|]. by destruct (Hk (Honly k d Hd Hdx)).
    - intros l Hl. exists l. split; [by apply listeners_quiet|]. apply (tracked_keep l w g1 _ []); [|by apply opens_none_insert|done].
      intros k. unfold g1. rewrite (owner_insert _ i c) by done. case_decide as Hk; [|done]. subst k. unfold owner. by rewrite Hc, Hw'. }
  destruct (hc_has_pending c) eqn:Ep.
  - unfold write_pending. destruct (_ || _); [|destruct (a_text_ok a)]; cbn [negb fst snd next_phase].
    + apply Hput; try done. by repeat constructor.
    + change (0 =? 0) with true. rewrite Hx. apply Hput; try done. destruct (g_shutdown (w_g w)); by repeat constructor.
    + apply Hput; try done. by repeat constructor.
  - assert (Hsame : forall p es, p <> Plain -> Forall quiet es ->
      step_ok w (World (w_g w) (wanted es (<[x := Conn s p false]> (w_conns w)))) es).
    { intros p es Hp Hq. apply sends_step; [by apply sends_quiet| |by apply opens_none_insert]. apply slots_put; cbn; [done|by rewrite Hx|done| |by apply body_of].
      intros k d Hd Hdx Hdp. pose proof (Honly k d Hd Hdx). simplify_eq. congruence. }
    destruct (g_shutdown (w_g w)); cbn [fst snd next_phase].
    + apply Hsame; [done|by repeat constructor].
    + change (0 =? 0) with true. rewrite Hx. by apply Hsame.
Qed.

Lemma closed_step (w : lws_world) (x : nat) (a : answers) :
  slots_ok w -> cn_phase (conn_of w x) <> Plain ->
  step_ok w (deliver (Call x CbClosed a) w).1 (deliver (Call x CbClosed a) w).2.
Proof.
  intros Hw Hx. destruct (conn_owner w x Hw Hx) as (i & c & Hc & Hwsi & Hidx & Hcn).
  unfold deliver, http_cb, cb_closed. cbn [call_wsi call_reason call_answers drops].
  rewrite Hidx, (proj2 (Z.ltb_ge _ 0)), Nat2Z.id, Hc by lia. cbn [fst snd]. split; [by apply slots_release|].
  intros l [Hl Hop]. exists (delete i l). cbn [listeners]. rewrite decide_False.
  2:{ apply not_eq_None_Some. rewrite (Hl i). unfold owner. rewrite Hc. by exists x. }
  split; [done|]. split; cbn [w_g w_conns wanted fold_left want].
  - intros k. rewrite (owner_insert _ i c) by done. case_decide as Hk; cbn [hc_wsi].
    + subst. rewrite lookup_delete_eq. split; by intros [].
    + by rewrite lookup_delete_ne by done.
  - intros y cn k [_ Hy]%lookup_delete_Some Hp. rewrite (owner_insert _ i c) by done. case_decide as Hk; [done|].
    rewrite lookup_delete_ne by done. by apply (Hop y cn).
Qed.

Lemma closed_http_step (w : lws_world) (x : nat) (a : answers) :
  slots_ok w -> cn_phase (conn_of w x) = Plain ->
  step_ok w (deliver (Call x CbClosedHttp a) w).1 (deliver (Call x CbClosedHttp a) w).2.
Proof.
  intros Hw Hx. unfold deliver, http_cb. cbn [call_wsi call_reason call_answers drops next_phase fst snd].
  apply (sends_step w (w_g w)); [by apply sends_quiet| |by intros y cn [_ Hy]%lookup_delete_Some; exists cn].
  pose proof Hw as [H1 H2 H3 H4 H5 H6].
  assert (Hno : forall i, owner (w_g w) i <> Some x) by (intros i Hi; by destruct (owner_conn w i x Hw Hi)).
  split; cbn [w_g w_conns]; [done|..|done|].
  - intros i y Hy. assert (x <> y) by (intros ->; by apply (Hno i)). rewrite lookup_delete_ne by done. by apply H2.
  - intros y cn Hy Hne. apply lookup_delete_Some in Hy as [_ Hy]. by apply H3.
  - intros i c y cn Hc Hy Hp Hcn. apply lookup_delete_Some in Hcn as [_ Hcn]. by eapply H4.
  - intros y cn Hy. apply lookup_delete_Some in Hy as [_ Hy]. by eapply H6.
Qed.

Lemma deliver_step (w : lws_world) (c : callback) :
  slots_ok w -> allowed c w = true -> answers_ok (call_answers c) ->
  (forall data, call_reason c = CbHttpBody data -> strlen data < 2 ^ 31) ->
  (call_reason c = CbEstablished -> free_slot (g_clients (w_g w)) <> None) ->
  step_ok w (deliver c w).1 (deliver c w).2.
Proof.
  destruct c as [x r a]. unfold allowed. cbn [call_wsi call_reason call_answers]. intros Hw Hal Ha Hbody Hfree.
  pose proof (body_of w x Hw) as Hb.
  destruct r as [m uri|data| |m uri| | | | | | |]; rewrite ?andb_true_iff, ?negb_true_iff, ?bool_decide_eq_true, ?bool_decide_eq_false in Hal.
  - unfold deliver, http_cb, cb_http. cbn [call_wsi call_reason call_answers drops next_phase].
    set (s1 := HttpSession _ _ _ _ _ _ _). case_bool_decide.
    + cbn [fst snd]. rewrite Hal. by apply plain_step; [..|done|cbn; unfold CC_HTTP_BODY_MAX; lia].
    + destruct (http_dispatch a x s1 (w_g w)) as [[[rc s'] g'] es] eqn:E. cbn [fst snd]. rewrite Hal.
      destruct (dispatch_sends _ _ _ _ _ _ _ _ Ha E) as [Hs Hl]. apply plain_step; [done..|]. rewrite Hl. cbn. unfold CC_HTTP_BODY_MAX. lia.
  - unfold deliver, http_cb, cb_http_body. cbn [call_wsi call_reason call_answers drops next_phase]. specialize (Hbody data eq_refl).
    pose proof (strlen_nonneg data). unfold CC_HTTP_BODY_MAX in *. rewrite (wrap_small 32 (strlen data)), wrap_small by lia.
    destruct (Z.leb_spec (hs_body_len (cn_session (conn_of w x)) + strlen data) 16384).
    + rewrite (proj2 (Z.ltb_ge _ _)) by lia. cbn [fst snd]. rewrite Hal. apply plain_step; [done..|]. cbn. unfold CC_HTTP_BODY_MAX. lia.
    + cbn [fst snd]. rewrite Hal. apply plain_step; [done..|]. cbn. unfold CC_HTTP_BODY_MAX. lia.
  - unfold deliver, http_cb. cbn [call_wsi call_reason call_answers drops next_phase].
    destruct (http_dispatch a x _ (w_g w)) as [[[rc s'] g'] es] eqn:E. cbn [fst snd]. rewrite Hal.
    destruct (dispatch_sends _ _ _ _ _ _ _ _ Ha E) as [Hs Hl]. apply plain_step; [done..|]. by rewrite Hl.
  - unfold deliver, http_cb. cbn [call_wsi call_reason call_answers drops next_phase].
    destruct (confirm_sends a x m uri (cn_session (conn_of w x)) (w_g w) Ha) as (rc & g' & es & E & Hs). rewrite E. cbn [fst snd].
    rewrite Hal. by apply plain_step.
  - apply established_step; [done..|]. by apply Hfree.
  - apply writeable_step; [done|]. by destruct Hal.
  - apply (still_step w x (cn_phase (conn_of w x)) []); [done|by left|done].
  - apply (still_step w x Dying [CloseReason x LWS_CLOSE_STATUS_NORMAL []]); [done|right; by rewrite Hal|by repeat constructor].
  - by apply closed_step.
  - by apply closed_http_step.
  - apply (still_step w x (cn_phase (conn_of w x)) []); [done|by left|done].
Qed.

Lemma start_ok (addr : option cstring) (timeout : Z) (g0 g : http_globals) (port : option Z) :
  cc_http_server_init addr true timeout true true g0 = (0, port, g) ->
  slots_ok (World g ∅) /\ tracked ∅ (World g ∅).
Proof.
  unfold cc_http_server_init. destruct addr as [addr|]; [|done]. cbn [negb]. destruct (port_loop _ _) as [p|]; [|done].
  destruct ((p <=? 0) || (65535 <? p)); [done|]. intros [= _ <-].
  set (g := Globals true timeout false (g_service_loop g0) (replicate 4 no_client)).
  assert (Hno : forall i c, g_clients g !! i = Some c -> c = no_client) by (intros i c Hc; by apply lookup_replicate in Hc as [-> _]).
  assert (Ho : forall i, owner g i = None).
  { intros i. unfold owner. destruct (g_clients g !! i) as [c|] eqn:Hc; [|done]. by rewrite (Hno i c Hc). }
  split; [split|].
  - done.
  - intros i x. cbn [w_g]. by rewrite Ho.
  - intros x cn Hx. cbn [w_conns] in Hx. by rewrite lookup_empty in Hx.
  - intros i c x cn Hc Hx. apply Hno in Hc. by subst.
  - intros i c Hc. apply Hno in Hc. by subst.
  - intros x cn Hx. cbn [w_conns] in Hx. by rewrite lookup_empty in Hx.
  - split; [|done]. intros i. cbn [w_g]. rewrite Ho, lookup_empty. split; by intros [].
Qed.

(** C38: Slots and WebSockets stay paired: however requests, upgrades,
    writes, closes and status pushes interleave, as long as no fifth client
    is established, every slot in use belongs to one open or closing
    connection whose session knows it, every such connection has its slot, and
    a frame that waits has asked for a writable callback; the controller is
    asked to register a listener when a slot is taken and to remove it when it
    is given back, once each, an open connection's listener is registered (a
    connection whose registration the controller refused is being closed), and
    no listener is registered for a slot that is not in use; nothing is read or
    written past a buffer. *)
Theorem alt_slots_consistent (w : lws_world) (es : list lws_event) :
  runs w es -> slots_ok w /\
    exists l, listeners ∅ es = Some l /\ (forall i, is_Some (l !! i) <-> is_Some (owner (w_g w) i)) /\
      (forall x cn i, w_conns w !! x = Some cn -> cn_phase cn = Open -> owner (w_g w) i = Some x -> l !! i = Some true).
Proof.
  change (runs w es -> slots_ok w /\ exists l, listeners ∅ es = Some l /\ tracked l w).
  induction 1 as [addr timeout g0 port g Hg|w es c _ [Hw (l & Hl & Ht)] Hal Ha Hb Hf|w es client b rc g es' _ [Hw (l & Hl & Ht)] Hs|w es _ [Hw IH]].
  - destruct (start_ok _ _ _ _ _ Hg). split; [done|]. by exists ∅.
  - destruct (deliver_step w c Hw Hal Ha Hb Hf) as [Hw' Hstep]. split; [done|]. destruct (Hstep l Ht) as (l' & Hl' & Ht').
    exists l'. by rewrite listeners_app, Hl.
  - destruct (sends_step w g (w_conns w) es' (send_ok _ _ _ _ _ _ Hs)) as [Hw' Hstep]; [by destruct w|by intros x cn ?; exists cn|].
    split; [done|]. destruct (Hstep l Ht) as (l' & Hl' & Ht'). exists l'. by rewrite listeners_app, Hl.
  - split; [|done]. destruct Hw as [H1 H2 H3 H4 H5 H6]. by split.
Qed.

(** Two clients connect, the first gets a frame and has it written, a third is
    refused by the controller, the second leaves. *)
Definition quiet_answers : answers := Answers None true true true 0 (0, []) (0, []) 0 [] 5.
Definition refusing_answers : answers := Answers None true true true 0 (0, []) (0, []) (-1) [] 5.
Definition start_world : lws_world :=
  World (cc_http_server_init (Some (lit ":4000")) true 9 true true sample_globals).2 ∅.
Definition world_1 : lws_world := (deliver (Call 10 CbEstablished quiet_answers) start_world).1.
Definition world_2 : lws_world := (deliver (Call 11 CbEstablished quiet_answers) world_1).1.
Definition world_3 : lws_world :=
  World (cc_http_ws_send_text 0 (Some (lit "{}")) (w_g world_2)).1.2 (wanted [OnWritable 10] (w_conns world_2)).
Definition world_4 : lws_world := (deliver (Call 10 CbServerWriteable quiet_answers) world_3).1.
Definition world_5 : lws_world := (deliver (Call 12 CbEstablished refusing_answers) world_4).1.
Definition world_6 : lws_world := (deliver (Call 11 CbClosed quiet_answers) world_5).1.

Lemma alt_slots_consistent_witness :
  slots_ok world_6 /\
  exists l, listeners ∅ [WsConnect 0 0; WsConnect 1 0; OnWritable 10; WriteText 10 (lit "{}"); WsConnect 2 (-1);
      CloseReason 12 LWS_CLOSE_STATUS_UNEXPECTED_CONDITION (lit "could not add listener"); WsDisconnect 1] = Some l /\
    (forall i, is_Some (l !! i) <-> is_Some (owner (w_g world_6) i)) /\
    (forall x cn i, w_conns world_6 !! x = Some cn -> cn_phase cn = Open -> owner (w_g world_6) i = Some x -> l !! i = Some true).
Proof.
  apply (alt_slots_consistent world_6 (((((([] ++ [WsConnect 0 0]) ++ [WsConnect 1 0]) ++ [OnWritable 10]) ++ [WriteText 10 (lit "{}")]) ++
    [WsConnect 2 (-1); CloseReason 12 LWS_CLOSE_STATUS_UNEXPECTED_CONDITION (lit "could not add listener")]) ++ [WsDisconnect 1])).
  apply (runs_call world_5 _ (Call 11 CbClosed quiet_answers)); [|by vm_compute|by_decide|done|done].
  apply (runs_call world_4 _ (Call 12 CbEstablished refusing_answers)); [|by vm_compute|by_decide|done|by vm_compute].
  apply (runs_call world_3 _ (Call 10 CbServerWriteable quiet_answers)); [|by vm_compute|by_decide|done|done].
  apply (runs_send world_2 _ 0 (Some (lit "{}")) 0 (cc_http_ws_send_text 0 (Some (lit "{}")) (w_g world_2)).1.2); [|by vm_compute].
  apply (runs_call world_1 _ (Call 11 CbEstablished quiet_answers)); [|by vm_compute|by_decide|done|by vm_compute].
  apply (runs_call start_world _ (Call 10 CbEstablished quiet_answers)); [|by vm_compute|by_decide|done|by vm_compute].
  by apply (runs_start (Some (lit ":4000")) 9 sample_globals (Some 4000)).
Defined.

(** ** The port *)
Lemma port_loop_digits (ds : cstring) (v : Z) :
  forallb is_digit ds = true -> 0 <= v ->
  let n := fold_left (fun v c => v * 10 + digit c) ds v in
  port_loop ds v = Some n \/ port_loop ds v = None /\ 65535 < n.
Proof.
  revert v. induction ds as [|c ds IH]; intros v Hd Hv; cbn [fold_left port_loop]; [by left|].
  cbn in Hd. apply andb_true_iff in Hd as [Hc Hd]. rewrite Hc. pose proof Hc as Hc'.
  unfold is_digit in Hc'. change (chr "0") with 48 in Hc'. change (chr "9") with 57 in Hc'. bool_props.
  assert (0 <= digit c) by (unfold digit; change (chr "0") with 48; lia).
  change (65535 / 10) with 6553. destruct (Z.ltb_spec 6553 v) as [Hlt|Hle]; [|apply IH; [done|lia]].
  right. split; [done|]. pose proof (fold_decimal_ge ds (v * 10 + digit c) Hd ltac:(lia)). lia.
Qed.

(** A decimal after the colon is the port that is asked for, if it is one. *)
Lemma listens_on_its_port (p timeout : Z) (g : http_globals) :
  0 <= p < 2 ^ 64 ->
  let r := cc_http_server_init (Some (lit ":" ++ fmt_u64 p)) true timeout true true g in
  if (1 <=? p) && (p <=? 65535) then r.1 = (0, Some p) else r = (-1, None, g).
Proof.
  intros Hp. destruct (fmt_u64_digits p Hp) as (Hd & Hv & _). unfold cc_http_server_init. cbn [negb].
  change (after_colon (lit ":" ++ fmt_u64 p)) with (fmt_u64 p). unfold decimal in Hv.
  destruct (port_loop_digits (fmt_u64 p) 0 Hd ltac:(lia)) as [E|[E Hbig]]; rewrite Hv in *; rewrite E.
  - destruct (Z.leb_spec 1 p), (Z.leb_spec p 65535); cbn [andb].
    + rewrite (proj2 (Z.leb_gt p 0)), (proj2 (Z.ltb_ge 65535 p)) by lia. done.
    + rewrite (proj2 (Z.ltb_lt 65535 p)), orb_true_r by lia. done.
    + rewrite (proj2 (Z.leb_le p 0)) by lia. done.
    + lia.
  - rewrite (proj2 (Z.leb_gt p 65535)), andb_false_r by lia. done.
Qed.

(** ** Where the code and its documents part *)

(** A fifth client is refused before its session gets an index.  The zeroed
    session says 0, so its close takes the slot and the listener of the first
    client, whose connection stays open. *)
Definition five_clients : lws_world :=
  (deliver_all (map (fun x => Call x CbEstablished quiet_answers) [1; 2; 3; 4; 5]%nat) start_world).1.

Lemma fifth_client_evicts_first :
  let '(w, es) := deliver (Call 5 CbClosed quiet_answers) five_clients in
  allowed (Call 5 CbClosed quiet_answers) five_clients = true /\ es = [WsDisconnect 0] /\
  owner (w_g five_clients) 0 = Some 1%nat /\ owner (w_g w) 0 = None /\
  cn_phase (conn_of w 1) = Open /\ hs_client_idx (cn_session (conn_of w 1)) = 0 /\
  (cc_http_ws_send_text 0 (Some (lit "{}")) (w_g w)).1.1 = -1.
Proof. by vm_compute. Qed.

(** The refusal's reason loses its last letter. *)
Lemma refusal_reason_cut (a : answers) (x : nat) (s : http_session) (g : http_globals) :
  free_slot (g_clients g) = None ->
  cb_established a x s g = (-1, s, g, [CloseReason x 1008 (lit "too many ws client")]).
Proof. intros H. unfold cb_established. by rewrite H. Qed.

(** The deadline is computed from the time of its own check: a write only
    times out when the timeout is 0 or the clock wraps. *)
Lemma no_write_times_out (a : answers) (x i : nat) (c : cc_http_client) (g : http_globals) :
  0 < g_write_timeout_ns g -> 0 <= a_now a -> a_now a + g_write_timeout_ns g < 2 ^ 64 -> a_text_ok a = true ->
  exists g', write_pending a x i c g = (0, g', WriteText x (hc_pending c) :: (if g_shutdown g then [NoTimeout x] else [])).
Proof.
  intros H1 H2 H3 H4. unfold write_pending. rewrite wrap_small by lia.
  rewrite (proj2 (Z.eqb_neq _ 0)), (proj2 (Z.leb_gt _ _)), H4 by lia. by eexists.
Qed.

(** A client whose frame is written during shutdown is not asked for another
    writable callback, so it is not closed with 1000. *)
Lemma flushed_client_stays_open (w : lws_world) (x i : nat) (c : cc_http_client) (a : answers) :
  slots_ok w -> g_clients (w_g w) !! i = Some c -> hc_wsi c = Some x -> hc_has_pending c = true ->
  cn_phase (conn_of w x) = Open -> g_shutdown (w_g w) = true ->
  0 < g_write_timeout_ns (w_g w) -> 0 <= a_now a -> a_now a + g_write_timeout_ns (w_g w) < 2 ^ 64 -> a_text_ok a = true ->
  let '(w', es) := deliver (Call x CbServerWriteable a) w in
  es = [WriteText x (hc_pending c); NoTimeout x] /\ cn_phase (conn_of w' x) = Open /\
  forall a', allowed (Call x CbServerWriteable a') w' = false.
Proof.
  intros Hw Hc Hx Hp Ho Hs H1 H2 H3 H4.
  assert (Hi : owner (w_g w) i = Some x) by (unfold owner; by rewrite Hc). destruct (owner_conn w i x Hw Hi) as [_ Hidx].
  unfold deliver, http_cb, cb_server_writeable. cbn [call_wsi call_reason call_answers drops].
  rewrite Hidx, (proj2 (Z.ltb_ge _ 0)), Nat2Z.id, Hc, Hx, bool_decide_eq_true_2, Hp by (done || lia). cbn [negb].
  destruct (no_write_times_out a x i c (w_g w) H1 H2 H3 H4) as [g' E]. rewrite E, Hs. cbn [next_phase]. change (0 =? 0) with true.
  rewrite Ho. unfold allowed, conn_of. cbn [call_wsi call_reason wanted fold_left want w_conns]. rewrite lookup_insert_eq. by cbn.
Qed.

(** An upgrade elsewhere than /subscribe is answered like the plain request,
    but without its body. *)
Lemma upgrade_elsewhere (a : answers) (x : nat) (m : http_method) (uri : bytes) (s : http_session) (g : http_globals) :
  answers_ok a -> uri <> lit "/subscribe" ->
  let '(g', calls) := handled_by a (contract a m uri []).1 g in
  exists rc rc' es, cb_confirm_upgrade a x m uri s g = (rc', s, g', calls ++ es) /\ answered a x (contract a m uri []).2 (rc, es).
Proof.
  intros Ha Hu. unfold cb_confirm_upgrade. rewrite (proj2 (bool_decide_eq_false (uri = lit "/subscribe")) Hu : streq uri _ = false). cbn [negb].
  set (tmp := HttpSession _ _ _ _ _ _ _).
  pose proof (dispatch_contract a x m uri [] tmp g Ha ltac:(done) ltac:(left; done)) as H. unfold replies in H.
  destruct (handled_by a _ g) as [g' calls]. destruct H as (rc & es & E & H). rewrite E. by exists rc, (if rc <? 0 then -1 else 1), es.
Qed.
