(* ===== verification/CcGrpc.v ===== *)
(** * The transport of the alternate controller
    (core/controller/alternate/c/cc_grpc.c)

    Four connections in a fixed table, each with eight stream slots, a ring of
    status messages and one callback per subscription.  Lines 120 to 950 of
    cc_grpc.c (socket writes, HPACK, the frame writer and the frame reader)
    and the reading of a response's header fields repeat containerd/h2c.c, so
    the definitions of [Hpack] and [H2c] serve here; everything that follows
    them differs and is modelled here.

    The outside world is part of a connection ([io], see [H2cState]); what the
    callback of a subscription received is recorded in [ev_delivered].
    Undefined behaviour sets [k_undefined].  [malloc] says which sizes can be
    allocated, [clock] what the clock shows at its n-th reading. *)

From S2P Require Import Prelude Http Double Config MiniPb Huffman Hpack H2cState H2c.

(** ** Constants *)

Definition CC_MAX_CONNS : nat := 4.
Definition CC_MAX_STREAMS : nat := 8.
Definition CC_MSG_RING : Z := 4.
Definition CC_HDR_BLOCK_MAX : Z := 64 * 1024.
Definition CC_HAND_SHAKE_MS : Z := 5000.
Definition CC_POLL_FRAME_BUDGET : nat := 128.
Definition CC_MAX_FIELDS : Z := 32.
Definition CC_REQ_HDR_BLOCK : Z := 1024.
Definition CC_DATA_BUF : Z := 16384 + 5.

Definition CC_GRPC_STATUS_CANCELLED : Z := 1.
Definition CC_GRPC_STATUS_INTERNAL : Z := 13.
Definition CC_GRPC_STATUS_UNAVAILABLE : Z := 14.

Definition CC_GRPC_ERR_TIMEOUT : Z := -1.
Definition CC_GRPC_ERR_IO : Z := -2.
Definition CC_GRPC_ERR_PROTO : Z := -3.
Definition CC_GRPC_ERR_GOAWAY : Z := -4.
Definition CC_GRPC_ERR_NOSTREAM : Z := -5.
Definition CC_GRPC_ERR_TOOBIG : Z := -6.
Definition CC_GRPC_ERR_BADARG : Z := -7.
Definition CC_GRPC_ERR_CANCEL : Z := -8.
Definition CC_GRPC_ERR_NOCONN : Z := -9.

Definition CC_GRPC_EV_NONE : Z := 0.
Definition CC_GRPC_EV_MSG : Z := 1.
Definition CC_GRPC_EV_STREAM_END : Z := 2.
Definition CC_GRPC_EV_GOAWAY : Z := 3.
Definition CC_GRPC_EV_IO : Z := 4.
Definition CC_GRPC_EV_PROTO : Z := 5.

Definition CC_GRPC_MAX_SOCK_PATH : Z := 108.
Definition CC_GRPC_MAX_NAMESPACE : Z := 64.
Definition CC_GRPC_MAX_MSG : Z := 16777215.
Definition CC_GRPC_MAX_HDR_MSG : Z := 2048.
Definition CC_GRPC_DEFAULT_UNARY_TIMEOUT_MS : Z := 30000.

(** ** State *)

Record cc_stream := CcStream {
  g_id : Z;
  g_in_use : bool;
  g_type : Z;
  g_state : Z;
  g_status : Z;
  g_err : Z;
  g_recv : Z;
  g_send : Z;
  g_rasm : rasm;
  g_resp : response;
}.

Definition with_use (v : bool) (s : cc_stream) : cc_stream :=
  CcStream (g_id s) v (g_type s) (g_state s) (g_status s) (g_err s) (g_recv s) (g_send s) (g_rasm s) (g_resp s).
Definition with_state (state status err : Z) (s : cc_stream) : cc_stream :=
  CcStream (g_id s) (g_in_use s) (g_type s) state status err (g_recv s) (g_send s) (g_rasm s) (g_resp s).
Definition with_recv (v : Z) (s : cc_stream) : cc_stream :=
  CcStream (g_id s) (g_in_use s) (g_type s) (g_state s) (g_status s) (g_err s) v (g_send s) (g_rasm s) (g_resp s).
Definition with_send (v : Z) (s : cc_stream) : cc_stream :=
  CcStream (g_id s) (g_in_use s) (g_type s) (g_state s) (g_status s) (g_err s) (g_recv s) v (g_rasm s) (g_resp s).
Definition with_rasm (v : rasm) (s : cc_stream) : cc_stream :=
  CcStream (g_id s) (g_in_use s) (g_type s) (g_state s) (g_status s) (g_err s) (g_recv s) (g_send s) v (g_resp s).
Definition with_resp (v : response) (s : cc_stream) : cc_stream :=
  CcStream (g_id s) (g_in_use s) (g_type s) (g_state s) (g_status s) (g_err s) (g_recv s) (g_send s) (g_rasm s) v.

(** The flags of [ev_flags], and the calls of the subscriptions' callbacks:
    the stream and the message. *)
Record cc_events := Events { ev_msg : bool; ev_end : bool; ev_delivered : list (Z * bytes) }.

Record cc_ring := Ring { ring_head : Z; ring_slots : list (Z * cstring) }.

Record cc_conn := CcConn {
  k_in_use : bool;
  k_io : io;
  k_rx : frame_reader;
  k_life : life;
  k_timeout_ns : Z;
  k_namespace : cstring;
  k_next_sid : Z;
  k_streams : list cc_stream;
  k_recv : Z;
  k_send : Z;
  k_peer : peer;
  k_enc : hpack_dyn;
  k_dec : hpack_dyn;
  k_hdr : header_block;
  k_ring : cc_ring;
  k_events : cc_events;
  k_undefined : bool;
}.

Definition put_use (v : bool) (c : cc_conn) : cc_conn :=
  CcConn v (k_io c) (k_rx c) (k_life c) (k_timeout_ns c) (k_namespace c) (k_next_sid c) (k_streams c) (k_recv c) (k_send c)
    (k_peer c) (k_enc c) (k_dec c) (k_hdr c) (k_ring c) (k_events c) (k_undefined c).
Definition put_io (v : io) (c : cc_conn) : cc_conn :=
  CcConn (k_in_use c) v (k_rx c) (k_life c) (k_timeout_ns c) (k_namespace c) (k_next_sid c) (k_streams c) (k_recv c) (k_send c)
    (k_peer c) (k_enc c) (k_dec c) (k_hdr c) (k_ring c) (k_events c) (k_undefined c).
Definition put_rx (v : frame_reader) (c : cc_conn) : cc_conn :=
  CcConn (k_in_use c) (k_io c) v (k_life c) (k_timeout_ns c) (k_namespace c) (k_next_sid c) (k_streams c) (k_recv c) (k_send c)
    (k_peer c) (k_enc c) (k_dec c) (k_hdr c) (k_ring c) (k_events c) (k_undefined c).
Definition put_life (v : life) (c : cc_conn) : cc_conn :=
  CcConn (k_in_use c) (k_io c) (k_rx c) v (k_timeout_ns c) (k_namespace c) (k_next_sid c) (k_streams c) (k_recv c) (k_send c)
    (k_peer c) (k_enc c) (k_dec c) (k_hdr c) (k_ring c) (k_events c) (k_undefined c).
Definition put_timeout (v : Z) (c : cc_conn) : cc_conn :=
  CcConn (k_in_use c) (k_io c) (k_rx c) (k_life c) v (k_namespace c) (k_next_sid c) (k_streams c) (k_recv c) (k_send c)
    (k_peer c) (k_enc c) (k_dec c) (k_hdr c) (k_ring c) (k_events c) (k_undefined c).
Definition put_streams (sid : Z) (v : list cc_stream) (c : cc_conn) : cc_conn :=
  CcConn (k_in_use c) (k_io c) (k_rx c) (k_life c) (k_timeout_ns c) (k_namespace c) sid v (k_recv c) (k_send c)
    (k_peer c) (k_enc c) (k_dec c) (k_hdr c) (k_ring c) (k_events c) (k_undefined c).
Definition put_windows (recv send : Z) (c : cc_conn) : cc_conn :=
  CcConn (k_in_use c) (k_io c) (k_rx c) (k_life c) (k_timeout_ns c) (k_namespace c) (k_next_sid c) (k_streams c) recv send
    (k_peer c) (k_enc c) (k_dec c) (k_hdr c) (k_ring c) (k_events c) (k_undefined c).
Definition put_peer (v : peer) (c : cc_conn) : cc_conn :=
  CcConn (k_in_use c) (k_io c) (k_rx c) (k_life c) (k_timeout_ns c) (k_namespace c) (k_next_sid c) (k_streams c) (k_recv c)
    (k_send c) v (k_enc c) (k_dec c) (k_hdr c) (k_ring c) (k_events c) (k_undefined c).
Definition put_tables (enc dec : hpack_dyn) (c : cc_conn) : cc_conn :=
  CcConn (k_in_use c) (k_io c) (k_rx c) (k_life c) (k_timeout_ns c) (k_namespace c) (k_next_sid c) (k_streams c) (k_recv c)
    (k_send c) (k_peer c) enc dec (k_hdr c) (k_ring c) (k_events c) (k_undefined c).
Definition put_hdr (v : header_block) (c : cc_conn) : cc_conn :=
  CcConn (k_in_use c) (k_io c) (k_rx c) (k_life c) (k_timeout_ns c) (k_namespace c) (k_next_sid c) (k_streams c) (k_recv c)
    (k_send c) (k_peer c) (k_enc c) (k_dec c) v (k_ring c) (k_events c) (k_undefined c).
Definition put_ring (v : cc_ring) (c : cc_conn) : cc_conn :=
  CcConn (k_in_use c) (k_io c) (k_rx c) (k_life c) (k_timeout_ns c) (k_namespace c) (k_next_sid c) (k_streams c) (k_recv c)
    (k_send c) (k_peer c) (k_enc c) (k_dec c) (k_hdr c) v (k_events c) (k_undefined c).
Definition put_events (v : cc_events) (c : cc_conn) : cc_conn :=
  CcConn (k_in_use c) (k_io c) (k_rx c) (k_life c) (k_timeout_ns c) (k_namespace c) (k_next_sid c) (k_streams c) (k_recv c)
    (k_send c) (k_peer c) (k_enc c) (k_dec c) (k_hdr c) (k_ring c) v (k_undefined c).
Definition put_undefined (v : bool) (c : cc_conn) : cc_conn :=
  CcConn (k_in_use c) (k_io c) (k_rx c) (k_life c) (k_timeout_ns c) (k_namespace c) (k_next_sid c) (k_streams c) (k_recv c)
    (k_send c) (k_peer c) (k_enc c) (k_dec c) (k_hdr c) (k_ring c) (k_events c) v.

(** Undefined behaviour unless [ok]. *)
Definition must (ok : bool) (c : cc_conn) : cc_conn := if ok then c else put_undefined true c.

Definition slot_at (c : cc_conn) (k : nat) : option cc_stream := k_streams c !! k.

Definition on_slot (k : nat) (f : cc_stream -> cc_stream) (c : cc_conn) : cc_conn :=
  put_streams (k_next_sid c) (alter f k (k_streams c)) c.

(** [c->ev_flags |= EVF_MSG], [|= EVF_STREAM_END], and a call of a callback. *)
Definition raise_msg (c : cc_conn) : cc_conn := put_events (Events true (ev_end (k_events c)) (ev_delivered (k_events c))) c.
Definition raise_end (c : cc_conn) : cc_conn := put_events (Events (ev_msg (k_events c)) true (ev_delivered (k_events c))) c.
Definition deliver_msg (sid : Z) (m : bytes) (c : cc_conn) : cc_conn :=
  put_events (Events (ev_msg (k_events c)) (ev_end (k_events c)) (ev_delivered (k_events c) ++ [(sid, m)])) c.

(** ** The socket *)

Definition sock_write (data : bytes) (c : cc_conn) : Z * cc_conn :=
  let w := k_io c in
  let '(rc, evs, sent) := write_all (tx_evs w) data (tx w) in
  (rc, put_io (set_tx_evs evs (set_tx sent w)) c).

Definition frame_out (type flags sid : Z) (payload : bytes) (c : cc_conn) : Z * cc_conn :=
  let len := strlen payload in
  if 0xffffff <? len then (-1, c)
  else
    let '(rc, c) := sock_write (frame_hdr type flags sid len) c in
    if rc <? 0 then (-1, c)
    else if len =? 0 then (0, c)
    else let '(rc, c) := sock_write payload c in if rc <? 0 then (-1, c) else (0, c).

Definition window_update_out (sid inc : Z) : cc_conn -> Z * cc_conn := frame_out H2_WINDOW_UPDATE 0 sid (be32 inc).
Definition rst_out (sid code : Z) : cc_conn -> Z * cc_conn := frame_out H2_RST_STREAM 0 sid (be32 code).

(** ** Streams *)

Definition conn_from_handle (h : Z) (conns : list cc_conn) : option nat :=
  if (h <? 1) || (Z.of_nat CC_MAX_CONNS <? h) then None
  else match conns !! Z.to_nat (h - 1) with
       | Some c => if k_in_use c then Some (Z.to_nat (h - 1)) else None
       | None => None
       end.

Fixpoint slot_index (f : cc_stream -> bool) (k : nat) (l : list cc_stream) : option nat :=
  match l with
  | [] => None
  | s :: l' => if f s then Some k else slot_index f (S k) l'
  end.

Definition stream_find (c : cc_conn) (sid : Z) : option nat :=
  slot_index (fun s => g_in_use s && (g_id s =? sid)) 0 (k_streams c).

Definition stream_destroy (s : cc_stream) : cc_stream := with_use false (with_rasm (free_rasm (g_rasm s)) s).

Definition fresh_stream (sid type window : Z) : cc_stream :=
  CcStream sid true type SS_SENT 0 0 H2_INIT_WINDOW window (Rasm 0 [] 0 0 None 0) (Response None 0 0 0).

Definition use_slot (k : nat) (type : Z) (c : cc_conn) : nat * cc_conn :=
  (k, put_streams (u32 (k_next_sid c + 2))
        (alter (fun _ => fresh_stream (k_next_sid c) type (srv_initial_window (k_peer c))) k (k_streams c)) c).

(** A free slot, else the first finished one, which [stream_alloc] destroys
    before it calls itself. *)
Definition stream_alloc (type : Z) (c : cc_conn) : option (nat * cc_conn) :=
  let free c := slot_index (fun s => negb (g_in_use s)) 0 (k_streams c) in
  match free c with
  | Some k => Some (use_slot k type c)
  | None =>
      match slot_index (fun s => g_state s =? SS_DONE) 0 (k_streams c) with
      | None => None
      | Some d =>
          let c := on_slot d stream_destroy c in
          match free c with Some k => Some (use_slot k type c) | None => None end
      end
  end.

(** [msg_head] starts at -1. *)
Definition conn_store_message (status : Z) (msg : cstring) (c : cc_conn) : cc_conn :=
  let r := k_ring c in
  let head := (ring_head r + 1) mod CC_MSG_RING in
  put_ring (Ring head (<[Z.to_nat head := (status, take (Z.to_nat (CC_GRPC_MAX_HDR_MSG - 1)) msg)]> (ring_slots r))) c.

(** ** Failing *)

Definition finish_stream (status err : Z) (s : cc_stream) : cc_stream :=
  with_rasm (free_rasm (g_rasm s)) (with_state SS_DONE status err s).

Definition complete_all_streams (status : Z) (msg : cstring) (c : cc_conn) : cc_conn :=
  raise_end
    (conn_store_message status msg
       (put_streams (k_next_sid c)
          (map (fun s => if negb (g_in_use s) || (g_state s =? SS_DONE) then s else finish_stream status 0 s) (k_streams c)) c)).

Definition put_dead (code : Z) (c : cc_conn) : cc_conn :=
  let l := k_life c in put_life (Life (ready l) true code (goaway_seen l) (goaway_last_sid l)) c.

Definition conn_fail (ev_code : Z) (c : cc_conn) : cc_conn :=
  if dead (k_life c) then c
  else complete_all_streams CC_GRPC_STATUS_UNAVAILABLE (lit "connection failed") (put_dead ev_code c).

Definition stream_proto_error (k : nat) (h2_code : Z) (c : cc_conn) : cc_conn :=
  match slot_at c k with
  | None => c
  | Some s =>
      let '(_, c) := rst_out (g_id s) h2_code c in
      raise_end (on_slot k (finish_stream CC_GRPC_STATUS_INTERNAL 0) c)
  end.

Section CcGrpc.
Variable malloc : Z -> bool.
Variable clock : nat -> Z.

(** ** SETTINGS *)

Definition shift_send (delta : Z) (c : cc_conn) : cc_conn :=
  put_streams (k_next_sid c)
    (map (fun s => if g_in_use s then with_send (to_int (g_send s + delta)) s else s) (k_streams c))
    (must (forallb (fun s => negb (g_in_use s) || int32_ok (g_send s + delta)) (k_streams c)) c).

(** The table size is applied to the decoder's table. *)
Definition apply_setting (id val : Z) (c : cc_conn) : Z * cc_conn :=
  let p := k_peer c in
  if id =? H2_SETTINGS_HEADER_TABLE_SIZE then (0, put_tables (k_enc c) (dyn_set_max (k_dec c) val) c)
  else if id =? H2_SETTINGS_INITIAL_WINDOW_SIZE then
    let delta := to_int val - srv_initial_window p in
    let c := must (int32_ok delta) c in
    (0, shift_send (to_int delta) (put_peer (Peer (srv_max_frame p) (srv_max_streams p) (to_int val)) c))
  else if id =? H2_SETTINGS_MAX_FRAME_SIZE then
    if (val <? 16384) || (16777215 <? val) then (-1, c)
    else (0, put_peer (Peer val (srv_max_streams p) (srv_initial_window p)) c)
  else if id =? H2_SETTINGS_MAX_CONCURRENT_STREAMS then
    (0, put_peer (Peer (srv_max_frame p) val (srv_initial_window p)) c)
  else (0, c).

Fixpoint apply_settings (p : bytes) (c : cc_conn) : Z * cc_conn :=
  match p with
  | a :: b :: v0 :: v1 :: v2 :: v3 :: p' =>
      let '(rc, c) := apply_setting (u16 (Z.lor (Z.shiftl a 8) b)) (be32_of [v0; v1; v2; v3] 0) c in
      if rc <? 0 then (-1, c) else apply_settings p' c
  | _ => (0, c)
  end.

Definition handle_settings (p : bytes) (c : cc_conn) : Z * cc_conn :=
  if negb (Z.of_nat (length p) mod 6 =? 0) then (-1, c)
  else
    let '(rc, c) := apply_settings p c in
    if rc <? 0 then (-1, c)
    else
      let '(rc, c) := frame_out H2_SETTINGS H2_FLAG_ACK 0 [] c in
      if rc <? 0 then (-1, c)
      else let l := k_life c in (0, put_life (Life true (dead l) (dead_code l) (goaway_seen l) (goaway_last_sid l)) c).

(** ** HEADERS *)

(** Trailers (or a response without a body), else the initial headers. *)
Definition apply_headers (k : nat) (i : header_info) (c : cc_conn) : Z * cc_conn :=
  match slot_at c k with
  | None => (-1, c)
  | Some s =>
      match final_status i with
      | Some g =>
          let c := on_slot k (finish_stream g 0) c in
          let msg := c_str (hi_msg i) in
          (0, raise_end (if negb (g =? 0) || negb (streq msg []) then conn_store_message g msg c else c))
      | None =>
          if negb (g_state s =? SS_SENT) then (-1, c)
          else (0, on_slot k (fun s => with_state SS_HEADERS (g_status s) (g_err s) s) c)
      end
  end.

Definition handle_header_block (sid : Z) (block : bytes) (flags : Z) (c : cc_conn) : Z * cc_conn :=
  match headers_block_offset block flags with
  | None => (-1, c)
  | Some off =>
      let '(d, r) := hpack_decode_block malloc (k_dec c) (drop off block) CC_MAX_FIELDS in
      let c := put_tables (k_enc c) d c in
      match r with
      | None => (-1, c)
      | Some fields =>
          match stream_find c sid with
          | None => (-1, c)
          | Some k =>
              match slot_at c k with
              | None => (-1, c)
              | Some s =>
                  if (g_state s =? SS_DONE) && negb (g_err s =? 0) then (0, c)
                  else
                    match classify fields (HeaderInfo false 0 None false true []) with
                    | NullDeref => (-1, put_undefined true c)
                    | BadStatus => (-1, c)
                    | Classified i => apply_headers k i c
                    end
              end
          end
      end
  end.

Definition handle_headers_frame (flags sid : Z) (payload : bytes) (c : cc_conn) : Z * cc_conn :=
  let h := k_hdr c in
  let len := strlen payload in
  if hdr_block_pending h then (-1, c)
  else if has_flag flags H2_FLAG_END_HEADERS then handle_header_block sid payload flags c
  else if CC_HDR_BLOCK_MAX <? len then (-1, c)
  else if (hdr_block_cap h <? len) && negb (malloc len) then (-1, c)
  else (0, put_hdr (HeaderBlock payload (Z.max (hdr_block_cap h) len) sid flags true) c).

Definition handle_continuation_frame (flags : Z) (payload : bytes) (c : cc_conn) : Z * cc_conn :=
  let h := k_hdr c in
  let ncap := strlen (hdr_block h) + strlen payload in
  if negb (hdr_block_pending h) then (-1, c)
  else if CC_HDR_BLOCK_MAX <? ncap then (-1, c)
  else if (hdr_block_cap h <? ncap) && negb (malloc (if ncap =? 0 then 1 else ncap)) then (-1, c)
  else
    let h := HeaderBlock (hdr_block h ++ payload) (Z.max (hdr_block_cap h) ncap) (hdr_block_sid h) (hdr_block_flags h) true in
    let c := put_hdr h c in
    if has_flag flags H2_FLAG_END_HEADERS then
      let '(rc, c) := handle_header_block (hdr_block_sid h) (hdr_block h) (hdr_block_flags h) c in
      (rc, put_hdr (set_pending false (k_hdr c)) c)
    else (0, c).

(** ** DATA *)

Definition put_rasm (k : nat) (r : rasm) : cc_conn -> cc_conn := on_slot k (with_rasm r).

(** The five-byte message header; the second component is the data that
    follows it, or [None] when the call returns. *)
Definition feed_header (k : nat) (data : bytes) (c : cc_conn) : cc_conn * option bytes :=
  match slot_at c k with
  | None => (c, None)
  | Some s =>
      let r := g_rasm s in
      let n := Nat.min (5 - length (rasm_hdr r)) (length data) in
      let hdr := rasm_hdr r ++ take n data in
      let rest := drop n data in
      let c := put_rasm k (Rasm (rasm_state r) hdr (rasm_msglen r) (rasm_got r) (rasm_buf r) (rasm_buf_cap r)) c in
      if (length hdr <? 5)%nat then (c, None)
      else if negb (default 0 (hdr !! 0%nat) =? 0) then (stream_proto_error k H2_ERR_INTERNAL c, None)
      else
        let msglen := be32_of hdr 1 in
        let c := put_rasm k (Rasm (rasm_state r) hdr msglen (rasm_got r) (rasm_buf r) (rasm_buf_cap r)) c in
        if CC_GRPC_MAX_MSG <? msglen then (stream_proto_error k H2_ERR_FRAME_SIZE c, None)
        else if g_type s =? ST_SUBSCRIBE then
          let cap := if msglen =? 0 then 1 else msglen in
          if negb (malloc cap) then
            (stream_proto_error k H2_ERR_INTERNAL
               (put_rasm k (Rasm (rasm_state r) hdr msglen 0 (rasm_buf r) (rasm_buf_cap r)) c), None)
          else (put_rasm k (Rasm 1 hdr msglen 0 (Some []) cap) c, Some rest)
        else if bool_decide (is_Some (resp (g_resp s))) && (resp_cap (g_resp s) <? msglen) then
          let '(_, c) := rst_out (g_id s) H2_ERR_CANCEL c in
          (raise_end
             (on_slot k (fun s => with_rasm (Rasm (rasm_state r) hdr msglen 0 (rasm_buf r) (rasm_buf_cap r))
                                    (with_state SS_DONE 0 CC_GRPC_ERR_TOOBIG s)) c), None)
        else (put_rasm k (Rasm 1 hdr msglen 0 (rasm_buf r) (rasm_buf_cap r)) c, Some rest)
  end.

(** Copy [bs] to the message being received, at [rasm_got]. *)
Definition copy_body (k : nat) (bs : bytes) (c : cc_conn) : cc_conn :=
  match slot_at c k with
  | None => c
  | Some s =>
      let r := g_rasm s in
      let got := Z.to_nat (rasm_got r) in
      let got' := u32 (rasm_got r + strlen bs) in
      if g_type s =? ST_SUBSCRIBE then
        let c := must (match rasm_buf r with
                       | None => (length bs =? 0)%nat
                       | Some _ => rasm_got r + strlen bs <=? rasm_buf_cap r
                       end) c in
        put_rasm k (Rasm (rasm_state r) (rasm_hdr r) (rasm_msglen r) got' (write_at got bs <$> rasm_buf r) (rasm_buf_cap r)) c
      else
        let p := g_resp s in
        let c := must (match resp p with
                       | None => true
                       | Some _ => rasm_got r + strlen bs <=? resp_cap p
                       end) c in
        on_slot k (fun s =>
          with_rasm (Rasm (rasm_state r) (rasm_hdr r) (rasm_msglen r) got' (rasm_buf r) (rasm_buf_cap r))
            (with_resp (Response (write_at got bs <$> resp p) (resp_cap p) (resp_len p) (msg_count p)) s)) c
  end.

(** A complete message; [false] when the call returns. *)
Definition finish_message (k : nat) (c : cc_conn) : cc_conn * bool :=
  match slot_at c k with
  | None => (c, false)
  | Some s =>
      let r := g_rasm s in
      let restart := put_rasm k (Rasm 0 [] (rasm_msglen r) (rasm_got r) (rasm_buf r) (rasm_buf_cap r)) in
      if g_type s =? ST_SUBSCRIBE then
        let msg := take (Z.to_nat (rasm_msglen r)) (default [] (rasm_buf r)) in
        (restart (raise_msg (deliver_msg (g_id s) msg c)), true)
      else
        let p := g_resp s in
        let p := Response (resp p) (resp_cap p) (rasm_got r) (msg_count p + 1) in
        let c := on_slot k (with_resp p) c in
        if 1 <? msg_count p then (stream_proto_error k H2_ERR_PROTOCOL c, false)
        else (restart (raise_msg c), true)
  end.

(** The body of the current message, as far as the data goes. *)
Definition feed_body (k : nat) (data : bytes) (c : cc_conn) : cc_conn * option bytes :=
  match slot_at c k with
  | None => (c, None)
  | Some s =>
      let r := g_rasm s in
      let n := Nat.min (Z.to_nat (rasm_msglen r - rasm_got r)) (length data) in
      let c := copy_body k (take n data) c in
      let rest := drop n data in
      match slot_at c k with
      | None => (c, None)
      | Some s =>
          if rasm_msglen (g_rasm s) <=? rasm_got (g_rasm s) then
            let '(c, go) := finish_message k c in (c, if go then Some rest else None)
          else (c, Some rest)
      end
  end.

(** Every round consumes a byte: a header byte when no message is being
    received, a body byte otherwise. *)
Fixpoint feed_loop (fuel : nat) (k : nat) (data : bytes) (c : cc_conn) : cc_conn :=
  match fuel, data with
  | S fuel', _ :: _ =>
      match slot_at c k with
      | None => c
      | Some s =>
          let '(c, next) := if rasm_state (g_rasm s) =? 0 then feed_header k data c else (c, Some data) in
          match next with
          | None => c
          | Some data =>
              match feed_body k data c with
              | (c, None) => c
              | (c, Some data) => feed_loop fuel' k data c
              end
          end
      end
  | _, _ => c
  end.

Definition stream_feed_data (k : nat) (data : bytes) (c : cc_conn) : cc_conn := feed_loop (length data) k data c.

(** The data between the padding length and the padding. *)
Definition data_of (flags : Z) (payload : bytes) : option bytes :=
  if has_flag flags H2_FLAG_PADDED then
    match payload with
    | [] => None
    | pad :: body => if strlen payload - 1 <? pad then None else Some (take (Z.to_nat (strlen payload - 1 - pad)) body)
    end
  else Some payload.

(** Every byte of the frame is credited at once. *)
Definition credit (k : nat) (sid len : Z) (c : cc_conn) : cc_conn :=
  if 0 <? len then
    let '(_, c) := window_update_out sid len c in
    let '(_, c) := window_update_out 0 len c in
    on_slot k (fun s => with_recv (g_recv s + len) s) (put_windows (k_recv c + len) (k_send c) c)
  else c.

Definition handle_data_frame (flags sid : Z) (payload : bytes) (c : cc_conn) : Z * cc_conn :=
  let len := strlen payload in
  match stream_find c sid with
  | None => (-1, c)
  | Some k =>
      match slot_at c k with
      | None => (-1, c)
      | Some s =>
          if g_state s =? SS_DONE then (if negb (g_err s =? 0) then 0 else -1, c)
          else if (k_recv c <? len) || (g_recv s <? len) then (-1, c)
          else
            match data_of flags payload with
            | None => (-1, c)
            | Some data =>
                let c := put_windows (k_recv c - len) (k_send c) c in
                let c := on_slot k (with_recv (g_recv s - len)) c in
                let c := stream_feed_data k data c in
                let c := credit k sid len c in
                if has_flag flags H2_FLAG_END_STREAM then
                  match slot_at c k with
                  | None => (0, c)
                  | Some s => (0, if negb (rasm_state (g_rasm s) =? 0) then stream_proto_error k H2_ERR_PROTOCOL c else c)
                  end
                else (0, c)
            end
      end
  end.

(** ** The other frames *)

(** The tests after the additions can never hold for an [int32_t]. *)
Definition handle_window_update (sid : Z) (payload : bytes) (c : cc_conn) : Z * cc_conn :=
  if negb (strlen payload =? 4) then (-1, c)
  else
    let inc := be32_of payload 0 in
    if inc =? 0 then (-1, c)
    else if sid =? 0 then
      let w := k_send c + to_int inc in
      (0, put_windows (k_recv c) (to_int w) (must (int32_ok w) c))
    else
      match stream_find c sid with
      | None => (0, c)
      | Some k =>
          match slot_at c k with
          | None => (0, c)
          | Some s =>
              let w := g_send s + to_int inc in (0, on_slot k (with_send (to_int w)) (must (int32_ok w) c))
          end
      end.

Definition handle_goaway (payload : bytes) (c : cc_conn) : Z * cc_conn :=
  if strlen payload <? 8 then (-1, c)
  else
    let l := k_life c in
    let c := put_life (Life (ready l) (dead l) (dead_code l) true (be32_of payload 0)) c in
    (0, put_dead CC_GRPC_EV_GOAWAY (complete_all_streams CC_GRPC_STATUS_UNAVAILABLE (lit "server GOAWAY") c)).

Definition handle_rst_stream (sid : Z) (payload : bytes) (c : cc_conn) : Z * cc_conn :=
  if negb (strlen payload =? 4) then (-1, c)
  else
    match stream_find c sid with
    | None => (0, c)
    | Some k =>
        match slot_at c k with
        | None => (0, c)
        | Some s =>
            if g_state s =? SS_DONE then (0, on_slot k stream_destroy c)
            else (0, raise_end (on_slot k (finish_stream CC_GRPC_STATUS_CANCELLED 0) c))
        end
    end.

Definition handle_ping (flags : Z) (payload : bytes) (c : cc_conn) : Z * cc_conn :=
  if negb (strlen payload =? 8) then (-1, c)
  else if has_flag flags H2_FLAG_ACK then (0, c)
  else let '(rc, c) := frame_out H2_PING H2_FLAG_ACK 0 payload c in if rc <? 0 then (-1, c) else (0, c).

Definition dispatch_frame (type flags sid : Z) (payload : bytes) (c : cc_conn) : Z * cc_conn :=
  if type =? H2_SETTINGS then
    if negb (sid =? 0) then (-1, c)
    else if has_flag flags H2_FLAG_ACK then (if strlen payload =? 0 then 0 else -1, c)
    else handle_settings payload c
  else if type =? H2_PING then handle_ping flags payload c
  else if type =? H2_WINDOW_UPDATE then handle_window_update sid payload c
  else if type =? H2_DATA then handle_data_frame flags sid payload c
  else if type =? H2_HEADERS then handle_headers_frame flags sid payload c
  else if type =? H2_CONTINUATION then handle_continuation_frame flags payload c
  else if type =? H2_RST_STREAM then handle_rst_stream sid payload c
  else if type =? H2_GOAWAY then handle_goaway payload c
  else if type =? H2_PRIORITY then (if strlen payload =? 5 then 0 else -1, c)
  else (-1, c).

Definition process_one_frame (c : cc_conn) : Z * cc_conn :=
  let w := k_io c in
  let '(fr, r, evs) := frame_reader_fill malloc (rx_size (rx_evs w)) (k_rx c) (rx_evs w) in
  let c := put_rx r (put_io (set_rx_evs evs w) c) in
  if fr <? 0 then (CC_GRPC_ERR_IO, c)
  else if fr =? 0 then (0, c)
  else
    let '(rc, c) := dispatch_frame (fr_type r) (fr_flags r) (fr_sid r) (fr_payload r) c in
    let c := put_rx (frame_reader_reset (k_rx c)) c in
    if rc <? 0 then (CC_GRPC_ERR_PROTO, c) else (1, c).

(** [while (budget-- > 0)]: the code of a failure, or [None]. *)
Fixpoint process_frames (budget : nat) (c : cc_conn) : option Z * cc_conn :=
  match budget with
  | O => (None, c)
  | S budget' =>
      let '(r, c) := process_one_frame c in
      if r <? 0 then (Some r, c) else if r =? 0 then (None, c) else process_frames budget' c
  end.

Definition take_poll (c : cc_conn) : poll_ev * cc_conn :=
  match polls (k_io c) with
  | [] => (PollTimeout, c)
  | e :: l => (e, put_io (set_polls l (k_io c)) c)
  end.

Definition conn_poll_once (c : cc_conn) : Z * cc_conn :=
  let c := put_events (Events false false (ev_delivered (k_events c))) c in
  if dead (k_life c) then (dead_code (k_life c), c)
  else
    let '(e, c) := take_poll c in
    match e with
    | PollIntr | PollTimeout => (CC_GRPC_EV_NONE, c)
    | PollFail => (CC_GRPC_EV_IO, conn_fail CC_GRPC_EV_IO c)
    | PollReady =>
        match process_frames CC_POLL_FRAME_BUDGET c with
        | (Some r, c) =>
            let c := conn_fail (if r =? CC_GRPC_ERR_PROTO then CC_GRPC_EV_PROTO else CC_GRPC_EV_IO) c in
            (dead_code (k_life c), c)
        | (None, c) =>
            if dead (k_life c) then (dead_code (k_life c), c)
            else if ev_msg (k_events c) then (CC_GRPC_EV_MSG, c)
            else if ev_end (k_events c) then (CC_GRPC_EV_STREAM_END, c)
            else (CC_GRPC_EV_NONE, c)
        end
    end.

(** ** Requests *)

(** The first unit whose count has at most eight digits; [char[16]]. *)
Fixpoint timeout_units (ns : Z) (units : list (cstring * Z)) : option cstring :=
  match units with
  | [] => None
  | (u, d) :: units =>
      if ns / d <=? 99999999
      then let text := fmt_u64 (ns / d) ++ u in if strlen text <? 16 then Some text else None
      else timeout_units ns units
  end.

Definition format_grpc_timeout (ns : Z) : option cstring :=
  timeout_units ns [(lit "H", 3600000000000); (lit "M", 60000000000); (lit "S", 1000000000);
                    (lit "m", 1000000); (lit "u", 1000); (lit "n", 1)].

Definition request_timeout (ns : Z) : option (list (cstring * cstring)) :=
  if 0 <? ns then (fun t => [(lit "grpc-timeout", t)]) <$> format_grpc_timeout ns else Some [].

(** The encoder's table afterwards; [None] is the return value -1. *)
Definition build_request_headers (c : cc_conn) (path : cstring) (cap : Z) : hpack_dyn * option bytes :=
  let w1 := hpack_write_int_ex cap 3 7 0x80 in
  if strlen w1 =? 0 then (k_enc c, None)
  else
    let w2 := hpack_write_int_ex (cap - strlen w1) 6 7 0x80 in
    if strlen w2 =? 0 then (k_enc c, None)
    else
      let front := [(lit ":path", path); (lit ":authority", lit "localhost"); (lit "content-type", lit "application/grpc");
                    (lit "te", lit "trailers"); (lit "user-agent", lit "grpc-c/1.0")] in
      match encode_fields malloc (k_enc c) cap (w1 ++ w2) front with
      | (d, None) => (d, None)
      | (d, Some out) =>
          match request_timeout (k_timeout_ns c) with
          | None => (d, None)
          | Some timeout => encode_fields malloc d cap out (timeout ++ [(lit "containerd-namespace", k_namespace c)])
          end
      end.

(** The DATA frames; [rest] is what is not sent yet.  A frame carries at least
    a byte, so the length of the message bounds the frames. *)
Fixpoint send_chunks (frames : nat) (k : nat) (frame_max : Z) (rest : bytes) (c : cc_conn) : Z * cc_conn :=
  match frames, rest with
  | S frames', _ :: _ =>
      let total := strlen rest in
      let chunk := if frame_max <? total then frame_max else total in
      let flags := if total <=? chunk then H2_FLAG_END_STREAM else 0 in
      let c := must (chunk <=? CC_DATA_BUF) c in
      match slot_at c k with
      | None => (CC_GRPC_ERR_PROTO, c)
      | Some s =>
          if (g_send s <? chunk) || (k_send c <? chunk) then (CC_GRPC_ERR_PROTO, c)
          else
            let c := on_slot k (with_send (g_send s - chunk)) c in
            let c := put_windows (k_recv c) (k_send c - chunk) c in
            let '(rc, c) := frame_out H2_DATA flags (g_id s) (take (Z.to_nat chunk) rest) c in
            if rc <? 0 then (CC_GRPC_ERR_IO, c) else send_chunks frames' k frame_max (drop (Z.to_nat chunk) rest) c
      end
  | _, _ => (0, c)
  end.

Definition send_request (k : nat) (path : cstring) (req : bytes) (c : cc_conn) : Z * cc_conn :=
  let '(d, hdrs) := build_request_headers c path CC_REQ_HDR_BLOCK in
  let c := put_tables d (k_dec c) c in
  match hdrs, slot_at c k with
  | Some block, Some s =>
      let '(rc, c) := frame_out H2_HEADERS H2_FLAG_END_HEADERS (g_id s) block c in
      if rc <? 0 then (CC_GRPC_ERR_IO, c)
      else send_chunks (length (grpc_frame req)) k (srv_max_frame (k_peer c)) (grpc_frame req) c
  | _, _ => (CC_GRPC_ERR_PROTO, c)
  end.

(** ** The calls on one connection *)

Definition read_clock (c : cc_conn) : Z * cc_conn :=
  (clock (ticks (k_io c)), put_io (set_ticks (S (ticks (k_io c))) (k_io c)) c).

Definition time_left (deadline : Z) (c : cc_conn) : Z * cc_conn :=
  let '(now, c) := read_clock c in (if 0 <? deadline - now then deadline - now else 0, c).

Definition slot_done (k : nat) (c : cc_conn) : bool :=
  match slot_at c k with None => true | Some s => g_state s =? SS_DONE end.

Definition dead_error (c : cc_conn) : Z :=
  if dead_code (k_life c) =? CC_GRPC_EV_GOAWAY then CC_GRPC_ERR_GOAWAY
  else if dead_code (k_life c) =? CC_GRPC_EV_PROTO then CC_GRPC_ERR_PROTO
  else CC_GRPC_ERR_IO.

(** 0 when the stream is done; [None] out of fuel, one unit per poll. *)
Fixpoint unary_wait (fuel : nat) (k : nat) (deadline : Z) (c : cc_conn) : option (Z * cc_conn) :=
  if slot_done k c then Some (0, c)
  else
    match fuel with
    | O => None
    | S fuel' =>
        let '(ms, c) := time_left deadline c in
        if ms <=? 0 then Some (CC_GRPC_ERR_TIMEOUT, c)
        else
          let '(_, c) := conn_poll_once c in
          if dead (k_life c) then if slot_done k c then Some (0, c) else Some (dead_error c, c)
          else unary_wait fuel' k deadline c
    end.

Definition unary_result (k : nat) (rc : Z) (c : cc_conn) : Z * option bytes * cc_conn :=
  let release c := on_slot k stream_destroy c in
  match slot_at c k with
  | None => (rc, None, c)
  | Some s =>
      if rc <? 0 then (rc, None, release c)
      else if negb (g_err s =? 0) then (g_err s, None, release c)
      else if g_status s =? 0
      then (0, Some (take (Z.to_nat (resp_len (g_resp s))) (default [] (resp (g_resp s)))), release c)
      else (g_status s, None, release c)
  end.

(** The result and the response; [resp_given] and [len_given]: the pointers
    are not NULL. *)
Definition conn_unary (fuel : nat) (method : option cstring) (req : bytes) (resp_given : bool) (cap : Z) (len_given : bool)
    (c : cc_conn) : option (Z * option bytes * cc_conn) :=
  match method with
  | None => Some (CC_GRPC_ERR_BADARG, None, c)
  | Some path =>
      if negb len_given then Some (CC_GRPC_ERR_BADARG, None, c)
      else if dead (k_life c) then
        Some (if dead_code (k_life c) =? CC_GRPC_EV_GOAWAY then CC_GRPC_ERR_GOAWAY else CC_GRPC_ERR_IO, None, c)
      else if negb resp_given && negb (cap =? 0) then Some (CC_GRPC_ERR_BADARG, None, c)
      else if CC_GRPC_MAX_MSG <? strlen req then Some (CC_GRPC_ERR_TOOBIG, None, c)
      else
        match stream_alloc ST_UNARY c with
        | None => Some (CC_GRPC_ERR_NOSTREAM, None, c)
        | Some (k, c) =>
            let c := on_slot k (with_resp (Response (if resp_given then Some [] else None) cap 0 0)) c in
            let '(rc, c) := send_request k path req c in
            if rc <? 0 then Some (rc, None, on_slot k stream_destroy c)
            else
              let timeout := if 0 <? k_timeout_ns c then u32 (k_timeout_ns c / 1000000)
                             else CC_GRPC_DEFAULT_UNARY_TIMEOUT_MS in
              let '(now, c) := read_clock c in
              match unary_wait fuel k (now + timeout) c with
              | None => None
              | Some (rc, c) => Some (unary_result k rc c)
              end
        end
  end.

Definition live_streams (c : cc_conn) : Z := Z.of_nat (length (List.filter g_in_use (k_streams c))).

(** [body]: the packed SubscribeRequest.  The stream's id, or 0. *)
Definition conn_subscribe (body : bytes) (c : cc_conn) : Z * cc_conn :=
  if dead (k_life c) then (0, c)
  else if srv_max_streams (k_peer c) <=? live_streams c then (0, c)
  else if 512 <? strlen body then (0, c)
  else
    match stream_alloc ST_SUBSCRIBE c with
    | None => (0, c)
    | Some (k, c) =>
        let '(rc, c) := send_request k (lit "/containerd.services.events.v1.Events/Subscribe") body c in
        if rc <? 0 then (0, on_slot k stream_destroy c)
        else (match slot_at c k with Some s => to_int (g_id s) | None => 0 end, c)
    end.

Definition conn_cancel (stream_id : Z) (c : cc_conn) : Z * cc_conn :=
  if dead (k_life c) then (CC_GRPC_ERR_NOCONN, c)
  else
    match stream_find c (u32 stream_id) with
    | None => (CC_GRPC_ERR_NOSTREAM, c)
    | Some k =>
        match slot_at c k with
        | None => (CC_GRPC_ERR_NOSTREAM, c)
        | Some s =>
            if g_state s =? SS_DONE then (0, c)
            else
              let '(rc, c) := rst_out (g_id s) H2_ERR_CANCEL c in
              if rc <? 0 then (CC_GRPC_ERR_IO, c)
              else (0, on_slot k (with_state SS_DONE CC_GRPC_STATUS_CANCELLED CC_GRPC_ERR_CANCEL) c)
        end
    end.

Definition conn_stream_status (stream_id : Z) (c : cc_conn) : Z :=
  match stream_find c (u32 stream_id) with
  | None => CC_GRPC_ERR_NOSTREAM
  | Some k =>
      match slot_at c k with
      | None => CC_GRPC_ERR_NOSTREAM
      | Some s => if negb (g_state s =? SS_DONE) then 0 else if negb (g_err s =? 0) then g_err s else g_status s
      end
  end.

(** The slots from [msg_head] backwards. *)
Fixpoint errstr_loop (n : nat) (i grpc_status : Z) (r : cc_ring) : option (Z * cstring) :=
  match n with
  | O => None
  | S n' =>
      match ring_slots r !! Z.to_nat ((ring_head r - i + CC_MSG_RING * 2) mod CC_MSG_RING) with
      | None => None
      | Some (status, text) =>
          if status <? 0 then errstr_loop n' (i + 1) grpc_status r
          else if (grpc_status =? 0) || (status =? grpc_status) then Some (status, text)
          else errstr_loop n' (i + 1) grpc_status r
      end
  end.

(** The result and the text copied into [buf], which has [cap] bytes. *)
Definition conn_errstr (grpc_status cap : Z) (c : cc_conn) : Z * option cstring :=
  if ring_head (k_ring c) <? 0 then (-1, None)
  else match errstr_loop (Z.to_nat CC_MSG_RING) 0 grpc_status (k_ring c) with
       | None => (-1, None)
       | Some (status, text) => (status, Some (take (Z.to_nat (cap - 1)) text))
       end.

Definition cancel_live (c : cc_conn) (k : nat) : cc_conn :=
  match slot_at c k with
  | None => c
  | Some s =>
      let c := if g_in_use s && negb (g_state s =? SS_DONE) then (rst_out (g_id s) H2_ERR_CANCEL c).2 else c in
      on_slot k stream_destroy c
  end.

(** ** Opening *)

Definition empty_slot : cc_stream :=
  CcStream 0 false 0 SS_SENT 0 0 0 0 (Rasm 0 [] 0 0 None 0) (Response None 0 0 0).

(** [memset(c, 0, sizeof( *c))]; the table is left by [dyn_reset] before. *)
Definition zero_conn : cc_conn :=
  CcConn false (Io [] [] [] [] 0) (FrameReader [] [] 0 0 0 0 0) (Life false false 0 false 0) 0 [] 0
    (replicate CC_MAX_STREAMS empty_slot) 0 0 (Peer 0 0 0) (Dyn [] 0 0) (Dyn [] 0 0) (HeaderBlock [] 0 0 0 false)
    (Ring 0 (replicate (Z.to_nat CC_MSG_RING) (0, []))) (Events false false []) false.

Definition new_conn (w : io) (ns : cstring) : cc_conn :=
  CcConn true w (FrameReader [] [] 0 0 0 0 0) (Life false false 0 false 0) 0
    (take (Z.to_nat (CC_GRPC_MAX_NAMESPACE - 1)) ns) 1 (replicate CC_MAX_STREAMS empty_slot)
    H2_INIT_WINDOW H2_INIT_WINDOW (Peer 16384 100 H2_INIT_WINDOW) dyn_reset dyn_reset (HeaderBlock [] 0 0 0 false)
    (Ring (-1) (replicate (Z.to_nat CC_MSG_RING) (0, []))) (Events false false []) false.

Definition our_settings : bytes :=
  [0; H2_SETTINGS_ENABLE_PUSH; 0; 0; 0; 0] ++ [0; H2_SETTINGS_MAX_CONCURRENT_STREAMS; 0; 0; 0; 100] ++
  [0; H2_SETTINGS_INITIAL_WINDOW_SIZE; 0; 0; 0xff; 0xff] ++ [0; H2_SETTINGS_MAX_FRAME_SIZE; 0; 0; 0x40; 0] ++
  [0; H2_SETTINGS_HEADER_TABLE_SIZE; 0; 0; 0x10; 0].

(** [true]: ready or dead; [false]: the five seconds are over. *)
Fixpoint handshake (fuel : nat) (deadline : Z) (c : cc_conn) : option (bool * cc_conn) :=
  if ready (k_life c) || dead (k_life c) then Some (true, c)
  else
    match fuel with
    | O => None
    | S fuel' =>
        let '(ms, c) := time_left deadline c in
        if ms <=? 0 then Some (false, c)
        else let '(_, c) := conn_poll_once c in handshake fuel' deadline c
    end.

(** The connection once the socket [w] is connected and non-blocking;
    [Some None]: closed again. *)
Definition open_conn (fuel : nat) (w : io) (ns : cstring) : option (option cc_conn) :=
  let c := new_conn w ns in
  let '(rc, c) := sock_write H2_PREFACE c in
  if rc <? 0 then Some None
  else
    let '(rc, c) := frame_out H2_SETTINGS 0 0 our_settings c in
    if rc <? 0 then Some None
    else
      let '(now, c) := read_clock c in
      match handshake fuel (now + CC_HAND_SHAKE_MS) c with
      | None => None
      | Some (ok, c) => Some (if ok && negb (dead (k_life c)) then Some c else None)
      end.

Fixpoint unused_conn (k : nat) (conns : list cc_conn) : option nat :=
  match conns with
  | [] => None
  | c :: conns' => if k_in_use c then unused_conn (S k) conns' else Some k
  end.

(** The handle, or 0, and the table.  [socket]: what connecting gives. *)
Definition cc_grpc_init (fuel : nat) (sock_path namespace_ : option cstring) (socket : option io) (conns : list cc_conn)
  : option (Z * list cc_conn) :=
  let or_default s d := match s with Some (x :: s') => x :: s' | _ => d end in
  let path := or_default sock_path (lit "/run/containerd/containerd.sock") in
  let ns := or_default namespace_ (lit "default") in
  if CC_GRPC_MAX_SOCK_PATH <=? strlen path then Some (0, conns)
  else if CC_GRPC_MAX_NAMESPACE <=? strlen ns then Some (0, conns)
  else
    match unused_conn 0 conns, socket with
    | Some i, Some w =>
        match open_conn fuel w ns with
        | None => None
        | Some None => Some (0, alter (put_use false) i conns)
        | Some (Some c) => Some (Z.of_nat i + 1, <[i := c]> conns)
        end
    | _, _ => Some (0, conns)
    end.

(** ** The calls with a handle *)

(** [conn_from_handle] and the call on its connection; [bad] without one. *)
Definition with_handle {A} (h : Z) (conns : list cc_conn) (bad : A) (f : cc_conn -> A * cc_conn) : A * list cc_conn :=
  match conn_from_handle h conns with
  | None => (bad, conns)
  | Some i =>
      match conns !! i with
      | None => (bad, conns)
      | Some c => let '(a, c) := f c in (a, <[i := c]> conns)
      end
  end.

Definition cc_grpc_unary (fuel : nat) (h : Z) (method : option cstring) (req : bytes) (resp_given : bool) (cap : Z)
    (len_given : bool) (conns : list cc_conn) : option (Z * option bytes) * list cc_conn :=
  with_handle h conns (Some (CC_GRPC_ERR_BADARG, None)) (fun c =>
    match conn_unary fuel method req resp_given cap len_given c with
    | None => (None, c)
    | Some (rc, resp, c) => (Some (rc, resp), c)
    end).

(** [pack]: the generated encoder of SubscribeRequest; [filter] and [cb] may
    be NULL. *)
Definition cc_grpc_subscribe (pack : cstring -> bytes) (h : Z) (filter : option cstring) (cb : bool) (conns : list cc_conn)
  : Z * list cc_conn :=
  match filter with
  | Some f => if cb then with_handle h conns 0 (conn_subscribe (pack f)) else (0, conns)
  | None => (0, conns)
  end.

Definition cc_grpc_poll (h : Z) (conns : list cc_conn) : Z * list cc_conn :=
  with_handle h conns CC_GRPC_ERR_BADARG conn_poll_once.

Definition cc_grpc_cancel (h stream_id : Z) (conns : list cc_conn) : Z * list cc_conn :=
  if stream_id <=? 0 then (CC_GRPC_ERR_BADARG, conns)
  else with_handle h conns CC_GRPC_ERR_BADARG (conn_cancel stream_id).

Definition cc_grpc_stream_status (h stream_id : Z) (conns : list cc_conn) : Z :=
  if stream_id <=? 0 then CC_GRPC_ERR_BADARG
  else (with_handle h conns CC_GRPC_ERR_BADARG (fun c => (conn_stream_status stream_id c, c))).1.

Definition cc_grpc_errstr (h grpc_status : Z) (buf : bool) (cap : Z) (conns : list cc_conn) : Z * option cstring :=
  if negb buf || (cap =? 0) then (CC_GRPC_ERR_BADARG, None)
  else (with_handle h conns (CC_GRPC_ERR_BADARG, None) (fun c => (conn_errstr grpc_status cap c, c))).1.

Definition cc_grpc_set_unary_timeout (h timeout_ns : Z) (conns : list cc_conn) : Z * list cc_conn :=
  with_handle h conns CC_GRPC_ERR_BADARG (fun c => (0, put_timeout timeout_ns c)).

(** The last state of the connection is returned with the table. *)
Definition cc_grpc_close (h : Z) (conns : list cc_conn) : option cc_conn * list cc_conn :=
  with_handle h conns None (fun c => (Some (fold_left cancel_live (seq 0 CC_MAX_STREAMS) c), zero_conn)).

End CcGrpc.
