(* ===== verification/CcGrpcFacts.v ===== *)
(** * What the transport of the alternate controller does
    (core/controller/alternate/c/cc_grpc.c)

    Messages of a subscription through DATA frames; the invariant of a
    connection under every frame and call; that calls return; and where the
    code and its documents part. *)

From S2P Require Import Prelude Double Config MiniPb Huffman Hpack HpackFacts HpackSafe H2cState H2c H2cFrames H2cFacts H2cWf H2cPublic H2cTime H2cReassembly CcGrpc.

(** ** Slots *)

(** The stream [s] in slot [k]. *)
Definition seat (k : nat) (s : cc_stream) (c : cc_conn) : cc_conn :=
  put_streams (k_next_sid c) (<[k := s]> (k_streams c)) c.

Lemma on_slot_seat (k : nat) (f : cc_stream -> cc_stream) (s : cc_stream) (c : cc_conn) :
  slot_at c k = Some s -> on_slot k f c = seat k (f s) c.
Proof.
  unfold slot_at, on_slot, seat. intros H. f_equal. apply list_eq. intros i. destruct (decide (k = i)) as [<-|Hne].
  - rewrite list_lookup_alter_eq, H, list_lookup_insert_eq; [done|]. by eapply lookup_lt_Some.
  - by rewrite list_lookup_alter_ne, list_lookup_insert_ne.
Qed.

Lemma slot_at_seat (k : nat) (s s' : cc_stream) (c : cc_conn) : slot_at c k = Some s -> slot_at (seat k s' c) k = Some s'.
Proof. intros H. unfold slot_at, seat. cbn. apply list_lookup_insert_eq. by eapply lookup_lt_Some. Qed.

Lemma seat_seat (k : nat) (s s' : cc_stream) (c : cc_conn) : seat k s' (seat k s c) = seat k s' c.
Proof. unfold seat. cbn. by rewrite list_insert_insert_eq. Qed.

Lemma seat_same (k : nat) (s : cc_stream) (c : cc_conn) : slot_at c k = Some s -> seat k s c = c.
Proof. intros H. unfold seat. rewrite list_insert_id by done. by destruct c. Qed.

Lemma on_slot_at (k : nat) (f : cc_stream -> cc_stream) (s s' : cc_stream) (c : cc_conn) :
  slot_at c k = Some s -> on_slot k f (seat k s' c) = seat k (f s') c.
Proof. intros H. by rewrite (on_slot_seat k f s' _ (slot_at_seat k s s' c H)), seat_seat. Qed.

Lemma slot_index_some (f : cc_stream -> bool) (l : list cc_stream) : forall i k,
  slot_index f i l = Some k -> exists s, (i <= k)%nat /\ l !! (k - i)%nat = Some s /\ f s = true.
Proof.
  induction l as [|x l IH]; intros i k H; [done|]. cbn [slot_index] in H. destruct (f x) eqn:Ef.
  - injection H as <-. exists x. rewrite Nat.sub_diag. done.
  - apply IH in H as (s & Hle & Hl & Hf). exists s. split; [lia|].
    replace (k - i)%nat with (S (k - S i)) by lia. done.
Qed.

Lemma slot_index_insert (f : cc_stream -> bool) (s s' : cc_stream) (l : list cc_stream) : forall i k,
  l !! k = Some s -> f s' = f s -> slot_index f i (<[k := s']> l) = slot_index f i l.
Proof.
  induction l as [|x l IH]; intros i k Hl Hf; [done|]. destruct k as [|k]; simpl in *.
  - injection Hl as ->. by rewrite Hf.
  - by rewrite IH.
Qed.

Lemma find_some (c : cc_conn) (sid : Z) (k : nat) :
  stream_find c sid = Some k -> exists s, slot_at c k = Some s /\ g_in_use s = true /\ g_id s = sid.
Proof.
  intros (s & _ & Hl & Hf)%slot_index_some. rewrite Nat.sub_0_r in Hl. exists s. bool_props. done.
Qed.

Lemma find_seat (k : nat) (s s' : cc_stream) (c : cc_conn) (sid : Z) :
  slot_at c k = Some s -> g_in_use s' = g_in_use s -> g_id s' = g_id s -> stream_find (seat k s' c) sid = stream_find c sid.
Proof. intros Hs Hu Hi. apply (slot_index_insert _ s); [done|]. by rewrite Hu, Hi. Qed.

(** ** Writing *)

(** Only what is written changes. *)
Lemma sock_write_io (data : bytes) (c : cc_conn) :
  exists rc w, sock_write data c = (rc, put_io w c) /\ rx_evs w = rx_evs (k_io c) /\ polls w = polls (k_io c) /\
    ticks w = ticks (k_io c).
Proof. unfold sock_write. destruct (write_all _ _ _) as [[rc evs] sent]. by eexists _, _. Qed.

Lemma frame_out_io (type flags sid : Z) (payload : bytes) (c : cc_conn) :
  exists rc w, frame_out type flags sid payload c = (rc, put_io w c) /\ rx_evs w = rx_evs (k_io c) /\
    polls w = polls (k_io c) /\ ticks w = ticks (k_io c).
Proof.
  unfold frame_out. destruct (0xffffff <? strlen payload); [exists (-1), (k_io c); by destruct c|].
  destruct (sock_write_io (frame_hdr type flags sid (strlen payload)) c) as (rc & w & -> & H1 & H2 & H3).
  destruct (rc <? 0); [by eexists _, _|]. destruct (strlen payload =? 0); [by eexists _, _|].
  destruct (sock_write_io payload (put_io w c)) as (rc' & w' & -> & H1' & H2' & H3').
  exists (if rc' <? 0 then -1 else 0), w'. cbn in H1', H2', H3'. rewrite H1', H2', H3'. by destruct (rc' <? 0).
Qed.

(** ** Messages of a subscription *)

Definition event_ok (m : bytes) : Prop := strlen m <= CC_GRPC_MAX_MSG.

Lemma event_msg_ok (m : bytes) : event_ok m -> msg_ok m.
Proof. unfold event_ok, msg_ok, CC_GRPC_MAX_MSG, H2C_MAX_MSG. lia. Qed.

(** The callback was called with [got], in this order. *)
Definition told (sid : Z) (got : list bytes) (c : cc_conn) : cc_conn :=
  put_events (Events (ev_msg (k_events c) || negb (bool_decide (got = []))) (ev_end (k_events c))
                (ev_delivered (k_events c) ++ map (pair sid) got)) c.

Lemma told_nil (sid : Z) (c : cc_conn) : told sid [] c = c.
Proof. unfold told. simpl. rewrite orb_false_r, app_nil_r. by destruct c as [??????????????? [] ?]. Qed.

Lemma told_told (sid : Z) (got got' : list bytes) (c : cc_conn) : told sid got' (told sid got c) = told sid (got ++ got') c.
Proof.
  unfold told. simpl. rewrite map_app, app_assoc, <- orb_assoc. by destruct got, got'.
Qed.

(** The reassembler after [msg]; it keeps its buffer. *)
Definition waiting (msg : bytes) : rasm := Rasm 0 [] (strlen msg) (strlen msg) (Some msg) (cap_of msg).

Section Subscribe.
Context (malloc : Z -> bool) (k : nat).
Hypothesis malloc_ok : alloc_ok malloc.

Lemma copy_event (c : cc_conn) (s : cc_stream) (msg body bs rest : bytes) :
  slot_at c k = Some s -> g_type s = ST_SUBSCRIBE -> event_ok msg -> g_rasm s = in_body msg body ->
  msg = body ++ bs ++ rest -> copy_body k bs c = seat k (with_rasm (in_body msg (body ++ bs)) s) c.
Proof.
  intros Hs Hty Hok Hr Hm. unfold copy_body, put_rasm. rewrite Hs, Hty, Hr. unfold in_body. simpl.
  assert (Hlen : strlen body + strlen bs <= strlen msg) by (rewrite Hm, !strlen_app; unfold strlen; lia).
  pose proof (cap_of_ge msg). rewrite (proj2 (Z.leb_le (strlen body + strlen bs) (cap_of msg))) by lia. unfold must.
  rewrite (on_slot_seat k _ s c Hs). do 3 f_equal.
  - unfold event_ok, CC_GRPC_MAX_MSG, strlen in *. rewrite length_app, wrap_small by lia. lia.
  - unfold strlen. rewrite Nat2Z.id. by rewrite write_at_end.
Qed.

Lemma finish_event (c : cc_conn) (s : cc_stream) (msg : bytes) :
  slot_at c k = Some s -> g_type s = ST_SUBSCRIBE -> g_rasm s = in_body msg msg ->
  finish_message k c = (seat k (with_rasm (waiting msg) s) (told (g_id s) [msg] c), true).
Proof.
  intros Hs Hty Hr. unfold finish_message, put_rasm. rewrite Hs, Hty, Hr. unfold in_body. simpl.
  rewrite (on_slot_seat k _ s) by done. unfold strlen. rewrite Nat2Z.id, firstn_all. f_equal.
  unfold raise_msg, deliver_msg, told. simpl. by rewrite orb_true_r.
Qed.

(** The rest of the body, or as much of it as there is. *)
Lemma feed_event_body (c : cc_conn) (s : cc_stream) (msg body rest data : bytes) :
  slot_at c k = Some s -> g_type s = ST_SUBSCRIBE -> event_ok msg -> g_rasm s = in_body msg body -> msg = body ++ rest ->
  (forall more, data = rest ++ more ->
     feed_body k data c = (seat k (with_rasm (waiting msg) s) (told (g_id s) [msg] c), Some more)) /\
  (forall rest', rest = data ++ rest' -> rest' <> [] ->
     feed_body k data c = (seat k (with_rasm (in_body msg (body ++ data)) s) c, Some [])).
Proof.
  intros Hs Hty Hok Hr Hm. unfold feed_body. rewrite Hs, Hr. cbn [in_body rasm_msglen rasm_got].
  assert (Hneed : Z.to_nat (strlen msg - strlen body) = length rest) by (rewrite Hm, strlen_app; unfold strlen; lia).
  rewrite Hneed. split.
  - intros more ->. rewrite length_app, Nat.min_l, take_app_length, drop_app_length by lia.
    rewrite (copy_event c s msg body rest []) by (done || by rewrite app_nil_r).
    rewrite (slot_at_seat k s _ c Hs). cbn [with_rasm g_rasm in_body rasm_msglen rasm_got]. rewrite <- Hm, Z.leb_refl.
    rewrite (finish_event _ (with_rasm (in_body msg msg) s) msg) by (done || apply (slot_at_seat k s _ c Hs)).
    f_equal. exact (seat_seat k _ _ (told (g_id s) [msg] c)).
  - intros rest' -> Hne. rewrite Nat.min_r, firstn_all, drop_all by (rewrite length_app; lia).
    rewrite (copy_event c s msg body data rest') by done.
    rewrite (slot_at_seat k s _ c Hs). cbn [with_rasm g_rasm in_body rasm_msglen rasm_got].
    assert (Hgt : strlen (body ++ data) < strlen msg).
    { rewrite Hm, !strlen_app. destruct rest'; [done|]. unfold strlen. simpl. lia. }
    by rewrite (proj2 (Z.leb_gt _ _) Hgt).
Qed.

(** The header, or as much of it as there is. *)
Lemma feed_event_header (c : cc_conn) (s : cc_stream) (msg hdr data : bytes) :
  slot_at c k = Some s -> g_type s = ST_SUBSCRIBE -> event_ok msg ->
  rasm_state (g_rasm s) = 0 -> rasm_hdr (g_rasm s) = hdr -> (length hdr < 5)%nat ->
  (forall more, hdr ++ data = grpc_hdr msg ++ more ->
     feed_header malloc k data c = (seat k (with_rasm (in_body msg []) s) c, Some more)) /\
  ((length (hdr ++ data) < 5)%nat -> exists r, rasm_at r (hdr ++ data) /\
     feed_header malloc k data c = (seat k (with_rasm r s) c, None)).
Proof.
  intros Hs Hty Hok H0 Hh Hlt. unfold feed_header, put_rasm. rewrite Hs, Hh, H0. split.
  - intros more Heq. assert (Hl5 : length (grpc_hdr msg) = 5%nat) by done.
    assert (Hlen := f_equal length Heq). rewrite !length_app, Hl5 in Hlen. rewrite Nat.min_l by lia.
    assert (Hcut : hdr ++ take (5 - length hdr) data = grpc_hdr msg /\ drop (5 - length hdr) data = more).
    { rewrite <- (take_drop (5 - length hdr) data), app_assoc in Heq.
      apply app_inj_1 in Heq; [done|]. rewrite length_app, length_take, Hl5. lia. }
    destruct Hcut as [-> ->]. rewrite Hl5. cbn [Nat.ltb Nat.leb]. change (default 0 (grpc_hdr msg !! 0%nat)) with 0.
    cbn [Z.eqb negb]. rewrite grpc_hdr_len by (unfold event_ok, CC_GRPC_MAX_MSG in Hok; lia).
    rewrite (proj2 (Z.ltb_ge _ _) Hok), Hty. change (ST_SUBSCRIBE =? ST_SUBSCRIBE) with true. cbv iota.
    rewrite malloc_ok. cbn [negb]. by rewrite (on_slot_seat k _ s c Hs), !(on_slot_at k _ s _ c Hs).
  - intros Hshort. rewrite length_app in Hshort. rewrite Nat.min_r, firstn_all by lia.
    rewrite (proj2 (Nat.ltb_lt _ 5)) by (rewrite length_app; lia).
    rewrite (on_slot_seat k _ s c Hs). eexists. split; [|reflexivity].
    apply rasm_in_header; [done | done | rewrite length_app; lia].
Qed.

(** What feeding [data] leads to when [tail] of the next message is there. *)
Definition tells (fuel : nat) : Prop := forall c s tail data future msgs,
  slot_at c k = Some s -> g_type s = ST_SUBSCRIBE -> Forall event_ok msgs ->
  rasm_at (g_rasm s) tail -> (length data <= fuel)%nat ->
  tail ++ data ++ future = concat (map grpc_frame msgs) ->
  exists got todo tail' r, msgs = got ++ todo /\ rasm_at r tail' /\ fed tail data got tail' /\
    feed_loop malloc fuel k data c = seat k (with_rasm r s) (told (g_id s) got c).

Lemma tells_nothing (c : cc_conn) (s : cc_stream) (tail : bytes) (msgs : list bytes) :
  slot_at c k = Some s -> rasm_at (g_rasm s) tail ->
  exists got todo tail' r, msgs = got ++ todo /\ rasm_at r tail' /\ fed tail [] got tail' /\
    c = seat k (with_rasm r s) (told (g_id s) got c).
Proof.
  intros Hs Hat. exists [], msgs, tail, (g_rasm s). split; [done|]. split; [done|].
  split; [unfold fed; by rewrite app_nil_r|]. rewrite told_nil. symmetry. apply seat_same. by destruct s.
Qed.

Lemma tell_round_body (fuel : nat) (c : cc_conn) (s : cc_stream) (m body rest data future : bytes) (ms : list bytes) :
  tells fuel -> slot_at c k = Some s -> g_type s = ST_SUBSCRIBE -> Forall event_ok (m :: ms) ->
  g_rasm s = in_body m body -> m = body ++ rest -> (length data <= S fuel)%nat ->
  (rest = [] -> (length data <= fuel)%nat) -> data ++ future = rest ++ concat (map grpc_frame ms) ->
  exists got todo tail' r, m :: ms = got ++ todo /\ rasm_at r tail' /\ fed (grpc_hdr m ++ body) data got tail' /\
    match feed_body k data c with
    | (c, None) => c
    | (c, Some data) => feed_loop malloc fuel k data c
    end = seat k (with_rasm r s) (told (g_id s) got c).
Proof.
  intros IH Hs Hty Hok Hr Hm Hfuel Hfuel0 Heq. apply Forall_cons in Hok as [Hokm Hoks].
  destruct (feed_event_body c s m body rest data Hs Hty Hokm Hr Hm) as [Hfull Hpart].
  apply app_eq_inv in Heq as [(more & -> & Hrest)|(rest' & -> & Hrest)].
  - rewrite (Hfull more eq_refl). rewrite length_app in Hfuel, Hfuel0.
    assert (Hlt : (length more <= fuel)%nat) by (destruct rest; [apply Hfuel0; done | simpl in Hfuel; lia]).
    destruct (IH _ (with_rasm (waiting m) s) [] more future ms (slot_at_seat k s _ (told (g_id s) [m] c) Hs) Hty Hoks
                (rasm_fresh (waiting m) eq_refl eq_refl) Hlt (eq_sym Hrest))
      as (got & todo & tail' & r & -> & Hat & Hfed & Hrun).
    exists (m :: got), todo, tail', r. split; [done|]. split; [done|]. split.
    + unfold fed in *. cbn [map concat app] in Hfed |- *.
      by rewrite <- (app_assoc (grpc_frame m)), <- Hfed, grpc_frame_hdr, <- !app_assoc, (app_assoc body), <- Hm.
    + rewrite Hrun. change (m :: got) with ([m] ++ got). rewrite <- told_told.
      exact (seat_seat k _ _ (told (g_id s) got (told (g_id s) [m] c))).
  - destruct rest' as [|b rest'].
    + rewrite app_nil_r in *. rewrite (Hfull [] (eq_sym (app_nil_r _))).
      exists [m], ms, [], (waiting m). split; [done|]. split; [by apply rasm_fresh|]. split; [|by destruct fuel].
      unfold fed. cbn [map concat]. by rewrite !app_nil_r, grpc_frame_hdr, <- app_assoc, <- Hm.
    + rewrite (Hpart (b :: rest') eq_refl) by done.
      exists [], (m :: ms), (grpc_hdr m ++ body ++ data), (in_body m (body ++ data)). split; [done|].
      split; [|split; [unfold fed; cbn [map concat]; by rewrite <- app_assoc | rewrite told_nil; by destruct fuel]].
      apply (rasm_in_body _ _ m (body ++ data) (b :: rest'));
        [done | by apply event_msg_ok | by rewrite <- app_assoc | done | done].
Qed.

Lemma tell_loop (fuel : nat) : tells fuel.
Proof.
  induction fuel as [|fuel IH]; intros c s tail data future msgs Hs Hty Hok Hat Hfuel Heq;
    (destruct data as [|b data]; [by apply tells_nothing|]); [simpl in Hfuel; lia|].
  cbn [feed_loop]. rewrite Hs. destruct msgs as [|m ms]; [by destruct tail|].
  assert (Hokm := Hok). apply Forall_cons in Hokm as [Hokm _]. cbn [map concat] in Heq.
  destruct Hat as [H0 Hh Hlt|msg body rest Hr Hokmsg Hmsg Hne ->].
  - rewrite H0. cbn [Z.eqb].
    destruct (feed_event_header c s m tail (b :: data) Hs Hty Hokm H0 Hh Hlt) as [Hfull Hpart].
    destruct (Nat.lt_ge_cases (length (tail ++ b :: data)) 5) as [Hshort|Hlong].
    + destruct (Hpart Hshort) as (r & Hr & ->). exists [], (m :: ms), (tail ++ b :: data), r.
      split; [done|]. split; [done|]. split; [done|]. by rewrite told_nil.
    + rewrite app_assoc, grpc_frame_hdr, <- (app_assoc (grpc_hdr m)) in Heq.
      apply long_prefix in Heq as (more & Hcut & Hmore); [|done].
      rewrite (Hfull more Hcut). assert (Hl := f_equal length Hcut).
      rewrite !length_app in Hl. change (length (grpc_hdr m)) with 5%nat in Hl. simpl in Hl, Hfuel.
      destruct (tell_round_body fuel _ (with_rasm (in_body m []) s) m [] m more future ms IH
                  (slot_at_seat k s _ c Hs) Hty Hok eq_refl eq_refl ltac:(lia) ltac:(lia) Hmore)
        as (got & todo & tail' & r & Hms & Hat & Hfed & Hrun).
      exists got, todo, tail', r. split; [done|]. split; [done|]. split.
      * unfold fed in *. by rewrite Hcut, <- Hfed, app_nil_r.
      * rewrite Hrun. exact (seat_seat k _ _ (told (g_id s) got c)).
  - rewrite Hr. cbn [in_body rasm_state Z.eqb].
    destruct (in_body_of_sent msg body rest m (b :: data ++ future) ms) as (rest' & Hne' & Hm & Hbody & Hd);
      [by apply event_msg_ok | done | done | done | done |].
    destruct (tell_round_body fuel c s m body rest' (b :: data) future ms IH Hs Hty Hok)
      as (got & todo & tail' & r' & Hms & Hat & Hfed & Hrun); [by rewrite Hr | done | done | done | done |].
    exists got, todo, tail', r'. split; [done|]. split; [done|]. split; [|done].
    unfold fed in *. rewrite <- Hfed. by rewrite (f_equal rasm_hdr Hbody : grpc_hdr msg = grpc_hdr m).
Qed.

End Subscribe.

(** ** Frames in, callbacks out *)

Section Delivery.
Context (malloc : Z -> bool) (k : nat) (sid : Z).

(** DATA frames with the payloads [chunks]. *)
Fixpoint receive (chunks : list bytes) (c : cc_conn) : Z * cc_conn :=
  match chunks with
  | [] => (0, c)
  | d :: chunks' => let '(rc, c) := handle_data_frame malloc 0 sid d c in if rc <? 0 then (rc, c) else receive chunks' c
  end.

Definition subscribed_at (c : cc_conn) (s : cc_stream) : Prop :=
  stream_find c sid = Some k /\ slot_at c k = Some s /\ g_type s = ST_SUBSCRIBE /\ g_state s <> SS_DONE.

(** The connection after the callback saw [got]; only the socket and the
    reassembler differ besides. *)
Definition heard (w : io) (r : rasm) (s : cc_stream) (got : list bytes) (c : cc_conn) : cc_conn :=
  put_io w (seat k (with_rasm r s) (told sid got c)).

Lemma subscribed_heard (w : io) (r : rasm) (got : list bytes) (c : cc_conn) (s : cc_stream) :
  subscribed_at c s -> subscribed_at (heard w r s got c) (with_rasm r s).
Proof.
  intros (Hf & Hs & Hty & Hst). split; [|split; [exact (slot_at_seat k s _ (told sid got c) Hs) | done]].
  etransitivity; [|exact Hf]. by apply (find_seat k s _ (told sid got c)).
Qed.

Lemma heard_heard (w w' : io) (r r' : rasm) (s : cc_stream) (got got' : list bytes) (c : cc_conn) :
  heard w' r' (with_rasm r s) got' (heard w r s got c) = heard w' r' s (got ++ got') c.
Proof. unfold heard. rewrite <- told_told. exact (f_equal (put_io w') (seat_seat k _ _ (told sid got' (told sid got c)))). Qed.

Lemma credit_given (len : Z) (c : cc_conn) (s : cc_stream) :
  slot_at c k = Some s -> 0 < len ->
  exists w, credit k sid len c = put_io w (put_windows (k_recv c + len) (k_send c) (seat k (with_recv (g_recv s + len) s) c)).
Proof.
  intros Hs Hlen. unfold credit, window_update_out. rewrite (proj2 (Z.ltb_lt _ _) Hlen).
  destruct (frame_out_io H2_WINDOW_UPDATE 0 sid (be32 len) c) as (rc & w & -> & _).
  destruct (frame_out_io H2_WINDOW_UPDATE 0 0 (be32 len) (put_io w c)) as (rc' & w' & -> & _).
  rewrite (on_slot_seat k _ s) by done. by exists w'.
Qed.

Hypothesis malloc_ok : alloc_ok malloc.

(** One frame. *)
Lemma data_frame_told (c : cc_conn) (s : cc_stream) (tail d future : bytes) (msgs : list bytes) :
  subscribed_at c s -> Forall event_ok msgs -> rasm_at (g_rasm s) tail -> strlen d <= g_recv s -> strlen d <= k_recv c ->
  tail ++ d ++ future = concat (map grpc_frame msgs) ->
  exists got todo tail' r w, msgs = got ++ todo /\ rasm_at r tail' /\ fed tail d got tail' /\
    handle_data_frame malloc 0 sid d c = (0, heard w r s got c).
Proof.
  intros (Hf & Hs & Hty & Hst) Hok Hat Hw Hcw Heq. unfold handle_data_frame. rewrite Hf, Hs.
  apply find_some in Hf as (x & Hx & _ & Hid). rewrite Hs in Hx. injection Hx as <-.
  rewrite (proj2 (Z.eqb_neq _ _) Hst), (proj2 (Z.ltb_ge _ _) Hw), (proj2 (Z.ltb_ge _ _) Hcw). cbn [orb].
  change (data_of 0 d) with (Some d). change (has_flag 0 H2_FLAG_END_STREAM) with false. cbv iota.
  set (c0 := put_windows _ _ c). rewrite (on_slot_seat k _ s c0 Hs). unfold stream_feed_data.
  destruct (tell_loop malloc k malloc_ok (length d) (seat k (with_recv (g_recv s - strlen d) s) c0)
              (with_recv (g_recv s - strlen d) s) tail d future msgs)
    as (got & todo & tail' & r & Hm & Hr & Hfed & ->);
    [exact (slot_at_seat k s _ c0 Hs) | done | done | done | done | done |].
  assert (Hlen : 0 <= strlen d) by (unfold strlen; lia).
  assert (Hend : exists w, credit k sid (strlen d) (seat k (with_rasm r (with_recv (g_recv s - strlen d) s))
      (told (g_id (with_recv (g_recv s - strlen d) s)) got (seat k (with_recv (g_recv s - strlen d) s) c0))) = heard w r s got c).
  { cbn [with_recv g_id]. rewrite Hid.
    change (told sid got (seat k ?x c0)) with (seat k x (told sid got c0)). rewrite seat_seat.
    destruct (decide (strlen d = 0)) as [H0|Hne].
    - exists (k_io c). unfold credit. rewrite H0. cbn [Z.ltb Z.compare]. unfold heard, c0. rewrite H0, !Z.sub_0_r.
      by destruct c, s.
    - destruct (credit_given (strlen d) (seat k (with_rasm r (with_recv (g_recv s - strlen d) s)) (told sid got c0))
                  (with_rasm r (with_recv (g_recv s - strlen d) s))) as [w ->];
        [exact (slot_at_seat k s _ (told sid got c0) Hs) | lia |].
      exists w. rewrite seat_seat. unfold heard, c0. cbn. rewrite !Z.sub_add. by destruct c, s. }
  destruct Hend as [w Hend]. exists got, todo, tail', r, w. split; [done|]. split; [done|]. split; [done|]. by rewrite Hend.
Qed.

(** All the frames. *)
Lemma receive_told (chunks : list bytes) : forall c s tail msgs,
  subscribed_at c s -> Forall event_ok msgs -> rasm_at (g_rasm s) tail ->
  Forall (fun d => strlen d <= g_recv s /\ strlen d <= k_recv c) chunks ->
  tail ++ concat chunks = concat (map grpc_frame msgs) ->
  exists r w, rasm_at r [] /\ receive chunks c = (0, heard w r s msgs c).
Proof.
  induction chunks as [|d chunks IH]; intros c s tail msgs Hc Hok Hat Hw Heq.
  - cbn [concat] in *. rewrite app_nil_r in Heq.
    destruct (rasm_at_complete _ _ _ (Forall_impl _ _ _ Hok event_msg_ok) Hat Heq) as [-> ->].
    exists (g_rasm s), (k_io c). split; [done|]. cbn [receive]. unfold heard. rewrite told_nil, seat_same; [by destruct c|].
    destruct Hc as (_ & -> & _). by destruct s.
  - apply Forall_cons in Hw as [[Hw Hcw] Hws]. cbn [concat] in Heq.
    destruct (data_frame_told c s tail d (concat chunks) msgs Hc Hok Hat Hw Hcw Heq)
      as (got & todo & tail' & r & w & -> & Hr & Hfed & Hd).
    cbn [receive]. rewrite Hd. cbn [Z.ltb Z.compare]. apply Forall_app in Hok as [_ Hok].
    rewrite map_app, concat_app in Heq. unfold fed in Hfed. rewrite app_assoc, Hfed, <- app_assoc in Heq.
    apply app_inv_head in Heq.
    destruct (IH (heard w r s got c) _ tail' todo (subscribed_heard w r got c s Hc) Hok Hr Hws Heq) as (r' & w' & Hr' & ->).
    exists r', w'. split; [done|]. by rewrite heard_heard.
Qed.

(** C39: Events reach the callback as they were sent.  However the length-prefixed
    messages are cut into DATA payloads, as long as none is larger than a
    receive window, every frame is accepted and the callback of the
    subscription is called exactly once per message, in order, with its bytes;
    the receive windows never run down, and nothing undefined happens. *)
Theorem alt_events_delivered (c : cc_conn) (s : cc_stream) (chunks msgs : list bytes) :
  subscribed_at c s -> rasm_state (g_rasm s) = 0 -> rasm_hdr (g_rasm s) = [] -> Forall event_ok msgs ->
  Forall (fun d => strlen d <= g_recv s /\ strlen d <= k_recv c) chunks ->
  concat chunks = concat (map grpc_frame msgs) ->
  exists c' s', receive chunks c = (0, c') /\
    ev_delivered (k_events c') = ev_delivered (k_events c) ++ map (pair sid) msgs /\
    subscribed_at c' s' /\ g_recv s' = g_recv s /\ k_recv c' = k_recv c /\ k_undefined c' = k_undefined c.
Proof.
  intros Hc Hst Hh Hok Hw Heq.
  destruct (receive_told chunks c s [] msgs Hc Hok (rasm_fresh _ Hst Hh) Hw Heq) as (r & w & _ & ->).
  eexists _, (with_rasm r s). split; [done|]. split; [done|]. split; [by apply subscribed_heard | done].
Qed.

End Delivery.

(** A subscription just opened on a new connection. *)
Definition alt_subscribed : cc_conn := (use_slot 0 ST_SUBSCRIBE (new_conn (Io [] [] [] [] 0) (lit "moby"))).2.

Lemma alt_events_delivered_witness :
  exists c' s',
    receive (fun _ => true) 1 [[0; 0; 0]; [0; 2; 104]; [105; 0; 0; 0; 0; 0; 0; 0; 0; 0; 3; 1]; []; [2; 3]] alt_subscribed
      = (0, c') /\
    ev_delivered (k_events c') = ev_delivered (k_events alt_subscribed) ++ map (pair 1) [[104; 105]; []; [1; 2; 3]] /\
    subscribed_at 0 1 c' s' /\ g_recv s' = g_recv (fresh_stream 1 ST_SUBSCRIBE 65535) /\
    k_recv c' = k_recv alt_subscribed /\ k_undefined c' = k_undefined alt_subscribed.
Proof.
  apply (alt_events_delivered (fun _ => true) 0 1 (fun _ => eq_refl) alt_subscribed (fresh_stream 1 ST_SUBSCRIBE 65535)).
  - split; [reflexivity|]. split; [reflexivity|]. split; [reflexivity|]. discriminate.
  - reflexivity.
  - reflexivity.
  - repeat (apply Forall_cons; split; [vm_compute; discriminate|]). apply Forall_nil. exact I.
  - repeat (apply Forall_cons; split; [vm_compute; split; discriminate|]). apply Forall_nil. exact I.
  - reflexivity.
Defined.

(** ** The invariant of a connection *)

(** A stream that can still receive. *)
Definition slot_live (s : cc_stream) : Prop := g_in_use s = true /\ g_state s <> SS_DONE.

(** Where a body of [rasm_msglen] bytes goes. *)
Definition slot_dest (s : cc_stream) : Prop :=
  let r := g_rasm s in
  if g_type s =? ST_SUBSCRIBE
  then exists b, rasm_buf r = Some b /\ strlen b = rasm_got r /\ rasm_msglen r <= rasm_buf_cap r
  else is_Some (resp (g_resp s)) -> rasm_msglen r <= resp_cap (g_resp s).

Inductive slot_rasm (s : cc_stream) : Prop :=
  | slot_rasm_header :
      rasm_state (g_rasm s) = 0 -> (length (rasm_hdr (g_rasm s)) <= 5)%nat -> bytes_ok (rasm_hdr (g_rasm s)) -> slot_rasm s
  | slot_rasm_body :
      rasm_state (g_rasm s) = 1 -> 0 <= rasm_got (g_rasm s) <= rasm_msglen (g_rasm s) ->
      rasm_msglen (g_rasm s) <= CC_GRPC_MAX_MSG -> slot_dest s -> slot_rasm s.

(** [w]: the receive window a stream in use has. *)
Record slot_wf (w : Z) (s : cc_stream) : Prop := SlotWf {
  sl_recv : g_in_use s = true -> g_recv s = w;
  sl_send : int32 (g_send s);
  sl_rasm : slot_live s -> slot_rasm s;
}.

(** The receive windows are [r] for the connection and [R i] for slot [i]. *)
Record alt_wf (r : Z) (R : nat -> Z) (c : cc_conn) : Prop := AltWf {
  aw_slots : forall i s, slot_at c i = Some s -> slot_wf (R i) s;
  aw_count : length (k_streams c) = CC_MAX_STREAMS;
  aw_recv : k_recv c = r;
  aw_send : int32 (k_send c);
  aw_frame : 16384 <= srv_max_frame (k_peer c) <= 16777215;
  aw_init : int32 (srv_initial_window (k_peer c));
  aw_hdr : bytes_ok (hdr_block (k_hdr c)) /\ strlen (hdr_block (k_hdr c)) <= CC_HDR_BLOCK_MAX /\
           strlen (hdr_block (k_hdr c)) <= hdr_block_cap (k_hdr c);
  aw_enc : table_wf (k_enc c);
  aw_dec : table_wf (k_dec c);
  aw_reader : reader_wf (k_rx c);
  aw_events : Forall ev_wf (rx_evs (k_io c));
  aw_ring : length (ring_slots (k_ring c)) = Z.to_nat CC_MSG_RING /\ -1 <= ring_head (k_ring c) < CC_MSG_RING;
}.

Create HintDb ccg.

Ltac alt_setter := let H := fresh in intros H; destruct H; intros; constructor; simpl; try assumption.

Section Setters.
Context {r : Z} {R : nat -> Z}.
Implicit Types (c : cc_conn) (s : cc_stream).

Lemma alt_use (v : bool) c : alt_wf r R c -> alt_wf r R (put_use v c).
Proof. alt_setter. Qed.
Lemma alt_io (w : io) c : alt_wf r R c -> Forall ev_wf (rx_evs w) -> alt_wf r R (put_io w c).
Proof. alt_setter. Qed.
Lemma alt_rx (v : frame_reader) c : alt_wf r R c -> reader_wf v -> alt_wf r R (put_rx v c).
Proof. alt_setter. Qed.
Lemma alt_life (l : life) c : alt_wf r R c -> alt_wf r R (put_life l c).
Proof. alt_setter. Qed.
Lemma alt_timeout (v : Z) c : alt_wf r R c -> alt_wf r R (put_timeout v c).
Proof. alt_setter. Qed.
Lemma alt_events (v : cc_events) c : alt_wf r R c -> alt_wf r R (put_events v c).
Proof. alt_setter. Qed.
Lemma alt_undefined (v : bool) c : alt_wf r R c -> alt_wf r R (put_undefined v c).
Proof. alt_setter. Qed.
Lemma alt_must (b : bool) c : alt_wf r R c -> alt_wf r R (must b c).
Proof. destruct b; [done | apply alt_undefined]. Qed.
Lemma alt_send (v : Z) c : alt_wf r R c -> int32 v -> alt_wf r R (put_windows (k_recv c) v c).
Proof. alt_setter. Qed.
Lemma alt_peer (p : peer) c :
  alt_wf r R c -> 16384 <= srv_max_frame p <= 16777215 -> int32 (srv_initial_window p) -> alt_wf r R (put_peer p c).
Proof. alt_setter. Qed.
Lemma alt_tables (e d : hpack_dyn) c : alt_wf r R c -> table_wf e -> table_wf d -> alt_wf r R (put_tables e d c).
Proof. alt_setter. Qed.
Lemma alt_hdr (h : header_block) c :
  alt_wf r R c -> bytes_ok (hdr_block h) -> strlen (hdr_block h) <= CC_HDR_BLOCK_MAX ->
  strlen (hdr_block h) <= hdr_block_cap h -> alt_wf r R (put_hdr h c).
Proof. alt_setter. done. Qed.

Lemma alt_streams (sid : Z) (l : list cc_stream) c :
  alt_wf r R c -> (forall i s, l !! i = Some s -> slot_wf (R i) s) -> length l = CC_MAX_STREAMS ->
  alt_wf r R (put_streams sid l c).
Proof. alt_setter. Qed.

Lemma alt_slot (sid : Z) (k : nat) (f : cc_stream -> cc_stream) c :
  alt_wf r R c -> (forall s, slot_at c k = Some s -> slot_wf (R k) s -> slot_wf (R k) (f s)) ->
  alt_wf r R (put_streams sid (alter f k (k_streams c)) c).
Proof.
  intros Hc Hf. apply alt_streams; [done | | rewrite length_alter; apply Hc]. intros i s Hl.
  destruct (decide (k = i)) as [<-|Hne].
  - rewrite list_lookup_alter_eq in Hl. apply fmap_Some in Hl as (x & Hx & ->). apply Hf; [done | by apply (aw_slots r R c Hc)].
  - rewrite list_lookup_alter_ne in Hl by done. by apply (aw_slots r R c Hc).
Qed.

Lemma alt_on_slot (k : nat) (f : cc_stream -> cc_stream) c :
  alt_wf r R c -> (forall s, slot_at c k = Some s -> slot_wf (R k) s -> slot_wf (R k) (f s)) -> alt_wf r R (on_slot k f c).
Proof. apply alt_slot. Qed.

Lemma alt_map (sid : Z) (f : cc_stream -> cc_stream) c c' :
  alt_wf r R c -> alt_wf r R c' -> (forall w s, slot_wf w s -> slot_wf w (f s)) ->
  alt_wf r R (put_streams sid (map f (k_streams c)) c').
Proof.
  intros Hc Hc' Hf. apply alt_streams; [done | | rewrite length_map; apply Hc]. intros i s Hl.
  apply list_lookup_fmap_Some in Hl as (x & -> & Hx). apply Hf. by apply (aw_slots r R c Hc).
Qed.

Lemma alt_message (status : Z) (msg : cstring) c : alt_wf r R c -> alt_wf r R (conn_store_message status msg c).
Proof.
  intros Hc. destruct (aw_ring r R c Hc) as [Hl Hh]. destruct Hc. constructor; simpl; try assumption.
  rewrite length_insert. split; [done|]. unfold CC_MSG_RING in *. pose proof (Z.mod_pos_bound (ring_head (k_ring c) + 1) 4). lia.
Qed.

Lemma alt_frame_out (type flags sid : Z) (payload : bytes) c :
  alt_wf r R c -> alt_wf r R (frame_out type flags sid payload c).2.
Proof.
  intros Hc. destruct (frame_out_io type flags sid payload c) as (rc & w & -> & Hr & _). apply alt_io; [done|].
  rewrite Hr. apply Hc.
Qed.

Lemma alt_read_clock (clock : nat -> Z) c : alt_wf r R c -> alt_wf r R (read_clock clock c).2.
Proof. intros Hc. apply alt_io; [done | apply Hc]. Qed.

End Setters.

#[export] Hint Resolve alt_use alt_life alt_timeout alt_events alt_must alt_send alt_message alt_frame_out alt_read_clock : ccg.

(** *** Slots *)
Lemma slot_ended (w : Z) (s s' : cc_stream) :
  slot_wf w s -> g_in_use s' = g_in_use s -> g_recv s' = g_recv s -> g_send s' = g_send s -> g_state s' = SS_DONE ->
  slot_wf w s'.
Proof. intros [Hr Hw _] Hu Hr' Hs' Hd. split; [by rewrite Hu, Hr' | by rewrite Hs' | by intros [_ Hl]]. Qed.

Lemma slot_finish (w status err : Z) (s : cc_stream) : slot_wf w s -> slot_wf w (finish_stream status err s).
Proof. intros Hs. by apply (slot_ended w s). Qed.

Lemma slot_destroy (w : Z) (s : cc_stream) : slot_wf w s -> slot_wf w (stream_destroy s).
Proof. intros [Hr Hw Hl]. split; [done | done | by intros [? _]]. Qed.

Lemma slot_send (w v : Z) (s : cc_stream) : slot_wf w s -> int32 v -> slot_wf w (with_send v s).
Proof. intros [Hr Hw Hl] Hv. split; [done | done |]. intros Hlive. destruct (Hl Hlive); [by left | by right]. Qed.

Lemma slot_header (w : Z) (r : rasm) (s : cc_stream) :
  slot_wf w s -> rasm_state r = 0 -> (length (rasm_hdr r) <= 5)%nat -> bytes_ok (rasm_hdr r) -> slot_wf w (with_rasm r s).
Proof. intros [Hr Hw _] H0 Hl Hb. split; [done | done |]. intros _. by left. Qed.

Lemma slot_body (w : Z) (r : rasm) (s : cc_stream) :
  slot_wf w s -> rasm_state r = 1 -> 0 <= rasm_got r <= rasm_msglen r -> rasm_msglen r <= CC_GRPC_MAX_MSG ->
  slot_dest (with_rasm r s) -> slot_wf w (with_rasm r s).
Proof. intros [Hr Hw _] H1 Hg Hm Hd. split; [done | done |]. intros _. by right. Qed.

Lemma slot_fresh (sid type window : Z) : int32 window -> slot_wf H2_INIT_WINDOW (fresh_stream sid type window).
Proof. intros Hw. split; [done | done |]. intros _. left; simpl; [done | lia | by apply Forall_nil]. Qed.

#[export] Hint Resolve slot_finish slot_destroy slot_send : ccg.

Lemma slot_at_on (k : nat) (f : cc_stream -> cc_stream) (c : cc_conn) : slot_at (on_slot k f c) k = f <$> slot_at c k.
Proof. apply list_lookup_alter_eq. Qed.

(** ** Every frame keeps it *)

Section Frames.
Context (malloc : Z -> bool) {r : Z} {R : nat -> Z}.
Implicit Types (c : cc_conn) (s : cc_stream).

(** Well formed still, and nothing undefined happened unless memory ran out. *)
Definition alt_safe c c' : Prop := alt_wf r R c' /\ (alloc_ok malloc -> k_undefined c' = k_undefined c).

Lemma alt_safe_refl c : alt_wf r R c -> alt_safe c c.
Proof. done. Qed.

Lemma alt_safe_trans (a b c : cc_conn) : alt_safe a b -> (alt_wf r R b -> alt_safe b c) -> alt_safe a c.
Proof. intros [Hb Hu] Hc. destruct (Hc Hb) as [Hw Hu']. split; [done|]. intros Ha. by rewrite Hu', Hu. Qed.

Lemma alt_safe_slot (k : nat) (f : cc_stream -> cc_stream) c :
  alt_wf r R c -> (forall s, slot_at c k = Some s -> slot_wf (R k) s -> slot_wf (R k) (f s)) -> alt_safe c (on_slot k f c).
Proof. intros. split; [by apply alt_on_slot | done]. Qed.

Lemma frame_out_safe (type flags sid : Z) (payload : bytes) c :
  alt_wf r R c -> alt_safe c (frame_out type flags sid payload c).2 /\
  k_streams (frame_out type flags sid payload c).2 = k_streams c.
Proof.
  intros Hc. pose proof (alt_frame_out type flags sid payload c Hc) as Hw.
  destruct (frame_out_io type flags sid payload c) as (rc & w & E & _). rewrite E in *. done.
Qed.

Lemma proto_error_safe (k : nat) (code : Z) c : alt_wf r R c -> alt_safe c (stream_proto_error k code c).
Proof.
  intros Hc. unfold stream_proto_error, rst_out. destruct (slot_at c k) as [s|]; [|done].
  destruct (frame_out_safe H2_RST_STREAM 0 (g_id s) (be32 code) c Hc) as [Hw _].
  destruct (frame_out _ _ _ _ c) as [rc c1]. cbn [snd] in Hw. apply (alt_safe_trans _ _ _ Hw). intros Hc1.
  split; [|done]. apply alt_events, alt_on_slot; [done|]. auto with ccg.
Qed.

Lemma feed_header_keeps (k : nat) (data : bytes) c s :
  alt_wf r R c -> slot_at c k = Some s -> slot_live s -> rasm_state (g_rasm s) = 0 -> bytes_ok data ->
  let x := feed_header malloc k data c in
  alt_safe c x.1 /\ forall rest, x.2 = Some rest ->
    bytes_ok rest /\ exists s', slot_at x.1 k = Some s' /\ slot_live s' /\ rasm_state (g_rasm s') = 1.
Proof.
  intros Hc Hs Hl H0 Hd. pose proof (aw_slots r R c Hc k s Hs) as Hsw.
  destruct (sl_rasm _ _ Hsw Hl) as [_ Hlen Hb|H1]; [|congruence].
  unfold feed_header, put_rasm. rewrite Hs, H0. cbv zeta.
  set (n := Nat.min _ _). set (hdr := rasm_hdr (g_rasm s) ++ take n data).
  assert (Hhb : bytes_ok hdr) by (apply bytes_ok_app; split; [done | by apply Forall_take]).
  assert (Hrb : bytes_ok (drop n data)) by (by apply Forall_drop).
  assert (Hh5 : (length hdr <= 5)%nat) by (unfold hdr; rewrite length_app, length_take; lia).
  assert (Hput : forall c' m g b cap, alt_safe c c' -> alt_safe c (on_slot k (with_rasm (Rasm 0 hdr m g b cap)) c')).
  { intros c' m g b cap Hc'. apply (alt_safe_trans _ _ _ Hc'). intros Hw. apply alt_safe_slot; [done|].
    intros x _ Hx. by apply slot_header. }
  specialize (Hput c) as Hput0.
  set (c1 := on_slot k _ c). assert (Hc1 : alt_safe c c1) by (by apply Hput).
  destruct (length hdr <? 5)%nat; cbn [fst snd]; [done|].
  destruct (negb (default 0 (hdr !! 0%nat) =? 0)).
  { split; [|done]. apply (alt_safe_trans _ _ _ Hc1), proto_error_safe. }
  set (c2 := on_slot k _ c1). assert (Hc2 : alt_safe c c2) by (by apply Hput).
  destruct (CC_GRPC_MAX_MSG <? be32_of hdr 1) eqn:Emax.
  { split; [|done]. apply (alt_safe_trans _ _ _ Hc2), proto_error_safe. }
  apply Z.ltb_ge in Emax. pose proof (be32_of_nonneg hdr 1 Hhb) as Hm0.
  assert (Hs2 : exists s2, slot_at c2 k = Some s2 /\ g_type s2 = g_type s /\ g_resp s2 = g_resp s /\ slot_live s2).
  { unfold c2, c1. rewrite !slot_at_on, Hs. by eexists. }
  destruct Hs2 as (s2 & Hs2 & Hty2 & Hre2 & Hl2).
  assert (Hgo : forall b cap, slot_dest (with_rasm (Rasm 1 hdr (be32_of hdr 1) 0 b cap) s2) ->
    alt_safe c (on_slot k (with_rasm (Rasm 1 hdr (be32_of hdr 1) 0 b cap)) c2) /\
    (forall rest, Some (drop n data) = Some rest -> bytes_ok rest /\ exists s',
      slot_at (on_slot k (with_rasm (Rasm 1 hdr (be32_of hdr 1) 0 b cap)) c2) k = Some s' /\
      slot_live s' /\ rasm_state (g_rasm s') = 1)).
  { intros b cap Hdest. split.
    - apply (alt_safe_trans _ _ _ Hc2). intros Hw. apply alt_safe_slot; [done|]. intros x Hx Hxw.
      assert (x = s2) by congruence. subst x. by apply slot_body; simpl; [| | lia | |].
    - intros rest [= <-]. split; [done|]. rewrite slot_at_on, Hs2. by eexists. }
  destruct (g_type s =? ST_SUBSCRIBE) eqn:Ety.
  - destruct (negb (malloc _)).
    { split; [|done]. cbn [fst]. eapply alt_safe_trans; [apply Hput, Hc2 | apply proto_error_safe]. }
    apply Hgo. unfold slot_dest. simpl. rewrite Hty2, Ety. exists []. split; [done|]. split; [done|].
    destruct (be32_of hdr 1 =? 0) eqn:Ez; bool_props; lia.
  - destruct (bool_decide _ && _) eqn:Eb.
    { split; [|by destruct (rst_out _ _ _)]. unfold rst_out.
      destruct (frame_out_safe H2_RST_STREAM 0 (g_id s) (be32 H2_ERR_CANCEL) c2 (proj1 Hc2)) as [Hw _].
      destruct (frame_out _ _ _ _ c2) as [rc c3]. cbn [fst snd] in *.
      apply (alt_safe_trans _ _ _ Hc2). intros _. apply (alt_safe_trans _ _ _ Hw). intros Hc3.
      split; [|done]. apply alt_events, alt_on_slot; [done|]. intros x _ Hx. by apply (slot_ended _ x). }
    apply Hgo. unfold slot_dest. simpl. rewrite Hty2, Ety, Hre2. intros Hresp. rewrite bool_decide_true in Eb by done.
    simpl in Eb. by apply Z.ltb_ge in Eb.
Qed.

Lemma copy_body_keeps (k : nat) (bs : bytes) c s :
  alt_wf r R c -> slot_at c k = Some s -> slot_live s -> rasm_state (g_rasm s) = 1 ->
  rasm_got (g_rasm s) + strlen bs <= rasm_msglen (g_rasm s) ->
  alt_safe c (copy_body k bs c) /\
  exists s', slot_at (copy_body k bs c) k = Some s' /\ slot_live s' /\ rasm_state (g_rasm s') = 1.
Proof.
  intros Hc Hs Hl H1 Hle. pose proof (aw_slots r R c Hc k s Hs) as Hsw.
  destruct (sl_rasm _ _ Hsw Hl) as [H0|_ Hgot Hmax Hdest]; [congruence|]. assert (0 <= strlen bs) by (unfold strlen; lia).
  assert (Hu : u32 (rasm_got (g_rasm s) + strlen bs) = rasm_got (g_rasm s) + strlen bs)
    by (apply wrap_small; unfold CC_GRPC_MAX_MSG in *; lia).
  unfold copy_body, put_rasm. rewrite Hs. cbv zeta. rewrite Hu. unfold slot_dest in Hdest.
  destruct (g_type s =? ST_SUBSCRIBE) eqn:Ety.
  - destruct Hdest as (b & Hb & Hlen & Hcap). rewrite Hb, (proj2 (Z.leb_le _ _)) by lia. cbn [must].
    split; [|rewrite slot_at_on, Hs; by eexists]. apply alt_safe_slot; [done|]. intros x Hx Hxw.
    assert (x = s) by congruence. subst x. apply slot_body; simpl; [done | done | lia | done |].
    unfold slot_dest. simpl. rewrite Ety. eexists. split; [done|]. split; [|done].
    rewrite write_at_got by (unfold strlen in *; lia). rewrite strlen_app. lia.
  - assert (Hreq : match resp (g_resp s) with None => true
                   | Some _ => rasm_got (g_rasm s) + strlen bs <=? resp_cap (g_resp s) end = true).
    { destruct (resp (g_resp s)); [|done]. apply Z.leb_le. specialize (Hdest ltac:(by eexists)). lia. }
    rewrite Hreq. cbn [must]. split; [|rewrite slot_at_on, Hs; by eexists]. apply alt_safe_slot; [done|].
    intros x Hx [Hxr Hxs _]. assert (x = s) by congruence. subst x. split; [done | done |]. intros _.
    right; simpl; [done | lia | done |]. unfold slot_dest. simpl. rewrite Ety. intros [y Hy].
    apply fmap_Some in Hy as (z & Hz & _). apply Hdest. by eexists.
Qed.

Lemma finish_message_keeps (k : nat) c s :
  alt_wf r R c -> slot_at c k = Some s -> slot_live s ->
  let x := finish_message k c in alt_safe c x.1 /\ (x.2 = true -> exists s', slot_at x.1 k = Some s' /\ slot_live s').
Proof.
  intros Hc Hs Hl. unfold finish_message, put_rasm. rewrite Hs. cbv zeta.
  assert (Hput : forall c' m g b cap, alt_safe c c' -> alt_safe c (on_slot k (with_rasm (Rasm 0 [] m g b cap)) c')).
  { intros c' m g b cap Hc'. apply (alt_safe_trans _ _ _ Hc'). intros Hw. apply alt_safe_slot; [done|].
    intros x _ Hx. apply slot_header; simpl; [done | done | lia | by apply Forall_nil]. }
  destruct (g_type s =? ST_SUBSCRIBE) eqn:Ety.
  - split; [|intros _; cbn [fst]; rewrite slot_at_on; change (slot_at _ k) with (slot_at c k); rewrite Hs; by eexists].
    apply Hput. split; [by apply alt_events, alt_events | done].
  - set (c1 := on_slot k _ c). assert (Hc1 : alt_safe c c1).
    { apply alt_safe_slot; [done|]. intros x Hx [Hxr Hxs Hxl]. assert (x = s) by congruence. subst x.
      split; [done | done |]. intros _. destruct (Hxl Hl) as [|H1 Hg Hm Hd]; [by left|]. right; [done | done | done |].
      unfold slot_dest in *. simpl in *. by rewrite Ety in *. }
    destruct (1 <? _); cbn [fst snd].
    + split; [|done]. apply (alt_safe_trans _ _ _ Hc1), proto_error_safe.
    + split; [apply Hput; split; [by apply alt_events, Hc1 | apply Hc1]|]. intros _.
      rewrite slot_at_on. change (slot_at (raise_msg c1) k) with (slot_at c1 k). unfold c1. rewrite slot_at_on, Hs. by eexists.
Qed.

Lemma feed_body_keeps (k : nat) (data : bytes) c s :
  alt_wf r R c -> slot_at c k = Some s -> slot_live s -> rasm_state (g_rasm s) = 1 -> bytes_ok data ->
  let x := feed_body k data c in
  alt_safe c x.1 /\ forall rest, x.2 = Some rest -> bytes_ok rest /\ exists s', slot_at x.1 k = Some s' /\ slot_live s'.
Proof.
  intros Hc Hs Hl H1 Hd. unfold feed_body. rewrite Hs. cbv zeta. set (n := Nat.min _ _).
  pose proof (aw_slots r R c Hc k s Hs) as Hsw. destruct (sl_rasm _ _ Hsw Hl) as [H0|_ Hgot Hmax _]; [congruence|].
  destruct (copy_body_keeps k (take n data) c s Hc Hs Hl H1) as (Hc1 & s1 & Hs1 & Hl1 & Hr1).
  { unfold strlen. rewrite length_take. lia. }
  set (c1 := copy_body _ _ c) in *. rewrite Hs1. assert (Hrb : bytes_ok (drop n data)) by (by apply Forall_drop).
  destruct (_ <=? _); cbn [fst snd].
  - destruct (finish_message_keeps k c1 s1 (proj1 Hc1) Hs1 Hl1) as [Hsafe Hgo].
    destruct (finish_message k c1) as [c2 go]. cbn [fst snd] in *.
    split; [by apply (alt_safe_trans _ _ _ Hc1)|]. intros rest. destruct go; [|done]. intros [= <-].
    split; [done | by apply Hgo].
  - split; [done|]. intros rest [= <-]. split; [done|]. by exists s1.
Qed.

Lemma feed_loop_keeps (fuel k : nat) (data : bytes) c s :
  alt_wf r R c -> slot_at c k = Some s -> slot_live s -> bytes_ok data -> alt_safe c (feed_loop malloc fuel k data c).
Proof.
  revert data c s. induction fuel as [|fuel IH]; intros data c s Hc Hs Hl Hd; [done|].
  destruct data as [|b data]; [done|]. cbn [feed_loop]. rewrite Hs.
  assert (Hbody : forall c' d s', alt_safe c c' -> slot_at c' k = Some s' -> slot_live s' ->
    rasm_state (g_rasm s') = 1 -> bytes_ok d ->
    alt_safe c (match feed_body k d c' with (c, None) => c | (c, Some d) => feed_loop malloc fuel k d c end)).
  { intros c' d s' Hsafe Hs' Hl' Hr' Hd'. destruct (feed_body_keeps k d c' s' (proj1 Hsafe) Hs' Hl' Hr' Hd') as [Hx Hgo].
    apply (alt_safe_trans _ _ _ Hsafe). intros _.
    destruct (feed_body k d c') as [c2 [rest|]]; cbn [fst snd] in *; [|done].
    destruct (Hgo rest eq_refl) as (Hrb & s2 & Hs2 & Hl2). apply (alt_safe_trans _ _ _ Hx). intros Hc2. by apply (IH _ _ s2). }
  destruct (rasm_state (g_rasm s) =? 0) eqn:E0; bool_props.
  - destruct (feed_header_keeps k (b :: data) c s Hc Hs Hl E0 Hd) as [Hx Hgo].
    destruct (feed_header malloc k (b :: data) c) as [c1 [rest|]]; cbn [fst snd] in *; [|done].
    destruct (Hgo rest eq_refl) as (Hrb & s1 & Hs1 & Hl1 & Hr1). by apply (Hbody c1 rest s1).
  - apply (Hbody c (b :: data) s); [done | done | done | | done].
    by destruct (sl_rasm _ _ (aw_slots r R c Hc k s Hs) Hl).
Qed.

End Frames.

(** *** DATA: the windows go down and up again *)

Definition shifted (k : nat) (d : Z) (R : nat -> Z) (i : nat) : Z := if decide (i = k) then R i + d else R i.

Lemma alt_shift (r : Z) (R : nat -> Z) (k : nat) (d : Z) (c : cc_conn) :
  alt_wf r R c ->
  alt_wf (r + d) (shifted k d R)
    (on_slot k (fun s => with_recv (g_recv s + d) s) (put_windows (k_recv c + d) (k_send c) c)).
Proof.
  intros Hc. pose proof (aw_slots r R c Hc) as Hall. destruct Hc. constructor; simpl; try assumption; [|rewrite length_alter; done|lia].
  intros i s Hl. unfold slot_at in *. simpl in Hl. unfold shifted. destruct (decide (i = k)) as [->|Hne].
  - rewrite list_lookup_alter_eq in Hl. apply fmap_Some in Hl as (x & Hx & ->). destruct (Hall k x Hx) as [Hr Hs Hl].
    split; simpl; [intros Hu; by rewrite Hr | done |]. intros Hv. destruct (Hl Hv); [by left | by right].
  - rewrite list_lookup_alter_ne in Hl by done. by apply Hall.
Qed.

Lemma alt_shift_back (r : Z) (R : nat -> Z) (k : nat) (d : Z) (c : cc_conn) :
  alt_wf (r - d + d) (shifted k d (shifted k (- d) R)) c -> alt_wf r R c.
Proof.
  intros Hc. replace (r - d + d) with r in Hc by lia. destruct Hc as [Hs]. constructor; try assumption.
  intros i s Hl. specialize (Hs i s Hl). unfold shifted in Hs. destruct (decide (i = k)); [|done].
  by replace (R i + - d + d) with (R i) in Hs by lia.
Qed.

Section Handlers.
Context (malloc : Z -> bool) {r : Z} {R : nat -> Z}.
Implicit Types (c : cc_conn) (s : cc_stream).

Local Notation safe := (alt_safe malloc (r := r) (R := R)).

Lemma data_of_ok (flags : Z) (payload data : bytes) : bytes_ok payload -> data_of flags payload = Some data -> bytes_ok data.
Proof. apply unpad_ok. Qed.

Lemma credit_keeps (k : nat) (sid len : Z) c :
  0 <= len -> alt_wf (r - len) (shifted k (- len) R) c ->
  alt_wf r R (credit k sid len c) /\ k_undefined (credit k sid len c) = k_undefined c.
Proof.
  intros Hlen Hc. unfold credit, window_update_out. destruct (0 <? len) eqn:E; bool_props.
  - pose proof (alt_frame_out H2_WINDOW_UPDATE 0 sid (be32 len) c Hc) as H1.
    destruct (frame_out_io H2_WINDOW_UPDATE 0 sid (be32 len) c) as (rc & w & Ew & _). rewrite Ew in *. cbn [snd] in H1.
    pose proof (alt_frame_out H2_WINDOW_UPDATE 0 0 (be32 len) _ H1) as H2.
    destruct (frame_out_io H2_WINDOW_UPDATE 0 0 (be32 len) (put_io w c)) as (rc' & w' & Ew' & _). rewrite Ew' in *.
    cbn [snd] in H2. split; [|done]. by apply (alt_shift_back _ _ k len), alt_shift.
  - split; [|done]. assert (len = 0) as -> by lia. rewrite Z.sub_0_r in Hc. destruct Hc as [Hs]. constructor; try assumption.
    intros i s Hl. specialize (Hs i s Hl). unfold shifted in Hs. destruct (decide (i = k)); [|done]. by rewrite Z.add_0_r in Hs.
Qed.

Lemma data_keeps (flags sid : Z) (payload : bytes) c :
  alt_wf r R c -> bytes_ok payload -> safe c (handle_data_frame malloc flags sid payload c).2.
Proof.
  intros Hc Hp. unfold handle_data_frame. destruct (stream_find c sid) as [k|] eqn:Hf; [|done].
  destruct (find_some _ _ _ Hf) as (s & Hs & Hu & _). rewrite Hs.
  destruct (g_state s =? SS_DONE) eqn:Est; [done|]. destruct (_ || _); [done|].
  destruct (data_of flags payload) as [data|] eqn:Ed; [|done]. apply data_of_ok in Ed; [|done]. bool_props.
  set (len := strlen payload). assert (Hlen : 0 <= len) by (unfold len, strlen; lia).
  set (c0 := on_slot k _ _). assert (Hc0 : alt_wf (r - len) (shifted k (- len) R) c0).
  { pose proof (alt_shift r R k (- len) c Hc) as H0. unfold c0. rewrite (on_slot_seat k _ s) by done.
    by rewrite (on_slot_seat k _ s) in H0 by done. }
  assert (Hs0 : slot_at c0 k = Some (with_recv (g_recv s - len) s))
    by (unfold c0; rewrite slot_at_on; change (slot_at _ k) with (slot_at c k); by rewrite Hs).
  destruct (feed_loop_keeps malloc (length data) k data c0 _ Hc0 Hs0 (conj Hu Est) Ed) as [Hc1 Hu1].
  unfold stream_feed_data. set (c1 := feed_loop _ _ _ _ _) in *.
  destruct (credit_keeps k sid len c1 Hlen Hc1) as [Hc2 Hu2]. set (c2 := credit k sid len c1) in *.
  assert (Hsafe : safe c c2) by (split; [done|]; intros Ha; by rewrite Hu2, Hu1).
  destruct (has_flag flags H2_FLAG_END_STREAM); [|done]. destruct (slot_at c2 k) as [s2|]; [|done].
  destruct (negb _); [|done]. apply (alt_safe_trans malloc _ _ _ Hsafe), proto_error_safe.
Qed.

(** *** HEADERS *)
Lemma apply_headers_keeps (k : nat) (i : header_info) c : alt_wf r R c -> safe c (apply_headers k i c).2.
Proof.
  intros Hc. unfold apply_headers. destruct (slot_at c k) as [s|] eqn:Hs; [|done].
  destruct (final_status i) as [g|].
  - assert (Hw : alt_wf r R (on_slot k (finish_stream g 0) c)) by (apply alt_on_slot; auto with ccg).
    cbn [snd]. split; [unfold raise_end; destruct (_ || _); auto with ccg | by destruct (_ || _)].
  - destruct (negb (g_state s =? SS_SENT)) eqn:E; [done|]. bool_props. apply alt_safe_slot; [done|].
    intros x Hx [Hr Hw Hl]. assert (x = s) by congruence. subst x. split; [done | done |].
    intros [Hu _]. destruct Hl; [split; [done | by rewrite E] | by left | by right].
Qed.

Lemma header_block_keeps (sid : Z) (block : bytes) (flags : Z) c :
  alt_wf r R c -> safe c (handle_header_block malloc sid block flags c).2.
Proof.
  intros Hc. unfold handle_header_block. destruct (headers_block_offset block flags) as [off|]; [|done].
  destruct (hpack_decode_block malloc (k_dec c) (drop off block) CC_MAX_FIELDS) as [d x] eqn:Ed.
  destruct (decode_block_wf _ _ _ _ _ _ (aw_dec r R c Hc) Ed) as [Hd Hpres].
  assert (Hsafe : safe c (put_tables (k_enc c) d c)) by (split; [apply alt_tables; [done | apply Hc | done] | done]).
  destruct x as [fields|]; [|done]. specialize (Hpres fields eq_refl).
  destruct (stream_find _ sid) as [k|]; [|done]. destruct (slot_at _ k) as [s|]; [|done].
  destruct (_ && _); [done|]. destruct (classify fields _) as [i| |] eqn:Ec; [|done|].
  - apply (alt_safe_trans malloc _ _ _ Hsafe), apply_headers_keeps.
  - split; [apply alt_undefined, Hsafe|]. intros Ha. by apply (classify_present malloc) in Ec.
Qed.

Lemma headers_keeps (flags sid : Z) (payload : bytes) c :
  alt_wf r R c -> bytes_ok payload -> safe c (handle_headers_frame malloc flags sid payload c).2.
Proof.
  intros Hc Hp. unfold handle_headers_frame. destruct (hdr_block_pending _); [done|].
  destruct (has_flag _ _); [by apply header_block_keeps|]. destruct (_ <? _) eqn:E; [done|].
  destruct (_ && _); [done|]. split; [|done]. bool_props. by apply alt_hdr; [| | |simpl; lia].
Qed.

Lemma continuation_keeps (flags : Z) (payload : bytes) c :
  alt_wf r R c -> bytes_ok payload -> safe c (handle_continuation_frame malloc flags payload c).2.
Proof.
  intros Hc Hp. unfold handle_continuation_frame. destruct (negb _); [done|].
  destruct (_ <? _) eqn:E; [done|]. destruct (_ && _); [done|]. bool_props. rewrite <- strlen_app in *.
  set (h := HeaderBlock _ _ _ _ _). destruct (aw_hdr r R c Hc) as (Hb & _ & _).
  assert (Hsafe : safe c (put_hdr h c)).
  { split; [|done]. apply alt_hdr; [done | by apply bytes_ok_app | done | simpl; lia]. }
  destruct (has_flag _ _); [|done].
  pose proof (header_block_keeps (hdr_block_sid h) (hdr_block h) (hdr_block_flags h) _ (proj1 Hsafe)) as Hblock.
  destruct (handle_header_block _ _ _ _ _) as [rc c2]. cbn [snd] in *.
  apply (alt_safe_trans malloc _ _ _ Hsafe). intros _. apply (alt_safe_trans malloc _ _ _ Hblock). intros Hc2.
  split; [|done]. destruct (aw_hdr r R c2 Hc2) as (? & ? & ?). by apply alt_hdr.
Qed.

(** *** SETTINGS and the rest *)
Lemma setting_keeps (id val : Z) c : alt_wf r R c -> 0 <= val -> alt_wf r R (apply_setting id val c).2.
Proof.
  intros Hc Hv. pose proof (aw_frame r R c Hc). pose proof (aw_init r R c Hc). unfold apply_setting.
  destruct (id =? _); [apply alt_tables; [done | apply Hc | apply dyn_set_max_wf; [apply Hc | done]]|].
  destruct (id =? _).
  { assert (Hp : alt_wf r R (put_peer (Peer (srv_max_frame (k_peer c)) (srv_max_streams (k_peer c)) (to_int val))
                               (must (int32_ok (to_int val - srv_initial_window (k_peer c))) c)))
      by (apply alt_peer; [auto with ccg | done | apply to_int_range]).
    apply alt_map; [done | by apply alt_must |]. intros w s Hs. destruct (g_in_use s); [apply slot_send; [done | apply to_int_range] | done]. }
  destruct (id =? _).
  { destruct (_ || _) eqn:E; [done|]. apply orb_false_iff in E as [E1 E2]. bool_props. by apply alt_peer. }
  destruct (id =? _); [by apply alt_peer | done].
Qed.

Lemma settings_list_keeps (n : nat) (p : bytes) c :
  (length p <= n)%nat -> alt_wf r R c -> bytes_ok p -> alt_wf r R (apply_settings p c).2.
Proof.
  revert p c. induction n as [|n IH]; intros p c Hn Hc Hp; [by destruct p; [|simpl in Hn; lia]|].
  destruct p as [|a [|b [|v0 [|v1 [|v2 [|v3 p]]]]]]; try done. cbn [apply_settings].
  assert (Hv : 0 <= be32_of [v0; v1; v2; v3] 0).
  { apply be32_of_nonneg. unfold bytes_ok in *. rewrite !Forall_cons in *. intuition. }
  pose proof (setting_keeps (u16 (Z.lor (Z.shiftl a 8) b)) _ c Hc Hv) as Hc'.
  destruct (apply_setting _ _ c) as [rc c']. destruct (rc <? 0); [done|]. apply IH; [simpl in Hn; lia | done |].
  unfold bytes_ok in *. rewrite !Forall_cons in Hp. intuition.
Qed.

Lemma settings_keeps (p : bytes) c : alt_wf r R c -> bytes_ok p -> alt_wf r R (handle_settings p c).2.
Proof.
  intros Hc Hp. unfold handle_settings. destruct (negb _); [done|].
  pose proof (settings_list_keeps (length p) p c ltac:(lia) Hc Hp) as Hc1. destruct (apply_settings p c) as [rc c1].
  destruct (rc <? 0); [done|]. pose proof (alt_frame_out H2_SETTINGS H2_FLAG_ACK 0 [] c1 Hc1) as Hc2.
  destruct (frame_out _ _ _ _ c1) as [rc' c2]. destruct (rc' <? 0); [done | by apply alt_life].
Qed.

Lemma window_update_keeps (sid : Z) (payload : bytes) c : alt_wf r R c -> alt_wf r R (handle_window_update sid payload c).2.
Proof.
  intros Hc. unfold handle_window_update. destruct (negb _); [done|]. destruct (_ =? 0); [done|].
  destruct (sid =? 0).
  { cbn [snd]. set (b := int32_ok _). assert (Hr : k_recv c = k_recv (must b c)) by (by destruct b).
    rewrite Hr at 1. apply alt_send; [auto with ccg | apply to_int_range]. }
  destruct (stream_find c sid) as [k|]; [|done]. destruct (slot_at c k) as [s|]; [|done].
  apply alt_on_slot; [auto with ccg|]. intros x _ Hx. apply slot_send; [done | apply to_int_range].
Qed.

Lemma complete_all_keeps (status : Z) (msg : cstring) c : alt_wf r R c -> safe c (complete_all_streams status msg c).
Proof.
  intros Hc. split; [|done]. apply alt_events, alt_message, alt_map; [done | done |]. intros w s Hs. destruct (_ || _); auto with ccg.
Qed.

Lemma fail_keeps (e : Z) c : alt_wf r R c -> safe c (conn_fail e c).
Proof.
  intros Hc. unfold conn_fail. destruct (dead _); [done|].
  apply (alt_safe_trans malloc c (put_dead e c)); [split; [by apply alt_life | done] | apply complete_all_keeps].
Qed.

Lemma goaway_keeps (payload : bytes) c : alt_wf r R c -> safe c (handle_goaway payload c).2.
Proof.
  intros Hc. unfold handle_goaway. destruct (_ <? _); [done|]. cbn [snd]. set (c1 := put_life _ c).
  destruct (complete_all_keeps CC_GRPC_STATUS_UNAVAILABLE (lit "server GOAWAY") c1 (alt_life _ _ Hc)) as [Hw Hu].
  split; [by apply alt_life | done].
Qed.

Lemma rst_keeps (sid : Z) (payload : bytes) c : alt_wf r R c -> safe c (handle_rst_stream sid payload c).2.
Proof.
  intros Hc. unfold handle_rst_stream. destruct (negb _); [done|]. destruct (stream_find c sid) as [k|]; [|done].
  destruct (slot_at c k) as [s|]; [|done].
  destruct (_ =? _); (split; [|done]); [|apply alt_events]; (apply alt_on_slot; auto with ccg).
Qed.

Lemma ping_keeps (flags : Z) (payload : bytes) c : alt_wf r R c -> safe c (handle_ping flags payload c).2.
Proof.
  intros Hc. unfold handle_ping. destruct (negb _); [done|]. destruct (has_flag _ _); [done|].
  destruct (frame_out_safe malloc H2_PING H2_FLAG_ACK 0 payload c Hc) as [Hw _].
  destruct (frame_out _ _ _ _ c) as [rc c1]. by destruct (rc <? 0).
Qed.

Lemma dispatch_keeps (type flags sid : Z) (payload : bytes) c :
  alt_wf r R c -> bytes_ok payload ->
  alt_wf r R (dispatch_frame malloc type flags sid payload c).2 /\
  (type <> H2_SETTINGS -> type <> H2_WINDOW_UPDATE -> safe c (dispatch_frame malloc type flags sid payload c).2).
Proof.
  intros Hc Hp. unfold dispatch_frame.
  destruct (type =? H2_SETTINGS) eqn:E1; bool_props.
  { split; [|done]. destruct (negb _); [done|]. destruct (has_flag _ _); [done | by apply settings_keeps]. }
  assert (Hcase : forall x, safe c x -> alt_wf r R x /\ (type <> H2_SETTINGS -> type <> H2_WINDOW_UPDATE -> safe c x))
    by (intros x [H1 H2]; done).
  destruct (type =? H2_PING); [by apply Hcase, ping_keeps|].
  destruct (type =? H2_WINDOW_UPDATE) eqn:E2; bool_props; [split; [by apply window_update_keeps | done]|].
  destruct (type =? H2_DATA); [by apply Hcase, data_keeps|].
  destruct (type =? H2_HEADERS); [by apply Hcase, headers_keeps|].
  destruct (type =? H2_CONTINUATION); [by apply Hcase, continuation_keeps|].
  destruct (type =? H2_RST_STREAM); [by apply Hcase, rst_keeps|].
  destruct (type =? H2_GOAWAY); [by apply Hcase, goaway_keeps|].
  destruct (type =? H2_PRIORITY); by apply Hcase.
Qed.

End Handlers.

(** ** Every call keeps it *)

Section Calls.
Context (malloc : Z -> bool) (clock : nat -> Z) {r : Z} {R : nat -> Z}.
Implicit Types (c : cc_conn) (s : cc_stream).

Local Notation wf := (alt_wf r R).

Lemma one_frame_keeps c : wf c -> wf (process_one_frame malloc c).2.
Proof.
  intros Hc. unfold process_one_frame. destruct (frame_reader_fill malloc _ _ _) as [[fr x] evs] eqn:Ef.
  destruct (fill_wf _ _ _ _ _ _ _ (aw_reader r R c Hc) (aw_events r R c Hc) Ef) as [Hr He].
  set (c1 := put_rx x _). assert (Hc1 : wf c1) by (by apply alt_rx, Hr; apply alt_io).
  destruct (fr <? 0); [done|]. destruct (fr =? 0); [done|].
  destruct (dispatch_keeps malloc (fr_type x) (fr_flags x) (fr_sid x) (fr_payload x) c1 Hc1 (rw_payload_bytes x Hr)) as [Hc2 _].
  destruct (dispatch_frame _ _ _ _ _ _) as [rc c2]. cbn [snd] in *.
  assert (wf (put_rx (frame_reader_reset (k_rx c2)) c2)) by (apply alt_rx; [done | apply reset_wf]).
  by destruct (rc <? 0).
Qed.

Lemma frames_keep (budget : nat) c : wf c -> wf (process_frames malloc budget c).2.
Proof.
  revert c. induction budget as [|budget IH]; intros c Hc; [done|]. cbn [process_frames].
  pose proof (one_frame_keeps c Hc) as Hc1. destruct (process_one_frame malloc c) as [x c1].
  destruct (x <? 0); [done|]. destruct (x =? 0); [done | by apply IH].
Qed.

Lemma poll_keeps c : wf c -> wf (conn_poll_once malloc c).2.
Proof.
  intros Hc. unfold conn_poll_once. set (c0 := put_events _ c). assert (Hc0 : wf c0) by (by apply alt_events).
  destruct (dead _); [done|].
  assert (Hc1 : wf (take_poll c0).2) by (unfold take_poll; destruct (polls _); [done | apply alt_io; [done | apply Hc]]).
  destruct (take_poll c0) as [[] c1]; cbn [snd] in *; [|done | done | by apply (fail_keeps malloc)].
  pose proof (frames_keep CC_POLL_FRAME_BUDGET c1 Hc1) as Hc2.
  destruct (process_frames _ _ _) as [[x|] c2]; cbn [snd] in *; [by apply (fail_keeps malloc)|].
  repeat match goal with |- context [if ?b then _ else _] => destruct b; [done|] end. done.
Qed.

Lemma left_keeps (d : Z) c : wf c -> wf (time_left clock d c).2.
Proof. intros Hc. exact (alt_read_clock clock c Hc). Qed.

Lemma handshake_keeps (fuel : nat) (d : Z) c b c' : wf c -> handshake malloc clock fuel d c = Some (b, c') -> wf c'.
Proof.
  revert c. induction fuel as [|fuel IH]; intros c Hc; cbn [handshake];
    (destruct (_ || _); [by intros [= _ <-]|]); [done|].
  pose proof (left_keeps d c Hc) as Hc1. destruct (time_left clock d c) as [ms c1]. cbn [snd] in Hc1.
  destruct (ms <=? 0); [by intros [= _ <-]|]. pose proof (poll_keeps c1 Hc1) as Hc2.
  destruct (conn_poll_once malloc c1) as [e c2]. by apply IH.
Qed.

Lemma unary_wait_keeps (fuel k : nat) (d : Z) c rc c' : wf c -> unary_wait malloc clock fuel k d c = Some (rc, c') -> wf c'.
Proof.
  revert c. induction fuel as [|fuel IH]; intros c Hc; cbn [unary_wait];
    (destruct (slot_done k c); [by intros [= _ <-]|]); [done|].
  pose proof (left_keeps d c Hc) as Hc1. destruct (time_left clock d c) as [ms c1]. cbn [snd] in Hc1.
  destruct (ms <=? 0); [by intros [= _ <-]|]. pose proof (poll_keeps c1 Hc1) as Hc2.
  destruct (conn_poll_once malloc c1) as [e c2]. cbn [snd] in Hc2.
  destruct (dead _); [destruct (slot_done k c2); by intros [= _ <-] | by apply IH].
Qed.

Lemma int32_spend (v d : Z) : int32 v -> 0 <= d <= v -> int32 (v - d).
Proof. unfold int32. lia. Qed.

Lemma chunks_keep (frames k : nat) (frame_max : Z) (rest : bytes) c :
  0 <= frame_max -> wf c -> wf (send_chunks frames k frame_max rest c).2.
Proof.
  intros Hf. revert rest c. induction frames as [|frames IH]; intros rest c Hc; [done|].
  destruct rest as [|b rest]; [done|]. cbn [send_chunks]. set (total := strlen (b :: rest)).
  set (chunk := if frame_max <? total then frame_max else total).
  assert (Hch : 0 <= chunk) by (unfold chunk, total, strlen; destruct (_ <? _); lia).
  assert (Hc1 : wf (must (chunk <=? CC_DATA_BUF) c)) by (by apply alt_must). set (c1 := must _ c) in *.
  destruct (slot_at c1 k) as [s|] eqn:Hs; [|done]. destruct (_ || _) eqn:E; [done|].
  apply orb_false_iff in E as [E1 E2]. bool_props.
  set (c2 := on_slot k _ c1). assert (Hc2 : wf c2).
  { apply alt_on_slot; [done|]. intros x Hx Hxw. assert (x = s) by congruence. subst x.
    apply slot_send; [done|]. apply int32_spend; [apply Hxw | done]. }
  assert (Hc3 : wf (put_windows (k_recv c2) (k_send c2 - chunk) c2))
    by (apply alt_send; [done | apply int32_spend; [apply Hc2 | done]]).
  pose proof (alt_frame_out H2_DATA (if total <=? chunk then H2_FLAG_END_STREAM else 0) (g_id s)
                (take (Z.to_nat chunk) (b :: rest)) _ Hc3) as Hc4.
  destruct (frame_out _ _ _ _ _) as [rc c4]. cbn [snd] in Hc4. destruct (rc <? 0); [done | by apply IH].
Qed.

Lemma request_block_keeps c (path : cstring) (cap : Z) :
  table_wf (k_enc c) -> table_wf (build_request_headers malloc c path cap).1.
Proof.
  intros He. unfold build_request_headers. destruct (_ =? 0); [done|]. destruct (_ =? 0); [done|].
  match goal with |- context [encode_fields malloc ?d cap ?o ?l] => pose proof (encode_fields_wf malloc l d cap o He) as H1 end.
  destruct (encode_fields malloc _ _ _ _) as [d [out|]]; [|done]. destruct (request_timeout _) as [t|]; [|done].
  by apply encode_fields_wf.
Qed.

Lemma send_request_keeps (k : nat) (path : cstring) (req : bytes) c : wf c -> wf (send_request malloc k path req c).2.
Proof.
  intros Hc. unfold send_request. pose proof (request_block_keeps c path CC_REQ_HDR_BLOCK (aw_enc r R c Hc)) as He.
  destruct (build_request_headers malloc c path CC_REQ_HDR_BLOCK) as [d hdrs]. cbn [fst] in He.
  assert (Hc1 : wf (put_tables d (k_dec c) c)) by (apply alt_tables; [done | done | apply Hc]).
  destruct hdrs as [block|]; [|done]. destruct (slot_at _ k) as [s|]; [|done].
  pose proof (alt_frame_out H2_HEADERS H2_FLAG_END_HEADERS (g_id s) block _ Hc1) as Hc2.
  destruct (frame_out _ _ _ _ _) as [rc c2]. cbn [snd] in Hc2. destruct (rc <? 0); [done|].
  apply chunks_keep; [|done]. pose proof (aw_frame r R c2 Hc2). lia.
Qed.

Lemma unary_result_keeps (k : nat) (rc : Z) c : wf c -> wf (unary_result k rc c).2.
Proof.
  intros Hc. unfold unary_result. destruct (slot_at c k) as [s|]; [|done].
  assert (wf (on_slot k stream_destroy c)) by (apply alt_on_slot; auto with ccg).
  repeat match goal with |- context [if ?b then _ else _] => destruct b; [done|] end. done.
Qed.

Lemma cancel_keeps (sid : Z) c : wf c -> wf (conn_cancel sid c).2.
Proof.
  intros Hc. unfold conn_cancel, rst_out. destruct (dead _); [done|]. destruct (stream_find c _) as [k|]; [|done].
  destruct (slot_at c k) as [s|]; [|done]. destruct (_ =? _); [done|].
  pose proof (alt_frame_out H2_RST_STREAM 0 (g_id s) (be32 H2_ERR_CANCEL) c Hc) as Hc1.
  destruct (frame_out _ _ _ _ c) as [rc c1]. cbn [snd] in Hc1. destruct (rc <? 0); [done|].
  apply alt_on_slot; [done|]. intros x _ Hx. by apply (slot_ended _ x).
Qed.

End Calls.

(** *** Opening streams and connections *)

Definition full (_ : nat) : Z := H2_INIT_WINDOW.

(** A connection between two calls: every receive window is full. *)
Notation settled := (alt_wf H2_INIT_WINDOW full).

Section Opening.
Context (malloc : Z -> bool) (clock : nat -> Z).
Implicit Types (c : cc_conn) (s : cc_stream).

Lemma use_slot_keeps (k : nat) (type : Z) c : settled c -> settled (use_slot k type c).2.
Proof. intros Hc. apply alt_slot; [done|]. intros s _ _. apply slot_fresh, Hc. Qed.

Lemma stream_alloc_keeps (type : Z) c k c' :
  settled c -> stream_alloc type c = Some (k, c') ->
  settled c' /\ forall s, slot_at c' k = Some s -> exists sid w, s = fresh_stream sid type w.
Proof.
  intros Hc. unfold stream_alloc.
  assert (Huse : forall c0 i, settled c0 -> Some (use_slot i type c0) = Some (k, c') ->
    settled c' /\ forall s, slot_at c' k = Some s -> exists sid w, s = fresh_stream sid type w).
  { intros c0 i Hc0 [= <- <-]. split; [exact (use_slot_keeps i type c0 Hc0)|]. intros s Hs. unfold slot_at in Hs. simpl in Hs.
    rewrite list_lookup_alter_eq in Hs. apply fmap_Some in Hs as (x & _ & ->). by eexists _, _. }
  destruct (slot_index _ 0 (k_streams c)) as [i|]; [by apply (Huse c i)|].
  destruct (slot_index _ 0 (k_streams c)) as [d|]; [|done].
  assert (Hc1 : settled (on_slot d stream_destroy c)) by (apply alt_on_slot; auto with ccg).
  destruct (slot_index _ 0 _) as [j|]; [|done]. by apply (Huse _ j).
Qed.

Lemma unary_keeps (fuel : nat) (method : option cstring) (req : bytes) (given : bool) (cap : Z) (lg : bool) c rc resp c' :
  settled c -> conn_unary malloc clock fuel method req given cap lg c = Some (rc, resp, c') -> settled c'.
Proof.
  intros Hc. unfold conn_unary. destruct method as [path|]; [|by intros [= _ _ <-]].
  do 4 (match goal with |- context [if ?b then Some _ else _] => destruct b; [by intros [= _ _ <-]|] end).
  destruct (stream_alloc ST_UNARY c) as [[k c1]|] eqn:Ea; [|by intros [= _ _ <-]].
  apply stream_alloc_keeps in Ea as [Hc1 Hfresh]; [|done]. set (c2 := on_slot k _ c1).
  assert (Hc2 : settled c2).
  { apply alt_on_slot; [done|]. intros s Hs [Hr Hw _]. destruct (Hfresh s Hs) as (sid & w & ->).
    split; [done | done |]. intros _. left; simpl; [done | lia | by apply Forall_nil]. }
  pose proof (send_request_keeps malloc k path req c2 Hc2) as Hc3.
  destruct (send_request malloc k path req c2) as [rc1 c3]. cbn [snd] in Hc3. destruct (rc1 <? 0).
  { intros [= _ _ <-]. apply alt_on_slot; auto with ccg. }
  pose proof (alt_read_clock clock c3 Hc3) as Hc4. destruct (read_clock clock c3) as [now c4]. cbn [snd] in Hc4.
  destruct (unary_wait _ _ _ _ _ c4) as [[rc2 c5]|] eqn:Ew; [|done]. apply (unary_wait_keeps malloc clock _ _ _ _ _ _ Hc4) in Ew.
  pose proof (unary_result_keeps k rc2 c5 Ew) as Hc6. destruct (unary_result k rc2 c5) as [[x y] c6]. by intros [= _ _ <-].
Qed.

Lemma subscribe_keeps (body : bytes) c : settled c -> settled (conn_subscribe malloc body c).2.
Proof.
  intros Hc. unfold conn_subscribe. destruct (dead _); [done|]. destruct (_ <=? _); [done|]. destruct (_ <? _); [done|].
  destruct (stream_alloc ST_SUBSCRIBE c) as [[k c1]|] eqn:Ea; [|done]. apply stream_alloc_keeps in Ea as [Hc1 _]; [|done].
  match goal with |- context [send_request malloc k ?p body c1] => pose proof (send_request_keeps malloc k p body c1 Hc1) as Hc2 end.
  destruct (send_request malloc k _ body c1) as [rc c2]. cbn [snd] in Hc2. destruct (rc <? 0); [|done].
  apply alt_on_slot; auto with ccg.
Qed.

Lemma new_conn_settled (w : io) (ns : cstring) : Forall ev_wf (rx_evs w) -> settled (new_conn w ns).
Proof.
  intros Hw. constructor; simpl; try done; try apply table_wf_reset; try (unfold int32, H2_INIT_WINDOW; lia).
  - intros i s Hl. unfold slot_at in Hl. simpl in Hl. apply (lookup_replicate_1 8 empty_slot) in Hl as [-> _].
    split; [done | unfold int32; simpl; lia | by intros [? _]].
  - split; [by apply Forall_nil|]. unfold strlen, CC_HDR_BLOCK_MAX. simpl. lia.
  - split; simpl; (lia || by apply Forall_nil || done).
Qed.

Lemma open_keeps (fuel : nat) (w : io) (ns : cstring) c :
  Forall ev_wf (rx_evs w) -> open_conn malloc clock fuel w ns = Some (Some c) -> settled c.
Proof.
  intros Hw. unfold open_conn. pose proof (new_conn_settled w ns Hw) as H0. set (c0 := new_conn w ns) in *.
  assert (H1 : settled (sock_write H2_PREFACE c0).2).
  { destruct (sock_write_io H2_PREFACE c0) as (rc & w1 & -> & Hr & _). apply alt_io; [done|]. rewrite Hr. apply H0. }
  destruct (sock_write H2_PREFACE c0) as [rc c1]. cbn [snd] in H1. destruct (rc <? 0); [done|].
  pose proof (alt_frame_out H2_SETTINGS 0 0 our_settings c1 H1) as H2.
  destruct (frame_out _ _ _ _ c1) as [rc2 c2]. cbn [snd] in H2. destruct (rc2 <? 0); [done|].
  pose proof (alt_read_clock clock c2 H2) as H3. destruct (read_clock clock c2) as [now c3]. cbn [snd] in H3.
  destruct (handshake _ _ _ _ c3) as [[b c4]|] eqn:Eh; [|done]. apply (handshake_keeps malloc clock _ _ _ _ _ H3) in Eh.
  destruct (_ && _); by intros [= <-].
Qed.

(** *** The table of connections *)

(** What the entries in use promise. *)
Definition table_ok (conns : list cc_conn) : Prop := Forall (fun c => k_in_use c = true -> settled c) conns.

Lemma table_ok_insert (i : nat) (c : cc_conn) (conns : list cc_conn) :
  table_ok conns -> (k_in_use c = true -> settled c) -> table_ok (<[i := c]> conns).
Proof. intros Ht Hc. by apply Forall_insert. Qed.

Lemma table_entry (h : Z) (i : nat) (c : cc_conn) (conns : list cc_conn) :
  table_ok conns -> conn_from_handle h conns = Some i -> conns !! i = Some c -> settled c.
Proof.
  intros Ht. unfold conn_from_handle. destruct (_ || _); [done|]. destruct (conns !! _) as [x|] eqn:Hx; [|done].
  destruct (k_in_use x) eqn:Hu; [|done]. intros [= <-]. rewrite Hx. intros [= <-].
  exact (Forall_lookup_1 _ _ _ _ Ht Hx Hu).
Qed.

Lemma with_handle_keeps {A} (h : Z) (conns : list cc_conn) (bad : A) (f : cc_conn -> A * cc_conn) :
  table_ok conns -> (forall c, settled c -> k_in_use (f c).2 = true -> settled (f c).2) ->
  table_ok (with_handle h conns bad f).2.
Proof.
  intros Ht Hf. unfold with_handle. destruct (conn_from_handle h conns) as [i|] eqn:Eh; [|done].
  destruct (conns !! i) as [c|] eqn:Hc; [|done]. specialize (Hf c (table_entry h i c conns Ht Eh Hc)).
  destruct (f c) as [a c']. by apply table_ok_insert.
Qed.

(** The table after any calls of the interface. *)
Inductive alt_reachable (pack : cstring -> bytes) : list cc_conn -> Prop :=
  | alt_start : alt_reachable pack (replicate CC_MAX_CONNS zero_conn)
  | alt_init fuel path ns socket conns h conns' :
      alt_reachable pack conns -> (forall w, socket = Some w -> Forall ev_wf (rx_evs w)) ->
      cc_grpc_init malloc clock fuel path ns socket conns = Some (h, conns') -> alt_reachable pack conns'
  | alt_unary fuel h method req given cap lg conns :
      alt_reachable pack conns -> alt_reachable pack (cc_grpc_unary malloc clock fuel h method req given cap lg conns).2
  | alt_subscribe h filter cb conns :
      alt_reachable pack conns -> alt_reachable pack (cc_grpc_subscribe malloc pack h filter cb conns).2
  | alt_poll h conns : alt_reachable pack conns -> alt_reachable pack (cc_grpc_poll malloc h conns).2
  | alt_cancel h sid conns : alt_reachable pack conns -> alt_reachable pack (cc_grpc_cancel h sid conns).2
  | alt_set_timeout h ns conns : alt_reachable pack conns -> alt_reachable pack (cc_grpc_set_unary_timeout h ns conns).2
  | alt_close h conns : alt_reachable pack conns -> alt_reachable pack (cc_grpc_close h conns).2.

Lemma init_keeps (fuel : nat) (path ns : option cstring) (socket : option io) conns h conns' :
  table_ok conns -> (forall w, socket = Some w -> Forall ev_wf (rx_evs w)) ->
  cc_grpc_init malloc clock fuel path ns socket conns = Some (h, conns') -> table_ok conns'.
Proof.
  intros Ht Hw. unfold cc_grpc_init. destruct (_ <=? _); [by intros [= _ <-]|]. destruct (_ <=? _); [by intros [= _ <-]|].
  destruct (unused_conn 0 conns) as [i|]; [|by intros [= _ <-]]. destruct socket as [w|]; [|by intros [= _ <-]].
  destruct (open_conn _ _ _ _ _) as [[c|]|] eqn:Eo; [| |done]; intros [= _ <-].
  - apply table_ok_insert; [done|]. intros _. by apply open_keeps in Eo; [|apply Hw].
  - apply Forall_alter; [done|]. by intros x _ _.
Qed.

Lemma reachable_ok (pack : cstring -> bytes) (conns : list cc_conn) : alt_reachable pack conns -> table_ok conns.
Proof.
  induction 1; [by apply Forall_replicate | by eapply init_keeps | apply with_handle_keeps; [done|]; intros c Hc | | | | |].
  - destruct (conn_unary _ _ _ _ _ _ _ _ c) as [[[rc p] c']|] eqn:Eu; [|done]. by apply unary_keeps in Eu.
  - unfold cc_grpc_subscribe. destruct filter as [f|]; [|done]. destruct cb; [|done].
    apply with_handle_keeps; [done|]. intros c Hc _. by apply subscribe_keeps.
  - apply with_handle_keeps; [done|]. intros c Hc _. by apply poll_keeps.
  - unfold cc_grpc_cancel. destruct (_ <=? _); [done|]. apply with_handle_keeps; [done|]. intros c Hc _. by apply cancel_keeps.
  - apply with_handle_keeps; [done|]. intros c Hc _. by apply alt_timeout.
  - by apply with_handle_keeps.
Qed.

(** C40: The alternate transport keeps its connections well formed and its windows
    full.  After any calls of the interface, whatever the peers send and
    however memory, the sockets and the clock behave, the connection of every
    handle satisfies the type invariant (a message being received fits the
    buffer it goes to, header blocks and payloads fit theirs, the tables their
    limits, the send windows their int32_t); the receive windows it keeps are
    full, 65535 bytes each; and no frame but SETTINGS and WINDOW_UPDATE leads
    to undefined behaviour while memory lasts. *)
Theorem alt_connections_stay_settled (pack : cstring -> bytes) (conns : list cc_conn) (h : Z) (i : nat) (c : cc_conn) :
  alt_reachable pack conns -> conn_from_handle h conns = Some i -> conns !! i = Some c ->
  settled c /\ k_recv c = H2_INIT_WINDOW /\
  (forall k s, slot_at c k = Some s -> g_in_use s = true -> g_recv s = H2_INIT_WINDOW) /\
  forall type flags sid payload, bytes_ok payload -> type <> H2_SETTINGS -> type <> H2_WINDOW_UPDATE -> alloc_ok malloc ->
    k_undefined (dispatch_frame malloc type flags sid payload c).2 = k_undefined c.
Proof.
  intros Hr Hh Hi. pose proof (table_entry h i c conns (reachable_ok pack conns Hr) Hh Hi) as Hc.
  split; [done|]. split; [apply Hc|]. split.
  - intros k s Hs Hu. exact (sl_recv _ _ (aw_slots _ _ c Hc k s Hs) Hu).
  - intros type flags sid payload Hp H1 H2 Ha. destruct (dispatch_keeps malloc type flags sid payload c Hc Hp) as [_ H].
    by apply H.
Qed.

End Opening.

(** ** A session *)

(** The peer's empty SETTINGS frame, and what it sends at the next poll. *)
Definition alt_socket (rest : bytes) : io :=
  Io [RxBytes [0; 0; 0; 4; 0; 0; 0; 0; 0]; RxAgain; RxBytes rest; RxAgain] [] [] [PollReady; PollReady] 0.

Definition alt_session (rest : bytes) : list cc_conn :=
  match cc_grpc_init (fun _ => true) (fun _ => 0) 5 None None (Some (alt_socket rest)) (replicate CC_MAX_CONNS zero_conn) with
  | Some (_, conns) => (cc_grpc_subscribe (fun _ => true) id 1 (Some (lit "f")) true conns).2
  | None => []
  end.

Lemma alt_connections_stay_settled_witness :
  exists (conns : list cc_conn) (c : cc_conn), conns !! 0%nat = Some c /\ ev_delivered (k_events c) = [(1, [7])] /\
    settled c /\ k_recv c = H2_INIT_WINDOW /\
    (forall k s, slot_at c k = Some s -> g_in_use s = true -> g_recv s = H2_INIT_WINDOW) /\
    forall type flags sid payload, bytes_ok payload -> type <> H2_SETTINGS -> type <> H2_WINDOW_UPDATE ->
      alloc_ok (fun _ => true) ->
      k_undefined (dispatch_frame (fun _ => true) type flags sid payload c).2 = k_undefined c.
Proof.
  pose (rest := [0; 0; 6; 0; 0; 0; 0; 0; 1; 0; 0; 0; 0; 1; 7]).
  assert (Hw : Forall ev_wf (rx_evs (alt_socket rest))).
  { vm_compute. repeat first [discriminate | constructor]. }
  pose (conns := (cc_grpc_poll (fun _ => true) 1 (alt_session rest)).2).
  assert (Hr : alt_reachable (fun _ => true) (fun _ => 0) id conns).
  { apply alt_poll. unfold alt_session.
    destruct (cc_grpc_init _ _ _ _ _ _ _) as [[h t]|] eqn:E; [|vm_compute in E; discriminate E].
    apply alt_subscribe. refine (alt_init _ _ id _ _ _ _ _ h t (alt_start _ _ _) _ E). intros w H. injection H as <-. exact Hw. }
  destruct (conns !! 0%nat) as [c|] eqn:Ec; [|vm_compute in Ec; discriminate Ec].
  exists conns, c. split; [exact Ec|]. split.
  - assert (Hd : (fun x => ev_delivered (k_events x)) <$> (conns !! 0%nat) = Some [(1, [7])]) by (vm_compute; reflexivity).
    rewrite Ec in Hd. injection Hd as Hd. exact Hd.
  - apply (alt_connections_stay_settled _ _ _ _ 1 0 _ Hr); [vm_compute; reflexivity | exact Ec].
Defined.

(** ** Calls return *)

Definition alt_now (c : cc_conn) : nat := ticks (k_io c).

Section Time.
Context (malloc : Z -> bool).
Implicit Types (c : cc_conn).

Lemma frame_out_now (type flags sid : Z) (payload : bytes) c : alt_now (frame_out type flags sid payload c).2 = alt_now c.
Proof. destruct (frame_out_io type flags sid payload c) as (rc & w & -> & _ & _ & H). exact H. Qed.

Lemma must_now (b : bool) c : alt_now (must b c) = alt_now c.
Proof. by destruct b. Qed.

(** What [e] makes of a connection leaves its clock alone. *)
Ltac by_frame :=
  match goal with |- context [frame_out ?a ?b ?d ?e ?c] =>
    let H := fresh in pose proof (frame_out_now a b d e c) as H; destruct (frame_out a b d e c); cbn [fst snd] in * end.

Lemma proto_error_now (k : nat) (code : Z) c : alt_now (stream_proto_error k code c) = alt_now c.
Proof. unfold stream_proto_error, rst_out. destruct (slot_at c k); [|done]. by_frame. done. Qed.

Lemma alt_header_now (k : nat) (data : bytes) c : alt_now (feed_header malloc k data c).1 = alt_now c.
Proof.
  unfold feed_header, put_rasm, rst_out. destruct (slot_at c k) as [s|]; [|done]. cbv zeta.
  repeat match goal with |- alt_now (if ?b then _ else _).1 = _ => destruct b end; cbn [fst];
    try (by rewrite proto_error_now); try done. by_frame. done.
Qed.

Lemma alt_body_now (k : nat) (data : bytes) c : alt_now (feed_body k data c).1 = alt_now c.
Proof.
  unfold feed_body. destruct (slot_at c k) as [s|]; [|done]. cbv zeta. set (c1 := copy_body _ _ _).
  assert (H1 : alt_now c1 = alt_now c).
  { unfold c1, copy_body. destruct (slot_at c k) as [x|]; [|done]. destruct (_ =? _); exact (must_now _ c). }
  destruct (slot_at c1 k) as [s1|] eqn:Hs1; [|done]. destruct (_ <=? _); [|done].
  unfold finish_message. rewrite Hs1. cbv zeta. destruct (_ =? _); [exact H1|].
  destruct (1 <? _); cbn [fst]; [by rewrite proto_error_now | exact H1].
Qed.

Lemma alt_feed_now (fuel k : nat) (data : bytes) c : alt_now (feed_loop malloc fuel k data c) = alt_now c.
Proof.
  revert data c. induction fuel as [|fuel IH]; intros data c; [done|]. destruct data as [|b data]; [done|].
  cbn [feed_loop]. destruct (slot_at c k) as [s|]; [|done].
  assert (Hb : forall d c', alt_now c' = alt_now c ->
    alt_now (match feed_body k d c' with (c, None) => c | (c, Some d) => feed_loop malloc fuel k d c end) = alt_now c).
  { intros d c' Hc'. pose proof (alt_body_now k d c'). destruct (feed_body k d c') as [c2 [d2|]]; cbn [fst] in *;
      [rewrite IH|]; congruence. }
  destruct (_ =? 0); [|by apply Hb]. pose proof (alt_header_now k (b :: data) c).
  destruct (feed_header malloc k (b :: data) c) as [c1 [d1|]]; cbn [fst] in *; [by apply Hb | done].
Qed.

Lemma alt_data_now (flags sid : Z) (payload : bytes) c : alt_now (handle_data_frame malloc flags sid payload c).2 = alt_now c.
Proof.
  unfold handle_data_frame, stream_feed_data. destruct (stream_find c sid) as [k|]; [|done].
  destruct (slot_at c k) as [s|]; [|done]. destruct (_ =? _); [done|]. destruct (_ || _); [done|].
  destruct (data_of flags payload) as [data|]; [|done]. cbv zeta.
  set (c0 := on_slot k _ _). pose proof (alt_feed_now (length data) k data c0) as H.
  set (c1 := feed_loop _ _ _ _ _) in *. change (alt_now c0) with (alt_now c) in H.
  assert (H2 : alt_now (credit k sid (strlen payload) c1) = alt_now c1).
  { unfold credit, window_update_out. destruct (0 <? _); [|done]. by_frame. by_frame. etransitivity; eassumption. }
  set (c2 := credit _ _ _ c1) in *.
  destruct (has_flag _ _); [|cbn [snd]; congruence]. destruct (slot_at c2 k); [|cbn [snd]; congruence].
  cbn [snd]. destruct (negb _); [rewrite proto_error_now|]; congruence.
Qed.

Lemma alt_block_now (sid : Z) (block : bytes) (flags : Z) c :
  alt_now (handle_header_block malloc sid block flags c).2 = alt_now c.
Proof.
  unfold handle_header_block. destruct (headers_block_offset _ _); [|done].
  destruct (hpack_decode_block _ _ _ _) as [d [fs|]]; [|done]. destruct (stream_find _ _); [|done].
  destruct (slot_at _ _); [|done]. destruct (_ && _); [done|]. destruct (classify _ _) as [i| |]; [|done|done].
  unfold apply_headers. destruct (slot_at _ _); [|done]. destruct (final_status i); [by destruct (_ || _)|].
  by destruct (negb _).
Qed.

Lemma alt_settings_now (p : bytes) c : alt_now (handle_settings p c).2 = alt_now c.
Proof.
  assert (H1 : forall id val c, alt_now (apply_setting id val c).2 = alt_now c).
  { intros id val c0. unfold apply_setting, shift_send. repeat destruct (_ =? _); try done; [|by destruct (_ || _)].
    cbn [snd]. etransitivity; [exact (must_now _ _)|]. exact (must_now _ c0). }
  assert (H2 : forall n p c, (length p <= n)%nat -> alt_now (apply_settings p c).2 = alt_now c).
  { induction n as [|n IH]; intros p0 c0 Hn; [destruct p0; [done | simpl in Hn; lia]|].
    destruct p0 as [|a [|b [|v0 [|v1 [|v2 [|v3 p0]]]]]]; try done. cbn [apply_settings].
    match goal with |- context [apply_setting ?i ?v c0] => specialize (H1 i v c0); destruct (apply_setting i v c0) as [rc c1] end.
    cbn [snd] in H1. destruct (rc <? 0); [done|]. rewrite IH by (simpl in Hn; lia). done. }
  unfold handle_settings. destruct (negb _); [done|]. specialize (H2 _ p c (le_n _)).
  destruct (apply_settings p c) as [rc c1]. cbn [snd] in H2. destruct (rc <? 0); [done|].
  by_frame. destruct (_ <? 0); cbn [snd]; etransitivity; eassumption.
Qed.

Lemma alt_dispatch_now (type flags sid : Z) (payload : bytes) c :
  alt_now (dispatch_frame malloc type flags sid payload c).2 = alt_now c.
Proof.
  unfold dispatch_frame.
  destruct (_ =? _). { destruct (negb _); [done|]. destruct (has_flag _ _); [done | apply alt_settings_now]. }
  destruct (_ =? _).
  { unfold handle_ping. destruct (negb _); [done|]. destruct (has_flag _ _); [done|]. by_frame. by destruct (_ <? 0). }
  destruct (_ =? _).
  { unfold handle_window_update. destruct (negb _); [done|]. destruct (_ =? _); [done|]. destruct (_ =? _);
      [exact (must_now _ c)|]. destruct (stream_find _ _); [|done]. destruct (slot_at _ _); [|done]. exact (must_now _ c). }
  destruct (_ =? _); [apply alt_data_now|].
  destruct (_ =? _).
  { unfold handle_headers_frame. destruct (hdr_block_pending _); [done|]. destruct (has_flag _ _);
      [apply alt_block_now|]. destruct (_ <? _); [done|]. by destruct (_ && _). }
  destruct (_ =? _).
  { unfold handle_continuation_frame. destruct (negb _); [done|]. destruct (_ <? _); [done|].
    destruct (_ && _); [done|]. cbv zeta. set (c1 := put_hdr _ c). destruct (has_flag _ _); [|done].
    match goal with |- context [handle_header_block _ ?a ?b ?d c1] =>
      pose proof (alt_block_now a b d c1) as H; destruct (handle_header_block _ a b d c1) end. exact H. }
  destruct (_ =? _).
  { unfold handle_rst_stream. destruct (negb _); [done|]. destruct (stream_find _ _); [|done].
    destruct (slot_at _ _); [|done]. by destruct (_ =? _). }
  destruct (_ =? _). { unfold handle_goaway. by destruct (_ <? _). }
  by destruct (_ =? _).
Qed.

Lemma alt_poll_now c : alt_now (conn_poll_once malloc c).2 = alt_now c.
Proof.
  assert (Hfail : forall e c, alt_now (conn_fail e c) = alt_now c) by (intros e c0; unfold conn_fail; by destruct (dead _)).
  assert (H1 : forall c, alt_now (process_one_frame malloc c).2 = alt_now c).
  { intros c0. unfold process_one_frame. destruct (frame_reader_fill _ _ _ _) as [[fr r] evs].
    destruct (fr <? 0); [done|]. destruct (fr =? 0); [done|]. set (c1 := put_rx r _).
    pose proof (alt_dispatch_now (fr_type r) (fr_flags r) (fr_sid r) (fr_payload r) c1) as H.
    destruct (dispatch_frame _ _ _ _ _ c1) as [rc c2]. by destruct (rc <? 0). }
  assert (H2 : forall b c, alt_now (process_frames malloc b c).2 = alt_now c).
  { induction b as [|b IH]; intros c0; [done|]. cbn [process_frames]. specialize (H1 c0).
    destruct (process_one_frame malloc c0) as [r c1]. cbn [snd] in H1. destruct (r <? 0); [done|].
    destruct (r =? 0); [done|]. by rewrite IH. }
  unfold conn_poll_once. set (c0 := put_events _ c). destruct (dead _); [done|].
  assert (H3 : alt_now (take_poll c0).2 = alt_now c) by (unfold take_poll; by destruct (polls _)).
  destruct (take_poll c0) as [[] c1]; cbn [snd] in *; [|done | done | by rewrite Hfail].
  specialize (H2 CC_POLL_FRAME_BUDGET c1). destruct (process_frames _ _ _) as [[r|] c2]; cbn [snd] in *.
  - rewrite Hfail. congruence.
  - repeat match goal with |- context [if ?b then _ else _] => destruct b; [cbn [snd]; congruence|] end. cbn [snd]. congruence.
Qed.

Context (clock : nat -> Z).

(** A poll of a waiting loop: the deadline has passed, or one reading less is
    left until it has. *)
Lemma alt_round (d : Z) (N fuel : nat) c :
  past clock d N -> (N <= alt_now c + fuel)%nat ->
  let '(ms, c1) := time_left clock d c in
  (ms <=? 0) = true \/ exists fuel', fuel = S fuel' /\ (N <= alt_now (conn_poll_once malloc c1).2 + fuel')%nat.
Proof.
  intros Hp He. unfold time_left, read_clock. set (c1 := put_io _ c).
  destruct (0 <? d - clock (ticks (k_io c))) eqn:E; [|by left]. right. rewrite alt_poll_now.
  change (alt_now c1) with (S (alt_now c)). apply Z.ltb_lt in E.
  destruct (Nat.le_gt_cases N (alt_now c)) as [Hle|Hgt]; [specialize (Hp _ Hle); unfold alt_now in Hp; lia|].
  exists (fuel - 1)%nat. lia.
Qed.

Lemma alt_wait_returns (fuel k : nat) (d : Z) (N : nat) c :
  past clock d N -> (N <= alt_now c + fuel)%nat -> exists r, unary_wait malloc clock (S fuel) k d c = Some r.
Proof.
  intros Hp. revert c. induction fuel as [|fuel IH]; intros c He; cbn [unary_wait];
    (destruct (slot_done k c); [by eauto|]); pose proof (alt_round _ _ _ _ Hp He) as Hr;
    destruct (time_left clock d c) as [ms c1]; destruct (ms <=? 0); eauto;
    (destruct Hr as [?|(f & [= <-] & Hr)]; try done); destruct (conn_poll_once malloc c1) as [e c2].
  destruct (dead _); [destruct (slot_done k c2); by eauto|]. by apply IH.
Qed.

Lemma alt_handshake_returns (fuel : nat) (d : Z) (N : nat) c :
  past clock d N -> (N <= alt_now c + fuel)%nat -> exists r, handshake malloc clock (S fuel) d c = Some r.
Proof.
  intros Hp. revert c. induction fuel as [|fuel IH]; intros c He; cbn [handshake];
    (destruct (_ || _); [by eauto|]); pose proof (alt_round _ _ _ _ Hp He) as Hr;
    destruct (time_left clock d c) as [ms c1]; destruct (ms <=? 0); eauto;
    (destruct Hr as [?|(f & [= <-] & Hr)]; try done); destruct (conn_poll_once malloc c1) as [e c2].
  by apply IH.
Qed.

(** Calls return: if the clock passes every deadline, a unary call on any
    connection, and opening a connection, give a result, whatever the peer
    does. *)
Lemma alt_calls_return :
  time_passes clock ->
  (forall c method req given cap lg, exists fuel r, conn_unary malloc clock fuel method req given cap lg c = Some r) /\
  (forall w ns, exists fuel r, open_conn malloc clock fuel w ns = Some r).
Proof.
  intros Ht. split.
  - intros c method req given cap lg. unfold conn_unary. destruct method as [path|]; [|exists O; by eauto].
    do 4 (match goal with |- context [if ?b then Some _ else _] => destruct b; [exists O; by eauto|] end).
    destruct (stream_alloc ST_UNARY c) as [[k c1]|]; [|exists O; by eauto].
    destruct (send_request _ _ _ _ _) as [rc c2]. destruct (rc <? 0); [exists O; by eauto|].
    destruct (read_clock clock c2) as [now c3]. set (d := now + _). destruct (Ht d) as [N HN].
    destruct (alt_wait_returns N k d N c3 HN ltac:(lia)) as [[rc' c4] Hr]. exists (S N). rewrite Hr. by eauto.
  - intros w ns. unfold open_conn. destruct (sock_write _ _) as [rc c1]. destruct (rc <? 0); [exists O; by eauto|].
    destruct (frame_out _ _ _ _ _) as [rc2 c2]. destruct (rc2 <? 0); [exists O; by eauto|].
    destruct (read_clock clock c2) as [now c3]. destruct (Ht (now + CC_HAND_SHAKE_MS)) as [N HN].
    destruct (alt_handshake_returns N _ N c3 HN ltac:(lia)) as [[b c4] Hr]. exists (S N). rewrite Hr. by eauto.
Qed.

End Time.

(** ** Where the code and its documents part *)
Lemma dec_digits_short (fuel k : nat) : forall (v : Z) (tail : cstring),
  v < 10 ^ Z.of_nat k -> (length (dec_digits fuel v tail) <= k + length tail)%nat.
Proof.
  revert k. induction fuel as [|fuel IH]; intros k v tail Hv; cbn [dec_digits]; [lia|]. destruct (0 <? v) eqn:E; [|lia].
  apply Z.ltb_lt in E. destruct k as [|k]; [simpl in Hv; lia|]. rewrite Nat2Z.inj_succ, Z.pow_succ_r in Hv by lia.
  specialize (IH k (v / 10) ((chr "0" + v mod 10) :: tail)). cbn [length] in IH. rewrite Nat.add_succ_r in IH. apply IH.
  apply Z.div_lt_upper_bound; lia.
Qed.

(** Every timeout a [uint64_t] can hold has at most eight digits in hours, the
    first unit tried: the timeout is rounded down to hours, and anything below
    an hour is announced as no time at all. *)
Lemma timeout_sent_in_hours (ns : Z) : 0 <= ns < 2 ^ 64 ->
  format_grpc_timeout ns = Some (fmt_u64 (ns / 3600000000000) ++ lit "H") /\
  (ns < 3600000000000 -> format_grpc_timeout ns = Some (lit "0H")).
Proof.
  intros Hns. assert (Hv : 0 <= ns / 3600000000000 < 10 ^ 7).
  { split; [apply Z.div_pos; lia | apply Z.div_lt_upper_bound; lia]. }
  assert (H : format_grpc_timeout ns = Some (fmt_u64 (ns / 3600000000000) ++ lit "H")).
  { unfold format_grpc_timeout. cbn [timeout_units]. rewrite (proj2 (Z.leb_le _ _)) by lia.
    assert (Hl : strlen (fmt_u64 (ns / 3600000000000)) <= 7).
    { unfold fmt_u64, strlen. destruct (_ =? 0); [cbn; lia|].
      pose proof (dec_digits_short 20 7 (ns / 3600000000000) [] (proj2 Hv)) as Hd. cbn [length] in Hd. lia. }
    rewrite (proj2 (Z.ltb_lt _ 16)); [done|]. rewrite strlen_app. change (strlen (lit "H")) with 1. lia. }
  split; [done|]. intros Hsmall. rewrite H, Z.div_small by lia. done.
Qed.

(** A subscription that ended with status OK reads as an active one. *)
Lemma ended_ok_reads_active (c : cc_conn) (sid : Z) (k : nat) (s : cc_stream) :
  stream_find c (u32 sid) = Some k -> slot_at c k = Some s -> g_state s = SS_DONE -> g_err s = 0 -> g_status s = 0 ->
  conn_stream_status sid c = 0.
Proof. intros Hf Hs Hd He Hst. unfold conn_stream_status. by rewrite Hf, Hs, Hd, He, Hst. Qed.

(** DATA of a stream the client gave up is taken without giving the peer its
    credit back, neither the stream's nor the connection's. *)
Lemma drained_data_not_credited (malloc : Z -> bool) (c : cc_conn) (flags sid : Z) (k : nat) (s : cc_stream) (payload : bytes) :
  stream_find c sid = Some k -> slot_at c k = Some s -> g_state s = SS_DONE -> g_err s <> 0 ->
  handle_data_frame malloc flags sid payload c = (0, c).
Proof.
  intros Hf Hs Hd He. unfold handle_data_frame. rewrite Hf, Hs, Hd. cbn [Z.eqb]. by rewrite (proj2 (Z.eqb_neq _ _) He).
Qed.

(** Cancelling leaves the slot in use. *)
Lemma cancel_keeps_the_slot (c : cc_conn) (sid : Z) (k : nat) (s : cc_stream) :
  dead (k_life c) = false -> stream_find c (u32 sid) = Some k -> slot_at c k = Some s ->
  exists s', slot_at (conn_cancel sid c).2 k = Some s' /\ g_in_use s' = g_in_use s.
Proof.
  intros Hl Hf Hs. unfold conn_cancel, rst_out. rewrite Hl, Hf, Hs. destruct (_ =? _); [by exists s|].
  destruct (frame_out_io H2_RST_STREAM 0 (g_id s) (be32 H2_ERR_CANCEL) c) as (rc & w & -> & _).
  destruct (rc <? 0); [by exists s|]. cbn [snd]. rewrite slot_at_on. change (slot_at (put_io w c) k) with (slot_at c k).
  rewrite Hs. by eexists.
Qed.

(** The connection of a new handle, with what the peer sends next. *)
Definition alt_open (evs : list poll_ev) (rest : bytes) : cc_conn :=
  new_conn (Io [RxBytes rest; RxAgain] [] [] evs 0) (lit "moby").

Definition alt_call (clock : nat -> Z) (evs : list poll_ev) (rest : bytes) : option (Z * option bytes * cc_conn) :=
  conn_unary (fun _ => true) clock 5 (Some (lit "/a.B/Get")) [1; 2] true 16 true (alt_open evs rest).

(** The answer that comes after the deadline finds no stream: the whole
    connection, its subscriptions included, is given up as a protocol error. *)
Lemma late_answer_kills_the_connection :
  exists c, alt_call (fun n => 40000 * Z.of_nat n) [PollReady] [0; 0; 5; 0; 0; 0; 0; 0; 1; 0; 0; 0; 0; 0]
    = Some (CC_GRPC_ERR_TIMEOUT, None, c) /\ dead (k_life c) = false /\
    (conn_poll_once (fun _ => true) c).1 = CC_GRPC_EV_PROTO /\ dead (k_life (conn_poll_once (fun _ => true) c).2) = true.
Proof. eexists. split; [vm_compute; reflexivity|]. split; [reflexivity|]. split; vm_compute; reflexivity. Qed.

(** A connection that fails during a call gives the status UNAVAILABLE: the
    failure itself finishes the stream, so the negative codes are not reached. *)
Lemma alt_failure_is_a_status : exists c, alt_call (fun _ => 0) [PollFail] [] = Some (CC_GRPC_STATUS_UNAVAILABLE, None, c).
Proof. eexists. vm_compute. reflexivity. Qed.

(** A request larger than the send window is begun and then dropped: HEADERS
    are out, no END_STREAM and no RST_STREAM follow. *)
Lemma refused_request_left_open :
  exists c, conn_unary (fun _ => true) (fun _ => 0) 5 (Some (lit "/a.B/Get")) [1; 2] true 16 true
      (put_windows H2_INIT_WINDOW 3 (alt_open [] [])) = Some (CC_GRPC_ERR_PROTO, None, c) /\
    0 < strlen (tx (k_io c)) /\ take 4 (drop 3 (tx (k_io c))) = [H2_HEADERS; H2_FLAG_END_HEADERS; 0; 0] /\
    strlen (tx (k_io c)) = 9 + be32_of (0 :: tx (k_io c)) 0.
Proof. eexists. split; [vm_compute; reflexivity|]. split; [vm_compute; reflexivity|]. split; vm_compute; reflexivity. Qed.

(** With all slots in use the first finished one is taken, not the oldest. *)
Lemma first_finished_is_reclaimed :
  let slot sid state := with_state state 0 0 (fresh_stream sid ST_SUBSCRIBE 65535) in
  let c := put_streams 21 (slot 19 SS_DONE :: slot 3 SS_DONE :: map (fun i => slot (5 + 2 * Z.of_nat i) SS_HEADERS) (seq 0 6))
             (alt_open [] []) in
  stream_find c 3 = Some 1%nat /\ option_map fst (stream_alloc ST_UNARY c) = Some 0%nat.
Proof. vm_compute. done. Qed.

(** A WINDOW_UPDATE can overflow the window's [int32_t], and a large
    SETTINGS_MAX_FRAME_SIZE makes a request overrun the buffer. *)
Lemma alt_undefined_cases :
  k_undefined (handle_window_update 0 [0x7f; 0xff; 0xff; 0xff] (alt_open [] [])).2 = true /\
  k_undefined (send_request (fun _ => true) 0 (lit "/a.B/Get") (replicate 17000 0)
    (put_peer (Peer 20000 100 65535) (use_slot 0 ST_UNARY (alt_open [] [])).2)).2 = true.
Proof. split; vm_compute; reflexivity. Qed.
